(* ===== verification/_CoqProject ===== *)
-Q . S2P
Prelude.v
Utf.v
Ta.v
VendorInit.v
Light.v
Interaction.v
Power.v
Rect.v
ResourceDefault.v
MetaData.v
GrUtils.v
Alloc.v
BufMgr.v
BufFacts.v
BufCalls.v
BufProps.v
Strategy.v
CompMgr.v
CompLaws.v
CompProps.v
DisplayBase.v
Displays.v
DisplayFacts.v
DisplayProps.v
HwcLayer.v
HwcColor.v
HwcDisplay.v
HwcDisplays.v
HwcFacts.v
HwcSet.v
HwcStack.v
HwcFrame.v
HwcRates.v
HwcModes.v
HwcProps.v
Cec.v
CecProps.v
SyncTask.v
ToneMap.v
Wp.v
ToneProps.v
HwcSession.v
SessionFacts.v
SessionProps.v
FbScale.v
FbPanel.v
FbDevice.v
FbFacts.v
FbProps.v
FbHdmi.v
HdmiProps.v
HwInfo.v
InfoProps.v
HwcAlloc.v
ColorPp.v
ColorProps.v
HwEvents.v
EventProps.v
CoreImpl.v
CoreProps.v
Copybit.v
CopyProps.v
