(* ===== verification/Prelude.v ===== *)
(** * Verification of the common device tree of the Sony yoshino phones

    The repository holds the device-specific native code of an Android phone:
    the part of init that sets the carrier properties, the light and power HALs,
    a string conversion library for the data port mapper, and Qualcomm's display
    stack.  The parts meet only through the platform (properties, sysfs, binder)
    except inside the power HAL, where the hints go to the interaction handler,
    and inside the display stack.  There a display asks the composition manager
    for a way to show a frame, the manager asks a strategy and a resource manager,
    and the device accepts or rejects the result; buffers come from the gralloc
    buffer manager, which keeps their geometry and their metadata.

    ** Files

    - [Prelude] (this file): outcomes of C++ code, the state monad, machine
      integers, tactics and the lemmas the components share.
    - [Utf]: src/hardware/dpm.  [Utf8to16] and [Utf16to8] are the two files;
      [UtfProps] shows that the length computed first is the length written, so
      that the copy stays in its buffer for every input of up to INT_MAX bytes, malformed
      ones included,
      and that UTF-16 survives the way to UTF-8 and back.
    - [Ta]: src/init/ta.cpp, the client of the trim area daemon.  The answers of
      the kernel and the daemon are part of the state, the system calls a trace.
      [TaProps]: the protocol as seen by a well-behaved daemon, and for any
      daemon that no descriptor is leaked or used after close.
    - [VendorInit]: src/init/init_yoshino.cpp.  The in-place parser of property
      files against a specification on lines, with imports, filters, termination
      on acyclic imports and the order in which the files are read.
    - [Light]: src/hardware/lights/Light.cpp.  Every handler over the sysfs files;
      [LightProps]: after any sequence of calls the LED shows the battery light or
      else the notification, success is reported exactly when the LED was
      written, and the ranges of the brightness values.
    - [Interaction]: src/hardware/power-libperfmgr/InteractionHandler.cpp as a
      transition system: calls of clients under the lock interleaved with a
      thread that moves from one system call to the next and sleeps on the condition
      variable until it is notified.  [InteractionProps]: invariants by induction on the
      steps (hints begin and end in pairs, an abort is seen once), that Exit wakes and
      can join the thread, and that a longer request extends a running one.
    - [Power]: Power.cpp and power-helper.c of the same directory.  The class
      [InteractionIface] states what the HAL relies on of the handler;
      [Interaction] implements it.  [PowerProps]: which hints are active in which
      mode, for durations that do not overflow, and that the parser of the statistics
      stays in its arrays.
    - [Rect]: rect.cpp and formats.cpp of sdm/libs/utils.  [Float32] is IEEE
      single precision over the Standard Library's SpecFloat; [RectProps] relates
      the float code to sets of pixels on integral rectangles.
    - [ResourceDefault]: sdm/libs/core/resource_default.cpp, the whole class: pipe
      and block allocation and the geometry of a frame.  [ResourceProps]: pipes
      are never shared between displays, blocks are exclusive in every reachable
      state, and the two halves of a split layer touch.
    - [MetaData]: libqdutils/qdMetaData.cpp with the handle of
      gralloc/gr_priv_handle.h.  [MetaSpec] is an abstract map from buffers and
      parameters to values, [MetaProps] that any sequence of calls, through any
      handles of the buffers, refines it.
    - [GrUtils]: gralloc/gr_utils.cpp and gr_adreno_info.cpp: alignment, sizes and
      planes of buffers.  [GrProps]: the planes later handed out lie in the size
      allocated; compressed buffers have room for their pixels.
    - [Alloc], [BufMgr]: gr_ion_alloc.cpp, gr_allocator.cpp and gr_buf_mgr.cpp: the
      choice of heaps and the buffer manager over a kernel of descriptors and
      mappings, the class [Kernel] with the laws [KernelLaws].  [BufFacts] and
      [BufCalls] are the invariant and its preservation by every call;
      [BufProps]: descriptors and mappings are accounted for, release gives back
      exactly what was taken unless an mmap failed, an allocated buffer is usable.
    - [Strategy], [CompMgr]: sdm/libs/core/strategy.cpp and comp_manager.cpp.  The
      manager is a client of a resource manager through the class [ResourceIface]
      with the laws [ResourceLaws]; [CompLaws] shows that [ResourceDefault] keeps
      them.  The extension library, which is not in the repository, is the class
      [Extension].  [CompProps]: which displays are registered, when safe mode
      lasts, composition by the GPU when there is no extension.
    - [DisplayBase], [Displays]: display_base.cpp and the classes derived from it
      (display_primary.cpp, display_hdmi.cpp, display_virtual.cpp).  Hardware,
      colour manager, fences and the client's event handler are the class
      [Device].  [DisplayFacts] shows that the calls of a frame come to an end and what
      each call does to the power state; [DisplayProps]: power states, that
      nothing is shown after a failed Prepare, that release fences are merged and
      none is lost or closed twice, the choice of colour and HDMI modes.

    - [HwcLayer], [HwcColor], [HwcDisplay], [HwcDisplays]: the hardware composer of
      sdm/libs/hwc2 (hwc_layers.cpp, hwc_display.cpp with its class HWCColorMode,
      hwc_display_primary.cpp, _external.cpp, _virtual.cpp and display_null.cpp).
      A layer is an object of a heap, the display holds a set in the order of z
      and a map by identifier of pointers to them.  SDM with the tone mapper and
      the callbacks is the class [Sdm], buffers and descriptors the class
      [Gralloc], the colour calls the class [ColorIntf].  [Calls] is the step
      relation of a client of the primary display.  [HwcFacts] to [HwcModes] hold
      the lemmas: what each call keeps ([HwcFacts]), the set and the map
      ([HwcSet]), the layer stack ([HwcStack]), a frame ([HwcFrame]), refresh
      rates ([HwcRates]), colour modes ([HwcModes]).  [HwcProps]: the layers agree
      and a committed stack is alive in every reachable state, validation and
      its acceptance, what Present refuses, when fences are given out; and runs
      of a small SDM that show what the code does not prevent.
    - [Cec]: src/hardware/qcom-caf/display/hdmi_cec/qhdmi_cec.cpp, the whole file:
      calls of the framework and turns of the monitoring thread on a shared
      context, over a class of kernel calls.  [CecProps]: a message survives the way
      to the driver and back, a hotplug is reported with its value, the thread ends
      when it is told to.
    - [SyncTask]: sdm/include/utils/sync_task.h, a task handed to a worker thread, as
      two threads with mutexes and condition variables.  All states of the control
      are computed; every call has its task handled once and returns.
    - [ToneMap]: sdm/libs/hwc2/hwc_tonemapper.cpp, the sessions of the tone mapper,
      whose tasks are calls because of [SyncTask].  [ToneProps]: a frame uses only
      sessions that exist and fences, buffers and mappers that are open, none is closed
      twice, and which sessions outlive the frame with which fence.
    - [Wp]: total correctness of code in [St] as a weakest precondition, with the
      rules the files after it use.
    - [HwcSession]: hwc_session.cpp, hwc_session_services.cpp, hwc_callbacks.cpp of
      sdm/libs/hwc2 and the locks of sdm/include/utils/locker.h.  Calls of the client,
      services, commands and events of the kernel follow one another; a call that has
      to wait for another one has no result ([NoFuel]).  What a display, the core and the
      colour manager do in a call is a class.  [SessionFacts] keeps the invariant of
      the displays through every call.  [SessionProps]: nothing null, destroyed or out
      of its array is used, except when a call that does not check its display is given
      one out of range, when a service has to wait for a frame, and what the
      client was told of an external display.
    - [FbScale], [FbPanel], [FbDevice]: hw_scale.cpp, hw_device.cpp, hw_primary.cpp and
      hw_virtual.cpp of sdm/libs/core/fb.  The files of sysfs are the class [Sysfs], the
      driver the class [Driver] with a log of its calls, the numbers of its headers
      the class [Mdp].  [FbFacts] describes an entry of the driver's arrays as a
      function of the pipe and shows that the code fills them so.  [FbProps]: what the
      driver is given in Validate and Commit, what becomes of its fences, and that
      the description of a panel is read for what it says.
    - [FbHdmi]: hw_hdmi.cpp of the same directory, the class of an HDMI panel on top of
      [FbDevice]: modes and timings of the driver, 3D modes, refresh rates and HDR
      metadata.  [HdmiProps]: which timing a refresh rate leads to, and when the HDR
      state of the panel is written and switched off.
    - [HwInfo]: hw_info.cpp of the same directory, the capabilities of the hardware.
      [InfoProps]: the formats of the blocks, that the reading ends, and what is
      answered after a failure.
    - [ColorPp]: color_manager.cpp of sdm/libs/core with the list of post processing
      features, and its consumer in the frame buffer back end (hw_color_manager.cpp and
      SetPPFeatures).  A feature is an object of a heap.  [ColorProps]: the driver gets
      each feature once and in order, and all of them are deleted.
    - [HwEvents]: hw_events.cpp, the thread that waits for vsync and the other events.
      [EventProps]: one call for each event that is ready, with the number of its file.
    - [CoreImpl]: core_impl.cpp, core_interface.cpp, hw_interface.cpp and
      hw_info_interface.cpp, over the objects that are alive.  [CoreProps]: at most one
      core, and what failures and the end leave behind.
    - [HwcAlloc]: hwc_buffer_allocator.cpp of sdm/libs/hwc2, over the sizes of [GrUtils]
      and a class for the gralloc device.  A format survives the way through gralloc.
    - [Copybit]: libcopybit/software_converter.cpp.  [CopyProps]: the planes of a YV12 image
      are interleaved as they should be, with and without padding, and where the copies
      from C2D write behind an image.

    ** How the code is modelled

    A function of the source is a function of the same name.  [outcome] is a
    normal return, undefined behaviour ([Undef]: an access out of bounds, a
    signed overflow, a null dereference, a conversion out of range) or lack of
    fuel.  Unsigned arithmetic wraps at its width.  Stateful code runs in [St].
    Concurrency is a step relation (Interaction, Cec, SyncTask); everywhere else a lock is held
    for the whole call or there is one thread, so a call is one step.  The
    environment (sysfs, sockets, files, properties, the perf hint manager, mmap,
    the graphics and video libraries) is a parameter, or a part of the state the
    theorems quantify over.

    Fuel occurs in thirteen loops and in one recursion.  strcpy8to16_loop runs at most
    once per byte of its input, sum_loop of tad_get_size once per word,
    load_properties_loop once per byte of the file, extract_loop of the statistics
    once per line, prepare_loop of a display at most once more than there are
    strategies left, value_loop of a CEC event once per byte of the buffer, qdcm_loop of the session once per
    bit of an int, caps_lines of the capabilities at most once per line,
    features_loop of the post processing once per slot and once more, rows of the converter
    at most twice per pair of bytes: the callers give
    that much and the theorems about them are that a result is returned.  event_monitor of the CEC HAL counts the turns of the
    thread, which are not bounded; exit_ends_monitor says which turn is the last; timing_loop of the HDMI panel
    counts the pages of timings, of which the driver gives as many as it likes, and
    DisplayEventHandler of [HwEvents] the turns of its thread.
    load_properties_from_file recurses along imports: a
    rank of the files that decreases along imports is enough depth, and a file
    that imports itself has no depth that is enough, as the program then never
    returns.

    ** What is not modelled

    Of the modelled files: logging, dumps, texts for debugging and, except in the session, [Interaction],
    [Cec] and [SyncTask], the lock objects themselves.  Of the repository:
    - the Java applications, configuration, policies and build files;
    - hwc_color_manager.cpp, which loads a closed library and forwards to it;
    - the DRM back end of SDM, as this kernel has the frame buffer driver;
    - HWC1 and the legacy libgralloc, which the device does not use, and the blits of copybit, the
      OpenGL part of the tone mapper, and the binder stubs, which make calls of a library
      without state of their own. *)
From stdpp Require Export prelude gmap strings.
From Stdlib Require Export ZArith Lia.

#[global] Open Scope Z_scope.
#[global] Set Default Goal Selector "!".
#[global] Coercion Z.of_nat : nat >-> Z.

(** * Outcomes of C and C++ code

    [Ret] is a normal return, [Undef] is undefined behaviour (an access out of
    bounds, a signed overflow, a null dereference) and [NoFuel] says that the
    bound on the number of loop iterations or nested calls was reached. *)
Inductive outcome (A : Type) : Type :=
| Ret (a : A)
| Undef
| NoFuel.
Arguments Ret {A} a.
Arguments Undef {A}.
Arguments NoFuel {A}.

#[export] Instance outcome_ret : MRet outcome := fun A a => Ret a.
#[export] Instance outcome_bind : MBind outcome := fun A B k m =>
  match m with
  | Ret a => k a
  | Undef => Undef
  | NoFuel => NoFuel
  end.

#[export] Instance outcome_eq_dec {A} `{EqDecision A} : EqDecision (outcome A).
Proof. solve_decision. Defined.

(** [check b] continues when [b] holds and is undefined behaviour otherwise. *)
Definition check (b : bool) : outcome unit := if b then Ret tt else Undef.

(** Stateful code: [St S A] runs on a state of type [S]. *)
Definition St (S A : Type) : Type := S -> outcome (A * S).

#[export] Instance st_ret {S} : MRet (St S) := fun A a s => Ret (a, s).
#[export] Instance st_bind {S} : MBind (St S) := fun A B k m s =>
  match m s with
  | Ret (a, s') => k a s'
  | Undef => Undef
  | NoFuel => NoFuel
  end.

(** Undefined behaviour, and a value of the [outcome] monad, inside [St]. *)
Definition st_undef {S A} : St S A := fun _ => Undef.
Definition st_lift {S A} (m : outcome A) : St S A := fun s =>
  match m with
  | Ret a => Ret (a, s)
  | Undef => Undef
  | NoFuel => NoFuel
  end.
Definition st_get {S} : St S S := fun s => Ret (s, s).
Definition st_gets {S A} (f : S -> A) : St S A := fun s => Ret (f s, s).
Definition st_modify {S} (f : S -> S) : St S unit := fun s => Ret (tt, f s).

Declare Scope mach_scope.
Delimit Scope mach_scope with mach.

(** * Machine integers *)

(** The value an unsigned [w]-bit object holds after [x] is stored in it. *)
Definition uwrap (w x : Z) : Z := x mod 2 ^ w.
(** The value a signed [w]-bit object holds after [x] is stored in it. *)
Definition swrap (w x : Z) : Z :=
  let m := x mod 2 ^ w in if m <? 2 ^ (w - 1) then m else m - 2 ^ w.

Abbreviation u8 := (uwrap 8).
Abbreviation u16 := (uwrap 16).
Abbreviation u32 := (uwrap 32).
Abbreviation u64 := (uwrap 64).
Abbreviation s32 := (swrap 32).

Notation "a .& b" := (Z.land a b) (at level 40, left associativity) : mach_scope.
Notation "a .| b" := (Z.lor a b) (at level 45, left associativity) : mach_scope.
Notation "a >> b" := (Z.shiftr a b) (at level 41, left associativity) : mach_scope.
Notation "a << b" := (Z.shiftl a b) (at level 41, left associativity) : mach_scope.

Definition INT_MAX : Z := 2147483647.
Definition INT_MIN : Z := -2147483648.
Definition UINT32_MAX : Z := 4294967295.

(** A signed 32-bit expression whose mathematical value is [x]: overflow is
    undefined behaviour. *)
Definition int_expr (x : Z) : outcome Z :=
  if (INT_MIN <=? x) && (x <=? INT_MAX) then Ret x else Undef.

Definition is_byte (b : Z) : Prop := 0 <= b < 256.
Definition is_u16 (x : Z) : Prop := 0 <= x < 65536.
Definition is_u32 (x : Z) : Prop := 0 <= x < 4294967296.

(** [P] holds of the [2^k] integers from [x] on. *)
Fixpoint all_bits (P : Z -> bool) (k : nat) (x : Z) : bool :=
  match k with
  | O => P x
  | S k => all_bits P k x && all_bits P k (x + 2 ^ k)
  end.

Create HintDb mach.
Create Rewrite HintDb mach_rw.

(** Replaces the powers of two of the machine widths by their values. *)
Ltac pow2_num :=
  try change (2 ^ 6) with 64 in *; try change (2 ^ 7) with 128 in *;
  try change (2 ^ 8) with 256 in *; try change (2 ^ 16) with 65536 in *;
  try change (2 ^ 24) with 16777216 in *; try change (2 ^ 31) with 2147483648 in *;
  try change (2 ^ 32) with 4294967296 in *; try change (2 ^ 64) with 18446744073709551616 in *.

(** [lia] after the powers of two and the divisions are made explicit. *)
Ltac mach_lia := unfold is_byte, is_u16, is_u32, INT_MAX, INT_MIN, UINT32_MAX in *;
  pow2_num; Z.div_mod_to_equations; lia.

(** Proves a closed decidable statement by evaluating it. *)
Ltac by_decision := refine (bool_decide_unpack _ _); vm_compute; exact I.

(** * Updates of one field of a record

    [eta] rebuilds a record from its fields; from it the update of a field [f] is
    found by abstracting over [f r].  [r <| f := v |>] and [r <| f ::= g |>]. *)
Class Eta (T : Type) := eta : T -> T.
Class FieldUpdate {T F : Type} (f : T -> F) := upd : (F -> F) -> T -> T.
Arguments upd {T F} f {_} u r /.
Ltac make_update :=
  match goal with
  | |- @FieldUpdate ?T ?F ?f =>
      let inst := constr:(_ : Eta T) in
      let b := eval red in inst in
      let u := fresh "u" in let r := fresh "r" in
      intros u r;
      let b := eval cbv beta in (b r) in
      let b := eval pattern (f r) in b in
      match b with ?g _ => let t := eval cbv beta in (g (u (f r))) in exact t end
  end.
#[export] Hint Extern 1 (FieldUpdate _) => make_update : typeclass_instances.
Declare Scope record_scope.
Notation "r <| f ::= u |>" := (upd f u r) (at level 1, f at level 9, left associativity) : record_scope.
Notation "r <| f := v |>" := (upd f (fun _ => v) r) (at level 1, f at level 9, left associativity) : record_scope.
#[global] Open Scope record_scope.

(** * std::map with integer keys: the entries in the order of the keys *)
Fixpoint zmap_get {A} (k : Z) (m : list (Z * A)) : option A :=
  match m with
  | [] => None
  | (j, a) :: m => if k =? j then Some a else zmap_get k m
  end.
Fixpoint zmap_set {A} (k : Z) (a : A) (m : list (Z * A)) : list (Z * A) :=
  match m with
  | [] => [(k, a)]
  | (j, b) :: m' => if k <? j then (k, a) :: m else if k =? j then (k, a) :: m' else (j, b) :: zmap_set k a m'
  end.
Fixpoint zmap_sorted {A} (m : list (Z * A)) : Prop :=
  match m with
  | [] => True
  | (j, _) :: m => Forall (fun e => j < fst e) m /\ zmap_sorted m
  end.

(** * Lemmas *)

Section ZMap.
Context {A : Type}.
Implicit Types m : list (Z * A).

Lemma zmap_get_set k j a m : zmap_sorted m -> zmap_get j (zmap_set k a m) = if j =? k then Some a else zmap_get j m.
Proof.
  induction m as [|[i b] m IH]; simpl; [done|]. intros [Hm Hs].
  destruct (Z.ltb_spec k i); simpl; [done|]. destruct (Z.eqb_spec k i) as [->|]; simpl.
  - by destruct (j =? i).
  - rewrite (IH Hs). destruct (Z.eqb_spec j i) as [->|]; [|done]. by destruct (Z.eqb_spec i k); [lia|].
Qed.

Lemma zmap_set_Forall (P : Z * A -> Prop) k a m : P (k, a) -> Forall P m -> Forall P (zmap_set k a m).
Proof.
  intros Hk. induction 1 as [|[i b] m Hi Hm IH]; simpl; [by constructor|].
  repeat case_match; constructor; try done; by constructor.
Qed.

Lemma zmap_set_sorted k a m : zmap_sorted m -> zmap_sorted (zmap_set k a m).
Proof.
  induction m as [|[i b] m IH]; simpl; [done|]. intros [Hm Hs].
  destruct (Z.ltb_spec k i); simpl.
  - split_and!; try done. constructor; [done|]. eapply Forall_impl; [exact Hm|]. simpl. lia.
  - destruct (Z.eqb_spec k i) as [->|]; simpl; [done|]. split; [|auto]. apply zmap_set_Forall; [simpl; lia|done].
Qed.

Lemma zmap_get_elem k a m : zmap_get k m = Some a -> (k, a) ∈ m.
Proof.
  induction m as [|[i b] m IH]; simpl; [done|]. destruct (Z.eqb_spec k i) as [->|].
  - intros [= ->]. left.
  - intros. right. auto.
Qed.

Lemma zmap_get_key k m : k ∈ m.*1 <-> is_Some (zmap_get k m).
Proof.
  induction m as [|[i b] m IH]; simpl.
  - rewrite elem_of_nil. split; [done|by intros []].
  - rewrite elem_of_cons, IH. destruct (Z.eqb_spec k i) as [->|]; [naive_solver|]. naive_solver.
Qed.
End ZMap.

Lemma bind_ret {A B} (a : A) (k : A -> outcome B) : (Ret a ≫= k) = k a.
Proof. reflexivity. Qed.

Lemma bind_Ret_inv {A B} (m : outcome A) (k : A -> outcome B) b :
  (m ≫= k) = Ret b -> exists a, m = Ret a /\ k a = Ret b.
Proof. destruct m; simpl; naive_solver. Qed.

Lemma st_bind_Ret {S A B} (m : St S A) (k : A -> St S B) s a s' :
  m s = Ret (a, s') -> (m ≫= k) s = k a s'.
Proof. intros H. unfold mbind, st_bind. by rewrite H. Qed.

Lemma st_lift_Ret {S A} (m : outcome A) (s : S) a : m = Ret a -> st_lift m s = Ret (a, s).
Proof. by intros ->. Qed.

Lemma st_bind_lift {S A B} (m : outcome A) (k : A -> St S B) s :
  (st_lift m ≫= k) s =
    match m with Ret a => k a s | Undef => Undef | NoFuel => NoFuel end.
Proof. by destruct m. Qed.

Lemma st_bind_Ret_inv {S A B} (m : St S A) (k : A -> St S B) s b s'' :
  (m ≫= k) s = Ret (b, s'') -> exists a s', m s = Ret (a, s') /\ k a s' = Ret (b, s'').
Proof. unfold mbind, st_bind. destruct (m s) as [[]| |]; naive_solver. Qed.

(** ** Relations between the states before and after

    [keeps R m]: whenever [m] returns, [R] relates the two states.  For a preorder
    it is enough to look at the calls a computation is made of. *)
Definition keeps {S A} (R : relation S) (m : St S A) : Prop :=
  forall s a s', m s = Ret (a, s') -> R s s'.

Section Keeps.
Context {S : Type} (R : relation S) `{!PreOrder R}.

Lemma keeps_ret {A} (a : A) : keeps R (mret a : St S A).
Proof. intros s b s' [= <- <-]. reflexivity. Qed.

Lemma keeps_bind {A B} (m : St S A) (k : A -> St S B) :
  keeps R m -> (forall a, keeps R (k a)) -> keeps R (m ≫= k).
Proof.
  intros Hm Hk s b s'' (a & s' & E1 & E2)%st_bind_Ret_inv.
  transitivity s'; [exact (Hm _ _ _ E1)|exact (Hk _ _ _ _ E2)].
Qed.

Lemma keeps_lift {A} (m : outcome A) : keeps R (st_lift m : St S A).
Proof. intros s a s'. unfold st_lift. destruct m; intros [= <- <-]. reflexivity. Qed.

Lemma keeps_gets {A} (f : S -> A) : keeps R (st_gets f).
Proof. intros s a s' [= <- <-]. reflexivity. Qed.

Lemma keeps_undef {A} : keeps R (st_undef : St S A).
Proof. by intros s a s'. Qed.

Lemma keeps_modify (f : S -> S) : (forall s, R s (f s)) -> keeps R (st_modify f).
Proof. intros Hf s a s' [= <- <-]. apply Hf. Qed.
End Keeps.

Create HintDb keeps.
#[export] Hint Resolve keeps_ret keeps_lift keeps_gets keeps_undef : keeps.

(** Splits a computation into its calls and leaves those the hints do not know. *)
Ltac keeps_tac :=
  repeat first
    [ progress intros
    | solve [eauto 2 with keeps typeclass_instances]
    | apply keeps_bind; [apply _| |]
    | match goal with
      | |- keeps _ (match ?x with _ => _ end) => destruct x
      | |- keeps _ (if ?b then _ else _) => destruct b
      end ].

(** Takes a hypothesis that a computation returned apart, one bind after the
    other; [H] ends as the equation of the last call. *)
Ltac st_step H :=
  let a := fresh "a" in let s := fresh "s" in let E := fresh "E" in
  apply st_bind_Ret_inv in H as (a & s & E & H).

Lemma uwrap_range w x : 0 <= w -> 0 <= uwrap w x < 2 ^ w.
Proof. intros. apply Z.mod_pos_bound. lia. Qed.

Lemma uwrap_small w x : 0 <= x < 2 ^ w -> uwrap w x = x.
Proof. apply Z.mod_small. Qed.

Lemma swrap_small w x : 0 < w -> - 2 ^ (w - 1) <= x < 2 ^ (w - 1) -> swrap w x = x.
Proof.
  intros Hw Hx. unfold swrap.
  assert (E : 2 ^ w = 2 * 2 ^ (w - 1)).
  { rewrite <- Z.pow_succ_r by lia. f_equal. lia. }
  destruct (decide (0 <= x)).
  - rewrite Z.mod_small by lia. destruct (Z.ltb_spec x (2 ^ (w - 1))); lia.
  - assert (x mod 2 ^ w = x + 2 ^ w) as ->.
    { symmetry. apply Z.mod_unique with (-1); lia. }
    destruct (Z.ltb_spec (x + 2 ^ w) (2 ^ (w - 1))); lia.
Qed.

Lemma int_expr_ok x : INT_MIN <= x <= INT_MAX -> int_expr x = Ret x.
Proof.
  intros [??]. unfold int_expr.
  rewrite (proj2 (Z.leb_le _ _)), (proj2 (Z.leb_le _ _)) by assumption. reflexivity.
Qed.

(** Masking with [2^k - 1] is the remainder. *)
Lemma land_mask k x : 0 <= k -> Z.land x (2 ^ k - 1) = x mod 2 ^ k.
Proof. intros. rewrite <- Z.land_ones by lia. f_equal. rewrite Z.ones_equiv. lia. Qed.

(** Clearing the low [k] bits rounds down to a multiple of [2^k]. *)
Lemma land_clear k x : 0 <= k -> Z.land x (Z.lnot (2 ^ k - 1)) = x - x mod 2 ^ k.
Proof.
  intros Hk. rewrite <- land_mask by done.
  rewrite <- Z.ldiff_land. symmetry. rewrite Z.sub_nocarry_ldiff.
  - apply Z.bits_inj'. intros i Hi. rewrite !Z.ldiff_spec, Z.land_spec.
    by destruct (Z.testbit x i), (Z.testbit (2 ^ k - 1) i).
  - apply Z.bits_inj'. intros i Hi. rewrite Z.ldiff_spec, Z.land_spec, Z.bits_0.
    by destruct (Z.testbit x i), (Z.testbit (2 ^ k - 1) i).
Qed.

(** A disjoint [lor] of a shifted part and a low part is a sum. *)
Lemma lor_shiftl_add k a b : 0 <= k -> 0 <= b < 2 ^ k ->
  Z.lor (Z.shiftl a k) b = a * 2 ^ k + b.
Proof.
  intros Hk Hb. rewrite <- Z.shiftl_mul_pow2 by done.
  rewrite <- Z.lxor_lor, <- Z.add_nocarry_lxor; [done|..];
  (apply Z.bits_inj'; intros i Hi; rewrite Z.land_spec, Z.bits_0;
   destruct (Z.ltb_spec i k) as [?|?];
   [by rewrite Z.shiftl_spec_low by lia
   |rewrite <- (Z.mod_small b (2 ^ k)), Z.mod_pow2_bits_high by lia; apply andb_false_r]).
Qed.

(** A decidable property of the [k]-bit integers, by evaluation. *)
Lemma all_bits_spec (P : Z -> bool) k x0 : all_bits P k x0 = true ->
  forall x, x0 <= x < x0 + 2 ^ k -> P x = true.
Proof.
  revert x0. induction k as [|k IH]; intros x0 H x Hx.
  - change (2 ^ 0%nat) with 1 in Hx. by replace x with x0 by lia.
  - cbn [all_bits] in H. apply andb_true_iff in H as [H1 H2].
    replace (2 ^ S k) with (2 ^ k + 2 ^ k) in Hx
      by (rewrite Nat2Z.inj_succ, Z.pow_succ_r; lia).
    destruct (decide (x < x0 + 2 ^ k)).
    + eapply IH; [exact H1|lia].
    + eapply (IH (x0 + 2 ^ k)); [exact H2|lia].
Qed.

#[export] Hint Resolve uwrap_range uwrap_small int_expr_ok : mach.
#[export] Hint Rewrite @bind_ret : mach_rw.
