(* ===== verification/Utf.v ===== *)
(** UTF-8 / UTF-16 conversion: src/hardware/dpm/strdup8to16.cpp and
    strdup16to8.cpp.

    A pointer into a character array is the list of the elements from the
    pointer to the end of the array, so that reading the empty list is an
    access past the array and is [Undef].  A destination array is the list of
    the elements written so far together with its capacity; a write past the
    capacity is [Undef].  The elements of a [char] array are the values 0..255
    (on the target [char] is unsigned; [UTF8_SEQ_LENGTH_signed] shows that the
    leader arithmetic does not depend on it). *)
From S2P Require Import Prelude.

(** * Memory accesses *)

Definition deref (p : list Z) : outcome Z :=
  match p with
  | [] => Undef
  | b :: _ => Ret b
  end.

(** [*dest++ = x] into an array of [cap] elements. *)
Definition put (cap : nat) (dest : list Z) (x : Z) : outcome (list Z) :=
  if decide (length dest < cap)%nat then Ret (dest ++ [x]) else Undef.

(** * strdup8to16.cpp *)
Module Utf8to16.

Open Scope mach_scope.

Definition UTF16_REPLACEMENT_CHAR : Z := 0xfffd.
Definition UNICODE_UPPER_LIMIT : Z := 0x10fffd.

Definition UTF8_SEQ_LENGTH (ch : Z) : Z :=
  ((0xe5000000 >> ((ch >> 3) .& 0x1e)) .& 3) + 1.

Definition UTF8_SHIFT_AND_MASK (unicode byte : Z) : Z :=
  u32 (unicode << 6) .| (0x3f .& byte).

Fixpoint strlen8to16_loop (SIZE_MAX : Z) (utf8Str : list Z) (len expected : Z)
  : outcome Z :=
  match utf8Str with
  | [] => Undef
  | ic :: utf8Str =>
      if ic =? 0 then Ret len
      else if (ic .& 0xc0) =? 0x80 then
        expected ← int_expr (expected - 1);
        let len := if expected <? 0 then (len + 1) mod (SIZE_MAX + 1) else len in
        strlen8to16_loop SIZE_MAX utf8Str len expected
      else
        let len := (len + 1) mod (SIZE_MAX + 1) in
        let expected := UTF8_SEQ_LENGTH ic - 1 in
        let len := if expected =? 3 then (len + 1) mod (SIZE_MAX + 1) else len in
        strlen8to16_loop SIZE_MAX utf8Str len expected
  end.

Definition strlen8to16 (SIZE_MAX : Z) (utf8Str : list Z) : outcome Z :=
  strlen8to16_loop SIZE_MAX utf8Str 0 0.

Definition leaderMask : list Z := [0xff; 0x1f; 0x0f; 0x07].

(** The [for] loop of [getUtf32FromUtf8] with [n] = seq_len - i iterations left. *)
Fixpoint getUtf32FromUtf8_loop (n : nat) (ret : Z) (p : list Z) : outcome (Z * list Z) :=
  match n with
  | O => Ret (ret, p)
  | S n =>
      b ← deref p;
      if b =? 0 then Ret (UTF16_REPLACEMENT_CHAR, p)
      else if negb ((b .& 0xc0) =? 0x80) then Ret (UTF16_REPLACEMENT_CHAR, p)
      else getUtf32FromUtf8_loop n (UTF8_SHIFT_AND_MASK ret b) (tail p)
  end.

(** Returns the decoded character and the advanced pointer. *)
Definition getUtf32FromUtf8 (p : list Z) : outcome (Z * list Z) :=
  b ← deref p;
  if (b .& 0xc0) =? 0x80 then Ret (UTF16_REPLACEMENT_CHAR, tail p)
  else
    let seq_len := UTF8_SEQ_LENGTH b in
    mask ← match leaderMask !! Z.to_nat (seq_len - 1) with
           | Some m => Ret m
           | None => Undef
           end;
    let ret := b .& mask in
    if b =? 0 then Ret (ret, p)
    else getUtf32FromUtf8_loop (Z.to_nat (seq_len - 1)) ret (tail p).

(** The loop of [strcpy8to16]; [fuel] bounds the number of characters. *)
Fixpoint strcpy8to16_loop (fuel cap : nat) (utf8Str dest : list Z) : outcome (list Z) :=
  match fuel with
  | O => NoFuel
  | S fuel =>
      b ← deref utf8Str;
      if b =? 0 then Ret dest
      else
        r ← getUtf32FromUtf8 utf8Str;
        let '(ret, utf8Str) := r in
        dest ← (if ret <=? 0xffff then put cap dest (u16 ret)
                else if ret <=? UNICODE_UPPER_LIMIT then
                  dest ← put cap dest (u16 (0xd800 .| ((ret - 0x10000) >> 10)));
                  put cap dest (u16 (0xdc00 .| ((ret - 0x10000) .& 0x3ff)))
                else put cap dest UTF16_REPLACEMENT_CHAR);
        strcpy8to16_loop fuel cap utf8Str dest
  end.

(** [cap] is the number of elements of the array [utf16Str]; the result is what
    was written, whose length is [*out_len]. *)
Definition strcpy8to16 (cap : nat) (utf8Str : list Z) : outcome (list Z) :=
  strcpy8to16_loop (S (length utf8Str)) cap utf8Str [].

(** [malloc n] says whether an allocation of [n] bytes succeeds; [None] is NULL.
    A null [ret] is an array of capacity 0. *)
Definition strdup8to16 (SIZE_MAX : Z) (malloc : Z -> bool) (s : option (list Z))
  : outcome (option (list Z)) :=
  match s with
  | None => Ret None
  | Some s =>
      len ← strlen8to16 SIZE_MAX s;
      if negb (len =? 0) && (SIZE_MAX / len <? 2) then Ret None
      else if malloc (2 * len) then
        dest ← strcpy8to16 (Z.to_nat len) s; Ret (Some dest)
      else
        dest ← strcpy8to16 0 s; Ret None
  end.

End Utf8to16.

(** * strdup16to8.cpp *)
Module Utf16to8.

Open Scope mach_scope.

(** Bytes one UTF-16 unit takes, as both loops of [strnlen16to8] count them. *)
Definition unit_len (uic : Z) : Z :=
  if uic >? 0x07ff then 3
  else if (uic >? 0x7f) || (uic =? 0) then 2
  else 1.

Fixpoint strnlen16to8_fast (utf16Str : list Z) (len : nat) (utf8Len : Z) : outcome Z :=
  match len with
  | O => Ret utf8Len
  | S len =>
      uic ← deref utf16Str;
      strnlen16to8_fast (tail utf16Str) len (utf8Len + unit_len uic)
  end.

Fixpoint strnlen16to8_slow (SIZE_MAX : Z) (utf16Str : list Z) (len : nat) (utf8Len : Z)
  : outcome Z :=
  match len with
  | O => Ret (if utf8Len =? SIZE_MAX then SIZE_MAX - 1 else utf8Len)
  | S len =>
      uic ← deref utf16Str;
      let utf8Cur := utf8Len in
      let utf8Len := (utf8Len + unit_len uic) mod (SIZE_MAX + 1) in
      if utf8Len <? utf8Cur then Ret (SIZE_MAX - 1)
      else strnlen16to8_slow SIZE_MAX (tail utf16Str) len utf8Len
  end.

Definition strnlen16to8 (SIZE_MAX : Z) (utf16Str : list Z) (len : nat) : outcome Z :=
  if Z.of_nat len <? (SIZE_MAX - 1) / 3 then strnlen16to8_fast utf16Str len 0
  else strnlen16to8_slow SIZE_MAX utf16Str len 0.

Fixpoint strncpy16to8_loop (cap : nat) (utf8cur utf16Str : list Z) (len : nat)
  : outcome (list Z) :=
  match len with
  | O => Ret utf8cur
  | S len =>
      uic ← deref utf16Str;
      let utf16Str := tail utf16Str in
      if uic >? 0x07ff then
        utf8cur ← put cap utf8cur (u8 ((uic >> 12) .| 0xe0));
        utf8cur ← put cap utf8cur (u8 (((uic >> 6) .& 0x3f) .| 0x80));
        utf8cur ← put cap utf8cur (u8 ((uic .& 0x3f) .| 0x80));
        strncpy16to8_loop cap utf8cur utf16Str len
      else if (uic >? 0x7f) || (uic =? 0) then
        utf8cur ← put cap utf8cur (u8 ((uic >> 6) .| 0xc0));
        utf8cur ← put cap utf8cur (u8 ((uic .& 0x3f) .| 0x80));
        strncpy16to8_loop cap utf8cur utf16Str len
      else
        utf8cur ← put cap utf8cur (u8 uic);
        if uic =? 0 then Ret utf8cur
        else strncpy16to8_loop cap utf8cur utf16Str len
  end.

Definition strncpy16to8 (cap : nat) (utf16Str : list Z) (len : nat) : outcome (list Z) :=
  utf8cur ← strncpy16to8_loop cap [] utf16Str len;
  put cap utf8cur 0.

Definition strndup16to8 (SIZE_MAX : Z) (malloc : Z -> bool) (s : option (list Z)) (n : nat)
  : outcome (option (list Z)) :=
  match s with
  | None => Ret None
  | Some s =>
      len ← strnlen16to8 SIZE_MAX s n;
      if len >=? SIZE_MAX - 1 then Ret None
      else if malloc (len + 1) then
        d ← strncpy16to8 (Z.to_nat (len + 1)) s n; Ret (Some d)
      else Ret None
  end.

End Utf16to8.

(** * Lemmas on memory accesses *)

Lemma deref_frame p q b : deref p = Ret b -> deref (p ++ q) = Ret b /\ tail (p ++ q) = tail p ++ q.
Proof. destruct p; naive_solver. Qed.

Lemma put_Ret cap dest x : (length dest < cap)%nat -> put cap dest x = Ret (dest ++ [x]).
Proof. intros. unfold put. by rewrite decide_True. Qed.

Lemma put_inv cap dest x d : put cap dest x = Ret d -> (length dest < cap)%nat /\ d = dest ++ [x].
Proof. unfold put. case_decide; naive_solver. Qed.

Lemma Forall_tail {A} (P : A -> Prop) l : Forall P l -> Forall P (tail l).
Proof. destruct 1; simpl; auto. Qed.

(** * Decoding never leaves the source or the destination *)
Module Utf8to16Facts.
Import Utf8to16.
Open Scope mach_scope.

Definition is_ext (b : Z) : bool := (b .& 0xc0) =? 0x80.

(** The number of UTF-16 units [strlen8to16] counts from a state with
    [expected = e], without the wrap-around of [size_t]. *)
Fixpoint count (p : list Z) (e : Z) : Z :=
  match p with
  | [] => 0
  | b :: p =>
      if b =? 0 then 0
      else if is_ext b then (if e - 1 <? 0 then 1 else 0) + count p (e - 1)
      else (if UTF8_SEQ_LENGTH b - 1 =? 3 then 2 else 1) + count p (UTF8_SEQ_LENGTH b - 1)
  end.

(** The next byte starts a character or ends the string. *)
Definition at_lead (p : list Z) : Prop :=
  match p with
  | [] => True
  | b :: _ => b = 0 \/ is_ext b = false
  end.

Lemma UTF8_SEQ_LENGTH_cases b : is_byte b -> is_ext b = false ->
  (UTF8_SEQ_LENGTH b = 1 /\ b < 0x80) \/ UTF8_SEQ_LENGTH b = 2 \/
  UTF8_SEQ_LENGTH b = 3 \/ UTF8_SEQ_LENGTH b = 4.
Proof.
  intros Hb He.
  assert (Hc := all_bits_spec (fun b => is_ext b ||
    ((UTF8_SEQ_LENGTH b =? 1) && (b <? 0x80)) || (UTF8_SEQ_LENGTH b =? 2) ||
    (UTF8_SEQ_LENGTH b =? 3) || (UTF8_SEQ_LENGTH b =? 4)) 8 0 eq_refl b Hb).
  cbv beta in Hc. rewrite He in Hc. lia.
Qed.

(** The leader arithmetic gives the same result where [char] is signed. *)
Lemma UTF8_SEQ_LENGTH_signed b : 128 <= b < 256 ->
  UTF8_SEQ_LENGTH (b - 256) = UTF8_SEQ_LENGTH b.
Proof.
  intros Hb. unfold UTF8_SEQ_LENGTH. do 2 f_equal.
  replace (b - 256) with (b + (-1) * 2 ^ 8) by lia.
  rewrite !(Z.shiftr_div_pow2 _ 3) by lia.
  change (2 ^ 8) with (32 * 2 ^ 3). rewrite Z.mul_assoc, Z.div_add by done.
  apply (f_equal (Z.shiftr 0xe5000000)).
  change 0x1e with (Z.land (2 ^ 5 - 1) 0x1e). rewrite !Z.land_assoc, !land_mask by lia.
  change (-1 * 32) with ((-1) * 2 ^ 5). by rewrite Z.mod_add.
Qed.

Lemma count_nonneg p e : 0 <= count p e.
Proof.
  revert e. induction p as [|b p IH]; intros e; simpl; [lia|].
  pose proof (IH (e - 1)). pose proof (IH (UTF8_SEQ_LENGTH b - 1)). repeat case_match; lia.
Qed.

Lemma count_le p e : count p e <= 2 * length p.
Proof.
  revert e. induction p as [|b p IH]; intros e; simpl; [lia|].
  pose proof (IH (e - 1)). pose proof (IH (UTF8_SEQ_LENGTH b - 1)). repeat case_match; lia.
Qed.

Lemma count_neg p e : e <= 0 -> count p e = count p 0.
Proof.
  revert e. induction p as [|b p IH]; intros e He; simpl; [done|].
  repeat case_match; try lia. rewrite (IH (e - 1)), (IH (0 - 1)) by lia. lia.
Qed.

Lemma count_at_lead p e : at_lead p -> count p e = count p 0.
Proof. destruct p as [|b p]; simpl; [done|]. intros [->| ->]; simpl; by repeat case_match. Qed.

(** The [int] counter of expected extension bytes stays in its range. *)
Fixpoint in_int (p : list Z) (e : Z) : Prop :=
  match p with
  | [] => True
  | b :: p =>
      b = 0 \/
      if is_ext b then INT_MIN <= e - 1 <= INT_MAX /\ in_int p (e - 1)
      else in_int p (UTF8_SEQ_LENGTH b - 1)
  end.

Lemma in_int_short p e : Forall is_byte p -> INT_MIN + length p <= e <= 3 ->
  length p <= INT_MAX -> in_int p e.
Proof.
  intros Hp. revert e. induction Hp as [|b p Hb Hp IH]; intros e He Hl; cbn [in_int]; [done|].
  right. rewrite length_cons in *. destruct (is_ext b) eqn:E.
  - split; [mach_lia|]. apply IH; mach_lia.
  - apply IH; [|mach_lia].
    destruct (UTF8_SEQ_LENGTH_cases b Hb E) as [[-> ?]|[-> |[-> | ->]]]; mach_lia.
Qed.

(** [strlen8to16] returns [count] when neither counter can overflow. *)
Lemma strlen8to16_loop_count SIZE_MAX p len e :
  0 ∈ p -> in_int p e -> 0 <= len -> len + 2 * length p <= SIZE_MAX ->
  strlen8to16_loop SIZE_MAX p len e = Ret (len + count p e).
Proof.
  intros Hin. revert len e. induction p as [|b p IH]; intros len e He Hl Hmax; [set_solver|].
  cbn [strlen8to16_loop count in_int length] in *. fold (is_ext b).
  destruct (Z.eqb_spec b 0) as [->|Hb]; [f_equal; lia|].
  assert (Hp : 0 ∈ p) by set_solver. destruct He as [He|He]; [done|].
  rewrite !(Z.mod_small (len + 1)) by lia.
  rewrite ?(Z.mod_small (len + 1 + 1)) by lia.
  destruct (is_ext b); [destruct He; rewrite int_expr_ok, bind_ret by done|];
    repeat case_match; rewrite IH by (auto; lia); f_equal; lia.
Qed.

(** More extension bytes in a row than an [int] counts down are undefined. *)
Lemma strlen8to16_loop_underflow SIZE_MAX n len e p :
  INT_MIN <= e <= INT_MAX -> e - INT_MIN < Z.of_nat n ->
  strlen8to16_loop SIZE_MAX (replicate n 0x80 ++ p) len e = Undef.
Proof.
  revert len e. induction n as [|n IH]; intros len e He Hn; [lia|].
  cbn [replicate app strlen8to16_loop]. simpl ((_ .& _) =? _). cbv iota.
  destruct (decide (e = INT_MIN)) as [->|]; [done|]. simpl (0x80 =? 0). cbv iota.
  rewrite int_expr_ok, bind_ret by lia. apply IH; lia.
Qed.

(** What the decoding loop keeps: the character fits in [k + 6n] bits, the
    pointer stays inside the string and the count is not changed. *)
Lemma getUtf32FromUtf8_loop_spec (n : nat) ret p k :
  0 ∈ p -> Forall is_byte p -> 0 <= ret < 2 ^ k -> 0 <= k -> k + 6 * n <= 32 ->
  exists r p', getUtf32FromUtf8_loop n ret p = Ret (r, p') /\
    0 <= r < Z.max 0xfffe (2 ^ (k + 6 * n)) /\ 0 ∈ p' /\ Forall is_byte p' /\
    (length p' <= length p)%nat /\ count p n = count p' 0.
Proof.
  revert ret p k. induction n as [|n IH]; intros ret p k Hin Hby Hr Hk Hn.
  { exists ret, p. simpl. split_and!; auto; try lia.
    assert (2 ^ k <= 2 ^ (k + 6 * 0%nat)) by (apply Z.pow_le_mono_r; lia). lia. }
  destruct p as [|b p]; [set_solver|]. cbn [getUtf32FromUtf8_loop deref tail].
  rewrite bind_ret. fold (is_ext b).
  assert (Hrepl : 0 <= UTF16_REPLACEMENT_CHAR < Z.max 0xfffe (2 ^ (k + 6 * S n)))
    by (unfold UTF16_REPLACEMENT_CHAR; lia).
  destruct (Z.eqb_spec b 0) as [->|Hb0].
  { eexists _, _. split_and!; [done|apply Hrepl..|set_solver|done|done|done]. }
  destruct (is_ext b) eqn:He; simpl negb; cbv iota.
  2:{ eexists _, _. split_and!; [done|apply Hrepl..|set_solver|done|done|].
      apply count_at_lead. simpl. auto. }
  inversion_clear Hby as [|?? Hbb Hby'].
  assert (Hstep : 0 <= UTF8_SHIFT_AND_MASK ret b < 2 ^ (k + 6)).
  { unfold UTF8_SHIFT_AND_MASK. rewrite (Z.land_comm 0x3f), (land_mask 6) by lia.
    pose proof (Z.mod_pos_bound b (2 ^ 6) ltac:(lia)).
    assert (2 ^ (k + 6) = 2 ^ k * 2 ^ 6) by (apply Z.pow_add_r; lia).
    assert (2 ^ (k + 6) <= 2 ^ 32) by (apply Z.pow_le_mono_r; lia).
    rewrite uwrap_small by (rewrite Z.shiftl_mul_pow2; nia).
    rewrite lor_shiftl_add by lia. nia. }
  destruct (IH (UTF8_SHIFT_AND_MASK ret b) p (k + 6)) as (r & p' & E & Hr' & Hi & Hf & Hlen & Hc);
    [set_solver|done|done|lia|lia|].
  exists r, p'. rewrite E. split_and!; auto; try lia.
  - replace (k + 6 * S n) with (k + 6 + 6 * n) by lia. lia.
  - simpl. lia.
  - rewrite <- Hc. cbn [count]. rewrite He, (proj2 (Z.eqb_neq _ _) Hb0).
    replace (S n - 1) with (Z.of_nat n) by lia. case_match; lia.
Qed.

(** The units one decoded character is written as. *)
Definition units (ret : Z) : list Z :=
  if ret <=? 0xffff then [u16 ret]
  else if ret <=? UNICODE_UPPER_LIMIT then
    [u16 (0xd800 .| ((ret - 0x10000) >> 10)); u16 (0xdc00 .| ((ret - 0x10000) .& 0x3ff))]
  else [UTF16_REPLACEMENT_CHAR].

Lemma units_1 r : r < 0x10000 -> length (units r) = 1%nat.
Proof. intros. unfold units. by rewrite (proj2 (Z.leb_le r 0xffff)) by lia. Qed.

Lemma units_2 r : (length (units r) <= 2)%nat.
Proof. unfold units. repeat case_match; simpl; lia. Qed.

(** One character: the pointer advances, stays inside the string, and the units
    written are paid for by the count. *)
Lemma getUtf32FromUtf8_spec b p e :
  b <> 0 -> 0 ∈ p -> is_byte b -> Forall is_byte p -> e <= 0 \/ is_ext b = false ->
  exists r p', getUtf32FromUtf8 (b :: p) = Ret (r, p') /\ 0 ∈ p' /\ Forall is_byte p' /\
    (length p' <= length p)%nat /\ length (units r) + count p' 0 <= count (b :: p) e.
Proof.
  intros Hb0 Hin Hb Hp He. unfold getUtf32FromUtf8. cbn [deref tail count].
  rewrite bind_ret, (proj2 (Z.eqb_neq _ _) Hb0). fold (is_ext b).
  destruct (is_ext b) eqn:Hext.
  { eexists _, _. split_and!; [done..|lia|].
    rewrite units_1 by (unfold UTF16_REPLACEMENT_CHAR; lia).
    destruct He as [He|He]; [|done].
    rewrite (count_neg p (e - 1)) by lia. case_match; lia. }
  assert (Hmask : forall m, 0 <= m -> 0 <= b .& m <= m).
  { intros m Hm. split; [apply Z.land_nonneg; by right|].
    destruct (decide (m = 0)) as [->|]; [by rewrite Z.land_0_r|].
    apply Z.ldiff_le; [lia|]. rewrite Z.land_comm, Z.ldiff_land.
    apply Z.bits_inj'. intros i Hi. rewrite !Z.land_spec, Z.lnot_spec, Z.bits_0 by lia.
    by destruct (Z.testbit m i), (Z.testbit b i). }
  pose proof (Hmask 0x1f ltac:(lia)). pose proof (Hmask 0x0f ltac:(lia)).
  pose proof (Hmask 0x07 ltac:(lia)). pose proof (Hmask 0xff ltac:(lia)).
  assert (Hloop : forall (n : nat) m k, UTF8_SEQ_LENGTH b - 1 = n -> leaderMask !! n = Some m ->
     0 <= b .& m < 2 ^ k -> 0 <= k -> k + 6 * n <= 32 -> (k + 6 * n <= 16 \/ n = 3%nat) ->
     exists r p', getUtf32FromUtf8_loop n (b .& m) p = Ret (r, p') /\ 0 ∈ p' /\
       Forall is_byte p' /\ (length p' <= length p)%nat /\
       length (units r) + count p' 0 <= (if n =? 3 then 2 else 1) + count p n).
  { intros n m k En Hm Hr Hk Hk32 Hk16.
    destruct (getUtf32FromUtf8_loop_spec n (b .& m) p k) as (r & p' & E & Hr' & Hi & Hf & Hl & Hc);
      [done..|].
    exists r, p'. split_and!; auto. rewrite Hc. pose proof (units_2 r).
    destruct Hk16 as [Hk16| ->]; [|simpl; lia].
    assert (2 ^ (k + 6 * n) <= 2 ^ 16) by (apply Z.pow_le_mono_r; lia).
    rewrite units_1 by lia. case_match; lia. }
  destruct (UTF8_SEQ_LENGTH_cases b) as [[E ?]|[E|[E|E]]]; [done|done|..]; rewrite E.
  - apply (Hloop 0%nat 0xff 8); [lia|done|lia|lia|lia|lia].
  - apply (Hloop 1%nat 0x1f 5); [lia|done|lia|lia|lia|lia].
  - apply (Hloop 2%nat 0x0f 4); [lia|done|lia|lia|lia|lia].
  - apply (Hloop 3%nat 0x07 3); [lia|done|lia|lia|lia|lia].
Qed.

(** The three branches of the copy loop are the units of the character. *)
Lemma put_units cap dest r :
  (length dest + length (units r) <= cap)%nat ->
  (if r <=? 0xffff then put cap dest (u16 r)
   else if r <=? UNICODE_UPPER_LIMIT then
     dest ← put cap dest (u16 (0xd800 .| ((r - 0x10000) >> 10)));
     put cap dest (u16 (0xdc00 .| ((r - 0x10000) .& 0x3ff)))
   else put cap dest UTF16_REPLACEMENT_CHAR) = Ret (dest ++ units r).
Proof.
  unfold units. intros Hl. repeat case_match; simpl in Hl.
  - by rewrite put_Ret by lia.
  - rewrite put_Ret by lia. simpl. rewrite put_Ret by (rewrite length_app; simpl; lia).
    by rewrite <- app_assoc.
  - by rewrite put_Ret by lia.
Qed.

Lemma strcpy8to16_loop_safe (fuel cap : nat) p dest :
  0 ∈ p -> Forall is_byte p -> (length p < fuel)%nat -> length dest + count p 0 <= cap ->
  exists d, strcpy8to16_loop fuel cap p dest = Ret d /\ length d <= length dest + count p 0.
Proof.
  revert p dest. induction fuel as [|fuel IH]; intros p dest Hin Hby Hf Hcap; [lia|].
  destruct p as [|b p]; [set_solver|]. cbn [strcpy8to16_loop deref]. rewrite bind_ret.
  destruct (Z.eqb_spec b 0) as [->|Hb0].
  { eexists. split; [done|]. pose proof (count_nonneg (0 :: p) 0). lia. }
  inversion_clear Hby as [|?? Hb Hp].
  destruct (getUtf32FromUtf8_spec b p 0) as (r & p' & E & Hi & Hf' & Hl & Hc);
    [done|set_solver|done|done|left; lia|].
  rewrite E, bind_ret. cbv beta iota. pose proof (count_nonneg p' 0).
  rewrite put_units by lia. rewrite bind_ret. simpl in Hf.
  destruct (IH p' (dest ++ units r)) as (d & Ed & Hd); [done|done|lia|rewrite length_app; lia|].
  exists d. split; [done|]. rewrite length_app in Hd. lia.
Qed.

(** Into a null array nothing can be written: only the empty string is copied. *)
Lemma strcpy8to16_null p : 0 ∈ p -> Forall is_byte p ->
  strcpy8to16 0 p = if count p 0 =? 0 then Ret [] else Undef.
Proof.
  destruct p as [|b p]; [set_solver|]. intros Hin Hby.
  unfold strcpy8to16. cbn [length strcpy8to16_loop deref]. rewrite bind_ret.
  destruct (Z.eqb_spec b 0) as [->|Hb]; [done|]. inversion_clear Hby as [|?? Hb' Hp].
  destruct (getUtf32FromUtf8_spec b p 0) as (r & p' & E & _ & _ & _ & Hc);
    [done|set_solver|done|done|left; lia|].
  rewrite E, bind_ret. pose proof (count_nonneg p' 0).
  assert (1 <= length (units r)) by (unfold units; repeat case_match; simpl; lia).
  rewrite (proj2 (Z.eqb_neq _ _)) by lia.
  unfold put. cbn [length]. rewrite !decide_False by lia. by repeat case_match.
Qed.

(** ** Decoding inverts the encoder of strdup16to8.cpp *)

Lemma getUtf32FromUtf8_loop_frame n ret p q r p' :
  getUtf32FromUtf8_loop n ret p = Ret (r, p') ->
  getUtf32FromUtf8_loop n ret (p ++ q) = Ret (r, p' ++ q).
Proof.
  revert ret p. induction n as [|n IH]; intros ret p; simpl; [naive_solver|].
  destruct p as [|b p]; [done|]. simpl. repeat case_match; naive_solver.
Qed.

Lemma getUtf32FromUtf8_frame p q r p' :
  getUtf32FromUtf8 p = Ret (r, p') -> getUtf32FromUtf8 (p ++ q) = Ret (r, p' ++ q).
Proof.
  unfold getUtf32FromUtf8. destruct p as [|b p]; [done|]. cbn [deref app tail].
  rewrite !bind_ret. repeat case_match; try naive_solver.
  rewrite !bind_ret. repeat case_match; try naive_solver. apply getUtf32FromUtf8_loop_frame.
Qed.

(** The result of a copy does not depend on the capacity or the fuel. *)
Lemma strcpy8to16_loop_det fuel fuel' cap cap' p dest d d' :
  strcpy8to16_loop fuel cap p dest = Ret d -> strcpy8to16_loop fuel' cap' p dest = Ret d' -> d = d'.
Proof.
  revert fuel' p dest. induction fuel as [|fuel IH]; intros [|fuel'] p dest; [done..|].
  cbn [strcpy8to16_loop]. intros (b & Eb & H)%bind_Ret_inv (b' & Eb' & H')%bind_Ret_inv.
  rewrite Eb in Eb'. simplify_eq. destruct (b' =? 0); [congruence|].
  apply bind_Ret_inv in H as ([r p1] & Er & H). apply bind_Ret_inv in H' as ([r' p2] & Er' & H').
  rewrite Er in Er'. simplify_eq.
  apply bind_Ret_inv in H as (e & Ee & H). apply bind_Ret_inv in H' as (e' & Ee' & H').
  enough (e = e') by (subst; eauto).
  repeat case_match; repeat match goal with
  | H : (_ ≫= _) = Ret _ |- _ => apply bind_Ret_inv in H as (?&?&?)
  | H : put _ _ _ = Ret _ |- _ => apply put_inv in H as [? ->]
  end; done.
Qed.

End Utf8to16Facts.

(** * Encoding fills exactly the space that was measured *)
Module Utf16to8Facts.
Import Utf8to16 Utf16to8 Utf8to16Facts.
Open Scope mach_scope.

(** The bytes one UTF-16 unit is encoded as (Java's modified UTF-8). *)
Definition enc (uic : Z) : list Z :=
  if uic >? 0x07ff then
    [u8 ((uic >> 12) .| 0xe0); u8 (((uic >> 6) .& 0x3f) .| 0x80); u8 ((uic .& 0x3f) .| 0x80)]
  else if (uic >? 0x7f) || (uic =? 0) then
    [u8 ((uic >> 6) .| 0xc0); u8 ((uic .& 0x3f) .| 0x80)]
  else [u8 uic].

Definition encs (s : list Z) : list Z := s ≫= enc.

(** The number of bytes of the encoding, in unbounded arithmetic. *)
Fixpoint exact_len (s : list Z) : Z :=
  match s with
  | [] => 0
  | u :: s => unit_len u + exact_len s
  end.

Lemma unit_len_bounds u : 1 <= unit_len u <= 3.
Proof. unfold unit_len. repeat case_match; lia. Qed.

Lemma length_enc u : Z.of_nat (length (enc u)) = unit_len u.
Proof. unfold enc, unit_len. by repeat case_match. Qed.

Lemma encs_cons u s : encs (u :: s) = enc u ++ encs s.
Proof. reflexivity. Qed.

Lemma length_encs s : Z.of_nat (length (encs s)) = exact_len s.
Proof.
  induction s as [|u s IH]; [done|].
  rewrite encs_cons, length_app. cbn [exact_len]. rewrite <- IH, <- length_enc. lia.
Qed.

Lemma exact_len_nonneg s : 0 <= exact_len s.
Proof. rewrite <- length_encs. lia. Qed.

Lemma exact_len_le s : exact_len s <= 3 * length s.
Proof.
  induction s as [|u s IH]; cbn [exact_len length]; [lia|]. pose proof (unit_len_bounds u). lia.
Qed.

Lemma strnlen16to8_fast_exact n s acc : (n <= length s)%nat ->
  strnlen16to8_fast s n acc = Ret (acc + exact_len (take n s)).
Proof.
  revert s acc. induction n as [|n IH]; intros s acc Hn; [simpl; f_equal; lia|].
  destruct s as [|u s]; simpl in Hn; [lia|].
  cbn [strnlen16to8_fast deref tail take exact_len]. rewrite bind_ret, IH by lia. f_equal. lia.
Qed.

Lemma strnlen16to8_slow_exact SIZE_MAX n s acc : (n <= length s)%nat ->
  3 <= SIZE_MAX -> 0 <= acc <= SIZE_MAX ->
  strnlen16to8_slow SIZE_MAX s n acc = Ret (Z.min (acc + exact_len (take n s)) (SIZE_MAX - 1)).
Proof.
  intros Hn HM. revert s acc Hn. induction n as [|n IH]; intros s acc Hn Hacc.
  { simpl. f_equal. case_match; lia. }
  destruct s as [|u s]; simpl in Hn; [lia|].
  cbn [strnlen16to8_slow deref tail take exact_len]. rewrite bind_ret.
  pose proof (unit_len_bounds u). pose proof (exact_len_nonneg (take n s)).
  destruct (decide (acc + unit_len u <= SIZE_MAX)).
  - rewrite Z.mod_small by lia. rewrite (proj2 (Z.ltb_ge _ _)) by lia.
    rewrite IH by lia. do 2 f_equal. lia.
  - assert ((acc + unit_len u) mod (SIZE_MAX + 1) = acc + unit_len u - (SIZE_MAX + 1)) as ->.
    { symmetry. apply Z.mod_unique with 1; lia. }
    rewrite (proj2 (Z.ltb_lt _ _)) by lia. f_equal. lia.
Qed.

Lemma strncpy16to8_loop_enc (cap : nat) dest s n :
  (n <= length s)%nat -> length dest + exact_len (take n s) <= cap ->
  strncpy16to8_loop cap dest s n = Ret (dest ++ encs (take n s)).
Proof.
  revert dest s. induction n as [|n IH]; intros dest s Hn Hc; [by rewrite app_nil_r|].
  destruct s as [|u s]; simpl in Hn; [lia|].
  cbn [strncpy16to8_loop deref tail take exact_len] in *. rewrite bind_ret, encs_cons.
  pose proof (exact_len_nonneg (take n s)). revert Hc. unfold enc, unit_len.
  destruct (u >? 0x7ff); [|destruct ((u >? 0x7f) || (u =? 0)) eqn:E]; intros Hc.
  all: repeat (rewrite put_Ret by (rewrite ?length_app; simpl; lia); simpl mbind).
  - rewrite IH by (rewrite ?length_app; simpl; lia). by rewrite <- !app_assoc.
  - rewrite IH by (rewrite ?length_app; simpl; lia). by rewrite <- !app_assoc.
  - apply orb_false_iff in E as [_ ->].
    rewrite IH by (rewrite ?length_app; simpl; lia). by rewrite <- !app_assoc.
Qed.

Lemma strncpy16to8_enc (cap : nat) s n :
  (n <= length s)%nat -> exact_len (take n s) + 1 <= cap ->
  strncpy16to8 cap s n = Ret (encs (take n s) ++ [0]).
Proof.
  intros Hn Hc. unfold strncpy16to8. rewrite strncpy16to8_loop_enc by (simpl; lia).
  simpl. apply put_Ret. pose proof (length_encs (take n s)). lia.
Qed.

(** Decoding the encoding of a unit gives it back: a check of every value. *)
Definition decode_enc_ok (u : Z) : bool :=
  match getUtf32FromUtf8 (enc u), units u with
  | Ret (r, []), [v] => (r =? u) && (v =? u)
  | _, _ => false
  end &&
  match enc u with
  | b :: l => (0 <? b) && (b <? 256) && forallb (fun b => (0 <=? b) && (b <? 256)) l
  | [] => false
  end &&
  match enc u with
  | b :: l => negb (is_ext b) && forallb is_ext l && (UTF8_SEQ_LENGTH b - 1 =? length l)
  | [] => false
  end.

Lemma decode_enc_all : all_bits decode_enc_ok 16 0 = true.
Proof. vm_compute. reflexivity. Qed.

Lemma decode_enc u : is_u16 u -> getUtf32FromUtf8 (enc u) = Ret (u, []) /\
  units u = [u] /\ (exists b l, enc u = b :: l /\ b <> 0) /\ Forall is_byte (enc u).
Proof.
  intros Hu. pose proof (all_bits_spec _ 16 0 decode_enc_all u Hu) as Hc.
  unfold decode_enc_ok in Hc. apply andb_true_iff in Hc as [[Hd He]%andb_true_iff _].
  destruct (getUtf32FromUtf8 (enc u)) as [[r [|]]| |]; [|done..].
  destruct (units u) as [|v [|]]; [done| |done].
  destruct (enc u) as [|b l]; [done|]. rewrite !andb_true_iff, forallb_forall in He.
  destruct He as [[Hb0 Hb] Hl]. split_and!.
  - do 2 f_equal. lia.
  - f_equal. lia.
  - exists b, l. split; [done|lia].
  - constructor; [unfold is_byte; lia|]. apply Forall_forall. intros c Hc.
    apply list_elem_of_In, Hl in Hc. unfold is_byte. lia.
Qed.

Lemma in_int_exts l q : Forall (fun b => is_ext b = true) l -> length l <= 3 -> in_int q 0 ->
  in_int (l ++ q) (length l).
Proof.
  induction 1 as [|b l Hb _ IH]; intros Hl Hq; [done|].
  cbn [app in_int]. rewrite Hb, length_cons in *. right. split; [mach_lia|].
  replace (Z.of_nat (S (length l)) - 1) with (Z.of_nat (length l)) by lia. apply IH; [lia|done].
Qed.

(** An encoding holds as many extension bytes as its leaders announce. *)
Lemma in_int_encs s e : Forall is_u16 s -> in_int (encs s ++ [0]) e.
Proof.
  intros Hs. revert e. induction Hs as [|u s Hu _ IH]; intros e; [by left|].
  pose proof (all_bits_spec _ 16 0 decode_enc_all u Hu) as Hc.
  pose proof (length_enc u) as Hl. pose proof (unit_len_bounds u).
  unfold decode_enc_ok in Hc. apply andb_true_iff in Hc as [_ Hc].
  rewrite encs_cons, <- app_assoc. destruct (enc u) as [|b l]; [done|].
  rewrite !andb_true_iff, negb_true_iff, forallb_forall in Hc. destruct Hc as [[Hb He] Hn].
  cbn [app in_int]. rewrite Hb. right. apply Z.eqb_eq in Hn as ->. simpl in Hl.
  apply in_int_exts; [|lia|apply IH]. apply Forall_forall. intros c Hc. apply He.
  by apply list_elem_of_In.
Qed.

Lemma strcpy8to16_loop_encs fuel (cap : nat) s dest :
  Forall is_u16 s -> (length s < fuel)%nat -> (length dest + length s <= cap)%nat ->
  strcpy8to16_loop fuel cap (encs s ++ [0]) dest = Ret (dest ++ s).
Proof.
  revert s dest. induction fuel as [|fuel IH]; intros s dest Hs Hf Hc; [lia|].
  destruct s as [|u s]; [by rewrite app_nil_r|]. inversion_clear Hs as [|?? Hu Hs'].
  destruct (decode_enc u Hu) as (Hd & Hun & (b & l & Eb & Hb) & _).
  apply (getUtf32FromUtf8_frame _ (encs s ++ [0])) in Hd.
  rewrite encs_cons, <- app_assoc. cbn [strcpy8to16_loop]. rewrite Hd, bind_ret.
  rewrite Eb. cbn [deref app]. rewrite bind_ret, (proj2 (Z.eqb_neq _ _) Hb). cbv beta iota.
  simpl in Hc, Hf. rewrite put_units by (rewrite Hun; simpl; lia). rewrite bind_ret, Hun.
  cbn [app]. rewrite IH by (auto; rewrite ?length_app; simpl; lia). by rewrite <- app_assoc.
Qed.

Lemma encs_bytes s : Forall is_u16 s -> Forall is_byte (encs s ++ [0]).
Proof.
  intros Hs. apply Forall_app. split; [|repeat constructor; lia].
  induction Hs as [|u s Hu _ IH]; [constructor|]. rewrite encs_cons. apply Forall_app.
  split; [by apply decode_enc|done].
Qed.

End Utf16to8Facts.

(** * Properties *)
Module UtfProps.
Import Utf8to16 Utf16to8 Utf8to16Facts Utf16to8Facts.

(** C6: for every NUL-terminated byte string whose length is at most INT_MAX and
    at most SIZE_MAX/2, [strlen8to16] returns a length, [strcpy8to16] terminates,
    reads nothing past the terminating NUL and writes at most that many UTF-16
    units, so that [strdup8to16] never overflows the array it allocates: it
    returns NULL when the size of the array overflows, else the copy when
    [malloc] gives the array.  When [malloc] fails its NULL is not tested, which
    is harmless for the empty string and a write through NULL for any other.
    (The counter of expected extension bytes is an [int]: a longer run of
    extension bytes overflows it, [strlen8to16_overflow].) *)
Theorem strdup8to16_safe SIZE_MAX malloc s :
  0 ∈ s -> Forall is_byte s -> length s <= INT_MAX -> 2 * length s <= SIZE_MAX ->
  exists len d, strlen8to16 SIZE_MAX s = Ret len /\ 0 <= len <= 2 * length s /\
    strcpy8to16 (Z.to_nat len) s = Ret d /\ length d <= len /\
    strdup8to16 SIZE_MAX malloc (Some s) =
      if negb (len =? 0) && (SIZE_MAX / len <? 2) then Ret None
      else if malloc (2 * len) then Ret (Some d)
      else if len =? 0 then Ret None else Undef.
Proof.
  intros Hin Hby HI HM. pose proof (count_nonneg s 0). pose proof (count_le s 0).
  destruct (strcpy8to16_loop_safe (S (length s)) (Z.to_nat (count s 0)) s [])
    as (d & Ed & Hd); [done|done|lia|simpl; lia|].
  assert (El : strlen8to16 SIZE_MAX s = Ret (count s 0)).
  { apply strlen8to16_loop_count; [done|apply in_int_short; auto; mach_lia|lia|lia]. }
  exists (count s 0), d. split_and!; [done|lia|lia|done|simpl in Hd; lia|].
  unfold strdup8to16. rewrite El, bind_ret, (strcpy8to16_null s) by done.
  unfold strcpy8to16. rewrite Ed. by repeat case_match.
Qed.

Lemma strdup8to16_safe_witness :
  exists len d, strlen8to16 (2 ^ 64 - 1) [0x41; 0xe2; 0x82; 0xac; 0xf0; 0x9f; 0] = Ret len /\
    0 <= len <= 14 /\ strcpy8to16 (Z.to_nat len) [0x41; 0xe2; 0x82; 0xac; 0xf0; 0x9f; 0] = Ret d /\
    length d <= len /\
    strdup8to16 (2 ^ 64 - 1) (Z.leb 0) (Some [0x41; 0xe2; 0x82; 0xac; 0xf0; 0x9f; 0]) =
      if negb (len =? 0) && ((2 ^ 64 - 1) / len <? 2) then Ret None
      else if 0 <=? 2 * len then Ret (Some d)
      else if len =? 0 then Ret None else Undef.
Proof.
  apply (strdup8to16_safe (2 ^ 64 - 1) (Z.leb 0) [0x41; 0xe2; 0x82; 0xac; 0xf0; 0x9f; 0]).
  - apply list_elem_of_In; simpl; auto 10.
  - repeat constructor; lia.
  - vm_compute. discriminate.
  - vm_compute. discriminate.
Defined.

(** A string of more than 2^31 extension bytes overflows the [int] counter. *)
Lemma strlen8to16_overflow SIZE_MAX n : 2 ^ 31 < Z.of_nat n ->
  strlen8to16 SIZE_MAX (replicate n 0x80 ++ [0]) = Undef.
Proof. intros. apply strlen8to16_loop_underflow; mach_lia. Qed.

(** C13: encoding any UTF-16 string with [strndup16to8] and decoding the result
    with [strdup8to16] gives the string back, NUL units and unpaired surrogates
    included (both allocations succeeding). *)
Theorem utf16_roundtrip SIZE_MAX s :
  Forall is_u16 s -> 12 * length s + 8 <= SIZE_MAX ->
  exists d, strndup16to8 SIZE_MAX (fun _ => true) (Some s) (length s) = Ret (Some d) /\
    strdup8to16 SIZE_MAX (fun _ => true) (Some d) = Ret (Some s).
Proof.
  intros Hs HM. pose proof (exact_len_nonneg s). pose proof (exact_len_le s).
  exists (encs s ++ [0]). split.
  - unfold strndup16to8, strnlen16to8.
    assert (Z.of_nat (length s) < (SIZE_MAX - 1) / 3).
    { enough (length s + 1 <= (SIZE_MAX - 1) / 3) by lia. apply Z.div_le_lower_bound; lia. }
    rewrite (proj2 (Z.ltb_lt _ _)) by done.
    rewrite strnlen16to8_fast_exact, firstn_all, bind_ret by lia.
    rewrite Z.geb_leb.
    rewrite (proj2 (Z.leb_gt _ _)) by lia.
    rewrite strncpy16to8_enc by (rewrite ?firstn_all; lia). by rewrite firstn_all.
  - assert (Hl : length (encs s ++ [0]) = S (length (encs s))) by (rewrite length_app; simpl; lia).
    pose proof (length_encs s).
    set (p := encs s ++ [0]) in *.
    assert (Hin : 0 ∈ p) by (apply elem_of_app; right; by apply list_elem_of_singleton).
    pose proof (encs_bytes s Hs) as Hby. fold p in Hby.
    pose proof (count_nonneg p 0). pose proof (count_le p 0).
    destruct (strcpy8to16_loop_safe (S (length p)) (Z.to_nat (count p 0)) p [])
      as (d & Ed & Hd); [done|done|lia|simpl; lia|].
    assert (Es := strcpy8to16_loop_encs (S (length s)) (length s) s [] Hs ltac:(lia) ltac:(simpl; lia)).
    fold p in Es. pose proof (strcpy8to16_loop_det _ _ _ _ _ _ _ _ Ed Es) as ->.
    assert (El : strlen8to16 SIZE_MAX p = Ret (count p 0))
      by (apply strlen8to16_loop_count; [done|by apply in_int_encs|lia|lia]).
    unfold strdup8to16. rewrite El, bind_ret.
    assert (negb (count p 0 =? 0) && (SIZE_MAX / count p 0 <? 2) = false) as ->.
    { destruct (Z.eqb_spec (count p 0) 0); [done|]. apply Z.ltb_ge.
      apply Z.div_le_lower_bound; lia. }
    unfold strcpy8to16. by rewrite Ed.
Qed.

Lemma utf16_roundtrip_witness :
  exists d, strndup16to8 4294967295 (fun _ => true) (Some [0x41; 0; 0x20ac; 0xd83d; 0xde00]) 5 =
      Ret (Some d) /\
    strdup8to16 4294967295 (fun _ => true) (Some d) = Ret (Some [0x41; 0; 0x20ac; 0xd83d; 0xde00]).
Proof.
  apply (utf16_roundtrip 4294967295 [0x41; 0; 0x20ac; 0xd83d; 0xde00]).
  - repeat constructor; lia.
  - vm_compute. discriminate.
Defined.

(** [strnlen16to8] returns the length of the UTF-8 encoding, or SIZE_MAX - 1
    when it does not fit below it (the paranoid loop detects every overflow and
    agrees with the fast one), and [strndup16to8] never writes outside the array
    it allocates from it: it returns NULL or exactly the encoding of the [n]
    units followed by a NUL. *)
Lemma strndup16to8_exact SIZE_MAX malloc s n :
  (n <= length s)%nat -> 3 <= SIZE_MAX ->
  strnlen16to8 SIZE_MAX s n = Ret (Z.min (exact_len (take n s)) (SIZE_MAX - 1)) /\
  strndup16to8 SIZE_MAX malloc (Some s) n =
    Ret (if (exact_len (take n s) <? SIZE_MAX - 1) && malloc (exact_len (take n s) + 1)
         then Some (encs (take n s) ++ [0]) else None).
Proof.
  intros Hn HM. pose proof (exact_len_nonneg (take n s)).
  assert (El : strnlen16to8 SIZE_MAX s n = Ret (Z.min (exact_len (take n s)) (SIZE_MAX - 1))).
  { unfold strnlen16to8. destruct (Z.ltb_spec n ((SIZE_MAX - 1) / 3)) as [Hlt|Hge].
    - rewrite strnlen16to8_fast_exact by done. f_equal.
      pose proof (exact_len_le (take n s)) as Hle. rewrite length_take_le in Hle by done.
      pose proof (Z.mul_div_le (SIZE_MAX - 1) 3). lia.
    - by rewrite strnlen16to8_slow_exact by lia. }
  split; [done|]. unfold strndup16to8. rewrite El, bind_ret, Z.geb_leb.
  destruct (Z.ltb_spec (exact_len (take n s)) (SIZE_MAX - 1)).
  - rewrite Z.min_l, (proj2 (Z.leb_gt _ _)) by lia.
    destruct (malloc _); [|done]. by rewrite strncpy16to8_enc by lia.
  - by rewrite Z.min_r, (proj2 (Z.leb_le _ _)) by lia.
Qed.

Lemma strndup16to8_exact_witness :
  strnlen16to8 7 [0x20ac; 0x20ac; 0x20ac] 3 = Ret 6 /\
  strndup16to8 7 (fun _ => true) (Some [0x20ac; 0x20ac; 0x20ac]) 3 = Ret None.
Proof.
  apply (strndup16to8_exact 7 (fun _ => true) [0x20ac; 0x20ac; 0x20ac] 3); simpl; lia.
Defined.

End UtfProps.
