(* ===== verification/Ta.v ===== *)
(** Reading the active customization from the trim area daemon: src/init/ta.cpp.

    The functions talk to the daemon [tad] over a Unix socket.  What the kernel
    and the daemon answer is part of the state: the results of the successive
    calls of socket, connect and write, and the data the successive reads find.
    Every system call is appended to a trace, so that the properties can speak
    of what was sent and of the life of the descriptors. *)
From S2P Require Import Prelude.

Module Ta.
Open Scope mach_scope.

(** * The system interface *)

Inductive event :=
| ESocket (fd : Z)
| EConnect (fd : Z)
| EWrite (fd : Z) (buf : list Z)
| ERead (fd : Z) (n : Z)
| EClose (fd : Z).

(** [read_data]: what the reads find, [None] for a failing read.  When a list
    is exhausted the call fails. *)
Record world := World {
  socket_ret : list Z;
  connect_ret : list Z;
  write_ret : list Z;
  read_data : list (option (list Z));
  trace : list event
}.

Definition emit (e : event) (w : world) : world :=
  World (socket_ret w) (connect_ret w) (write_ret w) (read_data w) (trace w ++ [e]).

Definition sys_socket : St world Z := fun w =>
  let r := default (-1) (head (socket_ret w)) in
  let w := World (tail (socket_ret w)) (connect_ret w) (write_ret w) (read_data w) (trace w) in
  Ret (r, if r =? -1 then w else emit (ESocket r) w).

Definition sys_connect (fd : Z) : St world Z := fun w =>
  let r := default (-1) (head (connect_ret w)) in
  Ret (r, emit (EConnect fd)
    (World (socket_ret w) (tail (connect_ret w)) (write_ret w) (read_data w) (trace w))).

Definition sys_write (fd : Z) (buf : list Z) : St world Z := fun w =>
  let r := default (-1) (head (write_ret w)) in
  Ret (r, emit (EWrite fd buf)
    (World (socket_ret w) (connect_ret w) (tail (write_ret w)) (read_data w) (trace w))).

(** [read(fd, buf, n)] gives at most [n] bytes; the result is the count, or -1,
    and the bytes stored at the start of [buf]. *)
Definition sys_read (fd n : Z) : St world (Z * list Z) := fun w =>
  let d := default None (head (read_data w)) in
  let w := emit (ERead fd n)
    (World (socket_ret w) (connect_ret w) (write_ret w) (tail (read_data w)) (trace w)) in
  match d with
  | None => Ret (-1, [], w)
  | Some bs => let bs := take (Z.to_nat n) bs in Ret (Z.of_nat (length bs), bs, w)
  end.

Definition sys_close (fd : Z) : St world Z := fun w => Ret (0, emit (EClose fd) w).

(** * ta.cpp *)

(** Reads four bytes at [p]; fewer left in the array is out of bounds. *)
Definition get_u32 (p : list Z) : outcome Z :=
  match p with
  | p0 :: p1 :: p2 :: p3 :: _ =>
      let v := u32 (p0 << 24) in
      let v := v .| u32 (p1 << 16) in
      let v := v .| u32 (p2 << 8) in
      let v := v .| p3 in
      Ret v
  | _ => Undef
  end.

Definition put_u32 (v : Z) : list Z :=
  [u8 (v >> 24) .& 0xff; u8 (v >> 16) .& 0xff; u8 (v >> 8) .& 0xff; u8 v .& 0xff].

Definition tad_open : St world Z :=
  s ← sys_socket;
  if s =? -1 then mret (-1)
  else
    rc ← sys_connect s;
    if negb (rc =? 0) then sys_close s ;; mret rc
    else mret s.

Definition tad_close (sock : Z) : St world Z :=
  if negb (sock =? -1) then sys_close sock else mret 0.

(** The repeated block: write [buf], and on a short write close the socket and
    return [err]; otherwise go on with [k]. *)
Definition send {A} (s : Z) (buf : list Z) (err : A) (k : St world A) : St world A :=
  bwritten ← sys_write s buf;
  if negb (bwritten =? length buf) then tad_close s ;; mret err
  else k.

(** The loop adding up the words of [buf], an array of [len] bytes. *)
Fixpoint sum_loop (fuel : nat) (buf : list Z) (len offset x : Z) : outcome Z :=
  match fuel with
  | O => NoFuel
  | S fuel =>
      if offset <? len then
        v ← get_u32 (drop (Z.to_nat offset) buf);
        sum_loop fuel buf len (u32 (offset + 4)) (u32 (x + v))
      else Ret x
  end.

(** The return code and the value of [*size], whose previous value is [size]. *)
Definition tad_get_size (unit_ size : Z) : St world (Z * Z) :=
  let fail := (-1, size) in
  s ← tad_open;
  if s =? -1 then mret fail
  else
    send s (put_u32 0x000d) fail (
    send s [0] fail (
    send s (put_u32 0x0001) fail (
    send s (put_u32 0x0001) fail (
    send s (put_u32 unit_) fail (
      '(nread, size_buf) ← sys_read s 4;
      if negb (nread =? 4) then tad_close s ;; mret fail
      else
        len ← st_lift (get_u32 size_buf);
        if len >? 0 then
          '(nread, buf) ← sys_read s len;
          if negb (nread =? len) then tad_close s ;; mret fail
          else
            x ← st_lift (get_u32 buf);
            x ← st_lift (sum_loop (S (Z.to_nat (len / 4))) buf len 4 x);
            tad_close s ;; mret (0, x)
        else tad_close s ;; mret (0, size)))))).

(** The return code and the contents of [buf], an array of [size] bytes. *)
Definition tad_read (unit_ : Z) (buf : list Z) (size : Z) : St world (Z * list Z) :=
  let fail := (-1, buf) in
  s ← tad_open;
  if s =? -1 then mret fail
  else
    send s (put_u32 0x0011) fail (
    send s [0] fail (
    send s (put_u32 0x0001) fail (
    send s (put_u32 0x0000) fail (
    send s (put_u32 unit_ ++ put_u32 size) fail (
      '(nread, size_buf) ← sys_read s 4;
      if negb (nread =? 4) then tad_close s ;; mret fail
      else
        len ← st_lift (get_u32 size_buf);
        if len >? 0 then
          '(nread, unit_buf) ← sys_read s len;
          if negb (nread =? len) then tad_close s ;; mret fail
          else
            let buf := if len >? size
                       then take (Z.to_nat size) (drop (Z.to_nat (len - size)) unit_buf)
                       else buf in
            tad_close s ;; mret (0, buf)
        else tad_close s ;; mret (0, buf)))))).

(** The bytes before the first NUL of [str]. *)
Fixpoint c_string (str : list Z) : list Z :=
  match str with
  | [] => []
  | b :: str => if b =? 0 then [] else b :: c_string str
  end.

Definition ta_get_cust_active : St world (list Z) :=
  '(rc, size) ← tad_get_size 0x8A4 0;
  if negb (rc =? 0) || (size =? 0) then mret []
  else
    '(rc, buf) ← tad_read 0x8A4 (replicate (Z.to_nat size) 0) size;
    if negb (rc =? 0) then mret []
    else
      (* char str[size + 1] holds the copy and the terminator *)
      st_lift (check (size <? u32 (size + 1))) ;;
      mret (c_string (buf ++ [0])).

(** * Discipline of the descriptors *)

(** Removes the first occurrence of [fd]. *)
Fixpoint remove1 (fd : Z) (o : list Z) : option (list Z) :=
  match o with
  | [] => None
  | x :: o => if decide (x = fd) then Some o else cons x <$> remove1 fd o
  end.

(** Runs a trace on the list of open descriptors: [None] when a descriptor is
    used that is not open (use after close, double close). *)
Fixpoint fd_run (o : list Z) (t : list event) : option (list Z) :=
  match t with
  | [] => Some o
  | ESocket fd :: t => fd_run (fd :: o) t
  | (EConnect fd | EWrite fd _ | ERead fd _) :: t =>
      if decide (fd ∈ o) then fd_run o t else None
  | EClose fd :: t => remove1 fd o ≫= fun o => fd_run o t
  end.

(** connect(2) returns 0 or -1. *)
Definition connect_doc (w : world) : Prop := Forall (fun r => r = 0 \/ r = -1) (connect_ret w).

(** [m] started with the descriptors [o] open uses only open descriptors and
    leaves open descriptors and a result related by [Q]. *)
Definition fd_spec {A} (o : list Z) (m : St world A) (Q : A -> list Z -> Prop) : Prop :=
  forall w a w', connect_doc w -> m w = Ret (a, w') ->
    connect_doc w' /\ exists t o', trace w' = trace w ++ t /\ fd_run o t = Some o' /\ Q a o'.

Lemma fd_run_app o t1 t2 : fd_run o (t1 ++ t2) = fd_run o t1 ≫= fun o => fd_run o t2.
Proof.
  revert o. induction t1 as [|[] t1 IH]; intros o; simpl; auto; try (case_decide; simpl; auto).
  destruct (remove1 _ o); simpl; auto.
Qed.

Lemma fd_spec_ret {A} o (a : A) (Q : A -> list Z -> Prop) : Q a o -> fd_spec o (mret a) Q.
Proof.
  intros HQ w a' w' Hc [= -> ->]. split; [done|]. exists [], o. by rewrite app_nil_r.
Qed.

Lemma fd_spec_bind {A B} o (m : St world A) (k : A -> St world B) Q R :
  fd_spec o m Q -> (forall a o', Q a o' -> fd_spec o' (k a) R) -> fd_spec o (m ≫= k) R.
Proof.
  intros Hm Hk w b w'' Hc (a & w' & E1 & E2)%st_bind_Ret_inv.
  destruct (Hm _ _ _ Hc E1) as (Hc' & t & o' & Ht & Ho & HQ).
  destruct (Hk _ _ HQ _ _ _ Hc' E2) as (Hc'' & t' & o'' & Ht' & Ho' & HR).
  split; [done|]. exists (t ++ t'), o''. rewrite fd_run_app, Ho, Ht', Ht, app_assoc. auto.
Qed.

Lemma fd_spec_lift {A} o (m : outcome A) : fd_spec o (st_lift m) (fun _ o' => o' = o).
Proof.
  intros w a w' Hc. destruct m; intros [= -> ->]. split; [done|].
  exists [], o. by rewrite app_nil_r.
Qed.

Lemma fd_spec_socket o :
  fd_spec o sys_socket (fun s o' => (s = -1 /\ o' = o) \/ (s <> -1 /\ o' = s :: o)).
Proof.
  intros w a w' Hc [= <- <-]. destruct (Z.eqb_spec (default (-1) (head (socket_ret w))) (-1)).
  - split; [done|]. exists [], o. rewrite app_nil_r. auto.
  - split; [done|]. eexists [_], _. split_and!; [done..|]. auto.
Qed.

Lemma fd_spec_connect o s : s ∈ o ->
  fd_spec o (sys_connect s) (fun rc o' => (rc = 0 \/ rc = -1) /\ o' = o).
Proof.
  intros Hs w a w' Hc [= <- <-]. unfold connect_doc in *. simpl. split.
  - by destruct Hc; simpl.
  - exists [EConnect s], o. simpl. rewrite decide_True by done. split_and!; auto.
    destruct Hc; simpl; auto.
Qed.

Lemma fd_spec_write o s buf : s ∈ o -> fd_spec o (sys_write s buf) (fun _ o' => o' = o).
Proof.
  intros Hs w a w' Hc [= <- <-]. split; [done|]. exists [EWrite s buf], o.
  simpl. by rewrite decide_True.
Qed.

Lemma fd_spec_read o s n : s ∈ o -> fd_spec o (sys_read s n) (fun _ o' => o' = o).
Proof.
  intros Hs w a w' Hc. unfold sys_read.
  destruct (default None (head (read_data w))); intros [= <- <-];
    (split; [done|]; exists [ERead s n], o; simpl; by rewrite decide_True).
Qed.

Lemma fd_spec_close o s : s <> -1 -> fd_spec (s :: o) (tad_close s) (fun _ o' => o' = o).
Proof.
  intros Hs w a w' Hc. unfold tad_close. rewrite (proj2 (Z.eqb_neq _ _) Hs). intros [= <- <-].
  split; [done|]. exists [EClose s], o. split_and!; [done| |done]. simpl.
  by rewrite decide_True.
Qed.

Lemma fd_spec_mono {A} o (m : St world A) (Q R : A -> list Z -> Prop) :
  fd_spec o m Q -> (forall a o', Q a o' -> R a o') -> fd_spec o m R.
Proof. intros Hm H w a w' Hc E. destruct (Hm _ _ _ Hc E) as (?&?&?&?&?&?). eauto 10. Qed.

Lemma fd_spec_open o :
  fd_spec o tad_open (fun s o' => (s = -1 /\ o' = o) \/ (s <> -1 /\ o' = s :: o)).
Proof.
  eapply fd_spec_bind; [apply fd_spec_socket|]. intros s o' [[-> ->]|[Hs ->]].
  { apply fd_spec_ret. auto. }
  rewrite (proj2 (Z.eqb_neq _ _) Hs).
  eapply fd_spec_bind; [apply fd_spec_connect, elem_of_cons; auto|]. intros rc o' [Hrc ->].
  destruct Hrc as [-> | ->]; simpl.
  { apply fd_spec_ret. auto. }
  eapply fd_spec_bind.
  { pose proof (fd_spec_close o s Hs) as Hc. unfold tad_close in Hc.
    rewrite (proj2 (Z.eqb_neq _ _) Hs) in Hc. exact Hc. }
  intros _ o' ->. apply fd_spec_ret. auto.
Qed.

Create HintDb tad.

(** Closing the socket and returning restores the descriptors. *)
Lemma fd_spec_done {A} o s (a : A) : s <> -1 ->
  fd_spec (s :: o) (tad_close s ;; mret a) (fun _ o' => o' = o).
Proof.
  intros Hs. eapply fd_spec_bind; [by apply fd_spec_close|]. intros _ o' ->. by apply fd_spec_ret.
Qed.

Lemma fd_spec_send {A} o s buf (err : A) k : s <> -1 ->
  fd_spec (s :: o) k (fun _ o' => o' = o) ->
  fd_spec (s :: o) (send s buf err k) (fun _ o' => o' = o).
Proof.
  intros Hs Hk. eapply fd_spec_bind; [apply fd_spec_write, elem_of_cons; auto|].
  intros n o' ->. case_match; [by apply fd_spec_done|done].
Qed.
#[local] Hint Resolve fd_spec_done : tad.

(** Both requests end with the same exchange: a length, then that many bytes,
    which [k] uses. *)
Definition reply {A} (s : Z) (err dflt : A) (k : Z -> list Z -> St world A) : St world A :=
  '(nread, size_buf) ← sys_read s 4;
  if negb (nread =? 4) then tad_close s ;; mret err
  else
    len ← st_lift (get_u32 size_buf);
    if len >? 0 then
      '(nread, buf) ← sys_read s len;
      if negb (nread =? len) then tad_close s ;; mret err
      else k len buf
    else tad_close s ;; mret dflt.

Lemma fd_spec_reply {A} o s (err dflt : A) (k : Z -> list Z -> St world A) : s <> -1 ->
  (forall len buf, fd_spec (s :: o) (k len buf) (fun _ o' => o' = o)) ->
  fd_spec (s :: o) (reply s err dflt k) (fun _ o' => o' = o).
Proof.
  intros Hs Hk. assert (Hin : s ∈ s :: o) by (apply elem_of_cons; auto).
  eapply fd_spec_bind; [by apply fd_spec_read|]. intros [n b] o' ->.
  case_match; [auto with tad|].
  eapply fd_spec_bind; [apply fd_spec_lift|]. intros len o' ->.
  case_match; [|auto with tad].
  eapply fd_spec_bind; [by apply fd_spec_read|]. intros [n' b'] o' ->.
  case_match; auto with tad.
Qed.

Lemma fd_spec_get_size o u sz : fd_spec o (tad_get_size u sz) (fun _ o' => o' = o).
Proof.
  eapply fd_spec_bind; [apply fd_spec_open|]. intros s o' [[-> ->]|[Hs ->]].
  { by apply fd_spec_ret. }
  rewrite (proj2 (Z.eqb_neq _ _) Hs). do 5 (apply fd_spec_send; [done|]).
  apply (fd_spec_reply o s (-1, sz) (0, sz) (fun len buf =>
    x ← st_lift (get_u32 buf);
    x ← st_lift (sum_loop (S (Z.to_nat (len / 4))) buf len 4 x);
    tad_close s ;; mret (0, x))); [done|]. intros len buf.
  do 2 (eapply fd_spec_bind; [apply fd_spec_lift|]; intros ? o' ->). auto with tad.
Qed.

Lemma fd_spec_tad_read o u b sz : fd_spec o (tad_read u b sz) (fun _ o' => o' = o).
Proof.
  eapply fd_spec_bind; [apply fd_spec_open|]. intros s o' [[-> ->]|[Hs ->]].
  { by apply fd_spec_ret. }
  rewrite (proj2 (Z.eqb_neq _ _) Hs). do 5 (apply fd_spec_send; [done|]).
  apply (fd_spec_reply o s (-1, b) (0, b) (fun len buf =>
    tad_close s ;; mret (0, if len >? sz
      then take (Z.to_nat sz) (drop (Z.to_nat (len - sz)) buf) else b))); [done|].
  intros. auto with tad.
Qed.

Lemma fd_spec_cust_active o : fd_spec o ta_get_cust_active (fun _ o' => o' = o).
Proof.
  eapply fd_spec_bind; [apply fd_spec_get_size|]. intros [rc size] o' ->.
  case_match; [by apply fd_spec_ret|].
  eapply fd_spec_bind; [apply fd_spec_tad_read|]. intros [rc' buf] o' ->.
  case_match; [by apply fd_spec_ret|].
  eapply fd_spec_bind; [apply fd_spec_lift|]. intros _ o' ->. by apply fd_spec_ret.
Qed.

(** * Big-endian words *)

Lemma u8_byte_and x : u8 x .& 0xff = x mod 256.
Proof.
  unfold uwrap. change 0xff with (2 ^ 8 - 1). rewrite land_mask by lia.
  change (2 ^ 8) with 256. by rewrite Z.mod_mod.
Qed.

Lemma put_u32_bytes v : put_u32 v =
  [v / 2 ^ 24 mod 256; v / 2 ^ 16 mod 256; v / 2 ^ 8 mod 256; v mod 256].
Proof. unfold put_u32. rewrite !u8_byte_and, !Z.shiftr_div_pow2 by lia. done. Qed.

Lemma get_u32_sum b0 b1 b2 b3 q : is_byte b0 -> is_byte b1 -> is_byte b2 -> is_byte b3 ->
  get_u32 (b0 :: b1 :: b2 :: b3 :: q) = Ret (b0 * 2 ^ 24 + b1 * 2 ^ 16 + b2 * 2 ^ 8 + b3).
Proof.
  unfold is_byte. intros. unfold get_u32. f_equal.
  rewrite !uwrap_small by (rewrite Z.shiftl_mul_pow2; mach_lia).
  rewrite (lor_shiftl_add 24) by (rewrite ?Z.shiftl_mul_pow2; mach_lia).
  rewrite !Z.shiftl_mul_pow2 by lia.
  replace (b0 * 2 ^ 24 + b1 * 2 ^ 16) with ((b0 * 256 + b1) * 2 ^ 16) by mach_lia.
  rewrite <- (Z.shiftl_mul_pow2 _ 16), lor_shiftl_add by mach_lia.
  replace ((b0 * 256 + b1) * 2 ^ 16 + b2 * 2 ^ 8)
    with (((b0 * 256 + b1) * 256 + b2) * 2 ^ 8) by mach_lia.
  rewrite <- (Z.shiftl_mul_pow2 ((b0 * 256 + b1) * 256 + b2) 8), lor_shiftl_add by mach_lia.
  rewrite ?Z.shiftl_mul_pow2 by lia. mach_lia.
Qed.

Lemma get_put_u32 v q : is_u32 v -> get_u32 (put_u32 v ++ q) = Ret v.
Proof.
  unfold is_u32. intros Hv. rewrite put_u32_bytes. cbn [app].
  pose proof (fun x => Z.mod_pos_bound x 256 ltac:(lia)) as Hm.
  rewrite get_u32_sum by apply Hm. f_equal.
  mach_lia.
Qed.

Lemma get_u32_short p : (length p < 4)%nat -> get_u32 p = Undef.
Proof. destruct p as [|? [|? [|? [|]]]]; simpl; try done. lia. Qed.

Lemma get_u32_range p v : get_u32 p = Ret v -> Forall is_byte p -> is_u32 v.
Proof.
  destruct p as [|a [|b [|c [|d p]]]]; try done. rewrite !Forall_cons. intros E (?&?&?&?&_).
  rewrite get_u32_sum in E by done. simplify_eq. unfold is_byte, is_u32 in *. lia.
Qed.

Definition words (ws : list Z) : list Z := ws ≫= put_u32.
Definition sum_words (ws : list Z) : Z := foldr Z.add 0 ws.

Lemma length_words ws : length (words ws) = (4 * length ws)%nat.
Proof.
  induction ws as [|v ws IH]; [done|]. unfold words in *. rewrite bind_cons, length_app, IH.
  simpl. lia.
Qed.

Lemma drop_words n ws : drop (4 * n) (words ws) = words (drop n ws).
Proof.
  revert ws. induction n as [|n IH]; intros ws; [done|].
  destruct ws as [|v ws]; [by rewrite !drop_nil|].
  replace (4 * S n)%nat with (4 + 4 * n)%nat by lia.
  change (drop (S n) (v :: ws)) with (drop n ws). rewrite <- IH, <- drop_drop. done.
Qed.

(** The loop adds up the words after the first [i]. *)
Lemma sum_loop_words fuel ws i x : Forall is_u32 ws -> 4 * length ws < 2 ^ 32 ->
  (i <= length ws)%nat -> (length ws - i < fuel)%nat -> is_u32 x ->
  sum_loop fuel (words ws) (4 * length ws) (4 * i) x = Ret (u32 (x + sum_words (drop i ws))).
Proof.
  intros Hws Hlen. revert i x. induction fuel as [|fuel IH]; intros i x Hi Hf Hx; [lia|].
  cbn [sum_loop]. destruct (Z.ltb_spec (4 * i) (4 * length ws)).
  - replace (Z.to_nat (4 * i)) with (4 * i)%nat by lia. rewrite drop_words.
    destruct (drop i ws) as [|v rest] eqn:Ed.
    { apply (f_equal length) in Ed. rewrite length_drop in Ed. simpl in Ed. lia. }
    assert (Hv : is_u32 v).
    { apply (Forall_drop _ i) in Hws. rewrite Ed in Hws. by inversion Hws. }
    change (words (v :: rest)) with (put_u32 v ++ words rest).
    rewrite get_put_u32, bind_ret by done.
    assert (E4 : u32 (4 * i + 4) = 4 * S i).
    { rewrite uwrap_small; lia. }
    rewrite E4, IH; [|lia|lia|apply (uwrap_range 32); lia].
    assert (drop (S i) ws = rest) as ->.
    { rewrite <- (Nat.add_1_r i), <- drop_drop, Ed. done. }
    f_equal. unfold uwrap. rewrite Zplus_mod_idemp_l. f_equal. simpl. lia.
  - assert (drop i ws = []) as -> by (apply drop_ge; lia).
    simpl. f_equal. rewrite uwrap_small; unfold is_u32 in Hx; simpl; lia.
Qed.

(** A length that is not a multiple of four makes the loop read past the array. *)
Lemma sum_loop_unaligned fuel buf (i : nat) x : length buf < 2 ^ 32 ->
  (length buf mod 4 <> 0)%nat -> 4 * i < length buf -> (length buf < 4 * (i + fuel))%nat ->
  sum_loop fuel buf (length buf) (4 * i) x = Undef.
Proof.
  intros Hlen Hmod. revert i x. induction fuel as [|fuel IH]; intros i x Hi Hf; [lia|].
  cbn [sum_loop]. rewrite (proj2 (Z.ltb_lt _ _)) by done.
  replace (Z.to_nat (4 * i)) with (4 * i)%nat by lia.
  destruct (decide (4 * i + 4 < length buf)).
  - destruct (get_u32 (drop (4 * i) buf)) as [v| |] eqn:E; [|done|].
    + rewrite bind_ret.
      assert (E4 : u32 (4 * i + 4) = 4 * S i) by (rewrite uwrap_small; lia).
      rewrite E4. apply IH; lia.
    + exfalso. unfold get_u32 in E. by repeat case_match.
  - destruct (decide (length buf = 4 * i + 4)%nat) as [E|].
    + exfalso. apply Hmod. rewrite E.
      replace (4 * i + 4)%nat with ((i + 1) * 4)%nat by lia. apply Nat.Div0.mod_mul.
    + rewrite get_u32_short; [done|]. rewrite length_drop. lia.
Qed.

(** * Sessions with a daemon that answers *)

(** A kernel that opens [s], accepts every write whole, and a daemon that
    answers the requests with [answers]. *)
Definition session (ss : list Z) (writes : list Z) (answers : list (list Z)) : world :=
  World ss (replicate (length ss) 0) writes (Some <$> answers) [].

(** The bytes written to the daemon, in order. *)
Definition sent (w : world) : list Z :=
  trace w ≫= fun e => match e with EWrite _ buf => buf | _ => [] end.

Definition get_size_request (unit_ : Z) : list Z :=
  put_u32 0x000d ++ [0] ++ put_u32 0x0001 ++ put_u32 0x0001 ++ put_u32 unit_.
Definition read_request (unit_ size : Z) : list Z :=
  put_u32 0x0011 ++ [0] ++ put_u32 0x0001 ++ put_u32 0x0000 ++ put_u32 unit_ ++ put_u32 size.

Lemma tad_open_ok s ss cs wr rd t : s <> -1 ->
  tad_open (World (s :: ss) (0 :: cs) wr rd t) =
    Ret (s, World ss cs wr rd (t ++ [ESocket s; EConnect s])).
Proof.
  intros Hs. unfold tad_open, mbind, st_bind. simpl. rewrite (proj2 (Z.eqb_neq _ _) Hs).
  unfold emit. simpl. by rewrite <- app_assoc.
Qed.

Lemma send_ok {A} s buf (err : A) k ss cs n wr rd t : n = Z.of_nat (length buf) ->
  send s buf err k (World ss cs (n :: wr) rd t) = k (World ss cs wr rd (t ++ [EWrite s buf])).
Proof. intros ->. unfold send, mbind, st_bind. simpl. by rewrite Z.eqb_refl. Qed.

Lemma tad_close_ok {A} s (a : A) ss cs wr rd t : s <> -1 ->
  (tad_close s ;; mret a) (World ss cs wr rd t) = Ret (a, World ss cs wr rd (t ++ [EClose s])).
Proof. intros Hs. unfold tad_close. by rewrite (proj2 (Z.eqb_neq _ _) Hs). Qed.

Lemma get_put_u32_nil v : is_u32 v -> get_u32 (put_u32 v) = Ret v.
Proof. intros. rewrite <- (app_nil_r (put_u32 v)). by apply get_put_u32. Qed.

Lemma sys_read_ok s n ss cs wr bs rd t : length bs <= n ->
  sys_read s n (World ss cs wr (Some bs :: rd) t) =
    Ret ((Z.of_nat (length bs), bs), World ss cs wr rd (t ++ [ERead s n])).
Proof. intros Hn. unfold sys_read. simpl. by rewrite firstn_all2 by lia. Qed.

Lemma reply_ok {A} s (err dflt : A) k ss cs wr buf rd t : 0 < length buf < 2 ^ 32 ->
  reply s err dflt k (World ss cs wr (Some (put_u32 (length buf)) :: Some buf :: rd) t) =
    k (Z.of_nat (length buf)) buf (World ss cs wr rd (t ++ [ERead s 4; ERead s (length buf)])).
Proof.
  intros Hlen. unfold reply.
  erewrite st_bind_Ret by (apply sys_read_ok; simpl; lia).
  cbv beta iota. change (Z.of_nat (length (put_u32 (length buf))) =? 4) with true.
  cbv beta iota delta [negb].
  erewrite st_bind_Ret by (apply st_lift_Ret, get_put_u32_nil; mach_lia).
  rewrite Z.gtb_ltb, (proj2 (Z.ltb_lt _ _)) by lia.
  erewrite st_bind_Ret by (apply sys_read_ok; lia).
  cbv beta iota. rewrite Z.eqb_refl. by rewrite <- app_assoc.
Qed.

(** The trace of a complete request on [s]. *)
Definition request_trace (s : Z) (bufs : list (list Z)) (n : Z) : list event :=
  [ESocket s; EConnect s] ++ map (EWrite s) bufs ++ [ERead s 4; ERead s n; EClose s].

(** The size request, answered by [length buf] and [buf]. *)
Lemma tad_get_size_run unit_ size s ss cs wr rd t buf :
  s <> -1 -> 0 < length buf < 2 ^ 32 ->
  tad_get_size unit_ size (World (s :: ss) (0 :: cs) (4 :: 1 :: 4 :: 4 :: 4 :: wr)
    (Some (put_u32 (length buf)) :: Some buf :: rd) t) =
  match (x ← get_u32 buf; sum_loop (S (Z.to_nat (length buf / 4))) buf (length buf) 4 x) with
  | Ret x => Ret ((0, x), World ss cs wr rd (t ++ request_trace s
      [put_u32 0x000d; [0]; put_u32 1; put_u32 1; put_u32 unit_] (length buf)))
  | Undef => Undef
  | NoFuel => NoFuel
  end.
Proof.
  intros Hs Hlen. unfold tad_get_size.
  erewrite st_bind_Ret by (by apply tad_open_ok). rewrite (proj2 (Z.eqb_neq _ _) Hs).
  do 5 (rewrite send_ok by done).
  etransitivity; [apply (reply_ok s (-1, size) (0, size) (fun len buf =>
    x ← st_lift (get_u32 buf);
    x ← st_lift (sum_loop (S (Z.to_nat (len / 4))) buf len 4 x);
    tad_close s ;; mret (0, x))); done|].
  rewrite st_bind_lift. destruct (get_u32 buf) as [x| |]; [|done..].
  rewrite st_bind_lift, bind_ret. destruct (sum_loop _ _ _ _ _) as [x'| |]; [|done..].
  rewrite tad_close_ok by done. unfold request_trace. by rewrite <- !app_assoc.
Qed.

(** The data request, answered by [length unit_buf] and [unit_buf]. *)
Lemma tad_read_run unit_ buf size s ss cs wr rd t unit_buf :
  s <> -1 -> 0 < length unit_buf < 2 ^ 32 ->
  tad_read unit_ buf size (World (s :: ss) (0 :: cs) (4 :: 1 :: 4 :: 4 :: 8 :: wr)
    (Some (put_u32 (length unit_buf)) :: Some unit_buf :: rd) t) =
  Ret ((0, if length unit_buf >? size
           then take (Z.to_nat size) (drop (Z.to_nat (length unit_buf - size)) unit_buf)
           else buf),
       World ss cs wr rd (t ++ request_trace s
         [put_u32 0x0011; [0]; put_u32 1; put_u32 0; put_u32 unit_ ++ put_u32 size]
         (length unit_buf))).
Proof.
  intros Hs Hlen. unfold tad_read.
  erewrite st_bind_Ret by (by apply tad_open_ok). rewrite (proj2 (Z.eqb_neq _ _) Hs).
  do 5 (rewrite send_ok by done).
  etransitivity; [apply (reply_ok s (-1, buf) (0, buf) (fun len unit_buf =>
    tad_close s ;; mret (0, if len >? size
      then take (Z.to_nat size) (drop (Z.to_nat (len - size)) unit_buf) else buf))); done|].
  rewrite tad_close_ok by done. unfold request_trace. by rewrite <- !app_assoc.
Qed.

(** The words of a payload that is a list of words. *)
Lemma get_size_words ws : Forall is_u32 ws -> (1 <= length ws)%nat -> 4 * length ws < 2 ^ 32 ->
  (x ← get_u32 (words ws);
   sum_loop (S (Z.to_nat (length (words ws) / 4))) (words ws) (length (words ws)) 4 x) =
  Ret (u32 (sum_words ws)).
Proof.
  intros Hws Hn Hlen. destruct ws as [|v ws]; [simpl in Hn; lia|].
  inversion Hws as [|?? Hv _]; subst.
  assert (E : get_u32 (words (v :: ws)) = Ret v) by (apply (get_put_u32 v (words ws)); done).
  rewrite E, bind_ret, length_words.
  replace (Z.of_nat (4 * length (v :: ws))) with (4 * length (v :: ws)) by lia.
  rewrite (Z.mul_comm 4), Z.div_mul, Z.mul_comm by done.
  apply (sum_loop_words _ (v :: ws) 1 v); [done|done|simpl; lia|simpl; lia|done].
Qed.

Lemma c_string_zeros n : c_string (replicate n 0 ++ [0]) = [].
Proof. by destruct n. Qed.

Lemma c_string_app_nul l : c_string (l ++ [0]) = c_string l.
Proof. induction l as [|b l IH]; simpl; [done|]. case_match; congruence. Qed.

(** The string [ta_get_cust_active] builds from what [tad_read] copied. *)
Lemma c_string_copy data size : 0 < size ->
  c_string ((if length data >? size
             then take (Z.to_nat size) (drop (Z.to_nat (length data - size)) data)
             else replicate (Z.to_nat size) 0) ++ [0]) =
  if size <? length data then c_string (drop (Z.to_nat (length data - size)) data) else [].
Proof.
  intros Hs. rewrite Z.gtb_ltb. destruct (Z.ltb_spec size (length data)).
  - rewrite c_string_app_nul, firstn_all2; [done|]. rewrite length_drop. lia.
  - apply c_string_zeros.
Qed.

End Ta.

(** * Properties *)
Module TaProps.
Import Ta.

(** C36: whatever the kernel and the daemon answer (connect(2) returning 0 or -1),
    when [ta_get_cust_active] or one of its two requests returns, it has used
    only descriptors it had opened, never after closing them, and has closed each
    exactly once, on every error path too. *)
Theorem tad_no_fd_leak o w :
  connect_doc w ->
  (forall u sz r w', tad_get_size u sz w = Ret (r, w') ->
     exists t, trace w' = trace w ++ t /\ fd_run o t = Some o) /\
  (forall u b sz r w', tad_read u b sz w = Ret (r, w') ->
     exists t, trace w' = trace w ++ t /\ fd_run o t = Some o) /\
  (forall r w', ta_get_cust_active w = Ret (r, w') ->
     exists t, trace w' = trace w ++ t /\ fd_run o t = Some o).
Proof.
  intros Hc. split_and!; intros.
  - destruct (fd_spec_get_size o u sz w r w' Hc) as (_ & t & o' & ? & ? & ->); eauto.
  - destruct (fd_spec_tad_read o u b sz w r w' Hc) as (_ & t & o' & ? & ? & ->); eauto.
  - destruct (fd_spec_cust_active o w r w' Hc) as (_ & t & o' & ? & ? & ->); eauto.
Qed.

(** A daemon that stops answering after the length. *)
Definition broken_world : world := World [3] [0] [4; 1; 4; 4; 4] [Some [0; 0; 0; 8]; None] [].

Lemma tad_no_fd_leak_witness :
  match tad_get_size 0x8A4 0 broken_world with
  | Ret (_, w') => exists t, trace w' = trace broken_world ++ t /\ fd_run [] t = Some []
  | _ => False
  end.
Proof.
  destruct (tad_get_size 0x8A4 0 broken_world) as [[r w']| |] eqn:E.
  - apply (tad_no_fd_leak [] broken_world) with (u := 0x8A4) (sz := 0) (r := r); [|exact E].
    repeat constructor.
  - vm_compute in E. discriminate E.
  - vm_compute in E. discriminate E.
Defined.

(** against a daemon that answers the size request with the words [ws] and
    the data request with [data], [ta_get_cust_active] sends exactly the two
    requests and returns the C string at the start of the last [size] bytes of
    [data], where [size] is the sum of the words; when [data] is not longer than
    [size] nothing is copied and the result is empty. *)
Lemma ta_get_cust_active_ok s1 s2 ws data :
  s1 <> -1 -> s2 <> -1 -> Forall is_u32 ws -> (1 <= length ws)%nat -> 4 * length ws < 2 ^ 32 ->
  0 < sum_words ws < 2 ^ 32 - 1 -> 0 < length data < 2 ^ 32 ->
  exists w',
    ta_get_cust_active (session [s1; s2] [4; 1; 4; 4; 4; 4; 1; 4; 4; 8]
      [put_u32 (4 * length ws); words ws; put_u32 (length data); data]) =
    Ret (if sum_words ws <? length data
         then c_string (drop (Z.to_nat (length data - sum_words ws)) data) else [], w') /\
    sent w' = get_size_request 0x8A4 ++ read_request 0x8A4 (sum_words ws).
Proof.
  intros Hs1 Hs2 Hws Hn Hlen Hsum Hdata.
  replace (4 * length ws) with (Z.of_nat (length (words ws))) by (rewrite length_words; lia).
  unfold session, ta_get_cust_active. simpl replicate. simpl fmap.
  eexists. split.
  - erewrite st_bind_Ret
      by (rewrite tad_get_size_run, get_size_words by (rewrite ?length_words; auto; lia); reflexivity).
    rewrite uwrap_small by mach_lia. rewrite (proj2 (Z.eqb_neq (sum_words ws) 0)) by lia.
    cbn [negb orb Z.eqb].
    erewrite st_bind_Ret by (by apply tad_read_run). cbn [negb Z.eqb].
    rewrite st_bind_lift. unfold check.
    rewrite uwrap_small, (proj2 (Z.ltb_lt (sum_words ws) _)) by mach_lia.
    rewrite c_string_copy by lia. reflexivity.
  - reflexivity.
Qed.

Lemma ta_get_cust_active_ok_witness :
  exists w',
    ta_get_cust_active (session [3; 4] [4; 1; 4; 4; 4; 4; 1; 4; 4; 8]
      [put_u32 4; words [5]; put_u32 9; [0; 0; 0; 5; 65; 66; 67; 0; 9]]) = Ret ([65; 66; 67], w') /\
    sent w' = get_size_request 0x8A4 ++ read_request 0x8A4 5.
Proof.
  apply (ta_get_cust_active_ok 3 4 [5] [0; 0; 0; 5; 65; 66; 67; 0; 9]);
    [done|done|repeat constructor; lia|simpl; lia|vm_compute; done|vm_compute; split; done
    |vm_compute; split; done].
Defined.

(** when the daemon announces an answer to the size request whose length is
    not a multiple of four, [tad_get_size] reads past the end of the array that
    holds the answer. *)
Lemma tad_get_size_unaligned unit_ size s ss cs wr rd t buf :
  s <> -1 -> 0 < length buf < 2 ^ 32 -> (length buf mod 4 <> 0)%nat ->
  tad_get_size unit_ size (World (s :: ss) (0 :: cs) (4 :: 1 :: 4 :: 4 :: 4 :: wr)
    (Some (put_u32 (length buf)) :: Some buf :: rd) t) = Undef.
Proof.
  intros Hs Hlen Hmod. rewrite tad_get_size_run by done.
  destruct (get_u32 buf) as [x| |] eqn:E.
  - rewrite bind_ret.
    assert (4 < length buf).
    { destruct (decide (length buf < 4)%nat); [by rewrite get_u32_short in E|].
      destruct (decide (length buf = 4)%nat) as [E4|]; [by rewrite E4 in Hmod|lia]. }
    rewrite (sum_loop_unaligned _ buf 1 x); [done|lia|done|lia|].
    pose proof (Z.div_mod (length buf) 4 ltac:(lia)).
    pose proof (Z.mod_pos_bound (length buf) 4 ltac:(lia)). lia.
  - done.
  - exfalso. unfold get_u32 in E. by repeat case_match.
Qed.

Lemma tad_get_size_unaligned_witness :
  tad_get_size 0x8A4 0 (World [3] [0] [4; 1; 4; 4; 4] [Some (put_u32 5); Some [0; 0; 0; 5; 1]] []) =
    Undef.
Proof.
  apply (tad_get_size_unaligned 0x8A4 0 3 [] [] [] [] [] [0; 0; 0; 5; 1]);
    [done|vm_compute; split; done|done].
Defined.

End TaProps.
