(* ===== verification/VendorInit.v ===== *)
(** Loading of the carrier properties at boot: src/init/init_yoshino.cpp.

    [load_properties] works in place: it cuts the text of a property file into
    C strings by storing NULs in it.  The buffer is a list of bytes, a pointer
    into it an index, and every access is checked for bounds.  The calls of
    [__system_property_add] are collected in the order they are made.  The file
    system (ReadFileToString) is a parameter: the contents of a file, or [None]
    when it cannot be read. *)
From S2P Require Import Prelude Ta.
From Stdlib Require Import Ascii.

Module VendorInit.

(** The bytes of a string literal. *)
Definition str (s : string) : list Z :=
  (fun a => Z.of_N (N_of_ascii a)) <$> String.list_ascii_of_string s.

(** * The character functions of the C library the code uses *)

Definition isspace (c : Z) : bool := (c =? 32) || ((9 <=? c) && (c <=? 13)).

Definition rd (buf : list Z) (i : nat) : outcome Z :=
  match buf !! i with
  | Some b => Ret b
  | None => Undef
  end.

Definition wr (buf : list Z) (i : nat) (b : Z) : outcome (list Z) :=
  if decide (i < length buf)%nat then Ret (<[i := b]> buf) else Undef.

(** [strchr] on the bytes [l] found from the index [i] on. *)
Fixpoint strchr_from (l : list Z) (i : nat) (c : Z) : outcome (option nat) :=
  match l with
  | [] => Undef
  | b :: l =>
      if b =? c then Ret (Some i)
      else if b =? 0 then Ret None
      else strchr_from l (S i) c
  end.

Definition strchr (buf : list Z) (i : nat) (c : Z) : outcome (option nat) :=
  strchr_from (drop i buf) i c.

(** The C string (the bytes before the NUL) at an index. *)
Fixpoint cstr_from (l : list Z) : outcome (list Z) :=
  match l with
  | [] => Undef
  | b :: l => if b =? 0 then Ret [] else s ← cstr_from l; Ret (b :: s)
  end.

Definition cstr (buf : list Z) (i : nat) : outcome (list Z) := cstr_from (drop i buf).

(** [strncmp] and [strcmp] of two C strings give 0. *)
Definition strncmp_eq (s t : list Z) (n : nat) : bool := bool_decide (take n s = take n t).
Definition strcmp_eq (s t : list Z) : bool := bool_decide (s = t).

(** * init_yoshino.cpp *)

(** The loop that advances a pointer while it points at white space. *)
Fixpoint skip_space_from (l : list Z) (i : nat) : outcome nat :=
  match l with
  | [] => Undef
  | b :: l => if isspace b then skip_space_from l (S i) else Ret i
  end.

Definition skip_space (buf : list Z) (i : nat) : outcome nat := skip_space_from (drop i buf) i.

(** The loop that replaces the white space at the end of a field by NULs, from
    [tmp] down to but not including [key], with [n] = tmp - key. *)
Fixpoint trim (n : nat) (buf : list Z) (key : nat) : outcome (list Z) :=
  match n with
  | O => Ret buf
  | S n' =>
      c ← rd buf (key + n);
      if isspace c then buf ← wr buf (key + n) 0; trim n' buf key
      else Ret buf
  end.

Abbreviation props := (list (list Z * list Z)).

(** Whether the property [key] passes the filter. *)
Definition passes_filter (key : list Z) (filter : list Z) : bool :=
  let flen := length filter in
  if (0 <? flen)%nat then
    if bool_decide (filter !! (flen - 1)%nat = Some 42) then strncmp_eq key filter (flen - 1)
    else strcmp_eq key filter
  else true.

(** The branch of a line that is an import; [import] is the call of
    [load_properties_from_file]. *)
Definition load_import (import : list Z -> option (list Z) -> props -> outcome props)
    (buf : list Z) (key : nat) (ps : props) : outcome (list Z * props) :=
  fn ← skip_space buf (key + 7);
  sp ← strchr buf fn 32;
  match sp with
  | Some key =>
      buf ← wr buf key 0;
      key ← skip_space buf (S key);
      f ← cstr buf key;
      fn ← cstr buf fn;
      ps ← import fn (Some f) ps;
      Ret (buf, ps)
  | None =>
      fn ← cstr buf fn;
      ps ← import fn None ps;
      Ret (buf, ps)
  end.

(** The branch of a line that is a property. *)
Definition load_prop (buf : list Z) (key : nat) (filter : list Z) (ps : props)
  : outcome (list Z * props) :=
  eq ← strchr buf key 61;
  match eq with
  | None => Ret (buf, ps)
  | Some value =>
      buf ← wr buf value 0;
      let value := S value in
      buf ← trim (value - 2 - key) buf key;
      value ← skip_space buf value;
      k ← cstr buf key;
      v ← cstr buf value;
      Ret (buf, if passes_filter k filter then ps ++ [(k, v)] else ps)
  end.

(** The body of the loop of [load_properties] for the line from [sol] to the
    newline at [eol]: the buffer and the properties set after it. *)
Definition load_line (import : list Z -> option (list Z) -> props -> outcome props)
    (buf : list Z) (sol eol : nat) (filter : list Z) (ps : props) : outcome (list Z * props) :=
  let key := sol in
  buf ← wr buf eol 0;
  let eol := S eol in
  key ← skip_space buf key;
  c ← rd buf key;
  if c =? 35 then Ret (buf, ps)
  else
    buf ← trim (eol - 2 - key) buf key;
    k ← cstr buf key;
    if strncmp_eq k (str "import ") 7 && bool_decide (length filter = 0%nat)
    then load_import import buf key ps
    else load_prop buf key filter ps.

(** The loop of [load_properties]: [sol] is the start of the next line, [ps] the
    properties set so far; [fuel] bounds the number of lines. *)
Fixpoint load_properties_loop (import : list Z -> option (list Z) -> props -> outcome props)
    (fuel : nat) (buf : list Z) (sol : nat) (filter : list Z) (ps : props) : outcome props :=
  match fuel with
  | O => NoFuel
  | S fuel =>
      e ← strchr buf sol 10;
      match e with
      | None => Ret ps
      | Some eol =>
          '(buf, ps) ← load_line import buf sol eol filter ps;
          load_properties_loop import fuel buf (S eol) filter ps
      end
  end.

(** A null filter has length 0, as an empty one. *)
Definition load_properties (import : list Z -> option (list Z) -> props -> outcome props)
    (data : list Z) (filter : option (list Z)) (ps : props) : outcome props :=
  load_properties_loop import (length data) data 0 (default [] filter) ps.

(** [depth] bounds the nesting of imports; the data read is followed by the
    newline that is pushed and the NUL that ends a std::string. *)
Fixpoint load_properties_from_file (depth : nat) (fs : list Z -> option (list Z))
    (filename : list Z) (filter : option (list Z)) (ps : props) : outcome props :=
  match depth with
  | O => NoFuel
  | S depth =>
      match fs filename with
      | None => Ret ps
      | Some data => load_properties (load_properties_from_file depth fs) (data ++ [10; 0]) filter ps
      end
  end.

Definition vendor_load_properties (depth : nat) (fs : list Z -> option (list Z))
  : St Ta.world props :=
  ps ← st_lift (load_properties_from_file depth fs (str "/ocm/system-properties/cust.prop") None []);
  cust_id ← Ta.ta_get_cust_active;
  if bool_decide (cust_id = []) then
    st_lift (load_properties_from_file depth fs (str "/ocm/system-properties/config.prop") None ps)
  else
    st_lift (load_properties_from_file depth fs
      (str "/ocm/system-properties/" ++ cust_id ++ str "/config.prop") None ps).

(** * What a property file means, line by line *)

Fixpoint lstrip (l : list Z) : list Z :=
  match l with
  | [] => []
  | b :: l' => if isspace b then lstrip l' else l
  end.

Fixpoint rstrip (l : list Z) : list Z :=
  match l with
  | [] => []
  | b :: l =>
      match rstrip l with
      | [] => if isspace b then [] else [b]
      | l' => b :: l'
      end
  end.

(** The parts before and after the first [c]. *)
Fixpoint split_at (c : Z) (l : list Z) : option (list Z * list Z) :=
  match l with
  | [] => None
  | b :: l => if b =? c then Some ([], l) else prod_map (cons b) id <$> split_at c l
  end.

Inductive action :=
| Skip
| Import (fn : list Z) (filter : option (list Z))
| SetProp (key value : list Z).

(** The meaning of one line; imports are followed only without a filter. *)
Definition line_action (unfiltered : bool) (line : list Z) : action :=
  let l := lstrip line in
  if bool_decide (head l = Some 35) then Skip
  else
    let l := rstrip l in
    if strncmp_eq l (str "import ") 7 && unfiltered then
      let r := lstrip (drop 7 l) in
      match split_at 32 r with
      | Some (fn, f) => Import fn (Some (lstrip f))
      | None => Import r None
      end
    else
      match split_at 61 l with
      | Some (k, v) => SetProp (rstrip k) (lstrip v)
      | None => Skip
      end.

(** The effect of one line, and of a list of lines, on the properties set. *)
Definition run_line (import : list Z -> option (list Z) -> props -> outcome props)
    (filter : list Z) (line : list Z) (ps : props) : outcome props :=
  match line_action (bool_decide (length filter = 0%nat)) line with
  | Skip => Ret ps
  | Import fn f => import fn f ps
  | SetProp k v => Ret (if passes_filter k filter then ps ++ [(k, v)] else ps)
  end.

Fixpoint run_lines (import : list Z -> option (list Z) -> props -> outcome props)
    (filter : list Z) (lines : list (list Z)) (ps : props) : outcome props :=
  match lines with
  | [] => Ret ps
  | line :: lines => ps ← run_line import filter line ps; run_lines import filter lines ps
  end.

(** The lines of a text whose last line needs no newline. *)
Fixpoint split_lines (data : list Z) : list (list Z) :=
  match data with
  | [] => [[]]
  | b :: data =>
      if b =? 10 then [] :: split_lines data
      else match split_lines data with
           | [] => [[b]]
           | l :: ls => (b :: l) :: ls
           end
  end.

Definition join_lines (ls : list (list Z)) : list Z := ls ≫= fun l => l ++ [10].

(** * The in-place operations on the segments of a buffer *)

Lemma drop_at {A} (pre l : list A) i : i = length pre -> drop i (pre ++ l) = l.
Proof. intros ->. apply drop_app_length. Qed.

Lemma strchr_from_hit l c rest i : c ∉ l -> 0 ∉ l ->
  strchr_from (l ++ c :: rest) i c = Ret (Some (i + length l)%nat).
Proof.
  revert i. induction l as [|b l IH]; intros i Hc H0; simpl.
  - rewrite Z.eqb_refl. do 2 f_equal. lia.
  - rewrite (proj2 (Z.eqb_neq b c)), (proj2 (Z.eqb_neq b 0)) by set_solver.
    rewrite IH by set_solver. do 2 f_equal. lia.
Qed.

Lemma strchr_from_miss l c rest i : c <> 0 -> c ∉ l -> 0 ∉ l ->
  strchr_from (l ++ 0 :: rest) i c = Ret None.
Proof.
  revert i. induction l as [|b l IH]; intros i Hc Hl H0; cbn [app strchr_from].
  - by rewrite (proj2 (Z.eqb_neq 0 c)) by done.
  - rewrite (proj2 (Z.eqb_neq b c)), (proj2 (Z.eqb_neq b 0)) by set_solver. apply IH; set_solver.
Qed.

Lemma skip_space_from_seg sp x rest i : Forall (fun b => isspace b = true) sp -> isspace x = false ->
  skip_space_from (sp ++ x :: rest) i = Ret (i + length sp)%nat.
Proof.
  intros Hsp Hx. revert i. induction Hsp as [|b sp Hb _ IH]; intros i; simpl.
  - rewrite Hx. f_equal. lia.
  - rewrite Hb, IH. f_equal. lia.
Qed.

Lemma cstr_from_seg l rest : 0 ∉ l -> cstr_from (l ++ 0 :: rest) = Ret l.
Proof.
  induction l as [|b l IH]; intros H0; simpl; [done|].
  rewrite (proj2 (Z.eqb_neq b 0)) by set_solver. by rewrite IH by set_solver.
Qed.

Lemma wr_seg pre x rest b i : i = length pre -> wr (pre ++ x :: rest) i b = Ret (pre ++ b :: rest).
Proof.
  intros ->. unfold wr. rewrite decide_True by (rewrite length_app; simpl; lia).
  by rewrite insert_app_r_alt, Nat.sub_diag by lia.
Qed.

Lemma rd_seg pre x rest i : i = length pre -> rd (pre ++ x :: rest) i = Ret x.
Proof. intros ->. unfold rd. by rewrite list_lookup_middle. Qed.

(** [trim] on a field [body ++ tr] whose white space is [tr]. *)
Lemma trim_seg pre body tr rest n :
  Forall (fun b => isspace b = true) tr -> (forall b, last body = Some b -> isspace b = false) ->
  n = (length body + length tr - 1)%nat -> (body = [] -> tr = []) ->
  trim n (pre ++ body ++ tr ++ rest) (length pre) =
    Ret (pre ++ body ++ replicate (length tr) 0 ++ rest).
Proof.
  intros Htr Hb Hn Hne. revert n rest Hn. induction tr as [|x tr IH] using rev_ind; intros n rest Hn.
  { simpl. destruct body as [|b body _] using rev_ind; simpl in *; [by subst n|].
    rewrite length_app in Hn. simpl in Hn.
    destruct n as [|n]; [done|]. cbn [trim].
    assert (Hr : rd (pre ++ (body ++ [b]) ++ rest) (length pre + S n) = Ret b).
    { rewrite <- app_assoc, app_assoc. apply rd_seg. rewrite length_app. lia. }
    rewrite Hr, bind_ret. by rewrite (Hb b) by (apply last_snoc). }
  apply Forall_app in Htr as [Htr Hx]. inversion_clear Hx as [|?? Hx' _].
  destruct body as [|b0 body']; [by specialize (Hne eq_refl); destruct tr|].
  rewrite length_app in Hn. simpl in Hn. destruct n as [|n]; [lia|]. cbn [trim].
  assert (Hshape : pre ++ (b0 :: body') ++ (tr ++ [x]) ++ rest =
                   (pre ++ (b0 :: body') ++ tr) ++ x :: rest) by (by rewrite <- !app_assoc).
  rewrite Hshape, rd_seg by (rewrite !length_app; simpl; lia). rewrite bind_ret, Hx'.
  rewrite wr_seg by (rewrite !length_app; simpl; lia). rewrite bind_ret, <- !app_assoc.
  rewrite (IH Htr ltac:(discriminate) n (0 :: rest)) by (simpl; lia).
  rewrite length_app, replicate_add. simpl. by rewrite <- !app_assoc.
Qed.

(** The same facts on a buffer of a known shape. *)
Section Shape.
Context (buf pre l rest : list Z) (i : nat) (Hi : i = length pre).

Lemma strchr_hit c : buf = pre ++ l ++ c :: rest -> c ∉ l -> 0 ∉ l ->
  strchr buf i c = Ret (Some (i + length l)%nat).
Proof. intros -> ??. unfold strchr. rewrite drop_at by done. by apply strchr_from_hit. Qed.

Lemma strchr_miss c : buf = pre ++ l ++ 0 :: rest -> c <> 0 -> c ∉ l -> 0 ∉ l ->
  strchr buf i c = Ret None.
Proof. intros -> ???. unfold strchr. rewrite drop_at by done. by apply strchr_from_miss. Qed.

Lemma cstr_seg : buf = pre ++ l ++ 0 :: rest -> 0 ∉ l -> cstr buf i = Ret l.
Proof. intros -> ?. unfold cstr. rewrite drop_at by done. by apply cstr_from_seg. Qed.

(** Skipping white space in a field [l] that ends with a NUL. *)
Lemma skip_space_seg : buf = pre ++ l ++ 0 :: rest ->
  exists sp, l = sp ++ lstrip l /\ skip_space buf i = Ret (i + length sp)%nat.
Proof.
  intros ->. unfold skip_space. rewrite drop_at by done. clear.
  revert i. induction l as [|b l' IH]; intros i; [by exists []; simpl; rewrite Nat.add_0_r|].
  simpl. destruct (isspace b) eqn:Eb.
  - destruct (IH (S i)) as (sp & E & ->). exists (b :: sp). simpl. split; [congruence|].
    f_equal. lia.
  - exists []. simpl. by rewrite Nat.add_0_r.
Qed.
End Shape.

Lemma lstrip_split l : exists sp, l = sp ++ lstrip l /\ Forall (fun b => isspace b = true) sp /\
  (forall b, head (lstrip l) = Some b -> isspace b = false).
Proof.
  induction l as [|b l (sp & E & Hsp & Hh)]; [by exists []|]. simpl.
  destruct (isspace b) eqn:Eb.
  - exists (b :: sp). split_and!; [simpl; congruence|by constructor|done].
  - exists []. split_and!; [done|constructor|simpl; congruence].
Qed.

Lemma rstrip_split l : exists tr, l = rstrip l ++ tr /\ Forall (fun b => isspace b = true) tr /\
  (forall b, last (rstrip l) = Some b -> isspace b = false).
Proof.
  induction l as [|b l (tr & E & Htr & Hl)]; [by exists []|]. simpl.
  destruct (rstrip l) as [|c r] eqn:Er.
  - simpl in E. subst. destruct (isspace b) eqn:Eb.
    + exists (b :: tr). split_and!; [done|by constructor|done].
    + exists tr. split_and!; [done|done|by intros x [= <-]].
  - exists tr. split_and!; [by rewrite E at 1|done|]. intros x. rewrite last_cons_cons. apply Hl.
Qed.

Lemma rstrip_nil l b : head l = Some b -> isspace b = false -> rstrip l <> [].
Proof. destruct l; simpl; [done|]. intros [= ->] Hb. rewrite Hb. by destruct (rstrip l). Qed.

Lemma split_at_Some c l k v : split_at c l = Some (k, v) -> l = k ++ c :: v /\ c ∉ k.
Proof.
  revert k. induction l as [|b l IH]; intros k; simpl; [done|].
  destruct (Z.eqb_spec b c) as [->|Hb]; [intros [= <- <-]; set_solver|].
  destruct (split_at c l) as [[k' v']|]; simpl; [|done]. intros [= <- <-].
  destruct (IH _ eq_refl) as [-> ?]. set_solver.
Qed.

Lemma split_at_None c l : split_at c l = None -> c ∉ l.
Proof.
  induction l as [|b l IH]; simpl; [set_solver|].
  destruct (Z.eqb_spec b c); [done|]. destruct (split_at c l); [done|]. set_solver.
Qed.

(** ** One line *)

Lemma zeros_cons n (l : list Z) : replicate n 0 ++ 0 :: l = 0 :: replicate n 0 ++ l.
Proof. induction n as [|n IH]; simpl; [done|]. by rewrite IH. Qed.

Lemma load_prop_spec buf pre body rest filter ps :
  buf = pre ++ body ++ 0 :: rest -> 0 ∉ body -> (forall b, head body = Some b -> isspace b = false) ->
  exists mid, length mid = length body /\
    load_prop buf (length pre) filter ps =
      Ret (pre ++ mid ++ 0 :: rest,
           match split_at 61 body with
           | Some (k, v) => if passes_filter (rstrip k) filter
                            then ps ++ [(rstrip k, lstrip v)] else ps
           | None => ps
           end).
Proof.
  intros -> H0 Hh. unfold load_prop. destruct (split_at 61 body) as [[k v]|] eqn:Es.
  2:{ exists body. split; [done|]. erewrite strchr_miss; eauto using split_at_None. }
  apply split_at_Some in Es as [-> Hk].
  assert (H0k : 0 ∉ k) by set_solver. assert (H0v : 0 ∉ v) by set_solver.
  rewrite (strchr_hit _ pre k (v ++ 0 :: rest)) by (auto; by rewrite <- !app_assoc).
  rewrite bind_ret. replace (pre ++ (k ++ 61 :: v) ++ 0 :: rest)
    with ((pre ++ k) ++ 61 :: v ++ 0 :: rest) by (by rewrite <- !app_assoc).
  rewrite wr_seg by (rewrite length_app; lia). rewrite bind_ret, <- app_assoc.
  destruct (rstrip_split k) as (tr & Ek & Htr & Hlast).
  assert (Htrim : trim (S (length pre + length k) - 2 - length pre)
      (pre ++ k ++ 0 :: v ++ 0 :: rest) (length pre) =
      Ret (pre ++ rstrip k ++ replicate (length tr) 0 ++ 0 :: v ++ 0 :: rest)).
  { rewrite Ek at 1 2. rewrite <- app_assoc. apply trim_seg; auto.
    - rewrite length_app. lia.
    - intros Er. destruct k as [|b k]; [simpl in Ek; congruence|].
      exfalso. apply (rstrip_nil (b :: k) b); [done|by apply Hh|done]. }
  rewrite Htrim, bind_ret.
  set (mid := rstrip k ++ replicate (length tr) 0).
  assert (Hmid : length mid = length k).
  { unfold mid. rewrite Ek at 2. by rewrite !length_app, length_replicate. }
  destruct (skip_space_seg (pre ++ rstrip k ++ replicate (length tr) 0 ++ 0 :: v ++ 0 :: rest)
    (pre ++ mid ++ [0]) v rest (S (length pre + length k))) as (sp & Ev & ->).
  { rewrite !length_app, Hmid. simpl. lia. }
  { unfold mid. by rewrite <- !app_assoc. }
  assert (H0rk : 0 ∉ rstrip k) by (intros ?; apply H0k; rewrite Ek; apply elem_of_app; auto).
  assert (H0lv : 0 ∉ lstrip v) by (intros ?; apply H0v; rewrite Ev; apply elem_of_app; auto).
  rewrite bind_ret.
  erewrite (cstr_seg _ pre (rstrip k) _ (length pre)); [|reflexivity|by rewrite zeros_cons|exact H0rk].
  rewrite bind_ret. erewrite (cstr_seg _ (pre ++ mid ++ 0 :: sp) (lstrip v) rest).
  - rewrite bind_ret. exists (mid ++ 0 :: v). unfold mid. split; [|by rewrite <- !app_assoc].
    rewrite !length_app. fold mid. simpl. rewrite <- Hmid. unfold mid. rewrite !length_app. lia.
  - rewrite !length_app, Hmid. simpl. lia.
  - unfold mid. rewrite <- !app_assoc. simpl. rewrite (app_assoc sp), <- Ev. done.
  - exact H0lv.
Qed.

Lemma notin_app (x : Z) l1 l2 : x ∉ (l1 ++ l2) -> (x ∉ l1) /\ (x ∉ l2).
Proof. rewrite elem_of_app. tauto. Qed.

Lemma notin_lstrip (x : Z) l : x ∉ l -> x ∉ lstrip l.
Proof.
  intros Hx Hl. apply Hx. destruct (lstrip_split l) as (sp & -> & _). apply elem_of_app. auto.
Qed.

Lemma notin_rstrip (x : Z) l : x ∉ l -> x ∉ rstrip l.
Proof.
  intros Hx Hl. apply Hx. destruct (rstrip_split l) as (tr & -> & _). apply elem_of_app. auto.
Qed.

Lemma load_import_spec import buf pre body rest ps :
  buf = pre ++ body ++ 0 :: rest -> 0 ∉ body -> (7 <= length body)%nat ->
  exists mid, length mid = length body /\
    load_import import buf (length pre) ps =
      ps ← (match split_at 32 (lstrip (drop 7 body)) with
            | Some (fn, f) => import fn (Some (lstrip f)) ps
            | None => import (lstrip (drop 7 body)) None ps
            end);
      Ret (pre ++ mid ++ 0 :: rest, ps).
Proof.
  intros -> H0 Hlen. unfold load_import.
  set (imp := take 7 body). set (r0 := drop 7 body).
  assert (Eb : body = imp ++ r0) by (symmetry; apply take_drop).
  assert (Himp : length imp = 7%nat) by (apply length_take_le; lia).
  assert (H0r : 0 ∉ lstrip r0) by (apply notin_lstrip, (notin_app 0 imp r0); by rewrite <- Eb).
  clearbody imp r0. subst body.
  destruct (skip_space_seg (pre ++ (imp ++ r0) ++ 0 :: rest) (pre ++ imp) r0 rest (length pre + 7))
    as (sp & Er & ->); [by rewrite length_app, Himp|by rewrite <- !app_assoc|].
  rewrite bind_ret. set (r := lstrip r0) in *. clearbody r. subst r0.
  assert (Hi : (length pre + 7 + length sp)%nat = length (pre ++ imp ++ sp))
    by (rewrite !length_app, Himp; lia).
  assert (Hshape : forall tl, pre ++ (imp ++ sp ++ r) ++ tl = (pre ++ imp ++ sp) ++ r ++ tl)
    by (intros; by rewrite <- !app_assoc).
  destruct (split_at 32 r) as [[fn f]|] eqn:Es.
  - apply split_at_Some in Es as [-> Hfn]. apply notin_app in H0r as [H0fn H0f].
    rewrite not_elem_of_cons in H0f. destruct H0f as [_ H0f].
    rewrite (strchr_hit _ (pre ++ imp ++ sp) fn (f ++ 0 :: rest) _ Hi)
      by (done || (rewrite Hshape; by rewrite <- !app_assoc)).
    rewrite bind_ret.
    replace (pre ++ (imp ++ sp ++ fn ++ 32 :: f) ++ 0 :: rest)
      with (((pre ++ imp ++ sp) ++ fn) ++ 32 :: f ++ 0 :: rest) by (by rewrite <- !app_assoc).
    rewrite wr_seg by (rewrite (length_app (pre ++ imp ++ sp)); lia). rewrite bind_ret.
    destruct (skip_space_seg (((pre ++ imp ++ sp) ++ fn) ++ 0 :: f ++ 0 :: rest)
      (((pre ++ imp ++ sp) ++ fn) ++ [0]) f rest (S (length pre + 7 + length sp + length fn)))
      as (sp2 & Ef & ->).
    { rewrite (length_app ((pre ++ imp ++ sp) ++ fn)), (length_app (pre ++ imp ++ sp)), Hi. simpl. lia. }
    { by rewrite <- !app_assoc. }
    rewrite bind_ret.
    erewrite (cstr_seg _ (((pre ++ imp ++ sp) ++ fn) ++ 0 :: sp2) (lstrip f) rest
      (S (length pre + 7 + length sp + length fn) + length sp2));
      [|rewrite (length_app ((pre ++ imp ++ sp) ++ fn)), (length_app (pre ++ imp ++ sp)), Hi; simpl; lia
       |rewrite <- !app_assoc; simpl; by rewrite (app_assoc sp2), <- Ef|by apply notin_lstrip].
    rewrite bind_ret. erewrite (cstr_seg _ (pre ++ imp ++ sp) fn (f ++ 0 :: rest) _ Hi);
      [|by rewrite <- !app_assoc|done].
    rewrite bind_ret. exists (imp ++ sp ++ fn ++ 0 :: f).
    split; [by rewrite !length_app|]. by rewrite <- !app_assoc.
  - rewrite Hshape, (strchr_miss _ (pre ++ imp ++ sp) r rest _ Hi), bind_ret
      by (done || by apply split_at_None).
    rewrite (cstr_seg _ (pre ++ imp ++ sp) r rest _ Hi), bind_ret by done.
    exists (imp ++ sp ++ r). split; [done|]. by rewrite <- Hshape.
Qed.

(** One iteration of the loop is the effect of the line, and leaves the rest of
    the buffer as it was. *)
Lemma load_line_spec import pre line rest filter ps :
  0 ∉ line -> 10 ∉ line ->
  exists pre', length pre' = S (length pre + length line) /\
    load_line import (pre ++ line ++ 10 :: rest) (length pre) (length pre + length line) filter ps =
      ps ← run_line import filter line ps; Ret (pre' ++ rest, ps).
Proof.
  intros H0 H10. unfold load_line, run_line, line_action.
  rewrite (app_assoc pre), wr_seg, bind_ret, <- app_assoc by (by rewrite length_app).
  destruct (skip_space_seg (pre ++ line ++ 0 :: rest) pre line rest (length pre) eq_refl eq_refl)
    as (sp & El & ->).
  pose proof (notin_lstrip 0 line H0) as H0l. destruct (lstrip_split line) as (sp' & El' & _ & Hh).
  set (l := lstrip line) in *. clearbody l. subst line.
  assert (Hlen : length (pre ++ sp) = (length pre + length sp)%nat) by apply length_app.
  rewrite bind_ret, <- Hlen.
  replace (pre ++ (sp ++ l) ++ 0 :: rest) with ((pre ++ sp) ++ l ++ 0 :: rest)
    by (by rewrite <- !app_assoc).
  rewrite (length_app sp l). set (P := pre ++ sp) in *.
  destruct l as [|b l'].
  { exists (P ++ [0]). split; [rewrite length_app; simpl; lia|].
    change ([] ++ 0 :: rest) with (0 :: rest). rewrite rd_seg by done. rewrite bind_ret. cbn [Z.eqb length].
    replace (S (length pre + (length sp + 0)) - 2 - length P)%nat with 0%nat by lia.
    cbn [trim]. rewrite bind_ret, (cstr_seg _ P [] rest) by (done || set_solver). rewrite bind_ret.
    cbn [andb strncmp_eq]. unfold load_prop. rewrite (strchr_miss _ P [] rest) by (done || set_solver).
    simpl. by rewrite <- app_assoc. }
  change ((b :: l') ++ 0 :: rest) with (b :: l' ++ 0 :: rest).
  rewrite rd_seg by done. rewrite bind_ret. cbn [head].
  destruct (Z.eqb_spec b 35) as [->|Hb].
  { rewrite bool_decide_true by done. exists (P ++ 35 :: l' ++ [0]).
    split; [rewrite !length_app; cbn [length]; rewrite length_app; simpl; lia|].
    rewrite bind_ret, <- !app_assoc. simpl. by rewrite <- !app_assoc. }
  rewrite (bool_decide_false (Some b = Some 35)) by congruence.
  set (l := b :: l') in *. destruct (rstrip_split l) as (tr & Etr & Htr & Hlast).
  assert (Hne : rstrip l <> []) by (apply (rstrip_nil _ b); auto).
  assert (Hhr : forall c, head (rstrip l) = Some c -> isspace c = false).
  { intros c Hc. apply Hh. rewrite Etr. by destruct (rstrip l). }
  assert (Htrim : trim (S (length pre + (length sp + length l)) - 2 - length P)
      (P ++ b :: l' ++ 0 :: rest) (length P) =
      Ret (P ++ rstrip l ++ 0 :: replicate (length tr) 0 ++ rest)).
  { change (b :: l' ++ 0 :: rest) with (l ++ 0 :: rest). rewrite <- zeros_cons.
    rewrite Etr at 2. rewrite <- app_assoc. apply trim_seg; auto; [|done].
    rewrite Etr at 1. rewrite length_app. lia. }
  rewrite Htrim, bind_ret.
  assert (H0r : 0 ∉ rstrip l) by (by apply notin_rstrip).
  rewrite (cstr_seg _ P (rstrip l) (replicate (length tr) 0 ++ rest)) by done. rewrite bind_ret.
  assert (Hfin : forall mid, length mid = length (rstrip l) ->
    length (P ++ mid ++ 0 :: replicate (length tr) 0) = S (length pre + (length sp + length l))).
  { intros mid Hm. rewrite !length_app, Hm. cbn [length]. rewrite length_replicate.
    rewrite Etr at 2. rewrite length_app. lia. }
  assert (Hcut : forall mid, P ++ mid ++ 0 :: replicate (length tr) 0 ++ rest =
    (P ++ mid ++ 0 :: replicate (length tr) 0) ++ rest) by (intros; by rewrite <- !app_assoc).
  destruct (strncmp_eq _ _ _ && _) eqn:Ec.
  - apply andb_true_iff in Ec as [Ec _]. apply bool_decide_eq_true in Ec.
    apply (f_equal length) in Ec. rewrite length_take in Ec.
    change (length (take 7 (str "import "))) with 7%nat in Ec.
    destruct (load_import_spec import (P ++ rstrip l ++ 0 :: replicate (length tr) 0 ++ rest) P
      (rstrip l) (replicate (length tr) 0 ++ rest) ps) as (mid & Hm & ->); [done|done|lia|].
    exists (P ++ mid ++ 0 :: replicate (length tr) 0). split; [by apply Hfin|]. rewrite <- Hcut.
    by destruct (split_at 32 _) as [[]|].
  - destruct (load_prop_spec (P ++ rstrip l ++ 0 :: replicate (length tr) 0 ++ rest) P
      (rstrip l) (replicate (length tr) 0 ++ rest) filter ps) as (mid & Hm & ->); [done|done|done|].
    exists (P ++ mid ++ 0 :: replicate (length tr) 0). split; [by apply Hfin|]. rewrite <- Hcut.
    by destruct (split_at 61 _) as [[]|].
Qed.

(** ** The whole file *)

Lemma split_lines_step data : split_lines data =
  match split_at 10 data with
  | Some (line, data') => line :: split_lines data'
  | None => [data]
  end.
Proof.
  induction data as [|b data IH]; [done|]. simpl. destruct (b =? 10); [done|].
  rewrite IH. by destruct (split_at 10 data) as [[]|].
Qed.

Lemma load_loop_spec import filter data : 0 ∉ data -> forall fuel pre ps,
  (length data + 2 <= fuel)%nat ->
  load_properties_loop import fuel (pre ++ data ++ [10; 0]) (length pre) filter ps =
    run_lines import filter (split_lines data) ps.
Proof.
  remember (length data) as n eqn:En. revert data En.
  induction (lt_wf n) as [n _ IH]. intros data -> H0 fuel pre ps Hfuel.
  rewrite split_lines_step. destruct fuel as [|fuel]; [lia|]. cbn [load_properties_loop].
  destruct (split_at 10 data) as [[line data']|] eqn:Es.
  - apply split_at_Some in Es as [-> H10]. apply notin_app in H0 as [H0l H0d].
    rewrite not_elem_of_cons in H0d. destruct H0d as [_ H0d].
    rewrite <- app_assoc. change ((10 :: data') ++ [10; 0]) with (10 :: data' ++ [10; 0]).
    rewrite (strchr_hit _ pre line (data' ++ [10; 0])), bind_ret by done.
    destruct (load_line_spec import pre line (data' ++ [10; 0]) filter ps H0l H10)
      as (pre' & Hpre & ->).
    cbn [run_lines]. destruct (run_line import filter line ps) as [ps'| |]; [|done|done].
    rewrite !bind_ret, <- Hpre. rewrite length_app in Hfuel. simpl in Hfuel.
    apply (IH (length data')); [rewrite length_app; simpl; lia|done|done|lia].
  - apply split_at_None in Es.
    rewrite (strchr_hit _ pre data [0]), bind_ret by done.
    destruct (load_line_spec import pre data [0] filter ps H0 Es) as (pre' & Hpre & ->).
    cbn [run_lines]. destruct (run_line import filter data ps) as [ps'| |]; [|done|done].
    rewrite !bind_ret, <- Hpre. destruct fuel as [|fuel]; [lia|]. cbn [load_properties_loop].
    rewrite (strchr_miss _ pre' [] []); [done|done|done|done|set_solver|set_solver].
Qed.

Lemma load_file_spec depth fs fn data filter ps : fs fn = Some data -> 0 ∉ data ->
  load_properties_from_file (S depth) fs fn filter ps =
    run_lines (load_properties_from_file depth fs) (default [] filter) (split_lines data) ps.
Proof.
  intros Hf H0. cbn [load_properties_from_file]. rewrite Hf. unfold load_properties.
  apply (load_loop_spec _ _ _ H0 _ []). rewrite length_app. simpl. lia.
Qed.

(** The properties a file sets when its imports are not followed. *)
Definition file_props (data : list Z) : props :=
  omap (fun line => match line_action false line with
                    | SetProp k v => Some (k, v)
                    | _ => None
                    end) (split_lines data).

End VendorInit.

Module VendorInitProps.
Import VendorInit.

(** A file system with one file. *)
Definition one_file (name data : list Z) (fn : list Z) : option (list Z) :=
  if bool_decide (fn = name) then Some data else None.

(** C29: The in-place parser of [load_properties] never reads or writes outside
    its buffer on a file without NUL bytes, and sets exactly the properties the
    lines of the file mean, in order: what it does with the whole file is the
    effect of the lines one after the other, whatever the imports do. *)
Theorem load_properties_refines import data filter ps :
  0 ∉ data ->
  load_properties import (data ++ [10; 0]) filter ps =
    run_lines import (default [] filter) (split_lines data) ps.
Proof.
  intros H0. apply (load_loop_spec _ _ _ H0 _ []). rewrite length_app. simpl. lia.
Qed.

Lemma load_properties_refines_witness :
  load_properties (fun _ _ ps => Ret ps) (str "  a.b = c " ++ [10; 0]) None [] =
    Ret [(str "a.b", str "c")].
Proof.
  rewrite load_properties_refines by (by_decision).
  reflexivity.
Defined.

(** The text of a list of properties, one per line. *)
Definition print_props (ps : props) : list Z :=
  join_lines ((fun '(k, v) => k ++ 61 :: v) <$> ps).

(** A key and a value that a line can carry. *)
Definition good_prop (p : list Z * list Z) : Prop :=
  let '(k, v) := p in
  (0 ∉ k) /\ (10 ∉ k) /\ (61 ∉ k) /\ lstrip k = k /\ rstrip k = k /\ k <> [] /\
  head k <> Some 35 /\ take 7 k <> str "import " /\
  (0 ∉ v) /\ (10 ∉ v) /\ lstrip v = v /\ rstrip v = v.

Lemma lstrip_app k l : lstrip k = k -> k <> [] -> lstrip (k ++ l) = k ++ l.
Proof.
  destruct k as [|b k]; [done|]. simpl. destruct (isspace b); [|done].
  intros E _. exfalso. destruct (lstrip_split k) as (sp & E' & _).
  apply (f_equal length) in E', E. rewrite length_app in E'. simpl in E. lia.
Qed.

Lemma rstrip_app k l : rstrip l = l -> l <> [] -> rstrip (k ++ l) = k ++ l.
Proof.
  intros E Hl. induction k as [|b k IH]; [done|]. simpl. rewrite IH. by destruct k, l.
Qed.

Lemma rstrip_cons b l : isspace b = false -> rstrip l = l -> rstrip (b :: l) = b :: l.
Proof. intros Hb El. simpl. rewrite El, Hb. by destruct l. Qed.

Lemma split_at_app c k v : c ∉ k -> split_at c (k ++ c :: v) = Some (k, v).
Proof.
  induction k as [|b k IH]; intros Hk; simpl; [by rewrite Z.eqb_refl|].
  rewrite (proj2 (Z.eqb_neq b c)) by set_solver. by rewrite IH by set_solver.
Qed.

Lemma not_import k v : 61 ∉ k -> take 7 k <> str "import " ->
  strncmp_eq (k ++ 61 :: v) (str "import ") 7 = false.
Proof.
  intros Hk Ht. apply bool_decide_eq_false. intros E. apply Ht.
  destruct (decide (7 <= length k)%nat) as [Hl|Hl]; [by rewrite take_app_le in E|].
  exfalso. assert (61 ∈ str "import ") as Hin.
  { change (str "import ") with (take 7 (str "import ")). rewrite <- E, take_app_ge by lia.
    destruct (7 - length k)%nat eqn:El; [lia|]. simpl. set_solver. }
  revert Hin. by_decision.
Qed.

Lemma line_action_print u k v : good_prop (k, v) ->
  line_action u (k ++ 61 :: v) = SetProp k v.
Proof.
  intros (?&?&?&?&?&?&Hk&?&?&?&?&?). unfold line_action. rewrite lstrip_app by done.
  rewrite bool_decide_false by (by destruct k).
  rewrite rstrip_app by (done || by apply rstrip_cons).
  rewrite not_import by done. simpl. rewrite split_at_app by done. congruence.
Qed.

Lemma split_lines_print ps : Forall good_prop ps ->
  (0 ∉ print_props ps) /\
  split_lines (print_props ps) = ((fun '(k, v) => k ++ 61 :: v) <$> ps) ++ [[]].
Proof.
  induction 1 as [|[k v] ps (?&?&_&_&_&_&_&_&?&?&_) _ [IH0 IH]]; [by split; [apply not_elem_of_nil|]|].
  change (print_props ((k, v) :: ps)) with (((k ++ 61 :: v) ++ [10]) ++ print_props ps).
  rewrite <- app_assoc. simpl app. split; [set_solver|].
  rewrite split_lines_step, split_at_app by set_solver. by rewrite IH.
Qed.

Lemma run_lines_print import ps ps0 : Forall good_prop ps ->
  run_lines import [] (((fun '(k, v) => k ++ 61 :: v) <$> ps) ++ [[]]) ps0 = Ret (ps0 ++ ps).
Proof.
  intros Hps. revert ps0. induction Hps as [|[k v] ps Hp _ IH]; intros ps0.
  { simpl. by rewrite app_nil_r. }
  cbn [fmap list_fmap app run_lines]. unfold run_line. rewrite line_action_print by done.
  rewrite bind_ret. simpl. rewrite IH. by rewrite <- app_assoc.
Qed.

(** Round trip: a file written as one key=value line per property loads
    those properties, in that order. *)
Lemma print_load_roundtrip depth fs fn ps ps0 :
  fs fn = Some (print_props ps) -> Forall good_prop ps ->
  load_properties_from_file (S depth) fs fn None ps0 = Ret (ps0 ++ ps).
Proof.
  intros Hf Hps. destruct (split_lines_print ps Hps) as [H0 E].
  rewrite (load_file_spec _ _ _ _ _ _ Hf H0), E. by apply run_lines_print.
Qed.

Lemma print_load_roundtrip_witness :
  load_properties_from_file 1 (one_file (str "f") (print_props [(str "ro.a", str "x y"); (str "b", [])]))
    (str "f") None [] = Ret [(str "ro.a", str "x y"); (str "b", [])].
Proof.
  apply (print_load_roundtrip 0 _ (str "f") [(str "ro.a", str "x y"); (str "b", [])] []).
  - reflexivity.
  - repeat constructor; try discriminate; by_decision.
Defined.

(** Imports that do not form a cycle are followed to the end: when every
    import goes to a file of smaller rank, loading a file returns. *)
Lemma acyclic_imports_load fs (rank : list Z -> nat) :
  (forall fn data, fs fn = Some data -> 0 ∉ data) ->
  (forall fn data line fn' f, fs fn = Some data -> line ∈ split_lines data ->
     line_action true line = Import fn' f -> (rank fn' < rank fn)%nat) ->
  forall depth fn filter ps, (rank fn < depth)%nat ->
    exists ps', load_properties_from_file depth fs fn filter ps = Ret (ps ++ ps').
Proof.
  intros H0 Hrank. induction depth as [|depth IH]; intros fn filter ps Hd; [lia|].
  destruct (fs fn) as [data|] eqn:Hf.
  2:{ cbn [load_properties_from_file]. rewrite Hf. exists []. by rewrite app_nil_r. }
  rewrite (load_file_spec _ _ _ _ _ _ Hf (H0 _ _ Hf)).
  assert (Hl : forall line, line ∈ split_lines data -> line ∈ split_lines data) by done.
  revert Hl ps. generalize (split_lines data) at 1 3 as lines.
  induction lines as [|line lines IHl]; intros Hl ps; [by exists []; rewrite app_nil_r|].
  assert (exists ps1, run_line (load_properties_from_file depth fs) (default [] filter) line ps =
    Ret (ps ++ ps1)) as [ps1 E].
  { unfold run_line. destruct (line_action _ line) as [|fn' f|k v] eqn:Ea.
    - exists []. by rewrite app_nil_r.
    - apply IH. enough (rank fn' < rank fn)%nat by lia. apply (Hrank fn data line fn' f Hf (Hl line ltac:(set_solver))).
      revert Ea. unfold line_action. destruct (bool_decide (_ = Some 35)); [done|].
      destruct (bool_decide (length _ = _)); [intros E; exact E|].
      rewrite andb_false_r. by destruct (split_at 61 _) as [[]|].
    - destruct (passes_filter _ _); [by eexists|exists []; by rewrite app_nil_r]. }
  cbn [run_lines]. rewrite E, bind_ret.
  destruct (IHl ltac:(set_solver) (ps ++ ps1)) as [ps2 ->]. exists (ps1 ++ ps2). by rewrite app_assoc.
Qed.

Lemma acyclic_imports_load_witness :
  exists ps', load_properties_from_file 1 (one_file (str "f") (str "a=b")) (str "f") None [] = Ret ([] ++ ps').
Proof.
  apply (acyclic_imports_load (one_file (str "f") (str "a=b")) (fun _ => 0%nat)); [| |lia].
  - intros fn data. unfold one_file. destruct (bool_decide (fn = str "f")); [|discriminate].
    intros [= <-]. by_decision.
  - intros fn data line fn' f. unfold one_file. destruct (bool_decide (fn = str "f")); [|discriminate].
    intros [= <-] Hin. change (split_lines (str "a=b")) with [str "a=b"] in Hin.
    apply list_elem_of_singleton in Hin. subst line. discriminate.
Defined.

(** A filtered import sets exactly the properties of the file that pass the
    filter and never follows the imports in it. *)
Lemma filtered_import fs fn data filter ps depth :
  fs fn = Some data -> 0 ∉ data -> filter <> [] ->
  load_properties_from_file (S depth) fs fn (Some filter) ps =
    Ret (ps ++ List.filter (fun p => passes_filter p.1 filter) (file_props data)).
Proof.
  intros Hf H0 Hne. rewrite (load_file_spec _ _ _ _ _ _ Hf H0). simpl default. unfold file_props.
  revert ps. induction (split_lines data) as [|line lines IH]; intros ps.
  { simpl. by rewrite app_nil_r. }
  cbn [run_lines]. unfold run_line at 1. rewrite bool_decide_false by (by destruct filter).
  simpl omap. destruct (line_action false line) as [|fn' f|k v] eqn:Ea.
  - apply IH.
  - exfalso. revert Ea. unfold line_action. destruct (bool_decide _); [done|].
    rewrite andb_false_r. by destruct (split_at 61 _) as [[]|].
  - rewrite bind_ret, IH. simpl. destruct (passes_filter k filter); [|done]. by rewrite <- app_assoc.
Qed.

Lemma filtered_import_witness :
  load_properties_from_file 1
    (one_file (str "f") (str "ro.a=1" ++ 10 :: str "b=2" ++ 10 :: str "import f"))
    (str "f") (Some (str "ro.*")) [] = Ret [(str "ro.a", str "1")].
Proof.
  rewrite (filtered_import _ (str "f") (str "ro.a=1" ++ 10 :: str "b=2" ++ 10 :: str "import f"));
    [reflexivity|reflexivity|by_decision|discriminate].
Defined.

(** A file that imports itself is loaded without end: no nesting depth is
    enough, so [load_properties_from_file] recurses until the stack overflows. *)
Lemma self_import_diverges fs fn :
  fs fn = Some (str "import " ++ fn) ->
  (0 ∉ fn) -> (10 ∉ fn) -> (32 ∉ fn) -> lstrip fn = fn -> rstrip fn = fn -> fn <> [] ->
  forall depth ps, load_properties_from_file depth fs fn None ps = NoFuel.
Proof.
  intros Hf H0 H10 H32 Hl Hr Hne. induction depth as [|depth IH]; intros ps; [done|].
  rewrite (load_file_spec _ _ _ _ _ _ Hf).
  2:{ rewrite elem_of_app. intros [H|]; [|done]. revert H. by_decision. }
  assert (Ha : line_action true (str "import " ++ fn) = Import fn None).
  { unfold line_action. rewrite lstrip_app, (rstrip_app _ _ Hr) by done.
    rewrite bool_decide_false by done. rewrite (drop_at (str "import ")), Hl by done.
    change (strncmp_eq (str "import " ++ fn) (str "import ") 7) with true. simpl.
    destruct (split_at 32 fn) as [[k v]|] eqn:Es; [|done].
    apply split_at_Some in Es as [-> _]. set_solver. }
  rewrite split_lines_step. destruct (split_at 10 _) as [[k v]|] eqn:Es.
  { apply split_at_Some in Es as [Es _]. exfalso. assert (10 ∈ str "import " ++ fn) as Hin.
    { rewrite Es. set_solver. }
    apply elem_of_app in Hin as [Hin|Hin]; [|done]. revert Hin. by_decision. }
  cbn [run_lines]. unfold run_line. simpl default. rewrite bool_decide_true by done.
  rewrite Ha, IH. done.
Qed.

Lemma self_import_diverges_witness :
  load_properties_from_file 5 (one_file (str "f") (str "import f")) (str "f") None [] = NoFuel.
Proof.
  apply self_import_diverges; try reflexivity; try discriminate; by_decision.
Defined.

(** No line of the text is an import. *)
Definition no_imports (data : list Z) : Prop :=
  Forall (fun line => line_action true line = line_action false line) (split_lines data).

(** The properties of a file that may be missing. *)
Definition props_of (fs : list Z -> option (list Z)) (fn : list Z) : props :=
  match fs fn with Some data => file_props data | None => [] end.

Lemma load_no_imports depth fs fn ps :
  (forall data, fs fn = Some data -> (0 ∉ data) /\ no_imports data) ->
  load_properties_from_file (S depth) fs fn None ps = Ret (ps ++ props_of fs fn).
Proof.
  intros Hf. unfold props_of. destruct (fs fn) as [data|] eqn:Ed.
  2:{ cbn [load_properties_from_file]. rewrite Ed. by rewrite app_nil_r. }
  destruct (Hf data eq_refl) as [H0 Hno].
  rewrite (load_file_spec _ _ _ _ _ _ Ed H0). unfold file_props, no_imports in *. simpl default.
  revert ps. induction Hno as [|line lines Hl _ IH]; intros ps; [by simpl; rewrite app_nil_r|].
  cbn [run_lines]. unfold run_line at 1. rewrite bool_decide_true by done. rewrite Hl. simpl omap.
  destruct (line_action false line) as [|fn' f|k v] eqn:Ea; [apply IH| |].
  - exfalso. revert Ea. unfold line_action. destruct (bool_decide _); [done|].
    rewrite andb_false_r. by destruct (split_at 61 _) as [[]|].
  - rewrite bind_ret. change (passes_filter k []) with true. rewrite IH. simpl. by rewrite <- app_assoc.
Qed.

(** The configuration file of a customization. *)
Definition config_path (cust_id : list Z) : list Z :=
  if bool_decide (cust_id = []) then str "/ocm/system-properties/config.prop"
  else str "/ocm/system-properties/" ++ cust_id ++ str "/config.prop".

(** At boot the properties of cust.prop are set first and then those of the
    configuration file of the customization the trim area names (the basic
    config.prop when it names none or cannot be read), also when one of the
    files is missing. *)
Lemma vendor_load_order depth fs w cust_id w' :
  Ta.ta_get_cust_active w = Ret (cust_id, w') ->
  (forall fn data, fs fn = Some data -> (0 ∉ data) /\ no_imports data) ->
  vendor_load_properties (S depth) fs w =
    Ret (props_of fs (str "/ocm/system-properties/cust.prop") ++ props_of fs (config_path cust_id), w').
Proof.
  intros Hta Hfs. unfold vendor_load_properties.
  rewrite st_bind_lift, load_no_imports by eauto. rewrite (st_bind_Ret _ _ _ _ _ Hta).
  unfold config_path. destruct (bool_decide (cust_id = [])); unfold st_lift;
    rewrite load_no_imports by eauto; done.
Qed.

Lemma vendor_load_order_witness :
  vendor_load_properties 1
    (one_file (str "/ocm/system-properties/config.prop") (str "a=b")) (Ta.World [] [] [] [] []) =
    Ret ([(str "a", str "b")], Ta.World [] [] [] [] []).
Proof.
  rewrite (vendor_load_order 0 _ (Ta.World [] [] [] [] []) [] (Ta.World [] [] [] [] []));
    [reflexivity|reflexivity|].
  intros fn data. unfold one_file. destruct (bool_decide _); [|discriminate]. intros [= <-].
  split; [by_decision|]. constructor; [reflexivity|constructor].
Defined.

End VendorInitProps.
