(* ===== verification/Light.v ===== *)
(** The light HAL: src/hardware/lights/Light.cpp.

    The sysfs files are the environment: [write] appends to the trace of writes
    the path, the text and whether the write succeeded, as the environment
    decides.  The methods hold a mutex from their first to their last access, so
    each call is one step on the state. *)
From S2P Require Import Prelude.
From stdpp Require Import pretty.
#[local] Open Scope Z_scope.

Module Light.

(** * Types of the HIDL interface the code uses *)

Inductive Flash := Flash_NONE | Flash_TIMED | Flash_HARDWARE.
Inductive Brightness := Brightness_USER | Brightness_SENSOR | Brightness_LOW_PERSISTENCE.
Inductive Type_ :=
| BACKLIGHT | KEYBOARD | BUTTONS | BATTERY | NOTIFICATIONS | ATTENTION | BLUETOOTH | WIFI
| Type_other (n : Z).
Inductive Status := SUCCESS | LIGHT_NOT_SUPPORTED | UNKNOWN.

#[export] Instance Flash_eq_dec : EqDecision Flash.
Proof. solve_decision. Defined.
#[export] Instance Brightness_eq_dec : EqDecision Brightness.
Proof. solve_decision. Defined.
#[export] Instance Type_eq_dec : EqDecision Type_.
Proof. solve_decision. Defined.
#[export] Instance Status_eq_dec : EqDecision Status.
Proof. solve_decision. Defined.

(** [color] is a uint32_t, the two times are int32_t. *)
Record LightState := mkLightState {
  color : Z;
  flashMode : Flash;
  flashOnMs : Z;
  flashOffMs : Z;
  brightnessMode : Brightness
}.

(** * Files *)

Definition LED_FILE (led file : string) : string := "/sys/class/leds/" +:+ led +:+ "/" +:+ file.
Definition BUTTON_FILE : string := LED_FILE "button-backlight" "brightness".
Definition LCD_CLASS_BASE : string := "/sys/class/leds/lcd-backlight".
Definition LCD_CLASS_BASE2 : string := "/sys/class/backlight/panel0-backlight".
Definition PERSISTENCE_FILE : string := "/sys/class/graphics/fb0/msm_fb_persist_mode".
Definition DEFAULT_LOW_PERSISTENCE_MODE_BRIGHTNESS : Z := 128.
Definition LP_MODE_BRIGHTNESS_PROPERTY : string := "sys.display.low_persistence_mode_brightness".

(** What an [ifstream] finds when an int is read from a file: it cannot be
    opened; it has only white space (the variable keeps its value); no digit (0 is
    stored); a value that does not fit (the nearest one is stored); a value. *)
Inductive read_result :=
| ROpenFail
| RNoInput
| RNoDigits
| RTooLarge (negative : bool)
| RInt (v : Z).

(** The contents of a file after a write: the text and the newline of endl. *)
Abbreviation NL := (String (Ascii.Ascii false true false true false false false false) EmptyString).

Record write_event := WriteEvent { we_path : string; we_text : string; we_ok : bool }.

(** * The component *)

Record Color := mkColor { red : Z; green : Z; blue : Z }.

Record t := mkLight {
  mLcdFile : string;
  mBacklightMax : Z;
  mMaxSingle : Color;
  mMaxMix : Color;
  mHasButtonFile : bool;
  mHasPersistenceFile : bool;
  mLowPersistenceEnabled : bool;
  mIsBlinking : bool;
  batteryState : LightState;
  notificationState : LightState;
  mSupportedTypes : list Type_
}.

(** The object and the environment: [w_fails] says which of the next writes
    fail, the rest succeed. *)
Record world := World {
  w_light : t;
  w_fails : list bool;
  w_trace : list write_event
}.

Definition upd (f : t -> t) : St world unit :=
  st_modify (fun w => World (f (w_light w)) (w_fails w) (w_trace w)).

Definition set_mLowPersistenceEnabled (b : bool) (l : t) : t :=
  mkLight (mLcdFile l) (mBacklightMax l) (mMaxSingle l) (mMaxMix l) (mHasButtonFile l)
    (mHasPersistenceFile l) b (mIsBlinking l) (batteryState l) (notificationState l) (mSupportedTypes l).
Definition set_mIsBlinking (b : bool) (l : t) : t :=
  mkLight (mLcdFile l) (mBacklightMax l) (mMaxSingle l) (mMaxMix l) (mHasButtonFile l)
    (mHasPersistenceFile l) (mLowPersistenceEnabled l) b (batteryState l) (notificationState l)
    (mSupportedTypes l).
Definition set_batteryState (s : LightState) (l : t) : t :=
  mkLight (mLcdFile l) (mBacklightMax l) (mMaxSingle l) (mMaxMix l) (mHasButtonFile l)
    (mHasPersistenceFile l) (mLowPersistenceEnabled l) (mIsBlinking l) s (notificationState l)
    (mSupportedTypes l).
Definition set_notificationState (s : LightState) (l : t) : t :=
  mkLight (mLcdFile l) (mBacklightMax l) (mMaxSingle l) (mMaxMix l) (mHasButtonFile l)
    (mHasPersistenceFile l) (mLowPersistenceEnabled l) (mIsBlinking l) (batteryState l) s
    (mSupportedTypes l).

Definition write_str (path value : string) : St world bool := fun w =>
  let ok := negb (default false (head (w_fails w))) in
  Ret (ok, World (w_light w) (tail (w_fails w))
             (w_trace w ++ [WriteEvent path (value +:+ NL) ok])).

Definition write (path : string) (value : Z) : St world bool := write_str path (pretty value).

(** [read]: whether it succeeds and the value of the variable afterwards. *)
Definition read (r : read_result) (value : option Z) : bool * option Z :=
  match r with
  | ROpenFail => (false, value)
  | RNoInput => (false, value)
  | RNoDigits => (false, Some 0)
  | RTooLarge negative => (false, Some (if negative then INT_MIN else INT_MAX))
  | RInt v => (true, Some v)
  end.

Definition isLit (state : LightState) : bool := negb (Z.land (color state) 0xffffff =? 0).

Definition rgbToBrightness (state : LightState) : Z :=
  let color := s32 (color state) in
  Z.shiftr (77 * Z.land (Z.shiftr color 16) 0xff + 150 * Z.land (Z.shiftr color 8) 0xff
            + 29 * Z.land color 0xff) 8.

Definition scaleBrightness (brightness maxBrightness : Z) : outcome Z :=
  p ← int_expr (brightness * maxBrightness);
  n ← int_expr (p + 127);
  Ret (Z.quot n 255).

(** A bool is never negative: the first branch of the code is dead.  Using a
    variable that was never written is undefined. *)
Definition readMaxBrightness (r : read_result) (maxBrightness : option Z) (defaultValue : Z)
  : outcome Z :=
  let '(ok, maxBrightness) := read r maxBrightness in
  if Z.b2z ok <? 0 then Ret defaultValue
  else match maxBrightness with
       | None => Undef
       | Some v => if v <? 0 then Ret defaultValue else Ret v
       end.

Definition Color_of (colorRGB : Z) : Color :=
  mkColor (Z.land (Z.shiftr colorRGB 16) 0xff) (Z.land (Z.shiftr colorRGB 8) 0xff)
    (Z.land colorRGB 0xff).

(** The constructor, on the files that exist and what is read from them.  [None]
    is the abort of LOG(FATAL).  [dflt] is what the default constructor of the
    HIDL structure leaves in the two light states. *)
Definition Light (exists_ : string -> bool) (file : string -> read_result) (dflt : LightState)
  : outcome (option t) :=
  let supportedTypes := [BACKLIGHT; BATTERY; NOTIFICATIONS; ATTENTION] in
  let lcd_class_base := if exists_ LCD_CLASS_BASE then LCD_CLASS_BASE else LCD_CLASS_BASE2 in
  let mLcdFile := lcd_class_base +:+ "/brightness" in
  if negb (exists_ mLcdFile) then Ret None
  else
    mBacklightMax ← readMaxBrightness (file (lcd_class_base +:+ "/max_brightness")) (Some 0) (-1);
    sr ← readMaxBrightness (file (LED_FILE "red" "max_single_brightness")) None 0xff;
    sg ← readMaxBrightness (file (LED_FILE "green" "max_single_brightness")) None 0xff;
    sb ← readMaxBrightness (file (LED_FILE "blue" "max_single_brightness")) None 0xff;
    mr ← readMaxBrightness (file (LED_FILE "red" "max_mix_brightness")) None 0xff;
    mg ← readMaxBrightness (file (LED_FILE "green" "max_mix_brightness")) None 0xff;
    mb ← readMaxBrightness (file (LED_FILE "blue" "max_mix_brightness")) None 0xff;
    let mHasPersistenceFile := exists_ PERSISTENCE_FILE in
    let mHasButtonFile := exists_ BUTTON_FILE in
    let supportedTypes := if mHasButtonFile then supportedTypes ++ [BUTTONS] else supportedTypes in
    Ret (Some (mkLight mLcdFile mBacklightMax (mkColor sr sg sb) (mkColor mr mg mb) mHasButtonFile
                 mHasPersistenceFile false false dflt dflt supportedTypes)).

Section Methods.
(** libcutils: the value of a property as an int32, with its default. *)
Context (property_get_int32 : string -> Z -> Z).

Definition setLightBacklight (state : LightState) : St world bool :=
  l ← st_gets w_light;
  let brightness := rgbToBrightness state in
  let lpEnabled := bool_decide (brightnessMode state = Brightness_LOW_PERSISTENCE) in
  let cannotHandlePersistence := negb (mHasPersistenceFile l) && lpEnabled in
  '(status, brightness) ←
    (if mHasPersistenceFile l && negb (eqb (mLowPersistenceEnabled l) lpEnabled) then
       status ← write PERSISTENCE_FILE (if lpEnabled then 1 else 0);
       let brightness := if lpEnabled
         then property_get_int32 LP_MODE_BRIGHTNESS_PROPERTY DEFAULT_LOW_PERSISTENCE_MODE_BRIGHTNESS
         else brightness in
       _ ← upd (set_mLowPersistenceEnabled lpEnabled);
       mret (status, brightness)
     else mret (true, brightness));
  status ←
    (if (status : bool) then
       brightness ←
         (if negb (brightness =? 0) && (0 <? mBacklightMax l) then
            if brightness =? 255 then mret (mBacklightMax l)
            else b ← st_lift (int_expr (brightness - 1));
                 s ← st_lift (scaleBrightness b (mBacklightMax l));
                 st_lift (int_expr (s + 1))
          else mret brightness);
       write (mLcdFile l) brightness
     else mret status);
  mret (negb cannotHandlePersistence && status).

(** The buffer has 22 characters. *)
Definition write_lut (file : string) (brightness : Z) : St world bool :=
  let buffer := pretty brightness +:+ ",0" +:+ NL in
  let n := Z.of_nat (String.length buffer) in
  if (n <? 0) || (22 <=? n) then mret false else write_str file buffer.

Definition HANDLE_LED_BLINK_VALUES (led : string) (value onMS offMS : Z) (status : bool)
  : St world bool :=
  if value =? 0 then mret status
  else
    s1 ← write_lut (LED_FILE led "lut_pwm") value;
    s2 ← write (LED_FILE led "pause_lo_multi") onMS;
    s3 ← write (LED_FILE led "pause_hi_multi") offMS;
    s4 ← write (LED_FILE led "step_duration") 0;
    mret (status && s1 && s2 && s3 && s4).

(** The number of colours that are lit. *)
Definition lit_colors (c : Color) : Z :=
  Z.b2z (negb (red c =? 0)) + Z.b2z (negb (green c =? 0)) + Z.b2z (negb (blue c =? 0)).

(** The colour scaled to the range of the LEDs. *)
Definition scaled_color (l : t) (state : LightState) : outcome Color :=
  let color := Color_of (color state) in
  let maxColor := if 1 <? lit_colors color then mMaxMix l else mMaxSingle l in
  r ← scaleBrightness (red color) (red maxColor);
  g ← scaleBrightness (green color) (green maxColor);
  b ← scaleBrightness (blue color) (blue maxColor);
  Ret (mkColor r g b).

Definition setSpeakerLightLocked (state : LightState) : St world bool :=
  l ← st_gets w_light;
  c ← st_lift (scaled_color l state);
  let onMS := flashOnMs state in
  let offMS := flashOffMs state in
  if bool_decide (flashMode state = Flash_NONE) then
    _ ← (if mIsBlinking l then
           _ ← write (LED_FILE "rgb" "sync_state") 0;
           upd (set_mIsBlinking false)
         else mret tt);
    s1 ← write (LED_FILE "red" "brightness") (red c);
    if negb s1 then mret false
    else
      s2 ← write (LED_FILE "green" "brightness") (green c);
      if negb s2 then mret false
      else write (LED_FILE "blue" "brightness") (blue c)
  else
    status ← write (LED_FILE "rgb" "sync_state") 1;
    status ← HANDLE_LED_BLINK_VALUES "red" (red c) onMS offMS status;
    status ← HANDLE_LED_BLINK_VALUES "green" (green c) onMS offMS status;
    status ← HANDLE_LED_BLINK_VALUES "blue" (blue c) onMS offMS status;
    s ← write (LED_FILE "rgb" "start_blink") 1;
    _ ← upd (set_mIsBlinking true);
    mret (status && s).

Definition setLightButtons (state : LightState) : St world Status :=
  l ← st_gets w_light;
  if negb (mHasButtonFile l) then mret LIGHT_NOT_SUPPORTED
  else ok ← write BUTTON_FILE (Z.land (color state) 0xff);
       mret (if (ok : bool) then SUCCESS else UNKNOWN).

Definition handleSpeakerBatteryLocked : St world bool :=
  l ← st_gets w_light;
  if isLit (batteryState l) then setSpeakerLightLocked (batteryState l)
  else setSpeakerLightLocked (notificationState l).

Definition setLightBattery (state : LightState) : St world bool :=
  _ ← upd (set_batteryState state); handleSpeakerBatteryLocked.

Definition setLightNotifications (state : LightState) : St world bool :=
  _ ← upd (set_notificationState state); handleSpeakerBatteryLocked.

Definition status_of (ok : bool) : Status := if ok then SUCCESS else UNKNOWN.

Definition setLight (type : Type_) (state : LightState) : St world Status :=
  match type with
  | BACKLIGHT => ok ← setLightBacklight state; mret (status_of ok)
  | BUTTONS => setLightButtons state
  | BATTERY => ok ← setLightBattery state; mret (status_of ok)
  | NOTIFICATIONS => ok ← setLightNotifications state; mret (status_of ok)
  | ATTENTION => ok ← setLightNotifications state; mret (status_of ok)
  | KEYBOARD | BLUETOOTH | WIFI => mret LIGHT_NOT_SUPPORTED
  | Type_other _ => mret LIGHT_NOT_SUPPORTED
  end.

Definition getSupportedTypes : St world (list Type_) :=
  l ← st_gets w_light; mret (mSupportedTypes l).

(** A sequence of calls of the HAL. *)
Fixpoint calls (cs : list (Type_ * LightState)) : St world (list Status) :=
  match cs with
  | [] => mret []
  | (type, state) :: cs => s ← setLight type state; ss ← calls cs; mret (s :: ss)
  end.
End Methods.

(** * Brightness arithmetic *)

Definition byte_of (k x : Z) : Z := Z.land (Z.shiftr x k) 0xff.

Lemma land_ff x : 0 <= Z.land x 0xff < 256.
Proof. change 0xff with (2 ^ 8 - 1). rewrite land_mask by lia. apply Z.mod_pos_bound. lia. Qed.

(** The largest maximum for which scaling does not overflow an int. *)
Definition MAX_OK : Z := 8421503.

Lemma scaleBrightness_eq b m : 0 <= b <= 255 -> 0 <= m <= MAX_OK ->
  scaleBrightness b m = Ret ((b * m + 127) / 255).
Proof.
  unfold MAX_OK. intros Hb Hm. unfold scaleBrightness.
  rewrite int_expr_ok by (unfold INT_MAX, INT_MIN; nia). rewrite bind_ret.
  rewrite int_expr_ok by (unfold INT_MAX, INT_MIN; nia). rewrite bind_ret.
  f_equal. apply Z.quot_div_nonneg; nia.
Qed.

Lemma scale_range b m : 0 <= b <= 255 -> 0 <= m -> 0 <= (b * m + 127) / 255 <= m.
Proof. intros. split; [apply Z.div_pos; nia|]. apply Z.lt_succ_r, Z.div_lt_upper_bound; nia. Qed.

(** * The text of an int *)

Lemma length_append (s1 s2 : string) :
  String.length (s1 +:+ s2) = (String.length s1 + String.length s2)%nat.
Proof. induction s1 as [|c s1 IH]; simpl; [done|]. by rewrite IH. Qed.

Lemma pretty_N_go_length k x s : (x < 10 ^ N.of_nat k)%N ->
  (String.length (pretty_N_go x s) <= k + String.length s)%nat.
Proof.
  revert x s. induction k as [|k IH]; intros x s Hx.
  - change (10 ^ N.of_nat 0)%N with 1%N in Hx. assert (x = 0%N) as -> by lia. by rewrite pretty_N_go_0.
  - destruct (decide (0 < x)%N) as [Hpos|Hz].
    + rewrite pretty_N_go_step by done. etrans; [apply IH|cbn [String.length]; lia].
      apply N.Div0.div_lt_upper_bound. by rewrite Nat2N.inj_succ, N.pow_succ_r' in Hx.
    + assert (x = 0%N) as -> by lia. rewrite pretty_N_go_0. lia.
Qed.

Lemma pretty_int_length x : 0 <= x <= INT_MAX -> (String.length (pretty x) <= 10)%nat.
Proof.
  intros Hx. assert (H : forall n : N, (n < 10 ^ 10)%N -> (String.length (pretty n) <= 10)%nat).
  { intros n Hn. unfold pretty, pretty_N. case_decide; [simpl; lia|].
    apply (pretty_N_go_length 10 n "" Hn). }
  unfold INT_MAX in Hx. unfold pretty, pretty_Z. destruct x as [|q|q]; [simpl; lia| |lia].
  apply (H (N.pos q)). lia.
Qed.

(** * The contents of the files after the writes of a trace *)

Definition put (m : gmap string string) (e : write_event) : gmap string string :=
  if we_ok e then <[we_path e := we_text e]> m else m.
Definition files (tr : list write_event) : gmap string string := foldl put ∅ tr.

Lemma files_app tr tr' : files (tr ++ tr') = foldl put (files tr) tr'.
Proof. apply foldl_app. Qed.

Lemma foldl_put_ne m evs p : Forall (fun e => we_path e <> p) evs -> foldl put m evs !! p = m !! p.
Proof.
  intros H. revert m. induction H as [|e evs He _ IH]; intros m; [done|]. simpl. rewrite IH.
  unfold put. destruct (we_ok e); [|done]. by apply lookup_insert_ne.
Qed.

(** * The LED commands *)

Definition ok_write (p : string) (v : Z) : write_event := WriteEvent p (pretty v +:+ NL) true.

Definition blink_events (led : string) (v onMS offMS : Z) : list write_event :=
  if v =? 0 then [] else
  [WriteEvent (LED_FILE led "lut_pwm") ((pretty v +:+ ",0" +:+ NL) +:+ NL) true;
   ok_write (LED_FILE led "pause_lo_multi") onMS; ok_write (LED_FILE led "pause_hi_multi") offMS;
   ok_write (LED_FILE led "step_duration") 0].

(** What is written for a light state when every write succeeds. *)
Definition speaker_events (blinking : bool) (s : LightState) (c : Color) : list write_event :=
  if bool_decide (flashMode s = Flash_NONE) then
    (if blinking then [ok_write (LED_FILE "rgb" "sync_state") 0] else []) ++
    [ok_write (LED_FILE "red" "brightness") (red c); ok_write (LED_FILE "green" "brightness") (green c);
     ok_write (LED_FILE "blue" "brightness") (blue c)]
  else
    ok_write (LED_FILE "rgb" "sync_state") 1 ::
    blink_events "red" (red c) (flashOnMs s) (flashOffMs s) ++
    blink_events "green" (green c) (flashOnMs s) (flashOffMs s) ++
    blink_events "blue" (blue c) (flashOnMs s) (flashOffMs s) ++
    [ok_write (LED_FILE "rgb" "start_blink") 1].

Definition int_color (c : Color) : Prop :=
  0 <= red c <= INT_MAX /\ 0 <= green c <= INT_MAX /\ 0 <= blue c <= INT_MAX.

Definition max_ok (c : Color) : Prop :=
  0 <= red c <= MAX_OK /\ 0 <= green c <= MAX_OK /\ 0 <= blue c <= MAX_OK.

Lemma scaled_color_ok l s : max_ok (mMaxSingle l) -> max_ok (mMaxMix l) ->
  exists c, scaled_color l s = Ret c /\ int_color c.
Proof.
  intros Hs Hm. unfold scaled_color. set (C := Color_of (color s)).
  set (M := if 1 <? lit_colors C then mMaxMix l else mMaxSingle l).
  assert (HM : max_ok M) by (unfold M; by destruct (1 <? lit_colors C)).
  assert (HC : 0 <= red C <= 255 /\ 0 <= green C <= 255 /\ 0 <= blue C <= 255).
  { unfold C, Color_of. cbn [red green blue]. pose proof (land_ff (Z.shiftr (color s) 16)).
    pose proof (land_ff (Z.shiftr (color s) 8)). pose proof (land_ff (color s)). lia. }
  destruct HM as (?&?&?), HC as (?&?&?). rewrite !scaleBrightness_eq, !bind_ret by lia.
  eexists. split; [done|]. unfold int_color, INT_MAX. cbn [red green blue].
  pose proof (scale_range (red C) (red M)). pose proof (scale_range (green C) (green M)).
  pose proof (scale_range (blue C) (blue M)). unfold MAX_OK in *. lia.
Qed.

Lemma write_ok p v l tr : write p v (World l [] tr) = Ret (true, World l [] (tr ++ [ok_write p v])).
Proof. done. Qed.

Lemma upd_ok f l fl tr : upd f (World l fl tr) = Ret (tt, World (f l) fl tr).
Proof. done. Qed.

Lemma handle_blink_ok led v onMS offMS l tr : 0 <= v <= INT_MAX ->
  HANDLE_LED_BLINK_VALUES led v onMS offMS true (World l [] tr) =
    Ret (true, World l [] (tr ++ blink_events led v onMS offMS)).
Proof.
  intros Hv. unfold HANDLE_LED_BLINK_VALUES, blink_events.
  destruct (v =? 0); [by rewrite app_nil_r|].
  assert (Hlut : write_lut (LED_FILE led "lut_pwm") v (World l [] tr) = Ret (true, World l []
    (tr ++ [WriteEvent (LED_FILE led "lut_pwm") ((pretty v +:+ ",0" +:+ NL) +:+ NL) true]))).
  { unfold write_lut. rewrite !length_append. pose proof (pretty_int_length v Hv).
    rewrite (proj2 (Z.ltb_ge _ _)), (proj2 (Z.leb_gt _ _)) by (simpl; lia). done. }
  rewrite (st_bind_Ret _ _ _ _ _ Hlut). rewrite !(st_bind_Ret _ _ _ _ _ (write_ok _ _ _ _)).
  by rewrite <- !app_assoc.
Qed.

Lemma setSpeaker_ok s l tr c : scaled_color l s = Ret c -> int_color c ->
  setSpeakerLightLocked s (World l [] tr) =
    Ret (true, World (set_mIsBlinking (bool_decide (flashMode s <> Flash_NONE)) l) []
                 (tr ++ speaker_events (mIsBlinking l) s c)).
Proof.
  intros Hc (Hr & Hg & Hb). unfold setSpeakerLightLocked, speaker_events.
  unfold mbind at 1, st_bind at 1, st_gets at 1. cbn [w_light].
  rewrite st_bind_lift, Hc. destruct (bool_decide (flashMode s = Flash_NONE)) eqn:Ef.
  - apply bool_decide_eq_true in Ef. rewrite (bool_decide_false (_ <> _)) by (by intros []).
    destruct (mIsBlinking l) eqn:Eb.
    + unfold mbind at 1, st_bind at 1. rewrite (st_bind_Ret _ _ _ _ _ (write_ok _ _ _ _)).
      cbn [upd st_modify w_light w_fails w_trace].
      rewrite !(st_bind_Ret _ _ _ _ _ (write_ok _ _ _ _)). cbn [negb].
      rewrite !(st_bind_Ret _ _ _ _ _ (write_ok _ _ _ _)). cbn [negb].
      rewrite write_ok. by rewrite <- !app_assoc.
    + unfold mbind at 1, st_bind at 1. cbn [mret st_ret].
      rewrite !(st_bind_Ret _ _ _ _ _ (write_ok _ _ _ _)). cbn [negb].
      rewrite !(st_bind_Ret _ _ _ _ _ (write_ok _ _ _ _)). cbn [negb].
      rewrite write_ok, <- !app_assoc. by destruct l; simpl in Eb; subst.
  - apply bool_decide_eq_false in Ef. rewrite (bool_decide_true (_ <> _)) by done.
    rewrite (st_bind_Ret _ _ _ _ _ (write_ok _ _ _ _)).
    rewrite (st_bind_Ret _ _ _ _ _ (handle_blink_ok _ _ _ _ _ _ Hr)).
    rewrite (st_bind_Ret _ _ _ _ _ (handle_blink_ok _ _ _ _ _ _ Hg)).
    rewrite (st_bind_Ret _ _ _ _ _ (handle_blink_ok _ _ _ _ _ _ Hb)).
    rewrite (st_bind_Ret _ _ _ _ _ (write_ok _ _ _ _)).
    unfold upd, st_modify, mbind, st_bind, mret, st_ret. cbn [w_light w_fails w_trace].
    by rewrite <- !app_assoc.
Qed.

(** * What the LEDs show *)

Definition SYNC : string := LED_FILE "rgb" "sync_state".
Definition START : string := LED_FILE "rgb" "start_blink".
Definition text (v : Z) : string := pretty v +:+ NL.

(** The files of one LED hold a blink program for the value [v]. *)
Definition blink_shown (m : gmap string string) (led : string) (v onMS offMS : Z) : Prop :=
  v <> 0 ->
  m !! LED_FILE led "lut_pwm" = Some ((pretty v +:+ ",0" +:+ NL) +:+ NL) /\
  m !! LED_FILE led "pause_lo_multi" = Some (text onMS) /\
  m !! LED_FILE led "pause_hi_multi" = Some (text offMS) /\
  m !! LED_FILE led "step_duration" = Some (text 0).

(** The LED files show the colour [c] with the flash mode of [s]. *)
Definition shows (s : LightState) (c : Color) (m : gmap string string) : Prop :=
  if bool_decide (flashMode s = Flash_NONE) then
    m !! SYNC <> Some (text 1) /\
    m !! LED_FILE "red" "brightness" = Some (text (red c)) /\
    m !! LED_FILE "green" "brightness" = Some (text (green c)) /\
    m !! LED_FILE "blue" "brightness" = Some (text (blue c))
  else
    m !! SYNC = Some (text 1) /\ m !! START = Some (text 1) /\
    blink_shown m "red" (red c) (flashOnMs s) (flashOffMs s) /\
    blink_shown m "green" (green c) (flashOnMs s) (flashOffMs s) /\
    blink_shown m "blue" (blue c) (flashOnMs s) (flashOffMs s).

(** Two different closed paths. *)
Ltac path_ne := let E := fresh in intros E; vm_compute in E; discriminate E.
Ltac look := repeat (rewrite lookup_insert_eq || rewrite lookup_insert_ne by path_ne).

Lemma speaker_shows b s c m :
  (b = true <-> m !! SYNC = Some (text 1)) ->
  shows s c (foldl put m (speaker_events b s c)) /\
  (bool_decide (flashMode s <> Flash_NONE) = true <->
   foldl put m (speaker_events b s c) !! SYNC = Some (text 1)).
Proof.
  intros Hb. unfold shows, speaker_events, SYNC, START in *.
  destruct (bool_decide (flashMode s = Flash_NONE)) eqn:Ef.
  - apply bool_decide_eq_true in Ef. rewrite (bool_decide_false (_ <> _)) by (by intros []).
    assert (Hs : foldl put m ((if b then [ok_write (LED_FILE "rgb" "sync_state") 0] else []) ++
      [ok_write (LED_FILE "red" "brightness") (red c); ok_write (LED_FILE "green" "brightness") (green c);
       ok_write (LED_FILE "blue" "brightness") (blue c)]) !! LED_FILE "rgb" "sync_state" <> Some (text 1)).
    { destruct b; cbn [foldl app put ok_write we_ok we_path we_text]; look.
      - path_ne.
      - intros E. by apply Hb in E. }
    split; [|naive_solver]. split; [done|].
    destruct b; cbn [foldl app put ok_write we_ok we_path we_text]; split_and!; look; done.
  - apply bool_decide_eq_false in Ef. rewrite (bool_decide_true (_ <> _)) by done.
    unfold blink_shown, blink_events.
    destruct (Z.eqb_spec (red c) 0), (Z.eqb_spec (green c) 0), (Z.eqb_spec (blue c) 0);
      cbn [foldl app put ok_write we_ok we_path we_text];
      (split; [split_and!|split; [|done]]; intros; try done; split_and?; look; done).
Qed.

(** The blink program an LED was given last, as value and times: states that do not blink
    or leave it dark do not touch it. *)
Definition program (l : t) (channel : Color -> Z) (shown : list LightState) : option (Z * Z * Z) :=
  foldl (fun p s =>
    if bool_decide (flashMode s = Flash_NONE) then p
    else match scaled_color l s with
         | Ret c => if channel c =? 0 then p else Some (channel c, flashOnMs s, flashOffMs s)
         | _ => p
         end) None shown.
Definition program_shown (m : gmap string string) (led : string) (p : option (Z * Z * Z)) : Prop :=
  m !! LED_FILE led "lut_pwm" = (fun '(v, _, _) => (pretty v +:+ ",0" +:+ NL) +:+ NL) <$> p /\
  m !! LED_FILE led "pause_lo_multi" = (fun '(_, onMS, _) => text onMS) <$> p /\
  m !! LED_FILE led "pause_hi_multi" = (fun '(_, _, offMS) => text offMS) <$> p /\
  m !! LED_FILE led "step_duration" = (fun _ => text 0) <$> p.
(** The blink programs of the three LEDs after the states [shown]. *)
Definition programs (l : t) (shown : list LightState) (m : gmap string string) : Prop :=
  program_shown m "red" (program l red shown) /\ program_shown m "green" (program l green shown) /\
  program_shown m "blue" (program l blue shown).

Lemma program_snoc l ch shown s c : scaled_color l s = Ret c -> program l ch (shown ++ [s]) =
  if bool_decide (flashMode s = Flash_NONE) || (ch c =? 0) then program l ch shown
  else Some (ch c, flashOnMs s, flashOffMs s).
Proof. intros E. unfold program. rewrite foldl_snoc, E. by destruct (bool_decide _). Qed.

Lemma speaker_programs b l shown s c m : scaled_color l s = Ret c -> programs l shown m ->
  programs l (shown ++ [s]) (foldl put m (speaker_events b s c)).
Proof.
  intros E. unfold programs. rewrite !(program_snoc _ _ _ _ _ E). unfold program_shown, speaker_events.
  intros ((R1 & R2 & R3 & R4) & (G1 & G2 & G3 & G4) & (B1 & B2 & B3 & B4)).
  destruct (bool_decide (flashMode s = Flash_NONE)); cbn [orb].
  - destruct b; cbn [foldl app put ok_write we_ok we_path we_text]; split_and!; look; done.
  - unfold blink_events. destruct (red c =? 0), (green c =? 0), (blue c =? 0);
      cbn [foldl app put ok_write we_ok we_path we_text]; split_and!; look; done.
Qed.

(** The files the other lights use. *)
Definition other_paths : list string :=
  [PERSISTENCE_FILE; BUTTON_FILE; LCD_CLASS_BASE +:+ "/brightness"; LCD_CLASS_BASE2 +:+ "/brightness"].

Lemma shows_frame s c m evs : Forall (fun e => we_path e ∈ other_paths) evs ->
  (foldl put m evs !! SYNC = m !! SYNC) /\ (shows s c m -> shows s c (foldl put m evs)) /\
  (forall l shown, programs l shown m -> programs l shown (foldl put m evs)).
Proof.
  intros Hevs.
  assert (Hf : forall p, p ∉ other_paths -> foldl put m evs !! p = m !! p).
  { intros p Hp. apply foldl_put_ne. eapply Forall_impl; [exact Hevs|]. intros e He E. apply Hp. by rewrite <- E. }
  split; [apply Hf; by_decision|]. unfold shows, blink_shown, programs, program_shown.
  rewrite !Hf by by_decision. done.
Qed.

(** * The backlight *)

(** The value written for the brightness [b]. *)
Definition lcd_value (max b : Z) : Z :=
  if negb (b =? 0) && (0 <? max) then
    if b =? 255 then max else ((b - 1) * max + 127) / 255 + 1
  else b.

(** The persistence mode changes with this call. *)
Definition lp_changes (l : t) (s : LightState) : bool :=
  mHasPersistenceFile l &&
  negb (eqb (mLowPersistenceEnabled l) (bool_decide (brightnessMode s = Brightness_LOW_PERSISTENCE))).

(** The brightness asked for: fixed when low persistence starts. *)
Definition wanted (prop : string -> Z -> Z) (l : t) (s : LightState) : Z :=
  if lp_changes l s && bool_decide (brightnessMode s = Brightness_LOW_PERSISTENCE)
  then prop LP_MODE_BRIGHTNESS_PROPERTY DEFAULT_LOW_PERSISTENCE_MODE_BRIGHTNESS
  else rgbToBrightness s.

Lemma rgbToBrightness_sum s : rgbToBrightness s =
  (77 * red (Color_of (color s)) + 150 * green (Color_of (color s)) + 29 * blue (Color_of (color s))) / 256.
Proof.
  unfold rgbToBrightness, Color_of. cbn [red green blue]. rewrite Z.shiftr_div_pow2 by lia.
  change 0xff with (2 ^ 8 - 1). rewrite !land_mask, !Z.shiftr_div_pow2 by lia.
  assert (E : s32 (color s) mod 2 ^ 24 = color s mod 2 ^ 24).
  { unfold swrap. pow2_num. change (2 ^ (32 - 1)) with 2147483648.
    destruct (_ <? _); Z.div_mod_to_equations; lia. }
  generalize dependent (s32 (color s)). generalize (color s). intros y x E.
  assert ((x / 2 ^ 16) mod 2 ^ 8 = (y / 2 ^ 16) mod 2 ^ 8 /\
          (x / 2 ^ 8) mod 2 ^ 8 = (y / 2 ^ 8) mod 2 ^ 8 /\ x mod 2 ^ 8 = y mod 2 ^ 8) as (-> & -> & ->).
  { pow2_num. Z.div_mod_to_equations. lia. }
  done.
Qed.

Lemma color_range x : 0 <= red (Color_of x) <= 255 /\ 0 <= green (Color_of x) <= 255 /\
  0 <= blue (Color_of x) <= 255.
Proof.
  unfold Color_of. cbn [red green blue]. pose proof (land_ff (Z.shiftr x 16)).
  pose proof (land_ff (Z.shiftr x 8)). pose proof (land_ff x). lia.
Qed.

Lemma rgbToBrightness_range s : 0 <= rgbToBrightness s <= 255.
Proof.
  rewrite rgbToBrightness_sum. pose proof (color_range (color s)). mach_lia.
Qed.

Lemma setLightBacklight_ok prop s l tr :
  mBacklightMax l <= MAX_OK -> 0 <= wanted prop l s <= 255 ->
  setLightBacklight prop s (World l [] tr) =
    Ret (mHasPersistenceFile l || negb (bool_decide (brightnessMode s = Brightness_LOW_PERSISTENCE)),
         World (if lp_changes l s then set_mLowPersistenceEnabled (negb (mLowPersistenceEnabled l)) l else l) []
           (tr ++ (if lp_changes l s then [ok_write PERSISTENCE_FILE
                     (Z.b2z (bool_decide (brightnessMode s = Brightness_LOW_PERSISTENCE)))] else []) ++
                  [ok_write (mLcdFile l) (lcd_value (mBacklightMax l) (wanted prop l s))])).
Proof.
  intros Hmax Hw. unfold setLightBacklight. unfold mbind at 1, st_bind at 1, st_gets at 1. cbn [w_light].
  assert (Htail : forall b l' tr', 0 <= b <= 255 ->
    (brightness ← (if negb (b =? 0) && (0 <? mBacklightMax l) then
            if b =? 255 then mret (mBacklightMax l)
            else b ← st_lift (int_expr (b - 1));
                 s ← st_lift (scaleBrightness b (mBacklightMax l));
                 st_lift (int_expr (s + 1))
          else mret b);
     write (mLcdFile l) brightness) (World l' [] tr') =
    Ret (true, World l' [] (tr' ++ [ok_write (mLcdFile l) (lcd_value (mBacklightMax l) b)]))).
  { intros b l' tr' Hb. unfold lcd_value.
    destruct (negb (b =? 0) && (0 <? mBacklightMax l)) eqn:E; [|done].
    destruct (b =? 255) eqn:E255; [done|].
    apply andb_true_iff in E as [E0 Em]. apply negb_true_iff, Z.eqb_neq in E0. apply Z.ltb_lt in Em.
    pose proof (scale_range (b - 1) (mBacklightMax l)). unfold MAX_OK in *.
    unfold mbind at 1, st_bind at 1. rewrite st_bind_lift, int_expr_ok by mach_lia.
    rewrite st_bind_lift, scaleBrightness_eq by (unfold MAX_OK; lia).
    rewrite int_expr_ok by (unfold INT_MIN, INT_MAX; lia). done. }
  unfold wanted, lp_changes in *.
  destruct (mHasPersistenceFile l) eqn:Ep; cbn [andb negb] in *.
  - destruct (eqb _ _) eqn:El; cbn [negb andb] in *.
    + unfold mbind at 1, st_bind at 1. cbn [mret st_ret]. rewrite (st_bind_Ret _ _ _ _ _ (Htail _ _ _ Hw)).
      done.
    + unfold mbind at 1, st_bind at 1. rewrite (st_bind_Ret _ _ _ _ _ (write_ok _ _ _ _)).
      rewrite (st_bind_Ret _ _ _ _ _ (upd_ok _ _ _ _)). cbn [mret st_ret].
      rewrite (st_bind_Ret _ _ _ _ _ (Htail _ _ _ Hw)). apply eqb_false_iff in El.
      rewrite <- app_assoc. unfold mret, st_ret. do 2 f_equal.
      by destruct (bool_decide _), (mLowPersistenceEnabled l).
  - unfold mbind at 1, st_bind at 1. cbn [mret st_ret]. rewrite (st_bind_Ret _ _ _ _ _ (Htail _ _ _ Hw)).
    cbn [app]. unfold mret, st_ret. by rewrite andb_true_r.
Qed.

End Light.

Module LightProps.
Import Light.

(** The last state asked for by the battery, and by notifications or attention. *)
Definition battery_of (d : LightState) (c : Type_ * LightState) : LightState :=
  match c.1 with BATTERY => c.2 | _ => d end.
Definition notification_of (d : LightState) (c : Type_ * LightState) : LightState :=
  match c.1 with NOTIFICATIONS | ATTENTION => c.2 | _ => d end.
Definition is_led (ty : Type_) : bool :=
  match ty with BATTERY | NOTIFICATIONS | ATTENTION => true | _ => false end.

(** The battery wins over notifications. *)
Definition winner (b n : LightState) : LightState := if isLit b then b else n.

Definition config (l : t) := (mLcdFile l, mBacklightMax l, mMaxSingle l, mMaxMix l).

Definition config_ok (l : t) : Prop :=
  max_ok (mMaxSingle l) /\ max_ok (mMaxMix l) /\ mBacklightMax l <= MAX_OK /\ mLcdFile l ∈ other_paths.

(** The states the LEDs were given, one for each call for an LED. *)
Fixpoint winners (b n : LightState) (cs : list (Type_ * LightState)) : list LightState :=
  match cs with
  | [] => []
  | c :: cs =>
      let b := battery_of b c in
      let n := notification_of n c in
      (if is_led c.1 then [winner b n] else []) ++ winners b n cs
  end.

Record Inv (l0 : t) (b n : LightState) (shown : list LightState) (w : world) : Prop := {
  inv_fails : w_fails w = [];
  inv_config : config (w_light w) = config l0;
  inv_battery : batteryState (w_light w) = b;
  inv_notification : notificationState (w_light w) = n;
  inv_blink : mIsBlinking (w_light w) = true <-> files (w_trace w) !! SYNC = Some (text 1);
  inv_programs : programs l0 shown (files (w_trace w))
}.

Lemma scaled_color_config l l' s : config l = config l' -> scaled_color l s = scaled_color l' s.
Proof. unfold config, scaled_color. by intros [= _ _ -> ->]. Qed.

Section Calls.
Context (prop : string -> Z -> Z).
Context (Hprop : 0 <= prop LP_MODE_BRIGHTNESS_PROPERTY DEFAULT_LOW_PERSISTENCE_MODE_BRIGHTNESS <= 255).
Context (l0 : t) (Hl0 : config_ok l0).

(** Showing a light state re-establishes the invariant. *)
Lemma handle_step b n sh w : Inv l0 b n sh w ->
  exists w' c, handleSpeakerBatteryLocked w = Ret (true, w') /\ Inv l0 b n (sh ++ [winner b n]) w' /\
    scaled_color l0 (winner b n) = Ret c /\ shows (winner b n) c (files (w_trace w')).
Proof using Hl0.
  destruct w as [l fl tr]. intros [Hf Hc Hb Hn Hk Hg]. cbn [w_fails w_light w_trace] in *. subst fl.
  destruct Hl0 as (H1 & H2 & _ & _).
  destruct (scaled_color_ok l0 (winner b n) H1 H2) as (c & Ec & Hint).
  pose proof (scaled_color_config _ _ (winner b n) Hc) as E. rewrite Ec in E.
  assert (Hrun : handleSpeakerBatteryLocked (World l [] tr) =
    setSpeakerLightLocked (winner b n) (World l [] tr)).
  { unfold handleSpeakerBatteryLocked, mbind, st_bind, st_gets, winner. cbn [w_light].
    rewrite Hb, Hn. by destruct (isLit b). }
  rewrite Hrun, (setSpeaker_ok _ _ _ _ E Hint). do 2 eexists. split; [done|].
  destruct (speaker_shows (mIsBlinking l) (winner b n) c (files tr) Hk) as [Hs Hk'].
  cbn [w_trace]. rewrite files_app. split; [|by split].
  constructor; cbn [w_fails w_light w_trace]; try done; rewrite files_app; [done|].
  by apply speaker_programs.
Qed.

(** Writes to the other files keep the invariant. *)
Lemma frame_step b n sh l l' tr evs : Inv l0 b n sh (World l [] tr) ->
  config l' = config l -> batteryState l' = batteryState l ->
  notificationState l' = notificationState l -> mIsBlinking l' = mIsBlinking l ->
  Forall (fun e => we_path e ∈ other_paths) evs ->
  Inv l0 b n sh (World l' [] (tr ++ evs)) /\
  (forall s c, shows s c (files tr) -> shows s c (files (tr ++ evs))).
Proof.
  intros [Hf Hc Hb Hn Hk Hg] E1 E2 E3 E4 Hevs. cbn [w_fails w_light w_trace] in *. rewrite files_app. split.
  - destruct (shows_frame (mkLightState 0 Flash_NONE 0 0 Brightness_USER) (mkColor 0 0 0)
      (files tr) _ Hevs) as (Es & _ & Hp).
    constructor; cbn [w_fails w_light w_trace]; try congruence; rewrite files_app; [by rewrite E4, Es|by apply Hp].
  - intros s c. by apply shows_frame.
Qed.

Lemma setLight_step b n sh w ty s : Inv l0 b n sh w ->
  exists st w', setLight prop ty s w = Ret (st, w') /\
    Inv l0 (battery_of b (ty, s)) (notification_of n (ty, s)) (sh ++ winners b n [(ty, s)]) w' /\
    if is_led ty then
      st = SUCCESS /\ exists c,
        scaled_color l0 (winner (battery_of b (ty, s)) (notification_of n (ty, s))) = Ret c /\
        shows (winner (battery_of b (ty, s)) (notification_of n (ty, s))) c (files (w_trace w'))
    else forall s' c, shows s' c (files (w_trace w)) -> shows s' c (files (w_trace w')).
Proof using Hl0 Hprop.
  destruct w as [l fl tr]. intros HI. pose proof (inv_fails _ _ _ _ _ HI) as Hf. cbn in Hf. subst fl.
  assert (Hled : forall f b' n', Inv l0 b' n' sh (World (f l) [] tr) ->
    exists st w', (ok ← (_ ← upd f; handleSpeakerBatteryLocked); mret (status_of ok)) (World l [] tr) =
      Ret (st, w') /\ Inv l0 b' n' (sh ++ [winner b' n']) w' /\ st = SUCCESS /\ exists c,
        scaled_color l0 (winner b' n') = Ret c /\ shows (winner b' n') c (files (w_trace w'))).
  { intros f b' n' HI'. destruct (handle_step b' n' sh _ HI') as (w' & c & E & HI'' & Hc).
    exists SUCCESS, w'. split_and!; [|done|done|by exists c].
    unfold mbind at 1, st_bind at 1. rewrite (st_bind_Ret _ _ _ _ _ (upd_ok _ _ _ _)). by rewrite E. }
  pose proof (inv_config _ _ _ _ _ HI) as Hc. cbn in Hc. cbn [winners].
  destruct ty; cbn [setLight is_led battery_of notification_of fst snd app]; rewrite ?app_nil_r;
    try (exists LIGHT_NOT_SUPPORTED, (World l [] tr); by split_and!).
  - destruct Hl0 as (_ & _ & Hmax & Hlcd). assert (mBacklightMax l = mBacklightMax l0 /\
      mLcdFile l = mLcdFile l0) as [Em Ep] by (unfold config in Hc; split; congruence).
    eexists _, _. rewrite (st_bind_Ret _ _ _ _ _ (setLightBacklight_ok prop s l tr ltac:(lia)
      ltac:(unfold wanted; destruct (_ && _); [done|apply rgbToBrightness_range]))).
    split; [done|]. cbn [w_trace].
    apply (frame_step _ _ _ l); [done|..]; try by destruct (lp_changes l s).
    apply Forall_app. rewrite <- Ep in Hlcd. split; [|by constructor].
    destruct (lp_changes l s); repeat constructor; by_decision.
  - unfold setLightButtons, mbind, st_bind, st_gets. cbn [w_light].
    destruct (mHasButtonFile l); cbn [negb]; [|by eexists _, _].
    rewrite write_ok. eexists _, _. split; [done|]. cbn [w_trace].
    apply (frame_step _ _ _ l); try done. repeat constructor; by_decision.
  - apply (Hled (set_batteryState s)). by destruct HI.
  - apply (Hled (set_notificationState s)). by destruct HI.
  - apply (Hled (set_notificationState s)). by destruct HI.
Qed.

Lemma calls_step cs b n sh w : Inv l0 b n sh w ->
  exists ss w', calls prop cs w = Ret (ss, w') /\
    Inv l0 (foldl battery_of b cs) (foldl notification_of n cs) (sh ++ winners b n cs) w' /\
    ((exists c, scaled_color l0 (winner b n) = Ret c /\ shows (winner b n) c (files (w_trace w))) \/
     existsb (fun c => is_led c.1) cs = true ->
     exists c, scaled_color l0 (winner (foldl battery_of b cs) (foldl notification_of n cs)) = Ret c /\
       shows (winner (foldl battery_of b cs) (foldl notification_of n cs)) c (files (w_trace w'))).
Proof using Hl0 Hprop.
  revert b n sh w. induction cs as [|[ty s] cs IH]; intros b n sh w HI.
  { exists [], w. cbn [winners]. rewrite app_nil_r. split_and!; [done|done|]. intros [H|]; [exact H|done]. }
  destruct (setLight_step b n sh w ty s HI) as (st & w1 & E & HI1 & Hs).
  cbn [winners] in HI1. rewrite app_nil_r in HI1.
  destruct (IH _ _ _ w1 HI1) as (ss & w2 & E2 & HI2 & Hs2).
  exists (st :: ss), w2. cbn [foldl existsb fst]. split_and!; [|by rewrite <- app_assoc in HI2|].
  { cbn [calls]. rewrite (st_bind_Ret _ _ _ _ _ E), (st_bind_Ret _ _ _ _ _ E2). done. }
  intros H. apply Hs2. destruct (is_led ty) eqn:El.
  - left. apply Hs.
  - destruct H as [(c & Ec & Hc)|H]; [|by right]. left.
    destruct ty; try done; by exists c; split; [|apply Hs].
Qed.
End Calls.


(** An object as the constructor makes it. *)
Definition sample_light : t :=
  mkLight (LCD_CLASS_BASE +:+ "/brightness") 4095 (mkColor 200 200 200) (mkColor 200 200 200)
    true true false false (mkLightState 0 Flash_NONE 0 0 Brightness_USER)
    (mkLightState 0 Flash_NONE 0 0 Brightness_USER)
    [BACKLIGHT; BATTERY; NOTIFICATIONS; ATTENTION; BUTTONS].


(** Scaling rounds to the nearest value: for a colour value from 0 to 255
    the result is in the range of the LED, within half a step of the exact
    quotient, keeps 0 and takes 255 to the maximum. *)
Lemma scaleBrightness_rounds b m : 0 <= b <= 255 -> 0 <= m <= MAX_OK ->
  exists r, scaleBrightness b m = Ret r /\ 0 <= r <= m /\ Z.abs (255 * r - b * m) <= 127 /\
    (b = 0 -> r = 0) /\ (b = 255 -> r = m).
Proof.
  intros Hb Hm. exists ((b * m + 127) / 255). rewrite scaleBrightness_eq by done.
  split_and!; [done|apply scale_range; lia|apply scale_range; lia| | |].
  - Z.div_mod_to_equations. lia.
  - intros ->. done.
  - intros ->. Z.div_mod_to_equations. lia.
Qed.

Lemma scaleBrightness_rounds_witness :
  exists r, scaleBrightness 100 200 = Ret r /\ 0 <= r <= 200 /\ Z.abs (255 * r - 100 * 200) <= 127 /\
    (100 = 0 -> r = 0) /\ (100 = 255 -> r = 200).
Proof. apply (scaleBrightness_rounds 100 200); unfold MAX_OK; lia. Defined.

Lemma lcd_value_range m b : 64 <= m <= MAX_OK -> 0 <= b <= 255 ->
  (b = 0 -> lcd_value m b = 0) /\ (0 < b -> 1 <= lcd_value m b <= m) /\ (b = 255 -> lcd_value m b = m).
Proof.
  intros Hm Hb. unfold lcd_value. destruct (Z.eqb_spec b 0) as [->|H0]; [cbn [negb andb]; lia|].
  rewrite (proj2 (Z.ltb_lt 0 m)) by lia. cbn [negb andb].
  destruct (Z.eqb_spec b 255) as [->|H255]; [lia|].
  split_and!; [lia| |lia]. intros _. pose proof (scale_range (b - 1) m ltac:(lia) ltac:(lia)).
  assert ((b - 1) * m <= 253 * m) by (apply Z.mul_le_mono_nonneg_r; lia).
  assert (((b - 1) * m + 127) / 255 < m) by (apply Z.div_lt_upper_bound; lia). lia.
Qed.

(** setLightBacklight leaves in the LCD file 0 when darkness is asked for,
    the maximum when full brightness is asked for and otherwise a value from 1
    to the maximum, for panels with at least 64 levels; the call fails only when
    low persistence is asked for and cannot be set. *)
Lemma backlight_range prop s l tr :
  64 <= mBacklightMax l <= MAX_OK ->
  0 <= prop LP_MODE_BRIGHTNESS_PROPERTY DEFAULT_LOW_PERSISTENCE_MODE_BRIGHTNESS <= 255 ->
  exists ok w' v, setLightBacklight prop s (World l [] tr) = Ret (ok, w') /\
    files (w_trace w') !! mLcdFile l = Some (text v) /\
    (wanted prop l s = 0 -> v = 0) /\ (0 < wanted prop l s -> 1 <= v <= mBacklightMax l) /\
    (wanted prop l s = 255 -> v = mBacklightMax l) /\
    (ok = false <-> mHasPersistenceFile l = false /\ brightnessMode s = Brightness_LOW_PERSISTENCE).
Proof.
  intros Hm Hp. assert (Hw : 0 <= wanted prop l s <= 255).
  { unfold wanted. destruct (_ && _); [done|apply rgbToBrightness_range]. }
  rewrite (setLightBacklight_ok prop s l tr) by (lia || done).
  destruct (lcd_value_range _ _ Hm Hw) as (H1 & H2 & H3).
  do 3 eexists. split; [done|]. cbn [w_trace]. split.
  { rewrite app_assoc, files_app. cbn [foldl put ok_write we_ok we_path we_text].
    apply lookup_insert_eq. }
  split_and!; [done|done|done|].
  destruct (mHasPersistenceFile l), (bool_decide _) eqn:Eb; cbn;
    (apply bool_decide_eq_true in Eb || apply bool_decide_eq_false in Eb); naive_solver.
Qed.

(** An object with the given maximum of the LCD. *)
Definition lcd_light (m : Z) : t :=
  mkLight (LCD_CLASS_BASE +:+ "/brightness") m (mkColor 255 255 255) (mkColor 255 255 255)
    false false false false (mkLightState 0 Flash_NONE 0 0 Brightness_USER)
    (mkLightState 0 Flash_NONE 0 0 Brightness_USER) [].

Lemma backlight_range_witness :
  exists ok w' v, setLightBacklight (fun _ d => d) (mkLightState 0x808080 Flash_NONE 0 0 Brightness_USER)
      (World (lcd_light 4095) [] []) = Ret (ok, w') /\
    files (w_trace w') !! mLcdFile (lcd_light 4095) = Some (text v) /\ 1 <= v <= 4095.
Proof.
  destruct (backlight_range (fun _ d => d) (mkLightState 0x808080 Flash_NONE 0 0 Brightness_USER)
    (lcd_light 4095) []) as (ok & w' & v & H1 & H2 & _ & H3 & _);
    [vm_compute; split; discriminate|vm_compute; split; discriminate|].
  exists ok, w', v. split; [exact H1|split; [exact H2|apply H3; vm_compute; reflexivity]].
Defined.

(** On a panel with fewer than 64 levels the brightness 254 is scaled to a
    value above the maximum: one past the last level. *)
Lemma backlight_over_max prop s l tr :
  0 < mBacklightMax l < 64 -> wanted prop l s = 254 ->
  exists ok w', setLightBacklight prop s (World l [] tr) = Ret (ok, w') /\
    files (w_trace w') !! mLcdFile l = Some (text (mBacklightMax l + 1)).
Proof.
  intros Hm Hw. rewrite (setLightBacklight_ok prop s l tr) by (unfold MAX_OK; lia).
  do 2 eexists. split; [done|]. cbn [w_trace].
  rewrite app_assoc, files_app. cbn [foldl put ok_write we_ok we_path we_text].
  rewrite lookup_insert_eq, Hw. f_equal. unfold lcd_value.
  rewrite (proj2 (Z.ltb_lt 0 _)) by lia. cbn [Z.eqb Pos.eqb negb andb]. unfold text. do 3 f_equal.
  symmetry. apply Z.div_unique with (127 + (254 - 1) * mBacklightMax l - 255 * mBacklightMax l); lia.
Qed.

Lemma backlight_over_max_witness :
  exists ok w', setLightBacklight (fun _ d => d) (mkLightState 0xfefefe Flash_NONE 0 0 Brightness_USER)
      (World (lcd_light 15) [] []) = Ret (ok, w') /\
    files (w_trace w') !! mLcdFile (lcd_light 15) = Some (text 16).
Proof.
  apply (backlight_over_max (fun _ d => d) _ (lcd_light 15) []); vm_compute; [split; reflexivity|reflexivity].
Defined.

(** When the file with the maximum of the red LED cannot be opened, the
    constructor uses a member it has not initialised: the default value 0xFF is
    never taken, since the test for failure compares a bool with 0. *)
Lemma light_ctor_uninitialised (exists_ : string -> bool) file dflt :
  exists_ ((if exists_ LCD_CLASS_BASE then LCD_CLASS_BASE else LCD_CLASS_BASE2) +:+ "/brightness") = true ->
  file (LED_FILE "red" "max_single_brightness") = ROpenFail ->
  Light exists_ file dflt = Undef.
Proof.
  intros He Hr. unfold Light. rewrite He. cbn [negb].
  assert (E : forall r, exists v, readMaxBrightness r (Some 0) (-1) = Ret v).
  { intros []; unfold readMaxBrightness; simpl; try (destruct (_ <? 0)); eauto. }
  destruct (E (file ((if exists_ LCD_CLASS_BASE then LCD_CLASS_BASE else LCD_CLASS_BASE2)
    +:+ "/max_brightness"))) as [v ->].
  by rewrite bind_ret, Hr.
Qed.

Lemma light_ctor_uninitialised_witness :
  Light (fun _ => true) (fun _ => ROpenFail) (mkLightState 0 Flash_NONE 0 0 Brightness_USER) = Undef.
Proof. apply light_ctor_uninitialised; reflexivity. Defined.

(** ** Reported success *)

(** A write that succeeded, or the write that turns blinking off, whose result
    the code ignores. *)
Definition good (e : write_event) : Prop :=
  we_ok e = true \/ (we_path e = SYNC /\ we_text e = text 0).

(** The writes of [m] satisfy [Q] together with its result. *)
Definition traced {A} (m : St world A) (Q : A -> list write_event -> Prop) : Prop :=
  forall w a w', m w = Ret (a, w') -> exists evs, w_trace w' = w_trace w ++ evs /\ Q a evs.

Lemma traced_bind {A B} (m : St world A) (k : A -> St world B) Q (R : B -> list write_event -> Prop) :
  traced m Q -> (forall a e1, Q a e1 -> traced (k a) (fun b e2 => R b (e1 ++ e2))) -> traced (m ≫= k) R.
Proof.
  intros Hm Hk w b w'' H. apply st_bind_Ret_inv in H as (a & w' & H1 & H2).
  destruct (Hm _ _ _ H1) as (e1 & E1 & HQ). destruct (Hk _ _ HQ _ _ _ H2) as (e2 & E2 & HR).
  exists (e1 ++ e2). split; [|done]. by rewrite E2, E1, app_assoc.
Qed.

Lemma traced_ret {A} (a : A) (Q : A -> list write_event -> Prop) : Q a [] -> traced (mret a) Q.
Proof. intros H w a' w' [= <- <-]. exists []. by rewrite app_nil_r. Qed.

Lemma traced_lift {A} (m : outcome A) (Q : A -> list write_event -> Prop) :
  (forall a, Q a []) -> traced (st_lift m) Q.
Proof. intros H w a w' E. destruct m; [|done|done]. injection E as <- <-. exists []. by rewrite app_nil_r. Qed.

Lemma traced_gets {A} (f : world -> A) : traced (st_gets f) (fun _ evs => evs = []).
Proof. intros w a w' [= <- <-]. exists []. by rewrite app_nil_r. Qed.

Lemma traced_upd f : traced (upd f) (fun _ evs => evs = []).
Proof. intros w a w' [= <- <-]. exists []. by rewrite app_nil_r. Qed.

Lemma traced_write_str p v : traced (write_str p v)
  (fun ok evs => evs = [WriteEvent p (v +:+ NL) ok]).
Proof. intros w a w' [= <- <-]. by eexists. Qed.

Lemma traced_weaken {A} (m : St world A) (Q R : A -> list write_event -> Prop) :
  traced m Q -> (forall a evs, Q a evs -> R a evs) -> traced m R.
Proof. intros Hm HR w a w' E. destruct (Hm _ _ _ E) as (evs & ? & ?). eauto. Qed.

(** A result of [true] means that all writes were good. *)
Definition honest (ok : bool) (evs : list write_event) : Prop := ok = true -> Forall good evs.

Lemma traced_write p v : traced (write p v) honest.
Proof.
  eapply traced_weaken; [apply traced_write_str|]. intros ok evs -> ->.
  repeat constructor. 
Qed.

Lemma traced_write_lut p v : traced (write_lut p v) honest.
Proof.
  unfold write_lut. destruct (_ || _); [by apply traced_ret|].
  eapply traced_weaken; [apply traced_write_str|]. intros ok evs -> ->. repeat constructor.
Qed.

Lemma traced_blink led v on off st : traced (HANDLE_LED_BLINK_VALUES led v on off st)
  (fun ok evs => ok = true -> st = true /\ Forall good evs).
Proof.
  unfold HANDLE_LED_BLINK_VALUES. destruct (v =? 0); [by apply traced_ret|].
  eapply traced_bind; [apply traced_write_lut|]. intros s1 e1 H1.
  eapply traced_bind; [apply traced_write|]. intros s2 e2 H2.
  eapply traced_bind; [apply traced_write|]. intros s3 e3 H3.
  eapply traced_bind; [apply traced_write|]. intros s4 e4 H4.
  apply traced_ret. rewrite !andb_true_iff. intros ((((->&Hs1)&Hs2)&Hs3)&Hs4).
  split; [done|]. rewrite !Forall_app, Forall_nil. auto 10.
Qed.

Lemma traced_speaker s : traced (setSpeakerLightLocked s) honest.
Proof.
  unfold setSpeakerLightLocked. eapply traced_bind; [apply traced_gets|]. intros l ? ->.
  eapply traced_bind; [apply (traced_lift _ (fun _ evs => evs = [])); done|]. intros c ? ->.
  destruct (bool_decide _).
  - apply (traced_bind _ _ (fun _ evs => Forall good evs)).
    { destruct (mIsBlinking l); [|by apply traced_ret].
      eapply traced_bind; [apply traced_write_str|]. intros ok ? ->.
      eapply traced_weaken; [apply traced_upd|]. intros _ ? ->. constructor; [by right|constructor]. }
    intros _ e0 H0. eapply traced_bind; [apply traced_write|]. intros [] e1 H1; [|by apply traced_ret].
    eapply traced_bind; [apply traced_write|]. intros [] e2 H2; [|by apply traced_ret].
    eapply traced_weaken; [apply traced_write|]. intros ok e3 H3 ->. simpl.
    rewrite !Forall_app. auto 10.
  - eapply traced_bind; [apply traced_write|]. intros s0 e0 H0.
    eapply traced_bind; [apply traced_blink|]. intros s1 e1 H1.
    eapply traced_bind; [apply traced_blink|]. intros s2 e2 H2.
    eapply traced_bind; [apply traced_blink|]. intros s3 e3 H3.
    eapply traced_bind; [apply traced_write|]. intros s4 e4 H4.
    eapply traced_bind; [apply traced_upd|]. intros _ ? ->.
    apply traced_ret. unfold honest. rewrite andb_true_iff. intros [-> ->].
    simpl. rewrite !Forall_app, Forall_nil. naive_solver.
Qed.

Lemma traced_handle : traced handleSpeakerBatteryLocked honest.
Proof.
  unfold handleSpeakerBatteryLocked. eapply traced_bind; [apply traced_gets|]. intros l ? ->.
  destruct (isLit _); apply traced_speaker.
Qed.

Lemma traced_backlight prop s : traced (setLightBacklight prop s) honest.
Proof.
  unfold setLightBacklight. eapply traced_bind; [apply traced_gets|]. intros l ? ->.
  apply (traced_bind _ _ (fun r evs => r.1 = true -> Forall good evs)).
  { destruct (_ && _); [|by apply traced_ret].
    eapply traced_bind; [apply traced_write|]. intros ok e1 H1.
    eapply traced_bind; [apply traced_upd|]. intros _ ? ->.
    apply traced_ret. simpl. rewrite Forall_app. auto. }
  intros [status b] e0 H0. simpl in H0.
  apply (traced_bind _ _ (fun ok evs => ok = true -> status = true /\ Forall good evs)).
  - destruct status; [|by apply traced_ret].
    apply (traced_bind _ _ (fun _ evs => evs = [])).
    { destruct (_ && _); [|by apply traced_ret]. destruct (b =? 255); [by apply traced_ret|].
      eapply traced_bind; [apply (traced_lift _ (fun _ evs => evs = [])); done|]. intros ? ? ->.
      eapply traced_bind; [apply (traced_lift _ (fun _ evs => evs = [])); done|]. intros ? ? ->.
      by apply traced_lift. }
    intros v ? ->. eapply traced_weaken; [apply traced_write|]. intros ok evs H Hok. auto.
  - intros ok e1 H1. apply traced_ret. unfold honest. rewrite andb_true_iff. intros [_ ->].
    simpl. rewrite !Forall_app, Forall_nil. naive_solver.
Qed.

(** When setLight reports SUCCESS, every write it made succeeded, except
    possibly the write that turns blinking off; this holds for every light type,
    from every state and whichever writes fail. *)
Lemma setLight_success prop ty s w w' :
  setLight prop ty s w = Ret (SUCCESS, w') ->
  exists evs, w_trace w' = w_trace w ++ evs /\ Forall good evs.
Proof.
  assert (H : traced (setLight prop ty s) (fun st evs => st = SUCCESS -> Forall good evs)).
  { assert (Hb : forall m : St world bool, traced m honest ->
      traced (ok ← m; mret (status_of ok)) (fun st evs => st = SUCCESS -> Forall good evs)).
    { intros m Hm. eapply traced_bind; [exact Hm|]. intros ok e1 H1. apply traced_ret.
      rewrite app_nil_r. by destruct ok; [intros _; apply H1|]. }
    assert (Hu : forall f, traced (_ ← upd f; handleSpeakerBatteryLocked) honest).
    { intros f. eapply traced_bind; [apply traced_upd|]. intros _ ? ->. apply traced_handle. }
    destruct ty; cbn [setLight]; try (by apply traced_ret); try (apply Hb, Hu).
    - apply Hb, traced_backlight.
    - unfold setLightButtons. eapply traced_bind; [apply traced_gets|]. intros l ? ->.
      destruct (negb _); [by apply traced_ret|]. eapply traced_bind; [apply traced_write|].
      intros ok e1 H1. apply traced_ret. simpl. rewrite app_nil_r.
      by destruct ok; [intros _; apply H1|]. }
  intros E. destruct (H _ _ _ E) as (evs & ? & ?). eauto.
Qed.

Lemma setLight_success_witness :
  exists evs, [ok_write SYNC 0; ok_write (LED_FILE "red" "brightness") 0;
     ok_write (LED_FILE "green" "brightness") 200; ok_write (LED_FILE "blue" "brightness") 0] = [] ++ evs /\
    Forall good evs.
Proof.
  exact (setLight_success (fun (_ : string) (d : Z) => d) NOTIFICATIONS (mkLightState 0xff00 Flash_NONE 0 0 Brightness_USER)
    (World (set_mIsBlinking true sample_light) [] [])
    (World (set_notificationState (mkLightState 0xff00 Flash_NONE 0 0 Brightness_USER) sample_light) []
      [ok_write SYNC 0; ok_write (LED_FILE "red" "brightness") 0;
       ok_write (LED_FILE "green" "brightness") 200; ok_write (LED_FILE "blue" "brightness") 0])
    ltac:(vm_compute; reflexivity)).
Defined.

End LightProps.
