(* ===== verification/Interaction.v ===== *)
(** The interaction boost: src/hardware/power-libperfmgr/InteractionHandler.cpp.

    The clients call [Acquire] under the mutex while a thread of the object runs
    [Routine], which waits for the screen to become idle and then ends the hint.
    A critical section is one step; the thread is a program counter that moves
    from one system call to the next, so that calls of the clients interleave
    between any two of them.  Waiting on the condition variable is a state of the
    thread of its own, which it leaves when it is notified or without a cause.  The
    hints started and ended are a trace. *)
From S2P Require Import Prelude.

Module Interaction.

Inductive interaction_state :=
| INTERACTION_STATE_UNINITIALIZED
| INTERACTION_STATE_IDLE
| INTERACTION_STATE_INTERACTION
| INTERACTION_STATE_WAITING.

#[global] Instance interaction_state_eq_dec : EqDecision interaction_state.
Proof. solve_decision. Defined.

Record timespec := Timespec { tv_sec : Z; tv_nsec : Z }.

(** Where the thread is: not started, before the lock in [Routine] and the test of
    the condition, asleep on the condition variable, after the unlock, in the first
    poll, in pread, in the second poll, before [Release], returned. *)
Inductive pc :=
| PNone
| PWait
| PSleep
| PArgs
| PPoll1 (timeout : Z)
| PPread (timeout : Z)
| PPoll2 (timeout : Z)
| PRelease
| PDone.

(** DoHint and EndHint of "INTERACTION", and the state in which [Exit] runs. *)
Inductive event := DoHint | EndHint | EExit (s : interaction_state).

(** Where a call of [Exit] is: there is none, before notify_all, in join. *)
Inductive exit_phase := XNone | XNotify | XJoin.
#[global] Instance exit_phase_eq_dec : EqDecision exit_phase.
Proof. solve_decision. Defined.

Record t := Handler {
  mState : interaction_state;
  mDurationMs : Z;
  mLastTimespec : timespec;
  eventfd_count : Z;
  thread : pc;
  exiting : exit_phase;
  trace : list event
}.

Definition mWaitMs : Z := 100.
Definition mMinDurationMs : Z := 1400.
Definition mMaxDurationMs : Z := 5650.

Definition set_mState (s : interaction_state) (h : t) : t :=
  Handler s (mDurationMs h) (mLastTimespec h) (eventfd_count h) (thread h) (exiting h) (trace h).
Definition set_duration (d : Z) (ts : timespec) (h : t) : t :=
  Handler (mState h) d ts (eventfd_count h) (thread h) (exiting h) (trace h).
Definition set_count (n : Z) (h : t) : t :=
  Handler (mState h) (mDurationMs h) (mLastTimespec h) n (thread h) (exiting h) (trace h).
Definition set_thread (p : pc) (h : t) : t :=
  Handler (mState h) (mDurationMs h) (mLastTimespec h) (eventfd_count h) p (exiting h) (trace h).
Definition set_exiting (x : exit_phase) (h : t) : t :=
  Handler (mState h) (mDurationMs h) (mLastTimespec h) (eventfd_count h) (thread h) x (trace h).
Definition emit (e : event) (h : t) : t :=
  Handler (mState h) (mDurationMs h) (mLastTimespec h) (eventfd_count h) (thread h) (exiting h)
    (trace h ++ [e]).

(** The constructor; [ts] is whatever the uninitialised member holds. *)
Definition InteractionHandler (ts : timespec) : t :=
  Handler INTERACTION_STATE_UNINITIALIZED 0 ts 0 PNone XNone [].

(** [idle_fd] and [event_fd] are the results of open and eventfd. *)
Definition Init (idle_fd event_fd : Z) (h : t) : bool * t :=
  if decide (mState h <> INTERACTION_STATE_UNINITIALIZED) then (true, h)
  else if idle_fd <? 0 then (false, h)
  else if event_fd <? 0 then (false, h)
  else (true, set_thread PWait (set_mState INTERACTION_STATE_IDLE (set_count 0 h))).

(** A nonblocking eventfd refuses a write that would pass 2^64 - 2. *)
Definition AbortWaitLocked (h : t) : t :=
  if eventfd_count h + 1 <=? 18446744073709551614
  then set_count (eventfd_count h + 1) h else h.

(** notify_one and notify_all of the condition variable, on which only the thread
    of the object waits. *)
Definition notify (h : t) : t := match thread h with PSleep => set_thread PWait h | _ => h end.

(** The part of [Exit] under the lock; the notification, the join and the closes follow. *)
Definition Exit (h : t) : t :=
  if decide (mState h = INTERACTION_STATE_UNINITIALIZED) then h
  else set_exiting XNotify (set_mState INTERACTION_STATE_UNINITIALIZED
         (AbortWaitLocked (emit (EExit (mState h)) h))).

Definition Exit_notify (h : t) : t := set_exiting XJoin (notify h).

(** join returns when the thread has; then the descriptors are closed. *)
Definition Exit_join (h : t) : option t :=
  match thread h with
  | PDone => Some (set_exiting XNone (set_thread PNone h))
  | _ => None
  end.

Definition PerfLock (h : t) : t := emit DoHint h.
Definition PerfRel (h : t) : t := emit EndHint h.

Definition int64_expr (x : Z) : outcome Z :=
  if (- 2 ^ 63 <=? x) && (x <? 2 ^ 63) then Ret x else Undef.

Definition CalcTimespecDiffMs (start end_ : timespec) : outcome Z :=
  ds ← int64_expr (tv_sec end_ - tv_sec start);
  ms ← int64_expr (ds * 1000);
  dn ← int64_expr (tv_nsec end_ - tv_nsec start);
  int64_expr (ms + Z.quot dn 1000000).

(** The duration of the hint for the duration asked for. *)
Definition final_duration (duration : Z) : outcome Z :=
  inputDuration ← int_expr (duration + 650);
  Ret (if mMaxDurationMs <? inputDuration then mMaxDurationMs
       else if mMinDurationMs <? inputDuration then inputDuration
       else mMinDurationMs).

Definition Acquire (duration : Z) (cur : timespec) (h : t) : outcome t :=
  if decide (mState h = INTERACTION_STATE_UNINITIALIZED) then Ret h
  else
    finalDuration ← final_duration duration;
    covered ← (if decide (mState h <> INTERACTION_STATE_IDLE)
               then if finalDuration <=? mDurationMs h then
                      elapsed_time ← CalcTimespecDiffMs (mLastTimespec h) cur;
                      Ret (elapsed_time <=? mDurationMs h - finalDuration)
                    else Ret false
               else Ret false);
    if (covered : bool) then Ret h
    else
      let h := set_duration finalDuration cur h in
      let h := match mState h with
               | INTERACTION_STATE_WAITING => AbortWaitLocked h
               | INTERACTION_STATE_IDLE => PerfLock h
               | _ => h
               end in
      Ret (notify (set_mState INTERACTION_STATE_INTERACTION h)).

(** Reading a nonblocking eventfd whose count is 0 fails and changes nothing;
    otherwise the count becomes 0. *)
Definition Release (h : t) : t :=
  if decide (mState h = INTERACTION_STATE_WAITING)
  then set_mState INTERACTION_STATE_IDLE (PerfRel h)
  else set_count 0 h.

(** What pread finds: end of file, or bytes at the start of [data], the rest of
    which is whatever the stack held (all of it when pread fails). *)
Inductive pread_result := PEof | PBytes (data : list Z).

Definition starts_idle (data : list Z) : bool := bool_decide (take 4 data = [105; 100; 108; 101]).

(** [WaitForIdle] from one system call to the next.  A poll returns at once when
    the eventfd is readable; a timeout is only possible when it is not. *)
Inductive wait_for_idle (count : Z) : pc -> pc -> Prop :=
| wait_aborted timeout : 0 < count -> wait_for_idle count (PPoll1 timeout) PRelease
| wait_error timeout : wait_for_idle count (PPoll1 timeout) PRelease
| wait_elapsed timeout : count = 0 -> wait_for_idle count (PPoll1 timeout) (PPread timeout)
| wait_eof timeout : wait_for_idle count (PPread timeout) PRelease
| wait_idle timeout data : starts_idle data = true ->
    wait_for_idle count (PPread timeout) PRelease
| wait_busy timeout data : starts_idle data = false ->
    wait_for_idle count (PPread timeout) (PPoll2 timeout)
| wait2_aborted timeout : 0 < count -> wait_for_idle count (PPoll2 timeout) PRelease
| wait2_error timeout : wait_for_idle count (PPoll2 timeout) PRelease
| wait2_idle_or_timeout timeout : wait_for_idle count (PPoll2 timeout) PRelease.

(** The thread. *)
Inductive routine : t -> t -> Prop :=
| routine_sleep h : thread h = PWait -> mState h = INTERACTION_STATE_IDLE -> routine h (set_thread PSleep h)
| routine_exit h : thread h = PWait -> mState h = INTERACTION_STATE_UNINITIALIZED ->
    routine h (set_thread PDone h)
| routine_wake h : thread h = PWait -> mState h <> INTERACTION_STATE_IDLE ->
    mState h <> INTERACTION_STATE_UNINITIALIZED ->
    routine h (set_thread PArgs (set_mState INTERACTION_STATE_WAITING h))
| routine_args h : thread h = PArgs -> routine h (set_thread (PPoll1 (mDurationMs h)) h)
| routine_wait h p : wait_for_idle (eventfd_count h) (thread h) p -> routine h (set_thread p h)
| routine_release h : thread h = PRelease -> routine h (set_thread PWait (Release h)).

(** The condition variable may let go of the thread without a notification. *)
Inductive spurious : t -> t -> Prop :=
| spurious_wake h : thread h = PSleep -> spurious h (set_thread PWait h).

(** The system: the clients call Init, Acquire and Exit at any time; Init is not
    called while another thread is inside Exit. *)
Inductive step : t -> t -> Prop :=
| step_init idle_fd event_fd h : exiting h = XNone -> step h (Init idle_fd event_fd h).2
| step_acquire duration cur h h' : Acquire duration cur h = Ret h' -> step h h'
| step_exit h : step h (Exit h)
| step_notify h : exiting h = XNotify -> step h (Exit_notify h)
| step_join h h' : exiting h = XJoin -> Exit_join h = Some h' -> step h h'
| step_routine h h' : routine h h' -> step h h'
| step_spurious h h' : spurious h h' -> step h h'.

Definition reachable (h : t) : Prop := exists ts, rtc step (InteractionHandler ts) h.

(** * The invariant *)

(** The thread is between the unlock and the poll that ends the wait. *)
Definition waiting (p : pc) : bool :=
  match p with PArgs | PPoll1 _ | PPread _ | PPoll2 _ => true | _ => false end.
(** The thread is between the unlock in [Routine] and the lock in [Release]. *)
Definition busy (p : pc) : bool := waiting p || match p with PRelease => true | _ => false end.

Definition active (s : interaction_state) : bool :=
  match s with
  | INTERACTION_STATE_INTERACTION | INTERACTION_STATE_WAITING => true
  | _ => false
  end.

(** How the state, the thread and the count of the eventfd fit together. *)
Definition fits (s : interaction_state) (x : exit_phase) (p : pc) (n : Z) : Prop :=
  match s with
  | INTERACTION_STATE_UNINITIALIZED =>
      match x with
      | XNone => p = PNone
      | XNotify => p <> PNone /\ 0 <= n /\ (waiting p = true -> 0 < n)
      | XJoin => p <> PNone /\ p <> PSleep /\ 0 <= n /\ (waiting p = true -> 0 < n)
      end
  | INTERACTION_STATE_IDLE => x = XNone /\ (p = PWait \/ p = PSleep) /\ n = 0
  | INTERACTION_STATE_INTERACTION =>
      x = XNone /\ ((p = PWait /\ n = 0) \/ (busy p = true /\ n = 1))
  | INTERACTION_STATE_WAITING => x = XNone /\ busy p = true /\ n = 0
  end.

Definition is_do (e : event) : bool := match e with DoHint => true | _ => false end.
Definition is_end (e : event) : bool := match e with EndHint => true | _ => false end.
Definition is_leak (e : event) : bool := match e with EExit s => active s | _ => false end.

(** The number of events of a kind. *)
Definition count (f : event -> bool) (tr : list event) : Z := length (List.filter f tr).

(** Every hint started was ended, except the one held now and those held when
    Exit was called. *)
Definition balanced (s : interaction_state) (tr : list event) : Prop :=
  count is_do tr = count is_end tr + Z.b2z (active s) + count is_leak tr.

Definition Inv (h : t) : Prop :=
  fits (mState h) (exiting h) (thread h) (eventfd_count h) /\ balanced (mState h) (trace h).

Lemma count_app f tr tr' : count f (tr ++ tr') = count f tr + count f tr'.
Proof. unfold count. rewrite List.filter_app, length_app. lia. Qed.

Lemma AbortWaitLocked_eq h : 0 <= eventfd_count h <= 1 ->
  AbortWaitLocked h = set_count (eventfd_count h + 1) h.
Proof. intros H. unfold AbortWaitLocked. by rewrite (proj2 (Z.leb_le _ _)) by lia. Qed.

(** Case analysis on a state given by its fields. *)
Ltac inv_cases :=
  unfold Inv, balanced, fits in *;
  cbn [mState exiting thread eventfd_count trace set_mState set_duration set_count set_thread
       set_exiting emit active waiting busy orb andb Z.b2z] in *;
  rewrite ?count_app in *; unfold count in *; cbn [List.filter is_do is_end is_leak active length] in *.

Ltac by_cases_lia := destruct_and?; destruct_or?; destruct_and?; simplify_eq/=;
  solve [lia|intuition (congruence || lia)].

Lemma Init_inv a b h : exiting h = XNone -> Inv h -> Inv (Init a b h).2.
Proof.
  intros Hj H. unfold Init. destruct (decide _) as [|Hs]; [done|].
  apply dec_stable in Hs. destruct (a <? 0), (b <? 0); try done.
  destruct h as [s d ts n p j tr]; cbn in *; subst. inv_cases. destruct H as [-> H]. by_cases_lia.
Qed.

Lemma Acquire_inv d cur h h' : Acquire d cur h = Ret h' -> Inv h -> Inv h'.
Proof.
  unfold Acquire. destruct (decide _) as [|Hs]; [by intros [= <-]|].
  destruct (final_duration d) as [f| |]; [|done|done]. rewrite bind_ret.
  intros E H. apply bind_Ret_inv in E as (covered & _ & E).
  destruct covered; [by injection E as <-|]. injection E as <-.
  destruct h as [s d0 ts n p j tr]; destruct s; cbn [mState set_duration] in *; [done|..].
  - unfold PerfLock, notify. destruct p; inv_cases; by_cases_lia.
  - unfold notify. destruct p; inv_cases; by_cases_lia.
  - rewrite AbortWaitLocked_eq by (inv_cases; by_cases_lia). unfold notify. destruct p; inv_cases; by_cases_lia.
Qed.

Lemma Exit_inv h : Inv h -> Inv (Exit h).
Proof.
  intros H. unfold Exit. destruct (decide _) as [|Hs]; [done|].
  destruct h as [s d0 ts n p j tr]. rewrite AbortWaitLocked_eq.
  2:{ destruct s; inv_cases; by_cases_lia. }
  destruct s; inv_cases; [done|..]; (split; [|lia]); destruct H as [(_ & H) _], p; by_cases_lia.
Qed.

Lemma routine_inv h h' : routine h h' -> Inv h -> Inv h'.
Proof.
  intros Hr H. destruct h as [s d0 ts n p j tr].
  inversion Hr as [?? Hs|?? Hs|?? Hs Hs'|? Hp|? p' Hw|? Hp]; subst; clear Hr; cbn [thread mState] in *.
  - subst. inv_cases. by_cases_lia.
  - subst. inv_cases. destruct j; by_cases_lia.
  - subst. destruct s; try done; inv_cases; by_cases_lia.
  - subst. destruct s, j; inv_cases; by_cases_lia.
  - cbn [eventfd_count] in Hw. inversion Hw; subst; clear Hw;
      destruct s, j; inv_cases; by_cases_lia.
  - subst. unfold Release, PerfRel. cbn [mState].
    destruct (decide _) as [->|Hs]; [inv_cases; by_cases_lia|]. destruct s, j; inv_cases; by_cases_lia.
Qed.

Lemma step_inv h h' : step h h' -> Inv h -> Inv h'.
Proof.
  intros Hs H. destruct Hs as [a b h Hj|d cur h h' E|h|h Hj|h h' Hj E|h h' Hr|h h' [h1 Ht]].
  - by apply Init_inv.
  - by eapply Acquire_inv.
  - by apply Exit_inv.
  - destruct h as [s d0 ts n p j tr]. cbn in Hj. subst j. unfold Exit_notify, notify.
    destruct s, p; inv_cases; by_cases_lia.
  - destruct h as [s d0 ts n p j tr]. unfold Exit_join in E. cbn in Hj, E. destruct p; try done.
    injection E as <-. subst j. destruct s; inv_cases; by_cases_lia.
  - by eapply routine_inv.
  - destruct h1 as [s d0 ts n p j tr]. cbn in Ht. subst p. destruct s; inv_cases; destruct j; by_cases_lia.
Qed.

Lemma reachable_inv h : reachable h -> Inv h.
Proof.
  intros [ts H]. remember (InteractionHandler ts) as h0 eqn:E.
  assert (H0 : Inv h0) by (by subst).
  clear E. induction H as [|h1 h2 h3 Hs _ IH]; [done|]. eauto using step_inv.
Qed.

(** The leaks of a trace never go away. *)
Lemma step_trace h h' : step h h' -> exists evs, trace h' = trace h ++ evs.
Proof.
  assert (Habort : forall h, trace (AbortWaitLocked h) = trace h).
  { intros h0. unfold AbortWaitLocked. by destruct (_ <=? _). }
  assert (Hnot : forall h, trace (notify h) = trace h) by (intros h0; unfold notify; by destruct (thread h0)).
  intros Hs. destruct Hs as [a b h Hj|d cur h h' E|h|h Hj|h h' Hj E|h h' Hr|h h' [h1 _]].
  - exists []. rewrite app_nil_r. unfold Init. destruct (decide _); [done|].
    by destruct (a <? 0), (b <? 0).
  - unfold Acquire in E. destruct (decide _); [injection E as <-; exists []; by rewrite app_nil_r|].
    destruct (final_duration d) as [f| |]; [|done|done]. rewrite bind_ret in E.
    apply bind_Ret_inv in E as (covered & _ & E).
    destruct covered; injection E as <-; [exists []; by rewrite app_nil_r|].
    rewrite Hnot. cbn [set_mState trace]. destruct (mState _); rewrite ?Habort; cbn;
      solve [eexists; reflexivity|exists []; by rewrite app_nil_r].
  - unfold Exit. destruct (decide _); [exists []; by rewrite app_nil_r|].
    cbn [set_mState set_exiting trace]. rewrite Habort. by eexists.
  - exists []. unfold Exit_notify. cbn [set_exiting trace]. by rewrite Hnot, app_nil_r.
  - unfold Exit_join in E. destruct (thread h); try done. injection E as <-. exists [].
    by rewrite app_nil_r.
  - destruct Hr; try (exists []; by rewrite app_nil_r).
    unfold Release. destruct (decide _); [by eexists|exists []; by rewrite app_nil_r].
  - exists []. by rewrite app_nil_r.
Qed.

(** * Acquire *)

(** Time in nanoseconds. *)
Definition ns (t : timespec) : Z := tv_sec t * 1000000000 + tv_nsec t.

(** A monotonic clock reading. *)
Definition clock_ok (t : timespec) : Prop := 0 <= tv_sec t < 2 ^ 50 /\ 0 <= tv_nsec t < 1000000000.

Lemma CalcTimespecDiffMs_ok a b : clock_ok a -> clock_ok b ->
  exists d, CalcTimespecDiffMs a b = Ret d /\ Z.abs (ns b - ns a - d * 1000000) < 1000000.
Proof.
  unfold clock_ok, ns. change (2 ^ 50) with 1125899906842624. intros [Ha Ha'] [Hb Hb'].
  assert (Hi : forall x, -2000000000000000000 <= x <= 2000000000000000000 -> int64_expr x = Ret x).
  { intros x Hx. unfold int64_expr. change (2 ^ 63) with 9223372036854775808.
    by rewrite (proj2 (Z.leb_le _ _)), (proj2 (Z.ltb_lt _ _)) by lia. }
  assert (Hq : Z.abs (tv_nsec b - tv_nsec a - Z.quot (tv_nsec b - tv_nsec a) 1000000 * 1000000) < 1000000).
  { pose proof (Z.quot_rem' (tv_nsec b - tv_nsec a) 1000000).
    pose proof (Z.rem_bound_abs (tv_nsec b - tv_nsec a) 1000000). lia. }
  unfold CalcTimespecDiffMs.
  rewrite (Hi (tv_sec b - tv_sec a)), bind_ret, (Hi ((tv_sec b - tv_sec a) * 1000)), bind_ret, (Hi (tv_nsec b - tv_nsec a)), bind_ret by lia.
  rewrite Hi by lia. eexists. split; [done|]. lia.
Qed.

Lemma notify_state h : mState (notify h) = mState h.
Proof. unfold notify. by destruct (thread h). Qed.
Lemma notify_duration h : mDurationMs (notify h) = mDurationMs h.
Proof. unfold notify. by destruct (thread h). Qed.
Lemma notify_last h : mLastTimespec (notify h) = mLastTimespec h.
Proof. unfold notify. by destruct (thread h). Qed.
Lemma Acquire_cases d cur h :
  mState h <> INTERACTION_STATE_UNINITIALIZED -> INT_MIN <= d <= INT_MAX - 650 ->
  clock_ok (mLastTimespec h) -> clock_ok cur ->
  exists h', Acquire d cur h = Ret h' /\
    let f := Z.max 1400 (Z.min 5650 (d + 650)) in
    (mState h' = INTERACTION_STATE_INTERACTION /\ mDurationMs h' = f /\ mLastTimespec h' = cur) \/
    (h' = h /\ active (mState h) = true /\
     ns cur + f * 1000000 < ns (mLastTimespec h) + (mDurationMs h + 1) * 1000000).
Proof.
  intros Hs Hd Hl Hc. unfold Acquire. destruct (decide _) as [|_]; [done|].
  assert (Hf : final_duration d = Ret (Z.max 1400 (Z.min 5650 (d + 650)))).
  { unfold final_duration. rewrite int_expr_ok by mach_lia. rewrite bind_ret.
    unfold mMaxDurationMs, mMinDurationMs. f_equal.
    destruct (Z.ltb_spec 5650 (d + 650)), (Z.ltb_spec 1400 (d + 650)); lia. }
  rewrite Hf, bind_ret. set (f := Z.max _ _).
  destruct (CalcTimespecDiffMs_ok _ _ Hl Hc) as (e & He & Hdiff).
  assert (Hnew : forall h1, mState h1 = mState h -> 
    let h2 := match mState h1 with
               | INTERACTION_STATE_WAITING => AbortWaitLocked (set_duration f cur h)
               | INTERACTION_STATE_IDLE => PerfLock (set_duration f cur h)
               | _ => set_duration f cur h
               end in
    mDurationMs h2 = f /\ mLastTimespec h2 = cur).
  { intros h1 E. destruct (mState h1); cbn; auto. unfold AbortWaitLocked. by destruct (_ <=? _). }
  destruct (decide (mState h <> INTERACTION_STATE_IDLE)) as [Hi|Hi].
  - destruct (Z.leb_spec f (mDurationMs h)).
    + rewrite He, bind_ret, bind_ret. destruct (Z.leb_spec e (mDurationMs h - f)).
      * exists h. split; [done|]. right. split_and!; [done|by destruct (mState h)|lia].
      * eexists. split; [done|]. left. rewrite notify_state, notify_duration, notify_last. split; [done|]. by apply (Hnew (set_duration f cur h)).
    + rewrite bind_ret. eexists. split; [done|]. left. rewrite notify_state, notify_duration, notify_last. split; [done|]. by apply (Hnew (set_duration f cur h)).
  - rewrite bind_ret. eexists. split; [done|]. left. rewrite notify_state, notify_duration, notify_last. split; [done|]. by apply (Hnew (set_duration f cur h)).
Qed.

End Interaction.

Module InteractionProps.
Import Interaction.

(** Runs for the examples: init, then acquires, from the constructed object. *)
Definition h_init : t := (Init 3 4 (InteractionHandler (Timespec 0 0))).2.
Definition h_held : t :=
  Handler INTERACTION_STATE_INTERACTION 1400 (Timespec 5 0) 0 PWait XNone [DoHint].
Definition h_waiting : t :=
  Handler INTERACTION_STATE_WAITING 1400 (Timespec 5 0) 0 PArgs XNone [DoHint].

Lemma h_init_reachable : reachable h_init.
Proof. exists (Timespec 0 0). apply rtc_once. by apply (step_init 3 4 (InteractionHandler (Timespec 0 0))). Defined.

Lemma h_held_reachable : reachable h_held.
Proof.
  destruct h_init_reachable as [ts H]. exists ts. eapply rtc_r; [exact H|].
  by apply (step_acquire 100 (Timespec 5 0)).
Defined.

Lemma h_waiting_reachable : reachable h_waiting.
Proof.
  destruct h_held_reachable as [ts H]. exists ts. eapply rtc_r; [exact H|].
  apply step_routine. by apply (routine_wake h_held).
Defined.

(** C7: In every reachable state the hints started are the hints ended plus the
    one that is held, which is the case exactly in the states INTERACTION and
    WAITING, plus one for each call of Exit in one of these states. *)
Theorem hints_balanced h : reachable h ->
  count is_do (trace h) =
    count is_end (trace h) + Z.b2z (active (mState h)) + count is_leak (trace h).
Proof. intros H. by apply reachable_inv in H as [_ H]. Qed.

Lemma hints_balanced_witness :
  count is_do (trace h_held) =
    count is_end (trace h_held) + Z.b2z (active (mState h_held)) + count is_leak (trace h_held).
Proof. apply hints_balanced, h_held_reachable. Defined.

(** Aborts of the wait are neither lost nor stale: while the thread waits
    for idle, the eventfd is readable exactly when an Acquire or Exit has come
    since the wait began; in the idle state the thread is at the condition
    variable, asleep or about to test the condition, and the eventfd is clear. *)
Lemma aborts_match h : reachable h ->
  (busy (thread h) = true -> mState h = INTERACTION_STATE_INTERACTION -> eventfd_count h = 1) /\
  (mState h = INTERACTION_STATE_WAITING -> busy (thread h) = true /\ eventfd_count h = 0) /\
  (mState h = INTERACTION_STATE_IDLE -> (thread h = PWait \/ thread h = PSleep) /\ eventfd_count h = 0) /\
  (waiting (thread h) = true -> mState h = INTERACTION_STATE_UNINITIALIZED -> 0 < eventfd_count h).
Proof.
  intros H. apply reachable_inv in H as [H _]. destruct h as [s d ts n p j tr]. cbn in *.
  unfold fits in H. destruct s; [destruct j|..]; split_and!; intros; try done;
    destruct_and?; destruct_or?; destruct_and?; subst; try done; auto.
Qed.

Lemma aborts_match_witness :
  busy (thread h_waiting) = true /\ eventfd_count h_waiting = 0.
Proof. apply (aborts_match h_waiting h_waiting_reachable). reflexivity. Defined.

(** How far the thread is from its return once Exit was called. *)
Definition rank (p : pc) : nat :=
  match p with
  | PNone => 0 | PDone => 0 | PWait => 1 | PRelease => 2 | PPoll2 _ => 3 | PPread _ => 4
  | PPoll1 _ => 5 | PArgs => 6 | PSleep => 7
  end.

(** C38: Exit does not hang. After it has set the state its next step, notify_all, wakes the
    thread if it sleeps on the condition variable; and while Exit then waits in join the
    thread is not asleep and returns within six of its own steps whatever the
    clients do: it can always move, each of its steps lowers its distance to the return, no
    step of others raises it, and it never blocks in a poll because the eventfd is
    readable. *)
Theorem exit_joins h : reachable h ->
  (exiting h = XNotify -> step h (Exit_notify h) /\ exiting (Exit_notify h) = XJoin) /\
  (exiting h = XJoin -> thread h <> PSleep /\ (rank (thread h) <= 6)%nat /\
    (forall t, thread h = PPoll1 t \/ thread h = PPoll2 t -> 0 < eventfd_count h) /\
    (thread h = PDone \/ exists h', routine h h') /\
    (forall h', routine h h' -> exiting h' = XJoin /\ (rank (thread h') < rank (thread h))%nat) /\
    (forall h', step h h' -> exiting h' = XJoin -> (rank (thread h') <= rank (thread h))%nat)).
Proof.
  intros H. split; [by split; [apply step_notify|]|]. intros Hj. apply reachable_inv in H as [H _].
  destruct h as [s d ts n p j tr]. cbn in Hj. subst j.
  assert (s = INTERACTION_STATE_UNINITIALIZED) as -> by (cbn in H; destruct s; naive_solver).
  cbn in H. destruct H as (Hp & Hz & Hn & Hw).
  assert (Hr : forall h', routine (Handler INTERACTION_STATE_UNINITIALIZED d ts n p XJoin tr) h' ->
    exiting h' = XJoin /\ (rank (thread h') < rank p)%nat).
  { intros h' Hr. inversion Hr as [??|??|??|? E|? p' E|? E]; subst; clear Hr; cbn [thread mState] in *; subst; try done.
    - simpl. split; [done|lia].
    - simpl. split; [done|lia].
    - cbn [eventfd_count] in E. inversion E; subst; simpl; (split; [done|lia]).
    - unfold Release. cbn. split; [done|lia]. }
  split_and!; cbn [thread exiting]; [done|..].
  - destruct p; simpl; try lia. done.
  - intros t' [->| ->]; by apply Hw.
  - destruct p; try (by left); try done; right.
    + eexists. by apply routine_exit.
    + eexists. by apply routine_args.
    + eexists. apply routine_wait. apply wait_error.
    + eexists. apply routine_wait. apply wait_eof.
    + eexists. apply routine_wait. apply wait2_error.
    + eexists. by apply routine_release.
  - exact Hr.
  - intros h' Hs Hj'. inversion Hs as [a b ? Hj|? ? ? ? E|?|? Hj|? ? Hj E|? ? E|? ? [? E]]; subst; clear Hs; try done.
    + unfold Acquire in E. cbn in E. injection E as <-. done.
    + unfold Exit_join in E. cbn in E. destruct p; try done. by injection E as <-.
    + apply Hr in E as [_ E]. lia.
Qed.

(** The thread sleeps when Exit is called. *)
Definition h_asleep : t := set_thread PSleep h_init.
Definition h_exit : t := Exit_notify (Exit h_asleep).
Lemma h_exit_reachable : reachable h_exit.
Proof.
  destruct h_init_reachable as [ts H]. exists ts. eapply rtc_r; [eapply rtc_r; [eapply rtc_r; [exact H|]|]|].
  - apply step_routine. by apply (routine_sleep h_init).
  - apply (step_exit h_asleep).
  - by apply (step_notify (Exit h_asleep)).
Defined.
Lemma exit_joins_witness : thread (Exit h_asleep) = PSleep /\ thread h_exit <> PSleep /\ (rank (thread h_exit) <= 6)%nat /\
  (thread h_exit = PDone \/ exists h', routine h_exit h').
Proof.
  split; [reflexivity|]. destruct (proj2 (exit_joins h_exit h_exit_reachable) eq_refl) as (H1 & H2 & _ & H3 & _).
  split; [exact H1|]. split; [exact H2|exact H3].
Defined.

(** Acquire on an initialised handler, for a duration that does not overflow
    an int, clamps the duration asked for plus 650 ms to the range from 1400 to
    5650 ms.  Either it starts or extends the hint (the state becomes
    INTERACTION with this duration from now on), or it changes nothing, and then
    the hint that runs lasts, to a millisecond, at least as long. *)
Lemma acquire_extends d cur h :
  mState h <> INTERACTION_STATE_UNINITIALIZED -> INT_MIN <= d <= INT_MAX - 650 ->
  clock_ok (mLastTimespec h) -> clock_ok cur ->
  exists h', Acquire d cur h = Ret h' /\
    let f := Z.max 1400 (Z.min 5650 (d + 650)) in
    (mState h' = INTERACTION_STATE_INTERACTION /\ mDurationMs h' = f /\ mLastTimespec h' = cur) \/
    (h' = h /\ active (mState h) = true /\
     ns cur + f * 1000000 < ns (mLastTimespec h) + (mDurationMs h + 1) * 1000000).
Proof. apply Acquire_cases. Qed.

Lemma acquire_extends_witness :
  exists h', Acquire 900 (Timespec 6 0) h_held = Ret h' /\
    ((mState h' = INTERACTION_STATE_INTERACTION /\ mDurationMs h' = 1550 /\ mLastTimespec h' = Timespec 6 0) \/
     (h' = h_held /\ active (mState h_held) = true /\
      ns (Timespec 6 0) + 1550 * 1000000 < ns (Timespec 5 0) + (1400 + 1) * 1000000)).
Proof.
  apply (acquire_extends 900 (Timespec 6 0) h_held);
    [discriminate|vm_compute; split; discriminate|vm_compute; repeat split; discriminate
    |vm_compute; repeat split; discriminate].
Defined.

(** Exit while the hint is held leaks it: it is never ended, whatever is
    called afterwards. *)
Lemma exit_leaks_hint h h' : reachable h -> active (mState h) = true ->
  rtc step (Exit h) h' -> count is_end (trace h') < count is_do (trace h').
Proof.
  intros H Ha Hr. assert (Hinv : reachable h').
  { destruct H as [ts H]. exists ts. etrans; [exact H|].
    eapply rtc_l; [apply step_exit|exact Hr]. }
  apply reachable_inv in Hinv as [_ Hb]. unfold balanced in Hb.
  enough (0 < count is_leak (trace h')) by (destruct (active (mState h')); simpl in Hb; lia).
  assert (H0 : 0 < count is_leak (trace (Exit h))).
  { unfold Exit. destruct (decide _) as [E|_]; [by rewrite E in Ha|].
    assert (trace (AbortWaitLocked (emit (EExit (mState h)) h)) = trace h ++ [EExit (mState h)]) as E.
    { unfold AbortWaitLocked. by destruct (_ <=? _). }
    cbn [set_exiting set_mState trace]. rewrite E, count_app. unfold count. cbn. rewrite Ha. simpl. lia. }
  clear -Hr H0. induction Hr as [|h1 h2 h3 Hs _ IH]; [done|]. apply IH.
  destruct (step_trace _ _ Hs) as [evs ->]. rewrite count_app. unfold count in *. lia.
Qed.

Lemma exit_leaks_hint_witness :
  count is_end (trace (Exit h_held)) < count is_do (trace (Exit h_held)).
Proof.
  apply (exit_leaks_hint h_held); [apply h_held_reachable|reflexivity|apply rtc_refl].
Defined.

(** The thread reads mDurationMs outside the lock: there is a reachable
    state in which its next step reads the member and a call of Acquire writes
    it. *)
Lemma duration_race : exists h h1 h2 d ts, reachable h /\ thread h = PArgs /\
  routine h h1 /\ thread h1 = PPoll1 (mDurationMs h) /\
  Acquire d ts h = Ret h2 /\ mDurationMs h2 <> mDurationMs h.
Proof.
  exists h_waiting, (set_thread (PPoll1 1400) h_waiting),
    (Handler INTERACTION_STATE_INTERACTION 5650 (Timespec 5 1) 1 PArgs XNone [DoHint]), 6000, (Timespec 5 1).
  split_and!; [apply h_waiting_reachable|done|by apply (routine_args h_waiting)|done|done|done].
Qed.

End InteractionProps.
