(* ===== verification/Power.v ===== *)
(** The power HAL: src/hardware/power-libperfmgr/Power.cpp, and the reader of
    its statistics, power-helper.c.

    libperfmgr's hint manager is outside the repository: the calls made of it are
    a trace.  The service runs one binder thread, so the methods run one after
    the other.  The interaction handler is reached through the interface
    [InteractionIface], which the component in Interaction.v implements. *)
From S2P Require Import Prelude Interaction.

(** What the power HAL uses of the interaction handler, and what it may rely on:
    a call of Acquire returns for a duration in range, also between steps of the
    handler's own thread. *)
Class InteractionIface (H : Type) := {
  ih_new : H;
  ih_init : Z -> Z -> H -> H;
  ih_acquire : Z -> Interaction.timespec -> H -> outcome H;
  ih_thread : H -> H -> Prop;
  ih_ok : H -> Prop;
  ih_new_ok a b : ih_ok (ih_init a b ih_new);
  ih_thread_ok h h' : ih_thread h h' -> ih_ok h -> ih_ok h';
  ih_acquire_ok d ts h : ih_ok h -> INT_MIN <= d <= INT_MAX - 650 ->
    Interaction.clock_ok ts ->
    exists h', ih_acquire d ts h = Ret h' /\ ih_ok h'
}.

Module Power.

(** The hints of the three HIDL versions that the code distinguishes; every
    other value is [Hint_other].  The enums extend each other, so the casts
    between them keep the value. *)
Inductive hint :=
| INTERACTION | VIDEO_ENCODE | SUSTAINED_PERFORMANCE | VR_MODE | LAUNCH
| AUDIO_LOW_LATENCY | AUDIO_STREAMING | CAMERA_LAUNCH | CAMERA_STREAMING | CAMERA_SHOT
| EXPENSIVE_RENDERING
| Hint_other (n : Z).

(** Calls of the hint manager, with the timeout where one is given, and of
    SetProperty. *)
Inductive event :=
| DoHint (name : string) (timeout_ms : option Z)
| EndHint (name : string)
| SetProperty (name value : string).

#[export] Instance hint_eq_dec : EqDecision hint.
Proof. solve_decision. Defined.
#[export] Instance event_eq_dec : EqDecision event.
Proof. solve_decision. Defined.

Definition kPowerHalStateProp : string := "vendor.powerhal.state".

Section Power.
Context {H : Type} `{InteractionIface H}.

Record t := mkPower {
  trace : list event;
  handler : H;
  mVRModeOn : bool;
  mSustainedPerfModeOn : bool;
  mEncoderModeOn : bool;
  mReady : bool
}.

Definition emit (e : event) (p : t) : t :=
  mkPower (trace p ++ [e]) (handler p) (mVRModeOn p) (mSustainedPerfModeOn p) (mEncoderModeOn p) (mReady p).
Definition set_handler (h : H) (p : t) : t :=
  mkPower (trace p) h (mVRModeOn p) (mSustainedPerfModeOn p) (mEncoderModeOn p) (mReady p).
Definition set_vr (b : bool) (p : t) : t :=
  mkPower (trace p) (handler p) b (mSustainedPerfModeOn p) (mEncoderModeOn p) (mReady p).
Definition set_sustained (b : bool) (p : t) : t :=
  mkPower (trace p) (handler p) (mVRModeOn p) b (mEncoderModeOn p) (mReady p).
Definition set_encoder (b : bool) (p : t) : t :=
  mkPower (trace p) (handler p) (mVRModeOn p) (mSustainedPerfModeOn p) b (mReady p).
Definition set_ready (b : bool) (p : t) : t :=
  mkPower (trace p) (handler p) (mVRModeOn p) (mSustainedPerfModeOn p) (mEncoderModeOn p) b.

Definition do_hint (name : string) : t -> t := emit (DoHint name None).
Definition end_hint (name : string) : t -> t := emit (EndHint name).

(** The members before the init thread has run. *)
Definition Power : t := mkPower [] ih_new false false false false.

(** The init thread, with the values of the three properties and of the
    descriptors the interaction handler opens; [None] is the abort when the
    configuration cannot be loaded. *)
Definition init_thread (config_ok : bool) (idle_fd event_fd : Z) (state audio rendering : string)
    (p : t) : option t :=
  if negb config_ok then None
  else
    let p := set_handler (ih_init idle_fd event_fd ih_new) p in
    let p :=
      if decide (state = "VIDEO_ENCODE"%string) then set_encoder true (do_hint "VIDEO_ENCODE" p)
      else if decide (state = "SUSTAINED_PERFORMANCE"%string)
        then set_sustained true (do_hint "SUSTAINED_PERFORMANCE" p)
      else if decide (state = "VR_MODE"%string) then set_vr true (do_hint "VR_MODE" p)
      else if decide (state = "VR_SUSTAINED_PERFORMANCE"%string)
        then set_vr true (set_sustained true (do_hint "VR_SUSTAINED_PERFORMANCE" p))
      else p in
    let p := if decide (audio = "AUDIO_LOW_LATENCY"%string) then do_hint "AUDIO_LOW_LATENCY" p else p in
    let p := if decide (rendering = "EXPENSIVE_RENDERING"%string)
             then do_hint "EXPENSIVE_RENDERING" p else p in
    Some (set_ready true p).

(** A hint that lasts until it is cancelled. *)
Definition on_off (name : string) (on : bool) (p : t) : t :=
  if on then do_hint name p else end_hint name p.

Definition powerHint (h : hint) (data : Z) (now : Interaction.timespec) (p : t) : outcome t :=
  if negb (mReady p) then Ret p
  else
    let busy := mVRModeOn p || mSustainedPerfModeOn p in
    match h with
    | INTERACTION =>
        if busy then Ret p
        else ih ← ih_acquire data now (handler p); Ret (set_handler ih p)
    | VIDEO_ENCODE =>
        if busy then Ret p
        else if negb (data =? 0) then
          Ret (set_encoder true (emit (SetProperty kPowerHalStateProp "VIDEO_ENCODE")
                 (do_hint "VIDEO_ENCODE" p)))
        else
          Ret (set_encoder false (emit (SetProperty kPowerHalStateProp "")
                 (end_hint "VIDEO_ENCODE" p)))
    | SUSTAINED_PERFORMANCE =>
        if negb (data =? 0) && negb (mSustainedPerfModeOn p) then
          let p := if negb (mVRModeOn p) then do_hint "SUSTAINED_PERFORMANCE" p
                   else do_hint "VR_SUSTAINED_PERFORMANCE" (end_hint "VR_MODE" p) in
          Ret (set_sustained true p)
        else if (data =? 0) && mSustainedPerfModeOn p then
          let p := end_hint "SUSTAINED_PERFORMANCE" (end_hint "VR_SUSTAINED_PERFORMANCE" p) in
          let p := if mVRModeOn p then do_hint "VR_MODE" p else p in
          Ret (set_sustained false p)
        else Ret p
    | VR_MODE =>
        if negb (data =? 0) && negb (mVRModeOn p) then
          let p := if negb (mSustainedPerfModeOn p) then do_hint "VR_MODE" p
                   else do_hint "VR_SUSTAINED_PERFORMANCE" (end_hint "SUSTAINED_PERFORMANCE" p) in
          Ret (set_vr true p)
        else if (data =? 0) && mVRModeOn p then
          let p := end_hint "VR_MODE" (end_hint "VR_SUSTAINED_PERFORMANCE" p) in
          let p := if mSustainedPerfModeOn p then do_hint "SUSTAINED_PERFORMANCE" p else p in
          Ret (set_vr false p)
        else Ret p
    | LAUNCH =>
        if busy then Ret p else Ret (on_off "LAUNCH" (negb (data =? 0)) p)
    | _ => Ret p
    end.

Definition powerHintAsync (h : hint) (data : Z) (now : Interaction.timespec) (p : t) : outcome t :=
  powerHint h data now p.

(** The camera hints: on for a positive value, with the timeout where the code
    passes one, off for 0, an error for a negative one. *)
Definition camera (name : string) (timeout : option Z) (data : Z) (p : t) : t :=
  if 0 <? data then emit (DoHint name timeout) p
  else if data =? 0 then end_hint name p
  else p.

Definition powerHintAsync_1_2 (h : hint) (data : Z) (now : Interaction.timespec) (p : t) : outcome t :=
  if negb (mReady p) then Ret p
  else
    match h with
    | AUDIO_LOW_LATENCY => Ret (on_off "AUDIO_LOW_LATENCY" (negb (data =? 0)) p)
    | AUDIO_STREAMING => Ret (on_off "AUDIO_STREAMING" (negb (data =? 0)) p)
    | CAMERA_LAUNCH => Ret (camera "CAMERA_LAUNCH" None data p)
    | CAMERA_STREAMING => Ret (camera "CAMERA_STREAMING" (Some data) data p)
    | CAMERA_SHOT => Ret (camera "CAMERA_SHOT" (Some data) data p)
    | _ => powerHint h data now p
    end.

Definition powerHintAsync_1_3 (h : hint) (data : Z) (now : Interaction.timespec) (p : t) : outcome t :=
  if negb (mReady p) then Ret p
  else
    if decide (h = EXPENSIVE_RENDERING) then
      if mVRModeOn p || mSustainedPerfModeOn p then Ret p
      else Ret (on_off "EXPENSIVE_RENDERING" (0 <? data) p)
    else powerHintAsync_1_2 h data now p.

Definition setInteractive (interactive : bool) (p : t) : t := p.
Definition setFeature (feature : Z) (activate : bool) (p : t) : t := p.

Definition boolToString (b : bool) : string := if b then "true" else "false".

(** A newline. *)
Abbreviation NL := (String (Ascii.Ascii false true false true false false false false) EmptyString).

(** The text [debug] writes to the descriptor, when there is one and the service
    is ready; [running] is HintManager::IsRunning. *)
Definition debug (fds : option (list Z)) (running : bool) (p : t) : option string :=
  match fds with
  | Some (_ :: _) =>
      if mReady p then
        Some ("HintManager Running: " +:+ boolToString running +:+ NL +:+
              "VRMode: " +:+ boolToString (mVRModeOn p) +:+ NL +:+
              "SustainedPerformanceMode: " +:+ boolToString (mSustainedPerfModeOn p) +:+ NL +:+
              "VideoEncodeMode: " +:+ boolToString (mEncoderModeOn p) +:+ NL)%string
      else None
  | _ => None
  end.

(** Arguments for which no int overflows in the interaction handler. *)
Definition args_ok (data : Z) (now : Interaction.timespec) : Prop :=
  INT_MIN <= data <= INT_MAX - 650 /\ Interaction.clock_ok now.

(** The running service: a call of one of the hint methods, or a step of the
    thread of the interaction handler. *)
Inductive step : t -> t -> Prop :=
| step_hint h data now p p' : args_ok data now -> powerHint h data now p = Ret p' -> step p p'
| step_hint_1_2 h data now p p' : args_ok data now -> powerHintAsync_1_2 h data now p = Ret p' -> step p p'
| step_hint_1_3 h data now p p' : args_ok data now -> powerHintAsync_1_3 h data now p = Ret p' -> step p p'
| step_thread p h' : ih_thread (handler p) h' -> step p (set_handler h' p).

(** A service whose init thread has run. *)
Definition started (p : t) : Prop :=
  exists ok a b s1 s2 s3, init_thread ok a b s1 s2 s3 Power = Some p.

Definition reachable (p : t) : Prop := exists p0, started p0 /\ rtc step p0 p.
End Power.
Arguments t : clear implicits.

End Power.

(** The interaction handler implements the interface; [ts] is the value of its
    uninitialised time member. *)
#[export] Program Instance interaction_iface (ts : Interaction.timespec) : InteractionIface Interaction.t := {|
  ih_new := Interaction.InteractionHandler ts;
  ih_init a b h := (Interaction.Init a b h).2;
  ih_acquire := Interaction.Acquire;
  ih_thread h h' := Interaction.routine h h' \/ Interaction.spurious h h';
  ih_ok h := Interaction.active (Interaction.mState h) = true ->
             Interaction.clock_ok (Interaction.mLastTimespec h)
|}.
Next Obligation.
  intros ts a b. unfold Interaction.Init. simpl. by destruct (a <? 0), (b <? 0).
Qed.
Next Obligation.
  intros ts h h' [Hr|Hr]; [destruct Hr as [h Hp Hs|h Hp Hs|h Hp Hs Hu|h Hp|h p Hw|h Hp]|destruct Hr as [h Hp]]; simpl; intros Hok Ha.
  - by apply Hok.
  - by apply Hok.
  - apply Hok. by destruct (Interaction.mState h).
  - by apply Hok.
  - by apply Hok.
  - unfold Interaction.Release in *. destruct (decide _) as [E|E]; simpl in *; [done|auto].
  - by apply Hok.
Qed.
Next Obligation.
  intros ts d ts' h Hok Hd Hc. simpl in *.
  destruct (decide (Interaction.mState h = Interaction.INTERACTION_STATE_UNINITIALIZED)) as [E|E].
  { exists h. unfold Interaction.Acquire. by rewrite decide_True. }
  destruct (decide (Interaction.mState h = Interaction.INTERACTION_STATE_IDLE)) as [Ei|Ei].
  - unfold Interaction.Acquire. rewrite decide_False by done.
    unfold Interaction.final_duration. rewrite int_expr_ok by (unfold INT_MIN, INT_MAX in *; lia).
    rewrite !bind_ret, decide_False by auto. rewrite bind_ret.
    eexists. split; [done|]. intros _. rewrite Interaction.notify_last. simpl. by rewrite Ei.
  - destruct (Interaction.Acquire_cases d ts' h E) as (h' & Ha & Hcase); auto.
    { apply Hok. by destruct (Interaction.mState h). }
    exists h'. split; [done|]. intros Hact. destruct Hcase as [(_ & _ & ->)|(-> & _)]; auto.
Qed.

(** * The statistics: power-helper.c *)

Module PowerHelper.

(** The bytes of a string literal. *)
Definition str (s : string) : list Z :=
  (fun a => Z.of_N (Ascii.N_of_ascii a)) <$> String.list_ascii_of_string s.

(** [strspn(line, SPACE TAB)] characters are dropped. *)
Fixpoint skip_blank (l : list Z) : list Z :=
  match l with
  | b :: l' => if (b =? 32) || (b =? 9) then skip_blank l' else l
  | [] => []
  end.

(** The parts before and after the first [c]; [None] when there is none. *)
Fixpoint cut (c : Z) (l : list Z) : option (list Z * list Z) :=
  match l with
  | [] => None
  | b :: l => if b =? c then Some ([], l) else prod_map (cons b) id <$> cut c l
  end.

Definition isspace (c : Z) : bool := (c =? 32) || ((9 <=? c) && (c <=? 13)).

Fixpoint skip_space (l : list Z) : list Z :=
  match l with
  | b :: l' => if isspace b then skip_space l' else l
  | [] => []
  end.

(** The value of a digit in the bases up to 16. *)
Definition digit (c : Z) : option Z :=
  if (48 <=? c) && (c <=? 57) then Some (c - 48)
  else if (97 <=? c) && (c <=? 102) then Some (c - 87)
  else if (65 <=? c) && (c <=? 70) then Some (c - 55)
  else None.

Fixpoint digits (base : Z) (l : list Z) (acc : Z) : Z :=
  match l with
  | c :: l =>
      match digit c with
      | Some d => if d <? base then digits base l (acc * base + d) else acc
      | None => acc
      end
  | [] => acc
  end.

(** A hexadecimal digit follows. *)
Definition hex_next (l : list Z) : bool :=
  match l with
  | c :: _ => match digit c with Some _ => true | None => false end
  | [] => false
  end.

(** The base prefix: 0x before a hexadecimal digit, 0, or none. *)
Definition unsigned_value (l : list Z) : Z :=
  match l with
  | 48 :: x :: l' =>
      if ((x =? 120) || (x =? 88)) && hex_next l' then digits 16 l' 0 else digits 8 (x :: l') 0
  | _ => digits 10 l 0
  end.

Definition ULLONG_MAX : Z := 18446744073709551615.

(** [strtoull(s, NULL, 0)]: saturating, a minus sign negates modulo 2^64. *)
Definition strtoull (s : list Z) : Z :=
  let s := skip_space s in
  let '(neg, s) := match s with
                   | 45 :: s => (true, s)
                   | 43 :: s => (false, s)
                   | _ => (false, s)
                   end in
  let v := unsigned_value s in
  if ULLONG_MAX <? v then ULLONG_MAX else if (neg : bool) then u64 (- v) else v.

Record stat_pair := StatPair { stat : nat; label : list Z; parameters : list (list Z) }.

Definition MAX_RPM_PARAMS : nat := 2.
Definition rpm_stat_params : list (list Z) := [str "count"; str "actual last sleep(msec)"].
Definition master_stat_params : list (list Z) := [str "Accumulated XO duration"; str "XO Count"].

(** enum stats_type *)
Definition RPM_MODE_XO : nat := 0.
Definition RPM_MODE_VMIN : nat := 1.
Definition XO_VOTERS_START : nat := 2.
Definition MAX_PLATFORM_STATS : nat := 6.
Definition XO_VOTERS : nat := MAX_PLATFORM_STATS - XO_VOTERS_START.

Definition rpm_stat_map : list stat_pair :=
  [StatPair RPM_MODE_XO (str "RPM Mode:vlow") rpm_stat_params;
   StatPair RPM_MODE_VMIN (str "RPM Mode:vmin") rpm_stat_params;
   StatPair 2 (str "APSS") master_stat_params;
   StatPair 3 (str "MPSS") master_stat_params;
   StatPair 4 (str "ADSP") master_stat_params;
   StatPair 5 (str "SLPI") master_stat_params].

Definition wlan_power_stat_params : list (list Z) :=
  [str "cumulative_sleep_time_ms"; str "cumulative_total_on_time_ms";
   str "deep_sleep_enter_counter"; str "last_deep_sleep_enter_tstamp_ms"].
Definition wlan_stat_map : list stat_pair :=
  [StatPair 0 (str "POWER DEBUG STATS") wlan_power_stat_params].

(** A store to [list[i]]. *)
Definition store (l : list Z) (i : nat) (v : Z) : outcome (list Z) :=
  if decide (i < length l)%nat then Ret (<[i := v]> l) else Undef.

(** The loop of [parse_stats] on the lines that are left: the array and the
    lines not read. *)
Fixpoint parse_stats (params : list (list Z)) (base : nat) (params_read : nat) (l : list Z)
    (lines : list (list Z)) : outcome (list Z * list (list Z)) :=
  if (params_read <? length params)%nat then
    match lines with
    | [] => Ret (l, [])
    | line :: lines =>
        match cut 58 (skip_blank line) with
        | None => parse_stats params base params_read l lines
        | Some (key, value) =>
            match list_find (fun p => key = p) params with
            | Some (i, _) =>
                l ← store l (base + i) (strtoull value);
                parse_stats params base (S params_read) l lines
            | None => parse_stats params base params_read l lines
            end
        end
    end
  else Ret (l, lines).

(** The line starts with the label. *)
Definition has_label (line label : list Z) : bool := bool_decide (take (length label) line = label).

(** The loop of [extract_stats]; [fuel] bounds the number of lines read by it. *)
Fixpoint extract_loop (fuel : nat) (map : list stat_pair) (stats_read : nat) (l : list Z)
    (lines : list (list Z)) : outcome (list Z) :=
  match fuel with
  | O => NoFuel
  | S fuel =>
      if (stats_read <? length map)%nat then
        match lines with
        | [] => Ret l
        | line :: lines =>
            match list_find (fun m => has_label (skip_blank line) (label m) = true) map with
            | None => extract_loop fuel map stats_read l lines
            | Some (_, m) =>
                '(l, lines) ← parse_stats (parameters m) (stat m * MAX_RPM_PARAMS) 0 l lines;
                extract_loop fuel map (S stats_read) l lines
            end
        end
      else Ret l
  end.

(** The result and the array; [file] is the lines of the file, or [inl errno]
    when it cannot be opened. *)
Definition extract_stats (l : list Z) (file : Z + list (list Z)) (map : list stat_pair)
  : outcome (Z * list Z) :=
  match file with
  | inl errno => Ret (- errno, l)
  | inr lines => l ← extract_loop (S (length lines)) map 0 l lines; Ret (0, l)
  end.

Definition extract_platform_stats (l : list Z) (file : Z + list (list Z)) : outcome (Z * list Z) :=
  extract_stats l file rpm_stat_map.
Definition extract_wlan_stats (l : list Z) (file : Z + list (list Z)) : outcome (Z * list Z) :=
  extract_stats l file wlan_stat_map.

(** ** The statistics the HAL reports (Power.cpp) *)

Record Voter := mkVoter { v_name : list Z; v_totalTime : Z; v_totalNumber : Z }.
Record PlatformState := mkPlatformState {
  ps_name : list Z; ps_residency : Z; ps_transitions : Z; ps_onlyInSuspend : bool;
  ps_voters : list Voter
}.

Definition RPM_CLK : Z := 19200.

(** A read of [stats[i]]. *)
Definition load (l : list Z) (i : nat) : outcome Z :=
  match l !! i with Some v => Ret v | None => Undef end.

Fixpoint xo_voters (n : nat) (i : nat) (stats : list Z) : outcome (list Voter) :=
  match n with
  | O => Ret []
  | S n =>
      let voter := (i + XO_VOTERS_START)%nat in
      match rpm_stat_map !! voter with
      | None => Undef
      | Some m =>
          time ← load stats (voter * MAX_RPM_PARAMS);
          num ← load stats (voter * MAX_RPM_PARAMS + 1);
          vs ← xo_voters n (S i) stats;
          Ret (mkVoter (label m) (time / RPM_CLK) num :: vs)
      end
  end.

Definition getPlatformLowPowerStats (file : Z + list (list Z)) : outcome (list PlatformState) :=
  '(ret, stats) ← extract_platform_stats (replicate (MAX_PLATFORM_STATS * MAX_RPM_PARAMS) 0) file;
  if negb (ret =? 0) then Ret []
  else
    r1 ← load stats (RPM_MODE_XO * MAX_RPM_PARAMS + 1);
    r0 ← load stats (RPM_MODE_XO * MAX_RPM_PARAMS);
    vs ← xo_voters XO_VOTERS 0 stats;
    v1 ← load stats (RPM_MODE_VMIN * MAX_RPM_PARAMS + 1);
    v0 ← load stats (RPM_MODE_VMIN * MAX_RPM_PARAMS);
    Ret [mkPlatformState (str "XO_shutdown") r1 r0 false vs; mkPlatformState (str "VMIN") v1 v0 false []].

Record SleepState := mkSleepState {
  ss_name : list Z; ss_residency : Z; ss_transitions : Z; ss_lastEntry : Z; ss_onlyInSuspend : bool
}.
Record Subsystem := mkSubsystem { sub_name : list Z; sub_states : list SleepState }.

Definition get_wlan_low_power_stats (subsystem : Subsystem) (file : Z + list (list Z))
  : outcome (Z * Subsystem) :=
  '(ret, stats) ← extract_wlan_stats (replicate 4 0) file;
  if negb (ret =? 0) then Ret (ret, subsystem)
  else
    sleep ← load stats 0;
    on ← load stats 1;
    enter ← load stats 2;
    last ← load stats 3;
    Ret (0, mkSubsystem (str "wlan")
              [mkSleepState (str "Active") on enter 0 false;
               mkSleepState (str "Deep-Sleep") sleep enter last false]).

(** The status given to the callback is SUCCESS on every path. *)
Definition getSubsystemLowPowerStats (file : Z + list (list Z)) : outcome (list Subsystem) :=
  '(_, s) ← get_wlan_low_power_stats (mkSubsystem [] []) file; Ret [s].

End PowerHelper.

Module PowerProps.
Import Power PowerHelper.

(** The hint [name] was started and not ended since. *)
Definition hint_event (name : string) (on : bool) (e : event) : bool :=
  match e with
  | DoHint n _ => if decide (n = name) then true else on
  | EndHint n => if decide (n = name) then false else on
  | SetProperty _ _ => on
  end.
Definition hint_on (name : string) (tr : list event) : bool := foldl (hint_event name) false tr.

Lemma hint_on_app name tr e : hint_on name (tr ++ [e]) = hint_event name (hint_on name tr) e.
Proof. unfold hint_on. by rewrite foldl_app. Qed.

Section Modes.
Context {H : Type} `{InteractionIface H}.

(** The hints that are on are those of the modes that are on. *)
Record modes (p : t H) : Prop := {
  m_ready : mReady p = true;
  m_sustained : hint_on "SUSTAINED_PERFORMANCE" (trace p) = mSustainedPerfModeOn p && negb (mVRModeOn p);
  m_vr : hint_on "VR_MODE" (trace p) = mVRModeOn p && negb (mSustainedPerfModeOn p);
  m_both : hint_on "VR_SUSTAINED_PERFORMANCE" (trace p) = mVRModeOn p && mSustainedPerfModeOn p;
  m_encoder : hint_on "VIDEO_ENCODE" (trace p) = mEncoderModeOn p;
  m_handler : ih_ok (handler p)
}.

(** A method on a state whose modes match: evaluates the trace it appends. *)
Ltac solve_modes :=
  unfold on_off, camera, do_hint, end_hint, emit, set_vr, set_sustained, set_encoder, set_ready, set_handler in *;
  cbn [trace handler mVRModeOn mSustainedPerfModeOn mEncoderModeOn mReady] in *;
  constructor; cbn [trace handler mVRModeOn mSustainedPerfModeOn mEncoderModeOn mReady];
  repeat (rewrite hint_on_app; cbn -[hint_on]); try congruence; auto.

Lemma modes_other p name timeout (b : bool) : modes p ->
  Forall (fun m => m <> name) ["SUSTAINED_PERFORMANCE"; "VR_MODE"; "VR_SUSTAINED_PERFORMANCE"; "VIDEO_ENCODE"]%string ->
  modes (if b then emit (DoHint name timeout) p else emit (EndHint name) p).
Proof.
  intros [] Hn. rewrite !Forall_cons in Hn. destruct Hn as (?&?&?&?&_).
  destruct b; constructor; cbn [emit trace handler mVRModeOn mSustainedPerfModeOn mEncoderModeOn mReady];
    rewrite ?hint_on_app; cbn [hint_event]; rewrite ?decide_False by auto; done.
Qed.

Lemma powerHint_modes h data now p p' : args_ok data now -> modes p ->
  powerHint h data now p = Ret p' -> modes p'.
Proof.
  intros [Hd Hn] Hm E. unfold powerHint in E. rewrite (m_ready _ Hm) in E. cbn [negb] in E.
  destruct h; try (injection E as <-; done).
  - destruct (_ || _); [by injection E as <-|].
    destruct (ih_acquire_ok data now (handler p) (m_handler _ Hm) Hd Hn) as (h' & Ha & Hok).
    rewrite Ha in E. injection E as <-. destruct Hm. by constructor.
  - destruct (mVRModeOn p || mSustainedPerfModeOn p) eqn:Eb; [by injection E as <-|].
    destruct (data =? 0); injection E as <-; destruct Hm; solve_modes.
  - destruct p as [tr hd vr sus enc rdy], Hm. cbn -[hint_on] in *.
    destruct (data =? 0), vr, sus; cbn in E; injection E as <-; solve_modes.
  - destruct p as [tr hd vr sus enc rdy], Hm. cbn -[hint_on] in *.
    destruct (data =? 0), vr, sus; cbn in E; injection E as <-; solve_modes.
  - destruct (_ || _); [by injection E as <-|]. injection E as <-.
    apply modes_other; [done|]. repeat constructor; discriminate.
Qed.

Lemma camera_modes p name timeout data : modes p ->
  Forall (fun m => m <> name) ["SUSTAINED_PERFORMANCE"; "VR_MODE"; "VR_SUSTAINED_PERFORMANCE"; "VIDEO_ENCODE"]%string ->
  modes (camera name timeout data p).
Proof.
  intros Hm Hn. unfold camera. destruct (0 <? data); [by apply (modes_other p name timeout true)|].
  destruct (data =? 0); [by apply (modes_other p name timeout false)|done].
Qed.

Lemma powerHint_1_2_modes h data now p p' : args_ok data now -> modes p ->
  powerHintAsync_1_2 h data now p = Ret p' -> modes p'.
Proof.
  intros Ha Hm E. unfold powerHintAsync_1_2 in E. rewrite (m_ready _ Hm) in E. cbn [negb] in E.
  destruct h; try (by eapply powerHint_modes); injection E as <-;
    first [apply camera_modes|apply modes_other]; first [done|repeat constructor; discriminate].
Qed.

Lemma powerHint_1_3_modes h data now p p' : args_ok data now -> modes p ->
  powerHintAsync_1_3 h data now p = Ret p' -> modes p'.
Proof.
  intros Ha Hm E. unfold powerHintAsync_1_3 in E. rewrite (m_ready _ Hm) in E. cbn [negb] in E.
  destruct (decide _); [|by eapply powerHint_1_2_modes].
  destruct (_ || _); injection E as <-; [done|].
  apply modes_other; [done|repeat constructor; discriminate].
Qed.

Lemma started_modes p : started p -> modes p.
Proof.
  intros (ok & a & b & s1 & s2 & s3 & E). unfold init_thread in E. destruct ok; [|done]. cbn [negb] in E.
  injection E as <-.
  repeat match goal with |- context [decide ?P] => destruct (decide P) end;
    (constructor; cbn; [done|done|done|done|done|apply ih_new_ok]).
Qed.

Lemma reachable_modes p : reachable p -> modes p.
Proof.
  intros (p0 & Hs & Hr). apply started_modes in Hs.
  induction Hr as [|p1 p2 p3 Hstep _ IH]; [done|]. apply IH.
  destruct Hstep as [h d now p p' Ha E|h d now p p' Ha E|h d now p p' Ha E|p h' Ht].
  - by eapply powerHint_modes.
  - by eapply powerHint_1_2_modes.
  - by eapply powerHint_1_3_modes.
  - destruct Hs. constructor; try done. by eapply ih_thread_ok.
Qed.

Lemma powerHint_total h data now p : args_ok data now -> modes p ->
  exists p', powerHint h data now p = Ret p'.
Proof.
  intros [Hd Hn] Hm. unfold powerHint. rewrite (m_ready _ Hm). cbn [negb].
  destruct h; try (by eexists).
  - destruct (_ || _); [by eexists|].
    destruct (ih_acquire_ok data now (handler p) (m_handler _ Hm) Hd Hn) as (h' & -> & _). by eexists.
  - destruct (_ || _), (data =? 0); by eexists.
  - destruct (_ && _); [by eexists|]. destruct (_ && _); by eexists.
  - destruct (_ && _); [by eexists|]. destruct (_ && _); by eexists.
  - destruct (_ || _); by eexists.
Qed.

Lemma powerHint_1_3_total h data now p : args_ok data now -> modes p ->
  exists p', powerHintAsync_1_3 h data now p = Ret p'.
Proof.
  intros Ha Hm. unfold powerHintAsync_1_3, powerHintAsync_1_2. rewrite (m_ready _ Hm). cbn [negb].
  destruct (decide _); [destruct (mVRModeOn p || mSustainedPerfModeOn p); by eexists|].
  destruct h; first [by apply powerHint_total|eexists; reflexivity].
Qed.

(** C37: For every implementation of the interaction interface, in every state
    reached by hints and steps of the handler's thread after any start: the
    hints SUSTAINED_PERFORMANCE, VR_MODE and VR_SUSTAINED_PERFORMANCE that are
    on are exactly the one of the modes that are on, VIDEO_ENCODE is on exactly
    in the encoder mode, and the next hint, whatever it is, is processed without
    undefined behaviour; provided that the data of this and of the earlier hints, a
    duration for the interaction handler, is at most INT_MAX - 650 and that clock
    readings are in range ([args_ok]). For a larger duration the sum of Acquire
    overflows ([duration_overflows]). *)
Theorem power_modes p : reachable p ->
  hint_on "SUSTAINED_PERFORMANCE" (trace p) = mSustainedPerfModeOn p && negb (mVRModeOn p) /\
  hint_on "VR_MODE" (trace p) = mVRModeOn p && negb (mSustainedPerfModeOn p) /\
  hint_on "VR_SUSTAINED_PERFORMANCE" (trace p) = mVRModeOn p && mSustainedPerfModeOn p /\
  hint_on "VIDEO_ENCODE" (trace p) = mEncoderModeOn p /\
  forall h data now, args_ok data now -> exists p', powerHintAsync_1_3 h data now p = Ret p'.
Proof.
  intros Hr. apply reachable_modes in Hr as Hm. destruct Hm as [H1 H2 H3 H4 H5 H6].
  split_and!; [done|done|done|done|]. intros. by apply powerHint_1_3_total, reachable_modes.
Qed.

(** The sum of Acquire overflows for a larger duration, which a client may pass. *)
Lemma duration_overflows d ts h : Interaction.mState h <> Interaction.INTERACTION_STATE_UNINITIALIZED ->
  INT_MAX - 650 < d <= INT_MAX -> Interaction.Acquire d ts h = Undef.
Proof.
  intros Hs Hd. unfold Interaction.Acquire. rewrite decide_False by done. unfold Interaction.final_duration, int_expr.
  replace (_ && _) with false; [done|]. symmetry. apply andb_false_iff. right. apply Z.leb_gt. lia.
Qed.

(** A hint that was switched on before VR mode and is switched off during it
    stays on: the request to end LAUNCH is dropped and not made up for when VR
    mode ends. *)
Lemma launch_stuck p n1 n2 n3 n4 : reachable p -> mVRModeOn p = false -> mSustainedPerfModeOn p = false ->
  exists p1 p2 p3 p4, powerHint LAUNCH 1 n1 p = Ret p1 /\ powerHint VR_MODE 1 n2 p1 = Ret p2 /\
    powerHint LAUNCH 0 n3 p2 = Ret p3 /\ powerHint VR_MODE 0 n4 p3 = Ret p4 /\
    mVRModeOn p4 = false /\ hint_on "LAUNCH" (trace p4) = true.
Proof.
  intros Hr Ev Es. apply reachable_modes, m_ready in Hr as Er.
  destruct p as [tr hd vr sus enc rdy]. cbn in Ev, Es, Er. subst.
  do 4 eexists. split_and!; [done|done|done|done|done|].
  cbn -[hint_on]. repeat (rewrite hint_on_app; cbn -[hint_on]). done.
Qed.
End Modes.

(** The service on the interaction handler, just started. *)
#[local] Existing Instance interaction_iface | 10.
Definition sample : t Interaction.t :=
  mkPower [DoHint "VR_MODE" None] (Interaction.Init 3 4 (Interaction.InteractionHandler (Interaction.Timespec 0 0))).2
    true false false true.

Lemma sample_reachable : reachable (H0 := interaction_iface (Interaction.Timespec 0 0)) sample.
Proof.
  exists sample. split; [|apply rtc_refl].
  exists true, 3, 4, "VR_MODE"%string, ""%string, ""%string. vm_compute. reflexivity.
Defined.

Lemma power_modes_witness :
  hint_on "VR_MODE" (trace sample) = mVRModeOn sample && negb (mSustainedPerfModeOn sample).
Proof.
  apply (power_modes (H0 := interaction_iface (Interaction.Timespec 0 0)) sample), sample_reachable.
Defined.

Definition sample_plain : t Interaction.t :=
  mkPower [] (Interaction.Init 3 4 (Interaction.InteractionHandler (Interaction.Timespec 0 0))).2
    false false false true.

Lemma launch_stuck_witness :
  exists p1 p2 p3 p4,
    powerHint (H0 := interaction_iface (Interaction.Timespec 0 0)) LAUNCH 1 (Interaction.Timespec 9 0) sample_plain = Ret p1 /\
    powerHint (H0 := interaction_iface (Interaction.Timespec 0 0)) VR_MODE 1 (Interaction.Timespec 9 1) p1 = Ret p2 /\
    powerHint (H0 := interaction_iface (Interaction.Timespec 0 0)) LAUNCH 0 (Interaction.Timespec 9 2) p2 = Ret p3 /\
    powerHint (H0 := interaction_iface (Interaction.Timespec 0 0)) VR_MODE 0 (Interaction.Timespec 9 3) p3 = Ret p4 /\
    mVRModeOn p4 = false /\ hint_on "LAUNCH" (trace p4) = true.
Proof.
  apply (launch_stuck (H0 := interaction_iface (Interaction.Timespec 0 0)) sample_plain); [|done|done].
  exists sample_plain. split; [|apply rtc_refl].
  exists true, 3, 4, ""%string, ""%string, ""%string. vm_compute. reflexivity.
Defined.

(** ** Statistics *)

Lemma parse_stats_ok params base lines : forall n l, (base + length params <= length l)%nat ->
  exists l' rest, parse_stats params base n l lines = Ret (l', rest) /\
    length l' = length l /\ (length rest <= length lines)%nat.
Proof.
  induction lines as [|line lines IH]; intros n l Hl; cbn [parse_stats].
  { destruct (_ <? _)%nat; by eexists _, _. }
  destruct (_ <? _)%nat; [|by eexists _, _].
  assert (Hgo : forall n' l0, length l0 = length l ->
    exists l' rest, parse_stats params base n' l0 lines = Ret (l', rest) /\
    length l' = length l /\ (length rest <= length (line :: lines))%nat).
  { intros n' l0 E. destruct (IH n' l0) as (l' & rest & ? & ? & ?); [lia|].
    exists l', rest. split_and!; [done|lia|simpl; lia]. }
  destruct (cut 58 (skip_blank line)) as [[key value]|]; [|by apply Hgo].
  destruct (list_find _ params) as [[i p]|] eqn:Ef; [|by apply Hgo].
  apply list_find_Some in Ef as (Hi & _). apply lookup_lt_Some in Hi.
  unfold store. rewrite decide_True by lia. rewrite bind_ret. apply Hgo. apply length_insert.
Qed.

(** Every entry of the map fits into an array of [n] values. *)
Definition map_fits (n : nat) (map : list stat_pair) : Prop :=
  Forall (fun m => (stat m * MAX_RPM_PARAMS + length (parameters m) <= n)%nat) map.

Lemma extract_loop_ok map fuel : forall n l lines, map_fits (length l) map -> (length lines < fuel)%nat ->
  exists l', extract_loop fuel map n l lines = Ret l' /\ length l' = length l.
Proof.
  induction fuel as [|fuel IH]; intros n l lines Hm Hf; [lia|]. cbn [extract_loop].
  destruct (_ <? _)%nat; [|by eexists]. destruct lines as [|line lines]; [by eexists|]. simpl in Hf.
  destruct (list_find _ map) as [[i m]|] eqn:Ef; [|apply IH; [done|lia]].
  apply list_find_Some in Ef as (Hi & _).
  pose proof (Forall_lookup_1 _ _ _ _ Hm Hi) as Hb. cbn beta in Hb.
  destruct (parse_stats_ok (parameters m) (stat m * MAX_RPM_PARAMS) lines 0 l Hb) as (l' & rest & -> & El & Er).
  rewrite bind_ret. destruct (IH (S n) l' rest) as (l'' & -> & E); [by rewrite El|lia|].
  exists l''. split; [done|lia].
Qed.

Lemma extract_stats_ok l file map : map_fits (length l) map ->
  exists l', extract_stats l file map = Ret (match file with inl e => - e | inr _ => 0 end, l') /\
    length l' = length l.
Proof.
  intros Hm. destruct file as [e|lines]; [by eexists|]. cbn [extract_stats].
  destruct (extract_loop_ok map (S (length lines)) 0 l lines Hm) as (l' & -> & E); [lia|]. by exists l'.
Qed.

Lemma load_ok l i : (i < length l)%nat -> exists v, load l i = Ret v.
Proof. intros Hi. unfold load. destruct (lookup_lt_is_Some_2 l i Hi) as [v ->]. by exists v. Qed.

(** Whatever the statistics files contain, reading them stays within the
    arrays of the caller and ends: the platform statistics are empty when the
    file cannot be opened and otherwise the two sleep states, the first with the
    four voters in the order of the map; the subsystem statistics always report
    one subsystem, with two states unless the file cannot be opened. *)
Lemma stats_safe file :
  (forall errno, file = inl errno -> 0 < errno) ->
  (exists states, getPlatformLowPowerStats file = Ret states /\
    match file with
    | inl _ => states = []
    | inr _ => ps_name <$> states = [str "XO_shutdown"; str "VMIN"] /\
        (fun s => v_name <$> ps_voters s) <$> states =
          [[str "APSS"; str "MPSS"; str "ADSP"; str "SLPI"]; []]
    end) /\
  (exists s, getSubsystemLowPowerStats file = Ret [s] /\
    length (sub_states s) = match file with inl _ => 0%nat | inr _ => 2%nat end).
Proof.
  intros He. split.
  - destruct (extract_stats_ok (replicate 12 0) file rpm_stat_map) as (l & E & Hl).
    { repeat constructor. }
    unfold getPlatformLowPowerStats, extract_platform_stats. simpl mult. rewrite E, bind_ret.
    destruct file as [e|lines].
    { specialize (He e eq_refl). rewrite (proj2 (Z.eqb_neq _ _)) by lia. by eexists. }
    cbn [Z.eqb negb xo_voters XO_VOTERS MAX_PLATFORM_STATS XO_VOTERS_START Nat.sub Nat.add
         RPM_MODE_XO RPM_MODE_VMIN MAX_RPM_PARAMS Nat.mul].
    rewrite length_replicate in Hl.
    assert (H : forall i, (i < 12)%nat -> exists v, load l i = Ret v) by (intros; apply load_ok; lia).
    repeat match goal with
    | |- context [load l ?i] => let v := fresh "v" in destruct (H i ltac:(lia)) as [v ->]; rewrite ?bind_ret
    end.
    eexists. split; [reflexivity|]. split; reflexivity.
  - destruct (extract_stats_ok (replicate 4 0) file wlan_stat_map) as (l & E & Hl).
    { repeat constructor. }
    unfold getSubsystemLowPowerStats, get_wlan_low_power_stats, extract_wlan_stats. rewrite E, bind_ret.
    destruct file as [e|lines].
    { specialize (He e eq_refl). rewrite (proj2 (Z.eqb_neq _ _)) by lia. by eexists. }
    rewrite length_replicate in Hl. cbn [Z.eqb negb].
    destruct (load_ok l 0) as [v0 ->]; [lia|]. destruct (load_ok l 1) as [v1 ->]; [lia|].
    destruct (load_ok l 2) as [v2 ->]; [lia|]. destruct (load_ok l 3) as [v3 ->]; [lia|].
    by eexists.
Qed.

Lemma stats_safe_witness :
  exists s, getSubsystemLowPowerStats (inr [str "POWER DEBUG STATS"; str " deep_sleep_enter_counter: 0x1f"]) = Ret [s] /\
    length (sub_states s) = 2%nat.
Proof.
  destruct (stats_safe (inr [str "POWER DEBUG STATS"; str " deep_sleep_enter_counter: 0x1f"])) as [_ H].
  - discriminate.
  - exact H.
Defined.

End PowerProps.
