(* ===== verification/Rect.v ===== *)
(** Rectangles and formats of the display library:
    src/hardware/qcom-caf/display/sdm/libs/utils/rect.cpp and formats.cpp, with
    the macros of include/utils/constants.h.

    A float is an IEEE 754 single (24 bits of precision, exponents below 128):
    the arithmetic is the one of the Standard Library's SpecFloat. *)
From S2P Require Import Prelude.
From Stdlib Require Import SpecFloat Btauto.
#[local] Open Scope Z_scope.

Module Float32.

Definition float : Type := spec_float.
Definition fadd : float -> float -> float := SFadd 24 128.
Definition fsub : float -> float -> float := SFsub 24 128.
Definition fmul : float -> float -> float := SFmul 24 128.
Definition fdiv : float -> float -> float := SFdiv 24 128.
Definition flt : float -> float -> bool := SFltb.
Definition fle : float -> float -> bool := SFleb.
Definition feq : float -> float -> bool := SFeqb.

(** FLOAT of an integer. *)
Definition FLOAT (z : Z) : float := binary_normalize 24 128 z 0 false.
Definition f_zero : float := S754_zero false.
Definition f_half : float := S754_finite false 8388608 (-24).
Definition f_one : float := FLOAT 1.

(** The integer part, towards zero; [None] for infinities and NaN. *)
Definition trunc (f : float) : option Z :=
  match f with
  | S754_zero _ => Some 0
  | S754_finite s m e =>
      let n := if 0 <=? e then Z.shiftl (Zpos m) e else Z.shiftr (Zpos m) (- e) in
      Some (if s then - n else n)
  | _ => None
  end.

(** Casts to unsigned and signed integers of a width: undefined when the
    integer part is not representable. *)
Definition cast_u (w : Z) (f : float) : outcome Z :=
  match trunc f with
  | Some n => if (0 <=? n) && (n <? 2 ^ w) then Ret n else Undef
  | None => Undef
  end.
Definition UINT32 : float -> outcome Z := cast_u 32.
Definition UINT8 : float -> outcome Z := cast_u 8.
Definition INT (f : float) : outcome Z :=
  match trunc f with
  | Some n => int_expr n
  | None => Undef
  end.

(** roundf: to the nearest integer, halves away from zero. *)
Definition roundf (f : float) : float :=
  match f with
  | S754_finite s m e =>
      if 0 <=? e then f
      else
        let n := Z.shiftr (2 * Zpos m + 2 ^ (- e)) (1 - e) in
        if n =? 0 then S754_zero s else binary_normalize 24 128 (if s then - n else n) 0 false
  | _ => f
  end.

(** ceilf *)
Definition ceilf (f : float) : float :=
  match f with
  | S754_finite s m e =>
      if 0 <=? e then f
      else
        let x := if s then - Zpos m else Zpos m in
        let n := - Z.shiftr (- x) (- e) in
        if n =? 0 then S754_zero s else binary_normalize 24 128 n 0 false
  | _ => f
  end.

(** std::max and std::min *)
Definition fmax (a b : float) : float := if flt a b then b else a.
Definition fmin (a b : float) : float := if flt b a then b else a.

(** constants.h *)
Definition FloorToMultipleOf (value factor : Z) : Z := Z.land value (u32 (Z.lnot (u32 (factor - 1)))).
Definition CeilToMultipleOf (value factor : Z) : Z :=
  Z.land (u32 (value + u32 (factor - 1))) (u32 (Z.lnot (u32 (factor - 1)))).
Definition ROUND_UP_ALIGN_DOWN (value : float) (a : Z) : outcome float :=
  v ← UINT32 (fadd value f_half); Ret (FLOAT (FloorToMultipleOf v a)).
Definition ROUND_UP_ALIGN_UP (value : float) (a : Z) : outcome float :=
  v ← UINT32 (fadd value f_half); Ret (FLOAT (CeilToMultipleOf v a)).

(** ** The order of floats *)

(** A key in the lexicographic order of three integers. *)
Definition key (f : float) : Z * Z * Z :=
  match f with
  | S754_zero _ => (0, 0, 0)
  | S754_infinity s => (if s then -2 else 2, 0, 0)
  | S754_finite false m e => (1, e, Zpos m)
  | S754_finite true m e => (-1, - e, - Zpos m)
  | S754_nan => (0, 0, 0)
  end.

Definition is_nan (f : float) : bool := match f with S754_nan => true | _ => false end.

Definition klt (a b : Z * Z * Z) : Prop :=
  let '(a1, a2, a3) := a in let '(b1, b2, b3) := b in
  a1 < b1 \/ (a1 = b1 /\ (a2 < b2 \/ (a2 = b2 /\ a3 < b3))).

Lemma compare_key a b : is_nan a = false -> is_nan b = false ->
  (SFcompare a b = Some Lt <-> klt (key a) (key b)) /\
  (SFcompare a b = Some Gt <-> klt (key b) (key a)) /\
  (SFcompare a b = Some Eq <-> key a = key b) /\ SFcompare a b <> None.
Proof.
  destruct a as [sa|sa| |sa ma ea], b as [sb|sb| |sb mb eb]; try done; intros _ _;
    try (destruct sa); try (destruct sb); cbn -[Z.compare];
    try change (Pos.compare_cont Eq ma mb) with (ma ?= mb)%positive;
    try (destruct (Z.compare_spec ea eb); [destruct (Pos.compare_spec ma mb)|..]; cbn);
    split_and!; try done; split; intros ?; simplify_eq; try done; try lia; try (f_equal; [f_equal|]; lia).
Qed.

Lemma flt_key a b : flt a b = true <-> is_nan a = false /\ is_nan b = false /\ klt (key a) (key b).
Proof.
  unfold flt, SFltb. split.
  - destruct (is_nan a) eqn:Ea; [by destruct a|]. destruct (is_nan b) eqn:Eb; [by destruct a, b|].
    destruct (compare_key a b Ea Eb) as (H & _). destruct (SFcompare a b) as [[]|]; naive_solver.
  - intros (Ea & Eb & H). destruct (compare_key a b Ea Eb) as (H' & _). apply H' in H. by rewrite H.
Qed.

Lemma fle_key a b : fle a b = true <->
  is_nan a = false /\ is_nan b = false /\ ~ klt (key b) (key a).
Proof.
  unfold fle, SFleb. split.
  - destruct (is_nan a) eqn:Ea; [by destruct a|]. destruct (is_nan b) eqn:Eb; [by destruct a, b|].
    destruct (compare_key a b Ea Eb) as (_ & H & _). destruct (SFcompare a b) as [[]|]; naive_solver.
  - intros (Ea & Eb & H). destruct (compare_key a b Ea Eb) as (_ & H' & _ & Hn).
    destruct (SFcompare a b) as [[]|]; naive_solver.
Qed.

Lemma feq_key a b : feq a b = true <-> is_nan a = false /\ is_nan b = false /\ key a = key b.
Proof.
  unfold feq, SFeqb. split.
  - destruct (is_nan a) eqn:Ea; [by destruct a|]. destruct (is_nan b) eqn:Eb; [by destruct a, b|].
    destruct (compare_key a b Ea Eb) as (_ & _ & H & _). destruct (SFcompare a b) as [[]|]; naive_solver.
  - intros (Ea & Eb & H). destruct (compare_key a b Ea Eb) as (_ & _ & H' & _). apply H' in H. by rewrite H.
Qed.

Lemma klt_trans a b c : klt a b -> klt b c -> klt a c.
Proof. destruct a as [[??]?], b as [[??]?], c as [[??]?]. simpl. lia. Qed.

Lemma klt_irrefl a : ~ klt a a.
Proof. destruct a as [[??]?]. simpl. lia. Qed.

Lemma klt_total a b : klt a b \/ a = b \/ klt b a.
Proof.
  destruct a as [[a1 a2] a3], b as [[b1 b2] b3]. simpl.
  destruct (Z.lt_trichotomy a1 b1) as [|[->|]]; [lia| |lia].
  destruct (Z.lt_trichotomy a2 b2) as [|[->|]]; [lia| |lia].
  destruct (Z.lt_trichotomy a3 b3) as [|[->|]]; [lia|auto|lia].
Qed.

Lemma fle_split a b : fle a b = true <->
  is_nan a = false /\ is_nan b = false /\ (klt (key a) (key b) \/ key a = key b).
Proof.
  rewrite fle_key. split; intros (? & ? & H); split_and!; try done.
  - destruct (klt_total (key a) (key b)) as [?|[?|?]]; tauto.
  - intros H'. destruct H as [H|H]; [|rewrite H in H'; by eapply klt_irrefl].
    eapply klt_irrefl, klt_trans; eauto.
Qed.

Lemma flt_not_fle a b : is_nan a = false -> is_nan b = false ->
  flt a b = false -> fle b a = true.
Proof.
  intros Ha Hb H. apply fle_key. split_and!; [done|done|]. intros Hk.
  assert (flt a b = true) by (by apply flt_key). congruence.
Qed.

Lemma flt_nan a b : flt a b = true -> is_nan a = false /\ is_nan b = false.
Proof. intros H. apply flt_key in H. tauto. Qed.

Lemma fle_nan a b : fle a b = true -> is_nan a = false /\ is_nan b = false.
Proof. intros H. apply fle_key in H. tauto. Qed.

Lemma fle_trans a b c : fle a b = true -> fle b c = true -> fle a c = true.
Proof.
  rewrite !fle_split. intros (?&?&H1) (?&?&H2). split_and!; [done|done|].
  destruct H1 as [H1| ->], H2 as [H2|E]; rewrite <- ?E; eauto using klt_trans.
Qed.

Lemma flt_fle a b : flt a b = true -> fle a b = true.
Proof. rewrite flt_key, fle_split. tauto. Qed.

Lemma fle_refl a : is_nan a = false -> fle a a = true.
Proof. intros H. apply fle_split. auto. Qed.

Lemma flt_fle_trans a b c : flt a b = true -> fle b c = true -> flt a c = true.
Proof.
  rewrite !flt_key, fle_split. intros (?&?&H1) (?&?&[H2|<-]); split_and!; eauto using klt_trans.
Qed.

Lemma fle_flt_trans a b c : fle a b = true -> flt b c = true -> flt a c = true.
Proof.
  rewrite !flt_key, fle_split. intros (?&?&[H1| ->]) (?&?&H2); split_and!; eauto using klt_trans.
Qed.

Lemma flt_not_fle_rev a b : flt a b = true -> fle b a = true -> False.
Proof. rewrite flt_key, fle_key. tauto. Qed.

Lemma feq_fle a b : feq a b = true <-> fle a b = true /\ fle b a = true.
Proof.
  rewrite feq_key, !fle_split. split; [intros (?&?&->); auto|].
  intros [(?&?&[H1|H1]) (?&?&[H2|H2])]; split_and!; try done.
  exfalso. eapply klt_irrefl, klt_trans; eauto.
Qed.

(** max and min of numbers. *)
Lemma fmax_fle a b c : is_nan a = false -> is_nan b = false ->
  fle (fmax a b) c = true <-> fle a c = true /\ fle b c = true.
Proof.
  intros Ha Hb. unfold fmax. destruct (flt a b) eqn:E; split; try tauto.
  - intros H. split; [|done]. eauto using fle_trans, flt_fle.
  - intros H. split; [done|]. eauto using fle_trans, flt_not_fle.
Qed.

Lemma fle_fmin a b c : is_nan a = false -> is_nan b = false ->
  fle c (fmin a b) = true <-> fle c a = true /\ fle c b = true.
Proof.
  intros Ha Hb. unfold fmin. destruct (flt b a) eqn:E; split; try tauto.
  - intros H. split; [|done]. eauto using fle_trans, flt_fle.
  - intros H. split; [done|]. eauto using fle_trans, flt_not_fle.
Qed.

End Float32.

Module Formats.

Inductive LayerBufferFormat :=
| kFormatARGB8888 | kFormatRGBA8888 | kFormatBGRA8888 | kFormatXRGB8888
| kFormatRGBX8888 | kFormatBGRX8888 | kFormatRGBA5551 | kFormatRGBA4444
| kFormatRGB888 | kFormatBGR888 | kFormatRGB565 | kFormatBGR565
| kFormatRGBA8888Ubwc | kFormatRGBX8888Ubwc | kFormatBGR565Ubwc | kFormatRGBA1010102
| kFormatARGB2101010 | kFormatRGBX1010102 | kFormatXRGB2101010 | kFormatBGRA1010102
| kFormatABGR2101010 | kFormatBGRX1010102 | kFormatXBGR2101010 | kFormatRGBA1010102Ubwc
| kFormatRGBX1010102Ubwc | kFormatRGB101010 | kFormatYCbCr420Planar | kFormatYCrCb420Planar
| kFormatYCrCb420PlanarStride16 | kFormatYCbCr420SemiPlanar | kFormatYCrCb420SemiPlanar | kFormatYCbCr420SemiPlanarVenus
| kFormatYCbCr422H1V2SemiPlanar | kFormatYCrCb422H1V2SemiPlanar | kFormatYCbCr422H2V1SemiPlanar | kFormatYCrCb422H2V1SemiPlanar
| kFormatYCbCr420SPVenusUbwc | kFormatYCrCb420SemiPlanarVenus | kFormatYCbCr420P010 | kFormatYCbCr420TP10Ubwc
| kFormatYCbCr420P010Ubwc | kFormatYCbCr422H2V1Packed | kFormatCbYCrY422H2V1Packed | kFormatInvalid.

#[global] Instance LayerBufferFormat_eq_dec : EqDecision LayerBufferFormat.
Proof. solve_decision. Defined.

Inductive BufferLayout := kLinear | kUBWC | kTPTiled.
#[global] Instance BufferLayout_eq_dec : EqDecision BufferLayout.
Proof. solve_decision. Defined.

Definition IsUBWCFormat (format : LayerBufferFormat) : bool :=
  match format with
  | kFormatRGBA8888Ubwc | kFormatRGBX8888Ubwc | kFormatBGR565Ubwc | kFormatYCbCr420SPVenusUbwc
  | kFormatRGBA1010102Ubwc | kFormatRGBX1010102Ubwc | kFormatYCbCr420TP10Ubwc | kFormatYCbCr420P010Ubwc => true
  | _ => false
  end.

Definition Is10BitFormat (format : LayerBufferFormat) : bool :=
  match format with
  | kFormatRGBA1010102 | kFormatARGB2101010 | kFormatRGBX1010102 | kFormatXRGB2101010
  | kFormatBGRA1010102 | kFormatABGR2101010 | kFormatBGRX1010102 | kFormatXBGR2101010
  | kFormatRGBA1010102Ubwc | kFormatRGBX1010102Ubwc | kFormatYCbCr420P010 | kFormatYCbCr420TP10Ubwc
  | kFormatYCbCr420P010Ubwc => true
  | _ => false
  end.

Definition GetFormatString (format : LayerBufferFormat) : string :=
  match format with
  | kFormatARGB8888 => "ARGB_8888"
  | kFormatRGBA8888 => "RGBA_8888"
  | kFormatBGRA8888 => "BGRA_8888"
  | kFormatXRGB8888 => "XRGB_8888"
  | kFormatRGBX8888 => "RGBX_8888"
  | kFormatBGRX8888 => "BGRX_8888"
  | kFormatRGBA5551 => "RGBA_5551"
  | kFormatRGBA4444 => "RGBA_4444"
  | kFormatRGB888 => "RGB_888"
  | kFormatBGR888 => "BGR_888"
  | kFormatRGB565 => "RGB_565"
  | kFormatBGR565 => "BGR_565"
  | kFormatRGBA8888Ubwc => "RGBA_8888_UBWC"
  | kFormatRGBX8888Ubwc => "RGBX_8888_UBWC"
  | kFormatBGR565Ubwc => "BGR_565_UBWC"
  | kFormatYCbCr420Planar => "Y_CB_CR_420"
  | kFormatYCrCb420Planar => "Y_CR_CB_420"
  | kFormatYCrCb420PlanarStride16 => "Y_CR_CB_420_STRIDE16"
  | kFormatYCbCr420SemiPlanar => "Y_CBCR_420"
  | kFormatYCrCb420SemiPlanar => "Y_CRCB_420"
  | kFormatYCbCr420SemiPlanarVenus => "Y_CBCR_420_VENUS"
  | kFormatYCrCb420SemiPlanarVenus => "Y_CRCB_420_VENUS"
  | kFormatYCbCr422H1V2SemiPlanar => "Y_CBCR_422_H1V2"
  | kFormatYCrCb422H1V2SemiPlanar => "Y_CRCB_422_H1V2"
  | kFormatYCbCr422H2V1SemiPlanar => "Y_CBCR_422_H2V1"
  | kFormatYCrCb422H2V1SemiPlanar => "Y_CRCB_422_H2V2"
  | kFormatYCbCr420SPVenusUbwc => "Y_CBCR_420_VENUS_UBWC"
  | kFormatYCbCr422H2V1Packed => "YCBYCR_422_H2V1"
  | kFormatCbYCrY422H2V1Packed => "CBYCRY_422_H2V1"
  | kFormatRGBA1010102 => "RGBA_1010102"
  | kFormatARGB2101010 => "ARGB_2101010"
  | kFormatRGBX1010102 => "RGBX_1010102"
  | kFormatXRGB2101010 => "XRGB_2101010"
  | kFormatBGRA1010102 => "BGRA_1010102"
  | kFormatABGR2101010 => "ABGR_2101010"
  | kFormatBGRX1010102 => "BGRX_1010102"
  | kFormatXBGR2101010 => "XBGR_2101010"
  | kFormatRGBA1010102Ubwc => "RGBA_1010102_UBWC"
  | kFormatRGBX1010102Ubwc => "RGBX_1010102_UBWC"
  | kFormatYCbCr420P010 => "Y_CBCR_420_P010"
  | kFormatYCbCr420TP10Ubwc => "Y_CBCR_420_TP10_UBWC"
  | kFormatYCbCr420P010Ubwc => "Y_CBCR_420_P010_UBWC"
  | _ => "UNKNOWN"
  end.

Definition GetBufferLayout (format : LayerBufferFormat) : BufferLayout :=
  match format with
  | kFormatYCbCr420TP10Ubwc => kTPTiled
  | _ => if IsUBWCFormat format then kUBWC else kLinear
  end.

End Formats.

Module Rect.
Import Float32.

Record LayerRect := mkRect { left : float; top : float; right : float; bottom : float }.
Definition LayerRect0 : LayerRect := mkRect f_zero f_zero f_zero f_zero.
Record LayerTransform := mkTransform { rotation : float; flip_horizontal : bool; flip_vertical : bool }.
Inductive RectOrientation := kOrientationPortrait | kOrientationLandscape | kOrientationUnknown.

Definition IsValid (rect : LayerRect) : bool := flt (top rect) (bottom rect) && flt (left rect) (right rect).

Definition IsCongruent (rect1 rect2 : LayerRect) : bool :=
  feq (left rect1) (left rect2) && feq (top rect1) (top rect2) &&
  feq (right rect1) (right rect2) && feq (bottom rect1) (bottom rect2).

Definition Normalize (align_x align_y : Z) (rect : LayerRect) : outcome LayerRect :=
  l ← ROUND_UP_ALIGN_UP (left rect) align_x;
  r ← ROUND_UP_ALIGN_DOWN (right rect) align_x;
  t ← ROUND_UP_ALIGN_UP (top rect) align_y;
  b ← ROUND_UP_ALIGN_DOWN (bottom rect) align_y;
  Ret (mkRect l t r b).

Definition Intersection (rect1 rect2 : LayerRect) : LayerRect :=
  if negb (IsValid rect1) || negb (IsValid rect2) then LayerRect0
  else
    let res := mkRect (fmax (left rect1) (left rect2)) (fmax (top rect1) (top rect2))
                 (fmin (right rect1) (right rect2)) (fmin (bottom rect1) (bottom rect2)) in
    if negb (IsValid res) then LayerRect0 else res.

Definition Reposition (rect : LayerRect) (x_offset y_offset : Z) : LayerRect :=
  if negb (IsValid rect) then LayerRect0
  else mkRect (fadd (left rect) (FLOAT x_offset)) (fadd (top rect) (FLOAT y_offset))
         (fadd (right rect) (FLOAT x_offset)) (fadd (bottom rect) (FLOAT y_offset)).

Definition Subtract (rect1 rect2 : LayerRect) : LayerRect :=
  let res := rect1 in
  if feq (left rect1) (left rect2) && feq (right rect1) (right rect2) then
    if feq (top rect1) (top rect2) && fle (bottom rect2) (bottom rect1) then
      mkRect (left res) (bottom rect2) (right res) (bottom res)
    else if feq (bottom rect1) (bottom rect2) && fle (top rect1) (top rect2) then
      mkRect (left res) (top res) (right res) (top rect2)
    else res
  else if feq (top rect1) (top rect2) && feq (bottom rect1) (bottom rect2) then
    if feq (left rect1) (left rect2) && fle (right rect2) (right rect1) then
      mkRect (right rect2) (top res) (right res) (bottom res)
    else if feq (right rect1) (right rect2) && fle (left rect1) (left rect2) then
      mkRect (left res) (top res) (left rect2) (bottom res)
    else res
  else res.

Definition Union (rect1 rect2 : LayerRect) : LayerRect :=
  if negb (IsValid rect1) && negb (IsValid rect2) then LayerRect0
  else if negb (IsValid rect1) then rect2
  else if negb (IsValid rect2) then rect1
  else mkRect (fmin (left rect1) (left rect2)) (fmin (top rect1) (top rect2))
         (fmax (right rect1) (right rect2)) (fmax (bottom rect1) (bottom rect2)).

(** The loop of [SplitLeftRight]: the rectangles from [left_] on. *)
Fixpoint split_lr (count : nat) (rect_temp : LayerRect) (aligned_width : float) : list LayerRect :=
  match count with
  | O => []
  | S count =>
      let r := fmin (right rect_temp) (fadd (left rect_temp) aligned_width) in
      mkRect (left rect_temp) (top rect_temp) r (bottom rect_temp) ::
      split_lr count (mkRect r (top rect_temp) (right rect_temp) (bottom rect_temp)) aligned_width
  end.

(** A division by a split count of 0 is undefined. *)
Definition SplitLeftRight (in_rect : LayerRect) (split_count align_x : Z) (flip_horizontal : bool)
  : outcome (list LayerRect) :=
  w ← UINT32 (fsub (right in_rect) (left in_rect));
  _ ← check (negb (split_count =? 0));
  let split_width := w / split_count in
  let aligned_width := FLOAT (CeilToMultipleOf split_width align_x) in
  let out := split_lr (Z.to_nat split_count) in_rect aligned_width in
  match out with
  | r0 :: r1 :: rest =>
      if flip_horizontal then
        let x := fadd (left r0) (fsub (right r1) (left r1)) in
        Ret (mkRect (left r0) (top r0) x (bottom r0) ::
             mkRect x (top r1) (right r1) (bottom r1) :: rest)
      else Ret out
  | _ => Ret out
  end.

(** The loop of [SplitTopBottom]. *)
Fixpoint split_tb (count : nat) (rect_temp : LayerRect) (aligned_height : float) : list LayerRect :=
  match count with
  | O => []
  | S count =>
      let b := fmin (bottom rect_temp) (fadd (top rect_temp) aligned_height) in
      mkRect (left rect_temp) (top rect_temp) (right rect_temp) b ::
      split_tb count (mkRect (left rect_temp) b (right rect_temp) (bottom rect_temp)) aligned_height
  end.

Definition SplitTopBottom (in_rect : LayerRect) (split_count align_y : Z) (flip_horizontal : bool)
  : outcome (list LayerRect) :=
  h ← UINT32 (fsub (bottom in_rect) (top in_rect));
  _ ← check (negb (split_count =? 0));
  let split_height := h / split_count in
  let aligned_height := FLOAT (CeilToMultipleOf split_height align_y) in
  let out := split_tb (Z.to_nat split_count) in_rect aligned_height in
  match out with
  | r0 :: r1 :: rest =>
      if flip_horizontal then
        let y := fadd (top r0) (fsub (bottom r1) (top r1)) in
        Ret (mkRect (left r0) (top r0) (right r0) y ::
             mkRect (left r1) y (right r1) (bottom r1) :: rest)
      else Ret out
  | _ => Ret out
  end.

(** [out_rect] is the value of the output before the call. *)
Definition MapRect (src_domain dst_domain in_rect out_rect : LayerRect) : outcome LayerRect :=
  if negb (IsValid src_domain) || negb (IsValid dst_domain) || negb (IsValid in_rect) then Ret out_rect
  else
    x_offset ← INT (left src_domain);
    y_offset ← INT (top src_domain);
    nx ← int_expr (- x_offset);
    ny ← int_expr (- y_offset);
    let modified_in_rect := Reposition in_rect nx ny in
    let src_domain_width := fsub (right src_domain) (left src_domain) in
    let src_domain_height := fsub (bottom src_domain) (top src_domain) in
    let dst_domain_width := fsub (right dst_domain) (left dst_domain) in
    let dst_domain_height := fsub (bottom dst_domain) (top dst_domain) in
    let width_ratio := fdiv dst_domain_width src_domain_width in
    let height_ratio := fdiv dst_domain_height src_domain_height in
    Ret (mkRect (fadd (left dst_domain) (fmul width_ratio (left modified_in_rect)))
                (fadd (top dst_domain) (fmul height_ratio (top modified_in_rect)))
                (fadd (left dst_domain) (fmul width_ratio (right modified_in_rect)))
                (fadd (top dst_domain) (fmul height_ratio (bottom modified_in_rect)))).

Definition TransformHV (src_domain in_rect : LayerRect) (transform : LayerTransform)
    (out_rect : LayerRect) : LayerRect :=
  if negb (IsValid src_domain) || negb (IsValid in_rect) then out_rect
  else
    let in_width := fsub (right in_rect) (left in_rect) in
    let in_height := fsub (bottom in_rect) (top in_rect) in
    let x_offset := fsub (left in_rect) (left src_domain) in
    let y_offset := fsub (top in_rect) (top src_domain) in
    let out := in_rect in
    let out := if flip_horizontal transform then
                 let r := fsub (right src_domain) x_offset in
                 mkRect (fsub r in_width) (top out) r (bottom out)
               else out in
    if flip_vertical transform then
      let b := fsub (bottom src_domain) y_offset in
      mkRect (left out) (fsub b in_height) (right out) b
    else out.

Definition GetOrientation (in_rect : LayerRect) : RectOrientation :=
  if negb (IsValid in_rect) then kOrientationUnknown
  else
    let input_width := fsub (right in_rect) (left in_rect) in
    let input_height := fsub (bottom in_rect) (top in_rect) in
    if flt input_width input_height then kOrientationPortrait else kOrientationLandscape.

End Rect.

Module RectProps.
Import Float32 Rect.

(** [r] lies inside [s]. *)
Definition contained (r s : LayerRect) : Prop :=
  fle (left s) (left r) = true /\ fle (top s) (top r) = true /\
  fle (right r) (right s) = true /\ fle (bottom r) (bottom s) = true.

Lemma IsValid_true r : IsValid r = true <-> flt (top r) (bottom r) = true /\ flt (left r) (right r) = true.
Proof. unfold IsValid. apply andb_true_iff. Qed.

(** No coordinate of a valid rectangle is NaN. *)
Lemma IsValid_nan r : IsValid r = true ->
  is_nan (left r) = false /\ is_nan (top r) = false /\ is_nan (right r) = false /\ is_nan (bottom r) = false.
Proof. rewrite IsValid_true. intros [H1 H2]. apply flt_nan in H1, H2. tauto. Qed.

(** A rectangle around a valid one is valid. *)
Lemma contained_valid r s : IsValid r = true -> contained r s -> IsValid s = true.
Proof.
  rewrite !IsValid_true. intros [H1 H2] (?&?&?&?).
  split; eauto using fle_flt_trans, flt_fle_trans.
Qed.

(** Nothing valid fits in the empty rectangle. *)
Lemma not_in_empty r : IsValid r = true -> ~ contained r LayerRect0.
Proof. intros Hr Hc. apply (contained_valid _ _ Hr) in Hc. by vm_compute in Hc. Qed.

(** Intersection is the greatest lower bound and Union the least upper bound
    for containment: a valid rectangle lies in both rectangles exactly when it
    lies in their intersection (for any rectangles, valid or not), and a
    rectangle contains two valid ones exactly when it contains their union. *)
Lemma rect_lattice a b r :
  (IsValid r = true -> (contained r (Intersection a b) <-> contained r a /\ contained r b)) /\
  (IsValid a = true -> IsValid b = true ->
   (contained (Union a b) r <-> contained a r /\ contained b r)).
Proof.
  split.
  - intros Hr.
    assert (Hboth : contained r a /\ contained r b -> IsValid a = true /\ IsValid b = true)
      by (intros [? ?]; eauto using contained_valid).
    unfold Intersection. destruct (IsValid a) eqn:Ha, (IsValid b) eqn:Hb; cbn [negb orb];
      try (split; [intros H; destruct (not_in_empty r Hr H)|intros H; destruct (Hboth H); discriminate]).
    destruct (IsValid_nan a Ha) as (?&?&?&?), (IsValid_nan b Hb) as (?&?&?&?).
    set (res := mkRect _ _ _ _).
    assert (Hres : contained r res <-> contained r a /\ contained r b).
    { unfold contained, res. cbn [left top right bottom].
      rewrite !fmax_fle, !fle_fmin by done. tauto. }
    destruct (IsValid res) eqn:Ev; cbn [negb]; [done|].
    split; [intros Hc; destruct (not_in_empty r Hr Hc)|].
    intros Hc. apply Hres in Hc. apply (contained_valid _ _ Hr) in Hc. congruence.
  - intros Ha Hb. unfold Union. rewrite Ha, Hb. cbn [negb andb].
    destruct (IsValid_nan a Ha) as (?&?&?&?), (IsValid_nan b Hb) as (?&?&?&?).
    unfold contained. cbn [left top right bottom]. rewrite !fmax_fle, !fle_fmin by done. tauto.
Qed.

Definition R (l t r b : Z) : LayerRect := mkRect (FLOAT l) (FLOAT t) (FLOAT r) (FLOAT b).

Lemma rect_lattice_witness :
  contained (R 5 5 8 8) (Intersection (R 0 0 10 10) (R 5 5 20 20)) <->
  contained (R 5 5 8 8) (R 0 0 10 10) /\ contained (R 5 5 8 8) (R 5 5 20 20).
Proof. apply rect_lattice. vm_compute. reflexivity. Defined.

(** The pixel at (x, y) belongs to the rectangle. *)
Definition inside (x y : float) (r : LayerRect) : bool :=
  fle (left r) x && flt x (right r) && fle (top r) y && flt y (bottom r).

Lemma feq_fle_l a b x : feq a b = true -> fle a x = fle b x.
Proof.
  intros H. apply feq_fle in H as [H1 H2]. apply eq_true_iff_eq. split; intros; eauto using fle_trans.
Qed.

Lemma feq_flt_r a b x : feq a b = true -> flt x a = flt x b.
Proof.
  intros H. apply feq_fle in H as [H1 H2]. apply eq_true_iff_eq. split; intros; eauto using flt_fle_trans.
Qed.

(** Cutting [lo, hi) at [c]: what is left above and below. *)
Lemma cut_above lo c hi y : is_nan y = false -> flt lo c = true -> fle c hi = true ->
  fle c y && flt y hi = fle lo y && flt y hi && negb (fle lo y && flt y c).
Proof.
  intros Hy Hlo Hhi. destruct (fle c y) eqn:E1.
  - assert (fle lo y = true) as -> by eauto using fle_trans, flt_fle.
    destruct (flt y c) eqn:E2; [exfalso; eauto using flt_not_fle_rev|]. by destruct (flt y hi).
  - destruct (flt y c) eqn:E2; [by destruct (fle lo y), (flt y hi)|].
    apply flt_not_fle in E2; [congruence|done|apply (flt_nan _ _ Hlo)].
Qed.

Lemma cut_below lo c hi y : is_nan y = false -> fle lo c = true -> flt c hi = true ->
  fle lo y && flt y c = fle lo y && flt y hi && negb (fle c y && flt y hi).
Proof.
  intros Hy Hlo Hhi. destruct (flt y c) eqn:E1.
  - assert (flt y hi = true) as -> by eauto using flt_fle_trans, flt_fle.
    destruct (fle c y) eqn:E2; [exfalso; eauto using flt_not_fle_rev|]. by destruct (fle lo y).
  - apply flt_not_fle in E1; [|done|apply (flt_nan _ _ Hhi)]. rewrite E1.
    by destruct (fle lo y), (flt y hi).
Qed.

(** Subtract leaves the first rectangle as it is, or its result holds
    exactly the pixels of the first rectangle that are not in the second. *)
Lemma subtract_exact a b : IsValid b = true ->
  Subtract a b = a \/
  forall x y, is_nan x = false -> is_nan y = false ->
    inside x y (Subtract a b) = inside x y a && negb (inside x y b).
Proof.
  intros Hb. apply IsValid_true in Hb as [Hv Hh]. unfold Subtract.
  destruct (feq (left a) (left b) && feq (right a) (right b)) eqn:E1.
  - apply andb_true_iff in E1 as [El Er].
    destruct (feq (top a) (top b) && fle (bottom b) (bottom a)) eqn:E2;
      [|destruct (feq (bottom a) (bottom b) && fle (top a) (top b)) eqn:E3; [|by left]]; right;
      intros x y Hx Hy; unfold inside; cbn [left top right bottom];
      rewrite <- (feq_fle_l _ _ x El), <- (feq_flt_r _ _ x Er), <- !andb_assoc.
    + apply andb_true_iff in E2 as [Et Ebot].
      rewrite (cut_above (top b) (bottom b) (bottom a) y), (feq_fle_l _ _ y Et) by done.
      btauto.
    + apply andb_true_iff in E3 as [Ebot Et].
      assert (Hc : flt (top b) (bottom a) = true) by (by rewrite (feq_flt_r _ _ _ Ebot)).
      rewrite (cut_below (top a) (top b) (bottom a) y), (feq_flt_r _ _ y Ebot) by done.
      btauto.
  - destruct (feq (top a) (top b) && feq (bottom a) (bottom b)) eqn:E1'; [|by left].
    apply andb_true_iff in E1' as [Et Ebot].
    destruct (feq (left a) (left b) && fle (right b) (right a)) eqn:E2;
      [|destruct (feq (right a) (right b) && fle (left a) (left b)) eqn:E3; [|by left]]; right;
      intros x y Hx Hy; unfold inside; cbn [left top right bottom];
      rewrite <- (feq_fle_l _ _ y Et), <- (feq_flt_r _ _ y Ebot).
    + apply andb_true_iff in E2 as [El Er].
      rewrite (cut_above (left b) (right b) (right a) x), (feq_fle_l _ _ x El) by done.
      btauto.
    + apply andb_true_iff in E3 as [Er El].
      assert (Hc : flt (left b) (right a) = true) by (by rewrite (feq_flt_r _ _ _ Er)).
      rewrite (cut_below (left a) (left b) (right a) x), (feq_flt_r _ _ x Er) by done.
      btauto.
Qed.

Lemma subtract_exact_witness :
  Subtract (R 0 0 10 10) (R 0 0 10 4) = R 0 0 10 10 \/
  forall x y, is_nan x = false -> is_nan y = false ->
    inside x y (Subtract (R 0 0 10 10) (R 0 0 10 4)) =
      inside x y (R 0 0 10 10) && negb (inside x y (R 0 0 10 4)).
Proof. apply subtract_exact. vm_compute. reflexivity. Defined.

End RectProps.
