(* ===== verification/ResourceDefault.v ===== *)
(** The default resource manager of the display library:
    src/hardware/qcom-caf/display/sdm/libs/core/resource_default.cpp.

    The state is the object, the display contexts it has handed out (a handle is
    a key; using the handle of a deleted context is undefined) and the sync
    fences closed.  Vector accesses are checked for bounds.  The lock only
    serialises the calls; each call is one step.  log2f of the C library is a
    parameter. *)
From S2P Require Import Prelude Rect.
#[local] Open Scope Z_scope.

Module ResourceDefault.
Import Float32 Rect Formats.

Inductive DisplayError :=
| kErrorNone | kErrorUndefined | kErrorNotSupported | kErrorPermission | kErrorVersion
| kErrorDataAlignment | kErrorInstructionSet | kErrorParameters | kErrorFileDescriptor
| kErrorMemory | kErrorResources | kErrorHardware | kErrorTimeOut | kErrorShutDown
| kErrorPerfValidation | kErrorNoAppLayers | kErrorNotValidated.
#[global] Instance DisplayError_eq_dec : EqDecision DisplayError.
Proof. solve_decision. Defined.

Inductive HWBlockType := kHWPrimary | kHWHDMI | kHWWriteback0 | kHWWriteback1 | kHWWriteback2 | kHWBlockMax.
#[global] Instance HWBlockType_eq_dec : EqDecision HWBlockType.
Proof. solve_decision. Defined.

Inductive PipeType := kPipeTypeUnused | kPipeTypeVIG | kPipeTypeRGB | kPipeTypeDMA | kPipeTypeCursor.
#[global] Instance PipeType_eq_dec : EqDecision PipeType.
Proof. solve_decision. Defined.

Inductive PipeOwner := kPipeOwnerUserMode | kPipeOwnerKernelMode.
#[global] Instance PipeOwner_eq_dec : EqDecision PipeOwner.
Proof. solve_decision. Defined.

Inductive DisplayType := kPrimary | kHDMI | kVirtual | kDisplayMax.
Inductive LayerComposition := kCompositionGPUTarget | kCompositionOther.
#[global] Instance LayerComposition_eq_dec : EqDecision LayerComposition.
Proof. solve_decision. Defined.

Record HWPipeCaps := mkCaps { caps_type : PipeType; caps_id : Z }.

(** The fields of HWResourceInfo the code uses; the counts and limits are
    uint32_t. *)
Record HWResourceInfo := mkInfo {
  num_vig_pipe : Z;
  num_rgb_pipe : Z;
  num_dma_pipe : Z;
  hw_pipes : list HWPipeCaps;
  max_scale_up : Z;
  max_scale_down : Z;
  max_pipe_width : Z;
  has_decimation : bool;
  has_non_scalar_rgb : bool;
  is_src_split : bool
}.

Record SourcePipe := mkPipe {
  type : PipeType;
  owner : PipeOwner;
  mdss_pipe_id : Z;
  index : Z;
  hw_block_id : HWBlockType;
  priority : Z
}.
Definition SourcePipe0 : SourcePipe := mkPipe kPipeTypeUnused kPipeOwnerUserMode 0 0 kHWBlockMax 0.
Definition ResetState (p : SourcePipe) : SourcePipe :=
  mkPipe (type p) (owner p) (mdss_pipe_id p) (index p) kHWBlockMax (priority p).
Definition set_block (b : HWBlockType) (p : SourcePipe) : SourcePipe :=
  mkPipe (type p) (owner p) (mdss_pipe_id p) (index p) b (priority p).
Definition set_owner (o : PipeOwner) (p : SourcePipe) : SourcePipe :=
  mkPipe (type p) o (mdss_pipe_id p) (index p) (hw_block_id p) (priority p).

Record HWMixerAttributes := mkMixer { m_width : Z; m_height : Z; split_left : Z; output_format : LayerBufferFormat }.
Record Context := mkContext { ctx_block : HWBlockType; frame_count : Z; mixer : HWMixerAttributes }.

Record HWPipeInfo := mkPipeInfo {
  pipe_id : Z;
  src_roi : LayerRect;
  dst_roi : LayerRect;
  horizontal_decimation : Z;
  vertical_decimation : Z;
  z_order : Z;
  valid : bool
}.
Definition HWPipeInfo0 : HWPipeInfo := mkPipeInfo 0 LayerRect0 LayerRect0 0 0 0 false.
Definition set_rois (s d : LayerRect) (v : bool) (p : HWPipeInfo) : HWPipeInfo :=
  mkPipeInfo (pipe_id p) s d (horizontal_decimation p) (vertical_decimation p) (z_order p) v.
Definition set_pipe_id (i : Z) (p : HWPipeInfo) : HWPipeInfo :=
  mkPipeInfo i (src_roi p) (dst_roi p) (horizontal_decimation p) (vertical_decimation p) (z_order p) (valid p).
Definition set_z_order (z : Z) (p : HWPipeInfo) : HWPipeInfo :=
  mkPipeInfo (pipe_id p) (src_roi p) (dst_roi p) (horizontal_decimation p) (vertical_decimation p) z (valid p).
Definition set_decimation (h v : Z) (p : HWPipeInfo) : HWPipeInfo :=
  mkPipeInfo (pipe_id p) (src_roi p) (dst_roi p) h v (z_order p) (valid p).

Record HWLayerConfig := mkConfig { left_pipe : HWPipeInfo; right_pipe : HWPipeInfo }.

Record Layer := mkLayer {
  src_rect : LayerRect;
  dst_rect : LayerRect;
  format : LayerBufferFormat;
  secure : bool;
  composition : LayerComposition
}.

(** The layers of a frame, the configuration of the first one and the fence. *)
Record HWLayers := mkLayers { hw_layers : list Layer; config : HWLayerConfig; sync_handle : Z }.

(** The object. *)
Record t := mkRD {
  hw_res_info : HWResourceInfo;
  is_in_use : HWBlockType -> bool;
  src_pipes : list SourcePipe;
  num_pipe : Z
}.

Record world := World {
  rd : t;
  ctxs : gmap nat Context;
  next_handle : nat;
  closed : list Z
}.

(** ** Construction *)

(** Writes to element [i] of a vector. *)
Definition vec_upd (i : Z) (f : SourcePipe -> SourcePipe) (l : list SourcePipe) : outcome (list SourcePipe) :=
  match l !! Z.to_nat i with
  | Some p => Ret (<[Z.to_nat i := f p]> l)
  | None => Undef
  end.

(** The loop of [Init] over the pipes of the hardware from number [i] on; the
    indices are the next free place of each type. *)
Fixpoint init_loop (n : nat) (i : Z) (caps : list HWPipeCaps) (vig rgb dma : Z) (l : list SourcePipe)
  : outcome (list SourcePipe) :=
  match n with
  | O => Ret l
  | S n =>
      match caps with
      | [] => Undef
      | c :: caps =>
          let set p := mkPipe (caps_type c) (owner p) (caps_id c) i (hw_block_id p) (priority p) in
          match caps_type c with
          | kPipeTypeVIG => l ← vec_upd vig set l; init_loop n (i + 1) caps (vig + 1) rgb dma l
          | kPipeTypeRGB => l ← vec_upd rgb set l; init_loop n (i + 1) caps vig (rgb + 1) dma l
          | kPipeTypeDMA => l ← vec_upd dma set l; init_loop n (i + 1) caps vig rgb (dma + 1) l
          | _ => init_loop n (i + 1) caps vig rgb dma l
          end
      end
  end.

Definition set_priority (i : nat) (p : SourcePipe) : SourcePipe :=
  mkPipe (type p) (owner p) (mdss_pipe_id p) (index p) (hw_block_id p) i.

Definition ResourceDefault (info : HWResourceInfo) : t := mkRD info (fun _ => false) [] 0.

Definition Init (r : t) : outcome (DisplayError * t) :=
  let info := hw_res_info r in
  let n := u32 (num_vig_pipe info + num_rgb_pipe info + num_dma_pipe info) in
  if n =? 0 then Ret (kErrorParameters, mkRD info (is_in_use r) (src_pipes r) n)
  else
    let rgb_index := num_vig_pipe info in
    let dma_index := u32 (rgb_index + num_rgb_pipe info) in
    l ← init_loop (Z.to_nat n) 0 (hw_pipes info) 0 rgb_index dma_index
          (replicate (Z.to_nat n) SourcePipe0);
    let l := imap set_priority l in
    let info :=
      if (max_scale_down info <? 1) || (max_scale_up info <? 1) then
        mkInfo (num_vig_pipe info) (num_rgb_pipe info) (num_dma_pipe info) (hw_pipes info) 1 1
          (max_pipe_width info) (has_decimation info) (has_non_scalar_rgb info) (is_src_split info)
      else info in
    l ← vec_upd rgb_index (set_owner kPipeOwnerKernelMode) l;
    l ← vec_upd (u32 (rgb_index + 1)) (set_owner kPipeOwnerKernelMode) l;
    Ret (kErrorNone, mkRD info (is_in_use r) l n).

Definition Deinit (r : t) : DisplayError := kErrorNone.

(** The error returned and the pointer stored: to the object, or to a deleted
    object. *)
Inductive pointer := PObject (r : t) | PDeleted.
Definition CreateResourceDefault (info : HWResourceInfo) : outcome (DisplayError * pointer) :=
  '(error, r) ← Init (ResourceDefault info);
  Ret (kErrorNone, if decide (error <> kErrorNone) then PDeleted else PObject r).

Definition DestroyResourceDefault (p : pointer) : outcome DisplayError :=
  match p with
  | PObject r => Ret kErrorNone
  | PDeleted => Undef
  end.

(** ** Displays *)

Definition set_in_use (b : HWBlockType) (v : bool) (r : t) : t :=
  mkRD (hw_res_info r) (fun x => if decide (x = b) then v else is_in_use r x) (src_pipes r) (num_pipe r).
Definition set_src_pipes (l : list SourcePipe) (r : t) : t :=
  mkRD (hw_res_info r) (is_in_use r) l (num_pipe r).

Definition upd_rd (f : t -> t) : St world unit :=
  st_modify (fun w => World (f (rd w)) (ctxs w) (next_handle w) (closed w)).

(** The context a handle points to. *)
Definition deref (h : nat) : St world Context := fun w =>
  match ctxs w !! h with
  | Some c => Ret (c, w)
  | None => Undef
  end.

Definition store_ctx (h : nat) (c : Context) : St world unit :=
  st_modify (fun w => World (rd w) (<[h := c]> (ctxs w)) (next_handle w) (closed w)).

Definition RegisterDisplay (ty : DisplayType) (mixer_attributes : HWMixerAttributes)
  : St world (DisplayError * option nat) :=
  r ← st_gets rd;
  let register id :=
    if is_in_use r id then mret (kErrorResources, None)
    else
      h ← st_gets next_handle;
      _ ← st_modify (fun w => World (set_in_use id true (rd w)) (<[h := mkContext id 0 mixer_attributes]> (ctxs w))
                                (S h) (closed w));
      mret (kErrorNone, Some h) in
  match ty with
  | kPrimary => register kHWPrimary
  | kHDMI => register kHWHDMI
  | _ => mret (kErrorParameters, None)
  end.

(** The loop that frees the pipes of a block, in [Purge] and [Prepare]. *)
Definition free_pipes (b : HWBlockType) (l : list SourcePipe) : list SourcePipe :=
  (fun p => if decide (hw_block_id p = b /\ owner p = kPipeOwnerUserMode) then ResetState p else p) <$> l.

Definition Purge (h : nat) : St world unit :=
  c ← deref h;
  upd_rd (fun r => set_src_pipes (free_pipes (ctx_block c) (src_pipes r)) r).

Definition UnregisterDisplay (h : nat) : St world DisplayError :=
  _ ← Purge h;
  c ← deref h;
  _ ← upd_rd (set_in_use (ctx_block c) false);
  _ ← st_modify (fun w => World (rd w) (delete h (ctxs w)) (next_handle w) (closed w));
  mret kErrorNone.

Definition ReconfigureDisplay (h : nat) (mixer_attributes : HWMixerAttributes) : St world DisplayError :=
  c ← deref h;
  _ ← store_ctx h (mkContext (ctx_block c) (frame_count c) mixer_attributes);
  mret kErrorNone.

(** Handing the splash screen's pipes over. *)
Definition handoff (b : HWBlockType) (l : list SourcePipe) : list SourcePipe :=
  (fun p => if decide (hw_block_id p = b /\ owner p = kPipeOwnerKernelMode)
            then set_owner kPipeOwnerUserMode p else p) <$> l.

Definition PostCommit (h : nat) (layers : HWLayers) : St world DisplayError :=
  c ← deref h;
  _ ← (if (frame_count c =? 0) && bool_decide (ctx_block c = kHWPrimary)
       then upd_rd (fun r => set_src_pipes (handoff (ctx_block c) (src_pipes r)) r)
       else mret tt);
  _ ← (if 0 <=? sync_handle layers
       then st_modify (fun w => World (rd w) (ctxs w) (next_handle w) (closed w ++ [sync_handle layers]))
       else mret tt);
  _ ← store_ctx h (mkContext (ctx_block c) (u64 (frame_count c + 1)) (mixer c));
  mret kErrorNone.

Definition PostPrepare (h : nat) : DisplayError := kErrorNone.
Definition Commit (h : nat) : DisplayError := kErrorNone.
Definition SetMaxMixerStages (h : nat) (max_mixer_stages : Z) : DisplayError := kErrorNone.
Definition ValidateCursorConfig : DisplayError := kErrorNotSupported.
Definition ValidateAndSetCursorPosition : DisplayError := kErrorNotSupported.
Definition SetMaxBandwidthMode : DisplayError := kErrorNotSupported.
Definition SetDetailEnhancerData : DisplayError := kErrorNotSupported.

(** ** Pipes *)

(** The search in [num] pipes from position [start] on: the pipes after it and
    the index found, [num_pipe] when there is none. *)
Fixpoint search_loop (num : nat) (start : nat) (b : HWBlockType) (n : Z) (l : list SourcePipe)
  : outcome (Z * list SourcePipe) :=
  match num with
  | O => Ret (n, l)
  | S num =>
      match l !! start with
      | None => Undef
      | Some p =>
          if decide (owner p = kPipeOwnerUserMode /\ hw_block_id p = kHWBlockMax)
          then Ret (index p, <[start := set_block b p]> l)
          else search_loop num (S start) b n l
      end
  end.

Definition SearchPipe (b : HWBlockType) (start num : Z) (r : t) : outcome (Z * t) :=
  '(i, l) ← search_loop (Z.to_nat num) (Z.to_nat start) b (num_pipe r) (src_pipes r);
  Ret (i, set_src_pipes l r).

(** Taking the address of an element behind the end is only done for the end
    itself, whose search is empty. *)
Definition NextPipe (ty : PipeType) (b : HWBlockType) (r : t) : outcome (Z * t) :=
  let info := hw_res_info r in
  match ty with
  | kPipeTypeVIG => SearchPipe b 0 (num_vig_pipe info) r
  | kPipeTypeRGB => SearchPipe b (num_vig_pipe info) (num_rgb_pipe info) r
  | _ => SearchPipe b (u32 (num_vig_pipe info + num_rgb_pipe info)) (num_dma_pipe info) r
  end.

Definition GetPipe (b : HWBlockType) (need_scale : bool) (r : t) : outcome (Z * t) :=
  '(i, r) ← (if negb need_scale then NextPipe kPipeTypeDMA b r else Ret (num_pipe r, r));
  '(i, r) ← (if (num_pipe r <=? i) && (negb need_scale || negb (has_non_scalar_rgb (hw_res_info r)))
             then NextPipe kPipeTypeRGB b r else Ret (i, r));
  if num_pipe r <=? i then NextPipe kPipeTypeVIG b r else Ret (i, r).

Definition IsScalingNeeded (p : HWPipeInfo) : bool :=
  let s := src_roi p in
  let d := dst_roi p in
  negb (feq (fsub (right d) (left d)) (fsub (right s) (left s))) ||
  negb (feq (fsub (bottom d) (top d)) (fsub (bottom s) (top s))).

(** ** Configuration of the pipes *)

Section Config.
(** log2f of the C library. *)
Context (log2f : float -> float).

Definition kMaxDecimationDownScaleRatio : Z := 16.

Definition GetScaleFactor (crop dst : LayerRect) : float * float :=
  let crop_width := fsub (right crop) (left crop) in
  let crop_height := fsub (bottom crop) (top crop) in
  let dst_width := fsub (right dst) (left dst) in
  let dst_height := fsub (bottom dst) (top dst) in
  (fdiv crop_width dst_width, fdiv crop_height dst_height).

Definition ValidateDownScaling (info : HWResourceInfo) (scale_x scale_y : float) (ubwc_tiled : bool)
  : outcome DisplayError :=
  ux ← UINT32 scale_x;
  down ← (if 1 <? ux then Ret true else uy ← UINT32 scale_y; Ret (1 <? uy));
  if (down : bool) then
    let max := FLOAT (max_scale_down info) in
    let max := if negb ubwc_tiled && has_decimation info
               then fmul max (FLOAT kMaxDecimationDownScaleRatio) else max in
    Ret (if flt max scale_x || flt max scale_y then kErrorNotSupported else kErrorNone)
  else Ret kErrorNone.

(** One direction of [ValidateUpScaling]: whether the limit is passed. *)
Definition over_up (max_scale_up scale : float) : outcome bool :=
  u ← UINT32 scale;
  Ret ((u <? 1) && flt f_zero scale && flt max_scale_up (fdiv f_one scale)).

Definition ValidateUpScaling (info : HWResourceInfo) (scale_x scale_y : float) : outcome DisplayError :=
  let max := FLOAT (max_scale_up info) in
  ox ← over_up max scale_x;
  if (ox : bool) then Ret kErrorNotSupported
  else
    oy ← over_up max scale_y;
    Ret (if (oy : bool) then kErrorNotSupported else kErrorNone).

Definition ValidateScaling (info : HWResourceInfo) (crop dst : LayerRect) (layout : BufferLayout)
  : outcome DisplayError :=
  let '(scale_x, scale_y) := GetScaleFactor crop dst in
  error ← ValidateDownScaling info scale_x scale_y (bool_decide (layout <> kLinear));
  if decide (error <> kErrorNone) then Ret error else ValidateUpScaling info scale_x scale_y.

Definition ValidateDimensions (crop dst : LayerRect) : outcome DisplayError :=
  if negb (IsValid crop) then Ret kErrorNotSupported
  else if negb (IsValid dst) then Ret kErrorNotSupported
  else
    let crop_width := fsub (right crop) (left crop) in
    let crop_height := fsub (bottom crop) (top crop) in
    let dst_width := fsub (right dst) (left dst) in
    let dst_height := fsub (bottom dst) (top dst) in
    dw ← UINT32 (fsub crop_width dst_width);
    if dw =? 1 then Ret kErrorNotSupported
    else
      dh ← UINT32 (fsub crop_height dst_height);
      Ret (if dh =? 1 then kErrorNotSupported else kErrorNone).

Definition ValidatePipeParams (info : HWResourceInfo) (p : HWPipeInfo) (format : LayerBufferFormat)
  : outcome DisplayError :=
  error ← ValidateDimensions (src_roi p) (dst_roi p);
  if decide (error <> kErrorNone) then Ret error
  else ValidateScaling info (src_roi p) (dst_roi p) (GetBufferLayout format).

(** A coordinate that is an integer. *)
Definition integral (x : float) : bool := feq (fsub x (roundf x)) f_zero.

Definition ValidateLayerParams (l : Layer) : DisplayError :=
  let s := src_rect l in
  if decide (format l = kFormatInvalid) then kErrorNotSupported
  else if negb (IsValid s) || negb (IsValid (dst_rect l)) then kErrorNotSupported
  else if negb (secure l) &&
          (negb (integral (left s)) || negb (integral (top s)) ||
           negb (integral (right s)) || negb (integral (bottom s))) then kErrorNotSupported
  else kErrorNone.

(** The four rectangles: source and destination of the left and of the right. *)
Definition SplitRect (src dst : LayerRect) : outcome (LayerRect * LayerRect * LayerRect * LayerRect) :=
  let src_width := fsub (right src) (left src) in
  let dst_width := fsub (right dst) (left dst) in
  let src_width_ori := src_width in
  src_width ← ROUND_UP_ALIGN_DOWN (fdiv src_width (FLOAT 2)) 1;
  dst_width ← ROUND_UP_ALIGN_DOWN (fdiv (fmul dst_width src_width) src_width_ori) 1;
  let sx := fadd (left src) src_width in
  let dx := fadd (left dst) dst_width in
  Ret (mkRect (left src) (top src) sx (bottom src), mkRect (left dst) (top dst) dx (bottom dst),
       mkRect sx (top src) (right src) (bottom src), mkRect dx (top dst) (right dst) (bottom dst)).

Definition SrcSplitConfig (info : HWResourceInfo) (src dst : LayerRect) (c : HWLayerConfig)
  : outcome HWLayerConfig :=
  let src_width := fsub (right src) (left src) in
  let dst_width := fsub (right dst) (left dst) in
  let max := FLOAT (max_pipe_width info) in
  if flt max src_width || flt max dst_width then
    '(sl, dl, sr, dr) ← SplitRect src dst;
    Ret (mkConfig (set_rois sl dl true (left_pipe c)) (set_rois sr dr true (right_pipe c)))
  else Ret (mkConfig (set_rois src dst true (left_pipe c)) HWPipeInfo0).

Definition CalculateCropRects (sci crop dst : LayerRect) : outcome (bool * LayerRect * LayerRect) :=
  let crop_width := fsub (right crop) (left crop) in
  let crop_height := fsub (bottom crop) (top crop) in
  let dst_width := fsub (right dst) (left dst) in
  let dst_height := fsub (bottom dst) (top dst) in
  let cl := flt (left dst) (left sci) in
  let cr := flt (right sci) (right dst) in
  let ct := flt (top dst) (top sci) in
  let cb := flt (bottom sci) (bottom dst) in
  let left_cut_ratio := if cl then fdiv (fsub (left sci) (left dst)) dst_width else f_zero in
  let right_cut_ratio := if cr then fdiv (fsub (right dst) (right sci)) dst_width else f_zero in
  let top_cut_ratio := if ct then fdiv (fsub (top sci) (top dst)) dst_height else f_zero in
  let bottom_cut_ratio := if cb then fdiv (fsub (bottom dst) (bottom sci)) dst_height else f_zero in
  let dst := mkRect (if cl then left sci else left dst) (if ct then top sci else top dst)
                    (if cr then right sci else right dst) (if cb then bottom sci else bottom dst) in
  if negb (cl || cr || ct || cb) then Ret (true, crop, dst)
  else
    let crop := mkRect (fadd (left crop) (fmul crop_width left_cut_ratio))
                       (fadd (top crop) (fmul crop_height top_cut_ratio))
                       (fsub (right crop) (fmul crop_width right_cut_ratio))
                       (fsub (bottom crop) (fmul crop_height bottom_cut_ratio)) in
    crop ← Normalize 1 1 crop;
    dst ← Normalize 1 1 dst;
    Ret (IsValid crop && IsValid dst, crop, dst).

Definition DisplaySplitConfig (m : HWMixerAttributes) (src dst : LayerRect) : outcome HWLayerConfig :=
  let scissor_left := mkRect f_zero f_zero (FLOAT (split_left m)) (FLOAT (m_height m)) in
  let scissor_right := mkRect (FLOAT (split_left m)) f_zero (FLOAT (m_width m)) (FLOAT (m_height m)) in
  '(lv, crop_left, dst_left) ← CalculateCropRects scissor_left src dst;
  '(rv, crop_right, dst_right) ← (if IsValid scissor_right then CalculateCropRects scissor_right src dst
                                  else Ret (false, src, dst));
  Ret (mkConfig (if (lv : bool) then set_rois crop_left dst_left true HWPipeInfo0 else HWPipeInfo0)
                (if (rv : bool) then set_rois crop_right dst_right true HWPipeInfo0 else HWPipeInfo0)).

Definition AlignPipeConfig (info : HWResourceInfo) (l : Layer) (c : HWLayerConfig)
  : outcome (DisplayError * HWLayerConfig) :=
  if negb (valid (left_pipe c)) then Ret (kErrorNotSupported, c)
  else
    error ← ValidatePipeParams info (left_pipe c) (format l);
    if decide (error <> kErrorNone) then Ret (error, c)
    else if valid (right_pipe c) then
      let rp := right_pipe c in
      let s := src_roi rp in
      let d := dst_roi rp in
      let rp := set_rois (mkRect (right (src_roi (left_pipe c))) (top s) (right s) (bottom s))
                         (mkRect (right (dst_roi (left_pipe c))) (top d) (right d) (bottom d)) (valid rp) rp in
      error ← ValidatePipeParams info rp (format l);
      Ret (error, mkConfig (left_pipe c) rp)
    else Ret (error, c).

Definition Config (info : HWResourceInfo) (m : HWMixerAttributes) (l : Layer) (c : HWLayerConfig)
  : outcome (DisplayError * HWLayerConfig) :=
  let error := ValidateLayerParams l in
  if decide (error <> kErrorNone) then Ret (error, c)
  else
    error ← ValidateDimensions (src_rect l) (dst_rect l);
    if decide (error <> kErrorNone) then Ret (error, c)
    else
      error ← ValidateScaling info (src_rect l) (dst_rect l) (GetBufferLayout (format l));
      if decide (error <> kErrorNone) then Ret (error, c)
      else
        c ← (if is_src_split info then SrcSplitConfig info (src_rect l) (dst_rect l) c
             else DisplaySplitConfig m (src_rect l) (dst_rect l));
        '(error, c) ← AlignPipeConfig info l c;
        if decide (error <> kErrorNone) then Ret (error, c)
        else
          Ret (error, mkConfig (set_z_order 0 (left_pipe c))
                        (if valid (right_pipe c) then set_z_order 0 (right_pipe c) else right_pipe c)).

(** The decimation of one direction; [None] for the error. *)
Definition CalculateDecimation (info : HWResourceInfo) (downscale : float) : outcome (option Z) :=
  let max := FLOAT (max_scale_down info) in
  if fle downscale max then Ret (Some 0)
  else if negb (has_decimation info) then Ret None
  else d ← UINT8 (ceilf (log2f (fdiv downscale max))); Ret (Some d).

Definition SetDecimationFactor (info : HWResourceInfo) (p : HWPipeInfo)
  : outcome (DisplayError * HWPipeInfo) :=
  let s := src_roi p in
  let d := dst_roi p in
  let down_scale_h := fdiv (fsub (bottom s) (top s)) (fsub (bottom d) (top d)) in
  let down_scale_w := fdiv (fsub (right s) (left s)) (fsub (right d) (left d)) in
  h ← CalculateDecimation info down_scale_w;
  match h with
  | None => Ret (kErrorNotSupported, set_decimation 0 0 p)
  | Some h =>
      v ← CalculateDecimation info down_scale_h;
      match v with
      | None => Ret (kErrorNotSupported, set_decimation h 0 p)
      | Some v => Ret (kErrorNone, set_decimation h v p)
      end
  end.

(** ** Prepare *)

(** An element of the pipes. *)
Definition pipe_at (r : t) (i : Z) : outcome SourcePipe :=
  match src_pipes r !! Z.to_nat i with
  | Some p => Ret p
  | None => Undef
  end.

(** The part of [Prepare] after the configuration: the pipes of the block are
    freed and taken again. *)
Definition reserve (b : HWBlockType) (c : HWLayerConfig) (r : t)
  : outcome (DisplayError * HWLayerConfig * t) :=
  let n := num_pipe r in
  let r := set_src_pipes (free_pipes b (src_pipes r)) r in
  '(left_index, r) ← (if valid (left_pipe c) then GetPipe b (IsScalingNeeded (left_pipe c)) r
                      else Ret (n, r));
  if valid (left_pipe c) && (n <=? left_index) then Ret (kErrorResources, c, r)
  else
    '(error, lp) ← SetDecimationFactor (hw_res_info r) (left_pipe c);
    let c := mkConfig lp (right_pipe c) in
    if decide (error <> kErrorNone) then Ret (kErrorResources, c, r)
    else if negb (valid (right_pipe c)) then
      if left_index <? n then
        p ← pipe_at r left_index;
        Ret (kErrorNone, mkConfig (set_pipe_id (mdss_pipe_id p) (left_pipe c)) (right_pipe c), r)
      else Ret (kErrorNone, c, r)
    else
      '(right_index, r) ← GetPipe b (IsScalingNeeded (right_pipe c)) r;
      if n <=? right_index then Ret (kErrorResources, c, r)
      else
        pr ← pipe_at r right_index;
        pl ← pipe_at r left_index;
        let '(pl, pr) := if priority pr <? priority pl then (pr, pl) else (pl, pr) in
        let c := mkConfig (set_pipe_id (mdss_pipe_id pl) (left_pipe c))
                          (set_pipe_id (mdss_pipe_id pr) (right_pipe c)) in
        '(error, rp) ← SetDecimationFactor (hw_res_info r) (right_pipe c);
        let c := mkConfig (left_pipe c) rp in
        Ret (if decide (error <> kErrorNone) then kErrorResources else kErrorNone, c, r).

Definition Prepare (h : nat) (layers : HWLayers) : St world (DisplayError * HWLayers) :=
  ctx ← deref h;
  match hw_layers layers with
  | _ :: _ :: _ => mret (kErrorResources, layers)
  | [] => st_undef
  | [layer] =>
      if decide (composition layer <> kCompositionGPUTarget) then mret (kErrorParameters, layers)
      else
        r ← st_gets rd;
        '(error, c) ← st_lift (Config (hw_res_info r) (mixer ctx) layer (config layers));
        if decide (error <> kErrorNone)
        then mret (error, mkLayers (hw_layers layers) c (sync_handle layers))
        else
          '(error, c, r) ← st_lift (reserve (ctx_block ctx) c r);
          _ ← upd_rd (fun _ => r);
          mret (error, mkLayers (hw_layers layers) c (sync_handle layers))
  end.
End Config.

End ResourceDefault.

Module ResourceFacts.
Import Float32 Rect Formats ResourceDefault.

(** * The invariant of the pipes *)

Definition counts_ok (info : HWResourceInfo) (n : Z) : Prop :=
  0 <= num_vig_pipe info /\ 0 <= num_rgb_pipe info /\ 0 <= num_dma_pipe info /\
  num_vig_pipe info + num_rgb_pipe info + num_dma_pipe info = n /\ n < 2 ^ 32.

(** A pipe of the kernel is not assigned to a block. *)
Definition pipe_ok (i : nat) (p : SourcePipe) : Prop :=
  index p = i /\ priority p = i /\ (owner p = kPipeOwnerKernelMode -> hw_block_id p = kHWBlockMax).

Record wf (r : t) : Prop := {
  wf_len : num_pipe r = length (src_pipes r);
  wf_counts : counts_ok (hw_res_info r) (num_pipe r);
  wf_pipes : forall i p, src_pipes r !! i = Some p -> pipe_ok i p
}.

Definition free (p : SourcePipe) : Prop := owner p = kPipeOwnerUserMode /\ hw_block_id p = kHWBlockMax.

Lemma set_src_pipes_id r : set_src_pipes (src_pipes r) r = r.
Proof. by destruct r. Qed.

(** What a search gives: no pipe and no change, or the position of a free pipe
    that is now taken. *)
Definition taken (b : HWBlockType) (r : t) (i : Z) (r' : t) : Prop :=
  (i = num_pipe r /\ r' = r) \/
  (exists k p, i = Z.of_nat k /\ src_pipes r !! k = Some p /\ free p /\
     r' = set_src_pipes (<[k := set_block b p]> (src_pipes r)) r).

Lemma search_loop_ok b n l num : forall start,
  (start + num <= length l)%nat -> (forall i p, l !! i = Some p -> pipe_ok i p) ->
  exists i l', search_loop num start b n l = Ret (i, l') /\
    ((i = n /\ l' = l) \/
     (exists k p, i = Z.of_nat k /\ l !! k = Some p /\ free p /\ l' = <[k := set_block b p]> l)).
Proof.
  induction num as [|num IH]; intros start Hlen Hok; cbn [search_loop]; [by eauto 10|].
  destruct (lookup_lt_is_Some_2 l start) as [p Hp]; [lia|]. rewrite Hp.
  destruct (decide _) as [Hf|Hf]; [|apply IH; [lia|done]].
  eexists _, _. split; [done|]. right. exists start, p.
  split_and!; [by apply Hok in Hp as (-> & _)|done|done|done].
Qed.

Lemma SearchPipe_ok b start num r : wf r -> 0 <= start -> 0 <= num -> start + num <= num_pipe r ->
  exists i r', SearchPipe b start num r = Ret (i, r') /\ taken b r i r'.
Proof.
  intros [Hl Hc Hp] Hs Hn Hb. unfold SearchPipe.
  destruct (search_loop_ok b (num_pipe r) (src_pipes r) (Z.to_nat num) (Z.to_nat start)) as (i & l' & -> & H);
    [lia|done|].
  rewrite bind_ret. eexists _, _. split; [done|]. unfold taken.
  destruct H as [[-> ->]|(k & p & -> & Hk & Hf & ->)]; [left; by rewrite set_src_pipes_id|].
  right. by exists k, p.
Qed.

Lemma NextPipe_ok ty b r : wf r -> exists i r', NextPipe ty b r = Ret (i, r') /\ taken b r i r'.
Proof.
  intros Hwf. destruct (wf_counts r Hwf) as (H1 & H2 & H3 & H4 & H5).
  assert (E : u32 (num_vig_pipe (hw_res_info r) + num_rgb_pipe (hw_res_info r)) =
    num_vig_pipe (hw_res_info r) + num_rgb_pipe (hw_res_info r)) by (apply uwrap_small; lia).
  unfold NextPipe. destruct ty; rewrite ?E; apply SearchPipe_ok; (done || lia).
Qed.

Lemma taken_none_trans b r i r' : wf r -> taken b r i r' -> num_pipe r <= i -> r' = r /\ i = num_pipe r.
Proof.
  intros Hwf [[-> ->]|(k & p & -> & Hk & _)] H; [done|].
  apply lookup_lt_Some in Hk. rewrite (wf_len r Hwf) in H. lia.
Qed.

Lemma GetPipe_ok b ns r : wf r -> exists i r', GetPipe b ns r = Ret (i, r') /\ taken b r i r'.
Proof.
  intros Hwf. unfold GetPipe.
  assert (H1 : exists i r1, (if negb ns then NextPipe kPipeTypeDMA b r else Ret (num_pipe r, r)) = Ret (i, r1) /\
    taken b r i r1).
  { destruct (negb ns); [by apply NextPipe_ok|]. eexists _, _. split; [done|]. by left. }
  destruct H1 as (i1 & r1 & -> & H1). rewrite bind_ret.
  assert (Hn : num_pipe r1 = num_pipe r) by (destruct H1 as [[_ ->]|(?&?&?&?&?&->)]; done).
  rewrite Hn.
  assert (H2 : exists i r2, (if (num_pipe r <=? i1) && (negb ns || negb (has_non_scalar_rgb (hw_res_info r1)))
     then NextPipe kPipeTypeRGB b r1 else Ret (i1, r1)) = Ret (i, r2) /\ taken b r i r2).
  { destruct (_ && _) eqn:E; [|by eexists _, _]. apply andb_true_iff in E as [E _]. apply Z.leb_le in E.
    destruct (taken_none_trans _ _ _ _ Hwf H1 E) as [-> ->]. by apply NextPipe_ok. }
  destruct H2 as (i2 & r2 & -> & H2). rewrite bind_ret.
  assert (Hn2 : num_pipe r2 = num_pipe r) by (destruct H2 as [[_ ->]|(?&?&?&?&?&->)]; done).
  rewrite Hn2. destruct (Z.leb_spec (num_pipe r) i2) as [E|E]; [|by eexists _, _].
  destruct (taken_none_trans _ _ _ _ Hwf H2 E) as [-> ->]. by apply NextPipe_ok.
Qed.

(** Taking a pipe keeps the invariant. *)
Lemma taken_wf b r i r' : wf r -> taken b r i r' -> wf r'.
Proof.
  intros Hwf [[_ ->]|(k & p & _ & Hk & [Ho Hb] & ->)]; [done|]. destruct Hwf as [Hl Hc Hp].
  constructor; cbn [num_pipe src_pipes hw_res_info set_src_pipes]; [by rewrite length_insert|done|].
  intros j q Hq. apply list_lookup_insert_Some in Hq as [(<- & <- & _)|[_ Hq]]; [|by apply Hp].
  destruct (Hp k p Hk) as (? & ? & ?). split_and!; simpl; [done|done|]. congruence.
Qed.

Lemma free_pipes_lookup b l k q : free_pipes b l !! k = Some q ->
  exists p, l !! k = Some p /\
    ((hw_block_id p = b /\ owner p = kPipeOwnerUserMode /\ q = ResetState p) \/
     (~ (hw_block_id p = b /\ owner p = kPipeOwnerUserMode) /\ q = p)).
Proof.
  unfold free_pipes. rewrite list_lookup_fmap. destruct (l !! k) as [p|]; [|done]. simpl.
  intros [= <-]. exists p. split; [done|]. destruct (decide _); [left|right]; tauto.
Qed.

Lemma free_pipes_wf b r : wf r -> wf (set_src_pipes (free_pipes b (src_pipes r)) r).
Proof.
  intros [Hl Hc Hp]. constructor; cbn [num_pipe src_pipes hw_res_info set_src_pipes]; [|done|].
  - unfold free_pipes. by rewrite length_fmap.
  - intros k q Hq. apply free_pipes_lookup in Hq as (p & Hk & [(_ & _ & ->)|(_ & ->)]); [|by apply Hp].
    destruct (Hp k p Hk) as (? & ? & ?). by split_and!.
Qed.

Lemma handoff_wf b r : wf r -> b <> kHWBlockMax -> wf (set_src_pipes (handoff b (src_pipes r)) r).
Proof.
  intros [Hl Hc Hp] Hb. constructor; cbn [num_pipe src_pipes hw_res_info set_src_pipes]; [|done|].
  - unfold handoff. by rewrite length_fmap.
  - intros k q. unfold handoff. rewrite list_lookup_fmap.
    destruct (src_pipes r !! k) as [p|] eqn:Hk; [|done]. simpl. intros [= <-].
    destruct (Hp k p Hk) as (? & ? & ?). destruct (decide _); by split_and!.
Qed.

(** Pipes that are not free are not touched by a search, and by the freeing only
    if they belong to the block. *)
Lemma taken_frame b r i r' k p : taken b r i r' -> src_pipes r !! k = Some p -> ~ free p ->
  src_pipes r' !! k = Some p.
Proof.
  intros [[_ ->]|(k' & p' & _ & Hk' & Hf & ->)] Hk Hn; [done|]. cbn [src_pipes set_src_pipes].
  rewrite list_lookup_insert_ne; [done|]. intros ->. congruence.
Qed.

Lemma free_pipes_frame b l k p : l !! k = Some p -> hw_block_id p <> b -> free_pipes b l !! k = Some p.
Proof.
  intros Hk Hb. unfold free_pipes. rewrite list_lookup_fmap, Hk. simpl.
  destruct (decide _) as [[? _]|]; [done|done].
Qed.

Lemma taken_same b r i r' : taken b r i r' ->
  hw_res_info r' = hw_res_info r /\ is_in_use r' = is_in_use r /\ num_pipe r' = num_pipe r.
Proof. by intros [[_ ->]|(k & p & _ & _ & _ & ->)]. Qed.

(** A successful search leaves the pipe at its index, taken by the block. *)
Lemma taken_at b r i r' : wf r -> taken b r i r' -> i < num_pipe r -> exists k p,
  i = Z.of_nat k /\ src_pipes r !! k = Some p /\ free p /\ src_pipes r' !! k = Some (set_block b p).
Proof.
  intros Hwf [[-> _]|(k & p & -> & Hk & Hf & ->)] Hi; [lia|]. exists k, p. split_and!; [done|done|done|].
  cbn [src_pipes set_src_pipes]. apply list_lookup_insert_eq. by apply lookup_lt_Some in Hk.
Qed.

Lemma SetDecimationFactor_frame log2f info p e p' : SetDecimationFactor log2f info p = Ret (e, p') ->
  pipe_id p' = pipe_id p /\ src_roi p' = src_roi p /\ dst_roi p' = dst_roi p /\ valid p' = valid p.
Proof.
  unfold SetDecimationFactor. intros H. apply bind_Ret_inv in H as (h & _ & H).
  destruct h as [h|]; [|by injection H as <- <-]. apply bind_Ret_inv in H as (v & _ & H).
  destruct v; by injection H as <- <-.
Qed.

(** The pipe with identifier [id] belongs to the block [b] at position [k]. *)
Definition holds (r : t) (b : HWBlockType) (k : nat) (id : Z) : Prop :=
  exists p, src_pipes r !! k = Some p /\ hw_block_id p = b /\ owner p = kPipeOwnerUserMode /\
    mdss_pipe_id p = id.

(** The pipes of the other blocks and of the kernel. *)
Definition others_kept (b : HWBlockType) (r r' : t) : Prop :=
  forall k p, src_pipes r !! k = Some p -> hw_block_id p <> b -> ~ free p -> src_pipes r' !! k = Some p.

(** A configuration for which the reservation succeeded. *)
Definition reserved (b : HWBlockType) (c : HWLayerConfig) (r : t) : Prop :=
  exists k, holds r b k (pipe_id (left_pipe c)) /\
    (valid (right_pipe c) = true ->
     exists k2, (k < k2)%nat /\ holds r b k2 (pipe_id (right_pipe c))).

Lemma reserve_pair log2f b c r i1 r1 i2 r2 pl pr :
  wf r -> b <> kHWBlockMax -> taken b r i1 r1 -> i1 < num_pipe r -> taken b r1 i2 r2 -> i2 < num_pipe r ->
  pipe_at r2 i2 = Ret pr -> pipe_at r2 i1 = Ret pl ->
  forall e rp c',
  (let '(pl, pr) := if priority pr <? priority pl then (pr, pl) else (pl, pr) in
   let c := mkConfig (set_pipe_id (mdss_pipe_id pl) (left_pipe c))
                     (set_pipe_id (mdss_pipe_id pr) (right_pipe c)) in
   SetDecimationFactor log2f (hw_res_info r2) (right_pipe c) = Ret (e, rp) /\
   c' = mkConfig (left_pipe c) rp) ->
  reserved b c' r2.
Proof.
  intros Hwf Hb H1 Hi1 H2 Hi2 Hr Hl e rp c' Hc.
  destruct (taken_same _ _ _ _ H1) as (_ & _ & En). pose proof (taken_wf _ _ _ _ Hwf H1) as Hwf1.
  destruct (taken_at _ _ _ _ Hwf H1 Hi1) as (k1 & p1 & -> & Hk1 & Hf1 & Hk1').
  destruct (taken_at _ _ _ _ Hwf1 H2 ltac:(lia)) as (k2 & p2 & -> & Hk2 & Hf2 & Hk2').
  assert (Hk1'' : src_pipes r2 !! k1 = Some (set_block b p1)).
  { apply (taken_frame _ _ _ _ _ _ H2 Hk1'). intros [_ ?]. done. }
  assert (Hne : k1 <> k2).
  { intros ->. rewrite Hk1' in Hk2. injection Hk2 as <-. destruct Hf2 as [_ ?]. done. }
  unfold pipe_at in Hr, Hl. rewrite Nat2Z.id in Hr, Hl. rewrite Hk2' in Hr. rewrite Hk1'' in Hl.
  injection Hr as <-. injection Hl as <-.
  pose proof (taken_wf _ _ _ _ Hwf1 H2) as Hwf2.
  destruct (wf_pipes _ Hwf2 _ _ Hk1'') as (_ & Hp1 & _), (wf_pipes _ Hwf2 _ _ Hk2') as (_ & Hp2 & _).
  assert (Hh1 : holds r2 b k1 (mdss_pipe_id p1)) by (exists (set_block b p1); split_and!; [done|done|apply Hf1|done]).
  assert (Hh2 : holds r2 b k2 (mdss_pipe_id p2)) by (exists (set_block b p2); split_and!; [done|done|apply Hf2|done]).
  rewrite Hp1, Hp2 in Hc. destruct (Z.ltb_spec k2 k1); destruct Hc as [Hd ->];
    apply SetDecimationFactor_frame in Hd as (Hid & _); unfold reserved; cbn [left_pipe right_pipe];
    rewrite Hid; cbn [set_pipe_id pipe_id left_pipe right_pipe set_block mdss_pipe_id].
  - exists k2. split; [done|]. intros _. exists k1. split; [lia|done].
  - exists k1. split; [done|]. intros _. exists k2. split; [lia|done].
Qed.

(** How a reservation for the block [b] changes the pipes: the owners stay, the
    pipes of others stay, and a pipe keeps its block, is freed or goes to [b]. *)
Record evolves (b : HWBlockType) (r r' : t) : Prop := {
  ev_wf : wf r';
  ev_info : hw_res_info r' = hw_res_info r;
  ev_use : is_in_use r' = is_in_use r;
  ev_kept : others_kept b r r';
  ev_owners : owner <$> src_pipes r' = owner <$> src_pipes r;
  ev_from : forall k p', src_pipes r' !! k = Some p' ->
    hw_block_id p' = kHWBlockMax \/ hw_block_id p' = b \/
    exists p, src_pipes r !! k = Some p /\ hw_block_id p = hw_block_id p'
}.

Lemma evolves_trans b r1 r2 r3 : evolves b r1 r2 -> evolves b r2 r3 -> evolves b r1 r3.
Proof.
  intros [] []. constructor; [done|congruence|congruence| |congruence|].
  - intros k p Hk Hp Hn. auto.
  - intros k p' Hk. destruct (ev_from1 k p' Hk) as [?|[?|(p & Hk2 & Hp)]]; auto.
    rewrite <- Hp. eauto.
Qed.

Lemma free_pipes_evolves b r : wf r -> evolves b r (set_src_pipes (free_pipes b (src_pipes r)) r).
Proof.
  intros Hwf. constructor; try done.
  - by apply free_pipes_wf.
  - intros k p Hk Hp _. by apply free_pipes_frame.
  - cbn [src_pipes set_src_pipes]. unfold free_pipes. rewrite <- list_fmap_compose.
    apply list_fmap_ext. intros i p _. simpl. by destruct (decide _).
  - intros k q Hq. cbn [src_pipes set_src_pipes] in Hq.
    apply free_pipes_lookup in Hq as (p & Hk & [(_ & _ & ->)|(_ & ->)]); [by left|eauto].
Qed.

Lemma taken_evolves b r i r' : wf r -> taken b r i r' -> evolves b r r'.
Proof.
  intros Hwf H. pose proof (taken_wf _ _ _ _ Hwf H) as Hwf'.
  destruct (taken_same _ _ _ _ H) as (? & ? & ?). constructor; try done.
  - intros k p Hk _ Hn. by apply (taken_frame _ _ _ _ _ _ H).
  - destruct H as [[_ ->]|(k & p & _ & Hk & _ & ->)]; [done|]. cbn [src_pipes set_src_pipes].
    rewrite list_fmap_insert. apply list_insert_id. rewrite list_lookup_fmap, Hk. done.
  - destruct H as [[_ ->]|(k & p & _ & Hk & _ & ->)]; [eauto|]. intros j q Hq. cbn in Hq.
    apply list_lookup_insert_Some in Hq as [(<- & <- & _)|[_ Hq]]; [by right; left|eauto].
Qed.

Lemma reserve_ok log2f b c r e c' r' : wf r -> b <> kHWBlockMax -> valid (left_pipe c) = true ->
  reserve log2f b c r = Ret (e, c', r') ->
  evolves b r r' /\
  (e = kErrorNone -> reserved b c' r' /\ valid (right_pipe c') = valid (right_pipe c)).
Proof.
  intros Hwf Hb Hv H. unfold reserve in H. rewrite Hv in H.
  pose proof (free_pipes_evolves b r Hwf) as Ev0.
  set (r0 := set_src_pipes (free_pipes b (src_pipes r)) r) in *. pose proof (ev_wf _ _ _ Ev0) as Hwf0.
  destruct (GetPipe_ok b (IsScalingNeeded (left_pipe c)) r0 Hwf0) as (i1 & r1 & Eg & H1).
  rewrite Eg, bind_ret in H. cbn [andb] in H. pose proof (taken_wf _ _ _ _ Hwf0 H1) as Hwf1.
  pose proof (evolves_trans _ _ _ _ Ev0 (taken_evolves _ _ _ _ Hwf0 H1)) as Ev1.
  destruct (Z.leb_spec (num_pipe r) i1) as [|Hi1]; [by injection H as <- <- <-|].
  apply bind_Ret_inv in H as ([e1 lp] & Ed & H). destruct (decide _); [by injection H as <- <- <-|].
  cbn [right_pipe left_pipe] in H. apply SetDecimationFactor_frame in Ed as (Eid & _ & _ & Ev).
  destruct (valid (right_pipe c)) eqn:Hvr; cbn [negb] in H.
  - destruct (GetPipe_ok b (IsScalingNeeded (right_pipe c)) r1 Hwf1) as (i2 & r2 & Eg2 & H2).
    rewrite Eg2, bind_ret in H.
    pose proof (evolves_trans _ _ _ _ Ev1 (taken_evolves _ _ _ _ Hwf1 H2)) as Ev2.
    destruct (Z.leb_spec (num_pipe r) i2) as [|Hi2]; [by injection H as <- <- <-|].
    apply bind_Ret_inv in H as (pr & Epr & H). apply bind_Ret_inv in H as (pl & Epl & H).
    destruct (if priority pr <? priority pl then (pr, pl) else (pl, pr)) as [pl' pr'] eqn:Esw.
    apply bind_Ret_inv in H as ([e2 rp] & Ed2 & H). injection H as He <- <-.
    split; [done|]. intros _. split.
    + apply (reserve_pair log2f b (mkConfig lp (right_pipe c)) r0 i1 r1 i2 r2 pl pr Hwf0 Hb H1
        ltac:(done) H2 ltac:(done) Epr Epl e2 rp). rewrite Esw. done.
    + apply SetDecimationFactor_frame in Ed2 as (_ & _ & _ & Ev'). cbn in *. by rewrite Ev'.
  - destruct (Z.ltb_spec i1 (num_pipe r)); [|lia].
    apply bind_Ret_inv in H as (p & Ep & H). injection H as <- <- <-.
    split; [done|]. intros _. cbn [left_pipe right_pipe]. split; [|done].
    destruct (taken_at _ _ _ _ Hwf0 H1 Hi1) as (k1 & p1 & -> & _ & Hf1 & Hk1').
    unfold pipe_at in Ep. rewrite Nat2Z.id, Hk1' in Ep. injection Ep as <-.
    exists k1. split; [|by cbn; rewrite Hvr]. exists (set_block b p1).
    split_and!; [done|done|apply Hf1|done].
Qed.

(** * The configuration of a frame *)

(** What [Config] guarantees: valid regions, and halves that touch. *)
Definition config_ok (c : HWLayerConfig) : Prop :=
  valid (left_pipe c) = true /\
  IsValid (src_roi (left_pipe c)) = true /\ IsValid (dst_roi (left_pipe c)) = true /\
  (valid (right_pipe c) = true ->
   IsValid (src_roi (right_pipe c)) = true /\ IsValid (dst_roi (right_pipe c)) = true /\
   left (src_roi (right_pipe c)) = right (src_roi (left_pipe c)) /\
   left (dst_roi (right_pipe c)) = right (dst_roi (left_pipe c))).

Lemma ValidateDimensions_valid s d : ValidateDimensions s d = Ret kErrorNone ->
  IsValid s = true /\ IsValid d = true.
Proof. unfold ValidateDimensions. destruct (IsValid s); [|done]. by destruct (IsValid d). Qed.

Lemma ValidatePipeParams_valid info p f : ValidatePipeParams info p f = Ret kErrorNone ->
  IsValid (src_roi p) = true /\ IsValid (dst_roi p) = true.
Proof.
  intros H. apply bind_Ret_inv in H as (e & He & H). destruct (decide _) as [|E]; [congruence|].
  apply dec_stable in E. subst e. by apply ValidateDimensions_valid.
Qed.

Lemma AlignPipeConfig_ok info l c c' : AlignPipeConfig info l c = Ret (kErrorNone, c') -> config_ok c'.
Proof.
  unfold AlignPipeConfig. destruct (valid (left_pipe c)) eqn:Hl; [|done]. cbn [negb].
  intros H. apply bind_Ret_inv in H as (e & He & H). destruct (decide _) as [|E]; [congruence|].
  apply dec_stable in E. subst e. apply ValidatePipeParams_valid in He as [Hs Hd].
  destruct (valid (right_pipe c)) eqn:Hr.
  - apply bind_Ret_inv in H as (e & He & H). injection H as -> <-.
    apply ValidatePipeParams_valid in He as [Hs' Hd']. by split_and!.
  - injection H as <-. unfold config_ok. rewrite Hr. by split_and!.
Qed.

Lemma Config_ok info m l c c' : Config info m l c = Ret (kErrorNone, c') -> config_ok c'.
Proof.
  unfold Config. destruct (decide _); [congruence|].
  intros H. apply bind_Ret_inv in H as (e & _ & H). destruct (decide _); [congruence|].
  apply bind_Ret_inv in H as (e' & _ & H). destruct (decide _); [congruence|].
  apply bind_Ret_inv in H as (c1 & _ & H). apply bind_Ret_inv in H as ([e2 c2] & Ha & H).
  destruct (decide _) as [|E]; [congruence|]. apply dec_stable in E. subst e2. injection H as <-.
  apply AlignPipeConfig_ok in Ha as (H1 & H2 & H3 & H4). unfold config_ok. cbn.
  split_and!; [done|done|done|]. destruct (valid (right_pipe c2)) eqn:Hr; cbn; [|congruence].
  intros _. by apply H4.
Qed.

(** * Initialisation *)

(** The pipes of the hardware come grouped by type in the order VIG, RGB, DMA,
    as many as counted. *)
Definition grouped (info : HWResourceInfo) : Prop :=
  exists vs rs ds rest,
    hw_pipes info = (mkCaps kPipeTypeVIG <$> vs) ++ (mkCaps kPipeTypeRGB <$> rs) ++
                    (mkCaps kPipeTypeDMA <$> ds) ++ rest /\
    num_vig_pipe info = length vs /\ num_rgb_pipe info = length rs /\ num_dma_pipe info = length ds.

(** The pipes below position [i] are initialised. *)
Definition filled (n : nat) (i : nat) (l : list SourcePipe) : Prop :=
  length l = n /\ forall k p, l !! k = Some p -> free p /\ ((k < i)%nat -> index p = k).

(** The counter of a type. *)
Definition counter (ty : PipeType) (vig rgb dma : Z) : option Z :=
  match ty with
  | kPipeTypeVIG => Some vig
  | kPipeTypeRGB => Some rgb
  | kPipeTypeDMA => Some dma
  | _ => None
  end.
Definition bump (ty ty' : PipeType) (m : nat) (c : Z) : Z := if decide (ty = ty') then c + m else c.

Lemma filled_upd N i c l : filled N i l -> (i < N)%nat ->
  exists l', vec_upd i (fun p => mkPipe (caps_type c) (owner p) (caps_id c) i (hw_block_id p) (priority p)) l = Ret l' /\
    filled N (S i) l'.
Proof.
  intros [Hl Hp] Hi. unfold vec_upd. rewrite Nat2Z.id.
  destruct (lookup_lt_is_Some_2 l i) as [p Hk]; [lia|]. rewrite Hk. eexists. split; [done|].
  split; [by rewrite length_insert|]. intros k q Hq.
  apply list_lookup_insert_Some in Hq as [(<- & <- & _)|[Hne Hq]].
  - destruct (Hp _ _ Hk) as [[? ?] _]. split; [by split|]. done.
  - destruct (Hp _ _ Hq) as [? Hix]. split; [done|]. intros. apply Hix. lia.
Qed.

Lemma init_seg N ty ids n caps : forall (i : nat) vig rgb dma l,
  counter ty vig rgb dma = Some (Z.of_nat i) -> filled N i l -> (i + length ids <= N)%nat ->
  exists l', init_loop (length ids + n) i ((mkCaps ty <$> ids) ++ caps) vig rgb dma l =
    init_loop n (i + length ids)%nat caps (bump ty kPipeTypeVIG (length ids) vig)
      (bump ty kPipeTypeRGB (length ids) rgb) (bump ty kPipeTypeDMA (length ids) dma) l' /\
    filled N (i + length ids) l'.
Proof.
  induction ids as [|id ids IH]; intros i vig rgb dma l Hc Hf Hn.
  { exists l. unfold bump. simpl. rewrite Nat.add_0_r.
    split; [|done]. destruct ty; simpl; by rewrite ?Z.add_0_r. }
  simpl in Hn. destruct (filled_upd N i (mkCaps ty id) l Hf) as (l1 & E1 & Hf1); [lia|].
  assert (Hc1 : counter ty (bump ty kPipeTypeVIG 1 vig) (bump ty kPipeTypeRGB 1 rgb) (bump ty kPipeTypeDMA 1 dma) =
    Some (Z.of_nat (S i))) by (destruct ty; try done; cbn [counter bump decide] in *;
      injection Hc as ->; f_equal; unfold bump; rewrite decide_True by done; lia).
  destruct (IH (S i) _ _ _ l1 Hc1 Hf1) as (l2 & E2 & Hf2); [lia|].
  exists l2. replace (i + length (id :: ids))%nat with (S i + length ids)%nat by (simpl; lia).
  split; [|done].
  assert (Hb : forall ty' c, bump ty ty' (length (id :: ids)) c = bump ty ty' (length ids) (bump ty ty' 1 c)).
  { intros ty' c. unfold bump. destruct (decide _); [simpl length|done]. lia. }
  rewrite !Hb, <- E2. cbn [length Nat.add fmap list_fmap app init_loop caps_type caps_id].
  cbn [caps_type caps_id] in E1.
  replace (Z.of_nat i + 1) with (Z.of_nat (S i)) by lia.
  destruct ty; try done; simpl in Hc; injection Hc as ->; rewrite E1, bind_ret; done.
Qed.

Lemma init_loop_ok info : grouped info ->
  let n := Z.to_nat (num_vig_pipe info + num_rgb_pipe info + num_dma_pipe info) in
  exists l, init_loop n 0 (hw_pipes info) 0 (num_vig_pipe info) (num_vig_pipe info + num_rgb_pipe info)
    (replicate n SourcePipe0) = Ret l /\ filled n n l.
Proof.
  intros (vs & rs & ds & rest & E & Ev & Er & Ed). rewrite Ev, Er, Ed, E.
  set (n := Z.to_nat _). assert (Hn : n = (length vs + (length rs + (length ds + 0)))%nat) by lia.
  assert (H0 : filled n 0 (replicate n SourcePipe0)).
  { split; [apply length_replicate|]. intros k p Hk. apply lookup_replicate in Hk as [-> _]. split; [done|lia]. }
  destruct (init_seg n kPipeTypeVIG vs (length rs + (length ds + 0)) ((mkCaps kPipeTypeRGB <$> rs) ++
     (mkCaps kPipeTypeDMA <$> ds) ++ rest) 0 0 (length vs) (length vs + length rs) _ eq_refl H0) as (l1 & E1 & H1); [lia|].
  destruct (init_seg n kPipeTypeRGB rs (length ds + 0) ((mkCaps kPipeTypeDMA <$> ds) ++ rest) (0 + length vs)
     (length vs) (length vs) (length vs + length rs) l1 eq_refl H1) as (l2 & E2 & H2); [lia|].
  destruct (init_seg n kPipeTypeDMA ds 0 rest (0 + length vs + length rs) (length vs)
     (length vs + length rs) (length vs + length rs) l2) as (l3 & E3 & H3); [simpl; f_equal; lia|done|lia|].
  exists l3. rewrite Hn at 1. change (Z.of_nat 0) with 0 in *.
  rewrite E1. change (bump kPipeTypeVIG kPipeTypeVIG (length vs) 0) with (Z.of_nat (length vs)).
  change (bump kPipeTypeVIG kPipeTypeRGB (length vs) (length vs)) with (Z.of_nat (length vs)).
  change (bump kPipeTypeVIG kPipeTypeDMA (length vs) (length vs + length rs)) with (length vs + length rs)%Z.
  rewrite E2. change (bump kPipeTypeRGB kPipeTypeVIG (length rs) (length vs)) with (Z.of_nat (length vs)).
  change (bump kPipeTypeRGB kPipeTypeRGB (length rs) (length vs)) with (length vs + length rs)%Z.
  change (bump kPipeTypeRGB kPipeTypeDMA (length rs) (length vs + length rs)) with (length vs + length rs)%Z.
  rewrite E3. split; [done|]. by replace n with (0 + length vs + length rs + length ds)%nat at 2 by lia.
Qed.

(** Hardware the object can manage: grouped pipes, with two pipes from the first
    RGB position on for the splash screen. *)
Definition hw_ok (info : HWResourceInfo) : Prop :=
  grouped info /\ 0 <= num_vig_pipe info /\ 0 <= num_rgb_pipe info /\ 0 <= num_dma_pipe info /\
  num_vig_pipe info + num_rgb_pipe info + num_dma_pipe info < 2 ^ 32 /\
  2 <= num_rgb_pipe info + num_dma_pipe info.

Lemma vec_upd_ok i f l : 0 <= i < length l -> exists p, l !! Z.to_nat i = Some p /\
  vec_upd i f l = Ret (<[Z.to_nat i := f p]> l).
Proof.
  intros Hi. unfold vec_upd. destruct (lookup_lt_is_Some_2 l (Z.to_nat i)) as [p Hp]; [lia|].
  rewrite Hp. eauto.
Qed.

(** The pipes of a fresh object: all unassigned, those at [k] and [k + 1] of the
    kernel. *)
Definition fresh (k : nat) (l : list SourcePipe) : Prop :=
  forall (i : nat) p, l !! i = Some p -> index p = i /\ priority p = i /\ hw_block_id p = kHWBlockMax /\
    (owner p = kPipeOwnerKernelMode <-> i = k \/ i = S k).

Lemma Create_ok info : hw_ok info -> exists r,
  CreateResourceDefault info = Ret (kErrorNone, PObject r) /\ wf r /\
  is_in_use r = (fun _ => false) /\ fresh (Z.to_nat (num_vig_pipe info)) (src_pipes r) /\
  num_vig_pipe info + 1 < length (src_pipes r).
Proof.
  intros (Hg & Hv & Hr & Hd & Hn & H2). destruct (init_loop_ok info Hg) as (l & El & Hlen & Hl).
  unfold CreateResourceDefault, Init. cbn [ResourceDefault.ResourceDefault hw_res_info].
  rewrite !(uwrap_small 32) by lia. rewrite (proj2 (Z.eqb_neq _ 0)) by lia. rewrite El, bind_ret.
  set (l1 := imap set_priority l). assert (Hl1 : length l1 = length l) by apply length_imap.
  destruct (vec_upd_ok (num_vig_pipe info) (set_owner kPipeOwnerKernelMode) l1) as (p1 & Hp1 & ->); [lia|].
  rewrite bind_ret. set (l2 := <[_ := _]> l1). assert (Hl2 : length l2 = length l1) by apply length_insert.
  destruct (vec_upd_ok (num_vig_pipe info + 1) (set_owner kPipeOwnerKernelMode) l2) as (p2 & Hp2 & ->); [lia|].
  rewrite !bind_ret, decide_False by (by intros []).
  set (k := Z.to_nat (num_vig_pipe info)) in *.
  assert (Ek : Z.to_nat (num_vig_pipe info + 1) = S k) by lia. rewrite Ek in *.
  set (l3 := <[_ := _]> l2).
  assert (H1 : forall (i : nat) p, l1 !! i = Some p -> index p = i /\ priority p = i /\
    hw_block_id p = kHWBlockMax /\ owner p = kPipeOwnerUserMode).
  { intros i p Hi. unfold l1 in Hi. rewrite list_lookup_imap in Hi.
    destruct (l !! i) as [q|] eqn:Eq; [|done]. injection Hi as <-.
    destruct (Hl _ _ Eq) as [[Ho Hb] Hix]. apply lookup_lt_Some in Eq. 
    split_and!; [apply Hix; lia|done|done|done]. }
  assert (Hf : fresh k l3).
  { intros i p Hi. unfold l3, l2 in Hi, Hp2.
    rewrite list_lookup_insert_ne in Hp2 by lia.
    apply list_lookup_insert_Some in Hi as [(<- & <- & _)|[Hne Hi]].
    { destruct (H1 _ _ Hp2) as (?&?&?&?). cbn [set_owner index priority hw_block_id owner].
      split_and!; [done|done|done|split; auto]. }
    apply list_lookup_insert_Some in Hi as [(<- & <- & _)|[Hne' Hi]].
    { destruct (H1 _ _ Hp1) as (?&?&?&?). cbn [set_owner index priority hw_block_id owner].
      split_and!; [done|done|done|split; auto]. }
    destruct (H1 _ _ Hi) as (?&?&?&Ho). rewrite Ho. split_and!; [done|done|done|]. split; [done|]. by intros [->| ->]. }
  assert (Hl3 : length l3 = length l) by (unfold l3; rewrite length_insert; lia).
  eexists. split; [done|]. cbn [src_pipes is_in_use]. split_and!; [|done|done|lia].
  constructor; cbn [num_pipe src_pipes hw_res_info].
  - lia.
  - destruct (_ || _); cbn; (split_and!; simpl; lia).
  - intros i p Hi. destruct (Hf i p Hi) as (?&?&?&?). by split_and!.
Qed.

(** * Displays *)

Record wf_world (w : world) : Prop := {
  ww_rd : wf (rd w);
  ww_ctx : forall h c, ctxs w !! h = Some c -> (h < next_handle w)%nat /\
    (ctx_block c = kHWPrimary \/ ctx_block c = kHWHDMI) /\ is_in_use (rd w) (ctx_block c) = true;
  ww_distinct : forall h1 h2 c1 c2, ctxs w !! h1 = Some c1 -> ctxs w !! h2 = Some c2 ->
    ctx_block c1 = ctx_block c2 -> h1 = h2;
  ww_pipes : forall k p, src_pipes (rd w) !! k = Some p -> hw_block_id p <> kHWBlockMax ->
    exists h c, ctxs w !! h = Some c /\ ctx_block c = hw_block_id p;
  ww_use : forall b, is_in_use (rd w) b = true -> exists h c, ctxs w !! h = Some c /\ ctx_block c = b
}.

(** The calls of the clients. *)
Inductive step (log2f : float -> float) : world -> world -> Prop :=
| step_register ty m w r w' : RegisterDisplay ty m w = Ret (r, w') -> step log2f w w'
| step_unregister h w e w' : UnregisterDisplay h w = Ret (e, w') -> step log2f w w'
| step_reconfigure h m w e w' : ReconfigureDisplay h m w = Ret (e, w') -> step log2f w w'
| step_prepare h ls w r w' : Prepare log2f h ls w = Ret (r, w') -> step log2f w w'
| step_post_commit h ls w e w' : PostCommit h ls w = Ret (e, w') -> step log2f w w'
| step_purge h w w' : Purge h w = Ret (tt, w') -> step log2f w w'.

Definition reachable (log2f : float -> float) (info : HWResourceInfo) (w : world) : Prop :=
  exists r, CreateResourceDefault info = Ret (kErrorNone, PObject r) /\ rtc (step log2f) (World r ∅ 0 []) w.

Lemma deref_inv h w c w' : deref h w = Ret (c, w') -> ctxs w !! h = Some c /\ w' = w.
Proof. unfold deref. destruct (ctxs w !! h); [|done]. by intros [= -> ->]. Qed.

(** A change of the pipes for the block of a registered display. *)
Lemma evolves_world b w r' : wf_world w -> evolves b (rd w) r' ->
  (exists h c, ctxs w !! h = Some c /\ ctx_block c = b) ->
  wf_world (World r' (ctxs w) (next_handle w) (closed w)).
Proof.
  intros [H1 H2 H3 H4 H5] [Hw Hi Hu Hk Ho Hf] Hb. constructor; cbn [rd ctxs next_handle]; try done.
  - intros h c Hc. rewrite Hu. by apply H2.
  - intros k p Hp Hne. destruct (Hf k p Hp) as [?|[->|(q & Hq & E)]]; [done|done|].
    rewrite <- E in *. eauto.
  - intros b'. rewrite Hu. apply H5.
Qed.

(** Replacing a context by one of the same block. *)
Lemma store_world h c c' w : wf_world w -> ctxs w !! h = Some c -> ctx_block c' = ctx_block c ->
  wf_world (World (rd w) (<[h := c']> (ctxs w)) (next_handle w) (closed w)).
Proof.
  intros [H1 H2 H3 H4 H5] Hc Eb.
  assert (Hex : forall b, (exists h0 c0, ctxs w !! h0 = Some c0 /\ ctx_block c0 = b) ->
    exists h0 c0, <[h := c']> (ctxs w) !! h0 = Some c0 /\ ctx_block c0 = b).
  { intros b (h0 & c0 & Hc0 & Hb). destruct (decide (h0 = h)) as [->|Hne].
    - exists h, c'. rewrite lookup_insert_eq. split; [done|]. congruence.
    - exists h0, c0. by rewrite lookup_insert_ne by done. }
  assert (Hget : forall h0 c0, <[h := c']> (ctxs w) !! h0 = Some c0 ->
    exists c1, ctxs w !! h0 = Some c1 /\ ctx_block c0 = ctx_block c1).
  { intros h0 c0 H. apply lookup_insert_Some in H as [(<- & <-)|[_ H]]; eauto. }
  constructor; cbn [rd ctxs next_handle]; try done.
  - intros h0 c0 H. destruct (Hget _ _ H) as (c1 & Hc1 & ->). by apply H2.
  - intros h1 h2 c1 c2 G1 G2 E. destruct (Hget _ _ G1) as (d1 & D1 & E1), (Hget _ _ G2) as (d2 & D2 & E2).
    apply (H3 _ _ _ _ D1 D2). congruence.
  - intros k p Hp Hne. apply Hex. by eapply H4.
  - intros b Hb. apply Hex. by apply H5.
Qed.

(** No pipe of the kernel belongs to a block, so nothing is handed over. *)
Lemma handoff_id b r : wf r -> b <> kHWBlockMax -> handoff b (src_pipes r) = src_pipes r.
Proof.
  intros Hwf Hb. unfold handoff. rewrite <- (list_fmap_id (src_pipes r)) at 2.
  apply list_fmap_ext. intros k p Hk. destruct (decide _) as [[E Ho]|]; [|done].
  destruct (wf_pipes r Hwf k p Hk) as (_ & _ & H). rewrite H in E by done. congruence.
Qed.

(** After a purge the block has no pipe. *)
Lemma free_pipes_none b r k p : wf r -> b <> kHWBlockMax ->
  free_pipes b (src_pipes r) !! k = Some p -> hw_block_id p <> b.
Proof.
  intros Hwf Hb Hp. apply free_pipes_lookup in Hp as (q & Hq & [(_ & _ & ->)|(Hn & ->)]); [done|].
  intros E. apply Hn. split; [done|]. destruct (owner q) eqn:Eo; [done|].
  destruct (wf_pipes r Hwf k q Hq) as (_ & _ & H). rewrite H in E by done. congruence.
Qed.

Abbreviation owners w := (owner <$> src_pipes (rd w)).

Lemma block_not_max w h c : wf_world w -> ctxs w !! h = Some c -> ctx_block c <> kHWBlockMax.
Proof. intros Hw Hc. destruct (ww_ctx w Hw h c Hc) as (_ & [->| ->] & _); done. Qed.

Lemma register_step ty m w r w' : wf_world w -> RegisterDisplay ty m w = Ret (r, w') ->
  wf_world w' /\ owners w' = owners w.
Proof.
  intros Hw H. destruct Hw as [H1 H2 H3 H4 H5]. unfold RegisterDisplay, mbind, st_bind, st_gets in H.
  assert (Hreg : forall id, id = kHWPrimary \/ id = kHWHDMI -> is_in_use (rd w) id = false ->
    wf_world (World (set_in_use id true (rd w)) (<[next_handle w := mkContext id 0 m]> (ctxs w))
      (S (next_handle w)) (closed w))).
  { intros id Hid Hu.
    assert (Hnew : ctxs w !! next_handle w = None).
    { destruct (ctxs w !! next_handle w) as [c|] eqn:E; [|done]. apply H2 in E as [? _]. lia. }
    assert (Hex : forall h c, ctxs w !! h = Some c -> <[next_handle w := mkContext id 0 m]> (ctxs w) !! h = Some c).
    { intros h c Hc. rewrite lookup_insert_ne; [done|]. congruence. }
    constructor; cbn [rd ctxs next_handle set_in_use src_pipes is_in_use].
    - by destruct H1.
    - intros h c Hc. apply lookup_insert_Some in Hc as [(<- & <-)|[_ Hc]]; cbn [ctx_block].
      + split_and!; [lia|done|]. by rewrite decide_True.
      + destruct (H2 h c Hc) as (? & ? & ?). split_and!; [lia|done|]. by destruct (decide _).
    - intros h1 h2 c1 c2 G1 G2 E.
      apply lookup_insert_Some in G1 as [(<- & <-)|[_ G1]], G2 as [(<- & <-)|[_ G2]]; cbn [ctx_block] in E; try done.
      + apply H2 in G2 as (_ & _ & G). rewrite <- E, Hu in G. done.
      + apply H2 in G1 as (_ & _ & G). rewrite E, Hu in G. done.
      + by eapply H3.
    - intros k p Hp Hne. destruct (H4 k p Hp Hne) as (h & c & Hc & E). eauto.
    - intros b. destruct (decide (b = id)) as [->|Hb].
      + intros _. exists (next_handle w), (mkContext id 0 m). by rewrite lookup_insert_eq.
      + intros Hb'. destruct (H5 b Hb') as (h & c & Hc & E). eauto. }
  destruct ty; cbn in H.
  - destruct (is_in_use (rd w) kHWPrimary) eqn:E; [by injection H as <- <-|]. injection H as <- <-.
    split; [apply Hreg; auto|done].
  - destruct (is_in_use (rd w) kHWHDMI) eqn:E; [by injection H as <- <-|]. injection H as <- <-.
    split; [apply Hreg; auto|done].
  - by injection H as <- <-.
  - by injection H as <- <-.
Qed.

Lemma purge_step h w w' : wf_world w -> Purge h w = Ret (tt, w') ->
  wf_world w' /\ owners w' = owners w /\ ctxs w' = ctxs w /\ next_handle w' = next_handle w /\
  is_in_use (rd w') = is_in_use (rd w) /\ wf (rd w) /\
  exists c, ctxs w !! h = Some c /\ src_pipes (rd w') = free_pipes (ctx_block c) (src_pipes (rd w)).
Proof.
  intros Hw H. apply st_bind_Ret_inv in H as (c & w1 & Hd & H). apply deref_inv in Hd as [Hc ->].
  injection H as <-. pose proof (free_pipes_evolves (ctx_block c) (rd w) (ww_rd w Hw)) as Hev.
  split_and!; try done.
  - apply (evolves_world (ctx_block c)); eauto.
  - apply Hev.
  - apply Hw.
  - by exists c.
Qed.

Lemma unregister_step h w e w' : wf_world w -> UnregisterDisplay h w = Ret (e, w') ->
  wf_world w' /\ owners w' = owners w.
Proof.
  intros Hw H. apply st_bind_Ret_inv in H as ([] & w1 & Hp & H).
  destruct (purge_step _ _ _ Hw Hp) as (Hw1 & Ho & Ec & En & Eu & Hwf & c & Hc & El).
  apply st_bind_Ret_inv in H as (c' & w2 & Hd & H). apply deref_inv in Hd as [Hc' ->].
  rewrite Ec, Hc in Hc'. injection Hc' as <-. cbn in H. injection H as _ <-.
  split; [|done]. pose proof (block_not_max _ _ _ Hw Hc) as Hb. destruct Hw1 as [H1 H2 H3 H4 H5].
  assert (Hother : forall h1 c1, ctxs w1 !! h1 = Some c1 -> ctx_block c1 <> ctx_block c -> delete h (ctxs w1) !! h1 = Some c1).
  { intros h1 c1 G Hne. rewrite lookup_delete_ne; [done|]. intros ->. rewrite Ec in G. congruence. }
  constructor; cbn [rd ctxs next_handle set_in_use src_pipes is_in_use].
  - by destruct H1.
  - intros h1 c1 G. apply lookup_delete_Some in G as [Hne G]. destruct (H2 _ _ G) as (? & ? & ?).
    split_and!; [done|done|]. rewrite decide_False; [done|]. intros E. apply Hne.
    apply (H3 h h1 c c1); [by rewrite Ec|done|done].
  - intros h1 h2 c1 c2 G1 G2. apply lookup_delete_Some in G1 as [_ G1], G2 as [_ G2]. by eapply H3.
  - intros k p Hk Hne. destruct (H4 k p Hk Hne) as (h1 & c1 & G & E). exists h1, c1. split; [|done].
    apply Hother; [done|]. rewrite E. rewrite El in Hk. by eapply free_pipes_none.
  - intros b. destruct (decide (b = ctx_block c)) as [->|Hne]; [done|].
    intros Hb'. destruct (H5 b Hb') as (h1 & c1 & G & E). exists h1, c1. split; [|done].
    apply Hother; [done|]. congruence.
Qed.

Lemma post_commit_step h ls w e w' : wf_world w -> PostCommit h ls w = Ret (e, w') ->
  wf_world w' /\ owners w' = owners w.
Proof.
  intros Hw H. apply st_bind_Ret_inv in H as (c & w1 & Hd & H). apply deref_inv in Hd as [Hc ->].
  pose proof (block_not_max _ _ _ Hw Hc) as Hb.
  apply st_bind_Ret_inv in H as ([] & w1 & Hh & H).
  assert (w1 = w) as ->.
  { destruct (_ && _); [|by injection Hh as <-]. cbn in Hh. injection Hh as <-.
    rewrite handoff_id by (apply Hw || done). rewrite set_src_pipes_id. by destruct w. }
  apply st_bind_Ret_inv in H as ([] & w2 & Hs & H).
  assert (E2 : wf_world w2 /\ ctxs w2 = ctxs w /\ rd w2 = rd w).
  { destruct (0 <=? _); injection Hs as <-; [|done]. by destruct Hw. }
  destruct E2 as (Hw2 & Ec & Er). cbn in H. injection H as _ <-. split; [|cbn [rd]; by rewrite Er].
  apply (store_world h c); [done|by rewrite Ec|done].
Qed.

Lemma reconfigure_step h m w e w' : wf_world w -> ReconfigureDisplay h m w = Ret (e, w') ->
  wf_world w' /\ owners w' = owners w.
Proof.
  intros Hw H. apply st_bind_Ret_inv in H as (c & w1 & Hd & H). apply deref_inv in Hd as [Hc ->].
  cbn in H. injection H as _ <-. split; [|done]. by apply (store_world h c).
Qed.

(** What a call of [Prepare] does: nothing to the object, or a reservation with
    a valid configuration. *)
Lemma prepare_inv log2f h ls w e ls' w' : Prepare log2f h ls w = Ret ((e, ls'), w') ->
  exists c, ctxs w !! h = Some c /\
  ((e <> kErrorNone /\ w' = w) \/
   exists cfg, config_ok cfg /\
     reserve log2f (ctx_block c) cfg (rd w) = Ret (e, config ls', rd w') /\
     ctxs w' = ctxs w /\ next_handle w' = next_handle w /\ closed w' = closed w).
Proof.
  intros H. apply st_bind_Ret_inv in H as (c & w1 & Hd & H). apply deref_inv in Hd as [Hc ->].
  exists c. split; [done|].
  destruct (hw_layers ls) as [|layer [|]]; [done| |injection H as <- <- <-; by left].
  destruct (decide _); [injection H as <- <- <-; by left|].
  unfold mbind at 1, st_bind at 1, st_gets in H. rewrite st_bind_lift in H.
  destruct (Config (hw_res_info (rd w)) (mixer c) layer (config ls)) as [[e1 c1]| |] eqn:Ec; [|done|done].
  destruct (decide _) as [|E1]; [injection H as <- <- <-; by left|]. apply dec_stable in E1. subst e1.
  rewrite st_bind_lift in H.
  destruct (reserve log2f (ctx_block c) c1 (rd w)) as [[[e2 c2] r2]| |] eqn:Er; [|done|done].
  cbn in H. injection H as <- <- <-. right. exists c1. apply Config_ok in Ec. by split_and!.
Qed.

Lemma prepare_step log2f h ls w r w' : wf_world w -> Prepare log2f h ls w = Ret (r, w') ->
  wf_world w' /\ owners w' = owners w.
Proof.
  intros Hw H. destruct r as [e ls'].
  apply prepare_inv in H as (c & Hc & [[_ ->]|(cfg & Hcfg & Hr & E1 & E2 & E3)]); [done|].
  apply reserve_ok in Hr as [Hev _]; [|apply Hw|by eapply block_not_max|apply Hcfg].
  split; [|apply Hev]. destruct w' as [r' cs n cl]. cbn in *. subst. apply (evolves_world (ctx_block c)); eauto.
Qed.

Lemma step_world log2f w w' : step log2f w w' -> wf_world w -> wf_world w' /\ owners w' = owners w.
Proof.
  intros Hs Hw. destruct Hs.
  - by eapply register_step.
  - by eapply unregister_step.
  - by eapply reconfigure_step.
  - by eapply prepare_step.
  - by eapply post_commit_step.
  - eapply purge_step in H as (? & ? & _); eauto.
Qed.

Lemma reachable_world log2f info w : hw_ok info -> reachable log2f info w -> wf_world w /\
  exists l, fresh (Z.to_nat (num_vig_pipe info)) l /\ num_vig_pipe info + 1 < length l /\
    owners w = owner <$> l.
Proof.
  intros Hok (r & Hr & Hs). destruct (Create_ok info Hok) as (r' & Hr' & Hwf & Hu & Hf & Hlen).
  rewrite Hr in Hr'. injection Hr' as <-.
  remember (World r ∅ 0 []) as w0 eqn:E0.
  assert (H0 : wf_world w0 /\ owners w0 = owner <$> src_pipes r).
  { subst w0. split; [|done]. constructor; cbn; try done.
    - intros k p Hp Hne. by destruct (Hf k p Hp) as (_ & _ & ? & _).
    - by rewrite Hu. }
  clear E0. destruct H0 as [H0 Ho].
  assert (H : wf_world w /\ owners w = owner <$> src_pipes r).
  { induction Hs as [|w1 w2 w3 Hs _ IH]; [done|].
    apply step_world in Hs as [Hw2 E2]; [|done]. apply IH; [done|]. by rewrite E2. }
  destruct H as [Hw Hw']. split; [done|]. by exists (src_pipes r).
Qed.

End ResourceFacts.

Module ResourceProps.
Import Float32 Rect Formats ResourceDefault ResourceFacts.

(** Hardware with one VIG, two RGB and two DMA pipes, and a frame for it. *)
Definition info0 : HWResourceInfo :=
  mkInfo 1 2 2 [mkCaps kPipeTypeVIG 1; mkCaps kPipeTypeRGB 8; mkCaps kPipeTypeRGB 16;
                mkCaps kPipeTypeDMA 64; mkCaps kPipeTypeDMA 128] 20 4 2560 true false true.
Definition mixer0 : HWMixerAttributes := mkMixer 1080 1920 1080 kFormatRGB101010.
Definition frame0 : HWLayers :=
  mkLayers [mkLayer (RectProps.R 0 0 1080 1920) (RectProps.R 0 0 1080 1920) kFormatRGBA8888 false
              kCompositionGPUTarget] (mkConfig HWPipeInfo0 HWPipeInfo0) (-1).
Definition log2f0 (f : float) : float := f.

Definition pipes0 (b : HWBlockType) : list SourcePipe :=
  [mkPipe kPipeTypeVIG kPipeOwnerUserMode 1 0 kHWBlockMax 0;
   mkPipe kPipeTypeRGB kPipeOwnerKernelMode 8 1 kHWBlockMax 1;
   mkPipe kPipeTypeRGB kPipeOwnerKernelMode 16 2 kHWBlockMax 2;
   mkPipe kPipeTypeDMA kPipeOwnerUserMode 64 3 b 3;
   mkPipe kPipeTypeDMA kPipeOwnerUserMode 128 4 kHWBlockMax 4].
Definition r0 : t := mkRD info0 (fun _ => false) (pipes0 kHWBlockMax) 5.
Definition w0 : world := World r0 ∅ 0 [].
Definition w1 : world :=
  World (set_in_use kHWPrimary true r0) (<[0%nat := mkContext kHWPrimary 0 mixer0]> ∅) 1 [].

Lemma info0_ok : hw_ok info0.
Proof.
  split_and!; [|vm_compute; discriminate|vm_compute; discriminate|vm_compute; discriminate
    |vm_compute; reflexivity|vm_compute; discriminate].
  exists [1], [8; 16], [64; 128], []. by split_and!.
Defined.

Lemma w1_reachable : reachable log2f0 info0 w1.
Proof.
  exists r0. split; [reflexivity|]. apply rtc_once.
  by apply (step_register log2f0 kPrimary mixer0 w0 (kErrorNone, Some 0%nat)).
Defined.

(** In every state reached by calls of the clients, two registered displays
    never share a hardware block, a block is marked in use exactly when a
    display is registered for it, and every pipe that is assigned belongs to a
    display that is still registered: unregistering leaks no pipe. *)
Lemma displays_exclusive log2f info w : hw_ok info -> reachable log2f info w ->
  (forall h1 h2 c1 c2, ctxs w !! h1 = Some c1 -> ctxs w !! h2 = Some c2 ->
     ctx_block c1 = ctx_block c2 -> h1 = h2) /\
  (forall b, is_in_use (rd w) b = true <-> exists h c, ctxs w !! h = Some c /\ ctx_block c = b) /\
  (forall k p, src_pipes (rd w) !! k = Some p -> hw_block_id p <> kHWBlockMax ->
     exists h c, ctxs w !! h = Some c /\ ctx_block c = hw_block_id p).
Proof.
  intros Hok H. apply (reachable_world _ _ _ Hok) in H as [[H1 H2 H3 H4 H5] _]. split_and!; [done| |done].
  intros b. split; [apply H5|]. intros (h & c & Hc & <-). by apply H2 in Hc as (_ & _ & ?).
Qed.

Lemma displays_exclusive_witness :
  is_in_use (rd w1) kHWPrimary = true <-> exists h c, ctxs w1 !! h = Some c /\ ctx_block c = kHWPrimary.
Proof. apply (displays_exclusive log2f0 info0 w1 info0_ok w1_reachable). Defined.

(** C2: On hardware that lists its pipes as the object expects them (VIG, then RGB,
    then DMA, as many of each as counted, and at least two from the first RGB pipe on;
    [hw_ok]), in every state reached by calls of the clients: a Prepare that succeeds
    gives the layer a pipe that is reserved for the display and owned by user mode, and
    a second one, different and of lower priority, for a layer that is split; the pipes
    of other displays and of the kernel are not touched, also when it fails. *)
Theorem prepare_reserves log2f info w h ls e ls' w' :
  hw_ok info -> reachable log2f info w -> Prepare log2f h ls w = Ret ((e, ls'), w') ->
  exists c, ctxs w !! h = Some c /\ others_kept (ctx_block c) (rd w) (rd w') /\
    (e = kErrorNone -> reserved (ctx_block c) (config ls') (rd w')).
Proof.
  intros Hhw Hr H. apply (reachable_world _ _ _ Hhw) in Hr as [Hw _].
  apply prepare_inv in H as (c & Hc & H). exists c. split; [done|].
  destruct H as [[He ->]|(cfg & Hcfg & Hres & _)]; [by split; [intros k p|]|].
  apply reserve_ok in Hres as [Hev Hok]; [|apply Hw|by eapply block_not_max|apply Hcfg].
  split; [apply Hev|]. intros He. by apply Hok.
Qed.

Lemma prepare_reserves_witness :
  exists c, ctxs w1 !! 0%nat = Some c /\ others_kept (ctx_block c) (rd w1)
      (mkRD info0 (is_in_use (rd w1)) (pipes0 kHWPrimary) 5) /\
    (kErrorNone = kErrorNone ->
     reserved (ctx_block c) (mkConfig (mkPipeInfo 64 (RectProps.R 0 0 1080 1920) (RectProps.R 0 0 1080 1920) 0 0 0 true) HWPipeInfo0)
       (mkRD info0 (is_in_use (rd w1)) (pipes0 kHWPrimary) 5)).
Proof.
  apply (prepare_reserves log2f0 info0 w1 0 frame0 kErrorNone
    (mkLayers (hw_layers frame0) (mkConfig (mkPipeInfo 64 (RectProps.R 0 0 1080 1920)
       (RectProps.R 0 0 1080 1920) 0 0 0 true) HWPipeInfo0) (-1))
    (World (mkRD info0 (is_in_use (rd w1)) (pipes0 kHWPrimary) 5) (ctxs w1) 1 [])); [apply info0_ok|apply w1_reachable|].
  vm_compute. reflexivity.
Defined.

(** When Config accepts a layer, the left pipe is used and has valid source
    and destination regions, and a right pipe that is used has valid regions
    that begin exactly where the left ones end. *)
Lemma config_touching info m l c c' : Config info m l c = Ret (kErrorNone, c') -> config_ok c'.
Proof. apply Config_ok. Qed.

Definition wide : Layer :=
  mkLayer (RectProps.R 0 0 3840 2160) (RectProps.R 0 0 3840 2160) kFormatRGBA8888 false kCompositionGPUTarget.

Lemma config_touching_witness :
  config_ok (mkConfig
    (mkPipeInfo 0 (RectProps.R 0 0 1920 2160) (RectProps.R 0 0 1920 2160) 0 0 0 true)
    (mkPipeInfo 0 (RectProps.R 1920 0 3840 2160) (RectProps.R 1920 0 3840 2160) 0 0 0 true)).
Proof.
  apply (config_touching info0 mixer0 wide (mkConfig HWPipeInfo0 HWPipeInfo0)). vm_compute. reflexivity.
Defined.

(** The two pipes marked as the kernel's at start stay the kernel's and
    unassigned in every reachable state: the handover of the splash screen's
    pipes after the first frame never happens. *)
Lemma splash_never_released log2f info w k : hw_ok info -> reachable log2f info w ->
  k = Z.to_nat (num_vig_pipe info) \/ k = S (Z.to_nat (num_vig_pipe info)) ->
  exists p, src_pipes (rd w) !! k = Some p /\ owner p = kPipeOwnerKernelMode /\ hw_block_id p = kHWBlockMax.
Proof.
  intros Hok H Hk. apply (reachable_world _ _ _ Hok) in H as [Hw (l & Hf & Hlen & Ho)].
  destruct (lookup_lt_is_Some_2 l k) as [q Hq]; [destruct Hok as (_ & ? & _); lia|].
  assert (Eo : (owner <$> src_pipes (rd w)) !! k = Some (owner q)) by (by rewrite Ho, list_lookup_fmap, Hq).
  rewrite list_lookup_fmap in Eo. destruct (src_pipes (rd w) !! k) as [p|] eqn:Hp; [|done].
  simpl in Eo. injection Eo as Eo. exists p. destruct (Hf k q Hq) as (_ & _ & _ & Hker).
  assert (Hp' : owner p = kPipeOwnerKernelMode) by (rewrite Eo; by apply Hker).
  split_and!; [done|done|]. by apply (wf_pipes _ (ww_rd w Hw) k p Hp).
Qed.

Lemma splash_never_released_witness :
  exists p, src_pipes (rd w1) !! 1%nat = Some p /\ owner p = kPipeOwnerKernelMode /\ hw_block_id p = kHWBlockMax.
Proof. apply (splash_never_released log2f0 info0 w1 1 info0_ok w1_reachable). left. reflexivity. Defined.

(** Enlarging a layer by a pixel or more is undefined behaviour: the check
    for a downscaling by one pixel converts a negative difference of widths to
    an unsigned integer. *)
Lemma upscaling_undefined crop dst n : IsValid crop = true -> IsValid dst = true ->
  trunc (fsub (fsub (right crop) (left crop)) (fsub (right dst) (left dst))) = Some n -> n < 0 ->
  ValidateDimensions crop dst = Undef.
Proof.
  intros Hc Hd Ht Hn. unfold ValidateDimensions. rewrite Hc, Hd. cbn [negb].
  unfold UINT32, cast_u. rewrite Ht. by rewrite (proj2 (Z.leb_gt 0 n)) by done.
Qed.

Lemma upscaling_undefined_witness :
  ValidateDimensions (RectProps.R 0 0 540 960) (RectProps.R 0 0 1080 1920) = Undef.
Proof. apply (upscaling_undefined _ _ (-540)); vm_compute; reflexivity. Defined.

(** When the hardware reports no pipes, CreateResourceDefault reports
    success and gives out a pointer to the object it has deleted. *)
Lemma create_dangling info :
  num_vig_pipe info = 0 -> num_rgb_pipe info = 0 -> num_dma_pipe info = 0 ->
  CreateResourceDefault info = Ret (kErrorNone, PDeleted).
Proof.
  intros Hv Hr Hd. unfold CreateResourceDefault, Init. cbn [ResourceDefault.ResourceDefault hw_res_info].
  rewrite Hv, Hr, Hd. done.
Qed.

Lemma create_dangling_witness :
  CreateResourceDefault (mkInfo 0 0 0 [] 1 1 2048 false false false) = Ret (kErrorNone, PDeleted).
Proof. apply create_dangling; reflexivity. Defined.

End ResourceProps.
