(* ===== verification/MetaData.v ===== *)
(** Buffer metadata: src/hardware/qcom-caf/display/libqdutils/qdMetaData.cpp,
    with the handle of src/hardware/qcom-caf/display/gralloc/gr_priv_handle.h.

    A handle names its metadata by a file descriptor and maps it on first use.
    Two handles, of one or of several clients, may name the same memory; the
    state has the handles, the memory behind each descriptor and the mappings,
    so that a write through one handle is seen through the others.  A [void*]
    parameter is a tagged value; reading it at another type than it was written
    at is undefined.  mmap is a parameter: it chooses the address. *)
From S2P Require Import Prelude.
#[local] Open Scope Z_scope.

Module MetaData.

Definition EINVAL : Z := 22.

(** The sizes the compiler gives the handle structures. *)
Class HandleAbi := {
  sizeof_native_handle : Z;
  sizeof_private_handle : Z
}.

Definition kNumFds : Z := 2.
(** The character constant 'gmsm'. *)
Definition kMagic : Z := 0x676d736d.
Definition NumInts `{HandleAbi} : Z :=
  (sizeof_private_handle - sizeof_native_handle) / 4 - kNumFds.

Record private_handle_t := mkHandle {
  version : Z; numFds : Z; numInts : Z;
  fd : Z; fd_metadata : Z;
  magic : Z; flags : Z;
  width : Z; height : Z;
  unaligned_width : Z; unaligned_height : Z;
  format : Z; buffer_type : Z;
  size : Z; offset : Z; offset_metadata : Z;
  base : Z; base_metadata : Z; gpuaddr : Z; id : Z;
  producer_usage : Z; consumer_usage : Z;
  layer_count : Z
}.

(** The constructor; [usage] defaults are given by the caller. *)
Definition new_handle `{HandleAbi} (fd meta_fd flags width height uw uh format buf_type size
    prod_usage cons_usage : Z) : private_handle_t := {|
  version := sizeof_native_handle; numFds := kNumFds; numInts := NumInts;
  fd := fd; fd_metadata := meta_fd; magic := kMagic; flags := flags;
  width := width; height := height; unaligned_width := uw; unaligned_height := uh;
  format := format; buffer_type := buf_type; size := size; offset := 0; offset_metadata := 0;
  base := 0; base_metadata := 0; gpuaddr := 0; id := 0;
  producer_usage := prod_usage; consumer_usage := cons_usage; layer_count := 1
|}.

Definition set_base_metadata (a : Z) (h : private_handle_t) : private_handle_t := {|
  version := version h; numFds := numFds h; numInts := numInts h;
  fd := fd h; fd_metadata := fd_metadata h; magic := magic h; flags := flags h;
  width := width h; height := height h;
  unaligned_width := unaligned_width h; unaligned_height := unaligned_height h;
  format := format h; buffer_type := buffer_type h; size := size h; offset := offset h;
  offset_metadata := offset_metadata h; base := base h; base_metadata := a;
  gpuaddr := gpuaddr h; id := id h; producer_usage := producer_usage h;
  consumer_usage := consumer_usage h; layer_count := layer_count h
|}.

Inductive ColorSpace_t := ITU_R_601 | ITU_R_601_FR | ITU_R_709 | ITU_R_2020 | ITU_R_2020_FR.
Inductive IGC_t := IGC_NotSpecified | IGC_sRGB.
Record BufferDim_t := mkDim { sliceWidth : Z; sliceHeight : Z }.
Record S3DGpuComp_t := mkS3D { displayId : Z; s3dMode : Z }.

(** [color] and [ubwcCRStats] are copied whole: they are kept as their words. *)
Record MetaData_t := mkMeta {
  operation : Z;
  interlaced : Z;
  bufferDim : BufferDim_t;
  refreshrate : Z;
  colorSpace : ColorSpace_t;
  igc : IGC_t;
  mapSecureBuffer : Z;
  s3dFormat : Z;
  linearFormat : Z;
  isSingleBufferMode : Z;
  s3dComp : S3DGpuComp_t;
  vtTimeStamp : Z;
  color : list Z;
  ubwcCRStats : list Z
}.

Inductive DispParamType :=
| SET_VT_TIMESTAMP | COLOR_METADATA | PP_PARAM_INTERLACED | UNUSED2 | UNUSED3 | UNUSED4
| SET_UBWC_CR_STATS_INFO | UPDATE_BUFFER_GEOMETRY | UPDATE_REFRESH_RATE | UPDATE_COLOR_SPACE
| MAP_SECURE_BUFFER | S3D_FORMAT | LINEAR_FORMAT | SET_IGC | SET_SINGLE_BUFFER_MODE
| SET_S3D_COMP.
#[global] Instance DispParamType_eq_dec : EqDecision DispParamType.
Proof. solve_decision. Defined.

(** The bit of the enumerator in [operation]. *)
Definition param_bit (t : DispParamType) : Z :=
  match t with
  | SET_VT_TIMESTAMP => 0 | COLOR_METADATA => 1 | PP_PARAM_INTERLACED => 2
  | UNUSED2 => 3 | UNUSED3 => 4 | UNUSED4 => 5 | SET_UBWC_CR_STATS_INFO => 6
  | UPDATE_BUFFER_GEOMETRY => 7 | UPDATE_REFRESH_RATE => 8 | UPDATE_COLOR_SPACE => 9
  | MAP_SECURE_BUFFER => 10 | S3D_FORMAT => 11 | LINEAR_FORMAT => 12 | SET_IGC => 13
  | SET_SINGLE_BUFFER_MODE => 14 | SET_S3D_COMP => 15
  end.
Definition param_code (t : DispParamType) : Z := 2 ^ param_bit t.

Inductive DispFetchParamType :=
| GET_VT_TIMESTAMP | GET_COLOR_METADATA | GET_PP_PARAM_INTERLACED | GET_UBWC_CR_STATS_INFO
| GET_BUFFER_GEOMETRY | GET_REFRESH_RATE | GET_COLOR_SPACE | GET_MAP_SECURE_BUFFER
| GET_S3D_FORMAT | GET_LINEAR_FORMAT | GET_IGC | GET_SINGLE_BUFFER_MODE | GET_S3D_COMP.

(** What a [void*] parameter points to. *)
Inductive ParamVal :=
| VInt32 (x : Z) | VUint32 (x : Z) | VUint64 (x : Z) | VFloat (bits : Z)
| VDim (d : BufferDim_t) | VColorSpace (c : ColorSpace_t) | VIgc (g : IGC_t)
| VS3D (s : S3DGpuComp_t) | VColor (c : list Z).

Definition set_operation (op : Z) (d : MetaData_t) : MetaData_t := {|
  operation := op; interlaced := interlaced d; bufferDim := bufferDim d;
  refreshrate := refreshrate d; colorSpace := colorSpace d; igc := igc d;
  mapSecureBuffer := mapSecureBuffer d; s3dFormat := s3dFormat d;
  linearFormat := linearFormat d; isSingleBufferMode := isSingleBufferMode d;
  s3dComp := s3dComp d; vtTimeStamp := vtTimeStamp d; color := color d;
  ubwcCRStats := ubwcCRStats d
|}.

(** [data->operation |= t] and [data->operation &= ~t]. *)
Definition op_set (t : DispParamType) (d : MetaData_t) : MetaData_t :=
  set_operation (Z.lor (operation d) (param_code t)) d.
Definition op_reset (t : DispParamType) (d : MetaData_t) : MetaData_t :=
  set_operation (Z.land (operation d) (Z.lnot (param_code t))) d.
Definition op_has (t : DispParamType) (d : MetaData_t) : bool :=
  negb (Z.land (operation d) (param_code t) =? 0).

(** The switch of setMetaDataVa. *)
Definition store_param (t : DispParamType) (v : ParamVal) (d : MetaData_t) : outcome MetaData_t :=
  match d with
  | mkMeta op il dim rr cs ig ms s3 lf sb s3c vt co ub =>
    match t, v with
    | PP_PARAM_INTERLACED, VInt32 x => Ret (mkMeta op x dim rr cs ig ms s3 lf sb s3c vt co ub)
    | UPDATE_BUFFER_GEOMETRY, VDim x => Ret (mkMeta op il x rr cs ig ms s3 lf sb s3c vt co ub)
    | UPDATE_REFRESH_RATE, VFloat x => Ret (mkMeta op il dim x cs ig ms s3 lf sb s3c vt co ub)
    | UPDATE_COLOR_SPACE, VColorSpace x => Ret (mkMeta op il dim rr x ig ms s3 lf sb s3c vt co ub)
    | MAP_SECURE_BUFFER, VInt32 x => Ret (mkMeta op il dim rr cs ig x s3 lf sb s3c vt co ub)
    | S3D_FORMAT, VUint32 x => Ret (mkMeta op il dim rr cs ig ms x lf sb s3c vt co ub)
    | LINEAR_FORMAT, VUint32 x => Ret (mkMeta op il dim rr cs ig ms s3 x sb s3c vt co ub)
    | SET_IGC, VIgc x => Ret (mkMeta op il dim rr cs x ms s3 lf sb s3c vt co ub)
    | SET_SINGLE_BUFFER_MODE, VUint32 x => Ret (mkMeta op il dim rr cs ig ms s3 lf x s3c vt co ub)
    | SET_S3D_COMP, VS3D x => Ret (mkMeta op il dim rr cs ig ms s3 lf sb x vt co ub)
    | SET_VT_TIMESTAMP, VUint64 x => Ret (mkMeta op il dim rr cs ig ms s3 lf sb s3c x co ub)
    | COLOR_METADATA, VColor x => Ret (mkMeta op il dim rr cs ig ms s3 lf sb s3c vt x ub)
    | (UNUSED2 | UNUSED3 | UNUSED4 | SET_UBWC_CR_STATS_INFO), _ => Ret d
    | _, _ => Undef
    end
  end.

(** * The state *)
Record World := mkWorld {
  handles : gmap Z private_handle_t;   (* the handles, by address *)
  fd_buf : gmap Z Z;                   (* the memory a descriptor names *)
  contents : gmap Z MetaData_t;        (* the metadata in that memory *)
  mapped : gmap Z Z                    (* the memory mapped at an address *)
}.

(** The address mmap chooses, [None] for MAP_FAILED. *)
Class Mmap := mmap_addr : World -> Z -> option Z.

(** What POSIX promises of a mapping the system can make: the address is not
    null and no other mapping is there. *)
Class MmapOk `{Mmap} : Prop := mmap_ok : forall w fd b, fd_buf w !! fd = Some b ->
  exists a, mmap_addr w fd = Some a /\ a <> 0 /\ mapped w !! a = None.

Abbreviation M := (St World).

Section Ops.
Context `{HandleAbi} `{Mmap}.

Definition get_handle (p : Z) : M private_handle_t := fun w =>
  match handles w !! p with Some h => Ret (h, w) | None => Undef end.

Definition put_handle (p : Z) (h : private_handle_t) : M unit :=
  st_modify (fun w => mkWorld (<[p := h]> (handles w)) (fd_buf w) (contents w) (mapped w)).

(** The metadata at an address. *)
Definition load (a : Z) : M MetaData_t := fun w =>
  match mapped w !! a ≫= (fun b => contents w !! b) with Some d => Ret (d, w) | None => Undef end.

Definition store (a : Z) (d : MetaData_t) : M unit := fun w =>
  match mapped w !! a with
  | Some b => Ret (tt, mkWorld (handles w) (fd_buf w) (<[b := d]> (contents w)) (mapped w))
  | None => Undef
  end.

Definition mmap (fd : Z) : M (option Z) := fun w =>
  match fd_buf w !! fd, mmap_addr w fd with
  | Some b, Some a => Ret (Some a, mkWorld (handles w) (fd_buf w) (contents w) (<[a := b]> (mapped w)))
  | _, _ => Ret (None, w)
  end.

(** private_handle_t::validate *)
Definition validate (p : Z) : M Z :=
  if p =? 0 then mret (- EINVAL)
  else h ← get_handle p;
  if negb (version h =? sizeof_native_handle) || negb (numInts h =? NumInts)
     || negb (numFds h =? kNumFds) then mret (- EINVAL)
  else if negb (magic h =? kMagic) then mret (- EINVAL)
  else mret 0.

Definition validateAndMap (p : Z) : M Z :=
  e ← validate p;
  if negb (e =? 0) then mret (-1)
  else h ← get_handle p;
  if fd_metadata h =? -1 then mret (-1)
  else if base_metadata h =? 0 then
    r ← mmap (fd_metadata h);
    match r with
    | None => mret (-1)
    | Some a => _ ← put_handle p (set_base_metadata a h); mret 0
    end
  else mret 0.

Definition setMetaDataVa (data : Z) (t : DispParamType) (param : option ParamVal) : M Z :=
  if data =? 0 then mret (- EINVAL)
  else d ← load data;
  match param with
  | None => _ ← store data (op_reset t d); mret 0
  | Some v => d' ← st_lift (store_param t v (op_set t d)); _ ← store data d'; mret 0
  end.

(** [handle->base_metadata] after a successful validateAndMap. *)
Definition base_of (p : Z) : M Z := h ← get_handle p; mret (base_metadata h).

Definition setMetaData (p : Z) (t : DispParamType) (param : option ParamVal) : M Z :=
  e ← validateAndMap p;
  if negb (e =? 0) then mret e else a ← base_of p; setMetaDataVa a t param.

(** The switch of clearMetaDataVa. *)
Definition clear_param (t : DispParamType) (d : MetaData_t) : MetaData_t :=
  match t, d with
  | SET_S3D_COMP, mkMeta op il dim rr cs ig ms s3 lf sb s3c vt co ub =>
      mkMeta op il dim rr cs ig ms s3 lf sb (mkS3D (-1) 0) vt co ub
  | _, _ => d
  end.

Definition clearMetaDataVa (data : Z) (t : DispParamType) : M Z :=
  if data =? 0 then mret (- EINVAL)
  else d ← load data; _ ← store data (clear_param t (op_reset t d)); mret 0.

Definition clearMetaData (p : Z) (t : DispParamType) : M Z :=
  e ← validateAndMap p;
  if negb (e =? 0) then mret e else a ← base_of p; clearMetaDataVa a t.

(** The switch of getMetaDataVa: the value written to the parameter, if the
    operation is present; [None] leaves the parameter and returns -EINVAL. *)
Definition fetch (t : DispFetchParamType) (d : MetaData_t) : option ParamVal :=
  match t with
  | GET_PP_PARAM_INTERLACED =>
      if op_has PP_PARAM_INTERLACED d then Some (VInt32 (interlaced d)) else None
  | GET_BUFFER_GEOMETRY =>
      if op_has UPDATE_BUFFER_GEOMETRY d then Some (VDim (bufferDim d)) else None
  | GET_REFRESH_RATE =>
      if op_has UPDATE_REFRESH_RATE d then Some (VFloat (refreshrate d)) else None
  | GET_COLOR_SPACE =>
      if op_has UPDATE_COLOR_SPACE d then Some (VColorSpace (colorSpace d)) else None
  | GET_MAP_SECURE_BUFFER =>
      if op_has MAP_SECURE_BUFFER d then Some (VInt32 (mapSecureBuffer d)) else None
  | GET_S3D_FORMAT => if op_has S3D_FORMAT d then Some (VUint32 (s3dFormat d)) else None
  | GET_LINEAR_FORMAT =>
      if op_has LINEAR_FORMAT d then Some (VUint32 (linearFormat d)) else None
  | GET_IGC => if op_has SET_IGC d then Some (VIgc (igc d)) else None
  | GET_SINGLE_BUFFER_MODE =>
      if op_has SET_SINGLE_BUFFER_MODE d then Some (VUint32 (isSingleBufferMode d)) else None
  | GET_S3D_COMP => if op_has SET_S3D_COMP d then Some (VS3D (s3dComp d)) else None
  | GET_VT_TIMESTAMP =>
      if op_has SET_VT_TIMESTAMP d then Some (VUint64 (vtTimeStamp d)) else None
  | GET_COLOR_METADATA => if op_has COLOR_METADATA d then Some (VColor (color d)) else None
  | GET_UBWC_CR_STATS_INFO => None
  end.

(** The return value and what was written to the parameter. *)
Definition getMetaDataVa (data : Z) (t : DispFetchParamType) : M (Z * option ParamVal) :=
  if data =? 0 then mret (- EINVAL, None)
  else d ← load data;
  match fetch t d with
  | Some v => mret (0, Some v)
  | None => mret (- EINVAL, None)
  end.

Definition getMetaData (p : Z) (t : DispFetchParamType) : M (Z * option ParamVal) :=
  e ← validateAndMap p;
  if negb (e =? 0) then mret (e, None) else a ← base_of p; getMetaDataVa a t.

Definition copyMetaData (src dst : Z) : M Z :=
  e ← validateAndMap src;
  if negb (e =? 0) then mret e
  else e ← validateAndMap dst;
  if negb (e =? 0) then mret e
  else s ← base_of src; d ← base_of dst;
  x ← load s; _ ← store d x; mret 0.

Definition copyMetaDataVaToHandle (src_data dst : Z) : M Z :=
  if src_data =? 0 then mret (- EINVAL)
  else e ← validateAndMap dst;
  if negb (e =? 0) then mret e
  else d ← base_of dst; x ← load src_data; _ ← store d x; mret 0.

Definition copyMetaDataHandleToVa (src dst_data : Z) : M Z :=
  if dst_data =? 0 then mret (- EINVAL)
  else e ← validateAndMap src;
  if negb (e =? 0) then mret e
  else s ← base_of src; x ← load s; _ ← store dst_data x; mret 0.

Definition copyMetaDataVaToVa (src_data dst_data : Z) : M Z :=
  if src_data =? 0 then mret (- EINVAL)
  else if dst_data =? 0 then mret (- EINVAL)
  else x ← load src_data; _ ← store dst_data x; mret 0.

End Ops.
End MetaData.

(** * The abstract metadata store

    For each buffer a partial map from parameters to values.  The handles are
    only names of buffers: mapping, bits and structure are gone. *)
Module MetaSpec.
Import MetaData.

(** The parameter a query asks for. *)
Definition param_of (t : DispFetchParamType) : DispParamType :=
  match t with
  | GET_VT_TIMESTAMP => SET_VT_TIMESTAMP | GET_COLOR_METADATA => COLOR_METADATA
  | GET_PP_PARAM_INTERLACED => PP_PARAM_INTERLACED
  | GET_UBWC_CR_STATS_INFO => SET_UBWC_CR_STATS_INFO
  | GET_BUFFER_GEOMETRY => UPDATE_BUFFER_GEOMETRY | GET_REFRESH_RATE => UPDATE_REFRESH_RATE
  | GET_COLOR_SPACE => UPDATE_COLOR_SPACE | GET_MAP_SECURE_BUFFER => MAP_SECURE_BUFFER
  | GET_S3D_FORMAT => S3D_FORMAT | GET_LINEAR_FORMAT => LINEAR_FORMAT | GET_IGC => SET_IGC
  | GET_SINGLE_BUFFER_MODE => SET_SINGLE_BUFFER_MODE | GET_S3D_COMP => SET_S3D_COMP
  end.

(** The parameters that are stored at all. *)
Definition stored (t : DispParamType) : bool :=
  match t with UNUSED2 | UNUSED3 | UNUSED4 | SET_UBWC_CR_STATS_INFO => false | _ => true end.

(** The value has the type the parameter is stored at. *)
Definition typed (t : DispParamType) (v : ParamVal) : bool :=
  match t, v with
  | PP_PARAM_INTERLACED, VInt32 _ | UPDATE_BUFFER_GEOMETRY, VDim _
  | UPDATE_REFRESH_RATE, VFloat _ | UPDATE_COLOR_SPACE, VColorSpace _
  | MAP_SECURE_BUFFER, VInt32 _ | S3D_FORMAT, VUint32 _ | LINEAR_FORMAT, VUint32 _
  | SET_IGC, VIgc _ | SET_SINGLE_BUFFER_MODE, VUint32 _ | SET_S3D_COMP, VS3D _
  | SET_VT_TIMESTAMP, VUint64 _ | COLOR_METADATA, VColor _ => true
  | (UNUSED2 | UNUSED3 | UNUSED4 | SET_UBWC_CR_STATS_INFO), _ => true
  | _, _ => false
  end.

(** Calls of the interface on handles. *)
Inductive Op :=
| OpSet (p : Z) (t : DispParamType) (v : ParamVal)
| OpReset (p : Z) (t : DispParamType)
| OpClear (p : Z) (t : DispParamType)
| OpGet (p : Z) (t : DispFetchParamType)
| OpCopy (src dst : Z).

Definition Answer : Type := Z * option ParamVal.

Definition exec `{HandleAbi} `{Mmap} (op : Op) : M Answer :=
  match op with
  | OpSet p t v => r ← setMetaData p t (Some v); mret (r, None)
  | OpReset p t => r ← setMetaData p t None; mret (r, None)
  | OpClear p t => r ← clearMetaData p t; mret (r, None)
  | OpGet p t => getMetaData p t
  | OpCopy s d => r ← copyMetaData s d; mret (r, None)
  end.

Fixpoint run `{HandleAbi} `{Mmap} (ops : list Op) : M (list Answer) :=
  match ops with
  | [] => mret []
  | op :: ops => a ← exec op; l ← run ops; mret (a :: l)
  end.

Definition Store : Type := Z -> DispFetchParamType -> option ParamVal.

Definition spec_put (b : Z) (t : DispParamType) (v : option ParamVal) (s : Store) : Store :=
  fun b' f => if bool_decide (b' = b) && bool_decide (param_of f = t) then v else s b' f.

(** One call on the abstract store; [buf] says which buffer a handle names. *)
Definition spec_step (buf : Z -> Z) (op : Op) (s : Store) : Answer * Store :=
  match op with
  | OpSet p t v => ((0, None), if stored t then spec_put (buf p) t (Some v) s else s)
  | OpReset p t | OpClear p t => ((0, None), spec_put (buf p) t None s)
  | OpGet p f => (match s (buf p) f with Some v => (0, Some v) | None => (- EINVAL, None) end, s)
  | OpCopy x y => ((0, None), fun b f => if bool_decide (b = buf y) then s (buf x) f else s b f)
  end.

Fixpoint spec_run (buf : Z -> Z) (ops : list Op) (s : Store) : list Answer * Store :=
  match ops with
  | [] => ([], s)
  | op :: ops =>
      let '(a, s') := spec_step buf op s in
      let '(l, s'') := spec_run buf ops s' in (a :: l, s'')
  end.

(** A call uses handles of [hs] and values of the right type. *)
Definition op_ok (hs : gset Z) (op : Op) : Prop :=
  match op with
  | OpSet p t v => p ∈ hs /\ typed t v = true
  | OpReset p _ | OpClear p _ | OpGet p _ => p ∈ hs
  | OpCopy x y => x ∈ hs /\ y ∈ hs
  end.

(** The handles of [hs] are valid, each names the metadata [buf] says, and one
    that is mapped is mapped to it. *)
Definition handle_ok `{HandleAbi} (w : World) (b : Z) (h : private_handle_t) : Prop :=
  (version h = sizeof_native_handle /\ numInts h = NumInts /\ numFds h = kNumFds /\
   magic h = kMagic) /\
  fd_metadata h <> -1 /\ fd_buf w !! fd_metadata h = Some b /\
  (base_metadata h <> 0 -> mapped w !! base_metadata h = Some b).
Definition world_ok `{HandleAbi} (hs : gset Z) (buf : Z -> Z) (w : World) : Prop :=
  forall p, p ∈ hs -> p <> 0 /\ is_Some (contents w !! buf p) /\
    exists h, handles w !! p = Some h /\ handle_ok w (buf p) h.

(** The abstract store of a state. *)
Definition view (w : World) : Store := fun b f => contents w !! b ≫= fetch f.

End MetaSpec.

Module MetaFacts.
Import MetaData MetaSpec.

Lemma land_pow2_testbit x k : 0 <= k -> negb (Z.land x (2 ^ k) =? 0) = Z.testbit x k.
Proof.
  intros Hk. destruct (Z.testbit x k) eqn:E.
  - apply negb_true_iff, Z.eqb_neq. intros E0.
    assert (T : Z.testbit (Z.land x (2 ^ k)) k = true)
      by (by rewrite Z.land_spec, E, Z.pow2_bits_true).
    by rewrite E0, Z.bits_0 in T.
  - apply negb_false_iff, Z.eqb_eq, Z.bits_inj'. intros i Hi.
    rewrite Z.land_spec, Z.bits_0, Z.pow2_bits_eqb by done.
    destruct (Z.eqb_spec k i); subst; [by rewrite E|apply andb_false_r].
Qed.

Lemma param_bit_nonneg t : 0 <= param_bit t.
Proof. by destruct t. Qed.

Lemma param_bit_eqb t t' : (param_bit t =? param_bit t') = bool_decide (t' = t).
Proof. by destruct t, t'. Qed.

Lemma op_has_testbit t d : op_has t d = Z.testbit (operation d) (param_bit t).
Proof. apply land_pow2_testbit, param_bit_nonneg. Qed.

Lemma op_has_set t t' d : op_has t' (op_set t d) = bool_decide (t' = t) || op_has t' d.
Proof.
  rewrite !op_has_testbit. unfold op_set, set_operation, param_code. cbn [operation].
  rewrite Z.lor_spec, Z.pow2_bits_eqb by apply param_bit_nonneg.
  rewrite param_bit_eqb. apply orb_comm.
Qed.

Lemma op_has_reset t t' d : op_has t' (op_reset t d) = negb (bool_decide (t' = t)) && op_has t' d.
Proof.
  rewrite !op_has_testbit. unfold op_reset, set_operation, param_code. cbn [operation].
  rewrite Z.land_spec, Z.lnot_spec, Z.pow2_bits_eqb by apply param_bit_nonneg.
  rewrite param_bit_eqb. apply andb_comm.
Qed.

(** The value a query reads when its bit is set. *)
Definition field (f : DispFetchParamType) (d : MetaData_t) : option ParamVal :=
  match f with
  | GET_PP_PARAM_INTERLACED => Some (VInt32 (interlaced d))
  | GET_BUFFER_GEOMETRY => Some (VDim (bufferDim d))
  | GET_REFRESH_RATE => Some (VFloat (refreshrate d))
  | GET_COLOR_SPACE => Some (VColorSpace (colorSpace d))
  | GET_MAP_SECURE_BUFFER => Some (VInt32 (mapSecureBuffer d))
  | GET_S3D_FORMAT => Some (VUint32 (s3dFormat d))
  | GET_LINEAR_FORMAT => Some (VUint32 (linearFormat d))
  | GET_IGC => Some (VIgc (igc d))
  | GET_SINGLE_BUFFER_MODE => Some (VUint32 (isSingleBufferMode d))
  | GET_S3D_COMP => Some (VS3D (s3dComp d))
  | GET_VT_TIMESTAMP => Some (VUint64 (vtTimeStamp d))
  | GET_COLOR_METADATA => Some (VColor (color d))
  | GET_UBWC_CR_STATS_INFO => None
  end.

Lemma fetch_field f d : fetch f d = if op_has (param_of f) d then field f d else None.
Proof. destruct f; cbn [fetch param_of field]; try done. by destruct (op_has _ d). Qed.

Lemma store_param_ok t v d : typed t v = true -> exists d', store_param t v d = Ret d' /\
  operation d' = operation d /\
  forall f, field f d' = if stored t && bool_decide (param_of f = t) then Some v else field f d.
Proof.
  intros T. destruct d, t, v; try discriminate T;
    (eexists; split; [reflexivity|split; [reflexivity|by intros []]]).
Qed.

Lemma fetch_set t v d : typed t v = true ->
  exists d', store_param t v (op_set t d) = Ret d' /\
  forall f, fetch f d' = if stored t && bool_decide (param_of f = t) then Some v else fetch f d.
Proof.
  intros T. destruct (store_param_ok t v (op_set t d) T) as (d' & E & Ho & Hf).
  exists d'. split; [done|]. intros f. rewrite !fetch_field, Hf.
  assert (B : op_has (param_of f) d' = op_has (param_of f) (op_set t d))
    by (by rewrite !op_has_testbit, Ho).
  rewrite B, op_has_set. case_bool_decide as P; cbn [orb andb].
  - destruct (stored t) eqn:S; [done|]. subst t. destruct f; try discriminate S.
    by destruct (op_has _ d).
  - rewrite andb_false_r. by destruct f.
Qed.

Lemma fetch_reset t d f :
  fetch f (op_reset t d) = if bool_decide (param_of f = t) then None else fetch f d.
Proof.
  rewrite !fetch_field, op_has_reset. case_bool_decide; cbn [negb andb]; [done|].
  by destruct f.
Qed.

Lemma fetch_clear t d f :
  fetch f (clear_param t (op_reset t d)) = if bool_decide (param_of f = t) then None else fetch f d.
Proof.
  rewrite <- fetch_reset. destruct t; try reflexivity. rewrite !fetch_field.
  assert (E : forall g, op_has g (clear_param SET_S3D_COMP (op_reset SET_S3D_COMP d)) =
                        op_has g (op_reset SET_S3D_COMP d)) by (by destruct d).
  rewrite E. destruct f; try (by destruct d).
  cbn [param_of]. by rewrite op_has_reset.
Qed.

(** ** The calls on a state whose handles are in order *)
Section World.
Context `{HandleAbi} `{!Mmap} `{!MmapOk}.
Implicit Types (w : World) (hs : gset Z) (buf : Z -> Z).

Lemma validate_ok w p h b : p <> 0 -> handles w !! p = Some h -> handle_ok w b h ->
  validate p w = Ret (0, w).
Proof.
  intros Hp E ((E1 & E2 & E3 & E4) & _). unfold validate.
  rewrite (proj2 (Z.eqb_neq _ _) Hp). unfold mbind, st_bind, get_handle. rewrite E.
  by rewrite E1, E2, E3, E4, !Z.eqb_refl.
Qed.

Lemma mmap_ret w fd b a : fd_buf w !! fd = Some b -> mmap_addr w fd = Some a ->
  mmap fd w = Ret (Some a, mkWorld (handles w) (fd_buf w) (contents w) (<[a := b]> (mapped w))).
Proof. intros E1 E2. unfold mmap. by rewrite E1, E2. Qed.

(** A new mapping keeps the handles in order. *)
Lemma world_ok_map hs buf w p h a : world_ok hs buf w -> p ∈ hs ->
  handles w !! p = Some h -> a <> 0 -> mapped w !! a = None ->
  world_ok hs buf (mkWorld (<[p := set_base_metadata a h]> (handles w)) (fd_buf w) (contents w)
    (<[a := buf p]> (mapped w))).
Proof.
  intros Hw Hp E Ha Hn q Hq. destruct (Hw q Hq) as (Hq0 & Hc & h' & E' & Hv & Hf & Hb & Hm).
  split; [done|]. split; [done|]. cbn [handles contents].
  destruct (decide (p = q)) as [<-|Hne].
  - exists (set_base_metadata a h). assert (h' = h) as -> by congruence.
    rewrite lookup_insert_eq. split; [done|]. do 3 (split; [done|]). intros _. apply lookup_insert_eq.
  - exists h'. rewrite lookup_insert_ne by done. split; [done|]. do 3 (split; [done|]).
    intros B. cbn [mapped]. rewrite lookup_insert_ne; [by apply Hm|].
    intros ->. specialize (Hm B). congruence.
Qed.

Lemma validateAndMap_ok hs buf w p : world_ok hs buf w -> p ∈ hs ->
  exists w' h, validateAndMap p w = Ret (0, w') /\ world_ok hs buf w' /\
    contents w' = contents w /\ handles w' !! p = Some h /\
    base_metadata h <> 0 /\ mapped w' !! base_metadata h = Some (buf p) /\
    (forall a b, mapped w !! a = Some b -> mapped w' !! a = Some b) /\
    (forall q h', q <> p -> handles w !! q = Some h' -> handles w' !! q = Some h') /\
    (forall h', handles w !! p = Some h' -> h = set_base_metadata (base_metadata h) h').
Proof.
  intros Hw Hp. destruct (Hw p Hp) as (Hp0 & Hc & h & E & Hok).
  unfold validateAndMap. rewrite (st_bind_Ret _ _ _ 0 w) by (by eapply validate_ok).
  cbn [negb Z.eqb].
  rewrite (st_bind_Ret _ _ _ h w) by (unfold get_handle; by rewrite E).
  destruct Hok as (Hv & Hf & Hb & Hm). rewrite (proj2 (Z.eqb_neq _ _) Hf).
  destruct (Z.eqb_spec (base_metadata h) 0) as [B|B]; cbv iota.
  - destruct (mmap_ok w _ _ Hb) as (a & Ea & Ha & Hn).
    rewrite (st_bind_Ret _ _ _ _ _ (mmap_ret _ _ _ _ Hb Ea)).
    eexists _, (set_base_metadata a h).
    split; [reflexivity|]. split; [exact (world_ok_map hs buf w p h a Hw Hp E Ha Hn)|].
    split; [done|].
    cbn [handles mapped]. rewrite !lookup_insert_eq. split; [done|]. split; [done|].
    split; [done|]. split; [|split].
    + intros; rewrite lookup_insert_ne; congruence.
    + intros; rewrite lookup_insert_ne; congruence.
    + intros h' E'. by assert (h' = h) as -> by congruence.
  - exists w, h. do 5 (split; [done|]). split; [by apply Hm|].
    split; [done|]. split; [done|]. intros h' E'. assert (h' = h) as -> by congruence. by destruct h.
Qed.

(** The common start of the calls on a handle. *)
Lemma on_handle_ok {A} hs buf w p (err : Z -> M A) (k : Z -> M A) : world_ok hs buf w -> p ∈ hs ->
  exists w' a, (e ← validateAndMap p; if negb (e =? 0) then err e else a ← base_of p; k a) w = k a w' /\
    world_ok hs buf w' /\ contents w' = contents w /\ a <> 0 /\ mapped w' !! a = Some (buf p).
Proof.
  intros Hw Hp. destruct (validateAndMap_ok hs buf w p Hw Hp) as (w' & h & E & Hw' & Hc & Eh & B & M & _).
  exists w', (base_metadata h). rewrite (st_bind_Ret _ _ _ _ _ E). cbn [negb Z.eqb].
  split; [|done]. unfold base_of, mbind, st_bind, get_handle. by rewrite Eh.
Qed.

(** A query answers what is in the memory, and changes at most the mapping. *)
Definition answer (v : option ParamVal) : Z * option ParamVal :=
  match v with Some v => (0, Some v) | None => (- EINVAL, None) end.

Lemma getMetaData_ok hs buf w p h d f : world_ok hs buf w -> p ∈ hs ->
  handles w !! p = Some h -> contents w !! buf p = Some d ->
  exists w' a, getMetaData p f w = Ret (answer (fetch f d), w') /\ world_ok hs buf w' /\
    contents w' = contents w /\ handles w' !! p = Some (set_base_metadata a h).
Proof.
  intros Hw Hp Eh Ed.
  destruct (validateAndMap_ok hs buf w p Hw Hp) as (w' & h' & E & Hw' & Hc & Eh' & B & M & _ & _ & Hb).
  exists w', (base_metadata h'). split; [|rewrite <- (Hb h Eh); done].
  unfold getMetaData. rewrite (st_bind_Ret _ _ _ _ _ E). cbn [negb Z.eqb].
  rewrite (st_bind_Ret _ _ _ (base_metadata h') w')
    by (unfold base_of, mbind, st_bind, get_handle; by rewrite Eh').
  unfold getMetaDataVa. rewrite (proj2 (Z.eqb_neq _ _) B).
  rewrite (st_bind_Ret _ _ _ d w'); [by destruct (fetch f d)|].
  unfold load. rewrite M. cbn. by rewrite Hc, Ed.
Qed.

Definition with_contents (c : gmap Z MetaData_t) w : World :=
  mkWorld (handles w) (fd_buf w) c (mapped w).

Lemma load_mapped w a b d : mapped w !! a = Some b -> contents w !! b = Some d -> load a w = Ret (d, w).
Proof. intros E1 E2. unfold load. rewrite E1. cbn. by rewrite E2. Qed.

Lemma store_ok w a b d : mapped w !! a = Some b ->
  store a d w = Ret (tt, with_contents (<[b := d]> (contents w)) w).
Proof. intros E. unfold store. by rewrite E. Qed.

Lemma world_ok_store hs buf w b d : world_ok hs buf w ->
  world_ok hs buf (with_contents (<[b := d]> (contents w)) w).
Proof.
  intros Hw p Hp. destruct (Hw p Hp) as (? & Hc & h & E & Hh). split; [done|].
  split; [|exists h; done]. cbn [with_contents contents].
  destruct (decide (b = buf p)) as [->|?]; [rewrite lookup_insert_eq|rewrite lookup_insert_ne by done]; eauto.
Qed.

Lemma view_store w b d b' f :
  view (with_contents (<[b := d]> (contents w)) w) b' f =
    if bool_decide (b' = b) then fetch f d else view w b' f.
Proof.
  unfold view. cbn [with_contents contents]. case_bool_decide; [subst|].
  - by rewrite lookup_insert_eq.
  - by rewrite lookup_insert_ne.
Qed.


(** A value that is set changes the memory and at most the mapping. *)
Lemma setMetaData_ok hs buf w p h d t v : world_ok hs buf w -> p ∈ hs ->
  handles w !! p = Some h -> contents w !! buf p = Some d -> typed t v = true ->
  exists w' d' a, setMetaData p t (Some v) w = Ret (0, w') /\ world_ok hs buf w' /\
    handles w' !! p = Some (set_base_metadata a h) /\ contents w' !! buf p = Some d' /\
    forall f, fetch f d' = if stored t && bool_decide (param_of f = t) then Some v else fetch f d.
Proof.
  intros Hw Hp Eh Ed Ht.
  destruct (validateAndMap_ok hs buf w p Hw Hp) as (w' & h' & E & Hw' & Hc & Eh' & B & M & _ & _ & Hb).
  destruct (fetch_set t v d Ht) as (d' & Es & Hf).
  exists (with_contents (<[buf p := d']> (contents w')) w'), d', (base_metadata h').
  split; [|split; [by apply world_ok_store|rewrite <- (Hb h Eh); cbn [with_contents contents];
    rewrite lookup_insert_eq; done]].
  unfold setMetaData. rewrite (st_bind_Ret _ _ _ _ _ E). cbn [negb Z.eqb].
  rewrite (st_bind_Ret _ _ _ (base_metadata h') w')
    by (unfold base_of, mbind, st_bind, get_handle; by rewrite Eh').
  unfold setMetaDataVa. rewrite (proj2 (Z.eqb_neq _ _) B).
  rewrite (st_bind_Ret _ _ _ d w') by (eapply load_mapped; [exact M|by rewrite Hc]).
  rewrite (st_bind_Ret _ _ _ d' w') by (by apply st_lift_Ret).
  by rewrite (st_bind_Ret _ _ _ _ _ (store_ok _ _ _ _ M)).
Qed.

End World.
End MetaFacts.

Module MetaProps.
Import MetaData MetaSpec MetaFacts.

Section Refine.
Context `{HandleAbi} `{!Mmap} `{!MmapOk} (hs : gset Z) (buf : Z -> Z).

(** [s] describes the state. *)
Definition abs (w : World) (s : Store) : Prop :=
  world_ok hs buf w /\ forall p f, p ∈ hs -> view w (buf p) f = s (buf p) f.

(** A call that replaces the metadata of one buffer. *)
Lemma abs_store w s b d (s' : Store) : abs w s ->
  (forall f, fetch f d = s' b f) -> (forall b' f, b' <> b -> s' b' f = s b' f) ->
  abs (with_contents (<[b := d]> (contents w)) w) s'.
Proof.
  intros [Hw Hs] Hd Hne. split; [by apply world_ok_store|]. intros p f Hp.
  rewrite view_store. case_bool_decide as E; [by rewrite E|]. by rewrite Hne, Hs by done.
Qed.

Lemma abs_contents w w' s : abs w s -> world_ok hs buf w' -> contents w' = contents w -> abs w' s.
Proof. intros [Hw Hs] Hw' E. split; [done|]. intros p f Hp. unfold view. rewrite E. by apply Hs. Qed.

Lemma abs_lookup w s p : abs w s -> p ∈ hs ->
  exists d, contents w !! buf p = Some d /\ forall f, fetch f d = s (buf p) f.
Proof.
  intros [Hw Hs] Hp. destruct (Hw p Hp) as (_ & [d E] & _). exists d. split; [done|].
  intros f. specialize (Hs p f Hp). unfold view in Hs. rewrite E in Hs. done.
Qed.

Lemma spec_put_eq b t v s b' f : spec_put b t v s b' f =
  if bool_decide (b' = b) && bool_decide (param_of f = t) then v else s b' f.
Proof. done. Qed.

Lemma spec_put_ne b t v s b' f : b' <> b -> spec_put b t v s b' f = s b' f.
Proof. intros Hn. rewrite spec_put_eq. by rewrite bool_decide_eq_false_2. Qed.

Lemma spec_put_same b t v s f :
  spec_put b t v s b f = if bool_decide (param_of f = t) then v else s b f.
Proof. rewrite spec_put_eq. by rewrite bool_decide_eq_true_2. Qed.

(** A call that updates the metadata behind [p] by [g]. *)
Lemma update_refines w s p (err : Z -> M Z) (k : Z -> M Z) (g : MetaData_t -> outcome MetaData_t)
    (s' : Store) : abs w s -> p ∈ hs ->
  (forall a w, a <> 0 ->
     k a w = (d ← load a; d' ← st_lift (g d); _ ← store a d'; mret 0) w) ->
  (forall d, (forall f, fetch f d = s (buf p) f) ->
     exists d', g d = Ret d' /\ forall f, fetch f d' = s' (buf p) f) ->
  (forall b f, b <> buf p -> s' b f = s b f) ->
  exists w', (e ← validateAndMap p; if negb (e =? 0) then err e else a ← base_of p; k a) w
    = Ret (0, w') /\ abs w' s'.
Proof.
  intros Ha Hp Hk Hg Hs. pose proof Ha as [Hw _].
  destruct (on_handle_ok hs buf w p err k Hw Hp) as (w1 & a & E & Hw1 & Hc & Ha0 & Hm).
  pose proof (abs_contents w w1 s Ha Hw1 Hc) as Ha1.
  destruct (abs_lookup w1 s p Ha1 Hp) as (d & Ed & Hd).
  destruct (Hg d Hd) as (d' & Eg & Hd').
  rewrite E, Hk by done. rewrite (st_bind_Ret _ _ _ d w1) by (by eapply load_mapped).
  rewrite (st_bind_Ret _ _ _ d' w1) by (by apply st_lift_Ret).
  rewrite (st_bind_Ret _ _ _ _ _ (store_ok _ _ _ _ Hm)). eexists. split; [reflexivity|].
  by apply (abs_store w1 s).
Qed.

Lemma copy_refines w s x y : abs w s -> x ∈ hs -> y ∈ hs ->
  exists w', copyMetaData x y w = Ret (0, w') /\
    abs w' (fun b f => if bool_decide (b = buf y) then s (buf x) f else s b f).
Proof.
  intros Ha Hx Hy. pose proof Ha as [Hw _]. unfold copyMetaData.
  destruct (validateAndMap_ok hs buf w x Hw Hx) as (w1 & h1 & E1 & Hw1 & Hc1 & Eh1 & B1 & M1 & _).
  destruct (validateAndMap_ok hs buf w1 y Hw1 Hy)
    as (w2 & h2 & E2 & Hw2 & Hc2 & Eh2 & B2 & M2 & K2 & L2 & _).
  pose proof (abs_contents w w2 s Ha Hw2 (eq_trans Hc2 Hc1)) as Ha2.
  destruct (abs_lookup w2 s x Ha2 Hx) as (d & Ed & Hd).
  assert (Hb : exists a, base_of x w2 = Ret (a, w2) /\ mapped w2 !! a = Some (buf x)).
  { unfold base_of, mbind, st_bind, get_handle. destruct (decide (x = y)) as [->|Hne].
    - rewrite Eh2. eauto.
    - rewrite (L2 x h1 Hne Eh1). eauto. }
  destruct Hb as (a & Ea & Ma).
  rewrite (st_bind_Ret _ _ _ _ _ E1). cbn [negb Z.eqb].
  rewrite (st_bind_Ret _ _ _ _ _ E2). cbn [negb Z.eqb].
  rewrite (st_bind_Ret _ _ _ _ _ Ea).
  rewrite (st_bind_Ret _ _ _ (base_metadata h2) w2)
    by (unfold base_of, mbind, st_bind, get_handle; by rewrite Eh2).
  rewrite (st_bind_Ret _ _ _ d w2) by (by eapply load_mapped).
  rewrite (st_bind_Ret _ _ _ _ _ (store_ok _ _ _ _ M2)). eexists. split; [reflexivity|].
  apply (abs_store w2 s); [done|..]; intros; cbn beta.
  - by rewrite bool_decide_eq_true_2, Hd.
  - by rewrite bool_decide_eq_false_2.
Qed.

Lemma step_refines w s op : abs w s -> op_ok hs op ->
  exists w', exec op w = Ret (fst (spec_step buf op s), w') /\ abs w' (snd (spec_step buf op s)).
Proof.
  intros Ha Ho. destruct op as [p t v|p t|p t|p f|x y]; cbn [exec spec_step fst snd].
  - destruct Ho as [Hp Ht].
    edestruct (update_refines w s p mret (fun a => setMetaDataVa a t (Some v))
      (fun d => store_param t v (op_set t d))
      (if stored t then spec_put (buf p) t (Some v) s else s)) as (w' & E & Ha'); [done..| | | |].
    + intros a w0 Hn. unfold setMetaDataVa. by rewrite (proj2 (Z.eqb_neq _ _) Hn).
    + intros d Hd. destruct (fetch_set t v d Ht) as (d' & E & Hf). exists d'. split; [done|].
      intros f. rewrite Hf, Hd. destruct (stored t); [|done]. by rewrite spec_put_same.
    + intros b f Hb. destruct (stored t); [|done]. by apply spec_put_ne.
    + exists w'. by rewrite (st_bind_Ret (setMetaData p t (Some v)) _ _ _ _ E).
  - edestruct (update_refines w s p mret (fun a => setMetaDataVa a t None)
      (fun d => Ret (op_reset t d)) (spec_put (buf p) t None s)) as (w' & E & Ha'); [done..| | | |].
    + intros a w0 Hn. unfold setMetaDataVa. by rewrite (proj2 (Z.eqb_neq _ _) Hn).
    + intros d Hd. eexists. split; [done|]. intros f. by rewrite fetch_reset, spec_put_same, Hd.
    + intros b f Hb. by apply spec_put_ne.
    + exists w'. by rewrite (st_bind_Ret (setMetaData p t None) _ _ _ _ E).
  - edestruct (update_refines w s p mret (fun a => clearMetaDataVa a t)
      (fun d => Ret (clear_param t (op_reset t d))) (spec_put (buf p) t None s))
      as (w' & E & Ha'); [done..| | | |].
    + intros a w0 Hn. unfold clearMetaDataVa. by rewrite (proj2 (Z.eqb_neq _ _) Hn).
    + intros d Hd. eexists. split; [done|]. intros f. by rewrite fetch_clear, spec_put_same, Hd.
    + intros b f Hb. by apply spec_put_ne.
    + exists w'. by rewrite (st_bind_Ret (clearMetaData p t) _ _ _ _ E).
  - pose proof Ha as [Hw _].
    destruct (on_handle_ok hs buf w p (fun e => mret (e, None)) (fun a => getMetaDataVa a f) Hw Ho)
      as (w' & a & E & Hw' & Hc & Hn & Hm).
    pose proof (abs_contents w w' s Ha Hw' Hc) as Ha'.
    destruct (abs_lookup w' s p Ha' Ho) as (d & Ed & Hd).
    exists w'. split; [|done]. unfold getMetaData. rewrite E. unfold getMetaDataVa.
    rewrite (proj2 (Z.eqb_neq _ _) Hn), (st_bind_Ret _ _ _ d w') by (by eapply load_mapped).
    rewrite Hd. by destruct (s (buf p) f).
  - destruct Ho as [Hx Hy]. destruct (copy_refines w s x y Ha Hx Hy) as (w' & E & Ha').
    exists w'. by rewrite (st_bind_Ret (copyMetaData x y) _ _ _ _ E).
Qed.

(** C39: The metadata calls implement a map from buffers and parameters to
    values.  Through whatever handles the calls are made, mapped before or not,
    in any order, every call succeeds and every query answers what was last set
    through any handle of the same buffer (or copied to it), and -EINVAL for a
    parameter never set, reset, cleared or without a stored field. *)
Theorem metadata_refines w s ops : abs w s -> Forall (op_ok hs) ops ->
  exists w', run ops w = Ret (fst (spec_run buf ops s), w') /\ abs w' (snd (spec_run buf ops s)).
Proof.
  revert w s. induction ops as [|op ops IH]; intros w s Ha Ho; cbn [run spec_run].
  - exists w. done.
  - apply Forall_cons in Ho as [Ho Hos].
    destruct (step_refines w s op Ha Ho) as (w1 & E1 & Ha1).
    destruct (spec_step buf op s) as [a s1]. cbn [fst snd] in *.
    destruct (IH w1 s1 Ha1 Hos) as (w2 & E2 & Ha2).
    destruct (spec_run buf ops s1) as [l s2]. cbn [fst snd] in *.
    exists w2. split; [|done].
    by rewrite (st_bind_Ret _ _ _ _ _ E1), (st_bind_Ret _ _ _ _ _ E2).
Qed.
End Refine.

(** Two handles of one buffer, as after an import, and one of another. *)
Module Sample.
#[global] Instance abi : HandleAbi := {| sizeof_native_handle := 12; sizeof_private_handle := 120 |}.
#[global] Instance fresh_mmap : Mmap := fun w fd => Some (fresh ({[0]} ∪ dom (mapped w))).
#[global] Instance fresh_mmap_ok : MmapOk.
Proof.
  intros w fd b _. eexists. split; [reflexivity|].
  pose proof (is_fresh ({[0]} ∪ dom (mapped w) : gset Z)) as F.
  rewrite not_elem_of_union, not_elem_of_singleton, not_elem_of_dom in F. done.
Qed.

Definition handle (fd_meta : Z) : private_handle_t := new_handle 3 fd_meta 0 64 64 64 64 1 0 16384 0 0.
Definition meta : MetaData_t :=
  mkMeta 0 0 (mkDim 0 0) 0 ITU_R_601 IGC_NotSpecified 0 0 0 0 (mkS3D 0 0) 0 [] [].
Definition world : World :=
  mkWorld (<[16 := handle 4]> (<[32 := handle 5]> (<[48 := handle 6]> ∅)))
    (<[4 := 1]> (<[5 := 1]> (<[6 := 2]> ∅))) (<[1 := meta]> (<[2 := meta]> ∅)) ∅.
Definition hs : gset Z := {[16; 32; 48]}.
Definition buf (p : Z) : Z := if p =? 48 then 2 else 1.
Definition ops : list Op :=
  [OpSet 16 UPDATE_REFRESH_RATE (VFloat 0x42700000); OpSet 32 SET_IGC (VIgc IGC_sRGB);
   OpGet 32 GET_REFRESH_RATE; OpGet 48 GET_REFRESH_RATE; OpCopy 16 48; OpReset 16 SET_IGC;
   OpGet 48 GET_IGC; OpGet 32 GET_IGC; OpClear 48 UPDATE_REFRESH_RATE; OpGet 48 GET_REFRESH_RATE].
Definition no_params : Store := fun _ _ => None.

Lemma world_abs : abs hs buf world no_params.
Proof.
  split.
  - intros p Hp. unfold hs in Hp. rewrite !elem_of_union, !elem_of_singleton in Hp.
    assert (Hh : handles world !! p = Some (handle (if p =? 16 then 4 else if p =? 32 then 5 else 6)))
      by (destruct Hp as [[->| ->]| ->]; reflexivity).
    assert (Hb : fd_buf world !! (if p =? 16 then 4 else if p =? 32 then 5 else 6) = Some (buf p))
      by (destruct Hp as [[->| ->]| ->]; reflexivity).
    assert (Hc : is_Some (contents world !! buf p))
      by (destruct Hp as [[->| ->]| ->]; eexists; reflexivity).
    split; [lia|]. split; [done|]. eexists. split; [exact Hh|].
    split; [done|]. split; [by destruct Hp as [[->| ->]| ->]|]. split; [exact Hb|].
    intros B. by destruct B.
  - intros p f Hp. unfold hs in Hp. rewrite !elem_of_union, !elem_of_singleton in Hp.
    by destruct Hp as [[->| ->]| ->], f.
Qed.

Lemma ops_ok : Forall (op_ok hs) ops.
Proof. repeat constructor; set_solver. Qed.
End Sample.

(** A value set through one handle is read through the other, a copy keeps it
    for the second buffer, and a reset removes it. *)
Lemma metadata_refines_witness : exists w', run Sample.ops Sample.world =
  Ret ([(0, None); (0, None); (0, Some (VFloat 0x42700000)); (- EINVAL, None); (0, None);
        (0, None); (0, Some (VIgc IGC_sRGB)); (- EINVAL, None); (0, None); (- EINVAL, None)], w').
Proof.
  destruct (metadata_refines Sample.hs Sample.buf Sample.world Sample.no_params Sample.ops
    Sample.world_abs Sample.ops_ok) as (w' & E & _).
  exists w'. rewrite E. reflexivity.
Defined.
End MetaProps.
