(* ===== verification/GrUtils.v ===== *)
(** Buffer geometry of the allocator:
    src/hardware/qcom-caf/display/gralloc/gr_utils.cpp (and gr_utils.h) with the
    graphics library queries of gr_adreno_info.cpp.

    A pixel format is the int the code has; which format it names is the
    parameter [hal_format], since some of the codes are in the headers of the
    platform.  Parameters too are the usage bits of gralloc1.h, the VENUS_*
    functions of msm_media_info.h, the page size and the functions of
    libadreno_utils.so.  Unsigned arithmetic wraps at 32 bits; signed overflow is
    undefined. *)
From S2P Require Import Prelude MetaData.
#[local] Open Scope Z_scope.

Module GrUtils.
Import MetaData.

(** * Formats *)
Inductive HalFormat :=
| HAL_PIXEL_FORMAT_RGBA_8888 | HAL_PIXEL_FORMAT_RGBX_8888 | HAL_PIXEL_FORMAT_RGB_888
| HAL_PIXEL_FORMAT_RGB_565 | HAL_PIXEL_FORMAT_BGR_565 | HAL_PIXEL_FORMAT_BGRA_8888
| HAL_PIXEL_FORMAT_RGBA_5551 | HAL_PIXEL_FORMAT_RGBA_4444 | HAL_PIXEL_FORMAT_R_8
| HAL_PIXEL_FORMAT_RG_88 | HAL_PIXEL_FORMAT_BGRX_8888 | HAL_PIXEL_FORMAT_RGBA_1010102
| HAL_PIXEL_FORMAT_ARGB_2101010 | HAL_PIXEL_FORMAT_RGBX_1010102
| HAL_PIXEL_FORMAT_XRGB_2101010 | HAL_PIXEL_FORMAT_BGRA_1010102
| HAL_PIXEL_FORMAT_ABGR_2101010 | HAL_PIXEL_FORMAT_BGRX_1010102
| HAL_PIXEL_FORMAT_XBGR_2101010 | HAL_PIXEL_FORMAT_RGBA_FP16 | HAL_PIXEL_FORMAT_BGR_888
| HAL_PIXEL_FORMAT_COMPRESSED_RGBA_ASTC_4x4_KHR
| HAL_PIXEL_FORMAT_COMPRESSED_SRGB8_ALPHA8_ASTC_4x4_KHR
| HAL_PIXEL_FORMAT_COMPRESSED_RGBA_ASTC_5x4_KHR
| HAL_PIXEL_FORMAT_COMPRESSED_SRGB8_ALPHA8_ASTC_5x4_KHR
| HAL_PIXEL_FORMAT_COMPRESSED_RGBA_ASTC_5x5_KHR
| HAL_PIXEL_FORMAT_COMPRESSED_SRGB8_ALPHA8_ASTC_5x5_KHR
| HAL_PIXEL_FORMAT_COMPRESSED_RGBA_ASTC_6x5_KHR
| HAL_PIXEL_FORMAT_COMPRESSED_SRGB8_ALPHA8_ASTC_6x5_KHR
| HAL_PIXEL_FORMAT_COMPRESSED_RGBA_ASTC_6x6_KHR
| HAL_PIXEL_FORMAT_COMPRESSED_SRGB8_ALPHA8_ASTC_6x6_KHR
| HAL_PIXEL_FORMAT_COMPRESSED_RGBA_ASTC_8x5_KHR
| HAL_PIXEL_FORMAT_COMPRESSED_SRGB8_ALPHA8_ASTC_8x5_KHR
| HAL_PIXEL_FORMAT_COMPRESSED_RGBA_ASTC_8x6_KHR
| HAL_PIXEL_FORMAT_COMPRESSED_SRGB8_ALPHA8_ASTC_8x6_KHR
| HAL_PIXEL_FORMAT_COMPRESSED_RGBA_ASTC_8x8_KHR
| HAL_PIXEL_FORMAT_COMPRESSED_SRGB8_ALPHA8_ASTC_8x8_KHR
| HAL_PIXEL_FORMAT_COMPRESSED_RGBA_ASTC_10x5_KHR
| HAL_PIXEL_FORMAT_COMPRESSED_SRGB8_ALPHA8_ASTC_10x5_KHR
| HAL_PIXEL_FORMAT_COMPRESSED_RGBA_ASTC_10x6_KHR
| HAL_PIXEL_FORMAT_COMPRESSED_SRGB8_ALPHA8_ASTC_10x6_KHR
| HAL_PIXEL_FORMAT_COMPRESSED_RGBA_ASTC_10x8_KHR
| HAL_PIXEL_FORMAT_COMPRESSED_SRGB8_ALPHA8_ASTC_10x8_KHR
| HAL_PIXEL_FORMAT_COMPRESSED_RGBA_ASTC_10x10_KHR
| HAL_PIXEL_FORMAT_COMPRESSED_SRGB8_ALPHA8_ASTC_10x10_KHR
| HAL_PIXEL_FORMAT_COMPRESSED_RGBA_ASTC_12x10_KHR
| HAL_PIXEL_FORMAT_COMPRESSED_SRGB8_ALPHA8_ASTC_12x10_KHR
| HAL_PIXEL_FORMAT_COMPRESSED_RGBA_ASTC_12x12_KHR
| HAL_PIXEL_FORMAT_COMPRESSED_SRGB8_ALPHA8_ASTC_12x12_KHR
| HAL_PIXEL_FORMAT_RAW16 | HAL_PIXEL_FORMAT_Y16 | HAL_PIXEL_FORMAT_RAW10
| HAL_PIXEL_FORMAT_RAW12 | HAL_PIXEL_FORMAT_RAW8 | HAL_PIXEL_FORMAT_Y8
| HAL_PIXEL_FORMAT_YCrCb_420_SP_ADRENO | HAL_PIXEL_FORMAT_YCbCr_420_SP_TILED
| HAL_PIXEL_FORMAT_YV12 | HAL_PIXEL_FORMAT_YCbCr_420_SP | HAL_PIXEL_FORMAT_YCrCb_420_SP
| HAL_PIXEL_FORMAT_YCbCr_420_P010 | HAL_PIXEL_FORMAT_YCbCr_422_SP
| HAL_PIXEL_FORMAT_YCrCb_422_SP | HAL_PIXEL_FORMAT_YCbCr_422_I | HAL_PIXEL_FORMAT_YCrCb_422_I
| HAL_PIXEL_FORMAT_CbYCrY_422_I | HAL_PIXEL_FORMAT_YCbCr_420_SP_VENUS
| HAL_PIXEL_FORMAT_NV12_ENCODEABLE | HAL_PIXEL_FORMAT_YCrCb_420_SP_VENUS
| HAL_PIXEL_FORMAT_BLOB | HAL_PIXEL_FORMAT_RAW_OPAQUE | HAL_PIXEL_FORMAT_NV21_ZSL
| HAL_PIXEL_FORMAT_YCbCr_420_SP_VENUS_UBWC | HAL_PIXEL_FORMAT_YCbCr_420_TP10_UBWC
| HAL_PIXEL_FORMAT_YCbCr_420_P010_UBWC
| HAL_PIXEL_FORMAT_OTHER.

(** The colour formats of msm_media_info.h the code names. *)
Inductive ColorFmt :=
| COLOR_FMT_NV12 | COLOR_FMT_NV21 | COLOR_FMT_NV12_UBWC | COLOR_FMT_NV12_BPP10_UBWC
| COLOR_FMT_P010_UBWC.

(** What the code takes from the platform. *)
Class Platform := {
  hal_format : Z -> HalFormat;
  GRALLOC1_PRODUCER_USAGE_CPU_READ : Z;
  GRALLOC1_PRODUCER_USAGE_CPU_WRITE : Z;
  GRALLOC1_PRODUCER_USAGE_PROTECTED : Z;
  GRALLOC1_PRODUCER_USAGE_CAMERA : Z;
  GRALLOC1_PRODUCER_USAGE_GPU_RENDER_TARGET : Z;
  GRALLOC1_PRODUCER_USAGE_PRIVATE_0 : Z;
  GRALLOC1_CONSUMER_USAGE_CPU_READ : Z;
  GRALLOC1_CONSUMER_USAGE_GPU_TEXTURE : Z;
  COMPOSER_CLIENT_TARGET : Z;
  MASTER_SIDE_CP : bool;
  getpagesize : Z;
  VENUS_Y_STRIDE : ColorFmt -> Z -> Z;
  VENUS_Y_SCANLINES : ColorFmt -> Z -> Z;
  VENUS_UV_STRIDE : ColorFmt -> Z -> Z;
  VENUS_UV_SCANLINES : ColorFmt -> Z -> Z;
  VENUS_Y_META_STRIDE : ColorFmt -> Z -> Z;
  VENUS_Y_META_SCANLINES : ColorFmt -> Z -> Z;
  VENUS_UV_META_STRIDE : ColorFmt -> Z -> Z;
  VENUS_UV_META_SCANLINES : ColorFmt -> Z -> Z;
  VENUS_BUFFER_SIZE : ColorFmt -> Z -> Z -> Z
}.

Definition SZ_2M : Z := 0x200000.
Definition SZ_1M : Z := 0x100000.
Definition SZ_4K : Z := 0x1000.
Definition SIZE_4K : Z := 4096.
Definition SIZE_8K : Z := 4096.
Definition ASTC_BLOCK_SIZE : Z := 16.
Definition PRIV_FLAGS_UBWC_ALIGNED : Z := 0x08000000.
Definition GRALLOC1_CONSUMER_USAGE_PRIVATE_SECURE_DISPLAY : Z := Z.shiftl 1 31.
Definition GRALLOC1_PRODUCER_USAGE_GPU_SAMPLED_IMAGE : Z := Z.shiftl 1 8.
Definition GRALLOC1_PRODUCER_USAGE_GPU_DATA_BUFFER : Z := Z.shiftl 1 24.
Definition GRALLOC1_PRODUCER_USAGE_GPU_CUBE_MAP : Z := Z.shiftl 1 25.
Definition GRALLOC1_PRODUCER_USAGE_GPU_MIPMAP_COMPLETE : Z := Z.shiftl 1 26.

(** [usage & bit] as a condition. *)
Definition has (usage bit : Z) : bool := negb (Z.land usage bit =? 0).

(** ALIGN at Type1 = unsigned int and at Type1 = int. *)
Definition ALIGN_uint (x align : Z) : Z :=
  Z.land (u32 (x + u32 align - 1)) (u32 (Z.lnot (u32 (u32 align - 1)))).
Definition ALIGN_int (x align : Z) : outcome Z :=
  t ← int_expr (x + s32 align); t ← int_expr (t - 1);
  m ← int_expr (s32 align - 1); mret (Z.land t (Z.lnot m)).

Record BufferInfo := mkBufferInfo {
  bi_width : Z; bi_height : Z; bi_format : Z; bi_layer_count : Z;
  bi_prod_usage : Z; bi_cons_usage : Z
}.
(** The constructor: one layer. *)
Definition new_BufferInfo (w h f prod cons : Z) : BufferInfo := mkBufferInfo w h f 1 prod cons.

(** * gr_adreno_info.cpp *)
Inductive ADRENOPIXELFORMAT :=
| ADRENO_PIXELFORMAT_UNKNOWN | ADRENO_PIXELFORMAT_R8G8B8A8 | ADRENO_PIXELFORMAT_R8G8B8X8
| ADRENO_PIXELFORMAT_B5G6R5 | ADRENO_PIXELFORMAT_R5G6B5 | ADRENO_PIXELFORMAT_NV12
| ADRENO_PIXELFORMAT_NV12_EXT | ADRENO_PIXELFORMAT_TP10 | ADRENO_PIXELFORMAT_P010
| ADRENO_PIXELFORMAT_R10G10B10A2_UNORM | ADRENO_PIXELFORMAT_R10G10B10X2_UNORM
| ADRENO_PIXELFORMAT_A2B10G10R10_UNORM | ADRENO_PIXELFORMAT_R8G8B8
| ADRENO_PIXELFORMAT_R16G16B16A16_FLOAT.

(** The symbols of libadreno_utils.so; [None] is a symbol dlsym did not find. *)
Record AdrenoLib := mkLib {
  compute_aligned_width_and_height : option (Z -> Z -> Z -> Z -> Z -> Z -> Z * Z);
  compute_surface_padding : option (Z -> Z -> Z -> Z -> Z -> Z);
  compute_compressedfmt_aligned_width_and_height : option (Z -> Z -> Z -> Z -> Z -> Z -> Z * Z);
  isUBWCSupportedByGpu : option (ADRENOPIXELFORMAT -> Z);
  get_gpu_pixel_alignment : option Z;
  lib_isSecureContextSupportedByGpu : option Z
}.
Definition no_symbols : AdrenoLib := mkLib None None None None None None.

Record AdrenoMemInfo := mkAdreno {
  LINK : AdrenoLib;
  libadreno_utils_ : bool;
  gfx_ubwc_disable_ : bool;
  map_fb_ : bool
}.

Definition DISABLE_UBWC_PROP : string := "vendor.gralloc.disable_ubwc".
Definition MAP_FB_MEMORY_PROP : string := "vendor.gralloc.map_fb_memory".

Definition lower (c : Ascii.ascii) : Ascii.ascii :=
  let n := Ascii.nat_of_ascii c in
  if (65 <=? n)%nat && (n <=? 90)%nat then Ascii.ascii_of_nat (n + 32) else c.
Fixpoint lower_string (s : string) : string :=
  match s with
  | EmptyString => EmptyString
  | String c s => String (lower c) (lower_string s)
  end.

(** The constructor.  [dlopen] is the result of opening the library, [prop] the
    system properties (the empty string when unset). *)
Definition new_AdrenoMemInfo (dlopen : option AdrenoLib) (prop : string -> string) : AdrenoMemInfo :=
  let link := match dlopen with Some l => l | None => no_symbols end in
  let property := if String.eqb (prop DISABLE_UBWC_PROP) "" then "0"%string
                  else prop DISABLE_UBWC_PROP in
  let ubwc_disable := String.eqb property "1" || String.eqb property "true" in
  let property := prop MAP_FB_MEMORY_PROP in
  let fb := (0 <? Z.of_nat (String.length property)) &&
            (String.eqb property "1" || String.eqb (lower_string property) "true") in
  mkAdreno link (match dlopen with Some _ => true | None => false end) ubwc_disable fb.

(** [s_instance] before and after, and the result, which is never null. *)
Definition GetInstance (dlopen : option AdrenoLib) (prop : string -> string)
    (s_instance : option AdrenoMemInfo) : option AdrenoMemInfo * option AdrenoMemInfo :=
  match s_instance with
  | None => let i := Some (new_AdrenoMemInfo dlopen prop) in (i, i)
  | Some _ => (s_instance, s_instance)
  end.

Section Utils.
Context `{Platform}.

Definition GetGpuPixelFormat (hal_fmt : Z) : ADRENOPIXELFORMAT :=
  match hal_format hal_fmt with
  | HAL_PIXEL_FORMAT_RGBA_8888 => ADRENO_PIXELFORMAT_R8G8B8A8
  | HAL_PIXEL_FORMAT_RGBX_8888 => ADRENO_PIXELFORMAT_R8G8B8X8
  | HAL_PIXEL_FORMAT_RGB_565 => ADRENO_PIXELFORMAT_B5G6R5
  | HAL_PIXEL_FORMAT_BGR_565 => ADRENO_PIXELFORMAT_R5G6B5
  | HAL_PIXEL_FORMAT_NV12_ENCODEABLE => ADRENO_PIXELFORMAT_NV12
  | HAL_PIXEL_FORMAT_YCbCr_420_SP_VENUS
  | HAL_PIXEL_FORMAT_YCbCr_420_SP_VENUS_UBWC => ADRENO_PIXELFORMAT_NV12_EXT
  | HAL_PIXEL_FORMAT_YCbCr_420_TP10_UBWC => ADRENO_PIXELFORMAT_TP10
  | HAL_PIXEL_FORMAT_YCbCr_420_P010
  | HAL_PIXEL_FORMAT_YCbCr_420_P010_UBWC => ADRENO_PIXELFORMAT_P010
  | HAL_PIXEL_FORMAT_RGBA_1010102 => ADRENO_PIXELFORMAT_R10G10B10A2_UNORM
  | HAL_PIXEL_FORMAT_RGBX_1010102 => ADRENO_PIXELFORMAT_R10G10B10X2_UNORM
  | HAL_PIXEL_FORMAT_ABGR_2101010 => ADRENO_PIXELFORMAT_A2B10G10R10_UNORM
  | HAL_PIXEL_FORMAT_RGB_888 => ADRENO_PIXELFORMAT_R8G8B8
  | HAL_PIXEL_FORMAT_RGBA_FP16 => ADRENO_PIXELFORMAT_R16G16B16A16_FLOAT
  | _ => ADRENO_PIXELFORMAT_UNKNOWN
  end.

Definition AlignUnCompressedRGB (a : AdrenoMemInfo) (width height format tile_enabled : Z)
    : outcome (Z * Z) :=
  aw ← ALIGN_int width 32; ah ← ALIGN_int height 32;
  if map_fb_ a then mret (u32 aw, u32 ah)
  else
    let bpp := match hal_format format with
      | HAL_PIXEL_FORMAT_RGB_888 | HAL_PIXEL_FORMAT_BGR_888 => 3
      | HAL_PIXEL_FORMAT_RGB_565 | HAL_PIXEL_FORMAT_BGR_565
      | HAL_PIXEL_FORMAT_RGBA_5551 | HAL_PIXEL_FORMAT_RGBA_4444 => 2
      | _ => 4
      end in
    let raster_mode := 0 in
    let padding_threshold := 512 in
    match compute_aligned_width_and_height (LINK a), compute_surface_padding (LINK a) with
    | Some f, _ =>
        let '(w, h) := f width height bpp tile_enabled raster_mode padding_threshold in
        mret (u32 w, u32 h)
    | None, Some f =>
        let surface_tile_height := 1 in
        mret (u32 (f width bpp surface_tile_height raster_mode padding_threshold), u32 ah)
    | None, None => mret (u32 aw, u32 ah)
    end.

Definition AlignCompressedRGB (a : AdrenoMemInfo) (width height format : Z) : outcome (Z * Z) :=
  match compute_compressedfmt_aligned_width_and_height (LINK a) with
  | Some f =>
      let raster_mode := 0 in
      let padding_threshold := 512 in
      let '(w, h) := f width height format 0 raster_mode padding_threshold in
      mret (u32 w, u32 h)
  | None => aw ← ALIGN_int width 32; ah ← ALIGN_int height 32; mret (u32 aw, u32 ah)
  end.

Definition IsUBWCSupportedByGPU (a : AdrenoMemInfo) (format : Z) : bool :=
  if gfx_ubwc_disable_ a then false
  else match isUBWCSupportedByGpu (LINK a) with
       | Some f => negb (f (GetGpuPixelFormat format) =? 0)
       | None => false
       end.

Definition GetGpuPixelAlignment (a : AdrenoMemInfo) : Z :=
  match get_gpu_pixel_alignment (LINK a) with Some n => n | None => 1 end.

Definition isSecureContextSupportedByGpu (a : AdrenoMemInfo) : bool :=
  match lib_isSecureContextSupportedByGpu (LINK a) with
  | Some n => negb (n =? 0)
  | None => true
  end.
(** * gr_utils.cpp *)
Definition IsUncompressedRGBFormat (format : Z) : bool :=
  match hal_format format with
  | HAL_PIXEL_FORMAT_RGBA_8888 | HAL_PIXEL_FORMAT_RGBX_8888 | HAL_PIXEL_FORMAT_RGB_888
  | HAL_PIXEL_FORMAT_RGB_565 | HAL_PIXEL_FORMAT_BGR_565 | HAL_PIXEL_FORMAT_BGRA_8888
  | HAL_PIXEL_FORMAT_RGBA_5551 | HAL_PIXEL_FORMAT_RGBA_4444 | HAL_PIXEL_FORMAT_R_8
  | HAL_PIXEL_FORMAT_RG_88 | HAL_PIXEL_FORMAT_BGRX_8888 | HAL_PIXEL_FORMAT_RGBA_1010102
  | HAL_PIXEL_FORMAT_ARGB_2101010 | HAL_PIXEL_FORMAT_RGBX_1010102 | HAL_PIXEL_FORMAT_XRGB_2101010
  | HAL_PIXEL_FORMAT_BGRA_1010102 | HAL_PIXEL_FORMAT_ABGR_2101010 | HAL_PIXEL_FORMAT_BGRX_1010102
  | HAL_PIXEL_FORMAT_XBGR_2101010 | HAL_PIXEL_FORMAT_RGBA_FP16 | HAL_PIXEL_FORMAT_BGR_888 => true
  | _ => false
  end.

Definition IsCompressedRGBFormat (format : Z) : bool :=
  match hal_format format with
  | HAL_PIXEL_FORMAT_COMPRESSED_RGBA_ASTC_4x4_KHR
  | HAL_PIXEL_FORMAT_COMPRESSED_SRGB8_ALPHA8_ASTC_4x4_KHR
  | HAL_PIXEL_FORMAT_COMPRESSED_RGBA_ASTC_5x4_KHR
  | HAL_PIXEL_FORMAT_COMPRESSED_SRGB8_ALPHA8_ASTC_5x4_KHR
  | HAL_PIXEL_FORMAT_COMPRESSED_RGBA_ASTC_5x5_KHR
  | HAL_PIXEL_FORMAT_COMPRESSED_SRGB8_ALPHA8_ASTC_5x5_KHR
  | HAL_PIXEL_FORMAT_COMPRESSED_RGBA_ASTC_6x5_KHR
  | HAL_PIXEL_FORMAT_COMPRESSED_SRGB8_ALPHA8_ASTC_6x5_KHR
  | HAL_PIXEL_FORMAT_COMPRESSED_RGBA_ASTC_6x6_KHR
  | HAL_PIXEL_FORMAT_COMPRESSED_SRGB8_ALPHA8_ASTC_6x6_KHR
  | HAL_PIXEL_FORMAT_COMPRESSED_RGBA_ASTC_8x5_KHR
  | HAL_PIXEL_FORMAT_COMPRESSED_SRGB8_ALPHA8_ASTC_8x5_KHR
  | HAL_PIXEL_FORMAT_COMPRESSED_RGBA_ASTC_8x6_KHR
  | HAL_PIXEL_FORMAT_COMPRESSED_SRGB8_ALPHA8_ASTC_8x6_KHR
  | HAL_PIXEL_FORMAT_COMPRESSED_RGBA_ASTC_8x8_KHR
  | HAL_PIXEL_FORMAT_COMPRESSED_SRGB8_ALPHA8_ASTC_8x8_KHR
  | HAL_PIXEL_FORMAT_COMPRESSED_RGBA_ASTC_10x5_KHR
  | HAL_PIXEL_FORMAT_COMPRESSED_SRGB8_ALPHA8_ASTC_10x5_KHR
  | HAL_PIXEL_FORMAT_COMPRESSED_RGBA_ASTC_10x6_KHR
  | HAL_PIXEL_FORMAT_COMPRESSED_SRGB8_ALPHA8_ASTC_10x6_KHR
  | HAL_PIXEL_FORMAT_COMPRESSED_RGBA_ASTC_10x8_KHR
  | HAL_PIXEL_FORMAT_COMPRESSED_SRGB8_ALPHA8_ASTC_10x8_KHR
  | HAL_PIXEL_FORMAT_COMPRESSED_RGBA_ASTC_10x10_KHR
  | HAL_PIXEL_FORMAT_COMPRESSED_SRGB8_ALPHA8_ASTC_10x10_KHR
  | HAL_PIXEL_FORMAT_COMPRESSED_RGBA_ASTC_12x10_KHR
  | HAL_PIXEL_FORMAT_COMPRESSED_SRGB8_ALPHA8_ASTC_12x10_KHR
  | HAL_PIXEL_FORMAT_COMPRESSED_RGBA_ASTC_12x12_KHR
  | HAL_PIXEL_FORMAT_COMPRESSED_SRGB8_ALPHA8_ASTC_12x12_KHR => true
  | _ => false
  end.

Definition GetBppForUncompressedRGB (format : Z) : Z :=
  match hal_format format with
  | HAL_PIXEL_FORMAT_RGBA_FP16 => 8
  | HAL_PIXEL_FORMAT_RGBA_8888 | HAL_PIXEL_FORMAT_RGBX_8888 | HAL_PIXEL_FORMAT_BGRA_8888
  | HAL_PIXEL_FORMAT_BGRX_8888 | HAL_PIXEL_FORMAT_RGBA_1010102 | HAL_PIXEL_FORMAT_ARGB_2101010
  | HAL_PIXEL_FORMAT_RGBX_1010102 | HAL_PIXEL_FORMAT_XRGB_2101010 | HAL_PIXEL_FORMAT_BGRA_1010102
  | HAL_PIXEL_FORMAT_ABGR_2101010 | HAL_PIXEL_FORMAT_BGRX_1010102 | HAL_PIXEL_FORMAT_XBGR_2101010 => 4
  | HAL_PIXEL_FORMAT_RGB_888 | HAL_PIXEL_FORMAT_BGR_888 => 3
  | HAL_PIXEL_FORMAT_RGB_565 | HAL_PIXEL_FORMAT_BGR_565
  | HAL_PIXEL_FORMAT_RGBA_5551 | HAL_PIXEL_FORMAT_RGBA_4444 => 2
  | _ => 0
  end.

Definition CpuCanRead (prod_usage cons_usage : Z) : bool :=
  has prod_usage GRALLOC1_PRODUCER_USAGE_CPU_READ || has cons_usage GRALLOC1_CONSUMER_USAGE_CPU_READ.

Definition CpuCanWrite (prod_usage : Z) : bool := has prod_usage GRALLOC1_PRODUCER_USAGE_CPU_WRITE.

Definition CpuCanAccess (prod_usage cons_usage : Z) : bool :=
  CpuCanRead prod_usage cons_usage || CpuCanWrite prod_usage.

Definition SECURE_ALIGN : Z := if MASTER_SIDE_CP then SZ_4K else SZ_1M.

Definition GetDataAlignment (format prod_usage cons_usage : Z) : Z :=
  let align := match hal_format format with
    | HAL_PIXEL_FORMAT_YCbCr_420_SP_TILED => 8192
    | _ => u32 getpagesize
    end in
  if has prod_usage GRALLOC1_PRODUCER_USAGE_PROTECTED then
    if has prod_usage GRALLOC1_PRODUCER_USAGE_CAMERA ||
       has cons_usage GRALLOC1_CONSUMER_USAGE_PRIVATE_SECURE_DISPLAY
    then SZ_2M else SECURE_ALIGN
  else align.

Definition IsUBwcFormat (format : Z) : bool :=
  match hal_format format with
  | HAL_PIXEL_FORMAT_YCbCr_420_SP_VENUS_UBWC | HAL_PIXEL_FORMAT_YCbCr_420_TP10_UBWC
  | HAL_PIXEL_FORMAT_YCbCr_420_P010_UBWC => true
  | _ => false
  end.

Definition IsUBwcSupported (format : Z) : bool :=
  match hal_format format with
  | HAL_PIXEL_FORMAT_BGR_565 | HAL_PIXEL_FORMAT_RGBA_8888 | HAL_PIXEL_FORMAT_RGBX_8888
  | HAL_PIXEL_FORMAT_NV12_ENCODEABLE | HAL_PIXEL_FORMAT_YCbCr_420_SP_VENUS
  | HAL_PIXEL_FORMAT_RGBA_1010102 | HAL_PIXEL_FORMAT_RGBX_1010102 => true
  | _ => false
  end.

(** The result of AdrenoMemInfo::GetInstance(). *)
Context (instance : option AdrenoMemInfo).

Definition IsUBwcEnabled (format prod_usage cons_usage : Z) : bool :=
  if IsUBwcFormat format then true
  else if (has prod_usage GRALLOC1_PRODUCER_USAGE_PRIVATE_0 || has cons_usage COMPOSER_CLIENT_TARGET)
          && IsUBwcSupported format then
    let enable :=
      if has cons_usage GRALLOC1_CONSUMER_USAGE_GPU_TEXTURE
         || has prod_usage GRALLOC1_PRODUCER_USAGE_GPU_RENDER_TARGET then
        match instance with Some a => IsUBWCSupportedByGPU a format | None => true end
      else true in
    enable && negb (CpuCanAccess prod_usage cons_usage)
  else false.

Definition GetYuvUBwcWidthAndHeight (width height format : Z) : Z * Z :=
  match hal_format format with
  | HAL_PIXEL_FORMAT_NV12_ENCODEABLE | HAL_PIXEL_FORMAT_YCbCr_420_SP_VENUS
  | HAL_PIXEL_FORMAT_YCbCr_420_SP_VENUS_UBWC =>
      (VENUS_Y_STRIDE COLOR_FMT_NV12_UBWC width, VENUS_Y_SCANLINES COLOR_FMT_NV12_UBWC height)
  | HAL_PIXEL_FORMAT_YCbCr_420_TP10_UBWC =>
      (u32 (VENUS_Y_STRIDE COLOR_FMT_NV12_BPP10_UBWC width * 3) / 4,
       VENUS_Y_SCANLINES COLOR_FMT_NV12_BPP10_UBWC height)
  | HAL_PIXEL_FORMAT_YCbCr_420_P010_UBWC =>
      (VENUS_Y_STRIDE COLOR_FMT_P010_UBWC width / 2, VENUS_Y_SCANLINES COLOR_FMT_P010_UBWC height)
  | _ => (0, 0)
  end.

Definition GetRgbUBwcBlockSize (bpp : Z) : Z * Z :=
  if (bpp =? 2) || (bpp =? 4) then (16, 4)
  else if bpp =? 8 then (8, 4)
  else if bpp =? 16 then (4, 4)
  else (0, 0).

Definition GetRgbUBwcMetaBufferSize (width height bpp : Z) : outcome Z :=
  let '(block_width, block_height) := GetRgbUBwcBlockSize bpp in
  if (block_width =? 0) || (block_height =? 0) then mret 0
  else
    t ← int_expr (height + block_height); t ← int_expr (t - 1);
    meta_height ← ALIGN_int (t ÷ block_height) 16;
    t ← int_expr (width + block_width); t ← int_expr (t - 1);
    meta_width ← ALIGN_int (t ÷ block_width) 64;
    t ← int_expr (meta_width * meta_height);
    size ← ALIGN_int t 4096;
    mret (u32 size).

Definition GetUBwcSize (width height format alignedw alignedh : Z) : outcome Z :=
  match hal_format format with
  | HAL_PIXEL_FORMAT_BGR_565 | HAL_PIXEL_FORMAT_RGBA_8888 | HAL_PIXEL_FORMAT_RGBX_8888
  | HAL_PIXEL_FORMAT_RGBA_1010102 | HAL_PIXEL_FORMAT_RGBX_1010102 =>
      let bpp := GetBppForUncompressedRGB format in
      let size := u32 (u32 (alignedw * alignedh) * bpp) in
      m ← GetRgbUBwcMetaBufferSize width height bpp; mret (u32 (size + m))
  | HAL_PIXEL_FORMAT_NV12_ENCODEABLE | HAL_PIXEL_FORMAT_YCbCr_420_SP_VENUS
  | HAL_PIXEL_FORMAT_YCbCr_420_SP_VENUS_UBWC =>
      mret (VENUS_BUFFER_SIZE COLOR_FMT_NV12_UBWC width height)
  | HAL_PIXEL_FORMAT_YCbCr_420_TP10_UBWC =>
      mret (VENUS_BUFFER_SIZE COLOR_FMT_NV12_BPP10_UBWC width height)
  | HAL_PIXEL_FORMAT_YCbCr_420_P010_UBWC =>
      mret (VENUS_BUFFER_SIZE COLOR_FMT_P010_UBWC width height)
  | _ => mret 0
  end.

(** The switch of GetSize on YUV and custom formats; [None] is an early
    [return 0]. *)
Definition yuv_size (width height format alignedw alignedh : Z) : outcome (option Z) :=
  match hal_format format with
  | HAL_PIXEL_FORMAT_RAW16 | HAL_PIXEL_FORMAT_Y16 => mret (Some (u32 (u32 (alignedw * alignedh) * 2)))
  | HAL_PIXEL_FORMAT_RAW10 | HAL_PIXEL_FORMAT_RAW12 =>
      mret (Some (ALIGN_uint (u32 (alignedw * alignedh)) SIZE_4K))
  | HAL_PIXEL_FORMAT_RAW8 | HAL_PIXEL_FORMAT_Y8 => mret (Some (u32 (u32 (alignedw * alignedh) * 1)))
  | HAL_PIXEL_FORMAT_YCrCb_420_SP_ADRENO =>
      let size := ALIGN_uint (u32 (alignedw * alignedh)) SIZE_4K in
      cw ← ALIGN_int (width ÷ 2) 32; ch ← ALIGN_int (height ÷ 2) 32;
      t ← int_expr (2 * cw); t ← int_expr (t * ch); t ← ALIGN_int t SIZE_4K;
      mret (Some (u32 (size + u32 t)))
  | HAL_PIXEL_FORMAT_YCbCr_420_SP_TILED =>
      let size := ALIGN_uint (u32 (alignedw * alignedh)) SIZE_8K in
      ch ← ALIGN_int (height ÷ 2) 32;
      mret (Some (u32 (size + ALIGN_uint (u32 (alignedw * u32 ch)) SIZE_8K)))
  | HAL_PIXEL_FORMAT_YV12 =>
      if negb (Z.land width 1 =? 0) || negb (Z.land height 1 =? 0) then mret None
      else
        let size := u32 (u32 (alignedw * alignedh)
          + u32 (u32 (ALIGN_uint (alignedw / 2) 16 * (alignedh / 2)) * 2)) in
        mret (Some (ALIGN_uint size SIZE_4K))
  | HAL_PIXEL_FORMAT_YCbCr_420_SP | HAL_PIXEL_FORMAT_YCrCb_420_SP =>
      let wh := u32 (alignedw * alignedh) in
      mret (Some (ALIGN_uint (u32 (u32 (wh + wh / 2) + 1)) SIZE_4K))
  | HAL_PIXEL_FORMAT_YCbCr_420_P010 =>
      let wh := u32 (alignedw * alignedh) in
      mret (Some (ALIGN_uint (u32 (u32 (u32 (wh * 2) + wh) + 1)) SIZE_4K))
  | HAL_PIXEL_FORMAT_YCbCr_422_SP | HAL_PIXEL_FORMAT_YCrCb_422_SP | HAL_PIXEL_FORMAT_YCbCr_422_I
  | HAL_PIXEL_FORMAT_YCrCb_422_I | HAL_PIXEL_FORMAT_CbYCrY_422_I =>
      if negb (Z.land width 1 =? 0) then mret None
      else mret (Some (ALIGN_uint (u32 (u32 (alignedw * alignedh) * 2)) SIZE_4K))
  | HAL_PIXEL_FORMAT_YCbCr_420_SP_VENUS | HAL_PIXEL_FORMAT_NV12_ENCODEABLE =>
      mret (Some (VENUS_BUFFER_SIZE COLOR_FMT_NV12 width height))
  | HAL_PIXEL_FORMAT_YCrCb_420_SP_VENUS => mret (Some (VENUS_BUFFER_SIZE COLOR_FMT_NV21 width height))
  | HAL_PIXEL_FORMAT_BLOB | HAL_PIXEL_FORMAT_RAW_OPAQUE =>
      if negb (height =? 1) then mret None else mret (Some (u32 width))
  | HAL_PIXEL_FORMAT_NV21_ZSL =>
      let wh := u32 (alignedw * alignedh) in
      mret (Some (ALIGN_uint (u32 (wh + wh / 2)) SIZE_4K))
  | _ => mret None
  end.

Definition GetSize (info : BufferInfo) (alignedw alignedh : Z) : outcome Z :=
  let format := bi_format info in
  let width := bi_width info in
  let height := bi_height info in
  let prod_usage := bi_prod_usage info in
  let cons_usage := bi_cons_usage info in
  r ← (if IsUBwcEnabled format prod_usage cons_usage then
         size ← GetUBwcSize width height format alignedw alignedh; mret (Some size)
       else if IsUncompressedRGBFormat format then
         let bpp := GetBppForUncompressedRGB format in
         mret (Some (u32 (u32 (alignedw * alignedh) * bpp)))
       else if IsCompressedRGBFormat format then
         mret (Some (u32 (u32 (alignedw * alignedh) * ASTC_BLOCK_SIZE)))
       else yuv_size width height format alignedw alignedh);
  match r with
  | None => mret 0
  | Some size =>
      let align := GetDataAlignment format prod_usage cons_usage in
      mret (u32 (ALIGN_uint size align * u32 (bi_layer_count info)))
  end.

(** The switch of GetAlignedWidthAndHeight on YUV formats; [None] is the early
    return that leaves the results as they are. *)
Definition yuv_dims (width height format : Z) : outcome (option (Z * Z)) :=
  let alignment := 32 in
  match hal_format format with
  | HAL_PIXEL_FORMAT_YCrCb_420_SP | HAL_PIXEL_FORMAT_YCbCr_420_SP =>
      match instance with
      | None => mret None
      | Some a => w ← ALIGN_int width (GetGpuPixelAlignment a); mret (Some (w, height))
      end
  | HAL_PIXEL_FORMAT_YCrCb_420_SP_ADRENO => w ← ALIGN_int width alignment; mret (Some (w, height))
  | HAL_PIXEL_FORMAT_RAW16 | HAL_PIXEL_FORMAT_Y16 | HAL_PIXEL_FORMAT_Y8 =>
      w ← ALIGN_int width 16; mret (Some (w, height))
  | HAL_PIXEL_FORMAT_RAW12 =>
      t ← int_expr (width * 12); w ← ALIGN_int (t ÷ 8) 8; mret (Some (w, height))
  | HAL_PIXEL_FORMAT_RAW10 =>
      t ← int_expr (width * 10); w ← ALIGN_int (t ÷ 8) 8; mret (Some (w, height))
  | HAL_PIXEL_FORMAT_RAW8 => w ← ALIGN_int width 8; mret (Some (w, height))
  | HAL_PIXEL_FORMAT_YCbCr_420_SP_TILED => w ← ALIGN_int width 128; mret (Some (w, height))
  | HAL_PIXEL_FORMAT_YV12 | HAL_PIXEL_FORMAT_YCbCr_422_SP | HAL_PIXEL_FORMAT_YCrCb_422_SP
  | HAL_PIXEL_FORMAT_YCbCr_422_I | HAL_PIXEL_FORMAT_YCrCb_422_I
  | HAL_PIXEL_FORMAT_YCbCr_420_P010 => w ← ALIGN_int width 16; mret (Some (w, height))
  | HAL_PIXEL_FORMAT_YCbCr_420_SP_VENUS | HAL_PIXEL_FORMAT_NV12_ENCODEABLE =>
      mret (Some (s32 (VENUS_Y_STRIDE COLOR_FMT_NV12 width), s32 (VENUS_Y_SCANLINES COLOR_FMT_NV12 height)))
  | HAL_PIXEL_FORMAT_YCrCb_420_SP_VENUS =>
      mret (Some (s32 (VENUS_Y_STRIDE COLOR_FMT_NV21 width), s32 (VENUS_Y_SCANLINES COLOR_FMT_NV21 height)))
  | HAL_PIXEL_FORMAT_NV21_ZSL =>
      w ← ALIGN_int width 64; h ← ALIGN_int height 64; mret (Some (w, h))
  | _ => mret (Some (width, height))
  end.

(** [out] is what the results point to before the call. *)
Definition GetAlignedWidthAndHeight (info : BufferInfo) (out : Z * Z) : outcome (Z * Z) :=
  let width := bi_width info in
  let height := bi_height info in
  let format := bi_format info in
  let ubwc_enabled := IsUBwcEnabled format (bi_prod_usage info) (bi_cons_usage info) in
  let tile := Z.b2z ubwc_enabled in
  if IsUncompressedRGBFormat format then
    match instance with Some a => AlignUnCompressedRGB a width height format tile | None => mret out end
  else if ubwc_enabled then mret (GetYuvUBwcWidthAndHeight width height format)
  else if IsCompressedRGBFormat format then
    match instance with Some a => AlignCompressedRGB a width height format | None => mret out end
  else
    r ← yuv_dims width height format;
    match r with
    | None => mret out
    | Some (aligned_w, aligned_h) => mret (u32 aligned_w, u32 aligned_h)
    end.

(** The size and the aligned width and height. *)
Definition GetBufferSizeAndDimensions (info : BufferInfo) (out : Z * Z) : outcome (Z * Z * Z) :=
  '(aw, ah) ← GetAlignedWidthAndHeight info out;
  size ← GetSize info aw ah; mret (size, aw, ah).

(** * Planes *)
Record android_ycbcr := mkYcbcr {
  y : Z; cb : Z; cr : Z;
  ystride : Z; cstride : Z; chroma_step : Z
}.
Definition set_chroma_step (c : Z) (i : android_ycbcr) : android_ycbcr :=
  mkYcbcr (y i) (cb i) (cr i) (ystride i) (cstride i) c.
(** [std::swap(ycbcr->cb, ycbcr->cr)] *)
Definition swap_cb_cr (i : android_ycbcr) : android_ycbcr :=
  mkYcbcr (y i) (cr i) (cb i) (ystride i) (cstride i) (chroma_step i).

(** [chroma_step] is left as it is. *)
Definition GetYuvUbwcSPPlaneInfo (base width height : Z) (color_format : ColorFmt)
    (ycbcr : android_ycbcr) : android_ycbcr :=
  let alignment := 4096 in
  let y_meta_stride := VENUS_Y_META_STRIDE color_format (s32 width) in
  let y_meta_height := VENUS_Y_META_SCANLINES color_format (s32 height) in
  let y_meta_size := ALIGN_uint (u32 (y_meta_stride * y_meta_height)) alignment in
  let y_stride := VENUS_Y_STRIDE color_format (s32 width) in
  let y_height := VENUS_Y_SCANLINES color_format (s32 height) in
  let y_size := ALIGN_uint (u32 (y_stride * y_height)) alignment in
  let c_meta_stride := VENUS_UV_META_STRIDE color_format (s32 width) in
  let c_meta_height := VENUS_UV_META_SCANLINES color_format (s32 height) in
  let c_meta_size := ALIGN_uint (u32 (c_meta_stride * c_meta_height)) alignment in
  {| y := u64 (base + y_meta_size);
     cb := u64 (base + y_meta_size + y_size + c_meta_size);
     cr := u64 (base + y_meta_size + y_size + c_meta_size + 1);
     ystride := y_stride;
     cstride := VENUS_UV_STRIDE color_format (s32 width);
     chroma_step := chroma_step ycbcr |}.

(** Both fields of an interlaced picture: ycbcr[0] and ycbcr[1]. *)
Definition GetYuvUbwcInterlacedSPPlaneInfo (base width height : Z) (color_format : ColorFmt)
    (ycbcr : android_ycbcr * android_ycbcr) : android_ycbcr * android_ycbcr :=
  let alignment := 4096 in
  let height := Z.shiftr (u32 (height + 1)) 1 in
  let uv_stride := VENUS_UV_STRIDE color_format (s32 width) in
  let uv_height := VENUS_UV_SCANLINES color_format (s32 height) in
  let uv_size := ALIGN_uint (u32 (uv_stride * uv_height)) alignment in
  let field_base := base in
  let i0 := GetYuvUbwcSPPlaneInfo field_base width height COLOR_FMT_NV12_UBWC (fst ycbcr) in
  let field_base := u64 (cb i0 + uv_size) in
  let i1 := GetYuvUbwcSPPlaneInfo field_base width height COLOR_FMT_NV12_UBWC (snd ycbcr) in
  (i0, i1).

Definition GetYuvSPPlaneInfo (base width height bpp : Z) : android_ycbcr :=
  let stride := u32 (width * bpp) in
  {| y := base;
     cb := u64 (base + u32 (stride * height));
     cr := u64 (base + u32 (stride * height) + 1);
     ystride := stride; cstride := stride; chroma_step := u32 (2 * bpp) |}.

(** The switch of GetYUVPlaneInfo: the error and the plane information. *)
Definition plane_info (base width height format : Z) (interlaced : bool)
    (ycbcr : android_ycbcr * android_ycbcr) : Z * (android_ycbcr * android_ycbcr) :=
  let i1 := snd ycbcr in
  match hal_format format with
  | HAL_PIXEL_FORMAT_YCbCr_420_SP | HAL_PIXEL_FORMAT_YCbCr_422_SP
  | HAL_PIXEL_FORMAT_YCbCr_420_SP_VENUS | HAL_PIXEL_FORMAT_NV12_ENCODEABLE =>
      (0, (GetYuvSPPlaneInfo base width height 1, i1))
  | HAL_PIXEL_FORMAT_YCbCr_420_P010 => (0, (GetYuvSPPlaneInfo base width height 2, i1))
  | HAL_PIXEL_FORMAT_YCbCr_420_SP_VENUS_UBWC =>
      let '(i0, i1) :=
        if negb interlaced then
          (GetYuvUbwcSPPlaneInfo base width height COLOR_FMT_NV12_UBWC (fst ycbcr), i1)
        else GetYuvUbwcInterlacedSPPlaneInfo base width height COLOR_FMT_NV12_UBWC ycbcr in
      (0, (set_chroma_step 2 i0, i1))
  | HAL_PIXEL_FORMAT_YCbCr_420_TP10_UBWC =>
      (0, (set_chroma_step 3
             (GetYuvUbwcSPPlaneInfo base width height COLOR_FMT_NV12_BPP10_UBWC (fst ycbcr)), i1))
  | HAL_PIXEL_FORMAT_YCbCr_420_P010_UBWC =>
      (0, (set_chroma_step 4
             (GetYuvUbwcSPPlaneInfo base width height COLOR_FMT_P010_UBWC (fst ycbcr)), i1))
  | HAL_PIXEL_FORMAT_YCrCb_420_SP | HAL_PIXEL_FORMAT_YCrCb_422_SP
  | HAL_PIXEL_FORMAT_YCrCb_420_SP_ADRENO | HAL_PIXEL_FORMAT_YCrCb_420_SP_VENUS
  | HAL_PIXEL_FORMAT_NV21_ZSL | HAL_PIXEL_FORMAT_RAW16 | HAL_PIXEL_FORMAT_Y16
  | HAL_PIXEL_FORMAT_RAW10 | HAL_PIXEL_FORMAT_RAW8 | HAL_PIXEL_FORMAT_Y8 =>
      (0, (swap_cb_cr (GetYuvSPPlaneInfo base width height 1), i1))
  | HAL_PIXEL_FORMAT_YV12 =>
      let ys := width in
      let cs := ALIGN_uint (width / 2) 16 in
      (0, ({| y := base;
              cr := u64 (base + u32 (ys * height));
              cb := u64 (base + u32 (ys * height) + u32 (cs * height) / 2);
              ystride := ys; cstride := cs; chroma_step := 1 |}, i1))
  | HAL_PIXEL_FORMAT_CbYCrY_422_I =>
      (0, ({| y := base; cb := 0; cr := 0; ystride := u32 (width * 2); cstride := 0;
              chroma_step := 0 |}, i1))
  | _ => (- EINVAL, ycbcr)
  end.

Section Handles.
Context `{HandleAbi} `{!Mmap}.

(** The dimensions when the geometry was queried with result [r] and value [v]. *)
Definition slice_dims (r : Z) (v : option ParamVal) (format prod_usage cons_usage : Z) (dims : Z * Z)
    : outcome (Z * Z) :=
  match v with
  | Some (VDim d) =>
      if r =? 0 then
        GetAlignedWidthAndHeight
          (new_BufferInfo (sliceWidth d) (sliceHeight d) format prod_usage cons_usage) dims
      else Ret dims
  | _ => Ret dims
  end.

(** [ycbcr] is what the result points to before the call. *)
Definition GetYUVPlaneInfo (p : Z) (ycbcr : android_ycbcr * android_ycbcr)
    : M (Z * (android_ycbcr * android_ycbcr)) :=
  h ← get_handle p;
  let width := u32 (width h) in
  let height := u32 (height h) in
  let prod_usage := producer_usage h in
  let cons_usage := consumer_usage h in
  '(r, v) ← getMetaData p GET_LINEAR_FORMAT;
  let linear_format := match v with Some (VUint32 x) => s32 x | _ => 0 end in
  let format := if r =? 0 then linear_format else format h in
  '(r, v) ← getMetaData p GET_BUFFER_GEOMETRY;
  '(width, height) ← st_lift (slice_dims r v format prod_usage cons_usage (width, height));
  '(r, v) ← getMetaData p GET_PP_PARAM_INTERLACED;
  let interlace_flag := match v with Some (VInt32 x) => x | _ => 0 end in
  let interlaced := if negb (r =? 0) then negb (interlace_flag =? 0) else false in
  h ← get_handle p;
  mret (plane_info (base h) width height format interlaced ycbcr).

(** The error and the address written, if any. *)
Definition GetRgbDataAddress (p : Z) : M (Z * option Z) :=
  hnd ← get_handle p;
  if negb (IsUncompressedRGBFormat (format hnd)) then mret (- EINVAL, None)
  else if negb (has (flags hnd) PRIV_FLAGS_UBWC_ALIGNED) then mret (0, Some (base hnd))
  else
    let bpp := GetBppForUncompressedRGB (format hnd) in
    '(err, meta_size) ← (match hal_format (format hnd) with
      | HAL_PIXEL_FORMAT_BGR_565 | HAL_PIXEL_FORMAT_RGBA_8888 | HAL_PIXEL_FORMAT_RGBX_8888
      | HAL_PIXEL_FORMAT_RGBA_1010102 | HAL_PIXEL_FORMAT_RGBX_1010102 =>
          m ← st_lift (GetRgbUBwcMetaBufferSize (width hnd) (height hnd) bpp); mret (0, m)
      | _ => mret (- EINVAL, 0)
      end);
    mret (err, Some (u64 (base hnd + meta_size))).

(** The multiplier of the width in the first switch of GetBufferLayout. *)
Definition layout_bytes (format : Z) : option Z :=
  match hal_format format with
  | HAL_PIXEL_FORMAT_RGB_565 | HAL_PIXEL_FORMAT_BGR_565 | HAL_PIXEL_FORMAT_RGBA_5551
  | HAL_PIXEL_FORMAT_RGBA_4444 => Some 2
  | HAL_PIXEL_FORMAT_RGB_888 => Some 3
  | HAL_PIXEL_FORMAT_RGBA_8888 | HAL_PIXEL_FORMAT_BGRA_8888 | HAL_PIXEL_FORMAT_RGBX_8888
  | HAL_PIXEL_FORMAT_BGRX_8888 | HAL_PIXEL_FORMAT_RGBA_1010102 | HAL_PIXEL_FORMAT_ARGB_2101010
  | HAL_PIXEL_FORMAT_RGBX_1010102 | HAL_PIXEL_FORMAT_XRGB_2101010
  | HAL_PIXEL_FORMAT_BGRA_1010102 | HAL_PIXEL_FORMAT_ABGR_2101010
  | HAL_PIXEL_FORMAT_BGRX_1010102 | HAL_PIXEL_FORMAT_XBGR_2101010 => Some 4
  | _ => None
  end.

(** stride[4], offset[4] and *num_planes. *)
Record Layout := mkLayout { strides : list Z; offsets : list Z; num_planes : Z }.

(** The second switch of GetBufferLayout; the error it sets is not returned. *)
Definition layout_chroma (format base : Z) (i : android_ycbcr) (l : Layout) : Layout :=
  match hal_format format with
  | HAL_PIXEL_FORMAT_YCbCr_420_SP | HAL_PIXEL_FORMAT_YCbCr_422_SP
  | HAL_PIXEL_FORMAT_YCbCr_420_SP_VENUS | HAL_PIXEL_FORMAT_NV12_ENCODEABLE
  | HAL_PIXEL_FORMAT_YCbCr_420_SP_VENUS_UBWC | HAL_PIXEL_FORMAT_YCbCr_420_P010
  | HAL_PIXEL_FORMAT_YCbCr_420_TP10_UBWC | HAL_PIXEL_FORMAT_YCbCr_420_P010_UBWC =>
      mkLayout (strides l) (<[1%nat := u32 (cb i - base)]> (offsets l)) (num_planes l)
  | HAL_PIXEL_FORMAT_YCrCb_420_SP | HAL_PIXEL_FORMAT_YCrCb_420_SP_VENUS
  | HAL_PIXEL_FORMAT_YCrCb_422_SP =>
      mkLayout (strides l) (<[1%nat := u32 (cr i - base)]> (offsets l)) (num_planes l)
  | HAL_PIXEL_FORMAT_YV12 =>
      mkLayout (<[2%nat := u32 (cstride i)]> (strides l))
        (<[2%nat := u32 (cb i - base)]> (<[1%nat := u32 (cr i - base)]> (offsets l)))
        (u32 (num_planes l + 1))
  | _ => l
  end.

(** [p] is null when 0; [out] is [None] when one of the result pointers is null.
    The second element of the plane information is not there: the code passes the
    address of one structure. *)
Definition GetBufferLayout (p : Z) (out : option Layout) : M (Z * option Layout) :=
  match out with
  | None => mret (- EINVAL, None)
  | Some l =>
    if p =? 0 then mret (- EINVAL, Some l)
    else
      hnd ← get_handle p;
      s0 ← (match layout_bytes (format hnd) with
            | Some n => x ← st_lift (int_expr (width hnd * n)); mret (u32 x)
            | None => mret 0
            end);
      let l := mkLayout (<[0%nat := s0]> (strides l)) (offsets l) 1 in
      if negb (s0 =? 0) then mret (0, Some l)
      else
        let l := mkLayout (strides l) (offsets l) 2 in
        let zero := mkYcbcr 0 0 0 0 0 0 in
        '(ret, (i, _)) ← GetYUVPlaneInfo p (zero, zero);
        if ret <? 0 then mret (ret, Some l)
        else
          hnd ← get_handle p;
          let l := mkLayout (<[1%nat := u32 (cstride i)]> (<[0%nat := u32 (ystride i)]> (strides l)))
            (<[0%nat := u32 (y i - base hnd)]> (offsets l)) (num_planes l) in
          let l := layout_chroma (format hnd) (base hnd) i l in
          let l := if has (flags hnd) PRIV_FLAGS_UBWC_ALIGNED
                   then mkLayout (strides l) [0; 0; 0; 0] (num_planes l) else l in
          mret (0, Some l)
  end.
End Handles.

Definition IsGPUSupportedHwBuffer (prod_usage : Z) : outcome bool :=
  if has prod_usage GRALLOC1_PRODUCER_USAGE_PROTECTED &&
     (has prod_usage GRALLOC1_PRODUCER_USAGE_GPU_RENDER_TARGET ||
      has prod_usage GRALLOC1_PRODUCER_USAGE_GPU_SAMPLED_IMAGE ||
      has prod_usage GRALLOC1_PRODUCER_USAGE_GPU_DATA_BUFFER ||
      has prod_usage GRALLOC1_PRODUCER_USAGE_GPU_CUBE_MAP ||
      has prod_usage GRALLOC1_PRODUCER_USAGE_GPU_MIPMAP_COMPLETE)
  then match instance with
       | Some a => mret (isSecureContextSupportedByGpu a)
       | None => Undef
       end
  else mret true.

End Utils.
End GrUtils.

Module GrFacts.
Import MetaData MetaSpec MetaFacts GrUtils.

(** ** ALIGN *)

(** The least multiple of [a] that is not below [x]. *)
Definition align_up (a x : Z) : Z := (x + a - 1) / a * a.

Lemma align_up_spec a x : 0 < a -> x <= align_up a x < x + a /\ (a | align_up a x).
Proof.
  intros Ha. unfold align_up. split; [|by exists ((x + a - 1) / a)].
  pose proof (Z.div_mod (x + a - 1) a ltac:(lia)). pose proof (Z.mod_pos_bound (x + a - 1) a Ha). lia.
Qed.

Lemma align_up_least a x m : 0 < a -> x <= m -> (a | m) -> align_up a x <= m.
Proof.
  intros Ha Hx [q ->]. unfold align_up. apply Z.mul_le_mono_nonneg_r; [lia|].
  apply Z.lt_succ_r, Z.div_lt_upper_bound; lia.
Qed.

Lemma align_up_clear k x : 0 <= k -> Z.land (x + 2 ^ k - 1) (Z.lnot (2 ^ k - 1)) = align_up (2 ^ k) x.
Proof.
  intros Hk. rewrite land_clear by done. unfold align_up.
  pose proof (Z.div_mod (x + 2 ^ k - 1) (2 ^ k) ltac:(lia)). lia.
Qed.

Lemma land_wrap t x : 0 <= t < 2 ^ 32 -> Z.land t (u32 x) = Z.land t x.
Proof.
  intros Ht. unfold uwrap. rewrite <- Z.land_ones by lia.
  rewrite (Z.land_comm x), Z.land_assoc, Z.land_ones, Z.mod_small by lia. done.
Qed.

Lemma ALIGN_uint_ok k x : 0 <= k < 32 -> 0 <= x -> x + 2 ^ k - 1 < 2 ^ 32 ->
  ALIGN_uint x (2 ^ k) = align_up (2 ^ k) x.
Proof.
  intros Hk Hx Ho. assert (Hp : 0 < 2 ^ k < 2 ^ 32)
    by (split; [lia|apply Z.pow_lt_mono_r; lia]).
  unfold ALIGN_uint. rewrite (uwrap_small 32 (2 ^ k)), (uwrap_small 32 (2 ^ k - 1)) by lia.
  rewrite (uwrap_small 32 (x + 2 ^ k - 1)) by lia.
  rewrite land_wrap by lia. apply align_up_clear. lia.
Qed.

Lemma ALIGN_int_ok k x : 0 <= k < 31 -> 0 <= x -> x + 2 ^ k <= INT_MAX ->
  ALIGN_int x (2 ^ k) = Ret (align_up (2 ^ k) x).
Proof.
  intros Hk Hx Ho. assert (Hp : 0 < 2 ^ k < 2 ^ 31)
    by (split; [lia|apply Z.pow_lt_mono_r; lia]).
  unfold ALIGN_int. rewrite (swrap_small 32 (2 ^ k)) by (change (32 - 1) with 31; lia).
  unfold INT_MAX in Ho. change (2 ^ 31) with 2147483648 in Hp.
  rewrite !int_expr_ok, !bind_ret by (unfold INT_MIN, INT_MAX; lia).
  rewrite !int_expr_ok, !bind_ret by (unfold INT_MIN, INT_MAX; lia).
  by rewrite align_up_clear by lia.
Qed.

(** ** Plane queries on a handle *)
Section Planes.
Context `{Platform} (inst : option AdrenoMemInfo) `{HandleAbi} `{!Mmap} `{!MmapOk}.

(** The format and the dimensions the metadata [d] gives a handle [h]. *)
Definition read_format (h : private_handle_t) (d : MetaData_t) : Z :=
  match fetch GET_LINEAR_FORMAT d with Some (VUint32 x) => s32 x | Some _ => 0 | None => format h end.
Definition read_dims (h : private_handle_t) (d : MetaData_t) : outcome (Z * Z) :=
  match fetch GET_BUFFER_GEOMETRY d with
  | Some (VDim g) => GetAlignedWidthAndHeight inst
      (new_BufferInfo (sliceWidth g) (sliceHeight g) (read_format h d) (producer_usage h)
        (consumer_usage h)) (u32 (width h), u32 (height h))
  | _ => Ret (u32 (width h), u32 (height h))
  end.

(** Whatever the interlaced parameter says, the planes are those of a
    progressive picture. *)
Lemma GetYUVPlaneInfo_ok hs buf w p h d z : world_ok hs buf w -> p ∈ hs ->
  handles w !! p = Some h -> contents w !! buf p = Some d ->
  exists w', GetYUVPlaneInfo inst p z w =
    match read_dims h d with
    | Ret (a, b) => Ret (plane_info (base h) a b (read_format h d) false z, w')
    | Undef => Undef
    | NoFuel => NoFuel
    end.
Proof.
  intros Hw Hp Eh Ed. unfold GetYUVPlaneInfo.
  rewrite (st_bind_Ret _ _ _ h w) by (unfold get_handle; by rewrite Eh).
  destruct (getMetaData_ok hs buf w p h d GET_LINEAR_FORMAT Hw Hp Eh Ed)
    as (w1 & a1 & E1 & Hw1 & Hc1 & Eh1).
  destruct (getMetaData_ok hs buf w1 p _ d GET_BUFFER_GEOMETRY Hw1 Hp Eh1 ltac:(congruence))
    as (w2 & a2 & E2 & Hw2 & Hc2 & Eh2).
  destruct (getMetaData_ok hs buf w2 p _ d GET_PP_PARAM_INTERLACED Hw2 Hp Eh2 ltac:(congruence))
    as (w3 & a3 & E3 & Hw3 & Hc3 & Eh3).
  exists w3. rewrite (st_bind_Ret _ _ _ _ _ E1).
  destruct (answer (fetch GET_LINEAR_FORMAT d)) as [r1 v1] eqn:R1.
  rewrite (st_bind_Ret _ _ _ _ _ E2).
  destruct (answer (fetch GET_BUFFER_GEOMETRY d)) as [r2 v2] eqn:R2.
  assert (F : (if r1 =? 0 then match v1 with Some (VUint32 x) => s32 x | _ => 0 end else format h)
              = read_format h d).
  { unfold read_format. destruct (fetch GET_LINEAR_FORMAT d) as [v|]; injection R1 as <- <-; [|done].
    by destruct v. }
  cbv beta iota zeta. rewrite F.
  assert (D : slice_dims inst r2 v2 (read_format h d) (producer_usage h) (consumer_usage h)
                (u32 (width h), u32 (height h)) = read_dims h d).
  { unfold read_dims. destruct (fetch GET_BUFFER_GEOMETRY d) as [v|]; injection R2 as <- <-; [|done].
    by destruct v. }
  rewrite D. destruct (read_dims h d) as [[a b]| |]; [|done..].
  rewrite (st_bind_Ret (st_lift (Ret (a, b))) _ w2 (a, b) w2) by done.
  rewrite (st_bind_Ret _ _ _ _ _ E3).
  destruct (answer (fetch GET_PP_PARAM_INTERLACED d)) as [r3 v3] eqn:R3.
  assert (I : (if negb (r3 =? 0) then negb (match v3 with Some (VInt32 x) => x | _ => 0 end =? 0)
               else false) = false).
  { destruct (fetch GET_PP_PARAM_INTERLACED d); injection R3 as <- <-; done. }
  rewrite I. unfold mbind, st_bind, get_handle. by rewrite Eh3.
Qed.

Lemma plane_info_progressive base a b f z : snd (snd (plane_info base a b f false z)) = snd z.
Proof. unfold plane_info. by destruct (hal_format f). Qed.

Lemma AlignUnCompressedRGB_total a w h f tile : 0 < w <= 16384 -> 0 < h <= 16384 ->
  exists aw ah, AlignUnCompressedRGB a w h f tile = Ret (aw, ah).
Proof.
  intros Hw Hh. unfold AlignUnCompressedRGB.
  rewrite !(ALIGN_int_ok 5), !bind_ret by (unfold INT_MAX; change (2 ^ 5) with 32; lia).
  destruct (map_fb_ a); [by eexists _, _|].
  destruct (compute_aligned_width_and_height (LINK a)) as [g|]; [|destruct (compute_surface_padding _)];
    try (by eexists _, _).
  cbv zeta. destruct (g _ _ _ _ _ _). by eexists _, _.
Qed.
End Planes.
End GrFacts.

(** * The linear YUV formats with their planes *)
Module GrPlanes.
Import MetaData MetaSpec MetaFacts GrUtils GrFacts.

(** Formats whose planes GetYUVPlaneInfo describes and whose size does not come
    from the video library. *)
Definition linear_yuv (f : HalFormat) : bool :=
  match f with
  | HAL_PIXEL_FORMAT_YCbCr_420_SP | HAL_PIXEL_FORMAT_YCrCb_420_SP
  | HAL_PIXEL_FORMAT_YCbCr_422_SP | HAL_PIXEL_FORMAT_YCrCb_422_SP
  | HAL_PIXEL_FORMAT_YCbCr_420_P010 | HAL_PIXEL_FORMAT_YCrCb_420_SP_ADRENO
  | HAL_PIXEL_FORMAT_NV21_ZSL | HAL_PIXEL_FORMAT_YV12 | HAL_PIXEL_FORMAT_CbYCrY_422_I => true
  | _ => false
  end.

(** The planes of a picture of [rows] lines: address and number of bytes. *)
Definition planes (f : HalFormat) (rows : Z) (i : android_ycbcr) : list (Z * Z) :=
  match f with
  | HAL_PIXEL_FORMAT_CbYCrY_422_I => [(y i, ystride i * rows)]
  | HAL_PIXEL_FORMAT_YV12 =>
      [(y i, ystride i * rows); (cr i, cstride i * (rows / 2)); (cb i, cstride i * (rows / 2))]
  | HAL_PIXEL_FORMAT_YCbCr_422_SP | HAL_PIXEL_FORMAT_YCrCb_422_SP =>
      [(y i, ystride i * rows); (Z.min (cb i) (cr i), cstride i * rows)]
  | _ => [(y i, ystride i * rows); (Z.min (cb i) (cr i), cstride i * (rows / 2))]
  end.

(** The planes follow each other between [lo] and [hi] without overlap. *)
Fixpoint laid_out (lo : Z) (l : list (Z * Z)) (hi : Z) : Prop :=
  match l with
  | [] => lo <= hi
  | (s, n) :: l => lo <= s /\ 0 <= n /\ laid_out (s + n) l hi
  end.

Lemma laid_out_mono l lo hi hi' : laid_out lo l hi -> hi <= hi' -> laid_out lo l hi'.
Proof. revert lo. induction l as [|[s n] l IH]; cbn [laid_out]; intros lo; [lia|]. naive_solver. Qed.

(** The bytes from the start of the buffer to the end of its last plane. *)
Definition needed (f : HalFormat) (aw ah : Z) : Z :=
  match f with
  | HAL_PIXEL_FORMAT_CbYCrY_422_I
  | HAL_PIXEL_FORMAT_YCbCr_422_SP | HAL_PIXEL_FORMAT_YCrCb_422_SP => 2 * (aw * ah)
  | HAL_PIXEL_FORMAT_YCbCr_420_P010 => 3 * (aw * ah)
  | HAL_PIXEL_FORMAT_YV12 => aw * ah + 2 * (align_up 16 (aw / 2) * (ah / 2))
  | _ => aw * ah + aw * (ah / 2)
  end.

(** Aligned dimensions of a picture of at most 16384 by 16384. *)
Definition dims_ok (aw ah : Z) : Prop := 0 < aw <= 20480 /\ 0 < ah <= 16448 /\ ah mod 2 = 0.

Lemma dims_product aw ah : dims_ok aw ah -> 0 <= aw * ah <= 336855040 /\ ah = 2 * (ah / 2) /\
  aw * ah = 2 * (aw * (ah / 2)).
Proof.
  intros (Hw & Hh & He). assert (E : ah = 2 * (ah / 2)) by (Z.div_mod_to_equations; lia).
  split; [nia|]. split; [done|]. rewrite E at 1. ring.
Qed.

Lemma align_up_16 aw ah : dims_ok aw ah -> 0 <= align_up 16 (aw / 2) * (ah / 2) <= 84344320 /\
  align_up 16 (aw / 2) * ah = 2 * (align_up 16 (aw / 2) * (ah / 2)).
Proof.
  intros D. destruct (dims_product aw ah D) as (_ & E & _). destruct D as (Hw & Hh & He).
  destruct (align_up_spec 16 (aw / 2) ltac:(lia)) as [Ha _].
  assert (0 <= align_up 16 (aw / 2) <= 10255) by (Z.div_mod_to_equations; lia).
  split; [nia|]. rewrite E at 1. ring.
Qed.

(** [u32] and ALIGN disappear when nothing wraps. *)
Ltac nowrap := rewrite ?(uwrap_small 32), ?(uwrap_small 64) by (pow2_num; lia).

Section Fit.
Context `{Platform} (a : AdrenoMemInfo).

Lemma plane_info_fits f base aw ah il z : linear_yuv (hal_format f) = true -> dims_ok aw ah ->
  0 <= base -> base + needed (hal_format f) aw ah < 2 ^ 64 ->
  exists i, plane_info base aw ah f il z = (0, (i, snd z)) /\
    laid_out base (planes (hal_format f) ah i) (base + needed (hal_format f) aw ah).
Proof.
  intros L D Hb Hn. pose proof (dims_product aw ah D) as (P & E & Q).
  pose proof (align_up_16 aw ah D) as (P2 & E2). destruct D as (Hw & Hh & _).
  unfold plane_info, GetYuvSPPlaneInfo, swap_cb_cr.
  destruct (hal_format f) eqn:F; try discriminate L; cbn [needed planes] in *;
    eexists; (split; [reflexivity|]); cbn [laid_out y cb cr ystride cstride chroma_step].
  all: try change 16 with (2 ^ 4).
  all: rewrite ?ALIGN_uint_ok by (try change (2 ^ 4) with 16; pow2_num; Z.div_mod_to_equations; lia).
  all: try change (2 ^ 4) with 16.
  all: try rewrite E2.
  all: rewrite ?Z.mul_1_r.
  all: repeat match goal with |- context [uwrap ?k ?x] =>
         rewrite (uwrap_small k x) by (pow2_num; rewrite ?(Z.mul_comm 2), ?Z.div_mul by done; lia) end.
  all: rewrite ?(Z.mul_comm 2 (align_up _ _ * _)), ?Z.div_mul by done.
  all: lia.
Qed.

(** Alignments the code uses, as powers of two. *)
Lemma ALIGN_int_lit x k : 0 <= x <= 2 ^ 30 -> 0 <= k <= 12 ->
  ALIGN_int x (2 ^ k) = Ret (align_up (2 ^ k) x) /\ x <= align_up (2 ^ k) x <= x + 4095.
Proof.
  intros Hx Hk. assert (B : 1 <= 2 ^ k <= 4096).
  { split; [lia|]. change 4096 with (2 ^ 12). apply Z.pow_le_mono_r; lia. }
  split; [apply ALIGN_int_ok; unfold INT_MAX; lia|].
  pose proof (align_up_spec (2 ^ k) x). lia.
Qed.

Lemma yuv_dims_ok f w h g : linear_yuv (hal_format f) = true ->
  0 < w <= 16384 -> 0 < h <= 16384 -> h mod 2 = 0 ->
  GetGpuPixelAlignment a = 2 ^ g -> 0 <= g <= 12 ->
  exists aw ah, yuv_dims (Some a) w h f = Ret (Some (aw, ah)) /\ dims_ok aw ah /\ w <= aw /\ h <= ah /\
    (hal_format f = HAL_PIXEL_FORMAT_YCrCb_420_SP_ADRENO -> aw = align_up 32 w /\ ah = h).
Proof.
  intros L Hw Hh He Hg Hg12. unfold yuv_dims, dims_ok.
  pose proof (ALIGN_int_lit w g ltac:(lia) Hg12) as [E1 B1].
  pose proof (ALIGN_int_lit w 5 ltac:(lia) ltac:(lia)) as [E2 B2].
  pose proof (ALIGN_int_lit w 4 ltac:(lia) ltac:(lia)) as [E3 B3].
  pose proof (ALIGN_int_lit w 6 ltac:(lia) ltac:(lia)) as [E4 B4].
  assert (E5 : ALIGN_int h 64 = Ret (align_up 64 h))
    by (change 64 with (2 ^ 6); apply ALIGN_int_lit; lia).
  destruct (align_up_spec 64 h ltac:(lia)) as [B5 [q D5]].
  change (2 ^ 5) with 32 in *. change (2 ^ 4) with 16 in *. change (2 ^ 6) with 64 in *.
  destruct (hal_format f) eqn:F; try discriminate L;
    rewrite ?Hg, ?E1, ?E2, ?E3, ?E4, ?bind_ret, ?E5, ?bind_ret;
    (eexists _, _; split; [reflexivity|]);
    (split; [split; [lia|split; [lia|]]; first [exact He|rewrite D5; replace (q * 64) with (q * 32 * 2) by ring; apply Z.mod_mul; lia]|]);
    (split; [lia|split; [lia|]]); intros; try discriminate; done.
Qed.

Lemma land1_even w : w mod 2 = 0 -> negb (Z.land w 1 =? 0) = false.
Proof. intros E. change 1 with (2 ^ 1 - 1). rewrite land_mask by lia. change (2 ^ 1) with 2. by rewrite E. Qed.

Lemma ALIGN_uint_4K x : 0 <= x <= 2 ^ 31 ->
  ALIGN_uint x SIZE_4K = align_up 4096 x /\ x <= align_up 4096 x <= x + 4095.
Proof.
  intros Hx. split; [apply (ALIGN_uint_ok 12); lia|]. pose proof (align_up_spec 4096 x). lia.
Qed.

(** The chroma size of the Adreno format covers the chroma rows of its pitch. *)
Lemma adreno_chroma w h : 0 < w <= 16384 -> 0 < h <= 16384 -> w mod 2 = 0 -> h mod 2 = 0 ->
  exists t, (cw ← ALIGN_int (w ÷ 2) 32; ch ← ALIGN_int (h ÷ 2) 32;
    t ← int_expr (2 * cw); t ← int_expr (t * ch); ALIGN_int t SIZE_4K) = Ret t /\
    align_up 32 w * (h / 2) <= t <= 2 ^ 28.
Proof.
  intros Hw Hh Ew Eh. rewrite !Z.quot_div_nonneg by lia.
  destruct (ALIGN_int_lit (w / 2) 5) as [E1 B1]; [Z.div_mod_to_equations; lia|lia|].
  destruct (ALIGN_int_lit (h / 2) 5) as [E2 B2]; [Z.div_mod_to_equations; lia|lia|].
  change (2 ^ 5) with 32 in *. rewrite E1, bind_ret, E2, bind_ret.
  set (cw := align_up 32 (w / 2)) in *. set (ch := align_up 32 (h / 2)) in *.
  assert (U1 : cw <= 8192).
  { apply align_up_least; [lia|Z.div_mod_to_equations; lia|by exists 256]. }
  assert (U2 : ch <= 8192).
  { apply align_up_least; [lia|Z.div_mod_to_equations; lia|by exists 256]. }
  assert (Lw : align_up 32 w <= 2 * cw).
  { apply align_up_least; [lia|Z.div_mod_to_equations; lia|].
    destruct (align_up_spec 32 (w / 2) ltac:(lia)) as [_ [q D]]. exists (2 * q). subst cw. lia. }
  assert (W0 : 0 <= align_up 32 w) by (pose proof (align_up_spec 32 w); lia).
  assert (H0' : 0 <= h / 2) by (Z.div_mod_to_equations; lia).
  assert (T : 0 <= 2 * cw * ch <= 2 * 8192 * 8192).
  { split; [nia|]. apply Z.mul_le_mono_nonneg; lia. }
  rewrite int_expr_ok, bind_ret by (unfold INT_MIN, INT_MAX; lia).
  rewrite int_expr_ok, bind_ret by (unfold INT_MIN, INT_MAX; lia).
  destruct (ALIGN_int_lit (2 * cw * ch) 12) as [E3 B3]; [lia|lia|].
  change (2 ^ 12) with SIZE_4K in *. rewrite E3. eexists. split; [reflexivity|].
  assert (align_up 32 w * (h / 2) <= 2 * cw * ch) by (apply Z.mul_le_mono_nonneg; lia).
  assert (align_up SIZE_4K (2 * cw * ch) <= 2 * 8192 * 8192).
  { apply align_up_least; [done|lia|by exists 32768]. }
  lia.
Qed.

Lemma yuv_size_ok f w h aw ah : linear_yuv (hal_format f) = true ->
  0 < w <= 16384 -> 0 < h <= 16384 -> w mod 2 = 0 -> h mod 2 = 0 -> dims_ok aw ah ->
  (hal_format f = HAL_PIXEL_FORMAT_YCrCb_420_SP_ADRENO -> aw = align_up 32 w /\ ah = h) ->
  exists s, yuv_size w h f aw ah = Ret (Some s) /\ needed (hal_format f) aw ah <= s <= 2 ^ 31.
Proof.
  intros L Hw Hh Ew Eh D HA. pose proof (dims_product aw ah D) as (P & E & Q).
  pose proof (align_up_16 aw ah D) as (P2 & _).
  destruct (adreno_chroma w h Hw Hh Ew Eh) as (t & Et & Bt).
  destruct D as (Haw & Hah & _). unfold yuv_size.
  rewrite !(land1_even w), !(land1_even h) by done. cbn [orb].
  assert (H16 : ALIGN_uint (aw / 2) 16 = align_up 16 (aw / 2))
    by (apply (ALIGN_uint_ok 4); Z.div_mod_to_equations; lia).
  assert (Hhalf : aw * ah / 2 = aw * (ah / 2)) by (rewrite Q, Z.mul_comm; apply Z.div_mul; lia).
  destruct (hal_format f) eqn:F; try discriminate L; cbn [needed]; cbv zeta; rewrite ?H16;
    repeat match goal with |- context [uwrap ?k ?x] =>
      rewrite (uwrap_small k x) by (pow2_num; rewrite ?Hhalf; lia) end.
  1: { destruct (HA eq_refl) as [-> ->].
    destruct (ALIGN_uint_4K (align_up 32 w * h)) as [E1 B1]; [lia|]. rewrite E1.
    apply bind_Ret_inv in Et as (cw & Ecw & Et). rewrite Ecw, bind_ret.
    apply bind_Ret_inv in Et as (ch & Ech & Et). rewrite Ech, bind_ret.
    apply bind_Ret_inv in Et as (t1 & Et1 & Et). rewrite Et1, bind_ret.
    apply bind_Ret_inv in Et as (t2 & Et2 & Et). rewrite Et2, bind_ret.
    rewrite Et, bind_ret. eexists. split; [reflexivity|].
    rewrite (uwrap_small 32 t), (uwrap_small 32) by (pow2_num; nia). nia. }
  all: match goal with |- context [ALIGN_uint ?x SIZE_4K] =>
    destruct (ALIGN_uint_4K x) as [E1 B1]; [rewrite ?Hhalf; lia|rewrite E1] end.
  all: eexists; (split; [reflexivity|]); rewrite ?Hhalf in *; lia.
Qed.

(** The pages are a power of two from 4K to 64K. *)
Definition pages_ok : Prop := exists pg, 12 <= pg <= 16 /\ getpagesize = 2 ^ pg.

Lemma GetDataAlignment_pow f prod cons : pages_ok ->
  exists k, 0 <= k <= 21 /\ GetDataAlignment f prod cons = 2 ^ k.
Proof.
  intros (pg & Hpg & E).
  assert (U : u32 getpagesize = 2 ^ pg).
  { rewrite E. apply uwrap_small. split; [lia|apply Z.pow_lt_mono_r; lia]. }
  unfold GetDataAlignment. rewrite U.
  destruct (has prod _); [destruct (has prod _ || has cons _)|].
  - exists 21. done.
  - unfold SECURE_ALIGN. destruct MASTER_SIDE_CP; [by exists 12|by exists 20].
  - destruct (hal_format f); first [by exists 13|exists pg; lia].
Qed.

(** The final alignment only makes a size larger. *)
Lemma final_size f prod cons s : pages_ok -> 0 <= s <= 2 ^ 31 ->
  s <= u32 (ALIGN_uint s (GetDataAlignment f prod cons) * u32 1).
Proof.
  intros Hp Hs. destruct (GetDataAlignment_pow f prod cons Hp) as (k & Hk & ->).
  assert (B : 1 <= 2 ^ k <= 2 ^ 21) by (split; [lia|apply Z.pow_le_mono_r; lia]).
  destruct (align_up_spec (2 ^ k) s ltac:(lia)) as [A _].
  rewrite ALIGN_uint_ok by (pow2_num; lia). change (u32 1) with 1.
  rewrite Z.mul_1_r, uwrap_small by (pow2_num; lia). lia.
Qed.

(** A linear YUV format is none of the others. *)
Lemma linear_yuv_class f prod cons : linear_yuv (hal_format f) = true ->
  IsUBwcEnabled (Some a) f prod cons = false /\ IsUncompressedRGBFormat f = false /\
  IsCompressedRGBFormat f = false.
Proof.
  unfold IsUBwcEnabled, IsUBwcFormat, IsUBwcSupported, IsUncompressedRGBFormat, IsCompressedRGBFormat.
  destruct (hal_format f); try discriminate; by rewrite andb_false_r.
Qed.

Lemma linear_size f w h prod cons out g : linear_yuv (hal_format f) = true ->
  0 < w <= 16384 -> 0 < h <= 16384 -> w mod 2 = 0 -> h mod 2 = 0 -> pages_ok ->
  GetGpuPixelAlignment a = 2 ^ g -> 0 <= g <= 12 ->
  exists size aw ah,
    GetBufferSizeAndDimensions (Some a) (new_BufferInfo w h f prod cons) out = Ret (size, aw, ah) /\
    dims_ok aw ah /\ w <= aw /\ h <= ah /\ needed (hal_format f) aw ah <= size.
Proof.
  intros L Hw Hh Ew Eh Hp Hg Hg12.
  destruct (linear_yuv_class f prod cons L) as (C1 & C2 & C3).
  destruct (yuv_dims_ok f w h g L Hw Hh Eh Hg Hg12) as (aw & ah & Ed & D & Bw & Bh & HA).
  destruct (yuv_size_ok f w h aw ah L Hw Hh Ew Eh D HA) as (s & Es & Bs).
  assert (N : 0 <= needed (hal_format f) aw ah).
  { pose proof (dims_product aw ah D) as (P & _ & Q). pose proof (align_up_16 aw ah D) as (P2 & _).
    destruct (hal_format f); cbn [needed]; lia. }
  exists (u32 (ALIGN_uint s (GetDataAlignment f prod cons) * u32 1)), aw, ah.
  split; [|split; [done|split; [done|split; [done|]]]].
  - unfold GetBufferSizeAndDimensions, GetAlignedWidthAndHeight, GetSize, new_BufferInfo.
    cbn [bi_width bi_height bi_format bi_prod_usage bi_cons_usage bi_layer_count].
    rewrite C1, C2, C3, Ed, bind_ret. destruct D as (? & ? & _).
    rewrite (uwrap_small 32 aw), (uwrap_small 32 ah) by (pow2_num; lia).
    cbn [mret outcome_ret mbind outcome_bind]. rewrite Es. reflexivity.
  - pose proof (final_size f prod cons s Hp ltac:(lia)). lia.
Qed.

(** ** Compressed RGB buffers *)

(** The number of bytes of metadata depends on the blocks of 1024 by 64 pixels
    that cover the picture. *)
Definition rgb_meta_size (w h : Z) : Z :=
  align_up 4096 ((w + 1023) / 1024 * 64 * ((h + 63) / 64 * 16)).

Lemma align_up_blocks b n x : 0 < b -> 0 < n ->
  align_up n ((x + b - 1) / b) = (x + b * n - 1) / (b * n) * n.
Proof.
  intros Hb Hn. unfold align_up. f_equal. rewrite <- Z.div_div by lia. f_equal.
  replace (x + b * n - 1) with (x + b - 1 + (n - 1) * b) by ring.
  rewrite Z.div_add by lia. ring.
Qed.

Lemma rgb_meta_bound w h : 0 < w <= 16384 -> 0 < h <= 16384 ->
  0 <= (w + 1023) / 1024 * 64 * ((h + 63) / 64 * 16) <= 4194304 /\ 0 <= rgb_meta_size w h <= 4194304.
Proof.
  intros Hw Hh. assert (A : 0 <= (w + 1023) / 1024 <= 16) by (Z.div_mod_to_equations; lia).
  assert (B : 0 <= (h + 63) / 64 <= 256) by (Z.div_mod_to_equations; lia).
  assert (C : 0 <= (w + 1023) / 1024 * 64 * ((h + 63) / 64 * 16) <= 4194304).
  { split; [nia|]. apply (Z.mul_le_mono_nonneg _ 1024 _ 4096); lia. }
  split; [done|]. unfold rgb_meta_size.
  pose proof (align_up_spec 4096 ((w + 1023) / 1024 * 64 * ((h + 63) / 64 * 16))).
  split; [lia|]. apply align_up_least; [lia..|by exists 1024].
Qed.

Lemma GetRgbUBwcMetaBufferSize_ok w h bpp : 0 < w <= 16384 -> 0 < h <= 16384 ->
  bpp = 2 \/ bpp = 4 -> GetRgbUBwcMetaBufferSize w h bpp = Ret (rgb_meta_size w h).
Proof.
  intros Hw Hh Hb. pose proof (rgb_meta_bound w h Hw Hh) as [M1 M2].
  unfold GetRgbUBwcMetaBufferSize.
  replace (GetRgbUBwcBlockSize bpp) with (16, 4) by (by destruct Hb as [->| ->]).
  cbv beta iota. change ((16 =? 0) || (4 =? 0)) with false. cbv iota.
  rewrite (int_expr_ok (h + 4)), bind_ret by (unfold INT_MIN, INT_MAX; lia).
  rewrite (int_expr_ok (h + 4 - 1)), bind_ret, Z.quot_div_nonneg by (unfold INT_MIN, INT_MAX; lia).
  destruct (ALIGN_int_lit ((h + 4 - 1) / 4) 4) as [E1 _]; [Z.div_mod_to_equations; lia|lia|].
  change (2 ^ 4) with 16 in E1. rewrite E1, bind_ret.
  rewrite (int_expr_ok (w + 16)), bind_ret by (unfold INT_MIN, INT_MAX; lia).
  rewrite (int_expr_ok (w + 16 - 1)), bind_ret, Z.quot_div_nonneg by (unfold INT_MIN, INT_MAX; lia).
  destruct (ALIGN_int_lit ((w + 16 - 1) / 16) 6) as [E2 _]; [Z.div_mod_to_equations; lia|lia|].
  change (2 ^ 6) with 64 in E2. rewrite E2, bind_ret, !align_up_blocks by lia.
  replace (w + 16 * 64 - 1) with (w + 1023) by lia. replace (h + 4 * 16 - 1) with (h + 63) by lia.
  change (16 * 64) with 1024. change (4 * 16) with 64.
  rewrite int_expr_ok, bind_ret by (unfold INT_MIN, INT_MAX; lia).
  destruct (ALIGN_int_lit ((w + 1023) / 1024 * 64 * ((h + 63) / 64 * 16)) 12) as [E3 _]; [lia..|].
  change (2 ^ 12) with 4096 in E3. rewrite E3, bind_ret.
  fold (rgb_meta_size w h). rewrite uwrap_small by (pow2_num; lia). reflexivity.
Qed.

(** Padding inside the blocks does not change it. *)
Lemma rgb_meta_size_padded w h aw ah : w <= aw <= align_up 1024 w -> h <= ah <= align_up 64 h ->
  rgb_meta_size aw ah = rgb_meta_size w h.
Proof.
  intros Hw Hh. unfold rgb_meta_size, align_up in *.
  assert ((aw + 1023) / 1024 = (w + 1023) / 1024) as -> by (Z.div_mod_to_equations; lia).
  assert ((ah + 63) / 64 = (h + 63) / 64) as -> by (Z.div_mod_to_equations; lia). done.
Qed.

(** The RGB formats that can be compressed. *)
Definition ubwc_rgb (f : HalFormat) : bool :=
  match f with
  | HAL_PIXEL_FORMAT_BGR_565 | HAL_PIXEL_FORMAT_RGBA_8888 | HAL_PIXEL_FORMAT_RGBX_8888
  | HAL_PIXEL_FORMAT_RGBA_1010102 | HAL_PIXEL_FORMAT_RGBX_1010102 => true
  | _ => false
  end.

Lemma ubwc_rgb_class f prod cons : IsUncompressedRGBFormat f = true ->
  IsUBwcEnabled (Some a) f prod cons = true -> ubwc_rgb (hal_format f) = true.
Proof.
  unfold IsUBwcEnabled, IsUBwcFormat, IsUBwcSupported, IsUncompressedRGBFormat.
  destruct (hal_format f); intros E1 E2; try discriminate E1; try reflexivity;
    by rewrite andb_false_r in E2.
Qed.

Lemma ubwc_rgb_bpp f : ubwc_rgb (hal_format f) = true ->
  GetBppForUncompressedRGB f = 2 \/ GetBppForUncompressedRGB f = 4.
Proof. unfold GetBppForUncompressedRGB. destruct (hal_format f); try discriminate; auto. Qed.

Lemma GetUBwcSize_rgb w h f aw ah : ubwc_rgb (hal_format f) = true ->
  0 < w <= 16384 -> 0 < h <= 16384 -> 0 < aw <= 16384 -> 0 < ah <= 16384 ->
  GetUBwcSize w h f aw ah = Ret (aw * ah * GetBppForUncompressedRGB f + rgb_meta_size w h) /\
  0 <= aw * ah * GetBppForUncompressedRGB f <= 1073741824.
Proof.
  intros C Hw Hh Haw Hah. pose proof (ubwc_rgb_bpp f C) as Hb.
  pose proof (rgb_meta_bound w h Hw Hh) as [_ M].
  assert (P : 0 <= aw * ah <= 2 ^ 28).
  { split; [nia|]. apply (Z.mul_le_mono_nonneg _ 16384 _ 16384); lia. }
  assert (E : GetUBwcSize w h f aw ah =
    (m ← GetRgbUBwcMetaBufferSize w h (GetBppForUncompressedRGB f);
     mret (u32 (u32 (u32 (aw * ah) * GetBppForUncompressedRGB f) + m)))).
  { unfold GetUBwcSize. by destruct (hal_format f). }
  rewrite E, GetRgbUBwcMetaBufferSize_ok, bind_ret by done.
  change (2 ^ 28) with 268435456 in P.
  assert (Q : 0 <= aw * ah * GetBppForUncompressedRGB f <= 1073741824)
    by (destruct Hb as [Hb|Hb]; rewrite Hb; lia).
  rewrite (uwrap_small 32 (aw * ah)), (uwrap_small 32 (aw * ah * _)), (uwrap_small 32)
    by (pow2_num; lia). done.
Qed.

Lemma ubwc_size f w h prod cons out aw ah : IsUncompressedRGBFormat f = true ->
  IsUBwcEnabled (Some a) f prod cons = true ->
  0 < w <= 16384 -> 0 < h <= 16384 -> pages_ok ->
  AlignUnCompressedRGB a w h f 1 = Ret (aw, ah) ->
  w <= aw <= align_up 1024 w -> h <= ah <= align_up 64 h ->
  exists size,
    GetBufferSizeAndDimensions (Some a) (new_BufferInfo w h f prod cons) out = Ret (size, aw, ah) /\
    0 < aw <= 16384 /\ 0 < ah <= 16384 /\
    rgb_meta_size aw ah + aw * ah * GetBppForUncompressedRGB f <= size.
Proof.
  intros C1 C2 Hw Hh Hp EA Haw Hah. pose proof (ubwc_rgb_class f prod cons C1 C2) as C.
  assert (align_up 1024 w <= 16384) by (apply align_up_least; [lia..|by exists 16]).
  assert (align_up 64 h <= 16384) by (apply align_up_least; [lia..|by exists 256]).
  destruct (GetUBwcSize_rgb w h f aw ah C Hw Hh) as [ES P]; [lia..|].
  pose proof (rgb_meta_bound w h Hw Hh) as [_ M].
  exists (u32 (ALIGN_uint (aw * ah * GetBppForUncompressedRGB f + rgb_meta_size w h)
            (GetDataAlignment f prod cons) * u32 1)).
  split; [|split; [lia|split; [lia|]]].
  - unfold GetBufferSizeAndDimensions, GetAlignedWidthAndHeight, GetSize, new_BufferInfo.
    cbn [bi_width bi_height bi_format bi_prod_usage bi_cons_usage bi_layer_count].
    rewrite C1, C2. change (Z.b2z true) with 1. rewrite EA, bind_ret, ES. reflexivity.
  - rewrite (rgb_meta_size_padded w h aw ah Haw Hah).
    rewrite Z.add_comm. apply final_size; [done|]. pow2_num. lia.
Qed.
End Fit.
End GrPlanes.

Module GrProps.
Import MetaData MetaSpec MetaFacts GrUtils GrFacts GrPlanes.

Section Props.
Context `{Platform} `{HandleAbi} `{!Mmap} `{!MmapOk} (hs : gset Z) (buf : Z -> Z).

(** The planes of a handle with aligned dimensions and no other geometry. *)
Lemma planes_laid_out a world p hnd d z size : linear_yuv (hal_format (format hnd)) = true ->
  world_ok hs buf world -> p ∈ hs -> handles world !! p = Some hnd -> contents world !! buf p = Some d ->
  fetch GET_LINEAR_FORMAT d = None -> fetch GET_BUFFER_GEOMETRY d = None ->
  dims_ok (width hnd) (height hnd) -> needed (hal_format (format hnd)) (width hnd) (height hnd) <= size ->
  0 <= base hnd -> base hnd + size < 2 ^ 64 ->
  exists i world', GetYUVPlaneInfo (Some a) p z world = Ret ((0, (i, snd z)), world') /\
    laid_out (base hnd) (planes (hal_format (format hnd)) (height hnd) i) (base hnd + size).
Proof.
  intros L Hok Hin Eh' Ed F1 F2 D N Hb Ho.
  destruct (GetYUVPlaneInfo_ok (Some a) hs buf world p hnd d z Hok Hin Eh' Ed) as (w' & EY).
  unfold read_dims, read_format in EY. rewrite F1, F2 in EY.
  pose proof D as (? & ? & _). rewrite !(uwrap_small 32) in EY by (pow2_num; lia).
  destruct (plane_info_fits (format hnd) (base hnd) (width hnd) (height hnd) false z L D Hb ltac:(lia))
    as (i & Ei & Hl).
  exists i, w'. rewrite EY, Ei. split; [done|]. eapply laid_out_mono; [exact Hl|lia].
Qed.

(** C40: A buffer of a linear YUV format, of even width and height up to 16384, gets
    at least the width and height asked for, and its planes as GetYUVPlaneInfo later
    gives them for a handle of that size without a geometry or linear format in its
    metadata, mapped below 2^64, lie in the allocated size, one after the other and
    without overlap; for a page that is a power of two from 4096 to 65536 bytes and a
    pixel alignment of the GPU that is a power of two up to 4096. *)
Theorem planes_fit a f w h prod cons out g : linear_yuv (hal_format f) = true ->
  0 < w <= 16384 -> 0 < h <= 16384 -> w mod 2 = 0 -> h mod 2 = 0 -> pages_ok ->
  GetGpuPixelAlignment a = 2 ^ g -> 0 <= g <= 12 ->
  exists size aw ah,
    GetBufferSizeAndDimensions (Some a) (new_BufferInfo w h f prod cons) out = Ret (size, aw, ah) /\
    w <= aw /\ h <= ah /\
    forall world p hnd d z, world_ok hs buf world -> p ∈ hs ->
      handles world !! p = Some hnd -> contents world !! buf p = Some d ->
      fetch GET_LINEAR_FORMAT d = None -> fetch GET_BUFFER_GEOMETRY d = None ->
      width hnd = aw -> height hnd = ah -> format hnd = f ->
      0 <= base hnd -> base hnd + size < 2 ^ 64 ->
      exists i world', GetYUVPlaneInfo (Some a) p z world = Ret ((0, (i, snd z)), world') /\
        laid_out (base hnd) (planes (hal_format f) ah i) (base hnd + size).
Proof.
  intros L Hw Hh Ew Eh Hp Hg Hg12.
  destruct (linear_size a f w h prod cons out g L Hw Hh Ew Eh Hp Hg Hg12)
    as (size & aw & ah & E & D & Bw & Bh & N).
  exists size, aw, ah. do 3 (split; [done|]).
  intros world p hnd d z Hok Hin Eh' Ed F1 F2 <- <- <- Hb Ho.
  by apply (planes_laid_out a world p hnd d z size).
Qed.

(** A compressed RGB buffer is sized from the dimensions asked for, while the
    address of its pixels is later computed from the padded dimensions of the
    handle.  When the padding stays within the blocks of 1024 by 64 pixels the
    metadata is made of, both agree: the pixels of the padded picture start after
    the metadata and end in the buffer. *)
Lemma ubwc_rgb_data_fits a f w h prod cons out aw ah : IsUncompressedRGBFormat f = true ->
  IsUBwcEnabled (Some a) f prod cons = true ->
  0 < w <= 16384 -> 0 < h <= 16384 -> pages_ok ->
  AlignUnCompressedRGB a w h f 1 = Ret (aw, ah) ->
  w <= aw <= align_up 1024 w -> h <= ah <= align_up 64 h ->
  exists size,
    GetBufferSizeAndDimensions (Some a) (new_BufferInfo w h f prod cons) out = Ret (size, aw, ah) /\
    forall world p hnd, handles world !! p = Some hnd ->
      width hnd = aw -> height hnd = ah -> format hnd = f ->
      has (flags hnd) PRIV_FLAGS_UBWC_ALIGNED = true ->
      0 <= base hnd -> base hnd + size < 2 ^ 64 ->
      exists addr, GetRgbDataAddress p world = Ret ((0, Some addr), world) /\
        base hnd + rgb_meta_size w h <= addr /\
        addr + aw * ah * GetBppForUncompressedRGB f <= base hnd + size.
Proof.
  intros C1 C2 Hw Hh Hp EA Haw Hah. pose proof (ubwc_rgb_class a f prod cons C1 C2) as C.
  destruct (ubwc_size a f w h prod cons out aw ah C1 C2 Hw Hh Hp EA Haw Hah)
    as (size & ES & Baw & Bah & Bs).
  exists size. split; [done|]. intros world p hnd Eh <- <- <- Hf Hb Ho.
  pose proof (ubwc_rgb_bpp _ C) as Hbpp.
  pose proof (rgb_meta_bound _ _ Baw Bah) as [_ M].
  assert (0 <= width hnd * height hnd * GetBppForUncompressedRGB (format hnd))
    by (destruct Hbpp as [X|X]; rewrite X; nia).
  exists (base hnd + rgb_meta_size (width hnd) (height hnd)).
  rewrite (rgb_meta_size_padded w h (width hnd) (height hnd) Haw Hah) in *.
  split; [|split; [done|lia]].
  unfold GetRgbDataAddress, mbind, st_bind, get_handle. rewrite Eh, C1, Hf. cbn [negb].
  rewrite GetRgbUBwcMetaBufferSize_ok, (rgb_meta_size_padded w h (width hnd) (height hnd)) by done.
  destruct (hal_format (format hnd)) eqn:F; try discriminate C;
    cbn [st_lift mret st_ret]; by rewrite uwrap_small by (pow2_num; lia).
Qed.

(** GetBppForUncompressedRGB misses two of the formats
    IsUncompressedRGBFormat accepts: a buffer of format R_8 or RG_88 gets size 0
    whatever its dimensions.  Every other accepted format has a positive pixel
    size. *)
Lemma rgb_size_zero a f w h prod cons out : IsUncompressedRGBFormat f = true ->
  0 < w <= 16384 -> 0 < h <= 16384 -> pages_ok ->
  (0 < GetBppForUncompressedRGB f <->
    hal_format f <> HAL_PIXEL_FORMAT_R_8 /\ hal_format f <> HAL_PIXEL_FORMAT_RG_88) /\
  (GetBppForUncompressedRGB f = 0 -> exists aw ah,
    GetBufferSizeAndDimensions (Some a) (new_BufferInfo w h f prod cons) out = Ret (0, aw, ah)).
Proof.
  intros C Hw Hh Hp. split.
  - unfold IsUncompressedRGBFormat, GetBppForUncompressedRGB in *.
    destruct (hal_format f); try discriminate C; split; intros X; try lia; try done; by destruct X.
  - intros B.
    assert (U : IsUBwcEnabled (Some a) f prod cons = false).
    { destruct (IsUBwcEnabled _ _ _ _) eqn:U; [|done].
      destruct (ubwc_rgb_bpp _ (ubwc_rgb_class a f prod cons C U)); lia. }
    destruct (AlignUnCompressedRGB_total a w h f 0 Hw Hh) as (aw & ah & EA).
    exists aw, ah. unfold GetBufferSizeAndDimensions, GetAlignedWidthAndHeight, GetSize, new_BufferInfo.
    cbn [bi_width bi_height bi_format bi_prod_usage bi_cons_usage bi_layer_count].
    rewrite U, C. change (Z.b2z false) with 0. rewrite EA, bind_ret, B, Z.mul_0_r.
    change (u32 0) with 0. cbn [mret outcome_ret mbind outcome_bind].
    destruct (GetDataAlignment_pow f prod cons Hp) as (k & Hk & ->).
    assert (1 <= 2 ^ k <= 2 ^ 21) by (split; [lia|apply Z.pow_le_mono_r; lia]).
    rewrite ALIGN_uint_ok by (pow2_num; lia). unfold align_up. rewrite Z.div_small by lia. done.
Qed.

(** Marking a buffer as interlaced does not change the planes: GetYUVPlaneInfo
    reads the flag only when its query fails, so that the second structure of the
    result, meant for the other field, is never filled in. *)
Lemma interlaced_ignored inst w p n z : world_ok hs buf w -> p ∈ hs ->
  exists w1, setMetaData p PP_PARAM_INTERLACED (Some (VInt32 n)) w = Ret (0, w1) /\
    (forall r w', GetYUVPlaneInfo inst p z w = Ret (r, w') ->
       exists w1', GetYUVPlaneInfo inst p z w1 = Ret (r, w1')) /\
    (forall e i w1', GetYUVPlaneInfo inst p z w1 = Ret ((e, i), w1') -> snd i = snd z).
Proof.
  intros Hw Hp. destruct (Hw p Hp) as (_ & [d Ed] & h & Eh & _).
  destruct (setMetaData_ok hs buf w p h d PP_PARAM_INTERLACED (VInt32 n) Hw Hp Eh Ed eq_refl)
    as (w1 & d1 & a & E1 & Hw1 & Eh1 & Ed1 & Hf).
  destruct (GetYUVPlaneInfo_ok inst hs buf w p h d z Hw Hp Eh Ed) as (w' & EY).
  destruct (GetYUVPlaneInfo_ok inst hs buf w1 p _ d1 z Hw1 Hp Eh1 Ed1) as (w1' & EY1).
  assert (Hd : read_dims inst (set_base_metadata a h) d1 = read_dims inst h d /\
               read_format (set_base_metadata a h) d1 = read_format h d).
  { unfold read_dims, read_format. by rewrite !Hf. }
  destruct Hd as [-> ->] in EY1. exists w1. split; [done|]. split.
  - intros r w2. rewrite EY, EY1. destruct (read_dims inst h d) as [[]| |]; naive_solver.
  - intros e i w2. rewrite EY1. destruct (read_dims inst h d) as [[a' b']| |]; [|done..].
    intros [= X _]. pose proof (plane_info_progressive (base h) a' b' (read_format h d) z) as Y.
    cbn [base set_base_metadata] in X. rewrite X in Y. exact Y.
Qed.
End Props.

(** A platform with three of its formats, and buffers on it. *)
Module Sample.
#[global] Instance platform : Platform := {|
  hal_format f := if f =? 1 then HAL_PIXEL_FORMAT_RGBA_8888
    else if f =? 0x109 then HAL_PIXEL_FORMAT_YCbCr_420_SP
    else if f =? 0x10D then HAL_PIXEL_FORMAT_R_8
    else if f =? 0x7FA30C06 then HAL_PIXEL_FORMAT_YCbCr_420_SP_VENUS_UBWC
    else HAL_PIXEL_FORMAT_OTHER;
  GRALLOC1_PRODUCER_USAGE_CPU_READ := Z.shiftl 1 1;
  GRALLOC1_PRODUCER_USAGE_CPU_WRITE := Z.shiftl 1 5;
  GRALLOC1_PRODUCER_USAGE_PROTECTED := Z.shiftl 1 14;
  GRALLOC1_PRODUCER_USAGE_CAMERA := Z.shiftl 1 17;
  GRALLOC1_PRODUCER_USAGE_GPU_RENDER_TARGET := Z.shiftl 1 9;
  GRALLOC1_PRODUCER_USAGE_PRIVATE_0 := Z.shiftl 1 28;
  GRALLOC1_CONSUMER_USAGE_CPU_READ := Z.shiftl 1 1;
  GRALLOC1_CONSUMER_USAGE_GPU_TEXTURE := Z.shiftl 1 8;
  COMPOSER_CLIENT_TARGET := Z.shiftl 1 12;
  MASTER_SIDE_CP := true;
  getpagesize := 4096;
  VENUS_Y_STRIDE _ w := align_up 128 w;
  VENUS_Y_SCANLINES _ h := align_up 32 h;
  VENUS_UV_STRIDE _ w := align_up 128 w;
  VENUS_UV_SCANLINES _ h := align_up 32 (h / 2);
  VENUS_Y_META_STRIDE _ w := align_up 64 (w / 32);
  VENUS_Y_META_SCANLINES _ h := align_up 16 (h / 8);
  VENUS_UV_META_STRIDE _ w := align_up 64 (w / 32);
  VENUS_UV_META_SCANLINES _ h := align_up 16 (h / 16);
  VENUS_BUFFER_SIZE _ w h := align_up 4096 (2 * w * h)
|}.
Lemma pages : pages_ok.
Proof. by exists 12. Defined.
#[global] Existing Instance MetaProps.Sample.abi.
#[global] Existing Instance MetaProps.Sample.fresh_mmap.
#[global] Existing Instance MetaProps.Sample.fresh_mmap_ok.

(** The graphics library could not be opened. *)
Definition adreno : AdrenoMemInfo := new_AdrenoMemInfo None (fun _ => "")%string.
Definition handle (flags width height format base : Z) : private_handle_t := {|
  version := 12; numFds := 2; numInts := 25; fd := 3; fd_metadata := 4; magic := kMagic;
  flags := flags; width := width; height := height;
  unaligned_width := width; unaligned_height := height;
  format := format; buffer_type := 0; size := 0; offset := 0; offset_metadata := 0;
  base := base; base_metadata := 0; gpuaddr := 0; id := 1;
  producer_usage := 0; consumer_usage := 0; layer_count := 1 |}.
Definition world (h : private_handle_t) : World :=
  mkWorld {[16 := h]} {[4 := 1]} {[1 := MetaProps.Sample.meta]} ∅.
Definition zero : android_ycbcr := mkYcbcr 0 0 0 0 0 0.

Lemma world_is_ok fl w h f b : world_ok {[16]} (fun _ => 1) (world (handle fl w h f b)).
Proof.
  intros p Hp. apply elem_of_singleton in Hp as ->. split; [done|]. split; [by eexists|].
  eexists. split; [reflexivity|]. by repeat split.
Qed.
End Sample.

(** A 640 by 480 picture: 460800 bytes for the planes, one more for the chroma
    pointer, rounded up to pages. *)
Lemma planes_fit_witness : exists size i w',
  GetBufferSizeAndDimensions (Some Sample.adreno) (new_BufferInfo 640 480 0x109 0 0) (0, 0)
    = Ret (size, 640, 480) /\
  GetYUVPlaneInfo (Some Sample.adreno) 16 (Sample.zero, Sample.zero)
    (Sample.world (Sample.handle 0 640 480 0x109 65536)) = Ret ((0, (i, Sample.zero)), w') /\
  laid_out 65536 (planes HAL_PIXEL_FORMAT_YCbCr_420_SP 480 i) (65536 + size).
Proof.
  destruct (planes_fit (H := Sample.platform) {[16]} (fun _ => 1) Sample.adreno 0x109 640 480 0 0 (0, 0) 0
    eq_refl ltac:(lia) ltac:(lia) eq_refl eq_refl Sample.pages eq_refl ltac:(lia))
    as (size & aw & ah & E & _ & _ & K).
  assert (X : GetBufferSizeAndDimensions (Some Sample.adreno) (new_BufferInfo 640 480 0x109 0 0) (0, 0)
    = Ret (462848, 640, 480)) by (vm_compute; reflexivity).
  rewrite X in E. injection E as <- <- <-.
  destruct (K _ 16 _ _ (Sample.zero, Sample.zero) (Sample.world_is_ok 0 640 480 0x109 65536)
    ltac:(set_solver) eq_refl eq_refl eq_refl eq_refl eq_refl eq_refl eq_refl
    ltac:(cbn; lia) ltac:(cbn; lia)) as (i & w' & E & L).
  exists 462848, i, w'. split; [exact X|]. split; [exact E|exact L].
Defined.

(** A compressed screen buffer: 1080 by 2160 pixels padded to 1088 by 2176. *)
Lemma ubwc_rgb_data_fits_witness : exists size addr,
  GetBufferSizeAndDimensions (Some Sample.adreno)
    (new_BufferInfo 1080 2160 1 0 4096) (0, 0) = Ret (size, 1088, 2176) /\
  GetRgbDataAddress 16 (Sample.world (Sample.handle PRIV_FLAGS_UBWC_ALIGNED 1088 2176 1 65536))
    = Ret ((0, Some addr), Sample.world (Sample.handle PRIV_FLAGS_UBWC_ALIGNED 1088 2176 1 65536)) /\
  addr + 1088 * 2176 * 4 <= 65536 + size.
Proof.
  destruct (ubwc_rgb_data_fits (H := Sample.platform) Sample.adreno 1 1080 2160 0 4096 (0, 0) 1088 2176
    eq_refl eq_refl ltac:(lia) ltac:(lia) Sample.pages eq_refl
    ltac:(split; vm_compute; discriminate) ltac:(split; vm_compute; discriminate)) as (size & E & K).
  assert (X : GetBufferSizeAndDimensions (Some Sample.adreno)
    (new_BufferInfo 1080 2160 1 0 4096) (0, 0) = Ret (9539584, 1088, 2176))
    by (vm_compute; reflexivity).
  rewrite X in E. injection E as <-.
  destruct (K (Sample.world (Sample.handle PRIV_FLAGS_UBWC_ALIGNED 1088 2176 1 65536)) 16 _ eq_refl
    eq_refl eq_refl eq_refl eq_refl ltac:(cbn; lia) ltac:(cbn; lia)) as (addr & E & _ & L).
  exists 9539584, addr. split; [exact X|]. split; [exact E|exact L].
Defined.

Lemma rgb_size_zero_witness : exists aw ah,
  GetBufferSizeAndDimensions (Some Sample.adreno) (new_BufferInfo 64 64 0x10D 0 0) (0, 0)
    = Ret (0, aw, ah).
Proof.
  apply (rgb_size_zero Sample.adreno 0x10D 64 64 0 0 (0, 0)); [reflexivity|lia|lia|apply Sample.pages|].
  reflexivity.
Defined.

(** The planes of an interlaced picture are those of a progressive one. *)
Lemma interlaced_ignored_witness : exists w1 r w1',
  setMetaData 16 PP_PARAM_INTERLACED (Some (VInt32 1))
    (Sample.world (Sample.handle 0 640 480 0x7FA30C06 65536)) = Ret (0, w1) /\
  GetYUVPlaneInfo (Some Sample.adreno) 16 (Sample.zero, Sample.zero) w1 = Ret (r, w1') /\
  snd (snd r) = Sample.zero.
Proof.
  destruct (interlaced_ignored (H := Sample.platform) {[16]} (fun _ => 1) (Some Sample.adreno)
    (Sample.world (Sample.handle 0 640 480 0x7FA30C06 65536)) 16 1 (Sample.zero, Sample.zero)
    (Sample.world_is_ok 0 640 480 0x7FA30C06 65536) ltac:(set_solver)) as (w1 & E & K1 & K2).
  destruct (K1 _ _ eq_refl) as (w1' & E1).
  eexists w1, _, w1'. split; [exact E|]. split; [exact E1|]. exact (K2 _ _ _ E1).
Defined.
End GrProps.
