(* ===== verification/Alloc.v ===== *)
(** Memory of graphic buffers: src/hardware/qcom-caf/display/gralloc/gr_ion_alloc.cpp
    (the variant for kernels before 4.14, which the device has) and
    gr_allocator.cpp.

    The state [Sys] is what the process can reach: the objects of [MetaData.World]
    (handles, descriptors, mappings) with the references it holds on ion handles
    and the cache operations done.  The kernel is the class [Kernel]: it decides
    which calls fail and chooses the numbers it returns; [KernelLaws] is what its
    documentation promises. *)
From S2P Require Import Prelude MetaData GrUtils.
#[local] Open Scope Z_scope.

Module Alloc.
Import MetaData GrUtils.

(** * The system *)

(** The kind of a cache operation: the commands of ION_IOC_CUSTOM. *)
Inductive cache_cmd := ION_IOC_CLEAN_CACHES | ION_IOC_INV_CACHES | ION_IOC_CLEAN_INV_CACHES.
#[global] Instance cache_cmd_eq_dec : EqDecision cache_cmd.
Proof. solve_decision. Defined.

Record Sys := mkSys {
  world : World;
  ion_refs : gmap Z nat;              (* references held on each ion handle *)
  ion_dev_fd_ : Z;
  cache_ops : list (cache_cmd * Z)    (* operation and ion handle, oldest first *)
}.

Definition set_world (w : World) (s : Sys) : Sys := mkSys w (ion_refs s) (ion_dev_fd_ s) (cache_ops s).
Definition set_ion_refs (r : gmap Z nat) (s : Sys) : Sys := mkSys (world s) r (ion_dev_fd_ s) (cache_ops s).

(** The kernel and the C++ heap: [inl] carries errno. *)
Class Kernel := {
  k_open : Sys -> Z;                                   (* open("/dev/ion"), -1 on failure *)
  k_alloc : Sys -> Z -> Z -> Z -> Z -> Z + Z;          (* ION_IOC_ALLOC: an ion handle *)
  k_share : Sys -> Z -> Z + (Z * Z);                   (* ION_IOC_MAP: a descriptor, its memory *)
  k_import : Sys -> Z -> Z + Z;                        (* ION_IOC_IMPORT: an ion handle *)
  k_custom : Sys -> cache_cmd -> Z -> option Z;        (* ION_IOC_CUSTOM: errno on failure *)
  k_mmap_errno : Sys -> Z;
  k_munmap : Sys -> Z -> option Z;                     (* errno on failure *)
  k_dup : Sys -> Z -> option Z;                        (* None: -1 *)
  k_seek_end : Sys -> Z -> Z;                          (* lseek(fd, 0, SEEK_END) *)
  k_new : Sys -> Z;                                    (* address of a new object *)
  k_garbage : Sys -> private_handle_t;                 (* what malloc returns *)
  k_meta : Sys -> MetaData_t                           (* what the pages of a buffer hold *)
}.

(** The value of MAP_FAILED as an address. *)
Definition MAP_FAILED : Z := 2 ^ 64 - 1.

(** New numbers are not in use; errno is positive; ion handles are positive; new
    pages are zero; a range that is mapped can be unmapped, and MAP_FAILED, which
    is not a multiple of the page size, cannot. *)
Class KernelLaws `{Kernel} : Prop := {
  k_alloc_ok s len al heap fl : match k_alloc s len al heap fl with
    | inl e => 0 < e
    | inr h => 0 < h /\ ion_refs s !! h = None
    end;
  k_share_ok s h : match k_share s h with
    | inl e => 0 < e
    | inr (fd, b) => 0 <= fd /\ fd_buf (world s) !! fd = None /\
        (forall fd', fd_buf (world s) !! fd' <> Some b) /\
        (forall a, mapped (world s) !! a <> Some b)
    end;
  k_import_ok s fd : match k_import s fd with
    | inl e => 0 < e
    | inr h => 0 < h
    end;
  k_custom_ok s c h e : k_custom s c h = Some e -> 0 < e;
  k_mmap_errno_ok s : 0 < k_mmap_errno s;
  k_munmap_ok s a : a <> MAP_FAILED -> is_Some (mapped (world s) !! a) -> k_munmap s a = None;
  k_munmap_failed s : exists e, k_munmap s MAP_FAILED = Some e /\ 0 < e;
  k_dup_ok s fd fd' : k_dup s fd = Some fd' ->
    0 <= fd' /\ fd_buf (world s) !! fd' = None /\ is_Some (fd_buf (world s) !! fd);
  k_new_ok s : k_new s <> 0 /\ handles (world s) !! k_new s = None;
  k_meta_ok s : operation (k_meta s) = 0
}.

(** An address mmap returns is not null, not MAP_FAILED and not in use. *)
Class MmapFresh `{Mmap} : Prop := mmap_fresh : forall w fd a, mmap_addr w fd = Some a ->
  a <> 0 /\ a <> MAP_FAILED /\ mapped w !! a = None.

Abbreviation P := (St Sys).

(** A call of qdMetaData or gr_utils on the same memory. *)
Definition in_world {A} (m : M A) : P A := fun s =>
  match m (world s) with
  | Ret (a, w) => Ret (a, set_world w s)
  | Undef => Undef
  | NoFuel => NoFuel
  end.

Section System.
Context `{Kernel} `{!Mmap}.

(** [close(fd)]: nothing happens when the descriptor is not open. *)
Definition close (fd : Z) : P unit :=
  st_modify (fun s => set_world (mkWorld (handles (world s)) (delete fd (fd_buf (world s)))
    (contents (world s)) (mapped (world s))) s).

(** [ioctl(ION_IOC_FREE)] drops one reference. *)
Definition ion_free (h : Z) : P unit :=
  st_modify (fun s => set_ion_refs
    (match ion_refs s !! h with
     | Some (S (S n)) => <[h := S n]> (ion_refs s)
     | _ => delete h (ion_refs s)
     end) s).

(** A reference gained by ION_IOC_ALLOC or ION_IOC_IMPORT. *)
Definition ion_ref (h : Z) : P unit :=
  st_modify (fun s => set_ion_refs
    (<[h := S (default 0%nat (ion_refs s !! h))]> (ion_refs s)) s).

(** [new], [delete] and assignment of a handle object. *)
Definition new_object (h : private_handle_t) : P Z :=
  p ← st_gets k_new; _ ← in_world (put_handle p h); mret p.
Definition delete_object (p : Z) : P unit :=
  st_modify (fun s => set_world (mkWorld (delete p (handles (world s))) (fd_buf (world s))
    (contents (world s)) (mapped (world s))) s).

(** * gr_ion_alloc.cpp *)
Record AllocData := mkAllocData {
  ad_fd : Z; ad_ion_handle : Z; ad_size : Z; ad_align : Z;
  ad_uncached : bool; ad_flags : Z; ad_heap_id : Z; ad_alloc_type : Z
}.
Definition new_AllocData : AllocData := mkAllocData (-1) (-1) 0 1 false 0 0 0.

Definition CACHE_CLEAN : Z := 1.
Definition CACHE_INVALIDATE : Z := 2.
Definition CACHE_CLEAN_AND_INVALIDATE : Z := 3.

(** IonAlloc::Init; opening a device that is already open does nothing. *)
Definition IonAlloc_Init : P bool := fun s =>
  let fd := if ion_dev_fd_ s =? -1 then k_open s else ion_dev_fd_ s in
  if fd <? 0 then Ret (false, mkSys (world s) (ion_refs s) (-1) (cache_ops s))
  else Ret (true, mkSys (world s) (ion_refs s) fd (cache_ops s)).

Context (ION_FLAG_CACHED : Z).

Definition IonAlloc_AllocBuffer (data : AllocData) : P (Z * AllocData) :=
  let flags := if ad_uncached data then ad_flags data else Z.lor (ad_flags data) ION_FLAG_CACHED in
  r ← st_gets (fun s => k_alloc s (ad_size data) (ad_align data) (ad_heap_id data) flags);
  match r with
  | inl errno => mret (- errno, data)
  | inr h =>
      _ ← ion_ref h;
      r ← st_gets (fun s => k_share s h);
      match r with
      | inl errno => _ ← ion_free h; mret (- errno, data)
      | inr (fd, b) =>
          _ ← st_modify (fun s => set_world (mkWorld (handles (world s))
            (<[fd := b]> (fd_buf (world s))) (<[b := k_meta s]> (contents (world s)))
            (mapped (world s))) s);
          mret (0, mkAllocData fd h (ad_size data) (ad_align data) (ad_uncached data)
                     (ad_flags data) (ad_heap_id data) (ad_alloc_type data))
      end
  end.

Definition UnmapBuffer (base : Z) : P Z :=
  r ← st_gets (fun s => k_munmap s base);
  match r with
  | Some errno => mret (- errno)
  | None =>
      _ ← st_modify (fun s => set_world (mkWorld (handles (world s)) (fd_buf (world s))
            (contents (world s)) (delete base (mapped (world s)))) s);
      mret 0
  end.

Definition IonAlloc_FreeBuffer (base fd ion_handle : Z) : P Z :=
  err ← (if negb (base =? 0) then UnmapBuffer base else mret 0);
  _ ← (if 0 <? ion_handle then ion_free ion_handle else mret tt);
  _ ← close fd;
  mret err.

Definition IonAlloc_ImportBuffer (fd : Z) : P Z :=
  r ← st_gets (fun s => k_import s fd);
  match r with
  | inl errno => mret (- errno)
  | inr h => _ ← ion_ref h; mret h
  end.

Definition IonAlloc_CleanBuffer (handle op : Z) : P Z :=
  let cmd := if op =? CACHE_CLEAN then ION_IOC_CLEAN_CACHES
             else if op =? CACHE_INVALIDATE then ION_IOC_INV_CACHES
             else ION_IOC_CLEAN_INV_CACHES in
  r ← st_gets (fun s => k_custom s cmd handle);
  match r with
  | Some errno => mret (- errno)
  | None =>
      _ ← st_modify (fun s => mkSys (world s) (ion_refs s) (ion_dev_fd_ s)
            (cache_ops s ++ [(cmd, handle)]));
      mret 0
  end.

(** The error and the value stored in [*base]: also MAP_FAILED is stored. *)
Definition IonAlloc_MapBuffer (fd : Z) : P (Z * Z) :=
  r ← in_world (mmap fd);
  match r with
  | Some a => mret (0, a)
  | None => e ← st_gets k_mmap_errno; mret (- e, MAP_FAILED)
  end.

(** * gr_allocator.cpp *)

(** The constants of the platform headers the allocator uses besides those of
    [Platform], and its build flags. *)
Class AllocPlatform := {
  HAL_PIXEL_FORMAT_IMPLEMENTATION_DEFINED : Z;
  HAL_PIXEL_FORMAT_YCbCr_420_888 : Z;
  code_YCrCb_420_SP : Z;                   (* HAL_PIXEL_FORMAT_YCrCb_420_SP *)
  code_RGBA_8888 : Z;                      (* HAL_PIXEL_FORMAT_RGBA_8888 *)
  GRALLOC1_PRODUCER_USAGE_PRIVATE_1 : Z;
  GRALLOC1_PRODUCER_USAGE_PRIVATE_2 : Z;
  GRALLOC1_PRODUCER_USAGE_PRIVATE_3 : Z;
  GRALLOC1_PRODUCER_USAGE_PRIVATE_5 : Z;
  GRALLOC1_PRODUCER_USAGE_CPU_READ_OFTEN : Z;
  GRALLOC1_PRODUCER_USAGE_CPU_WRITE_OFTEN : Z;
  GRALLOC1_PRODUCER_USAGE_SENSOR_DIRECT_DATA : Z;
  GRALLOC1_CONSUMER_USAGE_VIDEO_ENCODER : Z;
  GRALLOC1_CONSUMER_USAGE_CAMERA : Z;
  GRALLOC1_CONSUMER_USAGE_HWCOMPOSER : Z;
  GRALLOC1_CONSUMER_USAGE_GPU_DATA_BUFFER : Z;
  GRALLOC1_CONSUMER_USAGE_CPU_READ_OFTEN : Z;
  GRALLOC1_CONSUMER_USAGE_CLIENT_TARGET : Z;
  ION_HEAP : Z -> Z;
  ION_SECURE_HEAP_ID : Z; ION_SECURE_DISPLAY_HEAP_ID : Z; ION_CP_MM_HEAP_ID : Z;
  ION_SYSTEM_HEAP_ID : Z; ION_CAMERA_HEAP_ID : Z; ION_ADSP_HEAP_ID : Z;
  ION_SECURE : Z; ION_FLAG_CP_PIXEL : Z; ION_FLAG_CP_SEC_DISPLAY : Z; ION_FLAG_CP_CAMERA : Z;
  ION_FLAG_CP_CAMERA_PREVIEW : Z; ION_FLAG_ALLOW_NON_CONTIG : Z;
  GRALLOC1_PRODUCER_USAGE_NONE : Z; GRALLOC1_CONSUMER_USAGE_NONE : Z;
  sizeof_MetaData_t : Z;
  USE_SECURE_HEAP : bool;
  USE_YCRCB_CAMERA_PREVIEW : bool;
  USE_YCRCB_CAMERA_PREVIEW_VENUS : bool
}.

Definition PRIV_FLAGS_USES_ION : Z := 0x00000008.
Definition PRIV_FLAGS_SECURE_BUFFER : Z := 0x00000400.

Section Allocator.
Context `{Platform} `{!AllocPlatform}.

Definition CP_HEAP_ID : Z := if MASTER_SIDE_CP then ION_SECURE_HEAP_ID else ION_CP_MM_HEAP_ID.
Definition SD_HEAP_ID : Z :=
  if MASTER_SIDE_CP then ION_SECURE_DISPLAY_HEAP_ID
  else if USE_SECURE_HEAP then ION_SECURE_DISPLAY_HEAP_ID else ION_CP_MM_HEAP_ID.
Definition ION_CP_FLAGS : Z :=
  if MASTER_SIDE_CP then Z.lor ION_SECURE ION_FLAG_CP_PIXEL
  else Z.lor ION_SECURE ION_FLAG_ALLOW_NON_CONTIG.
Definition ION_SD_FLAGS : Z :=
  if MASTER_SIDE_CP then Z.lor ION_SECURE ION_FLAG_CP_SEC_DISPLAY else ION_SECURE.
Definition ION_SC_FLAGS : Z :=
  if MASTER_SIDE_CP then Z.lor ION_SECURE ION_FLAG_CP_CAMERA else ION_SECURE.
Definition ION_SC_PREVIEW_FLAGS : Z :=
  if MASTER_SIDE_CP then Z.lor ION_SECURE ION_FLAG_CP_CAMERA_PREVIEW else ION_SECURE.

Definition UseUncached (prod_usage cons_usage : Z) : bool :=
  if has prod_usage GRALLOC1_PRODUCER_USAGE_PRIVATE_1 || has prod_usage GRALLOC1_PRODUCER_USAGE_PROTECTED
  then true
  else if has prod_usage GRALLOC1_PRODUCER_USAGE_CPU_READ
          && negb (has prod_usage GRALLOC1_PRODUCER_USAGE_CPU_READ_OFTEN)
  then true
  else if has prod_usage GRALLOC1_PRODUCER_USAGE_CPU_WRITE
          && negb (has prod_usage GRALLOC1_PRODUCER_USAGE_CPU_WRITE_OFTEN)
  then true
  else if has prod_usage GRALLOC1_PRODUCER_USAGE_SENSOR_DIRECT_DATA
          || has cons_usage GRALLOC1_CONSUMER_USAGE_GPU_DATA_BUFFER
  then true
  else false.

(** Heap mask, allocation type and ion flags. *)
Record HeapInfo := mkHeapInfo { hi_heap_id : Z; hi_alloc_type : Z; hi_ion_flags : Z }.
#[global] Instance HeapInfo_eq_dec : EqDecision HeapInfo.
Proof. solve_decision. Defined.

Definition GetIonHeapInfo (prod_usage cons_usage : Z) : HeapInfo :=
  let '(heap_id, flags) :=
    if has prod_usage GRALLOC1_PRODUCER_USAGE_PROTECTED then
      if has cons_usage GRALLOC1_CONSUMER_USAGE_PRIVATE_SECURE_DISPLAY then
        (ION_HEAP SD_HEAP_ID, u32 ION_SD_FLAGS)
      else if has prod_usage GRALLOC1_PRODUCER_USAGE_CAMERA then
        (ION_HEAP SD_HEAP_ID,
         if has cons_usage GRALLOC1_CONSUMER_USAGE_HWCOMPOSER
         then u32 ION_SC_PREVIEW_FLAGS else u32 ION_SC_FLAGS)
      else (ION_HEAP CP_HEAP_ID, u32 ION_CP_FLAGS)
    else if has prod_usage GRALLOC1_PRODUCER_USAGE_PRIVATE_5 then (ION_HEAP ION_SYSTEM_HEAP_ID, 0)
    else (0, 0) in
  let heap_id := if has prod_usage GRALLOC1_PRODUCER_USAGE_PRIVATE_2
                 then Z.lor heap_id (ION_HEAP ION_CAMERA_HEAP_ID) else heap_id in
  let heap_id := if has prod_usage GRALLOC1_PRODUCER_USAGE_PRIVATE_3
                    || has prod_usage GRALLOC1_PRODUCER_USAGE_SENSOR_DIRECT_DATA
                 then Z.lor heap_id (ION_HEAP ION_ADSP_HEAP_ID) else heap_id in
  let type := if negb (Z.land flags (u32 ION_SECURE) =? 0) then PRIV_FLAGS_SECURE_BUFFER else 0 in
  let heap_id := if heap_id =? 0 then ION_HEAP ION_SYSTEM_HEAP_ID else heap_id in
  mkHeapInfo heap_id type flags.

Definition GetImplDefinedFormat (prod_usage cons_usage format : Z) : Z :=
  if (format =? HAL_PIXEL_FORMAT_IMPLEMENTATION_DEFINED) || (format =? HAL_PIXEL_FORMAT_YCbCr_420_888)
  then
    if has prod_usage GRALLOC1_PRODUCER_USAGE_PRIVATE_0 then 0x7FA30C06 (* YCbCr_420_SP_VENUS_UBWC *)
    else if has cons_usage GRALLOC1_CONSUMER_USAGE_VIDEO_ENCODER then 0x102 (* NV12_ENCODEABLE *)
    else if has cons_usage GRALLOC1_CONSUMER_USAGE_CAMERA then
      if has prod_usage GRALLOC1_PRODUCER_USAGE_CAMERA then 0x113 (* NV21_ZSL *)
      else code_YCrCb_420_SP
    else if has prod_usage GRALLOC1_PRODUCER_USAGE_CAMERA then
      if format =? HAL_PIXEL_FORMAT_YCbCr_420_888 then 0x113 (* NV21_ZSL *)
      else if USE_YCRCB_CAMERA_PREVIEW then code_YCrCb_420_SP
      else if USE_YCRCB_CAMERA_PREVIEW_VENUS then 0x114 (* YCrCb_420_SP_VENUS *)
      else 0x7FA30C04 (* YCbCr_420_SP_VENUS *)
    else if has cons_usage GRALLOC1_CONSUMER_USAGE_HWCOMPOSER then code_RGBA_8888
    else if format =? HAL_PIXEL_FORMAT_YCbCr_420_888 then 0x113 (* NV21_ZSL *)
    else format
  else format.

(** gr_buf_descriptor.h *)
Record BufferDescriptor := mkDescriptor {
  d_width : Z; d_height : Z; d_format : Z; d_layer_count : Z;
  d_producer_usage : Z; d_consumer_usage : Z; d_id : Z
}.

Definition GetBufferInfo (d : BufferDescriptor) : BufferInfo :=
  new_BufferInfo (d_width d) (d_height d) (d_format d) (d_producer_usage d) (d_consumer_usage d).

Context (adreno : AdrenoMemInfo).

(** The size of the buffer of a descriptor. *)
Definition descriptor_size (d : BufferDescriptor) : outcome Z :=
  '(aw, ah) ← GetAlignedWidthAndHeight (Some adreno) (GetBufferInfo d) (0, 0);
  GetSize (Some adreno) (GetBufferInfo d) aw ah.

Definition descriptor_heap (d : BufferDescriptor) : HeapInfo :=
  GetIonHeapInfo (d_producer_usage d) (d_consumer_usage d).

(** The loop of CheckForBufferSharing from descriptor [i] on; [prev] is the heap
    of the one before. *)
Fixpoint sharing_loop (i : Z) (prev : option HeapInfo) (max_index max_size : Z)
    (l : list BufferDescriptor) : outcome (bool * Z) :=
  match l with
  | [] => Ret (true, max_index)
  | d :: l =>
      let cur := descriptor_heap d in
      if match prev with Some prev => negb (bool_decide (cur = prev)) | None => false end
      then Ret (false, max_index)
      else
        size ← descriptor_size d;
        if max_size <? size then sharing_loop (i + 1) (Some cur) i size l
        else sharing_loop (i + 1) (Some cur) max_index max_size l
  end.

(** Whether one buffer can be shared, and [*max_index]. *)
Definition CheckForBufferSharing (descriptors : list BufferDescriptor) : outcome (bool * Z) :=
  sharing_loop 0 None (-1) 0 descriptors.

(** Allocator::AllocateMem *)
Definition AllocateMem (data : AllocData) (prod_usage cons_usage : Z)
    : P (Z * AllocData) :=
  let hi := GetIonHeapInfo prod_usage cons_usage in
  let data := mkAllocData (ad_fd data) (ad_ion_handle data) (ad_size data) (ad_align data)
    (UseUncached prod_usage cons_usage) (hi_ion_flags hi) (hi_heap_id hi) (hi_alloc_type hi) in
  '(ret, data) ← IonAlloc_AllocBuffer data;
  if 0 <=? ret then
    mret (ret, mkAllocData (ad_fd data) (ad_ion_handle data) (ad_size data) (ad_align data)
      (ad_uncached data) (ad_flags data) (ad_heap_id data) (Z.lor (ad_alloc_type data) PRIV_FLAGS_USES_ION))
  else mret (ret, data).
End Allocator.
End System.
End Alloc.
