(* ===== verification/BufMgr.v ===== *)
(** The buffer manager: src/hardware/qcom-caf/display/gralloc/gr_buf_mgr.cpp with
    gr_buf_mgr.h, and the entry points of gr_device_impl.cpp.

    The manager keeps a reference count for every handle it knows.  Each method
    holds its lock for the whole call, so a call is one step.  The handles are
    objects of [MetaData.World], reached by their address; descriptors, mappings
    and ion references are those of [Alloc.Sys]. *)
From S2P Require Import Prelude MetaData GrUtils Alloc.
#[local] Open Scope Z_scope.

Module BufMgr.
Import MetaData GrUtils Alloc.

Inductive gralloc1_error_t :=
| GRALLOC1_ERROR_NONE | GRALLOC1_ERROR_BAD_DESCRIPTOR | GRALLOC1_ERROR_BAD_HANDLE
| GRALLOC1_ERROR_BAD_VALUE | GRALLOC1_ERROR_NOT_SHARED | GRALLOC1_ERROR_NO_RESOURCES
| GRALLOC1_ERROR_UNDEFINED | GRALLOC1_ERROR_UNSUPPORTED.
#[global] Instance gralloc1_error_eq_dec : EqDecision gralloc1_error_t.
Proof. solve_decision. Defined.

Definition PRIV_FLAGS_NEEDS_FLUSH : Z := 0x00000020.
Definition PRIV_FLAGS_INTERNAL_ONLY : Z := 0x00000040.
Definition PRIV_FLAGS_NON_CPU_WRITER : Z := 0x00000080.
Definition PRIV_FLAGS_CACHED : Z := 0x00000200.
Definition PRIV_FLAGS_EXTERNAL_ONLY : Z := 0x00002000.
Definition PRIV_FLAGS_VIDEO_ENCODER : Z := 0x00010000.
Definition PRIV_FLAGS_CAMERA_WRITE : Z := 0x00020000.
Definition PRIV_FLAGS_CAMERA_READ : Z := 0x00040000.
Definition PRIV_FLAGS_HW_COMPOSER : Z := 0x00080000.
Definition PRIV_FLAGS_HW_TEXTURE : Z := 0x00100000.
Definition PRIV_FLAGS_SECURE_DISPLAY : Z := 0x01000000.
Definition PRIV_FLAGS_CPU_RENDERED : Z := 0x04000000.
Definition PRIV_FLAGS_DISP_CONSUMER : Z := 0x10000000.
Definition PRIV_FLAGS_CLIENT_ALLOCATED : Z := 0x20000000.
Definition GRALLOC1_CONSUMER_USAGE_PRIVATE_INTERNAL_ONLY : Z := 0x04000000.
Definition GRALLOC1_CONSUMER_USAGE_PRIVATE_EXTERNAL_ONLY : Z := 0x08000000.
Definition BUFFER_TYPE_UI : Z := 0.
Definition BUFFER_TYPE_VIDEO : Z := 1.

(** BufferManager::Buffer; the key of the map is the handle. *)
Record Buffer := mkBuffer { ref_count : Z; ion_handle_main : Z; ion_handle_meta : Z }.

Record Mgr := mkMgr {
  sys : Sys;
  handles_map_ : gmap Z Buffer;
  descriptors_map_ : gmap Z BufferDescriptor;
  next_id_ : Z;
  descriptor_next_id_ : Z;
  map_fb_mem_ : bool
}.

Abbreviation B := (St Mgr).

Definition in_sys {A} (m : P A) : B A := fun g =>
  match m (sys g) with
  | Ret (a, s) => Ret (a, mkMgr s (handles_map_ g) (descriptors_map_ g) (next_id_ g)
                            (descriptor_next_id_ g) (map_fb_mem_ g))
  | Undef => Undef
  | NoFuel => NoFuel
  end.
Definition set_handles_map (m : gmap Z Buffer) (g : Mgr) : Mgr :=
  mkMgr (sys g) m (descriptors_map_ g) (next_id_ g) (descriptor_next_id_ g) (map_fb_mem_ g).
Definition set_descriptors_map (m : gmap Z BufferDescriptor) (g : Mgr) : Mgr :=
  mkMgr (sys g) (handles_map_ g) m (next_id_ g) (descriptor_next_id_ g) (map_fb_mem_ g).

(** Reading and assigning members of a handle. *)
Definition handle (p : Z) : B private_handle_t := in_sys (in_world (get_handle p)).
Definition upd_handle (p : Z) (f : private_handle_t -> private_handle_t) : B unit :=
  h ← handle p; in_sys (in_world (put_handle p (f h))).

(** Assignments to single members. *)
Definition set_base (b : Z) (h : private_handle_t) : private_handle_t :=
  match h with mkHandle v nf ni fd fm mg fl w h uw uh f bt sz o om _ bm ga i pu cu lc =>
    mkHandle v nf ni fd fm mg fl w h uw uh f bt sz o om b bm ga i pu cu lc end.
Definition set_flags (fl : Z) (h : private_handle_t) : private_handle_t :=
  match h with mkHandle v nf ni fd fm mg _ w h uw uh f bt sz o om b bm ga i pu cu lc =>
    mkHandle v nf ni fd fm mg fl w h uw uh f bt sz o om b bm ga i pu cu lc end.
(** fd = -1 and fd_metadata = -1. *)
Definition clear_fds (h : private_handle_t) : private_handle_t :=
  match h with mkHandle v nf ni _ _ mg fl w h uw uh f bt sz o om b bm ga i pu cu lc =>
    mkHandle v nf ni (-1) (-1) mg fl w h uw uh f bt sz o om b bm ga i pu cu lc end.
(** The members that are not transported. *)
Definition init_imported (size : Z) (h : private_handle_t) : private_handle_t :=
  match h with mkHandle v nf ni fd fm mg fl w h uw uh f bt _ o _ _ _ _ i pu cu lc =>
    mkHandle v nf ni fd fm mg fl w h uw uh f bt size o 0 0 0 0 i pu cu lc end.
Definition set_id (i : Z) (h : private_handle_t) : private_handle_t :=
  match h with mkHandle v nf ni fd fm mg fl w h uw uh f bt sz o om b bm ga _ pu cu lc =>
    mkHandle v nf ni fd fm mg fl w h uw uh f bt sz o om b bm ga i pu cu lc end.
Definition set_layer_count (lc : Z) (h : private_handle_t) : private_handle_t :=
  match h with mkHandle v nf ni fd fm mg fl w h uw uh f bt sz o om b bm ga i pu cu _ =>
    mkHandle v nf ni fd fm mg fl w h uw uh f bt sz o om b bm ga i pu cu lc end.

Section Manager.
Context `{HandleAbi} `{!Mmap} `{!Kernel} `{!Platform} `{!AllocPlatform}
  (ION_FLAG_CACHED : Z) (adreno : AdrenoMemInfo).

(** The constructor; the result of Allocator::Init is not used. *)
Definition new_BufferManager (prop : string -> string) (desc_next : Z) (s : Sys) : outcome Mgr :=
  let property := prop MAP_FB_MEMORY_PROP in
  let fb := (0 <? Z.of_nat (String.length property)) &&
            (String.eqb property "1" || String.eqb (lower_string property) "true") in
  '(_, s) ← IonAlloc_Init s;
  Ret (mkMgr s ∅ ∅ 0 desc_next fb).

(** * Descriptors *)
Definition CreateBufferDescriptor : B (gralloc1_error_t * Z) :=
  i ← st_gets descriptor_next_id_;
  _ ← st_modify (fun g => mkMgr (sys g) (handles_map_ g)
    (match descriptors_map_ g !! i with
     | Some _ => descriptors_map_ g
     | None => <[i := mkDescriptor (-1) (-1) (-1) 1 GRALLOC1_PRODUCER_USAGE_NONE
                        GRALLOC1_CONSUMER_USAGE_NONE i]> (descriptors_map_ g)
     end)
    (next_id_ g) (u64 (i + 1)) (map_fb_mem_ g));
  mret (GRALLOC1_ERROR_NONE, i).

Definition DestroyBufferDescriptor (i : Z) : B gralloc1_error_t :=
  m ← st_gets descriptors_map_;
  match m !! i with
  | None => mret GRALLOC1_ERROR_BAD_DESCRIPTOR
  | Some _ => _ ← st_modify (set_descriptors_map (delete i m)); mret GRALLOC1_ERROR_NONE
  end.

(** CallBufferDescriptorFunction *)
Definition CallBufferDescriptorFunction (i : Z) (member : BufferDescriptor -> BufferDescriptor)
    : B gralloc1_error_t :=
  m ← st_gets descriptors_map_;
  match m !! i with
  | None => mret GRALLOC1_ERROR_BAD_DESCRIPTOR
  | Some d => _ ← st_modify (set_descriptors_map (<[i := member d]> m)); mret GRALLOC1_ERROR_NONE
  end.

Definition SetConsumerUsage (u : Z) (d : BufferDescriptor) : BufferDescriptor :=
  mkDescriptor (d_width d) (d_height d) (d_format d) (d_layer_count d) (d_producer_usage d) u (d_id d).
Definition SetProducerUsage (u : Z) (d : BufferDescriptor) : BufferDescriptor :=
  mkDescriptor (d_width d) (d_height d) (d_format d) (d_layer_count d) u (d_consumer_usage d) (d_id d).
Definition SetDimensions (w h : Z) (d : BufferDescriptor) : BufferDescriptor :=
  mkDescriptor w h (d_format d) (d_layer_count d) (d_producer_usage d) (d_consumer_usage d) (d_id d).
Definition SetColorFormat (f : Z) (d : BufferDescriptor) : BufferDescriptor :=
  mkDescriptor (d_width d) (d_height d) f (d_layer_count d) (d_producer_usage d) (d_consumer_usage d) (d_id d).
Definition SetLayerCount (n : Z) (d : BufferDescriptor) : BufferDescriptor :=
  mkDescriptor (d_width d) (d_height d) (d_format d) n (d_producer_usage d) (d_consumer_usage d) (d_id d).

(** * Handles *)
Definition GetHandleFlags (format prod_usage cons_usage : Z) : Z :=
  let add (b : bool) (f flags : Z) := if b then Z.lor flags f else flags in
  let flags := 0 in
  let flags := add (has cons_usage GRALLOC1_CONSUMER_USAGE_PRIVATE_EXTERNAL_ONLY) PRIV_FLAGS_EXTERNAL_ONLY flags in
  let flags := add (has cons_usage GRALLOC1_CONSUMER_USAGE_PRIVATE_INTERNAL_ONLY) PRIV_FLAGS_INTERNAL_ONLY flags in
  let flags := add (has cons_usage GRALLOC1_CONSUMER_USAGE_VIDEO_ENCODER) PRIV_FLAGS_VIDEO_ENCODER flags in
  let flags := add (has prod_usage GRALLOC1_PRODUCER_USAGE_CAMERA) PRIV_FLAGS_CAMERA_WRITE flags in
  let flags := add (has prod_usage GRALLOC1_CONSUMER_USAGE_CAMERA) PRIV_FLAGS_CAMERA_READ flags in
  let flags := add (has cons_usage GRALLOC1_CONSUMER_USAGE_HWCOMPOSER) PRIV_FLAGS_HW_COMPOSER flags in
  let flags := add (has prod_usage GRALLOC1_CONSUMER_USAGE_GPU_TEXTURE) PRIV_FLAGS_HW_TEXTURE flags in
  let flags := add (has cons_usage GRALLOC1_CONSUMER_USAGE_PRIVATE_SECURE_DISPLAY) PRIV_FLAGS_SECURE_DISPLAY flags in
  let flags := add (IsUBwcEnabled (Some adreno) format prod_usage cons_usage) PRIV_FLAGS_UBWC_ALIGNED flags in
  let flags := add (has prod_usage (Z.lor GRALLOC1_PRODUCER_USAGE_CPU_READ GRALLOC1_PRODUCER_USAGE_CPU_WRITE))
                 PRIV_FLAGS_CPU_RENDERED flags in
  let flags := add (has cons_usage (Z.lor GRALLOC1_CONSUMER_USAGE_VIDEO_ENCODER GRALLOC1_CONSUMER_USAGE_CLIENT_TARGET)
                    || has prod_usage (Z.lor GRALLOC1_PRODUCER_USAGE_CAMERA GRALLOC1_PRODUCER_USAGE_GPU_RENDER_TARGET))
                 PRIV_FLAGS_NON_CPU_WRITER flags in
  let flags := add (has cons_usage GRALLOC1_CONSUMER_USAGE_HWCOMPOSER) PRIV_FLAGS_DISP_CONSUMER flags in
  add (negb (UseUncached prod_usage cons_usage)) PRIV_FLAGS_CACHED flags.

Definition GetBufferType (inputFormat : Z) : Z :=
  if IsUncompressedRGBFormat inputFormat then BUFFER_TYPE_UI else BUFFER_TYPE_VIDEO.

(** [emplace] keeps an entry that is already there. *)
Definition RegisterHandleLocked (p ion_handle ion_handle_meta : Z) : B unit :=
  st_modify (fun g =>
    match handles_map_ g !! p with
    | Some _ => g
    | None => set_handles_map (<[p := mkBuffer 1 ion_handle ion_handle_meta]> (handles_map_ g)) g
    end).

(** [++next_id_] *)
Definition next_id : B Z :=
  i ← st_gets next_id_;
  let i := u64 (i + 1) in
  _ ← st_modify (fun g => mkMgr (sys g) (handles_map_ g) (descriptors_map_ g) i
                            (descriptor_next_id_ g) (map_fb_mem_ g));
  mret i.

(** What AllocateBuffer returns: 0 and the handle, or a value that is not 0. *)
Inductive alloc_result := Allocated (p : Z) | AllocFailed (err : Z) | AllocUnsupported.

Definition AllocateBuffer (d : BufferDescriptor) (bufferSize : Z) : B alloc_result :=
  let format := d_format d in
  let prod_usage := d_producer_usage d in
  let cons_usage := d_consumer_usage d in
  let layer_count := d_layer_count d in
  gpu_ok ← (if negb (has prod_usage GRALLOC1_CONSUMER_USAGE_PRIVATE_SECURE_DISPLAY)
            then st_lift (IsGPUSupportedHwBuffer (Some adreno) prod_usage) else mret true);
  if negb gpu_ok then mret AllocUnsupported
  else
    let gralloc_format := GetImplDefinedFormat prod_usage cons_usage format in
    let buffer_type := GetBufferType gralloc_format in
    let info := mkBufferInfo (d_width d) (d_height d) format (s32 layer_count) prod_usage cons_usage in
    '(size, alignedw, alignedh) ← st_lift (GetBufferSizeAndDimensions (Some adreno) info (0, 0));
    let size := if size <=? bufferSize then bufferSize else size in
    let page_size := u32 getpagesize in
    let data := mkAllocData (-1) (-1) size (GetDataAlignment format prod_usage cons_usage)
      (UseUncached prod_usage cons_usage) 0 0 0 in
    '(err, data) ← in_sys (AllocateMem ION_FLAG_CACHED data prod_usage cons_usage);
    if negb (err =? 0) then mret (AllocFailed err)
    else
      let e_data := mkAllocData (-1) (-1) (ALIGN_uint (u32 sizeof_MetaData_t) page_size) page_size
        false 0 0 0 in
      '(err, e_data) ← in_sys (AllocateMem ION_FLAG_CACHED e_data
        GRALLOC1_PRODUCER_USAGE_NONE GRALLOC1_CONSUMER_USAGE_NONE);
      if negb (err =? 0) then mret (AllocFailed err)
      else
        let flags := Z.lor (GetHandleFlags format prod_usage cons_usage) (ad_alloc_type data) in
        i ← next_id;
        p ← in_sys (new_object (set_layer_count layer_count (set_id i
              (new_handle (ad_fd data) (ad_fd e_data) flags (s32 alignedw) (s32 alignedh)
                 (d_width d) (d_height d) format buffer_type (ad_size data) prod_usage cons_usage))));
        _ ← in_sys (in_world (setMetaData p UPDATE_COLOR_SPACE (Some (VColorSpace ITU_R_601))));
        _ ← RegisterHandleLocked p (ad_ion_handle data) (ad_ion_handle e_data);
        mret (Allocated p).

(** [dup] of a descriptor. *)
Definition dup (fd : Z) : P Z :=
  r ← st_gets (fun s => k_dup s fd);
  match r with
  | None => mret (-1)
  | Some fd' =>
      _ ← st_modify (fun s => set_world (mkWorld (handles (world s))
            (match fd_buf (world s) !! fd with
             | Some b => <[fd' := b]> (fd_buf (world s))
             | None => fd_buf (world s)
             end) (contents (world s)) (mapped (world s))) s);
      mret fd'
  end.

Definition CreateSharedHandle (inbuffer : Z) (d : BufferDescriptor) : B Z :=
  input ← handle inbuffer;
  '(alignedw, alignedh) ← st_lift (GetAlignedWidthAndHeight (Some adreno) (GetBufferInfo d) (0, 0));
  let flags := GetHandleFlags (d_format d) (d_producer_usage d) (d_consumer_usage d) in
  let buffer_type := GetBufferType (d_format d) in
  fd ← in_sys (dup (fd input));
  fd_meta ← in_sys (dup (fd_metadata input));
  i ← next_id;
  p ← in_sys (new_object (set_id i (new_handle fd fd_meta flags (s32 alignedw) (s32 alignedh)
        (d_width d) (d_height d) (d_format d) buffer_type (size input)
        (d_producer_usage d) (d_consumer_usage d))));
  _ ← RegisterHandleLocked p (-1) (-1);
  mret p.

(** The loop that looks up the descriptors; [None] when one is missing. *)
Definition find_descriptors (m : gmap Z BufferDescriptor) (ids : list Z) : option (list BufferDescriptor) :=
  mapM (fun i => m !! i) ids.

(** The loop that resolves implementation defined formats.  The descriptors are
    shared with the map: they change there. *)
Fixpoint resolve_formats (ids : list Z) : B unit :=
  match ids with
  | [] => mret tt
  | i :: ids =>
      m ← st_gets descriptors_map_;
      match m !! i with
      | None => st_undef
      | Some d =>
          _ ← st_modify (set_descriptors_map (<[i := SetColorFormat
                (GetImplDefinedFormat (d_producer_usage d) (d_consumer_usage d) (d_format d)) d]> m));
          resolve_formats ids
      end
  end.

(** The loop that allocates one buffer per descriptor. *)
Fixpoint allocate_each (ds : list BufferDescriptor) (out : list Z) : B (bool * list Z) :=
  match ds with
  | [] => mret (true, out)
  | d :: ds =>
      r ← AllocateBuffer d 0;
      match r with
      | Allocated p => allocate_each ds (out ++ [p])
      | _ => mret (false, out)
      end
  end.

(** The loop that makes shared handles for the descriptors other than
    [max_index]. *)
Fixpoint share_each (shared : Z) (max_index i : Z) (ds : list BufferDescriptor) (out : list Z) : B (list Z) :=
  match ds with
  | [] => mret out
  | d :: ds =>
      p ← (if i =? max_index then mret shared else CreateSharedHandle shared d);
      share_each shared max_index (i + 1) ds (out ++ [p])
  end.

(** [test_allocate]: out_buffers is null.  The result has the handles written to
    out_buffers, in the order of the descriptors. *)
Definition AllocateBuffers (ids : list Z) (test_allocate : bool) : B (gralloc1_error_t * list Z) :=
  m ← st_gets descriptors_map_;
  match find_descriptors m ids with
  | None => mret (GRALLOC1_ERROR_BAD_DESCRIPTOR, [])
  | Some _ =>
      _ ← resolve_formats ids;
      m ← st_gets descriptors_map_;
      match find_descriptors m ids with
      | None => st_undef
      | Some ds =>
          '(shared, max_buf_index) ← st_lift (CheckForBufferSharing adreno ds);
          if test_allocate then
            mret (if shared : bool then GRALLOC1_ERROR_NOT_SHARED else GRALLOC1_ERROR_NONE, [])
          else if shared && (0 <=? max_buf_index) then
            match ds !! Z.to_nat max_buf_index with
            | None => st_undef
            | Some d =>
                r ← AllocateBuffer d 0;
                match r with
                | Allocated p => out ← share_each p max_buf_index 0 ds []; mret (GRALLOC1_ERROR_NONE, out)
                | _ => mret (GRALLOC1_ERROR_NO_RESOURCES, [])
                end
            end
          else
            '(ok, out) ← allocate_each ds [];
            if negb ok then mret (GRALLOC1_ERROR_NO_RESOURCES, out)
            else if negb shared then mret (GRALLOC1_ERROR_NOT_SHARED, out)
            else mret (GRALLOC1_ERROR_NONE, out)
      end
  end.

(** [buf] is the entry of [p], already taken out of the map. *)
Definition FreeBuffer (p : Z) (buf : Buffer) : B gralloc1_error_t :=
  v ← in_sys (in_world (validate p));
  if negb (v =? 0) then mret GRALLOC1_ERROR_BAD_HANDLE
  else
    hnd ← handle p;
    e ← in_sys (IonAlloc_FreeBuffer (base hnd) (fd hnd) (ion_handle_main buf));
    if negb (e =? 0) then mret GRALLOC1_ERROR_BAD_HANDLE
    else
      e ← (if 0 <=? fd_metadata hnd
           then in_sys (IonAlloc_FreeBuffer (base_metadata hnd) (fd_metadata hnd) (ion_handle_meta buf))
           else mret 0);
      if negb (e =? 0) then mret GRALLOC1_ERROR_BAD_HANDLE
      else
        _ ← upd_handle p clear_fds;
        _ ← (if negb (has (flags hnd) PRIV_FLAGS_CLIENT_ALLOCATED)
             then in_sys (delete_object p) else mret tt);
        mret GRALLOC1_ERROR_NONE.

Definition ImportHandleLocked (p : Z) : B gralloc1_error_t :=
  v ← in_sys (in_world (validate p));
  if negb (v =? 0) then mret GRALLOC1_ERROR_BAD_HANDLE
  else
    hnd ← handle p;
    ion_handle ← in_sys (IonAlloc_ImportBuffer (fd hnd));
    if ion_handle <? 0 then mret GRALLOC1_ERROR_BAD_HANDLE
    else
      meta ← (if 0 <=? fd_metadata hnd then in_sys (IonAlloc_ImportBuffer (fd_metadata hnd)) else mret (-1));
      if (0 <=? fd_metadata hnd) && (meta <? 0) then
        _ ← in_sys (IonAlloc_FreeBuffer 0 (fd hnd) ion_handle);
        _ ← in_sys (close (fd_metadata hnd));
        _ ← upd_handle p clear_fds;
        mret GRALLOC1_ERROR_BAD_HANDLE
      else
        sz ← in_sys (st_gets (fun s => k_seek_end s (fd hnd)));
        _ ← upd_handle p (init_imported (u32 sz));
        _ ← RegisterHandleLocked p ion_handle meta;
        mret GRALLOC1_ERROR_NONE.

Definition MapBuffer (p : Z) : B gralloc1_error_t :=
  _ ← upd_handle p (set_base 0);
  hnd ← handle p;
  '(e, a) ← in_sys (IonAlloc_MapBuffer (fd hnd));
  _ ← upd_handle p (set_base a);
  mret (if negb (e =? 0) then GRALLOC1_ERROR_BAD_HANDLE else GRALLOC1_ERROR_NONE).

Definition RetainBuffer (p : Z) : B gralloc1_error_t :=
  m ← st_gets handles_map_;
  match m !! p with
  | Some buf =>
      n ← st_lift (int_expr (ref_count buf + 1));
      _ ← st_modify (set_handles_map (<[p := mkBuffer n (ion_handle_main buf) (ion_handle_meta buf)]> m));
      mret GRALLOC1_ERROR_NONE
  | None => ImportHandleLocked p
  end.

Definition ReleaseBuffer (p : Z) : B gralloc1_error_t :=
  m ← st_gets handles_map_;
  match m !! p with
  | None => mret GRALLOC1_ERROR_BAD_HANDLE
  | Some buf =>
      n ← st_lift (int_expr (ref_count buf - 1));
      let buf := mkBuffer n (ion_handle_main buf) (ion_handle_meta buf) in
      if n =? 0 then
        _ ← st_modify (set_handles_map (delete p m));
        _ ← FreeBuffer p buf;
        mret GRALLOC1_ERROR_NONE
      else
        _ ← st_modify (set_handles_map (<[p := buf]> m));
        mret GRALLOC1_ERROR_NONE
  end.

Definition LockBuffer (p prod_usage cons_usage : Z) : B gralloc1_error_t :=
  if negb (CpuCanAccess prod_usage cons_usage) then mret GRALLOC1_ERROR_BAD_VALUE
  else
    m ← st_gets handles_map_;
    match m !! p with
    | None => mret GRALLOC1_ERROR_BAD_HANDLE
    | Some buf =>
        hnd ← handle p;
        err ← (if base hnd =? 0 then MapBuffer p else mret GRALLOC1_ERROR_NONE);
        hnd ← handle p;
        let ok := bool_decide (err = GRALLOC1_ERROR_NONE) in
        c ← (if ok && has (flags hnd) PRIV_FLAGS_USES_ION && has (flags hnd) PRIV_FLAGS_CACHED
                && has cons_usage (Z.lor GRALLOC1_CONSUMER_USAGE_CPU_READ GRALLOC1_CONSUMER_USAGE_CPU_READ_OFTEN)
                && has (flags hnd) PRIV_FLAGS_NON_CPU_WRITER
             then in_sys (IonAlloc_CleanBuffer (ion_handle_main buf) CACHE_INVALIDATE)
             else mret 0);
        if negb (c =? 0) then mret GRALLOC1_ERROR_BAD_HANDLE
        else
          _ ← (if ok && CpuCanWrite prod_usage
               then upd_handle p (fun h => set_flags (Z.lor (flags h) PRIV_FLAGS_NEEDS_FLUSH) h)
               else mret tt);
          mret err
    end.

Definition UnlockBuffer (p : Z) : B gralloc1_error_t :=
  m ← st_gets handles_map_;
  match m !! p with
  | None => mret GRALLOC1_ERROR_BAD_HANDLE
  | Some buf =>
      hnd ← handle p;
      if has (flags hnd) PRIV_FLAGS_NEEDS_FLUSH then
        c ← in_sys (IonAlloc_CleanBuffer (ion_handle_main buf) CACHE_CLEAN);
        _ ← upd_handle p (fun h => set_flags (Z.land (flags h) (Z.lnot PRIV_FLAGS_NEEDS_FLUSH)) h);
        mret (if negb (c =? 0) then GRALLOC1_ERROR_BAD_HANDLE else GRALLOC1_ERROR_NONE)
      else mret GRALLOC1_ERROR_NONE
  end.

Definition IsBufferImported (p : Z) : B gralloc1_error_t :=
  m ← st_gets handles_map_;
  mret (match m !! p with Some _ => GRALLOC1_ERROR_NONE | None => GRALLOC1_ERROR_BAD_VALUE end).

Definition ValidateBufferSize (p : Z) (info : BufferInfo) : B gralloc1_error_t :=
  hnd ← handle p;
  let info := mkBufferInfo (bi_width info) (bi_height info)
    (GetImplDefinedFormat (bi_prod_usage info) (bi_cons_usage info) (bi_format info))
    (bi_layer_count info) (bi_prod_usage info) (bi_cons_usage info) in
  '(size, _, _) ← st_lift (GetBufferSizeAndDimensions (Some adreno) info (0, 0));
  ion_fd_size ← in_sys (st_gets (fun s => u32 (k_seek_end s (fd hnd))));
  mret (if negb (size =? ion_fd_size) then GRALLOC1_ERROR_BAD_VALUE else GRALLOC1_ERROR_NONE).

(** * Planes of flexible formats *)
Definition IsYuvFormat (format : Z) : bool :=
  match hal_format format with
  | HAL_PIXEL_FORMAT_YCbCr_420_SP | HAL_PIXEL_FORMAT_YCbCr_422_SP
  | HAL_PIXEL_FORMAT_YCbCr_420_SP_VENUS | HAL_PIXEL_FORMAT_NV12_ENCODEABLE
  | HAL_PIXEL_FORMAT_YCbCr_420_SP_VENUS_UBWC | HAL_PIXEL_FORMAT_YCrCb_420_SP
  | HAL_PIXEL_FORMAT_YCrCb_422_SP | HAL_PIXEL_FORMAT_YCrCb_420_SP_ADRENO
  | HAL_PIXEL_FORMAT_NV21_ZSL | HAL_PIXEL_FORMAT_RAW16 | HAL_PIXEL_FORMAT_Y16
  | HAL_PIXEL_FORMAT_RAW12 | HAL_PIXEL_FORMAT_RAW10 | HAL_PIXEL_FORMAT_YV12
  | HAL_PIXEL_FORMAT_Y8 | HAL_PIXEL_FORMAT_YCbCr_420_P010
  | HAL_PIXEL_FORMAT_YCbCr_420_TP10_UBWC | HAL_PIXEL_FORMAT_YCbCr_420_P010_UBWC => true
  | _ => false
  end.

(** The error and [*out_num_planes] when it is written. *)
Definition GetNumFlexPlanes (p : Z) : B (gralloc1_error_t * option Z) :=
  hnd ← handle p;
  mret (if negb (IsYuvFormat (format hnd)) then (GRALLOC1_ERROR_UNSUPPORTED, None)
        else (GRALLOC1_ERROR_NONE, Some 3)).

Inductive flex_component := FLEX_COMPONENT_Y | FLEX_COMPONENT_Cb | FLEX_COMPONENT_Cr.
Record flex_plane := mkFlexPlane {
  top_left : Z; component : flex_component;
  bits_per_component : Z; bits_used : Z; h_increment : Z; v_increment : Z;
  h_subsampling : Z; v_subsampling : Z
}.

(** The error and the three planes written to the layout. *)
Definition GetFlexLayout (p : Z) : B (gralloc1_error_t * list flex_plane) :=
  hnd ← handle p;
  if negb (IsYuvFormat (format hnd)) then mret (GRALLOC1_ERROR_UNSUPPORTED, [])
  else
    let uninit := mkYcbcr 0 0 0 0 0 0 in
    '(err, (ycbcr, _)) ← in_sys (in_world (GetYUVPlaneInfo (Some adreno) p (uninit, uninit)));
    if negb (err =? 0) then mret (GRALLOC1_ERROR_BAD_HANDLE, [])
    else mret (GRALLOC1_ERROR_NONE,
      [mkFlexPlane (y ycbcr) FLEX_COMPONENT_Y 8 8 1 (s32 (ystride ycbcr)) 2 2;
       mkFlexPlane (cb ycbcr) FLEX_COMPONENT_Cb 8 8 (s32 (chroma_step ycbcr)) (s32 (cstride ycbcr)) 2 2;
       mkFlexPlane (cr ycbcr) FLEX_COMPONENT_Cr 8 8 (s32 (chroma_step ycbcr)) (s32 (cstride ycbcr)) 2 2]).

(** * Perform *)
Definition HAL_CSC_ITU_R_601 : Z := 0.
Definition HAL_CSC_ITU_R_601_FR : Z := 1.
Definition HAL_CSC_ITU_R_709 : Z := 2.
Definition HAL_CSC_ITU_R_2020 : Z := 3.
Definition HAL_CSC_ITU_R_2020_FR : Z := 4.

(** The operations with the arguments they take from the list; the booleans say
    that a result pointer is not null. *)
Inductive PerformOp :=
| CREATE_HANDLE_FROM_BUFFER (fd size offset base width height format : Z) (out : bool)
| GET_STRIDE (width format : Z) (out : bool)
| GET_CUSTOM_STRIDE_FROM_HANDLE (hnd : Z) (out : bool)
| GET_CUSTOM_STRIDE_AND_HEIGHT_FROM_HANDLE (hnd : Z) (out1 out2 : bool)
| GET_ATTRIBUTES (width height format prod_usage cons_usage : Z) (out1 out2 out3 : bool)
| GET_COLOR_SPACE_FROM_HANDLE (hnd : Z) (out : bool)
| GET_YUV_PLANE_INFO (hnd : Z) (ycbcr : option (android_ycbcr * android_ycbcr))
| GET_MAP_SECURE_BUFFER_INFO (hnd : Z) (map_secure_buffer : option Z)
| GET_UBWC_FLAG (hnd : Z) (out : bool)
| GET_RGB_DATA_ADDRESS (hnd : Z) (out : bool)
| GET_BUFFER_SIZE_AND_DIMENSIONS (width height format prod_usage cons_usage : Z) (out1 out2 out3 : bool)
| ALLOCATE_BUFFER (width height format prod_usage cons_usage : Z) (out : bool)
| GET_INTERLACE_FLAG (hnd : Z) (out : bool)
| OTHER_OPERATION.

(** What is written through the result pointers. *)
Inductive PerformOut :=
| NoOut
| OutInts (l : list Z)
| OutPlanes (i : android_ycbcr * android_ycbcr).

Definition PA : Type := gralloc1_error_t * PerformOut.
Definition bad_value : PA := (GRALLOC1_ERROR_BAD_VALUE, NoOut).

(** [if (private_handle_t::validate(hnd) != 0) return BAD_HANDLE; if (!out)
    return BAD_VALUE;] *)
Definition checked (p : Z) (out : bool) (k : B PA) : B PA :=
  v ← in_sys (in_world (validate p));
  if negb (v =? 0) then mret (GRALLOC1_ERROR_BAD_HANDLE, NoOut)
  else if negb out then mret bad_value
  else k.

Definition meta {A} (m : M A) : B A := in_sys (in_world m).

(** GET_COLOR_SPACE: [colorPrimaries] and [range] are the first words of the
    colour metadata. *)
Definition csc_of_color (c : list Z) : Z :=
  let primaries := default 0 (c !! 0%nat) in
  let range := default 0 (c !! 1%nat) in
  if primaries =? 1 then HAL_CSC_ITU_R_709
  else if (primaries =? 6) || (primaries =? 5) then
    if negb (range =? 0) then HAL_CSC_ITU_R_601_FR else HAL_CSC_ITU_R_601
  else if primaries =? 9 then
    if negb (range =? 0) then HAL_CSC_ITU_R_2020_FR else HAL_CSC_ITU_R_2020
  else 0.

(** The value of an enumerator of ColorSpace_t. *)
Definition color_space_code (c : ColorSpace_t) : Z :=
  match c with
  | ITU_R_601 => 0 | ITU_R_601_FR => 1 | ITU_R_709 => 2 | ITU_R_2020 => 3 | ITU_R_2020_FR => 4
  end.

Definition Perform (op : PerformOp) : B PA :=
  let ok l : PA := (GRALLOC1_ERROR_NONE, OutInts l) in
  match op with
  | CREATE_HANDLE_FROM_BUFFER fd size offset base width height format out =>
      if negb out then mret (GRALLOC1_ERROR_BAD_HANDLE, NoOut)
      else
        g ← in_sys (st_gets k_garbage);
        '(aw, ah) ← st_lift (GetAlignedWidthAndHeight (Some adreno)
          (new_BufferInfo width height format GRALLOC1_PRODUCER_USAGE_NONE GRALLOC1_CONSUMER_USAGE_NONE) (0, 0));
        p ← in_sys (new_object {|
          version := sizeof_native_handle; numFds := kNumFds; numInts := NumInts;
          fd := fd; fd_metadata := fd_metadata g; magic := kMagic; flags := PRIV_FLAGS_USES_ION;
          width := s32 aw; height := s32 ah; unaligned_width := width; unaligned_height := height;
          format := format; buffer_type := buffer_type g; size := size; offset := offset;
          offset_metadata := offset_metadata g; base := base; base_metadata := base_metadata g;
          gpuaddr := 0; id := id g; producer_usage := producer_usage g;
          consumer_usage := consumer_usage g; layer_count := layer_count g |});
        mret (ok [p])
  | GET_STRIDE width format out =>
      if negb out then mret bad_value
      else
        '(aw, _) ← st_lift (GetAlignedWidthAndHeight (Some adreno)
          (new_BufferInfo width width format GRALLOC1_PRODUCER_USAGE_NONE GRALLOC1_CONSUMER_USAGE_NONE) (0, 0));
        mret (ok [s32 aw])
  | GET_CUSTOM_STRIDE_FROM_HANDLE p out =>
      checked p out (
        '(r, v) ← meta (getMetaData p GET_BUFFER_GEOMETRY);
        hnd ← handle p;
        mret (ok [match r =? 0, v with true, Some (VDim d) => sliceWidth d | _, _ => width hnd end]))
  | GET_CUSTOM_STRIDE_AND_HEIGHT_FROM_HANDLE p out1 out2 =>
      checked p (out1 && out2) (
        '(r, v) ← meta (getMetaData p GET_BUFFER_GEOMETRY);
        hnd ← handle p;
        mret (ok (match r =? 0, v with
                  | true, Some (VDim d) => [sliceWidth d; sliceHeight d]
                  | _, _ => [width hnd; height hnd]
                  end)))
  | GET_ATTRIBUTES width height format prod_usage cons_usage out1 out2 out3 =>
      if negb (out1 && out2 && out3) then mret bad_value
      else
        let tile_enabled := Z.b2z (IsUBwcEnabled (Some adreno) format prod_usage cons_usage) in
        '(aw, ah) ← st_lift (GetAlignedWidthAndHeight (Some adreno)
          (new_BufferInfo width height format prod_usage cons_usage) (0, 0));
        mret (ok [s32 aw; s32 ah; tile_enabled])
  | GET_COLOR_SPACE_FROM_HANDLE p out =>
      checked p out (
        '(r, v) ← meta (getMetaData p GET_COLOR_METADATA);
        match r =? 0, v with
        | true, Some (VColor c) => mret (ok [csc_of_color c])
        | _, _ =>
            '(r, v) ← meta (getMetaData p GET_COLOR_SPACE);
            mret (ok [match r =? 0, v with true, Some (VColorSpace c) => color_space_code c | _, _ => 0 end])
        end)
  | GET_YUV_PLANE_INFO p ycbcr =>
      checked p (match ycbcr with Some _ => true | None => false end) (
        match ycbcr with
        | None => mret bad_value
        | Some z =>
            '(err, i) ← meta (GetYUVPlaneInfo (Some adreno) p z);
            mret (if negb (err =? 0) then (GRALLOC1_ERROR_UNDEFINED, OutPlanes i)
                  else (GRALLOC1_ERROR_NONE, OutPlanes i))
        end)
  | GET_MAP_SECURE_BUFFER_INFO p cur =>
      checked p (match cur with Some _ => true | None => false end) (
        match cur with
        | None => mret bad_value
        | Some x =>
            '(r, _) ← meta (getMetaData p GET_MAP_SECURE_BUFFER);
            mret (ok [if r =? 0 then 0 else x])
        end)
  | GET_UBWC_FLAG p out =>
      checked p out (
        hnd ← handle p;
        let flag := Z.land (flags hnd) PRIV_FLAGS_UBWC_ALIGNED in
        '(r, v) ← meta (getMetaData p GET_LINEAR_FORMAT);
        let linear_format := match v with Some (VUint32 x) => x | _ => 0 end in
        mret (ok [if (r =? 0) && negb (linear_format =? 0) then 0 else flag]))
  | GET_RGB_DATA_ADDRESS p out =>
      checked p out (
        '(err, a) ← meta (GetRgbDataAddress p);
        mret (if negb (err =? 0) then GRALLOC1_ERROR_UNDEFINED else GRALLOC1_ERROR_NONE,
              match a with Some a => OutInts [a] | None => NoOut end))
  | GET_BUFFER_SIZE_AND_DIMENSIONS width height format prod_usage cons_usage out1 out2 out3 =>
      if negb (out1 && out2 && out3) then mret bad_value
      else
        '(size, aw, ah) ← st_lift (GetBufferSizeAndDimensions (Some adreno)
          (new_BufferInfo width height format prod_usage cons_usage) (0, 0));
        mret (ok [aw; ah; ALIGN_uint size (GetDataAlignment format prod_usage cons_usage)])
  | ALLOCATE_BUFFER width height format prod_usage cons_usage out =>
      i ← st_gets descriptor_next_id_;
      _ ← st_modify (fun g => mkMgr (sys g) (handles_map_ g) (descriptors_map_ g) (next_id_ g)
                                (u64 (i + 1)) (map_fb_mem_ g));
      let d := mkDescriptor width height format 1 prod_usage cons_usage i in
      '(size, _, _) ← st_lift (GetBufferSizeAndDimensions (Some adreno) (GetBufferInfo d) (0, 0));
      if negb out then mret (GRALLOC1_ERROR_NONE, NoOut)
      else
        r ← AllocateBuffer d size;
        mret (GRALLOC1_ERROR_NONE, match r with Allocated p => OutInts [p] | _ => NoOut end)
  | GET_INTERLACE_FLAG p out =>
      checked p out (
        '(r, v) ← meta (getMetaData p GET_PP_PARAM_INTERLACED);
        mret (ok [match r =? 0, v with true, Some (VInt32 x) => x | _, _ => 0 end]))
  | OTHER_OPERATION => mret (GRALLOC1_ERROR_NONE, NoOut)
  end.

End Manager.

(** * gr_device_impl.cpp

    [device] says that the device pointer is not null. *)
Module GrallocImpl.
Section Impl.
Context `{HandleAbi} `{!Mmap} `{!Kernel} `{!Platform} `{!AllocPlatform}
  (ION_FLAG_CACHED : Z) (adreno : AdrenoMemInfo).

Definition CheckDeviceAndHandle (device : bool) (p : Z) : B gralloc1_error_t :=
  if negb device then mret GRALLOC1_ERROR_BAD_HANDLE
  else
    v ← meta (validate p);
    mret (if negb (v =? 0) then GRALLOC1_ERROR_BAD_HANDLE else GRALLOC1_ERROR_NONE).

(** [status = CheckDeviceAndHandle(...); if (status == NONE) {...}]: the status
    and the value written to the result. *)
Definition query {A} (device : bool) (p : Z) (f : private_handle_t -> A) : B (gralloc1_error_t * option A) :=
  status ← CheckDeviceAndHandle device p;
  match status with
  | GRALLOC1_ERROR_NONE => hnd ← handle p; mret (status, Some (f hnd))
  | _ => mret (status, None)
  end.

Definition Impl_CreateBufferDescriptor (device : bool) : B (gralloc1_error_t * option Z) :=
  if negb device then mret (GRALLOC1_ERROR_BAD_DESCRIPTOR, None)
  else '(e, i) ← CreateBufferDescriptor; mret (e, Some i).
Definition Impl_DestroyBufferDescriptor (device : bool) (i : Z) : B gralloc1_error_t :=
  if negb device then mret GRALLOC1_ERROR_BAD_DESCRIPTOR else DestroyBufferDescriptor i.
Definition Impl_SetConsumerUsage (device : bool) (i usage : Z) : B gralloc1_error_t :=
  if negb device then mret GRALLOC1_ERROR_BAD_DESCRIPTOR
  else CallBufferDescriptorFunction i (SetConsumerUsage usage).
Definition Impl_SetBufferDimensions (device : bool) (i width height : Z) : B gralloc1_error_t :=
  if negb device then mret GRALLOC1_ERROR_BAD_DESCRIPTOR
  else CallBufferDescriptorFunction i (SetDimensions (s32 width) (s32 height)).
Definition Impl_SetColorFormat (device : bool) (i format : Z) : B gralloc1_error_t :=
  if negb device then mret GRALLOC1_ERROR_BAD_DESCRIPTOR
  else CallBufferDescriptorFunction i (SetColorFormat format).
Definition Impl_SetLayerCount (device : bool) (i layer_count : Z) : B gralloc1_error_t :=
  if negb device then mret GRALLOC1_ERROR_BAD_DESCRIPTOR
  else CallBufferDescriptorFunction i (SetLayerCount layer_count).
Definition Impl_SetProducerUsage (device : bool) (i usage : Z) : B gralloc1_error_t :=
  if negb device then mret GRALLOC1_ERROR_BAD_DESCRIPTOR
  else CallBufferDescriptorFunction i (SetProducerUsage usage).

Definition GetBackingStore (device : bool) (p : Z) : B (gralloc1_error_t * option Z) :=
  if negb device || (p =? 0) then mret (GRALLOC1_ERROR_BAD_HANDLE, None)
  else hnd ← handle p; mret (GRALLOC1_ERROR_NONE, Some (id hnd)).
Definition GetConsumerUsage (device : bool) (p : Z) := query device p consumer_usage.
Definition GetBufferDimensions (device : bool) (p : Z) :=
  query device p (fun h => (u32 (unaligned_width h), u32 (unaligned_height h))).
Definition GetColorFormat (device : bool) (p : Z) := query device p format.
Definition GetLayerCount (device : bool) (p : Z) := query device p layer_count.
Definition GetProducerUsage (device : bool) (p : Z) (out : bool) : B (gralloc1_error_t * option Z) :=
  if negb out then mret (GRALLOC1_ERROR_BAD_VALUE, None) else query device p producer_usage.
Definition GetBufferStride (device : bool) (p : Z) (out : bool) : B (gralloc1_error_t * option Z) :=
  if negb out then mret (GRALLOC1_ERROR_BAD_VALUE, None) else query device p (fun h => u32 (width h)).

(** [descriptors]: [None] is a null array. *)
Definition Impl_AllocateBuffers (device : bool) (descriptors : option (list Z)) (test_allocate : bool)
    : B (gralloc1_error_t * list Z) :=
  match descriptors with
  | None | Some [] => mret (GRALLOC1_ERROR_BAD_DESCRIPTOR, [])
  | Some ids =>
      if negb device then mret (GRALLOC1_ERROR_BAD_VALUE, [])
      else AllocateBuffers ION_FLAG_CACHED adreno ids test_allocate
  end.

Definition Impl_RetainBuffer (device : bool) (p : Z) : B gralloc1_error_t :=
  status ← CheckDeviceAndHandle device p;
  match status with GRALLOC1_ERROR_NONE => RetainBuffer p | _ => mret status end.

Definition Impl_ReleaseBuffer (device : bool) (p : Z) : B gralloc1_error_t :=
  if negb device || (p =? 0) then mret GRALLOC1_ERROR_BAD_DESCRIPTOR else ReleaseBuffer p.

Definition Impl_GetNumFlexPlanes (device : bool) (p : Z) (out : bool) : B (gralloc1_error_t * option Z) :=
  if negb out then mret (GRALLOC1_ERROR_BAD_VALUE, None)
  else
    status ← CheckDeviceAndHandle device p;
    match status with GRALLOC1_ERROR_NONE => GetNumFlexPlanes p | _ => mret (status, None) end.

Definition CloseFdIfValid (fd : Z) : B unit := if 0 <? fd then in_sys (close fd) else mret tt.

(** The result of sync_wait on the fence. *)
Context (sync_wait : Sys -> Z -> Z).

(** The status and [*out_data]. *)
Definition Impl_LockBuffer (device : bool) (p prod_usage cons_usage : Z) (region out_data : bool)
    (acquire_fence : Z) : B (gralloc1_error_t * option Z) :=
  status ← CheckDeviceAndHandle device p;
  if negb (bool_decide (status = GRALLOC1_ERROR_NONE)) || negb out_data || negb region then
    _ ← CloseFdIfValid acquire_fence; mret (status, None)
  else
    err ← (if 0 <? acquire_fence then
             e ← in_sys (st_gets (fun s => sync_wait s acquire_fence));
             _ ← CloseFdIfValid acquire_fence; mret e
           else mret 0);
    if err <? 0 then mret (GRALLOC1_ERROR_UNDEFINED, None)
    else
      status ← LockBuffer p prod_usage cons_usage;
      hnd ← handle p;
      mret (status, Some (base hnd)).

Definition LockFlex (device : bool) (p prod_usage cons_usage : Z) (region out_flex_layout : bool)
    (acquire_fence : Z) : B (gralloc1_error_t * list flex_plane) :=
  if negb out_flex_layout then _ ← CloseFdIfValid acquire_fence; mret (GRALLOC1_ERROR_BAD_VALUE, [])
  else
    '(status, _) ← Impl_LockBuffer device p prod_usage cons_usage region true acquire_fence;
    match status with
    | GRALLOC1_ERROR_NONE => '(_, l) ← GetFlexLayout adreno p; mret (status, l)
    | _ => mret (status, [])
    end.

(** The status and [*release_fence]. *)
Definition Impl_UnlockBuffer (device : bool) (p : Z) (release_fence : bool) : B (gralloc1_error_t * option Z) :=
  status ← CheckDeviceAndHandle device p;
  match status with
  | GRALLOC1_ERROR_NONE =>
      if negb release_fence then mret (GRALLOC1_ERROR_BAD_VALUE, None)
      else status ← UnlockBuffer p; mret (status, Some (-1))
  | _ => mret (status, None)
  end.

Definition Gralloc1Perform (device : bool) (op : PerformOp) : B PA :=
  if negb device then mret bad_value else Perform ION_FLAG_CACHED adreno op.

(** [info]: width, height, format, layer count and usages of the descriptor. *)
Definition Impl_ValidateBufferSize (device : bool) (p : Z) (info : BufferInfo) : B gralloc1_error_t :=
  if negb device then mret GRALLOC1_ERROR_BAD_VALUE
  else if p =? 0 then mret GRALLOC1_ERROR_BAD_VALUE
  else
    v ← meta (validate p);
    if negb (v =? 0) then mret GRALLOC1_ERROR_BAD_VALUE
    else
      e ← IsBufferImported p;
      match e with
      | GRALLOC1_ERROR_NONE =>
          ValidateBufferSize adreno p (mkBufferInfo (s32 (bi_width info)) (s32 (bi_height info))
            (s32 (bi_format info)) (s32 (bi_layer_count info)) (bi_prod_usage info) (bi_cons_usage info))
      | _ => mret GRALLOC1_ERROR_BAD_VALUE
      end.

(** The error, numFds and numInts. *)
Definition GetTransportSize (p : Z) : B (gralloc1_error_t * option (Z * Z)) :=
  if p =? 0 then mret (GRALLOC1_ERROR_BAD_VALUE, None)
  else
    v ← meta (validate p);
    if negb (v =? 0) then mret (GRALLOC1_ERROR_BAD_VALUE, None)
    else hnd ← handle p; mret (GRALLOC1_ERROR_NONE, Some (2, u32 (numInts hnd))).

(** libcutils: a copy of a handle with duplicated descriptors, or null; and the
    close and delete of such a copy. *)
Context (native_handle_clone : Z -> B (option Z)) (native_handle_close_delete : Z -> B unit).

Definition ImportBuffer (device : bool) (p : Z) : B (gralloc1_error_t * option Z) :=
  if negb device then mret (GRALLOC1_ERROR_BAD_VALUE, None)
  else if p =? 0 then mret (GRALLOC1_ERROR_BAD_HANDLE, None)
  else
    r ← native_handle_clone p;
    match r with
    | None => mret (GRALLOC1_ERROR_NO_RESOURCES, None)
    | Some q =>
        error ← RetainBuffer q;
        match error with
        | GRALLOC1_ERROR_NONE => mret (GRALLOC1_ERROR_NONE, Some q)
        | _ => _ ← native_handle_close_delete q; mret (error, None)
        end
    end.

(** The count and the capabilities written when there is room for them. *)
Definition GetCapabilities (device : bool) (out_capabilities : bool) (out_count : Z) : Z * bool :=
  if negb device then (out_count, false)
  else (3, out_capabilities && (3 <=? out_count)).
End Impl.
End GrallocImpl.
End BufMgr.
