(* ===== verification/BufFacts.v ===== *)
(** What a graphic buffer owns: the resources of the system (open descriptors,
    mappings, references on ion handles), and for each operation of [Alloc] and
    [BufMgr] which of them it takes and which it leaves.  Files modelled:
    gr_ion_alloc.cpp, gr_allocator.cpp, gr_buf_mgr.cpp. *)
From S2P Require Import Prelude MetaData GrUtils Alloc BufMgr.
#[local] Open Scope Z_scope.

(** * Resources *)
Module Resource.
Import MetaData GrUtils Alloc BufMgr.

Inductive res := Fd (x : Z) | Addr (a : Z) | Ion (h : Z).
#[global] Instance res_eq_dec : EqDecision res.
Proof. solve_decision. Defined.

Definition cnt (r : res) (l : list res) : nat := count_occ (fun x y => decide (x = y)) l r.
#[global] Arguments cnt : simpl never.

(** How often a resource is held: a descriptor is open or not, an address is
    mapped or not, an ion handle has a number of references. *)
Definition avail (s : Sys) (r : res) : nat :=
  match r with
  | Fd x => if (0 <=? x)%Z then match fd_buf (world s) !! x with Some _ => 1 | None => 0 end else 0
  | Addr a => match mapped (world s) !! a with Some _ => 1 | None => 0 end
  | Ion h => default 0 (ion_refs s !! h)
  end%nat.

(** The resources a handle and its entry name.  0 and MAP_FAILED are not
    addresses, a negative number is not a descriptor, and an ion handle that is
    not positive is none. *)
Definition fd_res (x : Z) : list res := if 0 <=? x then [Fd x] else [].
Definition addr_res (a : Z) : list res := if (a =? 0) || (a =? MAP_FAILED) then [] else [Addr a].
Definition ion_res (h : Z) : list res := if 0 <? h then [Ion h] else [].
Definition main_res (h : private_handle_t) (b : Buffer) : list res :=
  addr_res (base h) ++ ion_res (ion_handle_main b) ++ fd_res (fd h).
Definition meta_res (h : private_handle_t) (b : Buffer) : list res :=
  if 0 <=? fd_metadata h
  then addr_res (base_metadata h) ++ ion_res (ion_handle_meta b) ++ fd_res (fd_metadata h)
  else [].
Definition owns (h : private_handle_t) (b : Buffer) : list res := main_res h b ++ meta_res h b.

(** [s'] is [s] without the resources [X] and with the resources [Y]. *)
Definition moves (X Y : list res) (s s' : Sys) : Prop :=
  forall r, (avail s' r + cnt r X = avail s r + cnt r Y)%nat.
(** The resources [X] are there. *)
Definition has_res (X : list res) (s : Sys) : Prop := forall r, (cnt r X <= avail s r)%nat.

Lemma cnt_app r X Y : cnt r (X ++ Y) = (cnt r X + cnt r Y)%nat.
Proof. apply count_occ_app. Qed.

Lemma cnt_cons r x X : cnt r (x :: X) = ((if decide (x = r) then 1 else 0) + cnt r X)%nat.
Proof. unfold cnt. cbn [count_occ]. by destruct (decide (x = r)). Qed.

Lemma cnt_nil r : cnt r [] = 0%nat.
Proof. done. Qed.

Lemma moves_refl X s : moves X X s s.
Proof. done. Qed.

Lemma moves_trans X Y Z s1 s2 s3 : moves X Y s1 s2 -> moves Y Z s2 s3 -> moves X Z s1 s3.
Proof. intros H1 H2 r. specialize (H1 r). specialize (H2 r). lia. Qed.

Lemma moves_frame F X Y s s' : moves X Y s s' -> moves (X ++ F) (Y ++ F) s s'.
Proof. intros H1 r. specialize (H1 r). rewrite !cnt_app. lia. Qed.

Lemma moves_seq X1 Y1 X2 Y2 s1 s2 s3 : moves X1 Y1 s1 s2 -> moves X2 Y2 s2 s3 ->
  moves (X1 ++ X2) (Y1 ++ Y2) s1 s3.
Proof. intros H1 H2 r. specialize (H1 r). specialize (H2 r). rewrite !cnt_app. lia. Qed.

(** What is there and not taken by a step is still there after it. *)
Lemma has_res_moves X Y F s s' : moves X Y s s' -> has_res (X ++ F) s -> has_res (Y ++ F) s'.
Proof. intros H1 H2 r. specialize (H1 r). specialize (H2 r). rewrite cnt_app in *. lia. Qed.

Lemma has_res_app X Y s : has_res (X ++ Y) s -> has_res X s /\ has_res Y s.
Proof. intros H2; split; intros r; specialize (H2 r); rewrite cnt_app in H2; lia. Qed.

Lemma has_fd x s : has_res [Fd x] s -> is_Some (fd_buf (world s) !! x).
Proof.
  intros H0. specialize (H0 (Fd x)). rewrite cnt_cons, decide_True in H0 by done. cbn in H0.
  destruct (0 <=? x), (fd_buf (world s) !! x); eauto; lia.
Qed.

Lemma has_addr a s : has_res [Addr a] s -> is_Some (mapped (world s) !! a).
Proof.
  intros H0. specialize (H0 (Addr a)). rewrite cnt_cons, decide_True in H0 by done. cbn in H0.
  destruct (mapped (world s) !! a); [eauto|lia].
Qed.

(** The lookups of a changed map, resource by resource. *)
Ltac res_cases := intros r; rewrite ?cnt_app, ?cnt_cons, ?cnt_nil; destruct r as [x'|a'|h']; cbn;
  repeat case_decide; simplify_eq;
  repeat match goal with
  | |- context [<[?x := _]> _ !! ?x] => rewrite lookup_insert_eq
  | |- context [<[?x := _]> _ !! ?y] => rewrite (lookup_insert_ne _ x y) by congruence
  | |- context [delete ?x _ !! ?x] => rewrite lookup_delete_eq
  | |- context [delete ?x _ !! ?y] => rewrite (lookup_delete_ne _ x y) by congruence
  | E : ?m !! ?x = _ |- context [?m !! ?x] => rewrite E
  end; cbn; try lia.

Section Sys.
Context `{Kernel} `{!KernelLaws} `{!Mmap} `{!MmapFresh}.

Lemma ion_ref_moves h s s' u : ion_ref h s = Ret (u, s') -> moves [] [Ion h] s s' /\ world s' = world s.
Proof. intros [= <- <-]. split; [|done]. res_cases. Qed.

Lemma ion_free_moves h s : has_res [Ion h] s ->
  exists s', ion_free h s = Ret (tt, s') /\ moves [Ion h] [] s s' /\ world s' = world s.
Proof.
  intros Ha. eexists. split; [reflexivity|]. split; [|done].
  specialize (Ha (Ion h)). rewrite cnt_cons, decide_True in Ha by done. cbn in Ha.
  destruct (ion_refs s !! h) as [[|[|n]]|] eqn:E; cbn in Ha; try lia; res_cases.
Qed.

Lemma close_moves fd s : has_res (fd_res fd) s ->
  exists s', close fd s = Ret (tt, s') /\ moves (fd_res fd) [] s s' /\
    handles (world s') = handles (world s).
Proof.
  intros Ha. eexists. split; [reflexivity|]. split; [|done]. unfold fd_res in *.
  destruct (Z.leb_spec 0 fd) as [Hf|Hf].
  - destruct (has_fd _ _ Ha) as [b E]. res_cases. by rewrite (proj2 (Z.leb_le _ _) Hf).
  - res_cases. destruct (Z.leb_spec 0 x'); [|done]. by rewrite lookup_delete_ne by lia.
Qed.

Lemma UnmapBuffer_moves a s : a <> 0 -> has_res (addr_res a) s ->
  exists e s', UnmapBuffer a s = Ret (e, s') /\ moves (addr_res a) [] s s' /\
    handles (world s') = handles (world s) /\ (e = 0 <-> a <> MAP_FAILED).
Proof.
  intros Hn Ha. unfold addr_res in *. rewrite (proj2 (Z.eqb_neq _ _) Hn) in *. cbn [orb] in *.
  unfold UnmapBuffer. rewrite (st_bind_Ret _ _ _ _ _ eq_refl).
  destruct (Z.eqb_spec a MAP_FAILED) as [->|Hm].
  - destruct (k_munmap_failed s) as (e & -> & He). exists (- e), s.
    split; [done|]. split; [apply moves_refl|]. split; [done|]. split; [lia|done].
  - rewrite k_munmap_ok by (try apply has_addr; done). destruct (has_addr _ _ Ha) as [b E].
    do 2 eexists. split; [reflexivity|]. split; [res_cases|]. done.
Qed.

(** IonAlloc::FreeBuffer gives everything back, also when the unmapping fails. *)
Lemma IonAlloc_FreeBuffer_moves a fd ion s : has_res (addr_res a ++ ion_res ion ++ fd_res fd) s ->
  exists e s', IonAlloc_FreeBuffer a fd ion s = Ret (e, s') /\
    moves (addr_res a ++ ion_res ion ++ fd_res fd) [] s s' /\
    handles (world s') = handles (world s) /\ (e = 0 <-> a <> MAP_FAILED).
Proof.
  intros Ha. unfold IonAlloc_FreeBuffer.
  assert (S1 : exists e s1, (if negb (a =? 0) then UnmapBuffer a else mret 0) s = Ret (e, s1) /\
      moves (addr_res a) [] s s1 /\ handles (world s1) = handles (world s) /\ (e = 0 <-> a <> MAP_FAILED)).
  { destruct (Z.eqb_spec a 0) as [->|Hn]; cbn [negb].
    - exists 0, s. split; [done|]. split; [apply moves_refl|]. done.
    - apply UnmapBuffer_moves; [done|]. apply has_res_app in Ha. tauto. }
  destruct S1 as (e & s1 & E1 & M1 & W1 & He).
  pose proof (has_res_moves _ _ _ _ _ M1 Ha) as Ha1. cbn [app] in Ha1.
  assert (S2 : exists s2, (if 0 <? ion then ion_free ion else mret tt) s1 = Ret (tt, s2) /\
      moves (ion_res ion) [] s1 s2 /\ handles (world s2) = handles (world s1)).
  { unfold ion_res in *. destruct (0 <? ion).
    - destruct (ion_free_moves ion s1) as (s2 & E & M & W); [apply has_res_app in Ha1; tauto|].
      exists s2. by rewrite W.
    - exists s1. split; [done|]. split; [apply moves_refl|done]. }
  destruct S2 as (s2 & E2 & M2 & W2).
  pose proof (has_res_moves _ _ _ _ _ M2 Ha1) as Ha2. cbn [app] in Ha2.
  destruct (close_moves fd s2 Ha2) as (s3 & E3 & M3 & W3).
  exists e, s3. rewrite (st_bind_Ret _ _ _ _ _ E1), (st_bind_Ret _ _ _ _ _ E2), (st_bind_Ret _ _ _ _ _ E3).
  split; [done|]. split; [exact (moves_seq _ _ _ _ _ _ _ M1 (moves_seq _ _ _ _ _ _ _ M2 M3))|].
  split; [congruence|done].
Qed.

(** What an allocation leaves: nothing when it fails, and a descriptor of new
    memory with one reference on an ion handle when it succeeds. *)
Definition allocated (d : AllocData) (s s' : Sys) : Prop :=
  0 <= ad_fd d /\ 0 < ad_ion_handle d /\
  moves [] (ion_res (ad_ion_handle d) ++ fd_res (ad_fd d)) s s' /\
  fd_buf (world s) !! ad_fd d = None /\
  exists b, fd_buf (world s') = <[ad_fd d := b]> (fd_buf (world s)) /\
    contents (world s') !! b = Some (k_meta (set_ion_refs (ion_refs s') s)) .

Lemma IonAlloc_AllocBuffer_ok fl data s : exists e d s',
  IonAlloc_AllocBuffer fl data s = Ret ((e, d), s') /\
  handles (world s') = handles (world s) /\ mapped (world s') = mapped (world s) /\
  ((e < 0 /\ d = data /\ moves [] [] s s') \/
   (e = 0 /\ allocated d s s' /\ ad_size d = ad_size data /\ ad_alloc_type d = ad_alloc_type data)).
Proof.
  unfold IonAlloc_AllocBuffer. cbv zeta.
  rewrite (st_bind_Ret (st_gets _) _ _ _ _ eq_refl).
  match goal with |- context [k_alloc ?s ?a ?b ?c ?d] =>
    pose proof (k_alloc_ok s a b c d) as Ka; destruct (k_alloc s a b c d) as [e|h] end.
  { exists (- e), data, s. split; [done|]. do 2 (split; [done|]). left. repeat split; lia. }
  destruct Ka as [Hh Hr].
  rewrite (st_bind_Ret (ion_ref h) _ _ _ _ eq_refl). set (s1 := set_ion_refs _ s).
  destruct (ion_ref_moves h s s1 tt eq_refl) as [M1 W1].
  rewrite (st_bind_Ret (st_gets _) _ _ _ _ eq_refl).
  pose proof (k_share_ok s1 h) as Ks. destruct (k_share s1 h) as [e|[fd b]].
  - destruct (ion_free_moves h s1) as (s2 & E2 & M2 & W2).
    { intros r. pose proof (M1 r). rewrite cnt_nil in *. lia. }
    rewrite (st_bind_Ret _ _ _ _ _ E2). exists (- e), data, s2. rewrite W2, W1.
    do 3 (split; [done|]). left. split; [lia|]. split; [done|].
    exact (moves_trans _ _ _ _ _ _ M1 M2).
  - destruct Ks as (Hf & Ef & Hb & Hm). rewrite (st_bind_Ret _ _ _ _ _ eq_refl).
    do 3 eexists. split; [reflexivity|]. do 2 (split; [done|]). right. split; [done|].
    split; [|done]. rewrite W1 in Ef. repeat split; try done; cbn.
    + unfold ion_res, fd_res. rewrite (proj2 (Z.leb_le _ _) Hf), (proj2 (Z.ltb_lt _ _) Hh).
      intros r. specialize (M1 r). revert r M1. res_cases; rewrite ?(proj2 (Z.leb_le _ _) Hf); lia.
    + exists b. rewrite lookup_insert_eq. done.
Qed.

Lemma AllocateMem_ok `{!Platform} `{!AllocPlatform} fl data prod cons s : exists e d s',
  AllocateMem fl data prod cons s = Ret ((e, d), s') /\
  handles (world s') = handles (world s) /\ mapped (world s') = mapped (world s) /\
  ((e < 0 /\ moves [] [] s s') \/
   (e = 0 /\ allocated d s s' /\ ad_size d = ad_size data /\
    ad_alloc_type d = Z.lor (hi_alloc_type (GetIonHeapInfo prod cons)) PRIV_FLAGS_USES_ION)).
Proof.
  unfold AllocateMem. cbv zeta.
  edestruct (IonAlloc_AllocBuffer_ok fl) as (e & d & s' & E & Hh & Hm & C).
  rewrite (st_bind_Ret _ _ _ _ _ E). cbv beta iota. destruct (Z.leb_spec 0 e) as [He|He].
  - destruct C as [C|(-> & C & Hs & Ht)]; [lia|]. do 3 eexists. split; [reflexivity|].
    do 2 (split; [done|]). right. split; [done|]. split; [exact C|]. cbn [ad_size ad_alloc_type].
    by rewrite Hs, Ht.
  - exists e, d, s'. split; [done|]. do 2 (split; [done|]). left. destruct C as [(? & _ & C)|C]; [done|lia].
Qed.

Lemma AllocateMem_inv `{!Platform} `{!AllocPlatform} fl data prod cons s e d s' :
  AllocateMem fl data prod cons s = Ret ((e, d), s') ->
  handles (world s') = handles (world s) /\ mapped (world s') = mapped (world s) /\
  ((e < 0 /\ moves [] [] s s') \/
   (e = 0 /\ allocated d s s' /\ ad_size d = ad_size data /\
    ad_alloc_type d = Z.lor (hi_alloc_type (GetIonHeapInfo prod cons)) PRIV_FLAGS_USES_ION)).
Proof.
  intros E. destruct (AllocateMem_ok fl data prod cons s) as (e0 & d0 & s0 & E0 & C).
  rewrite E in E0. by injection E0 as <- <- <-.
Qed.

Lemma IonAlloc_ImportBuffer_ok fd s : exists h s', IonAlloc_ImportBuffer fd s = Ret (h, s') /\
  world s' = world s /\ h <> 0 /\ moves [] (ion_res h) s s'.
Proof.
  unfold IonAlloc_ImportBuffer. rewrite (st_bind_Ret _ _ _ _ _ eq_refl).
  pose proof (k_import_ok s fd) as K. destruct (k_import s fd) as [e|h].
  - exists (- e), s. split; [done|]. split; [done|]. split; [lia|]. unfold ion_res.
    destruct (Z.ltb_spec 0 (- e)); [lia|]. apply moves_refl.
  - rewrite (st_bind_Ret _ _ _ _ _ eq_refl). do 2 eexists. split; [reflexivity|]. split; [done|].
    split; [lia|]. unfold ion_res. rewrite (proj2 (Z.ltb_lt _ _) K).
    by apply (ion_ref_moves h s _ tt).
Qed.

Lemma dup_ok fd s : exists fd' s', dup fd s = Ret (fd', s') /\
  handles (world s') = handles (world s) /\ moves [] (fd_res fd') s s'.
Proof.
  unfold dup. rewrite (st_bind_Ret _ _ _ _ _ eq_refl).
  destruct (k_dup s fd) as [fd'|] eqn:E.
  - destruct (k_dup_ok s fd fd' E) as (Hf & Ef & [b Eb]).
    rewrite (st_bind_Ret _ _ _ _ _ eq_refl). do 2 eexists. split; [reflexivity|]. split; [done|].
    unfold fd_res. rewrite (proj2 (Z.leb_le _ _) Hf), Eb. res_cases.
    by rewrite (proj2 (Z.leb_le _ _) Hf).
  - exists (-1), s. split; [done|]. split; [done|]. apply moves_refl.
Qed.

Lemma IonAlloc_MapBuffer_ok fd s : exists e a s', IonAlloc_MapBuffer fd s = Ret ((e, a), s') /\
  handles (world s') = handles (world s) /\ a <> 0 /\ (e = 0 <-> a <> MAP_FAILED) /\
  moves [] (addr_res a) s s'.
Proof.
  unfold IonAlloc_MapBuffer, in_world, mmap, mbind, st_bind.
  destruct (fd_buf (world s) !! fd) as [b|]; [destruct (mmap_addr (world s) fd) as [a|] eqn:E|].
  1: { destruct (mmap_fresh _ _ _ E) as (Ha & Hf & Hm). do 3 eexists. split; [reflexivity|].
    split; [done|]. split; [done|]. split; [done|]. unfold addr_res.
    rewrite (proj2 (Z.eqb_neq _ _) Ha), (proj2 (Z.eqb_neq _ _) Hf). cbn [orb]. res_cases. }
  all: exists (- k_mmap_errno s), MAP_FAILED, s; pose proof (k_mmap_errno_ok s);
    (split; [by destruct s|]); split; [done|]; split; [done|]; split; [split; [lia|done]|apply moves_refl].
Qed.
End Sys.
End Resource.

(** * Handles and their metadata *)
Module MetaSteps.
Import MetaData GrUtils Alloc.

(** A call on the metadata of [p] changes the contents of memory and, when the
    metadata was not mapped, maps it at a new address and notes that in the
    handle. *)
Definition wstep (p : Z) (w w' : World) : Prop :=
  fd_buf w' = fd_buf w /\
  ((handles w' = handles w /\ mapped w' = mapped w) \/
   exists h a b, handles w !! p = Some h /\ base_metadata h = 0 /\ fd_metadata h <> -1 /\
     fd_buf w !! fd_metadata h = Some b /\ a <> 0 /\ a <> MAP_FAILED /\ mapped w !! a = None /\
     handles w' = <[p := set_base_metadata a h]> (handles w) /\ mapped w' = <[a := b]> (mapped w)).

#[global] Instance wstep_preorder p : PreOrder (wstep p).
Proof.
  split; [by intros w; split; [|left]|].
  intros w1 w2 w3 (F1 & C1) (F2 & C2). split; [congruence|].
  destruct C1 as [(H1 & M1)|(h & a & b & E & B & N & Eb & A0 & AF & Am & H1 & M1)].
  - rewrite H1, M1, F1 in C2. exact C2.
  - right. exists h, a, b. destruct C2 as [(H2 & M2)|(h' & a' & b' & E' & B' & _)].
    + rewrite H2, M2. done.
    + rewrite H1, lookup_insert_eq in E'. by injection E' as <-.
Qed.

Section Steps.
Context `{HandleAbi} `{!Mmap} `{!MmapFresh}.

Lemma get_handle_steps p q : keeps (wstep q) (get_handle p).
Proof. intros w h w'. unfold get_handle. destruct (_ !! p); intros [= <- <-]. reflexivity. Qed.

Lemma validate_steps p q : keeps (wstep q) (validate p).
Proof. pose proof get_handle_steps. unfold validate. keeps_tac. Qed.

Lemma load_steps a q : keeps (wstep q) (load a).
Proof. intros w h w'. unfold load. destruct (_ ≫= _); intros [= <- <-]. reflexivity. Qed.

Lemma store_steps a d q : keeps (wstep q) (store a d).
Proof.
  intros w h w'. unfold store. destruct (mapped w !! a); intros [= <- <-].
  split; [done|]. by left.
Qed.
#[local] Hint Resolve get_handle_steps validate_steps load_steps store_steps : keeps.

Lemma validateAndMap_steps p : keeps (wstep p) (validateAndMap p).
Proof.
  unfold validateAndMap. apply keeps_bind; [apply _|apply validate_steps|]. intros e.
  destruct (negb _); [keeps_tac|]. intros w r w' (h & w1 & E & Hk)%st_bind_Ret_inv.
  unfold get_handle in E. destruct (handles w !! p) as [h'|] eqn:Eh; [|done]. injection E as <- <-.
  destruct (Z.eqb_spec (fd_metadata h') (-1)) as [|Hm]; [by injection Hk as <- <-|].
  destruct (Z.eqb_spec (base_metadata h') 0) as [Hb|]; [|by injection Hk as <- <-].
  apply st_bind_Ret_inv in Hk as (o & w2 & E & Hk). unfold mmap in E.
  destruct (fd_buf w !! fd_metadata h') as [b|] eqn:Eb;
    [destruct (mmap_addr w (fd_metadata h')) as [a|] eqn:Ea|];
    injection E as <- <-; [|by injection Hk as <- <-..].
  injection Hk as <- <-. destruct (mmap_fresh _ _ _ Ea) as (Ha & Hf & Hn).
  split; [done|]. right. by exists h', a, b.
Qed.
#[local] Hint Resolve validateAndMap_steps : keeps.

Lemma setMetaData_steps p t v : keeps (wstep p) (setMetaData p t v).
Proof. unfold setMetaData, base_of, setMetaDataVa. keeps_tac. Qed.

Lemma getMetaData_steps p t : keeps (wstep p) (getMetaData p t).
Proof. unfold getMetaData, base_of, getMetaDataVa. keeps_tac. Qed.
#[local] Hint Resolve getMetaData_steps : keeps.

Lemma GetYUVPlaneInfo_steps `{!Platform} i p z : keeps (wstep p) (GetYUVPlaneInfo i p z).
Proof. unfold GetYUVPlaneInfo. keeps_tac. Qed.

Lemma GetRgbDataAddress_steps `{!Platform} p : keeps (wstep p) (GetRgbDataAddress p).
Proof. unfold GetRgbDataAddress. keeps_tac. Qed.
End Steps.
End MetaSteps.

(** * The accounts of the manager *)
Module Account.
Import MetaData GrUtils Alloc BufMgr Resource MetaSteps.

(** The handles that validate accepts. *)
Definition valid `{HandleAbi} (h : private_handle_t) : Prop :=
  version h = sizeof_native_handle /\ numInts h = NumInts /\ numFds h = kNumFds /\ magic h = kMagic.

(** How often the entries of the map name a resource. *)
Definition claim (hs : gmap Z private_handle_t) (r : res) (p : Z) (b : Buffer) : nat :=
  match hs !! p with Some h => cnt r (owns h b) | None => 0%nat end.
Definition claims (m : gmap Z Buffer) (hs : gmap Z private_handle_t) (r : res) : nat :=
  map_fold (fun p b n => claim hs r p b + n)%nat 0%nat m.

Lemma claims_insert m hs r p b : m !! p = None ->
  claims (<[p := b]> m) hs r = (claim hs r p b + claims m hs r)%nat.
Proof.
  intros E. unfold claims. apply (map_fold_insert_L (fun p b n => claim hs r p b + n)%nat 0%nat p b m); [|done].
  intros; lia.
Qed.

Lemma claims_delete m hs r p b : m !! p = Some b ->
  claims m hs r = (claim hs r p b + claims (delete p m) hs r)%nat.
Proof.
  intros E. rewrite <- (insert_delete_id m p b E) at 1. apply claims_insert, lookup_delete_eq.
Qed.

Lemma claims_ext m hs hs' r : (forall p, is_Some (m !! p) -> hs' !! p = hs !! p) ->
  claims m hs' r = claims m hs r.
Proof.
  induction m as [|p b m E IH] using map_ind; intros Hp; [done|].
  rewrite !claims_insert by done. f_equal.
  - unfold claim. rewrite Hp; [done|]. rewrite lookup_insert_eq. eauto.
  - apply IH. intros q Hq. apply Hp. rewrite lookup_insert_ne; [done|]. intros ->. by rewrite E in Hq; destruct Hq.
Qed.

(** The claims after the handle of a registered buffer is replaced. *)
Lemma claims_update m hs r p b h h' : m !! p = Some b -> hs !! p = Some h ->
  (claims m (<[p := h']> hs) r + cnt r (owns h b) = claims m hs r + cnt r (owns h' b))%nat.
Proof.
  intros E Eh. rewrite (claims_delete m (<[p := h']> hs) r p b E), (claims_delete m hs r p b E).
  rewrite (claims_ext _ hs (<[p := h']> hs)).
  - unfold claim. rewrite lookup_insert_eq, Eh. lia.
  - intros q [b' Hq]. rewrite lookup_insert_ne; [done|]. intros ->. by rewrite lookup_delete_eq in Hq.
Qed.

Section Acc.
Context `{HandleAbi}.

(** Every registered buffer has a positive count, and its handle is a live, valid
    object whose metadata is not mapped at MAP_FAILED. *)
Definition registered_ok (m : gmap Z Buffer) (hs : gmap Z private_handle_t) : Prop :=
  forall p b, m !! p = Some b -> p <> 0 /\ 0 < ref_count b <= INT_MAX /\
    exists h, hs !! p = Some h /\ valid h /\ base_metadata h <> MAP_FAILED.

(** The state holds, for each resource, one unit for every registered buffer that
    names it, and [X] besides.  So no two registered buffers name the same open
    descriptor or mapping, what they name is open and mapped, and each has its
    references on its ion handles. *)
Record acc (X : list res) (g : Mgr) : Prop := {
  acc_registered : registered_ok (handles_map_ g) (handles (world (sys g)));
  acc_covers r : (claims (handles_map_ g) (handles (world (sys g))) r + cnt r X <= avail (sys g) r)%nat
}.

(** Nothing registered changes, and the resources move. *)
Lemma acc_moves F X Y g g' : acc (F ++ X) g -> moves X Y (sys g) (sys g') ->
  handles_map_ g' = handles_map_ g ->
  (forall p, is_Some (handles_map_ g !! p) ->
     handles (world (sys g')) !! p = handles (world (sys g)) !! p) ->
  acc (F ++ Y) g'.
Proof.
  intros [Hr Hc] Hm E Hp. split; rewrite E.
  - intros p b Eb. rewrite Hp by eauto. by apply Hr.
  - intros r. rewrite (claims_ext _ _ _ _ Hp), cnt_app. specialize (Hc r). specialize (Hm r).
    rewrite cnt_app in Hc. lia.
Qed.

Lemma acc_weaken X X' g : acc X g -> (forall r, cnt r X' <= cnt r X)%nat -> acc X' g.
Proof. intros [Hr Hc] Hx. split; [done|]. intros r. specialize (Hc r). specialize (Hx r). lia. Qed.

Lemma acc_drop F X g : acc (F ++ X) g -> acc F g.
Proof. intros Ha. apply (acc_weaken _ _ _ Ha). intros r. rewrite cnt_app. lia. Qed.

Lemma acc_has F X g : acc (F ++ X) g -> has_res X (sys g).
Proof. intros [_ Hc] r. specialize (Hc r). rewrite cnt_app in Hc. lia. Qed.

(** The handle of a registered buffer is replaced, with what it owns. *)
Lemma acc_update F p b h h' X Y g g' : acc F g -> handles_map_ g !! p = Some b ->
  handles (world (sys g)) !! p = Some h -> valid h' -> base_metadata h' <> MAP_FAILED ->
  (forall r, (cnt r (owns h' b) + cnt r X <= cnt r (owns h b) + cnt r Y)%nat) ->
  moves X Y (sys g) (sys g') -> handles_map_ g' = handles_map_ g ->
  handles (world (sys g')) = <[p := h']> (handles (world (sys g))) -> acc F g'.
Proof.
  intros [Hr Hc] Eb Eh Hv Hn Ho Hm E1 E2. split; rewrite E1, E2.
  - intros q b' Eq. destruct (Hr q b' Eq) as (? & ? & h0 & ? & ? & ?). split; [done|]. split; [done|].
    destruct (decide (p = q)) as [->|Hne]; [exists h'|exists h0].
    + by rewrite lookup_insert_eq.
    + by rewrite lookup_insert_ne.
  - intros r. pose proof (claims_update _ _ r p b h h' Eb Eh). specialize (Hc r). specialize (Ho r).
    specialize (Hm r). lia.
Qed.

Lemma acc_register F p b h g : acc (F ++ owns h b) g -> p <> 0 -> 0 < ref_count b <= INT_MAX ->
  valid h -> base_metadata h <> MAP_FAILED ->
  handles_map_ g !! p = None -> handles (world (sys g)) !! p = Some h ->
  acc F (set_handles_map (<[p := b]> (handles_map_ g)) g).
Proof.
  intros [Hr Hc] Hp Hn Hv Hm E Eh. split; cbn.
  - intros q b' [[<- <-]|[Hne Eq]]%lookup_insert_Some; [|by apply Hr].
    split; [done|]. split; [done|]. by exists h.
  - intros r. rewrite claims_insert by done. unfold claim. rewrite Eh.
    specialize (Hc r). rewrite cnt_app in Hc. lia.
Qed.

Lemma acc_unregister F p b h g : acc F g -> handles_map_ g !! p = Some b ->
  handles (world (sys g)) !! p = Some h ->
  acc (F ++ owns h b) (set_handles_map (delete p (handles_map_ g)) g).
Proof.
  intros [Hr Hc] E Eh. split; cbn.
  - intros q b' Eq. apply lookup_delete_Some in Eq as [_ Eq]. by apply Hr.
  - intros r. specialize (Hc r). rewrite (claims_delete _ _ r p b E) in Hc. unfold claim in Hc.
    rewrite Eh in Hc. rewrite cnt_app. lia.
Qed.

(** The count of an entry is not a resource. *)
Lemma acc_count F p b n g : acc F g -> handles_map_ g !! p = Some b -> 0 < n <= INT_MAX ->
  acc F (set_handles_map (<[p := mkBuffer n (ion_handle_main b) (ion_handle_meta b)]> (handles_map_ g)) g).
Proof.
  intros [Hr Hc] E Hn. destruct (Hr p b E) as (Hp & _ & h & Eh & Hv).
  split; cbn.
  - intros q b' [[<- <-]|[Hne Eq]]%lookup_insert_Some; [|by apply Hr].
    split; [done|]. split; [done|]. by exists h.
  - intros r. specialize (Hc r). rewrite (claims_delete _ _ r p b E) in Hc.
    rewrite <- insert_delete_eq, claims_insert by apply lookup_delete_eq.
    unfold claim in *. rewrite Eh in *. by unfold owns, main_res, meta_res in *.
Qed.

(** ** Calls on the metadata *)
Lemma wstep_moves p s w' h : wstep p (world s) w' -> handles (world s) !! p = Some h ->
  exists a, handles w' = <[p := set_base_metadata a h]> (handles (world s)) /\
    ((a = base_metadata h /\ moves [] [] s (set_world w' s)) \/
     (base_metadata h = 0 /\ a <> 0 /\ a <> MAP_FAILED /\ moves [] [Addr a] s (set_world w' s))).
Proof.
  intros (Hf & [(Eh & Em)|(h0 & a & b & E & B & _ & _ & Ha & Hn & Hm & Eh & Em)]) E'.
  - exists (base_metadata h). split.
    + rewrite Eh, insert_id; [done|]. rewrite E'. by destruct h.
    + left. split; [done|]. intros r. cbn. unfold avail; cbn. by rewrite Hf, Em.
  - assert (h0 = h) as -> by congruence. exists a. split; [done|]. right. do 3 (split; [done|]).
    intros r. rewrite !cnt_cons. unfold avail; cbn. rewrite Hf, Em.
    destruct r as [x|a'|i]; repeat case_decide; simplify_eq; rewrite ?cnt_nil; try lia.
    + rewrite lookup_insert_eq, Hm. lia.
    + rewrite lookup_insert_ne by congruence. lia.
Qed.

Lemma owns_set_base_metadata h b a : base_metadata h = 0 -> forall r,
  (cnt r (owns (set_base_metadata a h) b) <= cnt r (owns h b) + cnt r (addr_res a))%nat.
Proof.
  intros B r. unfold owns, main_res, meta_res. cbn. rewrite B, !cnt_app. destruct (0 <=? _); [|lia].
  rewrite !cnt_app. cbn. lia.
Qed.

Definition with_sys (s : Sys) (g : Mgr) : Mgr :=
  mkMgr s (handles_map_ g) (descriptors_map_ g) (next_id_ g) (descriptor_next_id_ g) (map_fb_mem_ g).

Lemma in_sys_Ret {A} (m : P A) g a s : m (sys g) = Ret (a, s) -> in_sys m g = Ret (a, with_sys s g).
Proof. intros E. unfold in_sys. by rewrite E. Qed.

Lemma in_sys_inv {A} (m : P A) g a g' : in_sys m g = Ret (a, g') ->
  exists s, m (sys g) = Ret (a, s) /\ g' = with_sys s g.
Proof. unfold in_sys. destruct (m (sys g)) as [[a' s]| |]; intros [= <- <-]. by exists s. Qed.

Lemma in_world_Ret {A} (m : M A) s a w : m (world s) = Ret (a, w) -> in_world m s = Ret (a, set_world w s).
Proof. intros E. unfold in_world. by rewrite E. Qed.

Lemma in_world_inv {A} (m : M A) s a s' : in_world m s = Ret (a, s') ->
  exists w, m (world s) = Ret (a, w) /\ s' = set_world w s.
Proof. unfold in_world. destruct (m (world s)) as [[a' w]| |]; intros [= <- <-]. by exists w. Qed.

Definition safe (F : list res) (g g' : Mgr) : Prop := acc F g -> acc F g'.
#[global] Instance safe_preorder F : PreOrder (safe F).
Proof. split; [by intros g Hg|]. intros g1 g2 g3 H1 H2 H3. apply H2, H1, H3. Qed.

Lemma meta_safe {A} F p (m : M A) : keeps (wstep p) m -> keeps (safe F) (in_sys (in_world m)).
Proof.
  intros Hm g a g' (s & (w & E & ->)%in_world_inv & ->)%in_sys_inv Ha.
  specialize (Hm _ _ _ E).
  destruct (handles (world (sys g)) !! p) as [h|] eqn:Eh.
  2:{ destruct Hm as (Hf & [(E1 & E2)|(h & x & ? & ? & ?)]); [|congruence].
      destruct Ha as [Hr Hc]. split; cbn; [by rewrite E1|]. intros r. rewrite E1.
      specialize (Hc r). unfold avail in *; cbn. by rewrite Hf, E2. }
  destruct (wstep_moves p (sys g) w h Hm Eh) as (x & Ew & Cx).
  destruct (handles_map_ g !! p) as [b|] eqn:Eb.
  - destruct (acc_registered _ _ Ha p b Eb) as (_ & _ & h0 & E0 & Hv & Hb).
    assert (h0 = h) as -> by congruence.
    destruct Cx as [(-> & Mx)|(B & X0 & XF & Mx)].
    + eapply (acc_update F p b h (set_base_metadata (base_metadata h) h) [] []); try done.
    + eapply (acc_update F p b h (set_base_metadata x h) [] [Addr x]); try done.
      intros r. pose proof (owns_set_base_metadata h b x B r) as Q. unfold addr_res in Q.
      rewrite (proj2 (Z.eqb_neq _ _) X0), (proj2 (Z.eqb_neq _ _) XF) in Q. cbn [orb] in Q.
      rewrite cnt_nil. lia.
  - assert (Ho : forall q, is_Some (handles_map_ g !! q) -> handles w !! q = handles (world (sys g)) !! q).
    { intros q Hq. rewrite Ew, lookup_insert_ne; [done|]. intros ->. by rewrite Eb in Hq; destruct Hq. }
    assert (exists Y, moves [] Y (sys g) (set_world w (sys g))) as [Y Mx]
      by (destruct Cx as [(_ & ?)|(_ & _ & _ & ?)]; eauto).
    apply (acc_drop F Y). eapply (acc_moves F [] Y); [by rewrite app_nil_r|done..].
Qed.
End Acc.
End Account.
