(* ===== verification/BufCalls.v ===== *)
(** The calls of the buffer manager (gr_buf_mgr.cpp) seen as movements of the
    resources of [BufFacts]: what an allocation leaves, what an import takes over,
    what freeing gives back, and that every call keeps the accounts. *)
From S2P Require Import Prelude MetaData GrUtils Alloc BufMgr BufFacts.
#[local] Open Scope Z_scope.

Module BufCalls.
Import MetaData MetaSpec MetaFacts GrUtils Alloc BufMgr Resource MetaSteps Account.

Section Calls.
Context `{HandleAbi} `{!Mmap} `{!Kernel} `{!Platform} `{!AllocPlatform} `{!KernelLaws} `{!MmapFresh}
  (fl : Z) (adreno : AdrenoMemInfo).

(** ** Allocation *)

(** The end of AllocateBuffer, once the handle is there. *)
Definition finish_alloc (p ion1 ion2 : Z) : B alloc_result :=
  _ ← in_sys (in_world (setMetaData p UPDATE_COLOR_SPACE (Some (VColorSpace ITU_R_601))));
  _ ← RegisterHandleLocked p ion1 ion2;
  mret (Allocated p).

(** What the handle of a new buffer says of its descriptor. *)
Record describes (d : BufferDescriptor) (bufferSize : Z) (h : private_handle_t) : Prop := {
  ds_valid : valid h;
  ds_bases : base h = 0 /\ base_metadata h = 0;
  ds_fds : 0 <= fd h /\ 0 <= fd_metadata h;
  ds_size : exists sz aw ah, GetBufferSizeAndDimensions (Some adreno)
      (mkBufferInfo (d_width d) (d_height d) (d_format d) (s32 (d_layer_count d))
         (d_producer_usage d) (d_consumer_usage d)) (0, 0) = Ret (sz, aw, ah) /\
    size h = Z.max bufferSize sz /\ width h = s32 aw /\ height h = s32 ah;
  ds_unaligned : unaligned_width h = d_width d /\ unaligned_height h = d_height d;
  ds_format : format h = d_format d;
  ds_usage : producer_usage h = d_producer_usage d /\ consumer_usage h = d_consumer_usage d
}.

Lemma AllocateBuffer_cases d sz g r g' : AllocateBuffer fl adreno d sz g = Ret (r, g') ->
  match r with
  | AllocUnsupported => g' = g
  | AllocFailed e => e < 0 /\ handles_map_ g' = handles_map_ g /\
      handles (world (sys g')) = handles (world (sys g)) /\
      exists L, moves [] L (sys g) (sys g') /\
        (L = [] \/ exists i x, 0 < i /\ 0 <= x /\ L = [Ion i; Fd x])
  | Allocated p => exists g1 h i1 i2 b, finish_alloc p i1 i2 g1 = Ret (Allocated p, g') /\
      handles_map_ g1 = handles_map_ g /\ p <> 0 /\ handles (world (sys g)) !! p = None /\
      handles (world (sys g1)) = <[p := h]> (handles (world (sys g))) /\
      describes d sz h /\ 0 < i1 /\ 0 < i2 /\
      fd_buf (world (sys g1)) !! fd_metadata h = Some b /\
      (exists m, contents (world (sys g1)) !! b = Some m /\ operation m = 0) /\
      moves [] (owns h (mkBuffer 1 i1 i2)) (sys g) (sys g1)
  end.
Proof.
  intros E. unfold AllocateBuffer in E. cbv zeta in E.
  apply st_bind_Ret_inv in E as (ok & g0 & E0 & E).
  assert (g0 = g) as ->.
  { destruct (negb _); [|by inversion E0]. unfold st_lift in E0.
    destruct (IsGPUSupportedHwBuffer _ _); by inversion E0. }
  destruct (negb ok); [by injection E as <- <-|].
  apply st_bind_Ret_inv in E as ([[sz0 aw] ah] & g0 & Es & E).
  unfold st_lift in Es. destruct (GetBufferSizeAndDimensions _ _ _) as [q| |] eqn:Eg; try done.
  injection Es as -> <-.
  apply st_bind_Ret_inv in E as ([e1 d1] & g1 & (s1 & E1 & ->)%in_sys_inv & E).
  apply AllocateMem_inv in E1 as (Hh1 & Hm1 & C1).
  destruct C1 as [(He & M1)|(-> & A1 & S1 & T1)].
  { rewrite (proj2 (Z.eqb_neq _ _)) in E by lia. injection E as <- <-. do 3 (split; [done|]). by exists []; split; [|left]. }
  cbn [negb Z.eqb] in E.
  apply st_bind_Ret_inv in E as ([e2 d2] & g2 & (s2 & E2 & ->)%in_sys_inv & E).
  apply AllocateMem_inv in E2 as (Hh2 & Hm2 & C2). cbn [sys with_sys] in Hh2, Hm2, C2.
  destruct A1 as (F1 & I1 & M1 & N1 & b1 & B1 & K1).
  destruct C2 as [(He & M2)|(-> & A2 & S2 & T2)].
  { rewrite (proj2 (Z.eqb_neq _ _)) in E by lia. injection E as <- <-.
    split; [done|]. split; [done|]. split; [cbn; congruence|].
    exists [Ion (ad_ion_handle d1); Fd (ad_fd d1)]. split; [|right; by do 2 eexists].
    unfold ion_res, fd_res in M1.
    rewrite (proj2 (Z.leb_le _ _) F1), (proj2 (Z.ltb_lt _ _) I1) in M1.
    intros r0. specialize (M1 r0). specialize (M2 r0). cbn [sys with_sys]. cbn [app] in M1. rewrite cnt_nil in *. lia. }
  cbn [negb Z.eqb] in E.
  destruct A2 as (F2 & I2 & M2 & N2 & b2 & B2 & K2).
  apply st_bind_Ret_inv in E as (i & g3 & E3 & E). injection E3 as <- <-.
  apply st_bind_Ret_inv in E as (p & g4 & (s4 & E4 & ->)%in_sys_inv & E).
  injection E4 as <- <-.
  assert (r = Allocated (k_new s2)) as ->.
  { apply st_bind_Ret_inv in E as (? & ? & _ & E). apply st_bind_Ret_inv in E as (? & ? & _ & E).
    by injection E as <- _. }
  destruct (k_new_ok s2) as [Hp Hn]. rewrite Hh2, Hh1 in Hn.
  do 5 eexists. split; [exact E|]. split; [done|]. split; [done|]. split; [done|].
  split; [cbn; by rewrite Hh2, Hh1|]. split.
  { split; cbn; try done. exists sz0, aw, ah. split; [done|]. split; [|done]. rewrite S1. cbn.
    destruct (Z.leb_spec sz0 sz); lia. }
  split; [exact I1|]. split; [exact I2|]. cbn. split; [rewrite B2; apply lookup_insert_eq|].
  split; [eexists; split; [exact K2|apply k_meta_ok]|].
  intros r0. specialize (M1 r0). specialize (M2 r0). cbn [sys with_sys] in M2.
  unfold owns, main_res, meta_res. cbn [fd fd_metadata base base_metadata ion_handle_main ion_handle_meta].
  cbn. rewrite (proj2 (Z.leb_le _ _) F2). rewrite !cnt_app in *. rewrite cnt_nil in *.
  unfold avail in *. cbn in *. destruct r0; cbn; lia.
Qed.

(** An object that is not registered may change. *)
Lemma unregistered_other g p h : registered_ok (handles_map_ g) (handles (world (sys g))) ->
  handles_map_ g !! p = None -> forall q, is_Some (handles_map_ g !! q) ->
  <[p := h]> (handles (world (sys g))) !! q = handles (world (sys g)) !! q.
Proof. intros Hr E q Hq. rewrite lookup_insert_ne; [done|]. intros ->. by rewrite E in Hq; destruct Hq. Qed.

Lemma new_unregistered g p : registered_ok (handles_map_ g) (handles (world (sys g))) ->
  handles (world (sys g)) !! p = None -> handles_map_ g !! p = None.
Proof.
  intros Hr E. destruct (handles_map_ g !! p) as [b|] eqn:Eb; [|done].
  destruct (Hr p b Eb) as (_ & _ & h & ? & _). congruence.
Qed.

Lemma finish_alloc_acc F p h i1 i2 g r g' : acc (F ++ owns h (mkBuffer 1 i1 i2)) g ->
  handles_map_ g !! p = None -> handles (world (sys g)) !! p = Some h -> p <> 0 ->
  valid h -> base_metadata h = 0 -> finish_alloc p i1 i2 g = Ret (r, g') ->
  r = Allocated p /\ acc F g' /\ exists a, handles_map_ g' = <[p := mkBuffer 1 i1 i2]> (handles_map_ g) /\
    handles (world (sys g')) = <[p := set_base_metadata a h]> (handles (world (sys g))).
Proof.
  intros Ha Em Eh Hp Hv Hb E. unfold finish_alloc in E.
  apply st_bind_Ret_inv in E as (e & g1 & (s & (w & Ew & ->)%in_world_inv & ->)%in_sys_inv & E).
  apply setMetaData_steps in Ew. destruct (wstep_moves p (sys g) w h Ew Eh) as (a & Hh & C).
  apply st_bind_Ret_inv in E as ([] & g2 & E2 & E). injection E as <- <-.
  unfold RegisterHandleLocked, st_modify in E2. cbn [with_sys handles_map_] in E2. rewrite Em in E2.
  injection E2 as <-. split; [done|]. cbn. split; [|by exists a].
  assert (exists Y, moves [] Y (sys g) (set_world w (sys g)) /\ a <> MAP_FAILED /\
    forall r, (cnt r (owns (set_base_metadata a h) (mkBuffer 1 i1 i2)) <=
               cnt r (owns h (mkBuffer 1 i1 i2)) + cnt r Y)%nat) as (Y & My & HF & Ho).
  { destruct C as [(-> & Mx)|(_ & X0 & XF & Mx)]; (eexists; split; [exact Mx|]).
    - rewrite Hb. split; [done|]. intros r. exact (owns_set_base_metadata h (mkBuffer 1 i1 i2) 0 Hb r).
    - split; [done|]. intros r. pose proof (owns_set_base_metadata h (mkBuffer 1 i1 i2) a Hb r) as Q.
      unfold addr_res in Q. by rewrite (proj2 (Z.eqb_neq _ _) X0), (proj2 (Z.eqb_neq _ _) XF) in Q. }
  apply (acc_register F p (mkBuffer 1 i1 i2) (set_base_metadata a h) (with_sys (set_world w (sys g)) g));
    try done; [|cbn; by rewrite Hh, lookup_insert_eq].
  apply (acc_weaken ((F ++ owns h (mkBuffer 1 i1 i2)) ++ Y)).
  - apply (acc_moves (F ++ owns h (mkBuffer 1 i1 i2)) [] Y g); try done; [by rewrite app_nil_r|].
    cbn. rewrite Hh. apply unregistered_other; [apply Ha|done].
  - intros r. specialize (Ho r). rewrite !cnt_app. lia.
Qed.

Lemma AllocateBuffer_safe F d sz : keeps (safe F) (AllocateBuffer fl adreno d sz).
Proof.
  intros g r g' E Ha. apply AllocateBuffer_cases in E. destruct r as [p|e|].
  - destruct E as (g1 & h & i1 & i2 & b & Ef & Em & Hp & Hn & Hh & Hd & Hi1 & Hi2 & _ & _ & Mv).
    pose proof (new_unregistered g p (acc_registered _ _ Ha) Hn) as Hu.
    eapply finish_alloc_acc in Ef as (_ & ? & _); [done|..|by apply Hd].
    + apply (acc_moves F [] _ g); try done; [by rewrite app_nil_r|].
      rewrite Hh. apply unregistered_other; [apply Ha|done].
    + by rewrite Em.
    + by rewrite Hh, lookup_insert_eq.
    + done.
    + apply Hd.
  - destruct E as (_ & Em & Hh & L & Mv & _). apply (acc_drop F L).
    apply (acc_moves F [] L g); try done; [by rewrite app_nil_r|]. intros. by rewrite Hh.
  - by subst.
Qed.

(** ** Freeing *)
Lemma validate_valid p h w : p <> 0 -> handles w !! p = Some h -> valid h -> validate p w = Ret (0, w).
Proof.
  intros Hp E (E1 & E2 & E3 & E4). unfold validate. rewrite (proj2 (Z.eqb_neq _ _) Hp).
  unfold mbind, st_bind, get_handle. by rewrite E, E1, E2, E3, E4, !Z.eqb_refl.
Qed.

Lemma validate_Ret p h g : p <> 0 -> handles (world (sys g)) !! p = Some h -> valid h ->
  in_sys (in_world (validate p)) g = Ret (0, g).
Proof.
  intros Hp E Hv. unfold in_sys, in_world. rewrite (validate_valid p h) by done.
  by destruct g as [[[]]].
Qed.

Lemma handle_Ret p h g : handles (world (sys g)) !! p = Some h -> handle p g = Ret (h, g).
Proof.
  intros E. unfold handle, in_sys, in_world, get_handle. rewrite E. by destruct g as [[[]]].
Qed.

Definition put (p : Z) (h : private_handle_t) (g : Mgr) : Mgr :=
  with_sys (set_world (mkWorld (<[p := h]> (handles (world (sys g)))) (fd_buf (world (sys g)))
    (contents (world (sys g))) (mapped (world (sys g)))) (sys g)) g.

Lemma upd_handle_Ret p h f g : handles (world (sys g)) !! p = Some h ->
  upd_handle p f g = Ret (tt, put p (f h) g).
Proof. intros E. unfold upd_handle. by rewrite (st_bind_Ret _ _ _ _ _ (handle_Ret p h g E)). Qed.

Lemma put_moves p h g : moves [] [] (sys g) (sys (put p h g)).
Proof. done. Qed.

(** FreeBuffer gives everything back unless the buffer was mapped at MAP_FAILED:
    then it stops after the main part. *)
Lemma FreeBuffer_exact F p h b g : has_res (owns h b ++ F) (sys g) ->
  handles (world (sys g)) !! p = Some h -> p <> 0 -> valid h -> base_metadata h <> MAP_FAILED ->
  exists s, FreeBuffer p b g = Ret (if base h =? MAP_FAILED then GRALLOC1_ERROR_BAD_HANDLE
                                    else GRALLOC1_ERROR_NONE, with_sys s g) /\
    moves (if base h =? MAP_FAILED then main_res h b else owns h b) [] (sys g) s /\
    handles (world s) =
      if base h =? MAP_FAILED then handles (world (sys g))
      else if has (flags h) PRIV_FLAGS_CLIENT_ALLOCATED
           then <[p := clear_fds h]> (handles (world (sys g)))
           else delete p (handles (world (sys g))).
Proof.
  intros Ha Eh Hp Hv Hm. unfold FreeBuffer.
  rewrite (st_bind_Ret _ _ _ _ _ (validate_Ret p h g Hp Eh Hv)). cbn [negb Z.eqb].
  rewrite (st_bind_Ret _ _ _ _ _ (handle_Ret p h g Eh)).
  unfold owns in Ha. rewrite <- app_assoc in Ha. pose proof (has_res_app _ _ _ Ha) as [Ha1 _].
  destruct (IonAlloc_FreeBuffer_moves (base h) (fd h) (ion_handle_main b) (sys g) Ha1)
    as (e1 & s1 & E1 & M1 & H1' & He1).
  rewrite (st_bind_Ret _ _ _ _ _ (in_sys_Ret _ _ _ _ E1)).
  pose proof (has_res_moves _ _ _ _ _ M1 Ha) as Ha2. cbn [app] in Ha2. apply has_res_app in Ha2 as [Ha2 _].
  destruct (Z.eqb_spec (base h) MAP_FAILED) as [Hb|Hb].
  { rewrite (proj2 (Z.eqb_neq e1 0)) by (intros ->; tauto). cbn [negb]. by exists s1. }
  rewrite (proj2 He1 Hb) in *. cbn [negb Z.eqb].
  assert (S2 : exists s2, (if 0 <=? fd_metadata h
      then in_sys (IonAlloc_FreeBuffer (base_metadata h) (fd_metadata h) (ion_handle_meta b))
      else mret 0) (with_sys s1 g) = Ret (0, with_sys s2 g) /\
      moves (meta_res h b) [] s1 s2 /\ handles (world s2) = handles (world s1)).
  { unfold meta_res in *. destruct (0 <=? fd_metadata h).
    - destruct (IonAlloc_FreeBuffer_moves _ _ _ _ Ha2) as (e2 & s2 & E2 & M2 & H2' & He2).
      rewrite (proj2 He2 Hm) in *. exists s2. by rewrite (in_sys_Ret _ (with_sys s1 g) _ _ E2).
    - exists s1. split; [done|]. split; [apply moves_refl|done]. }
  destruct S2 as (s2 & E2 & M2 & H2'). rewrite (st_bind_Ret _ _ _ _ _ E2). cbn [negb Z.eqb].
  assert (Eh2 : handles (world (sys (with_sys s2 g))) !! p = Some h) by (cbn; congruence).
  rewrite (st_bind_Ret _ _ _ _ _ (upd_handle_Ret p h clear_fds _ Eh2)).
  assert (moves (owns h b) [] (sys g) s2) as M by exact (moves_seq _ _ _ _ _ _ _ M1 M2).
  destruct (has (flags h) PRIV_FLAGS_CLIENT_ALLOCATED); cbn [negb];
    rewrite (st_bind_Ret _ _ _ _ _ eq_refl); (eexists; split; [reflexivity|]); cbn; split; try exact M.
  - congruence.
  - by rewrite delete_insert_eq, H2', H1'.
Qed.

(** The new state differs at the object [p] only, which is not registered. *)
Lemma acc_unregistered F X Y p g s : acc (F ++ X) g -> handles_map_ g !! p = None ->
  moves X Y (sys g) s ->
  (forall q, q <> p -> handles (world s) !! q = handles (world (sys g)) !! q) ->
  acc (F ++ Y) (with_sys s g).
Proof.
  intros Ha Em M Ho. apply (acc_moves F X Y g); try done. intros q Hq. apply Ho.
  intros ->. by rewrite Em in Hq; destruct Hq.
Qed.

Lemma ReleaseBuffer_safe F p : keeps (safe F) (ReleaseBuffer p).
Proof.
  intros g r g' E Ha. unfold ReleaseBuffer in E. apply st_bind_Ret_inv in E as (m & g0 & [= <- <-] & E).
  destruct (handles_map_ g !! p) as [b|] eqn:Eb; [|by injection E as <- <-].
  destruct (acc_registered _ _ Ha p b Eb) as (Hp & Hn & h & Eh & Hv & Hm).
  rewrite int_expr_ok in E by (unfold INT_MIN, INT_MAX in *; lia).
  apply st_bind_Ret_inv in E as (n & g0 & [= <- <-] & E). cbv zeta in E.
  destruct (Z.eqb_spec (ref_count b - 1) 0) as [Hz|Hz].
  - apply st_bind_Ret_inv in E as ([] & g1 & [= <-] & E).
    apply st_bind_Ret_inv in E as (e & g2 & E & [= <- <-]).
    pose proof (acc_unregister F p b h g Ha Eb Eh) as Ha1.
    set (g1 := set_handles_map (delete p (handles_map_ g)) g) in *.
    set (b' := mkBuffer _ _ _) in E.
    destruct (FreeBuffer_exact [] p h b' g1) as (s & E' & Ms & Hh); [..|rewrite E in E'].
    + rewrite app_nil_r. exact (acc_has F (owns h b) g1 Ha1).
    + done.
    + done.
    + done.
    + done.
    + injection E' as -> ->. match type of Ms with moves ?Y _ _ _ => set (X := Y) in Ms end.
      assert (acc (F ++ X) g1) as Ha2.
      { apply (acc_weaken _ _ _ Ha1). intros r. subst X. unfold owns. rewrite !cnt_app.
        destruct (_ =? _); rewrite ?cnt_app; cbn [b' main_res meta_res]; unfold main_res, meta_res; cbn; lia. }
      pose proof (acc_unregistered F X [] p g1 s Ha2) as Ha3. rewrite app_nil_r in Ha3. apply Ha3.
      * apply lookup_delete_eq.
      * done.
      * intros q Hq. rewrite Hh. destruct (_ =? _); [done|].
        destruct (has _ _); [by rewrite lookup_insert_ne|by rewrite lookup_delete_ne].
  - apply st_bind_Ret_inv in E as ([] & g1 & [= <-] & E). injection E as <- <-.
    apply acc_count; [done..|]. lia.
Qed.

(** ** Importing *)
Definition handle_fds (h : private_handle_t) : list res := fd_res (fd h) ++ fd_res (fd_metadata h).

Lemma owns_imported sz h b : forall r,
  (cnt r (owns (init_imported sz h) b) <=
   cnt r (ion_res (ion_handle_main b)) + cnt r (ion_res (ion_handle_meta b)) + cnt r (handle_fds h))%nat.
Proof.
  intros r. destruct h as [v nf ni fd fm]. unfold owns, main_res, meta_res, handle_fds. cbn.
  rewrite !cnt_app. destruct (0 <=? fm); rewrite ?cnt_app, ?cnt_nil; lia.
Qed.

Lemma validate_fails p h g : handles (world (sys g)) !! p = Some h -> ~ (p <> 0 /\ valid h) ->
  exists e, in_sys (in_world (validate p)) g = Ret (e, g) /\ e <> 0.
Proof.
  intros Eh Hn. exists (- EINVAL). split; [|done]. unfold in_sys, in_world, validate.
  destruct (Z.eqb_spec p 0) as [->|Hp]; [by destruct g as [[[]]]|].
  unfold mbind, st_bind, get_handle. rewrite Eh.
  destruct (version h =? _) eqn:E1, (numInts h =? _) eqn:E2, (numFds h =? _) eqn:E3, (magic h =? _) eqn:E4;
    cbn; try (by destruct g as [[[]]]).
  exfalso. apply Hn. split; [done|]. by rewrite !Z.eqb_eq in *.
Qed.

(** The metadata cannot be imported: everything is given back. *)
Lemma import_cleanup F p h i g r g' : acc (F ++ handle_fds h ++ ion_res i) g ->
  handles_map_ g !! p = None -> handles (world (sys g)) !! p = Some h ->
  (_ ← in_sys (IonAlloc_FreeBuffer 0 (fd h) i); _ ← in_sys (close (fd_metadata h));
   _ ← upd_handle p clear_fds; mret GRALLOC1_ERROR_BAD_HANDLE) g = Ret (r, g') -> acc F g'.
Proof.
  intros Ha Em Eh E.
  destruct (IonAlloc_FreeBuffer_moves 0 (fd h) i (sys g)) as (e3 & s3 & E3 & M3 & H3' & _).
  { intros r0. destruct Ha as [_ Hc]. specialize (Hc r0). unfold handle_fds in Hc.
    change (addr_res 0) with (@nil res). rewrite !cnt_app in *. rewrite cnt_nil. lia. }
  rewrite (st_bind_Ret _ _ _ _ _ (in_sys_Ret _ _ _ _ E3)) in E. change (addr_res 0) with (@nil res) in M3.
  destruct (close_moves (fd_metadata h) s3) as (s4 & E4 & M4 & H4').
  { intros r0. destruct Ha as [_ Hc]. specialize (Hc r0). specialize (M3 r0). unfold handle_fds in Hc.
    rewrite !cnt_app in *. rewrite cnt_nil in *. lia. }
  rewrite (st_bind_Ret _ _ _ _ _ (in_sys_Ret _ (with_sys s3 g) _ _ E4)) in E.
  rewrite (st_bind_Ret _ _ _ _ _ (upd_handle_Ret p h clear_fds (with_sys s4 g) ltac:(cbn; congruence))) in E.
  injection E as <- <-. unfold put. cbn [sys with_sys].
  rewrite <- (app_nil_r F). apply (acc_unregistered F (handle_fds h ++ ion_res i) [] p g); [done|done|..].
  - intros r0. specialize (M3 r0). specialize (M4 r0). unfold handle_fds.
    change (avail s4 r0 + cnt r0 ((fd_res (fd h) ++ fd_res (fd_metadata h)) ++ ion_res i) =
            avail (sys g) r0 + cnt r0 [])%nat.
    rewrite !cnt_app in *. rewrite cnt_nil in *. lia.
  - intros q Hq. cbn. rewrite lookup_insert_ne by done. congruence.
Qed.

(** Both are imported: the handle is registered with them. *)
Lemma import_finish F p h sz i1 i2 g r g' : acc (F ++ handle_fds h ++ ion_res i1 ++ ion_res i2) g ->
  handles_map_ g !! p = None -> handles (world (sys g)) !! p = Some h -> p <> 0 -> valid h ->
  (_ ← upd_handle p (init_imported sz); _ ← RegisterHandleLocked p i1 i2; mret GRALLOC1_ERROR_NONE) g
    = Ret (r, g') -> acc F g'.
Proof.
  intros Ha Em Eh Hp Hv E. rewrite (st_bind_Ret _ _ _ _ _ (upd_handle_Ret p h _ g Eh)) in E.
  set (h' := init_imported sz h) in E.
  apply st_bind_Ret_inv in E as ([] & g3 & E3 & E). injection E as <- <-.
  unfold RegisterHandleLocked, st_modify in E3. cbn [put with_sys handles_map_] in E3. rewrite Em in E3.
  injection E3 as <-. apply (acc_register F p (mkBuffer 1 i1 i2) h' (put p h' g)); try done.
  - apply (acc_weaken (F ++ handle_fds h ++ ion_res i1 ++ ion_res i2)).
    + apply (acc_unregistered F (handle_fds h ++ ion_res i1 ++ ion_res i2) _ p g); try done.
      intros q Hq. cbn. by rewrite lookup_insert_ne.
    + intros r0. pose proof (owns_imported sz h (mkBuffer 1 i1 i2) r0) as Q. cbn in Q.
      rewrite !cnt_app. subst h'. lia.
  - by subst h'; destruct h.
  - by subst h'; destruct h.
  - cbn. apply lookup_insert_eq.
Qed.

(** The client gives its descriptors to the manager. *)
Lemma ImportHandleLocked_acc F p h g r g' : handles_map_ g !! p = None ->
  handles (world (sys g)) !! p = Some h -> acc (F ++ handle_fds h) g ->
  ImportHandleLocked p g = Ret (r, g') -> acc F g'.
Proof.
  intros Em Eh Ha E. unfold ImportHandleLocked in E.
  destruct (decide (p <> 0 /\ valid h)) as [[Hp Hv]|Hn].
  2:{ destruct (validate_fails p h g Eh Hn) as (e & Ee & He).
      rewrite (st_bind_Ret _ _ _ _ _ Ee), (proj2 (Z.eqb_neq _ _) He) in E. injection E as <- <-.
      by apply (acc_drop F (handle_fds h)). }
  rewrite (st_bind_Ret _ _ _ _ _ (validate_Ret p h g Hp Eh Hv)) in E. cbn [negb Z.eqb] in E.
  rewrite (st_bind_Ret _ _ _ _ _ (handle_Ret p h g Eh)) in E.
  destruct (IonAlloc_ImportBuffer_ok (fd h) (sys g)) as (i1 & s1 & E1 & W1 & I1 & M1).
  rewrite (st_bind_Ret _ _ _ _ _ (in_sys_Ret _ _ _ _ E1)) in E.
  assert (A1 : acc ((F ++ handle_fds h) ++ ion_res i1) (with_sys s1 g)).
  { apply (acc_moves _ [] _ g); try done; [by rewrite app_nil_r|]. intros. cbn. by rewrite W1. }
  destruct (Z.ltb_spec i1 0) as [Hi|Hi].
  { injection E as <- <-. by eapply acc_drop, acc_drop. }
  assert (S2 : exists i2 s2, (if 0 <=? fd_metadata h then in_sys (IonAlloc_ImportBuffer (fd_metadata h))
      else mret (-1)) (with_sys s1 g) = Ret (i2, with_sys s2 g) /\ world s2 = world s1 /\
      moves [] (ion_res i2) s1 s2).
  { destruct (0 <=? fd_metadata h).
    - destruct (IonAlloc_ImportBuffer_ok (fd_metadata h) s1) as (i2 & s2 & E2 & W2 & I2 & M2).
      exists i2, s2. by rewrite (in_sys_Ret _ (with_sys s1 g) _ _ E2).
    - exists (-1), s1. split; [done|]. split; [done|]. apply moves_refl. }
  destruct S2 as (i2 & s2 & E2 & W2 & M2). rewrite (st_bind_Ret _ _ _ _ _ E2) in E. clear E2.
  assert (A2 : acc ((F ++ handle_fds h ++ ion_res i1) ++ ion_res i2) (with_sys s2 g)).
  { rewrite <- app_assoc in A1. apply (acc_moves _ [] _ (with_sys s1 g)); try done; [by rewrite app_nil_r|].
    intros. cbn. by rewrite W2. }
  assert (Eh2 : handles (world s2) !! p = Some h) by congruence.
  destruct (_ && _).
  - apply (import_cleanup F p h i1 (with_sys s2 g) r g'); try done.
    by apply (acc_drop _ (ion_res i2)).
  - rewrite (st_bind_Ret _ _ _ _ _ eq_refl) in E.
    apply (import_finish F p h (u32 (k_seek_end s2 (fd h))) i1 i2 (with_sys s2 g) r g'); try done.
    by rewrite <- !app_assoc in A2.
Qed.

Lemma RetainBuffer_acc F p g r g' : acc F g ->
  (handles_map_ g !! p = None -> exists h, handles (world (sys g)) !! p = Some h /\ acc (F ++ handle_fds h) g) ->
  RetainBuffer p g = Ret (r, g') -> acc F g'.
Proof.
  intros Ha Hi E. unfold RetainBuffer in E. apply st_bind_Ret_inv in E as (m & g0 & [= <- <-] & E).
  destruct (handles_map_ g !! p) as [b|] eqn:Eb.
  - destruct (acc_registered _ _ Ha p b Eb) as (_ & Hn & _).
    apply st_bind_Ret_inv in E as (n & g0 & En & E). unfold st_lift, int_expr in En.
    destruct (_ && _) eqn:Er; [|done]. injection En as <- <-.
    apply andb_true_iff in Er as [_ Er%Z.leb_le].
    apply st_bind_Ret_inv in E as ([] & g1 & [= <-] & E). injection E as <- <-.
    apply acc_count; [done..|lia].
  - destruct (Hi eq_refl) as (h & Eh & Hc). by eapply ImportHandleLocked_acc.
Qed.

(** ** Locking *)
Lemma upd_safe F p f : (forall h b r, cnt r (owns (f h) b) = cnt r (owns h b)) ->
  (forall h, valid h -> valid (f h)) -> (forall h, base_metadata (f h) = base_metadata h) ->
  keeps (safe F) (upd_handle p f).
Proof.
  intros Ho Hv Hb g [] g' E Ha. unfold upd_handle in E.
  apply st_bind_Ret_inv in E as (h & g0 & Eh & E).
  assert (Eh' : handles (world (sys g)) !! p = Some h).
  { unfold handle, in_sys, in_world, get_handle in Eh. destruct (_ !! p); [|done]. by injection Eh as -> _. }
  rewrite (handle_Ret p h g Eh') in Eh. injection Eh as <-. injection E as <-.
  destruct (handles_map_ g !! p) as [b|] eqn:Eb.
  - destruct (acc_registered _ _ Ha p b Eb) as (_ & _ & h0 & E0 & Hv0 & Hm0).
    assert (h0 = h) as -> by congruence.
    apply (acc_update F p b h (f h) [] [] g); try done; [by apply Hv|by rewrite Hb|].
    intros r. by rewrite Ho.
  - rewrite <- (app_nil_r F) in Ha |- *. apply (acc_unregistered F [] [] p g); try done.
    intros q Hq. cbn. by rewrite lookup_insert_ne.
Qed.

Lemma set_flags_safe F p f : keeps (safe F) (upd_handle p (fun h => set_flags (f h) h)).
Proof. apply upd_safe; by intros []. Qed.

Lemma clean_safe F i op : keeps (safe F) (in_sys (IonAlloc_CleanBuffer i op)).
Proof.
  intros g r g' (s & E & ->)%in_sys_inv Ha. unfold IonAlloc_CleanBuffer in E. cbv zeta in E.
  apply st_bind_Ret_inv in E as (e & s0 & [= <- <-] & E). destruct (k_custom _ _ _).
  - injection E as <- <-. by destruct Ha.
  - injection E as <- <-. by destruct Ha.
Qed.

Lemma owns_set_base h b a r : base h = 0 ->
  cnt r (owns (set_base a h) b) = (cnt r (owns h b) + cnt r (addr_res a))%nat.
Proof.
  intros Hb. destruct h. cbn in Hb. subst. unfold owns, main_res, meta_res. cbn. rewrite !cnt_app. lia.
Qed.

Lemma MapBuffer_ok p h g : handles (world (sys g)) !! p = Some h -> base h = 0 ->
  exists a s, MapBuffer p g = Ret (if a =? MAP_FAILED then GRALLOC1_ERROR_BAD_HANDLE else GRALLOC1_ERROR_NONE,
    put p (set_base a h) (with_sys s g)) /\ a <> 0 /\ handles (world s) = handles (world (sys g)) /\
    moves [] (addr_res a) (sys g) s /\ cache_ops s = cache_ops (sys g).
Proof.
  intros Eh Hb. unfold MapBuffer. rewrite (st_bind_Ret _ _ _ _ _ (upd_handle_Ret p h _ g Eh)).
  assert (set_base 0 h = h) as -> by (destruct h; cbn in Hb; by subst).
  assert (put p h g = g) as -> by (unfold put; rewrite insert_id by done; by destruct g as [[[]]]).
  rewrite (st_bind_Ret _ _ _ _ _ (handle_Ret p h g Eh)).
  destruct (IonAlloc_MapBuffer_ok (fd h) (sys g)) as (e & a & s & E & Hh & Ha & He & M).
  rewrite (st_bind_Ret _ _ _ _ _ (in_sys_Ret _ _ _ _ E)). cbv beta iota.
  assert (Eh' : handles (world (sys (with_sys s g))) !! p = Some h) by (cbn; congruence).
  rewrite (st_bind_Ret _ _ _ _ _ (upd_handle_Ret p h _ _ Eh')).
  exists a, s. split; [|do 3 (split; [done|])].
  - destruct (Z.eqb_spec a MAP_FAILED) as [Hf|Hf].
    + rewrite (proj2 (Z.eqb_neq e 0)); [done|]. tauto.
    + by rewrite (proj2 (Z.eqb_eq e 0)) by tauto.
  - unfold IonAlloc_MapBuffer in E. apply st_bind_Ret_inv in E as (o & s1 & (w & _ & ->)%in_world_inv & E).
    by destruct o; injection E as <- <- <-.
Qed.

Lemma MapBuffer_safe F p h g r g' : handles (world (sys g)) !! p = Some h -> base h = 0 ->
  MapBuffer p g = Ret (r, g') -> safe F g g'.
Proof.
  intros Eh Hb E Ha. destruct (MapBuffer_ok p h g Eh Hb) as (a & s & E' & _ & Hh & M & _).
  rewrite E in E'. injection E' as -> ->.
  assert (Hp : handles (world (sys (put p (set_base a h) (with_sys s g)))) =
    <[p := set_base a h]> (handles (world (sys g)))) by (cbn; by rewrite Hh).
  destruct (handles_map_ g !! p) as [b|] eqn:Eb.
  - destruct (acc_registered _ _ Ha p b Eb) as (_ & _ & h0 & E0 & Hv0 & Hm0).
    assert (h0 = h) as -> by congruence.
    apply (acc_update F p b h (set_base a h) [] (addr_res a) g); try done; try by destruct h.
    intros r. rewrite owns_set_base, cnt_nil by done. lia.
  - apply (acc_drop F (addr_res a)). apply (acc_unregistered F [] _ p g _); [by rewrite app_nil_r|done|done|].
    intros q Hq. cbn. by rewrite lookup_insert_ne, Hh.
Qed.

Lemma handle_inv p g h g' : handle p g = Ret (h, g') -> g' = g /\ handles (world (sys g)) !! p = Some h.
Proof.
  unfold handle, in_sys, in_world, get_handle. destruct (_ !! p) as [h'|]; [|done].
  intros [= <- <-]. split; [by destruct g as [[[]]]|done].
Qed.

Lemma handle_safe F p : keeps (safe F) (handle p).
Proof. intros g h g' (-> & _)%handle_inv. reflexivity. Qed.
#[local] Hint Resolve handle_safe set_flags_safe clean_safe AllocateBuffer_safe : keeps.

Lemma LockBuffer_safe F p prod cons : keeps (safe F) (LockBuffer p prod cons).
Proof.
  unfold LockBuffer. destruct (negb _); [keeps_tac|]. apply keeps_bind; [apply _|keeps_tac|]. intros m.
  destruct (m !! p) as [b|]; [|keeps_tac].
  intros g r g' (h & g0 & (-> & Eh)%handle_inv & E)%st_bind_Ret_inv.
  apply st_bind_Ret_inv in E as (e & g1 & E1 & E). transitivity g1.
  - destruct (Z.eqb_spec (base h) 0); [|by injection E1 as <- <-]. by eapply MapBuffer_safe.
  - refine ((_ : keeps (safe F) _) _ _ _ E). keeps_tac.
Qed.

Lemma UnlockBuffer_safe F p : keeps (safe F) (UnlockBuffer p).
Proof. unfold UnlockBuffer. keeps_tac. Qed.

(** ** The other calls *)
Lemma modify_safe F (f : Mgr -> Mgr) : (forall g, sys (f g) = sys g) ->
  (forall g, handles_map_ (f g) = handles_map_ g) -> keeps (safe F) (st_modify f).
Proof.
  intros Hs Hm g [] g' [= <-] Ha. rewrite <- (app_nil_r F) in Ha |- *.
  apply (acc_moves F [] [] g); try done; rewrite ?Hs, ?Hm; done.
Qed.

Lemma next_id_safe F : keeps (safe F) next_id.
Proof. unfold next_id. keeps_tac. by apply modify_safe. Qed.

Lemma descriptors_safe F m : keeps (safe F) (st_modify (set_descriptors_map m)).
Proof. by apply modify_safe. Qed.
#[local] Hint Resolve next_id_safe descriptors_safe : keeps.

Lemma CreateBufferDescriptor_safe F : keeps (safe F) CreateBufferDescriptor.
Proof. unfold CreateBufferDescriptor. keeps_tac. by apply modify_safe. Qed.
Lemma DestroyBufferDescriptor_safe F i : keeps (safe F) (DestroyBufferDescriptor i).
Proof. unfold DestroyBufferDescriptor. keeps_tac. Qed.
Lemma CallBufferDescriptorFunction_safe F i f : keeps (safe F) (CallBufferDescriptorFunction i f).
Proof. unfold CallBufferDescriptorFunction. keeps_tac. Qed.

(** A new object with what it owns is registered. *)
Lemma CreateSharedHandle_safe F p d : keeps (safe F) (CreateSharedHandle adreno p d).
Proof.
  intros g r g' E Ha. unfold CreateSharedHandle in E.
  apply st_bind_Ret_inv in E as (h & g0 & (-> & Eh)%handle_inv & E).
  apply st_bind_Ret_inv in E as ([aw ah] & g0 & Eg & E).
  assert (g0 = g) as ->. { unfold st_lift in Eg. destruct (GetAlignedWidthAndHeight _ _ _); by inversion Eg. }
  cbv zeta in E. destruct (dup_ok (fd h) (sys g)) as (f1 & s1 & E1 & H1' & M1).
  rewrite (st_bind_Ret _ _ _ _ _ (in_sys_Ret _ _ _ _ E1)) in E.
  destruct (dup_ok (fd_metadata h) s1) as (f2 & s2 & E2 & H2' & M2).
  rewrite (st_bind_Ret _ _ _ _ _ (in_sys_Ret _ (with_sys s1 g) _ _ E2)) in E.
  rewrite (st_bind_Ret _ _ _ _ _ eq_refl) in E.
  apply st_bind_Ret_inv in E as (q & g3 & (s3 & E3 & ->)%in_sys_inv & E). injection E3 as <- <-.
  cbn [sys with_sys] in E.
  destruct (k_new_ok s2) as [Hp Hn].
  assert (Hu : handles_map_ g !! k_new s2 = None)
    by (apply new_unregistered; [apply Ha|congruence]).
  apply st_bind_Ret_inv in E as ([] & g4 & E4 & E). injection E as <- <-.
  unfold RegisterHandleLocked, st_modify in E4. cbn [with_sys handles_map_] in E4. rewrite Hu in E4.
  injection E4 as <-.
  match goal with |- acc F (set_handles_map (<[?q := ?b]> _) ?gg) => eapply (acc_register F q b _ gg) end;
    try done; [| | |cbn; apply lookup_insert_eq]; [|done..].
  apply (acc_weaken (F ++ fd_res f1 ++ fd_res f2)).
  - apply (acc_moves F [] _ g); [by rewrite app_nil_r|..|done|].
    + intros r. specialize (M1 r). specialize (M2 r). rewrite cnt_app.
      change (avail s2 r + cnt r [] = avail (sys g) r + (cnt r (fd_res f1) + cnt r (fd_res f2)))%nat. rewrite cnt_nil in *. lia.
    + cbn. rewrite H2', H1'. apply unregistered_other; [apply Ha|done].
  - intros r. unfold owns, main_res, meta_res. cbn. rewrite !cnt_app.
    destruct (0 <=? f2); rewrite ?cnt_app, ?cnt_nil; lia.
Qed.
#[local] Hint Resolve CreateSharedHandle_safe : keeps.

Lemma resolve_formats_safe F ids : keeps (safe F) (resolve_formats ids).
Proof. induction ids; cbn [resolve_formats]; keeps_tac. Qed.
Lemma allocate_each_safe F ds : forall out, keeps (safe F) (allocate_each fl adreno ds out).
Proof. induction ds; cbn [allocate_each]; keeps_tac. Qed.
Lemma share_each_safe F p mi ds : forall i out, keeps (safe F) (share_each adreno p mi i ds out).
Proof. induction ds; cbn [share_each]; keeps_tac. Qed.
#[local] Hint Resolve resolve_formats_safe allocate_each_safe share_each_safe : keeps.

Lemma AllocateBuffers_safe F ids t : keeps (safe F) (AllocateBuffers fl adreno ids t).
Proof. unfold AllocateBuffers. keeps_tac. Qed.

Lemma new_object_safe F h : keeps (safe F) (in_sys (new_object h)).
Proof.
  intros g p g' (s & E & ->)%in_sys_inv Ha. injection E as <- <-.
  destruct (k_new_ok (sys g)) as [_ Hn].
  pose proof (new_unregistered g _ (acc_registered _ _ Ha) Hn) as Hu.
  rewrite <- (app_nil_r F) in Ha |- *. apply (acc_unregistered F [] [] (k_new (sys g)) g); try done.
  intros q Hq. cbn. by rewrite lookup_insert_ne.
Qed.

Lemma in_sys_gets_safe {A} F (f : Sys -> A) : keeps (safe F) (in_sys (st_gets f)).
Proof. intros g a g' (s & [= <- <-] & ->)%in_sys_inv Ha. by destruct g. Qed.

Lemma meta_calls_safe F p : (forall t, keeps (safe F) (meta (getMetaData p t))) /\
  (forall z, keeps (safe F) (meta (GetYUVPlaneInfo (Some adreno) p z))) /\
  keeps (safe F) (meta (GetRgbDataAddress p)) /\ keeps (safe F) (in_sys (in_world (validate p))).
Proof.
  split; [intros t|split; [intros z|split]]; apply (meta_safe F p).
  - apply getMetaData_steps.
  - apply GetYUVPlaneInfo_steps.
  - apply GetRgbDataAddress_steps.
  - apply validate_steps.
Qed.

Lemma Perform_safe F op : keeps (safe F) (Perform fl adreno op).
Proof.
  pose proof (fun p => proj1 (meta_calls_safe F p)). pose proof (fun p => proj1 (proj2 (meta_calls_safe F p))).
  pose proof (fun p => proj1 (proj2 (proj2 (meta_calls_safe F p)))).
  pose proof (fun p => proj2 (proj2 (proj2 (meta_calls_safe F p)))).
  pose proof (new_object_safe F). pose proof (fun A => @in_sys_gets_safe A F).
  unfold Perform, checked. cbv zeta. destruct op; keeps_tac. by apply modify_safe.
Qed.
End Calls.
End BufCalls.
