(* ===== verification/BufProps.v ===== *)
(** Correctness of the buffer manager of gralloc (gr_buf_mgr.cpp over
    gr_ion_alloc.cpp and gr_allocator.cpp): in every reachable state it holds what
    its buffers name; the last release gives everything back; a new buffer has its
    size, descriptors and metadata; locking maps and maintains the caches; and the
    error paths that leave something behind. *)
From S2P Require Import Prelude MetaData GrUtils Alloc BufMgr BufFacts BufCalls.
#[local] Open Scope Z_scope.

Module BufProps.
Import MetaData MetaSpec MetaFacts GrUtils GrFacts GrPlanes Alloc BufMgr Resource MetaSteps Account BufCalls.

Section Reachable.
Context `{HandleAbi} `{!Mmap} `{!Kernel} `{!Platform} `{!AllocPlatform} `{!KernelLaws} `{!MmapFresh}
  (fl : Z) (adreno : AdrenoMemInfo).

(** A client that gives [p] to RetainBuffer for the first time owns its
    descriptors: they are open and no registered buffer has them. *)
Definition client_owns (p : Z) (g : Mgr) : Prop := handles_map_ g !! p = None ->
  exists h, handles (world (sys g)) !! p = Some h /\
    forall r, (claims (handles_map_ g) (handles (world (sys g))) r + cnt r (handle_fds h) <=
               avail (sys g) r)%nat.

(** The rest of the process: it leaves the registered handles and what they own
    alone. *)
Definition client_step (g : Mgr) (s : Sys) : Prop :=
  (forall p, is_Some (handles_map_ g !! p) -> handles (world s) !! p = handles (world (sys g)) !! p) /\
  (forall r, (0 < claims (handles_map_ g) (handles (world (sys g))) r)%nat -> avail s r = avail (sys g) r).

(** One call, or a step of the rest of the process. *)
Inductive step : Mgr -> Mgr -> Prop :=
| step_create g r g' : CreateBufferDescriptor g = Ret (r, g') -> step g g'
| step_destroy i g r g' : DestroyBufferDescriptor i g = Ret (r, g') -> step g g'
| step_set i f g r g' : CallBufferDescriptorFunction i f g = Ret (r, g') -> step g g'
| step_allocate ids t g r g' : AllocateBuffers fl adreno ids t g = Ret (r, g') -> step g g'
| step_retain p g r g' : client_owns p g -> RetainBuffer p g = Ret (r, g') -> step g g'
| step_release p g r g' : ReleaseBuffer p g = Ret (r, g') -> step g g'
| step_lock p prod cons g r g' : LockBuffer p prod cons g = Ret (r, g') -> step g g'
| step_unlock p g r g' : UnlockBuffer p g = Ret (r, g') -> step g g'
| step_perform op g r g' : Perform fl adreno op g = Ret (r, g') -> step g g'
| step_client g s : client_step g s -> step g (with_sys s g).

Lemma step_safe g g' : step g g' -> safe [] g g'.
Proof.
  intros [g0 r g1 E|i g0 r g1 E|i f g0 r g1 E|ids t g0 r g1 E|p g0 r g1 Hc E|p g0 r g1 E
    |p prod cons g0 r g1 E|p g0 r g1 E|op g0 r g1 E|g0 s Hc].
  - exact (CreateBufferDescriptor_safe [] _ _ _ E).
  - exact (DestroyBufferDescriptor_safe [] _ _ _ _ E).
  - exact (CallBufferDescriptorFunction_safe [] _ _ _ _ _ E).
  - exact (AllocateBuffers_safe fl adreno [] _ _ _ _ _ E).
  - intros Ha. apply (RetainBuffer_acc [] p g0 r g1 Ha); [|done].
    intros Hn. destruct (Hc Hn) as (h & Eh & Hr). exists h. split; [done|]. split; [apply Ha|exact Hr].
  - exact (ReleaseBuffer_safe [] _ _ _ _ E).
  - exact (LockBuffer_safe [] _ _ _ _ _ _ E).
  - exact (UnlockBuffer_safe [] _ _ _ _ E).
  - exact (Perform_safe fl adreno [] _ _ _ _ E).
  - destruct Hc as [Hh Hr]. intros [Ho Hc]. split; cbn.
    + intros p b Eb. rewrite Hh by eauto. by apply Ho.
    + intros r. rewrite (claims_ext _ _ _ _ Hh). specialize (Hc r). specialize (Hr r).
      rewrite cnt_nil in *.
      destruct (claims (handles_map_ g0) (handles (world (sys g0))) r); [lia|]. rewrite Hr; lia.
Qed.

Lemma new_manager_acc prop i s g : new_BufferManager prop i s = Ret g -> acc [] g.
Proof.
  unfold new_BufferManager. cbv zeta. intros ([b s'] & _ & E)%bind_Ret_inv. injection E as <-. split; cbn.
  - by intros p b' ?%lookup_empty_Some.
  - intros r. unfold claims. rewrite map_fold_empty. rewrite cnt_nil. lia.
Qed.

Lemma claims_pair m hs r p q b c : m !! p = Some b -> m !! q = Some c -> p <> q ->
  (claim hs r p b + claim hs r q c <= claims m hs r)%nat.
Proof.
  intros Ep Eq Hne. rewrite (claims_delete m hs r p b Ep), (claims_delete (delete p m) hs r q c); [lia|].
  by rewrite lookup_delete_ne.
Qed.

Lemma cnt_pos r X : r ∈ X -> (1 <= cnt r X)%nat.
Proof.
  intros Hr. unfold cnt. apply count_occ_In. by apply list_elem_of_In.
Qed.

Lemma acc_disjoint g p q b c hp hq r : acc [] g ->
  handles_map_ g !! p = Some b -> handles_map_ g !! q = Some c ->
  handles (world (sys g)) !! p = Some hp -> handles (world (sys g)) !! q = Some hq -> p <> q ->
  r ∈ owns hp b -> r ∈ owns hq c -> exists i, r = Ion i.
Proof.
  intros [_ Hc] Eb Ec Ep Eq Hne Hp%cnt_pos Hq%cnt_pos. specialize (Hc r).
  pose proof (claims_pair _ (handles (world (sys g))) r p q b c Eb Ec Hne) as Hs. unfold claim in Hs.
  rewrite Ep, Eq in Hs. destruct r as [x|a|i]; [..|eauto]; cbn in Hc.
  - repeat case_match; lia.
  - repeat case_match; lia.
Qed.

(** C1: In every state the manager can reach, by any calls in any order (failing
    ones included) interleaved with steps of the rest of the process, the accounts
    are right: each registered buffer has a positive count and a live, valid
    handle, and the state holds one unit of a resource for every buffer that names
    it.  So what a registered buffer names is open, mapped and referenced, and no
    two of them name the same descriptor or mapping. *)
Theorem resources_accounted prop i s g0 g : new_BufferManager prop i s = Ret g0 -> rtc step g0 g ->
  acc [] g /\
  (forall p q b c hp hq r, handles_map_ g !! p = Some b -> handles_map_ g !! q = Some c ->
     handles (world (sys g)) !! p = Some hp -> handles (world (sys g)) !! q = Some hq -> p <> q ->
     r ∈ owns hp b -> r ∈ owns hq c -> exists i, r = Ion i).
Proof.
  intros E Hs. assert (Ha : acc [] g).
  { apply new_manager_acc in E. revert E. induction Hs as [g|g g1 g2 H12 _ IH]; [done|].
    intros Ha. apply IH. by apply (step_safe g g1 H12). }
  split; [done|]. intros p q b c hp hq r. exact (acc_disjoint g p q b c hp hq r Ha).
Qed.

Lemma acc_owned g p b h : acc [] g -> handles_map_ g !! p = Some b ->
  handles (world (sys g)) !! p = Some h -> has_res (owns h b) (sys g).
Proof.
  intros [_ Hc] Eb Eh r. specialize (Hc r). rewrite (claims_delete _ _ r p b Eb) in Hc.
  unfold claim in Hc. rewrite Eh in Hc. lia.
Qed.

Lemma acc_others g p b h q c hq : acc [] g -> handles_map_ g !! p = Some b ->
  handles (world (sys g)) !! p = Some h -> handles_map_ g !! q = Some c ->
  handles (world (sys g)) !! q = Some hq -> p <> q -> has_res (owns h b ++ owns hq c) (sys g).
Proof.
  intros [_ Hc] Eb Eh Ec Eq Hne r. specialize (Hc r).
  pose proof (claims_pair _ (handles (world (sys g))) r p q b c Eb Ec Hne) as Hs.
  unfold claim in Hs. rewrite Eh, Eq in Hs. rewrite cnt_app. lia.
Qed.

(** The last reference: the entry is removed and the buffer freed. *)
Lemma release_last p b g : handles_map_ g !! p = Some b -> ref_count b = 1 ->
  ReleaseBuffer p g = (_ ← FreeBuffer p (mkBuffer 0 (ion_handle_main b) (ion_handle_meta b));
    mret GRALLOC1_ERROR_NONE) (set_handles_map (delete p (handles_map_ g)) g).
Proof. intros Eb Hn. unfold ReleaseBuffer. by rewrite (st_bind_Ret _ _ _ _ _ eq_refl), Eb, Hn. Qed.

(** What the last release gives back: all that the buffer owned, unless its mapping
    failed before. *)
Definition given_back (h : private_handle_t) (b : Buffer) : list res :=
  if base h =? MAP_FAILED then main_res h b else owns h b.

(** C11: In a state whose accounts are right (which C1 shows of every reachable
    one), releasing a buffer that has other references only lowers its count.
    Releasing the last one removes the entry and leaves every other buffer with all
    that it owns.  Where no mapping of the buffer failed it gives back exactly what the
    buffer owned (both descriptors, both mappings and both ion references) and
    deletes the handle unless the client made it.  Where an mmap of a lock failed
    ([base h] is MAP_FAILED) the release still reports success but gives back only
    the descriptor and the ion reference of the pixels: the descriptor, mapping and
    ion reference of the metadata and the handle stay. *)
Theorem release_exact p b h g : acc [] g -> handles_map_ g !! p = Some b ->
  handles (world (sys g)) !! p = Some h ->
  (ref_count b <> 1 -> ReleaseBuffer p g = Ret (GRALLOC1_ERROR_NONE, set_handles_map
     (<[p := mkBuffer (ref_count b - 1) (ion_handle_main b) (ion_handle_meta b)]> (handles_map_ g)) g)) /\
  (ref_count b = 1 -> exists s,
     ReleaseBuffer p g = Ret (GRALLOC1_ERROR_NONE, set_handles_map (delete p (handles_map_ g)) (with_sys s g)) /\
     (forall r, avail (sys g) r = avail s r + cnt r (given_back h b))%nat /\
     handles (world s) = (if base h =? MAP_FAILED then handles (world (sys g))
       else if has (flags h) PRIV_FLAGS_CLIENT_ALLOCATED
       then <[p := clear_fds h]> (handles (world (sys g))) else delete p (handles (world (sys g)))) /\
     (forall q c hq, p <> q -> handles_map_ g !! q = Some c -> handles (world (sys g)) !! q = Some hq ->
        handles (world s) !! q = Some hq /\ has_res (owns hq c) s)).
Proof.
  intros Ha Eb Eh. destruct (acc_registered _ _ Ha p b Eb) as (Hp & Hn & h0 & E0 & Hv & Hm).
  assert (h0 = h) as -> by congruence.
  split.
  - intros Hc. unfold ReleaseBuffer. rewrite (st_bind_Ret _ _ _ _ _ eq_refl), Eb.
    rewrite int_expr_ok by (unfold INT_MIN, INT_MAX in *; lia).
    rewrite (st_bind_Ret _ _ _ _ _ eq_refl). by rewrite (proj2 (Z.eqb_neq (ref_count b - 1) 0)) by lia.
  - intros Hc. rewrite (release_last p b g Eb Hc).
    set (g1 := set_handles_map (delete p (handles_map_ g)) g). set (b' := mkBuffer _ _ _).
    destruct (FreeBuffer_exact [] p h b' g1) as (s & E & Ms & Hh); try done.
    { rewrite app_nil_r. exact (acc_owned g p b h Ha Eb Eh). }
    rewrite (st_bind_Ret _ _ _ _ _ E). fold (given_back h b') in Ms.
    exists s. split; [done|]. split; [intros r; specialize (Ms r); rewrite cnt_nil in Ms|].
    + change (given_back h b) with (given_back h b'). change (sys g1) with (sys g) in Ms. lia.
    + split; [done|]. intros q c hq Hne Ec Eq. split.
      * rewrite Hh. repeat case_match; [done|by rewrite lookup_insert_ne|by rewrite lookup_delete_ne].
      * pose proof (has_res_moves _ _ (owns hq c) _ _ Ms) as Hr. apply Hr.
        pose proof (acc_others g p b h q c hq Ha Eb Eh Ec Eq Hne) as Ho. intros r. specialize (Ho r).
        rewrite cnt_app in *. change (sys g1) with (sys g). unfold given_back, owns in *.
        change (main_res h b') with (main_res h b). change (meta_res h b') with (meta_res h b).
        rewrite !cnt_app in Ho. case_match; rewrite ?cnt_app; lia.
Qed.

(** ** A new buffer *)
Lemma fetch_fresh f m : operation m = 0 -> fetch f m = None.
Proof.
  intros E. rewrite fetch_field. replace (op_has (param_of f) m) with false; [done|].
  rewrite op_has_testbit, E. by rewrite Z.bits_0.
Qed.

Lemma world_ok_single w p h b m : p <> 0 -> handles w !! p = Some h -> valid h ->
  base_metadata h = 0 -> fd_metadata h <> -1 -> fd_buf w !! fd_metadata h = Some b ->
  contents w !! b = Some m -> world_ok {[p]} (fun _ => b) w.
Proof.
  intros Hp Eh Hv Hb Hm Ef Ec q Hq. apply elem_of_singleton in Hq as ->. split; [done|].
  split; [by exists m|]. exists h. split; [done|]. split; [done|]. split; [done|]. split; [done|].
  by rewrite Hb.
Qed.

(** The state after a successful allocation. *)
Lemma AllocateBuffer_ok `{!MmapOk} d sz g p g' : acc [] g ->
  AllocateBuffer fl adreno d sz g = Ret (Allocated p, g') ->
  handles_map_ g !! p = None /\ p <> 0 /\ acc [] g' /\
  (exists i1 i2, handles_map_ g' !! p = Some (mkBuffer 1 i1 i2)) /\
  exists h a bm m, handles (world (sys g')) !! p = Some (set_base_metadata a h) /\
    describes adreno d sz h /\ world_ok {[p]} (fun _ => bm) (world (sys g')) /\
    contents (world (sys g')) !! bm = Some m /\
    (forall f, fetch f m = if bool_decide (param_of f = UPDATE_COLOR_SPACE)
                           then Some (VColorSpace ITU_R_601) else None).
Proof.
  intros Ha E. pose proof (AllocateBuffer_safe fl adreno [] d sz _ _ _ E Ha) as Ha'.
  apply AllocateBuffer_cases in E
    as (g1 & h & i1 & i2 & b & Ef & Em & Hp & Hn & Hh & Hd & _ & _ & Eb & (m & Ec & Eo) & _).
  pose proof (new_unregistered g p (acc_registered _ _ Ha) Hn) as Hu.
  do 3 (split; [done|]).
  assert (Hw : world_ok {[p]} (fun _ => b) (world (sys g1))).
  { destruct (ds_fds _ _ _ _ Hd). apply (world_ok_single _ p h b m); try done; [|apply Hd|apply Hd|lia].
    by rewrite Hh, lookup_insert_eq. }
  assert (Eh : handles (world (sys g1)) !! p = Some h) by (by rewrite Hh, lookup_insert_eq).
  destruct (setMetaData_ok {[p]} (fun _ => b) (world (sys g1)) p h m UPDATE_COLOR_SPACE (VColorSpace ITU_R_601)
    Hw ltac:(set_solver) Eh Ec eq_refl) as (w & m' & a & Es & Hw' & Eh' & Ec' & Hf).
  unfold finish_alloc in Ef.
  rewrite (st_bind_Ret _ _ _ _ _ (in_sys_Ret _ _ _ _ (in_world_Ret _ _ _ _ Es))) in Ef.
  apply st_bind_Ret_inv in Ef as ([] & g2 & E2 & Ef). injection Ef as <-.
  unfold RegisterHandleLocked, st_modify in E2. cbn [with_sys handles_map_] in E2. rewrite Em, Hu in E2.
  injection E2 as <-. split; [exists i1, i2; cbn; apply lookup_insert_eq|].
  exists h, a, b, m'. cbn. do 4 (split; [done|]). intros f. rewrite Hf. cbn [stored andb].
  by rewrite (fetch_fresh f m Eo).
Qed.

(** ** Locking *)

(** LockBuffer must drop the lines of the processor cache: it reads what another
    device wrote. *)
Definition must_invalidate (h : private_handle_t) (cons : Z) : bool :=
  has (flags h) PRIV_FLAGS_USES_ION && has (flags h) PRIV_FLAGS_CACHED
  && has cons (Z.lor GRALLOC1_CONSUMER_USAGE_CPU_READ GRALLOC1_CONSUMER_USAGE_CPU_READ_OFTEN)
  && has (flags h) PRIV_FLAGS_NON_CPU_WRITER.

Definition log (ops : list (cache_cmd * Z)) (g : Mgr) : Mgr :=
  with_sys (mkSys (world (sys g)) (ion_refs (sys g)) (ion_dev_fd_ (sys g)) (cache_ops (sys g) ++ ops)) g.

Lemma log_nil g : log [] g = g.
Proof. unfold log. rewrite app_nil_r. by destruct g as [[]]. Qed.

Lemma put_id p h g : handles (world (sys g)) !! p = Some h -> put p h g = g.
Proof. intros E. unfold put. rewrite insert_id by done. by destruct g as [[[]]]. Qed.

(** The handle after a lock for [prod]. *)
Definition locked (prod : Z) (h : private_handle_t) : private_handle_t :=
  if CpuCanWrite prod then set_flags (Z.lor (flags h) PRIV_FLAGS_NEEDS_FLUSH) h else h.

Hypothesis cache_works : forall s c i, k_custom s c i = None.

Lemma clean_Ret i op c g :
  c = (if op =? CACHE_CLEAN then ION_IOC_CLEAN_CACHES
       else if op =? CACHE_INVALIDATE then ION_IOC_INV_CACHES else ION_IOC_CLEAN_INV_CACHES) ->
  in_sys (IonAlloc_CleanBuffer i op) g = Ret (0, log [(c, i)] g).
Proof.
  intros ->. unfold in_sys, IonAlloc_CleanBuffer. cbv zeta.
  rewrite (st_bind_Ret _ _ _ _ _ eq_refl), cache_works. reflexivity.
Qed.

Lemma LockBuffer_mapped p b h prod cons g : CpuCanAccess prod cons = true ->
  handles_map_ g !! p = Some b -> handles (world (sys g)) !! p = Some h -> base h <> 0 ->
  LockBuffer p prod cons g = Ret (GRALLOC1_ERROR_NONE, put p (locked prod h)
    (log (if must_invalidate h cons then [(ION_IOC_INV_CACHES, ion_handle_main b)] else []) g)).
Proof.
  intros Hc Eb Eh Hb. unfold LockBuffer. rewrite Hc. cbn [negb].
  rewrite (st_bind_Ret _ _ _ _ _ eq_refl), Eb, (st_bind_Ret _ _ _ _ _ (handle_Ret p h g Eh)).
  rewrite (proj2 (Z.eqb_neq _ _) Hb), (st_bind_Ret _ _ _ _ _ eq_refl).
  rewrite (st_bind_Ret _ _ _ _ _ (handle_Ret p h g Eh)). cbv zeta.
  rewrite bool_decide_eq_true_2 by done. cbn [andb].
  fold (must_invalidate h cons). set (ops := if must_invalidate h cons then [(ION_IOC_INV_CACHES, ion_handle_main b)] else []).
  assert (E : (if must_invalidate h cons then in_sys (IonAlloc_CleanBuffer (ion_handle_main b) CACHE_INVALIDATE)
               else mret 0) g = Ret (0, log ops g)).
  { subst ops. destruct (must_invalidate h cons); [by apply clean_Ret|by rewrite log_nil]. }
  rewrite (st_bind_Ret _ _ _ _ _ E). cbn [negb Z.eqb]. unfold locked. destruct (CpuCanWrite prod).
  - by rewrite (st_bind_Ret _ _ _ _ _ (upd_handle_Ret p h _ (log ops g) Eh)).
  - by rewrite (st_bind_Ret _ _ _ _ _ eq_refl), (put_id p h (log ops g) Eh).
Qed.

Lemma UnlockBuffer_Ret p b h g : handles_map_ g !! p = Some b -> handles (world (sys g)) !! p = Some h ->
  UnlockBuffer p g = Ret (GRALLOC1_ERROR_NONE,
    if has (flags h) PRIV_FLAGS_NEEDS_FLUSH
    then put p (set_flags (Z.land (flags h) (Z.lnot PRIV_FLAGS_NEEDS_FLUSH)) h)
           (log [(ION_IOC_CLEAN_CACHES, ion_handle_main b)] g)
    else g).
Proof.
  intros Eb Eh. unfold UnlockBuffer. rewrite (st_bind_Ret _ _ _ _ _ eq_refl), Eb.
  rewrite (st_bind_Ret _ _ _ _ _ (handle_Ret p h g Eh)). destruct (has _ _); [|done].
  rewrite (st_bind_Ret _ _ _ _ _ (clean_Ret _ CACHE_CLEAN _ g eq_refl)).
  by rewrite (st_bind_Ret _ _ _ _ _ (upd_handle_Ret p h _ (log _ g) Eh)).
Qed.

Lemma has_set f : has (Z.lor f PRIV_FLAGS_NEEDS_FLUSH) PRIV_FLAGS_NEEDS_FLUSH = true.
Proof.
  unfold has, PRIV_FLAGS_NEEDS_FLUSH. change 32 with (2 ^ 5). rewrite land_pow2_testbit by lia.
  by rewrite Z.lor_spec, Z.pow2_bits_true, orb_true_r.
Qed.

Lemma clear_set f : Z.land (Z.lor f PRIV_FLAGS_NEEDS_FLUSH) (Z.lnot PRIV_FLAGS_NEEDS_FLUSH) =
  Z.land f (Z.lnot PRIV_FLAGS_NEEDS_FLUSH).
Proof.
  apply Z.bits_inj'. intros n Hn. rewrite !Z.land_spec, Z.lor_spec, Z.lnot_spec by done.
  by destruct (Z.testbit f n), (Z.testbit PRIV_FLAGS_NEEDS_FLUSH n).
Qed.

Lemma clear_clear f : has f PRIV_FLAGS_NEEDS_FLUSH = false -> Z.land f (Z.lnot PRIV_FLAGS_NEEDS_FLUSH) = f.
Proof.
  unfold has. intros E%negb_false_iff%Z.eqb_eq. apply Z.bits_inj'. intros n Hn.
  apply (f_equal (fun x => Z.testbit x n)) in E. rewrite Z.land_spec, Z.bits_0 in E.
  rewrite Z.land_spec, Z.lnot_spec by done. by destruct (Z.testbit f n), (Z.testbit PRIV_FLAGS_NEEDS_FLUSH n).
Qed.

(** Locking a mapped buffer for the processor and unlocking it does exactly
    the cache maintenance that is needed, in this order: an invalidation when the
    processor reads what a device may have written to cached memory, and a clean
    when the processor wrote, or when a flush was still due.  After it no flush is
    due, and nothing else changed. *)
Lemma lock_unlock_caches p b h prod cons g : CpuCanAccess prod cons = true ->
  handles_map_ g !! p = Some b -> handles (world (sys g)) !! p = Some h -> base h <> 0 ->
  exists g1, LockBuffer p prod cons g = Ret (GRALLOC1_ERROR_NONE, g1) /\
    UnlockBuffer p g1 = Ret (GRALLOC1_ERROR_NONE,
      put p (set_flags (Z.land (flags h) (Z.lnot PRIV_FLAGS_NEEDS_FLUSH)) h)
        (log ((if must_invalidate h cons then [(ION_IOC_INV_CACHES, ion_handle_main b)] else []) ++
              (if CpuCanWrite prod || has (flags h) PRIV_FLAGS_NEEDS_FLUSH
               then [(ION_IOC_CLEAN_CACHES, ion_handle_main b)] else [])) g)).
Proof.
  intros Hc Eb Eh Hb. eexists. split; [by apply LockBuffer_mapped|].
  set (ops := if must_invalidate h cons then _ else _).
  rewrite (UnlockBuffer_Ret p b (locked prod h)); [|done|cbn; apply lookup_insert_eq].
  f_equal. f_equal. unfold locked. destruct (CpuCanWrite prod) eqn:Ew; cbn [orb].
  - assert (flags (set_flags (Z.lor (flags h) PRIV_FLAGS_NEEDS_FLUSH) h) =
      Z.lor (flags h) PRIV_FLAGS_NEEDS_FLUSH) as -> by (by destruct h).
    rewrite has_set, clear_set. unfold put, log. cbn. rewrite insert_insert_eq, <- app_assoc.
    by destruct h.
  - destruct (has (flags h) PRIV_FLAGS_NEEDS_FLUSH) eqn:Ef.
    + unfold put, log. cbn. by rewrite insert_insert_eq, <- app_assoc.
    + rewrite app_nil_r, clear_clear by done. by destruct h.
Qed.

(** ** The first lock *)
Lemma MapBuffer_open `{!MmapOk} p h b g : handles (world (sys g)) !! p = Some h -> base h = 0 ->
  fd_buf (world (sys g)) !! fd h = Some b ->
  exists a, a <> 0 /\ a <> MAP_FAILED /\ mapped (world (sys g)) !! a = None /\
    MapBuffer p g = Ret (GRALLOC1_ERROR_NONE, with_sys (set_world
      (mkWorld (<[p := set_base a h]> (handles (world (sys g)))) (fd_buf (world (sys g)))
         (contents (world (sys g))) (<[a := b]> (mapped (world (sys g))))) (sys g)) g).
Proof.
  intros Eh Hb Ef. destruct (mmap_ok _ _ _ Ef) as (a & Ea & H0' & Hm).
  destruct (mmap_fresh _ _ _ Ea) as (_ & HF & _). exists a. do 3 (split; [done|]).
  unfold MapBuffer. rewrite (st_bind_Ret _ _ _ _ _ (upd_handle_Ret p h _ g Eh)).
  assert (set_base 0 h = h) as -> by (destruct h; cbn in Hb; by subst).
  rewrite put_id by done. rewrite (st_bind_Ret _ _ _ _ _ (handle_Ret p h g Eh)).
  unfold mbind at 1, st_bind, in_sys, IonAlloc_MapBuffer, in_world, mmap, mbind, st_bind. rewrite Ef, Ea.
  unfold mret, st_ret. cbv beta iota.
  rewrite (upd_handle_Ret p h); [reflexivity|done].
Qed.

(** Locking a buffer for the first time is mapping it and locking it. *)
Lemma LockBuffer_maps p b h prod cons g g1 : CpuCanAccess prod cons = true ->
  handles_map_ g !! p = Some b -> handles (world (sys g)) !! p = Some h -> base h = 0 ->
  MapBuffer p g = Ret (GRALLOC1_ERROR_NONE, g1) -> handles_map_ g1 = handles_map_ g ->
  (exists h1, handles (world (sys g1)) !! p = Some h1 /\ base h1 <> 0) ->
  LockBuffer p prod cons g = LockBuffer p prod cons g1.
Proof.
  intros Hc Eb Eh Hb Em Eq (h1 & Eh1 & Hb1). unfold LockBuffer. rewrite Hc. cbn [negb].
  rewrite !(st_bind_Ret _ _ _ _ _ eq_refl), Eq, Eb.
  rewrite (st_bind_Ret _ _ _ _ _ (handle_Ret p h g Eh)), (st_bind_Ret _ _ _ _ _ (handle_Ret p h1 g1 Eh1)).
  rewrite Hb, Z.eqb_refl, (proj2 (Z.eqb_neq _ _) Hb1). by rewrite (st_bind_Ret _ _ _ _ _ Em).
Qed.

(** Changes of a handle and new mappings that leave its metadata alone. *)
Lemma world_ok_single_upd p bm w h h' ws : world_ok {[p]} (fun _ => bm) w ->
  handles w !! p = Some h -> valid h' -> fd_metadata h' = fd_metadata h -> base_metadata h' = base_metadata h ->
  fd_buf ws = fd_buf w -> contents ws = contents w -> handles ws !! p = Some h' ->
  (forall a b, mapped w !! a = Some b -> mapped ws !! a = Some b) -> world_ok {[p]} (fun _ => bm) ws.
Proof.
  intros Hw Eh Hv E1 E2 E3 E4 Eh' Hm q Hq. destruct (Hw q Hq) as (H0' & Hc & h0 & E0 & _ & Hf & Hb & Hx).
  apply elem_of_singleton in Hq as ->. assert (h0 = h) as -> by congruence.
  split; [done|]. rewrite E4. split; [done|]. exists h'. split; [done|].
  split; [done|]. rewrite E1, E2, E3. split; [done|]. split; [done|]. auto.
Qed.

(** The handle of a new buffer of a linear YUV format. *)
Lemma describes_linear d h gp : describes adreno d 0 h -> linear_yuv (hal_format (d_format d)) = true ->
  0 < d_width d <= 16384 -> 0 < d_height d <= 16384 -> d_width d mod 2 = 0 -> d_height d mod 2 = 0 ->
  d_layer_count d = 1 -> pages_ok -> GetGpuPixelAlignment adreno = 2 ^ gp -> 0 <= gp <= 12 ->
  dims_ok (width h) (height h) /\ d_width d <= width h /\ d_height d <= height h /\
  needed (hal_format (format h)) (width h) (height h) <= size h.
Proof.
  intros Hd L Hw Hh Ew Eh El Hp Hg Hg12.
  destruct (linear_size adreno (d_format d) (d_width d) (d_height d) (d_producer_usage d) (d_consumer_usage d)
    (0, 0) gp L Hw Hh Ew Eh Hp Hg Hg12) as (sz & aw & ah & E & D & Bw & Bh & N).
  destruct (ds_size _ _ _ _ Hd) as (sz' & aw' & ah' & E' & Es & Ewd & Eht).
  rewrite El in E'. change (s32 1) with 1 in E'. unfold new_BufferInfo in E. rewrite E in E'.
  injection E' as <- <- <-. pose proof D as ((? & ?) & (? & ?) & _).
  rewrite Ewd, Eht, (ds_format _ _ _ _ Hd). rewrite !swrap_small by (cbn; lia).
  do 3 (split; [done|]). rewrite Es. lia.
Qed.

(** C28: A buffer of a linear YUV format with even width and height of at most
    16384 and one layer, allocated by the manager and locked by the processor, can be
    used: the lock maps it, its colour space is ITU_R_601 and no other metadata is
    set, and, where the mapping lies below 2^64, the planes GetYUVPlaneInfo gives for
    it follow each other inside the memory that was allocated.  It is assumed that
    mmap of an open descriptor and the cache ioctls succeed, that a page is a power
    of two from 4096 to 65536 bytes and that the alignment the GPU asks for is a power
    of two up to 4096 pixels.  (With odd dimensions the planes need not fit, and with
    larger ones the 32-bit size wraps around.) *)
Theorem allocated_usable `{!MmapOk} d g p g1 gp prod cons : acc [] g ->
  AllocateBuffer fl adreno d 0 g = Ret (Allocated p, g1) -> linear_yuv (hal_format (d_format d)) = true ->
  0 < d_width d <= 16384 -> 0 < d_height d <= 16384 -> d_width d mod 2 = 0 -> d_height d mod 2 = 0 ->
  d_layer_count d = 1 -> pages_ok -> GetGpuPixelAlignment adreno = 2 ^ gp -> 0 <= gp <= 12 ->
  CpuCanAccess prod cons = true ->
  exists g2 h, LockBuffer p prod cons g1 = Ret (GRALLOC1_ERROR_NONE, g2) /\
    handles (world (sys g2)) !! p = Some h /\ base h <> 0 /\ is_Some (mapped (world (sys g2)) !! base h) /\
    (forall f, exists w', getMetaData p f (world (sys g2)) = Ret
       (if bool_decide (param_of f = UPDATE_COLOR_SPACE) then (0, Some (VColorSpace ITU_R_601))
        else (- EINVAL, None), w')) /\
    (forall z, 0 <= base h -> base h + size h < 2 ^ 64 -> exists i w',
       GetYUVPlaneInfo (Some adreno) p z (world (sys g2)) = Ret ((0, (i, snd z)), w') /\
       laid_out (base h) (planes (hal_format (d_format d)) (height h) i) (base h + size h)).
Proof.
  intros Ha E L Hw Hh Ew Eh El Hp Hg Hg12 Hc.
  destruct (AllocateBuffer_ok d 0 g p g1 Ha E) as (_ & Hp0 & Ha1 & (i1 & i2 & Eb) & h0 & am & bm & m & E0 & Hd & Hok & Ec & Hf).
  set (h1 := set_base_metadata am h0) in *.
  destruct (has_fd (fd h0) (sys g1)) as [bf Ebf].
  { intros r. pose proof (acc_owned g1 p _ h1 Ha1 Eb E0 r) as Q. destruct (ds_fds _ _ _ _ Hd) as [Hfd _].
    unfold owns, main_res, fd_res in Q. cbn in Q. rewrite (proj2 (Z.leb_le _ _) Hfd), !cnt_app in Q. lia. }
  assert (Hb1 : base h1 = 0) by (cbn; apply Hd).
  destruct (MapBuffer_open p h1 bf g1 E0 Hb1 Ebf) as (a & Ha0 & HF & Hm & EM). set (gm := with_sys _ g1) in EM.
  set (h2 := set_base a h1) in *.
  assert (Hh2 : base h2 = a) by (by destruct h1).
  assert (E2 : handles (world (sys gm)) !! p = Some h2) by (cbn; apply lookup_insert_eq).
  assert (EL : LockBuffer p prod cons g1 = LockBuffer p prod cons gm).
  { apply (LockBuffer_maps p (mkBuffer 1 i1 i2) h1); try done. exists h2. by rewrite Hh2. }
  rewrite EL, (LockBuffer_mapped p (mkBuffer 1 i1 i2) h2) by (try done; by rewrite Hh2).
  eexists _, (locked prod h2). split; [reflexivity|]. set (g2 := put _ _ _).
  assert (Hl : base (locked prod h2) = a /\ size (locked prod h2) = size h0 /\
    width (locked prod h2) = width h0 /\ height (locked prod h2) = height h0 /\
    format (locked prod h2) = d_format d /\ valid (locked prod h2) /\
    fd_metadata (locked prod h2) = fd_metadata h1 /\ base_metadata (locked prod h2) = base_metadata h1).
  { rewrite <- (ds_format _ _ _ _ Hd). pose proof (ds_valid _ _ _ _ Hd).
    unfold locked. by destruct (CpuCanWrite prod), h0. }
  destruct Hl as (L1 & L2 & L3 & L4 & L5 & L6 & L7 & L8).
  assert (E3 : handles (world (sys g2)) !! p = Some (locked prod h2)) by (cbn; apply lookup_insert_eq).
  assert (Hok2 : world_ok {[p]} (fun _ => bm) (world (sys g2))).
  { apply (world_ok_single_upd p bm (world (sys g1)) h1 (locked prod h2)); try done.
    intros x y Hx. cbn. rewrite lookup_insert_ne; [done|]. congruence. }
  split; [done|]. rewrite L1. split; [done|]. split; [exists bf; cbn; apply lookup_insert_eq|]. split.
  - intros f. destruct (getMetaData_ok {[p]} (fun _ => bm) _ p _ m f Hok2 ltac:(set_solver) E3 Ec)
      as (w' & x & Eg & _). exists w'. rewrite Eg, Hf. by case_bool_decide.
  - intros z Hz Ho. destruct (describes_linear d h0 gp Hd L Hw Hh Ew Eh El Hp Hg Hg12) as (D & _ & _ & N).
    rewrite (ds_format _ _ _ _ Hd) in N.
    destruct (GrProps.planes_laid_out {[p]} (fun _ => bm) adreno (world (sys g2)) p (locked prod h2) m z
      (size (locked prod h2))) as (i & w' & Ei & Hi); rewrite ?L1, ?L2, ?L3, ?L4, ?L5, ?Hf in *; try done; [set_solver|].
    by exists i, w'.
Qed.

(** ** Error paths *)

(** The memory AllocateBuffer asks for: the buffer and its metadata. *)
Definition main_request (d : BufferDescriptor) (size : Z) : AllocData :=
  mkAllocData (-1) (-1) size (GetDataAlignment (d_format d) (d_producer_usage d) (d_consumer_usage d))
    (UseUncached (d_producer_usage d) (d_consumer_usage d)) 0 0 0.
Definition meta_request : AllocData :=
  mkAllocData (-1) (-1) (ALIGN_uint (u32 sizeof_MetaData_t) (u32 getpagesize)) (u32 getpagesize) false 0 0 0.

(** The GPU can use the buffer. *)
Definition gpu_accepts (d : BufferDescriptor) : outcome bool :=
  if negb (has (d_producer_usage d) GRALLOC1_CONSUMER_USAGE_PRIVATE_SECURE_DISPLAY)
  then IsGPUSupportedHwBuffer (Some adreno) (d_producer_usage d) else Ret true.
Definition requested (d : BufferDescriptor) : BufferInfo :=
  mkBufferInfo (d_width d) (d_height d) (d_format d) (s32 (d_layer_count d)) (d_producer_usage d)
    (d_consumer_usage d).

(** When the memory of a buffer was allocated and that of its metadata was
    not, AllocateBuffer returns the error and forgets the first: no handle names
    its descriptor and its ion reference, which stay with the process for ever. *)
Lemma metadata_failure_leaks d sz g sz0 aw ah d1 s1 e d2 s2 :
  gpu_accepts d = Ret true ->
  GetBufferSizeAndDimensions (Some adreno) (requested d) (0, 0) = Ret (sz0, aw, ah) ->
  AllocateMem fl (main_request d (Z.max sz sz0)) (d_producer_usage d) (d_consumer_usage d) (sys g) = Ret ((0, d1), s1) ->
  AllocateMem fl meta_request GRALLOC1_PRODUCER_USAGE_NONE GRALLOC1_CONSUMER_USAGE_NONE s1 = Ret ((e, d2), s2) ->
  e <> 0 ->
  AllocateBuffer fl adreno d sz g = Ret (AllocFailed e, with_sys s2 g) /\
  handles (world s2) = handles (world (sys g)) /\
  forall r, (avail s2 r = avail (sys g) r + cnt r [Ion (ad_ion_handle d1); Fd (ad_fd d1)])%nat.
Proof.
  intros G S E1 E2 He. split; [|split].
  - unfold AllocateBuffer. cbv zeta. unfold gpu_accepts in G.
    rewrite (st_bind_Ret _ _ _ true g); [|destruct (negb _); [by rewrite G|done]]. cbn [negb].
    fold (requested d). rewrite S, (st_bind_Ret _ _ _ _ _ eq_refl). cbv beta iota.
    replace (if sz0 <=? sz then sz else sz0) with (Z.max sz sz0) by (destruct (Z.leb_spec sz0 sz); lia).
    rewrite (st_bind_Ret _ _ _ _ _ (in_sys_Ret _ _ _ _ E1)). cbn [negb Z.eqb].
    rewrite (st_bind_Ret _ _ _ _ _ (in_sys_Ret _ (with_sys s1 g) _ _ E2)).
    by rewrite (proj2 (Z.eqb_neq _ _) He).
  - apply AllocateMem_inv in E1 as (Hh1 & _). apply AllocateMem_inv in E2 as (Hh2 & _). congruence.
  - apply AllocateMem_inv in E1 as (_ & _ & [(? & _)|(_ & A & _)]); [lia|].
    apply AllocateMem_inv in E2 as (_ & _ & [(_ & M2)|(? & _)]); [|done].
    destruct A as (F1 & I1 & M1 & _). unfold ion_res, fd_res in M1.
    rewrite (proj2 (Z.leb_le _ _) F1), (proj2 (Z.ltb_lt _ _) I1) in M1. cbn [app] in M1.
    intros r. specialize (M1 r). specialize (M2 r). rewrite cnt_nil in *. lia.
Qed.

Lemma MapBuffer_fails p h g : handles (world (sys g)) !! p = Some h -> base h = 0 ->
  mmap_addr (world (sys g)) (fd h) = None ->
  MapBuffer p g = Ret (GRALLOC1_ERROR_BAD_HANDLE, put p (set_base MAP_FAILED h) g).
Proof.
  intros Eh Hb Em. unfold MapBuffer. rewrite (st_bind_Ret _ _ _ _ _ (upd_handle_Ret p h _ g Eh)).
  assert (set_base 0 h = h) as -> by (destruct h; cbn in Hb; by subst).
  rewrite put_id by done. rewrite (st_bind_Ret _ _ _ _ _ (handle_Ret p h g Eh)).
  assert (EI : in_sys (IonAlloc_MapBuffer (fd h)) g = Ret ((- k_mmap_errno (sys g), MAP_FAILED), g)).
  { unfold in_sys, IonAlloc_MapBuffer, in_world, mmap, mbind, st_bind. rewrite Em.
    destruct (fd_buf _ !! fd h); by destruct g as [[[]]]. }
  rewrite (st_bind_Ret _ _ _ _ _ EI). cbv beta iota.
  rewrite (st_bind_Ret _ _ _ _ _ (upd_handle_Ret p h _ g Eh)).
  pose proof (k_mmap_errno_ok (sys g)). by rewrite (proj2 (Z.eqb_neq (- k_mmap_errno (sys g)) 0)) by lia.
Qed.

(** A lock whose mapping fails returns an error but leaves MAP_FAILED as the
    base address of the buffer.  The next lock finds a base address, succeeds and
    hands MAP_FAILED to the client; and the last release reports success while
    the unmapping fails, so that the metadata's descriptor, mapping and ion
    reference are never given back. *)
Lemma map_failure_sticks p b h prod cons g : acc [] g -> handles_map_ g !! p = Some b ->
  handles (world (sys g)) !! p = Some h -> base h = 0 -> mmap_addr (world (sys g)) (fd h) = None ->
  CpuCanAccess prod cons = true ->
  exists g1, LockBuffer p prod cons g = Ret (GRALLOC1_ERROR_BAD_HANDLE, g1) /\
    handles (world (sys g1)) !! p = Some (set_base MAP_FAILED h) /\
    (exists g2 h2, LockBuffer p prod cons g1 = Ret (GRALLOC1_ERROR_NONE, g2) /\
       handles (world (sys g2)) !! p = Some h2 /\ base h2 = MAP_FAILED) /\
    (ref_count b = 1 -> exists s,
       ReleaseBuffer p g1 = Ret (GRALLOC1_ERROR_NONE, set_handles_map (delete p (handles_map_ g)) (with_sys s g1)) /\
       (forall r, avail (sys g1) r = avail s r + cnt r (main_res h b))%nat /\
       has_res (meta_res h b) s /\ handles (world s) !! p = Some (set_base MAP_FAILED h)).
Proof.
  intros Ha Eb Eh Hb Em Hc. set (h1 := set_base MAP_FAILED h). set (g1 := put p h1 g).
  assert (E1 : handles (world (sys g1)) !! p = Some h1) by (cbn; apply lookup_insert_eq).
  pose proof (MapBuffer_fails p h g Eh Hb Em) as EM. fold h1 g1 in EM.
  assert (EL : LockBuffer p prod cons g = Ret (GRALLOC1_ERROR_BAD_HANDLE, g1)).
  { unfold LockBuffer. rewrite Hc. cbn [negb]. rewrite (st_bind_Ret _ _ _ _ _ eq_refl), Eb.
    rewrite (st_bind_Ret _ _ _ _ _ (handle_Ret p h g Eh)), Hb. cbn [Z.eqb].
    rewrite (st_bind_Ret _ _ _ _ _ EM), (st_bind_Ret _ _ _ _ _ (handle_Ret p h1 g1 E1)). done. }
  exists g1. split; [done|]. split; [done|].
  assert (Hb1 : base h1 = MAP_FAILED) by (by destruct h).
  split.
  - eexists _, (locked prod h1).
    split; [apply (LockBuffer_mapped p b h1 prod cons g1 Hc Eb E1); by rewrite Hb1|].
    split; [cbn; apply lookup_insert_eq|]. unfold locked. by destruct (CpuCanWrite prod), h.
  - intros Hn. pose proof (LockBuffer_safe [] p prod cons _ _ _ EL Ha) as Ha1.
    destruct (acc_registered _ _ Ha1 p b Eb) as (Hp & Hr & h0 & E0 & Hv & Hm).
    assert (h0 = h1) as -> by congruence.
    rewrite (release_last p b g1 Eb Hn). set (g2 := set_handles_map _ g1). set (b' := mkBuffer _ _ _).
    assert (Ho : has_res (owns h1 b') (sys g2)) by exact (acc_owned g1 p b h1 Ha1 Eb E1).
    destruct (FreeBuffer_exact [] p h1 b' g2) as (s & E & Ms & Hh); try done; [by rewrite app_nil_r|].
    rewrite (proj2 (Z.eqb_eq _ _) Hb1) in E, Ms, Hh. rewrite (st_bind_Ret _ _ _ _ _ E).
    assert (EX : main_res h1 b' = main_res h b /\ meta_res h1 b' = meta_res h b).
    { destruct h. cbn in Hb. subst. done. }
    destruct EX as [EX1 EX2]. exists s. split; [done|]. rewrite <- EX1, <- EX2. split; [|split].
    + intros r. specialize (Ms r). rewrite cnt_nil in Ms. change (sys g2) with (sys g1) in Ms. lia.
    + unfold owns in Ho. exact (has_res_moves _ _ _ _ _ Ms Ho).
    + by rewrite Hh.
Qed.
End Reachable.

(** ** Sharing one buffer *)
Section Sharing.
Context `{Platform} `{!AllocPlatform} (adreno : AdrenoMemInfo).

(** The reference: one heap for all, and the first of the largest. *)
Definition same_heap (ds : list BufferDescriptor) : bool :=
  match ds with
  | [] => true
  | d :: ds => forallb (fun d' => bool_decide (descriptor_heap d' = descriptor_heap d)) ds
  end.
Definition largest (sizes : list Z) : Z := foldr Z.max 0 sizes.
Fixpoint first_index (x i : Z) (l : list Z) : Z :=
  match l with
  | [] => -1
  | y :: l => if y =? x then i else first_index x (i + 1) l
  end.
Definition argmax (sizes : list Z) : Z :=
  if largest sizes =? 0 then -1 else first_index (largest sizes) 0 sizes.

Lemma largest_nonneg l : 0 <= largest l.
Proof. unfold largest. induction l as [|x l IH]; cbn [foldr]; lia. Qed.

(** The loop with the maximum so far, [mi] its index. *)
Fixpoint max_loop (i mi ms : Z) (l : list Z) : Z :=
  match l with
  | [] => mi
  | x :: l => if ms <? x then max_loop (i + 1) i x l else max_loop (i + 1) mi ms l
  end.

Lemma max_loop_argmax l : forall i mi ms, 0 <= ms ->
  max_loop i mi ms l = if largest l <=? ms then mi else first_index (largest l) i l.
Proof.
  induction l as [|x l IH]; intros i mi ms Hm; cbn [max_loop largest foldr first_index];
    [by rewrite (proj2 (Z.leb_le 0 ms))|]. fold (largest l).
  destruct (Z.ltb_spec ms x) as [Hx|Hx]; rewrite IH by lia.
  - destruct (Z.leb_spec (largest l) x) as [Hl|Hl].
    + replace (Z.max x (largest l)) with x by lia. destruct (Z.leb_spec x ms); [lia|]. by rewrite Z.eqb_refl.
    + replace (Z.max x (largest l)) with (largest l) by lia.
      destruct (Z.leb_spec (largest l) ms), (Z.eqb_spec x (largest l)); lia.
  - destruct (Z.leb_spec (largest l) ms) as [Hl|Hl].
    + destruct (Z.leb_spec (Z.max x (largest l)) ms); [done|lia].
    + replace (Z.max x (largest l)) with (largest l) by lia.
      destruct (Z.leb_spec (largest l) ms), (Z.eqb_spec x (largest l)); lia.
Qed.

Lemma sharing_loop_ok ds sizes : Forall2 (fun d s => descriptor_size adreno d = Ret s) ds sizes ->
  forall i hi mi ms, exists mi',
    sharing_loop adreno i (Some hi) mi ms ds =
      Ret (forallb (fun d' => bool_decide (descriptor_heap d' = hi)) ds, mi') /\
    (forallb (fun d' => bool_decide (descriptor_heap d' = hi)) ds = true -> mi' = max_loop i mi ms sizes).
Proof.
  induction 1 as [|d s ds sizes Es _ IH]; intros i hi mi ms; cbn [sharing_loop forallb max_loop]; [by exists mi|].
  case_bool_decide as Eh; cbn [negb andb]; [|by exists mi].
  rewrite Eh, Es, bind_ret. destruct (ms <? s); apply IH.
Qed.

(** CheckForBufferSharing decides whether one buffer serves all descriptors:
    exactly when they all need the same heap with the same flags, and then the
    index it gives is that of the first of the largest ones (-1 when there is
    none of positive size). *)
Lemma sharing_reference ds sizes : Forall2 (fun d s => descriptor_size adreno d = Ret s) ds sizes ->
  exists mi, CheckForBufferSharing adreno ds = Ret (same_heap ds, mi) /\
    (same_heap ds = true -> mi = argmax sizes).
Proof.
  unfold CheckForBufferSharing, argmax.
  assert (HX : max_loop 0 (-1) 0 sizes = if largest sizes =? 0 then -1 else first_index (largest sizes) 0 sizes).
  { rewrite max_loop_argmax by lia. pose proof (largest_nonneg sizes).
    by destruct (Z.leb_spec (largest sizes) 0), (Z.eqb_spec (largest sizes) 0); try lia. }
  rewrite <- HX. intros [|d s ds' sizes' Es Hs]; [by exists (-1)|].
  cbn [sharing_loop same_heap max_loop]. rewrite Es, bind_ret.
  destruct (0 <? s); apply (sharing_loop_ok ds' sizes' Hs).
Qed.
End Sharing.

(** A kernel that takes the smallest number above all in use, and runs out of
    memory after [limit] ion handles. *)
Module Sample.
Definition above (l : list Z) : Z := 1 + foldr Z.max 0 l.
Lemma above_gt l x : x ∈ l -> x < above l.
Proof.
  unfold above. induction l as [|y l IH]; intros Hx; [by apply elem_of_nil in Hx|]. cbn [foldr].
  apply elem_of_cons in Hx as [->|Hx]; [lia|]. specialize (IH Hx). lia.
Qed.
Lemma above_pos l : 0 < above l.
Proof. unfold above. induction l; cbn [foldr]; lia. Qed.

Definition keys {A} (m : gmap Z A) : list Z := map fst (map_to_list m).
Definition values (m : gmap Z Z) : list Z := map snd (map_to_list m).
Lemma above_keys {A} (m : gmap Z A) x : above (keys m) <= x -> m !! x = None.
Proof.
  intros Hx. destruct (m !! x) as [a|] eqn:E; [|done]. apply elem_of_map_to_list in E.
  assert (x < above (keys m)); [|lia]. apply above_gt, list_elem_of_fmap. by exists (x, a).
Qed.
Lemma above_values (m : gmap Z Z) l k : m !! k <> Some (above (values m ++ l)) /\ m !! k <> Some (above (l ++ values m)).
Proof.
  split; intros E%elem_of_map_to_list.
  - assert (above (values m ++ l) < above (values m ++ l)); [|lia]. apply above_gt, elem_of_app. left.
    apply list_elem_of_fmap. by exists (k, above (values m ++ l)).
  - assert (above (l ++ values m) < above (l ++ values m)); [|lia]. apply above_gt, elem_of_app. right.
    apply list_elem_of_fmap. by exists (k, above (l ++ values m)).
Qed.

Definition kernel (limit : nat) : Kernel := {|
  k_open _ := 3;
  k_alloc s _ _ _ _ := if (map_size (ion_refs s) <? limit)%nat then inr (above (keys (ion_refs s))) else inl 12;
  k_share s _ := inr (above (keys (fd_buf (world s))), above (values (fd_buf (world s)) ++ values (mapped (world s))));
  k_import s _ := inr (above (keys (ion_refs s)));
  k_custom _ _ _ := None;
  k_mmap_errno _ := 12;
  k_munmap _ a := if a =? MAP_FAILED then Some 22 else None;
  k_dup s fd := match fd_buf (world s) !! fd with Some _ => Some (above (keys (fd_buf (world s)))) | None => None end;
  k_seek_end _ _ := 4096;
  k_new s := above (keys (handles (world s)));
  k_garbage _ := MetaProps.Sample.handle 0;
  k_meta _ := MetaProps.Sample.meta
|}.
Lemma kernel_laws limit : KernelLaws (H := kernel limit).
Proof.
  split; cbn; intros.
  - case_match; case_match; simplify_eq; [lia|]. split; [apply above_pos|]. by apply above_keys.
  - split; [pose proof (above_pos (keys (fd_buf (world s)))); lia|]. split; [by apply above_keys|].
    split; intros; [apply above_values|apply above_values].
  - apply above_pos.
  - done.
  - lia.
  - by rewrite (proj2 (Z.eqb_neq _ _)).
  - exists 22. rewrite Z.eqb_refl. split; [done|lia].
  - case_match; simplify_eq.
    split; [pose proof (above_pos (keys (fd_buf (world s)))); lia|]. split; [by apply above_keys|eauto].
  - split; [pose proof (above_pos (keys (handles (world s)))); lia|]. by apply above_keys.
  - done.
Qed.

Definition mmap_above : Mmap := fun w _ =>
  let a := above (keys (mapped w)) in Some (if a =? MAP_FAILED then a + 1 else a).
Lemma mmap_above_fresh : MmapFresh (H := mmap_above).
Proof.
  intros w fd a [= <-]. pose proof (above_pos (keys (mapped w))).
  destruct (Z.eqb_spec (above (keys (mapped w))) MAP_FAILED) as [E|E]; split; try lia; split; try lia;
    apply above_keys; lia.
Qed.
Lemma mmap_above_ok : MmapOk (H := mmap_above).
Proof. intros w fd b _. eexists. split; [reflexivity|]. by destruct (mmap_above_fresh w fd _ eq_refl) as (? & _ & ?). Qed.
(** No mapping can be made. *)
Definition no_mmap : Mmap := fun _ _ => None.
Lemma no_mmap_fresh : MmapFresh (H := no_mmap).
Proof. by intros w fd a. Qed.

#[global] Instance alloc_platform : AllocPlatform := {|
  HAL_PIXEL_FORMAT_IMPLEMENTATION_DEFINED := 0x22; HAL_PIXEL_FORMAT_YCbCr_420_888 := 0x23;
  code_YCrCb_420_SP := 0x11; code_RGBA_8888 := 1;
  GRALLOC1_PRODUCER_USAGE_PRIVATE_1 := Z.shiftl 1 29; GRALLOC1_PRODUCER_USAGE_PRIVATE_2 := Z.shiftl 1 30;
  GRALLOC1_PRODUCER_USAGE_PRIVATE_3 := Z.shiftl 1 31; GRALLOC1_PRODUCER_USAGE_PRIVATE_5 := Z.shiftl 1 33;
  GRALLOC1_PRODUCER_USAGE_CPU_READ_OFTEN := 6; GRALLOC1_PRODUCER_USAGE_CPU_WRITE_OFTEN := 0x60;
  GRALLOC1_PRODUCER_USAGE_SENSOR_DIRECT_DATA := Z.shiftl 1 23;
  GRALLOC1_CONSUMER_USAGE_VIDEO_ENCODER := Z.shiftl 1 16; GRALLOC1_CONSUMER_USAGE_CAMERA := Z.shiftl 1 18;
  GRALLOC1_CONSUMER_USAGE_HWCOMPOSER := Z.shiftl 1 11; GRALLOC1_CONSUMER_USAGE_GPU_DATA_BUFFER := Z.shiftl 1 24;
  GRALLOC1_CONSUMER_USAGE_CPU_READ_OFTEN := 6; GRALLOC1_CONSUMER_USAGE_CLIENT_TARGET := Z.shiftl 1 12;
  ION_HEAP b := Z.shiftl 1 b;
  ION_SECURE_HEAP_ID := 9; ION_SECURE_DISPLAY_HEAP_ID := 10; ION_CP_MM_HEAP_ID := 8; ION_SYSTEM_HEAP_ID := 25;
  ION_CAMERA_HEAP_ID := 20; ION_ADSP_HEAP_ID := 22;
  ION_SECURE := Z.shiftl 1 31; ION_FLAG_CP_PIXEL := Z.shiftl 1 18; ION_FLAG_CP_SEC_DISPLAY := Z.shiftl 1 25;
  ION_FLAG_CP_CAMERA := Z.shiftl 1 21; ION_FLAG_CP_CAMERA_PREVIEW := Z.shiftl 1 27;
  ION_FLAG_ALLOW_NON_CONTIG := Z.shiftl 1 26;
  GRALLOC1_PRODUCER_USAGE_NONE := 0; GRALLOC1_CONSUMER_USAGE_NONE := 0;
  sizeof_MetaData_t := 3000; USE_SECURE_HEAP := true; USE_YCRCB_CAMERA_PREVIEW := false;
  USE_YCRCB_CAMERA_PREVIEW_VENUS := false
|}.
#[global] Existing Instances GrProps.Sample.platform MetaProps.Sample.abi.

Definition empty : Sys := mkSys (mkWorld ∅ ∅ ∅ ∅) ∅ (-1) [].
(** A 640 by 480 buffer that the processor often reads and writes. *)
Definition descriptor (i : Z) : BufferDescriptor := mkDescriptor 640 480 0x109 1 0x66 6 i.
Definition after {A} (m : outcome (A * Mgr)) (g : Mgr) : Mgr := match m with Ret (_, g) => g | _ => g end.

(** A manager with one descriptor, then with one buffer, then locked. *)
Definition dims (d : BufferDescriptor) : BufferDescriptor := descriptor (d_id d).
#[local] Existing Instances mmap_above mmap_above_fresh mmap_above_ok.
#[local] Instance big : Kernel := kernel 100.
#[local] Instance big_laws : KernelLaws := kernel_laws 100.
Definition adreno : AdrenoMemInfo := GrProps.Sample.adreno.
Definition g0 : Mgr := mkMgr (mkSys (mkWorld ∅ ∅ ∅ ∅) ∅ 3 []) ∅ ∅ 0 7 false.
Definition g1 : Mgr := after (CreateBufferDescriptor g0) g0.
Definition g2 : Mgr := after (CallBufferDescriptorFunction 7 dims g1) g1.
Definition g3 : Mgr := after (AllocateBuffers 0 adreno [7] false g2) g2.
Definition g4 : Mgr := after (LockBuffer 1 0x66 6 g3) g3.

Lemma cpu : CpuCanAccess 0x66 6 = true.
Proof. reflexivity. Qed.
Lemma caches s c i : k_custom s c i = None.
Proof. reflexivity. Qed.
Lemma start : new_BufferManager (fun _ => ""%string) 7 empty = Ret g0.
Proof. reflexivity. Qed.
Lemma reach3 : rtc (step 0 adreno) g0 g3.
Proof.
  apply (rtc_l _ g0 g1); [apply (step_create 0 adreno _ (GRALLOC1_ERROR_NONE, 7)); vm_compute; reflexivity|].
  apply (rtc_l _ g1 g2); [apply (step_set 0 adreno 7 dims _ GRALLOC1_ERROR_NONE); vm_compute; reflexivity|].
  apply (rtc_l _ g2 g3); [|apply rtc_refl].
  apply (step_allocate 0 adreno [7] false _ (GRALLOC1_ERROR_NONE, [1])); vm_compute; reflexivity.
Qed.
Lemma acc3 : acc [] g3.
Proof.
  pose proof (new_manager_acc (fun _ => ""%string) 7 empty g0 start) as Ha. revert Ha.
  generalize reach3. generalize g0. intros g Hs. induction Hs as [g|g g' g'' Hs _ IH]; [done|].
  intros Ha. apply IH. by apply (step_safe 0 adreno g g' Hs).
Qed.
End Sample.

Section Witnesses.
#[local] Existing Instances Sample.mmap_above Sample.mmap_above_fresh Sample.mmap_above_ok Sample.big Sample.big_laws.

(** One buffer was allocated: its entry, and both descriptors are open. *)
Lemma resources_accounted_witness : acc [] Sample.g3 /\
  handles_map_ Sample.g3 !! 1 = Some (mkBuffer 1 1 2) /\ avail (sys Sample.g3) (Fd 2) = 1%nat.
Proof.
  split; [|split; vm_compute; reflexivity].
  exact (proj1 (resources_accounted 0 Sample.adreno (fun _ => ""%string) 7 Sample.empty Sample.g0 Sample.g3
    Sample.start Sample.reach3)).
Defined.

(** Its release closes the descriptor of the metadata. *)
Lemma release_exact_witness : exists s, ReleaseBuffer 1 Sample.g3 =
  Ret (GRALLOC1_ERROR_NONE, set_handles_map (delete 1 (handles_map_ Sample.g3)) (with_sys s Sample.g3)) /\
  avail s (Fd 2) = 0%nat.
Proof.
  assert (E : exists h, handles (world (sys Sample.g3)) !! 1 = Some h /\
    cnt (Fd 2) (given_back h (mkBuffer 1 1 2)) = 1%nat) by (eexists; vm_compute; repeat split; reflexivity).
  destruct E as (h & Eh & Hc).
  destruct (proj2 (release_exact 1 (mkBuffer 1 1 2) h Sample.g3 Sample.acc3 eq_refl Eh) eq_refl) as (s & E & Hr & _).
  exists s. split; [exact E|]. specialize (Hr (Fd 2)). rewrite Hc in Hr.
  assert (A : avail (sys Sample.g3) (Fd 2) = 1%nat) by (vm_compute; reflexivity). lia.
Defined.

(** A lock for reading and writing of a buffer only the processor writes: the
    cache is cleaned once. *)
Lemma lock_unlock_caches_witness : exists g1 g2, LockBuffer 1 0x66 6 Sample.g4 = Ret (GRALLOC1_ERROR_NONE, g1) /\
  UnlockBuffer 1 g1 = Ret (GRALLOC1_ERROR_NONE, g2) /\ cache_ops (sys g2) = [(ION_IOC_CLEAN_CACHES, 1)].
Proof.
  assert (E : exists h, handles (world (sys Sample.g4)) !! 1 = Some h /\ base h = 2 /\
    must_invalidate h 6 = false) by (eexists; vm_compute; repeat split; reflexivity).
  destruct E as (h & Eh & Hb & Hi).
  destruct (lock_unlock_caches Sample.caches 1 (mkBuffer 1 1 2) h 0x66 6 Sample.g4 Sample.cpu eq_refl Eh
    ltac:(rewrite Hb; discriminate)) as (g1 & E1 & E2).
  eexists g1, _. split; [exact E1|]. split; [exact E2|]. rewrite Hi. vm_compute. reflexivity.
Defined.

(** A 640 by 480 buffer, locked for writing: mapped, and with a colour space. *)
Lemma allocated_usable_witness : exists p g1 g2 h, AllocateBuffer 0 Sample.adreno (Sample.descriptor 7) 0 Sample.g3
    = Ret (Allocated p, g1) /\ LockBuffer p 0x66 6 g1 = Ret (GRALLOC1_ERROR_NONE, g2) /\
  handles (world (sys g2)) !! p = Some h /\ base h <> 0 /\
  exists w', getMetaData p GET_COLOR_SPACE (world (sys g2)) = Ret ((0, Some (VColorSpace ITU_R_601)), w').
Proof.
  assert (E : exists g1, AllocateBuffer 0 Sample.adreno (Sample.descriptor 7) 0 Sample.g3 = Ret (Allocated 2, g1))
    by (eexists; vm_compute; reflexivity).
  destruct E as (g1 & E).
  destruct (allocated_usable 0 Sample.adreno Sample.caches (Sample.descriptor 7) Sample.g3 2 g1 0 0x66 6
    Sample.acc3 E eq_refl ltac:(cbn; lia) ltac:(cbn; lia) eq_refl eq_refl eq_refl GrProps.Sample.pages
    eq_refl ltac:(lia) Sample.cpu) as (g2 & h & EL & Eh & Hb & _ & Hf & _).
  exists 2, g1, g2, h. split; [exact E|]. split; [exact EL|]. split; [exact Eh|]. split; [exact Hb|].
  exact (Hf GET_COLOR_SPACE).
Defined.

(** Two buffers of one heap: the second is larger; a protected one does not share. *)
Lemma sharing_reference_witness :
  let small := mkDescriptor 320 240 0x109 1 0x66 6 1 in let large := mkDescriptor 640 480 0x109 1 0x66 6 2 in
  let secure := mkDescriptor 640 480 0x109 1 (Z.shiftl 1 14) 0 3 in
  CheckForBufferSharing Sample.adreno [small; large] = Ret (true, 1) /\
  exists i, CheckForBufferSharing Sample.adreno [small; secure] = Ret (false, i).
Proof.
  intros small large secure. split.
  - destruct (sharing_reference Sample.adreno [small; large] [118784; 462848]) as (i & E & Hi).
    + constructor 2; [vm_compute; reflexivity|]. constructor 2; [vm_compute; reflexivity|]. constructor 1.
    + rewrite E. rewrite Hi; reflexivity.
  - destruct (sharing_reference Sample.adreno [small; secure] [118784; 462848]) as (i & E & Hi).
    + constructor 2; [vm_compute; reflexivity|]. constructor 2; [vm_compute; reflexivity|]. constructor 1.
    + exists i. rewrite E. reflexivity.
Defined.
End Witnesses.

Section FailureWitnesses.
#[local] Existing Instances Sample.mmap_above Sample.mmap_above_fresh.

(** A kernel with room for one ion handle only: the buffer's memory is there, its
    metadata's is not, and descriptor 1 stays open. *)
Lemma metadata_failure_leaks_witness : let K := Sample.kernel 1 in exists s,
  AllocateBuffer 0 Sample.adreno (Sample.descriptor 7) 0 Sample.g0 = Ret (AllocFailed (-12), with_sys s Sample.g0) /\
  avail s (Fd 1) = 1%nat /\ avail s (Ion 1) = 1%nat.
Proof.
  intros K. pose proof (Sample.kernel_laws 1) as L.
  assert (E1 : exists d1 s1, AllocateMem 0 (main_request (Sample.descriptor 7) (Z.max 0 462848)) 0x66 6 (sys Sample.g0)
    = Ret ((0, d1), s1) /\ ad_fd d1 = 1 /\ ad_ion_handle d1 = 1 /\
    exists d2, AllocateMem 0 meta_request 0 0 s1 = Ret ((-12, d2), s1))
    by (do 2 eexists; split; [vm_compute; reflexivity|]; split; [reflexivity|]; split; [reflexivity|];
        eexists; vm_compute; reflexivity).
  destruct E1 as (d1 & s1 & E1 & F1 & I1 & d2 & E2).
  assert (G : gpu_accepts Sample.adreno (Sample.descriptor 7) = Ret true) by (vm_compute; reflexivity).
  assert (S : GetBufferSizeAndDimensions (Some Sample.adreno) (requested (Sample.descriptor 7)) (0, 0) =
    Ret (462848, 640, 480)) by (vm_compute; reflexivity).
  destruct (metadata_failure_leaks 0 Sample.adreno (Sample.descriptor 7) 0 Sample.g0 462848 640 480 d1 s1 (-12) d2 s1
    G S E1 E2 ltac:(discriminate)) as (E & _ & Hr).
  exists s1. split; [exact E|]. rewrite (Hr (Fd 1)), (Hr (Ion 1)), F1, I1. split; vm_compute; reflexivity.
Defined.
End FailureWitnesses.

Section MapWitness.
#[local] Existing Instances Sample.no_mmap Sample.no_mmap_fresh Sample.big Sample.big_laws.

(** The same buffer in a process that cannot map memory. *)
Lemma map_failure_sticks_witness : exists g g1 g2 h2,
  AllocateBuffer 0 Sample.adreno (Sample.descriptor 7) 0 Sample.g0 = Ret (Allocated 1, g) /\
  LockBuffer 1 0x66 6 g = Ret (GRALLOC1_ERROR_BAD_HANDLE, g1) /\
  LockBuffer 1 0x66 6 g1 = Ret (GRALLOC1_ERROR_NONE, g2) /\
  handles (world (sys g2)) !! 1 = Some h2 /\ base h2 = MAP_FAILED.
Proof.
  assert (E : exists g h, AllocateBuffer 0 Sample.adreno (Sample.descriptor 7) 0 Sample.g0 = Ret (Allocated 1, g) /\
    handles_map_ g !! 1 = Some (mkBuffer 1 1 2) /\ handles (world (sys g)) !! 1 = Some h /\ base h = 0)
    by (do 2 eexists; split; [vm_compute; reflexivity|]; split; [reflexivity|]; split; reflexivity).
  destruct E as (g & h & E & Eb & Eh & Hb).
  assert (Ha : acc [] g) by exact (AllocateBuffer_safe 0 Sample.adreno [] (Sample.descriptor 7) 0 _ _ _ E
    (new_manager_acc (fun _ => ""%string) 7 Sample.empty Sample.g0 Sample.start)).
  destruct (map_failure_sticks Sample.caches 1 (mkBuffer 1 1 2) h 0x66 6 g Ha Eb Eh Hb eq_refl Sample.cpu)
    as (g1 & E1 & _ & (g2 & h2 & E2 & Eh2 & Hb2) & _).
  exists g, g1, g2, h2. split; [exact E|]. split; [exact E1|]. split; [exact E2|]. split; [exact Eh2|exact Hb2].
Defined.
End MapWitness.
End BufProps.
