(* ===== verification/Strategy.v ===== *)
(** The composition strategy of a display:
    src/hardware/qcom-caf/display/sdm/libs/core/strategy.cpp.

    The layers of a frame are an object of the display that its strategy keeps a
    pointer to: [Frame]s live in a memory by address.  The extension library, which
    may be missing, is the class [Extension]: it has a state of its own and gives
    out pointers to strategy and partial update objects. *)
From S2P Require Import Prelude Rect ResourceDefault.
#[local] Open Scope Z_scope.

Module Strategy.
Import Float32 Rect Formats ResourceDefault.

#[global] Instance DisplayType_eq_dec : EqDecision DisplayType.
Proof. solve_decision. Defined.
#[global] Instance DisplayType_countable : Countable DisplayType.
Proof.
  refine (inj_countable' (fun t => match t with kPrimary => 0 | kHDMI => 1 | kVirtual => 2 | kDisplayMax => 3 end%nat)
    (fun n => match n with 0 => kPrimary | 1 => kHDMI | 2 => kVirtual | _ => kDisplayMax end%nat) _).
  by intros [].
Defined.

(** LayerComposition in full. *)
Inductive Composition :=
| kCompositionGPU | kCompositionGPUS3D | kCompositionSDE | kCompositionHWCursor | kCompositionHybrid
| kCompositionBlit | CompositionGPUTarget | kCompositionBlitTarget.
#[global] Instance Composition_eq_dec : EqDecision Composition.
Proof. solve_decision. Defined.

(** The parts of a LayerBuffer that a commit passes on: the first plane, the size,
    the fences and the 3D format. *)
Record LayerBuffer := mkBuffer {
  plane_fd : Z; plane_offset : Z; plane_stride : Z; buffer_size : Z;
  acquire_fence_fd : Z; release_fence_fd : Z; s3d_format : Z
}.
Definition no_buffer : LayerBuffer := mkBuffer (-1) 0 0 0 (-1) (-1) 0.

(** A layer of the stack: what the resource manager sees of it, the decision, the
    request, the flags and the buffer. *)
Record StackLayer := mkSLayer {
  sl_src : LayerRect; sl_dst : LayerRect; sl_format : LayerBufferFormat; sl_secure : bool; rotation : float;
  sl_composition : Composition; request_flags : Z; cursor : bool; skip : bool; input_buffer : LayerBuffer
}.
Definition set_composition (c : Composition) (l : StackLayer) : StackLayer :=
  mkSLayer (sl_src l) (sl_dst l) (sl_format l) (sl_secure l) (rotation l) c (request_flags l) (cursor l) (skip l) (input_buffer l).
Definition reset_request (l : StackLayer) : StackLayer :=
  mkSLayer (sl_src l) (sl_dst l) (sl_format l) (sl_secure l) (rotation l) (sl_composition l) 0 (cursor l) (skip l) (input_buffer l).
Definition set_dst (r : LayerRect) (l : StackLayer) : StackLayer :=
  mkSLayer (sl_src l) r (sl_format l) (sl_secure l) (rotation l) (sl_composition l) (request_flags l) (cursor l) (skip l)
    (input_buffer l).
Definition set_skip (l : StackLayer) : StackLayer :=
  mkSLayer (sl_src l) (sl_dst l) (sl_format l) (sl_secure l) (rotation l) (sl_composition l) (request_flags l) (cursor l) true
    (input_buffer l).
Definition set_buffer (b : LayerBuffer) (l : StackLayer) : StackLayer :=
  mkSLayer (sl_src l) (sl_dst l) (sl_format l) (sl_secure l) (rotation l) (sl_composition l) (request_flags l) (cursor l) (skip l) b.

(** LayerStack: the layers and the flags that are looked at. *)
Record StackFlags := mkFlags {
  skip_present : bool; secure_present : bool; animating : bool; attributes_changed : bool; cursor_present : bool;
  single_buffered_layer_present : bool; hdr_present : bool; s3d_mode_present : bool
}.
Record LayerStack := mkStack { layers : list StackLayer; flags : StackFlags }.

Definition kMaxSDELayers : Z := 16.

(** HWLayers with its HWLayersInfo and the stack it points to. *)
Record Frame := mkFrame {
  stack : LayerStack;
  app_layer_count : Z;
  gpu_target_index : Z;
  index : list Z;
  hw_stack : list StackLayer;             (* info.hw_layers *)
  left_frame_roi : list LayerRect;
  right_frame_roi : list LayerRect;
  frame_config : HWLayerConfig;
  frame_sync : Z;
  set_idle_time_ms : Z;
  avr_enable : bool
}.
Definition set_rois (l r : list LayerRect) (f : Frame) : Frame :=
  mkFrame (stack f) (app_layer_count f) (gpu_target_index f) (index f) (hw_stack f) l r (frame_config f) (frame_sync f)
    (set_idle_time_ms f) (avr_enable f).
Definition set_stack (s : LayerStack) (f : Frame) : Frame :=
  mkFrame s (app_layer_count f) (gpu_target_index f) (index f) (hw_stack f) (left_frame_roi f) (right_frame_roi f)
    (frame_config f) (frame_sync f) (set_idle_time_ms f) (avr_enable f).
Definition set_layers (ls : list StackLayer) (f : Frame) : Frame := set_stack (mkStack ls (flags (stack f))) f.
Definition set_hw (i : list Z) (hw : list StackLayer) (f : Frame) : Frame :=
  mkFrame (stack f) (app_layer_count f) (gpu_target_index f) i hw (left_frame_roi f) (right_frame_roi f)
    (frame_config f) (frame_sync f) (set_idle_time_ms f) (avr_enable f).

(** DisplayConfigVariableInfo. *)
Record FbConfig := mkFb {
  x_pixels : Z; y_pixels : Z; x_dpi : float; y_dpi : float; fps : Z; vsync_period_ns : Z; is_yuv : bool
}.
Record HWDisplayAttributes := mkAttributes {
  variable_info : FbConfig; is_device_split : bool;
  v_front_porch : Z; v_back_porch : Z; v_pulse_width : Z; h_total : Z; s3d_config : Z
}.
Inductive HWDisplayMode := kModeDefault | kModeVideo | kModeCommand.
#[global] Instance HWDisplayMode_eq_dec : EqDecision HWDisplayMode.
Proof. solve_decision. Defined.
(** The alignments and sizes of regions, as one tuple of integers. *)
Record RoiLimits := mkRoi {
  left_align : Z; width_align : Z; top_align : Z; height_align : Z; min_roi_width : Z; min_roi_height : Z;
  needs_roi_merge : bool; left_roi_count : Z; right_roi_count : Z
}.
#[global] Instance RoiLimits_eq_dec : EqDecision RoiLimits.
Proof. solve_decision. Defined.
Record HWPanelInfo := mkPanel {
  port : Z; mode : HWDisplayMode; partial_update : bool; roi_limits : RoiLimits;
  dynamic_fps : bool; dfps_porch_mode : bool; ping_pong_split : bool; min_fps : Z; max_fps : Z;
  is_primary_panel : bool; split_info : Z * Z; s3d_mode : Z;
  hdr_enabled : bool; peak_luminance : Z; average_luminance : Z; blackness_level : Z;
  bitclk_update : bool; bitclk_rates : list Z
}.
Definition kS3DModeNone : Z := 0.
Record StrategyConstraints := mkConstraints { safe_mode : bool; use_cursor : bool; max_layers : Z }.
Record PUConstraints := mkPU { pu_enable : bool; enable_cursor_pu : bool }.
(** The extension library. *)
Class Extension (E : Type) := {
  X_CreateStrategyExtn : DisplayType -> HWPanelInfo -> HWMixerAttributes -> FbConfig -> St E (DisplayError * option nat);
  X_DestroyStrategyExtn : nat -> St E unit;
  X_CreatePartialUpdate : DisplayType -> HWPanelInfo -> HWMixerAttributes -> HWDisplayAttributes -> FbConfig ->
    St E (option nat);
  X_DestroyPartialUpdate : nat -> St E unit;
  X_CreateDppsControlExtn : St E bool;     (* whether the pointer is set *)
  X_DestroyDppsControlExtn : St E unit;
  X_Dpps : bool -> St E DisplayError;      (* On and Off *)
  X_Start : nat -> Frame -> St E (DisplayError * Z * Frame);
  X_GetNextStrategy : nat -> StrategyConstraints -> Frame -> St E (DisplayError * Frame);
  X_Stop : nat -> St E DisplayError;
  X_Reconfigure : nat -> HWPanelInfo -> HWMixerAttributes -> FbConfig -> St E DisplayError;
  X_SetCompositionState : nat -> Composition -> bool -> St E DisplayError;
  X_Purge : nat -> St E DisplayError;
  X_SetIdleTimeoutMs : nat -> Z -> St E DisplayError;
  X_PUStart : nat -> PUConstraints -> St E unit;
  X_GenerateROI : nat -> Frame -> St E (DisplayError * Frame)
}.

(** The object; [hw_layers_info_] is an address. *)
Record t := mkStrategy {
  extension_intf_ : bool;
  strategy_intf_ : option nat;
  partial_update_intf_ : option nat;
  display_type_ : DisplayType;
  is_src_split_ : bool;
  hw_panel_info_ : HWPanelInfo;
  hw_layers_info_ : option Z;
  mixer_attributes_ : HWMixerAttributes;
  display_attributes_ : HWDisplayAttributes;
  fb_config_ : FbConfig;
  extn_start_success_ : bool;
  disable_gpu_comp_ : bool
}.
Definition new_Strategy (ext : bool) (ty : DisplayType) (src_split : bool) (panel : HWPanelInfo)
    (m : HWMixerAttributes) (a : HWDisplayAttributes) (fb : FbConfig) : t :=
  mkStrategy ext None None ty src_split panel None m a fb false false.

(** Members that single methods assign. *)
Definition set_intfs (s p : option nat) (x : t) : t :=
  mkStrategy (extension_intf_ x) s p (display_type_ x) (is_src_split_ x) (hw_panel_info_ x) (hw_layers_info_ x)
    (mixer_attributes_ x) (display_attributes_ x) (fb_config_ x) (extn_start_success_ x) (disable_gpu_comp_ x).
Definition set_start (a : option Z) (b : bool) (x : t) : t :=
  mkStrategy (extension_intf_ x) (strategy_intf_ x) (partial_update_intf_ x) (display_type_ x) (is_src_split_ x)
    (hw_panel_info_ x) a (mixer_attributes_ x) (display_attributes_ x) (fb_config_ x) b (disable_gpu_comp_ x).
Definition set_disable_gpu (b : bool) (x : t) : t :=
  mkStrategy (extension_intf_ x) (strategy_intf_ x) (partial_update_intf_ x) (display_type_ x) (is_src_split_ x)
    (hw_panel_info_ x) (hw_layers_info_ x) (mixer_attributes_ x) (display_attributes_ x) (fb_config_ x)
    (extn_start_success_ x) b.
Definition set_attributes (panel : HWPanelInfo) (a : HWDisplayAttributes) (m : HWMixerAttributes) (fb : FbConfig)
    (x : t) : t :=
  mkStrategy (extension_intf_ x) (strategy_intf_ x) (partial_update_intf_ x) (display_type_ x) (is_src_split_ x)
    panel (hw_layers_info_ x) m a fb (extn_start_success_ x) (disable_gpu_comp_ x).

Section Ops.
Context {E : Type} `{Extension E}.

(** The frames and the extension library. *)
Record Env := mkEnv { frames : gmap Z Frame; ext : E }.
Abbreviation S := (St Env).

Definition in_ext {A} (m : St E A) : S A := fun v =>
  match m (ext v) with
  | Ret (a, e) => Ret (a, mkEnv (frames v) e)
  | Undef => Undef
  | NoFuel => NoFuel
  end.
Definition get_frame (a : Z) : S Frame := fun v =>
  match frames v !! a with Some f => Ret (f, v) | None => Undef end.
Definition put_frame (a : Z) (f : Frame) : S unit := st_modify (fun v => mkEnv (<[a := f]> (frames v)) (ext v)).

(** A call of the extension that may change the frame at [a]. *)
Definition ext_frame {A} (a : Z) (m : Frame -> St E (A * Frame)) : S A :=
  f ← get_frame a; '(r, f) ← in_ext (m f); _ ← put_frame a f; mret r.

Definition Init (x : t) : S (DisplayError * t) :=
  if extension_intf_ x then
    '(error, s) ← in_ext (X_CreateStrategyExtn (display_type_ x) (hw_panel_info_ x) (mixer_attributes_ x) (fb_config_ x));
    if decide (error <> kErrorNone) then mret (error, set_intfs s (partial_update_intf_ x) x)
    else
      p ← in_ext (X_CreatePartialUpdate (display_type_ x) (hw_panel_info_ x) (mixer_attributes_ x)
            (display_attributes_ x) (fb_config_ x));
      mret (kErrorNone, set_intfs s p x)
  else mret (kErrorNone, x).

Definition Deinit (x : t) : S DisplayError :=
  match strategy_intf_ x with
  | None => mret kErrorNone
  | Some s =>
      _ ← (match partial_update_intf_ x with Some p => in_ext (X_DestroyPartialUpdate p) | None => mret tt end);
      _ ← in_ext (X_DestroyStrategyExtn s);
      mret kErrorNone
  end.

Definition full_rois (x : t) (f : Frame) : Frame :=
  let layer_mixer_width := FLOAT (m_width (mixer_attributes_ x)) in
  let layer_mixer_height := FLOAT (m_height (mixer_attributes_ x)) in
  if negb (is_src_split_ x) && is_device_split (display_attributes_ x) then
    let left_split := FLOAT (split_left (mixer_attributes_ x)) in
    set_rois [mkRect f_zero f_zero left_split layer_mixer_height]
             [mkRect left_split f_zero layer_mixer_width layer_mixer_height] f
  else
    set_rois [mkRect f_zero f_zero layer_mixer_width layer_mixer_height] [mkRect f_zero f_zero f_zero f_zero] f.

(** [a] is [hw_layers_info_]. *)
Definition GenerateROI (x : t) (a : Z) : S unit :=
  error ← (match partial_update_intf_ x with
           | Some p => ext_frame a (fun f => X_GenerateROI p f)
           | None => mret kErrorUndefined
           end);
  if decide (error = kErrorNone) then mret tt
  else f ← get_frame a; put_frame a (full_rois x f).

(** The error, [*max_attempts] when it is written, and the object. *)
Definition Start (x : t) (a : Z) (pu : PUConstraints) : S (DisplayError * option Z * t) :=
  let x := set_start (Some a) false x in
  f ← get_frame a;
  if negb (disable_gpu_comp_ x) && (gpu_target_index f =? 0) then mret (kErrorNotSupported, None, x)
  else
    _ ← (match partial_update_intf_ x with Some p => in_ext (X_PUStart p pu) | None => mret tt end);
    _ ← GenerateROI x a;
    match strategy_intf_ x with
    | None => mret (kErrorNone, Some 1, x)
    | Some s =>
        '(error, n) ← ext_frame a (fun f => '(e, n, f) ← X_Start s f; mret ((e, n), f));
        if decide (error = kErrorNone) then mret (kErrorNone, Some n, set_start (Some a) true x)
        else mret (kErrorNone, Some 1, x)
    end.

Definition Stop (x : t) : S DisplayError :=
  match strategy_intf_ x with Some s => in_ext (X_Stop s) | None => mret kErrorNone end.

(** The loop that marks the first [n] layers for the GPU. *)
Definition mark_gpu (n : nat) (ls : list StackLayer) : outcome (list StackLayer) :=
  if (n <=? length ls)%nat then Ret ((reset_request ∘ set_composition kCompositionGPU <$> take n ls) ++ drop n ls)
  else Undef.

Definition GetNextStrategy (x : t) (constraints : StrategyConstraints) : S DisplayError :=
  match hw_layers_info_ x with
  | None => st_undef
  | Some a =>
      if extn_start_success_ x then
        match strategy_intf_ x with
        | None => st_undef
        | Some s => ext_frame a (fun f => X_GetNextStrategy s constraints f)
        end
      else if disable_gpu_comp_ x then mret kErrorNotSupported
      else
        f ← get_frame a;
        ls ← st_lift (mark_gpu (Z.to_nat (app_layer_count f)) (layers (stack f)));
        let f := set_layers ls f in
        match layers (stack f) !! Z.to_nat (gpu_target_index f) with
        | None => st_undef
        | Some layer =>
            let src_domain := mkRect f_zero f_zero (FLOAT (x_pixels (fb_config_ x))) (FLOAT (y_pixels (fb_config_ x))) in
            let dst_domain := mkRect f_zero f_zero (FLOAT (m_width (mixer_attributes_ x)))
                                (FLOAT (m_height (mixer_attributes_ x))) in
            dst ← st_lift (MapRect src_domain dst_domain (sl_dst layer) (sl_dst layer));
            _ ← put_frame a (set_hw (<[0%nat := gpu_target_index f]> (index f)) [set_dst dst layer] f);
            mret kErrorNone
        end
  end.

Definition Reconfigure (x : t) (panel : HWPanelInfo) (a : HWDisplayAttributes) (m : HWMixerAttributes)
    (fb : FbConfig) : S (DisplayError * t) :=
  if negb (extension_intf_ x) then mret (kErrorNone, x)
  else
    x ← (match partial_update_intf_ x with
         | Some p => _ ← in_ext (X_DestroyPartialUpdate p); mret (set_intfs (strategy_intf_ x) None x)
         | None => mret x
         end);
    p ← in_ext (X_CreatePartialUpdate (display_type_ x) panel m a fb);
    let x := set_intfs (strategy_intf_ x) p x in
    match strategy_intf_ x with
    | None => st_undef
    | Some s =>
        error ← in_ext (X_Reconfigure s panel m fb);
        if decide (error <> kErrorNone) then mret (error, x)
        else mret (kErrorNone, set_attributes panel a m fb x)
    end.

Definition SetCompositionState (x : t) (c : Composition) (enable : bool) : S (DisplayError * t) :=
  let x := if decide (c = kCompositionGPU) then set_disable_gpu (negb enable) x else x in
  match strategy_intf_ x with
  | Some s => e ← in_ext (X_SetCompositionState s c enable); mret (e, x)
  | None => mret (kErrorNone, x)
  end.

Definition Purge (x : t) : S DisplayError :=
  match strategy_intf_ x with Some s => in_ext (X_Purge s) | None => mret kErrorNone end.

Definition SetIdleTimeoutMs (x : t) (active_ms : Z) : S DisplayError :=
  match strategy_intf_ x with Some s => in_ext (X_SetIdleTimeoutMs s active_ms) | None => mret kErrorNotSupported end.
End Ops.
Arguments Env E : clear implicits.
End Strategy.
