(* ===== verification/CompMgr.v ===== *)
(** The composition manager: src/hardware/qcom-caf/display/sdm/libs/core/
    comp_manager.cpp, a client of the resource manager and of the strategies.

    What it needs of a resource manager is the class [ResourceIface]; the manager
    of [ResourceDefault] implements it below, the one of the extension library is
    any other instance.  A display context is reached by a handle; using the handle
    of a deleted context is undefined.  The lock is held for a whole call. *)
From S2P Require Import Prelude Rect ResourceDefault Strategy.
#[local] Open Scope Z_scope.

Module CompMgr.
Import Float32 Rect Formats ResourceDefault Strategy.

(** * The resource manager as its client sees it *)
Class ResourceIface (R : Type) := {
  RI_Create : HWResourceInfo -> outcome (DisplayError * R);
  RI_Destroy : St R DisplayError;
  RI_RegisterDisplay : DisplayType -> HWDisplayAttributes -> HWPanelInfo -> HWMixerAttributes ->
    St R (DisplayError * option nat);
  RI_UnregisterDisplay : nat -> St R DisplayError;
  RI_ReconfigureDisplay : nat -> HWDisplayAttributes -> HWPanelInfo -> HWMixerAttributes -> St R DisplayError;
  RI_Start : nat -> St R DisplayError;
  RI_Stop : nat -> St R DisplayError;
  RI_Prepare : nat -> Frame -> St R (DisplayError * Frame);
  RI_PostPrepare : nat -> Frame -> St R DisplayError;
  RI_Commit : nat -> Frame -> St R DisplayError;
  RI_PostCommit : nat -> Frame -> St R DisplayError;
  RI_Purge : nat -> St R unit;
  RI_SetMaxMixerStages : nat -> Z -> St R DisplayError;
  RI_ValidateScaling : LayerRect -> LayerRect -> bool -> BufferLayout -> St R DisplayError;
  RI_ValidateCursorConfig : nat -> StackLayer -> St R DisplayError;
  RI_ValidateAndSetCursorPosition : nat -> Frame -> Z -> Z -> FbConfig -> St R DisplayError;
  RI_SetMaxBandwidthMode : Z -> St R DisplayError;
  RI_GetScaleLutConfig : St R DisplayError;
  RI_SetDetailEnhancerData : nat -> Z -> St R DisplayError;
  RI_ResetScalarLUT : nat -> St R unit
}.

(** * The state *)
Record Ctx := mkCtx {
  strategy : option Strategy.t;
  constraints : StrategyConstraints;
  display_resource_ctx : nat;
  display_type : DisplayType;
  max_strategies : Z;
  remaining_strategies : Z;
  idle_fallback : bool;
  thermal_fallback_ : bool;
  ctx_primary : bool;                 (* is_primary_panel *)
  valid_cursor : bool;
  pu_constraints : PUConstraints;
  scaled_composition : bool;
  fb_config : FbConfig
}.

Record Info := mkCMInfo { res_info : HWResourceInfo; separate_rotator : bool; has_dyn_bw_support : bool }.
Inductive DisplayState := kStateOff | kStateOn | kStateDoze | kStateDozeSuspend | kStateStandby.

Section Manager.
Context {R E : Type} `{ResourceIface R} `{!Extension E}.

Record CM := mkCM {
  resource_intf_ : R;
  env : Env E;
  ctxs_ : gmap nat Ctx;
  next_ctx : nat;
  registered_displays_ : gset DisplayType;
  configured_displays_ : gset DisplayType;
  display_state_ : DisplayType -> DisplayState;
  safe_mode_ : bool;
  secure_external_layer_ : bool;
  secure_external_transition_ : bool;
  hw_res_info_ : Info;
  has_extension : bool;               (* extension_intf_ is not null *)
  max_layers_ : Z;
  max_sde_ext_layers_ : Z;
  dpps_ctrl_intf_ : bool
}.
Abbreviation C := (St CM).

Definition upd_displays (r c : gset DisplayType) (g : CM) : CM :=
  mkCM (resource_intf_ g) (env g) (ctxs_ g) (next_ctx g) r c (display_state_ g) (safe_mode_ g)
    (secure_external_layer_ g) (secure_external_transition_ g) (hw_res_info_ g) (has_extension g)
    (max_layers_ g) (max_sde_ext_layers_ g) (dpps_ctrl_intf_ g).
Definition upd_ctxs (m : gmap nat Ctx) (g : CM) : CM :=
  mkCM (resource_intf_ g) (env g) m (next_ctx g) (registered_displays_ g) (configured_displays_ g)
    (display_state_ g) (safe_mode_ g) (secure_external_layer_ g) (secure_external_transition_ g)
    (hw_res_info_ g) (has_extension g) (max_layers_ g) (max_sde_ext_layers_ g) (dpps_ctrl_intf_ g).
Definition upd_safe_mode (b : bool) (g : CM) : CM :=
  mkCM (resource_intf_ g) (env g) (ctxs_ g) (next_ctx g) (registered_displays_ g) (configured_displays_ g)
    (display_state_ g) b (secure_external_layer_ g) (secure_external_transition_ g)
    (hw_res_info_ g) (has_extension g) (max_layers_ g) (max_sde_ext_layers_ g) (dpps_ctrl_intf_ g).
Definition upd_secure (l t : bool) (g : CM) : CM :=
  mkCM (resource_intf_ g) (env g) (ctxs_ g) (next_ctx g) (registered_displays_ g) (configured_displays_ g)
    (display_state_ g) (safe_mode_ g) l t
    (hw_res_info_ g) (has_extension g) (max_layers_ g) (max_sde_ext_layers_ g) (dpps_ctrl_intf_ g).
Definition upd_limits (m x : Z) (g : CM) : CM :=
  mkCM (resource_intf_ g) (env g) (ctxs_ g) (next_ctx g) (registered_displays_ g) (configured_displays_ g)
    (display_state_ g) (safe_mode_ g) (secure_external_layer_ g) (secure_external_transition_ g)
    (hw_res_info_ g) (has_extension g) m x (dpps_ctrl_intf_ g).
Definition with_env (v : Env E) (g : CM) : CM :=
  mkCM (resource_intf_ g) v (ctxs_ g) (next_ctx g) (registered_displays_ g) (configured_displays_ g)
    (display_state_ g) (safe_mode_ g) (secure_external_layer_ g) (secure_external_transition_ g)
    (hw_res_info_ g) (has_extension g) (max_layers_ g) (max_sde_ext_layers_ g) (dpps_ctrl_intf_ g).
Definition with_res (r : R) (g : CM) : CM :=
  mkCM r (env g) (ctxs_ g) (next_ctx g) (registered_displays_ g) (configured_displays_ g)
    (display_state_ g) (safe_mode_ g) (secure_external_layer_ g) (secure_external_transition_ g)
    (hw_res_info_ g) (has_extension g) (max_layers_ g) (max_sde_ext_layers_ g) (dpps_ctrl_intf_ g).

(** Calls of the resource manager and of a strategy. *)
Definition resource {A} (m : St R A) : C A := fun g =>
  match m (resource_intf_ g) with
  | Ret (a, r) => Ret (a, with_res r g)
  | Undef => Undef
  | NoFuel => NoFuel
  end.
Definition in_env {A} (m : St (Env E) A) : C A := fun g =>
  match m (env g) with
  | Ret (a, v) => Ret (a, with_env v g)
  | Undef => Undef
  | NoFuel => NoFuel
  end.

(** The context a handle points to. *)
Definition ctx (h : nat) : C Ctx := fun g =>
  match ctxs_ g !! h with Some c => Ret (c, g) | None => Undef end.
Definition put_ctx (h : nat) (c : Ctx) : C unit := st_modify (fun g => upd_ctxs (<[h := c]> (ctxs_ g)) g).
(** [display_comp_ctx->strategy->...] *)
Definition strategy_of (c : Ctx) : C Strategy.t :=
  match strategy c with Some s => mret s | None => st_undef end.

Definition set_strategy (s : option Strategy.t) (c : Ctx) : Ctx :=
  mkCtx s (constraints c) (display_resource_ctx c) (display_type c) (max_strategies c) (remaining_strategies c)
    (idle_fallback c) (thermal_fallback_ c) (ctx_primary c) (valid_cursor c) (pu_constraints c)
    (scaled_composition c) (fb_config c).
Definition set_constraints (k : StrategyConstraints) (c : Ctx) : Ctx :=
  mkCtx (strategy c) k (display_resource_ctx c) (display_type c) (max_strategies c) (remaining_strategies c)
    (idle_fallback c) (thermal_fallback_ c) (ctx_primary c) (valid_cursor c) (pu_constraints c)
    (scaled_composition c) (fb_config c).
Definition set_counts (m r : Z) (c : Ctx) : Ctx :=
  mkCtx (strategy c) (constraints c) (display_resource_ctx c) (display_type c) m r
    (idle_fallback c) (thermal_fallback_ c) (ctx_primary c) (valid_cursor c) (pu_constraints c)
    (scaled_composition c) (fb_config c).
Definition set_fallback (i t : bool) (c : Ctx) : Ctx :=
  mkCtx (strategy c) (constraints c) (display_resource_ctx c) (display_type c) (max_strategies c)
    (remaining_strategies c) i t (ctx_primary c) (valid_cursor c) (pu_constraints c)
    (scaled_composition c) (fb_config c).
Definition set_cursor (v : bool) (pu : PUConstraints) (c : Ctx) : Ctx :=
  mkCtx (strategy c) (constraints c) (display_resource_ctx c) (display_type c) (max_strategies c)
    (remaining_strategies c) (idle_fallback c) (thermal_fallback_ c) (ctx_primary c) v pu
    (scaled_composition c) (fb_config c).
Definition set_scaled (b : bool) (fb : FbConfig) (c : Ctx) : Ctx :=
  mkCtx (strategy c) (constraints c) (display_resource_ctx c) (display_type c) (max_strategies c)
    (remaining_strategies c) (idle_fallback c) (thermal_fallback_ c) (ctx_primary c) (valid_cursor c)
    (pu_constraints c) b fb.

Definition NeedsScaledComposition (fb : FbConfig) (m : HWMixerAttributes) : bool :=
  negb (x_pixels fb =? m_width m) || negb (y_pixels fb =? m_height m).

(** * Creation *)

(** [extension]: the library is there.  The members before the call have the
    values of the class definition. *)
Definition Init (info : Info) (extension : bool) (v : Env E) : outcome (DisplayError * option CM) :=
  '(error, r) ← RI_Create (res_info info);
  '(dpps, v) ← (if extension then in_ext X_CreateDppsControlExtn v else Ret (false, v));
  if decide (error <> kErrorNone) then
    '(_, v) ← (if extension then in_ext X_DestroyDppsControlExtn v else Ret (tt, v));
    Ret (error, None)
  else
    Ret (error, Some (mkCM r v ∅ 0 ∅ ∅ (fun _ => kStateOff) false false false info extension kMaxSDELayers 0 dpps)).

(** The result of the resource manager is not looked at. *)
Definition Deinit : C DisplayError :=
  g ← st_get;
  _ ← resource RI_Destroy;
  _ ← (if has_extension g then in_env (in_ext X_DestroyDppsControlExtn) else mret tt);
  mret kErrorNone.

(** * Displays *)

(** Debug::GetExtMaxlayers: the property, at least 2. *)
Context (max_external_layers_prop : Z).
Definition GetExtMaxlayers : Z := Z.max max_external_layers_prop 2.

Definition RegisterDisplay (ty : DisplayType) (a : HWDisplayAttributes) (panel : HWPanelInfo)
    (m : HWMixerAttributes) (fb : FbConfig) : C (DisplayError * option nat) :=
  g ← st_get;
  let s := new_Strategy (has_extension g) ty (is_src_split (res_info (hw_res_info_ g))) panel m a fb in
  '(error, s) ← in_env (Strategy.Init s);
  if decide (error <> kErrorNone) then mret (error, None)
  else
    '(error, rh) ← resource (RI_RegisterDisplay ty a panel m);
    match error, rh with
    | kErrorNone, Some rh =>
        h ← st_gets next_ctx;
        let c := mkCtx (Some s) (mkConstraints false false kMaxSDELayers) rh ty 0 0 false false
                   (is_primary_panel panel) false (mkPU true false) (NeedsScaledComposition fb m) fb in
        _ ← st_modify (fun g => upd_displays ({[ty]} ∪ registered_displays_ g) (configured_displays_ g)
              (mkCM (resource_intf_ g) (env g) (<[h := c]> (ctxs_ g)) (S h) (registered_displays_ g)
                 (configured_displays_ g) (display_state_ g) (safe_mode_ g) (secure_external_layer_ g)
                 (secure_external_transition_ g) (hw_res_info_ g) (has_extension g) (max_layers_ g)
                 (max_sde_ext_layers_ g) (dpps_ctrl_intf_ g)));
        _ ← (if negb (is_primary_panel panel) then
               st_modify (fun g => upd_limits (max_layers_ g) (u32 GetExtMaxlayers) (upd_safe_mode true g))
             else mret tt);
        mret (kErrorNone, Some h)
    | kErrorNone, None => st_undef
    | _, _ => _ ← in_env (Strategy.Deinit s); mret (error, None)
    end.

(** [None] is a null handle. *)
Definition UnregisterDisplay (h : option nat) : C DisplayError :=
  match h with
  | None => mret kErrorParameters
  | Some h =>
      c ← ctx h;
      _ ← resource (RI_UnregisterDisplay (display_resource_ctx c));
      s ← strategy_of c;
      _ ← in_env (Strategy.Deinit s);
      _ ← st_modify (fun g => upd_displays (registered_displays_ g ∖ {[display_type c]})
            (configured_displays_ g ∖ {[display_type c]}) g);
      _ ← (if decide (display_type c = kHDMI) then
             st_modify (fun g => upd_limits kMaxSDELayers (max_sde_ext_layers_ g) g) else mret tt);
      _ ← st_modify (fun g => upd_ctxs (delete h (ctxs_ g)) g);
      mret kErrorNone
  end.

Definition ReconfigureDisplay (h : nat) (a : HWDisplayAttributes) (panel : HWPanelInfo)
    (m : HWMixerAttributes) (fb : FbConfig) : C DisplayError :=
  c ← ctx h;
  error ← resource (RI_ReconfigureDisplay (display_resource_ctx c) a panel m);
  if decide (error <> kErrorNone) then mret error
  else
    error ← (match strategy c with
             | None => mret kErrorNone
             | Some s =>
                 '(error, s) ← in_env (Strategy.Reconfigure s panel a m fb);
                 if decide (error <> kErrorNone) then
                   _ ← in_env (Strategy.Deinit s);
                   _ ← put_ctx h (set_strategy None c);
                   mret error
                 else _ ← put_ctx h (set_strategy (Some s) c); mret kErrorNone
             end);
    if decide (error <> kErrorNone) then mret error
    else
      _ ← (if decide (display_type c = kHDMI) then
             st_modify (fun g => upd_limits (if s3d_mode panel =? kS3DModeNone then kMaxSDELayers else 0) (max_sde_ext_layers_ g) g)
           else mret tt);
      c ← ctx h;
      _ ← put_ctx h (set_scaled (NeedsScaledComposition fb m) fb c);
      mret kErrorNone.

(** * A frame *)
Definition kSafeModeThreshold : Z := 4.

(** The layers that are not the target get the skip flag. *)
Definition skip_all (f : Frame) : Frame :=
  let fl := flags (stack f) in
  set_stack (mkStack ((fun l => if decide (sl_composition l <> CompositionGPUTarget) then set_skip l else l)
                        <$> layers (stack f))
    (mkFlags true (secure_present fl) (animating fl) (attributes_changed fl) (cursor_present fl)
       (single_buffered_layer_present fl) (hdr_present fl) (s3d_mode_present fl))) f.

Definition PrepareStrategyConstraints (h : nat) (a : Z) : C unit :=
  c ← ctx h;
  g ← st_get;
  let info := res_info (hw_res_info_ g) in
  let low_end_hw := u32 (num_vig_pipe info + num_rgb_pipe info + num_dma_pipe info) <=? kSafeModeThreshold in
  '(safe, mx) ← (if negb (ctx_primary c) then
      f ← in_env (get_frame a);
      let secure_ex_layer := secure_present (flags (stack f)) in
      _ ← (if negb (Bool.eqb (secure_external_layer_ g) secure_ex_layer)
           then st_modify (upd_secure secure_ex_layer true) else mret tt);
      mret (if low_end_hw && negb (separate_rotator (hw_res_info_ g)) then true else safe_mode_ g, max_sde_ext_layers_ g)
    else mret (safe_mode_ g, max_layers_ g));
  g ← st_get;
  safe ← (if ctx_primary c && (1 <? size (registered_displays_ g)) && secure_external_layer_ g then
            if low_end_hw then f ← in_env (get_frame a); _ ← in_env (put_frame a (skip_all f)); mret safe
            else if secure_external_transition_ g
                 then _ ← st_modify (upd_secure (secure_external_layer_ g) false); mret true
                 else mret safe
          else mret safe);
  let safe := if negb (remaining_strategies c =? max_strategies c) then true else safe in
  let safe := if idle_fallback c || thermal_fallback_ c then true else safe in
  put_ctx h (set_constraints (mkConstraints safe (valid_cursor c) mx) c).

(** The last layer that is a GPU target. *)
Fixpoint last_target (ls : list StackLayer) (i : Z) : Z :=
  match ls with
  | [] => -1
  | l :: ls =>
      let r := last_target ls (i + 1) in
      if 0 <=? r then r else if decide (sl_composition l = CompositionGPUTarget) then i else -1
  end.

Definition SupportLayerAsCursor (h : nat) (a : Z) : C bool :=
  c ← ctx h;
  f ← in_env (get_frame a);
  if scaled_composition c || negb (cursor_present (flags (stack f))) then mret false
  else
    let gpu_index := last_target (layers (stack f)) 0 in
    if gpu_index <=? 0 then mret false
    else
      match layers (stack f) !! Z.to_nat (gpu_index - 1) with
      | None => st_undef
      | Some cursor_layer =>
          if cursor cursor_layer && negb (skip cursor_layer) then
            e ← resource (RI_ValidateCursorConfig (display_resource_ctx c) cursor_layer);
            mret (bool_decide (e = kErrorNone))
          else mret false
      end.

(** The error of Start is not looked at. *)
Definition PrePrepare (h : nat) (a : Z) : C unit :=
  v ← SupportLayerAsCursor h a;
  c ← ctx h;
  let c := set_cursor v (mkPU (pu_enable (pu_constraints c)) v) c in
  _ ← put_ctx h c;
  s ← strategy_of c;
  '(_, n, s) ← in_env (Strategy.Start s a (pu_constraints c));
  let n := default (max_strategies c) n in
  put_ctx h (set_counts n n (set_strategy (Some s) c)).

(** [resource_intf_->Prepare] on the frame at [a]. *)
Definition resource_prepare (rh : nat) (a : Z) : C DisplayError :=
  f ← in_env (get_frame a);
  '(error, f) ← resource (RI_Prepare rh f);
  _ ← in_env (put_frame a f);
  mret error.

(** The loop over the strategies; [count] is remaining_strategies. *)
Fixpoint strategy_loop (count : nat) (h : nat) (a : Z) (error : DisplayError) : C DisplayError :=
  match count with
  | O => mret error
  | S n =>
      c ← ctx h;
      s ← strategy_of c;
      error ← in_env (Strategy.GetNextStrategy s (constraints c));
      error' ← (if decide (error <> kErrorNone) then mret error
                else resource_prepare (display_resource_ctx c) a);
      c ← ctx h;
      _ ← put_ctx h (set_counts (max_strategies c) n c);
      if decide (error <> kErrorNone) then mret error'
      else if decide (error' = kErrorNone) then mret error'
      else strategy_loop n h a error'
  end.

Definition Prepare (h : nat) (a : Z) : C DisplayError :=
  _ ← PrepareStrategyConstraints h a;
  c ← ctx h;
  _ ← resource (RI_Start (display_resource_ctx c));
  error ← strategy_loop (Z.to_nat (remaining_strategies c)) h a kErrorUndefined;
  e ← resource (RI_Stop (display_resource_ctx c));
  mret (if decide (error <> kErrorNone) then error else e).

Definition PostPrepare (h : nat) (a : Z) : C DisplayError :=
  c ← ctx h;
  f ← in_env (get_frame a);
  error ← resource (RI_PostPrepare (display_resource_ctx c) f);
  if decide (error <> kErrorNone) then mret error
  else s ← strategy_of c; _ ← in_env (Strategy.Stop s); mret kErrorNone.

Definition Commit (h : nat) (a : Z) : C DisplayError :=
  c ← ctx h; f ← in_env (get_frame a); resource (RI_Commit (display_resource_ctx c) f).

Definition ReConfigure (h : nat) (a : Z) : C DisplayError :=
  c ← ctx h;
  _ ← resource (RI_Start (display_resource_ctx c));
  error ← resource_prepare (display_resource_ctx c) a;
  _ ← resource (RI_Stop (display_resource_ctx c));
  if decide (error <> kErrorNone) then
    f ← in_env (get_frame a); resource (RI_PostPrepare (display_resource_ctx c) f)
  else mret error.

Definition PostCommit (h : nat) (a : Z) : C DisplayError :=
  c ← ctx h;
  _ ← st_modify (fun g => upd_displays (registered_displays_ g) ({[display_type c]} ∪ configured_displays_ g) g);
  _ ← st_modify (fun g => if decide (configured_displays_ g = registered_displays_ g) then upd_safe_mode false g else g);
  f ← in_env (get_frame a);
  error ← resource (RI_PostCommit (display_resource_ctx c) f);
  if decide (error <> kErrorNone) then mret error
  else _ ← put_ctx h (set_fallback false (thermal_fallback_ c) c); mret kErrorNone.

Definition Purge (h : nat) : C unit :=
  c ← ctx h;
  _ ← resource (RI_Purge (display_resource_ctx c));
  s ← strategy_of c;
  _ ← in_env (Strategy.Purge s);
  mret tt.

(** * Settings and events *)
Definition SetIdleTimeoutMs (h : nat) (active_ms : Z) : C DisplayError :=
  c ← ctx h; s ← strategy_of c; in_env (Strategy.SetIdleTimeoutMs s active_ms).

Definition ProcessIdleTimeout (h : option nat) : C unit :=
  match h with
  | None => mret tt
  | Some h => c ← ctx h; put_ctx h (set_fallback true (thermal_fallback_ c) c)
  end.

Definition kMaxThermalLevel : Z := 3.
Definition ProcessThermalEvent (h : nat) (thermal_level : Z) : C unit :=
  c ← ctx h; put_ctx h (set_fallback (idle_fallback c) (kMaxThermalLevel <=? thermal_level) c).

Definition ProcessIdlePowerCollapse (h : option nat) : C unit :=
  match h with
  | None => mret tt
  | Some h => c ← ctx h; resource (RI_ResetScalarLUT (display_resource_ctx c))
  end.

Definition SetMaxMixerStages (h : option nat) (n : Z) : C DisplayError :=
  match h with
  | None => mret kErrorNone
  | Some h => c ← ctx h; resource (RI_SetMaxMixerStages (display_resource_ctx c) n)
  end.

Definition ControlPartialUpdate (h : nat) (enable : bool) : C unit :=
  c ← ctx h; put_ctx h (set_cursor (valid_cursor c) (mkPU enable (enable_cursor_pu (pu_constraints c))) c).

(** [ubwc_fb]: Debug::IsUbwcTiledFrameBuffer. *)
Definition ValidateScaling (ubwc_fb : bool) (crop dst : LayerRect) (rotate90 : bool) : C DisplayError :=
  resource (RI_ValidateScaling crop dst rotate90 (if ubwc_fb then kUBWC else kLinear)).

Definition ValidateAndSetCursorPosition (h : nat) (a x y : Z) : C DisplayError :=
  c ← ctx h; f ← in_env (get_frame a);
  resource (RI_ValidateAndSetCursorPosition (display_resource_ctx c) f x y (fb_config c)).

Definition kBwModeMax : Z := 4.
Definition SetMaxBandwidthMode (mode : Z) : C DisplayError :=
  g ← st_get;
  if negb (has_dyn_bw_support (hw_res_info_ g)) || (kBwModeMax <=? mode) then mret kErrorNotSupported
  else resource (RI_SetMaxBandwidthMode mode).

Definition GetScaleLutConfig : C DisplayError := resource RI_GetScaleLutConfig.

Definition SetDetailEnhancerData (h : nat) (de_data : Z) : C DisplayError :=
  c ← ctx h; resource (RI_SetDetailEnhancerData (display_resource_ctx c) de_data).

Definition SetCompositionState (h : nat) (k : Composition) (enable : bool) : C DisplayError :=
  c ← ctx h; s ← strategy_of c;
  '(e, s) ← in_env (Strategy.SetCompositionState s k enable);
  _ ← put_ctx h (set_strategy (Some s) c);
  mret e.

Definition ControlDpps (enable : bool) : C DisplayError :=
  g ← st_get;
  if dpps_ctrl_intf_ g then in_env (in_ext (X_Dpps enable)) else mret kErrorNone.

Definition SetDisplayState (h : nat) (state : DisplayState) (ty : DisplayType) : C bool :=
  _ ← st_modify (fun g =>
    mkCM (resource_intf_ g) (env g) (ctxs_ g) (next_ctx g) (registered_displays_ g) (configured_displays_ g)
      (fun t => if decide (t = ty) then state else display_state_ g t) (safe_mode_ g) (secure_external_layer_ g)
      (secure_external_transition_ g) (hw_res_info_ g) (has_extension g) (max_layers_ g) (max_sde_ext_layers_ g)
      (dpps_ctrl_intf_ g));
  match state with
  | kStateOff =>
      _ ← Purge h;
      _ ← st_modify (fun g => upd_displays (registered_displays_ g) (configured_displays_ g ∖ {[ty]}) g);
      mret true
  | kStateOn =>
      _ ← st_modify (fun g => if 1 <? size (registered_displays_ g) then upd_safe_mode true g else g);
      mret true
  | _ => mret true
  end.
End Manager.
Arguments CM R E : clear implicits.
End CompMgr.

(** * The default resource manager as an implementation *)
Module DefaultResources.
Import Float32 Rect Formats ResourceDefault Strategy CompMgr.

(** The object behind [resource_intf_], [None] when it was deleted, and its lock,
    which Start takes and Stop gives back. *)
Record RD := mkRD { object : option world; locked : bool }.

Section Default.
Context (log2f : float -> float).

(** A call on the object. *)
Definition call {A} (m : St world A) : St RD A := fun r =>
  match object r with
  | None => Undef
  | Some w =>
      match m w with
      | Ret (a, w) => Ret (a, mkRD (Some w) (locked r))
      | Undef => Undef
      | NoFuel => NoFuel
      end
  end.
(** SCOPE_LOCK: the thread that holds the lock waits for itself for ever. *)
Definition scoped {A} (m : St world A) : St RD A := fun r => if locked r then NoFuel else call m r.
Definition const {A} (a : A) : St RD A := call (mret a).

Definition Start (h : nat) : St RD DisplayError := fun r =>
  match object r with
  | None => Undef
  | Some _ => if locked r then NoFuel else Ret (kErrorNone, mkRD (object r) true)
  end.
Definition Stop (h : nat) : St RD DisplayError := fun r =>
  match object r with
  | None => Undef
  | Some _ => Ret (kErrorNone, mkRD (object r) false)
  end.

Definition Destroy : St RD DisplayError := fun r =>
  match object r with
  | None => Undef
  | Some w => e ← DestroyResourceDefault (PObject (rd w)); Ret (e, mkRD None (locked r))
  end.

(** What the resource manager sees of a frame, and the frame with what it wrote. *)
Definition hw_layer (l : StackLayer) : Layer :=
  mkLayer (sl_src l) (sl_dst l) (sl_format l) (sl_secure l)
    (if decide (sl_composition l = CompositionGPUTarget) then kCompositionGPUTarget else kCompositionOther).
Definition hw_of (f : Frame) : HWLayers := mkLayers (hw_layer <$> hw_stack f) (frame_config f) (frame_sync f).
Definition set_config (c : HWLayerConfig) (f : Frame) : Frame :=
  mkFrame (stack f) (app_layer_count f) (gpu_target_index f) (index f) (hw_stack f) (left_frame_roi f)
    (right_frame_roi f) c (frame_sync f) (set_idle_time_ms f) (avr_enable f).

#[global] Instance default_resources : ResourceIface RD := {|
  RI_Create info :=
    '(error, p) ← CreateResourceDefault info;
    Ret (error, mkRD (match p with PObject r => Some (World r ∅ 0 []) | PDeleted => None end) false);
  RI_Destroy := Destroy;
  RI_RegisterDisplay ty _ _ m := call (ResourceDefault.RegisterDisplay ty m);
  RI_UnregisterDisplay h := scoped (ResourceDefault.UnregisterDisplay h);
  RI_ReconfigureDisplay h _ _ m := scoped (ResourceDefault.ReconfigureDisplay h m);
  RI_Start := Start;
  RI_Stop := Stop;
  RI_Prepare h f := call ('(e, ls) ← ResourceDefault.Prepare log2f h (hw_of f); mret (e, set_config (config ls) f));
  RI_PostPrepare h _ := scoped (mret (ResourceDefault.PostPrepare h));
  RI_Commit h _ := scoped (mret (ResourceDefault.Commit h));
  RI_PostCommit h f := scoped (ResourceDefault.PostCommit h (hw_of f));
  RI_Purge h := scoped (ResourceDefault.Purge h);
  RI_SetMaxMixerStages h n := scoped (mret (ResourceDefault.SetMaxMixerStages h n));
  RI_ValidateScaling crop dst _ layout :=
    call (w ← st_get; st_lift (ResourceDefault.ValidateScaling (hw_res_info (rd w)) crop dst layout));
  RI_ValidateCursorConfig _ _ := const ResourceDefault.ValidateCursorConfig;
  RI_ValidateAndSetCursorPosition _ _ _ _ _ := const ResourceDefault.ValidateAndSetCursorPosition;
  RI_SetMaxBandwidthMode _ := const ResourceDefault.SetMaxBandwidthMode;
  RI_GetScaleLutConfig := const kErrorNone;
  RI_SetDetailEnhancerData _ _ := const ResourceDefault.SetDetailEnhancerData;
  RI_ResetScalarLUT _ := const tt
|}.
End Default.
End DefaultResources.
