(* ===== verification/CompLaws.v ===== *)
(** What the composition manager (comp_manager.cpp) relies on of a resource manager:
    the contract [ResourceLaws], and the proof that the default resource manager
    keeps it. *)
From S2P Require Import Prelude Rect ResourceDefault Strategy CompMgr.
#[local] Open Scope Z_scope.

(** * The contract of a resource manager *)
Module Contract.
Import Float32 Rect Formats ResourceDefault Strategy CompMgr.

(** [ri_ok r hs]: the manager is not between Start and Stop and has given out the
    handles [hs], each for a type of display; [ri_busy]: it is between them; [ri_hw]: the hardware
    it can be made for.  A
    registration that succeeds gives a new handle, for a type of display that had
    none. *)
Class ResourceLaws (R : Type) `{ResourceIface R} := {
  ri_ok : R -> gmap nat DisplayType -> Prop;
  ri_busy : R -> gmap nat DisplayType -> Prop;
  ri_hw : HWResourceInfo -> Prop;
  law_create info r : ri_hw info -> RI_Create info = Ret (kErrorNone, r) -> ri_ok r ∅;
  law_register ty a p m r hs e o r' : ri_ok r hs -> RI_RegisterDisplay ty a p m r = Ret ((e, o), r') ->
    match e, o with
    | kErrorNone, Some h => hs !! h = None /\ (forall h', hs !! h' <> Some ty) /\ ri_ok r' (<[h := ty]> hs)
    | kErrorNone, None => False
    | _, _ => ri_ok r' hs
    end;
  law_unregister h r hs e r' : ri_ok r hs -> is_Some (hs !! h) ->
    RI_UnregisterDisplay h r = Ret (e, r') -> ri_ok r' (delete h hs);
  law_start h hs r e r' : ri_ok r hs -> RI_Start h r = Ret (e, r') -> ri_busy r' hs;
  law_stop h hs r e r' : ri_busy r hs -> RI_Stop h r = Ret (e, r') -> ri_ok r' hs;
  law_prepare h f hs r x r' : ri_busy r hs -> RI_Prepare h f r = Ret (x, r') -> ri_busy r' hs;
  law_reconfigure h a p m hs r e r' : ri_ok r hs -> RI_ReconfigureDisplay h a p m r = Ret (e, r') -> ri_ok r' hs;
  law_post_prepare h f hs r e r' : ri_ok r hs -> RI_PostPrepare h f r = Ret (e, r') -> ri_ok r' hs;
  law_commit h f hs r e r' : ri_ok r hs -> RI_Commit h f r = Ret (e, r') -> ri_ok r' hs;
  law_post_commit h f hs r e r' : ri_ok r hs -> RI_PostCommit h f r = Ret (e, r') -> ri_ok r' hs;
  law_purge h hs r e r' : ri_ok r hs -> RI_Purge h r = Ret (e, r') -> ri_ok r' hs;
  law_stages h n hs r e r' : ri_ok r hs -> RI_SetMaxMixerStages h n r = Ret (e, r') -> ri_ok r' hs;
  law_scaling c d b l hs r e r' : ri_ok r hs -> RI_ValidateScaling c d b l r = Ret (e, r') -> ri_ok r' hs;
  law_cursor h l hs r e r' : ri_ok r hs -> RI_ValidateCursorConfig h l r = Ret (e, r') -> ri_ok r' hs;
  law_cursor_pos h f x y fb hs r e r' : ri_ok r hs ->
    RI_ValidateAndSetCursorPosition h f x y fb r = Ret (e, r') -> ri_ok r' hs;
  law_bandwidth n hs r e r' : ri_ok r hs -> RI_SetMaxBandwidthMode n r = Ret (e, r') -> ri_ok r' hs;
  law_lut hs r e r' : ri_ok r hs -> RI_GetScaleLutConfig r = Ret (e, r') -> ri_ok r' hs;
  law_detail h n hs r e r' : ri_ok r hs -> RI_SetDetailEnhancerData h n r = Ret (e, r') -> ri_ok r' hs;
  law_reset h hs r e r' : ri_ok r hs -> RI_ResetScalarLUT h r = Ret (e, r') -> ri_ok r' hs
}.
End Contract.

(** * The default manager keeps it *)
Module DefaultLaws.
Import Float32 Rect Formats ResourceDefault ResourceFacts Strategy CompMgr DefaultResources Contract.

(** The type of display of a hardware block. *)
Definition type_of (b : HWBlockType) : DisplayType := match b with kHWHDMI => kHDMI | _ => kPrimary end.
Definition world_has (w : world) (hs : gmap nat DisplayType) : Prop :=
  wf_world w /\ hs = (fun c => type_of (ctx_block c)) <$> ctxs w.
Definition rd_ok (b : bool) (r : RD) (hs : gmap nat DisplayType) : Prop :=
  locked r = b /\ exists w, object r = Some w /\ world_has w hs.

Lemma call_inv {A} (m : St world A) r a r' : call m r = Ret (a, r') ->
  exists w w', object r = Some w /\ m w = Ret (a, w') /\ r' = mkRD (Some w') (locked r).
Proof.
  unfold call. destruct (object r) as [w|]; [|done]. destruct (m w) as [[a' w']| |] eqn:E; try done.
  intros [= <- <-]. by exists w, w'.
Qed.

Lemma scoped_inv {A} (m : St world A) r a r' : scoped m r = Ret (a, r') -> call m r = Ret (a, r').
Proof. unfold scoped. by destruct (locked r). Qed.

(** Calls that change nothing the client sees. *)
Lemma call_keeps {A} (m : St world A) b r hs a r' : rd_ok b r hs -> call m r = Ret (a, r') ->
  (forall w a w', wf_world w -> m w = Ret (a, w') -> wf_world w' /\
     ((fun c => type_of (ctx_block c)) <$> ctxs w') = (fun c => type_of (ctx_block c)) <$> ctxs w) ->
  rd_ok b r' hs.
Proof.
  intros (Hl & w & Ew & Hw & ->) (w0 & w' & E0 & Em & ->)%call_inv Hm.
  rewrite Ew in E0. injection E0 as <-. destruct (Hm w a w' Hw Em) as [Hw' Hc].
  split; [done|]. exists w'. by rewrite <- Hc.
Qed.

Definition kinds (w : world) : gmap nat DisplayType := (fun c => type_of (ctx_block c)) <$> ctxs w.

Lemma pure_keeps {A} (x : A) w (a : A) w' : wf_world w -> (mret x : St world A) w = Ret (a, w') ->
  wf_world w' /\ kinds w' = kinds w.
Proof. by intros Hw [= <- <-]. Qed.

Lemma kinds_store h c c' w : ctxs w !! h = Some c -> ctx_block c' = ctx_block c ->
  (fun c => type_of (ctx_block c)) <$> <[h := c']> (ctxs w) = kinds w.
Proof.
  intros E Eb. unfold kinds. rewrite fmap_insert, Eb, insert_id; [done|]. by rewrite lookup_fmap, E.
Qed.

Lemma reconfigure_kinds h m w e w' : wf_world w -> ResourceDefault.ReconfigureDisplay h m w = Ret (e, w') ->
  wf_world w' /\ kinds w' = kinds w.
Proof.
  intros Hw E. split; [by eapply reconfigure_step|].
  apply st_bind_Ret_inv in E as (c & w1 & [Hc ->]%deref_inv & E). injection E as _ <-. by apply (kinds_store h c).
Qed.

Lemma post_commit_kinds h ls w e w' : wf_world w -> ResourceDefault.PostCommit h ls w = Ret (e, w') ->
  wf_world w' /\ kinds w' = kinds w.
Proof.
  intros Hw E. split; [by eapply post_commit_step|].
  apply st_bind_Ret_inv in E as (c & w1 & [Hc ->]%deref_inv & E).
  apply st_bind_Ret_inv in E as ([] & w1 & E1 & E).
  assert (ctxs w1 = ctxs w) as C1 by (destruct (_ && _); by injection E1 as <-).
  apply st_bind_Ret_inv in E as ([] & w2 & E2 & E).
  assert (ctxs w2 = ctxs w) as C2 by (destruct (0 <=? _); injection E2 as <-; done).
  injection E as _ <-. unfold kinds at 1. cbn [ctxs]. rewrite C2. by apply (kinds_store h c).
Qed.

Lemma purge_kinds h w u w' : wf_world w -> ResourceDefault.Purge h w = Ret (u, w') ->
  wf_world w' /\ kinds w' = kinds w.
Proof.
  destruct u. intros Hw E. destruct (purge_step h w w' Hw E) as (Hw' & _ & Ec & _).
  split; [done|]. unfold kinds. by rewrite Ec.
Qed.

Lemma prepare_kinds log2f h f w x w' : wf_world w ->
  ('(e, ls) ← ResourceDefault.Prepare log2f h (hw_of f); mret (e, set_config (config ls) f)) w = Ret (x, w') ->
  wf_world w' /\ kinds w' = kinds w.
Proof.
  intros Hw E. apply st_bind_Ret_inv in E as ([e ls] & w1 & E & [= _ <-]).
  split; [by eapply prepare_step|]. apply prepare_inv in E as (c & _ & [(_ & ->)|(cfg & _ & _ & Ec & _)]); [done|].
  unfold kinds. by rewrite Ec.
Qed.

Lemma register_kinds ty m w e o w' : wf_world w -> ResourceDefault.RegisterDisplay ty m w = Ret ((e, o), w') ->
  match e, o with
  | kErrorNone, Some h => kinds w !! h = None /\ (forall h', kinds w !! h' <> Some ty) /\ kinds w' = <[h := ty]> (kinds w)
  | kErrorNone, None => False
  | _, _ => kinds w' = kinds w
  end.
Proof.
  intros Hw E. unfold ResourceDefault.RegisterDisplay in E. rewrite (st_bind_Ret _ _ _ _ _ eq_refl) in E.
  assert (Hnew : kinds w !! next_handle w = None).
  { unfold kinds. rewrite lookup_fmap. destruct (ctxs w !! next_handle w) as [c|] eqn:Ec; [|done].
    destruct (ww_ctx w Hw _ _ Ec) as (? & _). lia. }
  assert (Hfree : forall b, is_in_use (rd w) b = false -> b = kHWPrimary \/ b = kHWHDMI ->
    forall h', kinds w !! h' <> Some (type_of b)).
  { intros b Hu Hb h'. unfold kinds. rewrite lookup_fmap. destruct (ctxs w !! h') as [c|] eqn:Ec; [|done].
    cbn. intros [= Et]. destruct (ww_ctx w Hw _ _ Ec) as (_ & Hc & Hi).
    assert (ctx_block c = b) as Eb by (destruct Hc as [Hc|Hc], Hb as [Hb|Hb]; rewrite Hc, Hb in *; done).
    congruence. }
  destruct ty; try by injection E as <- <- <-.
  - destruct (is_in_use (rd w) kHWPrimary) eqn:Eu; [by injection E as <- <- <-|]. injection E as <- <- <-.
    split; [done|]. split; [apply (Hfree kHWPrimary); auto|]. unfold kinds at 1. cbn [ctxs]. by rewrite fmap_insert.
  - destruct (is_in_use (rd w) kHWHDMI) eqn:Eu; [by injection E as <- <- <-|]. injection E as <- <- <-.
    split; [done|]. split; [apply (Hfree kHWHDMI); auto|]. unfold kinds at 1. cbn [ctxs]. by rewrite fmap_insert.
Qed.

Lemma unregister_kinds h w e w' : wf_world w -> ResourceDefault.UnregisterDisplay h w = Ret (e, w') ->
  wf_world w' /\ kinds w' = delete h (kinds w).
Proof.
  intros Hw E. split; [by eapply unregister_step|].
  apply st_bind_Ret_inv in E as ([] & w1 & Ep & E).
  destruct (purge_step _ _ _ Hw Ep) as (_ & _ & Ec & _).
  apply st_bind_Ret_inv in E as (c & w2 & [Hc ->]%deref_inv & E). injection E as _ <-.
  unfold kinds at 1. cbn [ctxs]. by rewrite Ec, fmap_delete.
Qed.

Lemma fresh_world r k : wf r -> is_in_use r = (fun _ => false) -> fresh k (src_pipes r) -> wf_world (World r ∅ 0 []).
Proof.
  intros Hw Hu Hf. constructor; cbn [rd ctxs]; try done.
  - intros i p Hp Hb. by destruct (Hf i p Hp) as (_ & _ & ? & _).
  - intros b. by rewrite Hu.
Qed.

Section Instance.
Context (log2f : float -> float).
#[global, program] Instance default_laws : ResourceLaws RD (H := default_resources log2f) := {|
  ri_ok := rd_ok false; ri_busy := rd_ok true; ri_hw := hw_ok
|}.
Next Obligation.
  intros info r Hi E. destruct (Create_ok info Hi) as (r0 & Ec & Hw & Hu & Hf & _).
  cbn in E. rewrite Ec in E. cbn in E. injection E as <-. split; [done|]. eexists. split; [done|].
  split; [by eapply fresh_world|]. unfold kinds. cbn. by rewrite fmap_empty.
Qed.
Next Obligation.
  intros ty a p m r hs e o r' (Hl & w & Ew & Hw & ->) (w0 & w' & E0 & Em & ->)%call_inv.
  rewrite Ew in E0. injection E0 as <-. pose proof (register_kinds ty m w e o w' Hw Em) as K.
  destruct (register_step ty m w _ w' Hw Em) as [Hw' _].
  assert (R : forall hs, kinds w' = hs -> rd_ok false (mkRD (Some w') (locked r)) hs)
    by (intros hs <-; split; [done|]; by exists w').
  destruct e; try (by apply R). destruct o; [|done]. destruct K as (K1 & K2 & K3). auto.
Qed.
Next Obligation.
  intros h r hs e r' (Hl & w & Ew & Hw & ->) _ (w0 & w' & E0 & Em & ->)%scoped_inv%call_inv.
  rewrite Ew in E0. injection E0 as <-. destruct (unregister_kinds h w e w' Hw Em) as [Hw' K].
  split; [done|]. by exists w'.
Qed.
Next Obligation.
  intros h hs r e r' (Hl & w & Ew & Hw) E. unfold RI_Start in E. cbn in E. unfold Start in E.
  rewrite Ew, Hl in E. injection E as <- <-. split; [done|]. by exists w.
Qed.
Next Obligation.
  intros h hs r e r' (Hl & w & Ew & Hw) E. cbn in E. unfold Stop in E. rewrite Ew in E.
  injection E as <- <-. split; [done|]. by exists w.
Qed.
Next Obligation. intros h f hs r x r' Hr E. refine (call_keeps _ _ _ _ _ _ Hr E _). apply prepare_kinds. Qed.
Next Obligation. intros h a p m hs r e r' Hr E%scoped_inv. refine (call_keeps _ _ _ _ _ _ Hr E _). apply reconfigure_kinds. Qed.
Next Obligation. intros h f hs r e r' Hr E%scoped_inv. refine (call_keeps _ _ _ _ _ _ Hr E _). apply pure_keeps. Qed.
Next Obligation. intros h f hs r e r' Hr E%scoped_inv. refine (call_keeps _ _ _ _ _ _ Hr E _). apply pure_keeps. Qed.
Next Obligation. intros h f hs r e r' Hr E%scoped_inv. refine (call_keeps _ _ _ _ _ _ Hr E _). apply post_commit_kinds. Qed.
Next Obligation. intros h hs r e r' Hr E%scoped_inv. refine (call_keeps _ _ _ _ _ _ Hr E _). apply purge_kinds. Qed.
Next Obligation. intros h n hs r e r' Hr E%scoped_inv. refine (call_keeps _ _ _ _ _ _ Hr E _). apply pure_keeps. Qed.
Next Obligation.
  intros c d b l hs r e r' Hr E. refine (call_keeps _ _ _ _ _ _ Hr E _). intros w x w' Hw Ex.
  apply st_bind_Ret_inv in Ex as (w1 & w2 & [= <- <-] & Ex). unfold st_lift in Ex.
  destruct (ResourceDefault.ValidateScaling _ _ _ _); by inversion Ex; subst.
Qed.
Next Obligation. intros h l hs r e r' Hr E. refine (call_keeps _ _ _ _ _ _ Hr E _). apply pure_keeps. Qed.
Next Obligation. intros h f x y fb hs r e r' Hr E. refine (call_keeps _ _ _ _ _ _ Hr E _). apply pure_keeps. Qed.
Next Obligation. intros n hs r e r' Hr E. refine (call_keeps _ _ _ _ _ _ Hr E _). apply pure_keeps. Qed.
Next Obligation. intros hs r e r' Hr E. refine (call_keeps _ _ _ _ _ _ Hr E _). apply pure_keeps. Qed.
Next Obligation. intros h n hs r e r' Hr E. refine (call_keeps _ _ _ _ _ _ Hr E _). apply pure_keeps. Qed.
Next Obligation. intros h hs r e r' Hr E. refine (call_keeps _ _ _ _ _ _ Hr E _). apply pure_keeps. Qed.
End Instance.
End DefaultLaws.
