(* ===== verification/CompProps.v ===== *)
(** Correctness of the composition manager (comp_manager.cpp) over any resource
    manager that keeps [ResourceLaws] and any extension library, and its behaviour
    without the extension. *)
From S2P Require Import Prelude Rect ResourceDefault Strategy CompMgr CompLaws.
#[local] Open Scope Z_scope.

Module CompInv.
Import Float32 Rect Formats ResourceDefault Strategy CompMgr Contract.

(** * Calls of the clients *)
Inductive op :=
| ORegister (ty : DisplayType) (a : HWDisplayAttributes) (p : HWPanelInfo) (m : HWMixerAttributes) (fb : FbConfig)
| OUnregister (h : option nat)
| OReconfigureDisplay (h : nat) (a : HWDisplayAttributes) (p : HWPanelInfo) (m : HWMixerAttributes) (fb : FbConfig)
| OPrePrepare (h : nat) (a : Z)
| OPrepare (h : nat) (a : Z)
| OPostPrepare (h : nat) (a : Z)
| OCommit (h : nat) (a : Z)
| OReConfigure (h : nat) (a : Z)
| OPostCommit (h : nat) (a : Z)
| OPurge (h : nat)
| OSetIdleTimeoutMs (h : nat) (ms : Z)
| OIdleTimeout (h : option nat)
| OThermalEvent (h : nat) (level : Z)
| OIdlePowerCollapse (h : option nat)
| OSetMaxMixerStages (h : option nat) (n : Z)
| OControlPartialUpdate (h : nat) (enable : bool)
| OValidateScaling (ubwc : bool) (crop dst : LayerRect) (rotate90 : bool)
| OSetCursor (h : nat) (a x y : Z)
| OSetMaxBandwidthMode (mode : Z)
| OGetScaleLutConfig
| OSetDetailEnhancerData (h : nat) (d : Z)
| OSetCompositionState (h : nat) (k : Composition) (enable : bool)
| OControlDpps (enable : bool)
| OSetDisplayState (h : nat) (s : DisplayState) (ty : DisplayType).

Section Inv.
Context {R X : Type} `{!ResourceIface R, !ResourceLaws R, !Extension X} (ext_max : Z).
Abbreviation CM := (CM R X).
Abbreviation C := (St CM).

Definition drop {A} (m : C A) : C unit := _ ← m; mret tt.
Definition run (o : op) : C unit :=
  match o with
  | ORegister ty a p m fb => drop (RegisterDisplay ext_max ty a p m fb)
  | OUnregister h => drop (UnregisterDisplay h)
  | OReconfigureDisplay h a p m fb => drop (ReconfigureDisplay h a p m fb)
  | OPrePrepare h a => PrePrepare h a
  | OPrepare h a => drop (Prepare h a)
  | OPostPrepare h a => drop (PostPrepare h a)
  | OCommit h a => drop (Commit h a)
  | OReConfigure h a => drop (ReConfigure h a)
  | OPostCommit h a => drop (PostCommit h a)
  | OPurge h => Purge h
  | OSetIdleTimeoutMs h ms => drop (SetIdleTimeoutMs h ms)
  | OIdleTimeout h => ProcessIdleTimeout h
  | OThermalEvent h l => ProcessThermalEvent h l
  | OIdlePowerCollapse h => ProcessIdlePowerCollapse h
  | OSetMaxMixerStages h n => drop (SetMaxMixerStages h n)
  | OControlPartialUpdate h b => ControlPartialUpdate h b
  | OValidateScaling u c d r => drop (ValidateScaling u c d r)
  | OSetCursor h a x y => drop (ValidateAndSetCursorPosition h a x y)
  | OSetMaxBandwidthMode m => drop (SetMaxBandwidthMode m)
  | OGetScaleLutConfig => drop GetScaleLutConfig
  | OSetDetailEnhancerData h d => drop (SetDetailEnhancerData h d)
  | OSetCompositionState h k b => drop (SetCompositionState h k b)
  | OControlDpps b => drop (ControlDpps b)
  | OSetDisplayState h s ty => drop (SetDisplayState h s ty)
  end.
Fixpoint run_all (l : list op) : C unit :=
  match l with
  | [] => mret tt
  | o :: l => _ ← run o; run_all l
  end.

(** * What a call of one display leaves alone *)

(** The type and the resource handle of a context, which never change. *)
Definition kind (c : Ctx) : DisplayType * nat := (display_type c, display_resource_ctx c).
Definition view (g : CM) : gmap nat (DisplayType * nat) := kind <$> ctxs_ g.

Record same (P : R -> gmap nat DisplayType -> Prop) (g g' : CM) : Prop := {
  same_view : view g' = view g;
  same_next : next_ctx g' = next_ctx g;
  same_reg : registered_displays_ g' = registered_displays_ g;
  same_conf : configured_displays_ g' = configured_displays_ g;
  same_safe : safe_mode_ g' = safe_mode_ g;
  same_res : forall hs, P (resource_intf_ g) hs -> P (resource_intf_ g') hs
}.
(** The same as long as the handle [h] is that of a context of kind [k]. *)
Definition same_at P (h : nat) (k : DisplayType * nat) (g g' : CM) : Prop :=
  view g !! h = Some k -> same P g g'.

#[global] Instance same_preorder P : PreOrder (same P).
Proof.
  split; [by intros g; constructor|]. intros g1 g2 g3 [] []. constructor; try congruence. auto.
Qed.
#[global] Instance same_at_preorder P h k : PreOrder (same_at P h k).
Proof.
  split; [by intros g _; reflexivity|]. intros g1 g2 g3 H1 H2 Hv. pose proof (H1 Hv) as S1.
  transitivity g2; [done|]. apply H2. by rewrite (same_view _ _ _ S1).
Qed.

Lemma at_of_same {A} P h k (m : C A) : keeps (same P) m -> keeps (same_at P h k) m.
Proof. intros Hm g a g' E _. by eapply Hm. Qed.

Lemma env_same {A} P (m : St (Env X) A) : keeps (same P) (in_env m : C A).
Proof.
  intros g a g'. unfold in_env. destruct (m (env g)) as [[x v]| |]; try done. intros [= <- <-]. by constructor.
Qed.
Lemma resource_same {A} P (m : St R A) : (forall hs r a r', P r hs -> m r = Ret (a, r') -> P r' hs) ->
  keeps (same P) (resource m : C A).
Proof.
  intros Hm g a g'. unfold resource. destruct (m (resource_intf_ g)) as [[x r]| |] eqn:Em; try done.
  intros [= <- <-]. constructor; try done. intros hs Hr. by eapply Hm.
Qed.
Lemma get_same P : keeps (same P) (st_get : C CM).
Proof. intros g a g' [= <- <-]. reflexivity. Qed.
Lemma secure_same P l t : keeps (same P) (st_modify (upd_secure l t) : C unit).
Proof. apply keeps_modify. intros g. by constructor. Qed.
Lemma limits_same P f x : keeps (same P) (st_modify (fun g => upd_limits (f g) (x g) g) : C unit).
Proof. apply keeps_modify. intros g. by constructor. Qed.

Lemma ctx_inv h (g : CM) c g' : ctx h g = Ret (c, g') -> ctxs_ g !! h = Some c /\ g' = g.
Proof. unfold ctx. destruct (ctxs_ g !! h); [|done]. by intros [= -> ->]. Qed.

(** Reading a context tells its kind, also for what follows. *)
Lemma ctx_same {A} P h (f : Ctx -> C A) :
  (forall c, keeps (same_at P h (kind c)) (f c)) -> keeps (same P) (ctx h ≫= f).
Proof.
  intros Hf g a g' (c & g1 & [Hc ->]%ctx_inv & E)%st_bind_Ret_inv.
  eapply Hf; [done|]. unfold view. by rewrite lookup_fmap, Hc.
Qed.
Lemma ctx_same_at {A} P h k (f : Ctx -> C A) :
  (forall c, kind c = k -> keeps (same_at P h k) (f c)) -> keeps (same_at P h k) (ctx h ≫= f).
Proof.
  intros Hf g a g' (c & g1 & [Hc ->]%ctx_inv & E)%st_bind_Ret_inv Hv. pose proof Hv as Hv'.
  unfold view in Hv'. rewrite lookup_fmap, Hc in Hv'. injection Hv' as Hk. by eapply Hf.
Qed.
Lemma put_same_at P h k c : kind c = k -> keeps (same_at P h k) (put_ctx h c : C unit).
Proof.
  intros Hk. apply keeps_modify. intros g Hv. constructor; try done.
  unfold view in *. cbn. rewrite fmap_insert, Hk. by rewrite insert_id.
Qed.
Lemma strategy_same P c : keeps (same P) (strategy_of c : C Strategy.t).
Proof. unfold strategy_of. destruct (strategy c); auto with keeps typeclass_instances. Qed.

Create HintDb law.
#[local] Hint Resolve law_prepare law_reconfigure law_post_prepare law_commit law_post_commit law_purge law_stages
  law_scaling law_cursor law_cursor_pos law_bandwidth law_lut law_detail law_reset : law.
Create HintDb same.
#[local] Hint Resolve env_same get_same secure_same limits_same strategy_same : same.

(** Splits a call into the calls it makes; contexts are read with their kinds. *)
Ltac same_leaf :=
  first
    [ simple apply keeps_ret; apply _
    | simple apply keeps_undef
    | simple apply keeps_gets; apply _
    | simple apply put_same_at; first [reflexivity|assumption]
    | solve [auto 1 with same nocore]
    | simple apply resource_same; solve [eauto 2 with law nocore]
    | simple apply at_of_same; same_leaf ].
Ltac same_tac :=
  repeat first
    [ progress intros
    | progress cbv zeta
    | same_leaf
    | simple apply ctx_same_at
    | simple apply ctx_same
    | simple apply keeps_bind; [apply _| |]
    | match goal with
      | |- keeps _ (match ?x with _ => _ end) => destruct x
      | |- keeps _ (if ?b then _ else _) => destruct b
      end ].

Lemma ReconfigureDisplay_same h a p m fb : keeps (same ri_ok) (ReconfigureDisplay h a p m fb : C _).
Proof. unfold ReconfigureDisplay. same_tac. Qed.

Lemma constraints_same h a : keeps (same ri_ok) (PrepareStrategyConstraints h a : C _).
Proof. unfold PrepareStrategyConstraints. same_tac. Qed.

Lemma cursor_same h a : keeps (same ri_ok) (SupportLayerAsCursor h a : C _).
Proof. unfold SupportLayerAsCursor. same_tac. Qed.
#[local] Hint Resolve cursor_same constraints_same : same.

Lemma PrePrepare_same h a : keeps (same ri_ok) (PrePrepare h a : C _).
Proof. unfold PrePrepare. same_tac. Qed.

Lemma resource_prepare_same h k rh a : keeps (same_at ri_busy h k) (resource_prepare rh a : C _).
Proof. unfold resource_prepare. same_tac. Qed.
#[local] Hint Resolve resource_prepare_same : same.

Lemma loop_same n h k a e : keeps (same_at ri_busy h k) (strategy_loop n h a e : C _).
Proof. revert e. induction n; intros e; cbn [strategy_loop]; same_tac; apply IHn. Qed.

Lemma PostPrepare_same h a : keeps (same ri_ok) (PostPrepare h a : C _).
Proof. unfold PostPrepare. same_tac. Qed.

(** Between Start and Stop the resource manager is busy. *)
Lemma bracket_same {A B} h k rh (m : C A) (f : A -> DisplayError -> C B) :
  keeps (same_at ri_busy h k) m -> (forall a e, keeps (same_at ri_ok h k) (f a e)) ->
  keeps (same_at ri_ok h k) (_ ← resource (RI_Start rh); a ← m; e ← resource (RI_Stop rh); f a e).
Proof.
  intros Hm Hf g b g' E Hv. apply st_bind_Ret_inv in E as (e0 & g1 & E1 & E).
  apply st_bind_Ret_inv in E as (a & g2 & E2 & E). apply st_bind_Ret_inv in E as (e & g3 & E3 & E).
  unfold resource in E1, E3. destruct (RI_Start rh _) as [[x1 r1]| |] eqn:R1; try done. injection E1 as <- <-.
  destruct (RI_Stop rh _) as [[x3 r3]| |] eqn:R3; try done. injection E3 as <- <-.
  destruct (Hm _ _ _ E2 Hv) as [V2 N2 G2 D2 S2 P2].
  assert (S3 : same ri_ok g (with_res r3 g2)).
  { constructor; try done. intros hs Hr. eapply law_stop, R3. eapply P2, law_start, R1. exact Hr. }
  transitivity (with_res r3 g2); [done|]. eapply Hf; [exact E|]. by rewrite (same_view _ _ _ S3).
Qed.

Lemma Prepare_same h a : keeps (same ri_ok) (Prepare h a : C _).
Proof.
  unfold Prepare. simple apply keeps_bind; [apply _|apply constraints_same|]. intros _. apply ctx_same. intros c.
  apply bracket_same; [apply loop_same|]. same_tac.
Qed.

Lemma ReConfigure_same h a : keeps (same ri_ok) (ReConfigure h a : C _).
Proof.
  unfold ReConfigure. apply ctx_same. intros c.
  apply (bracket_same h (kind c) (display_resource_ctx c) (resource_prepare (display_resource_ctx c) a)); same_tac.
Qed.

Lemma Purge_same h : keeps (same ri_ok) (Purge h : C _).
Proof. unfold Purge. same_tac. Qed.

(** * Which calls those are *)
Definition frame_op (o : op) : bool :=
  match o with
  | ORegister _ _ _ _ _ | OUnregister _ | OPostCommit _ _ | OSetDisplayState _ _ _ => false
  | _ => true
  end.
#[local] Hint Resolve ReconfigureDisplay_same PrePrepare_same Prepare_same PostPrepare_same ReConfigure_same Purge_same : same.

Lemma run_same o : frame_op o = true -> keeps (same ri_ok) (run o).
Proof.
  destruct o; intros Ho; try done; cbn [run]; unfold drop;
  lazymatch goal with |- keeps _ (_ ≫= _) => apply keeps_bind; [apply _| |same_tac] | _ => idtac end;
  unfold Commit, SetIdleTimeoutMs, ProcessIdleTimeout, ProcessThermalEvent, ProcessIdlePowerCollapse, SetMaxMixerStages,
    ControlPartialUpdate, ValidateScaling, ValidateAndSetCursorPosition, SetMaxBandwidthMode, GetScaleLutConfig,
    SetDetailEnhancerData, SetCompositionState, ControlDpps; same_tac.
Qed.

Lemma PostCommit_cases h a g e g' : PostCommit h a g = Ret (e, g') -> exists c, ctxs_ g !! h = Some c /\
  exists g1, same ri_ok g1 g' /\ view g1 = view g /\ next_ctx g1 = next_ctx g /\ resource_intf_ g1 = resource_intf_ g /\
    registered_displays_ g1 = registered_displays_ g /\
    configured_displays_ g1 = {[display_type c]} ∪ configured_displays_ g /\
    safe_mode_ g1 = (if decide (configured_displays_ g1 = registered_displays_ g) then false else safe_mode_ g).
Proof.
  intros E. unfold PostCommit in E. apply st_bind_Ret_inv in E as (c & g0 & [Hc ->]%ctx_inv & E).
  exists c. split; [done|]. rewrite !(st_bind_Ret _ _ _ _ _ eq_refl) in E.
  match type of E with _ ?x = _ => exists x; set (g1 := x) in * end.
  assert (G : view g1 = view g /\ registered_displays_ g1 = registered_displays_ g /\ next_ctx g1 = next_ctx g /\
    resource_intf_ g1 = resource_intf_ g /\ configured_displays_ g1 = {[display_type c]} ∪ configured_displays_ g /\
    safe_mode_ g1 = (if decide (configured_displays_ g1 = registered_displays_ g) then false else safe_mode_ g)).
  { unfold g1. cbn. repeat case_decide; cbn in *; by split_and!. }
  destruct G as (Gv & Gr & Gn & Gi & Gc & Gs). split_and!; try done.
  refine ((_ : keeps (same_at ri_ok h (kind c)) _) _ _ _ E _); [same_tac|].
  rewrite Gv. unfold view. by rewrite lookup_fmap, Hc.
Qed.

Lemma SetDisplayState_cases h s ty g b g' : SetDisplayState h s ty g = Ret (b, g') ->
  view g' = view g /\ next_ctx g' = next_ctx g /\ registered_displays_ g' = registered_displays_ g /\
  configured_displays_ g' ⊆ configured_displays_ g /\
  (forall hs, ri_ok (resource_intf_ g) hs -> ri_ok (resource_intf_ g') hs).
Proof.
  intros E. unfold SetDisplayState in E. rewrite !(st_bind_Ret _ _ _ _ _ eq_refl) in E.
  match type of E with _ ?x = _ => set (g1 := x) in * end.
  destruct s; cbn match in E; try (injection E as _ <-; by subst g1).
  - apply st_bind_Ret_inv in E as ([] & g2 & E1 & E). injection E as _ <-.
    destruct (Purge_same h _ _ _ E1) as [V N G D _ P]. cbn in *. split_and!; try done. rewrite D. set_solver.
  - injection E as _ <-. destruct (1 <? _); by subst g1.
Qed.

(** * The invariant *)

(** Every context holds a resource handle for its type of display, every resource
    handle given out belongs to a context, no two contexts are for one type, and
    the bit masks say which types are registered and configured. *)
Record cm_ok (g : CM) (hs : gmap nat DisplayType) : Prop := {
  ok_res : ri_ok (resource_intf_ g) hs;
  ok_fresh : forall h k, view g !! h = Some k -> (h < next_ctx g)%nat;
  ok_held : forall h ty rh, view g !! h = Some (ty, rh) -> hs !! rh = Some ty;
  ok_owned : forall rh ty, hs !! rh = Some ty -> exists h, view g !! h = Some (ty, rh);
  ok_one : forall h h' ty rh rh', view g !! h = Some (ty, rh) -> view g !! h' = Some (ty, rh') -> h = h';
  ok_reg : forall ty, ty ∈ registered_displays_ g <-> exists h rh, view g !! h = Some (ty, rh);
  ok_conf : configured_displays_ g ⊆ registered_displays_ g
}.

(** It depends only on what [same] keeps. *)
Lemma cm_ok_transfer g g' hs : cm_ok g hs -> view g' = view g -> next_ctx g' = next_ctx g ->
  registered_displays_ g' = registered_displays_ g -> configured_displays_ g' ⊆ registered_displays_ g ->
  ri_ok (resource_intf_ g') hs -> cm_ok g' hs.
Proof.
  intros [] V N G D P. constructor; rewrite ?V, ?N, ?G; auto.
Qed.

Lemma view_lookup g h c : ctxs_ g !! h = Some c -> view g !! h = Some (display_type c, display_resource_ctx c).
Proof. intros Hc. unfold view. by rewrite lookup_fmap, Hc. Qed.

Lemma same_ok g g' hs : same ri_ok g g' -> cm_ok g hs -> cm_ok g' hs.
Proof. intros [V N G D S P] Hk. apply (cm_ok_transfer g); try done; [rewrite D; apply Hk|apply P, Hk]. Qed.

Lemma PostCommit_ok h a g e g' hs : cm_ok g hs -> PostCommit h a g = Ret (e, g') -> cm_ok g' hs.
Proof.
  intros Hk (c & Hc & g1 & Hs & V & N & I & G & D & _)%PostCommit_cases. apply (same_ok g1); [done|].
  apply (cm_ok_transfer g); try done; [|rewrite I; apply Hk].
  rewrite D. apply union_subseteq. split; [|apply Hk]. apply singleton_subseteq_l, (ok_reg _ _ Hk).
  eexists _, _. by apply view_lookup.
Qed.

Lemma SetDisplayState_ok h s ty g b g' hs : cm_ok g hs -> SetDisplayState h s ty g = Ret (b, g') -> cm_ok g' hs.
Proof.
  intros Hk (V & N & G & D & P)%SetDisplayState_cases. apply (cm_ok_transfer g); try done; [|apply P, Hk].
  etrans; [exact D|apply Hk].
Qed.

(** Adding a context for a new type, and removing one. *)
Lemma cm_ok_insert g g' hs h c : cm_ok g hs -> ctxs_ g' = <[next_ctx g := c]> (ctxs_ g) ->
  next_ctx g' = S (next_ctx g) -> registered_displays_ g' = {[display_type c]} ∪ registered_displays_ g ->
  configured_displays_ g' = configured_displays_ g -> display_resource_ctx c = h -> hs !! h = None ->
  (forall h', hs !! h' <> Some (display_type c)) -> ri_ok (resource_intf_ g') (<[h := display_type c]> hs) ->
  cm_ok g' (<[h := display_type c]> hs).
Proof.
  intros [] Ec En Er Ed Eh Hn Ht Hr.
  assert (V : view g' = <[next_ctx g := (display_type c, h)]> (view g))
    by (unfold view; rewrite Ec, fmap_insert; by rewrite <- Eh).
  assert (Hv : view g !! next_ctx g = None).
  { destruct (view g !! next_ctx g) eqn:E; [|done]. apply ok_fresh0 in E. lia. }
  constructor; rewrite ?V, ?En, ?Er, ?Ed; [done|..].
  - intros h' k [[<- _]|[_ ?%ok_fresh0]]%lookup_insert_Some; lia.
  - intros h' ty rh [[<- [= <- <-]]|[_ Hl]]%lookup_insert_Some; [by rewrite lookup_insert_eq|].
    apply ok_held0 in Hl. rewrite lookup_insert_ne; [done|]. congruence.
  - intros rh ty [[<- <-]|[_ (h' & Hl)%ok_owned0]]%lookup_insert_Some.
    + eexists. by rewrite lookup_insert_eq.
    + exists h'. rewrite lookup_insert_ne; [done|]. congruence.
  - intros h1 h2 ty rh rh' [[<- [= <- <-]]|[_ H1]]%lookup_insert_Some [[<- E2]|[_ H2]]%lookup_insert_Some; [done|..].
    + by apply ok_held0, Ht in H2.
    + injection E2 as <- <-. by apply ok_held0, Ht in H1.
    + by eapply ok_one0.
  - intros ty. rewrite elem_of_union, elem_of_singleton, ok_reg0. split.
    + intros [->|(h' & rh & Hl)]; [exists (next_ctx g), h; by rewrite lookup_insert_eq|].
      exists h', rh. rewrite lookup_insert_ne; [done|]. congruence.
    + intros (h' & rh & [[_ [= <- _]]|[_ Hl]]%lookup_insert_Some); eauto.
  - set_solver.
Qed.

Lemma cm_ok_delete g g' hs h ty rh : cm_ok g hs -> view g !! h = Some (ty, rh) -> view g' = delete h (view g) ->
  next_ctx g' = next_ctx g -> registered_displays_ g' = registered_displays_ g ∖ {[ty]} ->
  configured_displays_ g' = configured_displays_ g ∖ {[ty]} -> ri_ok (resource_intf_ g') (delete rh hs) ->
  cm_ok g' (delete rh hs).
Proof.
  intros [] Hh V En Er Ed Hr. constructor; rewrite ?V, ?En, ?Er, ?Ed; [done|..].
  - intros h' k [_ Hl]%lookup_delete_Some. eauto.
  - intros h' ty' rh' [Hne Hl]%lookup_delete_Some. apply lookup_delete_Some. split; [|eauto].
    intros ->. apply Hne. apply ok_held0 in Hl as Hs. rewrite (ok_held0 _ _ _ Hh) in Hs. injection Hs as <-. eauto.
  - intros rh' ty' [Hne (h' & Hl)%ok_owned0]%lookup_delete_Some. exists h'. apply lookup_delete_Some.
    split; [|done]. congruence.
  - intros h1 h2 ty' r1 r2 [_ H1]%lookup_delete_Some [_ H2]%lookup_delete_Some. eauto.
  - intros ty'. rewrite elem_of_difference, elem_of_singleton, ok_reg0. split.
    + intros [(h' & rh' & Hl) Hne]. exists h', rh'. apply lookup_delete_Some. split; [|done]. congruence.
    + intros (h' & rh' & [Hne Hl]%lookup_delete_Some). split; [eauto|]. intros ->. eauto.
  - set_solver.
Qed.

Lemma RegisterDisplay_ok ty a p m fb g x g' hs : cm_ok g hs -> RegisterDisplay ext_max ty a p m fb g = Ret (x, g') ->
  exists hs', cm_ok g' hs'.
Proof.
  intros Hk E. unfold RegisterDisplay in E. rewrite (st_bind_Ret _ _ _ _ _ eq_refl) in E. cbv zeta in E.
  apply st_bind_Ret_inv in E as ([e s] & g1 & E1 & E). pose proof (env_same ri_ok _ _ _ _ E1) as S1.
  pose proof (same_ok _ _ _ S1 Hk) as K1. destruct (decide (e <> kErrorNone)); [injection E as _ <-; eauto|].
  apply st_bind_Ret_inv in E as ([e2 rh] & g2 & E2 & E). unfold resource in E2.
  destruct (RI_RegisterDisplay _ _ _ _ _) as [[[e3 rh'] r']| |] eqn:ER; try done. injection E2 as -> -> <-.
  pose proof (law_register _ _ _ _ _ _ _ _ _ (ok_res _ _ K1) ER) as L.
  assert (Kf : ri_ok r' hs -> cm_ok (with_res r' g1) hs).
  { intros L'. by apply (cm_ok_transfer g1); try apply K1. }
  destruct e2; try (apply st_bind_Ret_inv in E as (e3 & g3 & E3%(env_same ri_ok) & [= _ <-]);
    exists hs; eapply same_ok; [exact E3|auto]).
  destruct rh as [rh|]; [|done]. destruct L as (L1 & L2 & L3). rewrite !(st_bind_Ret _ _ _ _ _ eq_refl) in E.
  eexists. apply st_bind_Ret_inv in E as ([] & g3 & E3 & [= _ <-]).
  destruct (negb _); injection E3 as <-; eapply (cm_ok_insert g1); done.
Qed.

(** A display that was registered is new: it is not configured yet. *)
Lemma RegisterDisplay_new ty a p m fb g h g' hs : cm_ok g hs ->
  RegisterDisplay ext_max ty a p m fb g = Ret ((kErrorNone, Some h), g') -> exists c, ctxs_ g' !! h = Some c /\
    safe_mode_ g' = (if is_primary_panel p then safe_mode_ g else true) /\ display_type c ∉ configured_displays_ g'.
Proof.
  intros Hk E. unfold RegisterDisplay in E. rewrite (st_bind_Ret _ _ _ _ _ eq_refl) in E. cbv zeta in E.
  apply st_bind_Ret_inv in E as ([e s] & g1 & E1 & E). pose proof (env_same ri_ok _ _ _ _ E1) as S1.
  pose proof (same_ok _ _ _ S1 Hk) as K1. destruct (decide (e <> kErrorNone)); [discriminate|].
  apply st_bind_Ret_inv in E as ([e2 rh] & g2 & E2 & E). unfold resource in E2.
  destruct (RI_RegisterDisplay _ _ _ _ _) as [[[e3 rh'] r']| |] eqn:ER; try done. injection E2 as -> -> <-.
  pose proof (law_register _ _ _ _ _ _ _ _ _ (ok_res _ _ K1) ER) as L.
  destruct e2; try (by apply st_bind_Ret_inv in E as (? & ? & _ & [=])).
  destruct rh as [rh|]; [|done]. destruct L as (_ & L2 & _). rewrite !(st_bind_Ret _ _ _ _ _ eq_refl) in E.
  assert (Hn : ty ∉ configured_displays_ g1).
  { intros (h' & rh' & Hv)%(ok_conf _ _ K1)%(ok_reg _ _ K1). by apply (ok_held _ _ K1), L2 in Hv. }
  apply st_bind_Ret_inv in E as ([] & g3 & E3 & [= <- <-]). destruct (is_primary_panel p); injection E3 as <-;
    (eexists; split; [apply lookup_insert_eq|]; split; [try done; apply S1|done]).
Qed.

Lemma UnregisterDisplay_ok h g x g' hs : cm_ok g hs -> UnregisterDisplay h g = Ret (x, g') -> exists hs', cm_ok g' hs'.
Proof.
  intros Hk E. destruct h as [h|]; [|injection E as _ <-; eauto].
  apply st_bind_Ret_inv in E as (c & g0 & [Hc ->]%ctx_inv & E). pose proof (view_lookup _ _ _ Hc) as Hv.
  apply st_bind_Ret_inv in E as (e & g1 & E1 & E). unfold resource in E1.
  destruct (RI_UnregisterDisplay _ _) as [[e1 r']| |] eqn:ER; try done. injection E1 as -> <-.
  pose proof (law_unregister _ _ _ _ _ (ok_res _ _ Hk) (ltac:(rewrite (ok_held _ _ Hk _ _ _ Hv); eauto)) ER) as L.
  apply st_bind_Ret_inv in E as (s & g2 & E2%(strategy_same ri_ok) & E).
  apply st_bind_Ret_inv in E as (e3 & g3 & E3%(env_same ri_ok) & E).
  destruct (transitivity E2 E3) as [V N G D _ P]. rewrite (st_bind_Ret _ _ _ _ _ eq_refl) in E.
  apply st_bind_Ret_inv in E as ([] & g4 & E4 & E). rewrite (st_bind_Ret _ _ _ _ _ eq_refl) in E. injection E as _ <-.
  exists (delete (display_resource_ctx c) hs).
  assert (V' : kind <$> delete h (ctxs_ g3) = delete h (view g)) by (rewrite fmap_delete; f_equal; exact V).
  destruct (decide (display_type c = kHDMI)); injection E4 as <-; apply (cm_ok_delete g) with (h := h) (ty := display_type c);
    try done; cbn; rewrite ?G, ?D; auto.
Qed.

Lemma run_ok o g g' hs : cm_ok g hs -> run o g = Ret (tt, g') -> exists hs', cm_ok g' hs'.
Proof.
  intros Hk E. destruct (frame_op o) eqn:Ho; [exists hs; eapply same_ok; [by eapply run_same|done]|].
  destruct o; try done; cbn [run] in E; unfold drop in E; apply st_bind_Ret_inv in E as (x & g1 & E & [= <-]).
  - by eapply RegisterDisplay_ok.
  - by eapply UnregisterDisplay_ok.
  - exists hs. by eapply PostCommit_ok.
  - exists hs. by eapply SetDisplayState_ok.
Qed.

Lemma run_all_ok l : forall g g' hs, cm_ok g hs -> run_all l g = Ret (tt, g') -> exists hs', cm_ok g' hs'.
Proof.
  induction l as [|o l IH]; intros g g' hs Hk E; [injection E as <-; eauto|].
  apply st_bind_Ret_inv in E as ([] & g1 & E1 & E). destruct (run_ok _ _ _ _ Hk E1) as [hs1 K1]. by eapply IH.
Qed.

Lemma Init_ok info b v g : ri_hw (res_info info) -> CompMgr.Init info b v = Ret (kErrorNone, Some g) -> cm_ok g ∅.
Proof.
  intros Hi E. unfold CompMgr.Init in E. apply bind_Ret_inv in E as ([e r] & E1 & E).
  apply bind_Ret_inv in E as ([d v1] & E2 & E). destruct (decide (e <> kErrorNone)) as [He|He].
  - apply bind_Ret_inv in E as ([] & E3 & E). discriminate.
  - apply dec_stable in He as ->. injection E as <-. constructor; cbn; try done.
    + by eapply law_create.
    + intros ty. split; [set_solver|]. by intros (h & rh & Hl).
Qed.

(** * Safe mode *)
(** Every call but RegisterDisplay, UnregisterDisplay and SetDisplayState. *)
Definition frame_or_commit (o : op) : Prop := frame_op o = true \/ exists h a, o = OPostCommit h a.
Definition commits (h : nat) (l : list op) : Prop := exists a, OPostCommit h a ∈ l.

Lemma run_all_snoc l o g g' : run_all (l ++ [o]) g = Ret (tt, g') ->
  exists g1, run_all l g = Ret (tt, g1) /\ run o g1 = Ret (tt, g').
Proof.
  revert g. induction l as [|o' l IH]; intros g E.
  - apply st_bind_Ret_inv in E as ([] & g1 & E1 & [= <-]). eauto.
  - apply st_bind_Ret_inv in E as ([] & g1 & E1 & E). apply IH in E as (g2 & E2 & E3).
    exists g2. split; [|done]. change (run_all (o' :: l)) with (_ ← run o'; run_all l).
    by rewrite (st_bind_Ret _ _ _ _ _ E1).
Qed.

(** What a sequence of frames does: the displays committed are configured, and safe
    mode ends with the commit that makes every registered display configured. *)
Lemma frames_run l g g' hs : cm_ok g hs -> Forall frame_or_commit l -> run_all l g = Ret (tt, g') ->
  cm_ok g' hs /\ view g' = view g /\ registered_displays_ g' = registered_displays_ g /\
  (forall ty, ty ∈ configured_displays_ g' <-> ty ∈ configured_displays_ g \/
     exists h rh, view g !! h = Some (ty, rh) /\ commits h l) /\
  (configured_displays_ g' <> registered_displays_ g -> safe_mode_ g' = safe_mode_ g) /\
  ((exists h, commits h l) -> configured_displays_ g' = registered_displays_ g -> safe_mode_ g' = false).
Proof.
  intros Hk. revert g'. induction l as [|o l IH] using rev_ind; intros g' Hl E.
  { injection E as <-. unfold commits. split_and!; try done; [|by intros (h & a & ?%elem_of_nil)].
    intros ty. split; [auto|]. intros [?|(h & rh & _ & a & ?%elem_of_nil)]; done. }
  apply Forall_app in Hl as [Hl Ho]. apply list.Forall_cons in Ho as [Ho _]. apply run_all_snoc in E as (g1 & E1 & E).
  destruct (IH g1 Hl E1) as (K1 & V1 & R1 & D1 & S1 & T1). clear IH.
  assert (Hin : forall h, commits h (l ++ [o]) <-> commits h l \/ exists a, o = OPostCommit h a).
  { intros h. unfold commits. setoid_rewrite elem_of_app. setoid_rewrite list_elem_of_singleton. naive_solver. }
  unfold frame_or_commit in Ho. destruct Ho as [Ho|(h & a & Eo)]; [|subst o].
  - destruct (run_same _ Ho _ _ _ E) as [V N G D S P]. assert (Hno : forall h a, o <> OPostCommit h a) by (by intros ?? ->).
    split_and!; [by eapply same_ok, K1; eapply run_same|congruence|congruence|..].
    + intros ty. rewrite D, D1. setoid_rewrite Hin. naive_solver.
    + rewrite D, S. exact S1.
    + rewrite D, S. setoid_rewrite Hin. intros (h & [Hc|(a & ?)]); [eauto|naive_solver].
  - cbn [run] in E. apply st_bind_Ret_inv in E as (e & g2 & E & [= <-]). pose proof (PostCommit_ok _ _ _ _ _ _ K1 E) as K2.
    apply PostCommit_cases in E as (c & Hc & g3 & [V N G D S P] & V3 & N3 & I3 & G3 & D3 & S3).
    assert (Hv : view g !! h = Some (kind c)) by (rewrite <- V1; by apply view_lookup).
    assert (Hreg : display_type c ∈ registered_displays_ g).
    { rewrite <- R1. apply (ok_reg _ _ K1). eexists _, _. by apply view_lookup. }
    split_and!; [done|congruence|congruence|..].
    + intros ty. rewrite D, D3, elem_of_union, elem_of_singleton, D1. setoid_rewrite Hin. split.
      * intros [->|[?|(h' & rh & ? & ?)]]; [|by left|right; naive_solver].
        right. exists h, (display_resource_ctx c). split; [done|]. right. by exists a.
      * intros [?|(h' & rh & Hh' & [?|(a' & [= <- <-])])]; [by auto|right; right; naive_solver|].
        rewrite Hv in Hh'. injection Hh' as <- _. by left.
    + intros Hne. rewrite S, S3. rewrite D in Hne. rewrite R1, decide_False by done. apply S1.
      intros E'. apply Hne. rewrite D3, E'. set_solver.
    + intros _ He. rewrite S, S3, decide_True; [done|]. by rewrite <- D, R1.
Qed.

(** * The strategies of a frame are used up *)

(** The contexts are left alone. *)
Definition ctxs_eq (g g' : CM) : Prop := ctxs_ g' = ctxs_ g.
#[global] Instance ctxs_eq_preorder : PreOrder ctxs_eq.
Proof. split; [done|]. unfold ctxs_eq. intros g1 g2 g3. congruence. Qed.

Lemma env_ctxs {A} (m : St (Env X) A) : keeps ctxs_eq (in_env m : C A).
Proof. intros g a g'. unfold in_env. destruct (m (env g)) as [[x v]| |]; try done. by intros [= <- <-]. Qed.
Lemma resource_ctxs {A} (m : St R A) : keeps ctxs_eq (resource m : C A).
Proof. intros g a g'. unfold resource. destruct (m _) as [[x v]| |]; try done. by intros [= <- <-]. Qed.
Lemma get_ctxs : keeps ctxs_eq (st_get : C CM).
Proof. by intros g a g' [= <- <-]. Qed.
Lemma secure_ctxs l t : keeps ctxs_eq (st_modify (upd_secure l t) : C unit).
Proof. by apply keeps_modify. Qed.
Lemma in_env_inv {A} (m : St (Env X) A) (g : CM) x g' : in_env m g = Ret (x, g') ->
  exists v, m (env g) = Ret (x, v) /\ g' = with_env v g.
Proof. unfold in_env. destruct (m _) as [[]| |]; intros [= <- <-]. eauto. Qed.
Lemma strategy_ctxs c : keeps ctxs_eq (strategy_of c : C Strategy.t).
Proof. unfold strategy_of. destruct (strategy c); auto with keeps typeclass_instances. Qed.
Lemma ctx_ctxs h : keeps ctxs_eq (ctx h : C Ctx).
Proof. by intros g a g' [_ ->]%ctx_inv. Qed.
#[local] Hint Resolve env_ctxs resource_ctxs get_ctxs secure_ctxs strategy_ctxs ctx_ctxs : keeps.

Lemma resource_prepare_ctxs rh a : keeps ctxs_eq (resource_prepare rh a : C _).
Proof. unfold resource_prepare. keeps_tac. Qed.
#[local] Hint Resolve resource_prepare_ctxs : keeps.

Lemma constraints_ctxs h a (g g' : CM) : PrepareStrategyConstraints h a g = Ret (tt, g') ->
  exists c k, ctxs_ g !! h = Some c /\ ctxs_ g' = <[h := set_constraints k c]> (ctxs_ g).
Proof.
  intros E. apply st_bind_Ret_inv in E as (c & g0 & [Hc ->]%ctx_inv & E).
  rewrite (st_bind_Ret _ _ _ _ _ eq_refl) in E. cbv zeta in E.
  apply st_bind_Ret_inv in E as ([safe mx] & g1 & E1 & E). rewrite (st_bind_Ret _ _ _ _ _ eq_refl) in E.
  apply st_bind_Ret_inv in E as (safe' & g2 & E2 & E). injection E as <-. cbn [ctxs_ upd_ctxs].
  assert (ctxs_eq g g1) as C1 by (refine ((_ : keeps ctxs_eq _) _ _ _ E1); keeps_tac).
  assert (ctxs_eq g1 g2) as C2 by (refine ((_ : keeps ctxs_eq _) _ _ _ E2); keeps_tac).
  eexists c, _. split; [done|]. by rewrite C2, C1.
Qed.

(** Each turn of the loop uses up one strategy. *)
Lemma loop_counts n h a : forall e (g : CM) e' g' c, strategy_loop n h a e g = Ret (e', g') -> ctxs_ g !! h = Some c ->
  (n = O /\ e' = e /\ g' = g) \/
  exists n', (n' < n)%nat /\ ctxs_ g' !! h = Some (set_counts (max_strategies c) n' c).
Proof.
  induction n as [|n IH]; intros e g e' g' c E Hc; [left; by injection E as <- <-|]. right.
  apply st_bind_Ret_inv in E as (c0 & g0 & [Hc0 ->]%ctx_inv & E). rewrite Hc in Hc0. injection Hc0 as <-.
  apply st_bind_Ret_inv in E as (s & g1 & E1%strategy_ctxs & E).
  apply st_bind_Ret_inv in E as (e1 & g2 & E2%env_ctxs & E).
  apply st_bind_Ret_inv in E as (e2 & g3 & E3 & E).
  assert (ctxs_eq g2 g3) as C3 by (refine ((_ : keeps ctxs_eq _) _ _ _ E3); keeps_tac).
  assert (Hc3 : ctxs_ g3 !! h = Some c) by (rewrite C3, E2, E1; exact Hc).
  apply st_bind_Ret_inv in E as (c1 & g4 & [Hc1 ->]%ctx_inv & E). rewrite Hc3 in Hc1. injection Hc1 as <-.
  rewrite (st_bind_Ret _ _ _ _ _ eq_refl) in E. cbv beta in E.
  set (g4 := upd_ctxs _ g3) in E.
  assert (Hc4 : ctxs_ g4 !! h = Some (set_counts (max_strategies c) n c)) by apply lookup_insert_eq.
  assert (Hdone : g' = g4 -> exists n', (n' < S n)%nat /\ ctxs_ g' !! h = Some (set_counts (max_strategies c) n' c))
    by (intros ->; exists n; split; [lia|done]).
  destruct (decide (e1 <> kErrorNone)); [injection E as _ <-; auto|].
  destruct (decide (e2 = kErrorNone)); [injection E as _ <-; auto|].
  destruct (IH _ _ _ _ _ E Hc4) as [(-> & -> & ->)|(n' & Hn & Hc')]; [auto|]. exists n'. split; [lia|done].
Qed.

(** A call of Prepare uses up at least one strategy, or there was none left. *)
Lemma Prepare_counts h a (g : CM) e g' c : Prepare h a g = Ret (e, g') -> ctxs_ g !! h = Some c ->
  exists c', ctxs_ g' !! h = Some c' /\ max_strategies c' = max_strategies c /\
    (remaining_strategies c <= 0 -> e = kErrorUndefined) /\
    (0 < remaining_strategies c -> 0 <= remaining_strategies c' < remaining_strategies c).
Proof.
  intros E Hc. apply st_bind_Ret_inv in E as ([] & g1 & E1 & E).
  apply constraints_ctxs in E1 as (c0 & k & Hc0 & C1). rewrite Hc in Hc0. injection Hc0 as <-.
  apply st_bind_Ret_inv in E as (c1 & g2 & [Hc1 ->]%ctx_inv & E). rewrite C1, lookup_insert_eq in Hc1. injection Hc1 as <-.
  apply st_bind_Ret_inv in E as (e0 & g3 & E2%resource_ctxs & E).
  apply st_bind_Ret_inv in E as (e1 & g4 & E3 & E). apply st_bind_Ret_inv in E as (e2 & g5 & E4%resource_ctxs & E).
  injection E as <- <-. apply (loop_counts _ _ _ _ _ _ _ (set_constraints k c)) in E3.
  - destruct E3 as [(Hn & -> & ->)|(n' & Hn & Hc')].
    + exists (set_constraints k c). rewrite E4, E2, C1, lookup_insert_eq. split_and!; [done|done| |].
      * by rewrite decide_True.
      * cbn in *. lia.
    + eexists. rewrite E4. split; [exact Hc'|]. cbn in *. split_and!; [done|lia|lia].
  - rewrite E2, C1. apply lookup_insert_eq.
Qed.
End Inv.
End CompInv.

(** * A frame without the extension library *)
Module GpuFrame.
Import Float32 Rect Formats ResourceDefault Strategy CompMgr.

(** What the strategy makes of a frame whose application layers [apps] come before
    the target: all of them are for the GPU, only the target goes to the hardware. *)
Definition gpu_frame (s : Strategy.t) (apps rest : list StackLayer) (target : StackLayer) (dst : LayerRect)
    (f : Frame) : Frame :=
  let f := full_rois s f in
  set_hw (<[0%nat := Z.of_nat (length apps)]> (index f)) [set_dst dst target]
    (set_layers ((reset_request ∘ set_composition kCompositionGPU <$> apps) ++ target :: rest) f).

(** The strategy of a display that works without the extension. *)
Definition plain (s : Strategy.t) : Prop :=
  strategy_intf_ s = None /\ partial_update_intf_ s = None /\ disable_gpu_comp_ s = false.
Definition gpu_stack (apps rest : list StackLayer) (target : StackLayer) (f : Frame) : Prop :=
  layers (stack f) = apps ++ target :: rest /\ apps <> [] /\
  app_layer_count f = length apps /\ gpu_target_index f = length apps.
Definition fb_rect (s : Strategy.t) : LayerRect :=
  mkRect f_zero f_zero (FLOAT (x_pixels (Strategy.fb_config_ s))) (FLOAT (y_pixels (Strategy.fb_config_ s))).
Definition mixer_rect (s : Strategy.t) : LayerRect :=
  mkRect f_zero f_zero (FLOAT (m_width (mixer_attributes_ s))) (FLOAT (m_height (mixer_attributes_ s))).

Section Frame.
Context {R X : Type} `{!ResourceIface R, !Extension X}.
Abbreviation CM := (CM R X).

Lemma rois_stack s f : stack (full_rois s f) = stack f /\ app_layer_count (full_rois s f) = app_layer_count f /\
  gpu_target_index (full_rois s f) = gpu_target_index f.
Proof. unfold full_rois. by destruct (_ && _). Qed.

Lemma Start_plain s a pu (v : Env X) f apps rest target : plain s -> frames v !! a = Some f -> gpu_stack apps rest target f ->
  Strategy.Start s a pu v =
    Ret ((kErrorNone, Some 1, set_start (Some a) false s), mkEnv (<[a := full_rois s f]> (frames v)) (ext v)).
Proof.
  intros (Es & Ep & Eg) Hf (_ & Ha & _ & Et). unfold Strategy.Start.
  assert (G : get_frame a v = Ret (f, v)) by (unfold get_frame; by rewrite Hf).
  rewrite (st_bind_Ret _ _ _ _ _ G). cbn [set_start disable_gpu_comp_ partial_update_intf_ strategy_intf_].
  rewrite Eg, Et, Es, Ep. rewrite (proj2 (Z.eqb_neq _ 0)) by (destruct apps; cbn [length]; [done|lia]).
  cbn [negb andb]. rewrite (st_bind_Ret _ _ _ _ _ eq_refl). unfold Strategy.GenerateROI.
  cbn [set_start partial_update_intf_]. rewrite Ep.
  assert (Ev : (error ← (mret kErrorUndefined : St (Env X) DisplayError); if decide (error = kErrorNone) then mret tt
    else f ← get_frame a; put_frame a (full_rois (set_start (Some a) false s) f)) v =
    Ret (tt, mkEnv (<[a := full_rois s f]> (frames v)) (ext v))).
  { rewrite (st_bind_Ret _ _ _ _ _ eq_refl). rewrite decide_False by done. by rewrite (st_bind_Ret _ _ _ _ _ G). }
  by rewrite (st_bind_Ret _ _ _ _ _ Ev).
Qed.

Lemma Next_plain s a k (v : Env X) f apps rest target dst : plain s -> frames v !! a = Some (full_rois s f) ->
  gpu_stack apps rest target f -> MapRect (fb_rect s) (mixer_rect s) (sl_dst target) (sl_dst target) = Ret dst ->
  Strategy.GetNextStrategy (set_start (Some a) false s) k v =
    Ret (kErrorNone, mkEnv (<[a := gpu_frame s apps rest target dst f]> (frames v)) (ext v)).
Proof.
  intros (Es & Ep & Eg) Hf (El & Ha & Ec & Et) Em. destruct (rois_stack s f) as (R1 & R2 & R3).
  unfold Strategy.GetNextStrategy. cbn [set_start hw_layers_info_ extn_start_success_ disable_gpu_comp_
    Strategy.fb_config_ Strategy.mixer_attributes_]. rewrite Eg.
  assert (G : get_frame a v = Ret (full_rois s f, v)) by (unfold get_frame; by rewrite Hf).
  rewrite (st_bind_Ret _ _ _ _ _ G). unfold mark_gpu. rewrite R1, R2, Ec, El, Nat2Z.id.
  rewrite (proj2 (Nat.leb_le _ _)) by (rewrite length_app; lia).
  rewrite take_app_length, drop_app_length. rewrite (st_bind_Ret _ _ _ _ _ eq_refl). cbv beta zeta.
  set (marked := _ <$> apps).
  assert (Hm : length marked = length apps) by apply length_fmap.
  change (layers (stack (set_layers (marked ++ target :: rest) (full_rois s f)))) with (marked ++ target :: rest).
  change (gpu_target_index (set_layers (marked ++ target :: rest) (full_rois s f))) with (gpu_target_index (full_rois s f)).
  rewrite R3, Et, Nat2Z.id, <- Hm, list_lookup_middle by done. fold (fb_rect s) (mixer_rect s). rewrite Em, Hm.
  reflexivity.
Qed.

(** Running a call on the frames or on the resource manager of a state. *)
Lemma in_env_Ret {A} (m : St (Env X) A) (g : CM) x v : m (env g) = Ret (x, v) -> in_env m g = Ret (x, with_env v g).
Proof. unfold in_env. by intros ->. Qed.
Lemma resource_Ret {A} (m : St R A) (g : CM) x r : m (resource_intf_ g) = Ret (x, r) -> resource m g = Ret (x, with_res r g).
Proof. unfold resource. by intros ->. Qed.
Lemma ctx_Ret h (g : CM) c : ctxs_ g !! h = Some c -> ctx h g = Ret (c, g).
Proof. unfold ctx. by intros ->. Qed.
Lemma get_frame_Ret a (v : Env X) f : frames v !! a = Some f -> get_frame a v = Ret (f, v).
Proof. unfold get_frame. by intros ->. Qed.
Lemma frame_Ret a (g : CM) f : frames (env g) !! a = Some f -> in_env (get_frame a) g = Ret (f, g).
Proof. intros Hf. rewrite (in_env_Ret _ _ _ _ (get_frame_Ret _ _ _ Hf)). by destruct g. Qed.

Lemma PrePrepare_plain h a (g : CM) c s f apps rest target :
  ctxs_ g !! h = Some c -> strategy c = Some s -> plain s -> frames (env g) !! a = Some f ->
  gpu_stack apps rest target f -> cursor_present (flags (stack f)) = false ->
  exists c1, strategy c1 = Some (set_start (Some a) false s) /\ max_strategies c1 = 1 /\ remaining_strategies c1 = 1 /\
    display_resource_ctx c1 = display_resource_ctx c /\ ctx_primary c1 = ctx_primary c /\
    exists g1, PrePrepare h a g = Ret (tt, g1) /\ ctxs_ g1 !! h = Some c1 /\
      env g1 = mkEnv (<[a := full_rois s f]> (frames (env g))) (ext (env g)) /\ resource_intf_ g1 = resource_intf_ g /\
      secure_external_layer_ g1 = secure_external_layer_ g.
Proof.
  intros Hc Es Hp Hf Hg Hcur. unfold PrePrepare.
  assert (Hs : SupportLayerAsCursor h a g = Ret (false, g)).
  { unfold SupportLayerAsCursor. rewrite (st_bind_Ret _ _ _ _ _ (ctx_Ret _ _ _ Hc)).
    rewrite (st_bind_Ret _ _ _ _ _ (frame_Ret _ _ _ Hf)). by rewrite Hcur, orb_true_r. }
  rewrite (st_bind_Ret _ _ _ _ _ Hs). rewrite (st_bind_Ret _ _ _ _ _ (ctx_Ret _ _ _ Hc)). cbv zeta.
  rewrite (st_bind_Ret _ _ _ _ _ eq_refl). set (g0 := upd_ctxs _ g).
  unfold strategy_of. cbn [strategy set_cursor]. rewrite Es. rewrite (st_bind_Ret _ _ _ _ _ eq_refl).
  rewrite (st_bind_Ret _ _ _ _ _ (in_env_Ret _ g0 _ _ (Start_plain s a _ (env g) f apps rest target Hp Hf Hg))).
  cbn [default from_option]. eexists. split_and!; [..|eexists; split; [reflexivity|]; split; [apply lookup_insert_eq|]];
    reflexivity || done.
Qed.

(** Outside the policy for secure external content the constraints do not change
    the frame. *)
Lemma constraints_plain h a (g : CM) c f : ctxs_ g !! h = Some c -> frames (env g) !! a = Some f ->
  (ctx_primary c = true -> secure_external_layer_ g = false) ->
  exists k l t, PrepareStrategyConstraints h a g =
    Ret (tt, upd_ctxs (<[h := set_constraints k c]> (ctxs_ g)) (upd_secure l t g)).
Proof.
  intros Hc Hf Hs. unfold PrepareStrategyConstraints. rewrite (st_bind_Ret _ _ _ _ _ (ctx_Ret _ _ _ Hc)).
  rewrite (st_bind_Ret _ _ _ _ _ eq_refl). cbv zeta. destruct (ctx_primary c); cbn [negb andb].
  - rewrite !(st_bind_Ret _ _ _ _ _ eq_refl), (Hs eq_refl), andb_false_r. rewrite (st_bind_Ret _ _ _ _ _ eq_refl).
    eexists _, (secure_external_layer_ g), (secure_external_transition_ g). by destruct g.
  - unfold mbind at 1, st_bind at 1. rewrite (st_bind_Ret _ _ _ _ _ (frame_Ret _ _ _ Hf)). cbv zeta.
    destruct (negb (Bool.eqb _ _)).
    + eexists _, _, _. reflexivity.
    + eexists _, (secure_external_layer_ g), (secure_external_transition_ g). by destruct g.
Qed.

Lemma loop_plain (g : CM) h a c s f apps rest target dst e f2 r2 :
  ctxs_ g !! h = Some c -> strategy c = Some (set_start (Some a) false s) -> plain s ->
  frames (env g) !! a = Some (full_rois s f) -> gpu_stack apps rest target f ->
  MapRect (fb_rect s) (mixer_rect s) (sl_dst target) (sl_dst target) = Ret dst ->
  RI_Prepare (display_resource_ctx c) (gpu_frame s apps rest target dst f) (resource_intf_ g) = Ret ((e, f2), r2) ->
  exists g2, strategy_loop 1 h a kErrorUndefined g = Ret (e, g2) /\ frames (env g2) !! a = Some f2 /\
    resource_intf_ g2 = r2 /\ ctxs_ g2 !! h = Some (set_counts (max_strategies c) 0 c).
Proof.
  intros Hc Es Hp Hf Hg Hm E1. cbn [strategy_loop]. rewrite (st_bind_Ret _ _ _ _ _ (ctx_Ret h g c Hc)).
  unfold strategy_of. rewrite Es. rewrite (st_bind_Ret _ _ _ _ _ eq_refl).
  rewrite (st_bind_Ret _ _ _ _ _ (in_env_Ret _ g _ _ (Next_plain s a _ (env g) f apps rest target dst Hp Hf Hg Hm))).
  set (g1 := with_env _ g). set (f1 := gpu_frame s apps rest target dst f) in *.
  assert (Hf1 : frames (env g1) !! a = Some f1) by apply lookup_insert_eq.
  assert (Ep : resource_prepare (display_resource_ctx c) a g1 =
    Ret (e, with_env (mkEnv (<[a := f2]> (frames (env g1))) (ext (env g1))) (with_res r2 g1))).
  { unfold resource_prepare. rewrite (st_bind_Ret _ _ _ _ _ (frame_Ret _ _ _ Hf1)).
    by rewrite (st_bind_Ret _ _ _ _ _ (resource_Ret _ g1 _ _ E1)). }
  rewrite (decide_False (P := kErrorNone <> kErrorNone)) by auto. rewrite (st_bind_Ret _ _ _ _ _ Ep).
  set (g2 := with_env _ _). rewrite (st_bind_Ret _ _ _ _ _ (ctx_Ret h g2 c Hc)). rewrite (st_bind_Ret _ _ _ _ _ eq_refl).
  exists (upd_ctxs (<[h := set_counts (max_strategies c) 0 c]> (ctxs_ g2)) g2).
  split; [by destruct (decide (e = kErrorNone))|]. split_and!; [apply lookup_insert_eq|done|apply lookup_insert_eq].
Qed.

Lemma Prepare_plain (g : CM) h a c s f apps rest target dst e0 r1 e f2 r2 e3 r3 :
  ctxs_ g !! h = Some c -> strategy c = Some (set_start (Some a) false s) -> plain s -> remaining_strategies c = 1 ->
  frames (env g) !! a = Some (full_rois s f) -> gpu_stack apps rest target f ->
  (ctx_primary c = true -> secure_external_layer_ g = false) ->
  MapRect (fb_rect s) (mixer_rect s) (sl_dst target) (sl_dst target) = Ret dst ->
  RI_Start (display_resource_ctx c) (resource_intf_ g) = Ret (e0, r1) ->
  RI_Prepare (display_resource_ctx c) (gpu_frame s apps rest target dst f) r1 = Ret ((e, f2), r2) ->
  RI_Stop (display_resource_ctx c) r2 = Ret (e3, r3) ->
  exists g2 c2, Prepare h a g = Ret (if decide (e = kErrorNone) then e3 else e, g2) /\
    frames (env g2) !! a = Some f2 /\ resource_intf_ g2 = r3 /\ ctxs_ g2 !! h = Some c2 /\ remaining_strategies c2 = 0.
Proof.
  intros Hc Es Hp Er Hf Hg Hsec Hm E0 E1 E3.
  destruct (constraints_plain h a g c _ Hc Hf Hsec) as (k & l & t & Ek). set (c1 := set_constraints k c) in *.
  set (g1 := upd_ctxs _ (upd_secure l t g)) in Ek.
  assert (Hc1 : ctxs_ g1 !! h = Some c1) by apply lookup_insert_eq.
  unfold Prepare. rewrite (st_bind_Ret _ _ _ _ _ Ek), (st_bind_Ret _ _ _ _ _ (ctx_Ret _ _ _ Hc1)).
  change (display_resource_ctx c1) with (display_resource_ctx c).
  change (remaining_strategies c1) with (remaining_strategies c). rewrite Er.
  rewrite (st_bind_Ret _ _ _ _ _ (resource_Ret _ g1 _ _ E0)). change (Z.to_nat 1) with 1%nat. 
  destruct (loop_plain (with_res r1 g1) h a c1 s f apps rest target dst e f2 r2) as (g3 & El & Hf3 & Hr3 & Hc3); try done.
  rewrite (st_bind_Ret _ _ _ _ _ El). rewrite <- Hr3 in E3. rewrite (st_bind_Ret _ _ _ _ _ (resource_Ret _ g3 _ _ E3)).
  exists (with_res r3 g3). eexists. split_and!; [|exact Hf3|done|exact Hc3|done].
  destruct (decide (e = kErrorNone)) as [->|He]; [by rewrite decide_False by auto|by rewrite decide_True].
Qed.
End Frame.
End GpuFrame.

Module CompProps.
Import Float32 Rect Formats ResourceDefault Strategy CompMgr DefaultResources Contract DefaultLaws CompInv GpuFrame.

(** ** A sample: the default resource manager, no extension library *)
#[local] Instance no_extension : Extension unit := {|
  X_CreateStrategyExtn _ _ _ _ := mret (kErrorNone, None); X_DestroyStrategyExtn _ := mret tt;
  X_CreatePartialUpdate _ _ _ _ _ := mret None; X_DestroyPartialUpdate _ := mret tt;
  X_CreateDppsControlExtn := mret false; X_DestroyDppsControlExtn := mret tt; X_Dpps _ := mret kErrorNone;
  X_Start _ f := mret (kErrorNone, 1, f); X_GetNextStrategy _ _ f := mret (kErrorNone, f); X_Stop _ := mret kErrorNone;
  X_Reconfigure _ _ _ _ := mret kErrorNone; X_SetCompositionState _ _ _ := mret kErrorNone;
  X_Purge _ := mret kErrorNone; X_SetIdleTimeoutMs _ _ := mret kErrorNone; X_PUStart _ _ := mret tt;
  X_GenerateROI _ f := mret (kErrorNone, f)
|}.
#[local] Existing Instance default_resources.
#[local] Instance res0 : ResourceIface RD := default_resources ResourceProps.log2f0.
#[local] Instance laws0 : ResourceLaws RD := default_laws ResourceProps.log2f0.

Definition info1 : Info := mkCMInfo ResourceProps.info0 true false.
Definition fb1 : FbConfig := mkFb 1080 1920 f_one f_one 60 16666666 false.
Definition attributes1 : HWDisplayAttributes := mkAttributes fb1 false 0 0 0 1080 0.
Definition panel1 (primary : bool) : HWPanelInfo :=
  mkPanel 0 kModeVideo false (mkRoi 1 1 1 1 1 1 false 1 1) false false false 60 60 primary (540, 540) 0 false 0 0 0 false [].
Definition full1 : LayerRect := RectProps.R 0 0 1080 1920.
Definition layer1 (c : Composition) : StackLayer := mkSLayer full1 full1 kFormatRGBA8888 false f_zero c 0 false false no_buffer.
Definition stack1 : LayerStack :=
  mkStack [layer1 kCompositionSDE; layer1 CompositionGPUTarget] (mkFlags false false false false false false false false).
Definition frame1 : Frame :=
  mkFrame stack1 1 1 (replicate 16 0) [] [] [] (mkConfig HWPipeInfo0 HWPipeInfo0) (-1) (-1) false.
Definition env1 : Env unit := mkEnv {[100 := frame1; 200 := frame1]} tt.

Definition start1 : CM RD unit :=
  mkCM (mkRD (Some ResourceProps.w0) false) env1 ∅ 0 ∅ ∅ (fun _ => kStateOff) false false false info1 false kMaxSDELayers 0 false.
Definition ops1 : list op :=
  [ORegister kPrimary attributes1 (panel1 true) ResourceProps.mixer0 fb1; OPrePrepare 0 100; OPrepare 0 100;
   OPostPrepare 0 100; OCommit 0 100; OPostCommit 0 100].
Definition final {A} (m : outcome (A * CM RD unit)) : CM RD unit := match m with Ret (_, g) => g | _ => start1 end.
Definition state1 : CM RD unit := final (run_all 2 ops1 start1).
Definition state2 : CM RD unit :=
  final (RegisterDisplay 2 kHDMI attributes1 (panel1 false) ResourceProps.mixer0 fb1 state1).

Section Claims.
Context {R X : Type} `{!ResourceIface R, !ResourceLaws R, !Extension X} (ext_max : Z).

Definition reachable (info : Info) (g : CM R X) : Prop :=
  exists b v g0 l, ri_hw (res_info info) /\ CompMgr.Init info b v = Ret (kErrorNone, Some g0) /\
    run_all ext_max l g0 = Ret (tt, g).

Lemma reachable_ok info g : reachable info g -> exists hs, cm_ok g hs.
Proof. intros (b & v & g0 & l & Hi & E0 & E). eapply run_all_ok, E. by eapply Init_ok. Qed.

(** C31: After any sequence of calls the bit mask of registered displays is exactly
    the set of types of the live display contexts, no type has two contexts,
    only registered displays count as configured, and the handles the resource
    manager has given out are exactly those the contexts hold, each for the
    type of its context: registering and unregistering leak no resource context
    and no call uses one that was given back. *)
Theorem displays_registered info g : reachable info g ->
  (forall ty, ty ∈ registered_displays_ g <-> exists h c, ctxs_ g !! h = Some c /\ display_type c = ty) /\
  (forall h h' c c', ctxs_ g !! h = Some c -> ctxs_ g !! h' = Some c' -> display_type c = display_type c' -> h = h') /\
  configured_displays_ g ⊆ registered_displays_ g /\
  exists hs, ri_ok (resource_intf_ g) hs /\
    forall rh ty, hs !! rh = Some ty <->
      exists h c, ctxs_ g !! h = Some c /\ display_resource_ctx c = rh /\ display_type c = ty.
Proof.
  intros [hs Hk]%reachable_ok. split_and!.
  - intros ty. rewrite (ok_reg _ _ Hk). split.
    + intros (h & rh & (c & [= <- _] & Hc)%lookup_fmap_Some). eauto.
    + intros (h & c & Hc & <-). eexists _, _. by apply view_lookup.
  - intros h h' c c' Hc Hc' Et. apply view_lookup in Hc, Hc'. rewrite Et in Hc. by eapply (ok_one _ _ Hk).
  - apply Hk.
  - exists hs. split; [apply Hk|]. intros rh ty. split.
    + intros Hl. destruct (ok_owned _ _ Hk _ _ Hl) as [h Hv]. apply lookup_fmap_Some in Hv as (c & [= <- <-] & Hc). eauto.
    + intros (h & c & Hc & <- & <-). eapply (ok_held _ _ Hk). by apply view_lookup.
Qed.

(** C32: Plugging in a display that is not the primary panel starts safe mode. As long
    as no display is registered, unregistered or has its power state set (which
    change the sets it is decided from), safe mode lasts, whatever else is called and on
    whichever display, at least until PostCommit is called for the new display,
    and is over once it was called for every registered one. *)
Theorem safe_mode_window info g ty a p m fb h g1 : reachable info g -> is_primary_panel p = false ->
  RegisterDisplay ext_max ty a p m fb g = Ret ((kErrorNone, Some h), g1) ->
  safe_mode_ g1 = true /\
  forall l g2, Forall frame_or_commit l -> run_all ext_max l g1 = Ret (tt, g2) ->
    (~ commits h l -> safe_mode_ g2 = true) /\
    ((forall h', is_Some (ctxs_ g1 !! h') -> commits h' l) -> safe_mode_ g2 = false).
Proof.
  intros [hs Hk]%reachable_ok Hp E. destruct (RegisterDisplay_ok _ _ _ _ _ _ _ _ _ _ Hk E) as [hs1 K1].
  destruct (RegisterDisplay_new _ _ _ _ _ _ _ _ _ _ Hk E) as (c & Hc & Hs & Hn). rewrite Hp in Hs.
  assert (Hreg : display_type c ∈ registered_displays_ g1) by (apply (ok_reg _ _ K1); eexists _, _; by apply view_lookup).
  split; [done|]. intros l g2 Hl E2. destruct (frames_run _ _ _ _ _ K1 Hl E2) as (K2 & V2 & R2 & D2 & S2 & T2). split.
  - intros Hno. rewrite S2; [done|]. intros Heq. rewrite <- Heq in Hreg.
    destruct (proj1 (D2 _) Hreg) as [?|(h' & rh & Hv & Hcm)]; [done|].
    rewrite (ok_one _ _ K1 _ _ _ _ _ (view_lookup _ _ _ Hc) Hv) in Hno. done.
  - intros Hall. apply T2; [exists h; apply Hall; eauto|]. apply leibniz_equiv. apply set_equiv_subseteq.
    split; [rewrite <- R2; apply K2|]. intros ty' Hty. apply D2. right.
    destruct (proj1 (ok_reg _ _ K1 _) Hty) as (h' & rh & Hv). exists h', rh. split; [done|]. apply Hall.
    apply lookup_fmap_Some in Hv as (c' & _ & ?). eauto.
Qed.

(** Without the extension library a frame is composed by the GPU: PrePrepare and
    Prepare mark every application layer for the GPU with its requests cleared,
    hand the resource manager the target alone, with its destination mapped
    from the frame buffer to the mixer, and return its verdict.  The one
    strategy is then used up. *)
Lemma gpu_fallback (g : CM R X) h a c s f apps rest target dst e0 r1 e f2 r2 e3 r3 :
  ctxs_ g !! h = Some c -> strategy c = Some s -> plain s -> frames (env g) !! a = Some f ->
  gpu_stack apps rest target f -> cursor_present (flags (stack f)) = false ->
  (ctx_primary c = true -> secure_external_layer_ g = false) ->
  MapRect (fb_rect s) (mixer_rect s) (sl_dst target) (sl_dst target) = Ret dst ->
  RI_Start (display_resource_ctx c) (resource_intf_ g) = Ret (e0, r1) ->
  RI_Prepare (display_resource_ctx c) (gpu_frame s apps rest target dst f) r1 = Ret ((e, f2), r2) ->
  RI_Stop (display_resource_ctx c) r2 = Ret (e3, r3) ->
  exists g1 g2 c2, PrePrepare h a g = Ret (tt, g1) /\
    Prepare h a g1 = Ret (if decide (e = kErrorNone) then e3 else e, g2) /\
    frames (env g2) !! a = Some f2 /\ resource_intf_ g2 = r3 /\
    ctxs_ g2 !! h = Some c2 /\ remaining_strategies c2 = 0.
Proof.
  intros Hc Es Hp Hf Hg Hcur Hsec Hm E0 E1 E3.
  destruct (PrePrepare_plain _ _ _ _ _ _ _ _ _ Hc Es Hp Hf Hg Hcur)
    as (c1 & Es1 & Em1 & Er1 & Eh1 & Ep1 & g1 & Epp & Hc1 & Ev1 & Ei1 & Esec1).
  destruct (Prepare_plain g1 h a c1 s f apps rest target dst e0 r1 e f2 r2 e3 r3) as (g2 & c2 & E2 & H2); try done.
  - rewrite Ev1. apply lookup_insert_eq.
  - by rewrite Ep1, Esec1.
  - by rewrite Eh1, Ei1.
  - by rewrite Eh1.
  - by rewrite Eh1.
  - exists g1, g2, c2. split; [done|]. by split.
Qed.
End Claims.

(** *** Witnesses *)
Lemma state1_reachable : reachable 2 info1 state1.
Proof.
  exists false, env1, start1, ops1. split; [apply ResourceProps.info0_ok|]. split; [reflexivity|].
  vm_compute. reflexivity.
Defined.
Lemma state2_eq : RegisterDisplay 2 kHDMI attributes1 (panel1 false) ResourceProps.mixer0 fb1 state1 =
  Ret ((kErrorNone, Some 1%nat), state2).
Proof. vm_compute. reflexivity. Defined.

Lemma displays_registered_witness : kPrimary ∈ registered_displays_ state1 <->
  exists h c, ctxs_ state1 !! h = Some c /\ display_type c = kPrimary.
Proof. apply (displays_registered 2 info1 state1 state1_reachable). Defined.

Definition ops2 : list op :=
  [OPrePrepare 1 200; OPrepare 1 200; OPostPrepare 1 200; OCommit 1 200; OPostCommit 1 200;
   OPrePrepare 0 100; OPrepare 0 100; OPostPrepare 0 100; OCommit 0 100; OPostCommit 0 100].
Lemma ops2_frames : Forall frame_or_commit ops2.
Proof. repeat (apply Forall_cons_2; [first [by left|right; by eexists _, _]|]). apply Forall_nil_2. Defined.
Lemma ops2_run : run_all 2 ops2 state2 = Ret (tt, final (run_all 2 ops2 state2)).
Proof. vm_compute. reflexivity. Defined.
Lemma state2_dom : dom (ctxs_ state2) = {[0%nat]} ∪ {[1%nat]}.
Proof. vm_compute. reflexivity. Defined.
Lemma safe_mode_window_witness : safe_mode_ state2 = true /\ safe_mode_ (final (run_all 2 ops2 state2)) = false.
Proof.
  destruct (safe_mode_window 2 info1 state1 kHDMI attributes1 (panel1 false) ResourceProps.mixer0 fb1 1 state2
    state1_reachable eq_refl state2_eq) as [H1 H2].
  split; [exact H1|]. refine (proj2 (H2 ops2 (final (run_all 2 ops2 state2)) ops2_frames ops2_run) _).
  intros h [c Hc]. assert (Hd : h ∈ dom (ctxs_ state2)) by (apply elem_of_dom; eauto).
  rewrite state2_dom in Hd. apply elem_of_union in Hd as [->%elem_of_singleton| ->%elem_of_singleton].
  - exists 100. by apply (list_elem_of_lookup_2 _ 9).
  - exists 200. by apply (list_elem_of_lookup_2 _ 4).
Defined.

Definition state0 : CM RD unit := final (run_all 2 (take 1 ops1) start1).
Definition strategy0 : Strategy.t :=
  new_Strategy false kPrimary true (panel1 true) ResourceProps.mixer0 attributes1 fb1.
Definition ctx0 : Ctx :=
  mkCtx (Some strategy0) (mkConstraints false false kMaxSDELayers) 0 kPrimary 0 0 false false true false (mkPU true false) false fb1.
Definition target0 : StackLayer := layer1 CompositionGPUTarget.
Definition gpu0 : Frame := gpu_frame strategy0 [layer1 kCompositionSDE] [] target0 full1 frame1.
Definition locked0 : RD := mkRD (object (resource_intf_ state0)) true.
Definition prepared0 : outcome ((DisplayError * Frame) * RD) := RI_Prepare 0 gpu0 locked0.
Definition frame2 : Frame := match prepared0 with Ret ((_, f), _) => f | _ => frame1 end.
Definition locked2 : RD := match prepared0 with Ret (_, r) => r | _ => locked0 end.

Lemma gpu_fallback_witness : exists g1 g2 c2, PrePrepare 0 100 state0 = Ret (tt, g1) /\
  Prepare 0 100 g1 = Ret (kErrorNone, g2) /\ frames (env g2) !! 100 = Some frame2 /\
  resource_intf_ g2 = mkRD (object locked2) false /\ ctxs_ g2 !! 0%nat = Some c2 /\ remaining_strategies c2 = 0.
Proof.
  apply (gpu_fallback state0 0 100 ctx0 strategy0 frame1 [layer1 kCompositionSDE] [] target0 full1 kErrorNone locked0
    kErrorNone frame2 locked2 kErrorNone (mkRD (object locked2) false)); try reflexivity; done.
Defined.

(** With the default resource manager ReConfigure reports success whatever
    happens: when the resource manager has rejected the changed layers, the
    rejection is replaced by the success of PostPrepare, so that the commit
    goes on with the layers that were rejected. *)
Lemma reconfigure_hides_errors log2f h a (g : CM RD unit) e g' :
  ReConfigure (H := default_resources log2f) h a g = Ret (e, g') -> e = kErrorNone.
Proof.
  intros E. apply st_bind_Ret_inv in E as (c & g0 & _ & E). apply st_bind_Ret_inv in E as (e0 & g1 & _ & E).
  apply st_bind_Ret_inv in E as (e1 & g2 & _ & E). apply st_bind_Ret_inv in E as (e2 & g3 & _ & E).
  destruct (decide (e1 <> kErrorNone)) as [He|He]; [|apply dec_stable in He; by injection E as <- _].
  apply st_bind_Ret_inv in E as (f & g4 & _ & E). unfold resource in E.
  destruct (RI_PostPrepare _ _ _) as [[x r]| |] eqn:Er; try done. injection E as <- _.
  apply scoped_inv, call_inv in Er as (w & w' & _ & [= <- _] & _). reflexivity.
Qed.

(** A stack whose target is scaled down beyond the limit of the hardware. *)
Definition bad_frame : Frame :=
  set_hw (index frame1) [set_dst (RectProps.R 0 0 10 10) target0] frame1.
Definition bad_state : CM RD unit := with_env (mkEnv {[100 := bad_frame]} tt) state0.
Lemma reconfigure_hides_errors_witness : exists g', ReConfigure 0 100 bad_state = Ret (kErrorNone, g') /\
  kErrorNone = kErrorNone /\ fst <$> (fst <$> match RI_Prepare 0 bad_frame locked0 with Ret x => Some x | _ => None end)
    = Some kErrorNotSupported.
Proof.
  eexists. split; [vm_compute; reflexivity|]. split.
  - eapply (reconfigure_hides_errors ResourceProps.log2f0 0 100 bad_state). vm_compute. reflexivity.
  - vm_compute. reflexivity.
Defined.

(** Without the extension library a display that is reconfigured for another
    mixer or frame buffer size keeps a strategy with the old sizes: its context
    has the new frame buffer, but the next frame is given the regions of the old
    mixer and the target is mapped between the old sizes. *)
Lemma reconfigure_stale {R X : Type} `{!ResourceIface R, !Extension X} h a p m fb (g : CM R X) c s g' :
  ctxs_ g !! h = Some c -> strategy c = Some s -> Strategy.extension_intf_ s = false ->
  ReconfigureDisplay h a p m fb g = Ret (kErrorNone, g') ->
  exists c', ctxs_ g' !! h = Some c' /\ fb_config c' = fb /\ strategy c' = Some s.
Proof.
  intros Hc Es Ex E. apply st_bind_Ret_inv in E as (c0 & g0 & [Hc0 ->]%ctx_inv & E).
  rewrite Hc in Hc0. injection Hc0 as <-. apply st_bind_Ret_inv in E as (e & g1 & E1%resource_ctxs & E).
  destruct (decide (e <> kErrorNone)) as [He|He]; [by injection E as -> _|].
  apply st_bind_Ret_inv in E as (e2 & g2 & E2 & E). rewrite Es in E2. unfold Strategy.Reconfigure in E2. rewrite Ex in E2.
  cbn [negb] in E2. apply st_bind_Ret_inv in E2 as ([e3 s3] & g3 & E3 & E2). pose proof (env_ctxs _ _ _ _ E3) as C3.
  apply in_env_inv in E3 as (v3 & [= <- <- _] & _). rewrite decide_False in E2 by auto.
  injection E2 as <- <-. rewrite decide_False in E by auto. apply st_bind_Ret_inv in E as ([] & g4 & E4 & E).
  set (gs := upd_ctxs _ g3) in E4.
  assert (Hs : ctxs_ gs !! h = Some (set_strategy (Some s) c)) by apply lookup_insert_eq.
  assert (H4 : ctxs_ g4 = ctxs_ gs) by (destruct (decide _); by injection E4 as <-). rewrite <- H4 in Hs.
  apply st_bind_Ret_inv in E as (c5 & g5 & [Hc5 ->]%ctx_inv & E). rewrite Hs in Hc5. injection Hc5 as <-.
  injection E as <-. eexists. split; [apply lookup_insert_eq|done].
Qed.

Definition fb2 : FbConfig := mkFb 720 1280 f_one f_one 60 16666666 false.
Definition mixer2 : HWMixerAttributes := mkMixer 720 1280 720 kFormatRGB101010.
Lemma reconfigure_stale_witness : exists c', ctxs_ (final (ReconfigureDisplay 0 attributes1 (panel1 true) mixer2 fb2 state0))
  !! 0%nat = Some c' /\ fb_config c' = fb2 /\ strategy c' = Some strategy0.
Proof. apply (reconfigure_stale 0 attributes1 (panel1 true) mixer2 fb2 state0 ctx0 strategy0); reflexivity. Defined.
End CompProps.
