(* ===== verification/DisplayBase.v ===== *)
(** The displays: src/hardware/qcom-caf/display/sdm/libs/core/display_base.cpp.

    A display is a client of the composition manager and of its device: the
    hardware interface, the colour manager, the sync handler and the event handler
    of the client are the class [Device], with a state of their own.  An object
    that was destroyed is undefined to use.  Out parameters of the device are
    arguments and results, since a call that fails may leave them as they were.
    The layer stack of the client is one object, which the frame of the display
    points to: a call that gets it reads its present contents.  The recursive mutex
    is held for a whole call. *)
From S2P Require Import Prelude Rect ResourceDefault Strategy CompMgr.
#[local] Open Scope Z_scope.

Module DisplayBase.
Import Float32 Rect Formats ResourceDefault Strategy CompMgr.

#[global] Instance DisplayState_eq_dec : EqDecision DisplayState.
Proof. solve_decision. Defined.
#[global] Instance RectOrientation_eq_dec : EqDecision RectOrientation.
Proof. solve_decision. Defined.

(** * Comparisons of configurations *)
Definition eq_attributes (a b : HWDisplayAttributes) : bool :=
  let u := variable_info a in let v := variable_info b in
  Bool.eqb (is_device_split a) (is_device_split b) && (x_pixels u =? x_pixels v) && (y_pixels u =? y_pixels v) &&
  feq (x_dpi u) (x_dpi v) && feq (y_dpi u) (y_dpi v) && (fps u =? fps v) && (vsync_period_ns u =? vsync_period_ns v) &&
  (v_front_porch a =? v_front_porch b) && (v_back_porch a =? v_back_porch b) && (v_pulse_width a =? v_pulse_width b) &&
  (h_total a =? h_total b) && Bool.eqb (is_yuv u) (is_yuv v).
Definition eq_mixer (a b : HWMixerAttributes) : bool :=
  (m_width a =? m_width b) && (m_height a =? m_height b) && bool_decide (output_format a = output_format b) &&
  (split_left a =? split_left b).
Definition eq_panel (a b : HWPanelInfo) : bool :=
  (port a =? port b) && bool_decide (mode a = mode b) && Bool.eqb (partial_update a) (partial_update b) &&
  bool_decide (roi_limits a = roi_limits b) && Bool.eqb (dynamic_fps a) (dynamic_fps b) && (min_fps a =? min_fps b) &&
  Bool.eqb (dfps_porch_mode a) (dfps_porch_mode b) && Bool.eqb (ping_pong_split a) (ping_pong_split b) &&
  (max_fps a =? max_fps b) && Bool.eqb (is_primary_panel a) (is_primary_panel b) &&
  bool_decide (split_info a = split_info b) && (s3d_mode a =? s3d_mode b) &&
  Bool.eqb (bitclk_update a) (bitclk_update b) && bool_decide (bitclk_rates a = bitclk_rates b).

(** The objects before anything is stored in them. *)
Definition panel0 : HWPanelInfo :=
  mkPanel 0 kModeDefault false (mkRoi 1 1 1 1 1 1 false 1 1) false false false 0 0 false (0, 0) kS3DModeNone
    false 0 0 0 false [].
Definition fb0 : FbConfig := mkFb 0 0 f_zero f_zero 0 0 false.
Definition attributes0 : HWDisplayAttributes := mkAttributes fb0 false 0 0 0 0 0.
Definition mixer0 : HWMixerAttributes := mkMixer 0 0 0 kFormatRGB101010.
Definition frame0 : Frame :=
  mkFrame (mkStack [] (mkFlags false false false false false false false false)) 0 0 (replicate 16 0) [] [] []
    (mkConfig HWPipeInfo0 HWPipeInfo0) (-1) (-1) false.

(** * The device *)
Record SDEDisplayMode := mkMode { mode_id : Z; mode_name : string }.
Definition AttrVal : Type := list (string * string).
Record HWInfo := mkHWInfo { num_blending_stages : Z; has_hdr : bool; hw_max_scale_down : Z; hw_max_scale_up : Z }.
(** HWScanInfo: pt, cea, it. *)
Inductive HWScanSupport := kScanNotSupported | kScanAlwaysOverscanned | kScanAlwaysUnderscanned | kScanBoth.
Record HWScanInfo := mkScan { pt_scan_support : HWScanSupport; cea_scan_support : HWScanSupport; it_scan_support : HWScanSupport }.
Inductive Event := VSync (timestamp : Z) | Refresh | IdleEvent | ThermalEvt.

Class Device (V : Type) := {
  (* HWInterface *)
  H_Create : DisplayType -> St V DisplayError;
  H_Destroy : St V unit;
  H_GetActiveConfig : Z -> St V (DisplayError * Z);
  H_GetNumDisplayAttributes : Z -> St V (DisplayError * Z);
  H_GetDisplayAttributes : Z -> HWDisplayAttributes -> St V (DisplayError * HWDisplayAttributes);
  H_GetHWPanelInfo : HWPanelInfo -> St V (DisplayError * HWPanelInfo);
  H_SetConfig : Z -> St V DisplayError;                          (* SetDisplayAttributes(index) *)
  H_SetDisplayAttributes : HWDisplayAttributes -> St V DisplayError;
  H_GetConfigIndex : Z -> Z -> St V (DisplayError * Z);
  H_PowerOn : St V DisplayError; H_PowerOff : St V DisplayError; H_Doze : St V DisplayError;
  H_DozeSuspend : St V DisplayError; H_Standby : St V DisplayError;
  H_Validate : Frame -> St V (DisplayError * Frame);
  H_Commit : Frame -> St V (DisplayError * Frame);
  H_Flush : bool -> St V DisplayError;
  H_SetVSyncState : bool -> St V DisplayError;
  H_SetIdleTimeoutMs : Z -> St V unit;
  H_SetDisplayMode : HWDisplayMode -> St V DisplayError;
  H_SetRefreshRate : Z -> St V DisplayError;
  H_SetPanelBrightness : Z -> St V DisplayError;
  H_GetPanelBrightness : Z -> St V (DisplayError * Z);
  H_GetHWScanInfo : HWScanInfo -> St V (DisplayError * HWScanInfo);
  H_GetVideoFormat : Z -> Z -> St V (DisplayError * Z);
  H_GetMaxCEAFormat : Z -> St V (DisplayError * Z);
  H_SetCursorPosition : Frame -> Z -> Z -> St V DisplayError;
  H_OnMinHdcpEncryptionLevelChange : Z -> St V DisplayError;
  H_SetAutoRefresh : bool -> St V DisplayError;
  H_SetS3DMode : Z -> St V DisplayError;
  H_SetScaleLutConfig : St V DisplayError;
  H_SetMixerAttributes : HWMixerAttributes -> St V DisplayError;
  H_GetMixerAttributes : HWMixerAttributes -> St V (DisplayError * HWMixerAttributes);
  H_SetDynamicDSIClock : Z -> St V DisplayError;
  H_GetDynamicDSIClock : Z -> St V (DisplayError * Z);
  (* HWInfoInterface, HWEventsInterface *)
  H_GetHWResourceInfo : St V HWInfo;
  H_EventsCreate : St V DisplayError;
  H_EventsDestroy : St V unit;
  (* ColorManagerProxy; whether it could be created *)
  K_Create : St V bool;
  K_Delete : St V unit;
  K_GetNumOfModes : Z -> St V (DisplayError * Z);
  K_GetModes : Z -> list SDEDisplayMode -> St V (DisplayError * Z * list SDEDisplayMode);
  K_GetDefaultModeID : Z -> St V (DisplayError * Z);
  K_GetModeInfo : Z -> St V (DisplayError * AttrVal);
  K_SetMode : Z -> St V DisplayError;
  K_SetColorTransform : list float -> St V DisplayError;
  K_NeedsPartialUpdateDisable : St V bool;
  K_Commit : St V DisplayError;
  K_ApplyDefaultDisplayMode : St V DisplayError;
  (* BufferSyncHandler: the merged fence; close *)
  B_SyncMerge : Z -> Z -> Z -> St V Z;
  B_close : Z -> St V unit;
  (* DisplayEventHandler *)
  E_event : Event -> St V unit
}.

(** * The object *)
Inductive Ptr := Null | Live | Deleted.
Record Power := mkPower {
  state_ : DisplayState; active_ : bool; needs_validate_ : bool; vsync_enable_ : bool;
  hw_intf_ : Ptr; display_comp_ctx_ : option nat; max_mixer_stages_ : Z
}.
Record Config := mkConf {
  hw_panel_info_ : HWPanelInfo; display_attributes_ : HWDisplayAttributes; mixer_attributes_ : HWMixerAttributes;
  fb_config_ : FbConfig; req_mixer_width_ : Z; req_mixer_height_ : Z
}.
Record Update := mkUpdate { partial_update_control_ : bool; disable_pu_one_frame_ : bool }.
(** [color_mode_map_] points into [color_modes_]; a std::map is a list in the order
    of its keys. *)
Record Color := mkColor {
  color_mgr_ : bool; num_color_modes_ : Z; color_modes_ : list SDEDisplayMode;
  color_mode_map_ : gmap string nat; color_mode_attr_map_ : list (string * AttrVal);
  current_color_mode_ : string; hdr_playback_mode_ : bool; disable_hdr_lut_gen_ : bool
}.
(** Members of the classes derived from DisplayBase. *)
Record Derived := mkDerived {
  switch_to_cmd_ : bool; avr_prop_disabled_ : bool; bitclk_ : Z;              (* DisplayPrimary *)
  underscan_supported_ : bool; scan_support_ : HWScanSupport                  (* DisplayHDMI *)
}.
Record D := mkD {
  display_type_ : DisplayType; hw_layers_ : Z;
  power : Power; conf : Config; update : Update; color : Color; derived : Derived
}.
Definition new_DisplayBase (ty : DisplayType) (a : Z) : D :=
  mkD ty a (mkPower kStateOff false true false Null None 0) (mkConf panel0 attributes0 mixer0 fb0 0 0)
    (mkUpdate true false) (mkColor false 0 [] ∅ [] "hal_native" false false)
    (mkDerived false false 0 false kScanNotSupported).

(** The properties the display reads. *)
Record Props := mkProps {
  mixer_resolution : option (Z * Z); max_pipes_per_mixer : Z; disable_hdr_lut_gen : Z;
  video_mode_panel : bool; disable_avr : bool; hdmi_s3d_mode : Z; hdmi_config_index : Z;
  ext_max_layers : Z; ubwc_fb : bool
}.

Section Display.
Context {R X V : Type} `{ResourceIface R} `{!Extension X} `{!Device V} (props : Props).

Record World := mkWorld { disp : D; cm : CM R X; dev : V }.
Abbreviation P := (St World).

Definition set_power (f : Power -> Power) : P unit := st_modify (fun w => let d := disp w in
  mkWorld (mkD (display_type_ d) (hw_layers_ d) (f (power d)) (conf d) (update d) (color d) (derived d)) (cm w) (dev w)).
Definition set_conf (f : Config -> Config) : P unit := st_modify (fun w => let d := disp w in
  mkWorld (mkD (display_type_ d) (hw_layers_ d) (power d) (f (conf d)) (update d) (color d) (derived d)) (cm w) (dev w)).
Definition set_update (f : Update -> Update) : P unit := st_modify (fun w => let d := disp w in
  mkWorld (mkD (display_type_ d) (hw_layers_ d) (power d) (conf d) (f (update d)) (color d) (derived d)) (cm w) (dev w)).
Definition set_color (f : Color -> Color) : P unit := st_modify (fun w => let d := disp w in
  mkWorld (mkD (display_type_ d) (hw_layers_ d) (power d) (conf d) (update d) (f (color d)) (derived d)) (cm w) (dev w)).
Definition set_derived (f : Derived -> Derived) : P unit := st_modify (fun w => let d := disp w in
  mkWorld (mkD (display_type_ d) (hw_layers_ d) (power d) (conf d) (update d) (color d) (f (derived d))) (cm w) (dev w)).

Definition with_active (s : DisplayState) (a : bool) (p : Power) : Power :=
  mkPower s a (needs_validate_ p) (vsync_enable_ p) (hw_intf_ p) (display_comp_ctx_ p) (max_mixer_stages_ p).
Definition with_validate (b : bool) (p : Power) : Power :=
  mkPower (state_ p) (active_ p) b (vsync_enable_ p) (hw_intf_ p) (display_comp_ctx_ p) (max_mixer_stages_ p).
Definition with_vsync (b : bool) (p : Power) : Power :=
  mkPower (state_ p) (active_ p) (needs_validate_ p) b (hw_intf_ p) (display_comp_ctx_ p) (max_mixer_stages_ p).
Definition with_hw (h : Ptr) (p : Power) : Power :=
  mkPower (state_ p) (active_ p) (needs_validate_ p) (vsync_enable_ p) h (display_comp_ctx_ p) (max_mixer_stages_ p).
Definition with_ctx (c : option nat) (p : Power) : Power :=
  mkPower (state_ p) (active_ p) (needs_validate_ p) (vsync_enable_ p) (hw_intf_ p) c (max_mixer_stages_ p).
Definition with_stages (n : Z) (p : Power) : Power :=
  mkPower (state_ p) (active_ p) (needs_validate_ p) (vsync_enable_ p) (hw_intf_ p) (display_comp_ctx_ p) n.

Definition gets {A} (f : D -> A) : P A := st_gets (fun w => f (disp w)).
Definition in_dev {A} (m : St V A) : P A := fun w =>
  match m (dev w) with
  | Ret (a, v) => Ret (a, mkWorld (disp w) (cm w) v)
  | Undef => Undef
  | NoFuel => NoFuel
  end.
(** A call of a method of [*hw_intf_]. *)
Definition hw {A} (m : St V A) : P A :=
  p ← gets (fun d => hw_intf_ (power d));
  match p with Live => in_dev m | _ => st_undef end.
Definition in_cm {A} (m : St (CM R X) A) : P A := fun w =>
  match m (cm w) with
  | Ret (a, g) => Ret (a, mkWorld (disp w) g (dev w))
  | Undef => Undef
  | NoFuel => NoFuel
  end.
(** [display_comp_ctx_] where the manager dereferences it. *)
Definition ctx_handle : P nat :=
  c ← gets (fun d => display_comp_ctx_ (power d));
  match c with Some h => mret h | None => st_undef end.
Definition the_frame : P Frame := a ← gets hw_layers_; in_cm (in_env (get_frame a)).
Definition put_the_frame (f : Frame) : P unit := a ← gets hw_layers_; in_cm (in_env (put_frame a f)).

(** HWInterface::Create and Destroy. *)
Definition hw_create : P DisplayError :=
  ty ← gets display_type_;
  error ← in_dev (H_Create ty);
  if decide (error <> kErrorNone) then mret error
  else _ ← set_power (with_hw Live); mret kErrorNone.
Definition hw_destroy : P unit :=
  p ← gets (fun d => hw_intf_ (power d));
  match p with
  | Null => mret tt
  | Live => _ ← in_dev H_Destroy; set_power (with_hw Deleted)
  | Deleted => st_undef
  end.

Definition DisablePartialUpdateOneFrame : P DisplayError :=
  ty ← gets display_type_;
  if decide (ty = kPrimary) then
    _ ← set_update (fun u => mkUpdate (partial_update_control_ u) true); mret kErrorNone
  else mret kErrorNotSupported.

(** * Colour modes *)
Definition kInvalidModeId : Z := -1.
Definition kDynamicRangeAttribute : string := "DynamicRange".
Definition kColorGamutAttribute : string := "ColorGamut".
Definition kPictureQualityAttribute : string := "PictureQuality".
Definition kHdr : string := "hdr".

(** [s.find(sub) != npos]. *)
Fixpoint contains (sub s : string) : bool :=
  String.prefix sub s ||
  match s with
  | EmptyString => false
  | String _ s => contains sub s
  end.

(** std::map::find and insert. *)
Fixpoint map_find {A} (k : string) (m : list (string * A)) : option A :=
  match m with
  | [] => None
  | (k', a) :: m => if decide (k = k') then Some a else map_find k m
  end.
Fixpoint map_insert {A} (k : string) (a : A) (m : list (string * A)) : list (string * A) :=
  match m with
  | [] => [(k, a)]
  | (k', a') :: m' =>
      match String.compare k k' with
      | Lt => (k, a) :: m
      | Eq => m
      | Gt => (k', a') :: map_insert k a m'
      end
  end.

(** The value after the call; [value] is what it held before. *)
Definition GetValueOfModeAttribute (attr : AttrVal) (type value : string) : string :=
  foldl (fun v it => if contains type (fst it) then snd it else v) value attr.

Definition IsSupportColorModeAttribute (c : Color) (color_mode : string) : bool :=
  match map_find color_mode (color_mode_attr_map_ c) with Some _ => true | None => false end.

(** The first mode in the order of the names that satisfies [p]. *)
Fixpoint first_mode (p : AttrVal -> bool) (m : list (string * AttrVal)) : option string :=
  match m with
  | [] => None
  | (k, a) :: m => if p a then Some k else first_mode p m
  end.
Definition is_hdr (a : AttrVal) : bool := bool_decide (GetValueOfModeAttribute a kDynamicRangeAttribute "" = kHdr).

(** The error, and the mode when one was found. *)
Definition GetHdrColorMode (c : Color) : DisplayError * option string :=
  match map_find (current_color_mode_ c) (color_mode_attr_map_ c) with
  | None => (kErrorNotSupported, None)
  | Some attr =>
      let cur_color_gamut := GetValueOfModeAttribute attr kColorGamutAttribute "" in
      let cur_pic_quality := GetValueOfModeAttribute attr kPictureQualityAttribute "" in
      let same a := is_hdr a && bool_decide (cur_color_gamut = GetValueOfModeAttribute a kColorGamutAttribute "") &&
        bool_decide (cur_pic_quality = GetValueOfModeAttribute a kPictureQualityAttribute "") in
      match first_mode same (color_mode_attr_map_ c) with
      | Some k => (kErrorNone, Some k)
      | None => (kErrorNone, first_mode is_hdr (color_mode_attr_map_ c))
      end
  end.

Definition with_current (s : string) (c : Color) : Color :=
  mkColor (color_mgr_ c) (num_color_modes_ c) (color_modes_ c) (color_mode_map_ c) (color_mode_attr_map_ c) s
    (hdr_playback_mode_ c) (disable_hdr_lut_gen_ c).
Definition with_playback (b : bool) (c : Color) : Color :=
  mkColor (color_mgr_ c) (num_color_modes_ c) (color_modes_ c) (color_mode_map_ c) (color_mode_attr_map_ c)
    (current_color_mode_ c) b (disable_hdr_lut_gen_ c).
Definition with_modes (n : Z) (l : list SDEDisplayMode) (c : Color) : Color :=
  mkColor (color_mgr_ c) n l (color_mode_map_ c) (color_mode_attr_map_ c)
    (current_color_mode_ c) (hdr_playback_mode_ c) (disable_hdr_lut_gen_ c).
Definition with_maps (m : gmap string nat) (a : list (string * AttrVal)) (c : Color) : Color :=
  mkColor (color_mgr_ c) (num_color_modes_ c) (color_modes_ c) m a
    (current_color_mode_ c) (hdr_playback_mode_ c) (disable_hdr_lut_gen_ c).

Definition SetColorModeInternal (color_mode : string) : P DisplayError :=
  c ← gets color;
  match color_mode_map_ c !! color_mode with
  | None => mret kErrorNotSupported
  | Some i =>
      match color_modes_ c !! i with
      | None => st_undef
      | Some m => in_dev (K_SetMode (mode_id m))
      end
  end.

(** Whether the mode is an HDR mode. *)
Definition is_hdr_mode (c : Color) (color_mode : string) : bool :=
  match map_find color_mode (color_mode_attr_map_ c) with
  | Some attr => is_hdr attr
  | None => contains "hal_hdr" color_mode
  end.

Definition SetColorMode (color_mode : string) : P DisplayError :=
  c ← gets color;
  if negb (color_mgr_ c) then mret kErrorNotSupported
  else
    let hdr := is_hdr_mode c color_mode in
    if disable_hdr_lut_gen_ c then
      error ← SetColorModeInternal color_mode;
      if decide (error <> kErrorNone) then mret error
      else _ ← (if hdr then mret tt else set_color (with_current color_mode)); mret error
    else if hdr_playback_mode_ c then
      if hdr then SetColorModeInternal color_mode
      else _ ← set_color (with_current color_mode); mret kErrorNone
    else if hdr then mret kErrorNotSupported
    else
      error ← SetColorModeInternal color_mode;
      if decide (error <> kErrorNone) then mret error
      else _ ← set_color (with_current color_mode); mret error.

(** One mode of the list; [i] is its index. *)
Definition init_mode (default_id : Z) (i : nat) : P unit :=
  c ← gets color;
  match color_modes_ c !! i with
  | None => st_undef
  | Some m =>
      _ ← (if mode_id m =? default_id then set_color (with_current (mode_name m)) else mret tt);
      _ ← (match color_mode_map_ c !! mode_name m with
           | Some j =>
               match color_modes_ c !! j with
               | None => st_undef
               | Some m' =>
                   if mode_id m' <? mode_id m
                   then set_color (fun c => with_maps (<[mode_name m := i]> (color_mode_map_ c)) (color_mode_attr_map_ c) c)
                   else mret tt
               end
           | None => set_color (fun c => with_maps (<[mode_name m := i]> (color_mode_map_ c)) (color_mode_attr_map_ c) c)
           end);
      '(error, var) ← in_dev (K_GetModeInfo (mode_id m));
      if decide (error <> kErrorNone) then mret tt
      else match var with
           | [] => mret tt
           | _ => set_color (fun c => with_maps (color_mode_map_ c) (map_insert (mode_name m) var (color_mode_attr_map_ c)) c)
           end
  end.
Fixpoint init_modes (default_id : Z) (i n : nat) : P unit :=
  match n with
  | O => mret tt
  | S n => _ ← init_mode default_id i; init_modes default_id (S i) n
  end.

Definition InitializeColorModes : P DisplayError :=
  c ← gets color;
  if negb (color_mgr_ c) then mret kErrorNotSupported
  else
    '(error, n) ← in_dev (K_GetNumOfModes (num_color_modes_ c));
    _ ← set_color (fun c => with_modes n (color_modes_ c) c);
    if bool_decide (error <> kErrorNone) || (n =? 0) then mret kErrorNotSupported
    else
      match color_modes_ c with
      | _ :: _ => mret kErrorNone
      | [] =>
          '(error, n, l) ← in_dev (K_GetModes n (replicate (Z.to_nat n) (mkMode (-1) "")));
          _ ← set_color (with_modes n l);
          if decide (error <> kErrorNone) then _ ← set_color (with_modes n []); mret error
          else
            '(_, default_id) ← in_dev (K_GetDefaultModeID kInvalidModeId);
            _ ← init_modes default_id 0 (Z.to_nat n);
            mret kErrorNone
      end.

(** * HDR playback *)
Definition HandleHDR (ls : LayerStack) : P DisplayError :=
  d ← st_gets disp;
  let c := color d in
  if decide (display_type_ d <> kPrimary) then mret kErrorNone
  else if negb (hdr_present (flags ls)) then
    if hdr_playback_mode_ c then
      _ ← set_color (with_playback false);
      error ← (if color_mgr_ c && negb (disable_hdr_lut_gen_ c) then SetColorModeInternal (current_color_mode_ c)
               else mret kErrorNone);
      _ ← in_cm (ControlDpps true);
      mret error
    else mret kErrorNone
  else if negb (hdr_playback_mode_ c) && negb (animating (flags ls)) then
    _ ← set_color (with_playback true);
    error ← (if color_mgr_ c && negb (disable_hdr_lut_gen_ c) then
               SetColorModeInternal
                 (if IsSupportColorModeAttribute c (current_color_mode_ c)
                  then default "hal_hdr" (snd (GetHdrColorMode c)) else "hal_hdr")
             else mret kErrorNone);
    _ ← in_cm (ControlDpps false);
    mret error
  else mret kErrorNone.

(** Simple queries of the colour manager. *)
Definition GetColorModeCount : P (DisplayError * option Z) :=
  c ← gets color;
  mret (if color_mgr_ c then (kErrorNone, Some (num_color_modes_ c)) else (kErrorNotSupported, None)).

(** [out] is the vector of the caller. *)
Fixpoint mode_names (l : list SDEDisplayMode) (out : list string) (i n : nat) : outcome (list string) :=
  match n with
  | O => Ret out
  | S n =>
      match l !! i with
      | None => Undef
      | Some m => if (i <? length out)%nat then mode_names l (<[i := mode_name m]> out) (S i) n else Undef
      end
  end.
Definition GetColorModes (out : list string) : P (DisplayError * list string) :=
  c ← gets color;
  if negb (color_mgr_ c) then mret (kErrorNotSupported, out)
  else out ← st_lift (mode_names (color_modes_ c) out 0 (Z.to_nat (num_color_modes_ c))); mret (kErrorNone, out).

Definition GetColorModeAttr (color_mode : string) : P (DisplayError * option AttrVal) :=
  c ← gets color;
  if negb (color_mgr_ c) then mret (kErrorNotSupported, None)
  else match map_find color_mode (color_mode_attr_map_ c) with
       | None => mret (kErrorNotSupported, None)
       | Some a => mret (kErrorNone, Some a)
       end.

Fixpoint mode_of_id (l : list SDEDisplayMode) (id : Z) (i n : nat) : outcome (option string) :=
  match n with
  | O => Ret None
  | S n =>
      match l !! i with
      | None => Undef
      | Some m => if mode_id m =? id then Ret (Some (mode_name m)) else mode_of_id l id (S i) n
      end
  end.
Definition GetDefaultColorMode : P (DisplayError * option string) :=
  c ← gets color;
  if negb (color_mgr_ c) then mret (kErrorNotSupported, None)
  else
    '(error, default_id) ← in_dev (K_GetDefaultModeID kInvalidModeId);
    if decide (error <> kErrorNone) then mret (error, None)
    else
      r ← st_lift (mode_of_id (color_modes_ c) default_id 0 (Z.to_nat (num_color_modes_ c)));
      mret (match r with Some n => (kErrorNone, Some n) | None => (kErrorNotSupported, None) end).

Definition SetColorTransform (t : option (list float)) : P DisplayError :=
  c ← gets color;
  if negb (color_mgr_ c) then mret kErrorNotSupported
  else match t with None => mret kErrorParameters | Some t => in_dev (K_SetColorTransform t) end.
Definition ApplyDefaultDisplayMode : P DisplayError :=
  c ← gets color;
  if color_mgr_ c then in_dev K_ApplyDefaultDisplayMode else mret kErrorParameters.

(** * Configuration *)
Definition with_config (p : HWPanelInfo) (a : HWDisplayAttributes) (m : HWMixerAttributes) (c : Config) : Config :=
  mkConf p a m (fb_config_ c) (req_mixer_width_ c) (req_mixer_height_ c).
Definition with_fb (f : FbConfig) (c : Config) : Config :=
  mkConf (hw_panel_info_ c) (display_attributes_ c) (mixer_attributes_ c) f (req_mixer_width_ c) (req_mixer_height_ c).
Definition with_req (w h : Z) (c : Config) : Config :=
  mkConf (hw_panel_info_ c) (display_attributes_ c) (mixer_attributes_ c) (fb_config_ c) w h.
(** [fb.x_pixels = x; fb.y_pixels = y] *)
Definition resized (x y : Z) (f : FbConfig) : FbConfig :=
  mkFb x y (x_dpi f) (y_dpi f) (fps f) (vsync_period_ns f) (is_yuv f).

Definition SetMaxMixerStages (n : Z) : P DisplayError :=
  c ← gets (fun d => display_comp_ctx_ (power d));
  error ← in_cm (CompMgr.SetMaxMixerStages c n);
  _ ← (if decide (error = kErrorNone) then set_power (with_stages n) else mret tt);
  mret error.

(** The limit on mixer stages from the hardware and the property. *)
Definition limit_stages : P unit :=
  info ← in_dev H_GetHWResourceInfo;
  let n := if 0 <=? max_pipes_per_mixer props
           then Z.min (u32 (max_pipes_per_mixer props)) (num_blending_stages info) else num_blending_stages info in
  _ ← SetMaxMixerStages n;
  mret tt.

(** Registers the display with the composition manager; the handle is stored when
    it is given out. *)
Definition register (a : HWDisplayAttributes) (p : HWPanelInfo) (m : HWMixerAttributes) (fb : FbConfig) : P DisplayError :=
  ty ← gets display_type_;
  '(error, h) ← in_cm (RegisterDisplay (ext_max_layers props) ty a p m fb);
  _ ← (match h with Some h => set_power (with_ctx (Some h)) | None => mret tt end);
  mret error.

(** From the end of Init: the label CleanupOnError. *)
Definition cleanup (error : DisplayError) : P DisplayError :=
  c ← gets (fun d => display_comp_ctx_ (power d));
  _ ← (match c with Some h => _ ← in_cm (UnregisterDisplay (Some h)); mret tt | None => mret tt end);
  mret error.

Definition Init : P DisplayError :=
  '(_, panel) ← hw (H_GetHWPanelInfo panel0);
  c ← gets conf;
  '(_, active_index) ← hw (H_GetActiveConfig 0);
  '(_, a) ← hw (H_GetDisplayAttributes active_index (display_attributes_ c));
  let m := match mixer_resolution props with
           | Some (w, h) => mkMixer w h (split_left (mixer_attributes_ c)) (output_format (mixer_attributes_ c))
           | None => mixer_attributes_ c
           end in
  _ ← (match mixer_resolution props with Some _ => _ ← hw (H_SetMixerAttributes m); mret tt | None => mret tt end);
  '(error, m) ← hw (H_GetMixerAttributes m);
  _ ← set_conf (fun c => with_fb (variable_info a) (with_config panel a m c));
  if decide (error <> kErrorNone) then mret error
  else
    let fb := resized (m_width m) (m_height m) (variable_info a) in
    _ ← set_conf (with_fb fb);
    error ← in_cm GetScaleLutConfig;
    error ← (if decide (error = kErrorNone) then hw H_SetScaleLutConfig else mret kErrorNone);
    if decide (error <> kErrorNone) then cleanup error
    else
      error ← register a panel m fb;
      if decide (error <> kErrorNone) then cleanup error
      else
        _ ← limit_stages;
        created ← in_dev K_Create;
        _ ← set_color (fun c => mkColor created (num_color_modes_ c) (color_modes_ c) (color_mode_map_ c)
              (color_mode_attr_map_ c) (current_color_mode_ c) (hdr_playback_mode_ c) (disable_hdr_lut_gen_ c));
        _ ← (if (created : bool) then _ ← InitializeColorModes; mret tt else mret tt);
        _ ← set_color (fun c => mkColor (color_mgr_ c) (num_color_modes_ c) (color_modes_ c) (color_mode_map_ c)
              (color_mode_attr_map_ c) (current_color_mode_ c) (hdr_playback_mode_ c) (negb (disable_hdr_lut_gen props =? 0)));
        mret kErrorNone.

Definition Deinit : P DisplayError :=
  c ← gets color;
  _ ← set_color (fun c => mkColor false (num_color_modes_ c) [] ∅ [] (current_color_mode_ c) (hdr_playback_mode_ c)
        (disable_hdr_lut_gen_ c));
  _ ← (if color_mgr_ c then in_dev K_Delete else mret tt);
  h ← gets (fun d => display_comp_ctx_ (power d));
  _ ← in_cm (UnregisterDisplay h);
  _ ← in_dev H_EventsDestroy;
  _ ← hw_destroy;
  mret kErrorNone.

Definition ReconfigureDisplay : P DisplayError :=
  '(error, active_index) ← hw (H_GetActiveConfig 0);
  if decide (error <> kErrorNone) then mret error
  else
    '(error, a) ← hw (H_GetDisplayAttributes active_index attributes0);
    if decide (error <> kErrorNone) then mret error
    else
      '(error, m) ← hw (H_GetMixerAttributes mixer0);
      if decide (error <> kErrorNone) then mret error
      else
        '(error, panel) ← hw (H_GetHWPanelInfo panel0);
        if decide (error <> kErrorNone) then mret error
        else
          c ← gets conf;
          if eq_attributes a (display_attributes_ c) && eq_mixer m (mixer_attributes_ c) && eq_panel panel (hw_panel_info_ c)
          then mret kErrorNone
          else
            h ← ctx_handle;
            error ← in_cm (CompMgr.ReconfigureDisplay h a panel m (fb_config_ c));
            if decide (error <> kErrorNone) then mret error
            else
              _ ← (if negb (eq_mixer m (mixer_attributes_ c)) then _ ← DisablePartialUpdateOneFrame; mret tt else mret tt);
              _ ← set_conf (with_config panel a m);
              mret kErrorNone.

Definition SetActiveConfig (index : Z) : P DisplayError :=
  '(_, active_index) ← hw (H_GetActiveConfig 0);
  if active_index =? index then mret kErrorNone
  else
    error ← hw (H_SetConfig index);
    if decide (error <> kErrorNone) then mret error else ReconfigureDisplay.

(** The attributes other than the size are those of a new object. *)
Definition ReconfigureMixer (width height : Z) : P DisplayError :=
  if (width =? 0) || (height =? 0) then mret kErrorParameters
  else
    error ← hw (H_SetMixerAttributes (mkMixer width height 0 kFormatRGB101010));
    if decide (error <> kErrorNone) then mret error else ReconfigureDisplay.

Definition SetMixerResolution (width height : Z) : P DisplayError :=
  error ← ReconfigureMixer width height;
  if decide (error <> kErrorNone) then mret error
  else _ ← set_conf (with_req width height); mret kErrorNone.
Definition GetMixerResolution : P (Z * Z) :=
  c ← gets conf; mret (m_width (mixer_attributes_ c), m_height (mixer_attributes_ c)).

Definition SetFrameBufferConfig (info : FbConfig) : P DisplayError :=
  let width := x_pixels info in let height := y_pixels info in
  if (width =? 0) || (height =? 0) then mret kErrorParameters
  else
    c ← gets conf;
    let crop := mkRect f_zero f_zero (FLOAT width) (FLOAT height) in
    let dst := mkRect f_zero f_zero (FLOAT (m_width (mixer_attributes_ c))) (FLOAT (m_height (mixer_attributes_ c))) in
    error ← in_cm (CompMgr.ValidateScaling (ubwc_fb props) crop dst false);
    if decide (error <> kErrorNone) then mret kErrorParameters
    else
      h ← ctx_handle;
      error ← in_cm (CompMgr.ReconfigureDisplay h (display_attributes_ c) (hw_panel_info_ c) (mixer_attributes_ c) info);
      if decide (error <> kErrorNone) then mret error
      else _ ← set_conf (fun c => with_fb (resized width height (fb_config_ c)) c); mret kErrorNone.
Definition GetFrameBufferConfig : P FbConfig := c ← gets conf; mret (fb_config_ c).

(** ** When the mixer should be resized *)
Definition NeedsDownScale (src_rect dst_rect : LayerRect) (needs_rotation : bool) : bool :=
  let src_width := fsub (right src_rect) (left src_rect) in
  let src_height := fsub (bottom src_rect) (top src_rect) in
  let dst_width := fsub (right dst_rect) (left dst_rect) in
  let dst_height := fsub (bottom dst_rect) (top dst_rect) in
  let '(src_width, src_height) := if needs_rotation then (src_height, src_width) else (src_width, src_height) in
  flt dst_width src_width || flt dst_height src_height.

Definition layer_size (l : StackLayer) : outcome (Z * Z) :=
  w ← UINT32 (fsub (right (sl_src l)) (left (sl_src l)));
  h ← UINT32 (fsub (bottom (sl_src l)) (top (sl_src l)));
  Ret (w, h).
(** The largest area so far and where. *)
Fixpoint max_area (ls : list StackLayer) (i best area : Z) : outcome (Z * Z) :=
  match ls with
  | [] => Ret (best, area)
  | l :: ls =>
      '(w, h) ← layer_size l;
      let layer_area := u32 (w * h) in
      if area <? layer_area then max_area ls (i + 1) i layer_area else max_area ls (i + 1) best area
  end.

(** The size when there is one, which starts as 0 x 0. *)
Definition NeedsMixerReconfiguration (c : Config) (ls : LayerStack) : outcome (bool * Z * Z) :=
  let fb_width := x_pixels (fb_config_ c) in let fb_height := y_pixels (fb_config_ c) in
  let fb_area := u32 (fb_width * fb_height) in
  let fb_rect := mkRect f_zero f_zero (FLOAT fb_width) (FLOAT fb_height) in
  let fb_orientation := GetOrientation fb_rect in
  let align_x := if is_device_split (display_attributes_ c) then 4 else 2 in
  if negb (req_mixer_width_ c =? 0) && negb (req_mixer_height_ c =? 0) then
    Ret (negb (req_mixer_width_ c =? m_width (mixer_attributes_ c)) || negb (req_mixer_height_ c =? m_height (mixer_attributes_ c)),
         req_mixer_width_ c, req_mixer_height_ c)
  else
    '(best, area) ← max_area (layers ls) 0 0 0;
    if fb_area <=? area then
      match layers ls !! Z.to_nat best with
      | None => Undef
      | Some layer =>
          let needs_rotation := feq (rotation layer) (FLOAT 90) in
          '(w, h) ← layer_size layer;
          let layer_orientation := GetOrientation (sl_src layer) in
          let '(w, h) := if bool_decide (layer_orientation <> kOrientationUnknown) && bool_decide (fb_orientation <> kOrientationUnknown)
                            && bool_decide (layer_orientation <> fb_orientation) then (h, w) else (w, h) in
          nw ← UINT32 (fmul (fdiv (FLOAT fb_width) (FLOAT fb_height)) (FLOAT h));
          let nw := FloorToMultipleOf nw align_x in
          let nh := FloorToMultipleOf h 2 in
          dst ← MapRect fb_rect (mkRect f_zero f_zero (FLOAT nw) (FLOAT nh)) (sl_dst layer) LayerRect0;
          if NeedsDownScale (sl_src layer) dst needs_rotation
          then Ret (true, x_pixels (variable_info (display_attributes_ c)), y_pixels (variable_info (display_attributes_ c)))
          else Ret (true, nw, nh)
      end
    else Ret (false, 0, 0).

(** * Frames *)

(** The loop of BuildLayerStackStats: the layers before the target are counted on
    top of [count]; the target's index when there is one. *)
Fixpoint count_layers (ls : list StackLayer) (count : Z) : Z * option Z :=
  match ls with
  | [] => (count, None)
  | l :: ls => if decide (sl_composition l = CompositionGPUTarget) then (count, Some count)
               else count_layers ls (u32 (count + 1))
  end.

Definition ValidateGPUTargetParams (ty : DisplayType) (c : Config) (f : Frame) : outcome DisplayError :=
  if decide (ty = kVirtual) then Ret kErrorNone
  else
    match layers (stack f) !! Z.to_nat (gpu_target_index f) with
    | None => Undef
    | Some target =>
        if negb (IsValid (sl_src target)) then Ret kErrorParameters
        else if negb (IsValid (sl_dst target)) then Ret kErrorParameters
        else
          let m := mixer_attributes_ c in
          let src_domain := mkRect f_zero f_zero (FLOAT (x_pixels (fb_config_ c))) (FLOAT (y_pixels (fb_config_ c))) in
          let dst_domain := mkRect f_zero f_zero (FLOAT (m_width m)) (FLOAT (m_height m)) in
          out_rect ← MapRect src_domain dst_domain (sl_dst target) (sl_dst target);
          out_rect ← Normalize 1 1 out_rect;
          Ret (if flt (FLOAT (m_width m)) (fsub (right out_rect) (left out_rect)) ||
                  flt (FLOAT (m_height m)) (fsub (bottom out_rect) (top out_rect))
               then kErrorParameters else kErrorNone)
    end.

Definition with_counts (n i : Z) (f : Frame) : Frame :=
  mkFrame (stack f) n i (index f) (hw_stack f) (left_frame_roi f) (right_frame_roi f) (frame_config f) (frame_sync f)
    (set_idle_time_ms f) (avr_enable f).

Definition BuildLayerStackStats (ls : LayerStack) : P DisplayError :=
  f ← the_frame;
  let '(n, i) := count_layers (layers ls) (app_layer_count f) in
  let f := with_counts n (default (gpu_target_index f) i) (set_stack ls f) in
  _ ← put_the_frame f;
  if n =? 0 then mret kErrorNoAppLayers
  else if negb (gpu_target_index f =? 0) then
    d ← st_gets disp; st_lift (ValidateGPUTargetParams (display_type_ d) (conf d) f)
  else mret kErrorNone.

(** [hw_intf_->Validate(&hw_layers_)] and Commit. *)
Definition on_frame (m : Frame -> St V (DisplayError * Frame)) : P DisplayError :=
  f ← the_frame;
  '(error, f) ← hw (m f);
  _ ← put_the_frame f;
  mret error.

(** The loop of Prepare: the error, and whether to return at once. *)
Fixpoint prepare_loop (fuel : nat) (h : nat) (a : Z) : P (DisplayError * bool) :=
  match fuel with
  | O => fun _ => NoFuel
  | S fuel =>
      error ← in_cm (CompMgr.Prepare h a);
      if decide (error <> kErrorNone) then mret (error, false)
      else
        error ← on_frame H_Validate;
        if decide (error = kErrorNone) then
          _ ← set_power (with_validate false); mret (kErrorNone, false)
        else if decide (error = kErrorShutDown) then
          _ ← in_cm (CompMgr.PostPrepare h a); mret (error, true)
        else prepare_loop fuel h a
  end.

(** The number of strategies PrePrepare has left in the context, and one more
    turn to find that none is left. *)
Definition strategies_left (h : nat) : P nat :=
  c ← in_cm (ctx h); mret (S (Z.to_nat (remaining_strategies c))).

Definition Prepare (ls : option LayerStack) : P DisplayError :=
  _ ← set_power (with_validate true);
  p ← gets power;
  if negb (active_ p) then mret kErrorPermission
  else
    match ls with
    | None => mret kErrorParameters
    | Some ls =>
        error ← BuildLayerStackStats ls;
        if decide (error <> kErrorNone) then mret error
        else
          error ← HandleHDR ls;
          if decide (error <> kErrorNone) then mret error
          else
            c ← gets color;
            _ ← (if color_mgr_ c then
                   b ← in_dev K_NeedsPartialUpdateDisable;
                   if (b : bool) then _ ← DisablePartialUpdateOneFrame; mret tt else mret tt
                 else mret tt);
            h ← ctx_handle;
            u ← gets update;
            _ ← (if negb (partial_update_control_ u) || disable_pu_one_frame_ u then
                   _ ← in_cm (CompMgr.ControlPartialUpdate h false);
                   set_update (fun u => mkUpdate (partial_update_control_ u) false)
                 else mret tt);
            a ← gets hw_layers_;
            _ ← in_cm (CompMgr.PrePrepare h a);
            fuel ← strategies_left h;
            '(error, stop) ← prepare_loop fuel h a;
            if (stop : bool) then mret error
            else _ ← in_cm (CompMgr.PostPrepare h a); mret error
    end.

(** CommitLayerParams: the buffers of the client's layers go to the hardware's. *)
Definition commit_params (sdm hwl : StackLayer) : StackLayer :=
  let b := input_buffer sdm in let b' := input_buffer hwl in
  set_buffer (mkBuffer (plane_fd b) (plane_offset b) (plane_stride b) (buffer_size b) (acquire_fence_fd b)
    (release_fence_fd b') (s3d_format b')) hwl.
Fixpoint commit_layers (ls : list StackLayer) (ix : list Z) (hwls : list StackLayer) {struct hwls} :
    outcome (list StackLayer) :=
  match hwls with
  | [] => Ret []
  | hwl :: hwls =>
      match ix with
      | [] => Undef
      | i :: ix =>
          match ls !! Z.to_nat i with
          | None => Undef
          | Some sdm => rest ← commit_layers ls ix hwls; Ret (commit_params sdm hwl :: rest)
          end
      end
  end.
Definition CommitLayerParams : P unit :=
  f ← the_frame;
  hwls ← st_lift (commit_layers (layers (stack f)) (index f) (hw_stack f));
  put_the_frame (set_hw (index f) hwls f).

(** PostCommitLayerParams: the release fences come back.  [dup] is fence_dup_flag. *)
Definition with_release (fd : Z) (l : StackLayer) : StackLayer :=
  let b := input_buffer l in
  set_buffer (mkBuffer (plane_fd b) (plane_offset b) (plane_stride b) (buffer_size b) (acquire_fence_fd b) fd (s3d_format b)) l.
Definition close_if_valid (fd : Z) : P Z := if 0 <=? fd then _ ← in_dev (B_close fd); mret (-1) else mret fd.
Fixpoint release_layers (ls : list StackLayer) (ix : list Z) (hwls : list StackLayer) (dup : list Z) {struct hwls} :
    P (list StackLayer * list StackLayer) :=
  match hwls with
  | [] => mret (ls, [])
  | hwl :: hwls =>
      match ix with
      | [] => st_undef
      | i :: ix =>
          match ls !! Z.to_nat i with
          | None => st_undef
          | Some sdm =>
              let hfd := release_fence_fd (input_buffer hwl) in
              if decide (i ∈ dup) then
                temp ← in_dev (B_SyncMerge hfd (release_fence_fd (input_buffer sdm)) (-1));
                hfd ← close_if_valid hfd;
                _ ← close_if_valid (release_fence_fd (input_buffer sdm));
                '(ls, rest) ← release_layers (<[Z.to_nat i := with_release temp sdm]> ls) ix hwls dup;
                mret (ls, with_release hfd hwl :: rest)
              else
                '(ls, rest) ← release_layers (<[Z.to_nat i := with_release hfd sdm]> ls) ix hwls (dup ++ [i]);
                mret (ls, hwl :: rest)
          end
      end
  end.
Definition PostCommitLayerParams : P unit :=
  f ← the_frame;
  '(ls, hwls) ← release_layers (layers (stack f)) (index f) (hw_stack f) [];
  put_the_frame (set_hw (index f) hwls (set_layers ls f)).

Definition Commit (ls : option LayerStack) : P DisplayError :=
  p ← gets power;
  if negb (active_ p) then _ ← set_power (with_validate true); mret kErrorPermission
  else
    match ls with
    | None => mret kErrorParameters
    | Some ls =>
        if needs_validate_ p then mret kErrorNotValidated
        else
          f ← the_frame;
          _ ← put_the_frame (set_stack ls f);
          h ← ctx_handle;
          a ← gets hw_layers_;
          error ← (if attributes_changed (flags ls) then
                     error ← in_cm (ReConfigure h a);
                     if decide (error <> kErrorNone) then mret error else on_frame H_Validate
                   else mret kErrorNone);
          if decide (error <> kErrorNone) then mret error
          else
            _ ← CommitLayerParams;
            error ← in_cm (CompMgr.Commit h a);
            if decide (error <> kErrorNone) then mret error
            else
              c ← gets color;
              _ ← (if color_mgr_ c then _ ← in_dev K_Commit; mret tt else mret tt);
              error ← on_frame H_Commit;
              if decide (error <> kErrorNone) then mret error
              else
                _ ← PostCommitLayerParams;
                u ← gets update;
                _ ← (if partial_update_control_ u then in_cm (CompMgr.ControlPartialUpdate h true) else mret tt);
                in_cm (CompMgr.PostCommit h a)
    end.

Definition clear_hw : P unit := f ← the_frame; put_the_frame (set_hw (index f) [] f).

Definition Flush (secure : bool) : P DisplayError :=
  p ← gets power;
  if negb (active_ p) then mret kErrorPermission
  else
    _ ← clear_hw;
    error ← hw (H_Flush secure);
    _ ← (if decide (error = kErrorNone) then
           h ← ctx_handle; _ ← in_cm (CompMgr.Purge h); set_power (with_validate true)
         else mret tt);
    mret error.

(** * Power *)

(** The error, whether the display is active, and whether the end of the method is
    reached, which the early returns of kStateOn do not. *)
Definition switch_state (d : D) (state : DisplayState) : P (DisplayError * bool * bool) :=
  match state with
  | kStateOff =>
      _ ← clear_hw;
      error ← hw (H_Flush false);
      error ← (if decide (error = kErrorNone) then hw H_PowerOff else mret error);
      mret (error, false, true)
  | kStateOn =>
      error ← hw H_PowerOn;
      if decide (error <> kErrorNone) then mret (error, false, false)
      else
        let c := conf d in
        error ← (match display_comp_ctx_ (power d) with
                 | Some _ => mret kErrorNone
                 | None =>
                     error ← register (display_attributes_ c) (hw_panel_info_ c) (mixer_attributes_ c) (fb_config_ c);
                     if decide (error <> kErrorNone) then cleanup error else mret kErrorNone
                 end);
        if decide (error <> kErrorNone) then mret (error, false, false)
        else
          h ← ctx_handle;
          error ← in_cm (CompMgr.ReconfigureDisplay h (display_attributes_ c) (hw_panel_info_ c) (mixer_attributes_ c) (fb_config_ c));
          if decide (error <> kErrorNone) then mret (error, false, false) else mret (error, true, true)
  | kStateDoze => error ← hw H_Doze; mret (error, true, true)
  | kStateDozeSuspend => error ← hw H_DozeSuspend; mret (error, bool_decide (display_type_ d <> kPrimary), true)
  | kStateStandby => error ← hw H_Standby; mret (error, false, true)
  end.

(** The manager dereferences the context only to switch off. *)
Definition SetDisplayState (state : DisplayState) : P DisplayError :=
  d ← st_gets disp;
  if decide (state = state_ (power d)) then mret kErrorNone
  else
    '(error, active, goes_on) ← switch_state d state;
    _ ← (if (goes_on : bool) && bool_decide (error = kErrorNone) then
           _ ← set_power (with_active state active);
           h ← (match state with
                | kStateOff => ctx_handle
                | _ => c ← gets (fun d => display_comp_ctx_ (power d)); mret (default O c)
                end);
           _ ← in_cm (CompMgr.SetDisplayState h state (display_type_ d));
           mret tt
         else mret tt);
    mret error.

Definition GetDisplayState : P DisplayState := p ← gets power; mret (state_ p).
Definition GetVSyncState : P bool := p ← gets power; mret (vsync_enable_ p).
Definition SetVSyncState (enable : bool) : P DisplayError :=
  p ← gets power;
  if negb (Bool.eqb (vsync_enable_ p) enable) then
    error ← hw (H_SetVSyncState enable);
    _ ← (if decide (error = kErrorNone) then set_power (with_vsync enable) else mret tt);
    mret error
  else mret kErrorNone.

(** * Queries and settings *)
Definition GetNumVariableInfoConfigs (count : Z) : P (DisplayError * Z) := hw (H_GetNumDisplayAttributes count).
Definition GetActiveConfig (index : Z) : P (DisplayError * Z) := hw (H_GetActiveConfig index).
Definition GetConfig (index : Z) : P (DisplayError * option FbConfig) :=
  '(error, a) ← hw (H_GetDisplayAttributes index attributes0);
  mret (if decide (error = kErrorNone) then (kErrorNone, Some (variable_info a)) else (kErrorNotSupported, None)).

Record DisplayConfigFixedInfo := mkFixed {
  is_cmdmode : bool; hdr_supported : bool; max_luminance : Z; fixed_average_luminance : Z; min_luminance : Z
}.
Definition GetFixedConfig : P DisplayConfigFixedInfo :=
  c ← gets conf;
  info ← in_dev H_GetHWResourceInfo;
  let panel := hw_panel_info_ c in
  let hdr := has_hdr info && hdr_enabled panel in
  mret (mkFixed (bool_decide (mode panel = kModeCommand)) hdr (if hdr then peak_luminance panel else 0)
    (if hdr then average_luminance panel else 0) (if hdr then blackness_level panel else 0)).

(** The two rates when they are written. *)
Definition GetRefreshRateRange : P (DisplayError * option (Z * Z)) :=
  '(_, active_index) ← hw (H_GetActiveConfig 0);
  '(error, a) ← hw (H_GetDisplayAttributes active_index attributes0);
  if decide (error <> kErrorNone) then mret (error, None)
  else mret (error, Some (fps (variable_info a), fps (variable_info a))).

Definition SetCursorPosition (x y : Z) : P DisplayError :=
  p ← gets power;
  if decide (state_ p <> kStateOn) then mret kErrorNotSupported
  else
    h ← ctx_handle;
    a ← gets hw_layers_;
    error ← in_cm (ValidateAndSetCursorPosition h a x y);
    if decide (error = kErrorNone) then f ← the_frame; hw (H_SetCursorPosition f x y) else mret kErrorNone.

Definition SetDetailEnhancerData (de_data : Z) : P DisplayError :=
  h ← ctx_handle;
  error ← in_cm (CompMgr.SetDetailEnhancerData h de_data);
  if decide (error <> kErrorNone) then mret error
  else _ ← DisablePartialUpdateOneFrame; mret kErrorNone.

Definition SetCompositionState (k : Composition) (enable : bool) : P DisplayError :=
  h ← ctx_handle; in_cm (CompMgr.SetCompositionState h k enable).
Definition GetDisplayPort : P Z := c ← gets conf; mret (port (hw_panel_info_ c)).
Definition IsPrimaryDisplay : P bool := c ← gets conf; mret (is_primary_panel (hw_panel_info_ c)).

Definition GetName (k : Composition) : string :=
  match k with
  | kCompositionGPU => "GPU"
  | kCompositionSDE => "SDE"
  | kCompositionHWCursor => "CURSOR"
  | kCompositionHybrid => "HYBRID"
  | kCompositionBlit => "BLIT"
  | CompositionGPUTarget => "GPU_TARGET"
  | kCompositionBlitTarget => "BLIT_TARGET"
  | kCompositionGPUS3D => "UNKNOWN"
  end.

(** ** Formats of the client's target *)
Definition scale_ok (scale max_scale_up : float) : outcome bool :=
  u ← UINT32 scale;
  Ret (negb ((u <? 1) && flt f_zero scale && flt max_scale_up (fdiv f_one scale))).
Definition ValidateScaling (a : FbConfig) (info : HWInfo) (width height : Z) : outcome DisplayError :=
  if (x_pixels a =? 0) || (y_pixels a =? 0) then Undef
  else
    let max_scale_down := FLOAT (hw_max_scale_down info) in
    let max_scale_up := FLOAT (hw_max_scale_up info) in
    let scale_x := FLOAT (width / x_pixels a) in
    let scale_y := FLOAT (height / y_pixels a) in
    if flt max_scale_down scale_x || flt max_scale_down scale_y then Ret kErrorNotSupported
    else
      ok_x ← scale_ok scale_x max_scale_up;
      ok_y ← scale_ok scale_y max_scale_up;
      Ret (if (ok_x : bool) && (ok_y : bool) then kErrorNone else kErrorNotSupported).

Record ColorMetaData := mkColorMeta { transfer : Z; colorPrimaries : Z }.
Definition ValidateDataspace (m : ColorMetaData) : DisplayError :=
  (* sRGB, SMPTE_170M, SMPTE_ST2084, HLG, Linear, Gamma2_2 *)
  if negb (bool_decide (transfer m ∈ [1; 6; 16; 18; 8; 4])) then kErrorNotSupported
  (* BT709_5, BT601_6_525, BT601_6_625, DCIP3, BT2020 *)
  else if negb (bool_decide (colorPrimaries m ∈ [1; 6; 5; 12; 9])) then kErrorNotSupported
  else kErrorNone.
Definition ColorPrimaries_BT2020 : Z := 9.

Definition GetClientTargetSupport (width height : Z) (format : LayerBufferFormat) (m : ColorMetaData) : P DisplayError :=
  if bool_decide (format <> kFormatRGBA8888) && bool_decide (format <> kFormatRGBA1010102) then mret kErrorNotSupported
  else
    c ← gets conf;
    info ← in_dev H_GetHWResourceInfo;
    error ← st_lift (ValidateScaling (variable_info (display_attributes_ c)) info width height);
    if decide (error <> kErrorNone) then mret kErrorNotSupported
    else if negb (transfer m =? 0) && negb (colorPrimaries m =? 0) then
      if decide (ValidateDataspace m <> kErrorNone) then mret (ValidateDataspace m)
      else mret (if colorPrimaries m =? ColorPrimaries_BT2020 then kErrorNotSupported else kErrorNone)
    else mret kErrorNone.
End Display.
Arguments World R X V : clear implicits.
End DisplayBase.
