(* ===== verification/Displays.v ===== *)
(** The three kinds of display over [DisplayBase]: display_primary.cpp,
    display_hdmi.cpp and display_virtual.cpp of
    src/hardware/qcom-caf/display/sdm/libs/core. *)
From S2P Require Import Prelude Rect ResourceDefault Strategy CompMgr DisplayBase.
#[local] Open Scope Z_scope.

Module Displays.
Import Float32 Rect Formats ResourceDefault Strategy CompMgr DisplayBase.

Section Displays.
Context {R X V : Type} `{ResourceIface R} `{!Extension X} `{!Device V} (props : Props).
Abbreviation P := (St (World R X V)).

(** * What the classes share *)

(** [layer_stack] is used before it is checked. *)
Definition resize_mixer (ls : option LayerStack) : P unit :=
  match ls with
  | None => st_undef
  | Some ls =>
      c ← gets conf;
      '(needed, w, h) ← st_lift (NeedsMixerReconfiguration c ls);
      if (needed : bool) then
        let a := variable_info (display_attributes_ c) in
        error ← ReconfigureMixer w h;
        if decide (error <> kErrorNone) then _ ← ReconfigureMixer (x_pixels a) (y_pixels a); mret tt else mret tt
      else mret tt
  end.
Definition avr_frame (b : bool) : Frame :=
  mkFrame (stack frame0) 0 0 (index frame0) [] [] [] (frame_config frame0) (-1) (-1) b.

(** The rates of the panel when both are known. *)
Definition panel_rates : P (DisplayError * option (Z * Z)) :=
  c ← gets conf;
  let p := hw_panel_info_ c in
  if negb (min_fps p =? 0) && negb (max_fps p =? 0) then mret (kErrorNone, Some (min_fps p, max_fps p))
  else DisplayBase.GetRefreshRateRange.

Definition OnVSync (timestamp : Z) : P DisplayError :=
  p ← gets power;
  _ ← (if vsync_enable_ p then in_dev (E_event (VSync timestamp)) else mret tt);
  mret kErrorNone.

(** * DisplayPrimary *)
Definition with_switch (b : bool) (d : Derived) : Derived :=
  mkDerived b (avr_prop_disabled_ d) (bitclk_ d) (underscan_supported_ d) (scan_support_ d).

Definition Primary_Init : P DisplayError :=
  error ← hw_create;
  if decide (error <> kErrorNone) then mret error
  else
    error ← DisplayBase.Init props;
    if decide (error <> kErrorNone) then _ ← hw_destroy; mret error
    else
      c ← gets conf;
      _ ← (if bool_decide (mode (hw_panel_info_ c) = kModeCommand) && video_mode_panel props
           then _ ← hw (H_SetDisplayMode kModeVideo); mret tt else mret tt);
      _ ← set_derived (fun d => mkDerived (switch_to_cmd_ d) (disable_avr props) (bitclk_ d) (underscan_supported_ d)
            (scan_support_ d));
      error ← in_dev H_EventsCreate;
      _ ← (if decide (error <> kErrorNone) then _ ← DisplayBase.Deinit; hw_destroy else mret tt);
      mret error.

Definition NeedsAVREnable (d : D) : bool :=
  let p := hw_panel_info_ (conf d) in
  if avr_prop_disabled_ (derived d) then false
  else bool_decide (mode p = kModeVideo) &&
       (dynamic_fps p && dfps_porch_mode p || negb (dynamic_fps p) && negb (min_fps p =? max_fps p)).

Definition Primary_Prepare (ls : option LayerStack) : P DisplayError :=
  _ ← resize_mixer ls;
  d ← st_gets disp;
  _ ← put_the_frame (avr_frame (NeedsAVREnable d));
  DisplayBase.Prepare ls.

(** The error, and [*pending] when it is written. *)
Definition ControlPartialUpdate (enable : bool) : P (DisplayError * option Z) :=
  d ← st_gets disp;
  if negb (partial_update (hw_panel_info_ (conf d))) then mret (kErrorNotSupported, None)
  else if Bool.eqb enable (partial_update_control_ (update d)) then mret (kErrorNone, Some 0)
  else
    _ ← set_update (fun u => mkUpdate enable (disable_pu_one_frame_ u));
    mret (kErrorNone, Some (if enable then 0 else 1)).

Definition Primary_Commit (ls : option LayerStack) : P DisplayError :=
  f ← the_frame;
  c ← gets conf;
  _ ← (if decide (mode (hw_panel_info_ c) = kModeCommand) then
         match ls with
         | None => st_undef
         | Some ls =>
             let single := single_buffered_layer_present (flags ls) in
             _ ← hw (H_SetAutoRefresh ((app_layer_count f =? 1) && single));
             if single && (1 <? app_layer_count f) then in_dev (E_event Refresh) else mret tt
         end
       else mret tt);
  error ← DisplayBase.Commit ls;
  if decide (error <> kErrorNone) then mret error
  else
    _ ← ReconfigureDisplay;
    f ← the_frame;
    _ ← (if 0 <=? set_idle_time_ms f then hw (H_SetIdleTimeoutMs (u32 (set_idle_time_ms f))) else mret tt);
    d ← gets derived;
    _ ← (if switch_to_cmd_ d then
           _ ← set_derived (with_switch false); _ ← ControlPartialUpdate true; mret tt
         else mret tt);
    mret error.

Definition Primary_SetDisplayState (state : DisplayState) : P DisplayError :=
  error ← DisplayBase.SetDisplayState props state;
  if decide (error <> kErrorNone) then mret error
  else
    _ ← (if decide (state = kStateOff) then set_power (with_vsync false) else mret tt);
    mret kErrorNone.

Definition Primary_SetIdleTimeoutMs (active_ms : Z) : P unit :=
  h ← ctx_handle;
  error ← in_cm (CompMgr.SetIdleTimeoutMs h active_ms);
  if decide (error = kErrorNone) then hw (H_SetIdleTimeoutMs active_ms) else mret tt.

(** [kModeDefault] stands for every value that is not a mode. *)
Definition SetDisplayMode (m : HWDisplayMode) : P DisplayError :=
  d ← st_gets disp;
  if negb (active_ (power d)) then mret kErrorNotSupported
  else if bool_decide (m <> kModeCommand) && bool_decide (m <> kModeVideo) then mret kErrorParameters
  else if decide (m = mode (hw_panel_info_ (conf d))) then mret kErrorNone
  else
    error ← hw (H_SetDisplayMode m);
    if decide (error <> kErrorNone) then mret error
    else
      _ ← (if decide (m = kModeVideo) then _ ← ControlPartialUpdate false; mret tt
           else _ ← hw (H_SetIdleTimeoutMs 0); set_derived (with_switch true));
      _ ← in_dev (E_event Refresh);
      mret error.

Definition SetPanelBrightness (level : Z) : P DisplayError := hw (H_SetPanelBrightness level).
Definition GetPanelBrightness (level : Z) : P (DisplayError * Z) := hw (H_GetPanelBrightness level).

Definition Primary_SetRefreshRate (rate : Z) : P DisplayError :=
  d ← st_gets disp;
  let p := hw_panel_info_ (conf d) in
  if negb (active_ (power d)) || negb (dynamic_fps p) then mret kErrorNotSupported
  else if (rate <? min_fps p) || (max_fps p <? rate) then mret kErrorParameters
  else
    error ← hw (H_SetRefreshRate rate);
    if decide (error <> kErrorNone) then mret error else ReconfigureDisplay.

Definition IdleTimeout : P unit :=
  _ ← in_dev (E_event Refresh);
  c ← gets (fun d => display_comp_ctx_ (power d));
  _ ← in_cm (ProcessIdleTimeout c);
  in_dev (E_event IdleEvent).
Definition ThermalEvent (level : Z) : P unit :=
  h ← ctx_handle;
  _ ← in_cm (ProcessThermalEvent h level);
  in_dev (E_event ThermalEvt).
Definition IdlePowerCollapse : P unit :=
  c ← gets (fun d => display_comp_ctx_ (power d)); in_cm (ProcessIdlePowerCollapse c).

Definition SetDynamicDSIClock (bitclk : Z) : P DisplayError :=
  d ← st_gets disp;
  let p := hw_panel_info_ (conf d) in
  if negb (bitclk_update p) then mret kErrorNotSupported
  else if (bitclk =? bitclk_ (derived d)) || negb (bool_decide (bitclk ∈ bitclk_rates p)) then mret kErrorNone
  else
    error ← hw (H_SetDynamicDSIClock bitclk);
    if decide (error <> kErrorNone) then mret error
    else
      _ ← set_derived (fun d => mkDerived (switch_to_cmd_ d) (avr_prop_disabled_ d) bitclk (underscan_supported_ d)
            (scan_support_ d));
      mret kErrorNone.
Definition GetDynamicDSIClock (bitclk : Z) : P (DisplayError * Z) := hw (H_GetDynamicDSIClock bitclk).
Definition GetSupportedDSIClock : P (list Z) := c ← gets conf; mret (bitclk_rates (hw_panel_info_ c)).

(** * DisplayHDMI *)

(** The attributes of the modes, read one after the other. *)
Fixpoint read_modes (index : Z) (n : nat) : P (list HWDisplayAttributes) :=
  match n with
  | O => mret []
  | S n =>
      '(_, a) ← hw (H_GetDisplayAttributes index attributes0);
      rest ← read_modes (index + 1) n;
      mret (a :: rest)
  end.
Definition has_s3d (mode : Z) (a : HWDisplayAttributes) : bool := Z.testbit (s3d_config a) mode.
(** The mode [a] is better than [b]. *)
Definition better (a b : HWDisplayAttributes) : bool :=
  let u := variable_info a in let v := variable_info b in
  if y_pixels v <? y_pixels u then true
  else if y_pixels u =? y_pixels v then
    if x_pixels v <? x_pixels u then true
    else if x_pixels u =? x_pixels v then vsync_period_ns u <? vsync_period_ns v else false
  else false.
Fixpoint first_s3d (mode : Z) (l : list HWDisplayAttributes) : option nat :=
  match l with
  | [] => None
  | a :: l => if has_s3d mode a then Some O else S <$> first_s3d mode l
  end.
(** The loop from the index after the first one on. *)
Fixpoint best_loop (mode : Z) (l : list HWDisplayAttributes) (index : nat) (best : nat) (ab : HWDisplayAttributes) : nat :=
  match l with
  | [] => best
  | a :: l => if has_s3d mode a && better a ab then best_loop mode l (S index) index a
              else best_loop mode l (S index) best ab
  end.
Definition best_of (mode : Z) (l : list HWDisplayAttributes) : nat :=
  match first_s3d mode l with
  | None => O
  | Some i =>
      match l !! i with
      | None => O
      | Some a => best_loop mode (drop (S i) l) (S i) i a
      end
  end.

Definition GetBestConfig (s3d : Z) : P Z :=
  '(_, n) ← hw (H_GetNumDisplayAttributes 0);
  attrib ← read_modes 0 (Z.to_nat n);
  let best_index := Z.of_nat (best_of s3d attrib) in
  let user_config := u32 (hdmi_config_index props) in
  if negb (user_config =? 0) then
    '(error, i) ← hw (H_GetConfigIndex user_config 0);
    mret (if decide (error = kErrorNone) then i else best_index)
  else mret best_index.

Definition GetScanSupport : P unit :=
  '(_, scan) ← hw (H_GetHWScanInfo (mkScan kScanNotSupported kScanNotSupported kScanNotSupported));
  '(_, active) ← hw (H_GetActiveConfig 0);
  '(error, video_format) ← hw (H_GetVideoFormat active 0);
  if decide (error <> kErrorNone) then mret tt
  else
    '(error, max_cea) ← hw (H_GetMaxCEAFormat 0);
    if decide (error <> kErrorNone) then mret tt
    else
      let s := match pt_scan_support scan with
               | kScanNotSupported => if video_format <? max_cea then cea_scan_support scan else it_scan_support scan
               | pt => if active =? 0 then pt
                       else if video_format <? max_cea then cea_scan_support scan else it_scan_support scan
               end in
      set_derived (fun d => mkDerived (switch_to_cmd_ d) (avr_prop_disabled_ d) (bitclk_ d) (underscan_supported_ d) s).

Definition kS3DModeMax : Z := 5.
Definition HDMI_Init : P DisplayError :=
  error ← hw_create;
  if decide (error <> kErrorNone) then mret error
  else
    let m := hdmi_s3d_mode props in
    i ← GetBestConfig (if (kS3DModeNone <? m) && (m <? kS3DModeMax) then m else kS3DModeNone);
    error ← hw (H_SetConfig i);
    _ ← (if decide (error <> kErrorNone) then hw_destroy else mret tt);
    error ← DisplayBase.Init props;
    if decide (error <> kErrorNone) then _ ← hw_destroy; mret error
    else
      _ ← GetScanSupport;
      _ ← set_derived (fun d => mkDerived (switch_to_cmd_ d) (avr_prop_disabled_ d) (bitclk_ d)
            (match scan_support_ d with kScanAlwaysUnderscanned | kScanBoth => true | _ => false end) (scan_support_ d));
      error ← in_dev H_EventsCreate;
      _ ← (if decide (error <> kErrorNone) then _ ← DisplayBase.Deinit; hw_destroy else mret tt);
      mret error.

(** kS3dFormat: none, left-right, right-left, top-bottom, frame packing; the modes
    are in the order none, left-right, right-left, top-bottom, frame packing. *)
Definition s3d_format_to_mode_ (f : Z) : option Z :=
  if (0 <=? f) && (f <=? 4) then Some f else None.
(** The mode for the layers from here on. *)
Fixpoint s3d_of (ls : list StackLayer) (layer_count : Z) (s3d_layer_count : Z) (s3d : Z) : Z :=
  match ls with
  | [] => s3d
  | l :: ls =>
      let f := s3d_format (input_buffer l) in
      if negb (f =? 0) then
        let n := s3d_layer_count + 1 in
        if (1 <? n) || skip l then kS3DModeNone
        else s3d_of ls layer_count n (default s3d (s3d_format_to_mode_ f))
      else if sl_secure l && (2 <? layer_count) then kS3DModeNone
      else s3d_of ls layer_count s3d_layer_count s3d
  end.
Definition set_s3d_present (b : bool) (fl : StackFlags) : StackFlags :=
  mkFlags (skip_present fl) (secure_present fl) (animating fl) (attributes_changed fl) (cursor_present fl)
    (single_buffered_layer_present fl) (hdr_present fl) b.

(** The stack with its flag. *)
Definition SetS3DMode (ls : LayerStack) : P LayerStack :=
  let s3d := s3d_of (layers ls) (Z.of_nat (length (layers ls))) 0 kS3DModeNone in
  error ← hw (H_SetS3DMode s3d);
  ls ← (if decide (error <> kErrorNone) then
          _ ← hw (H_SetS3DMode kS3DModeNone); mret (mkStack (layers ls) (set_s3d_present false (flags ls)))
        else mret (if negb (s3d =? kS3DModeNone) then mkStack (layers ls) (set_s3d_present true (flags ls)) else ls));
  _ ← ReconfigureDisplay;
  mret ls.

Definition HDMI_Prepare (ls : option LayerStack) : P DisplayError :=
  _ ← resize_mixer ls;
  match ls with
  | None => st_undef
  | Some ls =>
      ls ← SetS3DMode ls;
      _ ← put_the_frame frame0;
      DisplayBase.Prepare (Some ls)
  end.

Definition HDMI_SetRefreshRate (rate : Z) : P DisplayError :=
  p ← gets power;
  if negb (active_ p) then mret kErrorPermission
  else
    error ← hw (H_SetRefreshRate rate);
    if decide (error <> kErrorNone) then mret error else ReconfigureDisplay.
Definition IsUnderscanSupported : P bool := d ← gets derived; mret (underscan_supported_ d).
Definition OnMinHdcpEncryptionLevelChange (level : Z) : P DisplayError := hw (H_OnMinHdcpEncryptionLevelChange level).

(** * DisplayVirtual *)
Definition Virtual_Init : P DisplayError :=
  error ← hw_create;
  if decide (error <> kErrorNone) then mret error
  else
    error ← in_cm GetScaleLutConfig;
    error' ← (if decide (error = kErrorNone) then hw H_SetScaleLutConfig else mret kErrorNone);
    if decide (error' <> kErrorNone) then _ ← hw_destroy; mret error'
    else _ ← limit_stages props; mret error.

Definition Virtual_GetConfig : P FbConfig := c ← gets conf; mret (variable_info (display_attributes_ c)).

Definition Virtual_SetActiveConfig (info : option FbConfig) : P DisplayError :=
  match info with
  | None => mret kErrorParameters
  | Some info =>
      c ← gets conf;
      let a := mkAttributes (mkFb (x_pixels info) (y_pixels info) f_zero f_zero (fps info) 0 false) false 0 0 0 0 0 in
      if eq_attributes a (display_attributes_ c) then mret kErrorNone
      else
        error ← hw (H_SetDisplayAttributes a);
        if decide (error <> kErrorNone) then mret error
        else
          '(_, panel) ← hw (H_GetHWPanelInfo panel0);
          '(error, m) ← hw (H_GetMixerAttributes mixer0);
          if decide (error <> kErrorNone) then mret error
          else
            let fb := if (x_pixels (fb_config_ c) =? 0) || (y_pixels (fb_config_ c) =? 0) then variable_info a
                      else fb_config_ c in
            h ← gets (fun d => display_comp_ctx_ (power d));
            _ ← (match h with Some h => _ ← in_cm (UnregisterDisplay (Some h)); mret tt | None => mret tt end);
            error ← register props a panel m fb;
            if decide (error <> kErrorNone) then mret error
            else _ ← set_conf (fun c => with_fb fb (with_config panel a m c)); mret kErrorNone
  end.

Definition Virtual_Prepare (ls : option LayerStack) : P DisplayError :=
  _ ← put_the_frame frame0;
  DisplayBase.Prepare ls.
End Displays.
End Displays.
