(* ===== verification/DisplayFacts.v ===== *)
(** Facts about the displays over any device, resource manager and extension
    library: that the calls of a frame return, and what each call does to the power
    state and to the need of a validation. *)
From S2P Require Import Prelude Rect ResourceDefault Strategy CompMgr CompLaws CompProps DisplayBase Displays.
#[local] Open Scope Z_scope.

(** * Calls that return *)
Module Returns.

(** [ends I m]: from a state in [I] the computation does not run for ever, and when
    it returns the state is in [I] again. *)
Definition ends {S A} (I : S -> Prop) (m : St S A) : Prop :=
  forall s, I s -> match m s with Ret (_, s') => I s' | Undef => True | NoFuel => False end.

Section Ends.
Context {S : Type} (I : S -> Prop).

Lemma ends_bind {A B} (m : St S A) (k : A -> St S B) : ends I m -> (forall a, ends I (k a)) -> ends I (m ≫= k).
Proof.
  intros Hm Hk s Hs. specialize (Hm s Hs). unfold mbind, st_bind. destruct (m s) as [[a s']| |]; [|done..].
  by apply Hk.
Qed.
Lemma ends_ret {A} (a : A) : ends I (mret a : St S A).
Proof. by intros s Hs. Qed.
Lemma ends_undef {A} : ends I (st_undef : St S A).
Proof. by intros s Hs. Qed.
Lemma ends_get : ends I (st_get : St S S).
Proof. by intros s Hs. Qed.
Lemma ends_gets {A} (f : S -> A) : ends I (st_gets f).
Proof. by intros s Hs. Qed.
Lemma ends_modify (f : S -> S) : (forall s, I s -> I (f s)) -> ends I (st_modify f).
Proof. intros Hf s Hs. by apply Hf. Qed.
Lemma ends_lift {A} (m : outcome A) : m <> NoFuel -> ends I (st_lift m : St S A).
Proof. intros Hm s Hs. unfold st_lift. by destruct m. Qed.
End Ends.

Create HintDb ends.
#[export] Hint Resolve ends_ret ends_undef ends_get ends_gets : ends.

(** Splits a computation into its calls. *)
Ltac ends_step :=
  first
    [ match goal with |- forall _, _ => intro end
    | progress cbv zeta
    | solve [auto 2 with ends nocore]
    | simple apply ends_bind
    | match goal with
      | |- ends _ (match ?x with _ => _ end) => destruct x
      | |- ends _ (if ?b then _ else _) => destruct b
      end ].
Ltac ends_tac := repeat ends_step.

(** Functions of the [outcome] monad that return or are undefined. *)
Definition total {A} (m : outcome A) : Prop := m <> NoFuel.
Lemma total_bind {A B} (m : outcome A) (k : A -> outcome B) : total m -> (forall a, total (k a)) -> total (m ≫= k).
Proof. intros Hm Hk. destruct m; [apply Hk|done|done]. Qed.
Lemma total_int x : total (int_expr x).
Proof. unfold int_expr, total. by destruct (_ && _). Qed.
End Returns.

(** * What the display needs of its partners to return *)
Module Live.
Import Float32 Rect Formats ResourceDefault Strategy CompMgr Contract DisplayBase Returns.

(** Every call of the extension library, and of the device, returns. *)
Class ExtensionLive (X : Type) `{Extension X} := {
  live_Start n f : ends (fun _ => True) (X_Start n f);
  live_Next n k f : ends (fun _ => True) (X_GetNextStrategy n k f);
  live_Stop n : ends (fun _ => True) (X_Stop n);
  live_PUStart n p : ends (fun _ => True) (X_PUStart n p);
  live_ROI n f : ends (fun _ => True) (X_GenerateROI n f);
  live_Dpps b : ends (fun _ => True) (X_Dpps b)
}.
Class DeviceLive (V : Type) `{Device V} := {
  live_Validate f : ends (fun _ => True) (H_Validate f);
  live_SetMode i : ends (fun _ => True) (K_SetMode i);
  live_NeedsPU : ends (fun _ => True) K_NeedsPartialUpdateDisable
}.
(** A resource manager that is not between Start and Stop returns from the calls of
    a frame, and from Prepare and Stop when it is. *)
Class ResourceLive (R : Type) `{ResourceLaws R} := {
  live_start h hs r : ri_ok r hs -> RI_Start h r <> NoFuel;
  live_stop h hs r : ri_busy r hs -> RI_Stop h r <> NoFuel;
  live_prepare h f hs r : ri_busy r hs -> RI_Prepare h f r <> NoFuel;
  live_post_prepare h f hs r : ri_ok r hs -> RI_PostPrepare h f r <> NoFuel;
  live_cursor h l hs r : ri_ok r hs -> RI_ValidateCursorConfig h l r <> NoFuel
}.
End Live.

(** * The calls of a frame return *)
Module FrameReturns.
Import Float32 Rect Formats ResourceDefault Strategy CompMgr Contract DisplayBase Returns Live.

Lemma MapRect_total a b c d : total (MapRect a b c d).
Proof. unfold MapRect. destruct (_ || _); [done|]. repeat (apply total_bind; [|intros]); try done;
  (apply total_int || (unfold INT; destruct (trunc _); [apply total_int|done])). Qed.

Section CM.
Context {R X : Type} `{!ResourceIface R, !ResourceLaws R, !ResourceLive R, !Extension X, !ExtensionLive X}.
Abbreviation CM := (CM R X).

Definition idle (g : CM) : Prop := exists hs, ri_ok (resource_intf_ g) hs.
Definition busy (g : CM) : Prop := exists hs, ri_busy (resource_intf_ g) hs.
(** What the calls below change leaves the resource manager alone. *)
Definition res_only (I : CM -> Prop) : Prop := forall g g', resource_intf_ g' = resource_intf_ g -> I g -> I g'.
Lemma idle_res : res_only idle.
Proof. intros g g' E. unfold idle. by rewrite E. Qed.
Lemma busy_res : res_only busy.
Proof. intros g g' E. unfold busy. by rewrite E. Qed.

Lemma ext_ends {A} (m : St X A) : ends (fun _ => True) m -> ends (fun _ => True) (in_ext m).
Proof. intros Hm v _. unfold in_ext. specialize (Hm (ext v) I). by destruct (m (ext v)) as [[]| |]. Qed.
Lemma frame_ends a : ends (fun _ : Env X => True) (get_frame a).
Proof. intros v _. unfold get_frame. by destruct (frames v !! a). Qed.
Lemma put_ends a f : ends (fun _ : Env X => True) (put_frame a f).
Proof. by apply ends_modify. Qed.
#[local] Hint Extern 1 (ends _ _) =>
  first [apply live_Start|apply live_Next|apply live_Stop|apply live_PUStart|apply live_ROI|apply live_Dpps] : ends.
#[local] Hint Resolve ext_ends frame_ends put_ends : ends.

Lemma ext_frame_ends {A} a (m : Frame -> St X (A * Frame)) : (forall f, ends (fun _ => True) (m f)) ->
  ends (fun _ => True) (ext_frame a m).
Proof. intros Hm. unfold ext_frame. ends_tac. Qed.

Lemma StrategyStart_ends s a pu : ends (fun _ => True) (Strategy.Start s a pu : St (Env X) _).
Proof.
  unfold Strategy.Start, GenerateROI. ends_tac; apply ext_frame_ends; ends_tac.
Qed.
Lemma GetNext_ends s k : ends (fun _ => True) (GetNextStrategy s k : St (Env X) _).
Proof.
  unfold GetNextStrategy. ends_tac.
  - apply ext_frame_ends. ends_tac.
  - apply ends_lift. unfold mark_gpu. by destruct (_ <=? _)%nat.
  - apply ends_lift, MapRect_total.
Qed.
Lemma StrategyStop_ends s : ends (fun _ => True) (Strategy.Stop s : St (Env X) _).
Proof. unfold Strategy.Stop. ends_tac. Qed.

Lemma env_ends {A} I (m : St (Env X) A) : res_only I -> ends (fun _ => True) m -> ends I (in_env m : St CM A).
Proof.
  intros HI Hm g Hg. unfold in_env. specialize (Hm (env g) Logic.I). destruct (m (env g)) as [[x v]| |]; [|done..].
  by apply (HI g).
Qed.
Lemma modify_ends I (f : CM -> CM) : res_only I -> (forall g, resource_intf_ (f g) = resource_intf_ g) -> ends I (st_modify f).
Proof. intros HI Hf. apply ends_modify. intros g. apply HI, Hf. Qed.
Lemma ctx_ends I h : ends I (ctx h : St CM Ctx).
Proof. intros g Hg. unfold ctx. by destruct (ctxs_ g !! h). Qed.
Lemma put_ctx_ends I h c : res_only I -> ends I (put_ctx h c : St CM unit).
Proof. intros HI. by apply modify_ends. Qed.
Lemma strategy_of_ends I c : ends I (strategy_of c : St CM _).
Proof. unfold strategy_of. destruct (strategy c); auto with ends. Qed.
(** A call of the resource manager that keeps a set of its states. *)
Lemma resource_ends {A} (Q : R -> gmap nat DisplayType -> Prop) (m : St R A) :
  (forall hs r, Q r hs -> m r <> NoFuel) -> (forall hs r a r', Q r hs -> m r = Ret (a, r') -> Q r' hs) ->
  ends (fun g : CM => exists hs, Q (resource_intf_ g) hs) (resource m).
Proof.
  intros H1 H2 g [hs Hg]. unfold resource. specialize (H1 _ _ Hg). destruct (m _) as [[x r]| |] eqn:E; [|done..].
  exists hs. by eapply H2.
Qed.

#[local] Hint Resolve idle_res busy_res env_ends put_ctx_ends ctx_ends strategy_of_ends : ends.
#[local] Hint Resolve StrategyStart_ends GetNext_ends StrategyStop_ends : ends.

Lemma constraints_ends h a : ends idle (PrepareStrategyConstraints h a : St CM _).
Proof.
  unfold PrepareStrategyConstraints. ends_tac; apply modify_ends; done || apply idle_res.
Qed.
Lemma cursor_ends h a : ends idle (SupportLayerAsCursor h a : St CM _).
Proof.
  unfold SupportLayerAsCursor. ends_tac. apply resource_ends; [apply live_cursor|apply law_cursor].
Qed.
#[local] Hint Resolve constraints_ends cursor_ends : ends.
Lemma PrePrepare_ends h a : ends idle (PrePrepare h a : St CM _).
Proof. unfold PrePrepare. ends_tac. Qed.

Lemma loop_ends n h a : forall e, ends busy (strategy_loop n h a e : St CM _).
Proof.
  induction n as [|n IH]; intros e; cbn [strategy_loop]; ends_tac; try apply IH.
  unfold resource_prepare. ends_tac. apply resource_ends; [intros hs r; apply live_prepare|apply law_prepare].
Qed.

Lemma Prepare_ends h a : ends idle (CompMgr.Prepare h a : St CM _).
Proof.
  unfold CompMgr.Prepare. apply ends_bind; [apply constraints_ends|intros _].
  apply ends_bind; [apply ctx_ends|intros c]. intros g [hs Hg]. unfold mbind, st_bind, resource.
  destruct (RI_Start _ _) as [[e0 r0]| |] eqn:E0; [|done|by eapply live_start].
  assert (Hb : busy (with_res r0 g)) by (exists hs; by eapply law_start).
  pose proof (loop_ends (Z.to_nat (remaining_strategies c)) h a kErrorUndefined _ Hb) as L.
  destruct (strategy_loop _ _ _ _ _) as [[e1 g1]| |]; [|done..]. destruct L as [hs1 L].
  destruct (RI_Stop _ _) as [[e2 r2]| |] eqn:E2; [|done|by eapply live_stop]. exists hs1. by eapply law_stop.
Qed.
Lemma PostPrepare_ends h a : ends idle (CompMgr.PostPrepare h a : St CM _).
Proof.
  unfold CompMgr.PostPrepare. ends_tac. apply resource_ends; [apply live_post_prepare|apply law_post_prepare].
Qed.
Lemma ControlDpps_ends b : ends idle (ControlDpps b : St CM _).
Proof. unfold ControlDpps. ends_tac. apply env_ends; [apply idle_res|]. apply ext_ends, live_Dpps. Qed.
Lemma ControlPU_ends h b : ends idle (CompMgr.ControlPartialUpdate h b : St CM _).
Proof. unfold CompMgr.ControlPartialUpdate. ends_tac. Qed.
End CM.

Section World.
Context {R X V : Type} `{!ResourceIface R, !ResourceLaws R, !ResourceLive R, !Extension X, !ExtensionLive X}
  `{!Device V, !DeviceLive V}.
Abbreviation World := (World R X V).
Abbreviation P := (St World).
Definition ready (w : World) : Prop := idle (cm w).

Lemma cm_ends {A} (m : St (CM R X) A) : ends idle m -> ends ready (in_cm m : P A).
Proof.
  intros Hm w Hw. unfold in_cm. specialize (Hm (cm w) Hw). by destruct (m (cm w)) as [[x g]| |].
Qed.
Lemma dev_ends {A} (m : St V A) : ends (fun _ => True) m -> ends ready (in_dev m : P A).
Proof.
  intros Hm w Hw. unfold in_dev. specialize (Hm (dev w) I). by destruct (m (dev w)) as [[x v]| |].
Qed.
Lemma hw_ends {A} (m : St V A) : ends (fun _ => True) m -> ends ready (hw m : P A).
Proof.
  intros Hm. unfold hw, gets. apply ends_bind; [apply ends_gets|]. intros []; [apply ends_undef|by apply dev_ends|apply ends_undef].
Qed.
Lemma set_ends (f : World -> World) : (forall w, cm (f w) = cm w) -> ends ready (st_modify f).
Proof. intros Hf. apply ends_modify. intros w. unfold ready. by rewrite Hf. Qed.
Lemma the_frame_ends : ends ready (the_frame : P Frame).
Proof.
  unfold the_frame, gets. apply ends_bind; [apply ends_gets|]. intros a. apply cm_ends, env_ends; [apply idle_res|apply frame_ends].
Qed.
Lemma put_the_frame_ends f : ends ready (put_the_frame f : P unit).
Proof.
  unfold put_the_frame, gets. apply ends_bind; [apply ends_gets|]. intros a. apply cm_ends, env_ends; [apply idle_res|apply put_ends].
Qed.
Lemma ctx_handle_ends : ends ready (ctx_handle : P nat).
Proof. unfold ctx_handle, gets. ends_tac. Qed.
Lemma on_frame_ends (m : Frame -> St V (DisplayError * Frame)) : (forall f, ends (fun _ => True) (m f)) ->
  ends ready (on_frame m : P _).
Proof. intros Hm. unfold on_frame. ends_tac; auto using the_frame_ends, hw_ends, put_the_frame_ends. Qed.

Lemma ValidateGPU_total ty c f : total (ValidateGPUTargetParams ty c f).
Proof.
  unfold ValidateGPUTargetParams. destruct (decide _); [done|]. destruct (_ !! _); [|done].
  repeat (destruct (negb _); [done|]). apply total_bind; [apply MapRect_total|intros r].
  apply total_bind; [|done]. unfold Normalize, ROUND_UP_ALIGN_UP, ROUND_UP_ALIGN_DOWN.
  repeat (apply total_bind; [|intros]); try done; unfold UINT32, cast_u; destruct (trunc _); try done; by destruct (_ && _).
Qed.

#[local] Hint Resolve the_frame_ends put_the_frame_ends ctx_handle_ends : ends.
Lemma Build_ends ls : ends ready (BuildLayerStackStats ls : P _).
Proof.
  unfold BuildLayerStackStats. ends_tac. apply ends_lift, ValidateGPU_total.
Qed.
Lemma Internal_ends s : ends ready (SetColorModeInternal s : P _).
Proof. unfold SetColorModeInternal, gets. ends_tac. apply dev_ends, live_SetMode. Qed.
#[local] Hint Resolve Internal_ends : ends.
Lemma HandleHDR_ends ls : ends ready (HandleHDR ls : P _).
Proof.
  unfold HandleHDR, set_color. ends_tac; try (by apply set_ends); apply cm_ends, ControlDpps_ends.
Qed.
Lemma Disable_ends : ends ready (DisablePartialUpdateOneFrame : P _).
Proof. unfold DisablePartialUpdateOneFrame, gets, set_update. ends_tac. by apply set_ends. Qed.
Lemma NeedsPU_ends : ends ready (in_dev K_NeedsPartialUpdateDisable : P _).
Proof. apply dev_ends, live_NeedsPU. Qed.

(** The contexts are left alone by what is not a call of the manager. *)
Definition same_ctxs (w w' : World) : Prop := ctxs_ (cm w') = ctxs_ (cm w).
#[global] Instance same_ctxs_preorder : PreOrder same_ctxs.
Proof. split; [done|]. unfold same_ctxs. intros w1 w2 w3. congruence. Qed.
Lemma dev_ctxs {A} (m : St V A) : keeps same_ctxs (in_dev m : P A).
Proof. intros w x w'. unfold in_dev. destruct (m _) as [[]| |]; intros [= <- <-]. reflexivity. Qed.
Lemma env_cm_ctxs {A} (m : St (Env X) A) : keeps same_ctxs (in_cm (in_env m) : P A).
Proof.
  intros w x w'. unfold in_cm, in_env. destruct (m _) as [[]| |]; intros [= <- <-]. reflexivity.
Qed.
#[local] Hint Resolve dev_ctxs env_cm_ctxs : keeps.
Lemma on_frame_ctxs m : keeps same_ctxs (on_frame m : P _).
Proof. unfold on_frame, the_frame, put_the_frame, hw, gets. keeps_tac. Qed.

(** The loop of Prepare has one turn more than there are strategies. *)
Lemma prepare_loop_ends h a fuel : forall w c, ready w -> ctxs_ (cm w) !! h = Some c ->
  (Z.to_nat (remaining_strategies c) < fuel)%nat ->
  match (prepare_loop fuel h a : P _) w with Ret (_, w') => ready w' | Undef => True | NoFuel => False end.
Proof.
  induction fuel as [|fuel IH]; intros w c Hw Hc Hn; [lia|]. cbn [prepare_loop].
  unfold mbind at 1, st_bind at 1, in_cm at 1. pose proof (Prepare_ends h a (cm w) Hw) as HP.
  destruct (CompMgr.Prepare h a (cm w)) as [[e g1]| |] eqn:EP; [|done..].
  destruct (CompInv.Prepare_counts _ _ _ _ _ _ EP Hc) as (c1 & Hc1 & _ & Hz & Hlt).
  destruct (decide (e <> kErrorNone)) as [He|He]; [done|]. apply dec_stable in He as ->.
  assert (0 < remaining_strategies c) as Hpos by (destruct (decide (0 < remaining_strategies c)); [done|]; by discriminate Hz; lia).
  specialize (Hlt Hpos). set (w1 := mkWorld (disp w) g1 (dev w)).
  assert (Hw1 : ready w1) by exact HP. unfold mbind at 1, st_bind at 1.
  pose proof (on_frame_ends H_Validate live_Validate w1 Hw1) as HV.
  destruct (on_frame H_Validate w1) as [[e2 w2]| |] eqn:EV; [|done..].
  destruct (decide (e2 = kErrorNone)); [by apply set_ends|].
  destruct (decide (e2 = kErrorShutDown)).
  - apply (ends_bind ready); [apply cm_ends, PostPrepare_ends|intros; apply ends_ret|done].
  - apply (IH w2 c1); [done| |lia]. rewrite (on_frame_ctxs _ _ _ _ EV). exact Hc1.
Qed.

(** More turns than the loop makes change nothing. *)
Lemma prepare_loop_more h a k fuel : forall w, (prepare_loop fuel h a : P _) w <> NoFuel ->
  (prepare_loop (fuel + k) h a : P _) w = prepare_loop fuel h a w.
Proof.
  induction fuel as [|fuel IH]; intros w; [done|]. cbn [prepare_loop Nat.add].
  unfold mbind, st_bind. destruct (in_cm _ w) as [[e w1]| |]; [|done..]. destruct (decide _); [done|].
  destruct (on_frame H_Validate w1) as [[e2 w2]| |]; [|done..]. destruct (decide _); [done|]. destruct (decide _); [done|apply IH].
Qed.

Lemma left_ends {B} h a (k : DisplayError * bool -> P B) : (forall r, ends ready (k r)) ->
  ends ready (fuel ← strategies_left h; r ← prepare_loop fuel h a; k r).
Proof.
  intros Hk w Hw.
  assert (E : strategies_left h w =
    match ctxs_ (cm w) !! h with Some c => Ret (S (Z.to_nat (remaining_strategies c)), w) | None => Undef end).
  { unfold strategies_left, mbind, st_bind, in_cm, ctx. destruct (ctxs_ (cm w) !! h); [|done]. by destruct w. }
  unfold mbind at 1, st_bind at 1. rewrite E. destruct (ctxs_ (cm w) !! h) as [c|] eqn:Hc; [|done].
  pose proof (prepare_loop_ends h a (S (Z.to_nat (remaining_strategies c))) w c Hw Hc (Nat.lt_succ_diag_r _)) as HL.
  unfold mbind, st_bind. destruct (prepare_loop _ h a w) as [[r w1]| |]; [|done..]. by apply Hk.
Qed.

Lemma Prepare_frame_ends ls : ends ready (DisplayBase.Prepare ls : P _).
Proof.
  unfold DisplayBase.Prepare, set_power, set_update, gets.
  repeat first [simple apply left_ends|ends_step]; auto using Build_ends, HandleHDR_ends, Disable_ends, NeedsPU_ends;
    try (by apply set_ends); apply cm_ends; first [apply ControlPU_ends|apply PrePrepare_ends|apply PostPrepare_ends].
Qed.
End World.
End FrameReturns.

(** * The calls of the clients *)
Module DisplayOps.
Import Float32 Rect Formats ResourceDefault Strategy CompMgr DisplayBase Displays.

Inductive dop :=
| DInit | DPrepare (ls : option LayerStack) | DCommit (ls : option LayerStack) | DFlush (secure : bool)
| DSetDisplayState (s : DisplayState) | DSetActiveConfig (i : Z) | DSetConfig (i : option FbConfig)
| DSetMaxMixerStages (n : Z) | DSetVSyncState (b : bool) | DSetMixerResolution (w h : Z)
| DSetFrameBufferConfig (fb : FbConfig) | DSetColorMode (s : string) | DSetColorTransform (t : option (list float))
| DApplyDefaultDisplayMode | DSetCursorPosition (x y : Z) | DSetDetailEnhancerData (d : Z)
| DSetCompositionState (k : Composition) (b : bool) | DSetIdleTimeoutMs (ms : Z) | DSetDisplayMode (m : HWDisplayMode)
| DSetPanelBrightness (l : Z) | DSetRefreshRate (r : Z) | DControlPartialUpdate (b : bool)
| DSetDynamicDSIClock (c : Z) | DIdleTimeout | DThermalEvent (l : Z) | DIdlePowerCollapse | DVSync (t : Z).

Section Ops.
Context {R X V : Type} `{!ResourceIface R, !Extension X, !Device V} (props : Props).
Abbreviation World := (World R X V).
Abbreviation P := (St World).
Definition drop {A} (m : P A) : P unit := _ ← m; mret tt.
(** The method of the class of the display; the calls a class does not have do
    nothing. *)
Definition for_primary (m : P unit) : P unit :=
  ty ← gets display_type_; if decide (ty = kPrimary) then m else mret tt.

Definition prepare_of (ty : DisplayType) (ls : option LayerStack) : P DisplayError :=
  match ty with kPrimary => Primary_Prepare ls | kHDMI => HDMI_Prepare ls | _ => Virtual_Prepare ls end.
Definition commit_of (ty : DisplayType) (ls : option LayerStack) : P DisplayError :=
  match ty with kPrimary => Primary_Commit ls | _ => DisplayBase.Commit ls end.

Definition run (o : dop) : P unit :=
  ty ← gets display_type_;
  match o with
  | DInit => match ty with
             | kPrimary => drop (Primary_Init props) | kHDMI => drop (HDMI_Init props) | _ => drop (Virtual_Init props)
             end
  | DPrepare ls => drop (prepare_of ty ls)
  | DCommit ls => drop (commit_of ty ls)
  | DFlush b => drop (Flush b)
  | DSetDisplayState s => match ty with
                          | kPrimary => drop (Primary_SetDisplayState props s)
                          | _ => drop (DisplayBase.SetDisplayState props s)
                          end
  | DSetActiveConfig i => drop (SetActiveConfig i)
  | DSetConfig i => match ty with kVirtual => drop (Virtual_SetActiveConfig props i) | _ => mret tt end
  | DSetMaxMixerStages n => drop (DisplayBase.SetMaxMixerStages n)
  | DSetVSyncState b => drop (SetVSyncState b)
  | DSetMixerResolution w h => drop (SetMixerResolution w h)
  | DSetFrameBufferConfig fb => drop (SetFrameBufferConfig props fb)
  | DSetColorMode s => drop (SetColorMode s)
  | DSetColorTransform t => drop (SetColorTransform t)
  | DApplyDefaultDisplayMode => drop ApplyDefaultDisplayMode
  | DSetCursorPosition x y => drop (SetCursorPosition x y)
  | DSetDetailEnhancerData d => drop (DisplayBase.SetDetailEnhancerData d)
  | DSetCompositionState k b => drop (DisplayBase.SetCompositionState k b)
  | DSetIdleTimeoutMs ms => for_primary (Primary_SetIdleTimeoutMs ms)
  | DSetDisplayMode m => for_primary (drop (SetDisplayMode m))
  | DSetPanelBrightness l => for_primary (drop (SetPanelBrightness l))
  | DSetRefreshRate r => match ty with
                         | kPrimary => drop (Primary_SetRefreshRate r) | kHDMI => drop (HDMI_SetRefreshRate r) | _ => mret tt
                         end
  | DControlPartialUpdate b => for_primary (drop (Displays.ControlPartialUpdate b))
  | DSetDynamicDSIClock c => for_primary (drop (SetDynamicDSIClock c))
  | DIdleTimeout => for_primary IdleTimeout
  | DThermalEvent l => for_primary (ThermalEvent l)
  | DIdlePowerCollapse => for_primary IdlePowerCollapse
  | DVSync t => drop (OnVSync t)
  end.
Fixpoint run_all (l : list dop) : P unit :=
  match l with
  | [] => mret tt
  | o :: l => _ ← run o; run_all l
  end.

(** ** What the calls do to the members of [Power] *)

(** A relation that the changes most calls make are in: the hardware interface, the
    context, vsync, the mixer stages, and asking for a new Prepare. *)
Class PowerRel (Q : relation Power) := {
  q_preorder :: PreOrder Q;
  q_hw p h : Q p (with_hw h p);
  q_ctx p c : Q p (with_ctx c p);
  q_vsync p b : Q p (with_vsync b p);
  q_stages p n : Q p (with_stages n p);
  q_validate p : Q p (with_validate true p)
}.
Section Rel.
Context (Q : relation Power) `{!PowerRel Q}.
Definition same (w w' : World) : Prop :=
  display_type_ (disp w') = display_type_ (disp w) /\ Q (power (disp w)) (power (disp w')).
#[global] Instance same_preorder : PreOrder same.
Proof.
  split; [by intros w; split|]. intros w1 w2 w3 [T1 Q1] [T2 Q2]. split; [congruence|by etrans].
Qed.

Lemma dev_same {A} (m : St V A) : keeps same (in_dev m : P A).
Proof. intros w x w'. unfold in_dev. destruct (m _) as [[]| |]; intros [= <- <-]. by split. Qed.
Lemma cm_same {A} (m : St (CM R X) A) : keeps same (in_cm m : P A).
Proof. intros w x w'. unfold in_cm. destruct (m _) as [[]| |]; intros [= <- <-]. by split. Qed.
Lemma power_same f : (forall p, Q p (f p)) -> keeps same (set_power f : P unit).
Proof. intros Hf. apply keeps_modify. intros w. by split. Qed.
Lemma conf_same f : keeps same (set_conf f : P unit).
Proof. apply keeps_modify. intros w. by split. Qed.
Lemma update_same f : keeps same (set_update f : P unit).
Proof. apply keeps_modify. intros w. by split. Qed.
Lemma color_same f : keeps same (set_color f : P unit).
Proof. apply keeps_modify. intros w. by split. Qed.
Lemma derived_same f : keeps same (set_derived f : P unit).
Proof. apply keeps_modify. intros w. by split. Qed.

Create HintDb disp.
#[local] Hint Resolve dev_same cm_same conf_same update_same color_same derived_same : disp.
Ltac disp_leaf :=
  first
    [ simple apply keeps_ret; apply _
    | simple apply keeps_undef
    | simple apply keeps_gets; apply _
    | simple apply keeps_lift; apply _
    | solve [auto 1 with disp nocore]
    | simple apply power_same; intro; first [apply q_hw|apply q_ctx|apply q_vsync|apply q_stages|apply q_validate] ].
Ltac disp_tac :=
  repeat first
    [ match goal with |- forall _, _ => intro end
    | progress cbv zeta
    | disp_leaf
    | simple apply keeps_bind; [apply _| |]
    | match goal with
      | |- keeps _ (match ?x with _ => _ end) => destruct x
      | |- keeps _ (if ?b then _ else _) => destruct b
      end ].
Lemma gets_same {A} (f : D -> A) : keeps same (gets f : P A).
Proof. apply keeps_gets. apply _. Qed.
#[local] Hint Resolve gets_same : disp.
Lemma hw_same {A} (m : St V A) : keeps same (hw m : P A).
Proof. unfold hw. disp_tac. Qed.
Lemma handle_same : keeps same (ctx_handle : P nat).
Proof. unfold ctx_handle. disp_tac. Qed.
Lemma frame_same : keeps same (the_frame : P Frame).
Proof. unfold the_frame. disp_tac. Qed.
Lemma put_frame_same f : keeps same (put_the_frame f : P unit).
Proof. unfold put_the_frame. disp_tac. Qed.
#[local] Hint Resolve hw_same handle_same frame_same put_frame_same : disp.
Lemma create_same : keeps same (hw_create : P _).
Proof. unfold hw_create. disp_tac. Qed.
Lemma destroy_same : keeps same (hw_destroy : P _).
Proof. unfold hw_destroy. disp_tac. Qed.
Lemma Disable_same : keeps same (DisablePartialUpdateOneFrame : P _).
Proof. unfold DisablePartialUpdateOneFrame. disp_tac. Qed.
Lemma on_frame_same m : keeps same (on_frame m : P _).
Proof. unfold on_frame. disp_tac. Qed.
#[local] Hint Resolve create_same destroy_same Disable_same on_frame_same : disp.

Lemma stages_same n : keeps same (DisplayBase.SetMaxMixerStages n : P _).
Proof. unfold DisplayBase.SetMaxMixerStages. disp_tac. Qed.
#[local] Hint Resolve stages_same : disp.
Lemma limit_same : keeps same (limit_stages props : P _).
Proof. unfold limit_stages. disp_tac. Qed.
Lemma register_same a p m fb : keeps same (register props a p m fb : P _).
Proof. unfold register. disp_tac. Qed.
Lemma cleanup_same e : keeps same (cleanup e : P _).
Proof. unfold cleanup. disp_tac. Qed.
Lemma Internal_same s : keeps same (SetColorModeInternal s : P _).
Proof. unfold SetColorModeInternal. disp_tac. Qed.
Lemma init_mode_same d i : keeps same (init_mode d i : P _).
Proof. unfold init_mode. disp_tac. Qed.
#[local] Hint Resolve limit_same register_same cleanup_same Internal_same init_mode_same : disp.
Lemma init_modes_same d n : forall i, keeps same (init_modes d i n : P _).
Proof. induction n as [|n IH]; intros i; cbn [init_modes]; disp_tac. Qed.
#[local] Hint Resolve init_modes_same : disp.
Lemma ColorModes_same : keeps same (InitializeColorModes : P _).
Proof. unfold InitializeColorModes. disp_tac. Qed.
#[local] Hint Resolve ColorModes_same : disp.
Lemma Init_same : keeps same (DisplayBase.Init props : P _).
Proof. unfold DisplayBase.Init. disp_tac. Qed.
Lemma Deinit_same : keeps same (DisplayBase.Deinit : P _).
Proof. unfold DisplayBase.Deinit. disp_tac. Qed.
Lemma Reconfigure_same : keeps same (DisplayBase.ReconfigureDisplay : P _).
Proof. unfold DisplayBase.ReconfigureDisplay. disp_tac. Qed.
#[local] Hint Resolve Init_same Deinit_same Reconfigure_same : disp.
Lemma Mixer_same w h : keeps same (ReconfigureMixer w h : P _).
Proof. unfold ReconfigureMixer. disp_tac. Qed.
Lemma HandleHDR_same ls : keeps same (HandleHDR ls : P _).
Proof. unfold HandleHDR. disp_tac. Qed.
Lemma Build_same ls : keeps same (BuildLayerStackStats ls : P _).
Proof. unfold BuildLayerStackStats. disp_tac. Qed.
Lemma CommitParams_same : keeps same (CommitLayerParams : P _).
Proof. unfold CommitLayerParams. disp_tac. Qed.
Lemma close_same fd : keeps same (close_if_valid fd : P _).
Proof. unfold close_if_valid. disp_tac. Qed.
#[local] Hint Resolve Mixer_same HandleHDR_same Build_same CommitParams_same close_same : disp.
Lemma release_same hwls : forall ls ix dup, keeps same (release_layers ls ix hwls dup : P _).
Proof. induction hwls as [|l hwls IH]; intros ls ix dup; cbn [release_layers]; disp_tac; try apply IH. Qed.
#[local] Hint Resolve release_same : disp.
Lemma PostCommitParams_same : keeps same (PostCommitLayerParams : P _).
Proof. unfold PostCommitLayerParams. disp_tac. Qed.
#[local] Hint Resolve PostCommitParams_same : disp.
Lemma Commit_same ls : keeps same (DisplayBase.Commit ls : P _).
Proof. unfold DisplayBase.Commit. disp_tac. Qed.
Lemma clear_same : keeps same (clear_hw : P _).
Proof. unfold clear_hw. disp_tac. Qed.
#[local] Hint Resolve Commit_same clear_same : disp.
Lemma Flush_same b : keeps same (Flush b : P _).
Proof. unfold Flush. disp_tac. Qed.
Lemma switch_same d s : keeps same (switch_state props d s : P _).
Proof. unfold switch_state. disp_tac. Qed.
#[local] Hint Resolve Flush_same switch_same : disp.

Lemma notify_same s ty : keeps same
  (h ← (match s with
        | kStateOff => ctx_handle
        | _ => c ← gets (fun d => display_comp_ctx_ (power d)); mret (default O c)
        end);
   _ ← in_cm (CompMgr.SetDisplayState h s ty); mret tt : P unit).
Proof. disp_tac. Qed.

(** The derived classes. *)
Lemma resize_same ls : keeps same (resize_mixer ls : P _).
Proof. unfold resize_mixer. disp_tac. Qed.
Lemma PU_same b : keeps same (Displays.ControlPartialUpdate b : P _).
Proof. unfold Displays.ControlPartialUpdate. disp_tac. Qed.
Lemma modes_same n : forall i, keeps same (read_modes i n : P _).
Proof. induction n as [|n IH]; intros i; cbn [read_modes]; disp_tac. Qed.
#[local] Hint Resolve resize_same PU_same modes_same : disp.
Lemma Best_same s : keeps same (GetBestConfig props s : P _).
Proof. unfold GetBestConfig. disp_tac. Qed.
Lemma Scan_same : keeps same (GetScanSupport : P _).
Proof. unfold GetScanSupport. disp_tac. Qed.
Lemma S3D_same ls : keeps same (SetS3DMode ls : P _).
Proof. unfold SetS3DMode. disp_tac. Qed.
#[local] Hint Resolve Best_same Scan_same S3D_same : disp.

(** Every call but those of Prepare and SetDisplayState. *)
Definition plain_op (o : dop) : bool := match o with DPrepare _ | DSetDisplayState _ => false | _ => true end.
Lemma drun_same o : plain_op o = true -> keeps same (run o).
Proof.
  intros Ho. unfold run. apply keeps_bind; [apply _|apply gets_same|]. intros ty.
  destruct o, ty; try done; unfold drop, for_primary, commit_of, Primary_Init, HDMI_Init, Virtual_Init, Primary_Commit,
    SetActiveConfig, Virtual_SetActiveConfig, SetVSyncState, SetMixerResolution, SetFrameBufferConfig, SetColorMode,
    SetColorTransform, ApplyDefaultDisplayMode, SetCursorPosition, DisplayBase.SetDetailEnhancerData,
    DisplayBase.SetCompositionState, Primary_SetIdleTimeoutMs, SetDisplayMode, SetPanelBrightness, Primary_SetRefreshRate,
    HDMI_SetRefreshRate, SetDynamicDSIClock, IdleTimeout, ThermalEvent, IdlePowerCollapse, OnVSync; disp_tac.
Qed.

(** Pieces of Prepare. *)
Lemma pu_check_same (c : Color) : keeps same (if color_mgr_ c then
     b ← in_dev K_NeedsPartialUpdateDisable;
     if (b : bool) then _ ← DisablePartialUpdateOneFrame; mret tt else mret tt
   else mret tt : P unit).
Proof. disp_tac. Qed.
Lemma pu_control_same h u : keeps same (if negb (partial_update_control_ u) || disable_pu_one_frame_ u then
     _ ← in_cm (CompMgr.ControlPartialUpdate h false);
     set_update (fun u => mkUpdate (partial_update_control_ u) false)
   else mret tt : P unit).
Proof. disp_tac. Qed.
Lemma left_same h : keeps same (strategies_left h : P nat).
Proof. unfold strategies_left. disp_tac. Qed.

(** A change of the state, when it is in the relation. *)
Lemma run_state_same s : (forall p s b, Q p (with_active s b p)) -> keeps same (run (DSetDisplayState s)).
Proof.
  intros Hq. unfold run. apply keeps_bind; [apply _|apply gets_same|]. intros ty.
  destruct ty; unfold drop, Primary_SetDisplayState, DisplayBase.SetDisplayState; disp_tac; by apply power_same.
Qed.

(** Prepare, when a successful validation is in the relation as well. *)
Context (q_validated : forall p, Q p (with_validate false p)).
Lemma prepare_loop_same fuel h a : keeps same (prepare_loop fuel h a : P _).
Proof.
  induction fuel as [|fuel IH]; cbn [prepare_loop]; [by intros ???|]. disp_tac. by apply power_same.
Qed.
#[local] Hint Resolve prepare_loop_same : disp.
Lemma DPrepare_same ls : keeps same (DisplayBase.Prepare ls : P _).
Proof. unfold DisplayBase.Prepare, strategies_left. disp_tac. Qed.
#[local] Hint Resolve DPrepare_same : disp.
Lemma run_prepare_same ls : keeps same (run (DPrepare ls)).
Proof.
  unfold run. apply keeps_bind; [apply _|apply gets_same|]. intros ty.
  destruct ty; unfold drop, prepare_of, Primary_Prepare, HDMI_Prepare, Virtual_Prepare; disp_tac.
Qed.
End Rel.

(** ** The power states *)
Definition active_in (ty : DisplayType) (s : DisplayState) : bool :=
  match s with
  | kStateOn | kStateDoze => true
  | kStateDozeSuspend => bool_decide (ty <> kPrimary)
  | kStateOff | kStateStandby => false
  end.
Definition power_eq (p p' : Power) : Prop := state_ p' = state_ p /\ active_ p' = active_ p.
#[global] Instance power_eq_rel : PowerRel power_eq.
Proof. split; try done. split; [done|]. intros p1 p2 p3 [] []. split; congruence. Qed.

Lemma switch_result d s w e act on w' : switch_state props d s w = Ret ((e, act, on), w') ->
  (on = false -> e <> kErrorNone) /\ (on = true -> e = kErrorNone -> act = active_in (display_type_ d) s).
Proof.
  intros E. destruct s; cbn [switch_state] in E; repeat (apply st_bind_Ret_inv in E as (? & ? & _ & E)).
  - by injection E as <- <- <- _.
  - destruct (decide _); [by injection E as <- <- <- _|].
    apply st_bind_Ret_inv in E as (e1 & ? & _ & E). destruct (decide _); [by injection E as <- <- <- _|].
    repeat (apply st_bind_Ret_inv in E as (? & ? & _ & E)). destruct (decide _); by injection E as <- <- <- _.
  - by injection E as <- <- <- _.
  - by injection E as <- <- <- _.
  - by injection E as <- <- <- _.
Qed.

Lemma DSetDisplayState_cases s w e w' : DisplayBase.SetDisplayState props s w = Ret (e, w') ->
  display_type_ (disp w') = display_type_ (disp w) /\
  (e = kErrorNone /\ state_ (power (disp w')) = s /\
     (active_ (power (disp w')) = active_in (display_type_ (disp w)) s \/
      s = state_ (power (disp w)) /\ active_ (power (disp w')) = active_ (power (disp w))) \/
   e <> kErrorNone /\ power_eq (power (disp w)) (power (disp w'))).
Proof.
  intros E. unfold DisplayBase.SetDisplayState in E. rewrite (st_bind_Ret _ _ _ _ _ eq_refl) in E.
  destruct (decide (s = state_ _)) as [Es|Es]; [injection E as <- <-; split; [done|]; left; auto|].
  apply st_bind_Ret_inv in E as ([[e0 act] on] & w1 & E1 & E). destruct (switch_same power_eq _ _ _ _ _ E1) as [T1 Q1].
  apply switch_result in E1 as [Hoff Hon].
  apply st_bind_Ret_inv in E as ([] & w2 & E2 & [= <- <-]).
  destruct (on && bool_decide (e0 = kErrorNone)) eqn:Eb.
  - apply andb_true_iff in Eb as [-> ->%bool_decide_eq_true]. rewrite (st_bind_Ret _ _ _ _ _ eq_refl) in E2.
    match type of E2 with _ ?x = _ => set (w3 := x) in * end.
    assert (S3 : same power_eq w3 w2) by exact (notify_same power_eq _ _ _ _ _ E2).
    destruct S3 as [T3 [Q3 Q3']]. split; [rewrite T3; exact T1|]. left. rewrite Q3, Q3'. split_and!; [done|done|].
    left. by apply Hon.
  - injection E2 as <-. split; [done|]. right. split; [|done]. intros ->. destruct on; [by rewrite bool_decide_eq_true_2 in Eb|by apply Hoff].
Qed.

Definition power_ok (w : World) : Prop := active_ (power (disp w)) = active_in (display_type_ (disp w)) (state_ (power (disp w))).

Lemma run_power o w w' : power_ok w -> run o w = Ret (tt, w') -> power_ok w' /\ display_type_ (disp w') = display_type_ (disp w).
Proof.
  intros Hw E.
  assert (Hk : forall w1, same power_eq w w1 -> power_ok w1 /\ display_type_ (disp w1) = display_type_ (disp w)).
  { intros w1 [T [Q1 Q2]]. unfold power_ok. by rewrite T, Q1, Q2. }
  destruct (plain_op o) eqn:Ho; [by apply Hk, (drun_same power_eq _ Ho _ _ _ E)|].
  destruct o; try done; [by apply Hk, (run_prepare_same power_eq ltac:(done) _ _ _ _ E)|].
  unfold run in E. rewrite (st_bind_Ret _ _ _ _ _ eq_refl) in E.
  assert (Hs : forall e w1, DisplayBase.SetDisplayState props s w = Ret (e, w1) ->
    power_ok w1 /\ display_type_ (disp w1) = display_type_ (disp w)).
  { intros e w1 (T & [(_ & S1 & [A1|[-> A1]])|(_ & Q1)])%DSetDisplayState_cases; [| |by apply Hk];
    unfold power_ok; rewrite T, S1, A1; done. }
  destruct (display_type_ (disp w)) eqn:Ety; unfold drop in E; apply st_bind_Ret_inv in E as (e & w1 & E & [= <-]);
    [|by eapply Hs, E..].
  apply st_bind_Ret_inv in E as (e1 & w2 & E1 & E). destruct (Hs _ _ E1) as [H1 H2].
  destruct (decide (e1 <> kErrorNone)); [by injection E as _ <-|].
  apply st_bind_Ret_inv in E as ([] & w3 & E3 & [= _ <-]). by destruct (decide (s = kStateOff)); injection E3 as <-.
Qed.

Lemma run_all_power l : forall w w', power_ok w -> run_all l w = Ret (tt, w') ->
  power_ok w' /\ display_type_ (disp w') = display_type_ (disp w).
Proof.
  induction l as [|o l IH]; intros w w' Hw E; [by injection E as <-|].
  apply st_bind_Ret_inv in E as ([] & w1 & E1 & E). destruct (run_power _ _ _ Hw E1) as [K1 T1].
  destruct (IH _ _ K1 E) as [K2 T2]. split; [done|congruence].
Qed.

(** ** When a commit is allowed *)
Definition keeps_request (p p' : Power) : Prop := needs_validate_ p = true -> needs_validate_ p' = true.
#[global] Instance keeps_request_rel : PowerRel keeps_request.
Proof. split; [split; [by intros p ?|intros p1 p2 p3 H1 H2 H; auto]|..]; intros; unfold keeps_request; done. Qed.

Lemma loop_validated fuel h a : forall w e b w', (prepare_loop fuel h a : P _) w = Ret ((e, b), w') ->
  needs_validate_ (power (disp w)) = true ->
  (needs_validate_ (power (disp w')) = false <-> e = kErrorNone) /\ (b = true -> e <> kErrorNone).
Proof.
  induction fuel as [|fuel IH]; intros w e b w' E Hn; [done|]. cbn [prepare_loop] in E.
  apply st_bind_Ret_inv in E as (e1 & w1 & E1 & E). apply (cm_same keeps_request) in E1 as [_ Q1]. specialize (Q1 Hn).
  destruct (decide (e1 <> kErrorNone)) as [He|He]; [injection E as <- <- <-; split; [|done]; rewrite Q1; by split|].
  apply st_bind_Ret_inv in E as (e2 & w2 & E2 & E). apply (on_frame_same keeps_request) in E2 as [_ Q2]. specialize (Q2 Q1).
  destruct (decide (e2 = kErrorNone)); [by injection E as <- <- <-|].
  destruct (decide (e2 = kErrorShutDown)) as [->|]; [|by eapply IH].
  apply st_bind_Ret_inv in E as (e3 & w3 & E3 & [= <- <- <-]). apply (cm_same keeps_request) in E3 as [_ Q3].
  rewrite (Q3 Q2). by split.
Qed.

Lemma Prepare_validated ls w e w' : (DisplayBase.Prepare ls : P _) w = Ret (e, w') ->
  needs_validate_ (power (disp w')) = false <-> e = kErrorNone.
Proof.
  intros E. unfold DisplayBase.Prepare in E. rewrite (st_bind_Ret _ _ _ _ _ eq_refl) in E.
  match type of E with _ ?x = _ => set (w0 := x) in * end.
  assert (N0 : needs_validate_ (power (disp w0)) = true) by done.
  assert (Hno : forall (w1 : World) e1, needs_validate_ (power (disp w1)) = true -> e1 <> kErrorNone ->
    needs_validate_ (power (disp w1)) = false <-> e1 = kErrorNone) by (intros w1 e1 -> ?; by split).
  assert (K : forall A (m : P A) w1 x w2, keeps (same keeps_request) m -> m w1 = Ret (x, w2) ->
    needs_validate_ (power (disp w1)) = true -> needs_validate_ (power (disp w2)) = true).
  { intros A m w1 x w2 Hm Em N. destruct (Hm _ _ _ Em) as [_ Q]. auto. }
  rewrite (st_bind_Ret _ _ _ _ _ eq_refl) in E. destruct (negb _); [injection E as <- <-; by apply Hno|].
  destruct ls as [ls|]; [|injection E as <- <-; by apply Hno].
  apply st_bind_Ret_inv in E as (e1 & w1 & E1%K & E); [|apply Build_same, _|exact N0].
  destruct (decide (e1 <> kErrorNone)); [injection E as <- <-; by apply Hno|].
  apply st_bind_Ret_inv in E as (e2 & w2 & E2%K & E); [|apply HandleHDR_same, _|exact E1].
  destruct (decide (e2 <> kErrorNone)); [injection E as <- <-; by apply Hno|].
  rewrite (st_bind_Ret _ _ _ _ _ eq_refl) in E.
  apply st_bind_Ret_inv in E as ([] & w3 & E3%K & E); [|apply pu_check_same, _|exact E2].
  apply st_bind_Ret_inv in E as (h & w4 & E4%K & E); [|apply handle_same, _|exact E3].
  rewrite (st_bind_Ret _ _ _ _ _ eq_refl) in E.
  apply st_bind_Ret_inv in E as ([] & w5 & E5%K & E); [|apply pu_control_same, _|exact E4].
  rewrite (st_bind_Ret _ _ _ _ _ eq_refl) in E.
  apply st_bind_Ret_inv in E as ([] & w6 & E6%K & E); [|apply cm_same, _|exact E5].
  apply st_bind_Ret_inv in E as (fuel & w7 & E7%K & E); [|apply left_same, _|exact E6].
  apply st_bind_Ret_inv in E as ([e8 b] & w8 & E8 & E). destruct (loop_validated _ _ _ _ _ _ _ E8 E7) as [L1 L2].
  destruct b; [by injection E as <- <-|]. apply st_bind_Ret_inv in E as (e9 & w9 & E9 & [= <- <-]).
  unfold in_cm in E9. destruct (CompMgr.PostPrepare _ _ _) as [[]| |]; try done. by injection E9 as _ <-.
Qed.

Lemma Commit_refused ls (w : World) : needs_validate_ (power (disp w)) = true ->
  exists e w', DisplayBase.Commit ls w = Ret (e, w') /\ e <> kErrorNone /\ dev w' = dev w /\ cm w' = cm w.
Proof.
  intros Hn. unfold DisplayBase.Commit. rewrite (st_bind_Ret _ _ _ _ _ eq_refl).
  destruct (negb _); [by eexists _, _|]. destruct ls; [|by eexists _, _]. rewrite Hn. by eexists _, _.
Qed.

Lemma prepare_of_validated ty ls w e w' : prepare_of ty ls w = Ret (e, w') -> needs_validate_ (power (disp w')) = false ->
  e = kErrorNone.
Proof.
  destruct ty; cbn; unfold Primary_Prepare, HDMI_Prepare, Virtual_Prepare; intros E;
    repeat first [by eapply Prepare_validated|apply st_bind_Ret_inv in E as (? & ? & _ & E)|destruct ls; [|discriminate]].
Qed.

(** What DisplayPrimary::Commit asks of the device before it hands the frame to its
    base class: a panel in command mode is told whether to refresh by itself,
    and a client with more layers beside a single buffered one to draw again. *)
Definition refreshes (f : Frame) (ls : option LayerStack) (w : World) (v : V) : Prop :=
  if decide (mode (hw_panel_info_ (conf (disp w))) = kModeCommand) then
    exists l v1 e, ls = Some l /\ hw_intf_ (power (disp w)) = Live /\
      let single := single_buffered_layer_present (flags l) in
      H_SetAutoRefresh ((app_layer_count f =? 1) && single) (dev w) = Ret (e, v1) /\
      if single && (1 <? app_layer_count f) then E_event Refresh v1 = Ret (tt, v) else v = v1
  else v = dev w.
Lemma Primary_Commit_refused ls (w : World) f v : needs_validate_ (power (disp w)) = true ->
  the_frame w = Ret (f, w) -> refreshes f ls w v ->
  exists e w', Primary_Commit ls w = Ret (e, w') /\ e <> kErrorNone /\ dev w' = v /\ cm w' = cm w.
Proof.
  intros Hn Hf Hr. unfold Primary_Commit. rewrite (st_bind_Ret _ _ _ _ _ Hf), (st_bind_Ret _ _ _ _ _ eq_refl).
  assert (K : exists w1, (if decide (mode (hw_panel_info_ (conf (disp w))) = kModeCommand) then
      match ls with
      | None => st_undef
      | Some ls =>
          let single := single_buffered_layer_present (flags ls) in
          _ ← hw (H_SetAutoRefresh ((app_layer_count f =? 1) && single));
          if single && (1 <? app_layer_count f) then in_dev (E_event Refresh) else mret tt
      end else mret tt) w = Ret (tt, w1) /\ w1 = mkWorld (disp w) (cm w) v).
  { unfold refreshes in Hr. destruct (decide _); [|destruct w; cbn in Hr; subst; by eexists].
    destruct Hr as (l & v1 & e1 & -> & Hl & E1 & E2). cbv zeta in *. eexists. split; [|reflexivity].
    assert (Eh : hw (H_SetAutoRefresh ((app_layer_count f =? 1) && single_buffered_layer_present (flags l))) w =
      Ret (e1, mkWorld (disp w) (cm w) v1)).
    { unfold hw, gets, mbind, st_bind, st_gets. rewrite Hl. unfold in_dev. by rewrite E1. }
    rewrite (st_bind_Ret _ _ _ _ _ Eh).
    destruct (single_buffered_layer_present (flags l) && (1 <? app_layer_count f)); [unfold in_dev; cbn; by rewrite E2|by subst]. }
  destruct K as (w1 & E & ->). rewrite (st_bind_Ret _ _ _ _ _ E).
  destruct (Commit_refused ls (mkWorld (disp w) (cm w) v) Hn) as (e & w' & Ec & He & Hd & Hc).
  rewrite (st_bind_Ret _ _ _ _ _ Ec), decide_True by done. by eexists _, _.
Qed.

Definition no_prepare (o : dop) : Prop := match o with DPrepare _ => False | _ => True end.
Lemma run_request o w w' : no_prepare o -> run o w = Ret (tt, w') -> needs_validate_ (power (disp w)) = true ->
  needs_validate_ (power (disp w')) = true.
Proof.
  intros Ho E Hn. destruct (plain_op o) eqn:Hp; [exact (proj2 (drun_same keeps_request _ Hp _ _ _ E) Hn)|].
  destruct o; try done. exact (proj2 (run_state_same keeps_request _ (fun p s b H => H) _ _ _ E) Hn).
Qed.
Lemma run_all_request l : forall w w', Forall no_prepare l -> run_all l w = Ret (tt, w') ->
  needs_validate_ (power (disp w)) = true -> needs_validate_ (power (disp w')) = true.
Proof.
  induction l as [|o l IH]; intros w w' Hl E Hn; [by injection E as <-|].
  apply list.Forall_cons in Hl as [Ho Hl]. apply st_bind_Ret_inv in E as ([] & w1 & E1 & E).
  eapply IH; [done|exact E|]. by eapply run_request.
Qed.
End Ops.
End DisplayOps.

(** * The default resource manager returns *)
Module DefaultLive.
Import Float32 Rect Formats ResourceDefault Strategy CompMgr DefaultResources Contract DefaultLaws Returns Live.

Create HintDb total.
Ltac total_tac :=
  repeat first
    [ match goal with |- forall _, _ => intro end
    | progress cbv zeta
    | apply total_int
    | solve [auto 1 with total nocore]
    | simple apply total_bind
    | match goal with
      | |- total (Ret _) => discriminate
      | |- total Undef => discriminate
      | |- total (mret _) => discriminate
      | |- total (match ?x with _ => _ end) => destruct x
      end ].
#[local] Hint Resolve FrameReturns.MapRect_total : total.

Lemma INT_total x : total (INT x).
Proof. unfold INT. total_tac. Qed.
Lemma UINT32_total x : total (UINT32 x).
Proof. unfold UINT32, cast_u. total_tac. Qed.
Lemma UINT8_total x : total (UINT8 x).
Proof. unfold UINT8, cast_u. total_tac. Qed.
#[local] Hint Resolve INT_total UINT32_total UINT8_total : total.
Lemma up_total v a : total (ROUND_UP_ALIGN_UP v a).
Proof. unfold ROUND_UP_ALIGN_UP. total_tac. Qed.
Lemma down_total v a : total (ROUND_UP_ALIGN_DOWN v a).
Proof. unfold ROUND_UP_ALIGN_DOWN. total_tac. Qed.
#[local] Hint Resolve up_total down_total : total.
Lemma Normalize_total a b r : total (Normalize a b r).
Proof. unfold Normalize. total_tac. Qed.
#[local] Hint Resolve Normalize_total : total.
Lemma vec_upd_total i f l : total (vec_upd i f l).
Proof. unfold vec_upd. total_tac. Qed.
#[local] Hint Resolve vec_upd_total : total.
Lemma search_total n b : forall s k l, total (search_loop n s b k l).
Proof. induction n as [|n IH]; intros s k l; cbn [search_loop]; total_tac. Qed.
#[local] Hint Resolve search_total : total.
Lemma GetPipe_total b s r : total (GetPipe b s r).
Proof. unfold GetPipe, NextPipe, SearchPipe. total_tac. Qed.
#[local] Hint Resolve GetPipe_total : total.
Lemma ValidateScaling_total i c d l : total (ResourceDefault.ValidateScaling i c d l).
Proof. unfold ResourceDefault.ValidateScaling, ValidateDownScaling, ValidateUpScaling, over_up. total_tac. Qed.
#[local] Hint Resolve ValidateScaling_total : total.
Lemma Split_total s d : total (SplitRect s d).
Proof. unfold SplitRect. total_tac. Qed.
#[local] Hint Resolve Split_total : total.
Lemma Crop_total s c d : total (CalculateCropRects s c d).
Proof. unfold CalculateCropRects. total_tac. Qed.
#[local] Hint Resolve Crop_total : total.
Lemma Config_total i m l c : total (ResourceDefault.Config i m l c).
Proof. unfold ResourceDefault.Config, SrcSplitConfig, DisplaySplitConfig, AlignPipeConfig, ValidatePipeParams, ValidateDimensions. total_tac. Qed.
Lemma reserve_total g b c r : total (reserve g b c r).
Proof. unfold reserve, SetDecimationFactor, CalculateDecimation, pipe_at. total_tac. Qed.
Lemma RD_Prepare_ends g h ls : ends (fun _ => True) (ResourceDefault.Prepare g h ls).
Proof.
  unfold ResourceDefault.Prepare. ends_tac.
  - intros w _. unfold deref. by destruct (ctxs w !! h).
  - apply ends_lift, Config_total.
  - apply ends_lift, reserve_total.
  - by apply ends_modify.
Qed.

Lemma ends_returns {S A} (m : St S A) s : ends (fun _ => True) m -> m s <> NoFuel.
Proof. intros Hm E. specialize (Hm s I). by rewrite E in Hm. Qed.
Lemma call_returns {A} (m : St world A) r : (forall w, m w <> NoFuel) -> call m r <> NoFuel.
Proof. intros Hm. unfold call. destruct (object r) as [w|]; [|done]. specialize (Hm w). by destruct (m w) as [[]| |]. Qed.
Lemma scoped_returns {A} (m : St world A) r hs : rd_ok false r hs -> (forall w, m w <> NoFuel) -> scoped m r <> NoFuel.
Proof. intros [Hl _]. unfold scoped. rewrite Hl. apply call_returns. Qed.

#[global] Instance default_live (log2f : float -> float) : ResourceLive RD (H := default_resources log2f).
Proof.
  split.
  - intros h hs r [Hl _]. unfold RI_Start, default_resources, Start. rewrite Hl. by destruct (object r).
  - intros h hs r _. unfold RI_Stop, default_resources, Stop. by destruct (object r).
  - intros h f hs r _. apply call_returns. intros w. apply ends_returns, ends_bind; [apply RD_Prepare_ends|].
    intros []. apply ends_ret.
  - intros h f hs r Hr. eapply (scoped_returns (mret _)); [exact Hr|]. by intros w.
  - intros h l hs r _. apply (call_returns (mret _)). by intros w.
Qed.
End DefaultLive.
