(* ===== verification/DisplayProps.v ===== *)
(** Correctness of the displays over any device, resource manager and extension
    library: the power states, the loop of Prepare, what a commit needs, the
    release fences, the choice of colour and HDMI modes; and the error paths that
    leave an object destroyed or dangling. *)
From S2P Require Import Prelude Rect ResourceDefault Strategy CompMgr CompLaws CompProps DisplayBase Displays DisplayFacts.
#[local] Open Scope Z_scope.

(** * Release fences *)
Module Fences.
Import Float32 Rect Formats ResourceDefault Strategy CompMgr DisplayBase.

(** The descriptors the process has open, each with the points of the timelines its
    fence waits for, and how many merges have failed.  Merging two fences gives a
    new one that waits for both; when there is no fence to merge, or the merge
    fails, the result stays as it was.  Closing is for open descriptors. *)
Definition waits (m : gmap Z (gset Z)) (fd : Z) : gset Z := if 0 <=? fd then m !!! fd else ∅.
Class FenceLaws (V : Type) `{Device V} := {
  fences : V -> gmap Z (gset Z);
  failed : V -> Z;
  law_merge a b t v : exists x v', B_SyncMerge a b t v = Ret (x, v') /\
    ((x = t /\ fences v' = fences v /\ (failed v' = failed v + 1 \/ (a < 0 /\ b < 0 /\ failed v' = failed v))) \/
     (0 <= x /\ fences v !! x = None /\ failed v' = failed v /\
      fences v' = <[x := waits (fences v) a ∪ waits (fences v) b]> (fences v)));
  law_close fd v : is_Some (fences v !! fd) ->
    exists v', B_close fd v = Ret (tt, v') /\ fences v' = delete fd (fences v) /\ failed v' = failed v
}.

Definition release (l : StackLayer) : Z := release_fence_fd (input_buffer l).
Definition valid_fd (fd : Z) : list Z := if 0 <=? fd then [fd] else [].
(** The fences of the layers with the indexes [ix], and those the hardware gave. *)
Definition owned (ls : list StackLayer) (ix : list Z) : list Z :=
  i ← ix; match ls !! Z.to_nat i with Some l => valid_fd (release l) | None => [] end.
Definition pending (hwls : list StackLayer) : list Z := l ← hwls; valid_fd (release l).

Section Fences.
Context {R X V : Type} `{!ResourceIface R, !Extension X, !Device V, !FenceLaws V}.
Abbreviation World := (World R X V).
Abbreviation P := (St World).

(** Besides [base] the open descriptors are those of [L], each once. *)
Definition holds (w : World) (base : gset Z) (L : list Z) : Prop :=
  NoDup L /\ forall y, (y ∈ L -> y ∉ base) /\ (is_Some (fences (dev w) !! y) <-> y ∈ base \/ y ∈ L).
Abbreviation waits_in w fd := (waits (fences (dev w)) fd).
(** The fences of [L] wait for what they waited for. *)
Definition keep (w w' : World) (L : list Z) : Prop := forall y, y < 0 \/ y ∈ L -> waits_in w' y = waits_in w y.

(** [A] is within [B], and all of it when [p] holds. *)
Definition agree (p : Prop) (A B : gset Z) : Prop := A ⊆ B /\ (p -> A = B).

Lemma holds_perm w base L L' : L ≡ₚ L' -> holds w base L -> holds w base L'.
Proof. intros Hp [H1 H2]. split; [by rewrite <- Hp|]. intros y. by rewrite <- Hp. Qed.

Lemma close_holds w base fd L : holds w base (valid_fd fd ++ L) ->
  exists fd' w', (close_if_valid fd : P Z) w = Ret (fd', w') /\ holds w' base L /\ disp w' = disp w /\ cm w' = cm w /\
    keep w w' L /\ failed (dev w') = failed (dev w).
Proof.
  unfold close_if_valid, valid_fd. destruct (0 <=? fd); [|by exists fd, w].
  intros [[Hn1 Hn2]%NoDup_cons H2]. destruct (law_close fd (dev w)) as (v & E & Ev & Ef); [apply H2; right; left|].
  eexists (-1), _. split; [unfold mbind, st_bind, in_dev; by rewrite E|].
  split; [|split_and!; [done|done| |done]].
  - split; [done|]. intros y. specialize (H2 y). cbn [dev]. rewrite Ev. cbn [app] in H2. rewrite elem_of_cons in H2.
    rewrite lookup_delete_is_Some. naive_solver.
  - intros y Hy. cbn [dev]. rewrite Ev. unfold waits. destruct (Z.leb_spec 0 y); [|done].
    destruct Hy as [?|Hy]; [lia|]. rewrite lookup_total_delete_ne; [done|]. intros ->. done.
Qed.

Lemma merge_holds w base a b L : holds w base L -> exists x w', (in_dev (B_SyncMerge a b (-1)) : P Z) w = Ret (x, w') /\
  holds w' base (valid_fd x ++ L) /\ disp w' = disp w /\ cm w' = cm w /\ keep w w' L /\
  failed (dev w) <= failed (dev w') /\ agree (failed (dev w') = failed (dev w)) (waits_in w' x) (waits_in w a ∪ waits_in w b).
Proof.
  intros [H1 H2]. destruct (law_merge a b (-1) (dev w)) as (x & v & E & [(-> & Ev & Ef)|(Hx & Hn & Ef & Ev)]);
    (eexists _, _; split; [unfold in_dev; by rewrite E|]; split; [|split_and!; [done|done| |cbn; lia|]]); cbn [dev].
  - split; [done|]. intros y. cbn. rewrite Ev. apply H2.
  - intros y Hy. cbn. by rewrite Ev.
  - split; [by apply empty_subseteq|]. intros Hf. destruct Ef as [Ef|(Ha & Hb & _)]; [lia|]. unfold waits.
    rewrite !(proj2 (Z.leb_gt 0 _)) by lia. by rewrite union_empty_l_L.
  - unfold valid_fd. rewrite (proj2 (Z.leb_le 0 x)) by done. split.
    + apply NoDup_cons. split; [|done]. intros Hy. apply eq_None_not_Some in Hn. apply Hn, H2. by right.
    + intros y. specialize (H2 y). cbn [dev app]. rewrite Ev, elem_of_cons, lookup_insert_is_Some'. split; [|naive_solver].
      intros [->|Hy]; [|by apply H2]. intros Hb. apply eq_None_not_Some in Hn. apply Hn, H2. by left.
  - intros y Hy. cbn. rewrite Ev. unfold waits. destruct (Z.leb_spec 0 y); [|done]. destruct Hy as [?|Hy]; [lia|].
    rewrite lookup_total_insert_ne; [done|]. intros ->. apply eq_None_not_Some in Hn. apply Hn, H2. by right.
  - rewrite Ev. unfold waits at 1 4. rewrite (proj2 (Z.leb_le 0 x)), lookup_total_insert_eq by done. done.
Qed.

(** Where a layer is changed. *)
Lemma owned_ne ls ix i l : Forall (fun j => 0 <= j) ix -> 0 <= i -> i ∉ ix -> owned (<[Z.to_nat i := l]> ls) ix = owned ls ix.
Proof.
  intros Hp Hi Hn. induction ix as [|j ix IH]; [done|]. apply list.Forall_cons in Hp as [Hj Hp].
  apply not_elem_of_cons in Hn as [Hne Hn]. unfold owned in *. cbn. rewrite IH by done.
  rewrite list_lookup_insert_ne; [done|]. lia.
Qed.
Lemma owned_app ls ix ix' : owned ls (ix ++ ix') = owned ls ix ++ owned ls ix'.
Proof. unfold owned. apply bind_app. Qed.
Lemma owned_cons ls i ix : owned ls (i :: ix) = owned ls [i] ++ owned ls ix.
Proof. exact (owned_app ls [i] ix). Qed.
Lemma owned_perm ls ix ix' : ix ≡ₚ ix' -> owned ls ix ≡ₚ owned ls ix'.
Proof. intros Hp. unfold owned. by rewrite Hp. Qed.
Lemma owned_set ls i l sdm : ls !! Z.to_nat i = Some sdm -> owned (<[Z.to_nat i := l]> ls) [i] = valid_fd (release l).
Proof.
  intros Hl. unfold owned. cbn. rewrite list_lookup_insert_eq by (by eapply lookup_lt_Some). by rewrite app_nil_r.
Qed.
Lemma owned_one ls i sdm : ls !! Z.to_nat i = Some sdm -> owned ls [i] = valid_fd (release sdm).
Proof. intros Hl. unfold owned. cbn. rewrite Hl. by rewrite app_nil_r. Qed.
Lemma pending_cons l hwls : pending (l :: hwls) = valid_fd (release l) ++ pending hwls.
Proof. done. Qed.

(** The indexes the loop has seen at the end. *)
Fixpoint seen (ix : list Z) (n : nat) (dup : list Z) : list Z :=
  match n, ix with
  | S n, i :: ix => seen ix n (if decide (i ∈ dup) then dup else dup ++ [i])
  | _, _ => dup
  end.

Lemma seen_spec n : forall ix dup, NoDup dup -> NoDup (seen ix n dup) /\ forall i, i ∈ seen ix n dup <-> i ∈ dup \/ i ∈ take n ix.
Proof.
  induction n as [|n IH]; intros [|i ix] dup Hd; cbn [seen take]; try (split; [done|]; set_solver).
  destruct (decide (i ∈ dup)) as [Hi|Hi].
  - destruct (IH ix dup Hd) as [H1 H2]. split; [done|]. intros j. rewrite H2. set_solver.
  - destruct (IH ix (dup ++ [i])) as [H1 H2]; [|split; [done|]; intros j; rewrite H2; set_solver].
    apply NoDup_app. split; [done|]. split; [set_solver|apply NoDup_singleton].
Qed.

(** What the fences of the pipes that show layer [i] wait for, and what the fence of
    a layer that was seen already does. *)
Fixpoint gathered (w : World) (ix : list Z) (hwls : list StackLayer) (i : Z) : gset Z :=
  match ix, hwls with
  | j :: ix, l :: hwls => (if decide (j = i) then waits_in w (release l) else ∅) ∪ gathered w ix hwls i
  | _, _ => ∅
  end.
Definition before (w : World) (ls : list StackLayer) (dup : list Z) (i : Z) : gset Z :=
  if decide (i ∈ dup) then from_option (fun l => waits_in w (release l)) ∅ (ls !! Z.to_nat i) else ∅.

Lemma agree_trans (p q r : Prop) A B C : agree p A B -> agree q B C -> (r -> p /\ q) -> agree r A C.
Proof. unfold agree. intros [H1 H2] [H3 H4] Hr. split; [set_solver|]. intros [Hp Hq]%Hr. by rewrite H2, H4. Qed.
Lemma agree_union (p : Prop) A B C : agree p A B -> agree p (A ∪ C) (B ∪ C).
Proof. unfold agree. intros [H1 H2]. split; [set_solver|]. intros HP. by rewrite H2. Qed.
Lemma agree_refl (p : Prop) A B : A = B -> agree p A B.
Proof. by intros ->. Qed.

Lemma keep_release w w' L (l : StackLayer) : keep w w' L -> valid_fd (release l) ⊆ L -> waits_in w' (release l) = waits_in w (release l).
Proof.
  intros K Hl. apply K. unfold valid_fd in Hl. destruct (Z.leb_spec 0 (release l)); [right; apply Hl; left|by left].
Qed.
Lemma keep_weaken w w' L L' : keep w w' L -> L' ⊆ L -> keep w w' L'.
Proof. intros K HL y [Hy|Hy]; apply K; [by left|right; by apply HL]. Qed.
Lemma keep_trans w w1 w2 L : keep w w1 L -> keep w1 w2 L -> keep w w2 L.
Proof. intros K1 K2 y Hy. by rewrite K2, K1. Qed.
Lemma gathered_keep w w' i hwls : forall ix, keep w w' (pending hwls) -> gathered w' ix hwls i = gathered w ix hwls i.
Proof.
  induction hwls as [|l hwls IH]; intros [|j ix] K; [done..|]. cbn [gathered]. rewrite pending_cons in K.
  rewrite IH by (eapply keep_weaken; [exact K|set_solver]). destruct (decide (j = i)); [|done].
  by rewrite (keep_release _ _ _ _ K) by set_solver.
Qed.
Lemma owned_release ls ix j l : j ∈ ix -> ls !! Z.to_nat j = Some l -> valid_fd (release l) ⊆ owned ls ix.
Proof. intros Hj Hl y Hy. unfold owned. apply list_elem_of_bind. exists j. by rewrite Hl. Qed.

(** Merging the fence of a layer with that of another of its pipes. *)
Lemma merge_step w base a b D L : holds w base ((valid_fd b ++ D) ++ valid_fd a ++ L) ->
  exists x a' b' w1 w2 w', (in_dev (B_SyncMerge a b (-1)) : P Z) w = Ret (x, w1) /\
    (close_if_valid a : P Z) w1 = Ret (a', w2) /\ (close_if_valid b : P Z) w2 = Ret (b', w') /\
    holds w' base ((valid_fd x ++ D) ++ L) /\ disp w' = disp w /\ cm w' = cm w /\ keep w w' (D ++ L) /\
    failed (dev w) <= failed (dev w') /\ agree (failed (dev w') = failed (dev w)) (waits_in w' x) (waits_in w a ∪ waits_in w b).
Proof.
  intros Hh. destruct (merge_holds w base a b _ Hh) as (x & w1 & E1 & Hh1 & D1 & C1 & K1 & F1 & A1).
  assert (Hh1' : holds w1 base (valid_fd a ++ valid_fd b ++ (valid_fd x ++ D) ++ L)).
  { eapply holds_perm, Hh1. solve_Permutation. }
  destruct (close_holds _ _ _ _ Hh1') as (a' & w2 & E2 & Hh2 & D2 & C2 & K2 & F2).
  destruct (close_holds _ _ _ _ Hh2) as (b' & w3 & E3 & Hh3 & D3 & C3 & K3 & F3).
  exists x, a', b', w1, w2, w3. rewrite F3, F2. split_and!; [done|done|done|done|congruence|congruence| |done|].
  - eapply keep_trans; [|eapply keep_trans]; eapply keep_weaken; [exact K1| |exact K2| |exact K3|]; set_solver.
  - assert (Kx : forall w w' M, keep w w' M -> valid_fd x ⊆ M -> waits_in w' x = waits_in w x).
    { intros u u' M Ku HM. apply Ku. unfold valid_fd in HM. destruct (Z.leb_spec 0 x); [right; apply HM; left|by left]. }
    rewrite (Kx _ _ _ K3), (Kx _ _ _ K2) by set_solver. exact A1.
Qed.

Lemma release_layers_holds base hwls : forall ls ix dup w,
  (length hwls <= length ix)%nat -> Forall (fun i => 0 <= i < length ls) (dup ++ take (length hwls) ix) -> NoDup dup ->
  holds w base (owned ls dup ++ pending hwls) ->
  exists ls' hwls' w', (release_layers ls ix hwls dup : P _) w = Ret ((ls', hwls'), w') /\
    disp w' = disp w /\ cm w' = cm w /\ length ls' = length ls /\
    holds w' base (owned ls' (seen ix (length hwls) dup)) /\ failed (dev w) <= failed (dev w') /\
    forall j l, 0 <= j -> j ∈ seen ix (length hwls) dup -> ls' !! Z.to_nat j = Some l ->
      agree (failed (dev w') = failed (dev w)) (waits_in w' (release l)) (before w ls dup j ∪ gathered w ix hwls j).
Proof.
  induction hwls as [|hwl hwls IH]; intros ls ix dup w Hlen Hix Hd Hh.
  { exists ls, [], w. rewrite app_nil_r in Hh. assert (Es : seen ix 0 dup = dup) by (by destruct ix).
    cbn [length]. rewrite Es. split_and!; [done..|lia|]. intros j l Hj0 Hj Hl. apply agree_refl.
    unfold before. rewrite decide_True, Hl by done. destruct ix; cbn; by rewrite union_empty_r_L. }
  destruct ix as [|i ix]; [cbn in Hlen; lia|]. cbn [length take] in Hix. cbn [release_layers seen length].
  rewrite pending_cons in Hh.
  assert (Hi : 0 <= i < length ls) by (rewrite Forall_app, list.Forall_cons in Hix; apply Hix).
  assert (Hpos : Forall (fun j => 0 <= j) dup).
  { rewrite Forall_app in Hix. eapply Forall_impl; [apply Hix|]. cbn. lia. }
  destruct (lookup_lt_is_Some_2 ls (Z.to_nat i)) as [sdm Hs]; [lia|]. rewrite Hs. fold (release hwl) (release sdm).
  destruct (decide (i ∈ dup)) as [Hin|Hnin].
  - destruct (elem_of_Permutation dup i) as [H1 _]. destruct (H1 Hin) as [dup' Hp].
    assert (Hnin : i ∉ dup') by (rewrite Hp in Hd; by apply NoDup_cons in Hd as [? _]).
    assert (Hpos' : Forall (fun j => 0 <= j) dup') by (rewrite Hp in Hpos; by apply list.Forall_cons in Hpos as [_ ?]).
    assert (Ho : owned ls dup ≡ₚ valid_fd (release sdm) ++ owned ls dup').
    { rewrite (owned_perm _ _ _ Hp), owned_cons, (owned_one _ _ _ Hs). done. }
    destruct (merge_step w base (release hwl) (release sdm) (owned ls dup') (pending hwls))
      as (x & fd' & fd'' & w1 & w2 & w3 & E1 & E2 & E3 & Hh3 & D3 & C3 & K & F3 & A3).
    { eapply holds_perm, Hh. by rewrite Ho. }
    rewrite (st_bind_Ret _ _ _ _ _ E1), (st_bind_Ret _ _ _ _ _ E2), (st_bind_Ret _ _ _ _ _ E3).
    destruct (IH (<[Z.to_nat i := with_release x sdm]> ls) ix dup w3) as (ls' & hwls' & w4 & E4 & D4 & C4 & L4 & H4 & F4 & A4).
    + cbn in Hlen. lia.
    + rewrite length_insert. rewrite Forall_app, list.Forall_cons in Hix. rewrite Forall_app. naive_solver.
    + done.
    + eapply holds_perm, Hh3. f_equiv. rewrite (owned_perm _ _ _ Hp), owned_cons.
      rewrite (owned_set _ _ _ _ Hs), owned_ne; [done|done|lia|done].
    + rewrite (st_bind_Ret _ _ _ _ _ E4). eexists _, _, w4. split; [reflexivity|].
      rewrite L4, length_insert. split_and!; [congruence|congruence|done|done|lia|]. intros j l Hj0 Hj Hl.
      assert (Kg : gathered w3 ix hwls j = gathered w ix hwls j).
      { apply gathered_keep. eapply keep_weaken; [exact K|set_solver]. }
      eapply agree_trans with (q := failed (dev w3) = failed (dev w)); [by apply A4| |lia]. rewrite Kg. cbn [gathered].
      destruct (decide (i = j)) as [<-|Hne].
      * unfold before. rewrite !decide_True, Hs, list_lookup_insert_eq by (done || lia). cbn [from_option]. unfold release at 1. cbn.
        rewrite assoc_L by apply _. apply agree_union. by rewrite (union_comm_L (waits_in w (release sdm))).
      * rewrite union_empty_l_L. apply agree_refl. f_equal.
        unfold before. destruct (decide (j ∈ dup)) as [Hjd|]; [|done]. rewrite list_lookup_insert_ne by lia.
        destruct (ls !! Z.to_nat j) as [lj|] eqn:Ej; [|done]. cbn. eapply keep_release; [exact K|].
        apply list_subseteq_app_l. eapply owned_release; [|exact Ej]. rewrite Hp in Hjd. set_solver.
  - destruct (IH (<[Z.to_nat i := with_release (release hwl) sdm]> ls) ix (dup ++ [i]) w)
      as (ls' & hwls' & w4 & E4 & D4 & C4 & L4 & H4 & F4 & A4).
    + cbn in Hlen. lia.
    + rewrite length_insert. by rewrite <- app_assoc.
    + apply NoDup_app. split; [done|]. split; [|apply NoDup_singleton]. intros j Hj ->%list_elem_of_singleton. done.
    + eapply holds_perm, Hh. rewrite owned_app, (owned_set _ _ _ _ Hs), owned_ne, app_assoc; [done|done|lia|done].
    + rewrite (st_bind_Ret _ _ _ _ _ E4). eexists _, _, w4. split; [reflexivity|].
      rewrite L4, length_insert. split_and!; [done..|]. intros j l Hj0 Hj Hl.
      eapply agree_trans with (q := True); [by apply A4|apply agree_refl|done]. cbn [gathered].
      destruct (decide (i = j)) as [<-|Hne].
      * unfold before. rewrite decide_True, list_lookup_insert_eq, (decide_False (P := i ∈ dup)) by (set_solver || lia).
        by rewrite union_empty_l_L.
      * rewrite union_empty_l_L. f_equal. unfold before. rewrite list_lookup_insert_ne by lia.
        destruct (decide (j ∈ dup ++ [i])), (decide (j ∈ dup)); set_solver.
Qed.
End Fences.
End Fences.

(** * Modes *)
Module Modes.
Import Float32 Rect Formats ResourceDefault Strategy CompMgr DisplayBase Displays.

(** [better] is the lexicographic order of height, width and refresh rate. *)
Lemma better_spec a b : better a b = true <->
  y_pixels (variable_info b) < y_pixels (variable_info a) \/
  (y_pixels (variable_info a) = y_pixels (variable_info b) /\
   (x_pixels (variable_info b) < x_pixels (variable_info a) \/
    (x_pixels (variable_info a) = x_pixels (variable_info b) /\
     vsync_period_ns (variable_info a) < vsync_period_ns (variable_info b)))).
Proof.
  unfold better. cbv zeta. destruct (Z.ltb_spec (y_pixels (variable_info b)) (y_pixels (variable_info a))); [split; auto|].
  destruct (Z.eqb_spec (y_pixels (variable_info a)) (y_pixels (variable_info b))); [|split; [done|lia]].
  destruct (Z.ltb_spec (x_pixels (variable_info b)) (x_pixels (variable_info a))); [split; [lia|auto]|].
  destruct (Z.eqb_spec (x_pixels (variable_info a)) (x_pixels (variable_info b))); [|split; [done|lia]].
  destruct (Z.ltb_spec (vsync_period_ns (variable_info a)) (vsync_period_ns (variable_info b))); (split; [lia|auto]). lia.
Qed.

Lemma better_irrefl a : better a a = false.
Proof. rewrite <- not_true_iff_false, better_spec. lia. Qed.

(** The first of the best modes among the first [n]. *)
Definition is_best (mode : Z) (l : list HWDisplayAttributes) (n r : nat) : Prop :=
  exists a, l !! r = Some a /\ has_s3d mode a = true /\ (r < n)%nat /\
  forall k b, (k < n)%nat -> l !! k = Some b -> has_s3d mode b = true ->
    better b a = false /\ ((k < r)%nat -> better a b = true).

Lemma best_step mode l n r c : is_best mode l n r -> l !! n = Some c ->
  is_best mode l (S n) (if has_s3d mode c && match l !! r with Some a => better c a | None => false end then n else r).
Proof.
  intros (a & Ha & Hs & Hr & Hk) Hc. rewrite Ha.
  destruct (has_s3d mode c && better c a) eqn:E.
  - apply andb_true_iff in E as [E1 E2]. exists c. split_and!; [done|done|lia|]. intros k b Hn Hb Hsb.
    destruct (decide (k = n)) as [->|]; [rewrite Hc in Hb; injection Hb as <-; split; [|lia]|].
    + apply better_irrefl.
    + destruct (Hk k b ltac:(lia) Hb Hsb) as [H1 _]. rewrite better_spec in E2.
      rewrite <- not_true_iff_false, better_spec in H1. split; [rewrite <- not_true_iff_false|intros _]; rewrite better_spec; lia.
  - exists a. split_and!; [done|done|lia|]. intros k b Hn Hb Hsb.
    destruct (decide (k = n)) as [->|]; [|by apply Hk; [lia|..]]. rewrite Hc in Hb. injection Hb as <-.
    rewrite Hsb in E. cbn in E. split; [done|lia].
Qed.

Lemma best_loop_spec mode L l : forall n r a, drop n L = l -> L !! r = Some a -> is_best mode L n r ->
  is_best mode L (length L) (best_loop mode l n r a).
Proof.
  induction l as [|c l IH]; intros n r a Hd Ha Hb; cbn [best_loop].
  - destruct Hb as (a' & H1 & H2 & H3 & H4). exists a'. split_and!; [done|done|by eapply lookup_lt_Some|].
    intros k b Hk. apply H4. apply (f_equal length) in Hd. rewrite length_drop in Hd. cbn in Hd. lia.
  - assert (Hc : L !! n = Some c) by (rewrite <- (Nat.add_0_r n), <- lookup_drop, Hd; done).
    assert (Hd' : drop (S n) L = l) by (rewrite <- Nat.add_1_r, <- drop_drop, Hd; done).
    pose proof (best_step _ _ _ _ _ Hb Hc) as Hs. rewrite Ha in Hs.
    destruct (has_s3d mode c && better c a); by apply IH.
Qed.

Lemma first_s3d_spec mode l : match first_s3d mode l with
  | Some i => exists a, l !! i = Some a /\ has_s3d mode a = true /\ forall k b, (k < i)%nat -> l !! k = Some b -> has_s3d mode b = false
  | None => forall k b, l !! k = Some b -> has_s3d mode b = false
  end.
Proof.
  induction l as [|a l IH]; cbn [first_s3d]; [done|]. destruct (has_s3d mode a) eqn:E; [exists a; split_and!; [done|done|lia]|].
  destruct (first_s3d mode l) as [i|]; cbn.
  - destruct IH as (b & H1 & H2 & H3). exists b. split_and!; [done|done|]. intros [|k] c Hk Hc; [by injection Hc as <-|].
    apply (H3 k c); [lia|done].
  - intros [|k] c Hc; [by injection Hc as <-|by eapply IH].
Qed.

Lemma best_of_spec mode l : (exists k a, l !! k = Some a /\ has_s3d mode a = true) -> is_best mode l (length l) (best_of mode l).
Proof.
  intros (k & a & Hk & Hs). unfold best_of. pose proof (first_s3d_spec mode l) as F.
  destruct (first_s3d mode l) as [i|]; [|by rewrite (F k a Hk) in Hs]. destruct F as (b & Hb & Hsb & Hf). rewrite Hb.
  apply best_loop_spec; [done|done|]. exists b. split_and!; [done|done|lia|]. intros j c Hj Hc Hsc.
  destruct (decide (j = i)) as [->|]; [|by rewrite (Hf j c ltac:(lia) Hc) in Hsc]. rewrite Hb in Hc. injection Hc as <-.
  split; [apply better_irrefl|lia].
Qed.

(** ** Colour modes *)
(** Each name is mapped to the first of the modes with the largest identifier. *)
Definition map_ok (l : list SDEDisplayMode) (n : nat) (m : gmap string nat) : Prop :=
  forall s, match m !! s with
            | None => forall k x, (k < n)%nat -> l !! k = Some x -> mode_name x <> s
            | Some i => exists a, l !! i = Some a /\ mode_name a = s /\ (i < n)%nat /\
                forall k x, (k < n)%nat -> l !! k = Some x -> mode_name x = s ->
                  mode_id x <= mode_id a /\ ((k < i)%nat -> mode_id x < mode_id a)
            end.
Lemma map_ok_step l n m x : map_ok l n m -> l !! n = Some x ->
  map_ok l (S n) (match m !! mode_name x with
                  | Some j => match l !! j with
                              | Some y => if mode_id y <? mode_id x then <[mode_name x := n]> m else m
                              | None => m
                              end
                  | None => <[mode_name x := n]> m
                  end).
Proof.
  intros Hm Hx s. pose proof (Hm s) as Hs. destruct (decide (s = mode_name x)) as [->|Hne].
  - destruct (m !! mode_name x) as [j|] eqn:Ej.
    + destruct Hs as (a & Ha & Hn & Hj & Hk). rewrite Ha. destruct (Z.ltb_spec (mode_id a) (mode_id x)).
      * rewrite lookup_insert_eq. exists x. split_and!; [done|done|lia|]. intros k y Hkn Hy Hny.
        destruct (decide (k = n)) as [->|]; [rewrite Hx in Hy; injection Hy as <-; lia|].
        destruct (Hk k y ltac:(lia) Hy Hny). lia.
      * rewrite Ej. exists a. split_and!; [done|done|lia|]. intros k y Hkn Hy Hny.
        destruct (decide (k = n)) as [->|]; [rewrite Hx in Hy; injection Hy as <-; lia|]. apply Hk; [lia|done|done].
    + rewrite lookup_insert_eq. exists x. split_and!; [done|done|lia|]. intros k y Hkn Hy Hny.
      destruct (decide (k = n)) as [->|]; [rewrite Hx in Hy; injection Hy as <-; lia|]. by destruct (Hs k y ltac:(lia) Hy).
  - assert (E : (match m !! mode_name x with
      | Some j => match l !! j with Some y => if mode_id y <? mode_id x then <[mode_name x := n]> m else m | None => m end
      | None => <[mode_name x := n]> m end) !! s = m !! s).
    { destruct (m !! mode_name x) as [j|]; [destruct (l !! j) as [y|]; [destruct (_ <? _)|]|]; rewrite ?lookup_insert_ne; done. }
    rewrite E. destruct (m !! s) as [j|].
    + destruct Hs as (a & Ha & Hn & Hj & Hk). exists a. split_and!; [done|done|lia|]. intros k y Hkn Hy Hny.
      destruct (decide (k = n)) as [->|]; [congruence|]. apply Hk; [lia|done|done].
    + intros k y Hkn Hy. destruct (decide (k = n)) as [->|]; [congruence|]. apply (Hs k y); [lia|done].
Qed.

Section Init.
Context {R X V : Type} `{!ResourceIface R, !Extension X, !Device V}.
Abbreviation P := (St (World R X V)).

(** Filling the maps leaves the modes and their number as they are. *)
Definition modes (w : World R X V) : list SDEDisplayMode := color_modes_ (color (disp w)).
Definition count (w : World R X V) : Z := num_color_modes_ (color (disp w)).
Definition mode_map (w : World R X V) : gmap string nat := color_mode_map_ (color (disp w)).
Definition steady (w w' : World R X V) : Prop := modes w' = modes w /\ count w' = count w.

Lemma in_dev_disp {A} (m : St V A) (w w' : World R X V) a : in_dev m w = Ret (a, w') -> disp w' = disp w.
Proof. unfold in_dev. intros E. destruct (m (dev w)) as [[]| |]; [|done..]. by injection E as _ <-. Qed.

Lemma init_mode_ok d i w w' : map_ok (modes w) i (mode_map w) -> init_mode d i w = Ret (tt, w') ->
  steady w w' /\ map_ok (modes w) (S i) (mode_map w').
Proof.
  intros Hm E. unfold init_mode in E. rewrite (st_bind_Ret _ _ _ _ _ eq_refl) in E. cbv beta in E.
  change (color_modes_ (color (disp w))) with (modes w) in E. change (color_mode_map_ (color (disp w))) with (mode_map w) in E.
  destruct (modes w !! i) as [x|] eqn:Hx; [|done]. pose proof (map_ok_step _ _ _ _ Hm Hx) as Hs.
  apply st_bind_Ret_inv in E as ([] & w1 & E1 & E).
  assert (steady w w1 /\ mode_map w1 = mode_map w) as [M1 P1] by (destruct (_ =? _); by injection E1 as <-).
  apply st_bind_Ret_inv in E as ([] & w2 & E2 & E).
  assert (steady w w2 /\ map_ok (modes w) (S i) (mode_map w2)) as [M2 P2].
  { destruct (mode_map w !! mode_name x) as [j|] eqn:Ej.
    - destruct (modes w !! j) as [y|] eqn:Ey; [|done]. destruct (_ <? _); injection E2 as <-.
      + split; [exact M1|]. unfold mode_map at 1. cbn. fold (mode_map w1). by rewrite P1.
      + by rewrite P1.
    - injection E2 as <-. split; [exact M1|]. unfold mode_map at 1. cbn. fold (mode_map w1). by rewrite P1. }
  apply st_bind_Ret_inv in E as ([e var] & w3 & E3 & E). apply in_dev_disp in E3.
  assert (steady w w3 /\ map_ok (modes w) (S i) (mode_map w3)) as [M3 P3].
  { unfold steady, modes, count, mode_map in *. by rewrite E3. }
  destruct (decide (e <> kErrorNone)); [by injection E as <-|]. destruct var; by injection E as <-.
Qed.

Lemma init_modes_ok d n : forall i w w', map_ok (modes w) i (mode_map w) -> init_modes d i n w = Ret (tt, w') ->
  steady w w' /\ map_ok (modes w) (i + n) (mode_map w').
Proof.
  induction n as [|n IH]; intros i w w' Hm E; [injection E as <-; by rewrite Nat.add_0_r|].
  apply st_bind_Ret_inv in E as ([] & w1 & E1 & E). destruct (init_mode_ok _ _ _ _ Hm E1) as [[M1 C1] P1].
  rewrite <- M1 in P1. destruct (IH _ _ _ P1 E) as [[M2 C2] P2]. rewrite Nat.add_succ_r, <- M1. split; [split; congruence|done].
Qed.

Lemma InitializeColorModes_ok w w' : modes w = [] -> mode_map w = ∅ ->
  InitializeColorModes w = Ret (kErrorNone, w') ->
  map_ok (modes w') (Z.to_nat (count w')) (mode_map w').
Proof.
  intros Hl Hmap E. unfold InitializeColorModes in E. rewrite (st_bind_Ret _ _ _ _ _ eq_refl) in E.
  destruct (negb _); [done|]. apply st_bind_Ret_inv in E as ([e n] & w1 & E1 & E). apply in_dev_disp in E1.
  rewrite (st_bind_Ret _ _ _ _ _ eq_refl) in E. destruct (_ || _); [done|]. fold (modes w) in E. rewrite Hl in E.
  apply st_bind_Ret_inv in E as ([[e2 n2] l] & w2 & E2 & E). apply in_dev_disp in E2.
  rewrite (st_bind_Ret _ _ _ _ _ eq_refl) in E.
  destruct (decide (e2 <> kErrorNone)) as [He|He]; [rewrite (st_bind_Ret _ _ _ _ _ eq_refl) in E; by injection E as ->|].
  apply st_bind_Ret_inv in E as ([e4 id] & w4 & E4 & E). apply in_dev_disp in E4.
  apply st_bind_Ret_inv in E as ([] & w5 & E5 & [= <-]).
  assert (M4 : mode_map w4 = ∅) by (unfold mode_map in *; rewrite E4; cbn; rewrite E2; cbn; by rewrite E1).
  destruct (init_modes_ok id (Z.to_nat n2) 0 w4 w5) as [[M5 N5] P5]; [|exact E5|].
  - rewrite M4. intros s. rewrite lookup_empty. intros k x Hk. lia.
  - rewrite M5, N5. unfold count. rewrite E4. exact P5.
Qed.
End Init.
End Modes.

(** * The claims *)
Module DisplayProps.
Import Float32 Rect Formats ResourceDefault Strategy CompMgr DefaultResources Contract DefaultLaws.
Import DisplayBase Displays Returns Live FrameReturns DisplayOps Fences Modes DefaultLive.

(** ** A device *)

(** The open descriptors with what they wait for, and whether the device rejects configurations, layers and
    event handlers. *)
Record Dev := mkDev { open_fds : gmap Z (gset Z); broken : bool }.
Definition verdict : St Dev DisplayError := fun v => Ret (if broken v then kErrorHardware else kErrorNone, v).
Definition fine : St Dev DisplayError := mret kErrorNone.
Definition next_fd (v : Dev) : Z := Z.of_nat (fresh (set_map Z.to_nat (dom (open_fds v)) : gset nat)).
Definition modes1 : list SDEDisplayMode := [mkMode 1 "hal_srgb"; mkMode 3 "hal_srgb"; mkMode 2 "hal_native"].
Definition hdmi_mode (i : Z) : HWDisplayAttributes :=
  mkAttributes (mkFb (if i =? 1 then 1920 else 1280) (if i =? 1 then 1080 else 720) f_one f_one 60 16666666 false)
    false 0 0 0 0 (if i =? 1 then 2 else 1).

#[local] Instance dev1 : Device Dev := {|
  H_Create _ := fine; H_Destroy := mret tt; H_GetActiveConfig _ := mret (kErrorNone, 0);
  H_GetNumDisplayAttributes _ := mret (kErrorNone, 3);
  H_GetDisplayAttributes i _ := mret (kErrorNone, if i =? 0 then CompProps.attributes1 else hdmi_mode i);
  H_GetHWPanelInfo _ := mret (kErrorNone, CompProps.panel1 true);
  H_SetConfig _ := verdict; H_SetDisplayAttributes _ := fine; H_GetConfigIndex _ i := mret (kErrorNone, i);
  H_PowerOn := fine; H_PowerOff := fine; H_Doze := fine; H_DozeSuspend := fine; H_Standby := fine;
  H_Validate f := (fun v => Ret (if broken v then kErrorHardware else kErrorNone, f, v)); H_Commit f := mret (kErrorNone, f); H_Flush _ := fine;
  H_SetVSyncState _ := fine; H_SetIdleTimeoutMs _ := mret tt; H_SetDisplayMode _ := fine; H_SetRefreshRate _ := fine;
  H_SetPanelBrightness _ := fine; H_GetPanelBrightness l := mret (kErrorNone, l);
  H_GetHWScanInfo s := mret (kErrorNone, s); H_GetVideoFormat _ f := mret (kErrorNone, f);
  H_GetMaxCEAFormat f := mret (kErrorNone, f); H_SetCursorPosition _ _ _ := fine;
  H_OnMinHdcpEncryptionLevelChange _ := fine; H_SetAutoRefresh _ := fine; H_SetS3DMode _ := fine;
  H_SetScaleLutConfig := fine; H_SetMixerAttributes _ := fine;
  H_GetMixerAttributes _ := mret (kErrorNone, ResourceProps.mixer0); H_SetDynamicDSIClock _ := fine;
  H_GetDynamicDSIClock c := mret (kErrorNone, c); H_GetHWResourceInfo := mret (mkHWInfo 7 false 4 20);
  H_EventsCreate := verdict; H_EventsDestroy := mret tt;
  K_Create := mret true; K_Delete := mret tt; K_GetNumOfModes _ := mret (kErrorNone, 3);
  K_GetModes n _ := mret (kErrorNone, n, modes1); K_GetDefaultModeID _ := mret (kErrorNone, 2);
  K_GetModeInfo _ := mret (kErrorNone, []); K_SetMode _ := fine; K_SetColorTransform _ := fine;
  K_NeedsPartialUpdateDisable := mret false; K_Commit := fine; K_ApplyDefaultDisplayMode := fine;
  B_SyncMerge a b t := fun v => if (0 <=? a) || (0 <=? b)
    then Ret (next_fd v, mkDev (<[next_fd v := waits (open_fds v) a ∪ waits (open_fds v) b]> (open_fds v)) (broken v))
    else Ret (t, v);
  B_close fd := fun v => match open_fds v !! fd with Some _ => Ret (tt, mkDev (delete fd (open_fds v)) (broken v)) | None => Undef end;
  E_event _ := mret tt
|}.

Lemma next_fd_new v : 0 <= next_fd v /\ open_fds v !! next_fd v = None.
Proof.
  split; [unfold next_fd; lia|]. apply not_elem_of_dom. intros Hin.
  apply (is_fresh (set_map Z.to_nat (dom (open_fds v)) : gset nat)), elem_of_map.
  exists (next_fd v). split; [|done]. unfold next_fd. by rewrite Nat2Z.id.
Qed.
#[local, program] Instance fences1 : FenceLaws Dev := {| fences := open_fds; failed _ := 0 |}.
Next Obligation.
  intros a b t v. cbn. destruct (Z.leb_spec 0 a), (Z.leb_spec 0 b); cbn;
    try (eexists _, _; split; [done|right]; by destruct (next_fd_new v)).
  exists t, v. split; [done|]. left. split_and!; [done|done|]. right. lia.
Qed.
Next Obligation. intros fd v [s Hfd]. cbn. rewrite Hfd. by eexists. Qed.
#[local] Instance dev1_live : DeviceLive Dev.
Proof. split; intros; by intros v. Qed.
#[local] Instance ext1 : Extension unit := CompProps.no_extension.
#[local] Instance ext1_live : ExtensionLive unit.
Proof. split; intros; by intros v. Qed.
#[local] Instance res1 : ResourceIface RD := default_resources ResourceProps.log2f0.

Definition props1 : Props := mkProps None (-1) 0 false false 0 0 2 false.
Definition fresh_display (ty : DisplayType) (b : bool) : World RD unit Dev :=
  mkWorld (new_DisplayBase ty 100) CompProps.start1 (mkDev ∅ b).
Definition last {A} (m : outcome (A * World RD unit Dev)) : World RD unit Dev :=
  match m with Ret (_, w) => w | _ => fresh_display kPrimary false end.
(** The primary display after it was made, turned on and shown two layers. *)
Definition shown : list dop := [DInit; DSetDisplayState kStateOn; DPrepare (Some CompProps.stack1); DCommit (Some CompProps.stack1)].
Definition display1 : World RD unit Dev := last (run_all props1 shown (fresh_display kPrimary false)).

Section Claims.
Context {R X V : Type} `{!ResourceIface R, !Extension X, !Device V} (props : Props).
Abbreviation World := (World R X V).

(** C30: Whatever is called on a display, from its construction on, it is active
    exactly in the power states of its type in which it shows frames; and a change of
    the state that fails leaves these two members as they were, while one that
    succeeds reaches the state that was asked for. Only the two members are
    meant: by the time it fails the panel may have been powered, the strategies
    stopped and the layers of the hardware cleared. *)
Theorem power_states ty a (g : CM R X) v ops w : run_all props ops (mkWorld (new_DisplayBase ty a) g v) = Ret (tt, w) ->
  active_ (power (disp w)) = active_in ty (state_ (power (disp w))) /\
  forall s e w', DisplayBase.SetDisplayState props s w = Ret (e, w') ->
    if decide (e = kErrorNone) then state_ (power (disp w')) = s /\ active_ (power (disp w')) = active_in ty s
    else state_ (power (disp w')) = state_ (power (disp w)) /\ active_ (power (disp w')) = active_ (power (disp w)).
Proof.
  intros E. destruct (run_all_power props ops (mkWorld (new_DisplayBase ty a) g v) w eq_refl E) as [Hp Ht].
  unfold power_ok in Hp. rewrite Ht in Hp. split; [exact Hp|]. intros s e w' (T & C)%DSetDisplayState_cases.
  rewrite Ht in C. destruct C as [(-> & S1 & C)|(He & Q1 & Q2)]; [|by rewrite decide_False].
  rewrite decide_True by done. split; [done|]. destruct C as [A1|[-> A1]]; [exact A1|]. rewrite A1. exact Hp.
Qed.

(** C16: A frame whose Prepare failed is not shown: until another Prepare is called
    every Commit returns an error, whatever else is called in between. On an
    HDMI or a virtual display it touches neither the device nor the composition
    manager. On the primary display it does not touch the composition manager
    either, and of the device it makes only the calls of [refreshes], which
    come before the check: on a panel in command mode SetAutoRefresh, and the
    Refresh event when a single buffered layer is among several; on any other
    panel none. The frame of the primary display has to be allocated, and in
    command mode the stack given and the hardware interface made, as its Commit
    reads them unchecked. *)
Theorem commit_gated ty ls (w w1 : World) e : prepare_of ty ls w = Ret (e, w1) -> e <> kErrorNone ->
  forall ops w2 ls', Forall no_prepare ops -> run_all props ops w1 = Ret (tt, w2) ->
    match ty with
    | kPrimary => forall f v, the_frame w2 = Ret (f, w2) -> refreshes f ls' w2 v ->
        exists e' w3, commit_of ty ls' w2 = Ret (e', w3) /\ e' <> kErrorNone /\ dev w3 = v /\ cm w3 = cm w2
    | _ => exists e' w3, commit_of ty ls' w2 = Ret (e', w3) /\ e' <> kErrorNone /\ dev w3 = dev w2 /\ cm w3 = cm w2
    end.
Proof.
  intros E He ops w2 ls' Ho Eo.
  assert (Hn : needs_validate_ (power (disp w2)) = true).
  { eapply run_all_request; [exact Ho|exact Eo|].
    destruct (needs_validate_ (power (disp w1))) eqn:En; [done|]. by apply (prepare_of_validated _ _ _ _ _ E) in En. }
  destruct ty; [intros f v; by apply Primary_Commit_refused|by apply Commit_refused..].
Qed.

(** After the colour modes were read each name stands for the first of the modes
    of that name with the largest identifier, which is the mode the hardware
    is set to for it; a name no mode has is not supported. *)
Lemma color_mode_largest (w w' : World) s : modes w = [] -> mode_map w = ∅ ->
  InitializeColorModes w = Ret (kErrorNone, w') ->
  match mode_map w' !! s with
  | Some i => exists m, modes w' !! i = Some m /\ mode_name m = s /\
      SetColorModeInternal s w' = in_dev (K_SetMode (mode_id m)) w' /\
      forall k x, (k < Z.to_nat (count w'))%nat -> modes w' !! k = Some x -> mode_name x = s ->
        mode_id x <= mode_id m /\ ((k < i)%nat -> mode_id x < mode_id m)
  | None => SetColorModeInternal s w' = Ret (kErrorNotSupported, w') /\
      forall k x, (k < Z.to_nat (count w'))%nat -> modes w' !! k = Some x -> mode_name x <> s
  end.
Proof.
  intros Hl Hm E. pose proof (InitializeColorModes_ok _ _ Hl Hm E s) as K.
  assert (Es : SetColorModeInternal s w' = match mode_map w' !! s with
    | None => Ret (kErrorNotSupported, w')
    | Some i => match modes w' !! i with None => Undef | Some m => in_dev (K_SetMode (mode_id m)) w' end
    end).
  { unfold SetColorModeInternal. rewrite (st_bind_Ret _ _ _ _ _ eq_refl). cbv beta. fold (mode_map w') (modes w').
    destruct (mode_map w' !! s) as [i|]; [|done]. by destruct (modes w' !! i). }
  rewrite Es. destruct (mode_map w' !! s) as [i|]; [|by split].
  destruct K as (m & Hi & Hn & _ & Hk). exists m. split_and!; [done|done| |done]. by rewrite Hi.
Qed.

(** Without a user setting the HDMI display starts in the first of the best of its
    modes with the wanted 3D format: highest, then widest, then fastest. *)
Lemma best_config s3d (w w1 w2 : World) e n l : hdmi_config_index props = 0 ->
  hw (H_GetNumDisplayAttributes 0) w = Ret ((e, n), w1) -> read_modes 0 (Z.to_nat n) w1 = Ret (l, w2) ->
  (exists k a, l !! k = Some a /\ has_s3d s3d a = true) ->
  exists r a, GetBestConfig props s3d w = Ret (Z.of_nat r, w2) /\ l !! r = Some a /\ has_s3d s3d a = true /\
    forall k b, l !! k = Some b -> has_s3d s3d b = true ->
      better b a = false /\ ((k < r)%nat -> better a b = true).
Proof.
  intros Hu E1 E2 Hs. destruct (best_of_spec _ _ Hs) as (a & Ha & Hsa & _ & Hb). exists (best_of s3d l), a.
  split_and!; [|done|done|].
  - unfold GetBestConfig. rewrite (st_bind_Ret _ _ _ _ _ E1). cbv beta iota. rewrite (st_bind_Ret _ _ _ _ _ E2).
    cbv zeta. by rewrite Hu.
  - intros k b Hk. eapply Hb, Hk. by eapply lookup_lt_Some.
Qed.

(** When the hardware rejects the configuration that was chosen for the HDMI
    display, its initialisation goes on with the hardware interface it has just
    destroyed: the behaviour is undefined. *)
Lemma hdmi_use_after_destroy (w w1 w2 w3 : World) i e : (forall v, exists v', H_Destroy v = Ret (tt, v')) ->
  let m := hdmi_s3d_mode props in
  hw_create w = Ret (kErrorNone, w1) ->
  GetBestConfig props (if (kS3DModeNone <? m) && (m <? kS3DModeMax) then m else kS3DModeNone) w1 = Ret (i, w2) ->
  hw (H_SetConfig i) w2 = Ret (e, w3) -> e <> kErrorNone -> HDMI_Init props w = Undef.
Proof.
  intros Hd m E1 E2 E3 He. unfold HDMI_Init. rewrite (st_bind_Ret _ _ _ _ _ E1), decide_False by auto. cbv zeta.
  rewrite (st_bind_Ret _ _ _ _ _ E2), (st_bind_Ret _ _ _ _ _ E3), decide_True by done.
  unfold hw in E3. rewrite (st_bind_Ret _ _ _ _ _ eq_refl) in E3.
  destruct (hw_intf_ (power (disp w2))) eqn:Eh; try done. apply in_dev_disp in E3. rewrite <- E3 in Eh.
  destruct (Hd (dev w3)) as [v Ev].
  assert (Ed : hw_destroy w3 = set_power (with_hw Deleted) (mkWorld (disp w3) (cm w3) v)).
  { unfold hw_destroy. rewrite (st_bind_Ret _ _ _ _ _ eq_refl). cbv beta. rewrite Eh.
    rewrite (st_bind_Ret _ _ _ tt (mkWorld (disp w3) (cm w3) v)); [done|]. unfold in_dev. by rewrite Ev. }
  by rewrite (st_bind_Ret _ _ _ _ _ Ed).
Qed.
End Claims.

(** C21: Preparing a frame does not go on for ever: with a resource manager, an
    extension library and a device whose calls come to an end, and the manager unlocked
    at the start, the [while (true)] of
    Prepare, which validates one strategy after another, makes at most one
    turn more than there are strategies left (with any more turns allowed it
    does the same), Prepare as a whole comes to an end, and where it returns
    the resource manager is unlocked. That nothing undefined happens on
    the way, such as a rectangle too large for its conversion to int, is not claimed here. *)
Theorem prepare_ends {R X V : Type} `{!ResourceIface R, !ResourceLaws R, !ResourceLive R, !Extension X, !ExtensionLive X}
    `{!Device V, !DeviceLive V} ls (w : World R X V) hs : ri_ok (resource_intf_ (cm w)) hs ->
  (forall h a c k, ctxs_ (cm w) !! h = Some c -> let n := S (Z.to_nat (remaining_strategies c)) in
     prepare_loop n h a w <> NoFuel /\ prepare_loop (n + k) h a w = prepare_loop n h a w) /\
  DisplayBase.Prepare ls w <> NoFuel /\
  forall e w', DisplayBase.Prepare ls w = Ret (e, w') -> exists hs', ri_ok (resource_intf_ (cm w')) hs'.
Proof.
  intros Hr. assert (Hw : ready w) by (by exists hs). pose proof (Prepare_frame_ends ls w Hw) as K. split.
  - intros h a c k Hc n. pose proof (prepare_loop_ends h a n w c Hw Hc (Nat.lt_succ_diag_r _)) as L.
    assert (prepare_loop n h a w <> NoFuel) by (by intros E; rewrite E in L). split; [done|]. by apply prepare_loop_more.
  - destruct (DisplayBase.Prepare ls w) as [[e w']| |]; [|done..]. split; [done|]. by intros ?? [= <- <-].
Qed.

(** C18: After a commit every release fence the hardware returned is accounted for: each
    descriptor that is open besides the others of the process belongs to exactly
    one of the layers that were shown, so that the fences of a layer shown by
    several pipes are closed, once each; and if no merge failed, the fence of a
    layer waits for just what the fences of its pipes waited for. A merge that fails is
    not noticed by the code: the layer's fence then waits for only a part of it.
    The frame has to be that of the display, with an index in range for each
    hardware layer, and the hardware's fences distinct open descriptors. *)
Theorem fences_conserved {R X V : Type} `{!ResourceIface R, !Extension X, !Device V, !FenceLaws V}
    (w : World R X V) f base :
  frames (env (cm w)) !! hw_layers_ (disp w) = Some f ->
  (length (hw_stack f) <= length (index f))%nat ->
  Forall (fun i => 0 <= i < length (layers (stack f))) (take (length (hw_stack f)) (index f)) ->
  holds w base (pending (hw_stack f)) ->
  exists w' f' ix, PostCommitLayerParams w = Ret (tt, w') /\ frames (env (cm w')) !! hw_layers_ (disp w) = Some f' /\
    length (layers (stack f')) = length (layers (stack f)) /\
    NoDup ix /\ (forall i, i ∈ ix <-> i ∈ take (length (hw_stack f)) (index f)) /\
    holds w' base (owned (layers (stack f')) ix) /\ failed (dev w) <= failed (dev w') /\
    forall i l, i ∈ ix -> layers (stack f') !! Z.to_nat i = Some l ->
      waits (fences (dev w')) (release l) ⊆ gathered w (index f) (hw_stack f) i /\
      (failed (dev w') = failed (dev w) ->
       waits (fences (dev w')) (release l) = gathered w (index f) (hw_stack f) i).
Proof.
  intros Hf Hlen Hix Hh.
  assert (Ef : the_frame w = Ret (f, w)).
  { unfold the_frame. rewrite (st_bind_Ret _ _ _ _ _ eq_refl). unfold in_cm, in_env, get_frame. rewrite Hf.
    destruct w as [d g v]. by destruct g as [? []]. }
  unfold PostCommitLayerParams. rewrite (st_bind_Ret _ _ _ _ _ Ef).
  destruct (release_layers_holds base (hw_stack f) (layers (stack f)) (index f) [] w Hlen Hix (NoDup_nil_2) Hh)
    as (ls' & hwls' & w' & E & Ed & Ec & El & H' & Hf' & Ha).
  rewrite (st_bind_Ret _ _ _ _ _ E). eexists _, _, (seen (index f) (length (hw_stack f)) []).
  split; [reflexivity|]. cbn. rewrite Ed. split; [apply lookup_insert_eq|]. split; [done|].
  destruct (seen_spec (length (hw_stack f)) (index f) [] (NoDup_nil_2)) as [S1 S2].
  split; [done|]. split; [intros i; rewrite S2; set_solver|]. split_and!; [done|done|]. intros i l Hi Hl.
  assert (Hi0 : 0 <= i).
  { apply S2 in Hi as [?|Hi]; [set_solver|]. rewrite Forall_forall in Hix. by apply Hix. }
  specialize (Ha i l Hi0 Hi Hl). unfold before in Ha. rewrite decide_False, union_empty_l_L in Ha by set_solver. exact Ha.
Qed.

(** *** Witnesses *)
Definition w0 : World RD unit Dev := fresh_display kPrimary false.
Lemma shown_run : run_all props1 shown (mkWorld (new_DisplayBase kPrimary 100) CompProps.start1 (mkDev ∅ false)) = Ret (tt, display1).
Proof. vm_compute. reflexivity. Defined.
Definition dozing : World RD unit Dev := last (DisplayBase.SetDisplayState props1 kStateDozeSuspend display1).
Lemma dozing_run : DisplayBase.SetDisplayState props1 kStateDozeSuspend display1 = Ret (kErrorNone, dozing).
Proof. vm_compute. reflexivity. Defined.
Lemma power_states_witness : active_ (power (disp display1)) = active_in kPrimary (state_ (power (disp display1))) /\
  state_ (power (disp dozing)) = kStateDozeSuspend /\ active_ (power (disp dozing)) = false.
Proof.
  destruct (power_states props1 kPrimary 100 CompProps.start1 (mkDev ∅ false) shown display1 shown_run) as [H1 H2].
  split; [exact H1|]. exact (H2 kStateDozeSuspend kErrorNone dozing dozing_run).
Defined.

(** The hardware rejects the next frame. *)
Definition rejecting : World RD unit Dev :=
  last (put_the_frame (avr_frame false) (mkWorld (disp display1) (cm display1) (mkDev ∅ true))).
Definition rejected : World RD unit Dev := last (prepare_of kPrimary (Some CompProps.stack1) rejecting).
Lemma rejected_run : prepare_of kPrimary (Some CompProps.stack1) rejecting = Ret (kErrorUndefined, rejected).
Proof. vm_compute. reflexivity. Defined.
Definition later : list dop := [DSetVSyncState true; DSetColorMode "hal_srgb"; DSetDisplayState kStateOff; DSetDisplayState kStateOn].
Definition after : World RD unit Dev := last (run_all props1 later rejected).
Lemma after_run : run_all props1 later rejected = Ret (tt, after).
Proof. vm_compute. reflexivity. Defined.
Definition frame_after : Frame := match the_frame after with Ret (f, _) => f | _ => frame0 end.
Lemma frame_after_read : the_frame after = Ret (frame_after, after).
Proof. vm_compute. reflexivity. Defined.
Lemma refreshes_after : refreshes frame_after (Some CompProps.stack1) after (dev after).
Proof. vm_compute. first [reflexivity|eexists _, _, _; repeat split; reflexivity]. Defined.
Lemma later_ok : Forall no_prepare later.
Proof. by repeat apply Forall_cons_2. Defined.
Lemma commit_gated_witness : exists e' w3, commit_of kPrimary (Some CompProps.stack1) after = Ret (e', w3) /\
  e' <> kErrorNone /\ dev w3 = dev after /\ cm w3 = cm after.
Proof.
  exact (commit_gated props1 kPrimary (Some CompProps.stack1) rejecting rejected kErrorUndefined rejected_run
    ltac:(discriminate) later after (Some CompProps.stack1) later_ok after_run frame_after (dev after) frame_after_read
    refreshes_after).
Defined.

Definition colored : World RD unit Dev :=
  mkWorld (mkD kPrimary 100 (power (disp w0)) (conf (disp w0)) (update (disp w0)) (mkColor true 0 [] ∅ [] "" false false)
    (derived (disp w0))) (cm w0) (dev w0).
Definition colored' : World RD unit Dev := last (InitializeColorModes colored).
Lemma colored_run : InitializeColorModes colored = Ret (kErrorNone, colored').
Proof. vm_compute. reflexivity. Defined.
Lemma color_srgb : mode_map colored' !! "hal_srgb" = Some 1%nat.
Proof. vm_compute. reflexivity. Defined.
Lemma color_mode_largest_witness : exists m, modes colored' !! 1%nat = Some m /\ mode_name m = "hal_srgb" /\
  SetColorModeInternal "hal_srgb" colored' = in_dev (K_SetMode (mode_id m)) colored' /\
  forall k x, (k < Z.to_nat (count colored'))%nat -> modes colored' !! k = Some x -> mode_name x = "hal_srgb" ->
    mode_id x <= mode_id m /\ ((k < 1)%nat -> mode_id x < mode_id m).
Proof.
  pose proof (color_mode_largest colored colored' "hal_srgb" eq_refl eq_refl colored_run) as K.
  rewrite color_srgb in K. exact K.
Defined.

Definition hdmi0 (b : bool) : World RD unit Dev := last (hw_create (fresh_display kHDMI b)).
Definition hdmi_modes : list HWDisplayAttributes := [CompProps.attributes1; hdmi_mode 1; hdmi_mode 2].
Lemma hdmi_count : hw (H_GetNumDisplayAttributes 0) (hdmi0 false) = Ret ((kErrorNone, 3), hdmi0 false).
Proof. vm_compute. reflexivity. Defined.
Lemma hdmi_read : read_modes 0 3 (hdmi0 false) = Ret (hdmi_modes, hdmi0 false).
Proof. vm_compute. reflexivity. Defined.
Lemma best_config_witness : exists r a, GetBestConfig props1 1 (hdmi0 false) = Ret (Z.of_nat r, hdmi0 false) /\
  hdmi_modes !! r = Some a /\ has_s3d 1 a = true /\
  forall k b, hdmi_modes !! k = Some b -> has_s3d 1 b = true -> better b a = false /\ ((k < r)%nat -> better a b = true).
Proof.
  apply (best_config props1 1 (hdmi0 false) (hdmi0 false) (hdmi0 false) kErrorNone 3 hdmi_modes eq_refl hdmi_count hdmi_read).
  by exists 1%nat, (hdmi_mode 1).
Defined.

Lemma hdmi_use_after_destroy_witness : HDMI_Init props1 (fresh_display kHDMI true) = Undef.
Proof.
  apply (hdmi_use_after_destroy props1 (fresh_display kHDMI true) (hdmi0 true) (hdmi0 true) (hdmi0 true) 2 kErrorHardware);
    [intros v; by exists v|vm_compute; reflexivity..|discriminate].
Defined.

(** The display over the manager that has shown one frame. *)
Definition again : World RD unit Dev := last (put_the_frame frame0 (mkWorld (disp display1) CompProps.state1 (mkDev ∅ false))).
Lemma again_res : resource_intf_ (cm again) = resource_intf_ CompProps.state1.
Proof. vm_compute. reflexivity. Defined.
Definition again' : World RD unit Dev := last (DisplayBase.Prepare (Some CompProps.stack1) again).
Lemma again_run : DisplayBase.Prepare (Some CompProps.stack1) again = Ret (kErrorNone, again').
Proof. vm_compute. reflexivity. Defined.
Lemma prepare_ends_witness : exists w' hs', DisplayBase.Prepare (Some CompProps.stack1) again = Ret (kErrorNone, w') /\
    ri_ok (ResourceLaws := CompProps.laws0) (resource_intf_ (cm w')) hs'.
Proof.
  destruct (CompProps.reachable_ok 2 CompProps.info1 CompProps.state1 CompProps.state1_reachable) as [hs Hk].
  destruct (prepare_ends (Some CompProps.stack1) again hs) as (_ & _ & H); [rewrite again_res; exact (CompInv.ok_res _ _ Hk)|].
  destruct (H kErrorNone again' again_run) as [hs' Hs]. exists again', hs'. split; [exact again_run|exact Hs].
Defined.

(** One layer shown by two pipes, with a fence for each. *)
Definition fenced : Frame :=
  set_hw (replicate 16 0) [with_release 5 (CompProps.layer1 kCompositionSDE);
    with_release 6 (CompProps.layer1 kCompositionSDE)] CompProps.frame1.
Definition shown2 : World RD unit Dev := last (put_the_frame fenced (mkWorld (disp display1) CompProps.state1 (mkDev {[5 := {[50]}; 6 := {[60]}; 9 := {[90]}]} false))).
Lemma shown2_fences : holds shown2 {[9]} [5; 6].
Proof.
  split; [apply NoDup_cons; split; [set_solver|apply NoDup_singleton]|]. intros y. split; [set_solver|].
  change (is_Some (({[5 := {[50]}; 6 := {[60]}; 9 := {[90]}]} : gmap Z (gset Z)) !! y) <-> y ∈ ({[9]} : gset Z) \/ y ∈ [5; 6]).
  rewrite !lookup_insert_is_Some', lookup_singleton_is_Some. set_solver.
Defined.
Lemma shown2_frame : frames (env (cm shown2)) !! hw_layers_ (disp shown2) = Some fenced.
Proof. vm_compute. reflexivity. Defined.
Lemma shown2_index : Forall (fun i => 0 <= i < length (layers (stack fenced))) (take (length (hw_stack fenced)) (index fenced)).
Proof. repeat (apply Forall_cons_2; [vm_compute; split; [discriminate|reflexivity]|]). apply Forall_nil_2. Defined.
Lemma fences_conserved_witness : exists w' f' ix, PostCommitLayerParams shown2 = Ret (tt, w') /\
  frames (env (cm w')) !! hw_layers_ (disp shown2) = Some f' /\ length (layers (stack f')) = 2%nat /\
  NoDup ix /\ (forall i, i ∈ ix <-> i ∈ [0; 0]) /\ holds w' {[9]} (owned (layers (stack f')) ix) /\
  forall l, layers (stack f') !! 0%nat = Some l -> waits (fences (dev w')) (release l) = {[50; 60]}.
Proof.
  destruct (fences_conserved shown2 fenced {[9]} shown2_frame ltac:(vm_compute; lia) shown2_index shown2_fences)
    as (w' & f' & ix & H1 & H2 & H3 & H4 & H5 & H6 & _ & H7).
  exists w', f', ix. split_and!; [done..|]. intros l Hl. rewrite (proj2 (H7 0 l (proj2 (H5 0) ltac:(vm_compute; left)) Hl) eq_refl).
  vm_compute. reflexivity.
Defined.
End DisplayProps.
