(* ===== verification/HwcLayer.v ===== *)
(** The layers of the hardware composer:
    src/hardware/qcom-caf/display/sdm/libs/hwc2/hwc_layers.cpp.

    An HWCLayer turns the calls of the HWC2 interface into the Layer object that
    SDM sees and remembers what has changed since the last frame.  The buffers, their
    metadata and the descriptors of the process are the class [Gralloc], with a
    state of its own.  The constants of the platform's headers are the class
    [Hal]. *)
From S2P Require Import Prelude Rect ResourceDefault MetaData GrUtils Alloc BufMgr Strategy.
#[local] Open Scope Z_scope.

Module HwcLayer.
Import Float32 Rect Formats.
Import GrUtils.

(** * Types of the HWC2 interface *)
Inductive Error :=
| ENone | BadConfig | BadDisplay | BadLayer | BadParameter | HasChanges | NoResources | NotValidated | Unsupported.
#[global] Instance Error_eq_dec : EqDecision Error.
Proof. solve_decision. Defined.
(** A composition type; a client may pass any integer. *)
Inductive HComposition := Invalid | Client | Device | SolidColor | Cursor | Sideband | OtherComposition (n : Z).
#[global] Instance HComposition_eq_dec : EqDecision HComposition.
Proof. solve_decision. Defined.
Inductive BlendMode := BlendInvalid | BlendNone | BlendPremultiplied | BlendCoverage | OtherBlend (n : Z).
Inductive Transform :=
| TNone | FlipH | FlipV | Rotate90 | Rotate180 | Rotate270 | FlipHRotate90 | FlipVRotate90 | OtherTransform (n : Z).
(** hwc_rect_t, hwc_frect_t and hwc_color_t. *)
Record IRect := mkIRect { il : Z; it : Z; ir : Z; ib : Z }.
Record HColor := mkHColor { hr : Z; hg : Z; hb : Z; ha : Z }.

(** The constants of the platform's graphics headers. *)
Class Hal := {
  DATASPACE_UNKNOWN : Z;
  STANDARD_MASK : Z; TRANSFER_MASK : Z; RANGE_MASK : Z;
  STANDARD_BT709 : Z; STANDARD_BT601_525 : Z; STANDARD_BT601_525_UNADJUSTED : Z; STANDARD_BT601_625 : Z;
  STANDARD_BT601_625_UNADJUSTED : Z; STANDARD_DCI_P3 : Z; STANDARD_BT2020 : Z;
  TRANSFER_SRGB : Z; TRANSFER_SMPTE_170M : Z; TRANSFER_ST2084 : Z; TRANSFER_HLG : Z; TRANSFER_LINEAR : Z;
  TRANSFER_GAMMA2_2 : Z;
  RANGE_FULL : Z; RANGE_LIMITED : Z;
  DATASPACE_SRGB : Z; DATASPACE_JFIF : Z; DATASPACE_SRGB_LINEAR : Z; DATASPACE_BT601_625 : Z; DATASPACE_BT601_525 : Z;
  DATASPACE_BT709 : Z;
  V0_SRGB : Z; V0_JFIF : Z; V0_SRGB_LINEAR : Z; V0_BT601_625 : Z; V0_BT601_525 : Z; V0_BT709 : Z
}.

(** BufferInfo: the request and the buffer that was allocated. *)
Record BufferInfo := mkBufferInfo {
  bi_width : Z; bi_height : Z; bi_format : LayerBufferFormat; buffer_count : Z;
  bi_fd : Z; bi_stride : Z; aligned_width : Z; aligned_height : Z; bi_size : Z
}.
#[global] Instance eta_buffer_info : Eta BufferInfo := fun b =>
  mkBufferInfo (bi_width b) (bi_height b) (bi_format b) (buffer_count b) (bi_fd b) (bi_stride b) (aligned_width b)
    (aligned_height b) (bi_size b).
Definition BufferInfo0 : BufferInfo := mkBufferInfo 0 0 kFormatInvalid 0 (-1) 0 0 0 0.

(** What the composer uses of gralloc and of the process.  The value of a metadata
    parameter is its words; a property that is not set is [None]. *)
Class Gralloc (G : Type) := {
  G_handle : Z -> St G MetaData.private_handle_t;
  G_getMetaData : Z -> MetaData.DispFetchParamType -> St G (Z * list Z);
  G_GetCustomWidthAndHeight : Z -> St G (Z * Z);
  G_GetAlignedWidthAndHeight : Z -> Z -> Z -> Z -> St G (Z * Z);
  G_dup : Z -> St G Z;
  G_close : Z -> St G unit;
  G_sync_wait : Z -> St G Z;
  G_AllocateBuffer : BufferInfo -> St G (bool * BufferInfo);
  G_FreeBuffer : BufferInfo -> St G bool;
  G_mmap : Z -> Z -> St G (option Z);                      (* size, descriptor *)
  G_munmap : Z -> Z -> St G Z;
  G_MapBuffer : Z -> St G bool;
  G_UnmapBuffer : Z -> St G bool;
  G_GetProperty : string -> St G (option Z);
  G_property_get : string -> string -> St G string;
  G_dump : St G unit;
  G_dump_output : BufferInfo -> Z -> Z -> St G unit        (* base, fence *)
}.

(** * The Layer object of SDM *)
Definition ColorPrimaries_BT709_5 : Z := 1.
Definition ColorPrimaries_BT601_6_625 : Z := 5.
Definition ColorPrimaries_BT601_6_525 : Z := 6.
Definition ColorPrimaries_BT2020 : Z := 9.
Definition ColorPrimaries_DCIP3 : Z := 12.
Definition Transfer_sRGB : Z := 1.
Definition Transfer_Gamma2_2 : Z := 4.
Definition Transfer_SMPTE_170M : Z := 6.
Definition Transfer_Linear : Z := 8.
Definition Transfer_SMPTE_ST2084 : Z := 16.
Definition Transfer_HLG : Z := 18.
Definition Range_Limited : Z := 0.
Definition Range_Full : Z := 1.

(** The words of a ColorMetaData after the first three are copied whole. *)
Record ColorMetaData := mkColorMetaData { colorPrimaries : Z; range : Z; transfer : Z; color_rest : list Z }.
#[global] Instance eta_color : Eta ColorMetaData := fun c => mkColorMetaData (colorPrimaries c) (range c) (transfer c) (color_rest c).
Definition ColorMetaData0 : ColorMetaData := mkColorMetaData 0 0 0 [].
Definition color_of_words (l : list Z) : ColorMetaData :=
  mkColorMetaData (nth 0 l 0) (nth 1 l 0) (nth 2 l 0) (drop 3 l).

Inductive LayerIGC := kIGCNotSpecified | kIGCsRGB.
#[global] Instance LayerIGC_eq_dec : EqDecision LayerIGC.
Proof. solve_decision. Defined.
Inductive LayerBufferS3DFormat := kS3dFormatNone | kS3dFormatLeftRight | kS3dFormatRightLeft | kS3dFormatTopBottom | kS3dFormatFramePacking.
#[global] Instance S3DFormat_eq_dec : EqDecision LayerBufferS3DFormat.
Proof. solve_decision. Defined.
Inductive LayerBlending := kBlendingPremultiplied | kBlendingOpaque | kBlendingCoverage.
#[global] Instance LayerBlending_eq_dec : EqDecision LayerBlending.
Proof. solve_decision. Defined.

Record BufferFlags := mkBFlags {
  secure : bool; video : bool; interlace : bool; secure_display : bool; secure_camera : bool; hdr : bool
}.
#[global] Instance eta_bflags : Eta BufferFlags := fun f =>
  mkBFlags (secure f) (video f) (interlace f) (secure_display f) (secure_camera f) (hdr f).
Record Buffer := mkHBuffer {
  width : Z; height : Z; unaligned_width : Z; unaligned_height : Z; size : Z; bformat : LayerBufferFormat;
  color_metadata : ColorMetaData; igc : LayerIGC; plane_fd : Z; plane_offset : Z; plane_stride : Z;
  acquire_fence_fd : Z; release_fence_fd : Z; bflags : BufferFlags; s3d_format : LayerBufferS3DFormat; buffer_id : Z
}.
#[global] Instance eta_buffer : Eta Buffer := fun b =>
  mkHBuffer (width b) (height b) (unaligned_width b) (unaligned_height b) (size b) (bformat b) (color_metadata b) (igc b)
    (plane_fd b) (plane_offset b) (plane_stride b) (acquire_fence_fd b) (release_fence_fd b) (bflags b) (s3d_format b) (buffer_id b).
Definition Buffer0 : Buffer :=
  mkHBuffer 0 0 0 0 0 kFormatRGBA8888 ColorMetaData0 kIGCNotSpecified (-1) 0 0 (-1) (-1)
    (mkBFlags false false false false false false) kS3dFormatNone 0.

Record LayerTransform := mkTransform { rotation : float; flip_horizontal : bool; flip_vertical : bool }.
#[global] Instance eta_transform : Eta LayerTransform := fun t => mkTransform (rotation t) (flip_horizontal t) (flip_vertical t).
Definition eq_transform (a b : LayerTransform) : bool :=
  feq (rotation a) (rotation b) && Bool.eqb (flip_horizontal a) (flip_horizontal b) && Bool.eqb (flip_vertical a) (flip_vertical b).
Definition eq_rect (a b : LayerRect) : bool :=
  feq (left a) (left b) && feq (right a) (right b) && feq (top a) (top b) && feq (bottom a) (bottom b).

Record LayerFlags := mkLFlags { skip : bool; updating : bool; solid_fill : bool; cursor : bool; single_buffer : bool }.
#[global] Instance eta_lflags : Eta LayerFlags := fun f => mkLFlags (skip f) (updating f) (solid_fill f) (cursor f) (single_buffer f).
Definition LayerFlags0 : LayerFlags := mkLFlags false false false false false.
Record RequestFlags := mkRFlags { tone_map : bool; rq_secure : bool; flip_buffer : bool }.
Definition RequestFlags0 : RequestFlags := mkRFlags false false false.
(** [blit_regions] and [lut_3d] are not touched by this code. *)
Record Layer := mkHLayer {
  input_buffer : Buffer; composition : Strategy.Composition; src_rect : LayerRect; dst_rect : LayerRect;
  visible_regions : list LayerRect; dirty_regions : list LayerRect; blending : LayerBlending; transform : LayerTransform;
  plane_alpha : Z; frame_rate : Z; solid_fill_color : Z; lflags : LayerFlags; request : RequestFlags
}.
#[global] Instance eta_layer : Eta Layer := fun l =>
  mkHLayer (input_buffer l) (composition l) (src_rect l) (dst_rect l) (visible_regions l) (dirty_regions l) (blending l)
    (transform l) (plane_alpha l) (frame_rate l) (solid_fill_color l) (lflags l) (request l).
Definition Layer0 : Layer :=
  mkHLayer Buffer0 Strategy.kCompositionGPU LayerRect0 LayerRect0 [] [] kBlendingPremultiplied
    (mkTransform f_zero false false) 255 0 0 LayerFlags0 RequestFlags0.

(** * HWCLayer *)
Definition kBlendMode : Z := 0x001.
Definition kDataspace : Z := 0x002.
Definition kDisplayFrame : Z := 0x004.
Definition kPlaneAlpha : Z := 0x008.
Definition kSourceCrop : Z := 0x010.
Definition kTransform : Z := 0x020.
Definition kZOrder : Z := 0x040.
Definition kAdded : Z := 0x080.
Definition kRemoved : Z := 0x100.
Definition kBufferGeometry : Z := 0x200.

Record HWCLayer := mkHWCLayer {
  layer_ : Layer; z_ : Z; id_ : Z; release_fences_ : list Z; ion_fd_ : Z; dataspace_ : Z; needs_validate_ : bool;
  non_integral_source_crop_ : bool; client_requested_ : HComposition; device_selected_ : HComposition; geometry_changes_ : Z
}.
#[global] Instance eta_hwclayer : Eta HWCLayer := fun h =>
  mkHWCLayer (layer_ h) (z_ h) (id_ h) (release_fences_ h) (ion_fd_ h) (dataspace_ h) (needs_validate_ h)
    (non_integral_source_crop_ h) (client_requested_ h) (device_selected_ h) (geometry_changes_ h).

Section HwcLayer.
Context `{!Platform, !Hal}.

(** The constructor; [i] is the next identifier. *)
Definition new_HWCLayer (i : Z) : HWCLayer :=
  mkHWCLayer Layer0 0 i [-1] (-1) DATASPACE_UNKNOWN true false Device Device 0.

Definition changed (bit : Z) (h : HWCLayer) : HWCLayer := h <| geometry_changes_ ::= Z.lor bit |>.
Definition on_layer (f : Layer -> Layer) (h : HWCLayer) : HWCLayer := h <| layer_ ::= f |>.
Definition on_buffer (f : Buffer -> Buffer) (h : HWCLayer) : HWCLayer := on_layer (fun l => l <| input_buffer ::= f |>) h.

(** ** Colour spaces *)
Definition GetColorPrimary (dataspace : Z) (old : Z) : bool * Z :=
  let standard := Z.land dataspace STANDARD_MASK in
  if standard =? STANDARD_BT709 then (true, ColorPrimaries_BT709_5)
  else if (standard =? STANDARD_BT601_525) || (standard =? STANDARD_BT601_525_UNADJUSTED) then (true, ColorPrimaries_BT601_6_525)
  else if (standard =? STANDARD_BT601_625) || (standard =? STANDARD_BT601_625_UNADJUSTED) then (true, ColorPrimaries_BT601_6_625)
  else if standard =? STANDARD_DCI_P3 then (true, ColorPrimaries_DCIP3)
  else if standard =? STANDARD_BT2020 then (true, ColorPrimaries_BT2020)
  else (false, old).
Definition GetTransfer (dataspace : Z) (old : Z) : bool * Z :=
  let t := Z.land dataspace TRANSFER_MASK in
  if t =? TRANSFER_SRGB then (true, Transfer_sRGB)
  else if t =? TRANSFER_SMPTE_170M then (true, Transfer_SMPTE_170M)
  else if t =? TRANSFER_ST2084 then (true, Transfer_SMPTE_ST2084)
  else if t =? TRANSFER_HLG then (true, Transfer_HLG)
  else if t =? TRANSFER_LINEAR then (true, Transfer_Linear)
  else if t =? TRANSFER_GAMMA2_2 then (true, Transfer_Gamma2_2)
  else (false, old).
Definition GetRange (dataspace : Z) (old : Z) : Z :=
  let r := Z.land dataspace RANGE_MASK in
  if r =? RANGE_FULL then Range_Full else if r =? RANGE_LIMITED then Range_Limited else old.
Definition IsBT2020 (p : Z) : bool := p =? ColorPrimaries_BT2020.

(** Whether the data space is supported, and the colours after the call. *)
Definition GetSDMColorSpace (dataspace : Z) (c : ColorMetaData) : bool * ColorMetaData :=
  let '(valid, p) := GetColorPrimary dataspace (colorPrimaries c) in
  let c := c <| colorPrimaries := p |> in
  if negb valid then (false, c)
  else
    let '(valid, t) := GetTransfer dataspace (transfer c) in
    let c := c <| transfer := t |> in
    if negb valid then (false, c) else (true, c <| range ::= GetRange dataspace |>).

(** ** Formats *)
Definition GetSDMFormat (source flags : Z) : LayerBufferFormat :=
  if negb (Z.land flags PRIV_FLAGS_UBWC_ALIGNED =? 0) then
    match hal_format source with
    | HAL_PIXEL_FORMAT_RGBA_8888 => kFormatRGBA8888Ubwc
    | HAL_PIXEL_FORMAT_RGBX_8888 => kFormatRGBX8888Ubwc
    | HAL_PIXEL_FORMAT_BGR_565 => kFormatBGR565Ubwc
    | HAL_PIXEL_FORMAT_YCbCr_420_SP_VENUS | HAL_PIXEL_FORMAT_YCbCr_420_SP_VENUS_UBWC
    | HAL_PIXEL_FORMAT_NV12_ENCODEABLE => kFormatYCbCr420SPVenusUbwc
    | HAL_PIXEL_FORMAT_RGBA_1010102 => kFormatRGBA1010102Ubwc
    | HAL_PIXEL_FORMAT_RGBX_1010102 => kFormatRGBX1010102Ubwc
    | HAL_PIXEL_FORMAT_YCbCr_420_TP10_UBWC => kFormatYCbCr420TP10Ubwc
    | HAL_PIXEL_FORMAT_YCbCr_420_P010_UBWC => kFormatYCbCr420P010Ubwc
    | _ => kFormatInvalid
    end
  else
    match hal_format source with
    | HAL_PIXEL_FORMAT_RGBA_8888 => kFormatRGBA8888
    | HAL_PIXEL_FORMAT_RGBA_5551 => kFormatRGBA5551
    | HAL_PIXEL_FORMAT_RGBA_4444 => kFormatRGBA4444
    | HAL_PIXEL_FORMAT_BGRA_8888 => kFormatBGRA8888
    | HAL_PIXEL_FORMAT_RGBX_8888 => kFormatRGBX8888
    | HAL_PIXEL_FORMAT_BGRX_8888 => kFormatBGRX8888
    | HAL_PIXEL_FORMAT_RGB_888 => kFormatRGB888
    | HAL_PIXEL_FORMAT_BGR_888 => kFormatBGR888
    | HAL_PIXEL_FORMAT_RGB_565 => kFormatRGB565
    | HAL_PIXEL_FORMAT_BGR_565 => kFormatBGR565
    | HAL_PIXEL_FORMAT_NV12_ENCODEABLE | HAL_PIXEL_FORMAT_YCbCr_420_SP_VENUS => kFormatYCbCr420SemiPlanarVenus
    | HAL_PIXEL_FORMAT_YCrCb_420_SP_VENUS => kFormatYCrCb420SemiPlanarVenus
    | HAL_PIXEL_FORMAT_YCbCr_420_SP_VENUS_UBWC => kFormatYCbCr420SPVenusUbwc
    | HAL_PIXEL_FORMAT_YV12 => kFormatYCrCb420PlanarStride16
    | HAL_PIXEL_FORMAT_YCrCb_420_SP => kFormatYCrCb420SemiPlanar
    | HAL_PIXEL_FORMAT_YCbCr_420_SP => kFormatYCbCr420SemiPlanar
    | HAL_PIXEL_FORMAT_YCbCr_422_SP => kFormatYCbCr422H2V1SemiPlanar
    | HAL_PIXEL_FORMAT_YCbCr_422_I => kFormatYCbCr422H2V1Packed
    | HAL_PIXEL_FORMAT_CbYCrY_422_I => kFormatCbYCrY422H2V1Packed
    | HAL_PIXEL_FORMAT_RGBA_1010102 => kFormatRGBA1010102
    | HAL_PIXEL_FORMAT_ARGB_2101010 => kFormatARGB2101010
    | HAL_PIXEL_FORMAT_RGBX_1010102 => kFormatRGBX1010102
    | HAL_PIXEL_FORMAT_XRGB_2101010 => kFormatXRGB2101010
    | HAL_PIXEL_FORMAT_BGRA_1010102 => kFormatBGRA1010102
    | HAL_PIXEL_FORMAT_ABGR_2101010 => kFormatABGR2101010
    | HAL_PIXEL_FORMAT_BGRX_1010102 => kFormatBGRX1010102
    | HAL_PIXEL_FORMAT_XBGR_2101010 => kFormatXBGR2101010
    | HAL_PIXEL_FORMAT_YCbCr_420_P010 => kFormatYCbCr420P010
    | HAL_PIXEL_FORMAT_YCbCr_420_TP10_UBWC => kFormatYCbCr420TP10Ubwc
    | HAL_PIXEL_FORMAT_YCbCr_420_P010_UBWC => kFormatYCbCr420P010Ubwc
    | _ => kFormatInvalid
    end.

Definition GetS3DFormat (s3d : Z) : LayerBufferS3DFormat :=
  if s3d =? 1 then kS3dFormatLeftRight
  else if s3d =? 2 then kS3dFormatRightLeft
  else if s3d =? 4 then kS3dFormatTopBottom
  else kS3dFormatNone.

(** [None] is kErrorNotSupported. *)
Definition SetIGC (source : Z) : option LayerIGC :=
  if source =? 0 then Some kIGCNotSpecified else if source =? 1 then Some kIGCsRGB else None.

(** The float with the given representation. *)
Definition float_of_bits (b : Z) : float :=
  let s := Z.testbit b 31 in
  let e := Z.land (Z.shiftr b 23) 255 in
  let m := Z.land b (2 ^ 23 - 1) in
  if e =? 255 then (if m =? 0 then SpecFloat.S754_infinity s else SpecFloat.S754_nan)
  else if e =? 0 then (match m with Zpos p => SpecFloat.S754_finite s p (-149) | _ => SpecFloat.S754_zero s end)
  else match m + 2 ^ 23 with Zpos p => SpecFloat.S754_finite s p (e - 150) | _ => SpecFloat.S754_zero s end.

Definition standard_fps : list Z := [24; 30; 48; 60].
(** The first standard rate at most one above; the subtraction is unsigned. *)
Fixpoint round_fps (l : list Z) (frame_rate : Z) : Z :=
  match l with
  | [] => frame_rate
  | f :: l => if u32 (f - frame_rate) <? 2 then f else round_fps l frame_rate
  end.
Definition RoundToStandardFPS (fps : float) : outcome Z :=
  frame_rate ← UINT32 fps; Ret (round_fps standard_fps frame_rate).

(** ** Rectangles and colours *)
Definition floorf (f : float) : float := SpecFloat.SFopp (ceilf (SpecFloat.SFopp f)).
Definition SetRect (r : IRect) : LayerRect := mkRect (FLOAT (il r)) (FLOAT (it r)) (FLOAT (ir r)) (FLOAT (ib r)).
Definition SetFRect (r : LayerRect) : LayerRect := mkRect (ceilf (left r)) (ceilf (top r)) (floorf (right r)) (floorf (bottom r)).
Definition GetUint32Color (c : HColor) : Z :=
  Z.lor (Z.lor (Z.lor (u32 (Z.shiftl (ha c) 24)) (u32 (Z.shiftl (hr c) 16))) (u32 (Z.shiftl (hg c) 8))) (hb c).

(** ** Setters: the error and the layer after the call *)
Definition SetLayerBlendMode (mode : BlendMode) (h : HWCLayer) : Error * HWCLayer :=
  let set b := (ENone, if decide (blending (layer_ h) <> b)
                       then on_layer (fun l => l <| blending := b |>) (changed kBlendMode h) else h) in
  match mode with
  | BlendCoverage => set kBlendingCoverage
  | BlendPremultiplied => set kBlendingPremultiplied
  | BlendNone => set kBlendingOpaque
  | _ => (BadParameter, h)
  end.

Definition SetLayerColor (c : HColor) (h : HWCLayer) : Error * HWCLayer :=
  if decide (client_requested_ h <> SolidColor) then (ENone, h)
  else (ENone, on_buffer (fun b => b <| bformat := kFormatARGB8888 |>)
                 (on_layer (fun l => l <| solid_fill_color := GetUint32Color c |>) h)).

Definition SetLayerCompositionType (type : HComposition) (h : HWCLayer) : Error * HWCLayer :=
  let h := h <| client_requested_ := type |> in
  match type with
  | Client | Device | SolidColor | Cursor => (ENone, h)
  | Invalid => (BadParameter, h)
  | _ => (Unsupported, h)
  end.

(** The deprecated values are replaced. *)
Definition legacy_dataspace (d : Z) : Z :=
  let l := Z.land d 0xffff in
  if l =? 0 then d
  else if l =? DATASPACE_SRGB then V0_SRGB
  else if l =? DATASPACE_JFIF then V0_JFIF
  else if l =? DATASPACE_SRGB_LINEAR then V0_SRGB_LINEAR
  else if l =? DATASPACE_BT601_625 then V0_BT601_625
  else if l =? DATASPACE_BT601_525 then V0_BT601_525
  else if l =? DATASPACE_BT709 then V0_BT709
  else d.
Definition SetLayerDataspace (dataspace : Z) (h : HWCLayer) : Error * HWCLayer :=
  let d := legacy_dataspace dataspace in
  (ENone, if negb (dataspace_ h =? d) then changed kDataspace h <| dataspace_ := d |> else h).

Definition SetLayerDisplayFrame (frame : IRect) (h : HWCLayer) : Error * HWCLayer :=
  let r := SetRect frame in
  (ENone, if negb (eq_rect (dst_rect (layer_ h)) r)
          then on_layer (fun l => l <| dst_rect := r |>) (changed kDisplayFrame h) else h).

Definition SetCursorPosition (x y : Z) (h : HWCLayer) : outcome (Error * HWCLayer) :=
  let r := dst_rect (layer_ h) in
  w ← INT (fsub (right r) (left r)); right ← int_expr (x + w);
  hh ← INT (fsub (bottom r) (top r)); bottom ← int_expr (y + hh);
  Ret (SetLayerDisplayFrame (mkIRect x y right bottom) h).

Definition SetLayerPlaneAlpha (alpha : float) (h : HWCLayer) : outcome (Error * HWCLayer) :=
  a ← UINT8 (roundf (fmul (FLOAT 255) alpha));
  Ret (ENone, if negb (plane_alpha (layer_ h) =? a)
              then on_layer (fun l => l <| plane_alpha := a |>) (changed kPlaneAlpha h) else h).

Definition SetLayerSourceCrop (crop : LayerRect) (h : HWCLayer) : Error * HWCLayer :=
  let r := SetFRect crop in
  let odd f := negb (feq f (roundf f)) in
  let h := h <| non_integral_source_crop_ := odd (left crop) || odd (top crop) || odd (right crop) || odd (bottom crop) |> in
  (ENone, if negb (eq_rect (src_rect (layer_ h)) r)
          then on_layer (fun l => l <| src_rect := r |>) (changed kSourceCrop h) else h).

Definition transform_of (t : Transform) : LayerTransform :=
  let r90 := FLOAT 90 in
  match t with
  | FlipH => mkTransform f_zero true false
  | FlipV => mkTransform f_zero false true
  | Rotate90 => mkTransform r90 false false
  | Rotate180 => mkTransform f_zero true true
  | Rotate270 => mkTransform r90 true true
  | FlipHRotate90 => mkTransform r90 true false
  | FlipVRotate90 => mkTransform r90 false true
  | TNone | OtherTransform _ => mkTransform f_zero false false
  end.
Definition SetLayerTransform (t : Transform) (h : HWCLayer) : Error * HWCLayer :=
  let tr := transform_of t in
  (ENone, if negb (eq_transform (transform (layer_ h)) tr)
          then on_layer (fun l => l <| transform := tr |>) (changed kTransform h) else h).

Definition SetLayerVisibleRegion (visible : list IRect) (h : HWCLayer) : Error * HWCLayer :=
  (ENone, on_layer (fun l => l <| visible_regions := SetRect <$> visible |>) h).

Definition SetLayerZOrder (z : Z) (h : HWCLayer) : Error * HWCLayer :=
  (ENone, if negb (z_ h =? z) then changed kZOrder h <| z_ := z |> else h).

(** Whether two lists of rectangles of one length differ. *)
Fixpoint rects_differ (a b : list LayerRect) : bool :=
  match a, b with
  | x :: a, y :: b => negb (eq_rect x y) || rects_differ a b
  | _, _ => false
  end.
Definition SetLayerSurfaceDamage (damage : list IRect) (h : HWCLayer) : Error * HWCLayer :=
  let new := SetRect <$> damage in
  let old := dirty_regions (layer_ h) in
  let diff := negb (length old =? length damage)%nat || rects_differ new old in
  let h := if diff then h <| needs_validate_ := true |> else h in
  (ENone, on_layer (fun l => l <| dirty_regions := new |>) h).

Definition SetComposition (c : Strategy.Composition) (h : HWCLayer) : HWCLayer :=
  let t := match c with
           | Strategy.kCompositionGPU => Client
           | Strategy.kCompositionHWCursor => Cursor
           | _ => Device
           end in
  let t := if bool_decide (c = Strategy.kCompositionSDE) && solid_fill (lflags (layer_ h)) then SolidColor else t in
  h <| device_selected_ := t |>.
Definition PushReleaseFence (fence : Z) (h : HWCLayer) : HWCLayer := h <| release_fences_ ::= fun q => q ++ [fence] |>.
Definition PopReleaseFence (h : HWCLayer) : Z * HWCLayer :=
  match release_fences_ h with
  | [] => (-1, h)
  | f :: q => (f, h <| release_fences_ := q |>)
  end.
Definition ResetGeometryChanges (h : HWCLayer) : HWCLayer := h <| geometry_changes_ := 0 |>.
Definition ResetValidation (h : HWCLayer) : HWCLayer := h <| needs_validate_ := false |>.
Definition NeedsValidation (h : HWCLayer) : bool := needs_validate_ h || negb (geometry_changes_ h =? 0).
Definition SupportLocalConversion (working : Z) (h : HWCLayer) : bool :=
  (colorPrimaries (color_metadata (input_buffer (layer_ h))) <=? ColorPrimaries_BT601_6_525) &&
  (working <=? ColorPrimaries_BT601_6_525).

(** ** Calls that read buffers *)
Context {G : Type} `{!Gralloc G}.
Abbreviation word l := (nth 0 l 0).

(** The code of ColorSpace_t: 601, 601_FR, 709, 2020, 2020_FR. *)
Definition SetCSC (handle : Z) (c : ColorMetaData) : St G (bool * ColorMetaData) :=
  '(e, w) ← G_getMetaData handle MetaData.GET_COLOR_METADATA;
  if e =? 0 then mret (true, color_of_words w)
  else
    '(e, w) ← G_getMetaData handle MetaData.GET_COLOR_SPACE;
    if negb (e =? 0) then mret (false, c)
    else
      let csc := word w in
      let c := if (csc =? 1) || (csc =? 4) then c <| range := Range_Full |> else c in
      mret (if (csc =? 0) || (csc =? 1) then (true, c <| colorPrimaries := ColorPrimaries_BT601_6_525 |>)
            else if csc =? 2 then (true, c <| colorPrimaries := ColorPrimaries_BT709_5 |>)
            else if (csc =? 3) || (csc =? 4) then (true, c <| colorPrimaries := ColorPrimaries_BT2020 |>)
            else (false, c)).

(** Whether it succeeded, and the layer. *)
Definition SetMetaData (handle : Z) (h : HWCLayer) : St G (bool * HWCLayer) :=
  let b := input_buffer (layer_ h) in
  '(e, w) ← G_getMetaData handle MetaData.GET_IGC;
  match (if e =? 0 then SetIGC (word w) else Some (igc b)) with
  | None => mret (false, h)
  | Some layer_igc =>
      '(e, w) ← G_getMetaData handle MetaData.GET_REFRESH_RATE;
      rate ← (if e =? 0 then st_lift (RoundToStandardFPS (float_of_bits (word w))) else mret (frame_rate (layer_ h)));
      '(e, w) ← G_getMetaData handle MetaData.GET_PP_PARAM_INTERLACED;
      let inter := (e =? 0) && negb (word w =? 0) in
      '(e, w) ← G_getMetaData handle MetaData.GET_LINEAR_FORMAT;
      let h := if e =? 0 then on_buffer (fun b => b <| bformat := GetSDMFormat (s32 (word w)) 0 |>) h else h in
      '(e, w) ← G_getMetaData handle MetaData.GET_S3D_FORMAT;
      let s3d := if e =? 0 then GetS3DFormat (word w) else s3d_format b in
      if bool_decide (layer_igc <> igc b) || negb (Bool.eqb inter (interlace (bflags b))) ||
         negb (rate =? frame_rate (layer_ h)) || bool_decide (s3d <> s3d_format b)
      then mret (true,
        on_buffer (fun b => b <| igc := layer_igc |> <| s3d_format := s3d |> <| bflags ::= fun f => f <| interlace := inter |> |>)
          (on_layer (fun l => l <| frame_rate := rate |>) (h <| needs_validate_ := true |>)))
      else mret (true, h)
  end.

Definition has_flag (flags bit : Z) : bool := negb (Z.land flags bit =? 0).
Definition PRIV_FLAGS_SECURE_BUFFER : Z := 0x00000400.
Definition PRIV_FLAGS_PROTECTED_BUFFER : Z := 0x00004000.
Definition PRIV_FLAGS_CAMERA_WRITE : Z := 0x00020000.
Definition PRIV_FLAGS_SECURE_DISPLAY : Z := 0x01000000.
Definition BUFFER_TYPE_VIDEO : Z := 1.

Definition CloseFd (fd : Z) : St G unit := if 0 <=? fd then G_close fd else mret tt.

(** [buffer] is the address of the handle. *)
Definition SetLayerBuffer (buffer acquire_fence : Z) (h : HWCLayer) : St G (Error * HWCLayer) :=
  if buffer =? 0 then mret (BadParameter, h)
  else if acquire_fence =? 0 then mret (BadParameter, h)
  else
    hnd ← G_handle buffer;
    if MetaData.fd hnd <? 0 then mret (BadParameter, h)
    else
      _ ← G_close (ion_fd_ h);
      nfd ← G_dup (MetaData.fd hnd);
      let h := h <| ion_fd_ := nfd |> in
      '(aw, ah) ← G_GetCustomWidthAndHeight buffer;
      let fmt := GetSDMFormat (MetaData.format hnd) (MetaData.flags hnd) in
      let b := input_buffer (layer_ h) in
      let h := if bool_decide (fmt <> bformat b) || negb (u32 aw =? width b) || negb (u32 ah =? height b)
               then changed kBufferGeometry h else h in
      let h := on_buffer (fun b => b <| bformat := fmt |> <| width := u32 aw |> <| height := u32 ah |>
                 <| unaligned_width := u32 (MetaData.unaligned_width hnd) |>
                 <| unaligned_height := u32 (MetaData.unaligned_height hnd) |>) h in
      '(ok, h) ← SetMetaData buffer h;
      if negb ok then mret (BadLayer, h)
      else
        let sec := has_flag (MetaData.flags hnd) PRIV_FLAGS_SECURE_BUFFER in
        let cam := sec && has_flag (MetaData.flags hnd) PRIV_FLAGS_CAMERA_WRITE in
        let dsp := has_flag (MetaData.flags hnd) PRIV_FLAGS_SECURE_DISPLAY in
        let f := bflags (input_buffer (layer_ h)) in
        let h := if negb (Bool.eqb sec (secure f)) || negb (Bool.eqb cam (secure_camera f)) ||
                    negb (Bool.eqb dsp (secure_display f)) then h <| needs_validate_ := true |> else h in
        _ ← CloseFd (acquire_fence_fd (input_buffer (layer_ h)));
        mret (ENone, on_buffer (fun b => b
          <| bflags ::= fun f => f <| video := MetaData.buffer_type hnd =? BUFFER_TYPE_VIDEO |> <| secure := sec |>
                                   <| secure_camera := cam |> <| secure_display := dsp |> |>
          <| plane_fd := nfd |> <| plane_offset := MetaData.offset hnd |> <| plane_stride := u32 (MetaData.width hnd) |>
          <| acquire_fence_fd := acquire_fence |> <| size := MetaData.size hnd |> <| buffer_id := buffer |>) h).

(** FEATURE_WIDE_COLOR is [wide]. *)
Definition ValidateAndSetCSC (wide : bool) (h : HWCLayer) : St G (bool * HWCLayer) :=
  if decide (client_requested_ h <> Device /\ client_requested_ h <> Cursor) then mret (true, h)
  else
    let r := if wide && negb (dataspace_ h =? DATASPACE_UNKNOWN) then
               let '(valid, csc) := GetSDMColorSpace (dataspace_ h) ColorMetaData0 in
               if negb valid then None
               else Some (false, on_buffer (fun b => b <| color_metadata ::= fun c =>
                 c <| transfer := transfer csc |> <| colorPrimaries := colorPrimaries csc |> <| range := range csc |> |>) h)
             else Some (true, h) in
    match r with
    | None => mret (false, h)
    | Some (use, h) =>
        let b := input_buffer (layer_ h) in
        if use || IsBT2020 (colorPrimaries (color_metadata b)) then
          '(ok, c) ← SetCSC (buffer_id b) (color_metadata b);
          mret (ok, on_buffer (fun b => b <| color_metadata := c |>) h)
        else mret (true, h)
    end.

(** The destructor. *)
Fixpoint close_all (l : list Z) : St G unit :=
  match l with
  | [] => mret tt
  | f :: l => _ ← G_close f; close_all l
  end.
Definition delete_HWCLayer (h : HWCLayer) : St G unit := _ ← close_all (release_fences_ h); G_close (ion_fd_ h).
End HwcLayer.
End HwcLayer.
