(* ===== verification/HwcColor.v ===== *)
(** The colour modes of the hardware composer: the class HWCColorMode of
    src/hardware/qcom-caf/display/sdm/libs/hwc2/hwc_display.cpp.

    The object keeps the modes of SDM by the colour mode and the transform of the
    HAL, and the mode, transform and matrix that are set.  The methods of the
    display that it calls are the class [ColorIntf]; the codes of the HAL are the
    class [ColorHal].  The matrix holds doubles that are copies of floats, which a
    [float] represents exactly. *)
From S2P Require Import Prelude Rect ResourceDefault MetaData GrUtils Alloc BufMgr Strategy CompMgr DisplayBase HwcLayer.
#[local] Open Scope Z_scope.

Module HwcColor.
Import Float32 ResourceDefault HwcLayer.
Import (notations) DisplayBase.
Abbreviation AttrVal := DisplayBase.AttrVal.
Abbreviation contains := DisplayBase.contains.

(** android_color_mode_t and android_color_transform_t. *)
Class ColorHal := {
  HAL_COLOR_MODE_NATIVE : Z; HAL_COLOR_MODE_DCI_P3 : Z; HAL_COLOR_MODE_SRGB : Z; HAL_COLOR_MODE_ADOBE_RGB : Z;
  HAL_COLOR_MODE_DISPLAY_P3 : Z;
  HAL_COLOR_TRANSFORM_IDENTITY : Z; HAL_COLOR_TRANSFORM_ARBITRARY_MATRIX : Z; HAL_COLOR_TRANSFORM_VALUE_INVERSE : Z;
  HAL_COLOR_TRANSFORM_GRAYSCALE : Z; HAL_COLOR_TRANSFORM_CORRECT_PROTANOPIA : Z;
  HAL_COLOR_TRANSFORM_CORRECT_DEUTERANOPIA : Z; HAL_COLOR_TRANSFORM_CORRECT_TRITANOPIA : Z
}.

(** The display: GetColorModes is given the count and the vector is as SDM left it. *)
Class ColorIntf (V : Type) := {
  CI_GetColorModeCount : St V (DisplayError * Z);
  CI_GetColorModes : Z -> St V (DisplayError * Z * list string);
  CI_GetColorModeAttr : string -> St V AttrVal;
  CI_GetDefaultColorMode : St V (DisplayError * string);
  CI_SetColorMode : string -> St V DisplayError;
  CI_SetColorTransform : list float -> St V DisplayError
}.

Record HWCColorMode := mkColorMode {
  current_color_mode_ : Z; current_color_transform_ : Z; color_mode_transform_map_ : list (Z * list (Z * string));
  color_matrix_ : list float
}.
#[global] Instance eta_color_mode : Eta HWCColorMode := fun c =>
  mkColorMode (current_color_mode_ c) (current_color_transform_ c) (color_mode_transform_map_ c) (color_matrix_ c).

Section HwcColor.
Context `{!ColorHal} {V : Type} `{!ColorIntf V}.
(** EXCLUDE_DISPLAY_PP. *)
Context (exclude_pp : bool).

Definition identity_matrix : list float :=
  let o := f_zero in let i := f_one in [i; o; o; o;  o; i; o; o;  o; o; i; o;  o; o; o; i].
Definition new_HWCColorMode : HWCColorMode :=
  mkColorMode HAL_COLOR_MODE_NATIVE HAL_COLOR_TRANSFORM_IDENTITY [] identity_matrix.

Definition GetColorModeCount (c : HWCColorMode) : Z :=
  let count := Z.of_nat (length (color_mode_transform_map_ c)) in if exclude_pp then count else Z.max 1 count.
Definition GetColorModes (c : HWCColorMode) : list Z := (color_mode_transform_map_ c).*1.

(** ** Setting a mode *)

(** The string of a mode and a transform; [operator[]] makes the entries it does
    not find. *)
Definition mode_string (mode hint : Z) (c : HWCColorMode) : string * HWCColorMode :=
  let t := default [] (zmap_get mode (color_mode_transform_map_ c)) in
  let s := default EmptyString (zmap_get hint t) in
  (s, c <| color_mode_transform_map_ ::= zmap_set mode (zmap_set hint s t) |>).

(** The name that is looked up for a hint other than a matrix is still empty, so
    the matrix is always used. *)
Definition HandleColorModeTransform (mode hint : Z) (matrix : list float) (c : HWCColorMode) : St V (Error * HWCColorMode) :=
  let color_mode_transform := EmptyString in
  let '(transform_hint, use_matrix, c) :=
    if negb (hint =? HAL_COLOR_TRANSFORM_ARBITRARY_MATRIX) then
      match color_mode_transform with
      | EmptyString => (HAL_COLOR_TRANSFORM_IDENTITY, true, c)
      | _ => (hint, false, snd (mode_string mode hint c))
      end
    else (HAL_COLOR_TRANSFORM_IDENTITY, true, c) in
  '(ok, c) ← (if (1 <? length (color_mode_transform_map_ c))%nat && negb (current_color_mode_ c =? mode) then
                let '(s, c) := mode_string mode transform_hint c in
                e ← CI_SetColorMode s;
                mret (bool_decide (e = kErrorNone), c)
              else mret (true, c));
  if negb ok then mret (Unsupported, c)
  else
    ok ← (if use_matrix then e ← CI_SetColorTransform matrix; mret (bool_decide (e = kErrorNone)) else mret true);
    mret (if negb ok then (Unsupported, c)
          else (ENone, c <| current_color_mode_ := mode |> <| current_color_transform_ := hint |> <| color_matrix_ := matrix |>)).

Definition SetColorMode (mode : Z) (c : HWCColorMode) : St V (Error * HWCColorMode) :=
  if (mode <? HAL_COLOR_MODE_NATIVE) || (HAL_COLOR_MODE_DISPLAY_P3 <? mode) then mret (BadParameter, c)
  else match zmap_get mode (color_mode_transform_map_ c) with
  | None => mret (Unsupported, c)
  | Some _ => HandleColorModeTransform mode (current_color_transform_ c) (color_matrix_ c) c
  end.

Definition RestoreColorTransform (c : HWCColorMode) : St V Error :=
  e ← CI_SetColorTransform (color_matrix_ c);
  mret (if decide (e <> kErrorNone) then BadParameter else ENone).

(** [matrix] has its sixteen elements. *)
Definition SetColorTransform (matrix : list float) (hint : Z) (c : HWCColorMode) : St V (Error * HWCColorMode) :=
  HandleColorModeTransform (current_color_mode_ c) hint matrix c.

(** ** The modes of SDM *)
Definition PopulateTransform (mode : Z) (color_mode color_transform : string) (c : HWCColorMode) : HWCColorMode :=
  let put hint := c <| color_mode_transform_map_ ::= fun m => zmap_set mode (zmap_set hint color_mode (default [] (zmap_get mode m))) m |> in
  if contains "identity" color_transform then put HAL_COLOR_TRANSFORM_IDENTITY
  else if contains "arbitrary" color_transform then c
  else if contains "inverse" color_transform then put HAL_COLOR_TRANSFORM_VALUE_INVERSE
  else if contains "grayscale" color_transform then put HAL_COLOR_TRANSFORM_GRAYSCALE
  else if contains "correct_protonopia" color_transform then put HAL_COLOR_TRANSFORM_CORRECT_PROTANOPIA
  else if contains "correct_deuteranopia" color_transform then put HAL_COLOR_TRANSFORM_CORRECT_DEUTERANOPIA
  else if contains "correct_tritanopia" color_transform then put HAL_COLOR_TRANSFORM_CORRECT_TRITANOPIA
  else put HAL_COLOR_TRANSFORM_IDENTITY.

Definition kNative : string := "native".
Definition kDcip3 : string := "dcip3".
Definition kSrgb : string := "srgb".
Definition kDisplayP3 : string := "display_p3".
Definition kStandard : string := "standard".

(** Gamut, dynamic range and picture quality. *)
Fixpoint attributes (attr : AttrVal) (r : string * string * string) : string * string * string :=
  match attr with
  | [] => r
  | (k, v) :: attr =>
      let '(gamut, dyn, pic) := r in
      attributes attr
        (if contains DisplayBase.kColorGamutAttribute k then (v, dyn, pic)
         else if contains DisplayBase.kDynamicRangeAttribute k then (gamut, v, pic)
         else if contains DisplayBase.kPictureQualityAttribute k then (gamut, dyn, v)
         else r)
  end.

(** One turn of the loop. *)
Definition populate_mode (m : string) (attr : AttrVal) (c : HWCColorMode) : HWCColorMode :=
  let '(gamut, dyn, pic) := attributes attr (EmptyString, EmptyString, EmptyString) in
  let plain := String.eqb pic EmptyString || String.eqb pic kStandard in
  if String.eqb dyn DisplayBase.kHdr then c
  else
    let c := if String.eqb gamut kNative && plain then PopulateTransform HAL_COLOR_MODE_NATIVE m "identity" c
             else if String.eqb gamut kSrgb && plain then PopulateTransform HAL_COLOR_MODE_SRGB m "identity" c
             else if String.eqb gamut kDcip3 && plain then PopulateTransform HAL_COLOR_MODE_DISPLAY_P3 m "identity" c
             else if String.eqb gamut kDisplayP3 && plain then PopulateTransform HAL_COLOR_MODE_DISPLAY_P3 m "identity" c
             else c in
    if negb (String.eqb gamut EmptyString) then c
    else if contains "hal_native" m then PopulateTransform HAL_COLOR_MODE_NATIVE m m c
    else if contains "hal_srgb" m then PopulateTransform HAL_COLOR_MODE_SRGB m m c
    else if contains "hal_adobe" m then PopulateTransform HAL_COLOR_MODE_ADOBE_RGB m m c
    else if contains "hal_dci_p3" m then PopulateTransform HAL_COLOR_MODE_DCI_P3 m m c
    else if contains "hal_display_p3" m then PopulateTransform HAL_COLOR_MODE_DISPLAY_P3 m m c
    else c.

(** [n] more turns from the head of the vector; [at] throws past its end. *)
Fixpoint populate_modes (n : nat) (modes : list string) (c : HWCColorMode) : St V HWCColorMode :=
  match n, modes with
  | O, _ => mret c
  | S n, [] => st_undef
  | S n, m :: modes => attr ← CI_GetColorModeAttr m; populate_modes n modes (populate_mode m attr c)
  end.
Definition PopulateColorModes (c : HWCColorMode) : St V HWCColorMode :=
  '(error, count) ← CI_GetColorModeCount;
  if bool_decide (error <> kErrorNone) || (count =? 0) then
    mret (if exclude_pp then c else PopulateTransform HAL_COLOR_MODE_NATIVE "native" "identity" c)
  else
    '(_, count, modes) ← CI_GetColorModes count;
    populate_modes (Z.to_nat count) modes c.

(** The first mode one of whose strings is [s]. *)
Fixpoint mode_of (s : string) (m : list (Z * list (Z * string))) : option Z :=
  match m with
  | [] => None
  | (k, t) :: m => if existsb (fun '(_, x) => String.eqb x s) t then Some k else mode_of s m
  end.
Definition ApplyDefaultColorMode (c : HWCColorMode) : St V (Error * HWCColorMode) :=
  match color_mode_transform_map_ c with
  | [] => SetColorMode HAL_COLOR_MODE_NATIVE c
  | [(k, _)] => SetColorMode k c
  | (k, _) :: _ as m =>
      '(error, s) ← CI_GetDefaultColorMode;
      SetColorMode (if decide (error = kErrorNone) then default k (mode_of s m) else k) c
  end.
Definition Init (c : HWCColorMode) : St V (Error * HWCColorMode) :=
  c ← PopulateColorModes c; ApplyDefaultColorMode c.
Definition DeInit (c : HWCColorMode) : HWCColorMode := c <| color_mode_transform_map_ := [] |>.
End HwcColor.
End HwcColor.
