(* ===== verification/HwcDisplay.v ===== *)
(** The displays of the hardware composer:
    src/hardware/qcom-caf/display/sdm/libs/hwc2/hwc_display.cpp.

    The layers of a display are objects, which the map by identifier and the set
    ordered by z point to; a layer is named by its identifier, and using one that
    was deleted is undefined.  SDM (the DisplayInterface of a display and the core
    that makes it), the tone mapper, the CPU hint and the callbacks of the client
    are the class [Sdm], with a state of its own.  SDM reads and writes the layers
    of the stack: they are handed over and stored back.  A call holds the lock of
    its display and is one step. *)
From S2P Require Import Prelude Rect ResourceDefault MetaData GrUtils Alloc BufMgr Strategy CompMgr DisplayBase HwcLayer HwcColor.
#[local] Open Scope Z_scope.

Module HwcDisplay.
Import Float32 Rect Formats ResourceDefault Strategy HwcLayer HwcColor.

(** * SDM *)
Record SFlags := mkSFlags {
  geometry_changed : bool; skip_present : bool; video_present : bool; secure_present : bool; animating : bool;
  cursor_present : bool; s3d_mode_present : bool; post_processed_output : bool; hdr_present : bool; fbt_valid : bool
}.
#[global] Instance eta_sflags : Eta SFlags := fun f =>
  mkSFlags (geometry_changed f) (skip_present f) (video_present f) (secure_present f) (animating f) (cursor_present f)
    (s3d_mode_present f) (post_processed_output f) (hdr_present f) (fbt_valid f).
Definition SFlags0 : SFlags := mkSFlags false false false false false false false false false false.
(** DisplayConfigFixedInfo. *)
Record FixedInfo := mkFixedInfo {
  is_cmdmode : bool; hdr_supported : bool; max_luminance : Z; average_luminance : Z; min_luminance : Z
}.

Class Sdm (V : Type) := {
  (* the layers, the output buffer, the flags, and the retire fence *)
  D_Prepare : list Layer -> option Buffer -> SFlags -> St V (DisplayError * list Layer * SFlags);
  D_Commit : list Layer -> option Buffer -> SFlags -> Z -> St V (DisplayError * list Layer * option Buffer * Z);
  D_Flush : bool -> St V DisplayError;
  D_SetDisplayState : CompMgr.DisplayState -> St V DisplayError;
  D_GetDisplayState : St V (DisplayError * CompMgr.DisplayState);
  D_SetVSyncState : bool -> St V DisplayError;
  D_SetActiveConfig : Z -> St V DisplayError;
  D_SetActiveConfigInfo : FbConfig -> St V DisplayError;
  D_GetActiveConfig : Z -> St V (DisplayError * Z);
  D_GetNumVariableInfoConfigs : Z -> St V (DisplayError * Z);
  D_GetConfig : Z -> St V (DisplayError * FbConfig);
  D_GetFixedConfig : St V FixedInfo;
  D_GetFrameBufferConfig : St V (DisplayError * FbConfig);
  D_SetFrameBufferConfig : FbConfig -> St V DisplayError;
  D_GetMixerResolution : St V (DisplayError * Z * Z);
  D_SetMixerResolution : Z -> Z -> St V DisplayError;
  D_GetRefreshRateRange : St V (Z * Z);
  D_SetRefreshRate : Z -> St V DisplayError;
  D_SetMaxMixerStages : Z -> St V DisplayError;
  D_SetCursorPosition : Z -> Z -> St V DisplayError;
  D_SetPanelBrightness : Z -> St V Z;
  D_GetClientTargetSupport : Z -> Z -> LayerBufferFormat -> ColorMetaData -> St V DisplayError;
  D_OnMinHdcpEncryptionLevelChange : Z -> St V DisplayError;
  D_SetIdleTimeoutMs : Z -> St V unit;
  D_SetDisplayMode : Z -> St V DisplayError;
  D_ApplyDefaultDisplayMode : St V DisplayError;
  D_ControlPartialUpdate : bool -> St V (DisplayError * Z);
  D_DisablePartialUpdateOneFrame : St V DisplayError;
  D_SetDetailEnhancerData : list Z -> St V DisplayError;
  D_IsUnderscanSupported : St V bool;
  D_GetPanelBrightness : St V (Z * Z);
  D_SetDynamicDSIClock : Z -> St V DisplayError;
  D_GetDynamicDSIClock : St V (DisplayError * Z);
  C_CreateDisplay : DisplayType -> St V DisplayError;
  C_DestroyDisplay : St V DisplayError;
  T_HandleToneMap : list Layer -> St V (Z * list Layer);
  T_PostCommit : list (option Layer) -> St V (list (option Layer));
  T_IsActive : St V bool;
  T_Terminate : St V unit;
  T_SetFrameDumpConfig : Z -> St V unit;
  CB_Refresh : St V unit;
  CB_Vsync : Z -> St V unit;
  CB_VsyncRegistered : St V bool;
  CPU_Init : St V bool;
  CPU_Hint : bool -> St V unit
}.

(** * The display object *)
Inductive LPtr := PLayer (i : Z) | PSolid.
Record Stack := mkStack { slayers : list LPtr; retire_fence_fd : Z; output_buffer : bool; sflags : SFlags }.
#[global] Instance eta_stack : Eta Stack := fun s => mkStack (slayers s) (retire_fence_fd s) (output_buffer s) (sflags s).
Definition Stack0 : Stack := mkStack [] (-1) false SFlags0.
Inductive PowerMode := POff | POn | PDoze | PDozeSuspend | OtherPower (n : Z).

(** The layers and what is known of them; [layer_changes_] and [layer_requests_] are
    in the order of their keys; a null pointer in the map is [None]. *)
Record Layers := mkLayersOf {
  layer_map_ : gmap Z (option Z); layer_set_ : list Z; client_target_ : Z;
  layer_changes_ : list (Z * HComposition); layer_requests_ : list Z; layer_stack_ : Stack; layer_stack_invalid_ : bool
}.
#[global] Instance eta_layers : Eta Layers := fun l =>
  mkLayersOf (layer_map_ l) (layer_set_ l) (client_target_ l) (layer_changes_ l) (layer_requests_ l) (layer_stack_ l)
    (layer_stack_invalid_ l).
(** The state of the validate/present sequence. *)
Record Progress := mkProgress {
  validated_ : gset DisplayType; skip_validate_ : bool; flush_on_error_ : bool; flush_ : bool; skip_prepare_ : bool;
  shutdown_pending_ : bool; display_paused_ : bool; secure_display_active_ : bool; secure_display_transition_ : bool;
  geometry_changes_ : Z; animating_ : bool; fbt_valid_ : bool; color_tranform_failed_ : bool
}.
#[global] Instance eta_progress : Eta Progress := fun p =>
  mkProgress (validated_ p) (skip_validate_ p) (flush_on_error_ p) (flush_ p) (skip_prepare_ p) (shutdown_pending_ p)
    (display_paused_ p) (secure_display_active_ p) (secure_display_transition_ p) (geometry_changes_ p) (animating_ p)
    (fbt_valid_ p) (color_tranform_failed_ p).
Record Rates := mkRates {
  min_refresh_rate_ : Z; max_refresh_rate_ : Z; current_refresh_rate_ : Z; use_metadata_refresh_rate_ : bool;
  metadata_refresh_rate_ : Z; force_refresh_rate_ : Z; handle_idle_timeout_ : bool
}.
#[global] Instance eta_rates : Eta Rates := fun r =>
  mkRates (min_refresh_rate_ r) (max_refresh_rate_ r) (current_refresh_rate_ r) (use_metadata_refresh_rate_ r)
    (metadata_refresh_rate_ r) (force_refresh_rate_ r) (handle_idle_timeout_ r).
Record Misc := mkMisc {
  type_ : DisplayType; swap_interval_zero_ : bool; disable_hdr_handling_ : bool; tone_mapper_ : bool; num_configs_ : Z;
  last_power_mode_ : option PowerMode; dump_frame_count_ : Z; dump_frame_index_ : Z; dump_input_layers_ : bool;
  solid_fill_enable_ : bool; solid_fill_color_ : Z; display_rect_ : LayerRect; underscan_width_ : Z; underscan_height_ : Z;
  boot_animation_completed_ : bool; default_mode_status_ : bool; cpu_hint_ : bool; disp_id_ : Z
}.
#[global] Instance eta_misc : Eta Misc := fun m =>
  mkMisc (type_ m) (swap_interval_zero_ m) (disable_hdr_handling_ m) (tone_mapper_ m) (num_configs_ m) (last_power_mode_ m)
    (dump_frame_count_ m) (dump_frame_index_ m) (dump_input_layers_ m) (solid_fill_enable_ m) (solid_fill_color_ m)
    (display_rect_ m) (underscan_width_ m) (underscan_height_ m) (boot_animation_completed_ m) (default_mode_status_ m)
    (cpu_hint_ m) (disp_id_ m).
(** The output of the primary and of the virtual display. *)
Record Output := mkOutput {
  output_buffer_ : option Buffer; output_handle_ : Z; post_processed_output_ : bool; frame_capture_buffer_queued_ : bool;
  frame_capture_status_ : Z; dump_output_ : bool; output_buffer_info_ : BufferInfo; output_buffer_base_ : Z
}.
#[global] Instance eta_output : Eta Output := fun o =>
  mkOutput (output_buffer_ o) (output_handle_ o) (post_processed_output_ o) (frame_capture_buffer_queued_ o)
    (frame_capture_status_ o) (dump_output_ o) (output_buffer_info_ o) (output_buffer_base_ o).

Section HwcDisplay.
Context `{!GrUtils.Platform, !Hal, !ColorHal} {G V : Type} `{!Gralloc G, !Sdm V, !ColorIntf V}.
(** FEATURE_WIDE_COLOR and EXCLUDE_DISPLAY_PP. *)
Context (wide exclude_pp : bool).

Record World := mkHWorld {
  heap : gmap Z HWCLayer; next_id_ : Z; solid_fill_layer_ : option Layer; ls : Layers; prog : Progress; rates : Rates;
  misc : Misc; out : Output; color_mode_ : option HWCColorMode; gr : G; sdm : V
}.
#[global] Instance eta_world : Eta World := fun w =>
  mkHWorld (heap w) (next_id_ w) (solid_fill_layer_ w) (ls w) (prog w) (rates w) (misc w) (out w) (color_mode_ w)
    (gr w) (sdm w).
Abbreviation W := (St World).

Definition on_ls (f : Layers -> Layers) : W unit := st_modify (fun w => w <| ls ::= f |>).
Definition on_stack (f : Stack -> Stack) : W unit := on_ls (fun l => l <| layer_stack_ ::= f |>).
Definition on_sflags (f : SFlags -> SFlags) : W unit := on_stack (fun s => s <| sflags ::= f |>).
Definition on_prog (f : Progress -> Progress) : W unit := st_modify (fun w => w <| prog ::= f |>).
Definition on_rates (f : Rates -> Rates) : W unit := st_modify (fun w => w <| rates ::= f |>).
Definition on_misc (f : Misc -> Misc) : W unit := st_modify (fun w => w <| misc ::= f |>).
Definition on_out (f : Output -> Output) : W unit := st_modify (fun w => w <| out ::= f |>).
Definition in_gr {A} (m : St G A) : W A := fun w =>
  match m (gr w) with Ret (a, g) => Ret (a, w <| gr := g |>) | Undef => Undef | NoFuel => NoFuel end.
Definition in_sdm {A} (m : St V A) : W A := fun w =>
  match m (sdm w) with Ret (a, v) => Ret (a, w <| sdm := v |>) | Undef => Undef | NoFuel => NoFuel end.
(** A layer object. *)
Definition deref (i : Z) : W HWCLayer := fun w =>
  match heap w !! i with Some h => Ret (h, w) | None => Undef end.
Definition put (i : Z) (h : HWCLayer) : W unit := st_modify (fun w => w <| heap ::= <[i := h]> |>).
Definition modify (i : Z) (f : HWCLayer -> HWCLayer) : W unit := h ← deref i; put i (f h).
Definition sdm_layer (i : Z) (f : Layer -> Layer) : W unit := modify i (on_layer f).
Fixpoint for_each (l : list Z) (f : Z -> W unit) : W unit :=
  match l with
  | [] => mret tt
  | i :: l => _ ← f i; for_each l f
  end.
Definition set_of : W (list Z) := st_gets (fun w => layer_set_ (ls w)).
Definition reset_validated : W unit := on_prog (fun p => p <| validated_ := ∅ |>).
Definition set_bit : W unit := t ← st_gets (fun w => type_ (misc w)); on_prog (fun p => p <| validated_ ::= union {[t]} |>).
Definition reset_bit : W unit :=
  t ← st_gets (fun w => type_ (misc w)); on_prog (fun p => p <| validated_ ::= fun s => s ∖ {[t]} |>).
Definition is_validated : W bool := st_gets (fun w => bool_decide (type_ (misc w) ∈ validated_ (prog w))).

(** The Layer objects of the stack, and what SDM has made of them. *)
Definition layer_value (p : LPtr) : W Layer :=
  match p with
  | PLayer i => h ← deref i; mret (layer_ h)
  | PSolid => s ← st_gets solid_fill_layer_; match s with Some l => mret l | None => st_undef end
  end.
Fixpoint stack_values (l : list LPtr) : W (list Layer) :=
  match l with
  | [] => mret []
  | p :: l => v ← layer_value p; vs ← stack_values l; mret (v :: vs)
  end.
Fixpoint store_values (l : list LPtr) (vs : list Layer) : W unit :=
  match l, vs with
  | p :: l, v :: vs =>
      _ ← (match p with
           | PLayer i => sdm_layer i (fun _ => v)
           | PSolid => st_modify (fun w => w <| solid_fill_layer_ := Some v |>)
           end);
      store_values l vs
  | _, _ => mret tt
  end.

(** A pointer of the stack may be dangling as long as it is not used: [None]. *)
Definition live_value (w : World) (p : LPtr) : option Layer :=
  match p with
  | PLayer i => layer_ <$> heap w !! i
  | PSolid => solid_fill_layer_ w
  end.
Fixpoint store_live (l : list LPtr) (vs : list (option Layer)) : W unit :=
  match l, vs with
  | p :: l, v :: vs =>
      w ← st_get;
      _ ← (match p, live_value w p, v with
           | PLayer i, Some _, Some v => sdm_layer i (fun _ => v)
           | PSolid, Some _, Some v => st_modify (fun w => w <| solid_fill_layer_ := Some v |>)
           | _, _, _ => mret tt
           end);
      store_live l vs
  | _, _ => mret tt
  end.

(** The buffer that the stack's output_buffer points to. *)
Definition output_value (s : Stack) : W (option Buffer) :=
  if output_buffer s then st_gets (fun w => output_buffer_ (out w)) else mret None.

(** * The set of layers *)

(** std::multiset::emplace: after the layers whose z is not larger. *)
Fixpoint emplace (m : gmap Z HWCLayer) (i z : Z) (l : list Z) : outcome (list Z) :=
  match l with
  | [] => Ret [i]
  | j :: l' =>
      match m !! j with
      | None => Undef
      | Some h => if z <? z_ h then Ret (i :: l) else l'' ← emplace m i z l'; Ret (j :: l'')
      end
  end.
(** Whether [i] is in equal_range of a layer with this z: the range from the first
    layer that is not below to the last one that is not above. *)
Fixpoint upper_range (m : gmap Z HWCLayer) (i z : Z) (l : list Z) : outcome bool :=
  match l with
  | [] => Ret false
  | j :: l =>
      match m !! j with
      | None => Undef
      | Some h => if z <? z_ h then Ret false else if i =? j then Ret true else upper_range m i z l
      end
  end.
Fixpoint equal_range (m : gmap Z HWCLayer) (i z : Z) (l : list Z) : outcome bool :=
  match l with
  | [] => Ret false
  | j :: l' =>
      match m !! j with
      | None => Undef
      | Some h => if z_ h <? z then equal_range m i z l' else upper_range m i z l
      end
  end.
(** The set without its first [i]. *)
Fixpoint erase (i : Z) (l : list Z) : list Z :=
  match l with
  | [] => []
  | j :: l => if i =? j then l else j :: erase i l
  end.

Definition CreateLayer : W (Error * Z) :=
  w ← st_get;
  let i := next_id_ w in
  _ ← st_modify (fun w => w <| next_id_ := u64 (i + 1) |>);
  _ ← put i (new_HWCLayer i);
  m ← st_gets heap;
  set ← st_lift (emplace m i 0 (layer_set_ (ls w)));
  _ ← on_ls (fun l => l <| layer_set_ := set |>
        <| layer_map_ ::= fun m => match m !! i with Some _ => m | None => <[i := Some i]> m end |>
        <| layer_stack_invalid_ := true |>);
  _ ← on_prog (fun p => p <| geometry_changes_ ::= Z.lor kAdded |>);
  _ ← reset_validated;
  mret (ENone, i).

Definition GetHWCLayer (i : Z) : W (option Z) :=
  m ← st_gets (fun w => layer_map_ (ls w)); mret (match m !! i with Some p => p | None => None end).

Definition DestroyLayer (i : Z) : W Error :=
  l ← st_gets ls;
  match layer_map_ l !! i with
  | None => mret BadLayer
  | Some p =>
      _ ← on_ls (fun l => l <| layer_map_ ::= delete i |>);
      _ ← (match p, layer_set_ l with
           | None, [] => mret tt
           | None, _ => st_undef
           | Some j, set =>
               h ← deref j;
               m ← st_gets heap;
               found ← st_lift (equal_range m j (z_ h) set);
               if (found : bool) then
                 _ ← on_ls (fun l => l <| layer_set_ ::= erase j |>);
                 _ ← in_gr (delete_HWCLayer h);
                 st_modify (fun w => w <| heap ::= delete j |>)
               else mret tt
           end);
      _ ← on_prog (fun p => p <| geometry_changes_ ::= Z.lor kRemoved |>);
      _ ← reset_validated;
      _ ← on_ls (fun l => l <| layer_stack_invalid_ := true |>);
      mret ENone
  end.

(** SetLayerZOrder of the display. *)
Definition SetLayerZ (i z : Z) : W Error :=
  l ← st_gets ls;
  match layer_map_ l !! i with
  | None => mret BadLayer
  | Some None => match layer_set_ l with [] => mret BadLayer | _ => st_undef end
  | Some (Some j) =>
      h ← deref j;
      m ← st_gets heap;
      found ← st_lift (equal_range m j (z_ h) (layer_set_ l));
      if negb found then mret BadLayer
      else if z_ h =? z then mret ENone
      else
        _ ← put j (snd (HwcLayer.SetLayerZOrder z h));
        m ← st_gets heap;
        set ← st_lift (emplace m j z (erase j (layer_set_ l)));
        _ ← on_ls (fun l => l <| layer_set_ := set |>);
        mret ENone
  end.

(** * Building the stack *)
Definition WidestPrimaries (p1 p2 : Z) : Z :=
  let lp1 := if p1 =? ColorPrimaries_BT2020 then p1 * 10 else p1 in
  let lp2 := if lp1 =? ColorPrimaries_BT2020 then p2 * 10 else p2 in
  if lp2 <=? lp1 then p1 else p2.

Definition SanitizeRefreshRate (r : Rates) (req : Z) : outcome Z :=
  rate ← (if req <? min_refresh_rate_ r then
            if req =? 0 then Undef
            else Ret (u32 (u32 (min_refresh_rate_ r / req + (if min_refresh_rate_ r mod req =? 0 then 0 else 1)) * req))
          else Ret req);
  Ret (if max_refresh_rate_ r <? rate then max_refresh_rate_ r else rate).

Definition IsSurfaceUpdated (dirty : list LayerRect) : bool :=
  match dirty with [] => true | r :: _ => IsValid r end.
Definition IsLayerUpdating (l : Layer) (changes : Z) : bool :=
  single_buffer (lflags l) || IsSurfaceUpdated (dirty_regions l) || negb (changes =? 0).

Definition kMaxLayerCount : nat := 32.

(** The division of signed integers. *)
Definition scale (x num den offset : Z) : outcome Z :=
  p ← int_expr (x * num); int_expr (Z.quot p den + offset).
(** DisplayExternal; the other displays leave the frame as it is. *)
Definition ApplyScanAdjustment (f : IRect) : W IRect :=
  m ← st_gets misc;
  if decide (type_ m <> kHDMI) then mret f
  else if (underscan_width_ m <=? 0) || (underscan_height_ m <=? 0) then mret f
  else
    let width_ratio := fdiv (FLOAT (underscan_width_ m)) (FLOAT 100) in
    let height_ratio := fdiv (FLOAT (underscan_height_ m)) (FLOAT 100) in
    '(_, mw, mh) ← in_sdm D_GetMixerResolution;
    if (mw =? 0) || (mh =? 0) then mret f
    else
      nw ← st_lift (UINT32 (fmul (FLOAT mw) (fsub f_one width_ratio)));
      nh ← st_lift (UINT32 (fmul (FLOAT mh) (fsub f_one height_ratio)));
      x ← st_lift (INT (fdiv (fmul (FLOAT mw) width_ratio) (FLOAT 2)));
      y ← st_lift (INT (fdiv (fmul (FLOAT mh) height_ratio) (FLOAT 2)));
      l ← st_lift (scale (il f) (s32 nw) (s32 mw) x);
      t ← st_lift (scale (it f) (s32 nh) (s32 mh) y);
      r ← st_lift (scale (ir f) (s32 nw) (s32 mw) x);
      b ← st_lift (scale (ib f) (s32 nh) (s32 mh) y);
      mret (mkIRect l t r b).

(** SetSecureDisplay of the three classes. *)
Definition SetSecureDisplay (active : bool) : W unit :=
  w ← st_get;
  if Bool.eqb (secure_display_active_ (prog w)) active then mret tt
  else
    _ ← on_prog (fun p => p <| secure_display_active_ := active |>);
    match type_ (misc w) with
    | kPrimary =>
        c ← in_sdm D_GetFixedConfig;
        on_prog (fun p => p <| skip_prepare_ := negb (is_cmdmode c) |> <| secure_display_transition_ := true |>)
    | kHDMI => if active then _ ← in_sdm (D_Flush true); reset_validated else mret tt
    | _ => on_prog (fun p => p <| secure_display_transition_ := true |> <| skip_prepare_ := true |>)
    end.

Definition MarkLayersForGPUBypass : W unit :=
  set ← set_of;
  _ ← for_each set (fun i => sdm_layer i (fun l => l <| composition := kCompositionSDE |>));
  set_bit.
Definition MarkLayersForClientComposition : W unit :=
  set ← set_of;
  _ ← for_each set (fun i => sdm_layer i (fun l => l <| lflags ::= fun f => f <| HwcLayer.skip := true |> |>));
  on_sflags (fun f => f <| skip_present := true |>).

(** The flags of one layer: whether the client composes it, and the skip flag when
    its colours are not supported. *)
Definition layer_flags (i : Z) : W unit :=
  h ← deref i;
  let f := match client_requested_ h with
           | Client => LayerFlags0 <| HwcLayer.skip := true |>
           | SolidColor => LayerFlags0 <| solid_fill := true |>
           | _ => LayerFlags0
           end in
  '(ok, h) ← in_gr (ValidateAndSetCSC wide (on_layer (fun l => l <| lflags := f |>) h));
  put i (if negb ok && wide then on_layer (fun l => l <| lflags ::= fun f => f <| HwcLayer.skip := true |> |>) h else h).

(** The default composition; with a swap interval of zero the acquire fence is
    dropped. *)
Definition layer_defaults (i : Z) : W unit :=
  _ ← sdm_layer i (fun l => l <| composition := kCompositionGPU |>);
  m ← st_gets misc;
  h ← deref i;
  let fd := HwcLayer.acquire_fence_fd (HwcLayer.input_buffer (layer_ h)) in
  if swap_interval_zero_ m && (0 <=? fd) then
    _ ← in_gr (G_close fd); put i (on_buffer (fun b => b <| HwcLayer.acquire_fence_fd := -1 |>) h)
  else mret tt.

(** Whether the layer is secure, and whether it is for the secure display. *)
Definition layer_security (i : Z) : W (bool * bool) :=
  h ← deref i;
  let b := HwcLayer.input_buffer (layer_ h) in
  sec ← (if buffer_id b =? 0 then mret false
         else
           hnd ← in_gr (G_handle (buffer_id b));
           _ ← (if MetaData.buffer_type hnd =? BUFFER_TYPE_VIDEO then on_sflags (fun f => f <| video_present := true |>) else mret tt);
           if has_flag (MetaData.flags hnd) PRIV_FLAGS_PROTECTED_BUFFER || has_flag (MetaData.flags hnd) PRIV_FLAGS_SECURE_BUFFER
           then _ ← on_sflags (fun f => f <| secure_present := true |>); mret true else mret false);
  mret (sec || secure_display (bflags b), secure_display (bflags b)).

(** Cursor, HDR and fractional crops. *)
Definition layer_kind (i : Z) (is_secure : bool) : W unit :=
  w ← st_get;
  h ← deref i;
  h ← (if bool_decide (client_requested_ h = Cursor) && bool_decide (last (layer_set_ (ls w)) = Some i) then
         _ ← on_sflags (fun f => f <| cursor_present := true |>);
         mret (on_layer (fun l => l <| lflags ::= fun f => f <| HwcLayer.cursor := true |> |>) h)
       else mret h);
  let c := color_metadata (HwcLayer.input_buffer (layer_ h)) in
  let hdr_layer := IsBT2020 (colorPrimaries c) && ((transfer c =? Transfer_SMPTE_ST2084) || (transfer c =? Transfer_HLG)) in
  h ← (if hdr_layer && negb (disable_hdr_handling_ (misc w)) then
         _ ← on_sflags (fun f => f <| hdr_present := true |>);
         mret (on_buffer (fun b => b <| bflags ::= fun f => f <| hdr := true |> |>) h)
       else mret h);
  let f := lflags (layer_ h) in
  let h := if non_integral_source_crop_ h && negb is_secure && negb hdr_layer && negb (single_buffer f) && negb (solid_fill f)
           then on_layer (fun l => l <| lflags ::= fun f => f <| HwcLayer.skip := true |> |>) h else h in
  _ ← (if HwcLayer.skip (lflags (layer_ h)) then on_sflags (fun f => f <| skip_present := true |>) else mret tt);
  put i h.

(** The display frame, and the buffer of a solid fill. *)
Definition layer_geometry (i : Z) : W unit :=
  h ← deref i;
  let r := dst_rect (layer_ h) in
  l ← st_lift (INT (left r)); t ← st_lift (INT (top r)); rr ← st_lift (INT (right r)); b ← st_lift (INT (bottom r));
  let f := mkIRect l t rr b in
  f ← (if negb (Z.land (HwcLayer.geometry_changes_ h) kDisplayFrame =? 0) then ApplyScanAdjustment f else mret f);
  h ← deref i;
  let h := snd (SetLayerDisplayFrame f h) in
  h ← (if solid_fill (lflags (layer_ h)) then
         let r := dst_rect (layer_ h) in
         bw ← st_lift (UINT32 (fsub (right r) (left r)));
         bh ← st_lift (UINT32 (fsub (bottom r) (top r)));
         mret (on_layer (fun l => l <| src_rect := mkRect f_zero f_zero (FLOAT bw) (FLOAT bh) |>)
           (on_buffer (fun b => b <| width := bw |> <| height := bh |> <| unaligned_width := bw |> <| unaligned_height := bh |>
              <| HwcLayer.acquire_fence_fd := -1 |> <| HwcLayer.release_fence_fd := -1 |>) h))
       else mret h);
  put i h.

(** The rate, the visible rectangle, and whether the layer is updating. *)
Definition layer_update (i : Z) : W unit :=
  w ← st_get;
  h ← deref i;
  rate ← (if metadata_refresh_rate_ (rates w) <? frame_rate (layer_ h) then
            r ← st_lift (SanitizeRefreshRate (rates w) (frame_rate (layer_ h)));
            _ ← on_rates (fun x => x <| metadata_refresh_rate_ := r |>); mret (frame_rate (layer_ h))
          else mret (current_refresh_rate_ (rates w)));
  _ ← on_misc (fun m => m <| display_rect_ ::= fun r => Union r (dst_rect (layer_ h)) |>);
  _ ← on_prog (fun p => p <| geometry_changes_ ::= fun c => Z.lor c (HwcLayer.geometry_changes_ h) |>);
  changes ← st_gets (fun w => geometry_changes_ (prog w));
  let u := if (length (layer_set_ (ls w)) <=? kMaxLayerCount)%nat then IsLayerUpdating (layer_ h) changes else true in
  _ ← put i (on_layer (fun l => l <| frame_rate := rate |> <| lflags ::= fun f => f <| updating := u |> |>) h);
  on_stack (fun s => s <| slayers ::= fun l => l ++ [PLayer i] |>).

(** One turn of the loop: the widest primaries and the secure display so far. *)
Fixpoint build_loop (l : list Z) (working : Z) (secure_active : bool) : W (Z * bool) :=
  match l with
  | [] => mret (working, secure_active)
  | i :: l =>
      _ ← layer_flags i;
      h ← deref i;
      let working := WidestPrimaries working (colorPrimaries (color_metadata (HwcLayer.input_buffer (layer_ h)))) in
      _ ← layer_defaults i;
      '(sec, dsp) ← layer_security i;
      _ ← layer_kind i sec;
      _ ← layer_geometry i;
      _ ← layer_update i;
      build_loop l working (secure_active || dsp)
  end.

(** With FEATURE_WIDE_COLOR: layers of other primaries are left to the client. *)
Definition local_conversion (working : Z) (i : Z) : W unit :=
  h ← deref i;
  let h := if negb (colorPrimaries (color_metadata (HwcLayer.input_buffer (layer_ h))) =? working) &&
              negb (SupportLocalConversion working h)
           then on_layer (fun l => l <| lflags ::= fun f => f <| HwcLayer.skip := true |> |>) h else h in
  _ ← put i h;
  if HwcLayer.skip (lflags (layer_ h)) then on_sflags (fun f => f <| skip_present := true |>) else mret tt.

Definition BuildLayerStack : W unit :=
  w ← st_get;
  _ ← on_stack (fun _ => Stack0 <| sflags := SFlags0 <| animating := animating_ (prog w) |> |>);
  _ ← on_misc (fun m => m <| display_rect_ := LayerRect0 |>);
  _ ← on_rates (fun r => r <| metadata_refresh_rate_ := 0 |>);
  set ← set_of;
  '(working, active) ← build_loop set ColorPrimaries_BT709_5 false;
  _ ← (if wide then for_each set (local_conversion working) else mret tt);
  p ← st_gets prog;
  _ ← on_sflags (fun f => f <| fbt_valid := fbt_valid_ p |> <| geometry_changed := 0 <? geometry_changes_ p |>);
  t ← st_gets (fun w => client_target_ (ls w));
  _ ← on_stack (fun s => s <| slayers ::= fun l => l ++ [PLayer t] |>);
  h ← deref t;
  _ ← (if Is10BitFormat (bformat (HwcLayer.input_buffer (layer_ h))) then MarkLayersForClientComposition else mret tt);
  _ ← SetSecureDisplay active;
  on_ls (fun l => l <| layer_stack_invalid_ := false |>).

(** * Validation *)

(** The keys of [layer_requests_], whose values are all ClearClientTarget. *)
Fixpoint set_request (i : Z) (l : list Z) : list Z :=
  match l with
  | [] => [i]
  | j :: l' => if i <? j then i :: l else if i =? j then l else j :: set_request i l'
  end.

(** The decision of SDM about one layer. *)
Definition take_decision (i : Z) : W unit :=
  h ← deref i;
  let c := composition (layer_ h) in
  _ ← (match c with
       | kCompositionSDE | kCompositionHybrid | kCompositionBlit => on_ls (fun l => l <| layer_requests_ ::= set_request (id_ h) |>)
       | _ => mret tt
       end);
  let h := SetComposition c h in
  _ ← (if decide (client_requested_ h <> device_selected_ h)
       then on_ls (fun l => l <| layer_changes_ ::= zmap_set (id_ h) (device_selected_ h) |>) else mret tt);
  put i (ResetValidation h).

(** SDM's Prepare; [None] when it succeeded. *)
Definition sdm_prepare : W (option Error) :=
  s ← st_gets (fun w => layer_stack_ (ls w));
  vs ← stack_values (slayers s);
  o ← output_value s;
  '(error, vs, f) ← in_sdm (D_Prepare vs o (sflags s));
  _ ← store_values (slayers s) vs;
  _ ← on_sflags (fun _ => f);
  if decide (error <> kErrorNone) then
    _ ← (if decide (error = kErrorShutDown) then on_prog (fun p => p <| shutdown_pending_ := true |>)
         else if decide (error <> kErrorPermission) then on_prog (fun p => p <| flush_ := true |>)
         else mret tt);
    mret (Some BadDisplay)
  else _ ← set_bit; mret None.

(** The error and the two counts, which an early return leaves alone. *)
Definition PrepareLayerStack : W (Error * option (Z * Z)) :=
  _ ← on_ls (fun l => l <| layer_changes_ := [] |> <| layer_requests_ := [] |>);
  p ← st_gets prog;
  if shutdown_pending_ p then mret (BadDisplay, None)
  else
    r ← (if negb (skip_prepare_ p) then sdm_prepare
         else
           _ ← MarkLayersForGPUBypass;
           _ ← on_prog (fun p => p <| skip_prepare_ := false |> <| flush_ := true |>);
           mret None);
    match r with
    | Some e => mret (e, None)
    | None =>
        set ← set_of;
        _ ← for_each set take_decision;
        l ← st_gets ls;
        _ ← modify (client_target_ l) ResetValidation;
        _ ← on_prog (fun p => p <| skip_validate_ := false |>);
        let n := Z.of_nat (length (layer_changes_ l)) in
        mret (if 0 <? n then HasChanges else ENone, Some (n, Z.of_nat (length (layer_requests_ l))))
    end.

(** [layer_map_[id]] makes a null entry where there is none. *)
Fixpoint accept_changes (l : list (Z * HComposition)) : W unit :=
  match l with
  | [] => mret tt
  | (i, c) :: l =>
      m ← st_gets (fun w => layer_map_ (ls w));
      _ ← (match m !! i with
           | Some (Some j) => modify j (fun h => h <| client_requested_ := c |>)
           | Some None => mret tt
           | None => on_ls (fun l => l <| layer_map_ ::= <[i := None]> |>)
           end);
      accept_changes l
  end.
Definition AcceptDisplayChanges : W Error :=
  l ← st_gets ls;
  match layer_set_ l with
  | [] => mret ENone
  | _ =>
      v ← is_validated;
      if negb v then mret NotValidated
      else _ ← accept_changes (layer_changes_ l); mret ENone
  end.

(** The count and, when the client has given arrays, their contents. *)
Definition GetChangedCompositionTypes : W (Error * option (list (Z * HComposition))) :=
  l ← st_gets ls;
  match layer_set_ l with
  | [] => mret (ENone, None)
  | _ =>
      v ← is_validated;
      mret (if negb v then (NotValidated, None) else (ENone, Some (layer_changes_ l)))
  end.
Definition GetDisplayRequests : W (Error * option (list Z * bool)) :=
  l ← st_gets ls;
  match layer_set_ l with
  | [] => mret (ENone, None)
  | _ =>
      v ← is_validated;
      if negb v then mret (NotValidated, None)
      else h ← deref (client_target_ l); mret (ENone, Some (layer_requests_ l, flip_buffer (request (layer_ h))))
  end.
(** The fences of the layers in the order of the set; [false] asks for the count. *)
Fixpoint pop_fences (l : list Z) : W (list (Z * Z)) :=
  match l with
  | [] => mret []
  | i :: l =>
      h ← deref i;
      let '(f, h') := PopReleaseFence h in
      _ ← put i h';
      rest ← pop_fences l;
      mret ((id_ h, f) :: rest)
  end.
Definition GetReleaseFences (arrays : bool) : W (Error * Z * list (Z * Z)) :=
  set ← set_of;
  r ← (if arrays then pop_fences set else mret []);
  mret (ENone, Z.of_nat (length set), r).

(** * Presenting *)
Fixpoint layers_settled (l : list Z) : W bool :=
  match l with
  | [] => mret true
  | i :: l =>
      h ← deref i;
      if NeedsValidation h then mret false
      else if decide (device_selected_ h = Client) then mret false
      else layers_settled l
  end.
Definition CanSkipValidate : W bool :=
  w ← st_get;
  active ← (if hdr_present (sflags (layer_stack_ (ls w))) && tone_mapper_ (misc w) then in_sdm T_IsActive else mret false);
  if (active : bool) then mret false
  else
    t ← deref (client_target_ (ls w));
    if NeedsValidation t then mret false
    else layers_settled (layer_set_ (ls w)).

(** The directory and the files are written by [G_dump]. *)
Definition DumpInputBuffers : W unit :=
  w ← st_get;
  if (dump_frame_count_ (misc w) =? 0) || flush_ (prog w) || negb (dump_input_layers_ (misc w)) then mret tt
  else in_gr G_dump.

Definition tone_map : W unit :=
  w ← st_get;
  if negb (tone_mapper_ (misc w)) then mret tt
  else if hdr_present (sflags (layer_stack_ (ls w))) then
    let ptrs := slayers (layer_stack_ (ls w)) in
    vs ← stack_values ptrs;
    '(_, vs) ← in_sdm (T_HandleToneMap vs);
    store_values ptrs vs
  else in_sdm T_Terminate.

Definition CommitLayerStack : W Error :=
  p ← st_gets prog;
  if flush_ p then mret ENone
  else
    _ ← (if skip_validate_ p then c ← CanSkipValidate; if negb c then reset_bit else mret tt else mret tt);
    v ← is_validated;
    if negb v then mret NotValidated
    else
      set ← set_of;
      if shutdown_pending_ p || bool_decide (set = []) then mret ENone
      else
        _ ← DumpInputBuffers;
        _ ← tone_map;
        s ← st_gets (fun w => layer_stack_ (ls w));
        vs ← stack_values (slayers s);
        o ← output_value s;
        '(error, vs, o', fence) ← in_sdm (D_Commit vs o (sflags s) (retire_fence_fd s));
        _ ← store_values (slayers s) vs;
        _ ← (if output_buffer s then on_out (fun x => x <| output_buffer_ := o' |>) else mret tt);
        _ ← on_stack (fun s => s <| retire_fence_fd := fence |>);
        if decide (error = kErrorNone) then
          _ ← on_prog (fun p => p <| flush_on_error_ := true |> <| skip_validate_ := true |>); mret ENone
        else if decide (error = kErrorShutDown) then
          _ ← on_prog (fun p => p <| shutdown_pending_ := true |>); mret Unsupported
        else if decide (error = kErrorNotValidated) then _ ← reset_bit; mret NotValidated
        else
          _ ← (if decide (error <> kErrorPermission) then on_prog (fun p => p <| flush_ := true |>) else mret tt);
          _ ← on_prog (fun p => p <| skip_validate_ := true |>);
          mret ENone.

(** What happens to the fences of one layer. *)
Definition retire_layer (flush swap0 : bool) (i : Z) : W unit :=
  _ ← modify i ResetGeometryChanges;
  h ← deref i;
  let b := HwcLayer.input_buffer (layer_ h) in
  h ← (if negb flush then
         if swap0 || single_buffer (lflags (layer_ h)) then _ ← in_gr (G_close (HwcLayer.release_fence_fd b)); mret h
         else if decide (composition (layer_ h) <> kCompositionGPU) then mret (PushReleaseFence (HwcLayer.release_fence_fd b) h)
         else mret (PushReleaseFence (-1) h)
       else mret (PushReleaseFence (-1) h));
  let h := on_buffer (fun b => b <| HwcLayer.release_fence_fd := -1 |>) h in
  h ← (if 0 <=? HwcLayer.acquire_fence_fd b then
         _ ← in_gr (G_close (HwcLayer.acquire_fence_fd b)); mret (on_buffer (fun b => b <| HwcLayer.acquire_fence_fd := -1 |>) h)
       else mret h);
  put i (on_layer (fun l => l <| request := RequestFlags0 |>) h).

Definition retire_target : W unit :=
  t ← st_gets (fun w => client_target_ (ls w));
  h ← deref t;
  let fd := HwcLayer.release_fence_fd (HwcLayer.input_buffer (layer_ h)) in
  h ← (if 0 <=? fd then _ ← in_gr (G_close fd); mret (on_buffer (fun b => b <| HwcLayer.release_fence_fd := -1 |>) h) else mret h);
  put t (ResetGeometryChanges h).

(** The retire fence. *)
Definition PostCommitLayerStack : W (Error * Z) :=
  p ← st_gets prog;
  _ ← (if flush_ p && flush_on_error_ p then
         _ ← in_sdm (D_Flush (secure_display_transition_ p));
         _ ← on_prog (fun p => p <| secure_display_transition_ := false |>);
         _ ← reset_bit;
         on_prog (fun p => p <| flush_on_error_ := false |>)
       else mret tt);
  w ← st_get;
  active ← (if tone_mapper_ (misc w) then in_sdm T_IsActive else mret false);
  _ ← (if (active : bool) then
         let ptrs := slayers (layer_stack_ (ls w)) in
         vs ← in_sdm (T_PostCommit (map (live_value w) ptrs)); store_live ptrs vs
       else mret tt);
  _ ← retire_target;
  set ← set_of;
  _ ← for_each set (retire_layer (flush_ p) (swap_interval_zero_ (misc w)));
  _ ← sdm_layer (client_target_ (ls w)) (fun l => l <| request := RequestFlags0 |>);
  fence ← (if negb (flush_ p) then
             s ← st_gets (fun w => layer_stack_ (ls w));
             r ← (if swap_interval_zero_ (misc w) then _ ← in_gr (G_close (retire_fence_fd s)); mret (-1)
                  else mret (retire_fence_fd s));
             _ ← on_stack (fun s => s <| retire_fence_fd := -1 |>);
             _ ← on_misc (fun m => if dump_frame_count_ m =? 0 then m
                   else m <| dump_frame_count_ ::= Z.pred |> <| dump_frame_index_ ::= fun i => u32 (i + 1) |>);
             mret r
           else mret (-1));
  _ ← on_prog (fun p => p <| geometry_changes_ := 0 |> <| flush_ := false |>);
  mret (ENone, fence).

Definition close_acquire (i : Z) : W unit :=
  h ← deref i;
  let fd := HwcLayer.acquire_fence_fd (HwcLayer.input_buffer (layer_ h)) in
  if 0 <=? fd then _ ← in_gr (G_close fd); put i (on_buffer (fun b => b <| HwcLayer.acquire_fence_fd := -1 |>) h) else mret tt.
Definition CloseAcquireFds : W unit :=
  set ← set_of;
  _ ← for_each set close_acquire;
  t ← st_gets (fun w => client_target_ (ls w));
  close_acquire t.

(** * Power, vsync and configurations *)
Inductive Vsync := VInvalid | VEnable | VDisable.
Definition SetVsyncEnabled (enabled : Vsync) : W Error :=
  p ← st_gets prog;
  reg ← (if shutdown_pending_ p then mret false else in_sdm CB_VsyncRegistered);
  if negb reg then mret ENone
  else match enabled with
  | VInvalid => mret BadParameter
  | _ =>
      error ← in_sdm (D_SetVSyncState (match enabled with VEnable => true | _ => false end));
      if decide (error = kErrorNone) then mret ENone
      else if decide (error = kErrorShutDown) then _ ← on_prog (fun p => p <| shutdown_pending_ := true |>); mret ENone
      else mret BadDisplay
  end.

Definition power_state (mode : PowerMode) : option CompMgr.DisplayState :=
  match mode with
  | POff => Some CompMgr.kStateOff | POn => Some CompMgr.kStateOn | PDoze => Some CompMgr.kStateDoze
  | PDozeSuspend => Some CompMgr.kStateDozeSuspend | OtherPower _ => None
  end.
Definition SetPowerMode (mode : PowerMode) : W Error :=
  w ← st_get;
  if shutdown_pending_ (prog w) then mret ENone
  else match power_state mode with
  | None => mret BadParameter
  | Some state =>
      _ ← (match mode with
           | POff => if tone_mapper_ (misc w) then in_sdm T_Terminate else mret tt
           | _ => on_misc (fun m => m <| last_power_mode_ := Some mode |>)
           end);
      error ← in_sdm (D_SetDisplayState state);
      _ ← reset_validated;
      if decide (error = kErrorNone) then
        _ ← (match mode with POff => on_prog (fun p => p <| flush_on_error_ := false |>) | _ => mret tt end);
        mret ENone
      else if decide (error = kErrorShutDown) then _ ← on_prog (fun p => p <| shutdown_pending_ := true |>); mret ENone
      else mret BadParameter
  end.

Inductive DisplayStatus := kDisplayStatusInvalid | kDisplayStatusOffline | kDisplayStatusOnline | kDisplayStatusPause | kDisplayStatusResume.
(** [None] is -EINVAL. *)
Definition SetDisplayStatus (status : DisplayStatus) : W (option Error) :=
  match status with
  | kDisplayStatusInvalid => mret None
  | _ =>
      _ ← (match status with
           | kDisplayStatusResume => on_prog (fun p => p <| display_paused_ := false |> <| fbt_valid_ := false |>)
           | kDisplayStatusPause => on_prog (fun p => p <| display_paused_ := true |>)
           | _ => mret tt
           end);
      e ← SetPowerMode (match status with kDisplayStatusResume | kDisplayStatusOnline => POn | _ => POff end);
      _ ← (match status with
           | kDisplayStatusResume | kDisplayStatusPause => _ ← in_sdm CB_Refresh; reset_validated
           | _ => mret tt
           end);
      mret (Some e)
  end.

Definition GetClientTargetSupport (w h format dataspace : Z) : W Error :=
  let c := if dataspace =? DATASPACE_UNKNOWN then ColorMetaData0
           else ColorMetaData0 <| colorPrimaries := snd (GetColorPrimary dataspace 0) |>
                  <| transfer := snd (GetTransfer dataspace 0) |> <| range := GetRange dataspace 0 |> in
  error ← in_sdm (D_GetClientTargetSupport w h (GetSDMFormat format 0) c);
  mret (if decide (error <> kErrorNone) then Unsupported else ENone).
(** GetSDMFormat of HWCDisplay; the two switches are written out a second time. *)
Definition Display_GetSDMFormat (source flags : Z) : LayerBufferFormat :=
  if has_flag flags GrUtils.PRIV_FLAGS_UBWC_ALIGNED then
    match GrUtils.hal_format source with
    | GrUtils.HAL_PIXEL_FORMAT_RGBA_8888 => kFormatRGBA8888Ubwc
    | GrUtils.HAL_PIXEL_FORMAT_RGBX_8888 => kFormatRGBX8888Ubwc
    | GrUtils.HAL_PIXEL_FORMAT_BGR_565 => kFormatBGR565Ubwc
    | GrUtils.HAL_PIXEL_FORMAT_YCbCr_420_SP_VENUS => kFormatYCbCr420SPVenusUbwc
    | GrUtils.HAL_PIXEL_FORMAT_YCbCr_420_SP_VENUS_UBWC => kFormatYCbCr420SPVenusUbwc
    | GrUtils.HAL_PIXEL_FORMAT_NV12_ENCODEABLE => kFormatYCbCr420SPVenusUbwc
    | GrUtils.HAL_PIXEL_FORMAT_RGBA_1010102 => kFormatRGBA1010102Ubwc
    | GrUtils.HAL_PIXEL_FORMAT_RGBX_1010102 => kFormatRGBX1010102Ubwc
    | GrUtils.HAL_PIXEL_FORMAT_YCbCr_420_TP10_UBWC => kFormatYCbCr420TP10Ubwc
    | GrUtils.HAL_PIXEL_FORMAT_YCbCr_420_P010_UBWC => kFormatYCbCr420P010Ubwc
    | _ => kFormatInvalid
    end
  else
    match GrUtils.hal_format source with
    | GrUtils.HAL_PIXEL_FORMAT_RGBA_8888 => kFormatRGBA8888
    | GrUtils.HAL_PIXEL_FORMAT_RGBA_5551 => kFormatRGBA5551
    | GrUtils.HAL_PIXEL_FORMAT_RGBA_4444 => kFormatRGBA4444
    | GrUtils.HAL_PIXEL_FORMAT_BGRA_8888 => kFormatBGRA8888
    | GrUtils.HAL_PIXEL_FORMAT_RGBX_8888 => kFormatRGBX8888
    | GrUtils.HAL_PIXEL_FORMAT_BGRX_8888 => kFormatBGRX8888
    | GrUtils.HAL_PIXEL_FORMAT_RGB_888 => kFormatRGB888
    | GrUtils.HAL_PIXEL_FORMAT_RGB_565 => kFormatRGB565
    | GrUtils.HAL_PIXEL_FORMAT_BGR_565 => kFormatBGR565
    | GrUtils.HAL_PIXEL_FORMAT_BGR_888 => kFormatBGR888
    | GrUtils.HAL_PIXEL_FORMAT_NV12_ENCODEABLE => kFormatYCbCr420SemiPlanarVenus
    | GrUtils.HAL_PIXEL_FORMAT_YCbCr_420_SP_VENUS => kFormatYCbCr420SemiPlanarVenus
    | GrUtils.HAL_PIXEL_FORMAT_YCrCb_420_SP_VENUS => kFormatYCrCb420SemiPlanarVenus
    | GrUtils.HAL_PIXEL_FORMAT_YCbCr_420_SP_VENUS_UBWC => kFormatYCbCr420SPVenusUbwc
    | GrUtils.HAL_PIXEL_FORMAT_YV12 => kFormatYCrCb420PlanarStride16
    | GrUtils.HAL_PIXEL_FORMAT_YCrCb_420_SP => kFormatYCrCb420SemiPlanar
    | GrUtils.HAL_PIXEL_FORMAT_YCbCr_420_SP => kFormatYCbCr420SemiPlanar
    | GrUtils.HAL_PIXEL_FORMAT_YCbCr_422_SP => kFormatYCbCr422H2V1SemiPlanar
    | GrUtils.HAL_PIXEL_FORMAT_YCbCr_422_I => kFormatYCbCr422H2V1Packed
    | GrUtils.HAL_PIXEL_FORMAT_CbYCrY_422_I => kFormatCbYCrY422H2V1Packed
    | GrUtils.HAL_PIXEL_FORMAT_RGBA_1010102 => kFormatRGBA1010102
    | GrUtils.HAL_PIXEL_FORMAT_ARGB_2101010 => kFormatARGB2101010
    | GrUtils.HAL_PIXEL_FORMAT_RGBX_1010102 => kFormatRGBX1010102
    | GrUtils.HAL_PIXEL_FORMAT_XRGB_2101010 => kFormatXRGB2101010
    | GrUtils.HAL_PIXEL_FORMAT_BGRA_1010102 => kFormatBGRA1010102
    | GrUtils.HAL_PIXEL_FORMAT_ABGR_2101010 => kFormatABGR2101010
    | GrUtils.HAL_PIXEL_FORMAT_BGRX_1010102 => kFormatBGRX1010102
    | GrUtils.HAL_PIXEL_FORMAT_XBGR_2101010 => kFormatXBGR2101010
    | GrUtils.HAL_PIXEL_FORMAT_YCbCr_420_P010 => kFormatYCbCr420P010
    | GrUtils.HAL_PIXEL_FORMAT_YCbCr_420_TP10_UBWC => kFormatYCbCr420TP10Ubwc
    | GrUtils.HAL_PIXEL_FORMAT_YCbCr_420_P010_UBWC => kFormatYCbCr420P010Ubwc
    | _ => kFormatInvalid
    end.

(** The configurations 0, 1, ... *)
Definition GetDisplayConfigs : W (list Z) := n ← st_gets (fun w => num_configs_ (misc w)); mret (seqZ 0 n).
Inductive Attribute := VsyncPeriod | AWidth | AHeight | DpiX | DpiY | OtherAttribute.
Definition attribute_value (a : Attribute) (c : FbConfig) : outcome (Error * Z) :=
  match a with
  | VsyncPeriod => Ret (ENone, s32 (vsync_period_ns c))
  | AWidth => Ret (ENone, s32 (x_pixels c))
  | AHeight => Ret (ENone, s32 (y_pixels c))
  | DpiX => v ← INT (fmul (x_dpi c) (FLOAT 1000)); Ret (ENone, v)
  | DpiY => v ← INT (fmul (y_dpi c) (FLOAT 1000)); Ret (ENone, v)
  | OtherAttribute => Ret (BadConfig, -1)
  end.
Definition GetDisplayAttribute (config : Z) (a : Attribute) : W (Error * option Z) :=
  n ← st_gets (fun w => num_configs_ (misc w));
  '(error, c) ← in_sdm (if 1 <? n then D_GetConfig config else D_GetFrameBufferConfig);
  if decide (error <> kErrorNone) then mret (BadDisplay, None)
  else '(e, v) ← st_lift (attribute_value a c); mret (e, Some v).

(** strlcpy with the length of the name as the size of the buffer. *)
Definition display_name (id : Z) : string :=
  if id =? 0 then "Primary Display" else if id =? 1 then "External Display"
  else if id =? 2 then "Virtual Display" else "Unknown".
Definition GetDisplayName (id : Z) (out : bool) : Z * option string :=
  if negb out then (32, None)
  else let n := display_name id in
       (Z.of_nat (String.length n), Some (String.substring 0 (String.length n - 1) n)).

Definition GetActiveConfig : W (Error * option Z) :=
  '(error, i) ← in_sdm (D_GetActiveConfig 0);
  mret (if decide (error = kErrorNone) then (ENone, Some i) else (BadConfig, None)).
Definition SetActiveConfig (config : Z) : W Error :=
  error ← in_sdm (D_SetActiveConfig config);
  _ ← reset_validated;
  if decide (error <> kErrorNone) then mret BadConfig else _ ← reset_validated; mret ENone.

Definition kLuminanceFactor : float := FLOAT 10000.
Definition GetHdrCapabilities (arrays : bool) : W (Z * option (float * float * float)) :=
  i ← in_sdm D_GetFixedConfig;
  mret (if negb (hdr_supported i) then (0, None)
        else if negb arrays then (1, None)
        else (1, Some (fdiv (FLOAT (max_luminance i)) kLuminanceFactor, fdiv (FLOAT (average_luminance i)) kLuminanceFactor,
                       fdiv (FLOAT (min_luminance i)) kLuminanceFactor))).

(** * The client target *)
Definition SetClientTarget (target acquire_fence dataspace : Z) (damage : list IRect) : W Error :=
  if target =? 0 then mret ENone
  else if acquire_fence =? 0 then mret BadParameter
  else
    t ← st_gets (fun w => client_target_ (ls w));
    h ← deref t;
    '(_, h) ← in_gr (SetLayerBuffer target acquire_fence h);
    let h := snd (SetLayerSurfaceDamage damage h) in
    let h := if negb (dataspace_ h =? dataspace) then
               on_buffer (fun b => b <| color_metadata ::= fun c => snd (GetSDMColorSpace dataspace c) |>)
                 (snd (SetLayerDataspace dataspace h))
             else h in
    _ ← put t h;
    _ ← on_prog (fun p => p <| fbt_valid_ := true |>);
    mret ENone.

Definition GRALLOC_USAGE_HW_FB : Z := 0x00001000.
Definition GRALLOC_USAGE_PRIVATE_ALLOC_UBWC : Z := 0x10000000.
Definition DISABLE_UBWC_PROP : string := "vendor.gralloc.disable_ubwc".
(** A flag read from a property. *)
Definition property_flag (name : string) : W bool :=
  v ← in_gr (G_GetProperty name); mret (negb (default 0 v =? 0)).
(** [rgba] is HAL_PIXEL_FORMAT_RGBA_8888; the result is 0 or -EINVAL. *)
Definition SetFrameBufferResolution (rgba x y : Z) : W Z :=
  if (x <=? 0) || (y <=? 0) then mret (-22)
  else
    '(error, fb) ← in_sdm D_GetFrameBufferConfig;
    if decide (error <> kErrorNone) then mret (-22)
    else
      error ← in_sdm (D_SetFrameBufferConfig (mkFb x y (x_dpi fb) (y_dpi fb) (fps fb) (vsync_period_ns fb) (is_yuv fb)));
      if decide (error <> kErrorNone) then mret (-22)
      else
        f ← ApplyScanAdjustment (mkIRect 0 0 (s32 x) (s32 y));
        t ← st_gets (fun w => client_target_ (ls w));
        _ ← modify t (fun h => on_layer (fun l => l <| src_rect := mkRect f_zero f_zero (FLOAT x) (FLOAT y) |>)
                                 (snd (SetLayerDisplayFrame f h)));
        ubwc_disabled ← property_flag DISABLE_UBWC_PROP;
        let usage := if (ubwc_disabled : bool) then GRALLOC_USAGE_HW_FB else Z.lor GRALLOC_USAGE_HW_FB GRALLOC_USAGE_PRIVATE_ALLOC_UBWC in
        let flags := if (ubwc_disabled : bool) then 0 else GrUtils.PRIV_FLAGS_UBWC_ALIGNED in
        '(aw, ah) ← in_gr (G_GetAlignedWidthAndHeight (s32 x) (s32 y) rgba usage);
        _ ← sdm_layer t (fun l => l <| composition := CompositionGPUTarget |> <| plane_alpha := 255 |>
              <| HwcLayer.input_buffer ::= fun b => b <| bformat := Display_GetSDMFormat rgba flags |> <| width := u32 aw |>
                   <| height := u32 ah |> <| unaligned_width := x |> <| unaligned_height := y |> |>);
        mret 0.

(** * Cursor, events and other requests *)
Definition SetCursorPosition (i x y : Z) : W Error :=
  w ← st_get;
  if shutdown_pending_ (prog w) then mret ENone
  else if negb (cursor_present (sflags (layer_stack_ (ls w)))) then mret BadLayer
  else
    p ← GetHWCLayer i;
    match p with
    | None => mret BadLayer
    | Some j =>
        h ← deref j;
        v ← is_validated;
        if decide (device_selected_ h <> Cursor) then mret ENone
        else if negb (skip_validate_ (prog w)) && v then mret NotValidated
        else
          '(error, s) ← in_sdm D_GetDisplayState;
          if bool_decide (error = kErrorNone) && match s with CompMgr.kStateOn => false | _ => true end then mret ENone
          else
            error ← in_sdm (D_SetCursorPosition x y);
            if decide (error = kErrorNone) then mret ENone
            else if decide (error = kErrorShutDown) then _ ← on_prog (fun p => p <| shutdown_pending_ := true |>); mret ENone
            else mret BadDisplay
    end.

Definition OnThermalEvent : W unit := reset_validated.
Definition SetMaxMixerStages (n : Z) : W DisplayError := e ← in_sdm (D_SetMaxMixerStages n); _ ← reset_validated; mret e.
Definition OnMinHdcpEncryptionLevelChange (level : Z) : W Z :=
  e ← in_sdm (D_OnMinHdcpEncryptionLevelChange level);
  if decide (e <> kErrorNone) then mret (-1) else _ ← reset_validated; mret 0.
Definition SetPanelBrightness (level : Z) : W Z := r ← in_sdm (D_SetPanelBrightness level); _ ← reset_validated; mret r.
Definition ToggleScreenUpdates (enable : bool) : W Z :=
  _ ← on_prog (fun p => p <| display_paused_ := negb enable |>); _ ← in_sdm CB_Refresh; _ ← reset_validated; mret 0.
Definition SetDisplayAnimating (b : bool) : W Error :=
  _ ← on_prog (fun p => p <| animating_ := b |> <| validated_ := ∅ |>); mret ENone.
Definition SetFrameDumpConfig (count mask : Z) : W unit :=
  m ← st_gets misc;
  _ ← on_misc (fun m => m <| dump_frame_count_ := count |> <| dump_frame_index_ := 0 |> <| dump_input_layers_ := Z.testbit mask 0 |>);
  _ ← (if tone_mapper_ m then in_sdm (T_SetFrameDumpConfig count) else mret tt);
  reset_validated.

(** ** Solid fill *)
Definition SolidFillPrepare : W unit :=
  m ← st_gets misc;
  if solid_fill_enable_ m then
    s ← st_gets solid_fill_layer_;
    '(error, mw, mh) ← in_sdm D_GetMixerResolution;
    let r := mkRect f_zero f_zero (FLOAT mw) (FLOAT mh) in
    let l := default Layer0 s in
    let l := l <| HwcLayer.input_buffer ::= fun b => b <| width := mw |> <| height := mh |> <| unaligned_width := mw |>
                 <| unaligned_height := mh |> <| HwcLayer.acquire_fence_fd := -1 |> <| HwcLayer.release_fence_fd := -1 |> |>
               <| composition := kCompositionGPU |> <| src_rect := r |> <| dst_rect := r |> <| blending := kBlendingPremultiplied |>
               <| solid_fill_color := solid_fill_color_ m |> <| frame_rate := 60 |> <| visible_regions ::= fun v => v ++ [r] |>
               <| lflags ::= fun f => f <| updating := true |> <| solid_fill := true |> |> in
    _ ← st_modify (fun w => w <| solid_fill_layer_ := Some l |>);
    t ← st_gets (fun w => client_target_ (ls w));
    _ ← on_stack (fun _ => Stack0 <| slayers := [PSolid; PLayer t] |> <| sflags := SFlags0 <| geometry_changed := true |> |>);
    _ ← on_misc (fun m => m <| display_rect_ := LayerRect0 |>);
    MarkLayersForGPUBypass
  else st_modify (fun w => w <| solid_fill_layer_ := None |>).
Definition SolidFillCommit : W unit :=
  w ← st_get;
  match solid_fill_layer_ w with
  | Some l =>
      if negb (solid_fill_enable_ (misc w)) then mret tt
      else
        let fd := HwcLayer.release_fence_fd (HwcLayer.input_buffer l) in
        _ ← (if 0 <? fd then
               _ ← in_gr (G_close fd);
               st_modify (fun w => w <| solid_fill_layer_ :=
                 Some (l <| HwcLayer.input_buffer ::= fun b => b <| HwcLayer.release_fence_fd := -1 |> |>) |>)
             else mret tt);
        let fd := retire_fence_fd (layer_stack_ (ls w)) in
        if 0 <? fd then _ ← in_gr (G_close fd); on_stack (fun s => s <| retire_fence_fd := -1 |>) else mret tt
  | None => mret tt
  end.
(** The numbers of updating layers of the stack. *)
Definition GetUpdatingLayersCount : W Z :=
  s ← st_gets (fun w => layer_stack_ (ls w));
  vs ← stack_values (slayers s);
  mret (Z.of_nat (length (filter (fun l => updating (lflags l) = true) vs))).

Definition GetVisibleDisplayRect : W (option IRect) :=
  r ← st_gets (fun w => display_rect_ (misc w));
  if negb (IsValid r) then mret None
  else
    l ← st_lift (INT (left r)); t ← st_lift (INT (top r)); rr ← st_lift (INT (right r)); b ← st_lift (INT (bottom r));
    mret (Some (mkIRect l t rr b)).
Definition GetFrameBufferResolution : W (Z * Z) :=
  '(_, c) ← in_sdm D_GetFrameBufferConfig; mret (x_pixels c, y_pixels c).
Definition GetPanelResolution : W (Z * Z) :=
  '(_, i) ← in_sdm (D_GetActiveConfig 0);
  '(_, c) ← in_sdm (D_GetConfig i);
  mret (x_pixels c, y_pixels c).
(** The services' calls: 0 or -1. *)
Definition status_of (e : DisplayError) : Z := if decide (e = kErrorNone) then 0 else -1.
Definition SetActiveDisplayConfig (config : Z) : W Z :=
  e ← in_sdm (D_SetActiveConfig config); _ ← reset_validated; mret (status_of e).
Definition GetActiveDisplayConfig (config : Z) : W (Z * Z) :=
  '(e, c) ← in_sdm (D_GetActiveConfig config); mret (status_of e, c).
Definition GetDisplayConfigCount (count : Z) : W (Z * Z) :=
  '(e, c) ← in_sdm (D_GetNumVariableInfoConfigs count); mret (status_of e, c).
Definition GetDisplayAttributesForConfig (config : Z) : W (Z * FbConfig) :=
  '(e, c) ← in_sdm (D_GetConfig (u32 config)); mret (status_of e, c).

(** * Making and destroying a display *)
Definition DISABLE_HDR : string := "vendor.display.hwc_disable_hdr".
Definition ZERO_SWAP_INTERVAL : string := "vendor.debug.egl.swapinterval".
Definition EXTERNAL_ACTION_SAFE_WIDTH_PROP : string := "vendor.display.external_action_safe_width".
Definition EXTERNAL_ACTION_SAFE_HEIGHT_PROP : string := "vendor.display.external_action_safe_height".

(** The object after its constructor; the null client target is -1. *)
Definition new_HWCDisplay (type : DisplayType) (id : Z) (w : World) : World :=
  mkHWorld (heap w) (next_id_ w) None (mkLayersOf ∅ [] (-1) [] [] Stack0 true)
    (mkProgress (validated_ (prog w)) false false false false false false false false 0 false false false)
    (mkRates 0 0 0 false 0 0 false)
    (mkMisc type false false false 0 None 0 0 false false 0 LayerRect0 0 0 false false false id)
    (mkOutput (match type with kPrimary => Some Buffer0 | _ => None end) 0 false false (-11) false BufferInfo0 0)
    None (gr w) (sdm w).

(** Only the external display reads the properties. *)
Definition GetUnderScanConfig : W unit :=
  m ← st_gets misc;
  if decide (type_ m <> kHDMI) then mret tt
  else
    sup ← in_sdm D_IsUnderscanSupported;
    if (sup : bool) then mret tt
    else
      uw ← in_gr (G_GetProperty EXTERNAL_ACTION_SAFE_WIDTH_PROP);
      uh ← in_gr (G_GetProperty EXTERNAL_ACTION_SAFE_HEIGHT_PROP);
      on_misc (fun m => m <| underscan_width_ ::= fun x => default x uw |> <| underscan_height_ ::= fun x => default x uh |>).

(** HWCDisplay::Init; 0 or -EINVAL. *)
Definition Init : W Z :=
  t ← st_gets (fun w => type_ (misc w));
  e ← in_sdm (C_CreateDisplay t);
  if decide (e <> kErrorNone) then mret (-22)
  else
    _ ← reset_validated;
    hdr_off ← property_flag DISABLE_HDR;
    swap ← in_gr (G_GetProperty ZERO_SWAP_INTERVAL);
    _ ← on_misc (fun m => m <| disable_hdr_handling_ := hdr_off |>
          <| swap_interval_zero_ ::= fun b => if decide (swap = Some 0) then true else b |>);
    i ← st_gets next_id_;
    _ ← put i (new_HWCLayer i);
    _ ← st_modify (fun w => w <| next_id_ := u64 (i + 1) |> <| ls ::= fun l => l <| client_target_ := i |> |>);
    _ ← on_prog (fun p => p <| fbt_valid_ := false |>);
    n ← st_gets (fun w => num_configs_ (misc w));
    '(e, n) ← in_sdm (D_GetNumVariableInfoConfigs n);
    _ ← on_misc (fun m => m <| num_configs_ := n |>);
    if decide (e <> kErrorNone) then mret (-22)
    else
      _ ← on_misc (fun m => m <| tone_mapper_ := true |>);
      '(lo, hi) ← in_sdm D_GetRefreshRateRange;
      _ ← on_rates (fun r => r <| min_refresh_rate_ := lo |> <| max_refresh_rate_ := hi |> <| current_refresh_rate_ := hi |>);
      _ ← GetUnderScanConfig;
      mret 0.

Definition delete_layer (i : Z) : W unit :=
  h ← deref i; _ ← in_gr (delete_HWCLayer h); st_modify (fun w => w <| heap ::= delete i |>).
(** HWCDisplay::Deinit; the object is deleted after it. *)
Definition Deinit : W Z :=
  e ← in_sdm C_DestroyDisplay;
  if decide (e <> kErrorNone) then mret (-22)
  else
    l ← st_gets ls;
    _ ← delete_layer (client_target_ l);
    _ ← for_each (layer_set_ l) delete_layer;
    _ ← st_modify (fun w => w <| color_mode_ := None |>);
    _ ← on_misc (fun m => m <| tone_mapper_ := false |>);
    mret 0.
End HwcDisplay.
End HwcDisplay.
