(* ===== verification/HwcDisplays.v ===== *)
(** The three classes of displays of the hardware composer:
    src/hardware/qcom-caf/display/sdm/libs/hwc2/hwc_display_primary.cpp,
    hwc_display_external.cpp and hwc_display_virtual.cpp, with display_null.cpp.

    The display interface of an external display points to its null display while
    nothing is connected: [Ext V] is the state of SDM together with that pointer and
    the null display, and is itself an instance of the interface of SDM. *)
From S2P Require Import Prelude Rect ResourceDefault MetaData GrUtils Alloc BufMgr Strategy CompMgr DisplayBase HwcLayer HwcColor.
From S2P Require Import HwcDisplay.
#[local] Open Scope Z_scope.

(** * The null display *)
Module DisplayNull.
Import Float32 Rect Formats ResourceDefault Strategy HwcLayer HwcColor HwcDisplay.

Record Null := mkNull { active_ : bool; state_ : CompMgr.DisplayState; fb_config_ : FbConfig }.
#[global] Instance eta_null : Eta Null := fun n => mkNull (active_ n) (state_ n) (fb_config_ n).
Definition FbConfig0 : FbConfig := mkFb 0 0 f_zero f_zero 0 0 false.
Definition Null0 : Null := mkNull false CompMgr.kStateOff FbConfig0.

(** The layers after Commit, and the retire fence. *)
Definition null_layer (l : Layer) : Layer :=
  if decide (composition l <> CompositionGPUTarget) then
    l <| composition := kCompositionSDE |> <| input_buffer ::= fun b => b <| release_fence_fd := -1 |> |>
  else l.
Definition Null_Commit (vs : list Layer) : DisplayError * list Layer * Z := (kErrorNone, null_layer <$> vs, -1).

(** The pointer is to the null display when [to_null]. *)
Record Ext (V : Type) := mkExt { real : V; to_null : bool; null : Null }.
Arguments mkExt {V}.
Arguments real {V}.
Arguments to_null {V}.
Arguments null {V}.
#[global] Instance eta_ext {V} : Eta (Ext V) := fun e => mkExt (real e) (to_null e) (null e).

Section Null.
Context {V : Type} `{!Sdm V, !ColorIntf V}.
(** A call of SDM, and a call through the pointer with what the null display answers. *)
Definition in_real {A} (m : St V A) : St (Ext V) A := fun e =>
  match m (real e) with Ret (a, v) => Ret (a, e <| real := v |>) | Undef => Undef | NoFuel => NoFuel end.
Definition via {A} (n : A) (m : St V A) : St (Ext V) A := fun e => if to_null e then Ret (n, e) else in_real m e.
Definition in_null {A} (n : St Null A) : St (Ext V) A := fun e =>
  match n (null e) with Ret (a, x) => Ret (a, e <| null := x |>) | Undef => Undef | NoFuel => NoFuel end.
Definition via_null {A} (n : St Null A) (m : St V A) : St (Ext V) A := fun e => if to_null e then in_null n e else in_real m e.

Definition Null_SetDisplayState (s : CompMgr.DisplayState) : St Null DisplayError :=
  _ ← st_modify (fun n => n <| state_ := s |>); mret kErrorNone.
Definition Null_GetDisplayState : St Null (DisplayError * CompMgr.DisplayState) := st_gets (fun n => (kErrorNone, state_ n)).
Definition Null_SetFrameBufferConfig (c : FbConfig) : St Null DisplayError :=
  _ ← st_modify (fun n => n <| fb_config_ := c |>); mret kErrorNone.
Definition Null_GetFrameBufferConfig : St Null (DisplayError * FbConfig) := st_gets (fun n => (kErrorNone, fb_config_ n)).

#[global] Instance ext_sdm : Sdm (Ext V) := {
  D_Prepare vs o f := via (kErrorNone, vs, f) (D_Prepare vs o f);
  D_Commit vs o f r := via (let '(e, vs, fence) := Null_Commit vs in (e, vs, o, fence)) (D_Commit vs o f r);
  D_Flush s := via kErrorNone (D_Flush s);
  D_SetDisplayState s := via_null (Null_SetDisplayState s) (D_SetDisplayState s);
  D_GetDisplayState := via_null Null_GetDisplayState D_GetDisplayState;
  D_SetVSyncState b := via kErrorNone (D_SetVSyncState b);
  D_SetActiveConfig c := via kErrorNone (D_SetActiveConfig c);
  D_SetActiveConfigInfo c := via kErrorNone (D_SetActiveConfigInfo c);
  D_GetActiveConfig c := via (kErrorNone, c) (D_GetActiveConfig c);
  D_GetNumVariableInfoConfigs n := via (kErrorNone, n) (D_GetNumVariableInfoConfigs n);
  D_GetConfig c := via (kErrorNone, FbConfig0) (D_GetConfig c);
  D_GetFixedConfig := via (mkFixedInfo false false 0 0 0) D_GetFixedConfig;
  D_GetFrameBufferConfig := via_null Null_GetFrameBufferConfig D_GetFrameBufferConfig;
  D_SetFrameBufferConfig c := via_null (Null_SetFrameBufferConfig c) (D_SetFrameBufferConfig c);
  D_GetMixerResolution := via (kErrorNone, 0, 0) D_GetMixerResolution;
  D_SetMixerResolution w h := via kErrorNone (D_SetMixerResolution w h);
  D_GetRefreshRateRange := via (0, 0) D_GetRefreshRateRange;
  D_SetRefreshRate r := via kErrorNone (D_SetRefreshRate r);
  D_SetMaxMixerStages n := via kErrorNone (D_SetMaxMixerStages n);
  D_SetCursorPosition x y := via kErrorNone (D_SetCursorPosition x y);
  D_SetPanelBrightness l := via 0 (D_SetPanelBrightness l);
  D_GetClientTargetSupport w h f c := via kErrorNone (D_GetClientTargetSupport w h f c);
  D_OnMinHdcpEncryptionLevelChange l := via kErrorNone (D_OnMinHdcpEncryptionLevelChange l);
  D_SetIdleTimeoutMs t := via tt (D_SetIdleTimeoutMs t);
  D_SetDisplayMode m := via kErrorNone (D_SetDisplayMode m);
  D_ApplyDefaultDisplayMode := via kErrorNone D_ApplyDefaultDisplayMode;
  D_ControlPartialUpdate b := via (kErrorNone, 0) (D_ControlPartialUpdate b);
  D_DisablePartialUpdateOneFrame := via kErrorNone D_DisablePartialUpdateOneFrame;
  D_SetDetailEnhancerData d := via kErrorNone (D_SetDetailEnhancerData d);
  D_IsUnderscanSupported := via true D_IsUnderscanSupported;
  D_GetPanelBrightness := via (0, 0) D_GetPanelBrightness;
  D_SetDynamicDSIClock b := via kErrorNone (D_SetDynamicDSIClock b);
  D_GetDynamicDSIClock := via (kErrorNone, 0) D_GetDynamicDSIClock;
  C_CreateDisplay t := fun e =>
    match in_real (C_CreateDisplay t) e with
    | Ret (kErrorNone, e) => Ret (kErrorNone, e <| to_null := false |>)
    | r => r
    end;
  C_DestroyDisplay := in_real C_DestroyDisplay;
  T_HandleToneMap vs := in_real (T_HandleToneMap vs);
  T_PostCommit vs := in_real (T_PostCommit vs);
  T_IsActive := in_real T_IsActive;
  T_Terminate := in_real T_Terminate;
  T_SetFrameDumpConfig n := in_real (T_SetFrameDumpConfig n);
  CB_Refresh := in_real CB_Refresh;
  CB_Vsync t := in_real (CB_Vsync t);
  CB_VsyncRegistered := in_real CB_VsyncRegistered;
  CPU_Init := in_real CPU_Init;
  CPU_Hint b := in_real (CPU_Hint b)
}.
#[global] Instance ext_color : ColorIntf (Ext V) := {
  CI_GetColorModeCount := via (kErrorNone, 0) CI_GetColorModeCount;
  CI_GetColorModes n := via (kErrorNone, n, replicate (Z.to_nat n) EmptyString) (CI_GetColorModes n);
  CI_GetColorModeAttr s := via [] (CI_GetColorModeAttr s);
  CI_GetDefaultColorMode := via (kErrorNone, EmptyString) CI_GetDefaultColorMode;
  CI_SetColorMode s := via kErrorNone (CI_SetColorMode s);
  CI_SetColorTransform m := via kErrorNone (CI_SetColorTransform m)
}.
End Null.
End DisplayNull.

(** * The primary display *)
Module Primary.
Import Float32 Rect Formats ResourceDefault Strategy HwcLayer HwcColor HwcDisplay.
Section Primary.
Context `{!GrUtils.Platform, !Hal, !ColorHal} {G V : Type} `{!Gralloc G, !Sdm V, !ColorIntf V}.
Context (wide exclude_pp : bool).
Abbreviation W := (St (World (G := G) (V := V))).

Definition DISABLE_METADATA_DYNAMIC_FPS_PROP : string := "vendor.display.disable_metadata_dynamic_fps".
Definition ENABLE_DEFAULT_COLOR_MODE : string := "vendor.display.enable_default_color_mode".
Definition FB_WIDTH_PROP : string := "vendor.display.fb_width".
Definition FB_HEIGHT_PROP : string := "vendor.display.fb_height".
Definition BOOT_ANIMATION_LAYER_COUNT_PROP : string := "vendor.display.boot_anim_layer_count".

(** The colour mode object; using it before Init is undefined. *)
Definition with_color {A} (f : HWCColorMode -> St V (A * HWCColorMode)) : W A :=
  c ← st_gets color_mode_;
  match c with
  | None => st_undef
  | Some c => '(a, c) ← in_sdm (f c); _ ← st_modify (fun w => w <| color_mode_ := Some c |>); mret a
  end.

Definition Init : W Z :=
  hint ← in_sdm CPU_Init;
  _ ← on_misc (fun m => m <| cpu_hint_ := hint |>);
  off ← property_flag DISABLE_METADATA_DYNAMIC_FPS_PROP;
  _ ← on_rates (fun r => r <| use_metadata_refresh_rate_ := negb off |>);
  status ← HwcDisplay.Init;
  if negb (status =? 0) then mret status
  else
    _ ← st_modify (fun w => w <| color_mode_ := Some new_HWCColorMode |>);
    _ ← with_color (HwcColor.Init exclude_pp);
    d ← in_gr (G_GetProperty ENABLE_DEFAULT_COLOR_MODE);
    _ ← on_misc (fun m => m <| default_mode_status_ ::= fun b => match d with Some v => negb (v =? 0) | None => b end |>);
    mret status.

(** [rgba] is HAL_PIXEL_FORMAT_RGBA_8888. *)
Definition Create (rgba : Z) : W Z :=
  _ ← st_modify (new_HWCDisplay kPrimary 0);
  status ← Init;
  if negb (status =? 0) then mret status
  else
    '(_, pw, ph) ← in_sdm D_GetMixerResolution;
    w ← in_gr (G_GetProperty FB_WIDTH_PROP);
    h ← in_gr (G_GetProperty FB_HEIGHT_PROP);
    let '(pw, ph) := if (0 <? default 0 w) && (0 <? default 0 h) then (u32 (default 0 w), u32 (default 0 h)) else (pw, ph) in
    status ← SetFrameBufferResolution rgba pw ph;
    if negb (status =? 0) then _ ← Deinit; mret status else mret status.

Definition SetColorMode (mode : Z) : W Error :=
  e ← with_color (HwcColor.SetColorMode mode);
  if decide (e <> ENone) then mret e else _ ← in_sdm CB_Refresh; _ ← reset_validated; mret e.
Definition RestoreColorTransform : W Error :=
  e ← with_color (fun c => e ← HwcColor.RestoreColorTransform c; mret (e, c));
  if decide (e <> ENone) then mret e else _ ← in_sdm CB_Refresh; mret e.
(** [None] is the null pointer. *)
Definition SetColorTransform (matrix : option (list float)) (hint : Z) : W Error :=
  match matrix with
  | None => mret BadParameter
  | Some m =>
      e ← with_color (HwcColor.SetColorTransform m hint);
      if negb (hint =? HAL_COLOR_TRANSFORM_IDENTITY) && bool_decide (e <> ENone) then
        _ ← on_prog (fun p => p <| color_tranform_failed_ := true |>); mret e
      else
        _ ← in_sdm CB_Refresh;
        _ ← on_prog (fun p => p <| color_tranform_failed_ := false |>);
        _ ← reset_validated;
        mret e
  end.
(** The count, and the modes when there is an array. *)
Definition GetColorModes (arrays : bool) : W (Z * list Z) :=
  with_color (fun c =>
    mret (if arrays then (Z.of_nat (length (color_mode_transform_map_ c)), HwcColor.GetColorModes c)
          else (HwcColor.GetColorModeCount exclude_pp c, []), c)).

(** Whether the device is encrypted by blocks, and whether its services run. *)
Definition crypto_state : W (bool * bool) :=
  s ← in_gr (G_property_get "ro.crypto.state" "unencrypted");
  if negb (String.eqb s "encrypted") then mret (false, false)
  else
    t ← in_gr (G_property_get "ro.crypto.type" "block");
    if negb (String.eqb t "block") then mret (false, false)
    else d ← in_gr (G_property_get "vold.decrypt" EmptyString); mret (true, String.eqb d "trigger_restart_framework").
Definition ProcessBootAnimCompleted : W unit :=
  n ← in_gr (G_GetProperty BOOT_ANIMATION_LAYER_COUNT_PROP);
  let n := u32 (default 0 n) in
  let n := if n =? 0 then 2 else n in
  '(enc, started) ← crypto_state;
  set ← set_of;
  if (negb enc || started) && (n <? Z.of_nat (length set)) then
    _ ← on_misc (fun m => m <| boot_animation_completed_ := true |>);
    _ ← in_sdm D_ApplyDefaultDisplayMode;
    _ ← RestoreColorTransform;
    mret tt
  else mret tt.

Definition ToggleCPUHint (set : bool) : W unit :=
  c ← st_gets (fun w => cpu_hint_ (misc w)); if (c : bool) then in_sdm (CPU_Hint set) else mret tt.
Definition GetOptimalRefreshRate (r : Rates) (one_updating_layer : bool) : Z :=
  if negb (force_refresh_rate_ r =? 0) then force_refresh_rate_ r
  else if handle_idle_timeout_ r then min_refresh_rate_ r
  else if use_metadata_refresh_rate_ r && one_updating_layer && negb (metadata_refresh_rate_ r =? 0) then metadata_refresh_rate_ r
  else max_refresh_rate_ r.

(** The hint and the refresh rate, from the layers of the stack. *)
Definition update_rate : W unit :=
  n ← GetUpdatingLayersCount;
  let one := n =? 1 in
  _ ← (if negb (n =? 0) then ToggleCPUHint one else mret tt);
  r ← st_gets rates;
  let rate := GetOptimalRefreshRate r one in
  e ← (if negb (current_refresh_rate_ r =? rate) || handle_idle_timeout_ r then in_sdm (D_SetRefreshRate rate) else mret kErrorNone);
  on_rates (fun r => r <| current_refresh_rate_ ::= fun c => if decide (e = kErrorNone) then rate else c |>
                       <| handle_idle_timeout_ := false |>).

(** The counts are left alone on the early returns.  [validated_ = true] sets the bit
    of the primary display and clears the others. *)
Definition Validate : W (Error * option (Z * Z)) :=
  m ← st_gets misc;
  _ ← (if default_mode_status_ m && negb (boot_animation_completed_ m) then ProcessBootAnimCompleted else mret tt);
  p ← st_gets prog;
  if display_paused_ p then _ ← MarkLayersForGPUBypass; mret (ENone, None)
  else
    _ ← BuildLayerStack wide;
    _ ← (if color_tranform_failed_ p then MarkLayersForClientComposition else mret tt);
    _ ← SolidFillPrepare;
    o ← st_gets out;
    _ ← (if frame_capture_buffer_queued_ o || (negb (dump_frame_count_ m =? 0) && dump_output_ o) then
           on_stack (fun s => s <| output_buffer := true |>
             <| sflags ::= fun f => f <| post_processed_output := post_processed_output_ o |> |>)
         else mret tt);
    _ ← update_rate;
    set ← set_of;
    match set with
    | [] =>
        c ← in_sdm D_GetFixedConfig;
        _ ← on_prog (fun p => p <| flush_ := negb (is_cmdmode c && secure_display_active_ p) |> <| validated_ := {[kPrimary]} |>);
        mret (ENone, None)
    | _ => PrepareLayerStack
    end.

(** ** Frame capture and dump *)
Definition wait_output : W (option Z) :=
  b ← st_gets (fun w => default Buffer0 (output_buffer_ (out w)));
  let fd := HwcLayer.release_fence_fd b in
  if 0 <=? fd then
    r ← in_gr (G_sync_wait fd);
    _ ← in_gr (G_close fd);
    _ ← on_out (fun o => o <| output_buffer_ := Some (b <| HwcLayer.release_fence_fd := -1 |>) |>);
    mret (Some r)
  else mret None.
Definition HandleFrameCapture : W unit :=
  r ← wait_output;
  on_out (fun o => o <| frame_capture_status_ ::= fun s => default s r |> <| frame_capture_buffer_queued_ := false |>
    <| post_processed_output_ := false |> <| output_buffer_ := Some Buffer0 |>).
Definition HandleFrameDump : W unit :=
  w ← st_get;
  _ ← (if negb (dump_frame_count_ (misc w) =? 0) then
         r ← wait_output;
         match r with
         | Some r => if r <? 0 then mret tt
                     else in_gr (G_dump_output (output_buffer_info_ (out w)) (output_buffer_base_ (out w)) (retire_fence_fd (layer_stack_ (ls w))))
         | None => mret tt
         end
       else mret tt);
  if dump_frame_count_ (misc w) =? 0 then
    _ ← in_gr (G_munmap (output_buffer_base_ (out w)) (bi_size (output_buffer_info_ (out w))));
    _ ← in_gr (G_FreeBuffer (output_buffer_info_ (out w)));
    on_out (fun o => o <| dump_output_ := false |> <| post_processed_output_ := false |> <| output_buffer_ := Some Buffer0 |>
      <| output_buffer_info_ := BufferInfo0 |> <| output_buffer_base_ := 0 |>)
  else mret tt.
Definition HandleFrameOutput : W unit :=
  o ← st_gets out;
  if frame_capture_buffer_queued_ o then HandleFrameCapture else if dump_output_ o then HandleFrameDump else mret tt.

Definition DisablePartialUpdateOneFrame : W DisplayError :=
  e ← in_sdm D_DisablePartialUpdateOneFrame; _ ← reset_validated; mret e.
Definition SetFrameDumpConfig (count mask : Z) : W unit :=
  _ ← HwcDisplay.SetFrameDumpConfig count mask;
  let dump := Z.testbit mask 1 in
  _ ← on_out (fun o => o <| dump_output_ := dump |>);
  if (count =? 0) || negb dump then mret tt
  else
    '(pw, ph) ← GetPanelResolution;
    '(ok, info) ← in_gr (G_AllocateBuffer (BufferInfo0 <| bi_width := pw |> <| bi_height := ph |> <| bi_format := kFormatRGB888 |>
      <| buffer_count := 1 |>));
    if negb ok then on_out (fun o => o <| output_buffer_info_ := BufferInfo0 |>)
    else
      _ ← on_out (fun o => o <| output_buffer_info_ := info |>);
      a ← in_gr (G_mmap (bi_size info) (bi_fd info));
      match a with
      | None => _ ← in_gr (G_FreeBuffer info); on_out (fun o => o <| output_buffer_info_ := BufferInfo0 |>)
      | Some base =>
          _ ← on_out (fun o => o <| output_buffer_base_ := base |> <| post_processed_output_ := true |>);
          _ ← DisablePartialUpdateOneFrame;
          reset_validated
      end.

(** The static function SetLayerBuffer. *)
Definition SetOutput (i : BufferInfo) (b : Buffer) : Buffer :=
  b <| HwcLayer.width := aligned_width i |> <| HwcLayer.height := aligned_height i |> <| HwcLayer.unaligned_width := bi_width i |>
    <| HwcLayer.unaligned_height := bi_height i |> <| bformat := bi_format i |> <| plane_fd := bi_fd i |> <| plane_stride := bi_stride i |>.
Definition FrameCaptureAsync (info : BufferInfo) (post : bool) : W Z :=
  if bi_fd info <? 0 then mret (-1)
  else
    '(pw, ph) ← GetPanelResolution;
    '(fw, fh) ← GetFrameBufferResolution;
    if post && ((bi_width info <? pw) || (bi_height info <? ph)) then mret (-1)
    else if negb post && ((bi_width info <? fw) || (bi_height info <? fh)) then mret (-1)
    else
      _ ← on_out (fun o => o <| output_buffer_ ::= fun b => Some (SetOutput info (default Buffer0 b)) |> <| post_processed_output_ := post |>
            <| frame_capture_buffer_queued_ := true |> <| frame_capture_status_ := -11 |>);
      _ ← DisablePartialUpdateOneFrame;
      mret 0.

(** The retire fence is left alone when nothing is presented. *)
Definition Present : W (Error * option Z) :=
  p ← st_gets prog;
  r ← (if display_paused_ p then _ ← in_sdm (D_Flush false); mret (ENone, None)
       else
         e ← CommitLayerStack;
         if decide (e = ENone) then
           _ ← HandleFrameOutput;
           _ ← SolidFillCommit;
           '(e, f) ← PostCommitLayerStack; mret (e, Some f)
         else mret (e, None));
  _ ← CloseAcquireFds;
  mret r.

(** ** Other requests *)
Definition ForceRefreshRate (rate : Z) : W unit :=
  r ← st_gets rates;
  if (negb (rate =? 0) && ((rate <? min_refresh_rate_ r) || (max_refresh_rate_ r <? rate))) || (force_refresh_rate_ r =? rate)
  then mret tt
  else _ ← on_rates (fun r => r <| force_refresh_rate_ := rate |>); in_sdm CB_Refresh.
Definition SetMetaDataRefreshRateFlag (enable : bool) : W unit :=
  off ← property_flag DISABLE_METADATA_DYNAMIC_FPS_PROP;
  if (off : bool) then mret tt else on_rates (fun r => r <| use_metadata_refresh_rate_ := enable |>).
Definition SetQDCMSolidFillInfo (enable : bool) (color : Z) : W unit :=
  on_misc (fun m => m <| solid_fill_enable_ := enable |> <| solid_fill_color_ := color |>).

Inductive Operation :=
| SET_METADATA_DYN_REFRESH_RATE (val : Z) | SET_BINDER_DYN_REFRESH_RATE (val : Z) | SET_DISPLAY_MODE (val : Z)
| SET_QDCM_SOLID_FILL_INFO (val : Z) | UNSET_QDCM_SOLID_FILL_INFO (val : Z) | SET_QDCM_SOLID_FILL_RECT (r : LayerRect)
| OtherOperation.
(** [solid_fill_rect_] is written and never read.  0 or -EINVAL. *)
Definition Perform (op : Operation) : W Z :=
  match op with
  | OtherOperation => mret (-22)
  | _ =>
      _ ← (match op with
           | SET_METADATA_DYN_REFRESH_RATE v => SetMetaDataRefreshRateFlag (negb (v =? 0))
           | SET_BINDER_DYN_REFRESH_RATE v => ForceRefreshRate (u32 v)
           | SET_DISPLAY_MODE v => _ ← in_sdm (D_SetDisplayMode (u32 v)); mret tt
           | SET_QDCM_SOLID_FILL_INFO v => SetQDCMSolidFillInfo true (u32 v)
           | UNSET_QDCM_SOLID_FILL_INFO v => SetQDCMSolidFillInfo false (u32 v)
           | _ => mret tt
           end);
      _ ← reset_validated; mret 0
  end.
(** The idle notification of SDM. *)
Definition Refresh : W DisplayError :=
  _ ← in_sdm CB_Refresh; _ ← on_rates (fun r => r <| handle_idle_timeout_ := true |>); mret kErrorNone.
Definition SetIdleTimeoutMs (ms : Z) : W unit := _ ← in_sdm (D_SetIdleTimeoutMs ms); reset_validated.
Definition SetDetailEnhancerConfig (d : list Z) : W DisplayError :=
  e ← in_sdm (D_SetDetailEnhancerData d); _ ← reset_validated; mret e.
Definition ControlPartialUpdate (enable : bool) : W (DisplayError * Z) :=
  r ← in_sdm (D_ControlPartialUpdate enable); _ ← reset_validated; mret r.
Definition SetMixerResolution (w h : Z) : W DisplayError :=
  e ← in_sdm (D_SetMixerResolution w h); _ ← reset_validated; mret e.
End Primary.
End Primary.

(** * The external display *)
Module External.
Import Float32 Rect Formats ResourceDefault Strategy HwcLayer HwcColor HwcDisplay DisplayNull.
Section External.
Context `{!GrUtils.Platform, !Hal, !ColorHal} {G V : Type} `{!Gralloc G, !Sdm V, !ColorIntf V}.
Context (wide : bool).
Abbreviation W := (St (World (G := G) (V := Ext V))).

Definition ENABLE_EXTERNAL_DOWNSCALE_PROP : string := "vendor.display.enable_external_downscale".

(** The products are unsigned; a width of zero is divided by. *)
Definition AdjustSourceResolution (dw src_w src_h : Z) : outcome (Z * Z) :=
  if src_w =? 0 then Undef else Ret (dw, u32 (dw * src_h) / src_w).
Definition GetDownscaleResolution (pw ph npw nph : Z) : outcome (Z * Z) :=
  if u32 (npw * nph) <? u32 (pw * ph) then
    AdjustSourceResolution (if pw <? ph then ph else pw) npw nph
  else Ret (npw, nph).

Definition External_Create (rgba pw ph : Z) (use_primary_res : bool) : W Z :=
  _ ← st_modify (new_HWCDisplay kHDMI 1);
  status ← Init;
  if negb (status =? 0) then mret status
  else
    '(e, ew, eh) ← in_sdm D_GetMixerResolution;
    if decide (e <> kErrorNone) then _ ← Deinit; mret (-22)
    else
      '(ew, eh) ← (if negb (pw =? 0) && negb (ph =? 0) then
                     if use_primary_res then mret (pw, ph)
                     else
                       on ← property_flag ENABLE_EXTERNAL_DOWNSCALE_PROP;
                       if (on : bool) then st_lift (GetDownscaleResolution pw ph ew eh) else mret (ew, eh)
                   else mret (ew, eh));
      status ← SetFrameBufferResolution rgba ew eh;
      if negb (status =? 0) then _ ← Deinit; mret status else mret status.

Definition External_Validate : W (Error * option (Z * Z)) :=
  p ← st_gets prog;
  if secure_display_active_ p then _ ← MarkLayersForGPUBypass; mret (ENone, None)
  else
    _ ← BuildLayerStack wide;
    set ← set_of;
    match set with
    | [] => _ ← on_prog (fun p => p <| flush_ := true |>); mret (ENone, None)
    | _ => PrepareLayerStack
    end.
Definition External_Present : W (Error * option Z) :=
  p ← st_gets prog;
  r ← (if secure_display_active_ p then mret (ENone, None)
       else
         e ← CommitLayerStack;
         if decide (e = ENone) then '(e, f) ← PostCommitLayerStack; mret (e, Some f) else mret (e, None));
  _ ← CloseAcquireFds;
  mret r.

(** 0, -1 or -EINVAL. *)
Definition SetState (rgba : Z) (connected : bool) : W Z :=
  act ← st_gets (fun w => active_ (null (sdm w)));
  if connected then
    if (act : bool) then
      t ← st_gets (fun w => type_ (misc w));
      e ← in_sdm (C_CreateDisplay t);
      if decide (e <> kErrorNone) then mret (-22)
      else
        '(_, fb) ← in_sdm (in_null Null_GetFrameBufferConfig);
        status ← SetFrameBufferResolution rgba (x_pixels fb) (y_pixels fb);
        if negb (status =? 0) then mret (-1)
        else
          '(_, state) ← in_sdm (in_null Null_GetDisplayState);
          _ ← in_sdm (D_SetDisplayState state);
          _ ← reset_validated;
          _ ← SetVsyncEnabled VEnable;
          _ ← in_sdm (in_null (st_modify (fun n => n <| active_ := false |>)));
          mret 0
    else mret 0
  else
    if (act : bool) then mret 0
    else
      '(e, s) ← in_sdm D_GetDisplayState;
      let state := if decide (e = kErrorNone) then s else CompMgr.kStateOff in
      _ ← in_sdm (in_null (Null_SetDisplayState state));
      '(e, fb) ← in_sdm D_GetFrameBufferConfig;
      if decide (e <> kErrorNone) then mret (-1)
      else
        _ ← in_sdm (in_null (Null_SetFrameBufferConfig fb));
        _ ← SetVsyncEnabled VDisable;
        _ ← in_sdm C_DestroyDisplay;
        _ ← in_sdm (st_modify (fun e => e <| to_null := true |> <| null ::= fun n => n <| active_ := true |> |>));
        mret 0.
End External.
End External.

(** * The virtual display *)
Module Virtual.
Import Float32 Rect Formats ResourceDefault Strategy HwcLayer HwcColor HwcDisplay.
Section Virtual.
Context `{!GrUtils.Platform, !Hal, !ColorHal} {G V : Type} `{!Gralloc G, !Sdm V, !ColorIntf V}.
Context (wide : bool).
Abbreviation W := (St (World (G := G) (V := V))).

Definition SetConfig (w h : Z) : W Z :=
  e ← in_sdm (D_SetActiveConfigInfo (mkFb w h f_zero f_zero 60 0 false));
  mret (if decide (e <> kErrorNone) then -22 else 0).

Definition Virtual_Init : W Z := _ ← on_out (fun o => o <| output_buffer_ := Some Buffer0 |>); HwcDisplay.Init.
Definition Virtual_Deinit : W Z :=
  o ← st_gets (fun w => output_buffer_ (out w));
  _ ← (match o with
       | Some b =>
           _ ← (if 0 <=? HwcLayer.acquire_fence_fd b then in_gr (G_close (HwcLayer.acquire_fence_fd b)) else mret tt);
           on_out (fun o => o <| output_buffer_ := None |>)
       | None => mret tt
       end);
  HwcDisplay.Deinit.
(** The number of an HWC2 error is 0 for None. *)
Definition Virtual_Create (rgba w h : Z) (error_code : Error -> Z) : W Z :=
  _ ← st_modify (new_HWCDisplay kVirtual 2);
  status ← Virtual_Init;
  if negb (status =? 0) then mret status
  else
    e ← SetPowerMode POn;
    if negb (error_code e =? 0) then _ ← Virtual_Deinit; mret (error_code e)
    else
      status ← SetConfig w h;
      if negb (status =? 0) then _ ← Virtual_Deinit; mret status
      else
        status ← SetFrameBufferResolution rgba w h;
        if negb (status =? 0) then _ ← Virtual_Deinit; mret status else mret 0.

Definition Virtual_Validate : W (Error * option (Z * Z)) :=
  p ← st_gets prog;
  if display_paused_ p then _ ← MarkLayersForGPUBypass; mret (ENone, None)
  else
    _ ← BuildLayerStack wide;
    _ ← on_stack (fun s => s <| output_buffer := true |>);
    set ← set_of;
    match set with
    | [] => mret (ENone, None)
    | _ => PrepareLayerStack
    end.

(** The dump of the output; [false] when the buffer could not be mapped or unmapped. *)
Definition dump_output : W bool :=
  w ← st_get;
  if (dump_frame_count_ (misc w) =? 0) || flush_ (prog w) || negb (dump_output_ (out w)) || (output_handle_ (out w) =? 0)
  then mret true
  else match output_buffer_ (out w) with
  | None => st_undef
  | Some b =>
      h ← in_gr (G_handle (buffer_id b));
      ok ← (if MetaData.base h =? 0 then in_gr (G_MapBuffer (buffer_id b)) else mret true);
      if negb ok then mret false
      else
        h ← in_gr (G_handle (buffer_id b));
        _ ← in_gr (G_dump_output (BufferInfo0 <| bi_width := u32 (MetaData.width h) |> <| bi_height := u32 (MetaData.height h) |>
              <| bi_format := Display_GetSDMFormat (MetaData.format h) (MetaData.flags h) |> <| bi_size := u32 (MetaData.size h) |>)
              (MetaData.base h) (retire_fence_fd (layer_stack_ (ls w))));
        in_gr (G_UnmapBuffer (buffer_id b))
  end.
Definition close_output : W unit :=
  o ← st_gets (fun w => output_buffer_ (out w));
  match o with
  | None => st_undef
  | Some b =>
      if 0 <=? HwcLayer.acquire_fence_fd b then
        _ ← in_gr (G_close (HwcLayer.acquire_fence_fd b));
        on_out (fun o => o <| output_buffer_ := Some (b <| HwcLayer.acquire_fence_fd := -1 |>) |>)
      else mret tt
  end.
(** A failed dump returns at once. *)
Definition Virtual_Present : W (Error * option Z) :=
  p ← st_gets prog;
  r ← (if display_paused_ p then _ ← in_sdm (D_Flush false); mret (Some (ENone, None))
       else
         e ← CommitLayerStack;
         if decide (e = ENone) then
           ok ← dump_output;
           if negb ok then mret None
           else '(e, f) ← PostCommitLayerStack; mret (Some (e, Some f))
         else mret (Some (e, None)));
  match r with
  | None => mret (BadParameter, None)
  | Some r => _ ← CloseAcquireFds; _ ← close_output; mret r
  end.

(** [rgba] and [rgbx] are the codes of the two formats. *)
Definition SetOutputBuffer (rgba rgbx buf release_fence : Z) : W Error :=
  if (buf =? 0) || (release_fence =? 0) then mret BadParameter
  else
    hnd ← in_gr (G_handle buf);
    fd ← in_gr (G_dup release_fence);
    o ← st_gets (fun w => output_buffer_ (out w));
    match o with
    | None => st_undef
    | Some b =>
        _ ← on_out (fun o => o <| output_buffer_ := Some (b <| HwcLayer.acquire_fence_fd := fd |>) |>);
        let format := if MetaData.format hnd =? rgba then rgbx else MetaData.format hnd in
        let sdm_format := Display_GetSDMFormat format (MetaData.flags hnd) in
        if decide (sdm_format = kFormatInvalid) then mret BadParameter
        else
          '(ok, color) ← in_gr (SetCSC buf ColorMetaData0);
          if negb ok then mret BadParameter
          else
            '(_, aw, ah) ← in_sdm D_GetMixerResolution;
            '(nw, nh) ← in_gr (G_GetCustomWidthAndHeight buf);
            '(naw, nah) ← in_gr (G_GetAlignedWidthAndHeight nw nh format 0);
            '(aaw, aah) ← in_gr (G_GetAlignedWidthAndHeight (s32 aw) (s32 ah) format 0);
            ok ← (if negb (naw =? aaw) || negb (nah =? aah) then
                    status ← SetConfig (u32 nw) (u32 nh);
                    if negb (status =? 0) then mret false else _ ← reset_validated; mret true
                  else mret true);
            if negb ok then mret BadParameter
            else
              _ ← on_out (fun o => o <| output_handle_ := buf |> <| output_buffer_ ::= fun b => Some ((default Buffer0 b)
                    <| HwcLayer.width := u32 naw |> <| HwcLayer.height := u32 nah |> <| HwcLayer.unaligned_width := u32 nw |>
                    <| HwcLayer.unaligned_height := u32 nh |> <| bflags ::= fun f => f <| HwcLayer.video := false |>
                         <| HwcLayer.secure := has_flag (MetaData.flags hnd) PRIV_FLAGS_SECURE_BUFFER |> |>
                    <| buffer_id := buf |> <| bformat := sdm_format |> <| color_metadata := color |>
                    <| plane_fd := MetaData.fd hnd |> <| plane_offset := MetaData.offset hnd |>
                    <| plane_stride := u32 (MetaData.width hnd) |>) |>);
              mret ENone
    end.
Definition Virtual_SetFrameDumpConfig (count mask : Z) : W unit :=
  _ ← HwcDisplay.SetFrameDumpConfig count mask;
  on_out (fun o => o <| dump_output_ := Z.testbit mask 1 |>).
End Virtual.
End Virtual.

(** * The calls of a client on the layers of a display

    CallLayerFunction of hwc_session.h, and the functions of hwc_session.cpp that are
    made of more than one call. *)
Module Client.
Import Float32 Rect Formats ResourceDefault Strategy HwcLayer HwcColor HwcDisplay.

Inductive LayerCall :=
| LBlendMode (m : BlendMode) | LBuffer (buf fence : Z) | LColor (c : HColor) | LCompositionType (t : HComposition)
| LDataspace (d : Z) | LDisplayFrame (r : IRect) | LPlaneAlpha (a : float) | LSourceCrop (r : LayerRect)
| LSurfaceDamage (l : list IRect) | LTransform (t : Transform) | LVisibleRegion (l : list IRect) | LCursor (x y : Z).

Section Client.
Context `{!GrUtils.Platform, !Hal} {G V : Type} `{!Gralloc G, !Sdm V}.
Abbreviation W := (St (World (G := G) (V := V))).

Definition layer_call (c : LayerCall) (h : HWCLayer) : St G (Error * HWCLayer) :=
  match c with
  | LBlendMode m => mret (SetLayerBlendMode m h)
  | LBuffer b f => SetLayerBuffer b f h
  | LColor c => mret (SetLayerColor c h)
  | LCompositionType t => mret (SetLayerCompositionType t h)
  | LDataspace d => mret (SetLayerDataspace d h)
  | LDisplayFrame r => mret (SetLayerDisplayFrame r h)
  | LPlaneAlpha a => st_lift (SetLayerPlaneAlpha a h)
  | LSourceCrop r => mret (SetLayerSourceCrop r h)
  | LSurfaceDamage l => mret (SetLayerSurfaceDamage l h)
  | LTransform t => mret (SetLayerTransform t h)
  | LVisibleRegion l => mret (SetLayerVisibleRegion l h)
  | LCursor x y => st_lift (HwcLayer.SetCursorPosition x y h)
  end.
Definition CallLayerFunction (i : Z) (c : LayerCall) : W Error :=
  p ← GetHWCLayer i;
  match p with
  | None => mret BadLayer
  | Some j =>
      h ← deref j;
      '(e, h) ← in_gr (layer_call c h);
      _ ← put j h;
      changes ← st_gets (fun w => geometry_changes_ (prog w));
      _ ← (if negb (changes =? 0) then reset_validated else mret tt);
      mret e
  end.
Definition SetCursorPosition (i x y : Z) : W Error :=
  e ← HwcDisplay.SetCursorPosition i x y;
  _ ← (if decide (e = ENone) then CallLayerFunction i (LCursor x y) else mret e);
  mret e.
End Client.
End Client.

(** * The calls of the primary display *)
Module Calls.
Import Float32 Rect Formats ResourceDefault Strategy HwcLayer HwcColor HwcDisplay Primary Client.

Inductive Call :=
| CCreateLayer | CDestroyLayer (i : Z) | CSetLayerZOrder (i z : Z) | CLayer (i : Z) (c : LayerCall) | CCursor (i x y : Z)
| CValidate | CPresent | CAcceptChanges | CReleaseFences (arrays : bool)
| CSetClientTarget (target fence dataspace : Z) (damage : list IRect)
| CSetColorMode (m : Z) | CSetColorTransform (m : option (list float)) (hint : Z)
| CSetPowerMode (m : PowerMode) | CSetVsyncEnabled (v : Vsync) | CSetActiveConfig (c : Z) | CSetDisplayStatus (s : DisplayStatus)
| CToggleScreenUpdates (b : bool) | CSetDisplayAnimating (b : bool) | CSetFrameDumpConfig (n mask : Z)
| CFrameCaptureAsync (i : BufferInfo) (post : bool) | CPerform (o : Operation) | CRefresh | CThermalEvent
| CSetIdleTimeoutMs (ms : Z) | CSetMaxMixerStages (n : Z) | CHdcpLevel (n : Z) | CSetPanelBrightness (n : Z)
| CControlPartialUpdate (b : bool) | CSetMixerResolution (w h : Z) | CSetFrameBufferResolution (rgba x y : Z)
| CSetDetailEnhancer (d : list Z) | CSetSecureDisplay (b : bool).

Section Calls.
Context `{!GrUtils.Platform, !Hal, !ColorHal} {G V : Type} `{!Gralloc G, !Sdm V, !ColorIntf V}.
Context (wide : bool).
Abbreviation W := (St (World (G := G) (V := V))).

Definition done_ {A} (m : W A) : W unit := _ ← m; mret tt.
Definition run (c : Call) : W unit :=
  match c with
  | CCreateLayer => done_ CreateLayer
  | CDestroyLayer i => done_ (DestroyLayer i)
  | CSetLayerZOrder i z => done_ (SetLayerZ i z)
  | CLayer i c => done_ (CallLayerFunction i c)
  | CCursor i x y => done_ (Client.SetCursorPosition i x y)
  | CValidate => done_ (Validate wide)
  | CPresent => done_ Present
  | CAcceptChanges => done_ AcceptDisplayChanges
  | CReleaseFences b => done_ (GetReleaseFences b)
  | CSetClientTarget t f d l => done_ (SetClientTarget t f d l)
  | CSetColorMode m => done_ (Primary.SetColorMode m)
  | CSetColorTransform m h => done_ (Primary.SetColorTransform m h)
  | CSetPowerMode m => done_ (SetPowerMode m)
  | CSetVsyncEnabled v => done_ (SetVsyncEnabled v)
  | CSetActiveConfig c => done_ (SetActiveConfig c)
  | CSetDisplayStatus s => done_ (SetDisplayStatus s)
  | CToggleScreenUpdates b => done_ (ToggleScreenUpdates b)
  | CSetDisplayAnimating b => done_ (SetDisplayAnimating b)
  | CSetFrameDumpConfig n m => done_ (Primary.SetFrameDumpConfig n m)
  | CFrameCaptureAsync i b => done_ (FrameCaptureAsync i b)
  | CPerform o => done_ (Perform o)
  | CRefresh => done_ Refresh
  | CThermalEvent => OnThermalEvent
  | CSetIdleTimeoutMs t => SetIdleTimeoutMs t
  | CSetMaxMixerStages n => done_ (SetMaxMixerStages n)
  | CHdcpLevel n => done_ (OnMinHdcpEncryptionLevelChange n)
  | CSetPanelBrightness n => done_ (SetPanelBrightness n)
  | CControlPartialUpdate b => done_ (ControlPartialUpdate b)
  | CSetMixerResolution w h => done_ (SetMixerResolution w h)
  | CSetFrameBufferResolution f x y => done_ (SetFrameBufferResolution f x y)
  | CSetDetailEnhancer d => done_ (SetDetailEnhancerConfig d)
  | CSetSecureDisplay b => SetSecureDisplay b
  end.

(** One call, or the calls of another display, which may change the shared set of
    validated displays but not the bit of this one from false to true; identifiers
    are not used up. *)
Inductive step (w : World (G := G) (V := V)) : World (G := G) (V := V) -> Prop :=
| step_call c w' : next_id_ w + 1 < 2 ^ 64 -> run c w = Ret (tt, w') -> step w w'
| step_other v : (type_ (misc w) ∈ v -> type_ (misc w) ∈ validated_ (prog w)) ->
    step w (w <| prog ::= fun p => p <| validated_ := v |> |>).
End Calls.
End Calls.
