(* ===== verification/HwcFacts.v ===== *)
(** Facts about the displays of the hardware composer over any SDM and any gralloc:
    which calls keep the set of layers as it is, and that the set stays well formed.

    Most calls change the layers but not which layers there are, their identifiers
    and their z: the [shape] of the display. *)
From S2P Require Import Prelude Rect ResourceDefault MetaData GrUtils Alloc BufMgr Strategy CompMgr DisplayBase HwcLayer HwcColor.
From S2P Require Import HwcDisplay HwcDisplays.
From Stdlib Require Import Sorting.Sorted.
#[local] Open Scope Z_scope.

(** * Assertions about a computation that returns *)
Module Hoare.
(** From a state in [I], the state after is in [I] again and the result satisfies [Q]. *)
Definition stays {S A} (I : S -> Prop) (m : St S A) (Q : A -> Prop) : Prop :=
  forall s a s', I s -> m s = Ret (a, s') -> I s' /\ Q a.
Abbreviation any := (fun _ => True).

Section Stays.
Context {S : Type} (I : S -> Prop).

Lemma stays_bind {A B} (m : St S A) (k : A -> St S B) P Q :
  stays I m P -> (forall a, P a -> stays I (k a) Q) -> stays I (m ≫= k) Q.
Proof.
  intros Hm Hk s b s'' Hs (a & s' & E1 & E2)%st_bind_Ret_inv.
  destruct (Hm _ _ _ Hs E1) as [Hs' Ha]. exact (Hk a Ha _ _ _ Hs' E2).
Qed.
Lemma stays_ret {A} (a : A) (Q : A -> Prop) : Q a -> stays I (mret a : St S A) Q.
Proof. intros Ha s b s' Hs [= <- <-]. done. Qed.
Lemma stays_get : stays I (st_get : St S S) I.
Proof. intros s b s' Hs [= <- <-]. done. Qed.
Lemma stays_gets {A} (f : S -> A) : stays I (st_gets f) any.
Proof. intros s b s' Hs [= <- <-]. done. Qed.
Lemma stays_gets_of {A} (f : S -> A) (Q : A -> Prop) : (forall s, I s -> Q (f s)) -> stays I (st_gets f) Q.
Proof. intros HQ s b s' Hs [= <- <-]. auto. Qed.
Lemma stays_undef {A} Q : stays I (st_undef : St S A) Q.
Proof. by intros s b s' Hs. Qed.
Lemma stays_lift {A} (m : outcome A) : stays I (st_lift m : St S A) any.
Proof. intros s b s' Hs. unfold st_lift. destruct m; intros [= <- <-]. done. Qed.
Lemma stays_modify (f : S -> S) : (forall s, I s -> I (f s)) -> stays I (st_modify f) any.
Proof. intros Hf s b s' Hs [= <- <-]. auto. Qed.
Lemma stays_weaken {A} (m : St S A) (P Q : A -> Prop) : stays I m P -> (forall a, P a -> Q a) -> stays I m Q.
Proof. intros Hm HQ s a s' Hs E. destruct (Hm _ _ _ Hs E). auto. Qed.
Lemma stays_any {A} (m : St S A) P : stays I m P -> stays I m any.
Proof. intros Hm. by apply (stays_weaken _ P). Qed.
End Stays.

Create HintDb stays.
#[export] Hint Resolve stays_get stays_gets stays_undef stays_lift : stays.

(** Splits a computation into its calls; what is known of a result is in the
    context. *)
Ltac stays_step :=
  first
    [ match goal with |- forall _, _ => intro end
    | progress cbv zeta
    | simple apply stays_ret; solve [auto with stays]
    | solve [eauto 3 with stays nocore]
    | simple eapply stays_bind
    | match goal with
      | |- stays _ (match ?x with _ => _ end) _ => destruct x eqn:?
      | |- stays _ (if ?b then _ else _) _ => destruct b eqn:?
      end ].
Ltac stays_tac := repeat stays_step.
End Hoare.

(** * The shape of a display *)
Module HwcFacts.
Import Float32 Rect Formats ResourceDefault Strategy HwcLayer HwcColor HwcDisplay Hoare.

Record Shape := mkShape {
  sh_set : list Z; sh_map : gmap Z (option Z); sh_client : Z; sh_next : Z; sh_z : gmap Z (Z * Z)
}.
Definition zid (h : HWCLayer) : Z * Z := (z_ h, id_ h).

Section Facts.
Context `{!GrUtils.Platform, !Hal, !ColorHal} {G V : Type} `{!Gralloc G, !Sdm V, !ColorIntf V}.
Context (wide exclude_pp : bool).
Abbreviation World := (World (G := G) (V := V)).
Abbreviation W := (St World).

Definition shape (w : World) : Shape :=
  mkShape (layer_set_ (ls w)) (layer_map_ (ls w)) (client_target_ (ls w)) (next_id_ w) (zid <$> heap w).
(** The display has the shape [sh], and the changes name layers that were made. *)
Definition known (n : Z) (l : list (Z * HComposition)) : Prop := Forall (fun c => 0 <= fst c < n) l.
Definition shaped (sh : Shape) (w : World) : Prop := shape w = sh /\ known (sh_next sh) (layer_changes_ (ls w)).

Variable sh : Shape.
Hypothesis ids : forall i z j, sh_z sh !! i = Some (z, j) -> j = i /\ 0 <= i < sh_next sh.
Abbreviation keep m Q := (stays (shaped sh) m Q).
(** [h] may be stored at [i]. *)
Definition fits (i : Z) (h : HWCLayer) : Prop := sh_z sh !! i = Some (zid h).

Lemma deref_keep i : keep (deref i) (fits i).
Proof.
  intros w h w' Hw. unfold deref. destruct (heap w !! i) as [h0|] eqn:E; [|done]. intros [= <- <-]. split; [done|].
  destruct Hw as [Hs _]. unfold fits. rewrite <- Hs. unfold shape. cbn [sh_z]. by rewrite lookup_fmap, E.
Qed.
Lemma put_keep i h : fits i h -> keep (put i h) any.
Proof.
  unfold fits. intros Hi. apply stays_modify. intros w [Hs Hk]. split; [|exact Hk]. rewrite <- Hs in *.
  unfold shape in *. cbn in *. f_equal. rewrite fmap_insert. by rewrite insert_id.
Qed.
Lemma gr_keep {A} (m : St G A) (Q : A -> Prop) : (forall g a g', m g = Ret (a, g') -> Q a) -> keep (in_gr m) Q.
Proof.
  intros HQ w a w' [Hs Hk]. unfold in_gr. destruct (m (gr w)) as [[b g]| |] eqn:E; intros [= <- <-].
  split; [by split|eauto].
Qed.
Lemma gr_any {A} (m : St G A) : keep (in_gr m) any.
Proof. by apply gr_keep. Qed.
Lemma sdm_keep {A} (m : St V A) : keep (in_sdm m) any.
Proof.
  intros w a w' [Hs Hk]. unfold in_sdm. destruct (m (sdm w)) as [[b v]| |]; intros [= <- <-]. by split.
Qed.
Lemma prog_keep f : keep (on_prog f) any.
Proof. apply stays_modify. by intros w [??]. Qed.
Lemma rates_keep f : keep (on_rates f) any.
Proof. apply stays_modify. by intros w [??]. Qed.
Lemma misc_keep f : keep (on_misc f) any.
Proof. apply stays_modify. by intros w [??]. Qed.
Lemma out_keep f : keep (on_out f) any.
Proof. apply stays_modify. by intros w [??]. Qed.
Lemma stack_keep f : keep (on_stack f) any.
Proof. apply stays_modify. by intros w [??]. Qed.
Lemma sflags_keep f : keep (on_sflags f) any.
Proof. apply stack_keep. Qed.
Lemma solid_keep l : keep (st_modify (fun w => w <| solid_fill_layer_ := l |>)) any.
Proof. apply stays_modify. by intros w [??]. Qed.
Lemma color_keep c : keep (st_modify (fun w => w <| color_mode_ := c |>)) any.
Proof. apply stays_modify. by intros w [??]. Qed.
#[local] Hint Resolve deref_keep gr_any sdm_keep prog_keep rates_keep misc_keep out_keep stack_keep sflags_keep solid_keep
  color_keep : stays.
#[local] Hint Extern 1 (stays _ (st_modify _) _) => first [apply solid_keep|apply color_keep] : stays.

Lemma modify_keep i f : (forall h, zid (f h) = zid h) -> keep (modify i f) any.
Proof. intros Hf. unfold modify. stays_tac. apply put_keep. unfold fits in *. congruence. Qed.
Lemma sdm_layer_keep i f : keep (sdm_layer i f) any.
Proof. by apply modify_keep. Qed.
Lemma for_each_keep l f : (forall i, keep (f i) any) -> keep (for_each l f) any.
Proof. intros Hf. induction l; simpl; stays_tac. Qed.
Lemma validated_keep : keep reset_validated any.
Proof. apply prog_keep. Qed.
Lemma set_bit_keep : keep set_bit any.
Proof. unfold set_bit. stays_tac. Qed.
Lemma reset_bit_keep : keep reset_bit any.
Proof. unfold reset_bit. stays_tac. Qed.
Lemma is_validated_keep : keep is_validated any.
Proof. apply stays_gets. Qed.
Lemma set_of_keep : keep set_of (fun l => l = sh_set sh).
Proof. apply stays_gets_of. by intros w [<- _]. Qed.
#[local] Hint Resolve sdm_layer_keep for_each_keep validated_keep set_bit_keep reset_bit_keep is_validated_keep set_of_keep : stays.

Lemma layer_value_keep p : keep (layer_value p) any.
Proof. unfold layer_value. stays_tac. Qed.
#[local] Hint Resolve layer_value_keep : stays.
Lemma stack_values_keep l : keep (stack_values l) any.
Proof. induction l; simpl; stays_tac. Qed.
Lemma store_values_keep l vs : keep (store_values l vs) any.
Proof. revert vs. induction l as [|p l IH]; intros [|v vs]; simpl; stays_tac. Qed.
Lemma output_value_keep s : keep (output_value s) any.
Proof. unfold output_value. stays_tac. Qed.
Lemma store_live_keep l vs : keep (store_live l vs) any.
Proof. revert vs. induction l as [|p l IH]; intros [|v vs]; simpl; stays_tac. Qed.
#[local] Hint Resolve stack_values_keep store_values_keep store_live_keep output_value_keep : stays.

(** ** What the calls of a layer leave alone *)
Lemma zid_display_frame f h : zid (snd (SetLayerDisplayFrame f h)) = zid h.
Proof. unfold SetLayerDisplayFrame. simpl. by destruct (negb _). Qed.
Lemma zid_dataspace d h : zid (snd (SetLayerDataspace d h)) = zid h.
Proof. unfold SetLayerDataspace. simpl. by destruct (negb _). Qed.
Lemma zid_damage l h : zid (snd (SetLayerSurfaceDamage l h)) = zid h.
Proof. unfold SetLayerSurfaceDamage. simpl. by destruct (_ || _). Qed.
Lemma zid_pop h : zid (snd (PopReleaseFence h)) = zid h.
Proof. unfold PopReleaseFence. by destruct (release_fences_ h). Qed.

Lemma zid_on_layer f h : zid (on_layer f h) = zid h.
Proof. done. Qed.
Lemma zid_on_buffer f h : zid (on_buffer f h) = zid h.
Proof. done. Qed.

(** Takes a run of a layer's call apart. *)
Ltac run_inv :=
  repeat match goal with
  | E : (_ ≫= _) _ = Ret _ |- _ => st_step E
  | E : mret _ _ = Ret _ |- _ => injection E as <- <-
  | E : Ret _ = Ret _ |- _ => injection E as <- <-
  | E : (let '_ := ?x in _) _ = Ret _ |- _ => destruct x eqn:?
  | E : (if ?b then _ else _) _ = Ret _ |- _ => destruct b eqn:?
  | E : (match ?x with _ => _ end) _ = Ret _ |- _ => destruct x eqn:?
  end.

Lemma SetMetaData_zid buf h g ok h' g' : SetMetaData buf h g = Ret ((ok, h'), g') -> zid h' = zid h.
Proof. unfold SetMetaData. intros E. cbv zeta in *. run_inv; by repeat case_match. Qed.
Lemma SetLayerBuffer_zid buf fence h g e h' g' : SetLayerBuffer buf fence h g = Ret ((e, h'), g') -> zid h' = zid h.
Proof.
  unfold SetLayerBuffer. intros E. cbv zeta in *. run_inv; try done;
    match goal with E : SetMetaData _ _ _ = Ret _ |- _ => apply SetMetaData_zid in E end;
    repeat case_match; by etrans; [|eassumption].
Qed.
Lemma ValidateAndSetCSC_zid h g ok h' g' : ValidateAndSetCSC wide h g = Ret ((ok, h'), g') -> zid h' = zid h.
Proof.
  unfold ValidateAndSetCSC. intros E. cbv zeta in *. run_inv; try done; repeat (case_match; simplify_eq); done.
Qed.

(** ** The calls of a frame *)

(** What is stored is the layer that was read with other fields changed. *)
Ltac fits := unfold fits in *; rewrite ?zid_on_layer, ?zid_on_buffer, ?zid_display_frame, ?zid_dataspace, ?zid_damage; repeat (case_match; simpl in * ); first [eassumption|congruence].
#[local] Hint Extern 2 (stays _ (put _ _) _) => simple apply put_keep; solve [fits] : stays.

(** The same for a computation of the layer [i]. *)
Ltac fits_tac i :=
  repeat first
    [ match goal with |- stays _ (@mbind _ _ HWCLayer _ _ _) _ => apply (stays_bind _ _ _ (fits i)) end
    | simple apply stays_ret; solve [fits]
    | stays_step ].

Lemma MarkLayersForGPUBypass_keep : keep MarkLayersForGPUBypass any.
Proof. unfold MarkLayersForGPUBypass. stays_tac. Qed.
Lemma MarkLayersForClientComposition_keep : keep MarkLayersForClientComposition any.
Proof. unfold MarkLayersForClientComposition. stays_tac. Qed.
Lemma SetSecureDisplay_keep b : keep (SetSecureDisplay b) any.
Proof. unfold SetSecureDisplay. stays_tac. Qed.
Lemma ApplyScanAdjustment_keep f : keep (ApplyScanAdjustment f) any.
Proof. unfold ApplyScanAdjustment. stays_tac. Qed.
#[local] Hint Resolve MarkLayersForGPUBypass_keep MarkLayersForClientComposition_keep SetSecureDisplay_keep
  ApplyScanAdjustment_keep : stays.

Lemma layer_flags_keep i : keep (layer_flags wide i) any.
Proof.
  unfold layer_flags. eapply stays_bind; [apply deref_keep|]. intros h Hh. cbv zeta.
  eapply stays_bind; [apply (gr_keep _ (fun r => zid (snd r) = zid h))|].
  - intros g [ok h'] g' E. by apply ValidateAndSetCSC_zid in E.
  - intros [ok h'] E. simpl in E. apply put_keep. unfold fits in *. rewrite Hh, <- E. by case_match.
Qed.
Lemma layer_defaults_keep i : keep (layer_defaults i) any.
Proof. unfold layer_defaults. stays_tac. Qed.
Lemma layer_security_keep i : keep (layer_security i) any.
Proof. unfold layer_security. stays_tac. Qed.
Lemma layer_kind_keep i b : keep (layer_kind i b) any.
Proof. unfold layer_kind. fits_tac i. Qed.
Lemma layer_geometry_keep i : keep (layer_geometry i) any.
Proof. unfold layer_geometry. fits_tac i. Qed.
Lemma layer_update_keep i : keep (layer_update i) any.
Proof. unfold layer_update. fits_tac i. Qed.
#[local] Hint Resolve layer_flags_keep layer_defaults_keep layer_security_keep layer_kind_keep layer_geometry_keep
  layer_update_keep : stays.
Lemma build_loop_keep l p b : keep (build_loop wide l p b) any.
Proof. revert p b. induction l as [|i l IH]; intros p b; simpl; stays_tac. Qed.
Lemma local_conversion_keep p i : keep (local_conversion p i) any.
Proof. unfold local_conversion. stays_tac. Qed.
Lemma invalid_keep b : keep (on_ls (fun l => l <| layer_stack_invalid_ := b |>)) any.
Proof. apply stays_modify. by intros w [??]. Qed.
#[local] Hint Resolve build_loop_keep local_conversion_keep invalid_keep : stays.
Lemma BuildLayerStack_keep : keep (BuildLayerStack wide) any.
Proof. unfold BuildLayerStack. stays_tac. Qed.

Lemma requests_keep f : keep (on_ls (fun l => l <| layer_requests_ ::= f |>)) any.
Proof. apply stays_modify. by intros w [??]. Qed.
Lemma change_keep i h c : fits i h -> keep (on_ls (fun l => l <| layer_changes_ ::= zmap_set (id_ h) c |>)) any.
Proof.
  intros Hi%ids. apply stays_modify. intros w [??]. split; [done|]. apply zmap_set_Forall; [simpl|done].
  destruct Hi as [-> ?]. done.
Qed.
Lemma clear_keep : keep (on_ls (fun l => l <| layer_changes_ := [] |> <| layer_requests_ := [] |>)) any.
Proof. apply stays_modify. intros w [??]. split; [done|]. by constructor. Qed.
#[local] Hint Resolve requests_keep change_keep clear_keep BuildLayerStack_keep : stays.
Lemma take_decision_keep i : keep (take_decision i) any.
Proof. unfold take_decision. stays_tac. Qed.
#[local] Hint Resolve take_decision_keep : stays.
Lemma sdm_prepare_keep : keep sdm_prepare any.
Proof. unfold sdm_prepare. stays_tac. Qed.
#[local] Hint Resolve sdm_prepare_keep : stays.
Lemma PrepareLayerStack_keep : keep PrepareLayerStack any.
Proof. unfold PrepareLayerStack. stays_tac. by apply modify_keep. Qed.
#[local] Hint Resolve PrepareLayerStack_keep : stays.

Lemma GetReleaseFences_keep b : keep (GetReleaseFences b) any.
Proof.
  assert (Hp : forall l, keep (pop_fences l) any).
  { induction l as [|i l IH]; simpl; [stays_tac|]. eapply stays_bind; [apply deref_keep|]. intros h Hh.
    destruct (PopReleaseFence h) as [f h'] eqn:E. eapply stays_bind; [apply put_keep|stays_tac].
    unfold fits in *. rewrite Hh. f_equal. pose proof (zid_pop h) as Hz. rewrite E in Hz. by rewrite <- Hz. }
  unfold GetReleaseFences. stays_tac.
Qed.
Lemma layers_settled_keep l : keep (layers_settled l) any.
Proof. induction l; simpl; stays_tac. Qed.
#[local] Hint Resolve layers_settled_keep : stays.
Lemma CanSkipValidate_keep : keep CanSkipValidate any.
Proof. unfold CanSkipValidate. stays_tac. Qed.
Lemma DumpInputBuffers_keep : keep DumpInputBuffers any.
Proof. unfold DumpInputBuffers. stays_tac. Qed.
Lemma tone_map_keep : keep tone_map any.
Proof. unfold tone_map. stays_tac. Qed.
#[local] Hint Resolve CanSkipValidate_keep DumpInputBuffers_keep tone_map_keep : stays.
Lemma CommitLayerStack_keep : keep CommitLayerStack any.
Proof. unfold CommitLayerStack. stays_tac. Qed.
Lemma retire_layer_keep f b i : keep (retire_layer f b i) any.
Proof.
  unfold retire_layer. eapply stays_bind; [by apply modify_keep|]. intros _ _. fits_tac i.
Qed.
Lemma retire_target_keep : keep retire_target any.
Proof. unfold retire_target. eapply stays_bind; [apply stays_gets|]. intros t _. fits_tac t. Qed.
Lemma close_acquire_keep i : keep (close_acquire i) any.
Proof. unfold close_acquire. stays_tac. Qed.
#[local] Hint Resolve CommitLayerStack_keep retire_layer_keep retire_target_keep close_acquire_keep : stays.
Lemma PostCommitLayerStack_keep : keep PostCommitLayerStack any.
Proof. unfold PostCommitLayerStack. stays_tac. Qed.
Lemma CloseAcquireFds_keep : keep CloseAcquireFds any.
Proof. unfold CloseAcquireFds. stays_tac. Qed.
#[local] Hint Resolve PostCommitLayerStack_keep CloseAcquireFds_keep : stays.

(** ** The other calls *)
Lemma SetVsyncEnabled_keep v : keep (SetVsyncEnabled v) any.
Proof. unfold SetVsyncEnabled. stays_tac. Qed.
Lemma SetPowerMode_keep m : keep (SetPowerMode m) any.
Proof. unfold SetPowerMode. stays_tac. Qed.
#[local] Hint Resolve SetVsyncEnabled_keep SetPowerMode_keep : stays.
Lemma SetDisplayStatus_keep s : keep (SetDisplayStatus s) any.
Proof. unfold SetDisplayStatus. stays_tac. Qed.
Lemma SetClientTarget_keep t f d l : keep (SetClientTarget t f d l) any.
Proof.
  unfold SetClientTarget. destruct (t =? 0); [stays_tac|]. destruct (f =? 0); [stays_tac|].
  eapply stays_bind; [apply stays_gets|]. intros c _. eapply stays_bind; [apply deref_keep|]. intros h Hh.
  eapply stays_bind; [apply (gr_keep _ (fun r => zid (snd r) = zid h))|].
  - intros g [e h'] g' E. by apply SetLayerBuffer_zid in E.
  - intros [e h'] E. cbv zeta. eapply stays_bind; [apply put_keep|stays_tac].
    unfold fits in *. simpl in E. rewrite Hh, <- E. case_match; f_equal; symmetry.
    + by rewrite zid_on_buffer, zid_dataspace, zid_damage.
    + by rewrite zid_damage.
Qed.
Lemma property_flag_keep s : keep (property_flag s) any.
Proof. unfold property_flag. stays_tac. Qed.
#[local] Hint Resolve property_flag_keep : stays.
Lemma SetFrameBufferResolution_keep f x y : keep (SetFrameBufferResolution f x y) any.
Proof. unfold SetFrameBufferResolution. stays_tac. apply modify_keep. intros h. apply zid_display_frame. Qed.
Lemma SetCursorPosition_keep i x y : keep (HwcDisplay.SetCursorPosition i x y) any.
Proof. unfold HwcDisplay.SetCursorPosition, GetHWCLayer. stays_tac. Qed.
Lemma SetFrameDumpConfig_keep n m : keep (SetFrameDumpConfig n m) any.
Proof. unfold SetFrameDumpConfig. stays_tac. Qed.
Lemma SolidFillPrepare_keep : keep SolidFillPrepare any.
Proof. unfold SolidFillPrepare. stays_tac. Qed.
Lemma SolidFillCommit_keep : keep SolidFillCommit any.
Proof. unfold SolidFillCommit. stays_tac. Qed.
Lemma GetUpdatingLayersCount_keep : keep GetUpdatingLayersCount any.
Proof. unfold GetUpdatingLayersCount. stays_tac. Qed.
#[local] Hint Resolve SetDisplayStatus_keep SetClientTarget_keep SetFrameBufferResolution_keep SetCursorPosition_keep
  SetFrameDumpConfig_keep SolidFillPrepare_keep SolidFillCommit_keep GetUpdatingLayersCount_keep GetReleaseFences_keep : stays.

(** ** The calls of a client *)
Import Client Primary.

Lemma layer_call_zid c h g e h' g' : layer_call c h g = Ret ((e, h'), g') -> zid h' = zid h.
Proof.
  assert (Hm : forall r : Error * HWCLayer, zid (snd r) = zid h -> (mret r : St G _) g = Ret ((e, h'), g') -> zid h' = zid h).
  { by intros r Hr [= -> _]. }
  destruct c; cbn [layer_call]; try apply Hm.
  - unfold SetLayerBlendMode. by repeat case_match.
  - apply SetLayerBuffer_zid.
  - unfold SetLayerColor. by case_match.
  - unfold SetLayerCompositionType. by repeat case_match.
  - apply zid_dataspace.
  - apply zid_display_frame.
  - unfold SetLayerPlaneAlpha, st_lift. destruct (UINT8 _); simpl; try done. intros [= <- <- _]. by case_match.
  - unfold SetLayerSourceCrop. simpl. by case_match.
  - apply zid_damage.
  - unfold SetLayerTransform. simpl. by case_match.
  - done.
  - unfold st_lift. destruct (HwcLayer.SetCursorPosition x y h) as [[]| |] eqn:E; try done. intros [= -> -> _].
    unfold HwcLayer.SetCursorPosition in E. repeat (apply bind_Ret_inv in E as (? & _ & E)).
    assert (E2 : forall a b : Error * HWCLayer, Ret a = Ret b -> b = a) by (by intros a b [= ->]).
    apply E2 in E. change h' with (snd (e, h')). rewrite E. apply zid_display_frame.
Qed.
Lemma CallLayerFunction_keep i c : keep (CallLayerFunction i c) any.
Proof.
  unfold CallLayerFunction, GetHWCLayer. eapply stays_bind; [stays_tac|]. intros [j|] _; [|stays_tac].
  eapply stays_bind; [apply deref_keep|]. intros h Hh.
  eapply stays_bind; [apply (gr_keep _ (fun r => zid (snd r) = zid h))|].
  - intros g [e h'] g' E. by apply layer_call_zid in E.
  - intros [e h'] E. eapply stays_bind; [apply put_keep|stays_tac]. unfold fits in *. by rewrite Hh, <- E.
Qed.
#[local] Hint Resolve CallLayerFunction_keep : stays.

(** ** The primary display *)
Lemma with_color_keep {A} (f : HWCColorMode -> St V (A * HWCColorMode)) : keep (with_color f) any.
Proof. unfold with_color. stays_tac. Qed.
#[local] Hint Resolve with_color_keep : stays.
Lemma RestoreColorTransform_keep : keep Primary.RestoreColorTransform any.
Proof. unfold Primary.RestoreColorTransform. stays_tac. Qed.
#[local] Hint Resolve RestoreColorTransform_keep : stays.
Lemma ProcessBootAnimCompleted_keep : keep ProcessBootAnimCompleted any.
Proof. unfold ProcessBootAnimCompleted, crypto_state. stays_tac. Qed.
Lemma update_rate_keep : keep update_rate any.
Proof. unfold update_rate, ToggleCPUHint. stays_tac. Qed.
#[local] Hint Resolve ProcessBootAnimCompleted_keep update_rate_keep : stays.
Lemma Validate_keep : keep (Primary.Validate wide) any.
Proof. unfold Primary.Validate. stays_tac. Qed.
Lemma HandleFrameOutput_keep : keep HandleFrameOutput any.
Proof. unfold HandleFrameOutput, HandleFrameCapture, HandleFrameDump, wait_output. stays_tac. Qed.
#[local] Hint Resolve HandleFrameOutput_keep : stays.
Lemma Present_keep : keep Primary.Present any.
Proof. unfold Primary.Present. stays_tac. Qed.
Lemma GetPanelResolution_keep : keep GetPanelResolution any.
Proof. unfold GetPanelResolution. stays_tac. Qed.
Lemma PrimarySetFrameDumpConfig_keep n m : keep (Primary.SetFrameDumpConfig n m) any.
Proof. unfold Primary.SetFrameDumpConfig, DisablePartialUpdateOneFrame, GetPanelResolution. stays_tac. Qed.
Lemma FrameCaptureAsync_keep i b : keep (FrameCaptureAsync i b) any.
Proof. unfold FrameCaptureAsync, DisablePartialUpdateOneFrame, GetPanelResolution, GetFrameBufferResolution. stays_tac. Qed.
Lemma Perform_keep o : keep (Perform o) any.
Proof. unfold Perform, SetMetaDataRefreshRateFlag, ForceRefreshRate, SetQDCMSolidFillInfo. stays_tac. Qed.
#[local] Hint Resolve Validate_keep Present_keep PrimarySetFrameDumpConfig_keep FrameCaptureAsync_keep Perform_keep : stays.

Import Calls.
(** The calls that change which layers there are, or the map. *)
Definition structural (c : Call) : bool :=
  match c with CCreateLayer | CDestroyLayer _ | CSetLayerZOrder _ _ | CAcceptChanges => true | _ => false end.
Lemma run_keep c : structural c = false -> keep (run wide c) any.
Proof.
  destruct c; try done; intros _; unfold run, done_; try solve [stays_tac].
  - unfold Client.SetCursorPosition. stays_tac.
  - unfold Primary.SetColorMode. stays_tac.
  - unfold Primary.SetColorTransform. stays_tac.
  - unfold SetActiveConfig. stays_tac.
  - unfold ToggleScreenUpdates. stays_tac.
  - unfold SetDisplayAnimating. stays_tac.
  - unfold Refresh. stays_tac.
  - unfold SetIdleTimeoutMs. stays_tac.
  - unfold SetMaxMixerStages. stays_tac.
  - unfold OnMinHdcpEncryptionLevelChange. stays_tac.
  - unfold SetPanelBrightness. stays_tac.
  - unfold ControlPartialUpdate. stays_tac.
  - unfold SetMixerResolution. stays_tac.
  - unfold SetDetailEnhancerConfig. stays_tac.
Qed.
End Facts.

(** * The ordered set of layers *)
Section Order.
Implicit Types m : gmap Z HWCLayer.
(** The z of a layer. *)
Definition zval (m : gmap Z HWCLayer) (i : Z) : Z := from_option z_ 0 (m !! i).
Definition alive (m : gmap Z HWCLayer) (i : Z) : Prop := is_Some (m !! i).
Definition ordered (f : Z -> Z) (l : list Z) : Prop := StronglySorted (fun i j => f i <= f j) l.

Lemma emplace_split m i z l : Forall (alive m) l -> ordered (zval m) l ->
  exists l1 l2, l = l1 ++ l2 /\ emplace m i z l = Ret (l1 ++ i :: l2) /\
    Forall (fun j => zval m j <= z) l1 /\ Forall (fun j => z < zval m j) l2.
Proof.
  intros Hl Hs. induction l as [|j l IH]; [by exists [], []|].
  apply list.Forall_cons in Hl as [[h Hj] Hl]. apply StronglySorted_inv in Hs as [Hs Hle]. simpl. rewrite Hj.
  assert (Hz : zval m j = z_ h) by (unfold zval; by rewrite Hj). destruct (Z.ltb_spec z (z_ h)).
  - exists [], (j :: l). split_and!; try done. constructor; [lia|]. eapply Forall_impl; [exact Hle|]. simpl. lia.
  - destruct (IH Hl Hs) as (l1 & l2 & -> & E & H1 & H2). exists (j :: l1), l2. rewrite E. split_and!; try done.
    constructor; [lia|done].
Qed.

Lemma equal_range_found m i l : Forall (alive m) l -> ordered (zval m) l -> i ∈ l -> equal_range m i (zval m i) l = Ret true.
Proof.
  assert (Hup : forall l, Forall (alive m) l -> ordered (zval m) l -> i ∈ l -> upper_range m i (zval m i) l = Ret true).
  { clear l. intros l Hl Hs. induction l as [|j l IH]; [by rewrite elem_of_nil|]. rewrite elem_of_cons. intros Hi.
    apply list.Forall_cons in Hl as [[h Hj] Hl]. apply StronglySorted_inv in Hs as [Hs Hle]. simpl. rewrite Hj.
    assert (Hz : zval m j = z_ h) by (unfold zval; by rewrite Hj).
    destruct (Z.eqb_spec i j) as [->|].
    - by destruct (Z.ltb_spec (zval m j) (z_ h)); [lia|].
    - destruct Hi as [->|Hi]; [done|]. rewrite list.Forall_forall in Hle. specialize (Hle _ Hi).
      destruct (Z.ltb_spec (zval m i) (z_ h)); [lia|auto]. }
  intros Hl Hs Hi. induction l as [|j l IH]; [by apply elem_of_nil in Hi|]. pose proof Hl as Hl'. pose proof Hs as Hs'.
  apply list.Forall_cons in Hl as [[h Hj] Hl]. apply StronglySorted_inv in Hs as [Hs Hle]. simpl. rewrite Hj.
  assert (Hz : zval m j = z_ h) by (unfold zval; by rewrite Hj). destruct (Z.ltb_spec (z_ h) (zval m i)).
  - apply elem_of_cons in Hi as [->|Hi]; [lia|auto].
  - specialize (Hup (j :: l) Hl' Hs' Hi). simpl in Hup. by rewrite Hj in Hup.
Qed.

Lemma erase_split i l : i ∈ l -> NoDup l -> exists l1 l2, l = l1 ++ i :: l2 /\ erase i l = l1 ++ l2 /\ i ∉ (l1 ++ l2).
Proof.
  induction l as [|j l IH]; [by rewrite elem_of_nil|]. rewrite NoDup_cons, elem_of_cons. intros Hi [Hj Hn]. simpl.
  destruct (Z.eqb_spec i j) as [->|]; [by exists [], l|]. destruct Hi as [->|Hi]; [done|].
  destruct (IH Hi Hn) as (l1 & l2 & -> & -> & Hni). exists (j :: l1), l2. split_and!; try done. set_solver.
Qed.

Lemma ordered_app f l1 l2 : ordered f (l1 ++ l2) <->
  ordered f l1 /\ ordered f l2 /\ Forall (fun i => Forall (fun j => f i <= f j) l2) l1.
Proof.
  unfold ordered. induction l1 as [|i l1 IH]; simpl.
  - split; [|naive_solver]. intros. split_and!; try done. constructor.
  - split.
    + intros [H1 H2]%StronglySorted_inv. apply IH in H1 as (?&?&?). apply list.Forall_app in H2 as [??].
      split_and!; try done; by constructor.
    + intros ([H1 H2]%StronglySorted_inv & H3 & [H4 H5]%list.Forall_cons). constructor; [by apply IH|].
      by apply list.Forall_app.
Qed.
Lemma ordered_ext f g l : (forall i, i ∈ l -> f i = g i) -> ordered f l -> ordered g l.
Proof.
  intros He Hs. unfold ordered in *. induction Hs as [|i l Hs IH Hle]; constructor.
  - apply IH. intros j Hj. apply He. by right.
  - rewrite list.Forall_forall in *. intros j Hj. rewrite <- !He by (by constructor || by right). auto.
Qed.
(** A layer put between those below and those above. *)
Lemma ordered_insert f i l1 l2 : ordered f (l1 ++ l2) -> Forall (fun j => f j <= f i) l1 -> Forall (fun j => f i <= f j) l2 ->
  ordered f (l1 ++ i :: l2).
Proof.
  intros (H1 & H2 & H3)%ordered_app Hb Ha. apply ordered_app. split_and!; try done; [by constructor|].
  rewrite list.Forall_forall in *. intros j Hj. constructor; auto.
Qed.
End Order.
End HwcFacts.
