(* ===== verification/HwcSet.v ===== *)
(** The set of layers of a display of the hardware composer: the set ordered by z, the
    map by identifier and the objects agree, and every call keeps it so. *)
From S2P Require Import Prelude Rect ResourceDefault MetaData GrUtils Alloc BufMgr Strategy CompMgr DisplayBase HwcLayer HwcColor.
From S2P Require Import HwcDisplay HwcDisplays HwcFacts.
From Stdlib Require Import Sorting.Sorted.
#[local] Open Scope Z_scope.

Module HwcSet.
Import Float32 Rect Formats ResourceDefault Strategy HwcLayer HwcColor HwcDisplay Primary Client Calls Hoare HwcFacts.

Section Set_.
Context `{!GrUtils.Platform, !Hal, !ColorHal} {G V : Type} `{!Gralloc G, !Sdm V, !ColorIntf V}.
Context (wide : bool).
Abbreviation World := (World (G := G) (V := V)).
Abbreviation W := (St World).

(** The set holds each live layer of the map once, in the order of z; a null entry of
    the map is no layer. *)
Record wf (w : World) : Prop := mkWf {
  wf_alive : Forall (alive (heap w)) (layer_set_ (ls w));
  wf_nodup : NoDup (layer_set_ (ls w));
  wf_sorted : ordered (zval (heap w)) (layer_set_ (ls w));
  wf_in i : i ∈ layer_set_ (ls w) -> layer_map_ (ls w) !! i = Some (Some i);
  wf_map i j : layer_map_ (ls w) !! i = Some (Some j) -> j = i /\ i ∈ layer_set_ (ls w);
  wf_keys i p : layer_map_ (ls w) !! i = Some p -> 0 <= i < next_id_ w;
  wf_ids i h : heap w !! i = Some h -> id_ h = i /\ 0 <= i < next_id_ w;
  wf_client : alive (heap w) (client_target_ (ls w)) /\ client_target_ (ls w) ∉ layer_set_ (ls w);
  wf_next : 0 <= next_id_ w < 2 ^ 64;
  wf_changes : known (next_id_ w) (layer_changes_ (ls w))
}.

Lemma zval_shape (m m' : gmap Z HWCLayer) i : zid <$> m' = zid <$> m -> zval m' i = zval m i.
Proof.
  intros E. unfold zval. assert (Ei : (zid <$> m') !! i = (zid <$> m) !! i) by (by rewrite E). rewrite !lookup_fmap in Ei.
  destruct (m' !! i), (m !! i); try done. simpl in *. by injection Ei.
Qed.
Lemma alive_shape (m m' : gmap Z HWCLayer) i : zid <$> m' = zid <$> m -> alive m i -> alive m' i.
Proof.
  intros E. unfold alive. assert (Ei : (zid <$> m') !! i = (zid <$> m) !! i) by (by rewrite E). rewrite !lookup_fmap in Ei.
  by destruct (m' !! i), (m !! i).
Qed.

Lemma wf_same w w' : wf w -> shape w' = shape w -> known (next_id_ w) (layer_changes_ (ls w')) -> wf w'.
Proof.
  intros [] E Hk. injection E as Es Em Ec En Ez. constructor; rewrite ?Es, ?Em, ?Ec, ?En; try done.
  - eapply Forall_impl; [eassumption|]. intros i. by apply alive_shape.
  - eapply ordered_ext; [|eassumption]. intros i _. symmetry. by apply zval_shape.
  - intros i h Hi. assert (Hz : (zid <$> heap w) !! i = Some (zid h)) by (by rewrite <- Ez, lookup_fmap, Hi).
    rewrite lookup_fmap in Hz. destruct (heap w !! i) as [h0|] eqn:E0; [|done]. injection Hz as Hz1 Hz2.
    destruct (wf_ids0 _ _ E0). by rewrite <- Hz2.
  - destruct wf_client0. split; [by eapply alive_shape|done].
Qed.

Lemma wf_shape_ids w : wf w -> forall i z j, sh_z (shape w) !! i = Some (z, j) -> j = i /\ 0 <= i < sh_next (shape w).
Proof.
  intros Hw i z j. unfold shape. cbn [sh_z sh_next]. rewrite lookup_fmap. destruct (heap w !! i) as [h|] eqn:E; [|done].
  intros [= _ <-]. by apply wf_ids.
Qed.

Lemma shaped_wf w w' : wf w -> shaped (shape w) w' -> wf w'.
Proof. intros Hw [Hs Hk]. by apply (wf_same w). Qed.
Lemma stays_wf {A} (m : W A) w a w' : wf w -> stays (shaped (shape w)) m any -> m w = Ret (a, w') -> wf w'.
Proof. intros Hw Hm E. apply (shaped_wf w); [done|]. apply (Hm w a w'); [|done]. split; [done|by apply wf_changes]. Qed.

Lemma run_other_wf c w w' : wf w -> structural c = false -> run wide c w = Ret (tt, w') -> wf w'.
Proof.
  intros Hw Hc E. destruct (run_keep wide (shape w) (wf_shape_ids w Hw) c Hc w tt w') as [[Hs Hk] _]; [|done|].
  - split; [done|by apply wf_changes].
  - by apply (wf_same w).
Qed.

(** ** CreateLayer *)
Lemma CreateLayer_runs w : wf w -> next_id_ w + 1 < 2 ^ 64 ->
  exists l1 l2 w', layer_set_ (ls w) = l1 ++ l2 /\ CreateLayer w = Ret ((ENone, next_id_ w), w') /\
    Forall (fun j => zval (heap w) j <= 0) l1 /\ Forall (fun j => 0 < zval (heap w) j) l2 /\
    heap w' = <[next_id_ w := new_HWCLayer (next_id_ w)]> (heap w) /\
    layer_set_ (ls w') = l1 ++ next_id_ w :: l2 /\ layer_map_ (ls w') = <[next_id_ w := Some (next_id_ w)]> (layer_map_ (ls w)) /\
    client_target_ (ls w') = client_target_ (ls w) /\ next_id_ w' = next_id_ w + 1 /\
    layer_changes_ (ls w') = layer_changes_ (ls w) /\ validated_ (prog w') = ∅.
Proof.
  intros Hw Hn. set (i := next_id_ w). set (m' := <[i := new_HWCLayer i]> (heap w)).
  assert (Hfresh : forall j, j ∈ layer_set_ (ls w) -> j <> i).
  { intros j Hj ->. destruct (wf_keys w Hw _ _ (wf_in w Hw _ Hj)). subst i. lia. }
  assert (Hzv : forall j, j ∈ layer_set_ (ls w) -> zval m' j = zval (heap w) j).
  { intros j Hj. unfold zval, m'. by rewrite lookup_insert_ne by (intros <-; by apply (Hfresh i)). }
  destruct (emplace_split m' i 0 (layer_set_ (ls w))) as (l1 & l2 & El & Ee & Hb & Ha).
  { eapply Forall_impl; [apply (wf_alive w Hw)|]. intros j [h Hj]. unfold alive, m'.
    destruct (decide (j = i)) as [->|]; [rewrite lookup_insert_eq|rewrite lookup_insert_ne]; eauto. }
  { eapply ordered_ext; [|apply (wf_sorted w Hw)]. intros j Hj. symmetry. auto. }
  assert (Hmi : layer_map_ (ls w) !! i = None).
  { destruct (layer_map_ (ls w) !! i) eqn:Ei; [|done]. apply (wf_keys w Hw) in Ei. subst i. lia. }
  exists l1, l2. eexists. split; [done|]. split.
  { unfold CreateLayer, mbind, st_bind, st_get, st_gets, st_modify, put, st_lift, on_ls, on_prog, reset_validated. simpl.
    fold i. fold m'. rewrite Ee. simpl. rewrite Hmi. reflexivity. }
  simpl. rewrite El in Hzv. split_and!; try done.
  - rewrite list.Forall_forall in *. intros j Hj. rewrite <- Hzv by set_solver. auto.
  - rewrite list.Forall_forall in *. intros j Hj. rewrite <- Hzv by set_solver. auto.
  - apply uwrap_small. destruct (wf_next w Hw). subst i. lia.
Qed.

Lemma CreateLayer_wf w r w' : wf w -> next_id_ w + 1 < 2 ^ 64 -> CreateLayer w = Ret (r, w') -> wf w'.
Proof.
  intros Hw Hn E. destruct (CreateLayer_runs w Hw Hn) as (l1 & l2 & w1 & El & Er & Hb & Ha & Eh & Es & Em & Ec & En & Ek & _).
  rewrite Er in E. injection E as <- <-. set (i := next_id_ w) in *.
  assert (Hfresh : i ∉ layer_set_ (ls w)).
  { intros Hi. destruct (wf_keys w Hw _ _ (wf_in w Hw _ Hi)). subst i. lia. }
  assert (Hz : forall j, j ∈ layer_set_ (ls w) -> zval (heap w1) j = zval (heap w) j).
  { intros j Hj. unfold zval. rewrite Eh, lookup_insert_ne; [done|]. by intros ->. }
  assert (Hzi : zval (heap w1) i = 0) by (unfold zval; by rewrite Eh, lookup_insert_eq).
  assert (Hal : forall j, alive (heap w) j -> alive (heap w1) j).
  { intros j. unfold alive. rewrite Eh, lookup_insert_is_Some. destruct (decide (i = j)); naive_solver. }
  constructor; rewrite ?Es, ?Ec, ?En, ?Ek.
  - pose proof (wf_alive w Hw) as Hf. rewrite El in Hf. apply list.Forall_app in Hf as [Hf1 Hf2]. apply list.Forall_app.
    split; [|constructor; [unfold alive; rewrite Eh, lookup_insert_eq; eauto|]];
      [exact (Forall_impl _ _ _ Hf1 Hal)|exact (Forall_impl _ _ _ Hf2 Hal)].
  - rewrite <- Permutation_middle, <- El. constructor; [done|apply wf_nodup; done].
  - apply ordered_insert.
    + rewrite <- El. eapply ordered_ext; [|apply (wf_sorted w Hw)]. intros j Hj. symmetry. auto.
    + rewrite Hzi, list.Forall_forall in *. intros j Hj. rewrite Hz by (rewrite El; set_solver). auto.
    + rewrite Hzi, list.Forall_forall in *. intros j Hj. rewrite Hz by (rewrite El; set_solver). specialize (Ha _ Hj). lia.
  - intros j. rewrite Em. destruct (decide (j = i)) as [->|]; [by rewrite lookup_insert_eq|].
    rewrite lookup_insert_ne by done. intros Hj. apply (wf_in w Hw). rewrite El. set_solver.
  - intros j k. rewrite Em. destruct (decide (j = i)) as [->|].
    + rewrite lookup_insert_eq. intros [= <-]. split; [done|set_solver].
    + rewrite lookup_insert_ne by done. intros [-> Hj]%(wf_map w Hw). split; [done|]. rewrite El in Hj. set_solver.
  - intros j p. rewrite Em. destruct (decide (j = i)) as [->|].
    + intros _. destruct (wf_next w Hw). subst i. lia.
    + rewrite lookup_insert_ne by done. intros Hj%(wf_keys w Hw). lia.
  - intros j h. rewrite Eh. destruct (decide (j = i)) as [->|].
    + rewrite lookup_insert_eq. intros [= <-]. destruct (wf_next w Hw). subst i. simpl. lia.
    + rewrite lookup_insert_ne by done. intros Hj%(wf_ids w Hw). lia.
  - destruct (wf_client w Hw) as [Hc Hn']. split; [auto|]. rewrite El in Hn'.
    destruct Hc as [h Hh]. apply (wf_ids w Hw) in Hh. assert (client_target_ (ls w) <> i) by (subst i; lia). set_solver.
  - destruct (wf_next w Hw). subst i. lia.
  - eapply Forall_impl; [apply (wf_changes w Hw)|]. simpl. lia.
Qed.

(** ** SetLayerZOrder *)
Lemma SetLayerZ_missing i z (w : World) : layer_map_ (ls w) !! i = None -> SetLayerZ i z w = Ret (BadLayer, w).
Proof. intros E. unfold SetLayerZ, mbind, st_bind, st_gets. by rewrite E. Qed.

(** A layer of the map is found: it is taken out and put back after those with the
    same z or below. *)
Lemma SetLayerZ_runs i z (w : World) h : wf w -> layer_map_ (ls w) !! i = Some (Some i) -> heap w !! i = Some h -> z_ h <> z ->
  exists l1 l2 l3 l4 w', layer_set_ (ls w) = l1 ++ i :: l2 /\ l1 ++ l2 = l3 ++ l4 /\ not (i ∈ l1 ++ l2) /\
    SetLayerZ i z w = Ret (ENone, w') /\
    w' = (w <| heap ::= <[i := changed kZOrder (h <| z_ := z |>)]> |> <| ls ::= (fun l => l <| layer_set_ := l3 ++ i :: l4 |>) |>) /\
    Forall (fun j => zval (heap w) j <= z) l3 /\ Forall (fun j => z < zval (heap w) j) l4.
Proof.
  intros Hw Hm Hh Hz. destruct (wf_map w Hw _ _ Hm) as [_ Hi].
  pose proof (equal_range_found (heap w) i _ (wf_alive w Hw) (wf_sorted w Hw) Hi) as Ef.
  assert (Hzi : zval (heap w) i = z_ h) by (unfold zval; by rewrite Hh). rewrite Hzi in Ef.
  destruct (erase_split i _ Hi (wf_nodup w Hw)) as (l1 & l2 & El & Ee & Hni).
  set (h' := changed kZOrder (h <| z_ := z |>)). set (m' := <[i := h']> (heap w)).
  assert (Hzv : forall j, j ∈ l1 ++ l2 -> zval m' j = zval (heap w) j).
  { intros j Hj. unfold zval, m'. by rewrite lookup_insert_ne by (intros <-; done). }
  pose proof (wf_alive w Hw) as Hal. pose proof (wf_sorted w Hw) as Hso. rewrite El in Hal, Hso.
  apply list.Forall_app in Hal as [Hal1 [_ Hal2]%list.Forall_cons].
  apply ordered_app in Hso as (Hs1 & [Hs2 _]%StronglySorted_inv & Hs3).
  destruct (emplace_split m' i z (l1 ++ l2)) as (l3 & l4 & E34 & Ep & Hb & Ha).
  { apply list.Forall_app. assert (Hmono : forall j, alive (heap w) j -> alive m' j).
    { intros j. unfold alive, m'. rewrite lookup_insert_is_Some. destruct (decide (i = j)); naive_solver. }
    split; [exact (Forall_impl _ _ _ Hal1 Hmono)|exact (Forall_impl _ _ _ Hal2 Hmono)]. }
  { eapply (ordered_ext (zval (heap w))); [intros j Hj; symmetry; auto|]. apply ordered_app. split_and!; try done.
    eapply Forall_impl; [exact Hs3|]. intros j [_ ?]%list.Forall_cons. done. }
  exists l1, l2, l3, l4. eexists. split_and!; try done.
  - unfold SetLayerZ, mbind, st_bind, st_gets, deref, st_lift. simpl. rewrite Hm. simpl. rewrite Hh. simpl. rewrite Ef. simpl.
    destruct (Z.eqb_spec (z_ h) z); [done|]. rewrite Ee.
    match goal with |- context [emplace ?m i z ?l] => replace (emplace m i z l) with (Ret (l3 ++ i :: l4)) by (symmetry; exact Ep) end.
    reflexivity.
  - rewrite list.Forall_forall in *. intros j Hj. rewrite <- Hzv by (rewrite E34; set_solver). auto.
  - rewrite list.Forall_forall in *. intros j Hj. rewrite <- Hzv by (rewrite E34; set_solver). auto.
Qed.

Lemma SetLayerZ_wf i z w e w' : wf w -> SetLayerZ i z w = Ret (e, w') -> wf w'.
Proof.
  intros Hw E. pose proof E as E0. unfold SetLayerZ in E. st_step E. injection E1 as <- <-.
  destruct (layer_map_ (ls w) !! i) as [[j|]|] eqn:Em; [|by destruct (layer_set_ (ls w)); [injection E as <- <-|]|by injection E as <- <-].
  destruct (wf_map w Hw _ _ Em) as [-> Hi]. pose proof (wf_alive w Hw) as Hal. rewrite list.Forall_forall in Hal.
  destruct (Hal _ Hi) as [h Hh]. destruct (decide (z_ h = z)) as [Hz|Hz].
  { st_step E. unfold deref in E1. rewrite Hh in E1. injection E1 as <- <-. st_step E. injection E1 as <- <-. st_step E.
    unfold st_lift in E1. destruct (equal_range _ _ _ _) as [[]| |]; try done; injection E1 as <- <-; simpl in E;
      [|by injection E as <- <-]. by rewrite (proj2 (Z.eqb_eq _ _) Hz) in E; injection E as <- <-. }
  destruct (SetLayerZ_runs i z w h Hw Em Hh Hz) as (l1 & l2 & l3 & l4 & w1 & El & E34 & Hni & Er & Ew & Hb & Ha).
  rewrite Er in E0. injection E0 as <- <-.
  assert (Hp : l3 ++ i :: l4 ≡ₚ layer_set_ (ls w)) by (by rewrite El, <- !Permutation_middle, E34).
  assert (Hzv : forall j, j <> i -> zval (heap w1) j = zval (heap w) j).
  { intros j Hj. unfold zval. rewrite Ew. cbn. by rewrite lookup_insert_ne. }
  assert (Hzi : zval (heap w1) i = z) by (unfold zval; rewrite Ew; cbn; by rewrite lookup_insert_eq).
  assert (Hmono : forall j, alive (heap w) j -> alive (heap w1) j).
  { intros j. unfold alive. rewrite Ew. cbn. rewrite lookup_insert_is_Some. destruct (decide (i = j)); naive_solver. }
  assert (Es : layer_set_ (ls w1) = l3 ++ i :: l4) by (by rewrite Ew).
  assert (Em1 : layer_map_ (ls w1) = layer_map_ (ls w)) by (by rewrite Ew).
  assert (Ec : client_target_ (ls w1) = client_target_ (ls w)) by (by rewrite Ew).
  assert (Ek : layer_changes_ (ls w1) = layer_changes_ (ls w)) by (by rewrite Ew).
  assert (En : next_id_ w1 = next_id_ w) by (by rewrite Ew).
  constructor; rewrite ?Es, ?Em1, ?Ec, ?Ek, ?En.
  - rewrite Hp. exact (Forall_impl _ _ _ (wf_alive w Hw) Hmono).
  - rewrite Hp. by apply wf_nodup.
  - pose proof (wf_sorted w Hw) as Hso. rewrite El in Hso. apply ordered_app in Hso as (Hs1 & [Hs2 _]%StronglySorted_inv & Hs3).
    apply ordered_insert.
    + rewrite <- E34. eapply (ordered_ext (zval (heap w))).
      * intros j Hj. symmetry. apply Hzv. by intros ->.
      * apply ordered_app. split_and!; try done. eapply Forall_impl; [exact Hs3|]. intros j [_ ?]%list.Forall_cons. done.
    + rewrite Hzi, list.Forall_forall in *. intros j Hj. rewrite Hzv; [auto|]. intros ->. apply Hni. rewrite E34. set_solver.
    + rewrite Hzi, list.Forall_forall in *. intros j Hj. rewrite Hzv; [by apply Z.lt_le_incl, Ha|].
      intros ->. apply Hni. rewrite E34. set_solver.
  - intros j. rewrite Hp. apply (wf_in w Hw).
  - intros j k. rewrite Hp. apply (wf_map w Hw).
  - apply (wf_keys w Hw).
  - intros j h'. rewrite Ew. cbn. destruct (decide (j = i)) as [->|]; [rewrite lookup_insert_eq|rewrite lookup_insert_ne by done; apply (wf_ids w Hw)].
    intros [= <-]. cbn. by apply (wf_ids w Hw).
  - rewrite Hp. destruct (wf_client w Hw). auto.
  - apply (wf_next w Hw).
  - apply (wf_changes w Hw).
Qed.

(** ** AcceptDisplayChanges *)
Lemma accept_changes_wf l w w' : wf w -> known (next_id_ w) l -> accept_changes l w = Ret (tt, w') -> wf w'.
Proof.
  revert w. induction l as [|[i c] l IH]; simpl; intros w Hw Hl E.
  { by injection E as <-. }
  apply list.Forall_cons in Hl as [Hi Hl]. st_step E. injection E0 as <- <-. st_step E.
  assert (Hs : wf s /\ next_id_ s = next_id_ w); [|apply (IH s); [apply Hs| |done]; by rewrite (proj2 Hs)].
  destruct (layer_map_ (ls w) !! i) as [[j|]|] eqn:Em.
  - pose proof (modify_keep (G := G) (V := V) (shape w) (wf_shape_ids w Hw) j (fun h => h <| client_requested_ := c |>)) as Hk.
    destruct (Hk (fun _ => eq_refl) w a s) as [[Hs Hc] _]; [|done|].
    + split; [done|by apply wf_changes].
    + split; [by apply (wf_same w)|by injection Hs].
  - by injection E0 as <- <-.
  - injection E0 as <- <-. split; [|done]. destruct Hw. constructor; try done; cbn.
    + intros j Hj. rewrite lookup_insert_ne; [auto|]. intros <-. by rewrite (wf_in0 _ Hj) in Em.
    + intros j k. destruct (decide (j = i)) as [->|]; [by rewrite lookup_insert_eq|]. rewrite lookup_insert_ne by done. apply wf_map0.
    + intros j p. destruct (decide (j = i)) as [->|]; [done|]. rewrite lookup_insert_ne by done. apply wf_keys0.
Qed.
Lemma AcceptDisplayChanges_wf w e w' : wf w -> AcceptDisplayChanges w = Ret (e, w') -> wf w'.
Proof.
  intros Hw E. unfold AcceptDisplayChanges in E. st_step E. injection E0 as <- <-.
  destruct (layer_set_ (ls w)) eqn:Es; [by injection E as <- <-|]. st_step E. injection E0 as <- <-.
  destruct (negb _); [by injection E as <- <-|]. st_step E. destruct a. injection E as <- <-.
  eapply accept_changes_wf; [exact Hw|by apply wf_changes|exact E0].
Qed.

(** ** DestroyLayer *)
Lemma DestroyLayer_wf i w e w' : wf w -> DestroyLayer i w = Ret (e, w') -> wf w'.
Proof.
  intros Hw E. unfold DestroyLayer in E. st_step E. injection E0 as <- <-.
  destruct (layer_map_ (ls w) !! i) as [p|] eqn:Em; [|by injection E as <- <-].
  st_step E. injection E0 as <- <-. st_step E. repeat (st_step E; injection E1 as <- <-). injection E as <- <-.
  assert (Hs : wf s); [|destruct Hs; by constructor].
  destruct p as [j|].
  - destruct (wf_map w Hw _ _ Em) as [-> Hi]. pose proof (wf_alive w Hw) as Hal. rewrite list.Forall_forall in Hal.
    destruct (Hal _ Hi) as [h Hh]. st_step E0. unfold deref in E. simpl in E. rewrite Hh in E. injection E as <- <-.
    st_step E0. injection E as <- <-. st_step E0.
    pose proof (equal_range_found (heap w) i _ (wf_alive w Hw) (wf_sorted w Hw) Hi) as Ef.
    assert (Hzi : zval (heap w) i = z_ h) by (unfold zval; by rewrite Hh). rewrite Hzi in Ef.
    unfold st_lift in E. simpl in E. rewrite Ef in E. injection E as <- <-.
    st_step E0. injection E as <- <-. st_step E0. unfold in_gr in E. simpl in E. destruct (delete_HWCLayer h (gr w)) as [[]| |]; try done.
    injection E as <- <-. injection E0 as _ <-.
    destruct (erase_split i _ Hi (wf_nodup w Hw)) as (l1 & l2 & El & Ee & Hni).
    destruct Hw. rewrite El in *. constructor; cbn; rewrite ?Ee.
    + apply list.Forall_app in wf_alive0 as [Ha1 [_ Ha2]%list.Forall_cons].
      assert (Ha : Forall (alive (heap w)) (l1 ++ l2)) by (by apply list.Forall_app).
      rewrite list.Forall_forall in *. intros j Hj. unfold alive. rewrite lookup_delete_ne; [by apply Ha|]. by intros <-.
    + rewrite <- Permutation_middle in wf_nodup0. by apply NoDup_cons in wf_nodup0 as [_ ?].
    + apply ordered_app in wf_sorted0 as (Hs1 & [Hs2 _]%StronglySorted_inv & Hs3).
      eapply (ordered_ext (zval (heap w))).
      * intros j Hj. unfold zval. rewrite lookup_delete_ne; [done|]. by intros <-.
      * apply ordered_app. split_and!; try done. eapply Forall_impl; [exact Hs3|]. intros j [_ ?]%list.Forall_cons. done.
    + intros j Hj. rewrite lookup_delete_ne by (by intros <-). apply wf_in0. set_solver.
    + intros j k [Hne [-> Hj]%wf_map0]%lookup_delete_Some. split; [done|]. set_solver.
    + intros j p [_ Hj]%lookup_delete_Some. eauto.
    + intros j h' [_ Hj]%lookup_delete_Some. eauto.
    + destruct wf_client0 as [Hc Hn]. split; [|set_solver]. unfold alive. rewrite lookup_delete_ne; [done|]. intros Hi2.
      apply Hn. rewrite <- Hi2. set_solver.
    + done.
    + done.
  - assert (Hi : i ∉ layer_set_ (ls w)) by (intros Hi%(wf_in w Hw); congruence).
    assert (s = w <| ls ::= (fun l => l <| layer_map_ ::= delete i |>) |>) as ->.
    { destruct (layer_set_ (ls w)) eqn:El; [|done]. injection E0 as _ <-. cbn. by rewrite El. }
    destruct Hw. constructor; try done; cbn.
    + intros j Hj. rewrite lookup_delete_ne; [auto|]. by intros <-.
    + intros j k [_ Hj]%lookup_delete_Some. auto.
    + intros j p [_ Hj]%lookup_delete_Some. eauto.
Qed.

Lemma done_inv {A} (m : W A) w w' : done_ m w = Ret (tt, w') -> exists a, m w = Ret (a, w').
Proof. intros E. unfold done_ in E. st_step E. injection E as <-. eauto. Qed.

Lemma step_wf w w' : wf w -> step wide w w' -> wf w'.
Proof.
  intros Hw [c w'' Hn E|v Hv].
  - destruct (structural c) eqn:Hc; [|by apply (run_other_wf c w)].
    destruct c; try done; apply done_inv in E as [r E].
    + by apply (CreateLayer_wf w r).
    + by apply (DestroyLayer_wf i w r).
    + by apply (SetLayerZ_wf i z w r).
    + by apply (AcceptDisplayChanges_wf w r).
  - destruct Hw. by constructor.
Qed.
End Set_.
End HwcSet.
