(* ===== verification/HwcStack.v ===== *)
(** The layer stack that a display hands to SDM: which calls leave its pointers and
    the need of a validation alone, and that a stack that may be committed points to
    live layers. *)
From S2P Require Import Prelude Rect ResourceDefault MetaData GrUtils Alloc BufMgr Strategy CompMgr DisplayBase HwcLayer HwcColor.
From S2P Require Import HwcDisplay HwcDisplays HwcFacts HwcSet.
#[local] Open Scope Z_scope.

Module HwcStack.
Import Float32 Rect Formats ResourceDefault Strategy HwcLayer HwcColor HwcDisplay Primary Client Calls Hoare HwcFacts HwcSet.

Section Stack_.
Context `{!GrUtils.Platform, !Hal, !ColorHal} {G V : Type} `{!Gralloc G, !Sdm V, !ColorIntf V}.
Context (wide : bool).
Abbreviation World := (World (G := G) (V := V)).
Abbreviation W := (St World).

Abbreviation pointers w := (slayers (layer_stack_ (ls w))).
Abbreviation ready w := (type_ (misc w) ∈ validated_ (prog w)).

(** The pointers stay, and what they point to in the solid fill layer. *)
Record same_stack (w w' : World) : Prop := mkSame {
  ss_pointers : pointers w' = pointers w;
  ss_client : client_target_ (ls w') = client_target_ (ls w);
  ss_paused : display_paused_ (prog w') = display_paused_ (prog w);
  ss_type : type_ (misc w') = type_ (misc w);
  ss_solid : is_Some (solid_fill_layer_ w) -> is_Some (solid_fill_layer_ w')
}.
(** Moreover the display is not made ready. *)
Record calm (w w' : World) : Prop := mkCalm {
  calm_same : same_stack w w';
  calm_ready : ready w' -> ready w
}.
#[global] Instance same_stack_pre : PreOrder same_stack.
Proof.
  split; [by constructor|]. intros a b c [?? ? ? Q] [?? ? ? Q2]. constructor; try congruence. auto.
Qed.
#[global] Instance calm_pre : PreOrder calm.
Proof.
  split; [by constructor|]. intros a b c [? Q] [? Q2]. constructor; [by transitivity b|auto].
Qed.

(** ** The primitives *)
Lemma get_calm : keeps calm (st_get : W World).
Proof. intros w a w' [= <- <-]. reflexivity. Qed.
Lemma deref_calm i : keeps calm (deref i : W _).
Proof. intros w a w'. unfold deref. destruct (heap w !! i); [|done]. intros [= <- <-]. reflexivity. Qed.
Lemma put_calm i h : keeps calm (put i h : W _).
Proof. by apply keeps_modify; constructor. Qed.
Lemma gr_calm {A} (m : St G A) : keeps calm (in_gr m : W A).
Proof. intros w a w'. unfold in_gr. destruct (m (gr w)) as [[b g]| |]; intros [= <- <-]. by constructor. Qed.
Lemma sdm_calm {A} (m : St V A) : keeps calm (in_sdm m : W A).
Proof. intros w a w'. unfold in_sdm. destruct (m (sdm w)) as [[b v]| |]; intros [= <- <-]. by constructor. Qed.
Lemma modify_calm i f : keeps calm (modify i f : W _).
Proof. unfold modify. apply keeps_bind; [apply _|apply deref_calm|intros; apply put_calm]. Qed.
Lemma sdm_layer_calm i f : keeps calm (sdm_layer i f : W _).
Proof. apply modify_calm. Qed.
#[local] Hint Resolve get_calm deref_calm put_calm gr_calm sdm_calm modify_calm sdm_layer_calm : keeps.

(** An update of one part of the state: nothing else of it is mentioned. *)
Ltac calm_update :=
  apply keeps_modify; intro; repeat constructor; simpl; try done;
  try (set_solver); try (repeat case_match; done).
#[local] Hint Extern 3 (keeps calm (st_modify _)) => solve [calm_update] : keeps.
#[local] Hint Extern 3 (keeps calm (on_ls _)) => solve [calm_update] : keeps.
#[local] Hint Extern 3 (keeps calm (on_stack _)) => solve [calm_update] : keeps.
#[local] Hint Extern 3 (keeps calm (on_sflags _)) => solve [calm_update] : keeps.
#[local] Hint Extern 3 (keeps calm (on_prog _)) => solve [calm_update] : keeps.
#[local] Hint Extern 3 (keeps calm (on_rates _)) => solve [calm_update] : keeps.
#[local] Hint Extern 3 (keeps calm (on_misc _)) => solve [calm_update] : keeps.
#[local] Hint Extern 3 (keeps calm (on_out _)) => solve [calm_update] : keeps.
#[local] Hint Extern 3 (keeps calm reset_validated) => solve [calm_update] : keeps.

(** Splits a computation into its calls. *)
Ltac calm_step :=
  first
    [ match goal with |- forall _, _ => intro end
    | progress cbv zeta
    | simple apply keeps_ret; apply _
    | simple apply keeps_undef
    | simple apply keeps_gets; apply _
    | simple apply keeps_lift; apply _
    | solve [auto 2 with keeps nocore]
    | simple apply keeps_bind; [apply _| |]
    | match goal with
      | |- keeps _ (match ?x with _ => _ end) => destruct x
      | |- keeps _ (if ?b then _ else _) => destruct b
      end ].
Ltac calm_tac := repeat calm_step.

Lemma for_each_calm l f : (forall i, keeps calm (f i)) -> keeps calm (for_each l f : W _).
Proof. intros Hf. induction l; simpl; calm_tac. Qed.
Lemma reset_bit_calm : keeps calm (reset_bit : W _).
Proof. unfold reset_bit. calm_tac. Qed.
Lemma layer_value_calm p : keeps calm (layer_value p : W _).
Proof. unfold layer_value. calm_tac. Qed.
#[local] Hint Resolve for_each_calm reset_bit_calm layer_value_calm : keeps.
Lemma stack_values_calm l : keeps calm (stack_values l : W _).
Proof. induction l; simpl; calm_tac. Qed.
Lemma store_values_calm l vs : keeps calm (store_values l vs : W _).
Proof. revert vs. induction l as [|p l IH]; intros [|v vs]; simpl; calm_tac. Qed.
Lemma output_value_calm s : keeps calm (output_value s : W _).
Proof. unfold output_value. calm_tac. Qed.
Lemma store_live_calm l vs : keeps calm (store_live l vs : W _).
Proof. revert vs. induction l as [|p l IH]; intros [|v vs]; simpl; calm_tac. Qed.
#[local] Hint Resolve stack_values_calm store_values_calm store_live_calm output_value_calm : keeps.

Lemma SetSecureDisplay_calm b : keeps calm (SetSecureDisplay b : W _).
Proof. unfold SetSecureDisplay. calm_tac. Qed.
Lemma ApplyScanAdjustment_calm f : keeps calm (ApplyScanAdjustment f : W _).
Proof. unfold ApplyScanAdjustment. calm_tac. Qed.
Lemma MarkLayersForClientComposition_calm : keeps calm (MarkLayersForClientComposition : W _).
Proof. unfold MarkLayersForClientComposition, set_of. calm_tac. Qed.
#[local] Hint Resolve SetSecureDisplay_calm ApplyScanAdjustment_calm MarkLayersForClientComposition_calm : keeps.
Lemma layer_flags_calm i : keeps calm (layer_flags wide i : W _).
Proof. unfold layer_flags. calm_tac. Qed.
Lemma layer_defaults_calm i : keeps calm (layer_defaults i : W _).
Proof. unfold layer_defaults. calm_tac. Qed.
Lemma layer_security_calm i : keeps calm (layer_security i : W _).
Proof. unfold layer_security. calm_tac. Qed.
Lemma layer_kind_calm i b : keeps calm (layer_kind i b : W _).
Proof. unfold layer_kind. calm_tac. Qed.
Lemma layer_geometry_calm i : keeps calm (layer_geometry i : W _).
Proof. unfold layer_geometry. calm_tac. Qed.
#[local] Hint Resolve layer_flags_calm layer_defaults_calm layer_security_calm layer_kind_calm layer_geometry_calm : keeps.
Lemma local_conversion_calm p i : keeps calm (local_conversion p i : W _).
Proof. unfold local_conversion. calm_tac. Qed.
#[local] Hint Resolve local_conversion_calm : keeps.

(** ** Presenting *)
Lemma layers_settled_calm l : keeps calm (layers_settled l : W _).
Proof. induction l; simpl; calm_tac. Qed.
#[local] Hint Resolve layers_settled_calm : keeps.
Lemma CanSkipValidate_calm : keeps calm (CanSkipValidate : W _).
Proof. unfold CanSkipValidate. calm_tac. Qed.
Lemma DumpInputBuffers_calm : keeps calm (DumpInputBuffers : W _).
Proof. unfold DumpInputBuffers. calm_tac. Qed.
Lemma tone_map_calm : keeps calm (tone_map : W _).
Proof. unfold tone_map. calm_tac. Qed.
#[local] Hint Resolve CanSkipValidate_calm DumpInputBuffers_calm tone_map_calm : keeps.
Lemma CommitLayerStack_calm : keeps calm (CommitLayerStack : W _).
Proof. unfold CommitLayerStack, is_validated, set_of. calm_tac. Qed.
Lemma retire_layer_calm f b i : keeps calm (retire_layer f b i : W _).
Proof. unfold retire_layer. calm_tac. Qed.
Lemma retire_target_calm : keeps calm (retire_target : W _).
Proof. unfold retire_target. calm_tac. Qed.
Lemma close_acquire_calm i : keeps calm (close_acquire i : W _).
Proof. unfold close_acquire. calm_tac. Qed.
#[local] Hint Resolve CommitLayerStack_calm retire_layer_calm retire_target_calm close_acquire_calm : keeps.
Lemma PostCommitLayerStack_calm : keeps calm (PostCommitLayerStack : W _).
Proof. unfold PostCommitLayerStack, set_of. calm_tac. Qed.
Lemma CloseAcquireFds_calm : keeps calm (CloseAcquireFds : W _).
Proof. unfold CloseAcquireFds, set_of. calm_tac. Qed.
Lemma SolidFillCommit_calm : keeps calm (SolidFillCommit : W _).
Proof. unfold SolidFillCommit. calm_tac. Qed.
Lemma wait_output_calm : keeps calm (wait_output : W _).
Proof. unfold wait_output. calm_tac. Qed.
#[local] Hint Resolve wait_output_calm : keeps.
Lemma HandleFrameOutput_calm : keeps calm (HandleFrameOutput : W _).
Proof. unfold HandleFrameOutput, HandleFrameCapture, HandleFrameDump. calm_tac. Qed.
#[local] Hint Resolve PostCommitLayerStack_calm CloseAcquireFds_calm SolidFillCommit_calm HandleFrameOutput_calm : keeps.
Lemma Present_calm : keeps calm (Primary.Present : W _).
Proof. unfold Primary.Present. calm_tac. Qed.

(** ** The other calls *)
Lemma pop_fences_calm l : keeps calm (pop_fences l : W _).
Proof. induction l; simpl; calm_tac. Qed.
#[local] Hint Resolve pop_fences_calm Present_calm : keeps.
Lemma GetReleaseFences_calm b : keeps calm (GetReleaseFences b : W _).
Proof. unfold GetReleaseFences, set_of. calm_tac. Qed.
Lemma accept_changes_calm l : keeps calm (accept_changes l : W _).
Proof. induction l as [|[i c] l IH]; simpl; calm_tac. Qed.
#[local] Hint Resolve accept_changes_calm : keeps.
Lemma AcceptDisplayChanges_calm : keeps calm (AcceptDisplayChanges : W _).
Proof. unfold AcceptDisplayChanges, is_validated. calm_tac. Qed.
Lemma SetLayerZ_calm i z : keeps calm (SetLayerZ i z : W _).
Proof. unfold SetLayerZ. calm_tac. Qed.
Lemma SetVsyncEnabled_calm v : keeps calm (SetVsyncEnabled v : W _).
Proof. unfold SetVsyncEnabled. calm_tac. Qed.
Lemma SetPowerMode_calm m : keeps calm (SetPowerMode m : W _).
Proof. unfold SetPowerMode. calm_tac. Qed.
Lemma SetClientTarget_calm t f d l : keeps calm (SetClientTarget t f d l : W _).
Proof. unfold SetClientTarget. calm_tac. Qed.
Lemma property_flag_calm s : keeps calm (property_flag s : W _).
Proof. unfold property_flag. calm_tac. Qed.
#[local] Hint Resolve property_flag_calm : keeps.
Lemma SetFrameBufferResolution_calm f x y : keeps calm (SetFrameBufferResolution f x y : W _).
Proof. unfold SetFrameBufferResolution. calm_tac. Qed.
Lemma DisplayCursor_calm i x y : keeps calm (HwcDisplay.SetCursorPosition i x y : W _).
Proof. unfold HwcDisplay.SetCursorPosition, GetHWCLayer, is_validated. calm_tac. Qed.
Lemma CallLayerFunction_calm i c : keeps calm (CallLayerFunction i c : W _).
Proof. unfold CallLayerFunction, GetHWCLayer. calm_tac. Qed.
Lemma DumpConfig_calm n m : keeps calm (HwcDisplay.SetFrameDumpConfig n m : W _).
Proof. unfold HwcDisplay.SetFrameDumpConfig. calm_tac. Qed.
Lemma with_color_calm {A} (f : HWCColorMode -> St V (A * HWCColorMode)) : keeps calm (with_color f : W _).
Proof. unfold with_color. calm_tac. Qed.
#[local] Hint Resolve GetReleaseFences_calm AcceptDisplayChanges_calm SetLayerZ_calm SetVsyncEnabled_calm SetPowerMode_calm SetClientTarget_calm SetFrameBufferResolution_calm DisplayCursor_calm CallLayerFunction_calm DumpConfig_calm with_color_calm : keeps.
Lemma PrimaryDumpConfig_calm n m : keeps calm (Primary.SetFrameDumpConfig n m : W _).
Proof. unfold Primary.SetFrameDumpConfig, DisablePartialUpdateOneFrame, GetPanelResolution. calm_tac. Qed.
Lemma FrameCaptureAsync_calm i b : keeps calm (FrameCaptureAsync i b : W _).
Proof. unfold FrameCaptureAsync, DisablePartialUpdateOneFrame, GetPanelResolution, GetFrameBufferResolution. calm_tac. Qed.
Lemma Perform_calm o : keeps calm (Perform o : W _).
Proof. unfold Perform, SetMetaDataRefreshRateFlag, ForceRefreshRate, SetQDCMSolidFillInfo. calm_tac. Qed.
#[local] Hint Resolve PrimaryDumpConfig_calm FrameCaptureAsync_calm Perform_calm : keeps.

(** Which calls may make the display ready or change its stack. *)
Definition frame_call (c : Call) : bool :=
  match c with
  | CCreateLayer | CDestroyLayer _ | CValidate | CToggleScreenUpdates _ | CSetDisplayStatus _ => true
  | _ => false
  end.
Lemma run_calm c : frame_call c = false -> keeps calm (run wide c : W _).
Proof.
  destruct c; try done; intros _; unfold run, done_; try solve [calm_tac].
  - unfold Client.SetCursorPosition. calm_tac.
  - unfold Primary.SetColorMode. calm_tac.
  - unfold Primary.SetColorTransform. calm_tac.
  - unfold SetActiveConfig. calm_tac.
  - unfold SetDisplayAnimating. calm_tac.
  - unfold Refresh. calm_tac.
  - unfold OnThermalEvent. calm_tac.
  - unfold SetIdleTimeoutMs. calm_tac.
  - unfold SetMaxMixerStages. calm_tac.
  - unfold OnMinHdcpEncryptionLevelChange. calm_tac.
  - unfold SetPanelBrightness. calm_tac.
  - unfold ControlPartialUpdate. calm_tac.
  - unfold SetMixerResolution. calm_tac.
  - unfold SetDetailEnhancerConfig. calm_tac.
Qed.

(** ** Building the stack *)
Abbreviation pointed w := (slayers (layer_stack_ (ls w)), client_target_ (ls w)).
Lemma calm_pointed {A} (m : W A) w a w' : keeps calm m -> m w = Ret (a, w') -> pointed w' = pointed w.
Proof. intros Hm E. destruct (calm_same _ _ (Hm _ _ _ E)). congruence. Qed.
(** Goes back over the calls that leave the pointers alone. *)
Ltac pointed_back :=
  repeat match goal with E : ?m ?x = Ret (_, ?y) |- context [layer_stack_ (ls ?y)] =>
    let Ep := fresh in pose proof (calm_pointed m x _ y ltac:(calm_tac) E) as Ep; injection Ep as -> ->; clear E end.

Lemma layer_update_pointers i w (w' : World) : layer_update i w = Ret (tt, w') ->
  pointed w' = (pointers w ++ [PLayer i], client_target_ (ls w)).
Proof. unfold layer_update. intros E. repeat st_step E. injection E as <-. cbn. by pointed_back. Qed.
Lemma build_loop_pointers l p b w r (w' : World) : build_loop wide l p b w = Ret (r, w') ->
  pointed w' = (pointers w ++ (PLayer <$> l), client_target_ (ls w)).
Proof.
  revert p b w. induction l as [|i l IH]; intros p b w E; simpl in E.
  { injection E as _ <-. by rewrite app_nil_r. }
  repeat st_step E. destruct a2 as [sec dsp]. repeat st_step E. rewrite (IH _ _ _ E). clear E.
  match goal with E : layer_update _ _ = Ret (?u, _) |- _ =>
    destruct u; apply layer_update_pointers in E; injection E as -> -> end.
  pointed_back. by rewrite <- app_assoc.
Qed.
Lemma BuildLayerStack_pointers w r (w' : World) : BuildLayerStack wide w = Ret (r, w') ->
  pointed w' = ((PLayer <$> layer_set_ (ls w)) ++ [PLayer (client_target_ (ls w))], client_target_ (ls w)).
Proof.
  intros E. unfold BuildLayerStack in E. do 5 (st_step E; injection E0 as <- <-). cbn in E.
  st_step E. destruct a as [working active]. apply build_loop_pointers in E0. cbn in E0. injection E0 as Ep Ec.
  st_step E. do 4 (st_step E; injection E1 as <- <-). repeat st_step E. injection E as _ <-. cbn. pointed_back. cbn. by rewrite Ep, Ec.
Qed.

(** ** The stack that may be committed *)
Definition palive (w : World) (p : LPtr) : Prop :=
  match p with PLayer i => alive (heap w) i | PSolid => is_Some (solid_fill_layer_ w) end.
(** The display is shown and was validated: the stack is not stale. *)
Definition committable (w : World) : Prop :=
  display_paused_ (prog w) = false -> ready w -> Forall (palive w) (pointers w).

Lemma palive_same w w' : shape w' = shape w -> same_stack w w' -> Forall (palive w) (pointers w) -> Forall (palive w') (pointers w').
Proof.
  intros Hs [-> _ _ _ Hso] Hl. eapply Forall_impl; [exact Hl|]. intros [i|]; simpl; [|done].
  injection Hs as _ _ _ _ Hz. by apply alive_shape.
Qed.
Lemma committable_calm w w' : committable w -> shape w' = shape w -> calm w w' -> committable w'.
Proof.
  intros Hc Hs [Hss Hr] Hp Hv. eapply palive_same; [done..|]. apply Hc; [|auto]. by rewrite <- (ss_paused _ _ Hss).
Qed.

(** The calls that set the bit. *)
Lemma same_of_calm {A} (m : W A) : keeps calm m -> keeps same_stack m.
Proof. intros Hm w a w' E. by destruct (Hm _ _ _ E). Qed.
#[local] Hint Extern 1 (keeps same_stack _) => simple apply same_of_calm; solve [calm_tac] : keeps.
Lemma set_bit_same : keeps same_stack (set_bit : W _).
Proof. unfold set_bit. calm_tac. by apply keeps_modify; constructor. Qed.
#[local] Hint Resolve set_bit_same : keeps.
Lemma bypass_same : keeps same_stack (MarkLayersForGPUBypass : W _).
Proof. unfold MarkLayersForGPUBypass, set_of. calm_tac. Qed.
Lemma take_decision_calm i : keeps calm (take_decision i : W _).
Proof. unfold take_decision. calm_tac. Qed.
#[local] Hint Resolve bypass_same take_decision_calm : keeps.
Lemma sdm_prepare_same : keeps same_stack (sdm_prepare : W _).
Proof. unfold sdm_prepare. calm_tac. Qed.
#[local] Hint Resolve sdm_prepare_same : keeps.
Lemma PrepareLayerStack_same : keeps same_stack (PrepareLayerStack : W _).
Proof. unfold PrepareLayerStack, set_of. calm_tac. Qed.
Lemma update_rate_calm : keeps calm (update_rate : W _).
Proof. unfold update_rate, GetUpdatingLayersCount, ToggleCPUHint. calm_tac. Qed.
Lemma ProcessBootAnimCompleted_calm : keeps calm (ProcessBootAnimCompleted : W _).
Proof. unfold ProcessBootAnimCompleted, Primary.RestoreColorTransform, crypto_state, set_of. calm_tac. Qed.
#[local] Hint Resolve PrepareLayerStack_same update_rate_calm ProcessBootAnimCompleted_calm : keeps.

Lemma SolidFillPrepare_pointers w r (w' : World) : SolidFillPrepare w = Ret (r, w') ->
  pointers w' = pointers w \/ pointers w' = [PSolid; PLayer (client_target_ (ls w))] /\ is_Some (solid_fill_layer_ w').
Proof.
  unfold SolidFillPrepare. intros E. st_step E. injection E0 as <- <-. destruct (solid_fill_enable_ (misc w)).
  - right. st_step E. injection E0 as <- <-. st_step E. destruct a as [[e mw] mh]. cbv zeta in E.
    assert (Ec : client_target_ (ls s) = client_target_ (ls w)).
    { destruct (calm_same _ _ (sdm_calm _ _ _ _ E0)). done. }
    do 4 (st_step E; injection E1 as <- <-). destruct (bypass_same _ _ _ E) as [-> _ _ _ Hs]. cbn in *. rewrite Ec. eauto.
  - left. by injection E as _ <-.
Qed.

Lemma Validate_committable w r (w' : World) : wf w -> Primary.Validate wide w = Ret (r, w') -> committable w'.
Proof.
  intros Hw E Hp _.
  destruct (Validate_keep wide (shape w) (wf_shape_ids w Hw) w r w' (conj eq_refl (wf_changes w Hw)) E) as [[Hs _] _].
  unfold Primary.Validate in E. st_step E. injection E0 as <- <-. st_step E.
  assert (Hl : forall b : bool, stays (shaped (shape w)) (if b then ProcessBootAnimCompleted else mret tt : W unit) any).
  { intros []; [apply ProcessBootAnimCompleted_keep, (wf_shape_ids w Hw)|by apply stays_ret]. }
  destruct (Hl _ w a s (conj eq_refl (wf_changes w Hw)) E0) as [[Hs1 _] _]. injection Hs1 as Eset _ Ecl _ _.
  st_step E. injection E1 as <- <-. destruct (display_paused_ (prog s)) eqn:Hps.
  { st_step E. injection E as _ <-. destruct (bypass_same _ _ _ E1) as [_ _ Hpp _ _]. congruence. }
  st_step E. apply BuildLayerStack_pointers in E1. rewrite Eset, Ecl in E1. injection E1 as Ep Ec.
  st_step E. match type of E1 with ?m ?x = Ret (_, ?y) => pose proof (calm_pointed m x _ y ltac:(calm_tac) E1) as Ew end.
  rewrite Ep, Ec in Ew. injection Ew as Ep1 Ec1. st_step E. apply SolidFillPrepare_pointers in E2. rewrite Ep1, Ec1 in E2.
  match type of E with ?m ?x = _ => assert (Hk : keeps same_stack m) by (unfold set_of; calm_tac; by apply keeps_modify; constructor);
    destruct (Hk _ _ _ E) as [-> _ _ _ Hso]; clear Hk end.
  assert (Hal : forall i, i ∈ client_target_ (ls w) :: layer_set_ (ls w) -> palive w' (PLayer i)).
  { intros i Hi. simpl. injection Hs as _ _ _ _ Hz. apply (alive_shape (heap w)); [done|]. apply elem_of_cons in Hi as [->|Hi].
    - apply (wf_client w Hw).
    - pose proof (wf_alive w Hw) as Ha. rewrite list.Forall_forall in Ha. auto. }
  destruct E2 as [->|[-> Hsol]].
  - apply list.Forall_app. split; [|by constructor; [apply Hal; left|constructor]].
    apply Forall_fmap. rewrite list.Forall_forall. intros i Hi. apply Hal. by right.
  - constructor; [by apply Hso|]. constructor; [apply Hal; left|constructor].
Qed.

(** No layer is deleted. *)
Definition grows (w w' : World) : Prop := forall i, alive (heap w) i -> alive (heap w') i.
#[local] Instance grows_pre : PreOrder grows.
Proof. split; [by intros w i|]. intros a b c Hab Hbc i Hi. auto. Qed.
Lemma deref_grows i : keeps grows (deref i : W _).
Proof. intros w a w'. unfold deref. destruct (heap w !! i); [|done]. intros [= <- <-]. reflexivity. Qed.
Lemma put_grows i h : keeps grows (put i h : W _).
Proof. apply keeps_modify. intros w j. unfold alive. cbn. rewrite lookup_insert_is_Some. destruct (decide (i = j)); naive_solver. Qed.
Lemma ls_grows f : keeps grows (on_ls f : W _).
Proof. by apply keeps_modify; intros w j. Qed.
#[local] Hint Resolve deref_grows put_grows ls_grows : keeps.
Lemma SetLayerZ_grows i z : keeps grows (SetLayerZ i z : W _).
Proof. unfold SetLayerZ. calm_tac. Qed.
Lemma Accept_grows : keeps grows (AcceptDisplayChanges : W _).
Proof.
  assert (Ha : forall l, keeps grows (accept_changes l : W _)).
  { induction l as [|[i c] l IH]; simpl; unfold modify; calm_tac. }
  unfold AcceptDisplayChanges, is_validated. calm_tac.
Qed.

(** A call after which no display is ready. *)
Lemma committable_reset (w : World) : validated_ (prog w) = ∅ -> committable w.
Proof. intros E _ Hr. rewrite E in Hr. set_solver. Qed.
Lemma DestroyLayer_reset i w e (w' : World) : DestroyLayer i w = Ret (e, w') -> w' = w \/ validated_ (prog w') = ∅.
Proof.
  unfold DestroyLayer. intros E. st_step E. injection E0 as <- <-.
  destruct (layer_map_ (ls w) !! i); [|by injection E as _ <-; left]. right.
  st_step E. injection E0 as <- <-. st_step E. do 3 (st_step E; injection E1 as <- <-). by injection E as _ <-.
Qed.
Lemma SetDisplayStatus_cases st w r (w' : World) : SetDisplayStatus st w = Ret (r, w') -> calm w w' \/ validated_ (prog w') = ∅.
Proof.
  unfold SetDisplayStatus. intros E. destruct st.
  - left. injection E as _ <-. reflexivity.
  - left. revert E. match goal with |- ?m w = _ -> _ => assert (Hk : keeps calm m) by calm_tac; apply Hk end.
  - left. revert E. match goal with |- ?m w = _ -> _ => assert (Hk : keeps calm m) by calm_tac; apply Hk end.
  - right. repeat st_step E. injection E as _ <-. repeat st_step E2. by injection E2 as _ <-.
  - right. repeat st_step E. injection E as _ <-. repeat st_step E2. by injection E2 as _ <-.
Qed.

Lemma step_committable w w' : wf w -> committable w -> step wide w w' -> committable w'.
Proof.
  intros Hw Hc [c w1 Hn E|v Hv].
  2: { intros Hp Hr. apply Hc; [done|]. by apply Hv. }
  destruct (frame_call c) eqn:Hf.
  - destruct c; try done; apply done_inv in E as [r E].
    + destruct (CreateLayer_runs w Hw Hn) as (l1 & l2 & w2 & _ & Er & _ & _ & _ & _ & _ & _ & _ & _ & Ev). rewrite Er in E.
      injection E as _ <-. by apply committable_reset.
    + destruct (DestroyLayer_reset _ _ _ _ E) as [->|Hv]; [done|by apply committable_reset].
    + by apply (Validate_committable w r).
    + destruct (SetDisplayStatus_cases _ _ _ _ E) as [Hcalm|Hv]; [|by apply committable_reset].
      apply (committable_calm w); [done| |done].
      destruct (SetDisplayStatus_keep (shape w) s w r w1 (conj eq_refl (wf_changes w Hw)) E) as [[Hs _] _]. done.
    + apply committable_reset. unfold ToggleScreenUpdates in E. repeat st_step E. injection E as _ <-. by injection E2 as _ <-.
  - pose proof (run_calm c Hf w tt w1 E) as Hcalm. destruct (structural c) eqn:Hst.
    + intros Hp Hr. destruct Hcalm as [Hss Hrr]. specialize (Hc ltac:(by rewrite <- (ss_paused _ _ Hss)) (Hrr Hr)).
      rewrite (ss_pointers _ _ Hss). eapply Forall_impl; [exact Hc|]. intros [i|]; simpl; [|apply (ss_solid _ _ Hss)].
      destruct c; try done; apply done_inv in E as [r E]; [exact (SetLayerZ_grows _ _ _ _ _ E i)|exact (Accept_grows _ _ _ E i)].
    + apply (committable_calm w); [done| |done].
      destruct (run_keep wide (shape w) (wf_shape_ids w Hw) c Hst w tt w1 (conj eq_refl (wf_changes w Hw)) E) as [[Hs _] _]. done.
Qed.

(** ** A display that has been made *)
Definition quiet (w w' : World) : Prop := pointers w' = pointers w.
#[local] Instance quiet_pre : PreOrder quiet.
Proof. split; [done|]. unfold quiet. intros a b c -> ->. done. Qed.
Lemma quiet_of_calm {A} (m : W A) : keeps calm m -> keeps quiet m.
Proof. intros Hm w a w' E. apply (ss_pointers _ _ (calm_same _ _ (Hm _ _ _ E))). Qed.
#[local] Hint Extern 1 (keeps quiet _) => simple apply quiet_of_calm; solve [calm_tac] : keeps.
#[local] Hint Extern 3 (keeps quiet (st_modify _)) => simple apply keeps_modify; done : keeps.
Lemma Init_quiet : keeps quiet (HwcDisplay.Init : W _).
Proof. unfold HwcDisplay.Init, GetUnderScanConfig. calm_tac. Qed.
Lemma delete_layer_quiet i : keeps quiet (delete_layer i : W _).
Proof. unfold delete_layer. calm_tac. Qed.
#[local] Hint Resolve Init_quiet delete_layer_quiet : keeps.
Lemma for_each_quiet l f : (forall i, keeps quiet (f i)) -> keeps quiet (for_each l f : W _).
Proof. intros Hf. induction l; simpl; calm_tac. Qed.
#[local] Hint Resolve for_each_quiet : keeps.
Lemma Deinit_quiet : keeps quiet (HwcDisplay.Deinit : W _).
Proof. unfold HwcDisplay.Deinit. calm_tac. Qed.
#[local] Hint Resolve Deinit_quiet : keeps.

Lemma Init_shape w st (w' : World) (sh := shape w) :
  (forall i z j, sh_z sh !! i = Some (z, j) -> j = i /\ 0 <= i < sh_next sh) -> known (next_id_ w) (layer_changes_ (ls w)) ->
  0 <= next_id_ w -> next_id_ w + 1 < 2 ^ 64 -> HwcDisplay.Init w = Ret (st, w') -> st = 0 ->
  shape w' = mkShape (sh_set sh) (sh_map sh) (next_id_ w) (next_id_ w + 1) (<[next_id_ w := (0, next_id_ w)]> (sh_z sh)) /\
  known (next_id_ w + 1) (layer_changes_ (ls w')).
Proof.
  intros Hids Hk H0' Hn E ->. unfold HwcDisplay.Init in E. st_step E. injection E0 as <- <-. st_step E.
  destruct (decide (a <> kErrorNone)); [discriminate|].
  destruct (sdm_keep sh _ _ _ _ (conj eq_refl Hk) E0) as [I0 _]. st_step E.
  destruct (validated_keep sh _ _ _ I0 E1) as [I1 _]. st_step E. destruct (property_flag_keep sh _ _ _ _ I1 E2) as [I2 _].
  st_step E. destruct (gr_any sh _ _ _ _ I2 E3) as [I3 _]. st_step E. destruct (misc_keep sh _ _ _ _ I3 E4) as [I4 _].
  st_step E. injection E5 as <- <-. destruct I4 as [Hs4 Hk4].
  st_step E. injection E5 as <- <-. st_step E. injection E5 as <- <-. cbn in E.
  assert (En : next_id_ s3 = next_id_ w) by (by injection Hs4). rewrite En in *.
  set (sh1 := mkShape (sh_set sh) (sh_map sh) (next_id_ w) (next_id_ w + 1) (<[next_id_ w := (0, next_id_ w)]> (sh_z sh))).
  match type of E with _ ?x = _ => assert (J : shaped sh1 x) end.
  { split.
    - unfold shape. cbn. injection Hs4 as Es Em _ _ Ez. rewrite Es, Em, fmap_insert, Ez. unfold sh1. f_equal.
      apply uwrap_small. lia.
    - cbn. eapply Forall_impl; [exact Hk4|]. cbn. lia. }
  match type of E with ?m _ = _ => assert (Hm : stays (shaped sh1) m any) end; [|apply (Hm _ _ _ J E)].
  clear. unfold GetUnderScanConfig. stays_tac.
  all: first [apply prog_keep|apply sdm_keep|apply misc_keep|apply rates_keep|apply gr_any].
Qed.

(** Identifiers are used once. *)
Definition ids_ok (w : World) : Prop :=
  0 <= next_id_ w /\ forall i h, heap w !! i = Some h -> id_ h = i /\ 0 <= i < next_id_ w.

Lemma Create_shape exclude_pp rgba w (w' : World) : ids_ok w -> next_id_ w + 1 < 2 ^ 64 ->
  Primary.Create exclude_pp rgba w = Ret (0, w') ->
  shape w' = mkShape [] ∅ (next_id_ w) (next_id_ w + 1) (<[next_id_ w := (0, next_id_ w)]> (zid <$> heap w)) /\
  known (next_id_ w + 1) (layer_changes_ (ls w')) /\ pointers w' = [].
Proof.
  intros [Hn0 Hids] Hn E. unfold Primary.Create in E. st_step E. injection E0 as <- <-.
  set (w0 := new_HWCDisplay kPrimary 0 w) in *.
  match type of E with ?m _ = _ => assert (Hq : keeps quiet m) end.
  { unfold Primary.Init. calm_tac. }
  pose proof (Hq _ _ _ E) as Ep. change (pointers w0) with (@nil LPtr) in Ep. clear Hq.
  assert (Hi0 : forall i z j, sh_z (shape w0) !! i = Some (z, j) -> j = i /\ 0 <= i < sh_next (shape w0)).
  { intros i z j. unfold shape. cbn [sh_z sh_next]. rewrite lookup_fmap. change (heap w0) with (heap w).
    destruct (heap w !! i) as [h|] eqn:Eh; [|done]. intros [= _ <-]. by apply Hids. }
  set (sh0 := shape w0) in *. assert (I0 : shaped sh0 w0) by (by split; [|constructor]).
  st_step E. destruct (negb (a =? 0)) eqn:Ea; [injection E as -> <-; done|]. apply negb_false_iff, Z.eqb_eq in Ea as ->.
  unfold Primary.Init in E0. st_step E0. destruct (sdm_keep sh0 _ _ _ _ I0 E1) as [I1 _].
  st_step E0. destruct (misc_keep sh0 _ _ _ _ I1 E2) as [I2 _]. st_step E0. destruct (property_flag_keep sh0 _ _ _ _ I2 E3) as [I3 _].
  st_step E0. destruct (rates_keep sh0 _ _ _ _ I3 E4) as [[Hs4 Hk4] _]. st_step E0.
  assert (Ea : a3 = 0).
  { destruct (Z.eqb_spec a3 0); [done|]. by injection E0 as ? _. }
  assert (En : next_id_ s3 = next_id_ w) by (by injection Hs4).
  destruct (Init_shape s3 a3 s4) as [Hs5 Hk5]; [by rewrite Hs4|by rewrite En|by rewrite En|by rewrite En|done|done|].
  rewrite Hs4, En in Hs5. rewrite En in Hk5. set (sh1 := mkShape _ _ _ _ _) in Hs5.
  rewrite Ea in E0. cbn in E0. assert (I5 : shaped sh1 s4) by (by split).
  assert (I6 : shaped sh1 s).
  { match type of E0 with ?m _ = _ => assert (Hm : stays (shaped sh1) m any) end; [|apply (Hm _ _ _ I5 E0)].
    stays_tac; first [apply color_keep|apply with_color_keep|apply gr_any|apply misc_keep]. }
  assert (Hi1 : forall i z j, sh_z sh1 !! i = Some (z, j) -> j = i /\ 0 <= i < sh_next sh1).
  { intros i z j. unfold sh1. cbn [sh_z sh_next]. intros [[<- [= _ <-]]|[_ Hz]]%lookup_insert_Some; [lia|]. destruct (Hi0 _ _ _ Hz) as [-> Hr]. change (sh_next sh0) with (next_id_ w) in Hr. lia. }
  assert (I7 : shaped sh1 w').
  { st_step E. destruct a4 as [[e pw] ph]. destruct (sdm_keep sh1 _ _ _ _ I6 E6) as [I7 _].
    st_step E. destruct (gr_any sh1 _ _ _ _ I7 E7) as [I8 _]. st_step E. destruct (gr_any sh1 _ _ _ _ I8 E8) as [I9 _].
    destruct (_ && _); st_step E; destruct (SetFrameBufferResolution_keep sh1 Hi1 _ _ _ _ _ _ I9 E9) as [I10 _];
      destruct (negb (a6 =? 0)) eqn:Ez; [st_step E; by injection E as -> _|by injection E as _ <-|
                                 st_step E; by injection E as -> _|by injection E as _ <-]. }
  destruct I7 as [Hs7 Hk7]. split_and!; [exact Hs7|exact Hk7|done].
Qed.
End Stack_.
End HwcStack.
