(* ===== verification/HwcFrame.v ===== *)
(** The calls of a frame on the layers of a display: what validation decides and
    AcceptDisplayChanges takes over, what is refused without validation, and what
    becomes of the release fences. *)
From S2P Require Import Prelude Rect ResourceDefault MetaData GrUtils Alloc BufMgr Strategy CompMgr DisplayBase HwcLayer HwcColor.
From S2P Require Import HwcDisplay HwcDisplays HwcFacts HwcSet HwcStack.
#[local] Open Scope Z_scope.

Module HwcFrame.
Import Float32 Rect Formats ResourceDefault Strategy HwcLayer HwcColor HwcDisplay Primary Client Calls Hoare HwcFacts HwcSet HwcStack.

(** What is used of the environment: close returns, and asking whether tone mapping
    is active changes nothing. *)
Class GrallocLaws (G : Type) `{!Gralloc G} := close_returns fd (g : G) : exists g', G_close fd g = Ret (tt, g').
Class SdmLaws (V : Type) `{!Sdm V} := tone_pure (v : V) : exists b, T_IsActive v = Ret (b, v).

Section Frame_.
Context `{!GrUtils.Platform, !Hal, !ColorHal} {G V : Type} `{!Gralloc G, !Sdm V, !ColorIntf V}.
Context (wide : bool).
Abbreviation World := (World (G := G) (V := V)).
Abbreviation W := (St World).

Abbreviation changes w := (layer_changes_ (ls w)).
(** ** The decisions *)

(** The change that is noted for a layer, when there is one. *)
Definition noted (h : HWCLayer) : option HComposition :=
  if decide (client_requested_ h <> device_selected_ h) then Some (device_selected_ h) else None.

(** The type that a composition chosen by SDM stands for. *)
Definition selected (l : Layer) : HComposition :=
  if decide (composition l = kCompositionGPU) then Client
  else if decide (composition l = kCompositionHWCursor) then Cursor
  else if decide (composition l = kCompositionSDE) then (if solid_fill (lflags l) then SolidColor else Device)
  else Device.
(** The layer as SDM left it and with the type it stands for. *)
Definition decided (h0 h : HWCLayer) : Prop := layer_ h = layer_ h0 /\ device_selected_ h = selected (layer_ h).

(** One decision: only this layer and its entry change. *)
Lemma take_decision_run i w (w' : World) : take_decision i w = Ret (tt, w') -> (forall h, heap w !! i = Some h -> id_ h = i) ->
  zmap_sorted (changes w) -> zmap_get i (changes w) = None ->
  exists h0 h, heap w !! i = Some h0 /\ decided h0 h /\ heap w' = <[i := h]> (heap w) /\ id_ h = i /\ zmap_sorted (changes w') /\ zmap_get i (changes w') = noted h /\
    (forall j, j <> i -> zmap_get j (changes w') = zmap_get j (changes w)) /\
    layer_set_ (ls w') = layer_set_ (ls w) /\ layer_map_ (ls w') = layer_map_ (ls w) /\ client_target_ (ls w') = client_target_ (ls w) /\
    layer_stack_ (ls w') = layer_stack_ (ls w) /\ sdm w' = sdm w /\ prog w' = prog w /\ misc w' = misc w.
Proof.
  intros E Hid Hs Hn. unfold take_decision in E. st_step E. unfold deref in E0. destruct (heap w !! i) as [h0|] eqn:Eh; [|done].
  injection E0 as <- <-. specialize (Hid _ eq_refl). cbv zeta in E. st_step E.
  assert (Es : exists r, s = w <| ls ::= (fun l => l <| layer_requests_ := r |>) |>).
  { destruct (composition (layer_ h0)); injection E0 as _ <-; eexists; try reflexivity.
    all: instantiate (1 := layer_requests_ (ls w)); destruct w as [?? ? [] ? ? ? ? ? ? ?]; done. }
  destruct Es as [r ->]. clear E0. set (h1 := SetComposition (composition (layer_ h0)) h0) in *.
  assert (Hid1 : id_ h1 = i) by done. st_step E. injection E as <-. exists h0, (ResetValidation h1). split; [done|].
  assert (Hd : decided h0 (ResetValidation h1)).
  { split; [done|]. unfold h1, SetComposition, selected. cbn. repeat case_decide; destruct (composition (layer_ h0)); try done;
      cbn; by destruct (solid_fill _). }
  split; [exact Hd|]. clear Hd. unfold noted.
  change (client_requested_ (ResetValidation h1)) with (client_requested_ h1).
  change (device_selected_ (ResetValidation h1)) with (device_selected_ h1).
  destruct (decide (client_requested_ h1 <> device_selected_ h1)); injection E0 as _ <-; cbn; rewrite ?Hid1, ?Hid.
  - split_and!; try done.
    + by apply zmap_set_sorted.
    + rewrite zmap_get_set by done. by rewrite Z.eqb_refl.
    + intros j Hj. rewrite zmap_get_set by done. by rewrite (proj2 (Z.eqb_neq _ _) Hj).
  - done.
Qed.

(** After the loop the entry of each layer of the set is the change that is noted for
    it. *)
Lemma take_decisions l : forall w (w' : World), NoDup l -> for_each l take_decision w = Ret (tt, w') ->
  (forall i h, heap w !! i = Some h -> id_ h = i) -> zmap_sorted (changes w) -> (forall i, i ∈ l -> zmap_get i (changes w) = None) ->
  zmap_sorted (changes w') /\
  (forall i, i ∈ l -> exists h0 h, heap w !! i = Some h0 /\ decided h0 h /\ heap w' !! i = Some h /\ zmap_get i (changes w') = noted h) /\
  (forall i, i ∉ l -> heap w' !! i = heap w !! i /\ zmap_get i (changes w') = zmap_get i (changes w)) /\
  layer_set_ (ls w') = layer_set_ (ls w) /\ layer_map_ (ls w') = layer_map_ (ls w) /\ client_target_ (ls w') = client_target_ (ls w) /\
  layer_stack_ (ls w') = layer_stack_ (ls w) /\ sdm w' = sdm w /\ prog w' = prog w /\ misc w' = misc w.
Proof.
  induction l as [|i l IH]; simpl; intros w w' Hn E Hid Hs Hf.
  { injection E as <-. split_and!; try done. by intros i ?%elem_of_nil. }
  apply NoDup_cons in Hn as [Hi Hn]. st_step E. destruct a.
  destruct (take_decision_run i w s E0 (Hid i) Hs (Hf i ltac:(left))) as (h0 & h & Eh0 & Hd & Eh & Hih & Hs1 & Hg & Ho & E1 & E2 & E3 & E6 & E7 & E4 & E5).
  destruct (IH s w' Hn E) as (Hs2 & Hin & Hout & F1 & F2 & F3 & F6 & F7 & F4 & F5).
  - intros j hj. rewrite Eh. destruct (decide (j = i)) as [->|]; [|rewrite lookup_insert_ne by done; apply Hid].
    rewrite lookup_insert_eq. by intros [= <-].
  - done.
  - intros j Hj. rewrite Ho; [apply Hf; by right|]. by intros ->.
  - split_and!; try congruence; try done.
    + intros j [->|Hj]%elem_of_cons.
      * destruct (Hout i Hi) as [-> ->]. rewrite Eh, lookup_insert_eq. eauto 10.
      * destruct (Hin j Hj) as (k0 & k & K0 & K). exists k0, k. rewrite Eh, lookup_insert_ne in K0 by (by intros <-). auto.
    + intros j Hj. apply not_elem_of_cons in Hj as [Hji Hj]. destruct (Hout j Hj) as [-> ->].
      rewrite Eh, lookup_insert_ne by done. auto.
Qed.

(** ** AcceptDisplayChanges *)

(** The layer after the changes are accepted. *)
Definition accepted (l : list (Z * HComposition)) (i : Z) (h : HWCLayer) : HWCLayer :=
  match zmap_get i l with Some c => h <| client_requested_ := c |> | None => h end.
Lemma zmap_tail_none {A} (i : Z) (a : A) l : zmap_sorted ((i, a) :: l) -> zmap_get i l = None.
Proof.
  intros [Hf _]. destruct (zmap_get i l) eqn:E; [|done]. apply zmap_get_elem in E. rewrite list.Forall_forall in Hf.
  specialize (Hf _ E). simpl in Hf. lia.
Qed.
Lemma accept_changes_run l : forall w : World, zmap_sorted l ->
  (forall i, is_Some (zmap_get i l) -> layer_map_ (ls w) !! i = Some (Some i) /\ alive (heap w) i) ->
  exists w', accept_changes l w = Ret (tt, w') /\ ls w' = ls w /\ prog w' = prog w /\
    forall i, heap w' !! i = accepted l i <$> heap w !! i.
Proof.
  induction l as [|[i c] l IH]; intros w Hs Hk.
  { exists w. split_and!; try done. intros i. by destruct (heap w !! i). }
  pose proof (zmap_tail_none i c l Hs) as Hn. destruct Hs as [_ Hs].
  destruct (Hk i) as [Hm [h Hh]]; [simpl; rewrite Z.eqb_refl; eauto|].
  set (w1 := w <| heap ::= <[i := h <| client_requested_ := c |>]> |>).
  destruct (IH w1 Hs) as (w' & E & El & Ep & Eh).
  { intros j Hj. destruct (Hk j) as [Hmj Haj].
    - simpl. destruct (j =? i); eauto.
    - split; [done|]. unfold alive. cbn. rewrite lookup_insert_is_Some. destruct (decide (i = j)); naive_solver. }
  exists w'. split_and!; try done.
  - simpl. unfold mbind, st_bind, st_gets. rewrite Hm. unfold modify, mbind, st_bind, deref. rewrite Hh. exact E.
  - intros j. rewrite Eh. cbn. unfold accepted. simpl. destruct (Z.eqb_spec j i) as [->|Hj].
    + rewrite lookup_insert_eq, Hh, Hn. done.
    + by rewrite lookup_insert_ne.
Qed.

(** ** Validation *)
Definition noted_same (w w' : World) : Prop := changes w' = changes w.
#[local] Instance noted_same_pre : PreOrder noted_same.
Proof. split; [done|]. unfold noted_same. intros a b c -> ->. done. Qed.
Lemma deref_noted i : keeps noted_same (deref i : W _).
Proof. intros w a w'. unfold deref. destruct (heap w !! i); [|done]. by intros [= <- <-]. Qed.
Lemma sdm_noted {A} (m : St V A) : keeps noted_same (in_sdm m : W A).
Proof. intros w a w'. unfold in_sdm. destruct (m (sdm w)) as [[b v]| |]; by intros [= <- <-]. Qed.
#[local] Hint Resolve deref_noted sdm_noted : keeps.
#[local] Hint Extern 3 (keeps noted_same _) => apply keeps_modify; done : keeps.
Ltac noted_tac :=
  repeat first
    [ match goal with |- forall _, _ => intro end
    | progress cbv zeta
    | simple apply keeps_ret; apply _
    | simple apply keeps_undef
    | simple apply keeps_gets; apply _
    | solve [auto 2 with keeps nocore]
    | simple apply keeps_bind; [apply _| |]
    | match goal with
      | |- keeps _ (match ?x with _ => _ end) => destruct x
      | |- keeps _ (if ?b then _ else _) => destruct b
      end ].
Lemma values_noted l : keeps noted_same (stack_values l : W _).
Proof. induction l; simpl; unfold layer_value; noted_tac. Qed.
#[local] Instance LPtr_eq_dec : EqDecision LPtr.
Proof. solve_decision. Defined.
(** The value SDM gave back for layer [i], among those for the pointers [l]. *)
Fixpoint sdm_value (l : list LPtr) (vs : list Layer) (i : Z) : option Layer :=
  match l, vs with
  | p :: l, v :: vs =>
      match sdm_value l vs i with
      | Some x => Some x
      | None => if decide (p = PLayer i) then Some v else None
      end
  | _, _ => None
  end.
Lemma store_values_run l : forall vs u (w w' : World), store_values l vs w = Ret (u, w') ->
  ls w' = ls w /\ sdm w' = sdm w /\
  forall i h, heap w !! i = Some h -> exists h', heap w' !! i = Some h' /\ layer_ h' = default (layer_ h) (sdm_value l vs i).
Proof.
  induction l as [|p l IH]; intros [|v vs] u w w' E; simpl in E; try (injection E as _ <-; split_and!; eauto; done).
  st_step E. assert (Hp : ls s = ls w /\ sdm s = sdm w /\ forall i h, heap w !! i = Some h ->
    exists h', heap s !! i = Some h' /\ layer_ h' = if decide (p = PLayer i) then v else layer_ h).
  { destruct p as [j|].
    - unfold sdm_layer, modify in E0. st_step E0. unfold deref in E1. destruct (heap w !! j) as [hj|] eqn:Ej; [|done].
      injection E1 as <- <-. injection E0 as _ <-. cbn. split_and!; [done..|]. intros i h Hi. destruct (decide (i = j)) as [->|Hij].
      + rewrite lookup_insert_eq. eexists. split; [done|]. rewrite decide_True by done. by destruct hj.
      + rewrite lookup_insert_ne by done. exists h. split; [done|]. rewrite decide_False by congruence. done.
    - injection E0 as _ <-. cbn. split_and!; [done..|]. intros i h Hi. eauto. }
  destruct Hp as (E1 & E2 & Hp). destruct (IH vs u s w' E) as (F1 & F2 & Hq). split_and!; [congruence..|]. intros i h Hi.
  destruct (Hp i h Hi) as (h1 & Hh1 & Hl1). destruct (Hq i h1 Hh1) as (h2 & Hh2 & Hl2). exists h2. split; [done|]. rewrite Hl2. simpl.
  destruct (sdm_value l vs i); [done|]. cbn. rewrite Hl1. by destruct (decide _).
Qed.
Lemma store_noted l vs : keeps noted_same (store_values l vs : W _).
Proof. revert vs. induction l as [|p l IH]; intros [|v vs]; simpl; unfold sdm_layer, modify; noted_tac. Qed.
Lemma each_noted l f : (forall i, keeps noted_same (f i)) -> keeps noted_same (for_each l f : W _).
Proof. intros Hf. induction l; simpl; noted_tac. Qed.
#[local] Hint Resolve values_noted store_noted each_noted : keeps.
Lemma sdm_prepare_noted : keeps noted_same (sdm_prepare : W _).
Proof. unfold sdm_prepare, output_value, set_bit. noted_tac. Qed.
Lemma bypass_noted : keeps noted_same (MarkLayersForGPUBypass : W _).
Proof. unfold MarkLayersForGPUBypass, set_of, set_bit, sdm_layer, modify. noted_tac. apply each_noted. noted_tac. Qed.

Lemma set_bit_ready w u (w' : World) : set_bit w = Ret (u, w') -> type_ (misc w') ∈ validated_ (prog w') /\ ls w' = ls w.
Proof. unfold set_bit. intros E. st_step E. injection E0 as <- <-. injection E as _ <-. cbn. set_solver. Qed.
Lemma sdm_prepare_ready w (w' : World) : sdm_prepare w = Ret (None, w') -> type_ (misc w') ∈ validated_ (prog w').
Proof.
  unfold sdm_prepare. intros E. do 4 st_step E. destruct a2 as [[e vs] f]. do 2 st_step E.
  destruct (decide (e <> kErrorNone)); [by repeat st_step E|]. st_step E. injection E as <-. by apply set_bit_ready in E6 as [? _].
Qed.

(** The layers are as SDM left them: those of the stack have the values its Prepare gave
    back, or all layers are left to SDM when Prepare was to be skipped. *)
Definition as_prepared (w w' : World) : Prop :=
  (skip_prepare_ (prog w) = true /\
   forall i, i ∈ layer_set_ (ls w') -> exists h, heap w' !! i = Some h /\ composition (layer_ h) = kCompositionSDE) \/
  exists vs o f vs' f', D_Prepare vs o f (sdm w) = Ret ((kErrorNone, vs', f'), sdm w') /\
    forall i h l, i ∈ layer_set_ (ls w') -> heap w' !! i = Some h ->
      sdm_value (slayers (layer_stack_ (ls w'))) vs' i = Some l -> layer_ h = l.
Lemma stack_values_run l : forall vs (w w' : World), stack_values l w = Ret (vs, w') -> w' = w.
Proof.
  induction l as [|p l IH]; intros vs w w' E; simpl in E; [by injection E as _ <-|]. st_step E. st_step E. injection E as _ <-.
  apply IH in E1 as ->. destruct p; simpl in E0; st_step E0.
  - unfold deref in E. destruct (heap w !! i); [|done]. injection E as _ <-. by injection E0 as _ <-.
  - unfold st_gets in E. injection E as <- <-. destruct (solid_fill_layer_ w); [by injection E0 as _ <-|done].
Qed.
Lemma sdm_prepare_prepared (w w' : World) : sdm_prepare w = Ret (None, w') -> wf w -> as_prepared w w'.
Proof.
  unfold sdm_prepare. intros E Hw. right. st_step E. injection E0 as <- <-. st_step E. apply stack_values_run in E0 as ->. st_step E.
  assert (s = w) as -> by (unfold output_value in E0; destruct (output_buffer _); by injection E0 as _ <-). clear E0.
  st_step E. unfold in_sdm in E0. destruct (D_Prepare _ _ _ (sdm w)) as [[x v]| |] eqn:ED; try done. injection E0 as <- <-.
  destruct x as [[e vs'] f']. st_step E. destruct (store_values_run _ _ _ _ _ E0) as (El & Es & Hv). clear E0. st_step E. injection E0 as _ <-.
  destruct (decide (e <> kErrorNone)) as [|He]; [by repeat st_step E|]. apply dec_stable in He as ->. st_step E. injection E as <-.
  unfold set_bit in E0. st_step E0. injection E as <- <-. injection E0 as _ <-. exists a, a0, (sflags (layer_stack_ (ls w))), vs', f'.
  cbn in *. rewrite Es, El. cbn. split; [exact ED|]. intros i h l Hi Hh Hl. pose proof (wf_alive w Hw) as Hal. rewrite list.Forall_forall in Hal.
  destruct (Hal i Hi) as [h0 Hh0]. destruct (Hv i h0 Hh0) as (h' & Hh' & Hlay). rewrite Hl in Hlay. cbn in Hlay. congruence.
Qed.
Lemma bypass_prepared l : forall u (w w' : World), for_each l (fun i => sdm_layer i (fun x => x <| composition := kCompositionSDE |>)) w = Ret (u, w') ->
  (forall i, i ∈ l -> exists h, heap w' !! i = Some h /\ composition (layer_ h) = kCompositionSDE) /\
  (forall i h, heap w !! i = Some h -> composition (layer_ h) = kCompositionSDE ->
     exists h', heap w' !! i = Some h' /\ composition (layer_ h') = kCompositionSDE).
Proof.
  induction l as [|j l IH]; intros u w w' E; simpl in E.
  { injection E as _ <-. split; [by intros i ?%elem_of_nil|eauto]. }
  st_step E. unfold sdm_layer, modify in E0. st_step E0. unfold deref in E1. destruct (heap w !! j) as [hj|] eqn:Ej; [|done].
  injection E1 as <- <-. injection E0 as _ <-. destruct (IH _ _ _ E) as [Hin Hk]. split.
  - intros i [->|Hi]%elem_of_cons; [|by apply Hin]. eapply Hk; [apply lookup_insert_eq|]. by destruct hj.
  - intros i h Hi Hc. destruct (decide (i = j)) as [->|Hij].
    + eapply Hk; [apply lookup_insert_eq|]. by destruct hj.
    + eapply Hk; [|exact Hc]. cbn. by rewrite lookup_insert_ne.
Qed.

Lemma as_prepared_later (w0 s w' : World) : as_prepared w0 s -> layer_set_ (ls w') = layer_set_ (ls s) ->
  layer_stack_ (ls w') = layer_stack_ (ls s) -> sdm w' = sdm s ->
  (forall i, i ∈ layer_set_ (ls s) -> exists h0 h, heap s !! i = Some h0 /\ heap w' !! i = Some h /\ layer_ h = layer_ h0) -> as_prepared w0 w'.
Proof.
  intros [[Hsk Hl]|(vs & o & f & vs' & f' & Hp & Hl)] Es Ek Ev Hh.
  - left. split; [done|]. rewrite Es. intros i Hi. destruct (Hh i Hi) as (h0 & h & H0' & H1' & Hlay). destruct (Hl i Hi) as (h2 & H2' & Hc).
    exists h. split; [done|]. rewrite Hlay. congruence.
  - right. exists vs, o, f, vs', f'. rewrite Ev. split; [done|]. rewrite Es, Ek. intros i h l Hi H1' Hv.
    destruct (Hh i Hi) as (h0 & h2 & H0' & H2' & Hlay). rewrite <- (Hl i h0 l Hi H0' Hv). congruence.
Qed.
(** What a validation that decided leaves: the display is ready, the layers have the type
    their composition stands for, and the changes are those of the layers. *)
Lemma PrepareLayerStack_noted w e n (w' : World) : wf w -> PrepareLayerStack w = Ret ((e, Some n), w') ->
  wf w' /\ shape w' = shape w /\ type_ (misc w') ∈ validated_ (prog w') /\ zmap_sorted (changes w') /\
  fst n = Z.of_nat (length (changes w')) /\ e = (if 0 <? fst n then HasChanges else ENone) /\
  (forall i, i ∈ layer_set_ (ls w') -> exists h, heap w' !! i = Some h /\ zmap_get i (changes w') = noted h /\
     device_selected_ h = selected (layer_ h)) /\
  (forall i, is_Some (zmap_get i (changes w')) -> i ∈ layer_set_ (ls w')) /\ as_prepared w w'.
Proof.
  intros Hw E.
  destruct (PrepareLayerStack_keep (shape w) (wf_shape_ids w Hw) w _ w' (conj eq_refl (wf_changes w Hw)) E) as [[Hs Hk] _].
  assert (Hw' : wf w') by (by apply (wf_same w)). unfold PrepareLayerStack in E.
  st_step E. injection E0 as _ <-. match type of E with _ ?x = _ => set (w0 := x) in E end. st_step E. injection E0 as <- <-.
  destruct (shutdown_pending_ _); [discriminate|]. st_step E. destruct a0 as [?|]; [discriminate|].
  assert (I0 : shaped (shape w) w0) by (by split; [|constructor]).
  assert (Hw0 : wf w0) by (apply (wf_same w); [done..|constructor]).
  assert (Hready : changes s = [] /\ type_ (misc s) ∈ validated_ (prog s) /\ shaped (shape w) s /\ as_prepared w0 s).
  { destruct (negb _) eqn:Hsk.
    - split; [by rewrite (sdm_prepare_noted _ _ _ E0)|]. split; [by apply sdm_prepare_ready in E0|]. split; [|by apply sdm_prepare_prepared].
      apply (sdm_prepare_keep (shape w) (wf_shape_ids w Hw) _ _ _ I0 E0).
    - st_step E0. pose proof (bypass_noted _ _ _ E1) as Hb.
      destruct (MarkLayersForGPUBypass_keep (shape w) (wf_shape_ids w Hw) _ _ _ I0 E1) as [I1 _].
      unfold MarkLayersForGPUBypass in E1. do 2 st_step E1. injection E2 as <- <-. apply bypass_prepared in E3 as [Hby _].
      unfold set_bit in E1. st_step E1. injection E2 as <- <-. injection E1 as _ <-.
      st_step E0. match goal with K : on_prog _ _ = _ |- _ => injection K as _ <- end. injection E0 as <-. cbn. split; [exact Hb|]. split; [set_solver|]. split; [by destruct I1|].
      left. split; [by apply negb_false_iff in Hsk|]. destruct I1 as [Hs1 _]. injection Hs1 as Es1 _ _ _ _. cbn in *. by rewrite Es1. }
  clear E0. destruct Hready as (Hc & Hr & [Hs1 _] & Hap). pose proof Hs1 as Hshape. injection Hs1 as Es Em Ec En Ez.
  assert (Hws : wf s). { apply (wf_same w); [done..|]. rewrite Hc. constructor. }
  st_step E. injection E0 as <- <-. st_step E.
  match goal with K : for_each _ _ _ = Ret (?u, _) |- _ => destruct u end.
  destruct (take_decisions (layer_set_ (ls s)) s s0) as (Hso & Hin & Hout & F1 & F2 & F3 & F6 & F7 & F4 & F5); try done.
  { apply (wf_nodup s Hws). }
  { intros i h Hi. by apply (wf_ids s Hws). }
  { by rewrite Hc. }
  { intros i _. by rewrite Hc. }
  st_step E. injection E1 as <- <-. st_step E. st_step E. injection E2 as _ <-. injection E as <- <- <-. cbn [fst].
  unfold modify in E1. st_step E1. unfold deref in E. destruct (heap s0 !! client_target_ (ls s0)) as [ht|] eqn:Et; [|done].
  injection E as <- <-. injection E1 as _ <-. cbn. rewrite F1.
  assert (Hnt : client_target_ (ls s0) ∉ layer_set_ (ls s)) by (rewrite F3; apply (wf_client s Hws)).
  do 2 (split; [done|]). split; [by rewrite F4, F5|]. do 3 (split; [done|]). split; [|split].
  - intros i Hi. rewrite lookup_insert_ne by (by intros <-). destruct (Hin i Hi) as (h0 & h & _ & [_ Hd] & Hh & Hg). eauto.
  - intros i Hi. destruct (decide (i ∈ layer_set_ (ls s))) as [|Hni]; [done|]. destruct (Hout i Hni) as [_ Hg].
    rewrite Hg, Hc in Hi. by destruct Hi.
  - apply (as_prepared_later w0 s); [done|cbn; congruence..|]. intros i Hi. cbn. rewrite lookup_insert_ne by (by intros <-).
    destruct (Hin i Hi) as (h0 & h & H0' & [Hd _] & Hh & _). eauto.
Qed.

(** ** Release fences *)

(** The fence of a layer in a frame. *)
Definition fence_of (flush : bool) (h : HWCLayer) : Z :=
  if flush then -1
  else if decide (composition (layer_ h) <> kCompositionGPU) then release_fence_fd (input_buffer (layer_ h)) else -1.

(** What a frame adds to the queue of a layer: nothing when its fence is closed, with a swap
    interval of zero or a single buffer, unless the frame was flushed. *)
Definition pushed (flush swap0 : bool) (h : HWCLayer) : list Z :=
  if negb flush && (swap0 || single_buffer (lflags (layer_ h))) then [] else [fence_of flush h].

Lemma gr_only {A} (m : St G A) w a (w' : World) : in_gr m w = Ret (a, w') -> exists g, w' = w <| gr := g |>.
Proof. unfold in_gr. destruct (m (gr w)) as [[b g]| |]; intros [= <- <-]. eauto. Qed.

Lemma retire_layer_run f z i w u (w' : World) h : retire_layer f z i w = Ret (u, w') -> heap w !! i = Some h ->
  exists h', heap w' = <[i := h']> (heap w) /\ release_fences_ h' = release_fences_ h ++ pushed f z h /\ id_ h' = id_ h /\
    ls w' = ls w.
Proof.
  intros E Hh. unfold retire_layer in E. st_step E. unfold modify in E0. st_step E0. unfold deref in E1. rewrite Hh in E1.
  injection E1 as <- <-. injection E0 as _ <-. st_step E. unfold deref in E0. cbn in E0. rewrite lookup_insert_eq in E0.
  injection E0 as <- <-. cbv zeta in E. st_step E.
  set (h0 := ResetGeometryChanges h) in *. set (w0 := w <| heap ::= <[i := h0]> |>) in *.
  assert (Ha : exists g, release_fences_ a0 = release_fences_ h ++ pushed f z h /\ id_ a0 = id_ h /\ s = w0 <| gr := g |>).
  { change (lflags (layer_ h0)) with (lflags (layer_ h)) in E0. unfold pushed, fence_of.
    change (composition (layer_ h0)) with (composition (layer_ h)) in E0. destruct f; cbn [negb andb] in *.
    { injection E0 as <- <-. by exists (gr w0). }
    destruct (z || _).
    - st_step E0. apply gr_only in E1 as [g ->]. injection E0 as <- <-. exists g. by rewrite app_nil_r.
    - destruct (decide (composition (layer_ h) <> kCompositionGPU)); injection E0 as <- <-; by exists (gr w0). }
  destruct Ha as (g0 & Hf0 & Hi0 & ->). clear E0. st_step E. injection E as _ <-.
  assert (Hs : exists g h1, s = w0 <| gr := g |> /\ a1 = h1 /\ release_fences_ h1 = release_fences_ h ++ pushed f z h /\ id_ h1 = id_ h).
  { destruct (0 <=? _); [|injection E0 as <- <-; exists g0; eexists; by split_and!].
    st_step E0. apply gr_only in E as [g ->]. injection E0 as <- <-. eauto 10. }
  destruct Hs as (g & h1 & -> & -> & Hf & Hi). eexists. cbn. rewrite insert_insert_eq. split_and!; try reflexivity; done.
Qed.

(** The layers after the loop. *)
Lemma retire_layers f z l : forall w (w' : World), NoDup l -> for_each l (retire_layer f z) w = Ret (tt, w') ->
  Forall (fun i => exists h, heap w !! i = Some h) l ->
  ls w' = ls w /\ (forall i, i ∉ l -> heap w' !! i = heap w !! i) /\
  (forall i h, i ∈ l -> heap w !! i = Some h -> exists h', heap w' !! i = Some h' /\
     release_fences_ h' = release_fences_ h ++ pushed f z h /\ id_ h' = id_ h).
Proof.
  induction l as [|i l IH]; simpl; intros w w' Hn E Hf.
  { injection E as <-. split_and!; try done. by intros i h ?%elem_of_nil. }
  apply NoDup_cons in Hn as [Hi Hn]. apply list.Forall_cons in Hf as [(h & Hh) Hf]. st_step E.
  destruct (retire_layer_run _ _ _ _ _ _ _ E0 Hh) as (h' & Eh & Hr & Hid & El).
  destruct (IH s w' Hn E) as (El2 & Hout & Hin).
  { rewrite list.Forall_forall in *. intros j Hj. rewrite Eh, lookup_insert_ne; [by apply Hf|]. by intros <-. }
  split_and!; [congruence| |].
  - intros j [Hji Hj]%not_elem_of_cons. rewrite Hout, Eh, lookup_insert_ne by done. done.
  - intros j hj [->|Hj]%elem_of_cons Hhj.
    + rewrite Hh in Hhj. injection Hhj as <-. rewrite (Hout i Hi), Eh, lookup_insert_eq. eauto.
    + apply (Hin j hj Hj). rewrite Eh, lookup_insert_ne; [done|]. by intros <-.
Qed.

Lemma deref_run i w h (w' : World) : deref i w = Ret (h, w') -> heap w !! i = Some h /\ w' = w.
Proof. unfold deref. destruct (heap w !! i); [|done]. by intros [= <- <-]. Qed.
Lemma sdm_only {A} (m : St V A) w a (w' : World) : in_sdm m w = Ret (a, w') -> exists v, w' = w <| sdm := v |>.
Proof. unfold in_sdm. destruct (m (sdm w)) as [[b v]| |]; intros [= <- <-]. eauto. Qed.
Lemma retire_target_run w u (w' : World) : retire_target w = Ret (u, w') ->
  ls w' = ls w /\ misc w' = misc w /\ forall i, i <> client_target_ (ls w) -> heap w' !! i = heap w !! i.
Proof.
  unfold retire_target. intros E. st_step E. injection E0 as <- <-. st_step E. apply deref_run in E0 as [Hh ->]. cbv zeta in E.
  st_step E. injection E as _ <-.
  assert (Hs : exists g, s = w <| gr := g |>).
  { destruct (0 <=? _); [|injection E0 as _ <-; exists (gr w); by destruct w]. st_step E0. apply gr_only in E as [g ->].
    injection E0 as _ <-. eauto. }
  destruct Hs as [g ->]. cbn. split_and!; try done. intros i Hi. by rewrite lookup_insert_ne.
Qed.

(** The set and the layers are as before. *)
Definition same_layers (w w' : World) : Prop := layer_set_ (ls w') = layer_set_ (ls w) /\ heap w' = heap w.
#[local] Instance same_layers_pre : PreOrder same_layers.
Proof. split; [done|]. intros a b c [H1' H2'] [H3' H4']. split; congruence. Qed.
Lemma same_layers_gr {A} (m : St G A) : keeps same_layers (in_gr m : W A).
Proof. by intros w a w' [g ->]%gr_only. Qed.
#[local] Hint Resolve same_layers_gr : keeps.
#[local] Hint Extern 3 (keeps same_layers _) => apply keeps_modify; done : keeps.

(** No tone mapping is active, before or after a flush. *)
Definition untoned (v : V) : Prop :=
  (forall b v', T_IsActive v = Ret (b, v') -> b = false) /\
  (forall s e v1 b v', D_Flush s v = Ret (e, v1) -> T_IsActive v1 = Ret (b, v') -> b = false).
Lemma PostCommit_fences w e f (w' : World) : wf w -> untoned (sdm w) ->
  PostCommitLayerStack w = Ret ((e, f), w') ->
  layer_set_ (ls w') = layer_set_ (ls w) /\
  (forall i h, i ∈ layer_set_ (ls w) -> heap w !! i = Some h -> exists h', heap w' !! i = Some h' /\
     release_fences_ h' = release_fences_ h ++ pushed (flush_ (prog w)) (swap_interval_zero_ (misc w)) h /\ id_ h' = i).
Proof.
  intros Hw Ht E. unfold PostCommitLayerStack in E. st_step E. injection E0 as <- <-.
  st_step E. assert (Hs : ls s = ls w /\ misc s = misc w /\ heap s = heap w /\ forall b v', T_IsActive (sdm s) = Ret (b, v') -> b = false).
  { destruct Ht as [Ht1 Ht2]. destruct (_ && _); [|by injection E0 as _ <-]. st_step E0. unfold in_sdm in E1.
    destruct (D_Flush _ (sdm w)) as [[e1 v]| |] eqn:EF; try done. injection E1 as <- <-. st_step E0. injection E1 as _ <-.
    st_step E0. unfold reset_bit in E1. st_step E1. injection E2 as <- <-. injection E1 as _ <-. injection E0 as _ <-. cbn.
    split_and!; try done. intros b v' Hb. by apply (Ht2 _ _ _ _ _ EF Hb). }
  destruct Hs as (El & Em & Eh & Hts). clear Ht. clear E0. st_step E. injection E0 as <- <-. st_step E.
  assert (Ha : a0 = false /\ ls s0 = ls s /\ misc s0 = misc s /\ heap s0 = heap s).
  { destruct (tone_mapper_ (misc s)); [|by injection E0 as <- <-]. unfold in_sdm in E0.
    destruct (T_IsActive (sdm s)) as [[b v]| |] eqn:ET; try done. injection E0 as <- <-. split_and!; [exact (Hts _ _ eq_refl)|done..]. }
  destruct Ha as (-> & El0 & Em0 & Eh0). clear E0. st_step E. injection E0 as _ <-.
  st_step E. apply retire_target_run in E0 as (El1 & Em1 & Eh1). st_step E. injection E0 as <- <-. rewrite Em in E. st_step E.
  match goal with K : for_each _ _ _ = Ret (?u, _) |- _ => destruct u end.
  assert (Els : ls s1 = ls w) by congruence. rewrite El1, El0, El in E0.
  assert (Hc : forall i, i ∈ layer_set_ (ls w) -> heap s1 !! i = heap w !! i).
  { intros i Hi. rewrite Eh1, Eh0, Eh; [done|]. rewrite El0, El. intros ->. by apply (wf_client w Hw). }
  destruct (retire_layers _ _ _ _ _ (wf_nodup w Hw) E0) as (El2 & _ & Hin).
  { rewrite list.Forall_forall. intros i Hi. rewrite (Hc i Hi). pose proof (wf_alive w Hw) as Hal. rewrite list.Forall_forall in Hal.
    destruct (Hal i Hi) as [h Hh]. eauto. }
  st_step E. rewrite El in E1. unfold sdm_layer, modify in E1. st_step E1. apply deref_run in E2 as [_ ->]. injection E1 as _ <-.
  assert (Hend : layer_set_ (ls w') = layer_set_ (ls s2) /\ forall i, i <> client_target_ (ls w) -> heap w' !! i = heap s2 !! i).
  { st_step E. st_step E. injection E2 as _ <-. injection E as _ _ <-.
    match type of E1 with ?m _ = _ => assert (Hk : keeps same_layers m) by noted_tac end. apply Hk in E1 as [E1 Eh3].
    cbn in *. rewrite E1, Eh3. split; [done|]. intros i Hi. by rewrite lookup_insert_ne. }
  destruct Hend as [-> Hend]. rewrite El2, Els. split; [done|]. intros i h Hi Hh.
  destruct (Hin i h Hi) as (h' & Hh' & Hr & Hid); [by rewrite Hc|]. exists h'. rewrite Hend by (intros ->; by apply (wf_client w Hw)).
  split_and!; try done. rewrite Hid. by apply (wf_ids w Hw).
Qed.

(** Popping hands out the heads of the queues, and -1 for an empty one. *)
Lemma pop_fences_run l : forall (w : World) (q : Z -> list Z), NoDup l ->
  (forall i, i ∈ l -> exists h, heap w !! i = Some h /\ id_ h = i /\ release_fences_ h = q i) ->
  exists w', pop_fences l w = Ret (map (fun i => (i, default (-1) (head (q i)))) l, w') /\ ls w' = ls w /\
    (forall i, i ∉ l -> heap w' !! i = heap w !! i) /\
    (forall i, i ∈ l -> exists h, heap w' !! i = Some h /\ release_fences_ h = tail (q i)).
Proof.
  induction l as [|i l IH]; intros w q Hn Hl.
  { exists w. split_and!; try done. by intros i ?%elem_of_nil. }
  apply NoDup_cons in Hn as [Hi Hn]. destruct (Hl i ltac:(left)) as (h & Hh & Hid & Hq).
  set (h1 := snd (PopReleaseFence h)). set (w1 := w <| heap ::= <[i := h1]> |>).
  assert (Hp : PopReleaseFence h = (default (-1) (head (q i)), h1) /\ release_fences_ h1 = tail (q i)).
  { unfold h1, PopReleaseFence. rewrite <- Hq. by destruct (release_fences_ h) eqn:Eq. }
  destruct (IH w1 q Hn) as (w' & E & El & Hout & Hin).
  { intros j Hj. cbn. rewrite lookup_insert_ne by (by intros <-). apply Hl. by right. }
  exists w'. split_and!.
  - simpl. unfold mbind, st_bind, deref. rewrite Hh, (proj1 Hp). unfold put, st_modify.
    change (st_modify _ _) with (Ret (tt, w1)). fold w1. unfold mbind, st_bind. rewrite E, Hid. done.
  - done.
  - intros j [Hji Hj]%not_elem_of_cons. rewrite Hout by done. cbn. by rewrite lookup_insert_ne.
  - intros j [->|Hj]%elem_of_cons; [|by apply Hin]. rewrite (Hout i Hi). cbn. rewrite lookup_insert_eq. exists h1. by destruct Hp.
Qed.

(** ** What is refused *)
Section Refused.
Context `{!GrallocLaws G, !SdmLaws V}.

(** Only the layers and gralloc change, and no layer is lost. *)
Definition closes (w w' : World) : Prop := (forall i, alive (heap w) i -> alive (heap w') i) /\ sdm w' = sdm w /\ ls w' = ls w.
Lemma close_acquire_total i (w : World) : alive (heap w) i -> exists w', close_acquire i w = Ret (tt, w') /\ closes w w'.
Proof.
  intros [h Hh]. unfold close_acquire, mbind, st_bind, deref. rewrite Hh.
  destruct (0 <=? _); [|by exists w; repeat split; auto].
  unfold in_gr. destruct (close_returns (acquire_fence_fd (input_buffer (layer_ h))) (gr w)) as [g ->]. cbn. eexists. split; [reflexivity|].
  repeat split. intros j. unfold alive. cbn. rewrite lookup_insert_is_Some. destruct (decide (i = j)); naive_solver.
Qed.
Lemma close_all_total l : forall w : World, Forall (alive (heap w)) l -> exists w', for_each l close_acquire w = Ret (tt, w') /\ closes w w'.
Proof.
  induction l as [|i l IH]; intros w Hl; [by exists w; repeat split; auto|]. apply list.Forall_cons in Hl as [Hi Hl].
  destruct (close_acquire_total i w Hi) as (w1 & E1 & Ha & Hs & Hls).
  destruct (IH w1) as (w2 & E2 & Ha2 & Hs2 & Hls2); [by eapply Forall_impl|]. exists w2. simpl.
  rewrite (st_bind_Ret _ _ _ _ _ E1). repeat split; [done|auto|congruence|congruence].
Qed.
Lemma CloseAcquireFds_total (w : World) : wf w -> exists w', CloseAcquireFds w = Ret (tt, w') /\ sdm w' = sdm w.
Proof.
  intros Hw. destruct (close_all_total _ w (wf_alive w Hw)) as (w1 & E1 & Ha & Hs & Hls).
  destruct (close_acquire_total (client_target_ (ls w)) w1) as (w2 & E2 & _ & Hs2 & _); [apply Ha, (wf_client w Hw)|].
  exists w2. split; [|congruence]. unfold CloseAcquireFds, set_of. rewrite (st_bind_Ret _ _ _ _ _ eq_refl), (st_bind_Ret _ _ _ _ _ E1).
  rewrite (st_bind_Ret _ _ _ _ _ eq_refl). by rewrite Hls.
Qed.

(** [R] is kept by a flush and by the tone mapper, the calls of SDM that follow a frame
    without a commit. *)
Definition uncommitted (R : V -> V -> Prop) : Prop :=
  PreOrder R /\ (forall b, keeps R (D_Flush b)) /\ keeps R T_IsActive /\ forall vs, keeps R (T_PostCommit vs).
Section Uncommitted.
Context (R : V -> V -> Prop) (HR : uncommitted R).
Definition sdm_rel (w w' : World) : Prop := R (sdm w) (sdm w').
#[local] Instance sdm_rel_pre : PreOrder sdm_rel.
Proof using HR. destruct HR as [? _]. split; [intros w; unfold sdm_rel; reflexivity|]. intros a b c Hab Hbc. unfold sdm_rel in *. by etransitivity. Qed.
Lemma sdm_rel_sdm {A} (m : St V A) : keeps R m -> keeps sdm_rel (in_sdm m : W A).
Proof using Type. intros Hm w a w'. unfold in_sdm. destruct (m (sdm w)) as [[b v]| |] eqn:E; try done. intros [= <- <-]. exact (Hm _ _ _ E). Qed.
Lemma sdm_rel_same (w w' : World) : sdm w' = sdm w -> sdm_rel w w'.
Proof using HR. destruct HR as [? _]. unfold sdm_rel. intros ->. reflexivity. Qed.
Lemma sdm_rel_gr {A} (m : St G A) : keeps sdm_rel (in_gr m : W A).
Proof using HR. intros w a w' [g ->]%gr_only. by apply sdm_rel_same. Qed.
Lemma sdm_rel_deref i : keeps sdm_rel (deref i : W _).
Proof using HR. intros w a w' [_ ->]%deref_run. by apply sdm_rel_same. Qed.
Lemma sdm_rel_get : keeps sdm_rel (st_get : W _).
Proof using HR. intros w a w' [= <- <-]. by apply sdm_rel_same. Qed.
#[local] Hint Resolve sdm_rel_gr sdm_rel_deref sdm_rel_get : keeps.
#[local] Hint Extern 3 (keeps sdm_rel _) => (apply keeps_modify; intros; by apply sdm_rel_same) : keeps.
Lemma sdm_rel_each l f : (forall i, keeps sdm_rel (f i)) -> keeps sdm_rel (for_each l f : W _).
Proof using HR. intros Hf. induction l; simpl; noted_tac. Qed.
Lemma sdm_rel_store l : forall vs, keeps sdm_rel (store_live l vs : W _).
Proof using HR. induction l as [|p l IH]; intros [|[v|] vs]; simpl; unfold st_get, sdm_layer, modify; noted_tac; exact (keeps_gets sdm_rel (fun w => w)). Qed.
#[local] Hint Resolve sdm_rel_each sdm_rel_store : keeps.
Lemma sdm_rel_post : keeps sdm_rel (PostCommitLayerStack : W _).
Proof using HR.
  destruct HR as (_ & Hf & Ha & Hp). pose proof (fun b => sdm_rel_sdm _ (Hf b)). pose proof (sdm_rel_sdm _ Ha).
  pose proof (fun vs => sdm_rel_sdm _ (Hp vs)). unfold PostCommitLayerStack, reset_bit, retire_target, set_of, sdm_layer, modify. noted_tac.
  apply sdm_rel_each. intros i. unfold retire_layer, modify. noted_tac.
Qed.
Lemma sdm_rel_output : keeps sdm_rel (_ ← HandleFrameOutput; SolidFillCommit : W _).
Proof using HR. unfold HandleFrameOutput, HandleFrameCapture, HandleFrameDump, wait_output, SolidFillCommit. noted_tac. Qed.
Definition prog_same (w w' : World) : Prop := prog w' = prog w.
#[local] Instance prog_same_pre : PreOrder prog_same.
Proof using Type. split; [done|]. intros a b c Hab Hbc. unfold prog_same in *. congruence. Qed.
Lemma prog_same_gr {A} (m : St G A) : keeps prog_same (in_gr m : W A).
Proof using Type. by intros w a w' [g ->]%gr_only. Qed.
Lemma output_prog : keeps prog_same (_ ← HandleFrameOutput; SolidFillCommit : W _).
Proof using Type.
  pose proof @prog_same_gr. assert (Hg : keeps prog_same (st_get : W _)) by (by intros w a w' [= <- <-]). unfold HandleFrameOutput, HandleFrameCapture, HandleFrameDump, wait_output, SolidFillCommit. noted_tac.
  all: apply keeps_modify; done.
Qed.
Lemma post_flushed e f (w w' : World) : flush_ (prog w) = true -> PostCommitLayerStack w = Ret ((e, f), w') -> e = ENone /\ f = -1.
Proof using Type.
  intros Hf E. unfold PostCommitLayerStack in E. st_step E. injection E0 as <- <-. rewrite Hf in E. do 8 st_step E.
  cbn in E. by injection E as <- <- _.
Qed.
(** A frame without a commit: the display is paused, or its last Prepare or Commit failed. *)
Lemma Present_uncommitted r (w w' : World) : display_paused_ (prog w) = true \/ flush_ (prog w) = true ->
  Present w = Ret (r, w') -> r = (ENone, if display_paused_ (prog w) then None else Some (-1)) /\ R (sdm w) (sdm w').
Proof using HR.
  intros Hor E. unfold Present in E. st_step E. injection E0 as <- <-. st_step E. st_step E. injection E as <- ->.
  assert (Hc : keeps sdm_rel (CloseAcquireFds : W _)).
  { unfold CloseAcquireFds, set_of. noted_tac; [apply sdm_rel_each; intros i|]; unfold close_acquire; noted_tac. }
  apply Hc in E1. clear Hc. destruct (display_paused_ (prog w)) eqn:Hp.
  - st_step E0. injection E0 as <- <-. split; [done|]. change (sdm_rel w w'). etransitivity; [|exact E1].
    destruct HR as (_ & Hf & _). by apply (sdm_rel_sdm _ (Hf false)) in E.
  - destruct Hor as [?|Hf]; [done|]. st_step E0. unfold CommitLayerStack in E. st_step E. injection E2 as <- <-. rewrite Hf in E. injection E as <- <-.
    rewrite decide_True in E0 by done. st_step E0. st_step E0.
    assert (Ho : (_ ← HandleFrameOutput; SolidFillCommit : W _) w = Ret (a2, s1)) by (by rewrite (st_bind_Ret _ _ _ _ _ E)).
    pose proof (output_prog _ _ _ Ho) as Hpr. apply sdm_rel_output in Ho. st_step E0. destruct a3 as [e f]. injection E0 as <- ->.
    apply sdm_rel_post in E3 as Hrel. split; [|by change (sdm_rel w w'); transitivity s1; [|transitivity s]].
    rewrite <- Hpr in Hf. by apply post_flushed in E3 as [-> ->].
Qed.
End Uncommitted.

(** A layer of these needs a validation. *)
Definition needs (l : list Z) (w : World) : Prop := exists i h, i ∈ l /\ heap w !! i = Some h /\ NeedsValidation h = true.
Lemma needs_tail j l w h : heap w !! j = Some h -> NeedsValidation h = false -> needs (j :: l) w -> needs l w.
Proof. intros Hj Hn (i & hi & [->|Hi]%elem_of_cons & Hh & Hni); [congruence|]. by exists i, hi. Qed.
Lemma layers_settled_total l : forall (w : World), Forall (alive (heap w)) l ->
  exists b, layers_settled l w = Ret (b, w) /\ (needs l w -> b = false).
Proof.
  induction l as [|j l IH]; intros w Hl.
  { exists true. split; [done|]. by intros (i & h & Hi%elem_of_nil & _). }
  apply list.Forall_cons in Hl as [[hj Hj] Hl]. simpl. unfold mbind, st_bind, deref. rewrite Hj.
  destruct (NeedsValidation hj) eqn:En; [by exists false|]. destruct (decide (device_selected_ hj = Client)); [by exists false|].
  destruct (IH w Hl) as (b & E & Hb). exists b. split; [done|]. intros Hnd. by apply Hb, (needs_tail j _ _ hj).
Qed.
Lemma CanSkipValidate_total (w : World) : wf w ->
  exists b, CanSkipValidate w = Ret (b, w) /\ (needs (client_target_ (ls w) :: layer_set_ (ls w)) w -> b = false).
Proof.
  intros Hw. unfold CanSkipValidate. rewrite (st_bind_Ret _ _ _ _ _ eq_refl).
  assert (Ht : exists b, (if hdr_present (sflags (layer_stack_ (ls w))) && tone_mapper_ (misc w) then in_sdm T_IsActive else mret false : W bool) w = Ret (b, w)).
  { destruct (_ && _); [|by exists false]. unfold in_sdm. destruct (tone_pure (sdm w)) as [b ->]. exists b. by destruct w. }
  destruct Ht as [[] Ht]; rewrite (st_bind_Ret _ _ _ _ _ Ht); [by exists false|].
  destruct (wf_client w Hw) as [[ht Het] _]. unfold mbind, st_bind, deref. rewrite Het.
  destruct (NeedsValidation ht) eqn:Ent; [by exists false|].
  destruct (layers_settled_total _ w (wf_alive w Hw)) as (b & E & Hb). exists b. split; [done|].
  intros Hnd. by apply Hb, (needs_tail (client_target_ (ls w)) _ _ ht).
Qed.

(** The display is not ready, or a validation was skipped that is needed. *)
Definition stale (w : World) : Prop :=
  not (type_ (misc w) ∈ validated_ (prog w)) \/
  skip_validate_ (prog w) = true /\ needs (client_target_ (ls w) :: layer_set_ (ls w)) w.
Lemma CommitLayerStack_refuses (w : World) : wf w -> flush_ (prog w) = false -> stale w ->
  exists p, CommitLayerStack w = Ret (NotValidated, w <| prog := p |>).
Proof.
  intros Hw Hf Hst. unfold CommitLayerStack. rewrite (st_bind_Ret _ _ _ _ _ eq_refl), Hf.
  set (m := if skip_validate_ (prog w) then _ else _).
  assert (Hm : exists p, m w = Ret (tt, w <| prog := p |>) /\ not (type_ (misc w) ∈ validated_ p)).
  { destruct (CanSkipValidate_total w Hw) as (b & E & Hb). subst m. destruct (skip_validate_ (prog w)) eqn:Hsk.
    - rewrite (st_bind_Ret _ _ _ _ _ E). destruct b; cbn [negb].
      + destruct Hst as [Hn|[_ Hnd]]; [|by specialize (Hb Hnd)]. exists (prog w). split; [by destruct w|done].
      + eexists. split; [reflexivity|]. cbn. set_solver.
    - destruct Hst as [Hn|[? _]]; [|congruence]. exists (prog w). split; [by destruct w|done]. }
  destruct Hm as (p & E1 & Hn). exists p. rewrite (st_bind_Ret _ _ _ _ _ E1), (st_bind_Ret _ _ _ _ _ eq_refl). cbn.
  by rewrite bool_decide_false.
Qed.
End Refused.
End Frame_.
End HwcFrame.
