(* ===== verification/HwcRates.v ===== *)
(** The refresh rates of a display of the hardware composer: what the client forces
    and what the metadata of a layer asks for stay within the range of the panel. *)
From S2P Require Import Prelude Rect ResourceDefault MetaData GrUtils Alloc BufMgr Strategy CompMgr DisplayBase HwcLayer HwcColor.
From S2P Require Import HwcDisplay HwcDisplays.
#[local] Open Scope Z_scope.

Module HwcRates.
Import Float32 Rect Formats ResourceDefault Strategy HwcLayer HwcColor HwcDisplay Primary Client Calls.

(** The range is one of unsigned rates, and what was chosen is in it. *)
Record rates_ok (r : Rates) : Prop := mkRatesOk {
  rate_min : 0 <= min_refresh_rate_ r;
  rate_max : min_refresh_rate_ r <= max_refresh_rate_ r < 2 ^ 31;
  rate_force : force_refresh_rate_ r = 0 \/ min_refresh_rate_ r <= force_refresh_rate_ r <= max_refresh_rate_ r;
  rate_metadata : metadata_refresh_rate_ r = 0 \/ min_refresh_rate_ r <= metadata_refresh_rate_ r <= max_refresh_rate_ r
}.

(** A request is rounded up to a multiple that the panel can show. *)
Lemma sanitize_in_range r req : rates_ok r -> 0 < req -> exists x, SanitizeRefreshRate r req = Ret x /\
  min_refresh_rate_ r <= x <= max_refresh_rate_ r /\ (x = max_refresh_rate_ r \/ (req | x)).
Proof.
  intros [Hm Hx _ _] Hq. unfold SanitizeRefreshRate. set (lo := min_refresh_rate_ r) in *. set (hi := max_refresh_rate_ r) in *.
  assert (Hcap : forall x, lo <= x -> (req | x) -> exists y, Ret (if hi <? x then hi else x) = Ret y /\ lo <= y <= hi /\ (y = hi \/ (req | y))).
  { intros x Hl Hd. eexists. split; [reflexivity|]. destruct (Z.ltb_spec hi x); [lia|]. split; [lia|by right]. }
  destruct (Z.ltb_spec req lo) as [Hlt|Hge].
  - destruct (Z.eqb_spec req 0); [lia|]. set (k := lo / req + (if lo mod req =? 0 then 0 else 1)).
    assert (Hk : lo <= k * req < lo + req).
    { subst k. pose proof (Z.div_mod lo req ltac:(lia)). pose proof (Z.mod_pos_bound lo req Hq).
      destruct (Z.eqb_spec (lo mod req) 0); nia. }
    assert (Hk0 : 0 <= k < 2 ^ 32) by (pow2_num; nia).
    rewrite (uwrap_small 32 k) by done. rewrite uwrap_small by (pow2_num; nia). apply Hcap; [lia|]. exists k. lia.
  - apply Hcap; [lia|]. exists 1. lia.
Qed.

(** The rate that is chosen for a frame. *)
Lemma optimal_in_range r one : rates_ok r -> min_refresh_rate_ r <= GetOptimalRefreshRate r one <= max_refresh_rate_ r.
Proof.
  intros [Hm Hx Hf Hd]. unfold GetOptimalRefreshRate. destruct (Z.eqb_spec (force_refresh_rate_ r) 0); cbn [negb]; [|lia].
  destruct (handle_idle_timeout_ r); [lia|]. destruct (Z.eqb_spec (metadata_refresh_rate_ r) 0); cbn [negb].
  - rewrite !andb_false_r. lia.
  - destruct (_ && _); lia.
Qed.

(** SDM answers with a range of rates. *)
Class RangeLaws (V : Type) `{!Sdm V} : Prop :=
  refresh_range (v : V) lo hi v' : D_GetRefreshRateRange v = Ret ((lo, hi), v') -> 0 <= lo /\ lo <= hi < 2 ^ 31.

Section Rates_.
Context `{!GrUtils.Platform, !Hal, !ColorHal} {G V : Type} `{!Gralloc G, !Sdm V, !ColorIntf V}.
Context (wide : bool).
Abbreviation World := (World (G := G) (V := V)).
Abbreviation W := (St World).

(** The range stays, and what is chosen stays in it. *)
Definition ranged (w w' : World) : Prop :=
  rates_ok (rates w) -> rates_ok (rates w') /\ min_refresh_rate_ (rates w') = min_refresh_rate_ (rates w) /\
    max_refresh_rate_ (rates w') = max_refresh_rate_ (rates w).
#[global] Instance ranged_pre : PreOrder ranged.
Proof. split; [by intros w|]. intros a b c Hab Hbc Ha. destruct (Hab Ha) as (Hb & ? & ?). destruct (Hbc Hb) as (? & ? & ?). naive_solver congruence. Qed.

Lemma get_ranged : keeps ranged (st_get : W World).
Proof. intros w a w' [= <- <-]. reflexivity. Qed.
Lemma deref_ranged i : keeps ranged (deref i : W _).
Proof. intros w a w'. unfold deref. destruct (heap w !! i); [|done]. intros [= <- <-]. reflexivity. Qed.
Lemma gr_ranged {A} (m : St G A) : keeps ranged (in_gr m : W A).
Proof. intros w a w'. unfold in_gr. destruct (m (gr w)) as [[b g]| |]; intros [= <- <-]. by intros ?. Qed.
Lemma sdm_ranged {A} (m : St V A) : keeps ranged (in_sdm m : W A).
Proof. intros w a w'. unfold in_sdm. destruct (m (sdm w)) as [[b v]| |]; intros [= <- <-]. by intros ?. Qed.
#[local] Hint Resolve get_ranged deref_ranged gr_ranged sdm_ranged : keeps.
#[local] Hint Extern 3 (keeps ranged _) => apply keeps_modify; intro; intros [????]; (done || by split_and!; [constructor| |]) : keeps.

(** Splits a computation into its calls. *)
Ltac ranged_step :=
  first
    [ match goal with |- forall _, _ => intro end
    | progress cbv zeta
    | simple apply keeps_ret; apply _
    | simple apply keeps_undef
    | simple apply keeps_gets; apply _
    | simple apply keeps_lift; apply _
    | solve [auto 2 with keeps nocore]
    | simple apply keeps_bind; [apply _| |]
    | match goal with
      | |- keeps _ (match ?x with _ => _ end) => destruct x
      | |- keeps _ (if ?b then _ else _) => destruct b
      end ].
Ltac ranged_tac := repeat ranged_step.

Lemma for_each_ranged l f : (forall i, keeps ranged (f i)) -> keeps ranged (for_each l f : W _).
Proof. intros Hf. induction l; simpl; ranged_tac. Qed.
Lemma modify_ranged i f : keeps ranged (modify i f : W _).
Proof. unfold modify. ranged_tac. Qed.
#[local] Hint Resolve for_each_ranged modify_ranged : keeps.
Lemma sdm_layer_ranged i f : keeps ranged (sdm_layer i f : W _).
Proof. apply modify_ranged. Qed.
#[local] Hint Resolve sdm_layer_ranged : keeps.
Lemma stack_values_ranged l : keeps ranged (stack_values l : W _).
Proof. induction l; simpl; unfold layer_value; ranged_tac. Qed.
Lemma store_values_ranged l vs : keeps ranged (store_values l vs : W _).
Proof. revert vs. induction l as [|p l IH]; intros [|v vs]; simpl; ranged_tac. Qed.
Lemma store_live_ranged l vs : keeps ranged (store_live l vs : W _).
Proof. revert vs. induction l as [|p l IH]; intros [|v vs]; simpl; ranged_tac. Qed.
#[local] Hint Resolve stack_values_ranged store_values_ranged store_live_ranged : keeps.

(** ** The calls that leave the rates alone *)
Lemma SetSecureDisplay_ranged b : keeps ranged (SetSecureDisplay b : W _).
Proof. unfold SetSecureDisplay. ranged_tac. Qed.
Lemma ApplyScanAdjustment_ranged f : keeps ranged (ApplyScanAdjustment f : W _).
Proof. unfold ApplyScanAdjustment. ranged_tac. Qed.
Lemma MarkLayersForClientComposition_ranged : keeps ranged (MarkLayersForClientComposition : W _).
Proof. unfold MarkLayersForClientComposition, set_of. ranged_tac. Qed.
Lemma set_bit_ranged : keeps ranged (set_bit : W _).
Proof. unfold set_bit. ranged_tac. Qed.
Lemma reset_bit_ranged : keeps ranged (reset_bit : W _).
Proof. unfold reset_bit. ranged_tac. Qed.
#[local] Hint Resolve SetSecureDisplay_ranged ApplyScanAdjustment_ranged MarkLayersForClientComposition_ranged set_bit_ranged reset_bit_ranged : keeps.
Lemma MarkLayersForGPUBypass_ranged : keeps ranged (MarkLayersForGPUBypass : W _).
Proof. unfold MarkLayersForGPUBypass, set_of. ranged_tac. Qed.
Lemma layer_flags_ranged i : keeps ranged (layer_flags wide i : W _).
Proof. unfold layer_flags. ranged_tac. Qed.
Lemma layer_defaults_ranged i : keeps ranged (layer_defaults i : W _).
Proof. unfold layer_defaults. ranged_tac. Qed.
Lemma layer_security_ranged i : keeps ranged (layer_security i : W _).
Proof. unfold layer_security. ranged_tac. Qed.
Lemma layer_kind_ranged i b : keeps ranged (layer_kind i b : W _).
Proof. unfold layer_kind. ranged_tac. Qed.
Lemma layer_geometry_ranged i : keeps ranged (layer_geometry i : W _).
Proof. unfold layer_geometry. ranged_tac. Qed.
#[local] Hint Resolve MarkLayersForGPUBypass_ranged layer_flags_ranged layer_defaults_ranged layer_security_ranged layer_kind_ranged layer_geometry_ranged : keeps.
Lemma local_conversion_ranged p i : keeps ranged (local_conversion p i : W _).
Proof. unfold local_conversion. ranged_tac. Qed.
Lemma take_decision_ranged i : keeps ranged (take_decision i : W _).
Proof. unfold take_decision. ranged_tac. Qed.
Lemma sdm_prepare_ranged : keeps ranged (sdm_prepare : W _).
Proof. unfold sdm_prepare, output_value. ranged_tac. Qed.
#[local] Hint Resolve local_conversion_ranged take_decision_ranged sdm_prepare_ranged : keeps.
Lemma PrepareLayerStack_ranged : keeps ranged (PrepareLayerStack : W _).
Proof. unfold PrepareLayerStack, set_of. ranged_tac. Qed.
Lemma SolidFillPrepare_ranged : keeps ranged (SolidFillPrepare : W _).
Proof. unfold SolidFillPrepare. ranged_tac. Qed.
Lemma layers_settled_ranged l : keeps ranged (layers_settled l : W _).
Proof. induction l; simpl; ranged_tac. Qed.
#[local] Hint Resolve layers_settled_ranged PrepareLayerStack_ranged SolidFillPrepare_ranged : keeps.
Lemma CanSkipValidate_ranged : keeps ranged (CanSkipValidate : W _).
Proof. unfold CanSkipValidate. ranged_tac. Qed.
Lemma DumpInputBuffers_ranged : keeps ranged (DumpInputBuffers : W _).
Proof. unfold DumpInputBuffers. ranged_tac. Qed.
Lemma tone_map_ranged : keeps ranged (tone_map : W _).
Proof. unfold tone_map. ranged_tac. Qed.
#[local] Hint Resolve CanSkipValidate_ranged DumpInputBuffers_ranged tone_map_ranged : keeps.
Lemma CommitLayerStack_ranged : keeps ranged (CommitLayerStack : W _).
Proof. unfold CommitLayerStack, is_validated, set_of, output_value. ranged_tac. Qed.
Lemma retire_layer_ranged f b i : keeps ranged (retire_layer f b i : W _).
Proof. unfold retire_layer. ranged_tac. Qed.
Lemma retire_target_ranged : keeps ranged (retire_target : W _).
Proof. unfold retire_target. ranged_tac. Qed.
Lemma close_acquire_ranged i : keeps ranged (close_acquire i : W _).
Proof. unfold close_acquire. ranged_tac. Qed.
#[local] Hint Resolve CommitLayerStack_ranged retire_layer_ranged retire_target_ranged close_acquire_ranged : keeps.
Lemma PostCommitLayerStack_ranged : keeps ranged (PostCommitLayerStack : W _).
Proof. unfold PostCommitLayerStack, set_of. ranged_tac. Qed.
Lemma CloseAcquireFds_ranged : keeps ranged (CloseAcquireFds : W _).
Proof. unfold CloseAcquireFds, set_of. ranged_tac. Qed.
Lemma SolidFillCommit_ranged : keeps ranged (SolidFillCommit : W _).
Proof. unfold SolidFillCommit. ranged_tac. Qed.
Lemma wait_output_ranged : keeps ranged (wait_output : W _).
Proof. unfold wait_output. ranged_tac. Qed.
#[local] Hint Resolve wait_output_ranged : keeps.
Lemma HandleFrameOutput_ranged : keeps ranged (HandleFrameOutput : W _).
Proof. unfold HandleFrameOutput, HandleFrameCapture, HandleFrameDump. ranged_tac. Qed.
#[local] Hint Resolve PostCommitLayerStack_ranged CloseAcquireFds_ranged SolidFillCommit_ranged HandleFrameOutput_ranged : keeps.
Lemma Present_ranged : keeps ranged (Primary.Present : W _).
Proof. unfold Primary.Present. ranged_tac. Qed.
Lemma pop_fences_ranged l : keeps ranged (pop_fences l : W _).
Proof. induction l; simpl; ranged_tac. Qed.
Lemma accept_changes_ranged l : keeps ranged (accept_changes l : W _).
Proof. induction l as [|[i c] l IH]; simpl; ranged_tac. Qed.
#[local] Hint Resolve Present_ranged pop_fences_ranged accept_changes_ranged : keeps.
Lemma SetPowerMode_ranged m : keeps ranged (SetPowerMode m : W _).
Proof. unfold SetPowerMode. ranged_tac. Qed.
Lemma property_flag_ranged s : keeps ranged (property_flag s : W _).
Proof. unfold property_flag. ranged_tac. Qed.
Lemma with_color_ranged {A} (f : HWCColorMode -> St V (A * HWCColorMode)) : keeps ranged (with_color f : W _).
Proof. unfold with_color. ranged_tac. Qed.
#[local] Hint Resolve SetPowerMode_ranged property_flag_ranged with_color_ranged : keeps.
Lemma DumpConfig_ranged n m : keeps ranged (HwcDisplay.SetFrameDumpConfig n m : W _).
Proof. unfold HwcDisplay.SetFrameDumpConfig. ranged_tac. Qed.
Lemma CallLayerFunction_ranged i c : keeps ranged (CallLayerFunction i c : W _).
Proof. unfold CallLayerFunction, GetHWCLayer. ranged_tac. Qed.
Lemma RestoreColorTransform_ranged : keeps ranged (Primary.RestoreColorTransform : W _).
Proof. unfold Primary.RestoreColorTransform. ranged_tac. Qed.
#[local] Hint Resolve DumpConfig_ranged CallLayerFunction_ranged RestoreColorTransform_ranged : keeps.
Lemma ProcessBootAnimCompleted_ranged : keeps ranged (ProcessBootAnimCompleted : W _).
Proof. unfold ProcessBootAnimCompleted, crypto_state, set_of. ranged_tac. Qed.
#[local] Hint Resolve ProcessBootAnimCompleted_ranged : keeps.

(** ** The calls that choose a rate *)
Lemma layer_update_ranged i : keeps ranged (layer_update i : W _).
Proof.
  intros w a w' E Hok. unfold layer_update in E. st_step E. injection E0 as <- <-. st_step E.
  unfold deref in E0. destruct (heap w !! i) as [h|]; [|done]. injection E0 as <- <-. st_step E.
  assert (Hs : ranged w s).
  { destruct (Z.ltb_spec (metadata_refresh_rate_ (rates w)) (frame_rate (layer_ h))) as [Hlt|]; [|injection E0 as _ <-; reflexivity].
    intros _. assert (Hq : 0 < frame_rate (layer_ h)) by (destruct Hok as [? ? ? []]; lia).
    destruct (sanitize_in_range _ _ Hok Hq) as (x & Ex & Hx & _). rewrite Ex in E0. st_step E0. injection E1 as <- <-.
    st_step E0. injection E1 as _ <-. injection E0 as _ <-. destruct Hok as [Hm Hxx Hf _]. cbn. split_and!; try done. constructor; try done. by right. }
  destruct (Hs Hok) as (Hok1 & E1 & E2). clear Hs E0. rewrite <- E1, <- E2.
  match type of E with ?m _ = _ => assert (Hm : keeps ranged m) by ranged_tac end. exact (Hm _ _ _ E Hok1).
Qed.
#[local] Hint Resolve layer_update_ranged : keeps.
Lemma build_loop_ranged l p b : keeps ranged (build_loop wide l p b : W _).
Proof. revert p b. induction l as [|i l IH]; intros p b; simpl; ranged_tac. Qed.
Lemma reset_metadata_ranged : keeps ranged (on_rates (fun r => r <| metadata_refresh_rate_ := 0 |>) : W _).
Proof. apply keeps_modify. intros w [????]. cbn. split_and!; try done. constructor; try done. by left. Qed.
#[local] Hint Resolve build_loop_ranged reset_metadata_ranged : keeps.
Lemma BuildLayerStack_ranged : keeps ranged (BuildLayerStack wide : W _).
Proof. unfold BuildLayerStack, set_of. ranged_tac. Qed.
Lemma update_rate_ranged : keeps ranged (update_rate : W _).
Proof. unfold update_rate, ToggleCPUHint, GetUpdatingLayersCount. ranged_tac. Qed.
#[local] Hint Resolve BuildLayerStack_ranged update_rate_ranged : keeps.
Lemma Validate_ranged : keeps ranged (Primary.Validate wide : W _).
Proof. unfold Primary.Validate, set_of. ranged_tac. Qed.
Lemma ForceRefreshRate_ranged rate : 0 <= rate -> keeps ranged (ForceRefreshRate rate : W _).
Proof.
  intros Hr w a w' E Hok. unfold ForceRefreshRate in E. st_step E. injection E0 as <- <-.
  destruct (Z.eqb_spec rate 0) as [->|Hz]; cbn [negb andb orb] in E.
  - destruct (_ =? 0); [by injection E as _ <-|]. st_step E. injection E0 as _ <-.
    match type of E with in_sdm ?m ?x = _ => destruct (sdm_ranged m x _ _ E) as (H1' & H2' & H3') end;
      [|by rewrite H2', H3']. destruct Hok. constructor; try done. by left.
  - destruct (Z.ltb_spec rate (min_refresh_rate_ (rates w))); [by injection E as _ <-|].
    destruct (Z.ltb_spec (max_refresh_rate_ (rates w)) rate); [by injection E as _ <-|]. cbn [orb] in E.
    destruct (_ =? rate); [by injection E as _ <-|]. st_step E. injection E0 as _ <-.
    match type of E with in_sdm ?m ?x = _ => destruct (sdm_ranged m x _ _ E) as (H1' & H2' & H3') end;
      [|by rewrite H2', H3']. destruct Hok. constructor; try done. by right.
Qed.
Lemma Perform_ranged o : keeps ranged (Perform o : W _).
Proof.
  assert (Hf : forall v, keeps ranged (ForceRefreshRate (u32 v) : W _)).
  { intros v. apply ForceRefreshRate_ranged. by destruct (uwrap_range 32 v ltac:(lia)). }
  unfold Perform, SetMetaDataRefreshRateFlag, SetQDCMSolidFillInfo. ranged_tac.
Qed.
#[local] Hint Resolve Validate_ranged Perform_ranged : keeps.

Lemma GetPanelResolution_ranged : keeps ranged (GetPanelResolution : W _).
Proof. unfold GetPanelResolution. ranged_tac. Qed.
Lemma DisablePartialUpdate_ranged : keeps ranged (DisablePartialUpdateOneFrame : W _).
Proof. unfold DisablePartialUpdateOneFrame. ranged_tac. Qed.
#[local] Hint Resolve GetPanelResolution_ranged DisablePartialUpdate_ranged : keeps.
Lemma run_ranged c : keeps ranged (run wide c : W _).
Proof.
  destruct c; unfold run, done_; try solve [ranged_tac].
  all: unfold CreateLayer, DestroyLayer, SetLayerZ, Client.SetCursorPosition, HwcDisplay.SetCursorPosition, GetHWCLayer,
    AcceptDisplayChanges, is_validated, GetReleaseFences, set_of, SetClientTarget, Primary.SetColorMode,
    Primary.SetColorTransform, SetVsyncEnabled, SetActiveConfig, SetDisplayStatus, ToggleScreenUpdates,
    SetDisplayAnimating, Primary.SetFrameDumpConfig,
    FrameCaptureAsync, GetFrameBufferResolution, Refresh, OnThermalEvent, SetIdleTimeoutMs, SetMaxMixerStages,
    OnMinHdcpEncryptionLevelChange, SetPanelBrightness, ControlPartialUpdate, SetMixerResolution,
    SetFrameBufferResolution, SetDetailEnhancerConfig; ranged_tac.
Qed.

(** ** A display that was made *)

Context `{!RangeLaws V}.

Definition unchosen (w : World) : Prop := rates_ok (rates w) /\ force_refresh_rate_ (rates w) = 0 /\ metadata_refresh_rate_ (rates w) = 0.
Definition unchosen_still (w w' : World) : Prop := unchosen w -> unchosen w'.
#[global] Instance unchosen_still_pre : PreOrder unchosen_still.
Proof. split; [intros w Ha; exact Ha|]. intros a b c Hab Hbc Ha. by apply Hbc, Hab. Qed.
Lemma same_rates_unchosen {A} (m : W A) : (forall w a w', m w = Ret (a, w') -> rates w' = rates w) -> keeps unchosen_still m.
Proof. intros Hm w a w' E. unfold unchosen_still, unchosen. by rewrite (Hm w a w' E). Qed.
Lemma deref_unchosen i : keeps unchosen_still (deref i : W _).
Proof. apply same_rates_unchosen. intros w a w'. unfold deref. destruct (heap w !! i); [|done]. by intros [= _ <-]. Qed.
Lemma gr_unchosen {A} (m : St G A) : keeps unchosen_still (in_gr m : W A).
Proof. apply same_rates_unchosen. intros w a w'. unfold in_gr. destruct (m (gr w)) as [[b g]| |]; by intros [= _ <-]. Qed.
Lemma sdm_unchosen {A} (m : St V A) : keeps unchosen_still (in_sdm m : W A).
Proof. apply same_rates_unchosen. intros w a w'. unfold in_sdm. destruct (m (sdm w)) as [[b v]| |]; by intros [= _ <-]. Qed.
Lemma use_metadata_unchosen b : keeps unchosen_still (on_rates (fun r => r <| use_metadata_refresh_rate_ := b |>) : W _).
Proof. apply keeps_modify. intros w ([????] & ? & ?). done. Qed.
Lemma range_unchosen {A} (k : unit -> W A) : (forall u, keeps unchosen_still (k u)) ->
  keeps unchosen_still ('(lo, hi) ← in_sdm D_GetRefreshRateRange;
    u ← on_rates (fun r => r <| min_refresh_rate_ := lo |> <| max_refresh_rate_ := hi |> <| current_refresh_rate_ := hi |>); k u).
Proof.
  intros Hk w a w' E Hu. st_step E. destruct a0 as [lo hi]. unfold in_sdm in E0.
  destruct (D_GetRefreshRateRange (sdm w)) as [[[lo' hi'] v]| |] eqn:Ev; try done. injection E0 as <- <- <-.
  apply refresh_range in Ev. st_step E. injection E0 as <- <-. refine (Hk _ _ _ _ E _). destruct Hu as (_ & Hf & Hd).
  split_and!; try done. constructor; cbn; try lia; by left.
Qed.
#[local] Hint Resolve deref_unchosen gr_unchosen sdm_unchosen use_metadata_unchosen range_unchosen : keeps.
#[local] Hint Extern 3 (keeps unchosen_still _) => apply keeps_modify; intros ? ?; done : keeps.
Lemma delete_layer_unchosen i : keeps unchosen_still (delete_layer i : W _).
Proof. unfold delete_layer. ranged_tac. Qed.
#[local] Hint Resolve delete_layer_unchosen : keeps.
Lemma for_each_unchosen l f : (forall i, keeps unchosen_still (f i)) -> keeps unchosen_still (for_each l f : W _).
Proof. intros Hf. induction l; simpl; ranged_tac. Qed.
#[local] Hint Resolve for_each_unchosen : keeps.
Lemma Deinit_unchosen : keeps unchosen_still (Deinit : W _).
Proof. unfold Deinit. ranged_tac. Qed.
Lemma Init_unchosen : keeps unchosen_still (HwcDisplay.Init : W _).
Proof.
  unfold HwcDisplay.Init, reset_validated, property_flag, GetUnderScanConfig.
  repeat first [ progress cbv beta | apply range_unchosen; intro | ranged_step ].
Qed.
#[local] Hint Resolve Deinit_unchosen Init_unchosen : keeps.
Lemma Create_rates exclude_pp rgba (w0 w1 : World) st : Primary.Create exclude_pp rgba w0 = Ret (st, w1) -> rates_ok (rates w1).
Proof.
  intros E. unfold Primary.Create in E. st_step E. injection E0 as <- <-.
  match type of E with ?m _ = _ => assert (Hm : keeps unchosen_still m) end.
  { unfold Primary.Init, SetFrameBufferResolution, ApplyScanAdjustment, sdm_layer, modify, property_flag, with_color. ranged_tac. }
  apply (Hm _ _ _ E). split_and!; try done. constructor; cbn; try lia; by left.
Qed.
End Rates_.
End HwcRates.
