(* ===== verification/HwcModes.v ===== *)
(** The colour modes of the hardware composer: the maps of HWCColorMode hold only
    modes and transforms of the HAL, in order, and the mode that is set is one of
    them, after any sequence of its calls. *)
From S2P Require Import Prelude Rect ResourceDefault MetaData GrUtils Alloc BufMgr Strategy CompMgr DisplayBase HwcLayer HwcColor.
#[local] Open Scope Z_scope.

Module HwcModes.
Import Float32 ResourceDefault HwcLayer HwcColor.

Section Modes.
Context `{!ColorHal} {V : Type} `{!ColorIntf V}.
Context (exclude_pp : bool).

Definition hal_modes : list Z :=
  [HAL_COLOR_MODE_NATIVE; HAL_COLOR_MODE_SRGB; HAL_COLOR_MODE_ADOBE_RGB; HAL_COLOR_MODE_DCI_P3; HAL_COLOR_MODE_DISPLAY_P3].
Definition hal_transforms : list Z :=
  [HAL_COLOR_TRANSFORM_IDENTITY; HAL_COLOR_TRANSFORM_VALUE_INVERSE; HAL_COLOR_TRANSFORM_GRAYSCALE;
   HAL_COLOR_TRANSFORM_CORRECT_PROTANOPIA; HAL_COLOR_TRANSFORM_CORRECT_DEUTERANOPIA; HAL_COLOR_TRANSFORM_CORRECT_TRITANOPIA].
Definition transforms_ok (t : list (Z * string)) : Prop := zmap_sorted t /\ Forall (fun p => p.1 ∈ hal_transforms) t.
Definition map_ok (m : list (Z * list (Z * string))) : Prop :=
  zmap_sorted m /\ Forall (fun p => p.1 ∈ hal_modes /\ transforms_ok p.2) m.

(** The object after Init and any calls that set a mode or a transform, failing ones
    included; the flag says whether Init or one of the calls for a mode succeeded. *)
Inductive color_run : bool -> HWCColorMode -> Prop :=
| run_init v e c v' : Init exclude_pp new_HWCColorMode v = Ret ((e, c), v') -> color_run (bool_decide (e = ENone)) c
| run_mode b c m v e c' v' : color_run b c -> SetColorMode m c v = Ret ((e, c'), v') -> color_run (b || bool_decide (e = ENone)) c'
| run_transform b c m h v e c' v' : color_run b c -> SetColorTransform m h c v = Ret ((e, c'), v') -> color_run b c'.
Record modes_ok (set : bool) (c : HWCColorMode) : Prop := mkModesOk {
  modes_map : map_ok (color_mode_transform_map_ c);
  modes_current : if set then current_color_mode_ c ∈ GetColorModes c else current_color_mode_ c = HAL_COLOR_MODE_NATIVE
}.

(** ** The map *)
Lemma set_ok mode hint s m : mode ∈ hal_modes -> hint ∈ hal_transforms -> map_ok m ->
  map_ok (zmap_set mode (zmap_set hint s (default [] (zmap_get mode m))) m).
Proof.
  intros Hm Hh [Hs Hf]. split; [by apply zmap_set_sorted|]. apply zmap_set_Forall; [|done]. split; [done|].
  assert (Ht : transforms_ok (default [] (zmap_get mode m))).
  { destruct (zmap_get mode m) as [t|] eqn:E; [|by split]. apply zmap_get_elem in E. rewrite list.Forall_forall in Hf. by apply Hf in E as [_ ?]. }
  destruct Ht. split; [by apply zmap_set_sorted|]. by apply zmap_set_Forall.
Qed.
(** Setting an entry that is there does not change the keys. *)
Lemma set_keys {A} k (a b : A) m : zmap_sorted m -> zmap_get k m = Some b -> (zmap_set k a m).*1 = m.*1.
Proof.
  induction m as [|[i x] m IH]; simpl; [done|]. intros [Hm Hs]. destruct (Z.eqb_spec k i) as [->|Hk].
  - by rewrite Z.ltb_irrefl.
  - intros E. destruct (Z.ltb_spec k i); [|simpl; f_equal; by apply IH]. apply zmap_get_elem in E. rewrite list.Forall_forall in Hm.
    apply Hm in E. simpl in E. lia.
Qed.
Lemma PopulateTransform_ok mode s t c : mode ∈ hal_modes -> map_ok (color_mode_transform_map_ c) ->
  map_ok (color_mode_transform_map_ (PopulateTransform mode s t c)).
Proof. intros Hm Hc. unfold PopulateTransform. repeat case_match; cbn; try done; apply set_ok; try done; unfold hal_transforms; set_solver. Qed.
Lemma populate_mode_ok m attr c : map_ok (color_mode_transform_map_ c) -> map_ok (color_mode_transform_map_ (populate_mode m attr c)).
Proof.
  intros Hc. unfold populate_mode. destruct (attributes _ _) as [[gamut dyn] pic]. cbv zeta.
  repeat case_match; repeat (apply PopulateTransform_ok; [unfold hal_modes; set_solver|]); done.
Qed.
Lemma populate_modes_ok n modes c (v v' : V) c' : populate_modes n modes c v = Ret (c', v') -> map_ok (color_mode_transform_map_ c) ->
  map_ok (color_mode_transform_map_ c').
Proof.
  revert modes c v. induction n as [|n IH]; intros [|m modes] c v; simpl; try by intros [= <- <-].
  intros E Hc. st_step E. apply (IH _ _ _ E). by apply populate_mode_ok.
Qed.
Lemma PopulateColorModes_ok c (v v' : V) c' : PopulateColorModes exclude_pp c v = Ret (c', v') -> map_ok (color_mode_transform_map_ c) ->
  map_ok (color_mode_transform_map_ c').
Proof.
  unfold PopulateColorModes. intros E Hc. st_step E. destruct a as [e n]. destruct (_ || _).
  - injection E as <- _. destruct exclude_pp; [done|]. apply PopulateTransform_ok; [unfold hal_modes; set_solver|done].
  - st_step E. destruct a as [[e' n'] modes]. by apply (populate_modes_ok _ _ _ _ _ _ E).
Qed.

(** ** Setting a mode *)
Lemma mode_string_ok mode hint c : mode ∈ GetColorModes c -> hint ∈ hal_transforms -> map_ok (color_mode_transform_map_ c) ->
  map_ok (color_mode_transform_map_ (mode_string mode hint c).2) /\ GetColorModes (mode_string mode hint c).2 = GetColorModes c.
Proof.
  intros Hm Hh Hc. unfold GetColorModes in *. apply zmap_get_key in Hm as Hk. destruct Hk as [t Ht]. split.
  - apply set_ok; try done. apply zmap_get_elem in Ht. destruct Hc as [_ Hf]. rewrite list.Forall_forall in Hf. by apply Hf in Ht as [? _].
  - apply (set_keys _ _ t); [apply Hc|done].
Qed.
Lemma HandleColorModeTransform_ok mode hint matrix c (v v' : V) e c' : mode ∈ GetColorModes c \/ mode = current_color_mode_ c ->
  map_ok (color_mode_transform_map_ c) -> HandleColorModeTransform mode hint matrix c v = Ret ((e, c'), v') ->
  map_ok (color_mode_transform_map_ c') /\ GetColorModes c' = GetColorModes c /\
    current_color_mode_ c' = if decide (e = ENone) then mode else current_color_mode_ c.
Proof.
  intros Hm Hc E. unfold HandleColorModeTransform in E.
  destruct (if negb _ then _ else _) as [[th um] c0] eqn:E0 in E.
  assert (th = HAL_COLOR_TRANSFORM_IDENTITY /\ um = true /\ c0 = c) as (-> & -> & ->) by (destruct (negb _); by injection E0). clear E0.
  st_step E. destruct a as [ok c1].
  assert (H1 : map_ok (color_mode_transform_map_ c1) /\ GetColorModes c1 = GetColorModes c /\ current_color_mode_ c1 = current_color_mode_ c).
  { destruct (_ && _) eqn:Eb; [|by injection E0 as _ <- _]. apply andb_prop in Eb as [_ Eb%negb_true_iff%Z.eqb_neq].
    destruct Hm as [Hm|]; [|congruence].
    pose proof (mode_string_ok mode HAL_COLOR_TRANSFORM_IDENTITY c Hm ltac:(unfold hal_transforms; set_solver) Hc) as [Ha Hb].
    assert (Hd : current_color_mode_ (mode_string mode HAL_COLOR_TRANSFORM_IDENTITY c).2 = current_color_mode_ c) by done.
    destruct (mode_string mode _ c) as [str c2]. st_step E0. by injection E0 as _ <- _. }
  destruct H1 as (Ha & Hb & Hd). destruct ok; cbn [negb] in E; [|by injection E as <- <- _].
  st_step E. destruct a; cbn [negb] in E; by injection E as <- <- _.
Qed.
Lemma SetColorMode_ok mode c (v v' : V) e c' : map_ok (color_mode_transform_map_ c) -> SetColorMode mode c v = Ret ((e, c'), v') ->
  map_ok (color_mode_transform_map_ c') /\ GetColorModes c' = GetColorModes c /\
    (e = ENone -> mode ∈ GetColorModes c) /\ current_color_mode_ c' = if decide (e = ENone) then mode else current_color_mode_ c.
Proof.
  intros Hc. unfold SetColorMode. destruct (_ || _); [by intros [= <- <- _]|].
  destruct (zmap_get mode _) eqn:Em; [|by intros [= <- <- _]]. intros E.
  assert (Hm : mode ∈ GetColorModes c) by (apply zmap_get_key; eauto).
  destruct (HandleColorModeTransform_ok _ _ _ _ _ _ _ _ (or_introl Hm) Hc E) as (? & ? & ?). done.
Qed.
Lemma PopulateTransform_current mode s t c : current_color_mode_ (PopulateTransform mode s t c) = current_color_mode_ c.
Proof. unfold PopulateTransform. by repeat case_match. Qed.
Lemma populate_mode_current m attr c : current_color_mode_ (populate_mode m attr c) = current_color_mode_ c.
Proof. unfold populate_mode. destruct (attributes _ _) as [[gamut dyn] pic]. cbv zeta. repeat case_match; by rewrite ?PopulateTransform_current. Qed.
Lemma populate_modes_current n modes c (v v' : V) c' : populate_modes n modes c v = Ret (c', v') -> current_color_mode_ c' = current_color_mode_ c.
Proof.
  revert modes c v. induction n as [|n IH]; intros [|m modes] c v; simpl; try by intros [= <- <-].
  intros E. st_step E. rewrite (IH _ _ _ E). apply populate_mode_current.
Qed.
Lemma PopulateColorModes_current c (v v' : V) c' : PopulateColorModes exclude_pp c v = Ret (c', v') -> current_color_mode_ c' = current_color_mode_ c.
Proof.
  unfold PopulateColorModes. intros E. st_step E. destruct a as [e n]. destruct (_ || _).
  - injection E as <- _. destruct exclude_pp; [done|]. apply PopulateTransform_current.
  - st_step E. destruct a as [[e' n'] modes]. by apply (populate_modes_current _ _ _ _ _ _ E).
Qed.
Lemma SetColorMode_modes b mode c (v v' : V) e c' : modes_ok b c -> SetColorMode mode c v = Ret ((e, c'), v') ->
  modes_ok (b || bool_decide (e = ENone)) c'.
Proof.
  intros [Hm Hk] E. destruct (SetColorMode_ok _ _ _ _ _ _ Hm E) as (Ha & Hb & Hin & Hcur). split; [done|]. rewrite Hcur, Hb.
  destruct (decide (e = ENone)) as [He|He].
  - rewrite (bool_decide_true _ He), orb_true_r. auto.
  - by rewrite (bool_decide_false _ He), orb_false_r.
Qed.
Lemma Init_modes_ok (v v' : V) e c : Init exclude_pp new_HWCColorMode v = Ret ((e, c), v') -> modes_ok (bool_decide (e = ENone)) c.
Proof.
  intros E. unfold Init in E. st_step E. apply PopulateColorModes_ok in E0 as Hc; [|by repeat constructor].
  apply PopulateColorModes_current in E0 as Hn. assert (Ha : modes_ok false a) by (by split).
  assert (exists m v1, SetColorMode m a v1 = Ret ((e, c), v')) as (m & v1 & Es).
  { unfold ApplyDefaultColorMode in E. destruct (color_mode_transform_map_ a) as [|[k t] [|[k2 t2] m]]; [eauto..|].
    st_step E. destruct a0 as [er str]. eauto. }
  exact (SetColorMode_modes false _ _ _ _ _ _ Ha Es).
Qed.
Lemma color_run_ok b c : color_run b c -> modes_ok b c.
Proof.
  induction 1 as [v e c v' E|b c m v e c' v' _ IH E|b c m h v e c' v' _ [Hm Hk] E].
  - by apply (Init_modes_ok v v').
  - by apply (SetColorMode_modes b m c v v').
  - destruct (HandleColorModeTransform_ok _ _ _ _ _ _ _ _ (or_intror eq_refl) Hm E) as (Ha & Hb & Hcur). split; [done|]. rewrite Hcur, Hb. by case_decide.
Qed.
End Modes.
End HwcModes.
