(* ===== verification/HwcProps.v ===== *)
(** The properties of the hardware composer: the layers of a display in every
    reachable state, validation and presentation, the fences that are given out,
    colour modes and refresh rates; with a small SDM and gralloc on which the runs
    of the witnesses are evaluated. *)
From S2P Require Import Prelude Rect ResourceDefault MetaData GrUtils Alloc BufMgr Strategy CompMgr DisplayBase HwcLayer HwcColor.
From S2P Require Import HwcDisplay HwcDisplays HwcFacts HwcSet HwcStack HwcFrame HwcRates HwcModes.
From Stdlib Require Import Sorting.Sorted.
#[local] Open Scope Z_scope.

(** * An environment to run the composer on *)
Module HwcSample.
Import Float32 Rect Formats ResourceDefault Strategy HwcLayer HwcColor HwcDisplay.

(** The values of the platform's headers. *)
#[global] Instance hal : HwcLayer.Hal := {|
  DATASPACE_UNKNOWN := 0;
  STANDARD_MASK := Z.shiftl 63 16; TRANSFER_MASK := Z.shiftl 31 22; RANGE_MASK := Z.shiftl 7 27;
  STANDARD_BT709 := Z.shiftl 1 16; STANDARD_BT601_525 := Z.shiftl 4 16; STANDARD_BT601_525_UNADJUSTED := Z.shiftl 5 16;
  STANDARD_BT601_625 := Z.shiftl 2 16; STANDARD_BT601_625_UNADJUSTED := Z.shiftl 3 16; STANDARD_DCI_P3 := Z.shiftl 10 16;
  STANDARD_BT2020 := Z.shiftl 6 16;
  TRANSFER_SRGB := Z.shiftl 2 22; TRANSFER_SMPTE_170M := Z.shiftl 3 22; TRANSFER_ST2084 := Z.shiftl 7 22;
  TRANSFER_HLG := Z.shiftl 8 22; TRANSFER_LINEAR := Z.shiftl 1 22; TRANSFER_GAMMA2_2 := Z.shiftl 4 22;
  RANGE_FULL := Z.shiftl 1 27; RANGE_LIMITED := Z.shiftl 2 27;
  DATASPACE_SRGB := 0x201; DATASPACE_JFIF := 0x101; DATASPACE_SRGB_LINEAR := 0x200; DATASPACE_BT601_625 := 0x102;
  DATASPACE_BT601_525 := 0x103; DATASPACE_BT709 := 0x104;
  V0_SRGB := 142671872; V0_JFIF := 146931712; V0_SRGB_LINEAR := 138477568; V0_BT601_625 := 281149440;
  V0_BT601_525 := 281280512; V0_BT709 := 281083904
|}.
#[global] Instance color_hal : ColorHal := {|
  HAL_COLOR_MODE_NATIVE := 0; HAL_COLOR_MODE_DCI_P3 := 6; HAL_COLOR_MODE_SRGB := 7; HAL_COLOR_MODE_ADOBE_RGB := 8;
  HAL_COLOR_MODE_DISPLAY_P3 := 9;
  HAL_COLOR_TRANSFORM_IDENTITY := 0; HAL_COLOR_TRANSFORM_ARBITRARY_MATRIX := 1; HAL_COLOR_TRANSFORM_VALUE_INVERSE := 2;
  HAL_COLOR_TRANSFORM_GRAYSCALE := 3; HAL_COLOR_TRANSFORM_CORRECT_PROTANOPIA := 4;
  HAL_COLOR_TRANSFORM_CORRECT_DEUTERANOPIA := 5; HAL_COLOR_TRANSFORM_CORRECT_TRITANOPIA := 6
|}.

(** The descriptors that were closed, and the next one. *)
Record Process := mkProcess { closed_fds : list Z; next_fd : Z }.
#[global] Instance gralloc : Gralloc Process := {|
  G_handle b := mret (GrUtils.GrProps.Sample.handle 0 64 64 1 0);
  G_getMetaData b p := mret (match p with MetaData.GET_COLOR_SPACE => (0, [0]) | _ => (-22, []) end);
  G_GetCustomWidthAndHeight b := mret (64, 64);
  G_GetAlignedWidthAndHeight w h f u := mret (w, h);
  G_dup fd := fun g => Ret (next_fd g, mkProcess (closed_fds g) (next_fd g + 1));
  G_close fd := fun g => Ret (tt, mkProcess (closed_fds g ++ [fd]) (next_fd g));
  G_sync_wait fd := mret 0;
  G_AllocateBuffer i := mret (true, i);
  G_FreeBuffer i := mret true;
  G_mmap s fd := mret (Some 4096);
  G_munmap a s := mret 0;
  G_MapBuffer b := mret true;
  G_UnmapBuffer b := mret true;
  G_GetProperty s := mret None;
  G_property_get s d := mret d;
  G_dump := mret tt;
  G_dump_output i b f := mret tt
|}.
#[global] Instance gralloc_laws : HwcFrame.GrallocLaws Process.
Proof. intros fd g. by eexists. Defined.

(** An SDM that remembers the frames of the layers it prepared and committed, and what
    it was told; every layer is composed by the hardware, with the fence 30, unless
    it is to be skipped. *)
Record Panel := mkPanel {
  prepared : list (list LayerRect); committed : list (list LayerRect); prepare_error : DisplayError; tone : bool;
  fb : FbConfig; state : CompMgr.DisplayState; told : list string; transform_error : DisplayError
}.
#[global] Instance eta_panel : Eta Panel := fun p =>
  mkPanel (prepared p) (committed p) (prepare_error p) (tone p) (fb p) (state p) (told p) (transform_error p).
Definition compose (l : Layer) : Layer :=
  if decide (composition l = CompositionGPUTarget) then l
  else l <| composition := if HwcLayer.skip (lflags l) then kCompositionGPU else kCompositionSDE |>.
Definition scan (l : Layer) : Layer := l <| HwcLayer.input_buffer ::= fun b => b <| HwcLayer.release_fence_fd := 30 |> |>.
Abbreviation ok := (mret kErrorNone).
#[global] Instance panel : Sdm Panel := {|
  D_Prepare vs o f := fun p =>
    Ret ((prepare_error p, compose <$> vs, f), p <| prepared ::= fun l => l ++ [HwcLayer.dst_rect <$> vs] |>);
  D_Commit vs o f r := fun p =>
    Ret ((kErrorNone, scan <$> vs, o, 40), p <| committed ::= fun l => l ++ [HwcLayer.dst_rect <$> vs] |>);
  D_Flush s := ok; D_SetDisplayState s := fun p => Ret (kErrorNone, p <| state := s |>);
  D_GetDisplayState := st_gets (fun p => (kErrorNone, state p)); D_SetVSyncState b := ok; D_SetActiveConfig c := ok;
  D_SetActiveConfigInfo c := ok; D_GetActiveConfig c := mret (kErrorNone, c); D_GetNumVariableInfoConfigs n := mret (kErrorNone, 1);
  D_GetConfig c := st_gets (fun p => (kErrorNone, fb p)); D_GetFixedConfig := mret (mkFixedInfo false false 0 0 0);
  D_GetFrameBufferConfig := st_gets (fun p => (kErrorNone, fb p));
  D_SetFrameBufferConfig c := fun p => Ret (kErrorNone, p <| fb := c |>);
  D_GetMixerResolution := mret (kErrorNone, 1080, 1920); D_SetMixerResolution w h := ok; D_GetRefreshRateRange := mret (30, 60);
  D_SetRefreshRate r := ok; D_SetMaxMixerStages n := ok; D_SetCursorPosition x y := ok; D_SetPanelBrightness l := mret 0;
  D_GetClientTargetSupport w h f c := ok; D_OnMinHdcpEncryptionLevelChange l := ok; D_SetIdleTimeoutMs t := mret tt;
  D_SetDisplayMode m := ok; D_ApplyDefaultDisplayMode := ok; D_ControlPartialUpdate b := mret (kErrorNone, 0);
  D_DisablePartialUpdateOneFrame := ok; D_SetDetailEnhancerData d := ok; D_IsUnderscanSupported := mret true;
  D_GetPanelBrightness := mret (0, 0); D_SetDynamicDSIClock b := ok; D_GetDynamicDSIClock := mret (kErrorNone, 0);
  C_CreateDisplay t := ok; C_DestroyDisplay := ok;
  T_HandleToneMap vs := mret (0, vs); T_PostCommit vs := mret vs; T_IsActive := st_gets tone; T_Terminate := mret tt;
  T_SetFrameDumpConfig n := mret tt; CB_Refresh := mret tt; CB_Vsync t := mret tt; CB_VsyncRegistered := mret true;
  CPU_Init := mret true; CPU_Hint b := mret tt
|}.
#[global] Instance panel_laws : HwcFrame.SdmLaws Panel.
Proof. intros p. by eexists. Defined.
#[global] Instance panel_range : HwcRates.RangeLaws Panel.
Proof. intros v lo hi v' [= <- <- _]. lia. Defined.
#[global] Instance panel_color : ColorIntf Panel := {|
  CI_GetColorModeCount := mret (kErrorNone, 2);
  CI_GetColorModes n := mret (kErrorNone, n, ["hal_native_identity"; "hal_srgb_identity"]%string);
  CI_GetColorModeAttr s := mret [];
  CI_GetDefaultColorMode := mret (kErrorNone, "hal_native_identity"%string);
  CI_SetColorMode s := fun p => Ret (kErrorNone, p <| told ::= fun l => l ++ [s] |>);
  CI_SetColorTransform m := st_gets transform_error
|}.

Definition fb0 : FbConfig := mkFb 1080 1920 (FLOAT 400) (FLOAT 400) 60 16666666 false.
Definition panel0 : Panel := mkPanel [] [] kErrorNone false fb0 CompMgr.kStateOff [] kErrorNone.
Abbreviation SampleWorld := (World (G := Process) (V := Panel)).
(** Before a display is made: no object, and the identifiers start at 1. *)
Definition before : SampleWorld :=
  new_HWCDisplay kPrimary 0
    (mkHWorld ∅ 1 None (mkLayersOf ∅ [] (-1) [] [] Stack0 true)
       (mkProgress ∅ false false false false false false false false 0 false false false) (mkRates 0 0 0 false 0 0 false)
       (mkMisc kPrimary false false false 0 None 0 0 false false 0 LayerRect0 0 0 false false false 0)
       (mkOutput None 0 false false 0 false BufferInfo0 0) None (mkProcess [] 50) panel0).
Definition made : SampleWorld :=
  match Primary.Create false 1 before with Ret (_, w) => w | _ => before end.
Lemma made_run : Primary.Create false 1 before = Ret (0, made).
Proof. vm_compute. reflexivity. Qed.
Fixpoint runs (l : list Calls.Call) (w : SampleWorld) : outcome SampleWorld :=
  match l with
  | [] => Ret w
  | c :: l => match Calls.run false c w with Ret (_, w) => runs l w | Undef => Undef | NoFuel => NoFuel end
  end.
Definition after (l : list Calls.Call) : SampleWorld := match runs l made with Ret w => w | _ => made end.
End HwcSample.

(** * The layers of a display *)
Module HwcProps.
Import Float32 Rect Formats ResourceDefault Strategy HwcLayer HwcColor HwcDisplay Primary Client Calls Hoare HwcFacts HwcSet HwcStack
  HwcFrame HwcRates HwcModes.

Section Props.
Context `{!GrUtils.Platform, !Hal, !ColorHal} {G V : Type} `{!Gralloc G, !Sdm V, !ColorIntf V}.
Context (wide : bool).
Abbreviation World := (World (G := G) (V := V)).

(** A primary display that was made, after any calls. *)
Definition reachable (w : World) : Prop :=
  exists exclude_pp rgba w0 w1, ids_ok w0 /\ next_id_ w0 + 1 < 2 ^ 64 /\ Primary.Create exclude_pp rgba w0 = Ret (0, w1) /\
    rtc (step wide) w1 w.

Lemma created_ok exclude_pp rgba (w0 w1 : World) : ids_ok w0 -> next_id_ w0 + 1 < 2 ^ 64 ->
  Primary.Create exclude_pp rgba w0 = Ret (0, w1) -> wf w1 /\ committable w1.
Proof.
  intros Hok Hn E. destruct (Create_shape exclude_pp rgba w0 w1 Hok Hn E) as (Hs & Hk & Hp). injection Hs as Es Em Ec En Ez.
  destruct Hok as [Hn0 Hids]. split; [|intros _ _; by rewrite Hp].
  constructor; rewrite ?Es, ?Em, ?Ec, ?En; try done.
  - constructor.
  - constructor.
  - by intros i ?%elem_of_nil.
  - intros i h Hi. assert (Hz : (zid <$> heap w1) !! i = Some (zid h)) by (by rewrite lookup_fmap, Hi). rewrite Ez in Hz.
    apply lookup_insert_Some in Hz as [[<- [= _ <-]]|[_ Hz]]; [lia|]. rewrite lookup_fmap in Hz.
    destruct (heap w0 !! i) as [h0|] eqn:E0; [|done]. injection Hz as _ Hz. rewrite <- Hz. apply Hids in E0. lia.
  - split; [|apply not_elem_of_nil]. assert (Hz : is_Some ((zid <$> heap w1) !! next_id_ w0)) by (rewrite Ez, lookup_insert_eq; eauto).
    by rewrite lookup_fmap, fmap_is_Some in Hz.
  - lia.
Qed.
Lemma reachable_wf w : reachable w -> wf w /\ committable w.
Proof.
  intros (ex & rgba & w0 & w1 & Hok & Hn & E & Hr). destruct (created_ok ex rgba w0 w1 Hok Hn E) as [Hw Hc]. clear E.
  induction Hr as [w|w1 w2 w3 Hst Hr IH]; [done|]. apply IH; [by apply (step_wf wide w1)|by apply (step_committable wide w1)].
Qed.

(** C3: in every reachable state of a primary display the set of layers, the map by
    identifier and the layer objects agree: the set is in the order of z without
    repetition, its members are exactly the entries of the map that are not null,
    all of them are alive, and the client target is alive and not among them. *)
Theorem hwc_layers_agree w : reachable w -> wf w.
Proof. apply reachable_wf. Qed.

(** C8: when a display that is not paused has been validated, every pointer of its
    layer stack is to a live object, so that committing the stack uses no layer
    after it was destroyed. *)
Theorem committed_stack_live w : reachable w -> display_paused_ (prog w) = false -> type_ (misc w) ∈ validated_ (prog w) ->
  Forall (palive w) (slayers (layer_stack_ (ls w))).
Proof. intros Hr. apply (reachable_wf w Hr). Qed.

(** SetLayerZOrder of a layer of the map succeeds: the layers of the set stay the
    same, the layer has the new z, every layer after it in the set is strictly above
    it when it was moved, and the set is in order again. *)
Lemma zorder_moves w i j z : reachable w -> layer_map_ (ls w) !! i = Some (Some j) ->
  exists w' l1 l2, SetLayerZ i z w = Ret (ENone, w') /\ layer_set_ (ls w') = l1 ++ i :: l2 /\ layer_set_ (ls w') ≡ₚ layer_set_ (ls w) /\
    zval (heap w') i = z /\ wf w' /\ (zval (heap w) i <> z -> Forall (fun k => z < zval (heap w') k) l2).
Proof.
  intros Hr Hm. destruct (reachable_wf w Hr) as [Hw _]. destruct (wf_map w Hw _ _ Hm) as [-> Hi].
  pose proof (wf_alive w Hw) as Hal. rewrite list.Forall_forall in Hal. destruct (Hal _ Hi) as [h Hh].
  assert (Hz : zval (heap w) i = z_ h) by (unfold zval; by rewrite Hh).
  destruct (decide (z_ h = z)) as [Hzz|Hzz].
  - apply list_elem_of_split in Hi as Hsp. destruct Hsp as (l1 & l2 & El). exists w, l1, l2. split_and!; try done; [|congruence..].
    unfold SetLayerZ, mbind, st_bind, st_gets, deref, st_lift. rewrite Hm, Hh, <- Hz, equal_range_found by (done || apply Hw).
    cbn. by rewrite Hz, Hzz, Z.eqb_refl.
  - destruct (SetLayerZ_runs i z w h Hw Hm Hh Hzz) as (l1 & l2 & l3 & l4 & w' & El & E34 & Hni & Er & Ew & Hb & Ha).
    exists w', l3, l4. assert (Es : layer_set_ (ls w') = l3 ++ i :: l4) by (by rewrite Ew). split_and!; try done.
    + rewrite Es, El, <- !Permutation_middle. by rewrite E34.
    + unfold zval. rewrite Ew. cbn. by rewrite lookup_insert_eq.
    + by apply (SetLayerZ_wf i z w ENone).
    + intros _. rewrite list.Forall_forall in *. intros k Hk. unfold zval. rewrite Ew. cbn.
      rewrite lookup_insert_ne; [by apply Ha|]. intros <-. apply Hni. rewrite E34. set_solver.
Qed.

(** Validate ends in PrepareLayerStack when it gives the counts. *)
Lemma Validate_prepares w e n w1 : wf w -> Primary.Validate wide w = Ret ((e, Some n), w1) ->
  exists s, wf s /\ shape s = shape w /\ PrepareLayerStack s = Ret ((e, Some n), w1).
Proof.
  intros Hw E. set (sh := shape w). pose proof (wf_shape_ids w Hw) as Hi. fold sh in Hi.
  assert (I0 : shaped sh w) by (split; [done|apply (wf_changes w Hw)]).
  unfold Primary.Validate in E. st_step E. injection E0 as <- <-. st_step E.
  assert (I1 : shaped sh s).
  { destruct (_ && _); [by apply (ProcessBootAnimCompleted_keep sh Hi w _ _ I0 E0)|by injection E0 as _ <-]. }
  st_step E. injection E1 as <- <-. destruct (display_paused_ (prog s)); [by st_step E|].
  st_step E. destruct (BuildLayerStack_keep wide sh Hi _ _ _ I1 E1) as [I2 _]. st_step E.
  assert (I3 : shaped sh s1).
  { destruct (color_tranform_failed_ _); [by apply (MarkLayersForClientComposition_keep sh Hi _ _ _ I2 E2)|by injection E2 as _ <-]. }
  st_step E. destruct (SolidFillPrepare_keep sh Hi _ _ _ I3 E3) as [I4 _]. st_step E. injection E4 as <- <-. st_step E.
  assert (I5 : shaped sh s3).
  { destruct (_ || _); [by apply (stack_keep sh _ _ _ _ I4 E4)|by injection E4 as _ <-]. }
  st_step E. destruct (update_rate_keep sh _ _ _ I5 E5) as [I6 _]. st_step E. injection E6 as <- <-.
  destruct (layer_set_ (ls s4)); [by repeat st_step E|]. exists s4. destruct I6 as [Hs Hk]. split_and!; try done. by apply (wf_same w).
Qed.

(** C20: when Validate of a display gives the counts, its layers are as SDM left them
    ([as_prepared]: those of the stack have the values that SDM's Prepare gave back, or all
    are marked for SDM when Prepare is skipped once), and AcceptDisplayChanges succeeds;
    then every layer has, as the type the client asks for and as the type of the device,
    the one that its composition by SDM stands for ([selected]: Client, Cursor, SolidColor
    or Device). *)
Theorem accept_settles w e n w1 : reachable w -> Primary.Validate wide w = Ret ((e, Some n), w1) ->
  exists s w2, PrepareLayerStack s = Ret ((e, Some n), w1) /\ as_prepared s w1 /\
    AcceptDisplayChanges w1 = Ret (ENone, w2) /\ layer_set_ (ls w2) = layer_set_ (ls w) /\
    forall i, i ∈ layer_set_ (ls w) -> exists h1 h2, heap w1 !! i = Some h1 /\ heap w2 !! i = Some h2 /\ layer_ h2 = layer_ h1 /\
      client_requested_ h2 = selected (layer_ h2) /\ device_selected_ h2 = selected (layer_ h2).
Proof.
  intros Hr E. destruct (reachable_wf w Hr) as [Hw _].
  destruct (Validate_prepares w e n w1 Hw E) as (s & Hws & Hss & Ep).
  destruct (PrepareLayerStack_noted s e n w1 Hws Ep) as (Hw1 & Hs & Hrd & Hso & _ & _ & Hin & Hout & Hap). rewrite Hss in Hs.
  injection Hs as Es _ _ _ _.
  assert (Hset : forall i, i ∈ layer_set_ (ls w1) -> layer_map_ (ls w1) !! i = Some (Some i) /\ alive (heap w1) i).
  { intros i Hi. split; [by apply (wf_in w1 Hw1)|]. destruct (Hin i Hi) as (h & Hh & _). by exists h. }
  destruct (accept_changes_run _ w1 Hso (fun i Hi => Hset i (Hout i Hi))) as (w2 & Ea & El & _ & Eh). exists s.
  destruct (layer_set_ (ls w1)) as [|k l] eqn:El1.
  - exists w1. rewrite <- Es. split; [exact Ep|]. split; [exact Hap|]. split_and!; [|by rewrite El1|by intros i ?%elem_of_nil].
    unfold AcceptDisplayChanges. rewrite (st_bind_Ret _ _ _ _ _ eq_refl). by rewrite El1.
  - exists w2. rewrite <- Es. split; [exact Ep|]. split; [exact Hap|]. split_and!.
    + unfold AcceptDisplayChanges, is_validated. rewrite (st_bind_Ret _ _ _ _ _ eq_refl), El1, (st_bind_Ret _ _ _ _ _ eq_refl).
      rewrite bool_decide_true by done. cbn [negb]. by rewrite (st_bind_Ret _ _ _ _ _ Ea).
    + by rewrite El.
    + intros i Hi. destruct (Hin i Hi) as (h & Hh & Hn & Hd). exists h. rewrite Eh, Hh. eexists. split; [done|]. split; [reflexivity|].
      unfold accepted. rewrite Hn. unfold noted.
      destruct (decide (client_requested_ h <> device_selected_ h)) as [|Hc]; [done|]. apply dec_stable in Hc. by rewrite Hc.
Qed.

(** The queue of a layer after a frame. *)
Definition queue (w : World) (i : Z) : list Z :=
  match heap w !! i with
  | Some h => release_fences_ h ++ pushed (flush_ (prog w)) (swap_interval_zero_ (misc w)) h
  | None => []
  end.

(** C17: the release fences of a frame in which no tone mapping is active.  Posting the frame
    appends to the queue of each layer one fence: none (-1) when the frame is flushed or the
    client composed the layer, else the one SDM gave; a layer with a single buffer, and any
    layer with a swap interval of zero, gets nothing in a frame that is not flushed
    ([pushed]: its fence is closed).  GetReleaseFences then takes one fence off each queue and
    hands them out in the order of the set, -1 for an empty queue.  So a layer whose queue
    held one fence, as a new one's does, gets the fence of the frame before. *)
Theorem fence_delay w e f w1 : wf w -> untoned (sdm w) -> PostCommitLayerStack w = Ret ((e, f), w1) ->
  exists w2, GetReleaseFences true w1 = Ret ((ENone, Z.of_nat (length (layer_set_ (ls w))),
      map (fun i => (i, default (-1) (head (queue w i)))) (layer_set_ (ls w))), w2) /\
    forall i, i ∈ layer_set_ (ls w) -> exists h2, heap w2 !! i = Some h2 /\ release_fences_ h2 = tail (queue w i).
Proof.
  intros Hw Ht E. pose proof (wf_alive w Hw) as Hal. rewrite list.Forall_forall in Hal.
  destruct (PostCommit_fences w e f w1 Hw Ht E) as [Es Hin].
  destruct (pop_fences_run (layer_set_ (ls w)) w1 (queue w) (wf_nodup w Hw)) as (w2 & Ep & _ & _ & Hpop).
  { intros i Hi. destruct (Hal i Hi) as [h Hh]. destruct (Hin i h Hi Hh) as (h' & Hh' & Hf & Hid). exists h'. split_and!; try done.
    unfold queue. by rewrite Hh. }
  exists w2. split; [|exact Hpop].
  unfold GetReleaseFences, set_of. by rewrite (st_bind_Ret _ _ _ _ _ eq_refl), Es, (st_bind_Ret _ _ _ _ _ Ep).
Qed.

(** C15: no frame that was not validated is committed: when the display is not ready, or when
    the last validation was skipped and a layer or the client target has changed since
    ([stale]), Present answers NotValidated, gives out no fence, and SDM is not called.
    This is so unless the display is paused or a Prepare or Commit before failed ([flush_]):
    then Present succeeds without a fence, and whatever relation of SDM's states its Flush
    and the tone mapper keep, Present keeps: it does not call Commit. *)
Theorem stale_refused `{!GrallocLaws G, !SdmLaws V} w : reachable w -> stale w ->
  (display_paused_ (prog w) = false -> flush_ (prog w) = false ->
     exists w', Present w = Ret ((NotValidated, None), w') /\ sdm w' = sdm w) /\
  (forall R r w', uncommitted R -> display_paused_ (prog w) = true \/ flush_ (prog w) = true -> Present w = Ret (r, w') ->
     r = (ENone, if display_paused_ (prog w) then None else Some (-1)) /\ R (sdm w) (sdm w')).
Proof.
  intros Hr Hst. split; [intros Hp Hf|intros R r w' HR; by apply Present_uncommitted].
  destruct (reachable_wf w Hr) as [Hw _]. destruct (CommitLayerStack_refuses w Hw Hf Hst) as [p Ec].
  set (w1 := w <| prog := p |>) in Ec. assert (Hw1 : wf w1) by (by destruct Hw; constructor).
  destruct (CloseAcquireFds_total w1 Hw1) as (w' & Ef & Hs). exists w'. split; [|done].
  unfold Present. rewrite (st_bind_Ret _ _ _ _ _ eq_refl), Hp.
  rewrite (st_bind_Ret _ _ w (NotValidated, None) w1) by (by rewrite (st_bind_Ret _ _ _ _ _ Ec)).
  by rewrite (st_bind_Ret _ _ _ _ _ Ef).
Qed.

Lemma reachable_rates `{!RangeLaws V} w : reachable w -> rates_ok (rates w).
Proof.
  intros (ex & rgba & w0 & w1 & _ & _ & E & Hr). apply Create_rates in E.
  induction Hr as [w|w1 w2 w3 Hst Hr IH]; [done|]. apply IH. destruct Hst as [c w' _ Er|v _]; [|done].
  by apply (run_ranged wide c w1 tt).
Qed.

(** C33: the rate that is set for a frame is one the panel can show: in every reachable
    state the rate that the client forced and the one the metadata of the layers
    asked for are 0 or within the range SDM gave, and the rate chosen from them,
    with one layer updating or several, is within the range. *)
Theorem rates_in_range `{!RangeLaws V} w one : reachable w ->
  rates_ok (rates w) /\ min_refresh_rate_ (rates w) <= GetOptimalRefreshRate (rates w) one <= max_refresh_rate_ (rates w).
Proof. intros Hr%reachable_rates. split; [done|by apply optimal_in_range]. Qed.

(** The display and the layers translate the formats of buffers to those of SDM by
    two copies of the same switches: they agree on every format and every flags. *)
Theorem sdm_format_same source flags : Display_GetSDMFormat source flags = GetSDMFormat source flags.
Proof. unfold Display_GetSDMFormat, GetSDMFormat, has_flag. destruct (negb _), (GrUtils.hal_format source); reflexivity. Qed.

(** C34: after Init of the colour modes, whether it succeeded or not, and any calls that set
    modes and transforms, failing ones included, the map holds, in order, only modes of the
    HAL with only its transforms; once Init or a call for a mode succeeded the current mode
    is one of the modes the display offers, and before that it is the native mode, which the
    display need not offer. *)
Theorem color_modes_known exclude_pp set c : color_run exclude_pp set c -> modes_ok set c.
Proof. apply color_run_ok. Qed.
End Props.

(** ** On the sample *)
Import HwcSample.
(** Identifiers are left before each call. *)
Fixpoint room (l : list Call) (w : SampleWorld) : bool :=
  match l with
  | [] => true
  | c :: l => (next_id_ w + 1 <? 2 ^ 64) && match run false c w with Ret (_, w) => room l w | _ => true end
  end.
Lemma runs_rtc l : forall w w' : SampleWorld, runs l w = Ret w' -> room l w = true -> rtc (step false) w w'.
Proof.
  induction l as [|c l IH]; simpl; intros w w' E Hr; [by injection E as <-|].
  destruct (run false c w) as [[[] w1]| |] eqn:Er; try done. apply andb_prop in Hr as [Hn Hr].
  eapply rtc_l; [|by apply (IH w1)]. apply (step_call false w c); [by apply Z.ltb_lt|done].
Qed.
Lemma made_reachable l w : runs l made = Ret w -> room l made = true -> reachable false w.
Proof.
  intros E Hr. exists false, 1, before, made. split; [|split; [vm_compute; reflexivity|split; [exact made_run|by apply (runs_rtc l)]]].
  split; [by vm_compute|]. intros i h Hi. change (heap before) with (∅ : gmap Z HWCLayer) in Hi. by apply lookup_empty_Some in Hi.
Qed.
(** Two layers, the first one moved above the second, and a validation; then frames. *)
Definition two_layers : list Call :=
  [CCreateLayer; CCreateLayer; CLayer 2 (LDisplayFrame (mkIRect 0 0 100 100)); CSetLayerZOrder 2 5; CValidate].
Lemma two_layers_runs : runs two_layers made = Ret (after two_layers).
Proof. vm_compute. reflexivity. Qed.
Lemma two_layers_reach : reachable false (after two_layers).
Proof. apply (made_reachable two_layers); [exact two_layers_runs|vm_compute; reflexivity]. Qed.

Lemma hwc_layers_agree_witness : reachable false (after two_layers) /\ wf (after two_layers).
Proof. split; [exact two_layers_reach|apply (hwc_layers_agree false _ two_layers_reach)]. Defined.

Lemma committed_stack_live_witness : slayers (layer_stack_ (ls (after two_layers))) = [PLayer 3; PLayer 2; PLayer 1] /\
  Forall (palive (after two_layers)) (slayers (layer_stack_ (ls (after two_layers)))).
Proof.
  split; [vm_compute; reflexivity|]. apply (committed_stack_live false _ two_layers_reach); [vm_compute; reflexivity|].
  apply (bool_decide_unpack _). vm_compute. exact I.
Defined.

Lemma zorder_moves_witness : exists w' l1 l2, SetLayerZ 3 9 (after two_layers) = Ret (ENone, w') /\
  layer_set_ (ls w') = l1 ++ 3 :: l2 /\ layer_set_ (ls w') ≡ₚ [3; 2] /\ zval (heap w') 3 = 9 /\ wf w' /\
  (zval (heap (after two_layers)) 3 <> 9 -> Forall (fun k => 9 < zval (heap w') k) l2).
Proof.
  assert (Es : layer_set_ (ls (after two_layers)) = [3; 2]) by (vm_compute; reflexivity). rewrite <- Es.
  apply (zorder_moves false _ 3 3 9 two_layers_reach). vm_compute. reflexivity.
Defined.

(** The client asks for a cursor, and SDM composes the layer with the others. *)
Definition asked : list Call := [CCreateLayer; CCreateLayer; CLayer 2 (LCompositionType Cursor)].
Definition validated (w : SampleWorld) : SampleWorld := match Primary.Validate false w with Ret (_, w) => w | _ => w end.
Lemma asked_reach : reachable false (after asked).
Proof. apply (made_reachable asked); vm_compute; reflexivity. Qed.
Lemma asked_validate : Primary.Validate false (after asked) = Ret ((HasChanges, Some (1, 2)), validated (after asked)).
Proof. vm_compute. reflexivity. Qed.
Lemma accept_settles_witness : exists s w2, PrepareLayerStack s = Ret ((HasChanges, Some (1, 2)), validated (after asked)) /\
  as_prepared s (validated (after asked)) /\ AcceptDisplayChanges (validated (after asked)) = Ret (ENone, w2) /\
  layer_set_ (ls w2) = layer_set_ (ls (after asked)) /\
  forall i, i ∈ layer_set_ (ls (after asked)) -> exists h1 h2, heap (validated (after asked)) !! i = Some h1 /\ heap w2 !! i = Some h2 /\
    layer_ h2 = layer_ h1 /\ client_requested_ h2 = selected (layer_ h2) /\ device_selected_ h2 = selected (layer_ h2).
Proof. exact (accept_settles false (after asked) HasChanges (1, 2) (validated (after asked)) asked_reach asked_validate). Defined.

(** The frame of the two layers, committed and not yet posted. *)
Definition committed_frame : SampleWorld := match CommitLayerStack (after two_layers) with Ret (_, w) => w | _ => made end.
Definition posted : SampleWorld := match PostCommitLayerStack committed_frame with Ret (_, w) => w | _ => made end.
Lemma committed_run : CommitLayerStack (after two_layers) = Ret (ENone, committed_frame).
Proof. vm_compute. reflexivity. Qed.
Lemma committed_wf : wf committed_frame.
Proof.
  destruct (reachable_wf false _ two_layers_reach) as [Hw _].
  exact (stays_wf _ _ _ _ Hw (CommitLayerStack_keep _ (wf_shape_ids _ Hw)) committed_run).
Qed.
Lemma posted_run : PostCommitLayerStack committed_frame = Ret ((ENone, 40), posted).
Proof. vm_compute. reflexivity. Qed.
Lemma panel_untoned p : tone p = false -> untoned p.
Proof. intros Ht. split; [intros b v' [= <- _]; done|]. intros s e v1 b v' [= _ <-] [= <- _]. done. Qed.
Lemma committed_untoned : tone (sdm committed_frame) = false.
Proof. vm_compute. reflexivity. Qed.
(** Each layer is new: the -1 of its queue is handed out and the fence 30 stays. *)
Lemma committed_queue : map (queue committed_frame) (layer_set_ (ls committed_frame)) = [[-1; 30]; [-1; 30]].
Proof. vm_compute. reflexivity. Qed.
Lemma fence_delay_witness : exists w2,
  GetReleaseFences true posted = Ret ((ENone, Z.of_nat (length (layer_set_ (ls committed_frame))),
    map (fun i => (i, default (-1) (head (queue committed_frame i)))) (layer_set_ (ls committed_frame))), w2) /\
  forall i, i ∈ layer_set_ (ls committed_frame) -> exists h2, heap w2 !! i = Some h2 /\ release_fences_ h2 = tail (queue committed_frame i).
Proof. exact (fence_delay committed_frame ENone 40 posted committed_wf (panel_untoned _ committed_untoned) posted_run). Defined.

(** A layer changed after the frame was presented. *)
Definition changed_since : list Call := two_layers ++ [CPresent; CLayer 2 (LPlaneAlpha f_zero)].
Lemma changed_reach : reachable false (after changed_since).
Proof. apply (made_reachable changed_since); vm_compute; reflexivity. Qed.
Lemma stale_refused_witness : exists w', Present (after changed_since) = Ret ((NotValidated, None), w') /\ sdm w' = sdm (after changed_since).
Proof.
  apply (stale_refused false _ changed_reach); [|vm_compute; reflexivity..]. right. split; [vm_compute; reflexivity|].
  exists 2. eexists. split_and!; [apply (bool_decide_unpack _); vm_compute; exact I|vm_compute; reflexivity|vm_compute; reflexivity].
Defined.

(** A rate forced by the client; the frame after it. *)
Definition forced : list Call := [CCreateLayer; CPerform (SET_BINDER_DYN_REFRESH_RATE 48); CValidate].
Lemma forced_reach : reachable false (after forced).
Proof. apply (made_reachable forced); vm_compute; reflexivity. Qed.
Lemma rates_in_range_witness : force_refresh_rate_ (rates (after forced)) = 48 /\ rates_ok (rates (after forced)) /\
  min_refresh_rate_ (rates (after forced)) <= GetOptimalRefreshRate (rates (after forced)) true <= max_refresh_rate_ (rates (after forced)).
Proof. split; [vm_compute; reflexivity|exact (rates_in_range false (after forced) true forced_reach)]. Defined.

(** The two modes of the sample, and sRGB set after Init. *)
Definition colors (m : St Panel (Error * HWCColorMode)) : HWCColorMode :=
  match m panel0 with Ret ((_, c), _) => c | _ => new_HWCColorMode end.
Definition color0 : HWCColorMode := colors (HwcColor.Init false new_HWCColorMode).
Definition color1 : HWCColorMode := colors (HwcColor.SetColorMode HAL_COLOR_MODE_SRGB color0).
Lemma color1_run : color_run (V := Panel) false true color1.
Proof.
  eapply (run_mode false true color0 HAL_COLOR_MODE_SRGB panel0 ENone); [|vm_compute; reflexivity].
  eapply (run_init false panel0 ENone). vm_compute. reflexivity.
Qed.
Lemma color_modes_known_witness : current_color_mode_ color1 = HAL_COLOR_MODE_SRGB /\ modes_ok true color1.
Proof. split; [vm_compute; reflexivity|exact (color_modes_known (V := Panel) false true color1 color1_run)]. Defined.

(** ** What the calls of a client can lead to *)

(** A layer that is changed after a validation and before the frame is presented: the
    display's own changes are looked at, not the layer's, so no validation is asked
    for, and SDM commits a frame that it did not prepare. *)
Definition unvalidated : list Call := two_layers ++ [CPresent; CValidate; CLayer 2 (LDisplayFrame (mkIRect 0 0 200 200)); CPresent].
Lemma unvalidated_commit : last (committed (sdm (after unvalidated))) <> last (prepared (sdm (after unvalidated))).
Proof. vm_compute. discriminate. Qed.

(** A validation whose changes name a layer that was destroyed: accepting them makes a
    null entry in the map, and the next call that names the layer uses it. *)
Definition null_entry : list Call :=
  [CCreateLayer; CCreateLayer; CLayer 2 (LCompositionType Cursor); CValidate; CDestroyLayer 2; CToggleScreenUpdates false; CValidate;
   CAcceptChanges].
Lemma null_entry_used : layer_map_ (ls (after null_entry)) !! 2 = Some None /\ runs (null_entry ++ [CSetLayerZOrder 2 1]) made = Undef.
Proof. vm_compute. split; reflexivity. Qed.

(** SDM has changed its mode when the transform fails; the object keeps the old mode,
    and setting that again does not tell SDM. *)
Definition stuck : Panel := panel0 <| transform_error := kErrorHardware |>.
Lemma color_mode_stuck : exists c1 p1 c2 p2,
  HwcColor.SetColorMode HAL_COLOR_MODE_SRGB color0 stuck = Ret ((Unsupported, c1), p1) /\ current_color_mode_ c1 = HAL_COLOR_MODE_NATIVE /\
  told p1 = ["hal_srgb_identity"%string] /\
  HwcColor.SetColorMode HAL_COLOR_MODE_NATIVE c1 (p1 <| transform_error := kErrorNone |>) = Ret ((ENone, c2), p2) /\ told p2 = told p1.
Proof. do 4 eexists. vm_compute. split_and!; reflexivity. Qed.
End HwcProps.
