(* ===== verification/Cec.v ===== *)
(** The HDMI CEC HAL: src/hardware/qcom-caf/display/hdmi_cec/qhdmi_cec.cpp.

    The context is the one object of the device, shared by the calls of the
    framework and by the thread that monitors events; a call and a turn of the
    thread are each one step.  The kernel (sysfs nodes, sockets, poll, the eventfd)
    and the framework's callback are the class [CecKernel] with a state of its own;
    the constants of the HAL's header are the class [CecHal].  Bytes are unsigned
    numbers; whether char is signed is the parameter [char_signed].  A buffer on the
    stack is a list in which [None] is a byte that was not written. *)
From S2P Require Import Prelude.
From stdpp Require Import pretty.
#[local] Open Scope Z_scope.

Module Cec.
Open Scope string_scope.
Open Scope list_scope.
Open Scope Z_scope.

Class CecHal := {
  HDMI_CEC_HARDWARE_INTERFACE : string; CEC_ADDR_TV : Z; CEC_ADDR_BROADCAST : Z; CEC_MESSAGE_BODY_MAX_LENGTH : nat;
  HDMI_OPTION_WAKEUP : Z; HDMI_OPTION_ENABLE_CEC : Z; HDMI_OPTION_SYSTEM_CEC_CONTROL : Z
}.
Inductive SendResult := HDMI_RESULT_SUCCESS | HDMI_RESULT_NACK | HDMI_RESULT_BUSY | HDMI_RESULT_FAIL.

(** cec_message_t; the body has CEC_MESSAGE_BODY_MAX_LENGTH bytes.  In an event the
    body is as far as it was written. *)
Record Message := mkMessage { initiator : Z; destination : Z; msg_length : Z; body : list Z }.
Inductive Event := CecMessage (m : Message) | HotPlug (connected : bool).

(** Errors are negative numbers of errno; [sys_fread] is fopen, fread of at most
    the given number of bytes and fclose, [None] when the file cannot be opened;
    [sys_pread] and [sys_recv] are [None] on an error. *)
Class CecKernel (K : Type) := {
  sys_access : string -> St K Z;
  sys_fread : string -> nat -> St K (option (list Z));
  sys_open : string -> St K Z;
  sys_write : Z -> list Z -> St K Z;
  sys_close : Z -> St K unit;
  sys_pread : Z -> nat -> St K (option (list Z));
  sys_recv : Z -> nat -> St K (option (list Z));
  sys_socket : St K Z;
  sys_bind : Z -> St K Z;
  sys_eventfd : St K Z;
  sys_poll : list (Z * Z) -> St K (Z * list Z);
  sys_calloc : St K bool;
  thread_join : St K unit;
  callback_call : Z -> Z -> Event -> St K unit
}.

Definition MAX_SYSFS_DATA : nat := 128.
Definition MAX_CEC_FRAME_SIZE : nat := 20.
Definition MAX_SEND_MESSAGE_RETRIES : nat := 1.
Definition MAX_STRING_LENGTH : nat := 1024.
Definition PAGE_SIZE : nat := 4096.
Definition SYSFS_BASE : string := "/sys/devices/virtual/graphics/fb".
Definition UEVENT_SWITCH_HDMI : string := "change@/devices/virtual/switch/hdmi".
Definition FB_PATH : string := "/sys/devices/virtual/graphics/fb".
Definition LOGICAL_ADDRESS_SET : Z := 1.
Definition LOGICAL_ADDRESS_UNSET : Z := -1.
Definition CEC_OFFSET_SENDER_ID : nat := 0.
Definition CEC_OFFSET_RECEIVER_ID : nat := 1.
Definition CEC_OFFSET_OPCODE : nat := 2.
Definition CEC_OFFSET_OPERAND : nat := 3.
Definition CEC_OFFSET_FRAME_LENGTH : nat := 17.
Definition POLLIN : Z := 1.
Definition POLLPRI : Z := 2.
Definition POLLERR : Z := 8.
Definition EINVAL : Z := 22.
Definition ENXIO : Z := 6.
Definition EAGAIN : Z := 11.

Definition bytes (s : string) : list Z := (fun c => Z.of_N (Ascii.N_of_ascii c)) <$> String.list_ascii_of_string s.

(** ** The context *)
Record Port := mkPort { ptype_output : bool; port_id : Z; cec_supported : Z; arc_supported : Z; physical_address : Z }.
Record PollFd := mkPollFd { pfd : Z; pevents : Z; revents : Z }.
#[global] Instance eta_pollfd : Eta PollFd := fun p => mkPollFd (pfd p) (pevents p) (revents p).
Inductive Parser := handle_cec_msg | handle_hdmihotplug | handle_exit.
#[global] Instance parser_eq_dec : EqDecision Parser.
Proof. solve_decision. Defined.
Record Ctx := mkCtx {
  callback : option (Z * Z); enabled : bool; arc_enabled : bool; system_control : bool; fb_num : Z; fb_sysfs_path : string;
  port_info : option Port; logical_address : list Z; version : Z; vendor_id : Z; poll_fds : list PollFd; exit_fd : Z;
  cec_exit_thread : bool; monitor : bool; data : list Z; node_list : list string; event_data_list : list (string * option Parser)
}.
#[global] Instance eta_ctx : Eta Ctx := fun c =>
  mkCtx (callback c) (enabled c) (arc_enabled c) (system_control c) (fb_num c) (fb_sysfs_path c) (port_info c) (logical_address c)
    (version c) (vendor_id c) (poll_fds c) (exit_fd c) (cec_exit_thread c) (monitor c) (data c) (node_list c) (event_data_list c).
Record World (K : Type) := mkCecWorld { ctx : Ctx; krn : K }.
Arguments mkCecWorld {K}.
Arguments ctx {K}.
Arguments krn {K}.
#[global] Instance eta_cec_world {K} : Eta (World K) := fun w => mkCecWorld (ctx w) (krn w).

(** ** Characters *)
Abbreviation Buf := (list (option Z)).
Definition uninit (n : nat) : Buf := replicate n None.
Definition is_digit (c : Z) : bool := (48 <=? c) && (c <=? 57).
Definition is_space (c : Z) : bool := (c =? 32) || ((9 <=? c) && (c <=? 13)).

(** atoi reads up to the first byte that does not belong to the number; a number
    that is not an int is undefined behaviour. *)
Fixpoint atoi_digits (l : Buf) (acc : Z) : outcome Z :=
  match l with
  | Some c :: l => if is_digit c then atoi_digits l (acc * 10 + (c - 48)) else Ret acc
  | _ => Undef
  end.
Fixpoint atoi (l : Buf) : outcome Z :=
  match l with
  | Some c :: l' =>
      if is_space c then atoi l'
      else if c =? 45 then n ← atoi_digits l' 0; int_expr (- n)
      else if c =? 43 then n ← atoi_digits l' 0; int_expr n
      else n ← atoi_digits l 0; int_expr n
  | _ => Undef
  end.
(** Whether strncmp of the buffer and a text, with the length of the text, is 0. *)
Fixpoint strncmp_eq (l : Buf) (s : list Z) : outcome bool :=
  match s with
  | [] => Ret true
  | c :: s =>
      match l with
      | Some b :: l => if b =? c then strncmp_eq l s else Ret false
      | _ => Undef
      end
  end.
(** The C string at the start of a buffer and what follows its NUL. *)
Fixpoint c_string (l : Buf) : outcome (list Z * Buf) :=
  match l with
  | Some c :: l => if c =? 0 then Ret ([], l) else '(s, r) ← c_string l; Ret (c :: s, r)
  | _ => Undef
  end.
Definition has_prefix (p l : list Z) : bool := bool_decide (take (length p) l = p).
(** Whether strstr finds the text. *)
Fixpoint strstr (l p : list Z) : bool :=
  has_prefix p l || match l with [] => false | _ :: l => strstr l p end.
Definition lower (c : Z) : Z := if (65 <=? c) && (c <=? 90) then c + 32 else c.
Definition strcasestr (l p : list Z) : bool := strstr (lower <$> l) (lower <$> p).
(** Writing to a buffer. *)
Definition put_bytes (b : Buf) (i : nat) (l : list Z) : outcome Buf :=
  if (i + length l <=? length b)%nat then Ret (take i b ++ (Some <$> l) ++ drop (i + length l) b) else Undef.

Section Cec.
Context `{!CecHal} {K : Type} `{!CecKernel K}.
Context (char_signed : bool).
Abbreviation M := (St (World K)).

Definition in_k {A} (m : St K A) : M A := fun w =>
  match m (krn w) with Ret (a, k) => Ret (a, w <| krn := k |>) | Undef => Undef | NoFuel => NoFuel end.
Definition on_ctx (f : Ctx -> Ctx) : M unit := st_modify (fun w => w <| ctx ::= f |>).

(** ** Nodes of sysfs *)

(** The result and the buffer; the result of an access that fails is -1, and 0 when
    the file cannot be opened: the buffer is then as it was. *)
Definition read_node (path : string) (d : Buf) : M (Z * Buf) :=
  err ← in_k (sys_access path);
  if err =? 0 then
    r ← in_k (sys_fread path MAX_SYSFS_DATA);
    match r with
    | Some l => d ← st_lift (put_bytes d 0 l); mret (Z.of_nat (length l), d)
    | None => mret (0, d)
    end
  else mret (-1, d).
Definition write_node (path : string) (d : list Z) : M Z :=
  err ← in_k (sys_access path);
  if err =? 0 then
    fd ← in_k (sys_open path);
    err ← in_k (sys_write fd d);
    _ ← in_k (sys_close fd);
    mret err
  else mret err.
Definition write_int_to_node (path_postfix : string) (value : Z) : M Z :=
  p ← st_gets (fun w => fb_sysfs_path (ctx w));
  write_node (p +:+ "/" +:+ path_postfix) (bytes (pretty value)).

(** What %02X prints of a char, which is first converted to int. *)
Definition hex_digit (d : Z) : Z := if d <? 10 then 48 + d else 55 + d.
Definition hex_text (c : Z) : list Z :=
  (if char_signed && (128 <=? c) then replicate 6 70 else []) ++ [hex_digit (c / 16); hex_digit (c mod 16)].
(** snprintf writes two characters and a NUL and returns the length of the text. *)
Fixpoint hex_loop (msg : list Z) (ptr : nat) (str : Buf) : outcome Buf :=
  match msg with
  | [] => Ret str
  | c :: msg =>
      str ← put_bytes str ptr (take 2 (hex_text c) ++ [0]);
      let ptr := (ptr + length (hex_text c))%nat in
      str ← (match msg with [] => Ret str | _ => put_bytes str ptr [58] end);
      hex_loop msg (S ptr) str
  end.
(** [len] bytes of [msg]. *)
Definition hex_to_string (msg : list Z) (len : nat) (str : Buf) : outcome Buf :=
  if (len <=? length msg)%nat then hex_loop (take len msg) 0 str else Undef.

(** ** The node of the panel *)
Fixpoint fb_loop (n : nat) (num : Z) (fb_type : Buf) (len : Z) : M Z :=
  match n with
  | O => mret len
  | S n =>
      f ← st_gets (fun w => fb_num (ctx w));
      '(len, fb_type) ← read_node (SYSFS_BASE +:+ pretty f +:+ "/msm_fb_type") fb_type;
      dtv ← (if 0 <? len then st_lift (strncmp_eq fb_type (bytes "dtv panel")) else mret false);
      if (dtv : bool) then
        _ ← on_ctx (fun c => c <| fb_num := num |> <| fb_sysfs_path := SYSFS_BASE +:+ pretty num |>);
        mret len
      else fb_loop n (num + 1) fb_type len
  end.
Definition cec_get_fb_node_number : M Z :=
  len ← fb_loop 2 0 (uninit MAX_SYSFS_DATA) 0;
  mret (if len <? 0 then len else 0).

(** ** Addresses *)
Definition cec_add_logical_address (addr : Z) : M Z :=
  if (addr <? CEC_ADDR_TV) || (CEC_ADDR_BROADCAST <? addr) then mret (- EINVAL)
  else
    l ← st_gets (fun w => logical_address (ctx w));
    if (0 <=? addr) && (addr <? length l) then
      _ ← on_ctx (fun c => c <| logical_address ::= <[Z.to_nat addr := LOGICAL_ADDRESS_SET]> |>);
      write_int_to_node "cec/logical_addr" addr
    else st_undef.
Definition cec_clear_logical_address : M unit :=
  _ ← on_ctx (fun c => c <| logical_address ::= map (fun _ => LOGICAL_ADDRESS_UNSET) |>);
  _ ← write_int_to_node "cec/logical_addr" 15;
  mret tt.
(** The status and the address. *)
Definition cec_get_physical_address : M (Z * Z) :=
  p ← st_gets (fun w => fb_sysfs_path (ctx w));
  '(err, d) ← read_node (p +:+ "/pa") (uninit MAX_SYSFS_DATA);
  a ← st_lift (atoi d);
  mret (if err <? 0 then err else 0, u16 a).
Definition cec_is_connected : M Z :=
  p ← st_gets (fun w => fb_sysfs_path (ctx w));
  '(err, d) ← read_node (p +:+ "/connected") (uninit MAX_SYSFS_DATA);
  connected ← st_lift (atoi d);
  mret (if err <? 0 then err else connected).

(** ** Messages *)

(** The frame for the driver. *)
Definition write_msg (m : Message) : outcome (list Z) :=
  let f := replicate MAX_CEC_FRAME_SIZE 0 in
  let f := <[CEC_OFFSET_SENDER_ID := u8 (initiator m)]> f in
  let f := <[CEC_OFFSET_RECEIVER_ID := u8 (destination m)]> f in
  match body m with
  | [] => Undef
  | opcode :: operands =>
      let f := <[CEC_OFFSET_OPCODE := opcode]> f in
      let n := Z.to_nat (msg_length m - 1) in
      f ← (if 1 <? msg_length m then
             if ((n <=? length operands) && (CEC_OFFSET_OPERAND + n <=? length f))%nat then
               Ret (take CEC_OFFSET_OPERAND f ++ take n operands ++ drop (CEC_OFFSET_OPERAND + n) f)
             else Undef
           else Ret f);
      Ret (<[CEC_OFFSET_FRAME_LENGTH := u8 (msg_length m + 1)]> f)
  end.
(** The write and at most [n] more when the line is busy. *)
Fixpoint send_loop (n : nat) (m : Message) (path : string) (frame : list Z) : M Z :=
  err ← (if initiator m =? destination m then mret (- ENXIO) else write_node path frame);
  if err =? - EAGAIN then match n with S n => send_loop n m path frame | O => mret err end else mret err.
Definition cec_send_message (m : Message) : M SendResult :=
  c ← cec_is_connected;
  if c <=? 0 then mret HDMI_RESULT_FAIL
  else
    _ ← st_lift (if 0 <? msg_length m then hex_to_string (body m) (Z.to_nat (msg_length m)) (uninit 128) else Ret []);
    f ← st_lift (write_msg m);
    _ ← st_lift (hex_to_string f MAX_CEC_FRAME_SIZE (uninit 128));
    p ← st_gets (fun w => fb_sysfs_path (ctx w));
    err ← send_loop MAX_SEND_MESSAGE_RETRIES m (p +:+ "/cec/wr_msg") f;
    mret (if err <? 0 then
            if err =? - ENXIO then HDMI_RESULT_NACK else if err =? - EAGAIN then HDMI_RESULT_BUSY else HDMI_RESULT_FAIL
          else HDMI_RESULT_SUCCESS).

(** The callback may be null. *)
Definition call_back (e : Event) : M unit :=
  c ← st_gets (fun w => callback (ctx w));
  match c with None => st_undef | Some (func, arg) => in_k (callback_call func arg e) end.
(** A char as an int; an int as a size_t. *)
Definition char_int (c : Z) : Z := if char_signed && (128 <=? c) then c - 256 else c.
Definition cec_receive_message (msg : list Z) (len : Z) : M unit :=
  s ← st_gets (fun w => system_control (ctx w));
  if negb s then mret tt
  else
    _ ← st_lift (if 0 <? len then hex_to_string msg (Z.to_nat len) (uninit 128) else Ret []);
    match msg !! CEC_OFFSET_FRAME_LENGTH, msg !! CEC_OFFSET_SENDER_ID, msg !! CEC_OFFSET_RECEIVER_ID with
    | Some l, Some i, Some d =>
        let n := u64 (char_int l - 1) in
        let copy_size := if CEC_MESSAGE_BODY_MAX_LENGTH <? n then CEC_MESSAGE_BODY_MAX_LENGTH else Z.to_nat n in
        let b := take copy_size (drop CEC_OFFSET_OPCODE msg) in
        if (length b <? copy_size)%nat then st_undef
        else
          _ ← st_lift (hex_to_string b copy_size (uninit 128));
          call_back (CecMessage (mkMessage (char_int i) (char_int d) n b))
    | _, _, _ => st_undef
    end.
Definition cec_hdmi_hotplug (connected : Z) : M unit :=
  s ← st_gets (fun w => system_control (ctx w));
  if negb s && (connected =? 0) then mret tt else call_back (HotPlug (negb (connected =? 0))).

(** ** Requests of the framework *)
Definition cec_register_event_callback (func arg : Z) : M unit :=
  on_ctx (fun c => c <| callback := if func =? 0 then None else Some (func, arg) |>).
Definition cec_get_version : M Z := st_gets (fun w => version (ctx w)).
Definition cec_get_vendor_id : M Z := st_gets (fun w => vendor_id (ctx w)).
Definition cec_get_port_info : M (Z * option Port) := st_gets (fun w => (1, port_info (ctx w))).
Definition cec_enable (enable : bool) : M Z :=
  err ← write_int_to_node "cec/enable" (if enable then 3 else 0);
  if err <? 0 then mret err else _ ← on_ctx (fun c => c <| enabled := enable |>); mret 0.
Definition cec_set_option (flag value : Z) : M unit :=
  if flag =? HDMI_OPTION_WAKEUP then mret tt
  else if flag =? HDMI_OPTION_ENABLE_CEC then _ ← cec_enable (negb (value =? 0)); mret tt
  else if flag =? HDMI_OPTION_SYSTEM_CEC_CONTROL then on_ctx (fun c => c <| system_control := negb (value =? 0) |>)
  else mret tt.
Definition cec_set_audio_return_channel (port flag : Z) : M unit :=
  on_ctx (fun c => c <| arc_enabled := negb (flag =? 0) |>).

(** ** Events *)

(** The value of the first string that holds [info]; the strings follow each other. *)
Fixpoint value_loop (fuel : nat) (l : Buf) (pos length_ : Z) (info : list Z) : outcome Z :=
  match fuel with
  | O => NoFuel
  | S fuel =>
      if pos <=? length_ then
        match l with
        | Some 0 :: _ => Ret (-1)
        | Some _ :: _ =>
            '(s, r) ← c_string l;
            if strstr s info then atoi (drop (length info) l) else value_loop fuel r (pos + (length s + 1)) length_ info
        | _ => Undef
        end
      else Ret (-1)
  end.
Definition get_event_value (uevent_data : Buf) (length_ : Z) (info : list Z) : outcome Z :=
  value_loop (S (length uevent_data)) uevent_data 0 length_ info.

(** Reading the message of the driver over the last one. *)
Definition store_data (l old : list Z) : list Z := l ++ drop (length l) old.
Definition handle_cec_msg_event (node_event : nat) : M unit :=
  fds ← st_gets (fun w => poll_fds (ctx w));
  match fds !! node_event with
  | None => st_undef
  | Some p =>
      if negb (Z.land (revents p) POLLPRI =? 0) then
        r ← in_k (sys_pread (pfd p) MAX_STRING_LENGTH);
        match r with
        | Some (b :: l) =>
            _ ← on_ctx (fun c => c <| data ::= store_data (b :: l) |>);
            d ← st_gets (fun w => data (ctx w));
            cec_receive_message d 0
        | _ => mret tt
        end
      else mret tt
  end.
Definition handle_hdmihotplug_event (node_event : nat) : M unit :=
  fds ← st_gets (fun w => poll_fds (ctx w));
  match fds !! node_event with
  | None => st_undef
  | Some p =>
      if negb (Z.land (revents p) POLLIN =? 0) then
        r ← in_k (sys_recv (pfd p) (PAGE_SIZE - 2));
        match r with
        | Some (b :: l) =>
            d ← st_lift (put_bytes (uninit PAGE_SIZE) 0 (b :: l));
            '(s, _) ← st_lift (c_string d);
            if strcasestr (bytes UEVENT_SWITCH_HDMI) s then
              c ← st_lift (get_event_value d (Z.of_nat (length (b :: l))) (bytes "SWITCH_STATE="));
              cec_hdmi_hotplug c
            else mret tt
        | _ => mret tt
        end
      else mret tt
  end.
Definition handle_exit_event (node_event : nat) : M unit :=
  fds ← st_gets (fun w => poll_fds (ctx w));
  match fds !! node_event with
  | None => st_undef
  | Some p => if negb (Z.land (revents p) POLLIN =? 0) then on_ctx (fun c => c <| cec_exit_thread := true |>) else mret tt
  end.
Definition event_parser (p : Parser) : nat -> M unit :=
  match p with
  | handle_cec_msg => handle_cec_msg_event
  | handle_hdmihotplug => handle_hdmihotplug_event
  | handle_exit => handle_exit_event
  end.

(** The descriptor, or [None]. *)
Definition uevent_init : M (option Z) :=
  s ← in_k sys_socket;
  if s <? 0 then mret None
  else
    r ← in_k (sys_bind s);
    if r <? 0 then _ ← in_k (sys_close s); mret None
    else mret (if 0 <? s then Some s else None).
(** The status and the parser. *)
Definition set_event_params (node_event : nat) (name : string) : M (Z * option Parser) :=
  let store p := on_ctx (fun c => c <| poll_fds ::= <[node_event := p]> |>) in
  if String.prefix "cec_msg_event" name then
    n ← st_gets (fun w => fb_num (ctx w));
    fd ← in_k (sys_open (FB_PATH +:+ pretty n +:+ "/cec/rd_msg"));
    if fd <? 0 then mret (-1, None)
    else
      r ← in_k (sys_pread fd MAX_STRING_LENGTH);
      _ ← (match r with Some l => on_ctx (fun c => c <| data ::= store_data l |>) | None => mret tt end);
      _ ← store (mkPollFd fd (Z.lor POLLPRI POLLERR) 0);
      mret (0, Some handle_cec_msg)
  else if String.prefix "hotplug_event" name then
    r ← uevent_init;
    match r with
    | None => mret (-1, None)
    | Some fd => _ ← store (mkPollFd fd (Z.lor POLLIN POLLERR) 0); mret (0, Some handle_hdmihotplug)
    end
  else if String.prefix "exit_event" name then
    fd ← in_k sys_eventfd;
    _ ← on_ctx (fun c => c <| exit_fd := fd |>);
    _ ← store (mkPollFd fd POLLIN 0);
    mret (0, Some handle_exit)
  else _ ← store (mkPollFd (- EINVAL) 0 0); mret (0, None).
Fixpoint populate_loop (names : list string) (event : nat) : M Z :=
  match names with
  | [] => mret 0
  | name :: names =>
      '(err, parser) ← set_event_params event name;
      if err <? 0 then mret err
      else _ ← on_ctx (fun c => c <| event_data_list ::= fun l => l ++ [(name, parser)] |>); populate_loop names (S event)
  end.
Definition populate_event_data : M Z :=
  names ← st_gets (fun w => node_list (ctx w));
  _ ← on_ctx (fun c => c <| poll_fds ::= fun l => take (length names) l ++ replicate (length names - length l) (mkPollFd 0 0 0) |>);
  populate_loop names 0.

(** ** Opening and closing *)

(** calloc; members are zero. *)
Definition new_ctx : Ctx :=
  mkCtx None false false false 0 "" None (replicate (Z.to_nat CEC_ADDR_BROADCAST) 0) 0 0 [] 0 false false
    (replicate MAX_STRING_LENGTH 0) [] [].
Definition cec_init_context : M unit :=
  _ ← cec_get_fb_node_number;
  '(_, pa) ← cec_get_physical_address;
  _ ← on_ctx (fun c => c <| port_info := Some (mkPort true 1 1 0 pa) |> <| version := 6 |> <| vendor_id := 0xA47733 |>);
  _ ← cec_clear_logical_address;
  _ ← cec_enable true;
  _ ← on_ctx (fun c => c <| node_list ::= fun l => l ++ ["cec_msg_event"; "hotplug_event"; "exit_event"] |>);
  err ← populate_event_data;
  if err <? 0 then _ ← cec_enable false; mret tt
  else on_ctx (fun c => c <| monitor := true |>).
Definition cec_device_open (name : string) : M Z :=
  if String.eqb name HDMI_CEC_HARDWARE_INTERFACE then
    dev ← in_k sys_calloc;
    if (dev : bool) then _ ← on_ctx (fun _ => new_ctx); _ ← cec_init_context; mret 0 else mret (- EINVAL)
  else mret (- EINVAL).
(** The eight bytes of 1; the context is freed after it. *)
Definition cec_close_context : M unit :=
  fd ← st_gets (fun w => exit_fd (ctx w));
  n ← in_k (sys_write fd [1; 0; 0; 0; 0; 0; 0; 0]);
  if negb (n =? 8) then mret tt
  else
    m ← st_gets (fun w => monitor (ctx w));
    if (m : bool) then _ ← in_k thread_join; on_ctx (fun c => c <| monitor := false |>) else mret tt.
Definition cec_device_close (dev : bool) : M Z := if negb dev then mret (- EINVAL) else _ ← cec_close_context; mret 0.

(** ** The thread *)
Fixpoint deinit_loop (n event : nat) : M unit :=
  match n with
  | O => mret tt
  | S n =>
      fds ← st_gets (fun w => poll_fds (ctx w));
      match fds !! event with
      | None => st_undef
      | Some p =>
          _ ← in_k (sys_close (pfd p));
          _ ← on_ctx (fun c => c <| poll_fds ::= <[event := p <| pfd := -1 |>]> |>);
          deinit_loop n (S event)
      end
  end.
Definition cec_monitor_deinit : M unit :=
  fds ← st_gets (fun w => poll_fds (ctx w)); deinit_loop (length fds) 0.
(** The parsers of the events that occurred. *)
Fixpoint events_loop (n event : nat) : M unit :=
  match n with
  | O => mret tt
  | S n =>
      c ← st_gets ctx;
      match poll_fds c !! event, event_data_list c !! event with
      | Some p, Some (_, parser) =>
          _ ← (if negb (Z.land (revents p) POLLIN =? 0) || negb (Z.land (revents p) POLLPRI =? 0) then
                 match parser with Some f => event_parser f event | None => st_undef end
               else mret tt);
          events_loop n (S event)
      | _, _ => st_undef
      end
  end.
Definition set_revents (l : list Z) (fds : list PollFd) : list PollFd :=
  imap (fun i p => match l !! i with Some v => p <| revents := v |> | None => p end) fds.
(** One turn of the loop. *)
Definition monitor_turn : M unit :=
  c ← st_gets ctx;
  '(err, r) ← in_k (sys_poll (map (fun p => (pfd p, pevents p)) (take (length (event_data_list c)) (poll_fds c))));
  if err <=? 0 then mret tt
  else
    _ ← on_ctx (fun c => c <| poll_fds ::= set_revents r |>);
    n ← st_gets (fun w => length (event_data_list (ctx w)));
    events_loop n 0.
Fixpoint event_monitor (fuel : nat) : M unit :=
  x ← st_gets (fun w => cec_exit_thread (ctx w));
  if (x : bool) then cec_monitor_deinit
  else match fuel with
  | O => fun _ => NoFuel
  | S fuel => _ ← monitor_turn; event_monitor fuel
  end.
End Cec.
End Cec.
