(* ===== verification/CecProps.v ===== *)
(** The properties of the HDMI CEC HAL: what is sent is what is received, how the
    state of the switch is read from an event of the kernel, and the setup of the
    monitoring thread; with a small kernel on which they are evaluated. *)
From S2P Require Import Prelude Cec.
From stdpp Require Import pretty.
#[local] Open Scope Z_scope.

Module CecProps.
Import Cec.
Open Scope string_scope.
Open Scope list_scope.
Open Scope Z_scope.

Section Frames.
Context `{!CecHal} {K : Type} `{!CecKernel K}.
Abbreviation W := (World K).

(** ** Buffers *)
Lemma put_bytes_fits b i l : (i + length l <= length b)%nat -> exists b', put_bytes b i l = Ret b' /\ length b' = length b.
Proof.
  intros Hl. unfold put_bytes. rewrite (proj2 (Nat.leb_le _ _) Hl). eexists. split; [done|].
  rewrite !length_app, length_fmap, length_take, length_drop. lia.
Qed.
(** Three bytes for a character where char is unsigned. *)
Lemma hex_loop_fits msg : forall ptr str, (ptr + 3 * length msg <= length str)%nat ->
  exists str', hex_loop false msg ptr str = Ret str' /\ length str' = length str.
Proof.
  induction msg as [|c msg IH]; intros ptr str Hl; simpl in *; [by exists str|].
  destruct (put_bytes_fits str ptr [hex_digit (c / 16); hex_digit (c mod 16); 0]) as (s1 & E1 & L1); [simpl; lia|].
  rewrite E1. simpl. destruct msg as [|d msg]; [by exists s1|].
  destruct (put_bytes_fits s1 (ptr + 2) [58]) as (s2 & E2 & L2); [simpl in *; lia|]. rewrite E2. simpl.
  destruct (IH (S (ptr + 2)) s2) as (s3 & E3 & L3); [simpl in *; lia|]. exists s3. split; [exact E3|congruence].
Qed.
Lemma hex_fits msg len : (len <= length msg)%nat -> (len <= 42)%nat -> exists s, hex_to_string false msg len (uninit 128) = Ret s.
Proof.
  intros Hl Hn. unfold hex_to_string. rewrite (proj2 (Nat.leb_le _ _) Hl).
  destruct (hex_loop_fits (take len msg) 0 (uninit 128)) as (s & E & _); [|eauto].
  rewrite length_take. change (length (uninit 128)) with 128%nat. lia.
Qed.

(** ** Frames *)
Context (body_max : CEC_MESSAGE_BODY_MAX_LENGTH = 16%nat).
Record sendable (m : Message) : Prop := mkSendable {
  send_initiator : 0 <= initiator m < 16;
  send_destination : 0 <= destination m < 16;
  send_length : 0 <= msg_length m <= 15;
  send_body : length (body m) = 16%nat
}.
Definition frame (m : Message) (opcode : Z) (operands : list Z) : list Z :=
  [initiator m; destination m; opcode] ++ operands ++ replicate (14 - length operands) 0 ++ [msg_length m + 1; 0; 0].
Lemma write_msg_frame m : sendable m -> exists opcode rest, body m = opcode :: rest /\
  write_msg m = Ret (frame m opcode (take (Z.to_nat (msg_length m - 1)) rest)).
Proof.
  intros [Hi Hd Hn Hb]. unfold write_msg. destruct (body m) as [|opcode rest]; [done|]. exists opcode, rest. split; [done|].
  rewrite (uwrap_small 8 (initiator m)), (uwrap_small 8 (destination m)), (uwrap_small 8 (msg_length m + 1)) by (pow2_num; lia).
  simpl in Hb. injection Hb as Hb. set (n := Z.to_nat (msg_length m - 1)). unfold MAX_CEC_FRAME_SIZE, frame.
  assert (Hlen : length (take n rest) = n) by (rewrite length_take; lia). rewrite Hlen.
  destruct (Z.ltb_spec 1 (msg_length m)) as [Hl|Hl].
  - assert (Hn14 : (n <= 14)%nat) by lia. assert (Hbd : ((n <=? length rest) && (3 + n <=? 20))%nat = true).
    { apply andb_true_intro. split; apply Nat.leb_le; lia. }
    cbn [replicate insert list_insert CEC_OFFSET_SENDER_ID CEC_OFFSET_RECEIVER_ID CEC_OFFSET_OPCODE CEC_OFFSET_OPERAND length].
    unfold CEC_OFFSET_OPERAND. rewrite Hbd. cbn [mbind outcome_bind]. f_equal. clear Hbd.
    revert Hlen. generalize (take n rest). intros l Hlen. clearbody n. clear Hb Hl rest.
    do 15 (destruct l as [|? l]; [simpl in Hlen; subst n; reflexivity|]). simpl in Hlen. lia.
  - assert (n = 0%nat) as -> by lia. reflexivity.
Qed.

(** What the driver has of a frame is given to the framework. *)
Lemma receive_frame (m : Message) opcode rest old (w : W) func arg : sendable m -> body m = opcode :: rest ->
  system_control (ctx w) = true -> callback (ctx w) = Some (func, arg) ->
  cec_receive_message false (store_data (frame m opcode (take (Z.to_nat (msg_length m - 1)) rest)) old) 0 w =
    in_k (callback_call func arg
      (CecMessage (mkMessage (initiator m) (destination m) (msg_length m) (take (Z.to_nat (msg_length m)) (body m))))) w.
Proof.
  intros [Hi Hd Hn Hb] Hbody Hs Hc. rewrite Hbody in *. simpl in Hb. injection Hb as Hb.
  unfold cec_receive_message, st_gets. rewrite (st_bind_Ret _ _ w _ w eq_refl), Hs. cbn [negb Z.ltb Z.compare].
  rewrite (st_bind_Ret _ _ w [] w) by done. set (n := Z.to_nat (msg_length m - 1)).
  assert (Hlen : length (take n rest) = n) by (rewrite length_take; lia).
  assert (Hn14 : (n <= 14)%nat) by lia. unfold store_data. set (tail := drop _ old).
  assert (E17 : (frame m opcode (take n rest) ++ tail) !! CEC_OFFSET_FRAME_LENGTH = Some (msg_length m + 1)).
  { unfold frame. rewrite Hlen. clearbody tail. revert Hlen Hn14. generalize (take n rest). generalize n. clear. intros n l Hlen Hn14.
    do 15 (destruct l as [|? l]; [simpl in Hlen; subst n; reflexivity|]). simpl in Hlen. lia. }
  assert (E0 : (frame m opcode (take n rest) ++ tail) !! CEC_OFFSET_SENDER_ID = Some (initiator m)) by done.
  assert (E1 : (frame m opcode (take n rest) ++ tail) !! CEC_OFFSET_RECEIVER_ID = Some (destination m)) by done.
  rewrite E17, E0, E1.
  unfold char_int. cbn [andb]. rewrite (uwrap_small 64 (msg_length m + 1 - 1)) by (pow2_num; lia).
  replace (msg_length m + 1 - 1) with (msg_length m) by lia. rewrite body_max.
  destruct (Z.ltb_spec 16%nat (msg_length m)); [lia|]. set (k := Z.to_nat (msg_length m)).
  assert (Eb : take k (drop CEC_OFFSET_OPCODE (frame m opcode (take n rest) ++ tail)) = take k (opcode :: rest)).
  { unfold frame, CEC_OFFSET_OPCODE. cbn [app drop]. destruct (decide (k = 0%nat)) as [->|Hk]; [done|].
    assert (k = S n) as -> by lia. cbn [take]. f_equal. rewrite <- app_assoc, take_app_le by lia. by rewrite take_take, Nat.min_id. }
  rewrite Eb. assert (Hlb : length (take k (opcode :: rest)) = k) by (rewrite length_take; simpl; lia).
  rewrite Hlb, Nat.ltb_irrefl. destruct (hex_fits (take k (opcode :: rest)) k) as [s Es]; [lia..|].
  rewrite Es. unfold st_lift at 1. rewrite (st_bind_Ret _ _ w s w) by done.
  unfold call_back, st_gets. by rewrite (st_bind_Ret _ _ w _ w eq_refl), Hc.
Qed.

(** C22: a message of the framework of at most fifteen bytes becomes one frame of twenty
    bytes, which is all that is written to the driver; when the driver delivers this
    frame, over whatever was received before, the framework is given the same message. *)
Theorem cec_roundtrip (m : Message) c (w w1 v : W) func arg old : sendable m ->
  cec_is_connected w = Ret (c, w1) -> 0 < c ->
  system_control (ctx v) = true -> callback (ctx v) = Some (func, arg) ->
  exists f, length f = 20%nat /\
    cec_send_message false m w =
      (err ← send_loop MAX_SEND_MESSAGE_RETRIES m (fb_sysfs_path (ctx w1) +:+ "/cec/wr_msg") f;
       mret (if err <? 0 then
               if err =? - ENXIO then HDMI_RESULT_NACK else if err =? - EAGAIN then HDMI_RESULT_BUSY else HDMI_RESULT_FAIL
             else HDMI_RESULT_SUCCESS)) w1 /\
    cec_receive_message false (store_data f old) 0 v =
      in_k (callback_call func arg
        (CecMessage (mkMessage (initiator m) (destination m) (msg_length m) (take (Z.to_nat (msg_length m)) (body m))))) v.
Proof.
  intros Hm Ec Hc Hs Hcb. destruct (write_msg_frame m Hm) as (opcode & rest & Hb & Ef).
  exists (frame m opcode (take (Z.to_nat (msg_length m - 1)) rest)). split_and!; [| |by apply receive_frame].
  - destruct Hm as [_ _ Hn Hl]. rewrite Hb in Hl. simpl in Hl. injection Hl as Hl.
    unfold frame. rewrite !length_app, length_replicate, length_take. simpl. lia.
  - unfold cec_send_message. rewrite (st_bind_Ret _ _ _ _ _ Ec). destruct (Z.leb_spec c 0); [lia|].
    assert (exists s, (if 0 <? msg_length m then hex_to_string false (body m) (Z.to_nat (msg_length m)) (uninit 128) else Ret []) = Ret s)
      as [s Es].
    { destruct (0 <? msg_length m); [|eauto]. destruct Hm. apply hex_fits; lia. }
    rewrite (st_bind_Ret _ _ w1 s w1) by (by rewrite Es). rewrite (st_bind_Ret _ _ w1 _ w1) by (by rewrite Ef).
    destruct (hex_fits (frame m opcode (take (Z.to_nat (msg_length m - 1)) rest)) MAX_CEC_FRAME_SIZE) as [s2 E2].
    { unfold frame, MAX_CEC_FRAME_SIZE. rewrite !length_app, length_replicate. simpl. lia. }
    { unfold MAX_CEC_FRAME_SIZE. lia. }
    rewrite (st_bind_Ret _ _ w1 s2 w1) by (by rewrite E2). by rewrite (st_bind_Ret _ _ w1 _ w1 eq_refl).
Qed.
End Frames.

(** ** Events of the kernel *)
Section Monitor.
Context `{!CecHal} {K : Type} `{!CecKernel K}.
Abbreviation W := (World K).

(** The strings of an event follow each other, each with its NUL. *)
Definition uevent (ss : list (list Z)) : list Z := concat (map (fun s => s ++ [0]) ss).
Definition plain (s : list Z) : Prop := s <> [] /\ Forall (fun c => c <> 0) s.
Definition decimal (ds : list Z) : Z := fold_left (fun n c => n * 10 + (c - 48)) ds 0.

Lemma c_string_app s (r : Buf) : Forall (fun c => c <> 0) s -> c_string ((Some <$> s) ++ Some 0 :: r) = Ret (s, r).
Proof.
  induction 1 as [|c s Hc Hs IH]; [done|]. rewrite fmap_cons. cbn [app c_string]. destruct (Z.eqb_spec c 0); [done|].
  by rewrite IH.
Qed.
Lemma atoi_digits_app ds (r : Buf) : Forall (fun c => is_digit c = true) ds -> forall acc,
  atoi_digits ((Some <$> ds) ++ Some 0 :: r) acc = Ret (fold_left (fun n c => n * 10 + (c - 48)) ds acc).
Proof. induction 1 as [|c ds Hc Hs IH]; intros acc; [done|]. rewrite fmap_cons. cbn [app atoi_digits fold_left]. rewrite Hc. apply IH. Qed.
Lemma atoi_decimal ds (r : Buf) : Forall (fun c => is_digit c = true) ds -> 0 <= decimal ds <= INT_MAX ->
  atoi ((Some <$> ds) ++ Some 0 :: r) = Ret (decimal ds).
Proof.
  intros Hd Hm. pose proof (atoi_digits_app ds r Hd 0) as E.
  assert (Ei : int_expr (decimal ds) = Ret (decimal ds)) by (unfold int_expr, INT_MIN, INT_MAX in *;
    destruct (Z.leb_spec (-2147483648) (decimal ds)), (Z.leb_spec (decimal ds) 2147483647); simpl; lia || done).
  destruct ds as [|c ds]; [done|]. inversion_clear Hd as [|? ? Hc Hr]. unfold is_digit in Hc. apply andb_prop in Hc as [H1%Z.leb_le H2%Z.leb_le].
  rewrite fmap_cons. cbn [app atoi]. unfold is_space.
  destruct (Z.eqb_spec c 32), (Z.leb_spec 9 c), (Z.leb_spec c 13), (Z.eqb_spec c 45), (Z.eqb_spec c 43); try lia. cbn [orb andb].
  rewrite fmap_cons in E. cbn [app] in E. rewrite E. exact Ei.
Qed.
Lemma strstr_prefix l p : strstr (p ++ l) p = true.
Proof.
  assert (Hp : has_prefix p (p ++ l) = true) by (apply bool_decide_eq_true; by rewrite take_app_length).
  destruct (p ++ l); simpl; by rewrite Hp.
Qed.
Lemma strstr_self l : strstr l l = true.
Proof. rewrite <- (app_nil_r l) at 1. apply strstr_prefix. Qed.

Lemma uevent_cons s ss : uevent (s :: ss) = s ++ 0 :: uevent ss.
Proof. unfold uevent. simpl. by rewrite <- app_assoc. Qed.
Lemma length_uevent_cons s ss : length (uevent (s :: ss)) = (length s + 1 + length (uevent ss))%nat.
Proof. rewrite uevent_cons, length_app. simpl. lia. Qed.

(** One turn on a string. *)
Lemma value_loop_step fuel s (r : Buf) pos n info : plain s -> pos <= n ->
  value_loop (S fuel) ((Some <$> s) ++ Some 0 :: r) pos n info =
    if strstr s info then atoi (drop (length info) ((Some <$> s) ++ Some 0 :: r))
    else value_loop fuel r (pos + (length s + 1)) n info.
Proof.
  intros [Hs0 Hsz] Hpos. pose proof (c_string_app s r Hsz) as Ec. destruct s as [|c s]; [done|].
  inversion_clear Hsz as [|? ? Hc0 _]. rewrite fmap_cons in *. cbn [app value_loop] in *. destruct (Z.leb_spec pos n); [|lia].
  rewrite Ec. cbn [mbind outcome_bind]. by destruct c.
Qed.
(** The first string that holds the key starts with it and ends in its value. *)
Lemma value_loop_found info ds post (junk : Buf) : plain info ->
  Forall (fun c => is_digit c = true) ds -> 0 <= decimal ds <= INT_MAX ->
  forall pre fuel pos n, Forall plain pre -> Forall (fun s => strstr s info = false) pre -> (length pre < fuel)%nat ->
  pos + length (uevent (pre ++ (info ++ ds) :: post)) <= n ->
  value_loop fuel ((Some <$> uevent (pre ++ (info ++ ds) :: post)) ++ junk) pos n info = Ret (decimal ds).
Proof.
  intros Hi Hd Hm. assert (Hdz : plain (info ++ ds)).
  { destruct Hi as [Hi0 Hiz]. split; [by destruct info|]. apply Forall_app_2; [done|]. eapply Forall_impl; [exact Hd|].
    intros c Hc. unfold is_digit in Hc. apply andb_prop in Hc as [H1%Z.leb_le _]. lia. }
  induction pre as [|s pre IH]; intros fuel pos n Hp Hs Hf Hpos; destruct fuel as [|fuel]; [simpl in Hf; lia| |simpl in Hf; lia|].
  - rewrite app_nil_l in *. rewrite length_uevent_cons in Hpos. rewrite uevent_cons, fmap_app, fmap_cons, <- app_assoc. cbn [app].
    rewrite value_loop_step by (done || lia). rewrite strstr_prefix, fmap_app, <- app_assoc.
    rewrite drop_app_length' by (by rewrite length_fmap). by apply atoi_decimal.
  - inversion_clear Hp as [|? ? Hpl Hp']. inversion_clear Hs as [|? ? Hss Hs']. rewrite <- app_comm_cons in *.
    rewrite length_uevent_cons in Hpos. rewrite uevent_cons, fmap_app, fmap_cons, <- app_assoc. cbn [app].
    rewrite value_loop_step by (done || lia). rewrite Hss. apply IH; try done; [simpl in Hf; lia|lia].
Qed.
Lemma plain_check s : forallb (fun c => negb (c =? 0)) s = true -> s <> [] -> plain s.
Proof. intros Hf Hn. split; [done|]. apply Forall_forall. intros c Hc. rewrite forallb_forall in Hf. apply list_elem_of_In, Hf in Hc. by destruct (Z.eqb_spec c 0). Qed.
Definition KEY : list Z := bytes "SWITCH_STATE=".
Lemma key_plain : plain KEY.
Proof. apply plain_check; [vm_compute; reflexivity|done]. Qed.
Lemma header_plain : plain (bytes UEVENT_SWITCH_HDMI).
Proof. apply plain_check; [vm_compute; reflexivity|done]. Qed.
Lemma header_no_key : strstr (bytes UEVENT_SWITCH_HDMI) KEY = false.
Proof. vm_compute. reflexivity. Qed.
Lemma uevent_count ss : (length ss <= length (uevent ss))%nat.
Proof. induction ss as [|s ss IH]; [done|]. rewrite length_uevent_cons. simpl. lia. Qed.

(** an event of the HDMI switch is reported with the value of its SWITCH_STATE, given
    anywhere after the header, whatever the other strings of the event and the rest of
    the buffer hold. *)
Lemma hotplug_reported (w w1 : W) p node pre ds post (msg := uevent (bytes UEVENT_SWITCH_HDMI :: pre ++ (KEY ++ ds) :: post)) :
  poll_fds (ctx w) !! node = Some p -> Z.land (revents p) POLLIN <> 0 ->
  in_k (sys_recv (pfd p) (PAGE_SIZE - 2)) w = Ret (Some msg, w1) -> (length msg <= PAGE_SIZE - 2)%nat ->
  Forall plain pre -> Forall (fun s => strstr s KEY = false) pre ->
  Forall (fun c => is_digit c = true) ds -> 0 <= decimal ds <= INT_MAX ->
  handle_hdmihotplug_event node w = cec_hdmi_hotplug (decimal ds) w1.
Proof.
  intros Hp Hr Er Hl Hpl Hk Hd Hm. unfold handle_hdmihotplug_event, st_gets. rewrite (st_bind_Ret _ _ w _ w eq_refl), Hp.
  destruct (Z.eqb_spec (Z.land (revents p) POLLIN) 0); [done|]. cbn [negb]. rewrite (st_bind_Ret _ _ _ _ _ Er).
  assert (Hc : exists r, put_bytes (uninit PAGE_SIZE) 0 msg = Ret ((Some <$> msg) ++ r)).
  { unfold put_bytes. unfold uninit at 1. rewrite length_replicate. destruct (Nat.leb_spec (0 + length msg) PAGE_SIZE); [|lia].
    by eexists. }
  destruct Hc as [r Hc]. assert (Hs : exists r', (Some <$> msg) ++ r = (Some <$> bytes UEVENT_SWITCH_HDMI) ++ Some 0 :: r').
  { subst msg. rewrite uevent_cons, fmap_app, fmap_cons, <- app_assoc. by eexists. }
  destruct Hs as [r' Hs]. pose proof (c_string_app _ r' (proj2 header_plain)) as Hcs. rewrite <- Hs in Hcs.
  assert (Hv : get_event_value ((Some <$> msg) ++ r) (length msg) KEY = Ret (decimal ds)).
  { unfold get_event_value, msg. apply (value_loop_found KEY ds post r key_plain Hd Hm (bytes UEVENT_SWITCH_HDMI :: pre)).
    - constructor; [exact header_plain|done].
    - constructor; [exact header_no_key|done].
    - rewrite length_app, length_fmap. fold msg.
      pose proof (uevent_count (bytes UEVENT_SWITCH_HDMI :: pre ++ (KEY ++ ds) :: post)) as Hu. fold msg in Hu.
      simpl in Hu. rewrite length_app in Hu. simpl in *. lia.
    - cbn [app]. lia. }
  assert (Hne : msg <> []) by (unfold msg; rewrite uevent_cons; by destruct (bytes UEVENT_SWITCH_HDMI)).
  clearbody msg. destruct msg as [|b l]; [done|].
  rewrite (st_bind_Ret _ _ w1 _ w1) by (by rewrite Hc). rewrite (st_bind_Ret _ _ w1 _ w1) by (by rewrite Hcs).
  unfold strcasestr. rewrite strstr_self. fold KEY. by rewrite (st_bind_Ret _ _ w1 (decimal ds) w1) by (unfold st_lift; by rewrite Hv).
Qed.

(** ** The monitor *)

(** A read gives at most as many bytes as were asked for; close returns. *)
Class CecLaws : Prop := {
  pread_bound fd n k l k' : sys_pread fd n k = Ret (Some l, k') -> (length l <= n)%nat;
  close_total fd k : exists k', sys_close fd k = Ret (tt, k')
}.
Context `{!CecLaws}.
Context (char_signed : bool).
Abbreviation M := (St W).

(** The calls of the framework, and a turn of the thread. *)
Inductive Call :=
| CAdd (addr : Z) | CClear | CPhysical | CSend (m : Message) | CRegister (func arg : Z) | CVersion | CVendor | CPort
| COption (flag value : Z) | CArc (port flag : Z) | CConnected | CTurn.
Definition done_ {A} (m : M A) : M unit := _ ← m; mret tt.
Definition run (c : Call) : M unit :=
  match c with
  | CAdd a => done_ (cec_add_logical_address a)
  | CClear => cec_clear_logical_address
  | CPhysical => done_ cec_get_physical_address
  | CSend m => done_ (cec_send_message char_signed m)
  | CRegister f a => cec_register_event_callback f a
  | CVersion => done_ cec_get_version
  | CVendor => done_ cec_get_vendor_id
  | CPort => done_ cec_get_port_info
  | COption f v => cec_set_option f v
  | CArc p f => cec_set_audio_return_channel p f
  | CConnected => done_ cec_is_connected
  | CTurn => monitor_turn char_signed
  end.
Definition step (w w' : W) : Prop := exists c, run c w = Ret (tt, w').
Definition reachable (w : W) : Prop := exists name w0 w1, cec_device_open name w0 = Ret (0, w1) /\ rtc step w1 w.

(** What the thread works on. *)
Definition descriptors (c : Ctx) : list (Z * Z) := map (fun p => (pfd p, pevents p)) (poll_fds c).
Record same_setup (c c' : Ctx) : Prop := mkSame {
  same_nodes : node_list c' = node_list c;
  same_events : event_data_list c' = event_data_list c;
  same_fds : descriptors c' = descriptors c;
  same_exit : exit_fd c' = exit_fd c;
  same_monitor : monitor c' = monitor c;
  same_addresses : length (logical_address c') = length (logical_address c);
  same_data : length (data c) = MAX_STRING_LENGTH -> length (data c') = MAX_STRING_LENGTH
}.
Definition setup (w w' : W) : Prop := same_setup (ctx w) (ctx w').
#[global] Instance setup_pre : PreOrder setup.
Proof.
  split; [by constructor|]. intros a b c [????? ??] [????? ??]. constructor; try congruence; auto.
Qed.
(** The handlers leave the results of poll alone. *)
Definition same_poll (w w' : W) : Prop := poll_fds (ctx w') = poll_fds (ctx w) /\ event_data_list (ctx w') = event_data_list (ctx w).
#[global] Instance same_poll_pre : PreOrder same_poll.
Proof. split; [done|]. intros a b c [] []. split; congruence. Qed.

Lemma in_k_ctx {A} (m : St K A) w a w' : in_k m w = Ret (a, w') -> ctx w' = ctx w.
Proof. unfold in_k. destruct (m (krn w)) as [[b k]| |]; by intros [= _ <-]. Qed.
Lemma in_k_setup {A} (m : St K A) : keeps setup (in_k m).
Proof. intros w a w' E. unfold setup. rewrite (in_k_ctx _ _ _ _ E). by constructor. Qed.
Lemma in_k_poll {A} (m : St K A) : keeps same_poll (in_k m).
Proof. intros w a w' E. unfold same_poll. by rewrite (in_k_ctx _ _ _ _ E). Qed.
#[local] Hint Resolve in_k_setup in_k_poll : keeps.
#[local] Hint Extern 3 (keeps setup _) => apply keeps_modify; intros w; by constructor : keeps.
#[local] Hint Extern 3 (keeps same_poll _) => apply keeps_modify; intros w; by split : keeps.

Lemma store_data_length l old : (length l <= length old)%nat -> length (store_data l old) = length old.
Proof. intros Hl. unfold store_data. rewrite length_app, length_drop. lia. Qed.
Lemma set_revents_fds r fds : map (fun p => (pfd p, pevents p)) (set_revents r fds) = map (fun p => (pfd p, pevents p)) fds.
Proof.
  unfold set_revents. revert r. induction fds as [|p fds IH]; intros r; [done|]. rewrite imap_cons. simpl. f_equal.
  - by destruct (r !! 0%nat).
  - etrans; [|apply (IH (drop 1 r))]. f_equal. apply imap_ext. intros i x _. simpl. by rewrite lookup_drop.
Qed.

Lemma read_node_setup p d : keeps setup (read_node p d : M _).
Proof. unfold read_node. keeps_tac. Qed.
Lemma write_node_setup p d : keeps setup (write_node p d : M _).
Proof. unfold write_node. keeps_tac. Qed.
#[local] Hint Resolve read_node_setup write_node_setup : keeps.
Lemma write_int_setup p v : keeps setup (write_int_to_node p v : M _).
Proof. unfold write_int_to_node. keeps_tac. Qed.
#[local] Hint Resolve write_int_setup : keeps.
Lemma is_connected_setup : keeps setup (cec_is_connected : M _).
Proof. unfold cec_is_connected. keeps_tac. Qed.
Lemma physical_setup : keeps setup (cec_get_physical_address : M _).
Proof. unfold cec_get_physical_address. keeps_tac. Qed.
Lemma send_loop_setup n m p f : keeps setup (send_loop n m p f : M _).
Proof. induction n; simpl; keeps_tac. Qed.
Lemma enable_setup b : keeps setup (cec_enable b : M _).
Proof. unfold cec_enable. keeps_tac. Qed.
Lemma receive_setup m n : keeps setup (cec_receive_message char_signed m n : M _).
Proof. unfold cec_receive_message, call_back. keeps_tac. Qed.
Lemma receive_poll m n : keeps same_poll (cec_receive_message char_signed m n : M _).
Proof. unfold cec_receive_message, call_back. keeps_tac. Qed.
Lemma hotplug_setup n : keeps setup (cec_hdmi_hotplug n : M _).
Proof. unfold cec_hdmi_hotplug, call_back. keeps_tac. Qed.
Lemma hotplug_poll n : keeps same_poll (cec_hdmi_hotplug n : M _).
Proof. unfold cec_hdmi_hotplug, call_back. keeps_tac. Qed.
#[local] Hint Resolve is_connected_setup physical_setup send_loop_setup enable_setup receive_setup receive_poll hotplug_setup hotplug_poll : keeps.
Lemma add_setup a : keeps setup (cec_add_logical_address a : M _).
Proof.
  unfold cec_add_logical_address. keeps_tac. apply keeps_modify. intros w. constructor; try done. cbn. by rewrite length_insert.
Qed.
Lemma clear_setup : keeps setup (cec_clear_logical_address : M _).
Proof. unfold cec_clear_logical_address. keeps_tac. apply keeps_modify. intros w. constructor; try done. cbn. by rewrite length_map. Qed.
Lemma send_setup m : keeps setup (cec_send_message char_signed m : M _).
Proof. unfold cec_send_message. keeps_tac. Qed.
Lemma option_setup f v : keeps setup (cec_set_option f v : M _).
Proof. unfold cec_set_option. keeps_tac. Qed.
(** The bytes that a read may store. *)
Lemma pread_setup {A} fd (none : M A) (some : Z -> list Z -> M A) : keeps setup none -> (forall b l, keeps setup (some b l)) ->
  keeps setup (r ← in_k (sys_pread fd MAX_STRING_LENGTH);
    match r with Some (b :: l) => _ ← on_ctx (fun c => c <| data ::= store_data (b :: l) |>); some b l | _ => none end).
Proof.
  intros Hn Hs w a w' E. st_step E. transitivity s; [apply (in_k_setup _ _ _ _ E0)|]. destruct a0 as [[|b l]|]; [by apply (Hn _ _ _ E)| |by apply (Hn _ _ _ E)].
  st_step E. injection E1 as <- <-. etrans; [|apply (Hs _ _ _ _ _ E)]. constructor; try done. intros Hd.
  change (length (store_data (b :: l) (data (ctx s))) = MAX_STRING_LENGTH). unfold in_k in E0. destruct (sys_pread fd MAX_STRING_LENGTH (krn w)) as [[r k]| |] eqn:Er; try done. injection E0 as -> <-.
  apply pread_bound in Er. rewrite store_data_length; [done|]. by rewrite Hd.
Qed.
Lemma handler_setup p e : keeps setup (event_parser char_signed p e : M _).
Proof.
  destruct p; cbn [event_parser]; [|unfold handle_hdmihotplug_event, handle_exit_event; keeps_tac..].
  unfold handle_cec_msg_event. apply keeps_bind; [apply _|apply keeps_gets, _|]. intros fds. destruct (fds !! e) as [q|]; [|apply keeps_undef].
  destruct (negb _); [|apply keeps_ret, _]. apply pread_setup; keeps_tac.
Qed.
Lemma handler_poll p e : keeps same_poll (event_parser char_signed p e : M _).
Proof. destruct p; cbn [event_parser]; unfold handle_cec_msg_event, handle_hdmihotplug_event, handle_exit_event; keeps_tac. Qed.
#[local] Hint Resolve add_setup clear_setup send_setup option_setup handler_setup handler_poll : keeps.
Lemma events_setup n : forall e, keeps setup (events_loop char_signed n e : M _).
Proof. induction n as [|n IH]; intros e; simpl; keeps_tac. Qed.
#[local] Hint Resolve events_setup : keeps.
Lemma turn_setup : keeps setup (monitor_turn char_signed : M _).
Proof.
  unfold monitor_turn. keeps_tac. apply keeps_modify. intros w. constructor; try done. cbn. unfold descriptors. cbn. apply set_revents_fds.
Qed.
Lemma run_setup c : keeps setup (run c).
Proof.
  pose proof turn_setup. destruct c; cbn [run]; unfold done_, cec_register_event_callback, cec_set_audio_return_channel,
    cec_get_version, cec_get_vendor_id, cec_get_port_info; keeps_tac.
Qed.

(** Opening sets the three descriptors up one after the other. *)
Record moved (e : nat) (q : PollFd) (x : Z) (c c' : Ctx) : Prop := mkMoved {
  moved_nodes : node_list c' = node_list c;
  moved_events : event_data_list c' = event_data_list c;
  moved_fds : poll_fds c' = <[e := q]> (poll_fds c);
  moved_exit : exit_fd c' = x;
  moved_monitor : monitor c' = monitor c;
  moved_addresses : length (logical_address c') = length (logical_address c);
  moved_data : length (data c) = MAX_STRING_LENGTH -> length (data c') = MAX_STRING_LENGTH
}.
Lemma params_msg e err p (w w' : W) : set_event_params e "cec_msg_event" w = Ret ((err, p), w') ->
  err < 0 \/ p = Some handle_cec_msg /\ exists fd, 0 <= fd /\ moved e (mkPollFd fd (Z.lor POLLPRI POLLERR) 0) (exit_fd (ctx w)) (ctx w) (ctx w').
Proof.
  intros E. unfold set_event_params in E. cbn [String.prefix] in E. vm_compute (String.prefix _ _) in E. cbn iota in E.
  st_step E. injection E0 as <- <-. st_step E. apply in_k_ctx in E0. destruct (Z.ltb_spec a 0) as [|Hfd]; [left; injection E as <- _ _; lia|].
  right. st_step E. apply in_k_ctx in E1 as Ec1. unfold in_k in E1.
  destruct (sys_pread a MAX_STRING_LENGTH (krn s)) as [[r k]| |] eqn:Er; try done. injection E1 as <- <-.
  st_step E. st_step E. injection E2 as _ <-. injection E as <- <- <-. split; [done|]. exists a. split; [done|].
  destruct r as [l|]; injection E1 as _ <-; (constructor; cbn -[store_data]; rewrite <- ?E0; try done).
  intros Hd. rewrite store_data_length; [done|]. apply pread_bound in Er. by rewrite Hd.
Qed.
Lemma params_hotplug e err p (w w' : W) : set_event_params e "hotplug_event" w = Ret ((err, p), w') ->
  err < 0 \/ p = Some handle_hdmihotplug /\ exists fd, 0 < fd /\ moved e (mkPollFd fd (Z.lor POLLIN POLLERR) 0) (exit_fd (ctx w)) (ctx w) (ctx w').
Proof.
  intros E. unfold set_event_params in E. vm_compute (String.prefix _ _) in E. cbn iota in E. st_step E.
  assert (Hu : ctx s = ctx w /\ forall fd, a = Some fd -> 0 < fd).
  { unfold uevent_init in E0. st_step E0. apply in_k_ctx in E1. destruct (a0 <? 0); [by injection E0 as <- <-|].
    st_step E0. apply in_k_ctx in E2. destruct (a1 <? 0).
    - st_step E0. apply in_k_ctx in E3. injection E0 as <- <-. split; [congruence|done].
    - injection E0 as <- <-. split; [congruence|]. intros fd. destruct (Z.ltb_spec 0 a0); [by intros [= <-]|done]. }
  destruct Hu as [Hu Hfd]. destruct a as [fd|]; [|left; injection E as <- _ _; lia]. right.
  st_step E. injection E1 as _ <-. injection E as _ <- <-. split; [done|]. exists fd. split; [by apply Hfd|].
  constructor; cbn; rewrite <- ?Hu; done.
Qed.
Lemma params_exit e err p (w w' : W) : set_event_params e "exit_event" w = Ret ((err, p), w') ->
  p = Some handle_exit /\ exists fd, moved e (mkPollFd fd POLLIN 0) fd (ctx w) (ctx w').
Proof.
  intros E. unfold set_event_params in E. vm_compute (String.prefix _ _) in E. cbn iota in E. st_step E. apply in_k_ctx in E0.
  st_step E. injection E1 as _ <-. st_step E. injection E1 as _ <-. injection E as _ <- <-. split; [done|]. exists a.
  constructor; cbn; rewrite <- ?E0; done.
Qed.

(** The thread has what it works on. *)
Definition the_events : list (string * option Parser) :=
  [("cec_msg_event", Some handle_cec_msg); ("hotplug_event", Some handle_hdmihotplug); ("exit_event", Some handle_exit)].
Record ready (c : Ctx) : Prop := mkReady {
  ready_nodes : node_list c = map fst the_events;
  ready_events : event_data_list c = the_events;
  ready_fds : exists msg plug, 0 <= msg /\ 0 < plug /\
    descriptors c = [(msg, Z.lor POLLPRI POLLERR); (plug, Z.lor POLLIN POLLERR); (exit_fd c, POLLIN)];
  ready_addresses : length (logical_address c) = Z.to_nat CEC_ADDR_BROADCAST;
  ready_data : length (data c) = MAX_STRING_LENGTH
}.
Lemma ready_setup c c' : same_setup c c' -> ready c -> ready c'.
Proof.
  intros [Hn He Hf Hx Hm Ha Hd] [Rn Re (msg & plug & H1 & H2 & Rf) Ra Rd]. constructor; [congruence..| | |].
  - exists msg, plug. by rewrite Hf, Hx.
  - congruence.
  - auto.
Qed.
Lemma fb_loop_setup n : forall num b len, keeps setup (fb_loop n num b len : M _).
Proof. induction n; intros num b len; simpl; keeps_tac. Qed.
#[local] Hint Resolve fb_loop_setup : keeps.

Definition same_thread (w w' : W) : Prop := monitor (ctx w') = monitor (ctx w).
#[global] Instance same_thread_pre : PreOrder same_thread.
Proof. split; [done|]. intros a b c Hab Hbc. unfold same_thread in *. congruence. Qed.
Lemma in_k_thread {A} (m : St K A) : keeps same_thread (in_k m).
Proof. intros w a w' E. unfold same_thread. by rewrite (in_k_ctx _ _ _ _ E). Qed.
#[local] Hint Resolve in_k_thread : keeps.
#[local] Hint Extern 3 (keeps same_thread _) => apply keeps_modify; intros w; done : keeps.
Lemma params_thread e name : keeps same_thread (set_event_params e name : M _).
Proof. unfold set_event_params, uevent_init. keeps_tac. Qed.
#[local] Hint Resolve params_thread : keeps.
Lemma populate_loop_thread names : forall e, keeps same_thread (populate_loop names e : M _).
Proof. induction names; intros e; simpl; keeps_tac. Qed.
#[local] Hint Resolve populate_loop_thread : keeps.
Lemma populate_monitor : keeps same_thread (populate_event_data : M _).
Proof. unfold populate_event_data. keeps_tac. Qed.
Lemma populate_ready err (w w' : W) : node_list (ctx w) = map fst the_events -> event_data_list (ctx w) = [] -> poll_fds (ctx w) = [] ->
  length (logical_address (ctx w)) = Z.to_nat CEC_ADDR_BROADCAST -> length (data (ctx w)) = MAX_STRING_LENGTH ->
  populate_event_data w = Ret (err, w') -> err < 0 \/ ready (ctx w').
Proof.
  intros Hn He Hp Ha Hd E. unfold populate_event_data in E. st_step E. injection E0 as <- <-. st_step E. injection E0 as _ <-.
  rewrite Hn in E. cbn [map the_events fst populate_loop] in E.
  st_step E. match type of E0 with _ = Ret (?x, _) => destruct x as [e1 p1] end. apply params_msg in E0 as [Hneg|(-> & f1 & Hf1 & M1)];
    [destruct (Z.ltb_spec e1 0); [injection E as <- _; by left|lia]|]. destruct (Z.ltb_spec e1 0); [injection E as <- _; by left|].
  st_step E. injection E0 as _ <-. st_step E. match type of E0 with _ = Ret (?x, _) => destruct x as [e2 p2] end. apply params_hotplug in E0 as [Hneg|(-> & f2 & Hf2 & M2)];
    [destruct (Z.ltb_spec e2 0); [injection E as <- _; by left|lia]|]. destruct (Z.ltb_spec e2 0); [injection E as <- _; by left|].
  st_step E. injection E0 as _ <-. st_step E. match type of E0 with _ = Ret (?x, _) => destruct x as [e3 p3] end. apply params_exit in E0 as (-> & f3 & M3).
  destruct (Z.ltb_spec e3 0); [injection E as <- _; by left|]. st_step E. injection E0 as _ <-. injection E as _ <-. right.
  destruct M1 as [N1 V1 P1 X1 _ A1 D1], M2 as [N2 V2 P2 X2 _ A2 D2], M3 as [N3 V3 P3 X3 _ A3 D3].
  cbn in N1, V1, P1, X1, A1, D1, N2, V2, P2, X2, A2, D2, N3, V3, P3, X3, A3, D3. constructor; cbn.
  - congruence.
  - by rewrite V3, V2, V1, He.
  - exists f1, f2. split_and!; [done..|]. unfold descriptors. cbn. rewrite P3, P2, P1, X3, Hp. done.
  - congruence.
  - auto.
Qed.
Lemma open_ready name (w w' : W) : cec_device_open name w = Ret (0, w') -> monitor (ctx w') = true -> ready (ctx w').
Proof.
  intros E Hmon. unfold cec_device_open in E. destruct (String.eqb _ _); [|done]. st_step E. clear E0.
  match type of E with (if ?d then _ else _) _ = _ => destruct d end; [|done]. match type of E with _ ?x = _ => rename x into v end. clear w. rename v into w.
  st_step E. injection E0 as _ <-. st_step E. injection E as <-.
  unfold cec_init_context in E0. st_step E0. assert (S1 : setup (w <| ctx ::= fun _ => new_ctx |>) s0).
  { revert E. unfold cec_get_fb_node_number. assert (Hk : keeps setup (cec_get_fb_node_number : M _)) by (unfold cec_get_fb_node_number; keeps_tac).
    apply Hk. }
  clear E. st_step E0. apply physical_setup in E as S2. match type of E with _ = Ret (?x, _) => destruct x as [st pa] end. st_step E0. injection E1 as _ <-.
  st_step E0. apply clear_setup in E1 as S3. st_step E0. apply enable_setup in E2 as S4. st_step E0. injection E3 as _ <-.
  assert (S : same_setup new_ctx (ctx s3)).
  { change new_ctx with (ctx (w <| ctx ::= fun _ => new_ctx |>)). change (setup (w <| ctx ::= fun _ => new_ctx |>) s3).
    etrans; [exact S1|]. etrans; [exact S2|]. etrans; [|exact S4]. etrans; [|exact S3]. by constructor. }
  clear S1 S2 S3 S4 E E1 E2. destruct S as [Hn He Hf Hx Hm Ha Hd]. st_step E0. match type of E with _ = Ret (?x, _) => rename x into err end.
  pose proof E as Ep. apply populate_ready in Ep as [Hneg|R].
  - destruct (Z.ltb_spec err 0); [|lia]. st_step E0. injection E0 as _ <-. apply enable_setup in E1 as [_ _ _ _ Hm1 _ _].
    apply populate_monitor in E. unfold same_thread in E. cbn in E, Hm1. rewrite E, Hm in Hm1. by rewrite Hm1 in Hmon.
  - destruct (Z.ltb_spec err 0).
    + st_step E0. injection E0 as _ <-. apply enable_setup in E1. by apply (ready_setup _ _ E1).
    + injection E0 as _ <-. by destruct R as [? ? ? ? ?]; constructor.
  - cbn. by rewrite Hn.
  - cbn. by rewrite He.
  - cbn. unfold descriptors in Hf. by apply map_eq_nil in Hf.
  - etrans; [exact Ha|]. apply length_replicate.
  - apply Hd. apply length_replicate.
Qed.
(** In every state after the device was opened in which the thread runs, it polls
    exactly the descriptors of the driver's messages, of the kernel's events and of the
    exit signal, in this order, each with its own handler and with the events that
    the handler looks for, and the arrays of the context have their sizes. *)
Lemma reachable_ready (w : W) : reachable w -> monitor (ctx w) = true -> ready (ctx w).
Proof.
  intros (name & w0 & w1 & E & Hr). assert (Hb : monitor (ctx w1) = true -> ready (ctx w1)) by (by apply (open_ready name w0)). clear E.
  induction Hr as [w|w1 w2 w3 [c Hc] Hr IH]; [done|]. apply IH. apply run_setup in Hc. intros Hm. apply (ready_setup _ _ Hc), Hb.
  destruct Hc as [_ _ _ _ Hm' _ _]. congruence.
Qed.

(** ** The end of the thread *)
Lemma deinit_run n : forall e (w : W), length (poll_fds (ctx w)) = (e + n)%nat ->
  exists w', deinit_loop n e w = Ret (tt, w') /\
    poll_fds (ctx w') = take e (poll_fds (ctx w)) ++ map (fun p => p <| pfd := -1 |>) (drop e (poll_fds (ctx w))).
Proof.
  induction n as [|n IH]; intros e w Hl.
  - exists w. split; [done|]. rewrite drop_ge, take_ge, app_nil_r by lia. done.
  - destruct (lookup_lt_is_Some_2 (poll_fds (ctx w)) e) as [p Hp]; [lia|].
    simpl. unfold st_gets. rewrite (st_bind_Ret _ _ w _ w eq_refl), Hp. destruct (close_total (pfd p) (krn w)) as [k Ek].
    rewrite (st_bind_Ret _ _ w tt (w <| krn := k |>)) by (unfold in_k; by rewrite Ek).
    rewrite (st_bind_Ret _ _ _ _ _ eq_refl).
    match goal with |- context [deinit_loop n (S e) ?x] => destruct (IH (S e) x) as (w' & Er & Ep) end.
    { cbn. rewrite length_insert. lia. }
    exists w'. split; [exact Er|]. rewrite Ep. cbn. rewrite (drop_S _ p e Hp).
    rewrite drop_insert_lt by lia. rewrite (take_S_r _ _ (p <| pfd := -1 |>)) by (by rewrite list_lookup_insert_eq by lia).
    rewrite take_insert_ge by lia. rewrite <- app_assoc. done.
Qed.
Lemma events_step n e (w w' : W) : events_loop char_signed (S n) e w = Ret (tt, w') ->
  exists w1, same_poll w w1 /\ events_loop char_signed n (S e) w1 = Ret (tt, w').
Proof.
  intros E. cbn [events_loop] in E. st_step E. injection E0 as <- <-.
  destruct (poll_fds (ctx w) !! e) as [p|]; [|done]. destruct (event_data_list (ctx w) !! e) as [[name f]|]; [|done].
  st_step E. exists s. split; [|exact E]. destruct (_ || _); [|injection E0 as _ <-; reflexivity].
  destruct f as [f|]; [|done]. apply (handler_poll f e _ _ _ E0).
Qed.
Lemma events_exit (w w' : W) p : event_data_list (ctx w) = the_events -> poll_fds (ctx w) !! 2%nat = Some p ->
  Z.land (revents p) POLLIN <> 0 -> events_loop char_signed 3 0 w = Ret (tt, w') -> cec_exit_thread (ctx w') = true.
Proof.
  intros He Hp Hin E. apply events_step in E as (w1 & [P1 V1] & E). apply events_step in E as (w2 & [P2 V2] & E).
  rewrite P1 in P2. rewrite V1 in V2. cbn [events_loop] in E. st_step E. injection E0 as <- <-.
  rewrite P2, Hp, V2, He in E. assert (Ez : (Z.land (revents p) POLLIN =? 0) = false) by (by apply Z.eqb_neq). rewrite Ez in E.
  cbn [lookup list_lookup the_events negb orb event_parser] in E. unfold handle_exit_event in E.
  st_step E. st_step E0. injection E1 as <- <-. rewrite P2, Hp, Ez in E0. injection E0 as _ <-. by injection E as <-.
Qed.

(** when poll reports the exit signal the thread ends: after this turn, whatever
    other events it handles, event_monitor closes all descriptors and returns. *)
Lemma exit_ends_monitor (w w1 w2 : W) err r v : reachable w -> monitor (ctx w) = true -> cec_exit_thread (ctx w) = false ->
  in_k (sys_poll (descriptors (ctx w))) w = Ret ((err, r), w1) -> 0 < err -> r !! 2%nat = Some v -> Z.land v POLLIN <> 0 ->
  monitor_turn char_signed w = Ret (tt, w2) ->
  exists w3, event_monitor char_signed 1 w = Ret (tt, w3) /\ map pfd (poll_fds (ctx w3)) = [-1; -1; -1].
Proof.
  intros Hr Hm Hx Ep He Hv Hin Et. pose proof (reachable_ready w Hr Hm) as R.
  destruct R as [_ Re (f0 & f1 & _ & _ & Rf) _ _]. pose proof (turn_setup _ _ _ Et) as [_ _ Hf _ _ _ _].
  assert (H3 : length (poll_fds (ctx w2)) = 3%nat).
  { apply (f_equal length) in Hf. rewrite Rf in Hf. unfold descriptors in Hf. by rewrite length_map in Hf. }
  assert (Hexit : cec_exit_thread (ctx w2) = true).
  { unfold monitor_turn in Et. st_step Et. injection E as <- <-. rewrite Re in Et. cbn [length the_events] in Et.
    assert (H3' : length (poll_fds (ctx w)) = 3%nat) by (apply (f_equal length) in Rf; unfold descriptors in Rf; by rewrite length_map in Rf).
    rewrite take_ge in Et by lia. rewrite (st_bind_Ret _ _ _ _ _ Ep) in Et. destruct (Z.leb_spec err 0); [lia|].
    st_step Et. injection E as _ <-. st_step Et. injection E as <- <-. cbn in Et. apply in_k_ctx in Ep. rewrite Ep, Re in Et.
    destruct (lookup_lt_is_Some_2 (poll_fds (ctx w)) 2) as [p Hp]; [lia|].
    refine (events_exit _ _ (p <| revents := v |>) _ _ _ Et); cbn; rewrite ?Ep; try done.
    unfold set_revents. by rewrite list_lookup_imap, Hp, Hv. }
  destruct (deinit_run 3 0 w2 H3) as (w3 & Ed & Ef). exists w3. split.
  - cbn [event_monitor]. unfold st_gets. rewrite (st_bind_Ret _ _ w _ w eq_refl), Hx, (st_bind_Ret _ _ _ _ _ Et).
    rewrite (st_bind_Ret _ _ w2 _ w2 eq_refl), Hexit. unfold cec_monitor_deinit, st_gets.
    rewrite (st_bind_Ret _ _ w2 _ w2 eq_refl), H3. exact Ed.
  - rewrite Ef. destruct (poll_fds (ctx w2)) as [|? [|? [|? [|]]]]; done.
Qed.
End Monitor.

(** ** A kernel to run the HAL on *)

(** The files, what the driver and the kernel send, what poll answers, what was
    written and to which descriptor, and what the framework was told. *)
Record Sample := mkSample {
  files : list (string * list Z); rd_msg : list Z; uevents : list Z; polls : list (Z * list Z);
  next_fd : Z; opened : list (Z * string); written : list (Z * list Z); told : list Event
}.
#[global] Instance eta_sample : Eta Sample := fun k =>
  mkSample (files k) (rd_msg k) (uevents k) (polls k) (next_fd k) (opened k) (written k) (told k).
Fixpoint content (p : string) (l : list (string * list Z)) : option (list Z) :=
  match l with [] => None | (q, c) :: l => if String.eqb p q then Some c else content p l end.
Definition new_fd (name : string) : St Sample Z := fun k =>
  Ret (next_fd k, k <| next_fd ::= Z.succ |> <| opened ::= cons (next_fd k, name) |>).
#[global] Instance sample_hal : CecHal := {|
  HDMI_CEC_HARDWARE_INTERFACE := "hdmi_cec_hw_if"; CEC_ADDR_TV := 0; CEC_ADDR_BROADCAST := 15; CEC_MESSAGE_BODY_MAX_LENGTH := 16;
  HDMI_OPTION_WAKEUP := 1; HDMI_OPTION_ENABLE_CEC := 2; HDMI_OPTION_SYSTEM_CEC_CONTROL := 3
|}.
#[global] Instance sample_kernel : CecKernel Sample := {|
  sys_access p := st_gets (fun k => match content p (files k) with Some _ => 0 | None => -2 end);
  sys_fread p n := st_gets (fun k => take n <$> content p (files k));
  sys_open p := fun k => match content p (files k) with Some _ => new_fd p k | None => Ret (-1, k) end;
  sys_write fd d := fun k => Ret (Z.of_nat (length d), k <| written ::= fun l => l ++ [(fd, d)] |>);
  sys_close fd := mret tt;
  sys_pread fd n := st_gets (fun k => Some (take n (rd_msg k)));
  sys_recv fd n := st_gets (fun k => Some (take n (uevents k)));
  sys_socket := new_fd "socket"; sys_bind fd := mret 0; sys_eventfd := new_fd "exit";
  sys_poll l := fun k => match polls k with [] => Ret ((-1, []), k) | r :: rs => Ret (r, k <| polls := rs |>) end;
  sys_calloc := mret true; thread_join := mret tt;
  callback_call f a e := st_modify (fun k => k <| told ::= fun l => l ++ [e] |>)
|}.
#[global] Instance sample_laws : CecLaws (K := Sample).
Proof. split; [|intros fd k; by eexists]. intros fd n k l k' [= <- _]. rewrite length_take. lia. Defined.

Definition fb0 (p : string) : string := SYSFS_BASE +:+ "0/" +:+ p.
Definition all_files : list (string * list Z) :=
  [(fb0 "msm_fb_type", bytes "dtv panel" ++ [10]); (fb0 "pa", bytes "4096" ++ [10]); (fb0 "connected", bytes "1" ++ [10]);
   (fb0 "cec/logical_addr", []); (fb0 "cec/enable", []); (fb0 "cec/wr_msg", []); (fb0 "cec/rd_msg", [])].
Definition switch_on : list (list Z) := [bytes UEVENT_SWITCH_HDMI; bytes "ACTION=change"; KEY ++ bytes "1"; bytes "SEQNUM=7"].
Definition kernel0 : Sample := mkSample all_files [] (uevent switch_on) [(1, [0; 1; 0]); (2, [0; 1; 1])] 5 [] [] [].
Definition world0 (k : Sample) : World Sample := mkCecWorld new_ctx k.
Fixpoint runs (l : list Call) (w : World Sample) : outcome (World Sample) :=
  match l with
  | [] => Ret w
  | c :: l => match run false c w with Ret (_, w) => runs l w | Undef => Undef | NoFuel => NoFuel end
  end.
Lemma calls_rtc l : forall w w', runs l w = Ret w' -> rtc (step false) w w'.
Proof.
  induction l as [|c l IH]; simpl; intros w w' E; [by injection E as <-|].
  destruct (run false c w) as [[[] w1]| |] eqn:Er; try done. eapply rtc_l; [by exists c|by apply IH].
Qed.
Definition from (o : outcome (World Sample)) : World Sample := match o with Ret w => w | _ => world0 kernel0 end.
Definition opened_on (k : Sample) : World Sample := match cec_device_open HDMI_CEC_HARDWARE_INTERFACE (world0 k) with Ret (_, w) => w | _ => world0 k end.
Definition registered : list Call := [CRegister 1 0; COption 3 1].
Definition up : World Sample := from (runs registered (opened_on kernel0)).
Lemma opened_run : cec_device_open HDMI_CEC_HARDWARE_INTERFACE (world0 kernel0) = Ret (0, opened_on kernel0).
Proof. vm_compute. reflexivity. Qed.
Lemma up_run : runs registered (opened_on kernel0) = Ret up.
Proof. vm_compute. reflexivity. Qed.
Lemma up_reachable : reachable false up.
Proof. exists HDMI_CEC_HARDWARE_INTERFACE, (world0 kernel0), (opened_on kernel0). split; [exact opened_run|exact (calls_rtc _ _ _ up_run)]. Qed.

(** <Text View On> from playback device 1 to the TV. *)
Definition view_on : Message := mkMessage 4 0 2 (0x0D :: 0x10 :: replicate 14 0).
Lemma view_on_sendable : sendable view_on.
Proof. constructor; cbn; lia. Qed.
Lemma up_connected : cec_is_connected up = Ret (1, up).
Proof. vm_compute. reflexivity. Qed.
Lemma cec_roundtrip_witness : exists f, length f = 20%nat /\
  cec_send_message false view_on up =
    (err ← send_loop MAX_SEND_MESSAGE_RETRIES view_on (fb_sysfs_path (ctx up) +:+ "/cec/wr_msg") f;
     mret (if err <? 0 then
             if err =? - ENXIO then HDMI_RESULT_NACK else if err =? - EAGAIN then HDMI_RESULT_BUSY else HDMI_RESULT_FAIL
           else HDMI_RESULT_SUCCESS)) up /\
  cec_receive_message false (store_data f (data (ctx up))) 0 up =
    in_k (callback_call 1 0 (CecMessage (mkMessage 4 0 2 [0x0D; 0x10]))) up.
Proof.
  apply (cec_roundtrip (H := sample_hal) eq_refl view_on 1 up up up 1 0 (data (ctx up)) view_on_sendable up_connected); [lia|vm_compute; reflexivity..].
Defined.

(** The first turn: the switch went on. *)
Definition polled : World Sample := up <| ctx ::= fun c => c <| poll_fds ::= set_revents [0; 1; 0] |> |>.
Lemma hotplug_reported_witness : handle_hdmihotplug_event 1 polled = cec_hdmi_hotplug 1 polled.
Proof.
  apply (hotplug_reported polled polled (mkPollFd 8 (Z.lor POLLIN POLLERR) 1) 1 [bytes "ACTION=change"] (bytes "1") [bytes "SEQNUM=7"]).
  - vm_compute. reflexivity.
  - vm_compute. discriminate.
  - vm_compute. reflexivity.
  - apply Nat.leb_le. vm_compute. reflexivity.
  - constructor; [|constructor]. apply plain_check; [vm_compute; reflexivity|done].
  - constructor; [vm_compute; reflexivity|constructor].
  - repeat constructor.
  - vm_compute. split; discriminate.
Defined.

(** The second turn: the switch again and the exit signal. *)
Definition turned : World Sample := from (runs [CTurn] up).
Definition turned2 : World Sample := from (runs [CTurn] turned).
Definition polled2 : World Sample := turned <| krn ::= fun k => k <| polls := [] |> |>.
Lemma turned_run : runs [CTurn] up = Ret turned.
Proof. vm_compute. reflexivity. Qed.
Lemma turned_reachable : reachable false turned.
Proof.
  destruct up_reachable as (name & w0 & w1 & E & Hr). exists name, w0, w1. split; [exact E|]. etrans; [exact Hr|exact (calls_rtc _ _ _ turned_run)].
Qed.
Lemma exit_ends_monitor_witness : told (krn turned2) = [HotPlug true; HotPlug true] /\
  exists w3, event_monitor false 1 turned = Ret (tt, w3) /\ map pfd (poll_fds (ctx w3)) = [-1; -1; -1].
Proof.
  split; [vm_compute; reflexivity|].
  apply (exit_ends_monitor false turned polled2 turned2 2 [0; 1; 1] 1 turned_reachable); [vm_compute; reflexivity..|lia| | |].
  - reflexivity.
  - vm_compute. discriminate.
  - vm_compute. reflexivity.
Defined.

(** ** What the code does not prevent *)

(** The array of logical addresses ends before the broadcast address. *)
Lemma broadcast_address_overruns : cec_add_logical_address 15 up = Undef.
Proof. vm_compute. reflexivity. Qed.
(** The thread runs before the framework has registered its callback. *)
Lemma hotplug_before_callback : runs [CTurn] (opened_on kernel0) = Undef.
Proof. vm_compute. reflexivity. Qed.
(** A node that is missing is parsed all the same, from a buffer that was not written. *)
Lemma missing_node_parsed : cec_is_connected (up <| krn ::= fun k => k <| files := [] |> |>) = Undef.
Proof. vm_compute. reflexivity. Qed.
(** The sixteenth byte of a body makes room for the length of the frame. *)
Lemma longest_body_cut : (f ← write_msg (mkMessage 4 0 16 (replicate 16 0x55)); Ret (f !! 17%nat)) = Ret (Some 17).
Proof. vm_compute. reflexivity. Qed.
(** When the driver's node cannot be opened the exit descriptor is still 0, which is
    written to when the device is closed. *)
Definition no_driver : Sample := kernel0 <| files := filter (fun '(p, _) => p <> fb0 "cec/rd_msg") all_files |>.
Lemma close_writes_to_stdin : exists w, cec_device_close true (opened_on no_driver) = Ret (0, w) /\
  last (written (krn w)) = Some (0, [1; 0; 0; 0; 0; 0; 0; 0]).
Proof. eexists. vm_compute. split; reflexivity. Qed.
(** Where char is signed the text of a frame for the log overruns its buffer. *)
Lemma signed_hex_overruns : hex_to_string true (replicate 20 0xFF) 20 (uninit 128) = Undef.
Proof. vm_compute. reflexivity. Qed.
End CecProps.
