(* ===== verification/SyncTask.v ===== *)
(** A task that is handed to a worker thread: src/hardware/qcom-caf/display/sdm/include/utils/sync_task.h.

    The caller and the worker are two threads that take one step at a time: a
    mutex is locked or unlocked, a condition variable waited on or notified, a
    member read or written.  The control of the two threads and the members that
    steer it are finite ([Ctl]), the codes of the tasks are not ([State]); what is
    shown of the control is shown by computing all its states. *)
From S2P Require Import Prelude.
#[local] Open Scope Z_scope.

Module SyncTask.

Inductive Who := Caller | Worker.
#[global] Instance who_eq_dec : EqDecision Who.
Proof. solve_decision. Defined.

(** Where the caller is: in the constructor, outside, in PerformTask, or joining the
    worker in the destructor after its PerformTask. *)
Inductive CallerPc :=
| KLock | KSpawn | KWait | KWaiting | KWoken | KUnlock
| Idle
| PLock | PLockWorker | PSet | PUnlockWorker | PWait | PWaiting | PWoken | PUnlock
| Join | Destroyed.
#[global] Instance caller_pc_eq_dec : EqDecision CallerPc.
Proof. solve_decision. Defined.
(** Where the worker is in OnThreadCallback. *)
Inductive WorkerPc :=
| NotStarted | WLock | WReady | WReadyNotify | WReadyUnlock
| WLoop | WPred | WWaiting | WWoken | WTask | WLockCaller | WNotify | WUnlockCaller
| WExit | WDead.
#[global] Instance worker_pc_eq_dec : EqDecision WorkerPc.
Proof. solve_decision. Defined.

(** [terminate] is the argument of the PerformTask that runs; [ran] says whether its
    task was handled. *)
Record Ctl := mkCtl {
  caller : CallerPc; worker : WorkerPc; caller_mutex_ : option Who; worker_mutex_ : option Who;
  worker_thread_exit_ : bool; pending_code_ : bool; terminate : bool; ran : bool
}.
#[global] Instance eta_ctl : Eta Ctl := fun c =>
  mkCtl (caller c) (worker c) (caller_mutex_ c) (worker_mutex_ c) (worker_thread_exit_ c) (pending_code_ c) (terminate c) (ran c).
#[global] Instance ctl_eq_dec : EqDecision Ctl.
Proof. solve_decision. Defined.
(** What a step does to the codes: stores the one of the call, hands the stored one to
    the handler, or returns from the call. *)
Inductive Effect := ENothing | EStore | EHandle | EReturn.

Definition new_Ctl : Ctl := mkCtl KLock NotStarted None None false false false false.

Section Next.
(** Whether a wait of the caller, and one of the worker, may end without a
    notification. *)
Context (spurious_caller spurious_worker : bool).

Definition quiet (c : Ctl) : list (Ctl * Effect) := [(c, ENothing)].
Definition lock_caller (t : Who) (c : Ctl) (k : Ctl -> Ctl) : list (Ctl * Effect) :=
  match caller_mutex_ c with None => quiet (k (c <| caller_mutex_ := Some t |>)) | Some _ => [] end.
Definition lock_worker (t : Who) (c : Ctl) (k : Ctl -> Ctl) : list (Ctl * Effect) :=
  match worker_mutex_ c with None => quiet (k (c <| worker_mutex_ := Some t |>)) | Some _ => [] end.
(** notify_one of the two condition variables: at most one thread waits on each. *)
Definition notify_caller (c : Ctl) : Ctl :=
  match caller c with KWaiting => c <| caller := KWoken |> | PWaiting => c <| caller := PWoken |> | _ => c end.
Definition notify_worker (c : Ctl) : Ctl :=
  match worker c with WWaiting => c <| worker := WWoken |> | _ => c end.

Definition caller_next (c : Ctl) : list (Ctl * Effect) :=
  match caller c with
  | KLock => lock_caller Caller c (fun c => c <| caller := KSpawn |>)
  | KSpawn => quiet (c <| worker := WLock |> <| caller := KWait |>)
  | KWait => quiet (c <| caller_mutex_ := None |> <| caller := KWaiting |>)
  | KWaiting => if spurious_caller then quiet (c <| caller := KWoken |>) else []
  | KWoken => lock_caller Caller c (fun c => c <| caller := KUnlock |>)
  | KUnlock => quiet (c <| caller_mutex_ := None |> <| caller := Idle |>)
  | Idle => []
  | PLock => lock_caller Caller c (fun c => c <| caller := PLockWorker |>)
  | PLockWorker => lock_worker Caller c (fun c => c <| caller := PSet |>)
  | PSet =>
      [(notify_worker (c <| worker_thread_exit_ := terminate c |> <| pending_code_ := true |>) <| caller := PUnlockWorker |>, EStore)]
  | PUnlockWorker => quiet (c <| worker_mutex_ := None |> <| caller := PWait |>)
  | PWait => quiet (c <| caller_mutex_ := None |> <| caller := PWaiting |>)
  | PWaiting => if spurious_caller then quiet (c <| caller := PWoken |>) else []
  | PWoken => lock_caller Caller c (fun c => c <| caller := PUnlock |>)
  | PUnlock =>
      let c := c <| caller_mutex_ := None |> in
      if terminate c then quiet (c <| caller := Join |>) else [(c <| caller := Idle |> <| ran := false |>, EReturn)]
  | Join => if decide (worker c = WDead) then quiet (c <| caller := Destroyed |>) else []
  | Destroyed => []
  end.
Definition worker_next (c : Ctl) : list (Ctl * Effect) :=
  match worker c with
  | NotStarted => []
  | WLock => lock_worker Worker c (fun c => c <| worker := WReady |>)
  | WReady => lock_caller Worker c (fun c => c <| worker := WReadyNotify |>)
  | WReadyNotify => quiet (notify_caller c <| worker := WReadyUnlock |>)
  | WReadyUnlock => quiet (c <| caller_mutex_ := None |> <| worker := WLoop |>)
  | WLoop => quiet (c <| worker := if worker_thread_exit_ c then WExit else WPred |>)
  | WPred => if pending_code_ c then quiet (c <| worker := WTask |>)
             else quiet (c <| worker_mutex_ := None |> <| worker := WWaiting |>)
  | WWaiting => if spurious_worker then quiet (c <| worker := WWoken |>) else []
  | WWoken => lock_worker Worker c (fun c => c <| worker := WPred |>)
  | WTask =>
      let c' := c <| pending_code_ := false |> <| worker := WLockCaller |> in
      if worker_thread_exit_ c then quiet c' else [(c' <| ran := true |>, EHandle)]
  | WLockCaller => lock_caller Worker c (fun c => c <| worker := WNotify |>)
  | WNotify => quiet (notify_caller c <| worker := WUnlockCaller |>)
  | WUnlockCaller => quiet (c <| caller_mutex_ := None |> <| worker := WLoop |>)
  | WExit => quiet (c <| worker_mutex_ := None |> <| worker := WDead |>)
  | WDead => []
  end.
Definition next (c : Ctl) : list (Ctl * Effect) := caller_next c ++ worker_next c.
(** A call of PerformTask, by a client or by the destructor. *)
Definition enter (term : bool) (c : Ctl) : Ctl := c <| caller := PLock |> <| terminate := term |> <| ran := false |>.
Definition entries (c : Ctl) : list Ctl := if decide (caller c = Idle) then [enter false c; enter true c] else [].

(** ** With the codes *)
Context {Code : Type}.
Record State := mkState { ctl : Ctl; task_code_ : option Code; argument : option Code; handled : list Code; returned : list Code }.
Definition apply_effect (e : Effect) (c : Ctl) (s : State) : State :=
  match e with
  | ENothing => mkState c (task_code_ s) (argument s) (handled s) (returned s)
  | EStore => mkState c (argument s) (argument s) (handled s) (returned s)
  | EHandle => mkState c (task_code_ s) (argument s) (handled s ++ option_list (task_code_ s)) (returned s)
  | EReturn => mkState c (task_code_ s) (argument s) (handled s) (returned s ++ option_list (argument s))
  end.
Inductive step (s : State) : State -> Prop :=
| step_thread c e : (c, e) ∈ next (ctl s) -> step s (apply_effect e c s)
| step_perform code : caller (ctl s) = Idle ->
    step s (mkState (enter false (ctl s)) (task_code_ s) (Some code) (handled s) (returned s))
| step_destroy : caller (ctl s) = Idle ->
    step s (mkState (enter true (ctl s)) (task_code_ s) (task_code_ s) (handled s) (returned s)).
Definition new_SyncTask : State := mkState new_Ctl None None [] [].
Definition reachable (s : State) : Prop := rtc step new_SyncTask s.
End Next.

(** * The states of the control *)
Section Explore.
Context (sc sw : bool).
Definition succ (c : Ctl) : list Ctl := map fst (next sc sw c) ++ entries c.
(** All states found in [n] rounds from [todo]. *)
Fixpoint explore (n : nat) (seen todo : list Ctl) : list Ctl :=
  match n, todo with
  | O, _ | _, [] => seen
  | S n, c :: todo =>
      let new := filter (fun x => not (x ∈ seen \/ x ∈ todo)) (remove_dups (succ c)) in
      explore n (if decide (c ∈ seen) then seen else c :: seen) (filter (fun x => x <> c) new ++ todo)
  end.
Definition states : list Ctl := explore 2000 [] [new_Ctl].
Definition closed (l : list Ctl) : bool :=
  bool_decide (new_Ctl ∈ l) && forallb (fun c => forallb (fun d => bool_decide (d ∈ l)) (succ c)) l.
End Explore.

(** * The protocol *)

(** The arguments of the call are in the members. *)
Definition stored (c : Ctl) : bool := match caller c with PUnlockWorker | PWait | PWaiting | PWoken | PUnlock => true | _ => false end.
Definition effect_ok (c d : Ctl) (e : Effect) : bool :=
  match e with
  | ENothing => Bool.eqb (ran d) (ran c) && implb (stored d) (stored c)
  | EStore => negb (ran c) && negb (ran d)
  | EHandle => negb (ran c) && ran d && stored c && stored d
  | EReturn => ran c && negb (ran d) && negb (stored d)
  end.
Definition ctl_ok (sw : bool) (c : Ctl) : bool :=
  forallb (fun '(d, e) => effect_ok c d e) (next false sw c) &&
  match caller c with Idle | Destroyed => negb (ran c) | _ => true end.
Lemma states_closed sw : closed false sw (states false sw) = true.
Proof. destruct sw; vm_compute; reflexivity. Qed.
Lemma states_ok sw : forallb (ctl_ok sw) (states false sw) = true.
Proof. destruct sw; vm_compute; reflexivity. Qed.

(** Every run of the threads from [c] ends within [n] steps, with the caller outside. *)
Definition settled (c : Ctl) : bool := match caller c with Idle | Destroyed => true | _ => false end.
Fixpoint settles (n : nat) (c : Ctl) : bool :=
  match next false false c with
  | [] => settled c
  | l => match n with O => false | S n => forallb (fun p => settles n p.1) l end
  end.
Definition longest_call : nat := 18.
Lemma states_settle : forallb (settles longest_call) (states false false) = true.
Proof. vm_compute. reflexivity. Qed.
#[local] Opaque states.

(** A control that is computed is closed under the steps. *)
Lemma closed_spec sc sw l : closed sc sw l = true -> new_Ctl ∈ l /\ forall c d, c ∈ l -> d ∈ succ sc sw c -> d ∈ l.
Proof.
  intros [H0%bool_decide_eq_true Hc]%andb_prop. split; [done|]. intros c d Hin Hd. rewrite forallb_forall in Hc.
  apply list_elem_of_In, Hc in Hin. rewrite forallb_forall in Hin. apply list_elem_of_In, Hin in Hd. by apply bool_decide_eq_true in Hd.
Qed.

Section Handled.
Context {Code : Type} (sw : bool).
Abbreviation State := (State (Code := Code)).

Record protocol (s : State) : Prop := mkProtocol {
  proto_ctl : ctl s ∈ states false sw;
  proto_stored : stored (ctl s) = true -> task_code_ s = argument s;
  proto_handled : handled s = returned s ++ (if ran (ctl s) then option_list (argument s) else [])
}.
Lemma ctl_ok_in c : c ∈ states false sw -> ctl_ok sw c = true.
Proof. intros Hin. pose proof (states_ok sw) as Hok. rewrite forallb_forall in Hok. by apply Hok, list_elem_of_In. Qed.
Lemma idle_not_ran c : c ∈ states false sw -> caller c = Idle \/ caller c = Destroyed -> ran c = false.
Proof. intros Hin%ctl_ok_in Hc. apply andb_prop in Hin as [_ H]. destruct Hc as [Hc|Hc]; rewrite Hc in H; by apply negb_true_iff in H. Qed.
Lemma step_protocol s s' : step false sw s s' -> protocol s -> protocol s'.
Proof.
  destruct (closed_spec _ _ _ (states_closed sw)) as [_ Hcl]. intros Hst [Hc Hs Hh].
  destruct Hst as [c e Hin|code Hi|Hi].
  - assert (Hd : c ∈ states false sw).
    { apply (Hcl (ctl s)); [done|]. apply elem_of_app. left. apply list_elem_of_fmap. by exists (c, e). }
    pose proof (ctl_ok_in _ Hc) as Hok. apply andb_prop in Hok as [Hok _]. rewrite forallb_forall in Hok.
    apply list_elem_of_In, Hok in Hin. unfold effect_ok in Hin. destruct e; cbn [apply_effect].
    + apply andb_prop in Hin as [Hr%Bool.eqb_prop Hst]. constructor; cbn; [done| |by rewrite Hr].
      intros Hsc. rewrite Hsc in Hst. by apply Hs.
    + apply andb_prop in Hin as [Hr%negb_true_iff Hr'%negb_true_iff]. constructor; cbn; [done..|]. by rewrite Hh, Hr, Hr'.
    + apply andb_prop in Hin as [[[Hr%negb_true_iff Hr']%andb_prop Hsc]%andb_prop Hsd]. constructor; cbn; [done|by intros _; apply Hs|].
      by rewrite Hh, Hr, Hr', app_nil_r, (Hs Hsc).
    + apply andb_prop in Hin as [[Hr Hr'%negb_true_iff]%andb_prop Hsd%negb_true_iff]. constructor; cbn; [done|by rewrite Hsd|].
      by rewrite Hh, Hr, Hr', app_nil_r.
  - assert (Hr := idle_not_ran _ Hc (or_introl Hi)). constructor; cbn; [|done|by rewrite Hh, Hr].
    apply (Hcl (ctl s)); [done|]. apply elem_of_app. right. unfold entries. rewrite Hi. cbn. left.
  - assert (Hr := idle_not_ran _ Hc (or_introl Hi)). constructor; cbn; [|done|by rewrite Hh, Hr].
    apply (Hcl (ctl s)); [done|]. apply elem_of_app. right. unfold entries. rewrite Hi. cbn. right. left.
Qed.
Lemma reachable_protocol (s : State) : reachable false sw s -> protocol s.
Proof.
  assert (H0 : protocol new_SyncTask).
  { destruct (closed_spec _ _ _ (states_closed sw)) as [H _]. by constructor. }
  unfold reachable. generalize (new_SyncTask (Code := Code)), H0. clear H0. intros s0 H0 Hr.
  induction Hr as [s|s1 s2 s3 Hst Hr IH]; [done|]. by apply IH, (step_protocol s1).
Qed.

(** C23: when a wait of the caller ends only with a notification, every call of
    PerformTask that returned had its task handled exactly once, in the order of the
    calls; at any moment at most the task of the running call was handled besides. *)
Theorem tasks_handled_once (s : State) : reachable false sw s ->
  handled s = returned s ++ (if ran (ctl s) then option_list (argument s) else []) /\
  (caller (ctl s) = Idle \/ caller (ctl s) = Destroyed -> handled s = returned s).
Proof.
  intros [Hc _ Hh]%reachable_protocol. split; [done|]. intros Hi. by rewrite Hh, (idle_not_ran _ Hc Hi), app_nil_r.
Qed.

(** A step of one of the two threads. *)
Definition thread (s s' : State) : Prop := exists c e, (c, e) ∈ next false false (ctl s) /\ s' = apply_effect e c s.
Lemma settles_bound n k : forall (s s' : State), settles n (ctl s) = true -> nsteps thread k s s' ->
  (k <= n)%nat /\ (next false false (ctl s') = [] -> settled (ctl s') = true).
Proof.
  revert k. induction n as [|n IH]; intros k s s' Hs Hn.
  - destruct Hn as [s|k s s1 s' (c & e & Hin & _) _]; cbn [settles] in Hs.
    + split; [lia|]. intros E. by rewrite E in Hs.
    + by destruct (next false false (ctl s)); [apply elem_of_nil in Hin|].
  - destruct Hn as [s|k s s1 s' (c & e & Hin & ->) Hn]; cbn [settles] in Hs.
    + split; [lia|]. intros E. by rewrite E in Hs.
    + assert (Hc : settles n c = true).
      { destruct (next false false (ctl s)) as [|p l]; [by apply elem_of_nil in Hin|]. rewrite forallb_forall in Hs.
        by apply list_elem_of_In, Hs in Hin. }
      destruct (IH k (apply_effect e c s) s') as [Hk He]; [by destruct e|done|]. split; [lia|done].
Qed.

(** without spurious wakeups the two threads neither block each other nor run on:
    from every reachable state they take at most eighteen steps in any interleaving, and
    they stop only when the constructor or the call has returned, or the object is
    destroyed. *)
Lemma task_calls_return (s s' : State) k : reachable false false s -> nsteps thread k s s' ->
  (k <= longest_call)%nat /\ (next false false (ctl s') = [] -> caller (ctl s') = Idle \/ caller (ctl s') = Destroyed).
Proof.
  intros Hr Hn. assert (Hc : ctl s ∈ states false false).
  { clear Hn. assert (H0 : ctl (new_SyncTask (Code := Code)) ∈ states false false) by apply (closed_spec _ _ _ (states_closed false)).
    revert H0. unfold reachable in Hr. induction Hr as [s|s1 s2 s3 Hst Hr IH]; [done|]. intros H1. apply IH.
    destruct (closed_spec _ _ _ (states_closed false)) as [_ Hcl]. apply (Hcl (ctl s1)); [done|]. apply elem_of_app.
    destruct Hst as [c e Hin|code Hi|Hi]; [left; replace (ctl (apply_effect e c s1)) with c by (by destruct e); apply list_elem_of_fmap; by exists (c, e)|right..];
      unfold entries; cbn; rewrite Hi; cbn; set_solver. }
  pose proof states_settle as Hs. rewrite forallb_forall in Hs. apply list_elem_of_In, Hs in Hc.
  destruct (settles_bound _ _ _ _ Hc Hn) as [Hk He]. split; [done|]. intros E. specialize (He E). unfold settled in He.
  destruct (caller (ctl s')); try done; auto.
Qed.
End Handled.

(** ** Runs *)

(** The [i]-th step of the threads, and a call. *)
Fixpoint walk (sc sw : bool) (l : list nat) (s : State (Code := Z)) : option State :=
  match l with
  | [] => Some s
  | i :: l => match next sc sw (ctl s) !! i with Some (c, e) => walk sc sw l (apply_effect e c s) | None => None end
  end.
Definition perform (code : Z) (s : State (Code := Z)) : State :=
  mkState (enter false (ctl s)) (task_code_ s) (Some code) (handled s) (returned s).
Lemma walk_steps sc sw l : forall s s', walk sc sw l s = Some s' -> rtc (step sc sw) s s'.
Proof.
  induction l as [|i l IH]; intros s s' E; [by injection E as <-|]. cbn [walk] in E.
  destruct (next sc sw (ctl s) !! i) as [[c e]|] eqn:Ei; [|done]. eapply rtc_l; [|by apply IH]. constructor.
  by apply list_elem_of_lookup_2 in Ei.
Qed.
Definition the (o : option (State (Code := Z))) : State := match o with Some s => s | None => new_SyncTask end.
Definition constructed : State := the (walk false false [0; 0; 0; 0; 0; 0; 0; 1; 1; 0; 0]%nat new_SyncTask).
Definition performed : State := the (walk false false [0; 0; 0; 0; 0; 0; 0; 0; 0; 0; 0; 0; 0]%nat (perform 7 constructed)).
Lemma constructed_reachable : reachable false false constructed.
Proof. apply (walk_steps _ _ [0; 0; 0; 0; 0; 0; 0; 1; 1; 0; 0]%nat). vm_compute. reflexivity. Qed.
Lemma performed_reachable : reachable false false performed.
Proof.
  unfold reachable. transitivity constructed; [exact constructed_reachable|]. eapply rtc_l; [apply (step_perform false false constructed 7); vm_compute; reflexivity|].
  apply (walk_steps _ _ [0; 0; 0; 0; 0; 0; 0; 0; 0; 0; 0; 0; 0]%nat). vm_compute. reflexivity.
Qed.
Lemma tasks_handled_once_witness : returned performed = [7] /\ handled performed = returned performed.
Proof.
  split; [vm_compute; reflexivity|]. apply (tasks_handled_once false performed performed_reachable). left. vm_compute. reflexivity.
Defined.
(** The call from its first step to its return. *)
Definition performing : State := perform 7 constructed.
Lemma performing_reachable : reachable false false performing.
Proof. eapply rtc_r; [exact constructed_reachable|]. apply step_perform. vm_compute. reflexivity. Qed.
Lemma walk_nsteps l : forall s s', walk false false l s = Some s' -> nsteps thread (length l) s s'.
Proof.
  induction l as [|i l IH]; intros s s' E; [injection E as <-; constructor|]. cbn [walk] in E.
  destruct (next false false (ctl s) !! i) as [[c e]|] eqn:Ei; [|done]. econstructor; [|by apply IH].
  exists c, e. split; [|done]. by apply list_elem_of_lookup_2 in Ei.
Qed.
Definition returned_state : State := the (walk false false [0; 0; 0; 0; 0; 0; 0; 0; 0; 0; 0; 0; 0; 0; 0]%nat performing).
Lemma task_calls_return_witness : nsteps thread 15 performing returned_state /\ next false false (ctl returned_state) = [] /\
  ((15 <= longest_call)%nat /\ (next false false (ctl returned_state) = [] -> caller (ctl returned_state) = Idle \/ caller (ctl returned_state) = Destroyed)).
Proof.
  assert (Hn : nsteps thread 15 performing returned_state).
  { apply (walk_nsteps [0; 0; 0; 0; 0; 0; 0; 0; 0; 0; 0; 0; 0; 0; 0]%nat). vm_compute. reflexivity. }
  split; [exact Hn|]. split; [vm_compute; reflexivity|]. exact (task_calls_return performing returned_state 15 performing_reachable Hn).
Defined.

(** The wait of the caller has no condition: when it ends without a notification, the
    call returns before its task was handled. *)
Lemma spurious_wakeup_returns :
  let s := the (walk true false [0; 0; 0; 1; 1; 1; 0; 1; 1; 0; 0]%nat new_SyncTask) in
  let s' := the (walk true false [0; 0; 0; 0; 0; 0; 0; 0]%nat (perform 7 s)) in
  caller (ctl s) = Idle /\ caller (ctl s') = Idle /\ returned s' = [7] /\ handled s' = [].
Proof. vm_compute. split_and!; reflexivity. Qed.
(** And the next call then blocks for ever: the caller holds its mutex and waits for the
    worker's, the worker the other way round. *)
Lemma spurious_wakeup_deadlock :
  let s := the (walk true false [0; 0; 0; 1; 1; 1; 0; 1; 1; 0; 0]%nat new_SyncTask) in
  let s' := the (walk true false [0; 0; 0; 0; 0; 0; 0; 0; 0; 0]%nat (perform 7 s)) in
  let s'' := the (walk true false [0; 0]%nat (perform 8 s')) in
  next true true (ctl s'') = [] /\ caller (ctl s'') = PLockWorker /\ worker (ctl s'') = WLockCaller.
Proof. vm_compute. split_and!; reflexivity. Qed.
End SyncTask.
