(* ===== verification/ToneMap.v ===== *)
(** The sessions of the tone mapper: src/hardware/qcom-caf/display/sdm/libs/hwc2/hwc_tonemapper.cpp,
    with SyncMerge of sdm/libs/hwc/hwc_buffer_sync_handler.cpp, CloseFd of
    sdm/libs/utils/utils.cpp and FreeBuffer of hwc_buffer_allocator.cpp.

    A layer that needs tone mapping is blitted by the GPU into one of the two buffers
    of a session; the frame buffer's session may be used again without a blit.  The
    tasks of a session run on its own thread, but the caller waits for each
    ([SyncTask.tasks_handled_once]), so that a task is a call.  The GPU library, the
    allocator and the descriptors are the class [ToneEnv]. *)
From S2P Require Import Prelude Rect ResourceDefault MetaData GrUtils Strategy HwcLayer.
#[local] Open Scope Z_scope.

Module ToneMap.
Import Float32 Rect Formats ResourceDefault Strategy HwcLayer.

(** A layer with what SDM asks for it and its three-dimensional table: whether there
    are entries, their dimension, and the size of the grid if it is valid. *)
Record TLayer := mkTLayer {
  tlayer : Layer; rq_width : Z; rq_height : Z; rq_format : LayerBufferFormat; lutEntries : bool; lut_dim : Z; gridSize : option Z
}.
#[global] Instance eta_tlayer : Eta TLayer := fun l =>
  mkTLayer (tlayer l) (rq_width l) (rq_height l) (rq_format l) (lutEntries l) (lut_dim l) (gridSize l).

Definition TONEMAP_FORWARD : Z := 0.
Definition TONEMAP_INVERSE : Z := 1.
Definition kNumIntermediateBuffers : nat := 2.
Record ToneMapConfig := mkConfig {
  ttype : Z; colorPrimaries : Z; ttransfer : Z; tformat : LayerBufferFormat; tsecure : bool
}.
(** BufferInfo as far as the sessions use it; a null [private_data] is 0. *)
Record TBuffer := mkTBuffer {
  tb_width : Z; tb_height : Z; tb_format : LayerBufferFormat; tb_secure : bool; gfx_client : bool;
  alloc_fd : Z; alloc_stride : Z; alloc_size : Z; private_data : Z
}.
#[global] Instance eta_tbuffer : Eta TBuffer := fun b =>
  mkTBuffer (tb_width b) (tb_height b) (tb_format b) (tb_secure b) (gfx_client b) (alloc_fd b) (alloc_stride b) (alloc_size b)
    (private_data b).
Definition TBuffer0 : TBuffer := mkTBuffer 0 0 kFormatInvalid false false (-1) 0 0 0.
Record Session := mkSession {
  gpu_tone_mapper_ : option Z; tone_map_config_ : ToneMapConfig; current_buffer_index_ : nat; buffer_info_ : list TBuffer;
  release_fence_fd_ : list Z; acquired_ : bool; layer_index_ : Z
}.
#[global] Instance eta_session : Eta Session := fun s =>
  mkSession (gpu_tone_mapper_ s) (tone_map_config_ s) (current_buffer_index_ s) (buffer_info_ s) (release_fence_fd_ s) (acquired_ s)
    (layer_index_ s).

(** The calls on descriptors, buffers and mappers are for those that are open: the
    laws of [ToneProps.ToneLaws] say what they do to them, and nothing of a call on one
    that is closed.  [TE_lock] is the lock of gralloc, which may give no address;
    [TE_unaligned] are the unaligned width and height of a handle. *)
Class ToneEnv (E : Type) := {
  ColorPrimaries_Max : Z; Transfer_Max : Z;
  TE_GetInstance : Z -> Z -> option Z -> bool -> St E (option Z);
  TE_blit : Z -> Z -> Z -> Z -> St E Z;                    (* mapper, destination, source, fence *)
  TE_delete : option Z -> St E unit;
  TE_AllocateBuffer : TBuffer -> St E (DisplayError * TBuffer);
  TE_ReleaseBuffer : Z -> St E unit;
  TE_close : Z -> St E unit;
  TE_dup : Z -> St E Z;
  TE_sync_merge : Z -> Z -> St E Z;
  TE_sync_wait : Z -> St E Z;
  TE_lock : Z -> St E bool;
  TE_dump : Z -> Z -> St E unit;
  TE_unaligned : Z -> St E (Z * Z)
}.
Record Mapper := mkMapper { tone_map_sessions_ : list Session; fb_session_index_ : Z; dump_frame_count_ : Z; dump_frame_index_ : Z }.
#[global] Instance eta_mapper : Eta Mapper := fun m =>
  mkMapper (tone_map_sessions_ m) (fb_session_index_ m) (dump_frame_count_ m) (dump_frame_index_ m).
Definition new_HWCToneMapper : Mapper := mkMapper [] (-1) 0 0.
Record World (E : Type) := mkToneWorld { mapper : Mapper; env : E }.
Arguments mkToneWorld {E}.
Arguments mapper {E}.
Arguments env {E}.
#[global] Instance eta_tone_world {E} : Eta (World E) := fun w => mkToneWorld (mapper w) (env w).

Section ToneMap.
Context {E : Type} `{!ToneEnv E}.
Abbreviation M := (St (World E)).
Definition in_e {A} (m : St E A) : M A := fun w =>
  match m (env w) with Ret (a, e) => Ret (a, w <| env := e |>) | Undef => Undef | NoFuel => NoFuel end.
Definition on_mapper (f : Mapper -> Mapper) : M unit := st_modify (fun w => w <| mapper ::= f |>).

(** ** Descriptors *)

(** The new value of the variable. *)
Definition CloseFd (fd : Z) : St E Z := if 0 <=? fd then _ ← TE_close fd; mret (-1) else mret fd.
(** The merged descriptor; the error is not looked at. *)
Definition SyncMerge (fd1 fd2 : Z) : St E Z :=
  if (0 <=? fd1) && (0 <=? fd2) then TE_sync_merge fd1 fd2
  else if 0 <=? fd1 then TE_sync_merge fd1 fd1
  else if 0 <=? fd2 then TE_sync_merge fd2 fd2
  else mret (-1).
Definition FreeBuffer (b : TBuffer) : St E TBuffer :=
  _ ← TE_ReleaseBuffer (private_data b);
  mret (b <| alloc_fd := -1 |> <| alloc_stride := 0 |> <| alloc_size := 0 |> <| private_data := 0 |>).

(** Whether there is an address.  The lock of gralloc waits for the fence and closes
    it (GrallocImpl::LockBuffer). *)
Definition MapBuffer (h acquire_fence : Z) : St E bool :=
  failed ← (if 0 <? acquire_fence then r ← TE_sync_wait acquire_fence; _ ← TE_close acquire_fence; mret (r <? 0) else mret false);
  if (failed : bool) then mret false else TE_lock h.

(** ** Sessions *)
Definition new_ToneMapSession : Session :=
  mkSession None (mkConfig 0 ColorPrimaries_Max Transfer_Max kFormatRGBA8888 false) 0 (replicate kNumIntermediateBuffers TBuffer0)
    (replicate kNumIntermediateBuffers (-1)) false (-1).

(** The loop from buffer [i] on; an index is of a vector or an array of two. *)
Fixpoint free_loop (n i : nat) (s : Session) : St E Session :=
  match n with
  | O => mret s
  | S n =>
      match release_fence_fd_ s !! i, buffer_info_ s !! i with
      | Some fd, Some b =>
          fd ← CloseFd fd;
          let s := s <| release_fence_fd_ ::= <[i := fd]> |> in
          s ← (if negb (private_data b =? 0) then b ← FreeBuffer b; mret (s <| buffer_info_ ::= <[i := b]> |>) else mret s);
          free_loop n (S i) s
      | _, _ => st_undef
      end
  end.
Definition FreeIntermediateBuffers (s : Session) : St E Session := free_loop kNumIntermediateBuffers 0 s.
Definition delete_session (s : Session) : St E unit :=
  _ ← TE_delete (gpu_tone_mapper_ s); _ ← FreeIntermediateBuffers s; mret tt.
Fixpoint allocate_loop (n i : nat) (l : TLayer) (s : Session) : St E (DisplayError * Session) :=
  match n with
  | O => mret (kErrorNone, s)
  | S n =>
      match buffer_info_ s !! i with
      | None => st_undef
      | Some b =>
          let b := b <| tb_width := rq_width l |> <| tb_height := rq_height l |> <| tb_format := rq_format l |>
                     <| tb_secure := rq_secure (request (tlayer l)) |> <| gfx_client := true |> in
          '(e, b) ← TE_AllocateBuffer b;
          let s := s <| buffer_info_ ::= <[i := b]> |> in
          if decide (e <> kErrorNone) then s ← FreeIntermediateBuffers s; mret (e, s) else allocate_loop n (S i) l s
      end
  end.
Definition AllocateIntermediateBuffers (l : TLayer) (s : Session) : St E (DisplayError * Session) :=
  allocate_loop kNumIntermediateBuffers 0 l s.
Definition UpdateBuffer (acquire_fence : Z) (s : Session) (b : Buffer) : outcome Buffer :=
  match buffer_info_ s !! current_buffer_index_ s with
  | Some i => Ret (b <| acquire_fence_fd := acquire_fence |> <| size := alloc_size i |> <| plane_fd := alloc_fd i |>)
  | None => Undef
  end.
Definition SetReleaseFence (fd : Z) (s : Session) : St E Session :=
  match release_fence_fd_ s !! current_buffer_index_ s with
  | None => st_undef
  | Some old => _ ← CloseFd old; fd ← TE_dup fd; mret (s <| release_fence_fd_ ::= <[current_buffer_index_ s := fd]> |>)
  end.
Definition tone_type (l : TLayer) : Z := if hdr (bflags (input_buffer (tlayer l))) then TONEMAP_FORWARD else TONEMAP_INVERSE.
Definition SetToneMapConfig (l : TLayer) (s : Session) : Session :=
  let c := color_metadata (input_buffer (tlayer l)) in
  s <| tone_map_config_ :=
    mkConfig (tone_type l) (HwcLayer.colorPrimaries c) (transfer c) (rq_format l) (rq_secure (request (tlayer l))) |>.
(** The size of the buffer is read only when the rest agrees. *)
Definition IsSameToneMapConfig (l : TLayer) (s : Session) : St E bool :=
  match buffer_info_ s !! 0%nat with
  | None => st_undef
  | Some b =>
      let c := color_metadata (input_buffer (tlayer l)) in
      let g := tone_map_config_ s in
      if (tone_type l =? ttype g) && (HwcLayer.colorPrimaries c =? colorPrimaries g) && (transfer c =? ttransfer g) &&
         Bool.eqb (rq_secure (request (tlayer l))) (tsecure g) && bool_decide (rq_format l = tformat g) then
        if private_data b =? 0 then st_undef
        else '(w, h) ← TE_unaligned (private_data b); mret ((rq_width l =? u32 w) && (rq_height l =? u32 h))
      else mret false
  end.

(** ** The mapper *)
Definition put_session (i : nat) (s : Session) : M unit := on_mapper (fun m => m <| tone_map_sessions_ ::= <[i := s]> |>).
Definition Terminate : M unit :=
  l ← st_gets (fun w => tone_map_sessions_ (mapper w));
  match l with
  | [] => mret tt
  | _ =>
      _ ← in_e (foldr (fun s (k : St E unit) => _ ← delete_session s; k) (mret tt) (reverse l));
      on_mapper (fun m => m <| tone_map_sessions_ := [] |> <| fb_session_index_ := -1 |>)
  end.
Definition SetFrameDumpConfig (count : Z) : M unit :=
  on_mapper (fun m => m <| dump_frame_count_ := count |> <| dump_frame_index_ := 0 |>).

(** The first session from [i] on that can be used again. *)
Fixpoint reuse_loop (l : TLayer) (ss : list Session) (i : nat) : M (option nat) :=
  match ss with
  | [] => mret None
  | s :: ss =>
      same ← (if acquired_ s then mret false else in_e (IsSameToneMapConfig l s));
      if (same : bool) then
        _ ← put_session i (s <| current_buffer_index_ := ((current_buffer_index_ s + 1) mod kNumIntermediateBuffers)%nat |> <| acquired_ := true |>);
        mret (Some i)
      else reuse_loop l ss (S i)
  end.
(** The error and the index, which is 0 when it is not set. *)
Definition AcquireToneMapSession (l : TLayer) : M (DisplayError * nat) :=
  if negb (lutEntries l) || (lut_dim l =? 0) then mret (kErrorParameters, O)
  else
    ss ← st_gets (fun w => tone_map_sessions_ (mapper w));
    r ← reuse_loop l ss 0;
    match r with
    | Some i => mret (kErrorNone, i)
    | None =>
        let s := SetToneMapConfig l new_ToneMapSession in
        g ← in_e (TE_GetInstance (ttype (tone_map_config_ s)) (lut_dim l) (gridSize l) (tsecure (tone_map_config_ s)));
        let s := s <| gpu_tone_mapper_ := g |> in
        match g with
        | None => _ ← in_e (delete_session s); mret (kErrorNotSupported, O)
        | Some _ =>
            '(e, s) ← in_e (AllocateIntermediateBuffers l s);
            if decide (e <> kErrorNone) then _ ← in_e (delete_session s); mret (e, O)
            else
              _ ← on_mapper (fun m => m <| tone_map_sessions_ ::= fun l => l ++ [s <| acquired_ := true |>] |>);
              n ← st_gets (fun w => length (tone_map_sessions_ (mapper w)));
              mret (kErrorNone, (n - 1)%nat)
        end
    end.

(** The fence after the dump. *)
Definition DumpToneMapOutput (s : Session) (acquire_fd : Z) : M Z :=
  m ← st_gets mapper;
  if dump_frame_count_ m =? 0 then mret acquire_fd
  else
    match buffer_info_ s !! current_buffer_index_ s with
    | None => st_undef
    | Some b =>
        r ← (if 0 <=? acquire_fd then in_e (TE_sync_wait acquire_fd) else mret 0);
        if r <? 0 then mret acquire_fd
        else
          ok ← in_e (MapBuffer (private_data b) acquire_fd);
          if negb ok then mret acquire_fd
          else
            _ ← in_e (TE_dump (private_data b) (dump_frame_index_ m));
            _ ← on_mapper (fun m => m <| dump_frame_count_ ::= Z.pred |> <| dump_frame_index_ ::= fun i => u32 (i + 1) |>);
            in_e (CloseFd acquire_fd)
    end.
(** The layer and the session after the blit. *)
Definition tone_map (l : TLayer) (i : nat) : M TLayer :=
  ss ← st_gets (fun w => tone_map_sessions_ (mapper w));
  match ss !! i with
  | None => st_undef
  | Some s =>
      match release_fence_fd_ s !! current_buffer_index_ s, buffer_info_ s !! current_buffer_index_ s, gpu_tone_mapper_ s with
      | Some release, Some b, Some g =>
          let acquire := acquire_fence_fd (input_buffer (tlayer l)) in
          merged ← in_e (SyncMerge release acquire);
          _ ← in_e (CloseFd acquire);
          release ← in_e (CloseFd release);
          let s := s <| release_fence_fd_ ::= <[current_buffer_index_ s := release]> |> in
          _ ← put_session i s;
          fence ← in_e (TE_blit g (private_data b) (buffer_id (input_buffer (tlayer l))) merged);
          fence ← DumpToneMapOutput s fence;
          b ← st_lift (UpdateBuffer fence s (input_buffer (tlayer l)));
          mret (l <| tlayer ::= fun x => x <| input_buffer := b |> |>)
      | _, _, _ => st_undef
      end
  end.
Definition set_layer_index (i : nat) (index : Z) : M unit :=
  on_mapper (fun m => m <| tone_map_sessions_ ::= alter (fun s => s <| layer_index_ := index |>) i |>).

(** The layers from index [i] on; [done] are those before. *)
Fixpoint handle_loop (done todo : list TLayer) (gpu_count : Z) : M (Z * list TLayer) :=
  match todo with
  | [] => mret (0, done)
  | l :: todo =>
      let i := Z.of_nat (length done) in
      let gpu_count := if decide (composition (tlayer l) = kCompositionGPU) then u32 (gpu_count + 1) else gpu_count in
      if negb (HwcLayer.tone_map (request (tlayer l))) then handle_loop (done ++ [l]) todo gpu_count
      else
        m ← st_gets mapper;
        let target := bool_decide (composition (tlayer l) = CompositionGPUTarget) in
        if target && (gpu_count =? 0) && negb (bool_decide (tone_map_sessions_ m = [])) && (0 <=? fb_session_index_ m) then
          let k := Z.to_nat (fb_session_index_ m) in
          match tone_map_sessions_ m !! k with
          | None => st_undef
          | Some s =>
              b ← st_lift (UpdateBuffer (-1) s (input_buffer (tlayer l)));
              _ ← put_session k (s <| layer_index_ := i |> <| acquired_ := true |>);
              mret (0, done ++ (l <| tlayer ::= fun x => x <| input_buffer := b |> |>) :: todo)
          end
        else
          '(e, k) ← AcquireToneMapSession l;
          _ ← (if target then on_mapper (fun m => m <| fb_session_index_ := Z.of_nat k |>) else mret tt);
          if decide (e <> kErrorNone) then _ ← Terminate; mret (-1, done ++ l :: todo)
          else
            l ← tone_map l k;
            _ ← set_layer_index k i;
            handle_loop (done ++ [l]) todo gpu_count
  end.
Definition HandleToneMap (layers : list TLayer) : M (Z * list TLayer) := handle_loop [] layers 0.

(** The sessions before the iterator, those from it on, and the index of the frame
    buffer's. *)
Fixpoint post_loop (done todo : list Session) (fb : Z) (layers : list TLayer) : M (list Session * Z * list TLayer) :=
  match todo with
  | [] => mret (done, fb, layers)
  | s :: todo =>
      let session_index := Z.of_nat (length done) in
      if acquired_ s then
        let k := Z.to_nat (u32 (layer_index_ s)) in
        match layers !! k with
        | None => st_undef
        | Some l =>
            let b := input_buffer (tlayer l) in
            fd ← in_e (CloseFd (acquire_fence_fd b));
            let l := l <| tlayer ::= fun x => x <| input_buffer ::= fun b => b <| acquire_fence_fd := fd |> |> |> in
            s ← in_e (SetReleaseFence (release_fence_fd b) s);
            post_loop (done ++ [s <| acquired_ := false |>]) todo fb (<[k := l]> layers)
        end
      else
        _ ← in_e (delete_session s);
        post_loop done todo (if session_index =? fb then -1 else if session_index <? fb then fb - 1 else fb) layers
  end.
Definition PostCommit (layers : list TLayer) : M (list TLayer) :=
  m ← st_gets mapper;
  '(ss, fb, layers) ← post_loop [] (tone_map_sessions_ m) (fb_session_index_ m) layers;
  _ ← on_mapper (fun m => m <| tone_map_sessions_ := ss |> <| fb_session_index_ := fb |>);
  mret layers.
Definition IsActive : M bool := st_gets (fun w => negb (bool_decide (tone_map_sessions_ (mapper w) = []))).
End ToneMap.
End ToneMap.
