(* ===== verification/Wp.v ===== *)
(** Weakest preconditions of stateful computations: [wp] asks a call to return, [safe]
    only that it does nothing undefined, so that it may wait for another thread for
    ever. *)
From S2P Require Import Prelude.

(** * Calls that return *)
Section Wp.
Context {S : Type}.

(** [m] returns from [s], with a result and a state in [Q]. *)
Definition wp {A} (m : St S A) (Q : A -> S -> Prop) (s : S) : Prop := exists a s', m s = Ret (a, s') /\ Q a s'.
Lemma wp_mono {A} (m : St S A) (P Q : A -> S -> Prop) s : wp m P s -> (forall a s', P a s' -> Q a s') -> wp m Q s.
Proof. intros (a & s' & E & H) HQ. exists a, s'. auto. Qed.
Lemma wp_bind {A B} (m : St S A) (k : A -> St S B) Q s : wp m (fun a s' => wp (k a) Q s') s -> wp (m ≫= k) Q s.
Proof. intros (a & s' & E & b & s'' & Ek & H). exists b, s''. split; [|done]. by rewrite (st_bind_Ret _ _ _ _ _ E). Qed.
Lemma wp_ret {A} (a : A) (Q : A -> S -> Prop) s : Q a s -> wp (mret a) Q s.
Proof. intros H. by exists a, s. Qed.
Lemma wp_gets {A} (f : S -> A) (Q : A -> S -> Prop) s : Q (f s) s -> wp (st_gets f) Q s.
Proof. intros H. by exists (f s), s. Qed.
Lemma wp_modify (f : S -> S) (Q : unit -> S -> Prop) s : Q tt (f s) -> wp (st_modify f) Q s.
Proof. intros H. by exists tt, (f s). Qed.
Lemma wp_lift {A} (m : outcome A) a (Q : A -> S -> Prop) s : m = Ret a -> Q a s -> wp (st_lift m) Q s.
Proof. intros -> H. by exists a, s. Qed.
Definition total {A} (m : St S A) : Prop := forall s, wp m (fun _ _ => True) s.
Lemma wp_total {A} (m : St S A) (Q : A -> S -> Prop) s : total m -> (forall a s', Q a s') -> wp m Q s.
Proof. intros Hm HQ. eapply wp_mono; [apply Hm|auto]. Qed.
End Wp.
Ltac wp_step := apply wp_bind.

(** * Calls that do nothing undefined *)
Section Safe.
Context {S : Type}.

(** [m] is not undefined from [s], and if it returns result and state are in [Q]. *)
Definition safe {A} (m : St S A) (Q : A -> S -> Prop) (s : S) : Prop :=
  match m s with Ret (a, s') => Q a s' | Undef => False | NoFuel => True end.
Lemma safe_mono {A} (m : St S A) (P Q : A -> S -> Prop) s : safe m P s -> (forall a s', P a s' -> Q a s') -> safe m Q s.
Proof. unfold safe. destruct (m s) as [[a s']| |]; auto. Qed.
Lemma safe_bind {A B} (m : St S A) (k : A -> St S B) Q s : safe m (fun a s' => safe (k a) Q s') s -> safe (m ≫= k) Q s.
Proof. unfold safe, mbind, st_bind. by destruct (m s) as [[a s']| |]. Qed.
Lemma safe_ret {A} (a : A) (Q : A -> S -> Prop) s : Q a s -> safe (mret a) Q s.
Proof. done. Qed.
Lemma safe_gets {A} (f : S -> A) (Q : A -> S -> Prop) s : Q (f s) s -> safe (st_gets f) Q s.
Proof. done. Qed.
Lemma safe_modify (f : S -> S) (Q : unit -> S -> Prop) s : Q tt (f s) -> safe (st_modify f) Q s.
Proof. done. Qed.
Lemma safe_lift {A} (m : outcome A) (Q : A -> S -> Prop) s : m <> Undef -> (forall a, m = Ret a -> Q a s) -> safe (st_lift m) Q s.
Proof. intros Hm HQ. unfold safe, st_lift. destruct m; [by apply HQ|done|done]. Qed.
Lemma wp_safe {A} (m : St S A) (Q : A -> S -> Prop) s : wp m Q s -> safe m Q s.
Proof. intros (a & s' & E & H). unfold safe. by rewrite E. Qed.
Lemma safe_Ret {A} (m : St S A) (Q : A -> S -> Prop) s a s' : safe m Q s -> m s = Ret (a, s') -> Q a s'.
Proof. unfold safe. intros H E. by rewrite E in H. Qed.
End Safe.
