(* ===== verification/ToneProps.v ===== *)
(** The properties of the tone mapper over a frame, HandleToneMap and then PostCommit,
    proved with the rules of [Wp].  The fences, buffers and GPU mappers are resources
    that are open or not, and what a call needs and leaves is a list of them. *)
From S2P Require Import Prelude Rect ResourceDefault MetaData GrUtils Strategy HwcLayer ToneMap Wp.
#[local] Open Scope Z_scope.

Module ToneProps.
Import Float32 Rect Formats ResourceDefault Strategy HwcLayer ToneMap.

(** ** The libraries *)
Inductive resource := RFence (fd : Z) | RBuffer (h : Z) | RMapper (g : Z).
#[global] Instance resource_eq_dec : EqDecision resource.
Proof. solve_decision. Defined.
Definition fence (fd : Z) : list resource := if 0 <=? fd then [RFence fd] else [].
Definition mapper_of (g : option Z) : list resource := match g with Some g => [RMapper g] | None => [] end.

(** From [e] to [e'] the resources [out] were closed and those of [inn] opened; a
    fence that stayed open waits for the same points of the timelines, and [k]
    duplicates were refused. *)
Section Moves.
Context {E : Type} (live : E -> resource -> Prop) (points : E -> Z -> gset Z) (refused : E -> nat).
Record moves (k : nat) (e e' : E) (out inn : list resource) : Prop := {
  mv_nodup : NoDup inn;
  mv_fresh r : r ∈ inn -> live e r -> r ∈ out;
  mv_live r : live e' r <-> (live e r /\ r ∉ out) \/ r ∈ inn;
  mv_points fd : live e (RFence fd) -> RFence fd ∉ out -> points e' fd = points e fd;
  mv_refused : refused e' = (refused e + k)%nat
}.
End Moves.

(** A call on resources that are open returns; nothing is known of one on a resource
    that is not.  The GPU may take over the fence it is given; a buffer that was not
    allocated leaves its handle as it was; a duplicate waits for what its original
    waits for, and may be refused. *)
Class ToneLaws (E : Type) `{!ToneEnv E} := {
  live : E -> resource -> Prop;
  points : E -> Z -> gset Z;
  refused : E -> nat;
  tl_GetInstance t d g s e : wp (TE_GetInstance t d g s) (fun r e' => moves live points refused 0 e e' [] (mapper_of r)) e;
  tl_blit m d s f e : live e (RMapper m) -> live e (RBuffer d) -> (forall r, r ∈ fence f -> live e r) ->
    wp (TE_blit m d s f) (fun r e' => exists out, (out = [] \/ out = fence f) /\ moves live points refused 0 e e' out (fence r)) e;
  tl_delete m e : (forall r, r ∈ mapper_of m -> live e r) -> wp (TE_delete m) (fun _ e' => moves live points refused 0 e e' (mapper_of m) []) e;
  tl_AllocateBuffer b e : wp (TE_AllocateBuffer b) (fun '(r, b') e' =>
    if decide (r = kErrorNone) then private_data b' <> 0 /\ moves live points refused 0 e e' [] [RBuffer (private_data b')]
    else private_data b' = private_data b /\ moves live points refused 0 e e' [] []) e;
  tl_ReleaseBuffer h e : live e (RBuffer h) -> wp (TE_ReleaseBuffer h) (fun _ e' => moves live points refused 0 e e' [RBuffer h] []) e;
  tl_close fd e : live e (RFence fd) -> wp (TE_close fd) (fun _ e' => moves live points refused 0 e e' [RFence fd] []) e;
  tl_dup fd e : (forall r, r ∈ fence fd -> live e r) ->
    wp (TE_dup fd) (fun r e' => moves live points refused (if (0 <=? fd) && (r <? 0) then 1 else 0) e e' [] (fence r) /\
      (0 <= r -> 0 <= fd /\ points e' r = points e fd)) e;
  tl_sync_merge a b e : live e (RFence a) -> live e (RFence b) -> wp (TE_sync_merge a b) (fun r e' => moves live points refused 0 e e' [] (fence r)) e;
  tl_sync_wait fd e : live e (RFence fd) -> wp (TE_sync_wait fd) (fun _ e' => moves live points refused 0 e e' [] []) e;
  tl_lock h e : live e (RBuffer h) -> wp (TE_lock h) (fun _ e' => moves live points refused 0 e e' [] []) e;
  tl_dump h i e : live e (RBuffer h) -> wp (TE_dump h i) (fun _ e' => moves live points refused 0 e e' [] []) e;
  tl_unaligned h e : live e (RBuffer h) -> wp (TE_unaligned h) (fun _ e' => moves live points refused 0 e e' [] []) e
}.

(** * The invariant *)

(** Two buffers and two fences, one of them current. *)
Definition shaped (s : Session) : Prop :=
  length (buffer_info_ s) = kNumIntermediateBuffers /\ length (release_fence_fd_ s) = kNumIntermediateBuffers /\
  (current_buffer_index_ s < kNumIntermediateBuffers)%nat.
(** And all a blit needs. *)
Definition usable (s : Session) : Prop :=
  shaped s /\ is_Some (gpu_tone_mapper_ s) /\ Forall (fun b => private_data b <> 0) (buffer_info_ s).
(** An acquired session belongs to one of [n] layers. *)
Definition placed (n : nat) (s : Session) : Prop := acquired_ s = true -> 0 <= layer_index_ s < Z.of_nat n.
(** An index of the frame buffer's session that is not -1 is of a session, or 0. *)
Definition fb_ok (m : Mapper) : Prop := -1 <= fb_session_index_ m < Z.max 1 (Z.of_nat (length (tone_map_sessions_ m))).
Definition in_frame (n : nat) (m : Mapper) : Prop :=
  Forall (fun s => usable s /\ placed n s) (tone_map_sessions_ m) /\ fb_ok m.
(** Between two frames no session is acquired. *)
Definition between (m : Mapper) : Prop :=
  Forall (fun s => usable s /\ acquired_ s = false) (tone_map_sessions_ m) /\ fb_ok m.
#[global] Instance usable_dec s : Decision (usable s).
Proof. unfold usable, shaped. apply _. Defined.
#[global] Instance placed_dec n s : Decision (placed n s).
Proof. unfold placed. apply _. Defined.
#[global] Instance in_frame_dec n m : Decision (in_frame n m).
Proof. unfold in_frame, fb_ok. apply _. Defined.
#[global] Instance between_dec m : Decision (between m).
Proof. unfold between, fb_ok. apply _. Defined.
Lemma between_in_frame n m : between m -> in_frame n m.
Proof.
  intros [Hs Hf]. split; [|done]. eapply Forall_impl; [exact Hs|]. intros s [Hu Ha]. split; [done|]. intros Ht. congruence.
Qed.

(** ** What is held *)
Definition buffer_of (b : TBuffer) : list resource := if private_data b =? 0 then [] else [RBuffer (private_data b)].
Definition held_by (s : Session) : list resource :=
  (release_fence_fd_ s ≫= fence) ++ (buffer_info_ s ≫= buffer_of) ++ mapper_of (gpu_tone_mapper_ s).
Definition acquire_of (l : TLayer) : list resource := fence (acquire_fence_fd (input_buffer (tlayer l))).
(** The fences, buffers and mappers of the sessions and the acquire fences of the layers. *)
Definition held (ss : list Session) (layers : list TLayer) : list resource := (ss ≫= held_by) ++ (layers ≫= acquire_of).

(** What one element of a list holds can be taken out. *)
Lemma bind_insert {A B} (f : A -> list B) (l : list A) i x : l !! i = Some x ->
  exists rest, l ≫= f ≡ₚ f x ++ rest /\ forall y, <[i := y]> l ≫= f ≡ₚ f y ++ rest.
Proof.
  intros Hi. exists ((take i l ≫= f) ++ (drop (S i) l ≫= f)). pose proof (lookup_lt_Some _ _ _ Hi) as Hl.
  assert (K : forall y, <[i := y]> l ≫= f ≡ₚ f y ++ (take i l ≫= f) ++ (drop (S i) l ≫= f)).
  { intros y. rewrite insert_take_drop by done. rewrite bind_app. cbn. solve_Permutation. }
  split; [|done]. rewrite <- (list_insert_id l i x) at 1 by done. apply K.
Qed.

Section Tone.
Context {E : Type} `{!ToneEnv E, !ToneLaws E}.
Abbreviation M := (St (World E)).
Abbreviation moves := (moves live points refused).

(** Besides those of [base] the open resources are those of [L], each once. *)
Definition holds (e : E) (base : resource -> Prop) (L : list resource) : Prop :=
  NoDup L /\ forall r, (r ∈ L -> ~ base r) /\ (live e r <-> base r \/ r ∈ L).
(** The fences of [base] and [L] wait for what they waited for. *)
Definition keep (base : resource -> Prop) (L : list resource) (e e' : E) : Prop :=
  (forall fd, base (RFence fd) \/ RFence fd ∈ L -> points e' fd = points e fd) /\ (refused e <= refused e')%nat.

Lemma held_perm e base L L' : L ≡ₚ L' -> holds e base L -> holds e base L'.
Proof. intros Hp [H1 H2]. split; [by rewrite <- Hp|]. intros r. by rewrite <- Hp. Qed.
Lemma holds_live e base L r : holds e base L -> r ∈ L -> live e r.
Proof. intros [_ H2] Hr. apply H2. by right. Qed.
Lemma holds_frame {k} e e' base out inn L : holds e base (out ++ L) -> moves k e e' out inn -> holds e' base (inn ++ L).
Proof.
  intros [H1 H2] [M1 M2 M3 _ _]. apply NoDup_app in H1 as (Ho & Hd & HL). split.
  - apply NoDup_app. split_and!; [done| |done]. intros r Hr HrL. apply (Hd r); [|done]. apply M2; [done|].
    apply H2. right. apply elem_of_app. by right.
  - intros r. destruct (H2 r) as [Hb Hl]. rewrite elem_of_app in *. split.
    + intros [Hr|Hr] Hbr; [|by apply Hb; [right|]]. apply Hb; [|done]. left. apply M2; [done|]. apply Hl. by left.
    + rewrite M3, Hl. split.
      * intros [[[?|[?|?]] Hn]|?]; [by left|done|by right; right|by right; left].
      * intros [Hbr|[Hr|Hr]]; [|by right|]; left; (split; [tauto|]); intros Hro; [apply Hb; tauto|by apply (Hd r)].
Qed.
Lemma keep_frame {k} e e' base out inn L : holds e base (out ++ L) -> moves k e e' out inn -> keep base L e e'.
Proof.
  intros [H1 H2] [_ _ _ M4 M5]. split; [|lia]. intros fd Hfd. apply NoDup_app in H1 as (_ & Hd & _). apply M4.
  - apply H2. rewrite elem_of_app. tauto.
  - intros Ho. destruct Hfd as [Hb|HL]; [|by apply (Hd _ Ho)]. eapply (proj1 (H2 (RFence fd))); [|done]. apply elem_of_app. by left.
Qed.
(** The rule for a call: it is given [out] and leaves [inn]. *)
Lemma step_frame {k} e e' base out inn L : holds e base (out ++ L) -> moves k e e' out inn ->
  holds e' base (inn ++ L) /\ keep base L e e'.
Proof. intros. split; [by eapply holds_frame|by eapply keep_frame]. Qed.
Lemma keep_refl base L e : keep base L e e.
Proof. by split. Qed.
Lemma kept_trans base L e e1 e2 : keep base L e e1 -> keep base L e1 e2 -> keep base L e e2.
Proof. intros [K1 N1] [K2 N2]. split; [|lia]. intros fd Hfd. by rewrite K2, K1. Qed.
Lemma kept_weaken base L L' e e' : keep base L e e' -> L' ⊆ L -> keep base L' e e'.
Proof. intros [K N] HL. split; [|done]. intros fd [?|?]; apply K; [by left|right; by apply HL]. Qed.

Lemma wp_in_e {A} (m : St E A) (Q : A -> World E -> Prop) w : wp m (fun a e => Q a (w <| env := e |>)) (env w) -> wp (in_e m) Q w.
Proof. intros (a & e & Em & H). exists a, (w <| env := e |>). split; [|done]. unfold in_e. by rewrite Em. Qed.

(** ** Descriptors and buffers *)
Lemma CloseFd_ok fd base L e : holds e base (fence fd ++ L) ->
  wp (CloseFd fd) (fun r e' => r < 0 /\ holds e' base L /\ keep base L e e') e.
Proof.
  intros Hh. unfold CloseFd. unfold fence in Hh. destruct (Z.leb_spec 0 fd) as [Hp|Hn]; [|apply wp_ret; split_and!; [done|done|apply keep_refl]].
  wp_step. eapply wp_mono; [apply tl_close; eapply holds_live; [exact Hh|left]|]. intros [] e' Hm. apply wp_ret. split; [done|].
  exact (step_frame _ _ _ _ _ _ Hh Hm).
Qed.
Lemma SyncMerge_ok a b base L e : holds e base L -> fence a ⊆ L -> fence b ⊆ L ->
  wp (SyncMerge a b) (fun r e' => holds e' base (fence r ++ L)) e.
Proof.
  intros Hh Ha Hb. unfold SyncMerge. unfold fence in Ha, Hb.
  assert (K : forall x y, RFence x ∈ L -> RFence y ∈ L -> wp (TE_sync_merge x y) (fun r e' => holds e' base (fence r ++ L)) e).
  { intros x y Hx Hy. eapply wp_mono; [apply tl_sync_merge; by eapply holds_live|]. intros r e' Hm. exact (holds_frame _ _ _ [] _ _ Hh Hm). }
  destruct (0 <=? a), (0 <=? b); cbn; try (apply K; set_solver). by apply wp_ret.
Qed.
Lemma FreeBuffer_ok b base L e : private_data b <> 0 -> holds e base (buffer_of b ++ L) ->
  wp (FreeBuffer b) (fun b' e' => buffer_of b' = [] /\ holds e' base L /\ keep base L e e') e.
Proof.
  intros Hb Hh. unfold FreeBuffer, buffer_of in *. rewrite (proj2 (Z.eqb_neq _ _)) in Hh by done. wp_step.
  eapply wp_mono; [apply tl_ReleaseBuffer; eapply holds_live; [exact Hh|left]|]. intros [] e' Hm. apply wp_ret. split; [done|].
  exact (step_frame _ _ _ _ _ _ Hh Hm).
Qed.

(** ** Sessions *)
Lemma shaped_lookup s i : shaped s -> (i < kNumIntermediateBuffers)%nat ->
  is_Some (buffer_info_ s !! i) /\ is_Some (release_fence_fd_ s !! i).
Proof. intros (Hb & Hr & _) Hi. split; apply lookup_lt_is_Some_2; lia. Qed.
Lemma shaped_fence s i fd : shaped s -> shaped (s <| release_fence_fd_ ::= <[i := fd]> |>).
Proof. intros (Hb & Hr & Hc). split_and!; cbn; [done|by rewrite length_insert|done]. Qed.
Lemma shaped_buffer s i b : shaped s -> shaped (s <| buffer_info_ ::= <[i := b]> |>).
Proof. intros (Hb & Hr & Hc). split_and!; cbn; [by rewrite length_insert|done..]. Qed.

(** The fences and buffers from [i] on are given back, those before are left. *)
Lemma free_loop_ok base L n : forall i s e, shaped s -> (i + n = kNumIntermediateBuffers)%nat ->
  take i (release_fence_fd_ s) ≫= fence = [] -> take i (buffer_info_ s) ≫= buffer_of = [] ->
  holds e base ((drop i (release_fence_fd_ s) ≫= fence) ++ (drop i (buffer_info_ s) ≫= buffer_of) ++ L) ->
  wp (free_loop n i s) (fun s' e' => (shaped s' /\ gpu_tone_mapper_ s' = gpu_tone_mapper_ s /\
    release_fence_fd_ s' ≫= fence = [] /\ buffer_info_ s' ≫= buffer_of = []) /\ holds e' base L /\ keep base L e e') e.
Proof.
  induction n as [|n IH]; intros i s e Hs Hi Tf Tb Hh; pose proof Hs as (Lb & Lf & _).
  { rewrite take_ge in Tf by lia. rewrite take_ge in Tb by lia. rewrite !drop_ge in Hh by lia. apply wp_ret. split_and!; [done..|apply keep_refl]. }
  cbn [free_loop]. destruct (shaped_lookup s i Hs) as [[b Hb] [fd Hf]]; [lia|]. rewrite Hb, Hf.
  rewrite (drop_S _ _ _ Hb), (drop_S _ _ _ Hf) in Hh. cbn [mbind list_bind] in Hh. rewrite <- app_assoc in Hh.
  assert (Hlt : forall A (l : list A) x, l !! i = Some x -> (i < length l)%nat) by (intros A l x; apply lookup_lt_Some).
  wp_step. eapply wp_mono; [apply CloseFd_ok, Hh|]. intros fd' e1 (Hn & Hh1 & K1). wp_step.
  assert (Nf : fence fd' = []) by (unfold fence; by rewrite (proj2 (Z.leb_gt _ _))).
  set (s1 := s <| release_fence_fd_ ::= <[i := fd']> |>). set (B := drop (S i) (buffer_info_ s) ≫= buffer_of) in *.
  set (F := drop (S i) (release_fence_fd_ s) ≫= fence) in *.
  assert (Next : forall s2 e2, shaped s2 -> gpu_tone_mapper_ s2 = gpu_tone_mapper_ s ->
    release_fence_fd_ s2 = <[i := fd']> (release_fence_fd_ s) ->
    take (S i) (buffer_info_ s2) ≫= buffer_of = [] -> drop (S i) (buffer_info_ s2) ≫= buffer_of = B ->
    holds e2 base (F ++ B ++ L) -> keep base L e e2 ->
    wp (free_loop n (S i) s2) (fun s' e' => (shaped s' /\ gpu_tone_mapper_ s' = gpu_tone_mapper_ s /\
      release_fence_fd_ s' ≫= fence = [] /\ buffer_info_ s' ≫= buffer_of = []) /\ holds e' base L /\ keep base L e e') e2).
  { intros s2 e2 Hs2 Eg Ef Etb Edb Hh2 K2. eapply wp_mono; [apply (IH (S i)); [done|lia| |done|]|].
    - rewrite Ef, (take_S_r _ i fd') by (apply list_lookup_insert_eq; by eapply Hlt). rewrite take_insert_ge, bind_app, Tf by lia.
      cbn. by rewrite Nf.
    - rewrite Ef, drop_insert_lt by lia. by rewrite Edb.
    - intros s' e' ((? & ? & ? & ?) & Hh' & K'). split_and!; [done|congruence|done|done|done|]. by eapply kept_trans. }
  assert (Kl : keep base L e e1) by (eapply kept_weaken; [exact K1|set_solver]).
  destruct (Z.eqb_spec (private_data b) 0) as [Hz|Hz]; cbn [negb].
  - apply wp_ret, Next; [by apply shaped_fence|done|done| |done| |done].
    + cbn. rewrite (take_S_r _ _ _ Hb), bind_app, Tb. cbn. unfold buffer_of. by rewrite Hz.
    + eapply held_perm, Hh1. unfold buffer_of at 1. rewrite Hz. cbn. done.
  - wp_step. eapply wp_mono; [apply (FreeBuffer_ok b base (F ++ B ++ L)); [done|eapply held_perm, Hh1; solve_Permutation]|].
    intros b' e2 (Hb' & Hh2 & K2). apply wp_ret, Next; [by apply shaped_buffer, shaped_fence|done|done| | |done|].
    + cbn. rewrite (take_S_r _ i b') by (apply list_lookup_insert_eq; by eapply Hlt). rewrite take_insert_ge, bind_app, Tb by lia.
      cbn. by rewrite Hb'.
    + cbn. by rewrite drop_insert_lt by lia.
    + eapply kept_trans; [exact Kl|]. eapply kept_weaken; [exact K2|set_solver].
Qed.
Lemma FreeIntermediateBuffers_ok s base L e : shaped s -> holds e base ((release_fence_fd_ s ≫= fence) ++ (buffer_info_ s ≫= buffer_of) ++ L) ->
  wp (FreeIntermediateBuffers s) (fun s' e' => (shaped s' /\ gpu_tone_mapper_ s' = gpu_tone_mapper_ s /\
    release_fence_fd_ s' ≫= fence = [] /\ buffer_info_ s' ≫= buffer_of = []) /\ holds e' base L /\ keep base L e e') e.
Proof. intros Hs Hh. by apply free_loop_ok. Qed.
Lemma delete_session_ok s base L e : shaped s -> holds e base (held_by s ++ L) ->
  wp (delete_session s) (fun _ e' => holds e' base L /\ keep base L e e') e.
Proof.
  intros Hs Hh. unfold delete_session. set (F := (release_fence_fd_ s ≫= fence) ++ (buffer_info_ s ≫= buffer_of)).
  assert (Hh' : holds e base (mapper_of (gpu_tone_mapper_ s) ++ F ++ L)).
  { eapply held_perm, Hh. unfold held_by, F. solve_Permutation. }
  wp_step. eapply wp_mono; [apply tl_delete; intros r Hr; eapply holds_live; [exact Hh'|apply elem_of_app; by left]|].
  intros [] e1 Hm. destruct (step_frame _ _ _ _ _ _ Hh' Hm) as [Hh1 K1]. cbn in Hh1. unfold F in Hh1. rewrite <- app_assoc in Hh1.
  wp_step. eapply wp_mono; [by apply FreeIntermediateBuffers_ok|]. intros s' e2 (_ & Hh2 & K2). apply wp_ret. split; [done|].
  eapply kept_trans; [|exact K2]. eapply kept_weaken; [exact K1|set_solver].
Qed.

(** Replacing a buffer or a fence of a session. *)
Lemma held_by_buffer s i b b' : buffer_info_ s !! i = Some b ->
  exists rest, held_by s ≡ₚ buffer_of b ++ rest /\ held_by (s <| buffer_info_ ::= <[i := b']> |>) ≡ₚ buffer_of b' ++ rest.
Proof.
  intros Hb. destruct (bind_insert buffer_of _ _ _ Hb) as (rest & H1 & H2).
  exists ((release_fence_fd_ s ≫= fence) ++ rest ++ mapper_of (gpu_tone_mapper_ s)). unfold held_by. cbn. rewrite H1, H2.
  split; solve_Permutation.
Qed.
Lemma held_by_fence s i fd : release_fence_fd_ s !! i = Some fd ->
  exists rest, held_by s ≡ₚ fence fd ++ rest /\ (forall fd', held_by (s <| release_fence_fd_ ::= <[i := fd']> |>) ≡ₚ fence fd' ++ rest) /\
    (forall b, b ∈ buffer_info_ s -> buffer_of b ⊆ rest) /\ mapper_of (gpu_tone_mapper_ s) ⊆ rest.
Proof.
  intros Hf. destruct (bind_insert fence _ _ _ Hf) as (rest & H1 & H2).
  exists (rest ++ (buffer_info_ s ≫= buffer_of) ++ mapper_of (gpu_tone_mapper_ s)). unfold held_by. cbn. rewrite H1.
  split_and!; [solve_Permutation|intros fd'; rewrite H2; solve_Permutation| |set_solver]. intros b Hb r Hr. rewrite !elem_of_app, list_elem_of_bind. eauto.
Qed.

(** When all buffers are allocated they have handles; when one is not those that were
    are given back. *)
Lemma allocate_loop_ok l base L n : forall i s e, shaped s -> (i + n = kNumIntermediateBuffers)%nat ->
  Forall (fun b => private_data b <> 0) (take i (buffer_info_ s)) -> Forall (fun b => private_data b = 0) (drop i (buffer_info_ s)) ->
  holds e base (held_by s ++ L) ->
  wp (allocate_loop n i l s) (fun '(r, s') e' => shaped s' /\ gpu_tone_mapper_ s' = gpu_tone_mapper_ s /\
    holds e' base (held_by s' ++ L) /\ (r = kErrorNone -> Forall (fun b => private_data b <> 0) (buffer_info_ s'))) e.
Proof.
  induction n as [|n IH]; intros i s e Hs Hi Ht Hd Hh.
  - apply wp_ret. split_and!; [done..|]. intros _. rewrite take_ge in Ht; [done|]. destruct Hs as (Hb & _). lia.
  - cbn [allocate_loop]. destruct (shaped_lookup s i Hs) as [[b Hb] _]; [lia|]. rewrite Hb. wp_step.
    rewrite (drop_S _ _ _ Hb) in Hd. apply list.Forall_cons in Hd as [Hz Hd].
    eapply wp_mono; [apply tl_AllocateBuffer|]. intros [r b'] e1 Hr. cbn beta iota. pose proof (shaped_buffer s i b' Hs) as Hs'.
    destruct (held_by_buffer s i b b' Hb) as (rest & P1 & P2).
    assert (Hh0 : holds e base (rest ++ L)).
    { eapply held_perm, Hh. rewrite P1. unfold buffer_of. by rewrite Hz. }
    assert (Hh1 : holds e1 base (held_by (s <| buffer_info_ ::= <[i := b']> |>) ++ L)).
    { eapply held_perm; [by rewrite P2, <- app_assoc|]. unfold buffer_of. destruct (decide (r = kErrorNone)) as [->|Hne].
      - destruct Hr as [Hp Hm]. rewrite (proj2 (Z.eqb_neq _ _)) by done. exact (holds_frame _ _ _ [] _ _ Hh0 Hm).
      - destruct Hr as [Hp Hm]. cbn in Hp. rewrite Hp, Hz. exact (holds_frame _ _ _ [] _ _ Hh0 Hm). }
    destruct (decide (r <> kErrorNone)) as [Hne|He].
    + wp_step. unfold held_by in Hh1. rewrite <- !app_assoc in Hh1. eapply wp_mono; [by apply FreeIntermediateBuffers_ok|].
      intros s' e2 ((Hs2 & Hg2 & Hf2 & Hb2) & Hh2 & _). apply wp_ret. split_and!; [done|done| |done]. unfold held_by. by rewrite Hf2, Hb2, Hg2.
    + apply dec_stable in He as ->. rewrite decide_True in Hr by done. destruct Hr as [Hp _].
      assert (Hl : (i < length (buffer_info_ s))%nat) by (by apply lookup_lt_Some in Hb).
      eapply wp_mono; [apply (IH (S i)); [done|lia| | |done]|].
      * cbn. rewrite (take_S_r _ i b') by (by rewrite list_lookup_insert_eq). rewrite take_insert_ge by lia.
        apply Forall_app. split; [done|]. by constructor.
      * cbn. by rewrite drop_insert_lt by lia.
      * by intros [r s'] e2 (H1 & H2 & H3 & H4).
Qed.

(** The new fence waits for what that of the layer waits for; there is one if there was
    one and its duplicate was not refused. *)
Definition fence_of (e e' : E) (fd fd' : Z) : Prop :=
  (0 <= fd' -> 0 <= fd /\ points e' fd' = points e fd) /\ (0 <= fd -> refused e' = refused e -> 0 <= fd').
Lemma SetReleaseFence_ok fd s base L e : shaped s -> holds e base (held_by s ++ L) -> (fd < 0 \/ base (RFence fd)) ->
  wp (SetReleaseFence fd s) (fun s' e' => exists fd', s' = s <| release_fence_fd_ ::= <[current_buffer_index_ s := fd']> |> /\
    fence_of e e' fd fd' /\ holds e' base (held_by s' ++ L) /\ keep base L e e') e.
Proof.
  intros Hs Hh Hfd. unfold SetReleaseFence. destruct (shaped_lookup s (current_buffer_index_ s) Hs) as [_ [old Hf]]; [apply Hs|].
  rewrite Hf. destruct (held_by_fence s _ old Hf) as (rest & P1 & P2 & _).
  wp_step. eapply wp_mono; [apply (CloseFd_ok old base (rest ++ L)); eapply held_perm, Hh; by rewrite P1, <- app_assoc|].
  intros a e1 (_ & Hh1 & K1). wp_step. eapply wp_mono; [apply tl_dup|].
  { intros r Hr. unfold fence in Hr. destruct (Z.leb_spec 0 fd); [|set_solver]. apply list_elem_of_singleton in Hr as ->.
    apply Hh1. destruct Hfd as [?|Hb]; [lia|by left]. }
  intros fd' e2 [Hm Hp]. destruct (step_frame _ _ _ [] _ _ Hh1 Hm) as [Hh2 K2]. apply wp_ret. exists fd'. split; [done|].
  split_and!.
  - split.
    + intros Hge. destruct (Hp Hge) as [H0 ->]. split; [done|]. apply K1. destruct Hfd as [?|Hb]; [lia|by left].
    + intros H0 Hr. destruct Hm as [_ _ _ _ Hm]. destruct K1 as [_ N1]. rewrite (proj2 (Z.leb_le 0 fd)) in Hm by done.
      destruct (Z.ltb_spec fd' 0); cbn in Hm; [lia|done].
  - eapply held_perm, Hh2. by rewrite P2, <- app_assoc.
  - eapply kept_trans; (eapply kept_weaken; [eassumption|by apply list_subseteq_app_r]).
Qed.
Lemma IsSameToneMapConfig_ok l s base L e : usable s -> holds e base L -> held_by s ⊆ L ->
  wp (IsSameToneMapConfig l s) (fun _ e' => holds e' base L) e.
Proof.
  intros (Hs & _ & Hp) Hh HL. unfold IsSameToneMapConfig. destruct (shaped_lookup s 0 Hs) as [[b Hb] _]; [unfold kNumIntermediateBuffers; lia|].
  rewrite Hb. case_match; [|by apply wp_ret]. rewrite Forall_lookup in Hp. pose proof (proj2 (Z.eqb_neq _ _) (Hp _ _ Hb)) as Hn. rewrite Hn.
  wp_step. eapply wp_mono; [apply tl_unaligned; eapply holds_live; [exact Hh|]|].
  - apply HL. unfold held_by. apply elem_of_app. right. apply elem_of_app. left. apply list_elem_of_bind. exists b.
    split; [unfold buffer_of; rewrite Hn; left|exact (list_elem_of_lookup_2 _ _ _ Hb)].
  - intros [a c] e1 Hm. apply wp_ret. exact (holds_frame _ _ _ [] [] _ Hh Hm).
Qed.

(** ** The mapper in a frame *)

(** The session [k] was just acquired: it does not belong to a layer yet. *)
Definition in_frame_but (n k : nat) (m : Mapper) : Prop :=
  (k < length (tone_map_sessions_ m))%nat /\ fb_ok m /\
  forall j s, tone_map_sessions_ m !! j = Some s -> usable s /\ (j <> k -> placed n s).
Definition only_session (k : nat) (s : Session) (m m' : Mapper) : Prop :=
  tone_map_sessions_ m' = <[k := s]> (tone_map_sessions_ m) /\ fb_session_index_ m' = fb_session_index_ m.
Lemma but_only n k s m m' : in_frame_but n k m -> usable s -> only_session k s m m' -> in_frame_but n k m'.
Proof.
  intros (Hk & Hf & Hs) Hu [E1 E2]. unfold in_frame_but, fb_ok. rewrite E1, E2, length_insert. split_and!; [done|apply Hf..|].
  intros j t Hj. apply list_lookup_insert_Some in Hj as [(-> & -> & _)|[Hne Hj]]; [by split|]. by apply Hs.
Qed.
Lemma in_frame_to_but n k s m m' : in_frame n m -> (k < length (tone_map_sessions_ m))%nat -> usable s ->
  only_session k s m m' -> in_frame_but n k m'.
Proof.
  intros [Hs Hf] Hk. apply but_only. split_and!; [done|apply Hf..|]. rewrite Forall_lookup in Hs. intros j t Hj. by destruct (Hs j t Hj).
Qed.
Lemma but_placed n k i m : in_frame_but n k m -> 0 <= i < Z.of_nat n ->
  in_frame n (m <| tone_map_sessions_ ::= alter (fun s => s <| layer_index_ := i |>) k |>).
Proof.
  intros (Hk & Hf & Hs) Hi. split; [|unfold fb_ok; cbn; by rewrite length_alter]. apply Forall_lookup. cbn. intros j s Hj.
  destruct (decide (j = k)) as [->|Hne].
  - rewrite list_lookup_alter_eq in Hj. apply fmap_Some in Hj as (t & Ht & ->). split; [apply (Hs k t Ht)|]. by intros _.
  - rewrite list_lookup_alter_ne in Hj by done. destruct (Hs j s Hj) as [Hu Hp]. split; [done|]. by apply Hp.
Qed.
Lemma usable_next s : usable s ->
  usable (s <| current_buffer_index_ := ((current_buffer_index_ s + 1) mod kNumIntermediateBuffers)%nat |> <| acquired_ := true |>).
Proof.
  intros ((Hb & Hr & Hc) & Hu). split; [|done]. split_and!; [done..|]. by apply Nat.mod_upper_bound.
Qed.
Lemma usable_fence s i fd : usable s -> usable (s <| release_fence_fd_ ::= <[i := fd]> |>).
Proof. intros (Hs & Hu). split; [by apply shaped_fence|done]. Qed.

Lemma held_session ss k s : ss !! k = Some s -> exists rest, ss ≫= held_by ≡ₚ held_by s ++ rest /\
  forall s', <[k := s']> ss ≫= held_by ≡ₚ held_by s' ++ rest.
Proof. apply bind_insert. Qed.
Abbreviation sessions w := (tone_map_sessions_ (mapper w)).
Abbreviation dumps w := (dump_frame_count_ (mapper w)).

(** No session changed, or the one that is returned. *)
Definition reused (w : World E) (r : option nat) (w' : World E) : Prop :=
  dumps w' = dumps w /\
  match r with
  | None => mapper w' = mapper w
  | Some k => (k < length (sessions w))%nat /\ exists s, usable s /\ only_session k s (mapper w) (mapper w')
  end.
Lemma reuse_loop_ok l base L ss : forall i w, Forall usable ss -> holds (env w) base ((sessions w ≫= held_by) ++ L) ->
  (forall j s, ss !! j = Some s -> sessions w !! (i + j)%nat = Some s) ->
  wp (reuse_loop l ss i) (fun r w' => reused w r w' /\ holds (env w') base ((sessions w' ≫= held_by) ++ L)) w.
Proof.
  induction ss as [|s ss IH]; intros i w Hu Hh Hss; [by apply wp_ret|]. inversion Hu as [|? ? Hs Hu']; subst. cbn [reuse_loop]. wp_step.
  assert (Hi : sessions w !! i = Some s) by (specialize (Hss 0%nat s eq_refl); by rewrite Nat.add_0_r in Hss).
  destruct (held_session _ _ _ Hi) as (rest & P1 & P2).
  assert (Hrest : forall w', mapper w' = mapper w -> holds (env w') base ((sessions w' ≫= held_by) ++ L) -> forall b : bool, wp (if b then
      _ ← put_session i (s <| current_buffer_index_ := ((current_buffer_index_ s + 1) mod kNumIntermediateBuffers)%nat |> <| acquired_ := true |>);
      mret (Some i) else reuse_loop l ss (S i))
      (fun r w' => reused w r w' /\ holds (env w') base ((sessions w' ≫= held_by) ++ L)) w').
  { intros w' Ew Hh' b. destruct b.
    - wp_step. apply wp_modify, wp_ret. split; [split; [cbn; by rewrite Ew|split]|].
      + by apply lookup_lt_Some in Hi.
      + eexists. split; [by apply usable_next|]. cbn. rewrite Ew. by split.
      + cbn. eapply held_perm, Hh'. rewrite Ew, P2, P1. reflexivity.
    - eapply wp_mono; [apply IH; [done|done|]|intros r w''; unfold reused; by rewrite Ew].
      intros j t Hj. rewrite Ew, Nat.add_succ_comm. by apply Hss. }
  destruct (acquired_ s); [by apply wp_ret, (Hrest w eq_refl Hh false)|]. apply wp_in_e.
  eapply wp_mono; [apply (IsSameToneMapConfig_ok l s base); [done|exact Hh|]|]; [|intros a e' He; by apply Hrest].
  intros r Hr. apply elem_of_app. left. rewrite P1. apply elem_of_app. by left.
Qed.
Lemma new_ToneMapSession_shaped l : shaped (SetToneMapConfig l new_ToneMapSession).
Proof. split_and!; cbn; unfold kNumIntermediateBuffers; lia. Qed.
Lemma AcquireToneMapSession_ok n l base L w : in_frame n (mapper w) -> holds (env w) base ((sessions w ≫= held_by) ++ L) ->
  wp (AcquireToneMapSession l) (fun '(e, k) w' =>
    holds (env w') base ((sessions w' ≫= held_by) ++ L) /\ dumps w' = dumps w /\
    if decide (e = kErrorNone) then in_frame_but n k (mapper w') else k = O /\ mapper w' = mapper w) w.
Proof.
  intros Hin Hh. unfold AcquireToneMapSession. case_match; [by apply wp_ret|]. wp_step. apply wp_gets. wp_step.
  eapply wp_mono; [apply (reuse_loop_ok l base L); [|done|done]|].
  { destruct Hin as [Hs _]. eapply Forall_impl; [exact Hs|]. by intros s []. }
  intros [k|] w1 [[Hq Hk] Hh1].
  { apply wp_ret. cbn. destruct Hk as (Hk & s & Hu & Ho). split_and!; [done|done|]. by eapply in_frame_to_but. }
  set (s0 := SetToneMapConfig l new_ToneMapSession). pose proof (new_ToneMapSession_shaped l : shaped s0) as Hn. wp_step. apply wp_in_e.
  eapply wp_mono; [apply tl_GetInstance|]. intros g e2 Hm.
  pose proof (holds_frame _ _ _ [] _ _ Hh1 Hm : holds e2 base (held_by (s0 <| gpu_tone_mapper_ := g |>) ++ _)) as Hh2.
  destruct g as [g|].
  2: { wp_step. apply wp_in_e. eapply wp_mono; [by apply (delete_session_ok _ base ((sessions w1 ≫= held_by) ++ L))|].
       intros [] e3 [Hh3 _]. apply wp_ret. cbn in *. by rewrite Hk in *. }
  wp_step. apply wp_in_e. eapply wp_mono; [apply (allocate_loop_ok l base ((sessions w1 ≫= held_by) ++ L)); [done|done|constructor| |exact Hh2]|].
  { by repeat constructor. }
  intros [e s] e3 (Hs & Hg & Hh3 & Hok). cbn beta iota.
  destruct (decide (e <> kErrorNone)) as [Hne|He].
  { wp_step. apply wp_in_e. eapply wp_mono; [by apply (delete_session_ok s base ((sessions w1 ≫= held_by) ++ L))|]. intros [] e4 [Hh4 _].
    apply wp_ret. rewrite decide_False by done. cbn in *. by rewrite Hk in *. }
  apply dec_stable in He as ->. specialize (Hok eq_refl).
  wp_step. apply wp_modify. wp_step. apply wp_gets, wp_ret. cbn in Hh3 |- *. rewrite Hk, length_app, Nat.add_sub in *.
  split; [|split; [done|]].
  { eapply held_perm, Hh3. rewrite bind_app. cbn. rewrite app_nil_r. change (held_by (s <| acquired_ := true |>)) with (held_by s). solve_Permutation. }
  destruct Hin as [Hall Hf]. unfold in_frame_but, fb_ok in *. cbn. rewrite length_app. cbn. split_and!; [lia..|].
  intros j t Hj. rewrite Forall_lookup in Hall. apply lookup_app_Some in Hj as [Hj|[Hge Hj]].
  - destruct (Hall j t Hj). by split.
  - apply list_lookup_singleton_Some in Hj as [Hj <-]. split; [|lia]. split; [done|]. split; [|done]. cbn. by rewrite Hg.
Qed.
Lemma delete_all_ok l base L e : Forall usable l -> holds e base ((l ≫= held_by) ++ L) ->
  wp (foldr (fun s (k : St E unit) => _ ← delete_session s; k) (mret tt) l) (fun _ e' => holds e' base L) e.
Proof.
  intros Hl. revert e. induction Hl as [|s l [Hs _] Hl IH]; intros e Hh; [by apply wp_ret|]. cbn [foldr]. wp_step.
  eapply wp_mono; [apply (delete_session_ok s base ((l ≫= held_by) ++ L)); [done|]|intros [] e1 [Hh1 _]; by apply IH].
  eapply held_perm, Hh. cbn. by rewrite app_assoc.
Qed.
Lemma Terminate_ok n base L w : Forall usable (sessions w) -> fb_ok (mapper w) -> holds (env w) base ((sessions w ≫= held_by) ++ L) ->
  wp Terminate (fun _ w' => in_frame n (mapper w') /\ dumps w' = dumps w /\ holds (env w') base ((sessions w' ≫= held_by) ++ L)) w.
Proof.
  intros Hu Hf Hh. unfold Terminate. wp_step. apply wp_gets. destruct (sessions w) as [|s l] eqn:El.
  { apply wp_ret. rewrite El. split_and!; [|done|done]. split; [by rewrite El|done]. }
  wp_step. apply wp_in_e. eapply wp_mono; [apply (delete_all_ok _ base L); [by apply Forall_reverse|]|].
  { eapply held_perm, Hh. by rewrite reverse_Permutation. }
  intros [] e' He. apply wp_modify. split_and!; [split; [constructor|done]|done|done].
Qed.

(** ** HandleToneMap *)

(** A fence nobody of the frame closes any more is left to the others: that of the frame
    buffer when its session is used again, which the display closes, and a merged
    one the GPU did not take. *)
Definition grows (base base' : resource -> Prop) : Prop :=
  (forall r, base r -> base' r) /\ (forall r, base' r -> base r \/ exists fd, r = RFence fd).
Lemma grows_refl base : grows base base.
Proof. split; auto. Qed.
Lemma grows_trans b b1 b2 : grows b b1 -> grows b1 b2 -> grows b b2.
Proof. intros [H1 H2] [H3 H4]. split; [auto|]. intros r [Hr|?]%H4; auto. Qed.
Lemma leave_fence e base fd L : holds e base (fence fd ++ L) -> exists base', grows base base' /\ holds e base' L.
Proof.
  intros [H1 H2]. apply NoDup_app in H1 as (_ & Hd & HL). exists (fun r => base r \/ r ∈ fence fd). split.
  - split; [by left|]. intros r [?|Hr]; [by left|right]. unfold fence in Hr. destruct (0 <=? fd); set_solver.
  - split; [done|]. intros r. destruct (H2 r) as [Hb Hl]. rewrite elem_of_app in *. split; [|tauto].
    intros Hr [?|Hf]; [tauto|by apply (Hd r)].
Qed.
Definition held_in (w : World E) (base : resource -> Prop) (L : list resource) : Prop :=
  exists base', grows base base' /\ holds (env w) base' ((sessions w ≫= held_by) ++ L).
Lemma held_in_grows w b b' L : grows b b' -> held_in w b' L -> held_in w b L.
Proof. intros Hg (b2 & Hg2 & Hh). exists b2. split; [by eapply grows_trans|done]. Qed.
Lemma held_in_perm w b L L' : L ≡ₚ L' -> held_in w b L -> held_in w b L'.
Proof. intros Hp (b' & Hg & Hh). exists b'. split; [done|]. eapply held_perm, Hh. by rewrite Hp. Qed.

Lemma UpdateBuffer_ok fd s b : shaped s -> exists b', UpdateBuffer fd s b = Ret b' /\ acquire_fence_fd b' = fd.
Proof.
  intros Hs. unfold UpdateBuffer. destruct (shaped_lookup s (current_buffer_index_ s) Hs) as [[i Hi] _]; [apply Hs|]. rewrite Hi. eauto.
Qed.
Lemma blit_ok g d src f base R e : holds e base (fence f ++ R) -> RMapper g ∈ R -> RBuffer d ∈ R ->
  wp (TE_blit g d src f) (fun r e' => exists base', grows base base' /\ holds e' base' (fence r ++ R)) e.
Proof.
  intros Hh Hg Hd. eapply wp_mono; [apply tl_blit|].
  1-3: intros; eapply holds_live; [exact Hh|]; set_solver.
  intros r e' (out & [->| ->] & Hm).
  - pose proof (holds_frame _ _ _ [] _ _ Hh Hm) as H1. apply (leave_fence _ _ f). eapply held_perm, H1. solve_Permutation.
  - exists base. split; [apply grows_refl|]. by eapply holds_frame.
Qed.
Lemma tone_map_ok n l k base L w : in_frame_but n k (mapper w) -> dumps w = 0 -> held_in w base (acquire_of l ++ L) ->
  wp (tone_map l k) (fun l' w' => in_frame_but n k (mapper w') /\ dumps w' = 0 /\ held_in w' base (acquire_of l' ++ L)) w.
Proof.
  intros Hin Hq (base1 & Hgr & Hh). unfold tone_map. wp_step. apply wp_gets. pose proof Hin as (Hk & _ & Hs).
  apply lookup_lt_is_Some_2 in Hk as [s Es]. rewrite Es. destruct (Hs k s Es) as [Hu _]. pose proof Hu as (Hsh & [g Hg] & Hbs).
  destruct (shaped_lookup s (current_buffer_index_ s) Hsh) as [[b Hb] [fd Hf]]; [apply Hsh|]. rewrite Hb, Hf, Hg.
  destruct (held_session _ _ _ Es) as (rest & P1 & P2). destruct (held_by_fence s _ fd Hf) as (hrest & Q1 & Q2 & Q3 & Q4).
  set (R := hrest ++ rest ++ L). set (acq := acquire_fence_fd (input_buffer (tlayer l))). change (acquire_of l) with (fence acq) in Hh.
  assert (Hh0 : holds (env w) base1 (fence fd ++ fence acq ++ R)).
  { eapply held_perm, Hh. rewrite P1, Q1. unfold R. solve_Permutation. }
  wp_step. apply wp_in_e. eapply wp_mono; [apply (SyncMerge_ok fd acq base1 _ _ Hh0); set_solver|]. intros merged e1 Hh1.
  wp_step. apply wp_in_e. eapply wp_mono; [apply (CloseFd_ok acq base1 (fence merged ++ fence fd ++ R)); eapply held_perm, Hh1; solve_Permutation|].
  intros _ e2 (_ & Hh2 & _).
  wp_step. apply wp_in_e. eapply wp_mono; [apply (CloseFd_ok fd base1 (fence merged ++ R)); eapply held_perm, Hh2; solve_Permutation|].
  intros release e3 (Hneg & Hh3 & _).
  set (s1 := s <| release_fence_fd_ ::= <[current_buffer_index_ s := release]> |>).
  pose proof (usable_fence s (current_buffer_index_ s) release Hu : usable s1) as Hu'. wp_step. apply wp_modify.
  wp_step. apply wp_in_e. eapply wp_mono; [apply (blit_ok _ _ _ merged base1 R); [exact Hh3| |]|].
  { unfold R. apply elem_of_app. left. apply Q4. rewrite Hg. left. }
  { unfold R. apply elem_of_app. left. apply (Q3 b); [by eapply list_elem_of_lookup_2|]. unfold buffer_of.
    rewrite (proj2 (Z.eqb_neq _ _)); [left|]. rewrite Forall_lookup in Hbs. by eapply Hbs. }
  intros r e4 (base2 & Hgr2 & Hh4). wp_step. unfold DumpToneMapOutput. wp_step. apply wp_gets. replace (_ =? 0) with true by (symmetry; apply Z.eqb_eq; exact Hq). apply wp_ret.
  destruct (UpdateBuffer_ok r s1 (input_buffer (tlayer l)) (proj1 Hu')) as (b' & Eb & Eb').
  wp_step. eapply wp_lift; [exact Eb|]. apply wp_ret. split_and!.
  - eapply but_only; [exact Hin|exact Hu'|]. by split.
  - exact Hq.
  - exists base2. split; [by eapply grows_trans|]. eapply held_perm, Hh4. unfold acquire_of. cbn. rewrite Eb', P2.
    unfold s1. rewrite Q2. unfold fence at 2. rewrite (proj2 (Z.leb_gt _ _)) by done. unfold R. solve_Permutation.
Qed.
Lemma in_frame_usable n m : in_frame n m -> Forall usable (tone_map_sessions_ m).
Proof. intros [Hs _]. eapply Forall_impl; [exact Hs|]. by intros s []. Qed.
Lemma in_frame_reuse n m k s i : in_frame n m -> tone_map_sessions_ m !! k = Some s -> 0 <= i < Z.of_nat n ->
  in_frame n (m <| tone_map_sessions_ ::= <[k := s <| layer_index_ := i |> <| acquired_ := true |>]> |>).
Proof.
  intros [Hs Hf] Hk Hi. split; [|unfold fb_ok; cbn; by rewrite length_insert]. cbn. rewrite Forall_lookup in Hs.
  apply Forall_insert; [by apply Forall_lookup|]. destruct (Hs k s Hk) as [Hu _]. split; [exact Hu|]. by intros _.
Qed.
Lemma held_layer_index ss k i :
  alter (fun s => s <| layer_index_ := i |>) k ss ≫= held_by = ss ≫= held_by.
Proof. revert k. induction ss as [|s ss IH]; intros [|k]; [done..|]. cbn. f_equal. apply IH. Qed.
(** After each layer, with the layers as they are then. *)
Definition handled (n : nat) (base : resource -> Prop) (ls : list TLayer) (w : World E) : Prop :=
  in_frame n (mapper w) /\ dumps w = 0 /\ length ls = n /\ held_in w base (ls ≫= acquire_of).
Lemma handled_reuse n base done l todo k s b w : handled n base (done ++ l :: todo) w -> sessions w !! k = Some s ->
  acquire_fence_fd b = -1 -> handled n base (done ++ (l <| tlayer ::= fun x => x <| input_buffer := b |> |>) :: todo)
    (w <| mapper ::= fun m => m <| tone_map_sessions_ ::= <[k := s <| layer_index_ := Z.of_nat (length done) |> <| acquired_ := true |>]> |> |>).
Proof.
  intros (Hin & Hq & Hl & base1 & Hg1 & Hh) Es Eb. rewrite length_app in Hl. cbn [length] in Hl. split_and!.
  - apply in_frame_reuse; [done..|lia].
  - exact Hq.
  - rewrite length_app. cbn. lia.
  - destruct (held_session _ _ _ Es) as (rest & P1 & P2). set (T := (done ≫= acquire_of) ++ (todo ≫= acquire_of)).
    destruct (leave_fence (env w) base1 (acquire_fence_fd (input_buffer (tlayer l))) ((held_by s ++ rest) ++ T)) as (base2 & Hg2 & Hh2).
    { eapply held_perm, Hh. rewrite P1, bind_app. cbn. unfold acquire_of at 2, T. solve_Permutation. }
    exists base2. split; [by eapply grows_trans|]. eapply held_perm, Hh2. cbn. rewrite P2, bind_app. cbn.
    assert (Ea : acquire_of (l <| tlayer ::= fun x => x <| input_buffer := b |> |>) = []) by (unfold acquire_of; cbn; by rewrite Eb).
    unfold T. cbn in Ea. rewrite Ea. reflexivity.
Qed.
Lemma handle_loop_ok n base todo : forall done gpu w, handled n base (done ++ todo) w ->
  wp (handle_loop done todo gpu) (fun '(_, ls) => handled n base ls) w.
Proof.
  induction todo as [|l todo IH]; intros done gpu w Hw; pose proof Hw as (Hin & Hq & Hn & Hh).
  { apply wp_ret. by rewrite app_nil_r in Hw. }
  cbn [handle_loop]. set (gpu' := if decide _ then _ else gpu).
  destruct (negb (HwcLayer.tone_map _)); [apply IH; by rewrite <- app_assoc|].
  wp_step. apply wp_gets. case_match eqn:Hfb.
  - apply andb_prop in Hfb as [[_ Hne%negb_true_iff%bool_decide_eq_false]%andb_prop Hge%Z.leb_le].
    assert (Hk : (Z.to_nat (fb_session_index_ (mapper w)) < length (sessions w))%nat).
    { destruct Hin as [_ Hf]. unfold fb_ok in Hf. destruct (sessions w); [done|]. cbn [length] in *. lia. }
    apply lookup_lt_is_Some_2 in Hk as [s Es]. rewrite Es. pose proof (in_frame_usable _ _ Hin) as Hu. rewrite Forall_lookup in Hu.
    destruct (UpdateBuffer_ok (-1) s (input_buffer (tlayer l)) (proj1 (Hu _ _ Es))) as (b & Eb & Eb').
    wp_step. eapply wp_lift; [exact Eb|]. wp_step. apply wp_modify, wp_ret. by apply handled_reuse.
  - destruct Hh as (base1 & Hg1 & Hh). wp_step. eapply wp_mono; [exact (AcquireToneMapSession_ok n l base1 _ w Hin Hh)|].
    intros [e k] w1 (Hh1 & Hq1 & Hw1). rewrite Hq in Hq1. wp_step.
    set (target := bool_decide (composition (tlayer l) = CompositionGPUTarget)).
    assert (Hset : forall (Q : unit -> World E -> Prop), Q tt w1 -> Q tt (w1 <| mapper ::= fun m => m <| fb_session_index_ := Z.of_nat k |> |>) ->
      wp (if target then on_mapper (fun m => m <| fb_session_index_ := Z.of_nat k |>) else mret tt) Q w1).
    { intros Q H1 H2. destruct target; [by apply wp_modify|by apply wp_ret]. }
    rewrite length_app in Hn. cbn [length] in Hn.
    destruct (decide (e = kErrorNone)) as [->|Hne].
    + set (T := (done ≫= acquire_of) ++ (todo ≫= acquire_of)).
      assert (Hgo : forall w', in_frame_but n k (mapper w') -> dumps w' = 0 -> holds (env w') base1 ((sessions w' ≫= held_by) ++ acquire_of l ++ T) ->
        wp (l ← tone_map l k; _ ← set_layer_index k (Z.of_nat (length done)); handle_loop (done ++ [l]) todo gpu') (fun '(_, ls) => handled n base ls) w').
      { intros w' Hb Hq' Hh'. wp_step. eapply wp_mono; [apply (tone_map_ok n l k base T); [done|done|by exists base1]|].
        intros l' w2 (Hb2 & Hq2 & Hh2). wp_step. apply wp_modify, IH. rewrite <- app_assoc. split_and!.
        - apply but_placed; [done|lia].
        - exact Hq2.
        - rewrite length_app. cbn. lia.
        - eapply held_in_perm with (L := acquire_of l' ++ T); [rewrite bind_app; cbn; unfold T; solve_Permutation|].
          destruct Hh2 as (base3 & Hg3 & Hh3). exists base3. split; [done|].
          rewrite <- (held_layer_index _ k (Z.of_nat (length done))) in Hh3. exact Hh3. }
      assert (HhT : holds (env w1) base1 ((sessions w1 ≫= held_by) ++ acquire_of l ++ T)).
      { eapply held_perm, Hh1. rewrite bind_app. cbn. unfold T. solve_Permutation. }
      apply Hset; rewrite decide_False by (by intros []); apply Hgo; try done. destruct Hw1 as (H1 & H2 & H3).
      unfold in_frame_but, fb_ok. cbn. split_and!; [done|lia..|done].
    + destruct Hw1 as [-> Ew].
      assert (Hgo : forall w', sessions w' = sessions w1 -> fb_ok (mapper w') -> dumps w' = 0 -> env w' = env w1 ->
        wp (_ ← Terminate; mret (-1, done ++ l :: todo)) (fun '(_, ls) => handled n base ls) w').
      { intros w' Hs' Hf Hq' He'. rewrite <- Hs', <- He' in Hh1. wp_step.
        eapply wp_mono; [apply (Terminate_ok n base1 ((done ++ l :: todo) ≫= acquire_of)); [|done|done]|].
        { rewrite Hs', Ew. by eapply in_frame_usable. }
        intros [] w2 (Hw2 & Hq2 & Hh2). apply wp_ret. split_and!; [done|congruence|rewrite length_app; cbn; lia|by exists base1]. }
      apply Hset; rewrite decide_True by done; apply Hgo; try done; [rewrite Ew; apply Hin|]. unfold fb_ok. cbn. lia.
Qed.

(** ** PostCommit *)
Definition acquired_sessions (l : list Session) : list Session := filter (fun s => acquired_ s = true) l.
(** Where the session of index [fb] goes, of which [d] are before those of [l]. *)
Definition fb_after (d : nat) (l : list Session) (fb : Z) : Z :=
  if fb <? Z.of_nat d then fb
  else let j := Z.to_nat (fb - Z.of_nat d) in
    match l !! j with
    | None => Z.of_nat d + Z.of_nat (length (acquired_sessions (take j l))) + (fb - Z.of_nat d - Z.of_nat (length (take j l)))
    | Some s => if acquired_ s then Z.of_nat d + Z.of_nat (length (acquired_sessions (take j l))) else -1
    end.
Lemma fb_after_kept d s l fb : acquired_ s = true -> fb_after (S d) l fb = fb_after d (s :: l) fb.
Proof.
  intros Ha. unfold fb_after. destruct (Z.ltb_spec fb (Z.of_nat d)); [by rewrite (proj2 (Z.ltb_lt fb (Z.of_nat (S d)))) by lia|].
  destruct (Z.ltb_spec fb (Z.of_nat (S d))).
  - replace fb with (Z.of_nat d) by lia. rewrite Z.sub_diag. change (Z.to_nat 0) with O. cbn. rewrite Ha. lia.
  - replace (Z.to_nat (fb - Z.of_nat d)) with (S (Z.to_nat (fb - Z.of_nat (S d)))) by lia. cbn [lookup list_lookup take].
    unfold acquired_sessions. rewrite filter_cons_True by done. cbn [length]. destruct (l !! _) as [t|]; [destruct (acquired_ t)|]; lia.
Qed.
Lemma fb_after_deleted d s l fb : -1 <= fb -> acquired_ s = false ->
  fb_after d l (if Z.of_nat d =? fb then -1 else if Z.of_nat d <? fb then fb - 1 else fb) = fb_after d (s :: l) fb.
Proof.
  intros Hfb Ha. unfold fb_after. destruct (Z.eqb_spec (Z.of_nat d) fb) as [<-|Hne].
  - rewrite (proj2 (Z.ltb_lt (-1) _)), Z.ltb_irrefl, Z.sub_diag by lia. change (Z.to_nat 0) with O. cbn. by rewrite Ha.
  - destruct (Z.ltb_spec (Z.of_nat d) fb); [|by rewrite (proj2 (Z.ltb_lt fb (Z.of_nat d))) by lia].
    rewrite !(proj2 (Z.ltb_ge _ (Z.of_nat d))) by lia.
    replace (Z.to_nat (fb - Z.of_nat d)) with (S (Z.to_nat (fb - 1 - Z.of_nat d))) by lia. cbn [lookup list_lookup take].
    unfold acquired_sessions. rewrite filter_cons_False by (by rewrite Ha). cbn [length]. destruct (l !! _) as [t|]; [done|lia].
Qed.
Lemma fb_after_range l fb : -1 <= fb < Z.max 1 (Z.of_nat (length l)) ->
  -1 <= fb_after 0 l fb < Z.max 1 (Z.of_nat (length (acquired_sessions l))).
Proof.
  intros Hfb. unfold fb_after. destruct (Z.ltb_spec fb (Z.of_nat 0)); [lia|]. rewrite Z.sub_0_r.
  destruct (l !! Z.to_nat fb) as [s|] eqn:Es.
  - destruct (acquired_ s) eqn:Ha; [|lia]. pose proof (f_equal (fun x => length (acquired_sessions x)) (take_drop_middle l _ s Es)) as El.
    cbn beta in El. unfold acquired_sessions in *. rewrite filter_app, filter_cons_True, length_app in El by done. cbn [length] in El. lia.
  - apply lookup_ge_None in Es. destruct l as [|x l]; [|cbn [length] in *; lia]. rewrite take_nil. cbn. cbn in Hfb. lia.
Qed.
(** The release fences of the layers are open, and others' to close. *)
Definition releases_open (base : resource -> Prop) (layers : list TLayer) : Prop :=
  Forall (fun l => release_fence_fd (input_buffer (tlayer l)) < 0 \/ base (RFence (release_fence_fd (input_buffer (tlayer l))))) layers.
(** The session after its layer was shown: only its fence is new, a duplicate of the
    release fence of the layer. *)
Definition released (layers : list TLayer) (e e' : E) (s s' : Session) : Prop :=
  exists l fd, layers !! Z.to_nat (layer_index_ s) = Some l /\ fence_of e e' (release_fence_fd (input_buffer (tlayer l))) fd /\
    s' = s <| release_fence_fd_ ::= <[current_buffer_index_ s := fd]> |> <| acquired_ := false |>.
(** The layer of the session holds no acquire fence any more. *)
Definition fence_closed (layers : list TLayer) (s : Session) : Prop :=
  exists l, layers !! Z.to_nat (layer_index_ s) = Some l /\ acquire_fence_fd (input_buffer (tlayer l)) < 0.
Definition with_acquire (fd : Z) (l : TLayer) : TLayer :=
  l <| tlayer ::= fun x => x <| input_buffer ::= fun b => b <| acquire_fence_fd := fd |> |> |>.

Lemma fence_of_later base L0 L e e1 e2 fd fd' : fence_of e e1 fd fd' -> keep base L0 e e1 -> keep base L e1 e2 ->
  (forall x, x ∈ fence fd' -> x ∈ L) -> fence_of e e2 fd fd'.
Proof.
  intros [H1 H2] [_ N1] [K2 N2] HL. split.
  - intros Hge. destruct (H1 Hge) as [H0 <-]. split; [done|]. apply K2. right. apply HL. unfold fence.
    rewrite (proj2 (Z.leb_le 0 fd')) by done. left.
  - intros H0 Hr. apply H2; [done|]. lia.
Qed.
Lemma fence_of_earlier base L e e1 e2 fd fd' : fence_of e1 e2 fd fd' -> keep base L e e1 -> keep base L e1 e2 ->
  (fd < 0 \/ base (RFence fd)) -> fence_of e e2 fd fd'.
Proof.
  intros [H1 H2] [K1 N1] [_ N2] Hfd. split.
  - intros Hge. destruct (H1 Hge) as [H0 ->]. split; [done|]. apply K1. left. destruct Hfd; [lia|done].
  - intros H0 Hr. apply H2; [done|]. lia.
Qed.
Lemma released_earlier base L layers k l fd0 e e1 e2 ss ss' : layers !! k = Some l -> releases_open base layers ->
  keep base L e e1 -> keep base L e1 e2 ->
  Forall2 (released (<[k := with_acquire fd0 l]> layers) e1 e2) ss ss' -> Forall2 (released layers e e2) ss ss'.
Proof.
  intros Hk Hr K1 K2 HF. eapply Forall2_impl; [exact HF|]. intros s s' (x & fd & Hx & Hf & ->).
  assert (exists y, layers !! Z.to_nat (layer_index_ s) = Some y /\
    release_fence_fd (input_buffer (tlayer y)) = release_fence_fd (input_buffer (tlayer x))) as (y & Hy & Ey).
  { apply list_lookup_insert_Some in Hx as [(<- & <- & _)|[_ Hx]]; [by exists l|by exists x]. }
  exists y, fd. split_and!; [done| |done]. rewrite Ey. eapply fence_of_earlier; [exact Hf|done|done|].
  unfold releases_open in Hr. rewrite Forall_lookup in Hr. rewrite <- Ey. by eapply Hr.
Qed.
Lemma fence_closed_insert layers k l fd s : layers !! k = Some l -> fd < 0 -> fence_closed layers s ->
  fence_closed (<[k := with_acquire fd l]> layers) s.
Proof.
  intros Hk Hfd (x & Ex & Hx). destruct (decide (k = Z.to_nat (layer_index_ s))) as [->|Hne].
  - exists (with_acquire fd l). split; [|done]. apply list_lookup_insert_eq. by apply lookup_lt_Some in Hk.
  - exists x. split; [|done]. by rewrite list_lookup_insert_ne.
Qed.
Lemma held_insert layers k l : layers !! k = Some l -> exists rest, layers ≫= acquire_of ≡ₚ acquire_of l ++ rest /\
  forall fd, fd < 0 -> <[k := with_acquire fd l]> layers ≫= acquire_of ≡ₚ rest.
Proof.
  intros Hk. destruct (bind_insert acquire_of _ _ _ Hk) as (rest & P1 & P2). exists rest. split; [done|]. intros fd Hfd. rewrite P2.
  unfold acquire_of, fence. cbn. by rewrite (proj2 (Z.leb_gt _ _)).
Qed.
(** One session that was used: its layer's fence is closed and its own replaced. *)
Lemma post_step s k l base layers R w : usable s -> layers !! k = Some l -> releases_open base layers ->
  holds (env w) base (held_by s ++ R ++ (layers ≫= acquire_of)) ->
  wp (fd ← in_e (CloseFd (acquire_fence_fd (input_buffer (tlayer l))));
      s ← in_e (SetReleaseFence (release_fence_fd (input_buffer (tlayer l))) s); mret (fd, s))
    (fun '(fd, s') w' => fd < 0 /\ mapper w' = mapper w /\ keep base R (env w) (env w') /\
      holds (env w') base (held_by s' ++ R ++ (<[k := with_acquire fd l]> layers ≫= acquire_of)) /\
      exists fd', s' = s <| release_fence_fd_ ::= <[current_buffer_index_ s := fd']> |> /\
        fence_of (env w) (env w') (release_fence_fd (input_buffer (tlayer l))) fd') w.
Proof.
  intros [Hs _] Hk Hr Hh. destruct (held_insert _ _ _ Hk) as (rest & P1 & P2).
  assert (Hrl : release_fence_fd (input_buffer (tlayer l)) < 0 \/ base (RFence (release_fence_fd (input_buffer (tlayer l))))).
  { unfold releases_open in Hr. rewrite Forall_lookup in Hr. by eapply Hr. }
  wp_step. apply wp_in_e. eapply wp_mono; [apply (CloseFd_ok _ base (held_by s ++ R ++ rest))|].
  { eapply held_perm, Hh. rewrite P1. unfold acquire_of. solve_Permutation. }
  intros fd e1 (Hfd & Hh1 & K1). wp_step. apply wp_in_e. eapply wp_mono; [by apply (SetReleaseFence_ok _ s base (R ++ rest))|].
  intros s' e2 (fd' & -> & Hf & Hh2 & K2). apply wp_ret. cbn in *.
  assert (K1' : keep base R (env w) e1) by (eapply kept_weaken; [exact K1|intros ?; rewrite !elem_of_app; tauto]).
  assert (K2' : keep base R e1 e2) by (eapply kept_weaken; [exact K2|intros ?; rewrite !elem_of_app; tauto]).
  split_and!; [done|done|by eapply kept_trans|eapply held_perm, Hh2; by rewrite P2|]. exists fd'. split; [done|].
  by eapply fence_of_earlier.
Qed.
Lemma wp_two {A B C} (m : M A) (f : A -> M B) (k : A -> B -> M C) (Q : C -> World E -> Prop) w :
  wp (a ← m; b ← f a; mret (a, b)) (fun '(a, b) w' => wp (k a b) Q w') w -> wp (a ← m; b ← f a; k a b) Q w.
Proof.
  intros ([a b] & w' & Em & Hk). apply st_bind_Ret_inv in Em as (a1 & w1 & E1 & Em).
  apply st_bind_Ret_inv in Em as (b1 & w2 & E2 & [= -> -> ->]). destruct Hk as (c & w3 & E3 & HQ). exists c, w3. split; [|done].
  by rewrite (st_bind_Ret _ _ _ _ _ E1), (st_bind_Ret _ _ _ _ _ E2).
Qed.
Lemma post_loop_ok n base todo : Z.of_nat n < 2 ^ 32 -> Forall (fun s => usable s /\ placed n s) todo ->
  forall done fb layers w, -1 <= fb -> length layers = n -> releases_open base layers ->
  holds (env w) base ((done ≫= held_by) ++ (todo ≫= held_by) ++ (layers ≫= acquire_of)) ->
  wp (post_loop done todo fb layers) (fun '(ss, fb', layers') w' =>
    mapper w' = mapper w /\ length layers' = n /\ fb' = fb_after (length done) todo fb /\
    (exists kept, ss = done ++ kept /\ Forall2 (released layers (env w) (env w')) (acquired_sessions todo) kept) /\
    Forall (fence_closed layers') (acquired_sessions todo) /\ (forall s, fence_closed layers s -> fence_closed layers' s) /\
    holds (env w') base (held ss layers') /\ keep base (done ≫= held_by) (env w) (env w')) w.
Proof.
  intros Hn. induction 1 as [|s todo [Hu Hp] Hall IH]; intros done fb layers w Hfb Hl Hr Hh.
  { apply wp_ret. split_and!; [done..| | |constructor|done|done|apply keep_refl].
    - unfold fb_after. case_match eqn:Hlt; [done|]. apply Z.ltb_ge in Hlt. rewrite lookup_nil, take_nil. cbn. lia.
    - exists []. split; [by rewrite app_nil_r|constructor]. }
  cbn [post_loop]. cbn in Hh. set (D := done ≫= held_by) in *. set (T := todo ≫= held_by) in *. destruct (acquired_ s) eqn:Ha.
  - specialize (Hp Ha). replace (u32 (layer_index_ s)) with (layer_index_ s) by (symmetry; apply Z.mod_small; lia).
    set (k := Z.to_nat (layer_index_ s)). destruct (lookup_lt_is_Some_2 layers k) as [l El]; [lia|]. rewrite El. apply wp_two.
    eapply wp_mono; [apply (post_step s k l base layers (D ++ T) w); [done..|eapply held_perm, Hh; solve_Permutation]|].
    intros [fd s'] w1 (Hfd & Ew1 & K1 & Hh1 & fd' & -> & Hf). set (s' := s <| release_fence_fd_ ::= _ |> <| acquired_ := false |>).
    change (held_by (s <| release_fence_fd_ ::= <[current_buffer_index_ s := fd']> |>)) with (held_by s') in Hh1.
    assert (KD : keep base D (env w) (env w1)) by (eapply kept_weaken; [exact K1|intros ?; rewrite elem_of_app; tauto]).
    eapply wp_mono; [apply (IH (done ++ [s']) fb (<[k := with_acquire fd l]> layers)); [done|by rewrite length_insert| |]|].
    { unfold releases_open in *. apply Forall_insert; [done|]. rewrite Forall_lookup in Hr. exact (Hr _ _ El). }
    { eapply held_perm, Hh1. rewrite bind_app. cbn. fold D T. rewrite app_nil_r. solve_Permutation. }
    intros [[ss fb'] layers'] w' (Ew & Hl' & Ef & (kept & -> & Hk) & Hc & Hkeep & Hh' & K2).
    assert (K2' : keep base D (env w1) (env w')).
    { eapply kept_weaken; [exact K2|]. rewrite bind_app. apply list_subseteq_app_l, reflexivity. }
    rewrite length_app, Nat.add_1_r, (fb_after_kept _ s) in Ef by done. unfold acquired_sessions. rewrite filter_cons_True by done.
    split_and!; [congruence|done|done| | | |done|by eapply kept_trans].
    + exists (s' :: kept). split; [by rewrite <- app_assoc|]. constructor; [|by eapply released_earlier].
      exists l, fd'. split_and!; [done| |done]. eapply fence_of_later; [exact Hf|exact K1|exact K2|].
      intros x Hx. rewrite bind_app. apply elem_of_app. right. cbn. rewrite app_nil_r.
      destruct Hu as [Hs _]. destruct (shaped_lookup s (current_buffer_index_ s) Hs) as [_ [old Ho]]; [apply Hs|].
      destruct (held_by_fence s _ old Ho) as (rest & _ & Q2 & _).
      change (held_by s') with (held_by (s <| release_fence_fd_ ::= <[current_buffer_index_ s := fd']> |>)).
      rewrite (Q2 fd'). apply elem_of_app. by left.
    + constructor; [|done]. apply Hkeep. exists (with_acquire fd l). split; [|done]. apply list_lookup_insert_eq. by apply lookup_lt_Some in El.
    + intros t Ht. apply Hkeep. by apply fence_closed_insert.
  - wp_step. apply wp_in_e. eapply wp_mono; [apply (delete_session_ok s base (D ++ T ++ (layers ≫= acquire_of))); [apply Hu|eapply held_perm, Hh; solve_Permutation]|].
    intros [] e1 [Hh1 K1].
    assert (KD : keep base D (env w) e1) by (eapply kept_weaken; [exact K1|intros ?; rewrite elem_of_app; tauto]).
    eapply wp_mono; [apply (IH done); [destruct (Z.eqb_spec (Z.of_nat (length done)) fb), (Z.ltb_spec (Z.of_nat (length done)) fb); lia|done..]|].
    intros [[ss fb'] layers'] w' (Ew & Hl' & Ef & (kept & -> & Hk) & Hc & Hkeep' & Hh' & K2). rewrite (fb_after_deleted _ s) in Ef by done. cbn in K2.
    unfold acquired_sessions. rewrite filter_cons_False by (by rewrite Ha). split_and!; [done..| |done|done|done|by eapply kept_trans].
    exists kept. split; [done|]. eapply Forall2_impl; [exact Hk|]. intros t t' (x & fd & Hx & Hf & ->). exists x, fd. split_and!; [done| |done].
    eapply fence_of_earlier; [exact Hf|exact KD|exact K2|]. unfold releases_open in Hr. rewrite Forall_lookup in Hr. by eapply Hr.
Qed.
Lemma released_usable layers e e' s s' : usable s -> released layers e e' s s' -> usable s' /\ acquired_ s' = false.
Proof. intros Hu (l & fd & _ & _ & ->). split; [|done]. apply (usable_fence s (current_buffer_index_ s) fd Hu). Qed.
Lemma frame_PostCommit_ok n base layers w : in_frame n (mapper w) -> Z.of_nat n < 2 ^ 32 -> length layers = n -> releases_open base layers ->
  holds (env w) base (held (sessions w) layers) ->
  wp (PostCommit layers) (fun layers' w' =>
    between (mapper w') /\ Forall2 (released layers (env w) (env w')) (acquired_sessions (sessions w)) (sessions w') /\
    Forall (fence_closed layers') (acquired_sessions (sessions w)) /\
    fb_session_index_ (mapper w') = fb_after 0 (sessions w) (fb_session_index_ (mapper w)) /\
    holds (env w') base (held (sessions w') layers')) w.
Proof.
  intros Hin Hn Hl Hr Hh. pose proof Hin as [Hs Hf]. unfold PostCommit. wp_step. apply wp_gets. wp_step.
  eapply wp_mono; [apply (post_loop_ok n base); [done|done|apply Hf|done|done|exact Hh]|].
  intros [[ss fb] layers'] w1 (Ew & Hl' & Ef & (kept & -> & Hk) & Hc & _ & Hh' & _). wp_step. apply wp_modify, wp_ret. cbn.
  split_and!; [|done..]. split; cbn.
  - apply Forall_lookup. intros j s' Hj. destruct (Forall2_lookup_r _ _ _ _ _ Hk Hj) as (s & Hjs & Hrel).
    eapply released_usable; [|exact Hrel]. pose proof (in_frame_usable _ _ Hin) as Hu. rewrite Forall_forall in Hu.
    apply Hu. apply list_elem_of_lookup_2, list_elem_of_filter in Hjs. apply Hjs.
  - unfold fb_ok. cbn. rewrite <- (Forall2_length _ _ _ Hk), Ef. apply fb_after_range, Hf.
Qed.
(** * Claims *)

(** C26: over a frame the mapper touches no session that does not exist and no fence,
    buffer or GPU mapper that is closed, closes none twice, and loses no buffer or
    mapper. HandleToneMap returns, whether sessions can be made or not, and holds
    afterwards, each once, what the sessions and layers then name (of fences it may have
    left some to others: that of a frame buffer that is not blitted again, and a
    merged one the GPU did not take); and from there PostCommit of a
    stack with as many layers returns, with nothing lost, to a state in which no session
    is acquired. Before the frame a session that is acquired has to be of a layer the
    frame has (after a PostCommit none is acquired; a commit that failed skips it, see
    [skipped_post_commit]), there are fewer than 2^32 layers, the fences of the layers and sessions have to be open and
    distinct, and no dump may be asked for, which closes a fence twice ([dump_closes_twice]). *)
Theorem tone_frame_safe (layers : list TLayer) (w : World E) base :
  in_frame (length layers) (mapper w) -> dump_frame_count_ (mapper w) = 0 -> Z.of_nat (length layers) < 2 ^ 32 ->
  holds (env w) base (held (sessions w) layers) ->
  exists r layers1 w1 base1, HandleToneMap layers w = Ret ((r, layers1), w1) /\ length layers1 = length layers /\
    grows base base1 /\ holds (env w1) base1 (held (sessions w1) layers1) /\
    forall layers2 e2 base2, length layers2 = length layers -> releases_open base2 layers2 ->
      holds e2 base2 (held (sessions w1) layers2) ->
      exists layers3 w2, PostCommit layers2 (mkToneWorld (mapper w1) e2) = Ret (layers3, w2) /\ between (mapper w2) /\
        holds (env w2) base2 (held (sessions w2) layers3).
Proof.
  intros Hin Hq Hn Hh. destruct (handle_loop_ok (length layers) base layers [] 0 w) as ([r layers1] & w1 & E1 & Hin1 & _ & Hl1 & base1 & Hg & Hh1).
  { split_and!; [done..|]. exists base. split; [apply grows_refl|done]. }
  exists r, layers1, w1, base1. split_and!; [done..|]. intros layers2 e2 base2 H2 Hr Hh2.
  destruct (frame_PostCommit_ok _ base2 layers2 (mkToneWorld (mapper w1) e2) Hin1 Hn H2 Hr Hh2) as (layers3 & w2 & E2 & Hb2 & _ & _ & _ & Hh3). eauto.
Qed.

(** C35: PostCommit keeps exactly the sessions that were used in the frame, in order,
    each with a duplicate of the release fence of its layer's buffer in place of the old
    one (none if there is none or it cannot be duplicated), and their layers have no acquire
    fence any more; besides what the others hold exactly the fences, buffers and mappers
    of these sessions and the acquire fences of the layers are open then, so that the
    old release fences, the acquire fences of the layers shown and all of the
    sessions that were dropped have been closed. The index of the frame buffer's session
    follows it, and is -1 when it was closed or there was none. The acquired sessions have
    to be of layers of the stack, of which there are fewer than 2^32, the fences open and
    distinct, and the release fences of the layers others' to close. *)
Theorem post_commit_sessions (layers : list TLayer) (w : World E) base :
  in_frame (length layers) (mapper w) -> Z.of_nat (length layers) < 2 ^ 32 ->
  releases_open base layers -> holds (env w) base (held (sessions w) layers) ->
  exists layers' w', PostCommit layers w = Ret (layers', w') /\
    Forall2 (released layers (env w) (env w')) (acquired_sessions (sessions w)) (sessions w') /\
    Forall (fence_closed layers') (acquired_sessions (sessions w)) /\
    holds (env w') base (held (sessions w') layers') /\
    (fb_session_index_ (mapper w) = -1 -> fb_session_index_ (mapper w') = -1) /\
    (forall k s, fb_session_index_ (mapper w) = Z.of_nat k -> sessions w !! k = Some s ->
       fb_session_index_ (mapper w') = if acquired_ s then Z.of_nat (length (acquired_sessions (take k (sessions w)))) else -1).
Proof.
  intros Hin Hn Hr Hh.
  destruct (frame_PostCommit_ok _ base layers w Hin Hn eq_refl Hr Hh) as (layers' & w' & E1 & _ & Hk & Hc & Ef & Hh').
  exists layers', w'. split_and!; [done..| |]; rewrite Ef; unfold fb_after.
  - by intros ->.
  - intros k s -> Hs. rewrite (proj2 (Z.ltb_ge _ (Z.of_nat 0))), Z.sub_0_r, Nat2Z.id by lia. by rewrite Hs.
Qed.
End Tone.

(** * A small environment *)
Module ToneSample.
(** The open fences with what they wait for, the buffers and the mappers. *)
Record Env := mkEnv { s_fences : gmap Z (gset Z); s_buffers : gset Z; s_mappers : gset Z }.
Definition ids (e : Env) : list Z := elements (dom (s_fences e)) ++ elements (s_buffers e) ++ elements (s_mappers e).
Definition new_id (e : Env) : Z := 1 + foldr Z.max 0 (ids e).
Definition is_live (e : Env) (r : resource) : Prop :=
  match r with
  | RFence fd => is_Some (s_fences e !! fd)
  | RBuffer h => h ∈ s_buffers e
  | RMapper g => g ∈ s_mappers e
  end.
Definition s_points (e : Env) (fd : Z) : gset Z := s_fences e !!! fd.
Definition open_fence (ps : gset Z) : St Env Z := fun e => Ret (new_id e, mkEnv (<[new_id e := ps]> (s_fences e)) (s_buffers e) (s_mappers e)).
Definition if_fence {A} (fd : Z) (m : St Env A) : St Env A := fun e => match s_fences e !! fd with Some _ => m e | None => Undef end.
Definition if_buffer {A} (h : Z) (m : St Env A) : St Env A := fun e => if decide (h ∈ s_buffers e) then m e else Undef.
Definition if_mapper {A} (g : Z) (m : St Env A) : St Env A := fun e => if decide (g ∈ s_mappers e) then m e else Undef.
(** A call on what is not open is undefined.  All buffers are of 64 by 32; the GPU takes
    over the fence it is given and returns one that waits for it and for the blit. *)
#[global] Instance sample_env : ToneEnv Env := {|
  ColorPrimaries_Max := 255; Transfer_Max := 255;
  TE_GetInstance _ _ _ _ := fun e => Ret (Some (new_id e), mkEnv (s_fences e) (s_buffers e) ({[new_id e]} ∪ s_mappers e));
  TE_blit g d _ f := if_mapper g (if_buffer d (fun e =>
    if 0 <=? f then if_fence f (_ ← st_modify (fun e => mkEnv (delete f (s_fences e)) (s_buffers e) (s_mappers e));
                                open_fence ({[new_id e]} ∪ s_points e f)) e
    else open_fence {[new_id e]} e));
  TE_delete g := match g with
                 | None => mret tt
                 | Some g => if_mapper g (st_modify (fun e => mkEnv (s_fences e) (s_buffers e) (s_mappers e ∖ {[g]})))
                 end;
  TE_AllocateBuffer b := fun e =>
    Ret ((kErrorNone, b <| private_data := new_id e |> <| alloc_fd := new_id e |> <| alloc_size := 8192 |>),
         mkEnv (s_fences e) ({[new_id e]} ∪ s_buffers e) (s_mappers e));
  TE_ReleaseBuffer h := if_buffer h (st_modify (fun e => mkEnv (s_fences e) (s_buffers e ∖ {[h]}) (s_mappers e)));
  TE_close fd := if_fence fd (st_modify (fun e => mkEnv (delete fd (s_fences e)) (s_buffers e) (s_mappers e)));
  TE_dup fd := fun e => if 0 <=? fd then if_fence fd (open_fence (s_points e fd)) e else Ret (-1, e);
  TE_sync_merge a b := fun e => if_fence a (if_fence b (open_fence (s_points e a ∪ s_points e b))) e;
  TE_sync_wait fd := if_fence fd (mret 0);
  TE_lock h := if_buffer h (mret true);
  TE_dump h _ := if_buffer h (mret tt);
  TE_unaligned h := if_buffer h (mret (64, 32))
|}.
Lemma new_id_above e : 0 < new_id e /\ forall x, x ∈ ids e -> x < new_id e.
Proof.
  unfold new_id. induction (ids e) as [|y l [H1 H2]]; cbn; [split; [lia|by intros ? ?%elem_of_nil]|]. split; [lia|].
  intros x [->|Hx]%elem_of_cons; [|specialize (H2 x Hx)]; lia.
Qed.
Lemma new_id_dead e : s_fences e !! new_id e = None /\ (new_id e ∉ s_buffers e) /\ (new_id e ∉ s_mappers e).
Proof.
  destruct (new_id_above e) as [_ H]. unfold ids in H. split_and!; [apply not_elem_of_dom|..];
    intros Hi; specialize (H (new_id e)); rewrite !elem_of_app, !elem_of_elements in H; specialize (H ltac:(tauto)); lia.
Qed.
Lemma same_moves e : moves is_live s_points (fun _ => 0%nat) 0 e e [] [].
Proof. split; [constructor|by intros ? ?%elem_of_nil| |done|done]. intros r. set_solver. Qed.
Lemma open_moves e ps : moves is_live s_points (fun _ => 0%nat) 0 e (mkEnv (<[new_id e := ps]> (s_fences e)) (s_buffers e) (s_mappers e))
  [] (fence (new_id e)).
Proof.
  destruct (new_id_above e) as [Hp _], (new_id_dead e) as [Hd _]. unfold fence. rewrite (proj2 (Z.leb_le _ _)) by lia. split; [apply NoDup_singleton|..|done].
  - intros r ->%list_elem_of_singleton [x Hx]. cbn in Hx. congruence.
  - intros [fd|h|g]; cbn; [rewrite lookup_insert_is_Some'|..]; set_solver.
  - intros fd [x Hx] _. unfold s_points. cbn. rewrite lookup_total_insert_ne; [done|]. intros <-. cbn in Hx. congruence.
Qed.
Lemma closing_moves e fd : is_live e (RFence fd) ->
  moves is_live s_points (fun _ => 0%nat) 0 e (mkEnv (delete fd (s_fences e)) (s_buffers e) (s_mappers e)) [RFence fd] [].
Proof.
  intros Hl. split; [constructor|by intros ? ?%elem_of_nil| | |done].
  - intros [fd'|h|g]; cbn; [rewrite lookup_delete_is_Some|..]; set_solver.
  - intros fd' Hl' Hn. unfold s_points. cbn. rewrite lookup_total_delete_ne; [done|]. intros ->. set_solver.
Qed.
Lemma moving_trans e e1 e2 out inn : moves is_live s_points (fun _ => 0%nat) 0 e e1 out [] ->
  moves is_live s_points (fun _ => 0%nat) 0 e1 e2 [] inn -> moves is_live s_points (fun _ => 0%nat) 0 e e2 out inn.
Proof.
  intros [A1 A2 A3 A4 _] [B1 B2 B3 B4 _]. split; [done|..|done].
  - intros r Hr Hl. destruct (decide (r ∈ out)) as [?|Hn]; [done|]. specialize (B2 r Hr). rewrite A3 in B2. set_solver.
  - intros r. rewrite B3, A3. set_solver.
  - intros fd Hl Hn. rewrite B4, A4; [done|done|done| |set_solver]. apply A3. by left.
Qed.
Lemma if_fence_ok {A} fd (m : St Env A) (Q : A -> Env -> Prop) e : is_live e (RFence fd) -> wp m Q e -> wp (if_fence fd m) Q e.
Proof. intros [x Hx] Hm. unfold wp, if_fence. by rewrite Hx. Qed.
Lemma if_buffer_ok {A} h (m : St Env A) (Q : A -> Env -> Prop) e : is_live e (RBuffer h) -> wp m Q e -> wp (if_buffer h m) Q e.
Proof. intros Hx Hm. unfold wp, if_buffer. by rewrite decide_True. Qed.
Lemma if_mapper_ok {A} g (m : St Env A) (Q : A -> Env -> Prop) e : is_live e (RMapper g) -> wp m Q e -> wp (if_mapper g m) Q e.
Proof. intros Hx Hm. unfold wp, if_mapper. by rewrite decide_True. Qed.
#[global, program] Instance sample_laws : ToneLaws Env := {| live := is_live; points := s_points; refused _ := 0%nat |}.
Next Obligation.
  intros. cbn. eexists _, _. split; [done|]. destruct (new_id_dead e) as (_ & _ & Hd). split; [apply NoDup_singleton|..|done|done].
  - intros r ->%list_elem_of_singleton Hl. done.
  - intros [fd|h|g']; cbn; set_solver.
Qed.
Next Obligation.
  intros m d s f e Hm Hd Hf. cbn. apply if_mapper_ok; [done|]. apply if_buffer_ok; [done|]. unfold wp. destruct (Z.leb_spec 0 f) as [Hp|Hp].
  - assert (Hl : is_live e (RFence f)) by (apply Hf; unfold fence; rewrite (proj2 (Z.leb_le 0 f)) by done; left).
    pose proof Hl as [x Hx]. unfold if_fence. rewrite Hx. eexists _, _. split; [reflexivity|]. exists (fence f). split; [by right|].
    unfold fence at 1. rewrite (proj2 (Z.leb_le 0 f)) by done. eapply moving_trans; [by apply closing_moves|apply open_moves].
  - eexists _, _. split; [reflexivity|]. exists []. split; [by left|]. apply open_moves.
Qed.
Next Obligation.
  intros [g|] e Hg; cbn; [|eexists _, _; split; [done|]; apply same_moves]. apply if_mapper_ok; [apply Hg; left|].
  eexists _, _. split; [done|]. split; [constructor|by intros ? ?%elem_of_nil| |done|done]. intros [fd|h|g']; cbn; set_solver.
Qed.
Next Obligation.
  intros b e. cbn. eexists _, _. split; [done|]. cbn. destruct (new_id_above e) as [Hp _], (new_id_dead e) as (_ & Hd & _).
  split; [cbn; lia|]. split; [apply NoDup_singleton|..|done|done].
  - intros r ->%list_elem_of_singleton Hl. done.
  - intros [fd|h|g']; cbn; set_solver.
Qed.
Next Obligation.
  intros h e Hh. cbn. apply if_buffer_ok; [done|]. eexists _, _. split; [done|]. split; [constructor|by intros ? ?%elem_of_nil| |done|done].
  intros [fd|h'|g']; cbn; set_solver.
Qed.
Next Obligation. intros fd e Hl. cbn. apply if_fence_ok; [done|]. eexists _, _. split; [done|]. by apply closing_moves. Qed.
Next Obligation.
  intros fd e Hl. cbn. unfold wp. destruct (Z.leb_spec 0 fd) as [Hp|Hp].
  - assert (is_live e (RFence fd)) as [x Hx] by (apply Hl; unfold fence; rewrite (proj2 (Z.leb_le 0 fd)) by done; left).
    unfold if_fence. rewrite Hx. eexists _, _. split; [reflexivity|]. destruct (new_id_above e) as [Hn _].
    rewrite (proj2 (Z.ltb_ge (new_id e) 0)) by lia. split; [apply open_moves|]. intros _. split; [done|].
    unfold s_points at 1. cbn. by rewrite lookup_total_insert_eq.
  - eexists _, _. split; [reflexivity|]. split; [apply same_moves|lia].
Qed.
Next Obligation.
  intros a b e Ha Hb. cbn. change (wp (if_fence a (if_fence b (open_fence (s_points e a ∪ s_points e b)))) (fun r e' => moves is_live s_points (fun _ => 0%nat) 0 e e' [] (fence r)) e).
  apply if_fence_ok; [done|]. apply if_fence_ok; [done|]. eexists _, _. split; [done|]. apply open_moves.
Qed.
Next Obligation. intros fd e Hl. cbn. apply if_fence_ok; [done|]. apply wp_ret, same_moves. Qed.
Next Obligation. intros h e Hl. cbn. apply if_buffer_ok; [done|]. apply wp_ret, same_moves. Qed.
Next Obligation. intros h i e Hl. cbn. apply if_buffer_ok; [done|]. apply wp_ret, same_moves. Qed.
Next Obligation. intros h e Hl. cbn. apply if_buffer_ok; [done|]. apply wp_ret, same_moves. Qed.
(** What is open, to check [holds] by evaluation. *)
Definition opened (e : Env) : list resource :=
  map RFence (elements (dom (s_fences e))) ++ map RBuffer (elements (s_buffers e)) ++ map RMapper (elements (s_mappers e)).
Lemma opened_spec e r : r ∈ opened e <-> is_live e r.
Proof.
  unfold opened. rewrite !elem_of_app, !list_elem_of_fmap. setoid_rewrite elem_of_elements. setoid_rewrite elem_of_dom.
  destruct r; cbn; naive_solver.
Qed.
Definition holds_check (e : Env) (B L : list resource) : Prop :=
  NoDup (B ++ L) /\ Forall (fun r => r ∈ B ++ L) (opened e) /\ Forall (fun r => r ∈ opened e) (B ++ L).
#[global] Instance holds_check_dec e B L : Decision (holds_check e B L).
Proof. unfold holds_check. apply _. Defined.
Lemma holds_checked e B L : holds_check e B L -> holds e (fun r => r ∈ B) L.
Proof.
  intros ([_ [Hd HL]]%NoDup_app & H1 & H2). rewrite Forall_forall in H1, H2. split; [done|]. intros r. split; [intros Hr Hb; by apply (Hd r)|].
  rewrite <- elem_of_app. split; [intros Hl; by apply H1, opened_spec|intros Hr; by apply opened_spec, H2].
Qed.

(** A video and the frame buffer, which need tone mapping in different directions,
    and a layer that the GPU composes; [fd] is the acquire fence. *)
Definition layer (c : Composition) (is_hdr lut : bool) (fd : Z) : TLayer :=
  mkTLayer (Layer0 <| composition := c |> <| request := mkRFlags true false false |>
              <| input_buffer ::= fun b => b <| bflags ::= fun f => f <| hdr := is_hdr |> |> <| acquire_fence_fd := fd |> |>)
    64 32 kFormatRGBA8888 lut 17 None.
Definition video : TLayer := layer kCompositionSDE true true 5.
Definition target (fd : Z) : TLayer := layer CompositionGPUTarget false true fd.
Definition target_no_lut : TLayer := layer CompositionGPUTarget false false (-1).
Definition gpu : TLayer := mkTLayer (Layer0 <| composition := kCompositionGPU |>) 64 32 kFormatRGBA8888 false 0 None.
(** The fences 5 and 6 are of layers; 9 is the one the hardware releases the buffers with. *)
Definition start : World Env := mkToneWorld new_HWCToneMapper (mkEnv {[5 := {[50]}; 6 := {[60]}; 9 := {[90]}]} ∅ ∅).
Definition state_of {A} (o : outcome (A * World Env)) : World Env := match o with Ret (_, w) => w | _ => start end.
Definition layers_of (o : outcome ((Z * list TLayer) * World Env)) : list TLayer := match o with Ret ((_, ls), _) => ls | _ => [] end.
Definition committed (ls : list TLayer) : list TLayer :=
  map (fun l => l <| tlayer ::= fun x => x <| input_buffer ::= fun b => b <| release_fence_fd := 9 |> |> |>) ls.
Definition one_frame (layers : list TLayer) (w : World Env) : World Env :=
  let o := HandleToneMap layers w in state_of (PostCommit (committed (layers_of o)) (state_of o)).
(** Two sessions after a frame; in the next only that of the frame buffer is used. *)
Definition shown : World Env := one_frame [video; gpu; target (-1)] start.
Definition frame2 : list TLayer := [gpu; target 6].
Definition handled2 : World Env := state_of (HandleToneMap frame2 shown).
Definition layers2 : list TLayer := committed (layers_of (HandleToneMap frame2 shown)).
Definition others : resource -> Prop := fun r => r ∈ [RFence 9].
End ToneSample.
Import ToneSample.

Lemma shown_in_frame : in_frame (length frame2) (mapper shown).
Proof. by_decision. Qed.
Lemma shown_holds : holds (env shown) others (held (tone_map_sessions_ (mapper shown)) frame2).
Proof. apply holds_checked. by_decision. Qed.
Lemma tone_frame_safe_witness : length (tone_map_sessions_ (mapper shown)) = 2%nat /\
  exists r layers1 w1 base1, HandleToneMap frame2 shown = Ret ((r, layers1), w1) /\ length layers1 = 2%nat /\
    grows others base1 /\ holds (env w1) base1 (held (tone_map_sessions_ (mapper w1)) layers1) /\
    forall layers2 e2 base2, length layers2 = 2%nat -> releases_open base2 layers2 ->
      holds e2 base2 (held (tone_map_sessions_ (mapper w1)) layers2) ->
      exists layers3 w2, PostCommit layers2 (mkToneWorld (mapper w1) e2) = Ret (layers3, w2) /\ between (mapper w2) /\
        holds (env w2) base2 (held (tone_map_sessions_ (mapper w2)) layers3).
Proof.
  split; [vm_compute; reflexivity|]. apply (tone_frame_safe frame2 shown others shown_in_frame); [vm_compute; reflexivity..|exact shown_holds].
Defined.

Lemma handled_in_frame : in_frame (length layers2) (mapper handled2).
Proof. by_decision. Qed.
Lemma handled_holds : holds (env handled2) others (held (tone_map_sessions_ (mapper handled2)) layers2).
Proof. apply holds_checked. by_decision. Qed.
Lemma layers2_open : releases_open others layers2.
Proof. unfold releases_open, others. by_decision. Qed.
Lemma post_commit_sessions_witness :
  map acquired_ (tone_map_sessions_ (mapper handled2)) = [false; true] /\
  exists layers' w', PostCommit layers2 handled2 = Ret (layers', w') /\
    Forall2 (released layers2 (env handled2) (env w')) (acquired_sessions (tone_map_sessions_ (mapper handled2))) (tone_map_sessions_ (mapper w')) /\
    holds (env w') others (held (tone_map_sessions_ (mapper w')) layers') /\ fb_session_index_ (mapper w') = 0.
Proof.
  split; [vm_compute; reflexivity|].
  destruct (post_commit_sessions layers2 handled2 others handled_in_frame ltac:(vm_compute; reflexivity) layers2_open handled_holds)
    as (layers' & w' & E1 & Hk & _ & Hh & _ & Hfb). exists layers', w'. split_and!; [exact E1|exact Hk|exact Hh|].
  destruct (tone_map_sessions_ (mapper handled2) !! 1%nat) as [s|] eqn:Es; [|vm_compute in Es; discriminate Es].
  assert (Ha : acquired_ s = true) by (vm_compute in Es; by injection Es as <-).
  rewrite (Hfb 1%nat s); [|vm_compute; reflexivity|exact Es]. rewrite Ha. vm_compute. reflexivity.
Defined.

(** A session for the frame buffer cannot be made while there is none: its index is 0
    all the same, because Terminate resets it only when there are sessions.  In the next
    frame the video has session 0; the frame buffer, whose layers did not change, is given
    the video's buffer, and after PostCommit the video's fence is still open. *)
Lemma stale_fb_index :
  let w := state_of (HandleToneMap [gpu; target_no_lut] start) in
  tone_map_sessions_ (mapper w) = [] /\ fb_session_index_ (mapper w) = 0 /\
  match HandleToneMap [video; target (-1)] w with
  | Ret ((0, [v; t]), w') =>
      length (tone_map_sessions_ (mapper w')) = 1%nat /\
      plane_fd (input_buffer (tlayer t)) = plane_fd (input_buffer (tlayer v)) /\
      match PostCommit [v; t] w' with
      | Ret ([v'; _], _) => 0 <= acquire_fence_fd (input_buffer (tlayer v'))
      | _ => False
      end
  | _ => False
  end.
Proof. vm_compute. repeat split; discriminate. Qed.
(** A frame whose commit failed has no PostCommit: its sessions stay acquired, the next
    frame makes new ones, and when that has fewer layers its PostCommit looks for a
    layer that does not exist. *)
Lemma skipped_post_commit :
  let w := state_of (HandleToneMap [gpu; target 6] start) in
  length (tone_map_sessions_ (mapper w)) = 1%nat /\
  length (tone_map_sessions_ (mapper (state_of (HandleToneMap [gpu; target (-1)] w)))) = 2%nat /\
  PostCommit [video] (state_of (HandleToneMap [video] w)) = Undef.
Proof. vm_compute. split_and!; reflexivity. Qed.
(** When the output is dumped the fence of the blit is closed by the lock of the buffer
    and again by the mapper. *)
Lemma dump_closes_twice : HandleToneMap [video] (state_of (SetFrameDumpConfig 1 start)) = Undef.
Proof. vm_compute. reflexivity. Qed.
End ToneProps.
