(* ===== verification/HwcSession.v ===== *)
(** The session of the hardware composer: src/hardware/qcom-caf/display/sdm/libs/hwc2/hwc_session.cpp,
    hwc_session_services.cpp and hwc_callbacks.cpp, with the locks of sdm/include/utils/locker.h.

    The session holds the displays and hands the calls of the client (SurfaceFlinger), of
    the services and the events of the kernel to them.  A display is an object with a
    number; which are alive is a part of the state, so that a call of a null or a
    destroyed display is undefined.  What a display does in a call is the class
    [SessionEnv]: the methods are those of [HwcDisplay] and of the classes derived from it.

    Calls and events are taken one after the other.  A call that waits, for the end of a
    frame or for a callback, has no result ([NoFuel]) where it would wait. *)
From S2P Require Import Prelude Rect ResourceDefault MetaData GrUtils Strategy HwcLayer HwcColor HwcDisplay HwcDisplays Cec.
#[local] Open Scope Z_scope.

Module HwcSession.
Import HwcLayer Client.

(** ** Numbers of the interfaces *)
Definition HWC_DISPLAY_PRIMARY : Z := 0.
Definition HWC_DISPLAY_EXTERNAL : Z := 1.
Definition HWC_DISPLAY_VIRTUAL : Z := 2.
Definition HWC_NUM_DISPLAY_TYPES : Z := 3.
Definition EINVAL : Z := 22.
Definition BAD_VALUE : Z := - EINVAL.
Definition NO_INIT : Z := -19.
Definition kErrorNone_ : Z := 0.
Definition kErrorNotSupported_ : Z := 2.
Definition error_code (e : Error) : Z :=
  match e with
  | ENone => 0 | BadConfig => 1 | BadDisplay => 2 | BadLayer => 3 | BadParameter => 4 | HasChanges => 5 | NoResources => 6
  | NotValidated => 7 | Unsupported => 8
  end.
Definition HWC2_ERROR_NONE : Z := error_code ENone.
Definition HWC2_ERROR_BAD_DISPLAY : Z := error_code BadDisplay.
Definition HWC2_ERROR_BAD_PARAMETER : Z := error_code BadParameter.
Definition HWC2_ERROR_UNSUPPORTED : Z := error_code Unsupported.

(** The methods of HWCDisplay that the session calls.  A pointer to a result of the
    client is a number, 0 when it is null; results the session reads come back. *)
Inductive Method :=
| MAcceptDisplayChanges | MCreateLayer (out : Z) | MDestroyLayer (layer : Z) | MGetActiveConfig (out : Z)
| MGetChangedCompositionTypes (num layers types : Z) | MGetClientTargetSupport (width height format dataspace : Z)
| MGetColorModes (num modes : Z) | MGetDisplayAttribute (config attribute out : Z) | MGetDisplayConfigs (num configs : Z)
| MGetDisplayName (size name : Z) | MGetDisplayRequests (requests num layers layer_requests : Z) | MGetDisplayType (out : Z)
| MGetHdrCapabilities (num types max avg min : Z) | MGetReleaseFences (num layers fences : Z) | MPresent (retire_fence : Z)
| MSetActiveConfig (config : Z) | MSetClientTarget (target acquire_fence dataspace : Z) (damage : list IRect)
| MSetColorMode (mode : Z) | MSetColorTransform (matrix hint : Z) | MSetCursorPosition (layer x y : Z)
| MSetLayerZOrder (layer z : Z) | MSetOutputBuffer (buffer fence : Z) | MSetPowerMode (mode : Z) | MSetVsyncEnabled (enabled : Z)
| MValidate (num_types num_requests : Z) | MSetDisplayAnimating (animating : bool) | MRestoreColorTransform
| MGetFrameBufferResolution | MSetSecureDisplay (active : bool) | MResetValidation | MGetGeometryChanges | MGetLastPowerMode
| MSetState (connected : bool) | MSetDisplayStatus (status : Z) | MPerform (operation argument : Z) | MSetMaxMixerStages (n : Z)
| MSetFrameDumpConfig (count mask : Z) | MSetDynamicDSIClock (clk : Z) | MGetDynamicDSIClock | MGetSupportedDSIClock
| MSetMixerResolution (width height : Z) | MColorSVCRequestRoute (payload : list Z) | MSetPanelBrightness (level : Z)
| MGetPanelBrightness | MGetDisplayConfigCount | MGetActiveDisplayConfig | MSetActiveDisplayConfig (config : Z)
| MGetDisplayAttributesForConfig (config : Z) | MOnMinHdcpEncryptionLevelChange (level : Z) | MControlPartialUpdate (enable : bool)
| MToggleScreenUpdates (on : bool) | MSetIdleTimeoutMs (value : Z) | MGetVisibleDisplayRect.
(** The classes a display can be of. *)
Inductive Kind := KPrimary | KExternal (width height : Z) (use_primary_res : bool) | KExternalTest (bpp pattern : Z) | KVirtual (width height format : Z) | KDummy.
(** What of the colour manager the session calls, on a display. *)
Inductive ColorCall := CSetColorModeDetailEnhancer | CEnableQDCMMode (enable : bool) | CSetSolidFill (enable : bool) | CSetFrameCapture (enable : bool) | CSetDetailedEnhancer.
Inductive Event := EvHotplug (display : Z) (connected : bool) | EvRefresh (display : Z) | EvVsync (display timestamp : Z) | EvHdmiHotplug (connected : bool).

(** The result of a method as a number, and what it writes.  [SE_color] is a call of the
    colour manager with the parameters of the last request; [SE_payload] is
    CreatePayloadFromParcel: an error, or the display and the payload. *)
Class SessionEnv (E : Type) := {
  HAL_COLOR_MODE_NATIVE_ : Z; HAL_COLOR_MODE_DISPLAY_P3_ : Z; HAL_COLOR_TRANSFORM_IDENTITY_ : Z; HAL_COLOR_TRANSFORM_CORRECT_TRITANOPIA_ : Z;
  SET_METADATA_DYN_REFRESH_RATE_ : Z; SET_BINDER_DYN_REFRESH_RATE_ : Z; SET_DISPLAY_MODE_ : Z;
  SE_InitDone : St E bool;
  SE_getService : St E bool;
  SE_registerAsService : St E unit;
  SE_AllocatorInit : St E Z;
  SE_AllocatorDeinit : St E unit;
  SE_CreateCore : St E Z;
  SE_DestroyCore : St E Z;
  SE_FirstDisplay : St E (Z * bool * bool);                 (* error, HDMI, connected *)
  SE_IsColorTransformSupported : St E bool;
  SE_SetMaxBandwidthMode : bool -> St E Z;
  SE_disable_skip_validate : St E (option Z);
  SE_max_virtual : St E Z;
  SE_DPTestConfig : St E (Z * Z);                           (* 0, 0 when no DP is connected *)
  SE_CreateColorManager : St E bool;
  SE_DestroyColorManager : St E unit;
  SE_color : ColorCall -> Z -> St E Z;
  SE_payload : list Z -> St E (Z * Z * list Z);
  SE_sync_wait : Z -> St E Z;
  SE_WaitFinite : Z -> St E Z;
  SE_property : Z -> St E (Z * Z);
  SE_Create : Kind -> Z -> St E Z;                          (* status of the constructor of the object *)
  SE_Destroy : Z -> St E unit;
  SE_call : Z -> Method -> St E (Z * list Z);
  SE_layer : Z -> Z -> LayerCall -> St E (option Error)     (* none when the display has no such layer *)
}.

(** ** State *)
Record Callbacks := mkCallbacks { hotplug_ : Z; hotplug_data_ : Z; refresh_ : Z; refresh_data_ : Z; vsync_ : Z; vsync_data_ : Z }.
#[global] Instance eta_callbacks : Eta Callbacks := fun c =>
  mkCallbacks (hotplug_ c) (hotplug_data_ c) (refresh_ c) (refresh_data_ c) (vsync_ c) (vsync_data_ c).
(** [listener] is that of the thread of the uevents; [qservice_] says that there is one. *)
Record Session := mkSession {
  hwc_display_ : list (option Z); sequence_wait_ : list Z; callbacks_ : Callbacks; color_mgr_ : bool; reset_panel_ : bool;
  secure_display_active_ : bool; external_pending_connect_ : bool; external_pending_hotplug_ : bool; first_commit_ : bool;
  new_bw_mode_ : bool; need_invalidate_ : bool; bw_mode_release_fd_ : Z; qservice_ : bool; hdmi_is_primary_ : bool;
  is_composer_up_ : bool; null_display_active_ : bool; disable_skip_validate_ : bool; listener : bool
}.
#[global] Instance eta_session : Eta Session := fun s =>
  mkSession (hwc_display_ s) (sequence_wait_ s) (callbacks_ s) (color_mgr_ s) (reset_panel_ s) (secure_display_active_ s)
    (external_pending_connect_ s) (external_pending_hotplug_ s) (first_commit_ s) (new_bw_mode_ s) (need_invalidate_ s)
    (bw_mode_release_fd_ s) (qservice_ s) (hdmi_is_primary_ s) (is_composer_up_ s) (null_display_active_ s)
    (disable_skip_validate_ s) (listener s).
Definition new_HWCSession : Session :=
  mkSession [None; None; None] [0; 0; 0] (mkCallbacks 0 0 0 0 0 0) false false false false false false false false (-1) false false
    false false false false.
(** The objects that are alive, the number of the next, and the events that were sent. *)
Record World (E : Type) := mkSWorld { sess : Session; live : gset Z; next_object : Z; events : list Event; env : E }.
Arguments mkSWorld {E}.
Arguments sess {E}.
Arguments live {E}.
Arguments next_object {E}.
Arguments events {E}.
Arguments env {E}.
#[global] Instance eta_sworld {E} : Eta (World E) := fun w => mkSWorld (sess w) (live w) (next_object w) (events w) (env w).

Section Session.
Context {E : Type} `{!SessionEnv E}.
Abbreviation M := (St (World E)).
Definition in_e {A} (m : St E A) : M A := fun w =>
  match m (env w) with Ret (a, e) => Ret (a, w <| env := e |>) | Undef => Undef | NoFuel => NoFuel end.
Definition on_sess (f : Session -> Session) : M unit := st_modify (fun w => w <| sess ::= f |>).
Definition get {A} (f : Session -> A) : M A := st_gets (fun w => f (sess w)).
(** The thread waits for another one, or the process ends. *)
Definition no_return {A} : M A := fun _ => NoFuel.
Definition send (e : Event) : M unit := st_modify (fun w => w <| events ::= fun l => l ++ [e] |>).

(** ** Locks: what is kept of them is where the frame of each display is *)
Definition set_sequence (d x : Z) : M unit :=
  if (0 <=? d) && (d <? HWC_NUM_DISPLAY_TYPES) then on_sess (fun s => s <| sequence_wait_ ::= <[Z.to_nat d := x]> |>) else st_undef.
Definition SequenceEntryScopeLock (d : Z) : M unit := set_sequence d 1.
Definition SequenceExitScopeLock (d : Z) : M unit := set_sequence d 0.
Definition SequenceCancelScopeLock (d : Z) : M unit := set_sequence d (-1).
Definition SequenceWaitScopeLock (d : Z) : M unit :=
  l ← get sequence_wait_;
  if d <? 0 then st_undef else
  match l !! Z.to_nat d with None => st_undef | Some x => if x =? 1 then no_return else mret tt end.
Definition ScopeLock (d : Z) : M unit := if (0 <=? d) && (d <? HWC_NUM_DISPLAY_TYPES) then mret tt else st_undef.

(** ** Displays *)
Definition slot (d : Z) : M (option Z) :=
  l ← get hwc_display_;
  if d <? 0 then st_undef else match l !! Z.to_nat d with None => st_undef | Some p => mret p end.
Definition set_slot (d : Z) (p : option Z) : M unit := on_sess (fun s => s <| hwc_display_ ::= <[Z.to_nat d := p]> |>).
Definition alive (p : Z) : M unit := l ← st_gets live; if decide (p ∈ l) then mret tt else st_undef.
(** A method of the object, and of the display of a slot, which is not null. *)
Definition call (p : Z) (m : Method) : M (Z * list Z) := _ ← alive p; in_e (SE_call p m).
Definition status_of (p : Z) (m : Method) : M Z := '(r, _) ← call p m; mret r.
Definition deref (d : Z) : M Z := p ← slot d; match p with None => st_undef | Some p => mret p end.
Definition on_display (d : Z) (m : Method) : M (Z * list Z) := p ← deref d; call p m.
Definition status_on (d : Z) (m : Method) : M Z := p ← deref d; status_of p m.
(** Create of one of the classes: the object is stored when all of it succeeds. *)
Definition store (p d : Z) : M unit :=
  _ ← st_modify (fun w => w <| live ::= fun l => {[p]} ∪ l |> <| next_object ::= Z.succ |>); set_slot d (Some p).
Definition Create (k : Kind) (d : Z) : M Z :=
  p ← st_gets next_object;
  status ← in_e (SE_Create k p);
  if status =? 0 then _ ← store p d; mret status else mret status.
Definition Destroy (p : Z) : M unit :=
  _ ← alive p; _ ← in_e (SE_Destroy p); st_modify (fun w => w <| live ::= fun l => l ∖ {[p]} |>).

(** ** Callbacks *)
Definition CB_Hotplug (display : Z) (connected : bool) : M Error :=
  c ← get callbacks_; if hotplug_ c =? 0 then mret NoResources else _ ← send (EvHotplug display connected); mret ENone.
Definition CB_Refresh (display : Z) : M Error :=
  c ← get callbacks_; if refresh_ c =? 0 then mret NoResources else _ ← send (EvRefresh display); mret ENone.
Definition CB_Vsync (display timestamp : Z) : M Error :=
  c ← get callbacks_; if vsync_ c =? 0 then mret NoResources else _ ← send (EvVsync display timestamp); mret ENone.
Definition HWC2_CALLBACK_HOTPLUG : Z := 1.
Definition HWC2_CALLBACK_REFRESH : Z := 2.
Definition HWC2_CALLBACK_VSYNC : Z := 3.
Definition Register (descriptor data pointer : Z) (c : Callbacks) : Error * Callbacks :=
  if descriptor =? HWC2_CALLBACK_HOTPLUG then (ENone, c <| hotplug_data_ := data |> <| hotplug_ := pointer |>)
  else if descriptor =? HWC2_CALLBACK_REFRESH then (ENone, c <| refresh_data_ := data |> <| refresh_ := pointer |>)
  else if descriptor =? HWC2_CALLBACK_VSYNC then (ENone, c <| vsync_data_ := data |> <| vsync_ := pointer |>)
  else (BadParameter, c).
Definition Refresh (display : Z) : M unit := _ ← CB_Refresh display; mret tt.
(** It waits until a callback is registered. *)
Definition HotPlug (display : Z) (connected : bool) : M unit :=
  e ← CB_Hotplug display connected; if decide (e <> ENone) then no_return else mret tt.

(** ** Creation *)
Definition CreateExternalDisplay (disp primary_width primary_height : Z) (use_primary_res : bool) : M Z :=
  '(bpp, pattern) ← in_e SE_DPTestConfig;
  if negb (bpp =? 0) && negb (pattern =? 0) then Create (KExternalTest bpp pattern) disp
  else if use_primary_res then Create (KExternal primary_width primary_height use_primary_res) disp
  else Create (KExternal 0 0 false) disp.
(** The dummy is stored whatever its constructor does. *)
Definition CreateNullDisplay : M unit :=
  p ← st_gets next_object; _ ← in_e (SE_Create KDummy p); store p HWC_DISPLAY_PRIMARY.
Definition undo_core : M unit := _ ← in_e SE_DestroyCore; in_e SE_AllocatorDeinit.
Definition Init : M Z :=
  ok ← in_e SE_InitDone;
  if negb ok then mret (- EINVAL) else
  ok ← in_e SE_getService;
  if negb ok then mret (- EINVAL) else
  _ ← on_sess (fun s => s <| qservice_ := true |>);
  _ ← in_e SE_registerAsService;
  error ← in_e SE_AllocatorInit;
  if negb (error =? kErrorNone_) then mret (- EINVAL) else
  error ← in_e SE_CreateCore;
  if negb (error =? kErrorNone_) then _ ← in_e SE_AllocatorDeinit; mret (- EINVAL) else
  _ ← on_sess (fun s => s <| listener := true |>);
  '(error, hdmi, connected) ← in_e SE_FirstDisplay;
  if negb (error =? kErrorNone_) then _ ← on_sess (fun s => s <| listener := false |>); _ ← undo_core; mret (- EINVAL) else
  status ←
    (if (hdmi : bool) then
       _ ← on_sess (fun s => s <| hdmi_is_primary_ := true |>);
       if (connected : bool) then CreateExternalDisplay HWC_DISPLAY_PRIMARY 0 0 false
       else _ ← CreateNullDisplay; _ ← on_sess (fun s => s <| null_display_active_ := true |>); mret 0
     else
       status ← Create KPrimary HWC_DISPLAY_PRIMARY;
       c ← in_e SE_CreateColorManager;
       _ ← on_sess (fun s => s <| color_mgr_ := c |>);
       mret status);
  if negb (status =? 0) then _ ← on_sess (fun s => s <| listener := false |>); _ ← undo_core; mret status else
  _ ← on_sess (fun s => s <| is_composer_up_ := true |>);
  mret 0.
Definition Deinit : M Z :=
  _ ← SequenceCancelScopeLock HWC_DISPLAY_VIRTUAL;
  _ ← SequenceCancelScopeLock HWC_DISPLAY_EXTERNAL;
  _ ← SequenceCancelScopeLock HWC_DISPLAY_PRIMARY;
  p ← slot HWC_DISPLAY_PRIMARY;
  _ ← match p with Some p => Destroy p | None => mret tt end;
  _ ← set_slot HWC_DISPLAY_PRIMARY None;
  c ← get color_mgr_;
  _ ← (if (c : bool) then in_e SE_DestroyColorManager else mret tt);
  _ ← on_sess (fun s => s <| listener := false |>);
  _ ← in_e SE_DestroyCore;
  mret 0.
(** The capabilities when there is an array, and their count. *)
Definition HWC2_CAPABILITY_SKIP_CLIENT_COLOR_TRANSFORM : Z := 2.
Definition HWC2_CAPABILITY_SKIP_VALIDATE : Z := 4.
Definition GetCapabilities (outCount : Z) (array : bool) : M (Z * list Z) :=
  color ← in_e SE_IsColorTransformSupported;
  v ← in_e SE_disable_skip_validate;
  _ ← match v with Some v => on_sess (fun s => s <| disable_skip_validate_ := (v =? 1) |>) | None => mret tt end;
  d ← get disable_skip_validate_;
  let l := (if (color : bool) then [HWC2_CAPABILITY_SKIP_CLIENT_COLOR_TRANSFORM] else []) ++ (if (d : bool) then [] else [HWC2_CAPABILITY_SKIP_VALIDATE]) in
  let count := Z.of_nat (length l) in
  mret (count, if (array : bool) && (count <=? outCount) then l else []).
(** ** Calls of the client *)
Definition CallDisplayFunction (display : Z) (m : Method) : M Z :=
  if HWC_NUM_DISPLAY_TYPES <=? display then mret HWC2_ERROR_BAD_DISPLAY
  else
    _ ← ScopeLock display;
    p ← slot display;
    match p with None => mret HWC2_ERROR_BAD_DISPLAY | Some p => status_of p m end.
(** The index of the display is not checked. *)
Definition CallLayerFunction (display layer : Z) (c : LayerCall) : M Z :=
  _ ← ScopeLock display;
  p ← slot display;
  match p with
  | None => mret HWC2_ERROR_BAD_DISPLAY
  | Some p =>
      _ ← alive p;
      r ← in_e (SE_layer p layer c);
      match r with
      | None => mret (error_code BadLayer)
      | Some e =>
          g ← status_on display MGetGeometryChanges;
          _ ← (if negb (g =? 0) then status_on display MResetValidation else mret 0);
          mret (error_code e)
      end
  end.
Definition AcceptDisplayChanges (d : Z) : M Z := CallDisplayFunction d MAcceptDisplayChanges.
Definition CreateLayer (d out_layer_id : Z) : M Z :=
  if out_layer_id =? 0 then mret HWC2_ERROR_BAD_PARAMETER else CallDisplayFunction d (MCreateLayer out_layer_id).
Definition CreateVirtualDisplayObject (width height format : Z) : M Error :=
  p ← slot HWC_DISPLAY_VIRTUAL;
  match p with
  | Some _ => mret NoResources
  | None => status ← Create (KVirtual width height format) HWC_DISPLAY_VIRTUAL; mret (if negb (status =? 0) then Unsupported else ENone)
  end.
(** The pointers to the format and to the identifier. *)
Definition CreateVirtualDisplay (width height format out_display_id : Z) : M Z :=
  _ ← ScopeLock HWC_DISPLAY_VIRTUAL;
  if (out_display_id =? 0) || (width =? 0) || (height =? 0) || (format =? 0) then mret HWC2_ERROR_BAD_PARAMETER
  else e ← CreateVirtualDisplayObject width height format; mret (error_code e).
Definition DestroyLayer (d layer : Z) : M Z := CallDisplayFunction d (MDestroyLayer layer).
Definition DestroyVirtualDisplay (d : Z) : M Z :=
  if negb (d =? HWC_DISPLAY_VIRTUAL) then mret HWC2_ERROR_BAD_DISPLAY
  else
    _ ← ScopeLock d;
    p ← slot d;
    match p with
    | Some p => _ ← Destroy p; _ ← set_slot d None; mret HWC2_ERROR_NONE
    | None => mret HWC2_ERROR_BAD_DISPLAY
    end.
Definition GetActiveConfig (d out : Z) : M Z := CallDisplayFunction d (MGetActiveConfig out).
Definition GetChangedCompositionTypes (d num layers types : Z) : M Z :=
  if num =? 0 then mret HWC2_ERROR_BAD_PARAMETER else CallDisplayFunction d (MGetChangedCompositionTypes num layers types).
Definition GetClientTargetSupport (d width height format dataspace : Z) : M Z :=
  CallDisplayFunction d (MGetClientTargetSupport width height format dataspace).
Definition GetColorModes (d num modes : Z) : M Z := CallDisplayFunction d (MGetColorModes num modes).
Definition GetDisplayAttribute (d config attribute out : Z) : M Z := CallDisplayFunction d (MGetDisplayAttribute config attribute out).
Definition GetDisplayConfigs (d num configs : Z) : M Z := CallDisplayFunction d (MGetDisplayConfigs num configs).
Definition GetDisplayName (d size name : Z) : M Z := CallDisplayFunction d (MGetDisplayName size name).
Definition GetDisplayRequests (d requests num layers layer_requests : Z) : M Z :=
  CallDisplayFunction d (MGetDisplayRequests requests num layers layer_requests).
Definition GetDisplayType (d out : Z) : M Z := CallDisplayFunction d (MGetDisplayType out).
(** The error and the support. *)
Definition GetDozeSupport (d : Z) : Z * Z := if d =? HWC_DISPLAY_PRIMARY then (HWC2_ERROR_NONE, 1) else (HWC2_ERROR_BAD_DISPLAY, 0).
Definition GetHdrCapabilities (d num types max avg min : Z) : M Z := CallDisplayFunction d (MGetHdrCapabilities num types max avg min).
Definition GetMaxVirtualDisplayCount : M Z := n ← in_e SE_max_virtual; mret (u32 n).
Definition GetReleaseFences (d num layers fences : Z) : M Z := CallDisplayFunction d (MGetReleaseFences num layers fences).
Definition SetActiveConfig (d config : Z) : M Z := CallDisplayFunction d (MSetActiveConfig config).
Definition SetClientTarget (d target acquire_fence dataspace : Z) (damage : list IRect) : M Z :=
  CallDisplayFunction d (MSetClientTarget target acquire_fence dataspace damage).
Definition SetColorMode (d mode : Z) : M Z :=
  if (mode <? HAL_COLOR_MODE_NATIVE_) || (HAL_COLOR_MODE_DISPLAY_P3_ <? mode) then mret HWC2_ERROR_BAD_PARAMETER
  else CallDisplayFunction d (MSetColorMode mode).
Definition SetColorTransform (d matrix hint : Z) : M Z :=
  if (matrix =? 0) || (hint <? HAL_COLOR_TRANSFORM_IDENTITY_) || (HAL_COLOR_TRANSFORM_CORRECT_TRITANOPIA_ <? hint) then mret HWC2_ERROR_BAD_PARAMETER
  else CallDisplayFunction d (MSetColorTransform matrix hint).
Definition SetCursorPosition (d layer x y : Z) : M Z :=
  status ← CallDisplayFunction d (MSetCursorPosition layer x y);
  _ ← (if status =? HWC2_ERROR_NONE then CallLayerFunction d layer (LCursor x y) else mret 0);
  mret status.
(** The casts of the numbers of the client. *)
Definition to_BlendMode (n : Z) : BlendMode :=
  if n =? 0 then BlendInvalid else if n =? 1 then BlendNone else if n =? 2 then BlendPremultiplied else if n =? 3 then BlendCoverage
  else OtherBlend n.
Definition to_Composition (n : Z) : HComposition :=
  if n =? 0 then Invalid else if n =? 1 then HwcLayer.Client else if n =? 2 then Device else if n =? 3 then SolidColor else if n =? 4 then Cursor
  else if n =? 5 then Sideband else OtherComposition n.
Definition to_Transform (n : Z) : Transform :=
  if n =? 0 then TNone else if n =? 1 then FlipH else if n =? 2 then FlipV else if n =? 3 then Rotate180 else if n =? 4 then Rotate90
  else if n =? 5 then FlipHRotate90 else if n =? 6 then FlipVRotate90 else if n =? 7 then Rotate270 else OtherTransform n.
Definition SetLayerBlendMode (d layer mode : Z) : M Z :=
  if (mode <? 0) || (3 <? mode) then mret HWC2_ERROR_BAD_PARAMETER else CallLayerFunction d layer (LBlendMode (to_BlendMode mode)).
Definition SetLayerBuffer (d layer buffer acquire_fence : Z) : M Z := CallLayerFunction d layer (LBuffer buffer acquire_fence).
Definition SetLayerColor (d layer : Z) (c : HColor) : M Z := CallLayerFunction d layer (LColor c).
Definition SetLayerCompositionType (d layer type : Z) : M Z := CallLayerFunction d layer (LCompositionType (to_Composition type)).
Definition SetLayerDataspace (d layer dataspace : Z) : M Z := CallLayerFunction d layer (LDataspace dataspace).
Definition SetLayerDisplayFrame (d layer : Z) (r : IRect) : M Z := CallLayerFunction d layer (LDisplayFrame r).
Definition SetLayerPlaneAlpha (d layer : Z) (a : Float32.float) : M Z := CallLayerFunction d layer (LPlaneAlpha a).
Definition SetLayerSourceCrop (d layer : Z) (r : Rect.LayerRect) : M Z := CallLayerFunction d layer (LSourceCrop r).
Definition SetLayerSurfaceDamage (d layer : Z) (l : list IRect) : M Z := CallLayerFunction d layer (LSurfaceDamage l).
Definition SetLayerTransform (d layer transform : Z) : M Z := CallLayerFunction d layer (LTransform (to_Transform transform)).
Definition SetLayerVisibleRegion (d layer : Z) (l : list IRect) : M Z := CallLayerFunction d layer (LVisibleRegion l).
Definition SetLayerZOrder (d layer z : Z) : M Z := CallDisplayFunction d (MSetLayerZOrder layer z).
Definition SetOutputBuffer (d buffer fence : Z) : M Z :=
  if negb (d =? HWC_DISPLAY_VIRTUAL) then mret HWC2_ERROR_UNSUPPORTED
  else
    _ ← ScopeLock d;
    p ← slot d;
    match p with Some p => status_of p (MSetOutputBuffer buffer fence) | None => mret HWC2_ERROR_BAD_DISPLAY end.
Definition SetPowerMode (d mode : Z) : M Z := CallDisplayFunction d (MSetPowerMode mode).
Definition SetVsyncEnabled (d enabled : Z) : M Z := CallDisplayFunction d (MSetVsyncEnabled enabled).
Definition RegisterCallback (descriptor data pointer : Z) : M Z :=
  c ← get callbacks_;
  let '(error, c) := Register descriptor data pointer c in
  _ ← on_sess (fun s => s <| callbacks_ := c |>);
  _ ← (if descriptor =? HWC2_CALLBACK_HOTPLUG then
         p ← slot HWC_DISPLAY_PRIMARY;
         match p with Some _ => CB_Hotplug HWC_DISPLAY_PRIMARY true | None => mret ENone end
       else mret ENone);
  _ ← on_sess (fun s => s <| need_invalidate_ := false |>);
  mret (error_code error).

(** ** Connection of displays *)
Definition ConnectDisplay (disp : Z) : M Z :=
  '(_, size) ← on_display HWC_DISPLAY_PRIMARY MGetFrameBufferResolution;
  if disp =? HWC_DISPLAY_EXTERNAL then
    status ← CreateExternalDisplay disp (nth 0 size 0) (nth 1 size 0) false;
    _ ← (if status =? 0 then secure ← get secure_display_active_; _ ← on_display disp (MSetSecureDisplay secure); mret tt else mret tt);
    mret status
  else mret (-1).
Definition DisconnectDisplay (disp : Z) : M Z :=
  if (disp =? HWC_DISPLAY_EXTERNAL) || (disp =? HWC_DISPLAY_VIRTUAL) then
    p ← deref disp; _ ← Destroy p; _ ← set_slot disp None; mret 0
  else mret (-1).

(** ** A frame *)
Definition PresentDisplay (display out_retire_fence : Z) : M Z :=
  if HWC_NUM_DISPLAY_TYPES <=? display then mret HWC2_ERROR_BAD_DISPLAY
  else
    _ ← SequenceExitScopeLock display;
    p ← slot display;
    status ← match p with Some p => status_of p (MPresent out_retire_fence) | None => mret HWC2_ERROR_BAD_DISPLAY end;
    _ ← (if negb (status =? HWC2_ERROR_NONE) && negb (status =? error_code NotValidated) then SequenceCancelScopeLock display else mret tt);
    pending ← get external_pending_connect_;
    notify ←
      (if pending && (display =? HWC_DISPLAY_PRIMARY) then
         v ← slot HWC_DISPLAY_VIRTUAL;
         match v with
         | None =>
             _ ← ConnectDisplay HWC_DISPLAY_EXTERNAL;
             _ ← on_sess (fun s => s <| external_pending_connect_ := false |>);
             mret true
         | Some _ => mret false
         end
       else mret false);
    notify ←
      (if display =? HWC_DISPLAY_PRIMARY then
         _ ← on_sess (fun s => s <| first_commit_ := true |>);
         h ← get external_pending_hotplug_;
         if (h : bool) then _ ← on_sess (fun s => s <| external_pending_hotplug_ := false |>); mret true else mret notify
       else mret (notify : bool));
    _ ← (if (notify : bool) then HotPlug HWC_DISPLAY_EXTERNAL true else mret tt);
    mret status.
Definition HWC2_POWER_MODE_OFF : Z := 0.
Definition HWC2_VSYNC_ENABLE : Z := 1.
Definition ResetPanel : M unit :=
  _ ← status_on HWC_DISPLAY_PRIMARY (MSetPowerMode HWC2_POWER_MODE_OFF);
  mode ← status_on HWC_DISPLAY_PRIMARY MGetLastPowerMode;
  _ ← status_on HWC_DISPLAY_PRIMARY (MSetPowerMode mode);
  _ ← status_on HWC_DISPLAY_PRIMARY (MSetVsyncEnabled HWC2_VSYNC_ENABLE);
  on_sess (fun s => s <| reset_panel_ := false |>).
(** What is done for the primary display before its validation. *)
Definition prepare_primary (p : Z) : M unit :=
  r ← get reset_panel_;
  _ ← (if (r : bool) then ResetPanel else mret tt);
  n ← get need_invalidate_;
  _ ← (if (n : bool) then _ ← Refresh HWC_DISPLAY_PRIMARY; on_sess (fun s => s <| need_invalidate_ := false |>) else mret tt);
  c ← get color_mgr_;
  if (c : bool) then _ ← alive p; _ ← in_e (SE_color CSetColorModeDetailEnhancer p); mret tt else mret tt.
(** The index of the display is not checked. *)
Definition ValidateDisplay (display num_types num_requests : Z) : M Z :=
  _ ← SequenceEntryScopeLock display;
  p ← slot display;
  status ←
    match p with
    | Some p => _ ← (if display =? HWC_DISPLAY_PRIMARY then prepare_primary p else mret tt); status_on display (MValidate num_types num_requests)
    | None => mret HWC2_ERROR_BAD_DISPLAY
    end;
  _ ← (if negb (status =? HWC2_ERROR_NONE) && negb (status =? error_code HasChanges) then SequenceCancelScopeLock display else mret tt);
  mret status.

(** ** Events of the kernel *)
Definition HWC2_ATTRIBUTE_VSYNC_PERIOD : Z := 3.
Definition GetVsyncPeriod (disp : Z) : M Z :=
  _ ← ScopeLock disp;
  p ← slot disp;
  match p with
  | Some p => '(_, out) ← call p (MGetDisplayAttribute 0 HWC2_ATTRIBUTE_VSYNC_PERIOD 1); mret (nth 0 out (1000000000 / 60))
  | None => mret (1000000000 / 60)
  end.
(** The displays are changed: the value to return early, or whether the client is told. *)
Definition hotplug_display (s : Session) (connected : bool) : M (Z + bool) :=
  if hdmi_is_primary_ s then
    if negb (null_display_active_ s) then _ ← status_on HWC_DISPLAY_PRIMARY (MSetState connected); mret (inr false)
    else p ← deref HWC_DISPLAY_PRIMARY; _ ← Destroy p; no_return
  else
    prim ← slot HWC_DISPLAY_PRIMARY;
    match prim with
    | None => mret (inl (-1))
    | Some _ =>
        if connected then
          v ← slot HWC_DISPLAY_VIRTUAL;
          match v with
          | None =>
              status ← ConnectDisplay HWC_DISPLAY_EXTERNAL;
              if negb (status =? 0) then mret (inl status) else mret (inr true)
          | Some _ => _ ← on_sess (fun s => s <| external_pending_connect_ := true |>); mret (inr false)
          end
        else
          _ ← SequenceWaitScopeLock HWC_DISPLAY_EXTERNAL;
          x ← slot HWC_DISPLAY_EXTERNAL;
          notify ← match x with Some _ => _ ← DisconnectDisplay HWC_DISPLAY_EXTERNAL; mret true | None => mret false end;
          _ ← on_sess (fun s => s <| external_pending_connect_ := false |>);
          mret (inr notify)
    end.
Definition hotplug_notify (s : Session) (connected notify : bool) : M Z :=
  _ ← (if connected then
         _ ← Refresh 0;
         if negb (hdmi_is_primary_ s) then _ ← GetVsyncPeriod HWC_DISPLAY_PRIMARY; mret tt else mret tt
       else mret tt);
  first ← get first_commit_;
  notify ←
    (if notify && negb (hdmi_is_primary_ s) && negb first then
       _ ← on_sess (fun s => s <| external_pending_hotplug_ := connected |>); mret false
     else mret notify);
  _ ← (if (notify : bool) then HotPlug (if hdmi_is_primary_ s then HWC_DISPLAY_PRIMARY else HWC_DISPLAY_EXTERNAL) connected else mret tt);
  _ ← send (EvHdmiHotplug connected);
  mret 0.
Definition HotPlugHandler (connected : bool) : M Z :=
  s ← get (fun s => s);
  if negb (first_commit_ s) && negb connected && hdmi_is_primary_ s then mret 0
  else
    r ← hotplug_display s connected;
    match r with inl status => mret status | inr notify => hotplug_notify s connected notify end.
(** strcasecmp is 0. *)
Definition strcasecmp (s : list Z) (name : string) : bool := bool_decide (map Cec.lower s = map Cec.lower (Cec.bytes name)).
Definition GetEventValue (uevent_data : Cec.Buf) (len : Z) (info : string) : outcome Z := Cec.get_event_value uevent_data len (Cec.bytes info).
Definition HWC_UEVENT_SWITCH_HDMI : string := "change@/devices/virtual/switch/hdmi".
Definition HWC_UEVENT_GRAPHICS_FB0 : string := "change@/devices/virtual/graphics/fb0".
(** The buffer is zeroed before the event is read; it is as long as the event at least. *)
Definition UEventHandler (uevent_data : Cec.Buf) (len : Z) : M unit :=
  '(name, _) ← st_lift (Cec.c_string uevent_data);
  if strcasecmp name HWC_UEVENT_SWITCH_HDMI then
    connected ← st_lift (GetEventValue uevent_data len "SWITCH_STATE=");
    if 0 <=? connected then _ ← HotPlugHandler (negb (connected =? 0)); mret tt else mret tt
  else if strcasecmp name HWC_UEVENT_GRAPHICS_FB0 then
    panel_reset ← st_lift (GetEventValue uevent_data len "PANEL_ALIVE=");
    if panel_reset =? 0 then _ ← Refresh 0; on_sess (fun s => s <| reset_panel_ := true |>) else mret tt
  else mret tt.

(** ** Services *)

(** The display, or the code of an error; [dpy] is the number of the enumeration. *)
Definition MapDisplayType (dpy : Z) : Z :=
  if dpy =? 0 then HWC_DISPLAY_PRIMARY else if dpy =? 1 then HWC_DISPLAY_EXTERNAL else if dpy =? 2 then HWC_DISPLAY_VIRTUAL else - EINVAL.
Definition MapExternalStatus (status : Z) : Z := if (0 <=? status) && (status <=? 3) then status else -1.
Definition bad_id (d : Z) : bool := (d <? HWC_DISPLAY_PRIMARY) || (HWC_NUM_DISPLAY_TYPES <=? d).
Definition isDisplayConnected (dpy : Z) : M (Z * bool) :=
  let d := MapDisplayType dpy in
  if bad_id d then mret (- EINVAL, false)
  else _ ← SequenceWaitScopeLock d; p ← slot d; mret (0, bool_decide (is_Some p)).
Definition SetSecondaryDisplayStatus (d status : Z) : M Z :=
  if bad_id d then mret (- EINVAL)
  else
    _ ← SequenceWaitScopeLock d;
    if d =? HWC_DISPLAY_PRIMARY then mret (- EINVAL)
    else p ← slot d; match p with None => mret (- EINVAL) | Some p => status_of p (MSetDisplayStatus status) end.
Definition setSecondayDisplayStatus (dpy status : Z) : M Z := SetSecondaryDisplayStatus (MapDisplayType dpy) (MapExternalStatus status).
(** The pointer of the display is used without a check. *)
Definition configureDynRefeshRate (op refreshRate : Z) : M Z :=
  _ ← SequenceWaitScopeLock HWC_DISPLAY_PRIMARY;
  if op =? 0 then status_on HWC_DISPLAY_PRIMARY (MPerform SET_METADATA_DYN_REFRESH_RATE_ 0)
  else if op =? 1 then status_on HWC_DISPLAY_PRIMARY (MPerform SET_METADATA_DYN_REFRESH_RATE_ 1)
  else if op =? 2 then status_on HWC_DISPLAY_PRIMARY (MPerform SET_BINDER_DYN_REFRESH_RATE_ refreshRate)
  else mret (- EINVAL).
(** A call of a display that has a result besides the status. *)
Definition query (d : Z) (m : Method) : M (Z * list Z) :=
  if bad_id d then mret (- EINVAL, [])
  else _ ← SequenceWaitScopeLock d; p ← slot d; match p with None => mret (- EINVAL, []) | Some p => call p m end.
Definition GetConfigCount (d : Z) : M (Z * Z) := '(e, out) ← query d MGetDisplayConfigCount; mret (e, nth 0 out 0).
Definition getConfigCount (dpy : Z) : M (Z * Z) := GetConfigCount (MapDisplayType dpy).
Definition GetActiveConfigIndex (d : Z) : M (Z * Z) := '(e, out) ← query d MGetActiveDisplayConfig; mret (e, nth 0 out 0).
Definition getActiveConfig (dpy : Z) : M (Z * Z) := GetActiveConfigIndex (MapDisplayType dpy).
Definition SetActiveConfigIndex (d config : Z) : M Z :=
  if bad_id d then mret (- EINVAL)
  else
    _ ← SequenceWaitScopeLock d;
    p ← slot d;
    match p with
    | None => mret (- EINVAL)
    | Some p => error ← status_of p (MSetActiveDisplayConfig config); _ ← (if error =? 0 then Refresh 0 else mret tt); mret error
    end.
Definition setActiveConfig (dpy config : Z) : M Z := SetActiveConfigIndex (MapDisplayType dpy) config.
(** The attributes are those of the configuration when there is no error. *)
Definition getDisplayAttributes (configIndex dpy : Z) : M (Z * list Z) :=
  '(error, out) ← query (MapDisplayType dpy) (MGetDisplayAttributesForConfig (swrap 32 configIndex));
  mret (error, if error =? 0 then out else []).
Definition on_primary (m : Method) : M (Z * list Z) :=
  _ ← SequenceWaitScopeLock HWC_DISPLAY_PRIMARY;
  p ← slot HWC_DISPLAY_PRIMARY;
  match p with None => mret (- EINVAL, []) | Some p => call p m end.
Definition setPanelBrightness (level : Z) : M Z := '(e, _) ← on_primary (MSetPanelBrightness (swrap 32 level)); mret e.
Definition GetPanelBrightness : M (Z * Z) := '(e, out) ← on_primary MGetPanelBrightness; mret (e, nth 0 out 0).
Definition MinHdcpEncryptionLevelChanged (d level : Z) : M Z :=
  if bad_id d then mret (- EINVAL)
  else
    _ ← SequenceWaitScopeLock d;
    if negb (d =? HWC_DISPLAY_EXTERNAL) then mret (- EINVAL)
    else p ← slot d; match p with None => mret (- EINVAL) | Some p => status_of p (MOnMinHdcpEncryptionLevelChange level) end.
Definition minHdcpEncryptionLevelChanged (dpy level : Z) : M Z := MinHdcpEncryptionLevelChanged (MapDisplayType dpy) level.
Definition refreshScreen : M Z := _ ← SequenceWaitScopeLock HWC_DISPLAY_PRIMARY; _ ← Refresh HWC_DISPLAY_PRIMARY; mret 0.
Definition kPartialUpdateControlTimeoutMs : Z := 100.
Definition ControlPartialUpdate (d : Z) (enable : bool) : M Z :=
  if bad_id d then mret (- EINVAL)
  else if negb (d =? HWC_DISPLAY_PRIMARY) then mret (- EINVAL)
  else
    _ ← SequenceWaitScopeLock d;
    p ← slot HWC_DISPLAY_PRIMARY;
    match p with
    | None => mret (- EINVAL)
    | Some p =>
        '(error, out) ← call p (MControlPartialUpdate enable);
        if error =? kErrorNone_ then
          if nth 0 out 0 =? 0 then mret 0
          else _ ← Refresh HWC_DISPLAY_PRIMARY; in_e (SE_WaitFinite kPartialUpdateControlTimeoutMs)
        else if error =? kErrorNotSupported_ then mret 0
        else mret (- EINVAL)
    end.
Definition controlPartialUpdate (dpy : Z) (enable : bool) : M Z := ControlPartialUpdate (MapDisplayType dpy) enable.
Definition toggleScreenUpdate (on : bool) : M Z := '(e, _) ← on_primary (MToggleScreenUpdates on); mret e.
Definition setIdleTimeout (value : Z) : M Z :=
  _ ← SequenceWaitScopeLock HWC_DISPLAY_PRIMARY;
  p ← slot HWC_DISPLAY_PRIMARY;
  match p with None => mret (- EINVAL) | Some p => _ ← call p (MSetIdleTimeoutMs value); mret 0 end.
(** The error and whether there are types of HDR, with null pointers and then with
    arrays of the client. *)
Definition getHDRCapabilities (dpy : Z) : M (Z * Z) :=
  let d := MapDisplayType dpy in
  if bad_id d then mret (- EINVAL, 0)
  else
    _ ← SequenceWaitScopeLock d;
    p ← slot d;
    match p with
    | None => mret (- EINVAL, 0)
    | Some p =>
        '(e, out) ← call p (MGetHdrCapabilities 1 0 0 0 0);
        if negb (e =? HWC2_ERROR_NONE) then mret (- EINVAL, 0)
        else
          let n := nth 0 out 0 in
          if n =? 0 then mret (0, 0)
          else '(e, _) ← call p (MGetHdrCapabilities n 1 1 1 1); mret (if e =? HWC2_ERROR_NONE then 0 else - EINVAL, n)
    end.
Definition setCameraLaunchStatus (on : Z) : M Z :=
  _ ← SequenceWaitScopeLock HWC_DISPLAY_PRIMARY;
  _ ← Refresh HWC_DISPLAY_PRIMARY;
  error ← in_e (SE_SetMaxBandwidthMode (0 <? on));
  if negb (error =? kErrorNone_) then mret (- EINVAL)
  else
    _ ← on_sess (fun s => s <| new_bw_mode_ := true |> <| need_invalidate_ := true |>);
    _ ← status_on HWC_DISPLAY_PRIMARY MResetValidation;
    mret 0.
Definition DisplayBWTransactionPending : M (Z * bool) :=
  _ ← SequenceWaitScopeLock HWC_DISPLAY_PRIMARY;
  p ← slot HWC_DISPLAY_PRIMARY;
  match p with
  | None => mret (- EINVAL, true)
  | Some _ => fd ← get bw_mode_release_fd_; r ← in_e (SE_sync_wait fd); mret (0, negb (r <? 0))
  end.
Definition setDisplayAnimating (d : Z) (animating : bool) : M Z := CallDisplayFunction d (MSetDisplayAnimating animating).
(** The index of the display is not checked. *)
Definition isHDRSupported (d : Z) : M bool :=
  _ ← SequenceWaitScopeLock d;
  p ← slot d;
  match p with
  | None => mret false
  | Some p => '(e, out) ← call p (MGetHdrCapabilities 1 0 0 0 0); mret ((e =? HWC2_ERROR_NONE) && negb (nth 0 out 0 =? 0))
  end.
(** The value of the property is an answer when it was not found. *)
Definition getDebugProperty (name : Z) : M (Z * Z) :=
  '(e, v) ← in_e (SE_property name); mret (if negb (e =? kErrorNone_) then (0, v) else (- EINVAL, 0)).
(** One turn of the thread of the uevents, with what was received. *)
Definition uevent_buffer (received : list Z) : Cec.Buf := (Some <$> received) ++ replicate (Cec.PAGE_SIZE - length received) (Some 0).
Definition UEventThread (received : list Z) : M unit :=
  l ← get listener;
  if (l : bool) then UEventHandler (uevent_buffer received) (Z.of_nat (length received)) else mret tt.

(** ** Commands over binder

    A parcel is the list of the values that are read from it; at its end 0 is read.
    The result is the status and what was written. *)
Definition arg (parcel : list Z) (i : nat) : Z := nth i parcel 0.
Definition uarg (parcel : list Z) (i : nat) : Z := u32 (arg parcel i).
Definition status_only (m : M Z) : M (Z * list Z) := r ← m; mret (r, []).
Definition status_written (m : M Z) : M (Z * list Z) := r ← m; mret (r, [r]).
Definition HandleGetDisplayAttributesForConfig (parcel : list Z) : M (Z * list Z) :=
  let config := arg parcel 0 in
  let dpy := arg parcel 1 in
  if (dpy <? HWC_DISPLAY_PRIMARY) || (HWC_NUM_DISPLAY_TYPES <=? dpy) || (config <? 0) then mret (BAD_VALUE, [])
  else
    _ ← SequenceWaitScopeLock dpy;
    p ← slot dpy;
    match p with
    | None => mret (BAD_VALUE, [])
    | Some p => '(error, out) ← call p (MGetDisplayAttributesForConfig config); mret (error, if error =? 0 then out ++ [0] else [])
    end.
(** The pointer of the display is used without a check. *)
Definition ConfigureRefreshRate (parcel : list Z) : M Z :=
  _ ← SequenceWaitScopeLock HWC_DISPLAY_PRIMARY;
  let operation := uarg parcel 0 in
  if operation =? 0 then status_on HWC_DISPLAY_PRIMARY (MPerform SET_METADATA_DYN_REFRESH_RATE_ 0)
  else if operation =? 1 then status_on HWC_DISPLAY_PRIMARY (MPerform SET_METADATA_DYN_REFRESH_RATE_ 1)
  else if operation =? 2 then status_on HWC_DISPLAY_PRIMARY (MPerform SET_BINDER_DYN_REFRESH_RATE_ (uarg parcel 1))
  else mret (- EINVAL).
Definition SetDisplayMode (parcel : list Z) : M Z :=
  _ ← SequenceWaitScopeLock HWC_DISPLAY_PRIMARY; status_on HWC_DISPLAY_PRIMARY (MPerform SET_DISPLAY_MODE_ (uarg parcel 0)).
(** A display whose bit is set in the mask. *)
Definition masked (mask d : Z) (m : Method) : M Z :=
  if Z.testbit mask d then
    _ ← SequenceWaitScopeLock d; p ← slot d; match p with None => mret 0 | Some p => status_of p m end
  else mret 0.
Definition SetMaxMixerStages (parcel : list Z) : M Z :=
  let mask := uarg parcel 0 in
  let m := MSetMaxMixerStages (uarg parcel 1) in
  e ← masked mask HWC_DISPLAY_PRIMARY m;
  if negb (e =? kErrorNone_) then mret (- EINVAL) else
  e ← masked mask HWC_DISPLAY_EXTERNAL m;
  if negb (e =? kErrorNone_) then mret (- EINVAL) else
  e ← masked mask HWC_DISPLAY_VIRTUAL m;
  if negb (e =? kErrorNone_) then mret (- EINVAL) else mret 0.
Definition SetFrameDumpConfig (parcel : list Z) : M unit :=
  let m := MSetFrameDumpConfig (uarg parcel 0) (uarg parcel 2) in
  let mask := uarg parcel 1 in
  _ ← masked mask HWC_DISPLAY_PRIMARY m; _ ← masked mask HWC_DISPLAY_EXTERNAL m; _ ← masked mask HWC_DISPLAY_VIRTUAL m; mret tt.
(** The primary display, which is not locked, when the parcel names it and it is there. *)
Definition dsi_display (parcel : list Z) : M (option Z) :=
  if negb (arg parcel 0 =? HWC_DISPLAY_PRIMARY) then mret None else slot HWC_DISPLAY_PRIMARY.
(** The clock is cut to 32 bits. *)
Definition SetDsiClk (parcel : list Z) : M Z :=
  p ← dsi_display parcel; match p with None => mret (- EINVAL) | Some p => status_of p (MSetDynamicDSIClock (u32 (arg parcel 1))) end.
Definition GetDsiClk (parcel : list Z) : M (Z * list Z) :=
  p ← dsi_display parcel;
  match p with None => mret (- EINVAL, []) | Some p => '(_, out) ← call p MGetDynamicDSIClock; mret (0, [nth 0 out 0]) end.
Definition GetSupportedDsiClk (parcel : list Z) : M (Z * list Z) :=
  p ← dsi_display parcel;
  match p with None => mret (- EINVAL, []) | Some p => '(_, out) ← call p MGetSupportedDSIClock; mret (0, Z.of_nat (length out) :: out) end.
Definition SetMixerResolution (parcel : list Z) : M Z :=
  if negb (uarg parcel 0 =? HWC_DISPLAY_PRIMARY) then mret (- EINVAL)
  else
    _ ← SequenceWaitScopeLock HWC_DISPLAY_PRIMARY;
    p ← slot HWC_DISPLAY_PRIMARY;
    match p with
    | None => mret (- EINVAL)
    | Some p => e ← status_of p (MSetMixerResolution (uarg parcel 1) (uarg parcel 2)); mret (if negb (e =? kErrorNone_) then - EINVAL else 0)
    end.
(** A negative number becomes a large one. *)
Definition SetColorModeOverride (parcel : list Z) : M Z :=
  let display := uwrap 64 (arg parcel 0) in
  if HWC_NUM_DISPLAY_TYPES <=? display then mret (- EINVAL)
  else e ← CallDisplayFunction display (MSetColorMode (arg parcel 1)); mret (if negb (e =? HWC2_ERROR_NONE) then - EINVAL else 0).
Definition GetVisibleDisplayRect (parcel : list Z) : M (Z * list Z) :=
  let dpy := arg parcel 0 in
  if bad_id dpy then mret (BAD_VALUE, [])
  else
    _ ← SequenceWaitScopeLock dpy;
    p ← slot dpy;
    match p with
    | None => mret (NO_INIT, [])
    | Some p => '(e, out) ← call p MGetVisibleDisplayRect; mret (if e <? 0 then (e, []) else (0, take 4 out))
    end.

(** The pending actions are bits; the ret of the last one counts. *)
Definition kInvalidating : Z := 0.
Definition kApplySolidFill : Z := 1.
Definition kDisableSolidFill : Z := 2.
Definition kEnterQDCMMode : Z := 3.
Definition kExitQDCMMode : Z := 4.
Definition kSetPanelBrightness : Z := 5.
Definition kEnableFrameCapture : Z := 6.
Definition kDisableFrameCapture : Z := 7.
Definition kConfigureDetailedEnhancer : Z := 8.
Definition kModeSet : Z := 10.
Definition kNoAction : Z := - 2 ^ 31.
Definition color_on_primary (c : ColorCall) : M Z := p ← deref HWC_DISPLAY_PRIMARY; _ ← alive p; in_e (SE_color c p).
Definition with_refresh (m : M Z) : M Z := r ← m; _ ← Refresh HWC_DISPLAY_PRIMARY; mret r.
(** The action of bit [count]: none when the function returns from it. *)
Definition qdcm_action (display_id count : Z) (resp : list Z) (ret : Z) (reset : bool) : M (option (Z * bool)) :=
  let on (m : M Z) : M (option (Z * bool)) := r ← m; mret (Some (r, reset)) in
  if count =? kInvalidating then _ ← Refresh HWC_DISPLAY_PRIMARY; d ← get disable_skip_validate_; mret (Some (ret, negb d))
  else if count =? kEnterQDCMMode then on (color_on_primary (CEnableQDCMMode true))
  else if count =? kExitQDCMMode then on (color_on_primary (CEnableQDCMMode false))
  else if count =? kApplySolidFill then on (with_refresh (color_on_primary (CSetSolidFill true)))
  else if count =? kDisableSolidFill then on (with_refresh (color_on_primary (CSetSolidFill false)))
  else if count =? kSetPanelBrightness then
    match resp with
    | [] => mret None
    | b :: _ => if display_id =? HWC_DISPLAY_PRIMARY then on (status_on HWC_DISPLAY_PRIMARY (MSetPanelBrightness b)) else mret (Some (ret, reset))
    end
  else if count =? kEnableFrameCapture then on (with_refresh (color_on_primary (CSetFrameCapture true)))
  else if count =? kDisableFrameCapture then on (color_on_primary (CSetFrameCapture false))
  else if count =? kConfigureDetailedEnhancer then on (with_refresh (color_on_primary CSetDetailedEnhancer))
  else if count =? kModeSet then on (with_refresh (status_on HWC_DISPLAY_PRIMARY MRestoreColorTransform))
  else mret (Some (ret, reset)).
(** An int has 32 bits. *)
Fixpoint qdcm_loop (fuel : nat) (display_id action count : Z) (resp : list Z) (ret : Z) (reset : bool) : M (option (Z * bool)) :=
  if 0 <? action then
    match fuel with
    | O => no_return
    | S fuel =>
        if Z.odd action then
          r ← qdcm_action display_id count resp ret reset;
          match r with
          | None => mret None
          | Some (ret, reset) => qdcm_loop fuel display_id (Z.shiftr action 1) (count + 1) resp ret reset
          end
        else qdcm_loop fuel display_id (Z.shiftr action 1) (count + 1) resp ret reset
    end
  else mret (Some (ret, reset)).
(** The request is routed to the display it names when it is there. *)
Definition qdcm_route (display_id d : Z) (payload : list Z) (r : Z * list Z) : M (Z * list Z) :=
  if display_id =? d then p ← slot d; match p with Some p => call p (MColorSVCRequestRoute payload) | None => mret r end else mret r.
(** What a route returns is the action and the payload of the answer. *)
Definition QdcmCMDHandler (parcel : list Z) : M (Z * list Z) :=
  c ← get color_mgr_;
  if negb c then mret (-1, [])
  else
    '(ret, display_id, payload) ← in_e (SE_payload parcel);
    '(ret, out) ←
      (if ret =? 0 then
         r ← qdcm_route display_id HWC_DISPLAY_PRIMARY payload (ret, []);
         qdcm_route display_id HWC_DISPLAY_EXTERNAL payload r
       else mret (ret, []));
    let action := nth 0 out kNoAction in
    let resp := tail out in
    let written := Z.of_nat (length resp) :: resp in
    if negb (ret =? 0) || (action =? kNoAction) then mret (ret, ret :: if action =? kNoAction then written else [])
    else
      r ← qdcm_loop 32 display_id action 0 resp ret true;
      match r with
      | None => mret (- EINVAL, [])
      | Some (ret, reset) =>
          _ ← (if (reset : bool) then _ ← status_on display_id MResetValidation; mret tt else mret tt);
          mret (if negb (ret =? 0) then - EINVAL else 0, ret :: written)
      end.

Inductive Command :=
| DYNAMIC_DEBUG | SCREEN_REFRESH | SET_IDLE_TIMEOUT | SET_FRAME_DUMP_CONFIG | SET_MAX_PIPES_PER_MIXER | SET_DISPLAY_MODE
| SET_SECONDARY_DISPLAY_STATUS | CONFIGURE_DYN_REFRESH_RATE | SET_VIEW_FRAME | TOGGLE_SCREEN_UPDATES | QDCM_SVC_CMDS
| MIN_HDCP_ENCRYPTION_LEVEL_CHANGED | CONTROL_PARTIAL_UPDATE | SET_ACTIVE_CONFIG | GET_ACTIVE_CONFIG | GET_CONFIG_COUNT
| GET_DISPLAY_ATTRIBUTES_FOR_CONFIG | GET_PANEL_BRIGHTNESS | SET_PANEL_BRIGHTNESS | GET_DISPLAY_VISIBLE_REGION | SET_CAMERA_STATUS
| GET_BW_TRANSACTION_STATUS | SET_LAYER_MIXER_RESOLUTION | SET_COLOR_MODE | SET_DSI_CLK | GET_DSI_CLK | GET_SUPPORTED_DSI_CLK
| GET_COMPOSER_STATUS | OTHER_COMMAND.
Definition notifyCallback (command : Command) (parcel : list Z) : M (Z * list Z) :=
  match command with
  | DYNAMIC_DEBUG | SET_VIEW_FRAME => mret (0, [])
  | SCREEN_REFRESH => _ ← refreshScreen; mret (0, [])
  | SET_IDLE_TIMEOUT => _ ← setIdleTimeout (uarg parcel 0); mret (0, [])
  | SET_FRAME_DUMP_CONFIG => _ ← SetFrameDumpConfig parcel; mret (0, [])
  | SET_MAX_PIPES_PER_MIXER => status_only (SetMaxMixerStages parcel)
  | SET_DISPLAY_MODE => status_only (SetDisplayMode parcel)
  | SET_SECONDARY_DISPLAY_STATUS => status_written (SetSecondaryDisplayStatus (arg parcel 0) (arg parcel 1))
  | CONFIGURE_DYN_REFRESH_RATE => status_only (ConfigureRefreshRate parcel)
  | TOGGLE_SCREEN_UPDATES => status_written (toggleScreenUpdate (arg parcel 0 =? 1))
  | QDCM_SVC_CMDS => QdcmCMDHandler parcel
  | MIN_HDCP_ENCRYPTION_LEVEL_CHANGED => status_written (MinHdcpEncryptionLevelChanged (arg parcel 0) (uarg parcel 1))
  | CONTROL_PARTIAL_UPDATE => status_written (ControlPartialUpdate (arg parcel 0) (uarg parcel 1 =? 1))
  | SET_ACTIVE_CONFIG => status_only (SetActiveConfigIndex (arg parcel 1) (uarg parcel 0))
  | GET_ACTIVE_CONFIG => '(e, c) ← GetActiveConfigIndex (arg parcel 0); mret (e, [c])
  | GET_CONFIG_COUNT => '(e, c) ← GetConfigCount (arg parcel 0); mret (e, [c])
  | GET_DISPLAY_ATTRIBUTES_FOR_CONFIG => HandleGetDisplayAttributesForConfig parcel
  | GET_PANEL_BRIGHTNESS => '(e, l) ← GetPanelBrightness; mret (e, [l])
  | SET_PANEL_BRIGHTNESS => status_written (setPanelBrightness (uarg parcel 0))
  | GET_DISPLAY_VISIBLE_REGION => GetVisibleDisplayRect parcel
  | SET_CAMERA_STATUS => status_only (setCameraLaunchStatus (uarg parcel 0))
  | GET_BW_TRANSACTION_STATUS => '(e, b) ← DisplayBWTransactionPending; mret (e, [if (b : bool) then 1 else 0])
  | SET_LAYER_MIXER_RESOLUTION => status_only (SetMixerResolution parcel)
  | SET_COLOR_MODE => status_only (SetColorModeOverride parcel)
  | SET_DSI_CLK => status_only (SetDsiClk parcel)
  | GET_DSI_CLK => GetDsiClk parcel
  | GET_SUPPORTED_DSI_CLK => GetSupportedDsiClk parcel
  | GET_COMPOSER_STATUS => b ← get is_composer_up_; mret (0, [if (b : bool) then 1 else 0])
  | OTHER_COMMAND => mret (- EINVAL, [])
  end.
(** ** All calls *)

(** The functions of the device, the services and commands, and the events. *)
Inductive Call :=
| FAcceptDisplayChanges (d : Z) | FCreateLayer (d out : Z) | FCreateVirtualDisplay (width height format out : Z) | FDestroyLayer (d layer : Z)
| FDestroyVirtualDisplay (d : Z) | FGetActiveConfig (d out : Z) | FGetChangedCompositionTypes (d num layers types : Z)
| FGetClientTargetSupport (d width height format dataspace : Z) | FGetColorModes (d num modes : Z)
| FGetDisplayAttribute (d config attribute out : Z) | FGetDisplayConfigs (d num configs : Z) | FGetDisplayName (d size name : Z)
| FGetDisplayRequests (d requests num layers layer_requests : Z) | FGetDisplayType (d out : Z)
| FGetHdrCapabilities (d num types max avg min : Z) | FGetMaxVirtualDisplayCount | FGetReleaseFences (d num layers fences : Z)
| FPresentDisplay (d out : Z) | FRegisterCallback (descriptor data pointer : Z) | FSetActiveConfig (d config : Z)
| FSetClientTarget (d target fence dataspace : Z) (damage : list IRect) | FSetColorMode (d mode : Z) | FSetColorTransform (d matrix hint : Z)
| FSetCursorPosition (d layer x y : Z) | FSetLayerBlendMode (d layer mode : Z) | FSetLayerBuffer (d layer buffer fence : Z)
| FSetLayerColor (d layer : Z) (c : HColor) | FSetLayerCompositionType (d layer type : Z) | FSetLayerDataspace (d layer dataspace : Z)
| FSetLayerDisplayFrame (d layer : Z) (r : IRect) | FSetLayerPlaneAlpha (d layer : Z) (a : Float32.float)
| FSetLayerSourceCrop (d layer : Z) (r : Rect.LayerRect) | FSetLayerSurfaceDamage (d layer : Z) (l : list IRect)
| FSetLayerTransform (d layer transform : Z) | FSetLayerVisibleRegion (d layer : Z) (l : list IRect) | FSetLayerZOrder (d layer z : Z)
| FSetOutputBuffer (d buffer fence : Z) | FSetPowerMode (d mode : Z) | FSetVsyncEnabled (d enabled : Z)
| FValidateDisplay (d num_types num_requests : Z) | FGetCapabilities (count : Z) (array : bool)
| SIsDisplayConnected (dpy : Z) | SSetSecondayDisplayStatus (dpy status : Z) | SConfigureDynRefeshRate (op rate : Z)
| SGetConfigCount (dpy : Z) | SGetActiveConfig (dpy : Z) | SSetActiveConfig (dpy config : Z) | SGetDisplayAttributes (config dpy : Z)
| SSetPanelBrightness (level : Z) | SGetPanelBrightness | SMinHdcpEncryptionLevelChanged (dpy level : Z) | SRefreshScreen
| SControlPartialUpdate (dpy : Z) (enable : bool) | SToggleScreenUpdate (on : bool) | SSetIdleTimeout (value : Z)
| SGetHDRCapabilities (dpy : Z) | SSetCameraLaunchStatus (on : Z) | SDisplayBWTransactionPending
| SSetDisplayAnimating (d : Z) (animating : bool) | SIsHDRSupported (d : Z) | SGetDebugProperty (name : Z)
| QCommand (command : Command) (parcel : list Z) | KUEvent (received : list Z) | KVsync (d timestamp : Z).
Definition done_ {A} (m : M A) : M unit := _ ← m; mret tt.
Definition run (c : Call) : M unit :=
  match c with
  | FAcceptDisplayChanges d => done_ (AcceptDisplayChanges d)
  | FCreateLayer d o => done_ (CreateLayer d o)
  | FCreateVirtualDisplay w h f o => done_ (CreateVirtualDisplay w h f o)
  | FDestroyLayer d l => done_ (DestroyLayer d l)
  | FDestroyVirtualDisplay d => done_ (DestroyVirtualDisplay d)
  | FGetActiveConfig d o => done_ (GetActiveConfig d o)
  | FGetChangedCompositionTypes d n l t => done_ (GetChangedCompositionTypes d n l t)
  | FGetClientTargetSupport d w h f s => done_ (GetClientTargetSupport d w h f s)
  | FGetColorModes d n m => done_ (GetColorModes d n m)
  | FGetDisplayAttribute d c a o => done_ (GetDisplayAttribute d c a o)
  | FGetDisplayConfigs d n c => done_ (GetDisplayConfigs d n c)
  | FGetDisplayName d s n => done_ (GetDisplayName d s n)
  | FGetDisplayRequests d r n l q => done_ (GetDisplayRequests d r n l q)
  | FGetDisplayType d o => done_ (GetDisplayType d o)
  | FGetHdrCapabilities d n t a b c => done_ (GetHdrCapabilities d n t a b c)
  | FGetMaxVirtualDisplayCount => done_ GetMaxVirtualDisplayCount
  | FGetReleaseFences d n l f => done_ (GetReleaseFences d n l f)
  | FPresentDisplay d o => done_ (PresentDisplay d o)
  | FRegisterCallback d a p => done_ (RegisterCallback d a p)
  | FSetActiveConfig d c => done_ (SetActiveConfig d c)
  | FSetClientTarget d t f s l => done_ (SetClientTarget d t f s l)
  | FSetColorMode d m => done_ (SetColorMode d m)
  | FSetColorTransform d m h => done_ (SetColorTransform d m h)
  | FSetCursorPosition d l x y => done_ (SetCursorPosition d l x y)
  | FSetLayerBlendMode d l m => done_ (SetLayerBlendMode d l m)
  | FSetLayerBuffer d l b f => done_ (SetLayerBuffer d l b f)
  | FSetLayerColor d l c => done_ (SetLayerColor d l c)
  | FSetLayerCompositionType d l t => done_ (SetLayerCompositionType d l t)
  | FSetLayerDataspace d l s => done_ (SetLayerDataspace d l s)
  | FSetLayerDisplayFrame d l r => done_ (SetLayerDisplayFrame d l r)
  | FSetLayerPlaneAlpha d l a => done_ (SetLayerPlaneAlpha d l a)
  | FSetLayerSourceCrop d l r => done_ (SetLayerSourceCrop d l r)
  | FSetLayerSurfaceDamage d l r => done_ (SetLayerSurfaceDamage d l r)
  | FSetLayerTransform d l t => done_ (SetLayerTransform d l t)
  | FSetLayerVisibleRegion d l r => done_ (SetLayerVisibleRegion d l r)
  | FSetLayerZOrder d l z => done_ (SetLayerZOrder d l z)
  | FSetOutputBuffer d b f => done_ (SetOutputBuffer d b f)
  | FSetPowerMode d m => done_ (SetPowerMode d m)
  | FSetVsyncEnabled d e => done_ (SetVsyncEnabled d e)
  | FValidateDisplay d t r => done_ (ValidateDisplay d t r)
  | FGetCapabilities n a => done_ (GetCapabilities n a)
  | SIsDisplayConnected d => done_ (isDisplayConnected d)
  | SSetSecondayDisplayStatus d s => done_ (setSecondayDisplayStatus d s)
  | SConfigureDynRefeshRate o r => done_ (configureDynRefeshRate o r)
  | SGetConfigCount d => done_ (getConfigCount d)
  | SGetActiveConfig d => done_ (getActiveConfig d)
  | SSetActiveConfig d c => done_ (setActiveConfig d c)
  | SGetDisplayAttributes c d => done_ (getDisplayAttributes c d)
  | SSetPanelBrightness l => done_ (setPanelBrightness l)
  | SGetPanelBrightness => done_ GetPanelBrightness
  | SMinHdcpEncryptionLevelChanged d l => done_ (minHdcpEncryptionLevelChanged d l)
  | SRefreshScreen => done_ refreshScreen
  | SControlPartialUpdate d e => done_ (controlPartialUpdate d e)
  | SToggleScreenUpdate b => done_ (toggleScreenUpdate b)
  | SSetIdleTimeout v => done_ (setIdleTimeout v)
  | SGetHDRCapabilities d => done_ (getHDRCapabilities d)
  | SSetCameraLaunchStatus n => done_ (setCameraLaunchStatus n)
  | SDisplayBWTransactionPending => done_ DisplayBWTransactionPending
  | SSetDisplayAnimating d a => done_ (setDisplayAnimating d a)
  | SIsHDRSupported d => done_ (isHDRSupported d)
  | SGetDebugProperty n => done_ (getDebugProperty n)
  | QCommand c p => done_ (notifyCallback c p)
  | KUEvent l => UEventThread l
  | KVsync d t => done_ (CB_Vsync d t)
  end.
(** Identifiers of displays are unsigned.  An event has no more bytes than are asked for,
    and its numbers fit an int. *)
Definition in_type (c : Call) : Prop :=
  match c with
  | FSetCursorPosition d _ _ _ | FSetLayerBlendMode d _ _ | FSetLayerBuffer d _ _ _ | FSetLayerColor d _ _ | FSetLayerCompositionType d _ _
  | FSetLayerDataspace d _ _ | FSetLayerDisplayFrame d _ _ | FSetLayerPlaneAlpha d _ _ | FSetLayerSourceCrop d _ _
  | FSetLayerSurfaceDamage d _ _ | FSetLayerTransform d _ _ | FSetLayerVisibleRegion d _ _ | FValidateDisplay d _ _ | SIsHDRSupported d
  | FAcceptDisplayChanges d | FCreateLayer d _ | FDestroyLayer d _ | FDestroyVirtualDisplay d | FGetActiveConfig d _
  | FGetChangedCompositionTypes d _ _ _ | FGetClientTargetSupport d _ _ _ _ | FGetColorModes d _ _ | FGetDisplayAttribute d _ _ _
  | FGetDisplayConfigs d _ _ | FGetDisplayName d _ _ | FGetDisplayRequests d _ _ _ _ | FGetDisplayType d _ | FGetHdrCapabilities d _ _ _ _ _
  | FGetReleaseFences d _ _ _ | FPresentDisplay d _ | FSetActiveConfig d _ | FSetClientTarget d _ _ _ _ | FSetColorMode d _
  | FSetColorTransform d _ _ | FSetLayerZOrder d _ _ | FSetOutputBuffer d _ _ | FSetPowerMode d _ | FSetVsyncEnabled d _
  | SSetDisplayAnimating d _ => 0 <= d
  | KUEvent l => (length l <= Cec.PAGE_SIZE - 2)%nat /\
      Forall (fun key => GetEventValue (uevent_buffer l) (Z.of_nat (length l)) key <> Undef) ["SWITCH_STATE="; "PANEL_ALIVE="]
  | _ => True
  end.
Definition step (w w' : World E) : Prop := exists c, in_type c /\ run c w = Ret (tt, w').
(** The functions that use the identifier they are given as an index without a check. *)
Definition unchecked_id (c : Call) : option Z :=
  match c with
  | FSetLayerBlendMode d _ mode => if (mode <? 0) || (3 <? mode) then None else Some d
  | FSetLayerBuffer d _ _ _ | FSetLayerColor d _ _ | FSetLayerCompositionType d _ _ | FSetLayerDataspace d _ _ | FSetLayerDisplayFrame d _ _
  | FSetLayerPlaneAlpha d _ _ | FSetLayerSourceCrop d _ _ | FSetLayerSurfaceDamage d _ _ | FSetLayerTransform d _ _
  | FSetLayerVisibleRegion d _ _ | FValidateDisplay d _ _ | SIsHDRSupported d => Some d
  | _ => None
  end.
(** After an Init that succeeded. *)
Definition reachable (w : World E) : Prop :=
  exists e w0, Init (mkSWorld new_HWCSession ∅ 1 [] e) = Ret (0, w0) /\ rtc step w0 w.
End Session.
End HwcSession.
