(* ===== verification/SessionFacts.v ===== *)
(** What every call of the session keeps: the displays it holds are alive and
    distinct, the primary one is there, and no call touches a null or a destroyed
    display. *)
From S2P Require Import Prelude Rect ResourceDefault MetaData GrUtils Strategy HwcLayer HwcColor HwcDisplay HwcDisplays Cec HwcSession Wp.
#[local] Open Scope Z_scope.

Module SessionFacts.
Import HwcLayer Client HwcSession.

(** Every call of the environment returns. *)
Class SessionLaws (E : Type) `{!SessionEnv E} : Prop := {
  sl_InitDone : total (SE_InitDone : St E _);
  sl_getService : total (SE_getService : St E _);
  sl_registerAsService : total (SE_registerAsService : St E _);
  sl_AllocatorInit : total (SE_AllocatorInit : St E _);
  sl_AllocatorDeinit : total (SE_AllocatorDeinit : St E _);
  sl_CreateCore : total (SE_CreateCore : St E _);
  sl_DestroyCore : total (SE_DestroyCore : St E _);
  sl_FirstDisplay : total (SE_FirstDisplay : St E _);
  sl_IsColorTransformSupported : total (SE_IsColorTransformSupported : St E _);
  sl_SetMaxBandwidthMode b : total (SE_SetMaxBandwidthMode b : St E _);
  sl_disable_skip_validate : total (SE_disable_skip_validate : St E _);
  sl_max_virtual : total (SE_max_virtual : St E _);
  sl_DPTestConfig : total (SE_DPTestConfig : St E _);
  sl_CreateColorManager : total (SE_CreateColorManager : St E _);
  sl_DestroyColorManager : total (SE_DestroyColorManager : St E _);
  sl_color c p : total (SE_color c p : St E _);
  sl_payload l : total (SE_payload l : St E _);
  sl_sync_wait fd : total (SE_sync_wait fd : St E _);
  sl_WaitFinite ms : total (SE_WaitFinite ms : St E _);
  sl_property n : total (SE_property n : St E _);
  sl_Create k p : total (SE_Create k p : St E _);
  sl_Destroy p : total (SE_Destroy p : St E _);
  sl_call p m : total (SE_call p m : St E _);
  sl_layer p l c : total (SE_layer p l c : St E _)
}.
Create HintDb session.
#[export] Hint Resolve sl_InitDone sl_getService sl_registerAsService sl_AllocatorInit sl_AllocatorDeinit sl_CreateCore sl_DestroyCore
  sl_FirstDisplay sl_IsColorTransformSupported sl_SetMaxBandwidthMode sl_disable_skip_validate sl_max_virtual sl_DPTestConfig
  sl_CreateColorManager sl_DestroyColorManager sl_color sl_payload sl_sync_wait sl_WaitFinite sl_property sl_Create sl_Destroy sl_call
  sl_layer : session.

(** * The invariant *)
Definition shape (s : Session) : Prop :=
  length (hwc_display_ s) = 3%nat /\ length (sequence_wait_ s) = 3%nat.
(** The objects of the slots are alive, not the same, and older than the next. *)
Definition objects (l : list (option Z)) (live : gset Z) (next : Z) : Prop :=
  (forall d p, l !! d = Some (Some p) -> p ∈ live) /\
  (forall d d' p, l !! d = Some (Some p) -> l !! d' = Some (Some p) -> d = d') /\
  (forall p, p ∈ live -> p < next).
Section Facts.
Context {E : Type} `{!SessionEnv E, !SessionLaws E}.
Abbreviation W := (World E).
Abbreviation M := (St (World E)).
Definition sane (w : W) : Prop := shape (sess w) /\ objects (hwc_display_ (sess w)) (live w) (next_object w).
Definition has_primary (w : W) : Prop := exists p, hwc_display_ (sess w) !! 0%nat = Some (Some p).
Definition inv (w : W) : Prop := sane w /\ has_primary w.

(** [ok X m]: where the objects of [X] are alive [m] is not undefined, keeps the
    invariant and the objects; [last X m] need not keep them. *)
Definition ok {A} (X : gset Z) (m : M A) : Prop :=
  forall w, inv w -> X ⊆ live w -> safe m (fun _ w' => inv w' /\ X ⊆ live w') w.
Definition last {A} (X : gset Z) (m : M A) : Prop :=
  forall w, inv w -> X ⊆ live w -> safe m (fun _ w' => inv w') w.
Lemma ok_last {A} X (m : M A) : ok X m -> last X m.
Proof. intros Hm w Hw HX. eapply safe_mono; [by apply Hm|]. by intros a w' []. Qed.
Lemma last_ok {A} (m : M A) : last ∅ m -> ok ∅ m.
Proof. intros Hm w Hw HX. eapply safe_mono; [by apply Hm|]. intros a w' Hi. split; [done|set_solver]. Qed.
Lemma last_weaken {A} X Y (m : M A) : Y ⊆ X -> last Y m -> last X m.
Proof. intros HY Hm w Hw HX. apply Hm; [done|set_solver]. Qed.
Lemma ok_bind {A B} X (m : M A) (k : A -> M B) : ok X m -> (forall a, ok X (k a)) -> ok X (m ≫= k).
Proof. intros Hm Hk w Hw HX. apply safe_bind. eapply safe_mono; [by apply Hm|]. intros a w' []. by apply Hk. Qed.
Lemma last_bind {A B} X (m : M A) (k : A -> M B) : ok X m -> (forall a, last X (k a)) -> last X (m ≫= k).
Proof. intros Hm Hk w Hw HX. apply safe_bind. eapply safe_mono; [by apply Hm|]. intros a w' []. by apply Hk. Qed.
Lemma ok_ret {A} X (a : A) : ok X (mret a : M A).
Proof. intros w Hw HX. by apply safe_ret. Qed.
Lemma ok_no_return {A} X : ok X (no_return : M A).
Proof. by intros w Hw HX. Qed.
Lemma ok_get {A} X (f : Session -> A) : ok X (get f : M A).
Proof. intros w Hw HX. by apply safe_gets. Qed.
Lemma ok_in_e {A} X (m : St E A) : total m -> ok X (in_e m).
Proof.
  intros Hm w Hw HX. destruct (Hm (env w)) as (a & e & Em & _). unfold safe, in_e. by rewrite Em.
Qed.
Lemma ok_lift {A} X (m : outcome A) : m <> Undef -> ok X (st_lift m : M A).
Proof. intros Hm w Hw HX. apply safe_lift; [done|]. by intros a _. Qed.
(** A change of the session beside the displays and the locks. *)
Lemma ok_on_sess X f : (forall s, hwc_display_ (f s) = hwc_display_ s) -> (forall s, length (sequence_wait_ (f s)) = length (sequence_wait_ s)) ->
  ok X (on_sess f : M unit).
Proof.
  intros Hd Hs w [[[H1 H2] H3] H4] HX. apply safe_modify. split; [|done].
  unfold inv, sane, shape, has_primary. cbn. rewrite Hd, Hs. done.
Qed.
Lemma ok_send X e : ok X (send e : M unit).
Proof. intros w Hw HX. by apply safe_modify. Qed.
Lemma ok_alive X p : p ∈ X -> ok X (alive p : M unit).
Proof. intros Hp w Hw HX. unfold alive. apply safe_bind, safe_gets. rewrite decide_True by set_solver. by apply safe_ret. Qed.

(** ** Slots *)
Lemma safe_slot d (Q : option Z -> W -> Prop) w : 0 <= d < 3 -> sane w ->
  (forall o, hwc_display_ (sess w) !! Z.to_nat d = Some o -> Q o w) -> safe (slot d) Q w.
Proof.
  intros Hd [[Hl _] _] HQ. unfold slot. apply safe_bind, safe_gets. destruct (Z.ltb_spec d 0); [lia|].
  destruct (lookup_lt_is_Some_2 (hwc_display_ (sess w)) (Z.to_nat d)) as [o Ho]; [lia|]. rewrite Ho. by apply safe_ret, HQ.
Qed.
Lemma slot_live (w : W) d p : sane w -> hwc_display_ (sess w) !! d = Some (Some p) -> p ∈ live w.
Proof. intros [_ (H & _)]. apply H. Qed.
Lemma ok_slot {A} X d (k : option Z -> M A) : 0 <= d < 3 -> (forall p, ok ({[p]} ∪ X) (k (Some p))) -> ok X (k None) -> ok X (slot d ≫= k).
Proof.
  intros Hd Hs Hn w Hw HX. apply safe_bind, safe_slot; [done|apply Hw|]. intros [p|] Ho; [|by apply Hn].
  assert (p ∈ live w) by (eapply slot_live; [apply Hw|done]).
  eapply safe_mono; [apply Hs; [done|set_solver]|]. intros a w' [Hi HX']. split; [done|set_solver].
Qed.
Lemma last_slot {A} X d (k : option Z -> M A) : 0 <= d < 3 -> (forall p, last ({[p]} ∪ X) (k (Some p))) -> last X (k None) -> last X (slot d ≫= k).
Proof.
  intros Hd Hs Hn w Hw HX. apply safe_bind, safe_slot; [done|apply Hw|]. intros [p|] Ho; [|by apply Hn].
  assert (p ∈ live w) by (eapply slot_live; [apply Hw|done]). apply Hs; [done|set_solver].
Qed.
Lemma ok_deref {A} X (k : Z -> M A) : (forall p, ok ({[p]} ∪ X) (k p)) -> ok X (deref HWC_DISPLAY_PRIMARY ≫= k).
Proof.
  intros Hk w Hw HX. destruct (Hw) as [Hs [p Hp]]. apply safe_bind. unfold deref. apply safe_bind, safe_slot; [done|apply Hw|].
  intros o Ho. change (Z.to_nat HWC_DISPLAY_PRIMARY) with 0%nat in Ho. rewrite Hp in Ho. injection Ho as <-. apply safe_ret.
  assert (p ∈ live w) by (eapply slot_live; [apply Hw|done]).
  eapply safe_mono; [apply Hk; [done|set_solver]|]. intros a w' [Hi HX']. split; [done|set_solver].
Qed.
Lemma ok_status_on X m : ok X (status_on HWC_DISPLAY_PRIMARY m : M Z).
Proof.
  apply ok_deref. intros p. apply ok_bind; [|intros [r l]; apply ok_ret]. apply ok_bind; [apply ok_alive; set_solver|].
  intros _. apply ok_in_e, sl_call.
Qed.
Lemma ok_call X p m : p ∈ X -> ok X (call p m : M _).
Proof. intros Hp. apply ok_bind; [by apply ok_alive|]. intros _. apply ok_in_e, sl_call. Qed.
Lemma ok_status_of X p m : p ∈ X -> ok X (status_of p m : M _).
Proof. intros Hp. apply ok_bind; [by apply ok_call|]. intros [r l]. apply ok_ret. Qed.
Lemma ok_set_sequence X d x : 0 <= d < 3 -> ok X (set_sequence d x : M unit).
Proof.
  intros Hd. unfold set_sequence, HWC_NUM_DISPLAY_TYPES. destruct (Z.leb_spec 0 d), (Z.ltb_spec d 3); try lia. cbn [andb].
  apply ok_on_sess; [done|]. intros s. cbn. apply length_insert.
Qed.
Lemma ok_ScopeLock X d : 0 <= d < 3 -> ok X (ScopeLock d : M unit).
Proof. intros Hd. unfold ScopeLock, HWC_NUM_DISPLAY_TYPES. destruct (Z.leb_spec 0 d), (Z.ltb_spec d 3); try lia. apply ok_ret. Qed.
Lemma ok_wait X d : 0 <= d < 3 -> ok X (SequenceWaitScopeLock d : M unit).
Proof.
  intros Hd w Hw HX. unfold SequenceWaitScopeLock. apply safe_bind, safe_gets. destruct (Z.ltb_spec d 0); [lia|].
  destruct (Hw) as [[[_ Hl] _] _]. destruct (lookup_lt_is_Some_2 (sequence_wait_ (sess w)) (Z.to_nat d)) as [x Hx]; [lia|].
  rewrite Hx. by destruct (x =? 1).
Qed.
(** A new object is not one of the others. *)
Lemma objects_new l lv n d : objects l lv n -> objects (<[d := Some n]> l) ({[n]} ∪ lv) (Z.succ n).
Proof.
  intros (H1 & H2 & H3). split_and!.
  - intros i p Hi. apply list_lookup_insert_Some in Hi as [(-> & [= ->] & _)|[_ Hi]]; [set_solver|]. apply H1 in Hi. set_solver.
  - intros i j p Hi Hj. apply list_lookup_insert_Some in Hi as [(<- & Ei & _)|[_ Hi]];
      apply list_lookup_insert_Some in Hj as [(<- & Ej & _)|[_ Hj]].
    + done.
    + injection Ei as ->. apply H1, H3 in Hj. lia.
    + injection Ej as ->. apply H1, H3 in Hi. lia.
    + by eapply H2.
  - intros p [->%elem_of_singleton|Hp]%elem_of_union; [lia|]. apply H3 in Hp. lia.
Qed.
Lemma objects_gone l lv n d p : objects l lv n -> l !! d = Some (Some p) -> objects (<[d := None]> l) (lv ∖ {[p]}) n.
Proof.
  intros (H1 & H2 & H3) Hd. split_and!.
  - intros i q Hi. apply list_lookup_insert_Some in Hi as [(_ & [=] & _)|[Hne Hi]]. apply elem_of_difference. split; [by eapply H1|].
    intros ->%elem_of_singleton. apply Hne. by eapply H2.
  - intros i j q Hi Hj. apply list_lookup_insert_Some in Hi as [(_ & [=] & _)|[_ Hi]].
    apply list_lookup_insert_Some in Hj as [(_ & [=] & _)|[_ Hj]]. by eapply H2.
  - intros q [Hq _]%elem_of_difference. by apply H3.
Qed.
Lemma sane_new (w : W) d : sane w ->
  sane (w <| live ::= fun l => {[next_object w]} ∪ l |> <| next_object ::= Z.succ |> <| sess ::= fun s => s <| hwc_display_ ::= <[d := Some (next_object w)]> |> |>).
Proof. intros [[Hl Hq] Ho]. split; [split; cbn; [by rewrite length_insert|done]|]. by apply objects_new. Qed.
(** The world after a creation that succeeded. *)
Definition created (d : Z) (e : E) (w : W) : W :=
  w <| live ::= fun l => {[next_object w]} ∪ l |> <| next_object ::= Z.succ |>
    <| sess ::= fun s => s <| hwc_display_ ::= <[Z.to_nat d := Some (next_object w)]> |> |> <| env := e |>.
Lemma Create_run k d w : exists st e, SE_Create k (next_object w) (env w) = Ret (st, e) /\
  Create k d w = Ret (st, if st =? 0 then created d e w else w <| env := e |>).
Proof.
  destruct (sl_Create k (next_object w) (env w)) as (st & e & Ee & _). exists st, e. split; [done|]. unfold Create, st_gets.
  rewrite (st_bind_Ret _ _ w (next_object w) w eq_refl), (st_bind_Ret _ _ w st (w <| env := e |>)) by (unfold in_e; by rewrite Ee).
  by destruct (st =? 0).
Qed.
Lemma ok_Create X k d : 0 <= d < 3 -> ok X (Create k d : M Z).
Proof.
  intros Hd w [Hs [p Hp]] HX. destruct (Create_run k d w) as (st & e & _ & Er). unfold safe. rewrite Er.
  destruct (st =? 0); [|by split; [split; [done|by exists p]|]]. split; [|cbn; set_solver]. split; [by apply (sane_new w (Z.to_nat d))|].
  destruct (decide (Z.to_nat d = 0%nat)) as [E0|Hne].
  - eexists. cbn. rewrite E0. apply list_lookup_insert_eq. destruct Hs as [[Hl3 _] _]. lia.
  - exists p. cbn. by rewrite list_lookup_insert_ne.
Qed.
(** The object of a slot that is not the primary's is destroyed. *)
Lemma last_destroy {A} d p (k : M A) w : 0 < d < 3 -> inv w -> hwc_display_ (sess w) !! Z.to_nat d = Some (Some p) ->
  (forall w', inv w' -> safe k (fun _ w'' => inv w'') w') -> safe (_ ← Destroy p; _ ← set_slot d None; k) (fun _ w'' => inv w'') w.
Proof.
  intros Hd [[[Hl Hq] Ho] [p0 Hp0]] Hp Hk. unfold Destroy. apply safe_bind, safe_bind. unfold alive. apply safe_bind, safe_gets.
  rewrite decide_True by (destruct Ho as (H & _); by eapply H). apply safe_ret, safe_bind.
  destruct (sl_Destroy p (env w)) as ([] & e & Ee & _). unfold safe at 1, in_e. rewrite Ee. apply safe_modify, safe_bind, safe_modify, Hk.
  split; [split|].
  - split; cbn; [by rewrite length_insert|done].
  - cbn. by apply objects_gone.
  - exists p0. cbn. rewrite list_lookup_insert_ne by lia. done.
Qed.
End Facts.

(** ** Automation *)
#[export] Hint Resolve ok_ret ok_no_return ok_get ok_in_e ok_send ok_status_on ok_set_sequence ok_ScopeLock ok_wait ok_Create : session.
(** The identifiers of displays are small numbers, the objects of slots were just read. *)
Ltac ids := unfold HWC_DISPLAY_PRIMARY, HWC_DISPLAY_EXTERNAL, HWC_DISPLAY_VIRTUAL, HWC_NUM_DISPLAY_TYPES in *; lia.
#[export] Hint Extern 1 (_ <= _ < _) => ids : session.
#[export] Hint Extern 1 (ok _ (call _ _)) => apply ok_call; set_solver : session.
#[export] Hint Extern 1 (ok _ (status_of _ _)) => apply ok_status_of; set_solver : session.
#[export] Hint Extern 1 (ok _ (alive _)) => apply ok_alive; set_solver : session.
#[export] Hint Extern 1 (ok _ (on_sess _)) => apply ok_on_sess; [done|done] : session.
Ltac ok_step :=
  first
    [ match goal with |- forall _, _ => intro end
    | progress cbv zeta
    | solve [eauto 4 with session nocore]
    | simple apply ok_deref
    | simple apply ok_slot; [ids| |]
    | simple apply ok_bind
    | match goal with
      | |- ok _ (match ?x with _ => _ end) => destruct x eqn:?
      | |- ok _ (if ?b then _ else _) => destruct b eqn:?
      end ].
Ltac ok_tac := repeat ok_step.
(** * What most calls leave alone *)

(** What the client was last told of the external display. *)
Definition told (l : list Event) : bool :=
  fold_left (fun b e => match e with EvHotplug d c => if d =? HWC_DISPLAY_EXTERNAL then c else b | _ => b end) l false.
Lemma told_app l e : told (l ++ [e]) = match e with EvHotplug d c => if d =? HWC_DISPLAY_EXTERNAL then c else told l | _ => told l end.
Proof. unfold told. by rewrite fold_left_app. Qed.
Section Frame.
Context {E : Type} `{!SessionEnv E}.
Abbreviation W := (World E).
Abbreviation M := (St (World E)).
(** The displays, the sequences, and what steers the news of the external display. *)
Definition frame (w : W) :=
  (hwc_display_ (sess w), sequence_wait_ (sess w), first_commit_ (sess w), external_pending_hotplug_ (sess w), hdmi_is_primary_ (sess w),
   told (events w)).
Definition same (w w' : W) : Prop := frame w' = frame w.
#[global] Instance same_preorder : PreOrder same.
Proof. split; [done|]. intros a b c H1 H2. unfold same in *. congruence. Qed.
Lemma keeps_in_e {A} (m : St E A) : keeps same (in_e m).
Proof. intros w a w'. unfold in_e. destruct (m (env w)) as [[x e]| |]; [|done..]. by intros [= <- <-]. Qed.
Lemma keeps_no_return {A} : keeps same (no_return : M A).
Proof. done. Qed.
Lemma keeps_get {A} (f : Session -> A) : keeps same (get f : M A).
Proof. apply keeps_gets. apply _. Qed.
Lemma keeps_send e : (forall c, e <> EvHotplug HWC_DISPLAY_EXTERNAL c) -> keeps same (send e : M unit).
Proof.
  intros He. apply keeps_modify. intros w. unfold same, frame. cbn -[told]. rewrite told_app. destruct e as [d c| | |]; [|done..].
  destruct (Z.eqb_spec d HWC_DISPLAY_EXTERNAL) as [->|]; [|done]. by destruct (He c).
Qed.
Lemma keeps_on_sess f : (forall s, (hwc_display_ (f s), sequence_wait_ (f s), first_commit_ (f s), external_pending_hotplug_ (f s), hdmi_is_primary_ (f s)) =
    (hwc_display_ s, sequence_wait_ s, first_commit_ s, external_pending_hotplug_ s, hdmi_is_primary_ s)) -> keeps same (on_sess f : M unit).
Proof. intros Hf. apply keeps_modify. intros w. unfold same, frame. cbn -[told]. specialize (Hf (sess w)). congruence. Qed.
End Frame.
#[export] Hint Resolve keeps_in_e keeps_no_return keeps_get : keeps.
#[export] Hint Extern 1 (keeps same (send _)) => (apply keeps_send; done) : keeps.
#[export] Hint Extern 1 (keeps same (on_sess _)) => (apply keeps_on_sess; done) : keeps.
Section Frame2.
Context {E : Type} `{!SessionEnv E}.
Abbreviation M := (St (World E)).
Lemma same_alive p : keeps same (alive p : M unit).
Proof. unfold alive. keeps_tac. Qed.
Lemma same_slot d : keeps same (slot d : M _).
Proof. unfold slot. keeps_tac. Qed.
Hint Resolve same_alive same_slot : keeps.
Lemma same_call p m : keeps same (call p m : M _).
Proof. unfold call. keeps_tac. Qed.
Hint Resolve same_call : keeps.
Lemma same_status_of p m : keeps same (status_of p m : M _).
Proof. unfold status_of. keeps_tac. Qed.
Lemma same_deref d : keeps same (deref d : M _).
Proof. unfold deref. keeps_tac. Qed.
Hint Resolve same_status_of same_deref : keeps.
Lemma same_status_on d m : keeps same (status_on d m : M _).
Proof. unfold status_on. keeps_tac. Qed.
Lemma same_on_display d m : keeps same (on_display d m : M _).
Proof. unfold on_display. keeps_tac. Qed.
Lemma same_ScopeLock d : keeps same (ScopeLock d : M _).
Proof. unfold ScopeLock. keeps_tac. Qed.
Lemma same_wait d : keeps same (SequenceWaitScopeLock d : M _).
Proof. unfold SequenceWaitScopeLock. keeps_tac. Qed.
Lemma same_Refresh d : keeps same (Refresh d : M _).
Proof. unfold Refresh, CB_Refresh. keeps_tac. Qed.
Hint Resolve same_status_on same_on_display same_ScopeLock same_wait same_Refresh : keeps.
Lemma same_CallDisplayFunction d m : keeps same (CallDisplayFunction d m : M _).
Proof. unfold CallDisplayFunction. keeps_tac. Qed.
Lemma same_CallLayerFunction d l c : keeps same (CallLayerFunction d l c : M _).
Proof. unfold CallLayerFunction. keeps_tac. Qed.
Lemma same_query d m : keeps same (query d m : M _).
Proof. unfold query. keeps_tac. Qed.
Lemma same_on_primary m : keeps same (on_primary m : M _).
Proof. unfold on_primary. keeps_tac. Qed.
Lemma same_masked x d m : keeps same (masked x d m : M _).
Proof. unfold masked. keeps_tac. Qed.
Lemma same_dsi p : keeps same (dsi_display p : M _).
Proof. unfold dsi_display. keeps_tac. Qed.
Lemma same_color c : keeps same (color_on_primary c : M _).
Proof. unfold color_on_primary. keeps_tac. Qed.
Hint Resolve same_CallDisplayFunction same_CallLayerFunction same_query same_on_primary same_masked same_dsi same_color : keeps.
Lemma same_action d n resp ret b : keeps same (qdcm_action d n resp ret b : M _).
Proof. unfold qdcm_action, with_refresh. cbv zeta. keeps_tac. Qed.
Hint Resolve same_action : keeps.
Lemma same_qdcm_loop fuel : forall d a n resp ret b, keeps same (qdcm_loop fuel d a n resp ret b : M _).
Proof. induction fuel as [|fuel IH]; intros; cbn [qdcm_loop]; keeps_tac. Qed.
Lemma same_route i d p r : keeps same (qdcm_route i d p r : M _).
Proof. unfold qdcm_route. keeps_tac. Qed.
Lemma same_prepare p : keeps same (prepare_primary p : M _).
Proof. unfold prepare_primary, ResetPanel. keeps_tac. Qed.
Lemma same_vsync d : keeps same (GetVsyncPeriod d : M _).
Proof. unfold GetVsyncPeriod. keeps_tac. Qed.
End Frame2.
#[export] Hint Resolve same_alive same_slot same_call same_status_of same_deref same_status_on same_on_display same_ScopeLock same_wait
  same_Refresh same_CallDisplayFunction same_CallLayerFunction same_query same_on_primary same_masked same_dsi same_color same_action
  same_qdcm_loop same_route same_prepare same_vsync : keeps.

(** * Every call keeps the invariant *)
Section Calls.
Context {E : Type} `{!SessionEnv E, !SessionLaws E}.
Abbreviation W := (World E).
Abbreviation M := (St (World E)).

Lemma ok_Refresh X d : ok X (Refresh d : M unit).
Proof. unfold Refresh, CB_Refresh. ok_tac. Qed.
Lemma ok_CB_Hotplug X d c : ok X (CB_Hotplug d c : M _).
Proof. unfold CB_Hotplug. ok_tac. Qed.
Lemma ok_HotPlug X d c : ok X (HotPlug d c : M unit).
Proof. unfold HotPlug, CB_Hotplug. ok_tac. Qed.
Hint Resolve ok_Refresh ok_CB_Hotplug ok_HotPlug : session.
Lemma ok_CreateExternalDisplay X d a b c : 0 <= d < 3 -> ok X (CreateExternalDisplay d a b c : M Z).
Proof. intros Hd. unfold CreateExternalDisplay. ok_tac. Qed.
Lemma ok_CallDisplayFunction X d m : 0 <= d -> ok X (CallDisplayFunction d m : M Z).
Proof. intros Hd. unfold CallDisplayFunction. destruct (Z.leb_spec HWC_NUM_DISPLAY_TYPES d); ok_tac. Qed.
Hint Resolve ok_CreateExternalDisplay ok_CallDisplayFunction : session.
(** What a call of a display in its slot does: the rest of the world is as before. *)
Lemma slot_run (w : W) d o : 0 <= d -> hwc_display_ (sess w) !! Z.to_nat d = Some o -> slot d w = Ret (o, w).
Proof.
  intros Hd Ho. unfold slot, get. rewrite (st_bind_Ret _ _ w _ w eq_refl). destruct (Z.ltb_spec d 0); [lia|]. by rewrite Ho.
Qed.
Lemma call_run (w : W) p m : p ∈ live w -> exists r e, call p m w = Ret (r, w <| env := e |>).
Proof.
  intros Hp. destruct (sl_call p m (env w)) as (r & e & Ee & _). exists r, e. unfold call, alive.
  rewrite (st_bind_Ret _ _ w tt w) by (rewrite (st_bind_Ret _ _ w (live w) w eq_refl); by rewrite decide_True).
  unfold in_e. by rewrite Ee.
Qed.
Lemma on_display_run (w : W) d p m : 0 <= d -> sane w -> hwc_display_ (sess w) !! Z.to_nat d = Some (Some p) ->
  exists r e, on_display d m w = Ret (r, w <| env := e |>).
Proof.
  intros Hd Hs Hp. destruct (call_run w p m) as (r & e & Er); [by eapply slot_live|]. exists r, e. unfold on_display, deref.
  rewrite (st_bind_Ret _ _ w p w); [done|]. by rewrite (st_bind_Ret _ _ _ _ _ (slot_run w d _ Hd Hp)).
Qed.
Lemma status_of_run (w : W) p m : p ∈ live w -> exists r e, status_of p m w = Ret (r, w <| env := e |>).
Proof.
  intros Hp. destruct (call_run w p m Hp) as ([r l] & e & Er). exists r, e. unfold status_of. by rewrite (st_bind_Ret _ _ _ _ _ Er).
Qed.
Lemma status_on_run (w : W) d p m : 0 <= d -> sane w -> hwc_display_ (sess w) !! Z.to_nat d = Some (Some p) ->
  exists r e, status_on d m w = Ret (r, w <| env := e |>).
Proof.
  intros Hd Hs Hp. destruct (status_of_run w p m) as (r & e & Er); [by eapply slot_live|]. exists r, e. unfold status_on, deref.
  rewrite (st_bind_Ret _ _ w p w); [done|]. by rewrite (st_bind_Ret _ _ _ _ _ (slot_run w d _ Hd Hp)).
Qed.
Lemma safe_run {A} (m : M A) (Q : A -> W -> Prop) w a w' : m w = Ret (a, w') -> Q a w' -> safe m Q w.
Proof. intros Em HQ. unfold safe. by rewrite Em. Qed.
Lemma safe_status_on d p m (Q : Z -> W -> Prop) w : 0 <= d -> sane w -> hwc_display_ (sess w) !! Z.to_nat d = Some (Some p) ->
  (forall r e, Q r (w <| env := e |>)) -> safe (status_on d m) Q w.
Proof. intros Hd Hs Hp HQ. destruct (status_on_run w d p m Hd Hs Hp) as (r & e & Er). by apply (safe_run _ _ _ _ _ Er). Qed.
Lemma ok_CallLayerFunction X d l c : 0 <= d < 3 -> ok X (CallLayerFunction d l c : M Z).
Proof.
  intros Hd w Hw HX. unfold CallLayerFunction. apply safe_bind. eapply safe_mono; [by apply (ok_ScopeLock X)|]. intros _ w0 [Hw0 HX0].
  apply safe_bind, safe_slot; [done|apply Hw0|]. intros [p|] Hp; [|by apply safe_ret]. apply safe_bind. unfold alive.
  apply safe_bind, safe_gets. rewrite decide_True by (eapply slot_live; [apply Hw0|done]). apply safe_ret, safe_bind.
  destruct (sl_layer p l c (env w0)) as ([e|] & e' & Ee & _); unfold safe at 1, in_e; rewrite Ee; [|by apply safe_ret].
  apply safe_bind. apply (safe_status_on d p); [lia|apply Hw0|done|]. intros g e1. apply safe_bind.
  destruct (negb (g =? 0)); [|by apply safe_ret, safe_ret]. apply (safe_status_on d p); [lia|apply Hw0|done|]. intros. by apply safe_ret.
Qed.
Hint Resolve ok_CallLayerFunction : session.
Definition external_kind (k : Kind) : bool := match k with KExternal _ _ _ | KExternalTest _ _ => true | _ => false end.
Lemma CreateExternal_run d a b c w : exists k st e0 e, external_kind k = true /\ SE_Create k (next_object w) e0 = Ret (st, e) /\
  CreateExternalDisplay d a b c w = Ret (st, if st =? 0 then created d e w else w <| env := e |>).
Proof.
  unfold CreateExternalDisplay. destruct (sl_DPTestConfig (env w)) as ([bpp pat] & e0 & Ee & _).
  assert (Hb : forall k, exists st e, SE_Create k (next_object w) e0 = Ret (st, e) /\
    Create k d (w <| env := e0 |>) = Ret (st, if st =? 0 then created d e w else w <| env := e |>)).
  { intros k. destruct (Create_run k d (w <| env := e0 |>)) as (st & e & Es & Er). by exists st, e. }
  assert (Ei : in_e SE_DPTestConfig w = Ret ((bpp, pat), w <| env := e0 |>)) by (unfold in_e; by rewrite Ee).
  destruct (negb (bpp =? 0) && negb (pat =? 0)) eqn:Et; [|destruct c];
    [destruct (Hb (KExternalTest bpp pat)) as (st & e & Es & Er)|destruct (Hb (KExternal a b true)) as (st & e & Es & Er)|
     destruct (Hb (KExternal 0 0 false)) as (st & e & Es & Er)];
    eexists _, st, e0, e; (split; [|split; [exact Es|]]; [done|]); rewrite (st_bind_Ret _ _ _ _ _ Ei), Et; exact Er.
Qed.
(** A connection makes the display or leaves all but the environment as it was. *)
Lemma Connect_run w : inv w -> exists k st e0 e1 e, external_kind k = true /\ SE_Create k (next_object w) e0 = Ret (st, e1) /\
  ConnectDisplay HWC_DISPLAY_EXTERNAL w = Ret (st, if st =? 0 then created HWC_DISPLAY_EXTERNAL e w else w <| env := e |>).
Proof.
  intros [Hs [p Hp]]. unfold ConnectDisplay. destruct (on_display_run w HWC_DISPLAY_PRIMARY p MGetFrameBufferResolution) as ([r size] & e & Er); [done..|].
  destruct (CreateExternal_run HWC_DISPLAY_EXTERNAL (nth 0 size 0) (nth 1 size 0) false (w <| env := e |>)) as (k & st & e0 & e1 & Hk & Es & Ec).
  exists k, st, e0, e1. rewrite (st_bind_Ret _ _ _ _ _ Er). cbn [Z.eqb]. change (HWC_DISPLAY_EXTERNAL =? HWC_DISPLAY_EXTERNAL) with true. cbv iota.
  destruct (st =? 0) eqn:E0.
  - destruct (on_display_run (created HWC_DISPLAY_EXTERNAL e1 w) HWC_DISPLAY_EXTERNAL (next_object w)
      (MSetSecureDisplay (secure_display_active_ (sess w)))) as (r2 & e2 & Er2).
    + done.
    + apply (sane_new w (Z.to_nat HWC_DISPLAY_EXTERNAL) Hs).
    + cbn. apply list_lookup_insert_eq. destruct Hs as [[Hl _] _]. rewrite Hl. change (Z.to_nat HWC_DISPLAY_EXTERNAL) with 1%nat. lia.
    + exists e2. split; [done|]. split; [done|]. rewrite (st_bind_Ret _ _ _ _ _ Ec), E0. cbv iota.
      rewrite (st_bind_Ret _ _ (created HWC_DISPLAY_EXTERNAL e1 w) tt (created HWC_DISPLAY_EXTERNAL e2 w)); [done|].
      rewrite (st_bind_Ret (get secure_display_active_) _ (created HWC_DISPLAY_EXTERNAL e1 w) (secure_display_active_ (sess w)) (created HWC_DISPLAY_EXTERNAL e1 w) eq_refl).
      by rewrite (st_bind_Ret _ _ _ _ _ Er2).
  - exists e1. split; [done|]. split; [done|]. rewrite (st_bind_Ret _ _ _ _ _ Ec), E0. done.
Qed.
Lemma inv_created d (e : E) (w : W) : 0 < d < 3 -> inv w -> inv (created d e w).
Proof.
  intros Hd [Hs [p Hp]]. split; [by apply (sane_new w (Z.to_nat d))|]. exists p. cbn. by rewrite list_lookup_insert_ne by lia.
Qed.
Lemma ok_ConnectDisplay X : ok X (ConnectDisplay HWC_DISPLAY_EXTERNAL : M Z).
Proof.
  intros w Hw HX. destruct (Connect_run w Hw) as (k & st & e0 & e1 & e & _ & _ & Er). apply (safe_run _ _ _ _ _ Er).
  destruct (st =? 0); [|done]. split; [by apply inv_created|cbn; set_solver].
Qed.
Hint Resolve ok_ConnectDisplay : session.
Lemma ok_prepare_primary X p : p ∈ X -> ok X (prepare_primary p : M unit).
Proof. intros Hp. unfold prepare_primary, ResetPanel. ok_tac. Qed.
Lemma ok_GetVsyncPeriod X d : 0 <= d < 3 -> ok X (GetVsyncPeriod d : M Z).
Proof. intros Hd. unfold GetVsyncPeriod. ok_tac. Qed.
Hint Resolve ok_prepare_primary ok_GetVsyncPeriod : session.
Lemma ok_PresentDisplay X d o : 0 <= d -> ok X (PresentDisplay d o : M Z).
Proof.
  intros Hd. unfold PresentDisplay, SequenceExitScopeLock, SequenceCancelScopeLock.
  destruct (Z.leb_spec HWC_NUM_DISPLAY_TYPES d); ok_tac.
Qed.
Lemma ok_ValidateDisplay X d n r : 0 <= d < 3 -> ok X (ValidateDisplay d n r : M Z).
Proof.
  intros Hd. unfold ValidateDisplay, SequenceEntryScopeLock, SequenceCancelScopeLock. apply ok_bind; [ok_tac|]. intros _.
  intros w Hw HX. apply safe_bind, safe_slot; [done|apply Hw|]. intros o Ho.
  assert (Hend : forall st (w' : W), inv w' -> X ⊆ live w' -> safe (_ ← (if negb (st =? HWC2_ERROR_NONE) && negb (st =? error_code HasChanges) then set_sequence d (-1) else mret tt); mret st)
    (fun _ w'' => inv w'' /\ X ⊆ live w'') w').
  { intros st. apply (ok_bind X); ok_tac. }
  apply safe_bind. destruct o as [p|]; [|by apply safe_ret, Hend]. apply safe_bind. destruct (Z.eqb_spec d HWC_DISPLAY_PRIMARY) as [->|Hne].
  - assert (Hp : p ∈ live w) by (eapply slot_live; [apply Hw|done]).
    eapply safe_mono; [apply (ok_prepare_primary ({[p]} ∪ X)); set_solver|]. intros _ w1 [Hw1 HX1].
    eapply safe_mono; [apply (ok_status_on X); [done|set_solver]|]. intros st w2 [Hw2 HX2]. by apply Hend.
  - apply safe_ret. apply (safe_status_on d p); [lia|apply Hw|done|]. intros st e. by apply Hend.
Qed.
Lemma last_DestroyVirtualDisplay d : last ∅ (DestroyVirtualDisplay d : M Z).
Proof.
  intros w Hw HX. unfold DestroyVirtualDisplay. destruct (Z.eqb_spec d HWC_DISPLAY_VIRTUAL) as [->|]; [|by apply safe_ret]. cbn [negb].
  apply safe_bind, safe_ret, safe_bind, safe_slot; [ids|apply Hw|]. intros [p|] Hp; [|by apply safe_ret].
  apply (last_destroy HWC_DISPLAY_VIRTUAL); [ids|done..|]. intros w' Hw'. by apply safe_ret.
Qed.
Lemma last_DisconnectDisplay p w : inv w -> hwc_display_ (sess w) !! Z.to_nat HWC_DISPLAY_EXTERNAL = Some (Some p) ->
  safe (DisconnectDisplay HWC_DISPLAY_EXTERNAL : M Z) (fun _ w' => inv w') w.
Proof.
  intros Hw Hp. unfold DisconnectDisplay. cbn [Z.eqb orb]. change (HWC_DISPLAY_EXTERNAL =? HWC_DISPLAY_EXTERNAL) with true. cbn [orb].
  apply safe_bind. unfold deref. apply safe_bind, safe_slot; [ids|apply Hw|]. intros o Ho. rewrite Hp in Ho. injection Ho as <-. apply safe_ret.
  apply (last_destroy HWC_DISPLAY_EXTERNAL); [ids|done..|]. intros w' Hw'. by apply safe_ret.
Qed.
Lemma ok_hotplug_notify X s c n : ok X (hotplug_notify s c n : M Z).
Proof. unfold hotplug_notify. ok_tac. Qed.
Lemma last_hotplug_display s c : last ∅ (hotplug_display s c : M _).
Proof.
  unfold hotplug_display. destruct (hdmi_is_primary_ s); [destruct (negb (null_display_active_ s)); [apply ok_last; ok_tac|]|]; intros w Hw _.
  - destruct (Hw) as [Hs [p Hp]]. apply safe_bind. unfold deref. apply safe_bind, safe_slot; [ids|done|]. intros o Ho.
    change (Z.to_nat HWC_DISPLAY_PRIMARY) with 0%nat in Ho. rewrite Hp in Ho. injection Ho as <-. apply safe_ret, safe_bind. unfold Destroy, alive.
    apply safe_bind, safe_bind, safe_gets. rewrite decide_True by (eapply slot_live; [exact Hs|exact Hp]). apply safe_ret, safe_bind.
    destruct (sl_Destroy p (env w)) as ([] & e & Ee & _). unfold safe at 1, in_e. by rewrite Ee.
  - apply safe_bind, safe_slot; [ids|apply Hw|]. intros [p|] _; [|by apply safe_ret].
    assert (Hok : forall A (m : M A) w', inv w' -> ok ∅ m -> safe m (fun _ w'' => inv w'') w').
    { intros A m w' Hw' Hm. apply (ok_last ∅ m Hm); [done|set_solver]. }
    destruct c; [apply Hok; [done|ok_tac]|].
    apply safe_bind. eapply safe_mono; [apply (ok_wait ∅ HWC_DISPLAY_EXTERNAL); [ids|done|set_solver]|]. intros _ w1 [Hw1 _].
    apply safe_bind, safe_slot; [ids|apply Hw1|]. intros [x|] Hx; apply safe_bind.
    + apply safe_bind. eapply safe_mono; [by eapply last_DisconnectDisplay|]. intros ? w2 Hw2. apply safe_ret. apply Hok; [done|ok_tac].
    + apply safe_ret. apply Hok; [done|ok_tac].
Qed.
Lemma last_HotPlugHandler c : last ∅ (HotPlugHandler c : M Z).
Proof.
  unfold HotPlugHandler. apply last_bind; [ok_tac|]. intros s. case_match; [apply ok_last, ok_ret|].
  apply last_bind; [apply last_ok, last_hotplug_display|]. intros [st|n]; apply ok_last; [apply ok_ret|apply ok_hotplug_notify].
Qed.
Lemma c_string_buffer l n : (length l < n)%nat -> Cec.c_string ((Some <$> l) ++ replicate (n - length l) (Some 0)) <> Undef.
Proof.
  revert n. induction l as [|c l IH]; intros n Hn.
  - destruct n as [|n]; [simpl in Hn; lia|]. done.
  - destruct n as [|n]; [simpl in Hn; lia|]. rewrite fmap_cons. cbn [app Cec.c_string length Nat.sub]. destruct (c =? 0); [done|].
    specialize (IH n). cbn [length] in Hn. destruct (Cec.c_string _) as [[a b]| |]; [done|exfalso; apply IH; [lia|done]|done].
Qed.
Lemma last_UEventThread l : (length l <= Cec.PAGE_SIZE - 2)%nat ->
  Forall (fun key => GetEventValue (uevent_buffer l) (Z.of_nat (length l)) key <> Undef) ["SWITCH_STATE="; "PANEL_ALIVE="] -> last ∅ (UEventThread l : M unit).
Proof.
  intros Hl Hk. apply Forall_cons in Hk as [Hk1 [Hk2 _]%Forall_cons]. unfold UEventThread, UEventHandler. apply last_bind; [ok_tac|]. intros b. destruct b; [|apply ok_last, ok_ret].
  apply last_bind. { apply ok_lift, c_string_buffer. unfold Cec.PAGE_SIZE in *. lia. }
  intros [name rest]. destruct (strcasecmp name HWC_UEVENT_SWITCH_HDMI).
  - apply last_bind; [by apply ok_lift|]. intros v. destruct (0 <=? v); [|apply ok_last, ok_ret].
    apply last_bind; [apply last_ok, last_HotPlugHandler|]. intros _. apply ok_last, ok_ret.
  - destruct (strcasecmp name HWC_UEVENT_GRAPHICS_FB0); [|apply ok_last, ok_ret]. apply ok_last, ok_bind; [by apply ok_lift|]. ok_tac.
Qed.
Lemma map_id d : bad_id (MapDisplayType d) = false -> 0 <= MapDisplayType d < 3.
Proof. unfold bad_id. intros [H1%Z.ltb_ge H2%Z.leb_gt]%orb_false_iff. ids. Qed.
Lemma good_id d : bad_id d = false -> 0 <= d < 3.
Proof. unfold bad_id. intros [H1%Z.ltb_ge H2%Z.leb_gt]%orb_false_iff. ids. Qed.
Hint Extern 1 (0 <= _ < 3) => (apply good_id; assumption) : session.
Lemma ok_query X d m : ok X (query d m : M _).
Proof.
  unfold query. destruct (bad_id d) eqn:Hd; [ok_tac|]. apply good_id in Hd. ok_tac.
Qed.
Lemma ok_on_primary X m : ok X (on_primary m : M _).
Proof. unfold on_primary. ok_tac. Qed.
Lemma ok_masked X x d m : 0 <= d < 3 -> ok X (masked x d m : M Z).
Proof. intros Hd. unfold masked. ok_tac. Qed.
Lemma ok_dsi X p {A} (k : option Z -> M A) : (forall q, ok ({[q]} ∪ X) (k (Some q))) -> ok X (k None) -> ok X (dsi_display p ≫= k).
Proof.
  intros Hs Hn. unfold dsi_display. destruct (negb (arg p 0 =? HWC_DISPLAY_PRIMARY)); [|apply ok_slot; [ids|done..]].
  intros w Hw HX. by apply safe_bind, safe_ret, Hn.
Qed.
Hint Resolve ok_query ok_on_primary ok_masked : session.
Lemma ok_color X c : ok X (color_on_primary c : M Z).
Proof. unfold color_on_primary. ok_tac. Qed.
Hint Resolve ok_color : session.
Lemma ok_action X d n resp ret b : ok X (qdcm_action d n resp ret b : M _).
Proof. unfold qdcm_action, with_refresh. cbv zeta. ok_tac. Qed.
Hint Resolve ok_action : session.
Lemma ok_qdcm_loop X fuel : forall d a n resp ret b, ok X (qdcm_loop fuel d a n resp ret b : M _).
Proof. induction fuel as [|fuel IH]; intros; cbn [qdcm_loop]; ok_tac; apply IH. Qed.
(** What comes back is new only when the display of that name is there. *)
Lemma safe_route i d pl r w : 0 <= d < 3 -> inv w ->
  safe (qdcm_route i d pl r) (fun r' w' => inv w' /\ same w w' /\
    (r' = r \/ i = d /\ exists p, hwc_display_ (sess w) !! Z.to_nat d = Some (Some p))) w.
Proof.
  intros Hd Hw. unfold qdcm_route. destruct (Z.eqb_spec i d) as [->|]; [|apply safe_ret; split_and!; [done|reflexivity|by left]].
  apply safe_bind, safe_slot; [done|apply Hw|]. intros [p|] Hp; [|apply safe_ret; split_and!; [done|reflexivity|by left]].
  destruct (call_run w p (MColorSVCRequestRoute pl)) as (r' & e & Er); [by eapply slot_live; [apply Hw|]|].
  apply (safe_run _ _ _ _ _ Er). split_and!; [done..|]. right. eauto.
Qed.
Lemma same_slots (w w' : W) : same w w' -> hwc_display_ (sess w') = hwc_display_ (sess w).
Proof. unfold same, frame. congruence. Qed.
Lemma ok_same {A} (m : M A) w : ok ∅ m -> keeps same m -> inv w -> safe m (fun _ w' => inv w' /\ same w w') w.
Proof.
  intros Hm Hk Hw. specialize (Hm w Hw (empty_subseteq _)). specialize (Hk w). unfold safe in *. destruct (m w) as [[a w']| |]; [|done..].
  split; [apply Hm|by eapply Hk].
Qed.
(** The actions are taken only for a display that is there, and it stays. *)
Lemma safe_actions i action resp ret w p : 0 <= i < 3 -> inv w -> hwc_display_ (sess w) !! Z.to_nat i = Some (Some p) ->
  safe (r ← qdcm_loop 32 i action 0 resp ret true;
        match r with
        | None => mret (- EINVAL, [])
        | Some (ret, reset) =>
            _ ← (if (reset : bool) then _ ← status_on i MResetValidation; mret tt else mret tt);
            mret (if negb (ret =? 0) then - EINVAL else 0, ret :: Z.of_nat (length resp) :: resp)
        end) (fun _ w' => inv w') w.
Proof.
  intros Hi Hw Hp. apply safe_bind. eapply safe_mono; [apply ok_same; [apply ok_qdcm_loop|apply same_qdcm_loop|exact Hw]|].
  intros r w1 [Hw1 Hs%same_slots]. destruct r as [[ret' [|]]|]; [|by apply safe_ret..].
  apply safe_bind, safe_bind, (safe_status_on i p); [lia|apply Hw1|by rewrite Hs|]. intros st e. apply safe_ret. by apply safe_ret.
Qed.
Lemma last_Qdcm parcel : last ∅ (QdcmCMDHandler parcel : M _).
Proof.
  unfold QdcmCMDHandler. apply last_bind; [ok_tac|]. intros c. destruct (negb c); [apply ok_last, ok_ret|]. apply last_bind; [ok_tac|].
  intros [[ret i] pl] w Hw _. apply safe_bind.
  apply (safe_mono _ (fun '(ret, out) w' => inv w' /\ (out = [] \/ exists p, 0 <= i < 3 /\ hwc_display_ (sess w') !! Z.to_nat i = Some (Some p)))).
  - destruct (ret =? 0); [|apply safe_ret; auto]. apply safe_bind. eapply safe_mono; [by apply safe_route|].
    intros r w1 (Hw1 & Hs1 & Hr1). eapply safe_mono; [by apply safe_route|]. intros [ret' out] w2 (Hw2 & Hs2 & Hr2). split; [done|].
    apply same_slots in Hs1, Hs2. rewrite Hs2. destruct Hr2 as [<-|(-> & p & Hp)]; [rewrite Hs1; destruct Hr1 as [[= -> ->]|(-> & p & Hp)]|]; [by left|right; exists p; split; [ids|done]..].
  - intros [ret' out] w' [Hw' Hout]. cbv zeta. case_match eqn:Hc; [by apply safe_ret|].
    destruct Hout as [->|(p & Hi & Hp)]; [by rewrite orb_true_r in Hc|]. by apply (safe_actions i _ _ _ _ p).
Qed.
(** ** All of them *)
Hint Resolve ok_PresentDisplay ok_ValidateDisplay : session.
Lemma ok_done {A} X (m : M A) : ok X m -> ok X (done_ m).
Proof. intros Hm. apply ok_bind; [done|]. intros a. apply ok_ret. Qed.
Lemma last_done {A} (m : M A) : last ∅ m -> last ∅ (done_ m).
Proof. intros Hm. apply last_bind; [by apply last_ok|]. intros a. apply ok_last, ok_ret. Qed.
(** A service that checks the identifier of its display. *)
Ltac service := cbv zeta;
  try match goal with
  | |- context [if bad_id ?d then _ else _] => let H := fresh in destruct (bad_id d) eqn:H; [apply ok_ret|apply good_id in H]
  end; ok_tac.
Lemma ok_isDisplayConnected X d : ok X (isDisplayConnected d : M _).
Proof. unfold isDisplayConnected. service. Qed.
Lemma ok_SetSecondaryDisplayStatus X d s : ok X (SetSecondaryDisplayStatus d s : M _).
Proof. unfold SetSecondaryDisplayStatus. service. Qed.
Lemma ok_configureDynRefeshRate X o r : ok X (configureDynRefeshRate o r : M _).
Proof. unfold configureDynRefeshRate. service. Qed.
Lemma ok_SetActiveConfigIndex X d c : ok X (SetActiveConfigIndex d c : M _).
Proof. unfold SetActiveConfigIndex. service. Qed.
Lemma ok_MinHdcpEncryptionLevelChanged X d l : ok X (MinHdcpEncryptionLevelChanged d l : M _).
Proof. unfold MinHdcpEncryptionLevelChanged. service. Qed.
Lemma ok_ControlPartialUpdate X d e : ok X (ControlPartialUpdate d e : M _).
Proof. unfold ControlPartialUpdate. service. Qed.
Lemma ok_setIdleTimeout X v : ok X (setIdleTimeout v : M _).
Proof. unfold setIdleTimeout. service. Qed.
Lemma ok_getHDRCapabilities X d : ok X (getHDRCapabilities d : M _).
Proof. unfold getHDRCapabilities. service. Qed.
Lemma ok_setCameraLaunchStatus X n : ok X (setCameraLaunchStatus n : M _).
Proof. unfold setCameraLaunchStatus. service. Qed.
Lemma ok_DisplayBWTransactionPending X : ok X (DisplayBWTransactionPending : M _).
Proof. unfold DisplayBWTransactionPending. service. Qed.
Lemma ok_refreshScreen X : ok X (refreshScreen : M _).
Proof. unfold refreshScreen. service. Qed.
Lemma ok_HandleGetDisplayAttributesForConfig X p : ok X (HandleGetDisplayAttributesForConfig p : M _).
Proof.
  unfold HandleGetDisplayAttributesForConfig. cbv zeta.
  destruct (Z.ltb_spec (arg p 1) HWC_DISPLAY_PRIMARY), (Z.leb_spec HWC_NUM_DISPLAY_TYPES (arg p 1)); cbn [orb]; ok_tac.
Qed.
Lemma ok_ConfigureRefreshRate X p : ok X (ConfigureRefreshRate p : M _).
Proof. unfold ConfigureRefreshRate. service. Qed.
Lemma ok_SetDisplayMode X p : ok X (SetDisplayMode p : M _).
Proof. unfold SetDisplayMode. service. Qed.
Lemma ok_SetMaxMixerStages X p : ok X (SetMaxMixerStages p : M _).
Proof. unfold SetMaxMixerStages. service. Qed.
Lemma ok_SetFrameDumpConfig X p : ok X (SetFrameDumpConfig p : M _).
Proof. unfold SetFrameDumpConfig. service. Qed.
Lemma ok_SetMixerResolution X p : ok X (SetMixerResolution p : M _).
Proof. unfold SetMixerResolution. service. Qed.
Lemma ok_GetVisibleDisplayRect X p : ok X (GetVisibleDisplayRect p : M _).
Proof. unfold GetVisibleDisplayRect. service. Qed.
Lemma ok_SetDsiClk X p : ok X (SetDsiClk p : M _).
Proof. unfold SetDsiClk. apply ok_dsi; ok_tac. Qed.
Lemma ok_GetDsiClk X p : ok X (GetDsiClk p : M _).
Proof. unfold GetDsiClk. apply ok_dsi; ok_tac. Qed.
Lemma ok_GetSupportedDsiClk X p : ok X (GetSupportedDsiClk p : M _).
Proof. unfold GetSupportedDsiClk. apply ok_dsi; ok_tac. Qed.
Lemma ok_SetColorModeOverride X p : ok X (SetColorModeOverride p : M _).
Proof.
  unfold SetColorModeOverride. cbv zeta. pose proof (uwrap_range 64 (arg p 0)). case_match; ok_tac. apply ok_CallDisplayFunction. lia.
Qed.
Hint Resolve ok_isDisplayConnected ok_SetSecondaryDisplayStatus ok_configureDynRefeshRate ok_SetActiveConfigIndex ok_MinHdcpEncryptionLevelChanged ok_ControlPartialUpdate ok_setIdleTimeout ok_getHDRCapabilities ok_setCameraLaunchStatus ok_DisplayBWTransactionPending ok_refreshScreen ok_HandleGetDisplayAttributesForConfig ok_ConfigureRefreshRate ok_SetDisplayMode ok_SetMaxMixerStages ok_SetFrameDumpConfig ok_SetMixerResolution ok_GetVisibleDisplayRect ok_SetDsiClk ok_GetDsiClk
  ok_GetSupportedDsiClk ok_SetColorModeOverride : session.
Lemma last_notifyCallback c p : last ∅ (notifyCallback c p : M _).
Proof.
  destruct c; cbn [notifyCallback]; try (apply last_Qdcm); apply ok_last; unfold status_only, status_written, GetActiveConfigIndex, GetConfigCount,
    GetPanelBrightness, setPanelBrightness, toggleScreenUpdate; ok_tac.
Qed.
(** The layer is moved only where the display was found. *)
Lemma ok_SetCursorPosition X d l x y : 0 <= d -> ok X (SetCursorPosition d l x y : M Z).
Proof.
  intros Hd. unfold SetCursorPosition. destruct (Z.ltb_spec d HWC_NUM_DISPLAY_TYPES); [ok_tac|].
  unfold CallDisplayFunction. destruct (Z.leb_spec HWC_NUM_DISPLAY_TYPES d); [|lia]. exact (ok_ret X HWC2_ERROR_BAD_DISPLAY).
Qed.
Hint Resolve ok_SetCursorPosition : session.
Definition in_range (c : Call) : Prop := match unchecked_id c with Some d => d < HWC_NUM_DISPLAY_TYPES | None => True end.
Lemma last_run c : in_type c -> in_range c -> last ∅ (run c : M unit).
Proof.
  intros Hv Hr. destruct c; cbn [run in_type] in *; unfold in_range in Hr; cbn [unchecked_id] in Hr; try (by apply last_UEventThread; apply Hv); apply last_done;
    try apply last_DestroyVirtualDisplay; try apply last_notifyCallback; apply ok_last;
    unfold AcceptDisplayChanges, CreateLayer, CreateVirtualDisplay, CreateVirtualDisplayObject, DestroyLayer, GetActiveConfig, GetChangedCompositionTypes,
      GetClientTargetSupport, GetColorModes, GetDisplayAttribute, GetDisplayConfigs, GetDisplayName, GetDisplayRequests, GetDisplayType,
      GetHdrCapabilities, GetMaxVirtualDisplayCount, GetReleaseFences, RegisterCallback, SetActiveConfig, SetClientTarget, SetColorMode,
      SetColorTransform, SetLayerBlendMode, SetLayerBuffer, SetLayerColor, SetLayerCompositionType, SetLayerDataspace,
      SetLayerDisplayFrame, SetLayerPlaneAlpha, SetLayerSourceCrop, SetLayerSurfaceDamage, SetLayerTransform, SetLayerVisibleRegion,
      SetLayerZOrder, SetOutputBuffer, SetPowerMode, SetVsyncEnabled, GetCapabilities, setSecondayDisplayStatus, getConfigCount, GetConfigCount,
      getActiveConfig, GetActiveConfigIndex, setActiveConfig, getDisplayAttributes, setPanelBrightness, GetPanelBrightness,
      minHdcpEncryptionLevelChanged, controlPartialUpdate, toggleScreenUpdate, setDisplayAnimating, isHDRSupported, getDebugProperty, CB_Vsync;
    ok_tac.
Qed.
(** Any other identifier is an index out of an array. *)
Lemma st_bind_Undef {A B} (m : M A) (k : A -> M B) w : m w = Undef -> (m ≫= k) w = Undef.
Proof. intros Hm. unfold mbind, st_bind. by rewrite Hm. Qed.
Lemma ScopeLock_out d (w : W) : HWC_NUM_DISPLAY_TYPES <= d -> ScopeLock d w = Undef.
Proof. intros Hd. unfold ScopeLock. destruct (Z.ltb_spec d HWC_NUM_DISPLAY_TYPES); [lia|]. by rewrite andb_false_r. Qed.
Lemma set_sequence_out d x (w : W) : HWC_NUM_DISPLAY_TYPES <= d -> set_sequence d x w = Undef.
Proof. intros Hd. unfold set_sequence. destruct (Z.ltb_spec d HWC_NUM_DISPLAY_TYPES); [lia|]. by rewrite andb_false_r. Qed.
Lemma wait_out d (w : W) : inv w -> HWC_NUM_DISPLAY_TYPES <= d -> SequenceWaitScopeLock d w = Undef.
Proof.
  intros [[[_ Hl] _] _] Hd. unfold SequenceWaitScopeLock, get, st_gets. rewrite (st_bind_Ret _ _ w (sequence_wait_ (sess w)) w eq_refl).
  rewrite lookup_ge_None_2 by ids. by destruct (d <? 0).
Qed.
Lemma run_out c d (w : W) : inv w -> unchecked_id c = Some d -> HWC_NUM_DISPLAY_TYPES <= d -> run c w = Undef.
Proof.
  intros Hi Hc Hd. pose proof (fun w => ScopeLock_out d w Hd) as Hs.
  assert (Hl : forall l k, CallLayerFunction d l k w = Undef) by (intros l k; apply st_bind_Undef, Hs).
  destruct c; try done; cbn [unchecked_id] in Hc; cbn [run]; unfold done_; apply st_bind_Undef;
    try (injection Hc as ->; apply Hl).
  - unfold SetLayerBlendMode. destruct (_ || _); [done|]. injection Hc as ->. apply Hl.
  - injection Hc as ->. apply st_bind_Undef, set_sequence_out, Hd.
  - injection Hc as ->. apply st_bind_Undef, wait_out; done.
Qed.
Lemma run_in_range c (w : W) r : inv w -> run c w = Ret r -> in_range c.
Proof.
  intros Hi Er. unfold in_range. destruct (unchecked_id c) as [d|] eqn:Ec; [|done].
  destruct (Z.ltb_spec d HWC_NUM_DISPLAY_TYPES) as [|Hd]; [done|]. by rewrite (run_out c d w Hi Ec Hd) in Er.
Qed.
(** * The start *)
Lemma safe_in_e {A} (m : St E A) (Q : A -> W -> Prop) w : total m -> (forall a e, Q a (w <| env := e |>)) -> safe (in_e m) Q w.
Proof. intros Hm HQ. destruct (Hm (env w)) as (a & e & Ee & _). unfold safe, in_e. rewrite Ee. apply HQ. Qed.
(** A session that has only its primary display. *)
Definition started (w : W) : Prop :=
  inv w /\ (exists p, hwc_display_ (sess w) = [Some p; None; None]) /\ sequence_wait_ (sess w) = [0; 0; 0] /\ first_commit_ (sess w) = false /\
  external_pending_connect_ (sess w) = false /\ external_pending_hotplug_ (sess w) = false /\ events w = [].
Definition blank (w : W) : Prop :=
  live w = ∅ /\ hwc_display_ (sess w) = [None; None; None] /\ sequence_wait_ (sess w) = [0; 0; 0] /\ first_commit_ (sess w) = false /\
  external_pending_connect_ (sess w) = false /\ external_pending_hotplug_ (sess w) = false /\ events w = [].
Lemma blank_created e (w : W) : blank w -> started (created HWC_DISPLAY_PRIMARY e w).
Proof.
  intros (H1 & H2 & H3 & H4 & H5 & H6 & H7). unfold started, inv, sane, shape, has_primary. cbn. rewrite H1, H2, H3, H4, H5, H6, H7.
  change (Z.to_nat HWC_DISPLAY_PRIMARY) with 0%nat. cbn. split_and!; eauto.
  apply (objects_new [None; None; None] ∅ (next_object w) 0). split_and!;
    [intros d p Hd; by destruct d as [|[|[|d]]]|intros d d' p Hd; by destruct d as [|[|[|d]]]|set_solver].
Qed.
Lemma started_sess w f : started w -> (forall s, hwc_display_ (f s) = hwc_display_ s /\ sequence_wait_ (f s) = sequence_wait_ s /\ first_commit_ (f s) = first_commit_ s /\
  external_pending_connect_ (f s) = external_pending_connect_ s /\ external_pending_hotplug_ (f s) = external_pending_hotplug_ s) -> started (w <| sess ::= f |>).
Proof.
  intros (Hi & H2) Hf. destruct (Hf (sess w)) as (F1 & F2 & F3 & F4 & F5). unfold started, inv, sane, shape, has_primary in *. cbn.
  rewrite F1, F2, F3, F4, F5. done.
Qed.
Lemma safe_first k d (Q : Z -> W -> Prop) w : d = HWC_DISPLAY_PRIMARY -> blank w -> (forall st w', (if st =? 0 then started w' else True) -> Q st w') -> safe (Create k d) Q w.
Proof.
  intros -> Hb HQ. destruct (Create_run k HWC_DISPLAY_PRIMARY w) as (st & e & _ & Er). apply (safe_run _ _ _ _ _ Er), HQ.
  destruct (st =? 0); [by apply blank_created|done].
Qed.
Lemma blank_env w e : blank w -> blank (w <| env := e |>).
Proof. done. Qed.
Lemma Init_safe w : blank w -> safe (Init : M Z) (fun st w' => st = 0 -> started w') w.
Proof.
  intros Hb. unfold Init.
  assert (Hin : forall A (m : St E A) (k : A -> M Z) w0, blank w0 -> total m -> (forall a w1, blank w1 -> safe (k a) (fun st w' => st = 0 -> started w') w1) ->
    safe (in_e m ≫= k) (fun st w' => st = 0 -> started w') w0).
  { intros A m k w0 Hb0 Hm Hk. apply safe_bind, safe_in_e; [done|]. intros a e. by apply Hk. }
  assert (Hbad : forall w0, safe (mret (- EINVAL) : M Z) (fun st w' => st = 0 -> started w') w0) by done.
  apply Hin; [done|apply sl_InitDone|]. intros [] w1 H1; [|apply Hbad]. cbn [negb].
  apply Hin; [done|apply sl_getService|]. intros [] w2 H2; [|apply Hbad]. cbn [negb]. apply safe_bind, safe_modify.
  apply Hin; [done|apply sl_registerAsService|]. intros _ w3 H3. apply Hin; [done|apply sl_AllocatorInit|]. intros er w4 H4.
  case_match; [apply Hbad|]. apply Hin; [done|apply sl_CreateCore|]. intros er2 w5 H5.
  case_match; [apply Hin; [done|apply sl_AllocatorDeinit|]; intros; apply Hbad|]. apply safe_bind, safe_modify.
  assert (Hundo : forall st (w0 : W), st <> 0 -> safe (_ ← on_sess (fun s => s <| listener := false |>); _ ← undo_core; mret st) (fun st w' => st = 0 -> started w') w0).
  { intros st w0 Hst. apply safe_bind, safe_modify, safe_bind, safe_bind, safe_in_e; [apply sl_DestroyCore|]. intros _ e.
    apply safe_in_e; [apply sl_AllocatorDeinit|]. intros _ e'. by apply safe_ret. }
  apply Hin; [done|apply sl_FirstDisplay|]. intros [[er3 hdmi] conn] w6 H6. case_match; [by apply Hundo|].
  assert (Hend : forall st w', (if st =? 0 then started w' else True) -> safe
    (if negb (st =? 0) then _ ← on_sess (fun s => s <| listener := false |>); _ ← undo_core; mret st
     else _ ← on_sess (fun s => s <| is_composer_up_ := true |>); mret 0) (fun st w' => st = 0 -> started w') w').
  { intros st w' Hst. destruct (Z.eqb_spec st 0); cbn [negb]; [|by apply Hundo]. apply safe_bind, safe_modify, safe_ret. intros _.
    by apply started_sess. }
  apply safe_bind. destruct hdmi.
  - apply safe_bind, safe_modify. destruct conn.
    + unfold CreateExternalDisplay. apply safe_bind, safe_in_e; [apply sl_DPTestConfig|]. intros [bpp pat] e.
      repeat case_match; by apply safe_first.
    + unfold CreateNullDisplay. apply safe_bind, safe_bind, safe_gets, safe_bind, safe_in_e; [apply sl_Create|]. intros st e.
      apply safe_bind, safe_modify, safe_modify, safe_bind, safe_modify, safe_ret, Hend. cbn [Z.eqb].
      apply started_sess; [|done]. apply (blank_created e (w6 <| sess ::= fun s => s <| hdmi_is_primary_ := true |> |>)). exact H6.
  - apply safe_bind, safe_first; [done..|]. intros st w7 Hw7. apply safe_bind, safe_in_e; [apply sl_CreateColorManager|]. intros c e.
    apply safe_bind, safe_modify, safe_ret, Hend. destruct (st =? 0); [|done]. by apply started_sess.
Qed.
Lemma Init_started e (w0 : W) : Init (mkSWorld new_HWCSession ∅ 1 [] e) = Ret (0, w0) -> started w0.
Proof. intros Hi. by apply (safe_Ret _ _ _ _ _ (Init_safe (mkSWorld new_HWCSession ∅ 1 [] e) ltac:(done)) Hi). Qed.
Lemma session_reachable_inv (w : W) : reachable w -> inv w.
Proof.
  intros (e & w0 & Hi & Hr). apply Init_started in Hi as [H0 _]. induction Hr as [|w1 w2 w3 (c & Hv & Ec) _ IH]; [done|]. apply IH.
  by apply (safe_Ret _ _ _ _ _ (last_run c Hv (run_in_range c w1 _ H0 Ec) w1 H0 (empty_subseteq _)) Ec).
Qed.
End Calls.
End SessionFacts.
