(* ===== verification/SessionProps.v ===== *)
(** The properties of the session of the hardware composer, and runs of a small
    environment. *)
From S2P Require Import Prelude Rect ResourceDefault MetaData GrUtils Strategy HwcLayer HwcColor HwcDisplay HwcDisplays Cec CecProps.
From S2P Require Import HwcSession Wp SessionFacts.
#[local] Open Scope Z_scope.

Module SessionProps.
Import HwcLayer Client HwcSession SessionFacts.

Section Props.
Context {E : Type} `{!SessionEnv E, !SessionLaws E}.
Abbreviation W := (World E).
Abbreviation M := (St (World E)).

(** C4: whatever the client, the services and the kernel did since a start that
    succeeded, a call is undefined (it uses a null or destroyed display, or an index out of
    its array) exactly when it is one of the functions that do not check the identifier of
    their display ([unchecked_id]: those of CallLayerFunction, ValidateDisplay and
    isHDRSupported) and the identifier is out of range; after every call that returns the
    displays that are held are alive and distinct, and the primary display is one of them.
    Identifiers are unsigned; an event of the kernel has no more bytes than are asked for
    and the numbers of its SWITCH_STATE and PANEL_ALIVE fit an int ([in_type]). *)
Theorem session_safe (w : W) (c : Call) : reachable w -> in_type c ->
  (run c w = Undef <-> exists d, unchecked_id c = Some d /\ HWC_NUM_DISPLAY_TYPES <= d) /\
  forall w', run c w = Ret (tt, w') ->
    (exists p, hwc_display_ (sess w') !! 0%nat = Some (Some p)) /\
    (forall d p, hwc_display_ (sess w') !! d = Some (Some p) -> p ∈ live w') /\
    (forall d d' p, hwc_display_ (sess w') !! d = Some (Some p) -> hwc_display_ (sess w') !! d' = Some (Some p) -> d = d').
Proof.
  intros Hr%session_reachable_inv Hv. split; [split|].
  - intros Eu. destruct (unchecked_id c) as [d|] eqn:Ec; [destruct (Z.le_gt_cases HWC_NUM_DISPLAY_TYPES d) as [|Hd]; [by exists d|]|];
      (assert (Hg : in_range c) by (unfold in_range; by rewrite Ec)); pose proof (last_run c Hv Hg w Hr (empty_subseteq _)) as Hs;
      unfold safe in Hs; by rewrite Eu in Hs.
  - intros (d & Ec & Hd). by apply (run_out c d).
  - intros w' Er. pose proof (last_run c Hv (run_in_range c w _ Hr Er) w Hr (empty_subseteq _)) as Hs. unfold safe in Hs.
    rewrite Er in Hs. destruct Hs as [[_ (H1 & H2 & _)] H3]. auto.
Qed.

(** * The frames of the displays *)
Definition sequences (w w' : W) : Prop := sequence_wait_ (sess w') = sequence_wait_ (sess w).
#[local] Instance sequences_preorder : PreOrder sequences.
Proof. split; [done|]. intros a b c H1 H2. unfold sequences in *. congruence. Qed.
Lemma same_sequences {A} (m : M A) : keeps same m -> keeps sequences m.
Proof. intros Hm w a w' Em. specialize (Hm w a w' Em). unfold same, frame in Hm. unfold sequences. congruence. Qed.
Lemma sequences_modify (f : W -> W) : (forall w, sequence_wait_ (sess (f w)) = sequence_wait_ (sess w)) -> keeps sequences (st_modify f).
Proof. intros Hf. apply keeps_modify. exact Hf. Qed.
Hint Extern 1 (keeps sequences (st_modify _)) => (apply sequences_modify; done) : keeps.
Hint Extern 1 (keeps sequences (on_sess _)) => (apply sequences_modify; done) : keeps.
Hint Extern 1 (keeps sequences (send _)) => (apply sequences_modify; done) : keeps.
Hint Extern 1 (keeps sequences (set_slot _ _)) => (apply sequences_modify; done) : keeps.
Hint Extern 3 (keeps sequences _) => (apply same_sequences; solve [eauto 2 with keeps typeclass_instances]) : keeps.
Lemma seq_Create k d : keeps sequences (Create k d : M _).
Proof. unfold Create, store. keeps_tac. Qed.
Lemma seq_Destroy p : keeps sequences (Destroy p : M _).
Proof. unfold Destroy. keeps_tac. Qed.
Hint Resolve seq_Create seq_Destroy : keeps.
Lemma seq_Connect d : keeps sequences (ConnectDisplay d : M _).
Proof. unfold ConnectDisplay, CreateExternalDisplay. keeps_tac. Qed.
Lemma seq_HotPlug d c : keeps sequences (HotPlug d c : M _).
Proof. unfold HotPlug, CB_Hotplug. keeps_tac. Qed.
Hint Resolve seq_Connect seq_HotPlug : keeps.
Lemma seq_HotPlugHandler c : keeps sequences (HotPlugHandler c : M _).
Proof. unfold HotPlugHandler, hotplug_display, hotplug_notify, DisconnectDisplay. keeps_tac. Qed.
Hint Resolve seq_HotPlugHandler : keeps.
(** The calls that do more than ask a display for something. *)
Definition special (c : Call) : bool :=
  match c with
  | FValidateDisplay _ _ _ | FPresentDisplay _ _ | FCreateVirtualDisplay _ _ _ _ | FDestroyVirtualDisplay _ | KUEvent _ => true
  | _ => false
  end.
Lemma same_notifyCallback c p : keeps same (notifyCallback c p : M _).
Proof.
  destruct c; cbn [notifyCallback]; unfold status_only, status_written, GetActiveConfigIndex, GetConfigCount, GetPanelBrightness, setPanelBrightness,
    toggleScreenUpdate, refreshScreen, setIdleTimeout, SetFrameDumpConfig, SetMaxMixerStages, SetDisplayMode, SetSecondaryDisplayStatus,
    ConfigureRefreshRate, QdcmCMDHandler, MinHdcpEncryptionLevelChanged, ControlPartialUpdate, SetActiveConfigIndex,
    HandleGetDisplayAttributesForConfig, GetVisibleDisplayRect, setCameraLaunchStatus, DisplayBWTransactionPending, SetMixerResolution,
    SetColorModeOverride, SetDsiClk, GetDsiClk, GetSupportedDsiClk; cbv zeta; keeps_tac.
Qed.
Hint Resolve same_notifyCallback : keeps.
Lemma same_run c : special c = false -> keeps same (run c : M unit).
Proof.
  destruct c; try done; intros _; cbn [run]; unfold done_, AcceptDisplayChanges, CreateLayer, DestroyLayer, GetActiveConfig, GetChangedCompositionTypes,
      GetClientTargetSupport, GetColorModes, GetDisplayAttribute, GetDisplayConfigs, GetDisplayName, GetDisplayRequests, GetDisplayType,
      GetHdrCapabilities, GetMaxVirtualDisplayCount, GetReleaseFences, RegisterCallback, CB_Hotplug, SetActiveConfig, SetClientTarget, SetColorMode,
      SetColorTransform, SetCursorPosition, SetLayerBlendMode, SetLayerBuffer, SetLayerColor, SetLayerCompositionType, SetLayerDataspace,
      SetLayerDisplayFrame, SetLayerPlaneAlpha, SetLayerSourceCrop, SetLayerSurfaceDamage, SetLayerTransform, SetLayerVisibleRegion,
      SetLayerZOrder, SetOutputBuffer, SetPowerMode, SetVsyncEnabled, GetCapabilities, setSecondayDisplayStatus, getConfigCount, GetConfigCount,
      getActiveConfig, GetActiveConfigIndex, setActiveConfig, getDisplayAttributes, setPanelBrightness, GetPanelBrightness,
      minHdcpEncryptionLevelChanged, controlPartialUpdate, toggleScreenUpdate, setDisplayAnimating, isHDRSupported, getDebugProperty, CB_Vsync,
      isDisplayConnected, SetSecondaryDisplayStatus, configureDynRefeshRate, SetActiveConfigIndex, MinHdcpEncryptionLevelChanged, refreshScreen,
      ControlPartialUpdate, setIdleTimeout, getHDRCapabilities, setCameraLaunchStatus, DisplayBWTransactionPending; cbv zeta; keeps_tac.
Qed.
(** A call that is neither Validate nor Present leaves all frames where they are. *)
Definition frame_call (c : Call) : bool := match c with FValidateDisplay _ _ _ | FPresentDisplay _ _ => true | _ => false end.
Lemma seq_run c : frame_call c = false -> keeps sequences (run c : M unit).
Proof.
  intros Hc. destruct (special c) eqn:Hs; [|by apply same_sequences, same_run].
  destruct c; try done; cbn [run]; unfold done_, CreateVirtualDisplay, CreateVirtualDisplayObject, DestroyVirtualDisplay, UEventThread, UEventHandler; keeps_tac.
Qed.
Lemma set_sequence_run d x (w : W) : 0 <= d < 3 -> set_sequence d x w = Ret (tt, w <| sess ::= fun s => s <| sequence_wait_ ::= <[Z.to_nat d := x]> |> |>).
Proof.
  intros Hd. unfold set_sequence. assert (H : (0 <=? d) && (d <? HWC_NUM_DISPLAY_TYPES) = true) by (apply andb_true_intro; split; [apply Z.leb_le|apply Z.ltb_lt]; ids).
  by rewrite H.
Qed.
Definition validated (status : Z) : bool := (status =? HWC2_ERROR_NONE) || (status =? error_code HasChanges).
Definition presented (status : Z) : bool := (status =? HWC2_ERROR_NONE) || (status =? error_code NotValidated).
Lemma cancel_sequences d (b : bool) (w w' : W) : 0 <= d < 3 -> (if b then SequenceCancelScopeLock d else mret tt) w = Ret (tt, w') ->
  sequence_wait_ (sess w') = (if b then <[Z.to_nat d := -1]> (sequence_wait_ (sess w)) else sequence_wait_ (sess w)).
Proof.
  intros Hd. destruct b; [|by intros [= <-]]. unfold SequenceCancelScopeLock. rewrite set_sequence_run by done. by intros [= <-].
Qed.
(** A step of a computation that leaves the sequences alone. *)
Ltac seq_step E := match type of E with ?m _ = _ => let Hk := fresh in assert (Hk : keeps sequences m) by keeps_tac; apply Hk in E; clear Hk; unfold sequences in E end.
Lemma Validate_sequences d a b st (w w' : W) : 0 <= d < 3 -> ValidateDisplay d a b w = Ret (st, w') ->
  sequence_wait_ (sess w') = <[Z.to_nat d := if validated st then 1 else -1]> (sequence_wait_ (sess w)).
Proof.
  intros Hd H. unfold ValidateDisplay, SequenceEntryScopeLock in H. rewrite (st_bind_Ret _ _ _ _ _ (set_sequence_run d 1 w Hd)) in H.
  st_step H. seq_step E0. st_step H. seq_step E1. st_step H. destruct a2. apply cancel_sequences in E2; [|done]. injection H as <- <-.
  rewrite E2, E1, E0. unfold validated. destruct (a1 =? HWC2_ERROR_NONE), (a1 =? error_code HasChanges); cbn; [done..|]. by rewrite list_insert_insert_eq.
Qed.
Lemma Present_sequences d o st (w w' : W) : 0 <= d < 3 -> PresentDisplay d o w = Ret (st, w') ->
  sequence_wait_ (sess w') = <[Z.to_nat d := if presented st then 0 else -1]> (sequence_wait_ (sess w)).
Proof.
  intros Hd H. unfold PresentDisplay, SequenceExitScopeLock in H. destruct (Z.leb_spec HWC_NUM_DISPLAY_TYPES d); [ids|].
  rewrite (st_bind_Ret _ _ _ _ _ (set_sequence_run d 0 w Hd)) in H. st_step H. seq_step E0. st_step H. seq_step E1. st_step H. destruct a1.
  apply cancel_sequences in E2; [|done]. st_step H. seq_step E3. st_step H. seq_step E4. st_step H. seq_step E5. st_step H. seq_step E6.
  injection H as <- <-. rewrite E6, E5, E4, E3, E2, E1, E0. unfold presented.
  destruct (a0 =? HWC2_ERROR_NONE), (a0 =? error_code NotValidated); cbn; [done..|]. by rewrite list_insert_insert_eq.
Qed.
Lemma sequences_length (w : W) : reachable w -> length (sequence_wait_ (sess w)) = 3%nat.
Proof. intros [[[_ H] _] _]%session_reachable_inv. exact H. Qed.

(** C24: a service waits for a display exactly between a Validate that succeeded and the
    next Present or failed Validate: a Validate of a display that succeeds marks its frame
    as begun and one that fails as cancelled, Present marks it as ended or, when it fails,
    as cancelled; no other call, command or event touches the mark of any display. *)
Theorem frame_sequence (w : W) (d : Z) : reachable w -> 0 <= d < HWC_NUM_DISPLAY_TYPES ->
  (forall w', SequenceWaitScopeLock d w = Ret (tt, w') <-> w' = w /\ sequence_wait_ (sess w) !! Z.to_nat d <> Some 1) /\
  (forall a b st w', ValidateDisplay d a b w = Ret (st, w') ->
     sequence_wait_ (sess w') = <[Z.to_nat d := if validated st then 1 else -1]> (sequence_wait_ (sess w))) /\
  (forall o st w', PresentDisplay d o w = Ret (st, w') ->
     sequence_wait_ (sess w') = <[Z.to_nat d := if presented st then 0 else -1]> (sequence_wait_ (sess w))) /\
  (forall c w', frame_call c = false -> run c w = Ret (tt, w') -> sequence_wait_ (sess w') = sequence_wait_ (sess w)).
Proof.
  intros Hr Hd. split_and!.
  - intros w'. unfold SequenceWaitScopeLock, get, st_gets. rewrite (st_bind_Ret _ _ w (sequence_wait_ (sess w)) w eq_refl).
    destruct (Z.ltb_spec d 0); [lia|]. destruct (lookup_lt_is_Some_2 (sequence_wait_ (sess w)) (Z.to_nat d)) as [x Hx].
    { rewrite sequences_length by done. ids. }
    rewrite Hx. destruct (Z.eqb_spec x 1) as [->|]; [split; [done|by intros []]|]. split; [intros [= ->]; split; [done|congruence]|by intros [-> _]].
  - intros a b st w'. by apply Validate_sequences.
  - intros o st w'. by apply Present_sequences.
  - intros c w' Hc Er. exact (seq_run c Hc w tt w' Er).
Qed.
(** * News of the external display *)
Definition has_external (w : W) : bool := match hwc_display_ (sess w) !! 1%nat with Some (Some _) => true | _ => false end.
(** The creation of an external display never fails. *)
Definition creates : Prop := forall k p (e : E), external_kind k = true -> exists e', SE_Create k p e = Ret (0, e').
Definition view (w : W) := (has_external w, first_commit_ (sess w), external_pending_hotplug_ (sess w), told (events w)).
Definition unseen (w w' : W) : Prop := view w' = view w.
#[local] Instance unseen_preorder : PreOrder unseen.
Proof. split; [done|]. intros a b c H1 H2. unfold unseen in *. congruence. Qed.
Lemma same_unseen {A} (m : M A) : keeps same m -> keeps unseen m.
Proof. intros Hm w a w' Em. specialize (Hm w a w' Em). unfold same, frame in Hm.
  injection Hm as H1 H2 H3 H4 H5 H6. unfold unseen, view, has_external. by rewrite H1, H3, H4, H6. Qed.
Definition announced (w : W) : Prop :=
  if first_commit_ (sess w) then
    external_pending_hotplug_ (sess w) = false /\ (has_external w = true -> told (events w) = true) /\
    (creates -> told (events w) = true -> has_external w = true)
  else told (events w) = false /\ external_pending_hotplug_ (sess w) = has_external w.
Lemma announced_unseen w w' : unseen w w' -> announced w -> announced w'.
Proof. unfold unseen, view, announced. intros [= -> -> -> ->]. done. Qed.
Lemma has_external_created e (w : W) : inv w -> has_external (created HWC_DISPLAY_EXTERNAL e w) = true.
Proof.
  intros [[[Hl _] _] _]. unfold has_external. cbn. change (Z.to_nat HWC_DISPLAY_EXTERNAL) with 1%nat. rewrite list_lookup_insert_eq by lia. done.
Qed.
Lemma Connect_view (w w' : W) st : inv w -> ConnectDisplay HWC_DISPLAY_EXTERNAL w = Ret (st, w') ->
  view w' = (if st =? 0 then true else has_external w, first_commit_ (sess w), external_pending_hotplug_ (sess w), told (events w)) /\ (creates -> st = 0).
Proof.
  intros Hi Er. destruct (Connect_run w Hi) as (k & st' & e0 & e1 & e & Hk & Es & Er'). rewrite Er in Er'. injection Er' as -> ->. split.
  - destruct (st' =? 0); [|done]. unfold view. by rewrite has_external_created.
  - intros Hc. destruct (Hc k (next_object w) e0 Hk) as [e' He]. congruence.
Qed.
Lemma slot_inv d o (w w' : W) : slot d w = Ret (o, w') -> w' = w /\ hwc_display_ (sess w) !! Z.to_nat d = Some o.
Proof.
  unfold slot, get, st_gets. rewrite (st_bind_Ret _ _ w (hwc_display_ (sess w)) w eq_refl). destruct (d <? 0); [done|].
  destruct (_ !! _); [|done]. by intros [= -> ->].
Qed.
Lemma wait_inv d u (w w' : W) : SequenceWaitScopeLock d w = Ret (u, w') -> w' = w.
Proof.
  unfold SequenceWaitScopeLock, get, st_gets. rewrite (st_bind_Ret _ _ w (sequence_wait_ (sess w)) w eq_refl). destruct (d <? 0); [done|].
  destruct (_ !! _) as [x|]; [|done]. destruct (x =? 1); [done|]. by intros [= _ ->].
Qed.
Lemma Disconnect_view st (w w' : W) : DisconnectDisplay HWC_DISPLAY_EXTERNAL w = Ret (st, w') ->
  view w' = (false, first_commit_ (sess w), external_pending_hotplug_ (sess w), told (events w)).
Proof.
  intros H. unfold DisconnectDisplay in H. change (HWC_DISPLAY_EXTERNAL =? HWC_DISPLAY_EXTERNAL) with true in H. cbn [orb] in H.
  st_step H. unfold deref in E0. st_step E0. apply slot_inv in E1 as [-> Hx]. destruct a0 as [p|]; [|done]. injection E0 as -> ->.
  st_step H. unfold Destroy in E0. st_step E0. apply (same_unseen _ (same_alive _)) in E1 as U1. st_step E0. apply (same_unseen _ (keeps_in_e _)) in E2 as U2.
  injection E0 as _ <-. st_step H. injection E0 as _ <-. injection H as <- <-. unfold unseen, view in *. rewrite U1 in U2.
  injection U2 as _ U3 U4 U5. unfold has_external. cbn -[told]. change (Z.to_nat HWC_DISPLAY_EXTERNAL) with 1%nat. rewrite U3, U4, U5.
  destruct (<[1%nat := None]> (hwc_display_ (sess s2)) !! 1%nat) as [o|] eqn:Eo; [|done].
  by apply list_lookup_insert_Some in Eo as [(_ & <- & _)|[]].
Qed.
(** The display was made or destroyed, or all is as before. *)
Lemma hotplug_display_view s c r (w w' : W) : inv w -> hotplug_display s c w = Ret (r, w') ->
  (unseen w w' /\ r <> inr true) \/
  (hdmi_is_primary_ s = false /\ r = inr true /\ view w' = (c, first_commit_ (sess w), external_pending_hotplug_ (sess w), told (events w))).
Proof.
  intros Hi H. unfold hotplug_display in H. destruct (hdmi_is_primary_ s).
  { destruct (negb (null_display_active_ s)); st_step H; [|by st_step H]. apply (same_unseen _ (same_status_on _ _)) in E0. injection H as <- <-. by left. }
  st_step H. apply slot_inv in E0 as [-> _]. destruct a as [p|]; [|injection H as <- <-; left; split; [reflexivity|done]]. destruct c.
  - st_step H. apply slot_inv in E0 as [-> _]. destruct a as [v|].
    { st_step H. injection H as <- <-. injection E0 as _ <-. by left. }
    st_step H. apply Connect_view in E0 as [Hv _]; [|done]. destruct (a =? 0); cbn [negb] in H; injection H as <- <-; [by right|by left].
  - st_step H. apply (same_unseen _ (same_wait _)) in E0 as U0. apply wait_inv in E0 as ->. st_step H. apply slot_inv in E0 as [-> Hx]. st_step H. st_step H.
    injection H as <- <-. injection E1 as _ <-. destruct a0 as [x|]; [|injection E0 as <- <-; by left]. right. st_step E0. injection E0 as <- <-.
    apply Disconnect_view in E1. done.
Qed.
Lemma HotPlug_told c u (w w' : W) : HotPlug HWC_DISPLAY_EXTERNAL c w = Ret (u, w') ->
  view w' = (has_external w, first_commit_ (sess w), external_pending_hotplug_ (sess w), c).
Proof.
  intros H. unfold HotPlug in H. st_step H. unfold CB_Hotplug in E0. st_step E0. injection E1 as <- <-.
  destruct (hotplug_ (callbacks_ (sess w)) =? 0).
  - injection E0 as <- <-. done.
  - st_step E0. injection E0 as <- <-. injection E1 as _ <-. injection H as _ <-. unfold view. cbn -[told]. by rewrite told_app.
Qed.
(** Making or destroying the display is told at once, or kept for the first Present. *)
Lemma hotplug_notify_view s c n st (w w' : W) : hotplug_notify s c n w = Ret (st, w') -> (n = true -> hdmi_is_primary_ s = false) ->
  view w' = (if n then if first_commit_ (sess w) then (has_external w, true, external_pending_hotplug_ (sess w), c) else (has_external w, false, c, told (events w))
             else view w).
Proof.
  intros H Hn. unfold hotplug_notify in H. st_step H. assert (U0 : unseen w s0).
  { match type of E0 with ?m _ = _ => assert (Hk : keeps same m) by keeps_tac end. by apply (same_unseen _ Hk) in E0. }
  st_step H. injection E1 as <- <-. st_step H. unfold unseen in U0. destruct n.
  - rewrite (Hn eq_refl) in E1, H. unfold view in U0. injection U0 as U1 U2 U3 U4. rewrite <- U1, <- U2, <- U3, <- U4.
    cbn [negb andb] in E1. destruct (first_commit_ (sess s0)) eqn:Ef; cbn [negb] in E1.
    + injection E1 as <- <-. st_step H. apply HotPlug_told in E1. st_step H. injection E2 as _ <-. injection H as _ <-.
      unfold view in *. cbn -[told]. rewrite told_app. unfold has_external in *. cbn. by rewrite E1, Ef.
    + st_step E1. injection E2 as _ <-. injection E1 as <- <-. st_step H. injection E1 as _ <-. st_step H. injection E1 as _ <-. injection H as _ <-.
      unfold view, has_external. cbn -[told]. rewrite told_app. by rewrite Ef.
  - cbn [andb] in E1. injection E1 as <- <-. st_step H. injection E1 as _ <-. st_step H. injection E1 as _ <-. injection H as _ <-.
    rewrite <- U0. unfold view, has_external. cbn -[told]. by rewrite told_app.
Qed.
Lemma HotPlugHandler_announced c st (w w' : W) : inv w -> announced w -> HotPlugHandler c w = Ret (st, w') -> announced w'.
Proof.
  intros Hi Ha H. unfold HotPlugHandler in H. st_step H. injection E0 as <- <-. case_match; [by injection H as <- <-|]. st_step H.
  apply hotplug_display_view in E0 as Hd; [|done]. destruct Hd as [[Hu Hr]|(Hp & -> & Hv)].
  - apply (announced_unseen _ _ Hu) in Ha. destruct a as [z|[|]]; [by injection H as <- <-|done|]. apply hotplug_notify_view in H; [|done].
    by apply (announced_unseen s).
  - apply hotplug_notify_view in H; [|done]. unfold view in Hv, H. injection Hv as V1 V2 V3 V4. rewrite V1, V2, V3, V4 in H.
    unfold announced in *. destruct (first_commit_ (sess w)); injection H as -> -> -> ->; naive_solver.
Qed.
Lemma ok_Ret {A} (m : M A) a (w w' : W) : ok ∅ m -> inv w -> m w = Ret (a, w') -> inv w'.
Proof. intros Hm Hi Er. by apply (safe_Ret _ _ _ _ _ (Hm w Hi (empty_subseteq _)) Er). Qed.
Lemma unseen_modify (f : W -> W) : (forall w, view (f w) = view w) -> keeps unseen (st_modify f).
Proof. intros Hf. apply keeps_modify. exact Hf. Qed.
Hint Extern 1 (keeps unseen (on_sess _)) => (apply unseen_modify; done) : keeps.
Hint Extern 3 (keeps unseen _) => (apply same_unseen; solve [eauto 2 with keeps typeclass_instances]) : keeps.
(** A step that the client does not see and that keeps the invariant. *)
Ltac quiet E Hi Ha :=
  match type of E with ?m _ = _ =>
    let Hk := fresh in let Ho := fresh in
    assert (Hk : keeps unseen m) by (unfold SequenceCancelScopeLock, set_sequence; keeps_tac);
    assert (Ho : ok ∅ m) by (unfold SequenceCancelScopeLock; ok_tac);
    apply (ok_Ret _ _ _ _ Ho Hi) in E as Hi'; apply Hk in E; apply (announced_unseen _ _ E) in Ha; clear Hk Ho Hi; rename Hi' into Hi
  end.
(** The connection that was put off. *)
Lemma pending_view (b : bool) n (w w' : W) : inv w ->
  (if b then
     v ← slot HWC_DISPLAY_VIRTUAL;
     match v with
     | None => _ ← ConnectDisplay HWC_DISPLAY_EXTERNAL; _ ← on_sess (fun s => s <| external_pending_connect_ := false |>); mret true
     | Some _ => mret false
     end
   else mret false) w = Ret (n, w') ->
  (n = false /\ unseen w w') \/
  (n = true /\ b = true /\ (creates -> has_external w' = true) /\ first_commit_ (sess w') = first_commit_ (sess w)).
Proof.
  intros Hi H. destruct b; [|injection H as <- <-; left; split; [done|reflexivity]]. st_step H. apply slot_inv in E0 as [-> _].
  destruct a as [v|]; [injection H as <- <-; left; split; [done|reflexivity]|]. st_step H. apply Connect_view in E0 as [Hv Hc]; [|done]. st_step H.
  injection E0 as _ <-. injection H as <- <-. right. unfold view in Hv. injection Hv as V1 V2 _ _. split_and!; [done..| |done].
  intros Hcr. unfold has_external in *. cbn. rewrite V1. by rewrite (Hc Hcr).
Qed.
(** The news that were put off. *)
Lemma first_view (n n' : bool) (w w' : W) :
  (_ ← on_sess (fun s => s <| first_commit_ := true |>);
   h ← get external_pending_hotplug_;
   if (h : bool) then _ ← on_sess (fun s => s <| external_pending_hotplug_ := false |>); mret true else mret n) w = Ret (n', w') ->
  n' = external_pending_hotplug_ (sess w) || n /\ view w' = (has_external w, true, false, told (events w)).
Proof.
  intros H. st_step H. injection E0 as _ <-. st_step H. injection E0 as <- <-. cbn in H. destruct (external_pending_hotplug_ (sess w)) eqn:Ep.
  - st_step H. injection E0 as _ <-. injection H as <- <-. done.
  - injection H as <- <-. split; [done|]. unfold view, has_external. cbn -[told]. by rewrite ?Ep.
Qed.
Lemma Present_announced d o st (w w' : W) : 0 <= d -> inv w -> announced w -> PresentDisplay d o w = Ret (st, w') -> announced w'.
Proof.
  intros Hd Hi Ha H. unfold PresentDisplay, SequenceExitScopeLock in H. destruct (Z.leb_spec HWC_NUM_DISPLAY_TYPES d); [by injection H as <- <-|].
  assert (Hd3 : 0 <= d < 3) by ids. st_step H. quiet E0 Hi Ha. st_step H. apply slot_inv in E1 as [-> Hp]. st_step H.
  assert (Hi1 : inv s0 /\ announced s0).
  { destruct a0 as [p|]; [|injection E1 as <- <-; done]. destruct (status_of_run s p (MPresent o)) as (r & e & Er); [eapply slot_live; [apply Hi|done]|].
    rewrite Er in E1. by injection E1 as <- <-. }
  clear Hi Ha. destruct Hi1 as [Hi Ha]. clear E1 E0 Hp. st_step H. quiet E0 Hi Ha. st_step H. injection E1 as <- <-. st_step H.
  apply pending_view in E1; [|done]. st_step H. st_step H. injection H as _ <-. destruct (Z.eqb_spec d HWC_DISPLAY_PRIMARY) as [Ed|Hne].
  - apply first_view in E2 as [-> Hv]. assert (Hf : view s4 = (has_external s2, true, false, if external_pending_hotplug_ (sess s2) || a3 then true else told (events s2))).
    { destruct (external_pending_hotplug_ (sess s2) || a3); [|by injection E3 as _ <-]. apply HotPlug_told in E3.
      rewrite E3. unfold view in Hv. injection Hv as V1 V2 V3 _. by rewrite V1, V2, V3. }
    unfold view in Hf. injection Hf as F1 F2 F3 F4. unfold announced. rewrite F1, F2, F3, F4. clear F1 F2 F3 F4 E3 Hv E0 Hi.
    destruct E1 as [[-> Hu]|(-> & _ & Hc & _)]; [|rewrite orb_true_r; auto]. unfold unseen, view in Hu. injection Hu as U1 _ U3 U4.
    unfold announced in Ha. rewrite U1, U3, U4, orb_false_r. destruct (first_commit_ (sess s1)); [destruct Ha as (-> & Ha); auto|].
    destruct Ha as [-> ->]. by destruct (has_external s1).
  - injection E2 as <- <-. destruct E1 as [[-> Hu]|(_ & [_ Hb]%andb_prop & _)]; [|done]. injection E3 as _ <-. by apply (announced_unseen s1).
Qed.
(** The virtual display is not the external one. *)
Lemma unseen_slot o : keeps unseen (set_slot HWC_DISPLAY_VIRTUAL o : M unit).
Proof.
  apply unseen_modify. intros w. unfold view, has_external. cbn -[told]. change (Z.to_nat HWC_DISPLAY_VIRTUAL) with 2%nat.
  by rewrite list_lookup_insert_ne.
Qed.
Hint Resolve unseen_slot : keeps.
Hint Extern 1 (keeps unseen (st_modify _)) => (apply unseen_modify; done) : keeps.
Lemma unseen_virtual c : match c with FCreateVirtualDisplay _ _ _ _ | FDestroyVirtualDisplay _ => true | FValidateDisplay d _ _ => true | _ => false end = true ->
  keeps unseen (run c : M unit).
Proof.
  destruct c; try done; intros _; cbn [run]; unfold done_.
  - unfold CreateVirtualDisplay, CreateVirtualDisplayObject, Create, store. keeps_tac.
  - unfold DestroyVirtualDisplay. destruct (Z.eqb_spec d HWC_DISPLAY_VIRTUAL) as [->|]; cbn [negb]; unfold Destroy; keeps_tac.
  - unfold ValidateDisplay, SequenceEntryScopeLock, SequenceCancelScopeLock, set_sequence. keeps_tac.
Qed.
Lemma UEvent_announced l (w w' : W) : inv w -> announced w -> UEventThread l w = Ret (tt, w') -> announced w'.
Proof.
  intros Hi Ha H. unfold UEventThread, UEventHandler in H. st_step H. injection E0 as <- <-. destruct (listener (sess w)); [|by injection H as <-].
  st_step H. assert (s = w) as -> by (unfold st_lift in E0; destruct (Cec.c_string _); [by injection E0|done|done]).
  destruct a as [name rest]. destruct (strcasecmp name HWC_UEVENT_SWITCH_HDMI).
  - st_step H. assert (s = w) as -> by (unfold st_lift in E1; destruct (GetEventValue _ _ _); [by injection E1|done|done]).
    destruct (0 <=? a); [|by injection H as <-]. st_step H. injection H as <-. by apply HotPlugHandler_announced in E2.
  - apply (announced_unseen w); [|done]. match type of H with ?m _ = _ => assert (Hk : keeps unseen m) by keeps_tac end. by apply Hk in H.
Qed.
Lemma run_announced c (w w' : W) : in_type c -> inv w -> announced w -> run c w = Ret (tt, w') -> announced w'.
Proof.
  intros Hv Hi Ha H. destruct (special c) eqn:Hs.
  2: { apply (announced_unseen w); [|done]. by apply (same_unseen _ (same_run c Hs)) in H. }
  destruct c; try done; cbn [in_type] in Hv; try (apply (announced_unseen w); [|done]; by apply unseen_virtual in H).
  - unfold run, done_ in H. st_step H. injection H as <-. by apply Present_announced in E0.
  - by apply (UEvent_announced received w).
Qed.

(** C12: from the first Present of the primary display on, an external display that is held
    was reported to the client as connected, and nothing is left to report; before it,
    nothing was reported and what is to be is whether the display is held.  When the
    creation of external displays does not fail, a display that was last reported as
    connected is held. *)
Theorem hotplug_told (w : W) : reachable w ->
  if first_commit_ (sess w) then
    external_pending_hotplug_ (sess w) = false /\ (has_external w = true -> told (events w) = true) /\
    (creates -> told (events w) = true -> has_external w = true)
  else told (events w) = false /\ external_pending_hotplug_ (sess w) = has_external w.
Proof.
  intros (e & w0 & Hi%Init_started & Hr). change (announced w). assert (H0 : inv w0 /\ announced w0).
  { destruct Hi as (Hi & [p Hp] & _ & Hf & _ & Hh & He). split; [done|]. unfold announced, has_external. by rewrite Hf, Hh, He, Hp. }
  clear Hi. induction Hr as [|w1 w2 w3 (c & Hv & Ec) _ IH]; [apply H0|]. destruct H0 as [Hi Ha]. apply IH. split.
  - by apply (safe_Ret _ _ _ _ _ (last_run c Hv (run_in_range c w1 _ Hi Ec) w1 Hi (empty_subseteq _)) Ec).
  - by apply (run_announced c w1).
Qed.
(** An event of the HDMI switch is handled as a connection or a disconnection by the
    value of its SWITCH_STATE, given anywhere after the header and whatever the other
    strings of the event hold. *)
Lemma uevent_switch (w : W) pre ds post (msg := CecProps.uevent (Cec.bytes HWC_UEVENT_SWITCH_HDMI :: pre ++ (CecProps.KEY ++ ds) :: post)) :
  listener (sess w) = true -> (length msg <= Cec.PAGE_SIZE - 2)%nat ->
  Forall CecProps.plain pre -> Forall (fun s => Cec.strstr s CecProps.KEY = false) pre ->
  Forall (fun c => Cec.is_digit c = true) ds -> 0 <= CecProps.decimal ds <= INT_MAX ->
  UEventThread msg w = (_ ← HotPlugHandler (negb (CecProps.decimal ds =? 0)); mret tt) w.
Proof.
  intros Hl Hn Hpl Hk Hd Hm. unfold UEventThread, UEventHandler, get, st_gets. rewrite (st_bind_Ret _ _ w true w) by (by rewrite Hl).
  set (r := replicate (Cec.PAGE_SIZE - length msg) (Some 0)). assert (Hb : uevent_buffer msg = (Some <$> msg) ++ r) by done.
  assert (Hc : exists r', Cec.c_string (uevent_buffer msg) = Ret (Cec.bytes HWC_UEVENT_SWITCH_HDMI, r')).
  { rewrite Hb. subst msg. rewrite CecProps.uevent_cons, fmap_app, fmap_cons, <- app_assoc. eexists. by apply CecProps.c_string_app, CecProps.header_plain. }
  destruct Hc as [r' Hc]. rewrite (st_bind_Ret _ _ w _ w) by (by rewrite Hc).
  assert (Hs : strcasecmp (Cec.bytes HWC_UEVENT_SWITCH_HDMI) HWC_UEVENT_SWITCH_HDMI = true) by (unfold strcasecmp; by apply bool_decide_eq_true).
  cbv iota beta. rewrite Hs.
  assert (Hv : GetEventValue (uevent_buffer msg) (Z.of_nat (length msg)) "SWITCH_STATE=" = Ret (CecProps.decimal ds)).
  { rewrite Hb. unfold GetEventValue, Cec.get_event_value, msg.
    apply (CecProps.value_loop_found CecProps.KEY ds post r CecProps.key_plain Hd Hm (Cec.bytes HWC_UEVENT_SWITCH_HDMI :: pre)).
    - constructor; [exact CecProps.header_plain|done].
    - constructor; [exact CecProps.header_no_key|done].
    - rewrite length_app, length_fmap. fold msg.
      pose proof (CecProps.uevent_count (Cec.bytes HWC_UEVENT_SWITCH_HDMI :: pre ++ (CecProps.KEY ++ ds) :: post)) as Hu. fold msg in Hu.
      simpl in Hu. rewrite length_app in Hu. simpl in *. lia.
    - cbn [app]. lia. }
  rewrite (st_bind_Ret _ _ w _ w) by (by rewrite Hv). by destruct (Z.leb_spec 0 (CecProps.decimal ds)); [|lia].
Qed.
End Props.

(** * A small environment *)
Module SessionSample.
(** Every call succeeds, but for creations of external displays, which succeed when the
    state says so; an unplugged HDMI is the first display when the state says so. *)
Record Sample := mkSample { external_works : bool; hdmi_first : bool }.
Definition just {A} (a : A) : St Sample A := mret a.
#[global] Instance sample_env : SessionEnv Sample := {|
  HAL_COLOR_MODE_NATIVE_ := 0; HAL_COLOR_MODE_DISPLAY_P3_ := 9; HAL_COLOR_TRANSFORM_IDENTITY_ := 0; HAL_COLOR_TRANSFORM_CORRECT_TRITANOPIA_ := 6;
  SET_METADATA_DYN_REFRESH_RATE_ := 0; SET_BINDER_DYN_REFRESH_RATE_ := 1; SET_DISPLAY_MODE_ := 2;
  SE_InitDone := just true; SE_getService := just true; SE_registerAsService := just tt; SE_AllocatorInit := just 0; SE_AllocatorDeinit := just tt;
  SE_CreateCore := just 0; SE_DestroyCore := just 0; SE_FirstDisplay := st_gets (fun s => (0, hdmi_first s, false));
  SE_IsColorTransformSupported := just true; SE_SetMaxBandwidthMode _ := just 0; SE_disable_skip_validate := just None; SE_max_virtual := just 1;
  SE_DPTestConfig := just (0, 0); SE_CreateColorManager := just true; SE_DestroyColorManager := just tt; SE_color _ _ := just 0;
  SE_payload _ := just (0, 0, []); SE_sync_wait _ := just 0; SE_WaitFinite _ := just 0; SE_property _ := just (0, 0);
  SE_Create k _ := st_gets (fun s => if external_kind k && negb (external_works s) then -1 else 0);
  SE_Destroy _ := just tt; SE_call _ _ := just (0, []); SE_layer _ _ _ := just (Some ENone)
|}.
#[global] Instance sample_laws : SessionLaws Sample.
Proof. constructor; intros; intros s; eexists _, _; done. Qed.
Definition boot (e : Sample) : outcome (Z * World Sample) := Init (mkSWorld new_HWCSession ∅ 1 [] e).
Fixpoint runs (l : list Call) (w : World Sample) : outcome (World Sample) :=
  match l with [] => Ret w | c :: l => '(_, w) ← run c w; runs l w end.
Definition from (o : outcome (World Sample)) : World Sample := match o with Ret w => w | _ => mkSWorld new_HWCSession ∅ 1 [] (mkSample true true) end.
Lemma runs_steps l : Forall in_type l -> forall w w', runs l w = Ret w' -> rtc step w w'.
Proof.
  induction 1 as [|c l Hc Hl IH]; intros w w' Er; [by injection Er as <-|]. cbn [runs] in Er. destruct (run c w) as [[[] w1]| |] eqn:E1; [|done..].
  cbn in Er. eapply rtc_l; [by exists c|]. by apply IH.
Qed.
End SessionSample.
Import SessionSample.

(** The first frame, then HDMI is plugged in. *)
Definition plugged (n : string) : list Z := CecProps.uevent [Cec.bytes HWC_UEVENT_SWITCH_HDMI; Cec.bytes "ACTION=change"; CecProps.KEY ++ Cec.bytes n].
Definition up (works : bool) : World Sample := match boot (mkSample works false) with Ret (_, w) => w | _ => from Undef end.
Definition frame1 : list Call := [FRegisterCallback HWC2_CALLBACK_HOTPLUG 1 1; FValidateDisplay 0 1 1; FPresentDisplay 0 1].
Definition shown : World Sample := from (runs frame1 (up true)).
Definition connected : World Sample := from (runs [KUEvent (plugged "1")] shown).
Lemma boot_run b : boot (mkSample b false) = Ret (0, up b).
Proof. destruct b; vm_compute; reflexivity. Qed.
Lemma first_frame_run : runs frame1 (up true) = Ret shown.
Proof. vm_compute. reflexivity. Qed.
Lemma plugged_valid n : n = "1"%string \/ n = "0"%string -> in_type (KUEvent (plugged n)).
Proof.
  intros Hn. cbn [in_type]. split; [apply Nat.leb_le; destruct Hn as [-> | ->]; vm_compute; reflexivity|].
  repeat constructor; intros Hu; destruct Hn as [-> | ->]; vm_compute in Hu; discriminate Hu.
Qed.
Lemma connected_run : runs [KUEvent (plugged "1")] shown = Ret connected.
Proof. vm_compute. reflexivity. Qed.
Lemma shown_reachable : reachable shown.
Proof. exists (mkSample true false), (up true). split; [exact (boot_run true)|]. apply (runs_steps frame1); [|exact first_frame_run]. repeat constructor; discriminate. Qed.
Lemma connected_reachable : reachable connected.
Proof.
  destruct shown_reachable as (e & w0 & Hi & Hr). exists e, w0. split; [exact Hi|]. etransitivity; [exact Hr|].
  apply (runs_steps [KUEvent (plugged "1")]); [|exact connected_run]. constructor; [|constructor]. apply plugged_valid. by left.
Qed.
Lemma connected_first : first_commit_ (sess connected) = true.
Proof. vm_compute. reflexivity. Qed.
Lemma hotplug_told_witness : has_external connected = true /\ told (events connected) = true /\ external_pending_hotplug_ (sess connected) = false.
Proof.
  pose proof (hotplug_told connected connected_reachable) as H. rewrite connected_first in H. destruct H as (H1 & H2 & _).
  assert (Hx : has_external connected = true) by (vm_compute; reflexivity). split; [exact Hx|]. split; [exact (H2 Hx)|exact H1].
Defined.
Lemma session_safe_witness : run (FPresentDisplay 1 1) connected <> Undef /\ run (FValidateDisplay 3 1 1) connected = Undef.
Proof.
  split.
  - intros Hu. apply (session_safe connected (FPresentDisplay 1 1) connected_reachable) in Hu as (d & [=] & _). vm_compute. discriminate.
  - apply (session_safe connected (FValidateDisplay 3 1 1) connected_reachable); [vm_compute; discriminate|]. exists 3. split; [reflexivity|].
    vm_compute. discriminate.
Defined.
Definition validated_0 : World Sample := from (runs [FValidateDisplay 0 1 1] connected).
Lemma frame_sequence_witness : ValidateDisplay 0 1 1 connected = Ret (0, validated_0) /\
  sequence_wait_ (sess validated_0) = <[0%nat := 1]> (sequence_wait_ (sess connected)).
Proof.
  assert (E : ValidateDisplay 0 1 1 connected = Ret (0, validated_0)) by (vm_compute; reflexivity). split; [exact E|].
  destruct (frame_sequence connected 0 connected_reachable) as (_ & H & _); [vm_compute; split; [discriminate|reflexivity]|].
  exact (H 1 1 0 validated_0 E).
Defined.
Lemma uevent_switch_witness : UEventThread (plugged "1") shown = (_ ← HotPlugHandler true; mret tt) shown.
Proof.
  apply (uevent_switch shown [Cec.bytes "ACTION=change"] (Cec.bytes "1") []).
  - vm_compute. reflexivity.
  - apply Nat.leb_le. vm_compute. reflexivity.
  - constructor; [|constructor]. apply CecProps.plain_check; [vm_compute; reflexivity|done].
  - constructor; [vm_compute; reflexivity|constructor].
  - repeat constructor.
  - vm_compute. split; discriminate.
Defined.

(** A service that is called between Validate and Present does not return before Present. *)
Lemma service_waits : run (SSetPanelBrightness 10) validated_0 = NoFuel.
Proof. vm_compute. reflexivity. Qed.
(** A connection that was put off for a virtual display and then fails is reported all the
    same: the client is told of a display that is not held. *)
Lemma failed_connection_told :
  let w := from (runs (frame1 ++ [FCreateVirtualDisplay 64 64 1 1; KUEvent (plugged "1"); FDestroyVirtualDisplay 2; FPresentDisplay 0 1]) (up false)) in
  first_commit_ (sess w) = true /\ told (events w) = true /\ has_external w = false.
Proof. vm_compute. auto. Qed.
(** Functions that do not check the identifier of their display. *)
Lemma unchecked_ids : run (FValidateDisplay 3 1 1) connected = Undef /\ run (FSetLayerPlaneAlpha 3 0 Float32.f_zero) connected = Undef /\
  run (SIsHDRSupported 3) connected = Undef.
Proof. vm_compute. auto. Qed.
(** Closing the session destroys the primary display only. *)
Lemma close_leaves_displays : match Deinit connected with Ret (_, w) => hwc_display_ (sess w) = [None; Some 2; None] /\ live w = {[2]} | _ => False end.
Proof. vm_compute. auto. Qed.
(** HDMI is the first display and comes late: the dummy is destroyed and the process ends. *)
Lemma late_hdmi_aborts : match boot (mkSample true true) with
  | Ret (0, w) => null_display_active_ (sess w) = true /\ run (KUEvent (plugged "1")) w = NoFuel
  | _ => False
  end.
Proof. vm_compute. auto. Qed.
End SessionProps.
