(* ===== verification/FbScale.v ===== *)
(** The scaling data of the frame buffer driver: src/hardware/qcom-caf/display/sdm/libs/core/fb/hw_scale.cpp
    with the structures of sdm/include/private/hw_info_types.h.  The constants of the
    kernel's headers are the class [Mdp].  An array of one field per plane is the list of
    the planes. *)
From S2P Require Import Prelude Rect ResourceDefault Strategy HwcLayer.
#[local] Open Scope Z_scope.

Module FbScale.

Definition MAX_PLANES : nat := 4.
Definition kMaxSDELayers : nat := 16.

(** ** The kernel's constants *)
Class Mdp := {
  MDP_LAYER_ENABLE_PIXEL_EXT : Z; MDP_LAYER_ENABLE_QSEED3_SCALE : Z; MDP_LAYER_FLIP_UD : Z; MDP_LAYER_FLIP_LR : Z;
  MDP_LAYER_DEINTERLACE : Z; MDP_LAYER_SECURE_CAMERA_SESSION : Z; MDP_LAYER_SECURE_SESSION : Z; MDP_LAYER_SECURE_DISPLAY_SESSION : Z;
  MDP_LAYER_SOLID_FILL : Z; MDP_LAYER_ASYNC : Z; MDP_LAYER_PP : Z; MDP_LAYER_MULTIRECT_ENABLE : Z; MDP_LAYER_MULTIRECT_PARALLEL_MODE : Z;
  MDP_VALIDATE_LAYER : Z; MDP_COMMIT_WAIT_FOR_FINISH : Z; MDP_COMMIT_PARTIAL_UPDATE_DUAL_ROI : Z; MDP_COMMIT_CWB_EN : Z;
  MDP_COMMIT_CWB_DSPP : Z; MDP_COMMIT_AVR_EN : Z; MDP_COMMIT_AVR_ONE_SHOT_MODE : Z;
  (* none when the header does not have it *)
  MDP_COMMIT_RECT_NUM : option Z; MDP_DESTSCALER_ROI_ENABLE : option Z; out_layer_color_space : bool; csc_2020 : bool;
  MDP_DESTSCALER_ENABLE : Z; MDP_DESTSCALER_SCALE_UPDATE : Z; MDP_DESTSCALER_ENHANCER_UPDATE : Z;
  ENABLE_SCALE : Z; ENABLE_DIRECTION_DETECTION : Z; ENABLE_DETAIL_ENHANCE : Z;
  SCALER_LUT_SWAP : Z; SCALER_LUT_DIR_WR : Z; SCALER_LUT_Y_CIR_WR : Z; SCALER_LUT_UV_CIR_WR : Z; SCALER_LUT_Y_SEP_WR : Z; SCALER_LUT_UV_SEP_WR : Z;
  FILTER_EDGE_DIRECTED_2D : Z; FILTER_CIRCULAR_2D : Z; FILTER_SEPARABLE_1D : Z; FILTER_BILINEAR : Z;
  FILTER_ALPHA_DROP_REPEAT : Z; FILTER_ALPHA_BILINEAR : Z;
  MAX_DET_CURVES : nat;
  (* the build of the board *)
  video_mode_defer_retire_fence : bool
}.

(** ** What the resource manager asks for *)
Record HWPixelExtension := mkExt { extension : Z; overfetch : Z; repeat_px : Z }.
Record HWPlane := mkPlane {
  init_phase_x : Z; phase_step_x : Z; init_phase_y : Z; phase_step_y : Z;
  ext_left : HWPixelExtension; ext_top : HWPixelExtension; ext_right : HWPixelExtension; ext_bottom : HWPixelExtension;
  roi_width : Z; preload_x : Z; preload_y : Z; src_width : Z; src_height : Z
}.
Record HWDetailEnhanceData := mkDetail {
  de_enable : Z; sharpen_level1 : Z; sharpen_level2 : Z; clip : Z; limit : Z; thr_quiet : Z; thr_dieout : Z; thr_low : Z; thr_high : Z;
  prec_shift : Z; adjust_a : list Z; adjust_b : list Z; adjust_c : list Z
}.
Inductive ScalingFilterConfig := kFilterEdgeDirected | kFilterCircular | kFilterSeparable | kFilterBilinear | kFilterMax.
Inductive HWAlphaInterpolation := kInterpolationPixelRepeat | kInterpolationBilinear | kInterpolationMax.
Record LutFlags := mkLut { lut_swap : Z; lut_dir_wr : Z; lut_y_cir_wr : Z; lut_uv_cir_wr : Z; lut_y_sep_wr : Z; lut_uv_sep_wr : Z }.
Record HWScaleData := mkScaleData {
  sd_scale : Z; sd_direction_detection : Z; sd_detail_enhance : Z;  (* enable *)
  dst_width : Z; dst_height : Z; plane : list HWPlane;
  y_rgb_filter_cfg : ScalingFilterConfig; uv_filter_cfg : ScalingFilterConfig; alpha_filter_cfg : HWAlphaInterpolation; blend_cfg : Z;
  lut_flag : LutFlags; lut_idx : list Z;  (* dir, y_rgb_cir, uv_cir, y_rgb_sep, uv_sep *)
  detail_enhance : HWDetailEnhanceData
}.
Definition HWPixelExtension0 : HWPixelExtension := mkExt 0 0 0.
Definition HWPlane0 : HWPlane :=
  mkPlane 0 0 0 0 HWPixelExtension0 HWPixelExtension0 HWPixelExtension0 HWPixelExtension0 0 0 0 0 0.
Definition HWDetailEnhanceData0 : HWDetailEnhanceData := mkDetail 0 0 0 0 0 0 0 0 0 0 [0; 0; 0] [0; 0; 0] [0; 0; 0].
Definition HWScaleData0 : HWScaleData :=
  mkScaleData 0 0 0 0 0 (replicate MAX_PLANES HWPlane0) kFilterEdgeDirected kFilterEdgeDirected kInterpolationPixelRepeat 0
    (mkLut 0 0 0 0 0 0) [0; 0; 0; 0; 0] HWDetailEnhanceData0.
Inductive HWSubBlockType :=
  kHWVIGPipe | kHWRGBPipe | kHWDMAPipe | kHWCursorPipe | kHWRotatorInput | kHWRotatorOutput | kHWWBIntfOutput | kHWDestinationScalar | kHWSubBlockMax.
#[global] Instance HWSubBlockType_eq_dec : EqDecision HWSubBlockType.
Proof. solve_decision. Defined.

(** ** What the driver is given *)

(** A plane of either version; the last four are of the second one. *)
Record MdpPlane := mkMdpPlane {
  m_init_phase_x : Z; m_phase_step_x : Z; m_init_phase_y : Z; m_phase_step_y : Z;
  num_ext_pxls_left : Z; left_ftch : Z; left_rpt : Z; num_ext_pxls_top : Z; top_ftch : Z; top_rpt : Z;
  num_ext_pxls_right : Z; right_ftch : Z; right_rpt : Z; num_ext_pxls_btm : Z; btm_ftch : Z; btm_rpt : Z; roi_w : Z;
  m_preload_x : Z; m_preload_y : Z; m_src_width : Z; m_src_height : Z
}.
Record ScaleV1 := mkScaleV1 { enable_pxl_ext : Z; planes_v1 : list MdpPlane }.
Record ScaleV2 := mkScaleV2 {
  v2_enable : Z; planes_v2 : list MdpPlane; v2_dst_width : Z; v2_dst_height : Z; v2_y_rgb_filter_cfg : Z; v2_uv_filter_cfg : Z;
  v2_alpha_filter_cfg : Z; v2_blend_cfg : Z; v2_lut_flag : Z; v2_lut_idx : list Z; v2_detail_enhance : HWDetailEnhanceData
}.
Definition MdpPlane0 : MdpPlane := mkMdpPlane 0 0 0 0 0 0 0 0 0 0 0 0 0 0 0 0 0 0 0 0 0.
Definition ScaleV1_0 : ScaleV1 := mkScaleV1 0 (replicate MAX_PLANES MdpPlane0).

Section Scale.
Context `{!Mdp}.
Definition detail0 : HWDetailEnhanceData :=
  mkDetail 0 0 0 0 0 0 0 0 0 0 (replicate MAX_DET_CURVES 0) (replicate MAX_DET_CURVES 0) (replicate MAX_DET_CURVES 0).
Definition ScaleV2_0 : ScaleV2 := mkScaleV2 0 (replicate MAX_PLANES MdpPlane0) 0 0 0 0 0 0 0 [0; 0; 0; 0; 0] detail0.
Definition plane_v1 (p : HWPlane) : MdpPlane :=
  mkMdpPlane (init_phase_x p) (phase_step_x p) (init_phase_y p) (phase_step_y p)
    (extension (ext_left p)) (overfetch (ext_left p)) (repeat_px (ext_left p))
    (extension (ext_top p)) (overfetch (ext_top p)) (repeat_px (ext_top p))
    (extension (ext_right p)) (overfetch (ext_right p)) (repeat_px (ext_right p))
    (extension (ext_bottom p)) (overfetch (ext_bottom p)) (repeat_px (ext_bottom p))
    (roi_width p) 0 0 0 0.
Definition plane_v2 (p : HWPlane) : MdpPlane :=
  mkMdpPlane (init_phase_x p) (phase_step_x p) (init_phase_y p) (phase_step_y p)
    (u32 (extension (ext_left p))) (overfetch (ext_left p)) (repeat_px (ext_left p))
    (u32 (extension (ext_top p))) (u32 (overfetch (ext_top p))) (u32 (repeat_px (ext_top p)))
    (u32 (extension (ext_right p))) (overfetch (ext_right p)) (repeat_px (ext_right p))
    (u32 (extension (ext_bottom p))) (u32 (overfetch (ext_bottom p))) (u32 (repeat_px (ext_bottom p)))
    (roi_width p) (u32 (preload_x p)) (u32 (preload_y p)) (src_width p) (src_height p).
Definition GetMDPScalingFilter (f : ScalingFilterConfig) : Z :=
  match f with
  | kFilterEdgeDirected => FILTER_EDGE_DIRECTED_2D
  | kFilterCircular => FILTER_CIRCULAR_2D
  | kFilterSeparable => FILTER_SEPARABLE_1D
  | kFilterBilinear => FILTER_BILINEAR
  | kFilterMax => 4
  end.
Definition GetMDPAlphaInterpolation (a : HWAlphaInterpolation) : Z :=
  match a with
  | kInterpolationPixelRepeat => FILTER_ALPHA_DROP_REPEAT
  | kInterpolationBilinear => FILTER_ALPHA_BILINEAR
  | kInterpolationMax => 2
  end.
Definition flag (x f : Z) : Z := if x =? 0 then 0 else f.
(** The arrays of the curves are as long as the driver's, or the copy leaves them. *)
Definition copy_curve (l : list Z) : outcome (list Z) := if (MAX_DET_CURVES <=? length l)%nat then Ret (take MAX_DET_CURVES l) else Undef.
Definition copy_detail (d : HWDetailEnhanceData) : outcome HWDetailEnhanceData :=
  a ← copy_curve (adjust_a d); b ← copy_curve (adjust_b d); c ← copy_curve (adjust_c d);
  mret (mkDetail (de_enable d) (sharpen_level1 d) (sharpen_level2 d) (clip d) (limit d) (thr_quiet d) (thr_dieout d) (thr_low d)
    (thr_high d) (prec_shift d) a b c).
Definition enables (s : HWScaleData) : Z :=
  Z.lor (Z.lor (flag (sd_scale s) ENABLE_SCALE) (flag (sd_direction_detection s) ENABLE_DIRECTION_DETECTION))
    (flag (sd_detail_enhance s) ENABLE_DETAIL_ENHANCE).
Definition lut_flags (l : LutFlags) : Z :=
  Z.lor (Z.lor (Z.lor (Z.lor (Z.lor (flag (lut_swap l) SCALER_LUT_SWAP) (flag (lut_dir_wr l) SCALER_LUT_DIR_WR))
    (flag (lut_y_cir_wr l) SCALER_LUT_Y_CIR_WR)) (flag (lut_uv_cir_wr l) SCALER_LUT_UV_CIR_WR))
    (flag (lut_y_sep_wr l) SCALER_LUT_Y_SEP_WR)) (flag (lut_uv_sep_wr l) SCALER_LUT_UV_SEP_WR).
(** The new contents of the entry [old]. *)
Definition scale_v1 (s : HWScaleData) (old : ScaleV1) : ScaleV1 := mkScaleV1 (sd_scale s) (plane_v1 <$> plane s).
Definition scale_v2 (s : HWScaleData) (old : ScaleV2) : outcome ScaleV2 :=
  let e := enables s in
  d ← (if negb (Z.land e ENABLE_DETAIL_ENHANCE =? 0) then copy_detail (detail_enhance s) else Ret (v2_detail_enhance old));
  mret (mkScaleV2 e (plane_v2 <$> plane s) (dst_width s) (dst_height s) (GetMDPScalingFilter (y_rgb_filter_cfg s))
    (GetMDPScalingFilter (uv_filter_cfg s)) (GetMDPAlphaInterpolation (alpha_filter_cfg s)) (blend_cfg s) (lut_flags (lut_flag s))
    (lut_idx s) d).
End Scale.

(** HWScaleV1 and HWScaleV2. *)
Inductive HWScale :=
| HWScaleV1 (scale_data_v1_ : list ScaleV1)
| HWScaleV2 (scale_data_v2_ : list ScaleV2) (dest_scale_data_v2_ : list (Z * ScaleV2)).
Definition ResetScaleParams `{!Mdp} (s : HWScale) : HWScale :=
  match s with
  | HWScaleV1 _ => HWScaleV1 (replicate (kMaxSDELayers * 2) ScaleV1_0)
  | HWScaleV2 _ _ => HWScaleV2 (replicate (kMaxSDELayers * 2) ScaleV2_0) []
  end.
Definition HWScale_Create `{!Mdp} (has_qseed3 : bool) : HWScale := ResetScaleParams (if has_qseed3 then HWScaleV2 [] [] else HWScaleV1 []).
End FbScale.
