(* ===== verification/FbPanel.v ===== *)
(** What the frame buffer device reads from sysfs: the description of a panel and the
    choice of a node, of src/hardware/qcom-caf/display/sdm/libs/core/fb/hw_device.cpp.

    A file that is read by lines is the list of its lines; a line is the list of its
    characters.  A token that is not there is a null pointer. *)
From stdpp Require Import pretty.
From S2P Require Import Prelude Rect ResourceDefault Strategy Cec.
#[local] Open Scope Z_scope.

Module FbPanel.
Abbreviation text := (list Z).

(** Files of sysfs: the lines of one, none when it cannot be opened, and the calls on
    descriptors.  A read gives the bytes, none when it fails. *)
Class Sysfs (V : Type) := {
  sy_lines : string -> St V (option (list text));
  sy_access : string -> St V Z;
  sy_open : string -> St V Z;
  sy_pread : Z -> nat -> St V (option text);
  sy_pwrite : Z -> text -> St V Z;
  sy_close : Z -> St V unit;
  (* bits of the orientation in the kernel's header *)
  MDP_FLIP_LR : Z; MDP_FLIP_UD : Z; MDP_ROT_90 : Z
}.

Inductive HWDeviceType := kDevicePrimary | kDeviceHDMI | kDeviceVirtual | kDeviceRotator | kDeviceMax.
#[global] Instance HWDeviceType_eq_dec : EqDecision HWDeviceType.
Proof. solve_decision. Defined.
Inductive DisplayPort := kPortDefault | kPortDSI | kPortDTV | kPortWriteBack | kPortLVDS | kPortEDP | kPortDP.
#[global] Instance DisplayPort_eq_dec : EqDecision DisplayPort.
Proof. solve_decision. Defined.
Record HWPanelInfo := mkPanelInfo {
  port : DisplayPort; mode : Strategy.HWDisplayMode; partial_update : bool; left_align : Z; width_align : Z; top_align : Z; height_align : Z;
  min_roi_width : Z; min_roi_height : Z; needs_roi_merge : bool; dynamic_fps : bool; dfps_porch_mode : bool; ping_pong_split : bool;
  min_fps : Z; max_fps : Z; is_primary_panel : bool; is_pluggable : bool; left_split : Z; right_split : Z; panel_name : text;
  panel_max_brightness : Z; left_roi_count : Z; right_roi_count : Z; hdr_enabled : bool; peak_luminance : Z; average_luminance : Z;
  blackness_level : Z; primaries : list Z; (* white, red, green, blue: x and y *)
  flip_horizontal : bool; flip_vertical : bool; rotated : bool; bitclk_update : bool; bitclk_rates : list Z
}.
#[global] Instance eta_panel_info : Eta HWPanelInfo := fun p =>
  mkPanelInfo (port p) (mode p) (partial_update p) (left_align p) (width_align p) (top_align p) (height_align p) (min_roi_width p)
    (min_roi_height p) (needs_roi_merge p) (dynamic_fps p) (dfps_porch_mode p) (ping_pong_split p) (min_fps p) (max_fps p)
    (is_primary_panel p) (is_pluggable p) (left_split p) (right_split p) (panel_name p) (panel_max_brightness p) (left_roi_count p)
    (right_roi_count p) (hdr_enabled p) (peak_luminance p) (average_luminance p) (blackness_level p) (primaries p) (flip_horizontal p)
    (flip_vertical p) (rotated p) (bitclk_update p) (bitclk_rates p).
Definition HWPanelInfo0 : HWPanelInfo :=
  mkPanelInfo kPortDefault Strategy.kModeDefault false 1 1 1 1 1 1 false false false false 0 0 false false 0 0 [] 0 1 1 false 0 0 0
    (replicate 8 0) false false false false [].

(** ** Lines and tokens *)
Definition kMaxStringLength : nat := 1024.
Definition kFBNodeMax : nat := 4.
Definition fb_path_ : string := "/sys/devices/virtual/graphics/fb".
Definition node_path (node : Z) (file : string) : string := fb_path_ +:+ pretty node +:+ "/" +:+ file.
(** The C string in a std::string. *)
Fixpoint c_str (l : text) : text := match l with c :: l => if c =? 0 then [] else c :: c_str l | [] => [] end.
(** strtok_r from one token to the next. *)
Definition emit (cur : text) : list text := match cur with [] => [] | _ => [rev cur] end.
Fixpoint strtok (delim : text) (cur s : text) : list text :=
  match s with
  | [] => emit cur
  | c :: s => if decide (c ∈ delim) then emit cur ++ strtok delim [] s else strtok delim (c :: cur) s
  end.
Definition ParseLine (delim : text) (max_token : nat) (line : text) : list text := take max_token (strtok delim [] (c_str line)).
Definition DELIM : text := Cec.bytes ", =" ++ [10].
Definition NAME_DELIM : text := Cec.bytes "=" ++ [10].
Definition CLK_DELIM : text := Cec.bytes "," ++ [10].
(** atoi of a token, which ends with its NUL. *)
Definition atoi (t : text) : outcome Z := Cec.atoi ((Some <$> t) ++ [Some 0]).
Definition token (l : list text) (i : nat) : outcome text := match l !! i with Some t => Ret t | None => Undef end.
Definition number (l : list text) (i : nat) : outcome Z := t ← token l i; atoi t.
(** strncmp with the length of the name. *)
Definition named (name : string) (t : text) : bool := Cec.has_prefix (Cec.bytes name) t.

(** ** The description of a panel *)
Definition nz (x : Z) : bool := negb (x =? 0).
Section Panel.
Context {V : Type} `{!Sysfs V}.
Abbreviation M := (St V).

(** The branches of GetHWPanelInfoByNode in their order. *)
Definition fld (name : string) (f : Z -> HWPanelInfo -> HWPanelInfo) := (name, f).
Definition fields : list (string * (Z -> HWPanelInfo -> HWPanelInfo)) := [
  fld "pu_en" (fun x p => p <| partial_update := nz x |>);
  fld "xstart" (fun x p => p <| left_align := x |>);
  fld "walign" (fun x p => p <| width_align := x |>);
  fld "ystart" (fun x p => p <| top_align := x |>);
  fld "halign" (fun x p => p <| height_align := x |>);
  fld "min_w" (fun x p => p <| min_roi_width := x |>);
  fld "min_h" (fun x p => p <| min_roi_height := x |>);
  fld "roi_merge" (fun x p => p <| needs_roi_merge := nz x |>);
  fld "dyn_fps_en" (fun x p => p <| dynamic_fps := nz x |>);
  fld "dfps_porch_mode" (fun x p => p <| dfps_porch_mode := nz x |>);
  fld "is_pingpong_split" (fun x p => p <| ping_pong_split := nz x |>);
  fld "min_fps" (fun x p => p <| min_fps := u32 x |>);
  fld "max_fps" (fun x p => p <| max_fps := u32 x |>);
  fld "primary_panel" (fun x p => p <| is_primary_panel := nz x |>);
  fld "is_pluggable" (fun x p => p <| is_pluggable := nz x |>);
  fld "pu_roi_cnt" (fun x p => p <| left_roi_count := u32 x |> <| right_roi_count := u32 x |>);
  fld "is_hdr_enabled" (fun x p => p <| hdr_enabled := nz x |>);
  fld "peak_brightness" (fun x p => p <| peak_luminance := u32 x |>);
  fld "average_brightness" (fun x p => p <| average_luminance := u32 x |>);
  fld "blackness_level" (fun x p => p <| blackness_level := u32 x |>);
  fld "white_chromaticity_x" (fun x p => p <| primaries ::= <[0%nat := u32 x]> |>);
  fld "white_chromaticity_y" (fun x p => p <| primaries ::= <[1%nat := u32 x]> |>);
  fld "red_chromaticity_x" (fun x p => p <| primaries ::= <[2%nat := u32 x]> |>);
  fld "red_chromaticity_y" (fun x p => p <| primaries ::= <[3%nat := u32 x]> |>);
  fld "green_chromaticity_x" (fun x p => p <| primaries ::= <[4%nat := u32 x]> |>);
  fld "green_chromaticity_y" (fun x p => p <| primaries ::= <[5%nat := u32 x]> |>);
  fld "blue_chromaticity_x" (fun x p => p <| primaries ::= <[6%nat := u32 x]> |>);
  fld "blue_chromaticity_y" (fun x p => p <| primaries ::= <[7%nat := u32 x]> |>);
  fld "panel_orientation" (fun x p => p <| flip_horizontal := (0 <? Z.land x MDP_FLIP_LR) |> <| flip_vertical := (0 <? Z.land x MDP_FLIP_UD) |>
                                     <| rotated := (0 <? Z.land x MDP_ROT_90) |>);
  fld "dyn_bitclk_en" (fun x p => p <| bitclk_update := nz x |>)].
(** The first branch whose name the token begins with. *)
Fixpoint find_field (l : list (string * (Z -> HWPanelInfo -> HWPanelInfo))) (t : text) : option (Z -> HWPanelInfo -> HWPanelInfo) :=
  match l with [] => None | (name, f) :: l => if named name t then Some f else find_field l t end.
(** One line: the first token is compared and the second read without a check. *)
Definition panel_line (line : text) (p : HWPanelInfo) : outcome HWPanelInfo :=
  let tokens := ParseLine DELIM 10 line in
  t ← token tokens 0;
  match find_field fields t with None => Ret p | Some f => x ← number tokens 1; Ret (f x p) end.
Fixpoint panel_lines (l : list text) (p : HWPanelInfo) : outcome HWPanelInfo :=
  match l with [] => Ret p | line :: l => p ← panel_line line p; panel_lines l p end.

Definition port_and_mode (line : text) : DisplayPort * Strategy.HWDisplayMode :=
  let s := c_str line in
  if named "mipi dsi cmd panel" s then (kPortDSI, Strategy.kModeCommand)
  else if named "mipi dsi video panel" s then (kPortDSI, Strategy.kModeVideo)
  else if named "lvds panel" s then (kPortLVDS, Strategy.kModeVideo)
  else if named "edp panel" s then (kPortEDP, Strategy.kModeVideo)
  else if named "dtv panel" s then (kPortDTV, Strategy.kModeVideo)
  else if named "writeback panel" s then (kPortWriteBack, Strategy.kModeCommand)
  else if named "dp panel" s then (kPortDP, Strategy.kModeVideo)
  else (kPortDefault, Strategy.kModeDefault).
Definition GetHWDisplayPortAndMode (node : Z) (p : HWPanelInfo) : M HWPanelInfo :=
  r ← sy_lines (node_path node "msm_fb_type");
  let '(po, mo) := match r with Some (line :: _) => port_and_mode line | _ => (kPortDefault, Strategy.kModeDefault) end in
  mret (p <| port := po |> <| mode := mo |>).
Definition GetSplitInfo (node : Z) (p : HWPanelInfo) : M HWPanelInfo :=
  r ← sy_lines (node_path node "msm_fb_split");
  match r with
  | Some (line :: _) =>
      let tokens := ParseLine DELIM 10 line in
      a ← st_lift (number tokens 0); b ← st_lift (number tokens 1);
      mret (p <| left_split := u32 a |> <| right_split := u32 b |>)
  | _ => mret p
  end.
(** The first line whose key begins with the name; 255 characters are kept. *)
Fixpoint name_lines (l : list text) (p : HWPanelInfo) : outcome HWPanelInfo :=
  match l with
  | [] => Ret p
  | line :: l =>
      let tokens := ParseLine NAME_DELIM 10 line in
      t ← token tokens 0;
      if named "panel_name" t then v ← token tokens 1; Ret (p <| panel_name := take 255 v |>) else name_lines l p
  end.
Definition GetHWPanelNameByNode (node : Z) (p : HWPanelInfo) : M HWPanelInfo :=
  r ← sy_lines (node_path node "msm_fb_panel_info");
  match r with Some l => st_lift (name_lines l p) | None => mret p end.
(** What was read in a buffer of [n] zeros. *)
Definition buffer (n : nat) (l : text) : Cec.Buf := (Some <$> l) ++ replicate (n - length l) (Some 0).
Definition GetHWPanelMaxBrightnessFromNode (p : HWPanelInfo) : M HWPanelInfo :=
  let p := p <| panel_max_brightness := 0 |> in
  fd ← sy_open "/sys/class/leds/lcd-backlight/max_brightness";
  if fd <? 0 then mret p
  else
    r ← sy_pread fd kMaxStringLength;
    p ← (match r with
         | Some (c :: l) => x ← st_lift (Cec.atoi (buffer kMaxStringLength (c :: l))); mret (p <| panel_max_brightness := x |>)
         | _ => mret p
         end);
    _ ← sy_close fd;
    mret p.
Definition GetHWPanelInfoByNode (node : Z) (p : HWPanelInfo) : M HWPanelInfo :=
  r ← sy_lines (node_path node "msm_fb_panel_info");
  match r with
  | None => mret p
  | Some l =>
      p ← st_lift (panel_lines l p);
      p ← GetHWDisplayPortAndMode node p;
      p ← GetSplitInfo node p;
      p ← GetHWPanelNameByNode node p;
      GetHWPanelMaxBrightnessFromNode p
  end.

(** ** Nodes *)
Definition IsFBNodeConnected (node : Z) : M bool :=
  r ← sy_lines (node_path node "connected");
  match r with
  | Some (line :: _) => x ← st_lift (atoi (c_str line)); mret (nz x)
  | _ => mret false
  end.
(** Whether node [i] is of the device. *)
Definition node_matches (device_type : HWDeviceType) (i : Z) (p : HWPanelInfo) : M bool :=
  match device_type with
  | kDevicePrimary => mret (is_primary_panel p)
  | kDeviceHDMI => if is_pluggable p then IsFBNodeConnected i else mret false
  | kDeviceVirtual => mret (bool_decide (port p = kPortWriteBack))
  | _ => mret false
  end.
Fixpoint node_loop (n : nat) (i : Z) (device_type : HWDeviceType) : M Z :=
  match n with
  | O => mret (-1)
  | S n =>
      p ← GetHWPanelInfoByNode i HWPanelInfo0;
      b ← node_matches device_type i p;
      if (b : bool) then mret i else node_loop n (i + 1) device_type
  end.
Definition GetFBNodeIndex (device_type : HWDeviceType) : M Z := node_loop kFBNodeMax 0 device_type.
Definition PopulateHWPanelInfo (node : Z) : M HWPanelInfo := GetHWPanelInfoByNode node HWPanelInfo0.
(** The white space at the end, of which one character stays. *)
Fixpoint strip (n : nat) (l : text) : text :=
  match n with
  | O => l
  | S n => match rev l with c :: _ :: _ => if Cec.is_space c then strip n (take (length l - 1) l) else l | _ => l end
  end.
Fixpoint clk_rates (l : list text) : outcome (list Z) :=
  match l with [] => Ret [] | t :: l => x ← atoi t; r ← clk_rates l; Ret (u64 x :: r) end.
Definition PopulateBitClkRates (node : Z) (p : HWPanelInfo) : M HWPanelInfo :=
  if negb (bitclk_update p) then mret p
  else
    fd ← sy_open (node_path node "supported_bitclk");
    if fd <? 0 then mret p
    else
      r ← sy_pread fd (kMaxStringLength - 1);
      _ ← sy_close fd;
      match r with
      | Some (c :: l) =>
          let tokens := ParseLine CLK_DELIM 32 (strip (length (c :: l)) (c :: l)) in
          rates ← st_lift (clk_rates tokens);
          mret (p <| bitclk_rates ::= fun o => o ++ rates |>)
      | _ => mret p
      end.
Definition SysFsWrite (file_node : string) (value : text) : M Z :=
  fd ← sy_open file_node;
  if fd <? 0 then mret (-1)
  else len ← sy_pwrite fd value; _ ← sy_close fd; mret len.
Fixpoint hpd_loop (n : nat) (i : Z) (value : text) : M bool :=
  match n with
  | O => mret true
  | S n =>
      p ← GetHWPanelInfoByNode i HWPanelInfo0;
      if is_pluggable p then
        length ← SysFsWrite (node_path i "hpd") value;
        if length <=? 0 then mret false else hpd_loop n (i + 1) value
      else hpd_loop n (i + 1) value
  end.
Definition EnableHotPlugDetection (enable : Z) : M bool := hpd_loop kFBNodeMax 0 (Cec.bytes (if nz enable then "1" else "0")).
End Panel.
End FbPanel.
