(* ===== verification/FbDevice.v ===== *)
(** The frame buffer device: src/hardware/qcom-caf/display/sdm/libs/core/fb/hw_device.cpp,
    hw_primary.cpp and hw_virtual.cpp.

    The device fills the structures of the driver from the layers of a frame and hands
    them over with an ioctl, once to validate and once to commit.  The driver is the class
    [Driver]; the calls of it are kept in a log.  A pointer into an array of the device is
    the index of the element. *)
From stdpp Require Import pretty.
From Stdlib Require Import SpecFloat.
From S2P Require Import Prelude Rect ResourceDefault Strategy HwcLayer Cec FbScale FbPanel.
#[local] Open Scope Z_scope.

Module FbDevice.
Import Float32 Formats Rect ResourceDefault HwcLayer FbScale.

(** ** The driver's structures *)
Inductive MdpFormat :=
| MDP_ARGB_8888 | MDP_RGBA_8888 | MDP_BGRA_8888 | MDP_RGBX_8888 | MDP_BGRX_8888 | MDP_RGBA_5551 | MDP_RGBA_4444 | MDP_RGB_888 | MDP_BGR_888
| MDP_RGB_565 | MDP_BGR_565 | MDP_Y_CB_CR_H2V2 | MDP_Y_CR_CB_H2V2 | MDP_Y_CR_CB_GH2V2 | MDP_Y_CBCR_H2V2 | MDP_Y_CRCB_H2V2 | MDP_Y_CBCR_H1V2
| MDP_Y_CRCB_H1V2 | MDP_Y_CBCR_H2V1 | MDP_Y_CRCB_H2V1 | MDP_YCBYCR_H2V1 | MDP_Y_CBCR_H2V2_VENUS | MDP_RGBA_8888_UBWC | MDP_RGBX_8888_UBWC
| MDP_RGB_565_UBWC | MDP_Y_CBCR_H2V2_UBWC | MDP_CBYCRY_H2V1 | MDP_RGBA_1010102 | MDP_ARGB_2101010 | MDP_RGBX_1010102 | MDP_XRGB_2101010
| MDP_BGRA_1010102 | MDP_ABGR_2101010 | MDP_BGRX_1010102 | MDP_XBGR_2101010 | MDP_RGBA_1010102_UBWC | MDP_RGBX_1010102_UBWC
| MDP_Y_CBCR_H2V2_P010 | MDP_Y_CBCR_H2V2_TP10_UBWC.
Inductive BlendOp := BLEND_OP_NOT_DEFINED | BLEND_OP_OPAQUE | BLEND_OP_PREMULTIPLIED | BLEND_OP_COVERAGE.
Inductive Csc := MDP_CSC_ITU_R_601 | MDP_CSC_ITU_R_601_FR | MDP_CSC_ITU_R_709 | MDP_CSC_ITU_R_2020 | MDP_CSC_ITU_R_2020_FR.
(** Entries of the arrays of HWScale. *)
Inductive ScaleRef := LayerEntry (i : Z) | DestEntry (i : Z).
Record MdpRect := mkMRect { rx : Z; ry : Z; rw : Z; rh : Z }.
(** A member of an enumeration that was zeroed is [None]. *)
Record MdpBuffer := mkMBuffer {
  mb_width : Z; mb_height : Z; mb_format : option MdpFormat; comp_numer : Z; comp_denom : Z; plane_count : Z; mb_fd : Z; mb_offset : Z;
  mb_stride : Z; fence : Z
}.
#[global] Instance eta_mbuffer : Eta MdpBuffer := fun b =>
  mkMBuffer (mb_width b) (mb_height b) (mb_format b) (comp_numer b) (comp_denom b) (plane_count b) (mb_fd b) (mb_offset b) (mb_stride b) (fence b).
Record InLayer := mkIn {
  in_flags : Z; pipe_ndx : Z; horz_deci : Z; vert_deci : Z; in_rect_num : Z; alpha : Z; in_z_order : Z; transp_mask : Z; bg_color : Z;
  blend_op : option BlendOp; color_space : option Csc; in_src : MdpRect; in_dst : MdpRect; in_buffer : MdpBuffer; pp_info : option nat;
  in_scale : option ScaleRef
}.
#[global] Instance eta_in : Eta InLayer := fun l =>
  mkIn (in_flags l) (pipe_ndx l) (horz_deci l) (vert_deci l) (in_rect_num l) (alpha l) (in_z_order l) (transp_mask l) (bg_color l)
    (blend_op l) (color_space l) (in_src l) (in_dst l) (in_buffer l) (pp_info l) (in_scale l).
Record OutLayer := mkOut { out_flags : Z; writeback_ndx : Z; out_buffer : MdpBuffer; out_color_space : option Csc }.
#[global] Instance eta_out : Eta OutLayer := fun l => mkOut (out_flags l) (writeback_ndx l) (out_buffer l) (out_color_space l).
Record DestScaler := mkDest { ds_flags : Z; dest_scaler_ndx : Z; lm_width : Z; lm_height : Z; ds_panel_roi : MdpRect; ds_scale : option ScaleRef }.
#[global] Instance eta_dest : Eta DestScaler := fun d =>
  mkDest (ds_flags d) (dest_scaler_ndx d) (lm_width d) (lm_height d) (ds_panel_roi d) (ds_scale d).
Record PostProc := mkPP { pp_ops : option bool; pp_set : bool }.  (* enabled or disabled; igc_cfg was filled *)
Definition MRect0 : MdpRect := mkMRect 0 0 0 0.
Definition MBuffer0 : MdpBuffer := mkMBuffer 0 0 None 0 0 0 0 0 0 0.
Definition InLayer0 : InLayer := mkIn 0 0 0 0 0 0 0 0 0 None None MRect0 MRect0 (MBuffer0 <| fence := -1 |>) None None.
Definition OutLayer0 : OutLayer := mkOut 0 0 (MBuffer0 <| fence := -1 |>) None.
Definition Dest0 : DestScaler := mkDest 0 0 0 0 MRect0 None.
Definition PP0 : PostProc := mkPP None false.

(** ** A frame *)
Record HWPipeInfo := mkPipe {
  rect : Z; pipe_id : Z; sub_block_type : HWSubBlockType; src_roi : LayerRect; dst_roi : LayerRect; horizontal_decimation : Z;
  vertical_decimation : Z; scale_data : HWScaleData; z_order : Z; pflags : Z; valid : bool
}.
Definition kIGC : Z := 0x01.
Definition kMultiRect : Z := 0x02.
Definition kMultiRectParallelMode : Z := 0x04.
(** [rotates]: whether the two parts of hw_rotate_info are valid. *)
Record HWRotatorSession := mkRotator { rotates : bool * bool; hw_block_count : Z; output_buffer : Buffer }.
#[global] Instance eta_rotator : Eta HWRotatorSession := fun r => mkRotator (rotates r) (hw_block_count r) (output_buffer r).
Record HWLayerConfig := mkLConfig { left_pipe : HWPipeInfo; right_pipe : HWPipeInfo; hw_rotator_session : HWRotatorSession; compression : float }.
#[global] Instance eta_lconfig : Eta HWLayerConfig := fun c => mkLConfig (left_pipe c) (right_pipe c) (hw_rotator_session c) (compression c).
Record HWDestScaleInfo := mkDestInfo { mixer_width : Z; mixer_height : Z; scale_update : bool; dest_scale_data : HWScaleData; panel_roi : LayerRect }.
(** The members of the layer stack that are used are in it. *)
Record HWLayers := mkFrame {
  hw_layers : list Layer; config : list HWLayerConfig; stack_output : option Buffer; post_processed_output : bool; retire_fence_fd : Z;
  sync_handle : Z; left_frame_roi : list LayerRect; right_frame_roi : list LayerRect; use_hw_cursor : bool;
  dest_scale_info_map : list (Z * HWDestScaleInfo); output_compression : float; avr_enable : bool; avr_one_shot : bool
}.
#[global] Instance eta_frame : Eta HWLayers := fun f =>
  mkFrame (hw_layers f) (config f) (stack_output f) (post_processed_output f) (retire_fence_fd f) (sync_handle f) (left_frame_roi f)
    (right_frame_roi f) (use_hw_cursor f) (dest_scale_info_map f) (output_compression f) (avr_enable f) (avr_one_shot f).

(** ** The device *)
Record Resource := mkRes {
  has_ppp : bool; has_qseed3 : bool; has_concurrent_writeback : bool; has_avr : bool; is_src_split : bool; writeback_index : Z;
  max_mixer_width : Z; dest_count : Z; dest_max_input_width : Z; dest_max_scale_up : Z
}.
Record Attributes := mkAttr {
  x_pixels : Z; y_pixels : Z; x_dpi : float; y_dpi : float; fps : Z; vsync_period_ns : Z; is_device_split : bool;
  v_front_porch : Z; v_back_porch : Z; v_pulse_width : Z; h_total : Z
}.
#[global] Instance eta_attr : Eta Attributes := fun a =>
  mkAttr (x_pixels a) (y_pixels a) (x_dpi a) (y_dpi a) (fps a) (vsync_period_ns a) (is_device_split a) (v_front_porch a) (v_back_porch a)
    (v_pulse_width a) (h_total a).
Definition Attributes0 : Attributes := mkAttr 0 0 f_zero f_zero 0 0 false 0 0 0 0.
Record Mixer := mkMix { mix_width : Z; mix_height : Z; split_left : Z }.
#[global] Instance eta_mix : Eta Mixer := fun m => mkMix (mix_width m) (mix_height m) (split_left m).
(** mdp_layer_commit_v1; [has_output]: output_layer is not null. *)
Record Commit_v1 := mkCommit {
  flags : Z; left_roi : MdpRect; right_roi : MdpRect; input_layer_cnt : Z; has_output : bool; dest_scaler_cnt : Z; release_fence : Z; retire_fence : Z
}.
#[global] Instance eta_commit : Eta Commit_v1 := fun c =>
  mkCommit (flags c) (left_roi c) (right_roi c) (input_layer_cnt c) (has_output c) (dest_scaler_cnt c) (release_fence c) (retire_fence c).
Record Dev := mkDev {
  hw_resource_ : Resource; hw_panel_info_ : FbPanel.HWPanelInfo; fb_node_index_ : Z; device_fd_ : Z; stored_retire_fence : Z;
  device_type_ : FbPanel.HWDeviceType; mdp_commit : Commit_v1; mdp_in_layers_ : list InLayer; hw_scale_ : option HWScale;
  pp_params_ : list PostProc; mdp_out_layer_ : OutLayer; synchronous_commit_ : bool; display_attributes_ : Attributes;
  mixer_attributes_ : Mixer; mdp_dest_scalar_data_ : list DestScaler;
  (* HWPrimary *)
  display_configs_ : list (Z * Z); display_config_strings_ : list FbPanel.text; active_config_index_ : Z; auto_refresh_ : bool;
  avr_prop_disabled_ : bool
}.
#[global] Instance eta_dev : Eta Dev := fun d =>
  mkDev (hw_resource_ d) (hw_panel_info_ d) (fb_node_index_ d) (device_fd_ d) (stored_retire_fence d) (device_type_ d) (mdp_commit d)
    (mdp_in_layers_ d) (hw_scale_ d) (pp_params_ d) (mdp_out_layer_ d) (synchronous_commit_ d) (display_attributes_ d) (mixer_attributes_ d)
    (mdp_dest_scalar_data_ d) (display_configs_ d) (display_config_strings_ d) (active_config_index_ d) (auto_refresh_ d) (avr_prop_disabled_ d).

(** What the driver reads in an atomic commit. *)
Record Submission := mkSub {
  sub_commit : Commit_v1; sub_layers : list InLayer; sub_out : option OutLayer; sub_dest : list DestScaler; sub_scale : option HWScale;
  sub_pp : list PostProc
}.
Inductive Blank := FB_BLANK_UNBLANK | FB_BLANK_NORMAL | FB_BLANK_VSYNC_SUSPEND | FB_BLANK_POWERDOWN.
Inductive Ioctl :=
| IBlank (b : Blank) | IVsyncCtrl (on : Z) | IPosition (flags pipe_ndx src_x src_y dst_x dst_y : Z) | ILpmEnable (mode : Z) | ISetCfg (luts : list Z).
(** The calls of the kernel: an errno, or the fences of retirement, release and output;
    none or an errno of the other ioctls. *)
Inductive Call := CCommit (s : Submission) (r : Z + Z * Z * Z) | CIoctl (i : Ioctl) (r : option Z) | CDup (fd r : Z) | CClose (fd : Z).
Record VScreen := mkScreen { xres : Z; yres : Z; s_width : Z; s_height : Z; margins : Z * Z * Z * Z; (* left right upper lower *) hsync_len : Z; vsync_len : Z }.
Class Driver (V : Type) := {
  dr_commit : Submission -> St V (Z + Z * Z * Z);
  dr_ioctl : Ioctl -> St V (option Z);
  dr_dup : Z -> St V Z;
  dr_close : Z -> St V unit;
  dr_resource : St V Resource;         (* HWInfoInterface::GetHWResourceInfo *)
  dr_screen : St V (option VScreen);   (* FBIOGET_VSCREENINFO *)
  dr_frame_rate : St V (option Z)      (* MSMFB_METADATA_GET *)
}.
Definition ESHUTDOWN : Z := 108.
Record World (V : Type) := mkWorld { dev : Dev; log : list Call; drv : V }.
Arguments mkWorld {V}.
Arguments dev {V}.
Arguments log {V}.
Arguments drv {V}.
#[global] Instance eta_world {V} : Eta (World V) := fun w => mkWorld (dev w) (log w) (drv w).

(** ** Translations *)
Definition SetFormat (source : LayerBufferFormat) : option MdpFormat :=
  match source with
  | kFormatARGB8888 => Some MDP_ARGB_8888 | kFormatRGBA8888 => Some MDP_RGBA_8888 | kFormatBGRA8888 => Some MDP_BGRA_8888
  | kFormatRGBX8888 => Some MDP_RGBX_8888 | kFormatBGRX8888 => Some MDP_BGRX_8888 | kFormatRGBA5551 => Some MDP_RGBA_5551
  | kFormatRGBA4444 => Some MDP_RGBA_4444 | kFormatRGB888 => Some MDP_RGB_888 | kFormatBGR888 => Some MDP_BGR_888
  | kFormatRGB565 => Some MDP_RGB_565 | kFormatBGR565 => Some MDP_BGR_565 | kFormatYCbCr420Planar => Some MDP_Y_CB_CR_H2V2
  | kFormatYCrCb420Planar => Some MDP_Y_CR_CB_H2V2 | kFormatYCrCb420PlanarStride16 => Some MDP_Y_CR_CB_GH2V2
  | kFormatYCbCr420SemiPlanar => Some MDP_Y_CBCR_H2V2 | kFormatYCrCb420SemiPlanar => Some MDP_Y_CRCB_H2V2
  | kFormatYCbCr422H1V2SemiPlanar => Some MDP_Y_CBCR_H1V2 | kFormatYCrCb422H1V2SemiPlanar => Some MDP_Y_CRCB_H1V2
  | kFormatYCbCr422H2V1SemiPlanar => Some MDP_Y_CBCR_H2V1 | kFormatYCrCb422H2V1SemiPlanar => Some MDP_Y_CRCB_H2V1
  | kFormatYCbCr422H2V1Packed => Some MDP_YCBYCR_H2V1 | kFormatYCbCr420SemiPlanarVenus => Some MDP_Y_CBCR_H2V2_VENUS
  | kFormatRGBA8888Ubwc => Some MDP_RGBA_8888_UBWC | kFormatRGBX8888Ubwc => Some MDP_RGBX_8888_UBWC
  | kFormatBGR565Ubwc => Some MDP_RGB_565_UBWC | kFormatYCbCr420SPVenusUbwc => Some MDP_Y_CBCR_H2V2_UBWC
  | kFormatCbYCrY422H2V1Packed => Some MDP_CBYCRY_H2V1 | kFormatRGBA1010102 => Some MDP_RGBA_1010102
  | kFormatARGB2101010 => Some MDP_ARGB_2101010 | kFormatRGBX1010102 => Some MDP_RGBX_1010102 | kFormatXRGB2101010 => Some MDP_XRGB_2101010
  | kFormatBGRA1010102 => Some MDP_BGRA_1010102 | kFormatABGR2101010 => Some MDP_ABGR_2101010 | kFormatBGRX1010102 => Some MDP_BGRX_1010102
  | kFormatXBGR2101010 => Some MDP_XBGR_2101010 | kFormatRGBA1010102Ubwc => Some MDP_RGBA_1010102_UBWC
  | kFormatRGBX1010102Ubwc => Some MDP_RGBX_1010102_UBWC | kFormatYCbCr420P010 => Some MDP_Y_CBCR_H2V2_P010
  | kFormatYCbCr420TP10Ubwc => Some MDP_Y_CBCR_H2V2_TP10_UBWC
  | _ => None
  end.
(** The stride that is stored, none when the format is not supported. *)
Definition SetStride (device_type : FbPanel.HWDeviceType) (format : LayerBufferFormat) (width : Z) : option Z :=
  if decide (device_type <> FbPanel.kDeviceRotator /\ device_type <> FbPanel.kDeviceVirtual) then Some width
  else
    match format with
    | kFormatARGB8888 | kFormatRGBA8888 | kFormatBGRA8888 | kFormatRGBX8888 | kFormatBGRX8888 | kFormatRGBA8888Ubwc | kFormatRGBX8888Ubwc
    | kFormatRGBA1010102 | kFormatARGB2101010 | kFormatRGBX1010102 | kFormatXRGB2101010 | kFormatBGRA1010102 | kFormatABGR2101010
    | kFormatBGRX1010102 | kFormatXBGR2101010 | kFormatRGBA1010102Ubwc | kFormatRGBX1010102Ubwc => Some (u32 (width * 4))
    | kFormatRGB888 | kFormatBGR888 => Some (u32 (width * 3))
    | kFormatRGB565 | kFormatBGR565 | kFormatBGR565Ubwc => Some (u32 (width * 2))
    | kFormatYCbCr420SemiPlanarVenus | kFormatYCbCr420SPVenusUbwc | kFormatYCbCr420Planar | kFormatYCrCb420Planar
    | kFormatYCrCb420PlanarStride16 | kFormatYCbCr420SemiPlanar | kFormatYCrCb420SemiPlanar | kFormatYCbCr420TP10Ubwc => Some width
    | kFormatYCbCr422H2V1Packed | kFormatCbYCrY422H2V1Packed | kFormatYCrCb422H2V1SemiPlanar | kFormatYCrCb422H1V2SemiPlanar
    | kFormatYCbCr422H2V1SemiPlanar | kFormatYCbCr422H1V2SemiPlanar | kFormatYCbCr420P010 | kFormatRGBA5551 | kFormatRGBA4444 =>
        Some (u32 (width * 2))
    | _ => None
    end.
Definition SetBlending (source : LayerBlending) : BlendOp :=
  match source with
  | kBlendingPremultiplied => BLEND_OP_PREMULTIPLIED
  | kBlendingOpaque => BLEND_OP_OPAQUE
  | kBlendingCoverage => BLEND_OP_COVERAGE
  end.
Definition SetRect (source : LayerRect) : outcome MdpRect :=
  x ← UINT32 (left source); y ← UINT32 (top source); r ← UINT32 (right source); b ← UINT32 (bottom source);
  mret (mkMRect x y (u32 (r - x)) (u32 (b - y))).
Definition or_if (b : bool) (f : Z) (flags : Z) : Z := if b then Z.lor flags f else flags.

Section Device.
Context {MDP : Mdp} {V : Type} {SYS : FbPanel.Sysfs V} {DRV : Driver V}.
Abbreviation M := (St (World V)).
Definition SetCSC (c : ColorMetaData) (old : option Csc) : option Csc :=
  if (colorPrimaries c =? ColorPrimaries_BT601_6_525) || (colorPrimaries c =? ColorPrimaries_BT601_6_625) then
    Some (if range c =? Range_Full then MDP_CSC_ITU_R_601_FR else MDP_CSC_ITU_R_601)
  else if colorPrimaries c =? ColorPrimaries_BT709_5 then Some MDP_CSC_ITU_R_709
  else if csc_2020 && (colorPrimaries c =? ColorPrimaries_BT2020) then
    Some (if range c =? Range_Full then MDP_CSC_ITU_R_2020_FR else MDP_CSC_ITU_R_2020)
  else old.
Definition SetMDPFlags (mode : Strategy.HWDisplayMode) (l : Layer) (is_rotator_used is_cursor_pipe_used : bool) (flags : Z) : Z :=
  let b := bflags (input_buffer l) in
  let flags :=
    if is_rotator_used then flags
    else or_if (interlace b) MDP_LAYER_DEINTERLACE
           (or_if (HwcLayer.flip_horizontal (transform l)) MDP_LAYER_FLIP_LR (or_if (HwcLayer.flip_vertical (transform l)) MDP_LAYER_FLIP_UD flags)) in
  let flags := if secure_camera b then Z.lor flags MDP_LAYER_SECURE_CAMERA_SESSION else or_if (secure b) MDP_LAYER_SECURE_SESSION flags in
  let flags := or_if (secure_display b) MDP_LAYER_SECURE_DISPLAY_SESSION flags in
  let flags := or_if (solid_fill (lflags l)) MDP_LAYER_SOLID_FILL flags in
  or_if (bool_decide (mode <> Strategy.kModeCommand) && cursor (lflags l) && is_cursor_pipe_used) MDP_LAYER_ASYNC flags.

(** ** State *)
Definition in_v {A} (m : St V A) : M A := fun w =>
  match m (drv w) with Ret (a, v) => Ret (a, w <| drv := v |>) | Undef => Undef | NoFuel => NoFuel end.
Definition on_dev (f : Dev -> Dev) : M unit := st_modify (fun w => w <| dev ::= f |>).
Definition get {A} (f : Dev -> A) : M A := st_gets (fun w => f (dev w)).
Definition on_commit (f : Commit_v1 -> Commit_v1) : M unit := on_dev (fun d => d <| mdp_commit ::= f |>).
Definition note (c : Call) : M unit := st_modify (fun w => w <| log ::= fun l => l ++ [c] |>).
(** An element of an array, which has to be in it. *)
Definition elem {A} (l : list A) (i : Z) : M A := if i <? 0 then st_undef else match l !! Z.to_nat i with Some a => mret a | None => st_undef end.
Definition on_in (i : Z) (f : InLayer -> InLayer) : M unit :=
  l ← get mdp_in_layers_; a ← elem l i; on_dev (fun d => d <| mdp_in_layers_ ::= <[Z.to_nat i := f a]> |>).
Definition on_dest (i : Z) (f : DestScaler -> DestScaler) : M unit :=
  l ← get mdp_dest_scalar_data_; a ← elem l i; on_dev (fun d => d <| mdp_dest_scalar_data_ ::= <[Z.to_nat i := f a]> |>).
Definition on_out (f : OutLayer -> OutLayer) : M unit := on_dev (fun d => d <| mdp_out_layer_ ::= f |>).
Definition dup (fd : Z) : M Z := r ← in_v (dr_dup fd); _ ← note (CDup fd r); mret r.
Definition close (fd : Z) : M unit := _ ← in_v (dr_close fd); note (CClose fd).
Definition ioctl (i : Ioctl) : M (option Z) := r ← in_v (dr_ioctl i); _ ← note (CIoctl i r); mret r.
(** What the pointers of the commit lead to. *)
Definition submission (d : Dev) : Submission :=
  mkSub (mdp_commit d) (take (Z.to_nat (input_layer_cnt (mdp_commit d))) (mdp_in_layers_ d))
    (if has_output (mdp_commit d) then Some (mdp_out_layer_ d) else None)
    (take (Z.to_nat (dest_scaler_cnt (mdp_commit d))) (mdp_dest_scalar_data_ d)) (hw_scale_ d) (pp_params_ d).
(** MSMFB_ATOMIC_COMMIT: the errno when it fails; the driver writes the fences. *)
Definition atomic_commit : M (option Z) :=
  d ← get (fun d => d);
  let s := submission d in
  r ← in_v (dr_commit s);
  _ ← note (CCommit s r);
  match r with
  | inl e => mret (Some e)
  | inr (retire, release, out) =>
      _ ← on_commit (fun c => c <| retire_fence := retire |> <| release_fence := release |>);
      _ ← (if has_output (mdp_commit d) then on_out (fun o => o <| out_buffer ::= fun b => b <| fence := out |> |>) else mret tt);
      mret None
  end.
Definition ioctl_error (r : option Z) : DisplayError :=
  match r with None => kErrorNone | Some e => if e =? ESHUTDOWN then kErrorShutDown else kErrorHardware end.

(** ** Scaling *)
Definition scale : M HWScale := s ← get hw_scale_; match s with Some s => mret s | None => st_undef end.
Definition set_scale (s : HWScale) : M unit := on_dev (fun d => d <| hw_scale_ := Some s |>).
Definition SetHWScaleData (sd : HWScaleData) (index : Z) (sub : HWSubBlockType) : M unit :=
  s ← scale;
  match s with
  | HWScaleV1 l =>
      if sd_scale sd =? 0 then mret tt
      else if decide (sub = kHWDestinationScalar) then mret tt
      else
        _ ← on_in index (fun m => m <| in_flags ::= fun f => Z.lor f MDP_LAYER_ENABLE_PIXEL_EXT |>);
        e ← elem l index;
        set_scale (HWScaleV1 (<[Z.to_nat index := scale_v1 sd e]> l))
  | HWScaleV2 l d =>
      if (sd_scale sd =? 0) && (sd_direction_detection sd =? 0) && (sd_detail_enhance sd =? 0) then mret tt
      else if decide (sub = kHWDestinationScalar) then
        let e := default ScaleV2_0 (zmap_get index d) in
        n ← st_lift (scale_v2 sd e);
        _ ← set_scale (HWScaleV2 l (zmap_set index n d));
        on_dest index (fun t => t <| ds_flags := or_if (negb (sd_detail_enhance sd =? 0)) MDP_DESTSCALER_ENHANCER_UPDATE
                                                   (if enables sd =? 0 then 0 else MDP_DESTSCALER_ENABLE) |>)
      else
        _ ← on_in index (fun m => m <| in_flags ::= fun f => Z.lor f MDP_LAYER_ENABLE_QSEED3_SCALE |>);
        e ← elem l index;
        n ← st_lift (scale_v2 sd e);
        set_scale (HWScaleV2 (<[Z.to_nat index := n]> l) d)
  end.
(** An entry of a destination scaler is made when it is not there. *)
Definition GetScaleDataRef (index : Z) (sub : HWSubBlockType) : M (option ScaleRef) :=
  s ← scale;
  match s with
  | HWScaleV1 l => if decide (sub = kHWDestinationScalar) then mret None else _ ← elem l index; mret (Some (LayerEntry index))
  | HWScaleV2 l d =>
      if decide (sub = kHWDestinationScalar) then
        _ ← set_scale (HWScaleV2 l (match zmap_get index d with Some _ => d | None => zmap_set index ScaleV2_0 d end)); mret (Some (DestEntry index))
      else _ ← elem l index; mret (Some (LayerEntry index))
  end.

(** ** Validation *)
Definition ResetDisplayParams : M unit :=
  s ← scale;
  on_dev (fun d => d <| mdp_commit := mkCommit 0 MRect0 MRect0 0 true 0 (-1) (-1) |> <| mdp_in_layers_ := replicate (kMaxSDELayers * 2) InLayer0 |>
    <| mdp_out_layer_ := OutLayer0 |> <| hw_scale_ := Some (ResetScaleParams s) |> <| pp_params_ := replicate (kMaxSDELayers * 2) PP0 |>
    <| mdp_dest_scalar_data_ ::= fmap (fun _ => Dest0) |>).
Definition SetIGC (b : Buffer) (index : Z) : M unit :=
  l ← get pp_params_;
  _ ← elem l index;
  _ ← on_dev (fun d => d <| pp_params_ ::= <[Z.to_nat index := mkPP (Some (bool_decide (igc b = kIGCsRGB))) true]> |>);
  on_in index (fun m => m <| pp_info := Some (Z.to_nat index) |> <| in_flags ::= fun f => Z.lor f MDP_LAYER_PP |>).
Definition has_flag (flags f : Z) : bool := negb (Z.land flags f =? 0).
(** One valid pipe. *)
Definition validate_pipe (l : Layer) (c : HWLayerConfig) (p : HWPipeInfo) (b : Buffer) (is_rotator_used is_cursor_pipe_used : bool) : M DisplayError :=
  i ← get (fun d => input_layer_cnt (mdp_commit d));
  numer ← st_lift (UINT32 (fmul (compression c) (FLOAT 1000)));
  _ ← on_in i (fun m => m <| in_buffer ::= fun o => o <| mb_width := width b |> <| mb_height := height b |> <| comp_denom := 1000 |>
                                                 <| comp_numer := numer |> |>);
  match (if solid_fill (lflags l) then Some MDP_ARGB_8888 else SetFormat (bformat b)) with
  | None => mret kErrorParameters
  | Some f =>
      _ ← on_in i (fun m => m <| in_buffer ::= fun o => o <| mb_format := Some f |> |> <| alpha := plane_alpha l |> <| in_z_order := u16 (z_order p) |>
            <| transp_mask := 0xffffffff |> <| blend_op := Some (SetBlending (blending l)) |> <| pipe_ndx := pipe_id p |>
            <| horz_deci := horizontal_decimation p |> <| vert_deci := vertical_decimation p |>
            <| in_rect_num ::= fun r => match MDP_COMMIT_RECT_NUM with Some _ => rect p | None => r end |>);
      src ← st_lift (SetRect (src_roi p));
      dst ← st_lift (SetRect (dst_roi p));
      mode ← get (fun d => FbPanel.mode (hw_panel_info_ d));
      _ ← on_in i (fun m => m <| in_src := src |> <| in_dst := dst |> <| in_flags ::= SetMDPFlags mode l is_rotator_used is_cursor_pipe_used |>
            <| color_space ::= SetCSC (color_metadata (input_buffer l)) |>);
      _ ← (if has_flag (pflags p) kIGC then SetIGC (input_buffer l) i else mret tt);
      _ ← (if has_flag (pflags p) kMultiRect then
             on_in i (fun m => m <| in_flags ::= fun f => or_if (has_flag (pflags p) kMultiRectParallelMode) MDP_LAYER_MULTIRECT_PARALLEL_MODE
                                                           (Z.lor f MDP_LAYER_MULTIRECT_ENABLE) |>)
           else mret tt);
      _ ← on_in i (fun m => m <| bg_color := solid_fill_color l |>);
      _ ← SetHWScaleData (scale_data p) i (sub_block_type p);
      r ← GetScaleDataRef i (sub_block_type p);
      _ ← on_in i (fun m => m <| in_scale := r |>);
      _ ← on_commit (fun k => k <| input_layer_cnt := u32 (i + 1) |>);
      mret kErrorNone
  end.
(** The buffer of the pipe: that of the rotator from the part on that is rotated. *)
Definition pipe_buffer (rotated : bool) (c : HWLayerConfig) (b : Buffer) : Buffer := if rotated then output_buffer (hw_rotator_session c) else b.
Definition validate_layer (cursor_used : bool) (l : Layer) (c : HWLayerConfig) : M DisplayError :=
  let '(r0, r1) := rotates (hw_rotator_session c) in
  let is_rotator_used := negb (hw_block_count (hw_rotator_session c) =? 0) in
  let is_cursor_pipe_used := cursor_used && cursor (lflags l) in
  let b0 := pipe_buffer r0 c (input_buffer l) in
  let b1 := pipe_buffer r1 c b0 in
  e ← (if valid (left_pipe c) then validate_pipe l c (left_pipe c) b0 is_rotator_used is_cursor_pipe_used else mret kErrorNone);
  if decide (e <> kErrorNone) then mret e
  else if valid (right_pipe c) then validate_pipe l c (right_pipe c) b1 is_rotator_used is_cursor_pipe_used else mret kErrorNone.
(** The configuration of a layer is at its index. *)
Fixpoint validate_layers (cursor_used : bool) (cs : list HWLayerConfig) (ls : list Layer) {struct ls} : M DisplayError :=
  match ls with
  | [] => mret kErrorNone
  | l :: ls =>
      match cs with
      | [] => st_undef
      | c :: cs => e ← validate_layer cursor_used l c; if decide (e <> kErrorNone) then mret e else validate_layers cursor_used cs ls
      end
  end.
(** Destination scalers: [index] are filled, [n] are left. *)
Fixpoint dest_loop (n : nat) (i index : Z) (m : list (Z * HWDestScaleInfo)) : M unit :=
  match n with
  | O => mret tt
  | S n =>
      match zmap_get i m with
      | None => dest_loop n (i + 1) index m
      | Some s =>
          _ ← SetHWScaleData (dest_scale_data s) index kHWDestinationScalar;
          _ ← on_dest index (fun t => t <| ds_flags ::= or_if (scale_update s) MDP_DESTSCALER_SCALE_UPDATE |> <| dest_scaler_ndx := i |>
                <| lm_width := mixer_width s |> <| lm_height := mixer_height s |>);
          _ ← match MDP_DESTSCALER_ROI_ENABLE with
              | Some f => r ← st_lift (SetRect (panel_roi s)); on_dest index (fun t => t <| ds_panel_roi := r |> <| ds_flags ::= fun g => Z.lor g f |>)
              | None => mret tt
              end;
          r ← GetScaleDataRef index kHWDestinationScalar;
          _ ← on_dest index (fun t => t <| ds_scale := r |>);
          dest_loop n (i + 1) (index + 1) m
      end
  end.
(** The output layer of a virtual device, which is dereferenced. *)
Definition validate_output (h : HWLayers) : M unit :=
  match stack_output h with
  | None => st_undef
  | Some o =>
      numer ← st_lift (UINT32 (fmul (output_compression h) (FLOAT 1000)));
      wb ← get (fun d => writeback_index (hw_resource_ d));
      on_out (fun l => l <| writeback_ndx := wb |> <| out_flags ::= or_if (secure (bflags o)) MDP_LAYER_SECURE_SESSION |>
        <| out_color_space ::= fun c => if out_layer_color_space then SetCSC (color_metadata o) c else c |>
        <| out_buffer ::= fun b => b <| mb_width := width o |> <| mb_height := height o |> <| comp_denom := 1000 |> <| comp_numer := numer |>
             <| mb_format ::= fun old => match SetFormat (bformat o) with Some f => Some f | None => old end |> |>)
  end.
Definition HWDevice_Validate (h : HWLayers) : M DisplayError :=
  e ← validate_layers (use_hw_cursor h) (config h) (hw_layers h);
  if decide (e <> kErrorNone) then mret e
  else
    t ← get device_type_;
    _ ← (if decide (t = FbPanel.kDeviceVirtual) then validate_output h else mret tt);
    n ← get (fun d => dest_count (hw_resource_ d));
    _ ← dest_loop (Z.to_nat n) 0 0 (dest_scale_info_map h);
    _ ← on_commit (fun c => c <| dest_scaler_cnt := u32 (length (dest_scale_info_map h)) |>
          <| flags ::= fun f => let f := Z.lor f MDP_VALIDATE_LAYER in match MDP_COMMIT_RECT_NUM with Some g => Z.lor f g | None => f end |>);
    r ← atomic_commit;
    mret (ioctl_error r).

(** ** Commit *)
Definition set_plane (t : FbPanel.HWDeviceType) (b : Buffer) (m : MdpBuffer) : MdpBuffer :=
  m <| plane_count := 1 |> <| mb_fd := plane_fd b |> <| mb_offset := plane_offset b |>
    <| mb_stride ::= fun s => default s (SetStride t (bformat b) (plane_stride b)) |>.
Definition commit_buffer (t : FbPanel.HWDeviceType) (b : Buffer) (m : MdpBuffer) : MdpBuffer :=
  (if 0 <=? plane_fd b then set_plane t b m else m <| plane_count := 0 |>) <| fence := acquire_fence_fd b |>.
Definition commit_pipe (p : HWPipeInfo) (b : Buffer) (index : Z) : M Z :=
  if valid p then
    t ← get device_type_;
    _ ← on_in index (fun m => m <| in_buffer ::= commit_buffer t b |>);
    mret (index + 1)
  else mret index.
Definition commit_layer (l : Layer) (c : HWLayerConfig) (index : Z) : M Z :=
  let '(r0, r1) := rotates (hw_rotator_session c) in
  let b0 := pipe_buffer r0 c (input_buffer l) in
  let b1 := pipe_buffer r1 c b0 in
  index ← commit_pipe (left_pipe c) b0 index;
  commit_pipe (right_pipe c) b1 index.
Fixpoint commit_layers (cs : list HWLayerConfig) (ls : list Layer) (index : Z) {struct ls} : M Z :=
  match ls with
  | [] => mret index
  | l :: ls => match cs with [] => st_undef | c :: cs => index ← commit_layer l c index; commit_layers cs ls index end
  end.
(** The release fence of every layer is a duplicate of the one of the frame. *)
Definition give_fence (fd : Z) (b : Buffer) : Buffer := b <| release_fence_fd := fd |>.
Fixpoint release_layers (fd : Z) (cs : list HWLayerConfig) (ls : list Layer) {struct ls} : M (list HWLayerConfig * list Layer) :=
  match ls with
  | [] => mret (cs, [])
  | l :: ls =>
      match cs with
      | [] => st_undef
      | c :: cs =>
          r ← dup fd;
          '(cs', ls') ← release_layers fd cs ls;
          mret (if negb (hw_block_count (hw_rotator_session c) =? 0)
                then (c <| hw_rotator_session ::= fun s => s <| output_buffer ::= give_fence r |> |> :: cs', l :: ls')
                else (c :: cs', l <| input_buffer ::= give_fence r |> :: ls'))
      end
  end.
Definition commit_output (h : HWLayers) : M DisplayError :=
  match stack_output h with
  | None => st_undef
  | Some o =>
      if 0 <=? plane_fd o then
        t ← get device_type_;
        _ ← on_out (fun l => l <| out_buffer ::= fun b => (set_plane t o b) <| fence := acquire_fence_fd o |> |>);
        mret kErrorNone
      else mret kErrorParameters
  end.
(** The fence of this frame, or in video mode that of the one before. *)
Definition retire (h : HWLayers) : M HWLayers :=
  fd ← get (fun d => retire_fence (mdp_commit d));
  mode ← get (fun d => FbPanel.mode (hw_panel_info_ d));
  if video_mode_defer_retire_fence && bool_decide (mode = Strategy.kModeVideo) then
    old ← get stored_retire_fence;
    _ ← on_dev (fun d => d <| stored_retire_fence := fd |>);
    mret (h <| retire_fence_fd := old |>)
  else mret (h <| retire_fence_fd := fd |>).
Definition PopulateHWPanelInfo : M unit :=
  n ← get fb_node_index_;
  p ← in_v (FbPanel.PopulateHWPanelInfo n);
  on_dev (fun d => d <| hw_panel_info_ := p |>).
Definition HWDevice_Commit (h : HWLayers) : M (DisplayError * HWLayers) :=
  _ ← commit_layers (config h) (hw_layers h) 0;
  t ← get device_type_;
  e ← (if decide (t = FbPanel.kDeviceVirtual) then commit_output h else mret kErrorNone);
  if decide (e <> kErrorNone) then mret (e, h)
  else
    sync ← get synchronous_commit_;
    _ ← on_commit (fun c => c <| release_fence := -1 |>
          <| flags ::= fun f => or_if sync MDP_COMMIT_WAIT_FOR_FINISH (Z.ldiff f MDP_VALIDATE_LAYER) |>);
    r ← atomic_commit;
    match r with
    | Some errno =>
        _ ← (if errno =? ESHUTDOWN then mret tt else on_dev (fun d => d <| synchronous_commit_ := false |>));
        mret (ioctl_error r, h)
    | None =>
        h ← retire h;
        release ← get (fun d => release_fence (mdp_commit d));
        '(cs, ls) ← release_layers release (config h) (hw_layers h);
        handle ← dup release;
        _ ← (if 0 <=? release then close release else mret tt);
        _ ← (if (sync : bool) then _ ← PopulateHWPanelInfo; on_dev (fun d => d <| synchronous_commit_ := false |>) else mret tt);
        mret (kErrorNone, h <| config := cs |> <| hw_layers := ls |> <| sync_handle := handle |>)
    end.
Definition Flush (secure : bool) : M DisplayError :=
  ppp ← get (fun d => has_ppp (hw_resource_ d));
  if ppp && negb secure then mret kErrorNone
  else
    _ ← ResetDisplayParams;
    _ ← on_commit (fun c => c <| input_layer_cnt := 0 |> <| has_output := false |> <| flags ::= fun f => Z.ldiff f MDP_VALIDATE_LAYER |>);
    r ← atomic_commit;
    mret (ioctl_error r).

(** ** Other calls of the device *)
Definition open_dev (path : string) : M Z := in_v (FbPanel.sy_open path).
(** The names of the device in their order. *)
Fixpoint find_dev (l : list string) (n : Z) : M (option string) :=
  match l with
  | [] => mret None
  | p :: l => let p := p +:+ pretty n in r ← in_v (FbPanel.sy_access p); if 0 <=? r then mret (Some p) else find_dev l n
  end.
Definition HWDevice_Init : M DisplayError :=
  t ← get device_type_;
  n ← in_v (FbPanel.GetFBNodeIndex t);
  _ ← on_dev (fun d => d <| fb_node_index_ := n |>);
  if n =? -1 then mret kErrorHardware
  else
    r ← find_dev ["/dev/graphics/fb"; "/dev/fb"]%string n;
    match r with
    | None => mret kErrorHardware
    | Some name =>
        _ ← PopulateHWPanelInfo;
        p ← get hw_panel_info_;
        p ← in_v (FbPanel.PopulateBitClkRates n p);
        _ ← on_dev (fun d => d <| hw_panel_info_ := p |>);
        res ← in_v dr_resource;
        _ ← on_dev (fun d => d <| hw_resource_ := res |>);
        fd ← open_dev name;
        _ ← on_dev (fun d => d <| device_fd_ := fd |>);
        if fd <? 0 then mret kErrorResources
        else _ ← set_scale (HWScale_Create (has_qseed3 res)); mret kErrorNone
    end.
(** The scaler is deleted, at the end of the device. *)
Definition HWDevice_Deinit : M DisplayError :=
  _ ← on_dev (fun d => d <| hw_scale_ := None |>);
  fd ← get device_fd_;
  _ ← (if 0 <=? fd then _ ← close fd; on_dev (fun d => d <| device_fd_ := -1 |>) else mret tt);
  r ← get stored_retire_fence;
  _ ← (if 0 <=? r then _ ← close r; on_dev (fun d => d <| stored_retire_fence := -1 |>) else mret tt);
  mret kErrorNone.
Definition PowerOn : M DisplayError := r ← ioctl (IBlank FB_BLANK_UNBLANK); mret (ioctl_error r).
Definition SetVSyncState (enable : bool) : M DisplayError := r ← ioctl (IVsyncCtrl (if enable then 1 else 0)); mret (ioctl_error r).
(** The position is that of the pipe; the arguments are not used. *)
Definition SetCursorPosition (h : HWLayers) (x y : Z) : M DisplayError :=
  c ← elem (config h) (u32 (length (hw_layers h) - 1));
  let p := left_pipe c in
  sx ← st_lift (UINT32 (left (src_roi p))); sy ← st_lift (UINT32 (top (src_roi p)));
  dx ← st_lift (UINT32 (left (dst_roi p))); dy ← st_lift (UINT32 (top (dst_roi p)));
  r ← ioctl (IPosition MDP_LAYER_ASYNC (pipe_id p) sx sy dx dy);
  mret (ioctl_error r).
(** The sizes and addresses of the tables: dir, cir and sep. *)
Definition SetScaleLutConfig (luts : list Z) : M DisplayError :=
  q ← get (fun d => has_qseed3 (hw_resource_ d));
  if negb q then mret kErrorNone
  else if forallb (Z.eqb 0) luts then mret kErrorNone
  else r ← ioctl (ISetCfg luts); mret (ioctl_error r).
(** The refusals of SetMixerAttributes in their order. *)
Definition mixer_refused (r : Resource) (a : Attributes) (m : Mixer) : bool :=
  let scale_x := fdiv (FLOAT (x_pixels a)) (FLOAT (mix_width m)) in
  let scale_y := fdiv (FLOAT (y_pixels a)) (FLOAT (mix_height m)) in
  (dest_count r =? 0) || (x_pixels a <? mix_width m) || (y_pixels a <? mix_height m) ||
  ((if is_device_split a then u32 (dest_max_input_width r * 2) else dest_max_input_width r) <? mix_width m) ||
  negb (feq (fdiv (FLOAT (x_pixels a)) (FLOAT (y_pixels a))) (fdiv (FLOAT (mix_width m)) (FLOAT (mix_height m)))) ||
  flt (FLOAT (dest_max_scale_up r)) scale_x || flt (FLOAT (dest_max_scale_up r)) scale_y.
Definition HWDevice_SetMixerAttributes (m : Mixer) : M DisplayError :=
  r ← get hw_resource_; a ← get display_attributes_; o ← get mixer_attributes_;
  if mixer_refused r a m then mret kErrorNotSupported
  else
    let ratio := fdiv (FLOAT (split_left o)) (FLOAT (mix_width o)) in
    split ← (if is_device_split a then st_lift (UINT32 (fmul (FLOAT (mix_width m)) ratio)) else mret (mix_width m));
    _ ← on_dev (fun d => d <| mixer_attributes_ := m <| split_left := split |> |>);
    mret kErrorNone.
Definition HWDevice_GetMixerAttributes : M Mixer := get mixer_attributes_.
Definition GetHWPanelInfo : M FbPanel.HWPanelInfo := get hw_panel_info_.

(** ** HWVirtual *)
Definition Virtual_Validate (h : HWLayers) : M DisplayError := _ ← ResetDisplayParams; HWDevice_Validate h.
Definition Virtual_SetDisplayAttributes (a : Attributes) : M DisplayError :=
  if (x_pixels a =? 0) || (y_pixels a =? 0) then mret kErrorParameters
  else
    w ← get (fun d => max_mixer_width (hw_resource_ d));
    _ ← on_dev (fun d => d <| display_attributes_ := if w <? x_pixels a then a <| is_device_split := true |> else a |>);
    mret kErrorNone.
(** The split that is stored is that of the device, not of the result. *)
Definition Virtual_GetMixerAttributes (m : Mixer) : M Mixer :=
  a ← get display_attributes_;
  _ ← on_dev (fun d => d <| mixer_attributes_ ::= fun o => o <| split_left := if is_device_split a then x_pixels a / 2 else mix_width o |> |>);
  mret (m <| mix_width := x_pixels a |> <| mix_height := y_pixels a |>).
(** Only the rate is set. *)
Definition Virtual_GetDisplayAttributes (a : Attributes) : M Attributes := mret (a <| fps := 60 |>).

(** ** HWPrimary *)
Definition f_25_4 : float := S754_finite false 13316915 (-19).
(** The size in millimetres for 320 dots per inch. *)
Definition default_mm (res : Z) : outcome Z := UINT32 (fadd (fdiv (fmul (FLOAT res) f_25_4) (FLOAT 320)) f_half).
Definition dpi (res mm : Z) : float := fdiv (fmul (FLOAT res) f_25_4) (FLOAT mm).
Definition PopulateDisplayAttributes : M DisplayError :=
  s ← in_v dr_screen;
  match s with
  | None => mret kErrorHardware
  | Some s =>
      f ← in_v dr_frame_rate;
      match f with
      | None => mret kErrorHardware
      | Some f =>
          let unknown := (s32 (s_width s) <=? 0) || (s32 (s_height s) <=? 0) in
          mm_w ← (if unknown then st_lift (default_mm (xres s)) else mret (s_width s));
          mm_h ← (if unknown then st_lift (default_mm (yres s)) else mret (s_height s));
          if f =? 0 then st_undef
          else
            p ← get hw_panel_info_;
            r ← get hw_resource_;
            let '(ml, mr, mu, mb) := margins s in
            let h_blanking := u32 (mr + ml + hsync_len s) in
            let split := FbPanel.nz (FbPanel.right_split p) || (max_mixer_width r <? xres s) in
            _ ← on_dev (fun d => d <| display_attributes_ := mkAttr (xres s) (yres s) (dpi (xres s) mm_w) (dpi (yres s) mm_h) f
                  (u32 (1000000000 / f)) split mb mu (vsync_len s)
                  (u32 (xres s + h_blanking + (if split || FbPanel.ping_pong_split p then h_blanking else 0))) |>);
            mret kErrorNone
      end
  end.
Definition UpdateMixerAttributes : M unit :=
  p ← get hw_panel_info_;
  on_dev (fun d => let a := display_attributes_ d in
    d <| mixer_attributes_ := mkMix (x_pixels a) (y_pixels a) (if is_device_split a then FbPanel.left_split p else x_pixels a) |>).
(** std::string::find of a character. *)
Fixpoint find_char (c : Z) (l : FbPanel.text) : option nat :=
  match l with [] => None | b :: l => if b =? c then Some O else S <$> find_char c l end.
(** The numbers after the colon and the x. *)
Definition mode_size (line : FbPanel.text) : outcome (option (Z * Z)) :=
  match find_char 58 line, find_char 120 line with
  | Some x, Some y => a ← FbPanel.atoi (drop (S x) line); b ← FbPanel.atoi (drop (S y) line); Ret (Some (a, b))
  | _, _ => Ret None
  end.
Definition GetCurrentModeFromSysfs : M (option (Z * Z)) :=
  r ← in_v (FbPanel.sy_lines (FbPanel.fb_path_ +:+ "0/mode"));
  match r with
  | Some (line :: _) => m ← st_lift (mode_size line); mret (match m with Some (a, b) => Some (u64 a, u64 b) | None => None end)
  | _ => mret None
  end.
Fixpoint config_loop (cur : Z * Z) (lines : list FbPanel.text) : M unit :=
  match lines with
  | [] => mret tt
  | line :: lines =>
      let line := line ++ [10] in
      m ← st_lift (mode_size line);
      match m with
      | None => config_loop cur lines
      | Some (x, y) =>
          _ ← on_dev (fun d => d <| display_configs_ ::= fun l => l ++ [(u32 x, u32 y)] |> <| display_config_strings_ ::= fun l => l ++ [FbPanel.c_str line] |>);
          _ ← (if (fst cur =? u32 x) && (snd cur =? u32 y)
               then on_dev (fun d => d <| active_config_index_ := u32 (length (display_configs_ d) - 1) |>) else mret tt);
          config_loop cur lines
      end
  end.
Definition InitializeConfigs : M unit :=
  c ← GetCurrentModeFromSysfs;
  match c with
  | None => mret tt
  | Some cur =>
      r ← in_v (FbPanel.sy_lines (FbPanel.fb_path_ +:+ "0/modes"));
      match r with Some lines => config_loop cur lines | None => mret tt end
  end.
Definition Primary_Init (avr_disabled : bool) : M DisplayError :=
  e ← HWDevice_Init;
  if decide (e <> kErrorNone) then mret e
  else
    n ← get (fun d => dest_count (hw_resource_ d));
    _ ← on_dev (fun d => d <| mdp_dest_scalar_data_ ::= fun l => take (Z.to_nat n) l ++ replicate (Z.to_nat n - length l) Dest0 |>);
    e ← PopulateDisplayAttributes;
    if decide (e <> kErrorNone) then mret e
    else
      _ ← UpdateMixerAttributes;
      _ ← in_v (FbPanel.EnableHotPlugDetection 0);
      _ ← in_v (FbPanel.EnableHotPlugDetection 1);
      _ ← InitializeConfigs;
      _ ← on_dev (fun d => d <| avr_prop_disabled_ := avr_disabled |>);
      mret kErrorNone.
Definition IsResolutionSwitchEnabled (d : Dev) : bool := match display_configs_ d with [] => false | _ => true end.
Definition GetNumDisplayAttributes : M Z := get (fun d => if IsResolutionSwitchEnabled d then u32 (length (display_configs_ d)) else 1).
Definition GetActiveConfig : M Z := get active_config_index_.
Definition GetDisplayAttributes (index : Z) : M (DisplayError * Attributes) :=
  d ← get (fun d => d);
  if IsResolutionSwitchEnabled d then
    match display_configs_ d !! Z.to_nat index with
    | None => mret (kErrorParameters, Attributes0)
    | Some (x, y) => mret (kErrorNone, (display_attributes_ d) <| x_pixels := x |> <| y_pixels := y |>)
    end
  else mret (kErrorNone, display_attributes_ d).
(** The mode is written and the panel read again. *)
Definition SetDisplayAttributes (index : Z) : M DisplayError :=
  d ← get (fun d => d);
  if negb (IsResolutionSwitchEnabled d) then mret kErrorNotSupported
  else if (length (display_configs_ d) <=? Z.to_nat index)%nat then mret kErrorParameters
  else
    fd ← open_dev (FbPanel.fb_path_ +:+ "0/mode");
    if fd <? 0 then mret kErrorNotSupported
    else
      s ← elem (display_config_strings_ d) index;
      written ← in_v (FbPanel.sy_pwrite fd s);
      ret ← (if 0 <? written then
               _ ← PopulateHWPanelInfo; _ ← PopulateDisplayAttributes; _ ← UpdateMixerAttributes;
               _ ← on_dev (fun d => d <| active_config_index_ := index |>); mret kErrorNone
             else mret kErrorParameters);
      _ ← close fd;
      mret ret.
(** A text to a node of the panel. *)
Definition write_node (path : string) (t : FbPanel.text) : M (option Z) :=
  fd ← open_dev path;
  if fd <? 0 then mret None else len ← in_v (FbPanel.sy_pwrite fd t); _ ← close fd; mret (Some len).
Definition panel_node (file : string) : M string := n ← get fb_node_index_; mret (FbPanel.node_path n file).
Definition SetRefreshRate (refresh_rate : Z) : M DisplayError :=
  d ← get (fun d => d);
  if has_avr (hw_resource_ d) && negb (avr_prop_disabled_ d) then mret kErrorNotSupported
  else
    path ← panel_node "dynamic_fps";
    r ← write_node path (Cec.bytes (pretty (s32 refresh_rate)));
    match r with
    | None => mret kErrorFileDescriptor
    | Some len => if len <? 0 then mret kErrorUndefined else PopulateDisplayAttributes
    end.
(** The error of shutdown is not told apart here. *)
Definition blank_error (r : option Z) : DisplayError := match r with None => kErrorNone | Some _ => kErrorHardware end.
Definition PowerOff : M DisplayError :=
  r ← ioctl (IBlank FB_BLANK_POWERDOWN);
  match r with None => _ ← on_dev (fun d => d <| auto_refresh_ := false |>); mret kErrorNone | Some _ => mret kErrorHardware end.
Definition Doze : M DisplayError := r ← ioctl (IBlank FB_BLANK_NORMAL); mret (blank_error r).
Definition DozeSuspend : M DisplayError := r ← ioctl (IBlank FB_BLANK_VSYNC_SUSPEND); mret (blank_error r).
Definition SetAVRFlags (h : HWLayers) (f : Z) : Z := or_if (avr_one_shot h) MDP_COMMIT_AVR_ONE_SHOT_MODE (or_if (avr_enable h) MDP_COMMIT_AVR_EN f).
(** The width and height are differences of floats. *)
Definition frame_rect (r : LayerRect) : outcome MdpRect :=
  x ← UINT32 (left r); y ← UINT32 (top r); w ← UINT32 (fsub (right r) (left r)); h ← UINT32 (fsub (bottom r) (top r)); mret (mkMRect x y w h).
Definition Primary_Validate (h : HWLayers) : M DisplayError :=
  _ ← ResetDisplayParams;
  match left_frame_roi h, right_frame_roi h with
  | l :: ls, r :: _ =>
      lr ← st_lift (frame_rect l);
      _ ← on_commit (fun c => c <| left_roi := lr |>);
      r ← (match ls with
           | [l1] => _ ← on_commit (fun c => c <| flags ::= fun f => Z.lor f MDP_COMMIT_PARTIAL_UPDATE_DUAL_ROI |>); mret l1
           | _ => mret r
           end);
      d ← get (fun d => d);
      let res := hw_resource_ d in
      _ ← (if IsValid r then
             rr ← st_lift (frame_rect r);
             on_commit (fun c => c <| right_roi := if is_src_split res then rr else mkMRect (u32 (rx rr - split_left (mixer_attributes_ d))) (ry rr) (rw rr) (rh rr) |>)
           else mret tt);
      _ ← (match stack_output h with
           | Some o =>
               if has_concurrent_writeback res then
                 numer ← st_lift (UINT32 (fmul (output_compression h) (FLOAT 1000)));
                 _ ← on_out (fun l => l <| writeback_ndx := writeback_index res |>
                       <| out_color_space ::= fun c => if out_layer_color_space then SetCSC (color_metadata o) c else c |>
                       <| out_buffer ::= fun b => b <| mb_width := unaligned_width o |> <| mb_height := unaligned_height o |> <| comp_denom := 1000 |>
                            <| comp_numer := numer |> <| fence := -1 |>
                            <| mb_format ::= fun old => match SetFormat (bformat o) with Some f => Some f | None => old end |> |>);
                 on_commit (fun c => c <| flags ::= fun f => or_if (post_processed_output h) MDP_COMMIT_CWB_DSPP (Z.lor f MDP_COMMIT_CWB_EN) |>)
               else mret tt
           | None => mret tt
           end);
      _ ← (if has_avr res then on_commit (fun c => c <| flags ::= SetAVRFlags h |>) else mret tt);
      HWDevice_Validate h
  | _, _ => st_undef
  end.
Definition Primary_Commit (h : HWLayers) : M (DisplayError * HWLayers) :=
  d ← get (fun d => d);
  match stack_output h with
  | Some o =>
      if has_concurrent_writeback (hw_resource_ d) then
        if 0 <=? plane_fd o then
          _ ← on_out (fun l => l <| out_buffer ::= fun b => (set_plane (device_type_ d) o b) <| fence := -1 |> |>);
          '(e, h') ← HWDevice_Commit h;
          if decide (e = kErrorNone) then
            fd ← get (fun d => fence (out_buffer (mdp_out_layer_ d)));
            mret (e, h' <| stack_output := Some (give_fence fd o) |>)
          else mret (e, h')
        else mret (kErrorParameters, h)
      else HWDevice_Commit h
  | None => HWDevice_Commit h
  end.
Definition SetIdleTimeoutMs (timeout_ms : Z) : M unit :=
  path ← panel_node "idle_time"; _ ← write_node path (Cec.bytes (pretty (s32 timeout_ms))); mret tt.
Definition SetDisplayMode (mode : Strategy.HWDisplayMode) : M DisplayError :=
  match mode with
  | Strategy.kModeDefault => mret kErrorParameters
  | _ =>
      r ← ioctl (ILpmEnable (if decide (mode = Strategy.kModeVideo) then 0 else 1));
      match r with None => _ ← on_dev (fun d => d <| synchronous_commit_ := true |>); mret kErrorNone | Some _ => mret kErrorHardware end
  end.
Definition kBrightnessNode : string := "/sys/class/leds/lcd-backlight/brightness".
Definition kAutoRefreshNode : string := "/sys/devices/virtual/graphics/fb0/msm_cmd_autorefresh_en".
Definition kMaxSysfsCommandLength : nat := 12.
(** What snprintf leaves in the buffer; as many bytes are written as it would have needed. *)
Definition brightness_text (level : Z) : FbPanel.text :=
  let t := Cec.bytes (pretty level) ++ [10] in
  take (length t) (take (kMaxSysfsCommandLength - 1) t ++ replicate (kMaxSysfsCommandLength - length (take (kMaxSysfsCommandLength - 1) t)) 0).
Definition SetPanelBrightness (level : Z) : M DisplayError :=
  r ← write_node kBrightnessNode (brightness_text level);
  mret (match r with None => kErrorFileDescriptor | Some len => if len <=? 0 then kErrorUndefined else kErrorNone end).
(** The level is as it was when nothing was read. *)
Definition GetPanelBrightness (level : Z) : M (DisplayError * Z) :=
  fd ← open_dev kBrightnessNode;
  if fd <? 0 then mret (kErrorFileDescriptor, level)
  else
    r ← in_v (FbPanel.sy_pread fd FbPanel.kMaxStringLength);
    level ← (match r with Some (c :: l) => st_lift (Cec.atoi (FbPanel.buffer FbPanel.kMaxStringLength (c :: l))) | _ => mret level end);
    _ ← close fd;
    mret (kErrorNone, level).
Definition SetAutoRefresh (enable : bool) : M DisplayError :=
  a ← get auto_refresh_;
  if Bool.eqb enable a then mret kErrorNone
  else
    r ← in_v (FbPanel.SysFsWrite kAutoRefreshNode (Cec.bytes (if enable then "1" else "0")));
    if r <=? 0 then mret kErrorUndefined else _ ← on_dev (fun d => d <| auto_refresh_ := enable |>); mret kErrorNone.
Definition Primary_SetMixerAttributes (m : Mixer) : M DisplayError :=
  d ← get (fun d => d); if IsResolutionSwitchEnabled d then mret kErrorNotSupported else HWDevice_SetMixerAttributes m.
Definition SetDynamicDSIClock (bitclk : Z) : M DisplayError :=
  p ← get hw_panel_info_;
  if negb (FbPanel.bitclk_update p) then mret kErrorNotSupported
  else
    path ← panel_node "dynamic_bitclk";
    r ← write_node path (Cec.bytes (pretty bitclk));
    mret (match r with None => kErrorFileDescriptor | Some len => if len <? 0 then kErrorUndefined else kErrorNone end).
Definition GetDynamicDSIClock : M (DisplayError * Z) :=
  p ← get hw_panel_info_;
  if negb (FbPanel.bitclk_update p) then mret (kErrorNotSupported, 0)
  else
    path ← panel_node "dynamic_bitclk";
    fd ← open_dev path;
    if fd <? 0 then mret (kErrorFileDescriptor, 0)
    else
      r ← in_v (FbPanel.sy_pread fd 64);
      match r with
      | None => _ ← close fd; mret (kErrorUndefined, 0)
      | Some l => x ← st_lift (Cec.atoi (FbPanel.buffer 64 l)); _ ← close fd; mret (kErrorNone, u64 x)
      end.
End Device.
End FbDevice.
