(* ===== verification/FbFacts.v ===== *)
(** What the frame buffer device leaves in the arrays of the driver: the entry of a pipe as
    one record, and that validation fills the arrays with the entries of the valid pipes,
    in their order. *)
From S2P Require Import Prelude Rect ResourceDefault Strategy HwcLayer Cec FbScale FbPanel FbDevice Wp.
#[local] Open Scope Z_scope.

Module FbFacts.
Import Float32 Formats Rect ResourceDefault HwcLayer FbScale FbDevice.

(** * Entries *)

(** What the three arrays of the device hold at one index. *)
Record Filled := mkFilled { f_in : InLayer; f_scale : ScaleV1 + ScaleV2; f_pp : PostProc }.
#[global] Instance eta_filled : Eta Filled := fun f => mkFilled (f_in f) (f_scale f) (f_pp f).

(** A valid pipe with its layer, its configuration and the buffer it shows. *)
Record Job := mkJob { j_layer : Layer; j_config : HWLayerConfig; j_pipe : HWPipeInfo; j_buffer : Buffer }.
Definition layer_jobs (l : Layer) (c : HWLayerConfig) : list Job :=
  let '(r0, r1) := rotates (hw_rotator_session c) in
  let b0 := pipe_buffer r0 c (input_buffer l) in
  let b1 := pipe_buffer r1 c b0 in
  (if valid (left_pipe c) then [mkJob l c (left_pipe c) b0] else []) ++ (if valid (right_pipe c) then [mkJob l c (right_pipe c) b1] else []).
Fixpoint frame_jobs (cs : list HWLayerConfig) (ls : list Layer) {struct ls} : list Job :=
  match ls, cs with l :: ls, c :: cs => layer_jobs l c ++ frame_jobs cs ls | _, _ => [] end.

Section Facts.
Context {MDP : Mdp} {V : Type} {SYS : FbPanel.Sysfs V} {DRV : Driver V}.
Abbreviation W := (World V).
Abbreviation M := (St (World V)).

Definition zero_scale (qseed3 : bool) : ScaleV1 + ScaleV2 := if qseed3 then inr ScaleV2_0 else inl ScaleV1_0.
Definition Filled0 (qseed3 : bool) : Filled := mkFilled InLayer0 (zero_scale qseed3) PP0.
Definition scaled (qseed3 : bool) (s : HWScaleData) : bool :=
  if qseed3 then negb ((sd_scale s =? 0) && (sd_direction_detection s =? 0) && (sd_detail_enhance s =? 0)) else negb (sd_scale s =? 0).
Definition scale_entry (qseed3 : bool) (s : HWScaleData) : outcome (ScaleV1 + ScaleV2) :=
  if scaled qseed3 s then if qseed3 then e ← scale_v2 s ScaleV2_0; Ret (inr e) else Ret (inl (scale_v1 s ScaleV1_0)) else Ret (zero_scale qseed3).
Definition entry_flags (qseed3 : bool) (mode : Strategy.HWDisplayMode) (cursor_used : bool) (j : Job) : Z :=
  let l := j_layer j in let p := j_pipe j in
  let used := negb (hw_block_count (hw_rotator_session (j_config j)) =? 0) in
  let f := SetMDPFlags mode l used (cursor_used && cursor (lflags l)) 0 in
  let f := or_if (has_flag (pflags p) kIGC) MDP_LAYER_PP f in
  let f := if has_flag (pflags p) kMultiRect then or_if (has_flag (pflags p) kMultiRectParallelMode) MDP_LAYER_MULTIRECT_PARALLEL_MODE (Z.lor f MDP_LAYER_MULTIRECT_ENABLE) else f in
  or_if (scaled qseed3 (scale_data p)) (if qseed3 then MDP_LAYER_ENABLE_QSEED3_SCALE else MDP_LAYER_ENABLE_PIXEL_EXT) f.
Definition job_format (j : Job) : option MdpFormat := if solid_fill (lflags (j_layer j)) then Some MDP_ARGB_8888 else SetFormat (bformat (j_buffer j)).
(** The entry of a pipe, at index [i]: none when its format is not supported. *)
Definition entry (qseed3 : bool) (mode : Strategy.HWDisplayMode) (cursor_used : bool) (i : nat) (j : Job) : outcome Filled :=
  let l := j_layer j in let p := j_pipe j in let b := j_buffer j in
  numer ← UINT32 (fmul (compression (j_config j)) (FLOAT 1000));
  f ← (match job_format j with Some f => Ret f | None => Undef end);
  src ← SetRect (src_roi p);
  dst ← SetRect (dst_roi p);
  s ← scale_entry qseed3 (scale_data p);
  Ret (mkFilled
    (mkIn (entry_flags qseed3 mode cursor_used j) (pipe_id p) (horizontal_decimation p) (vertical_decimation p)
       (match MDP_COMMIT_RECT_NUM with Some _ => rect p | None => 0 end) (plane_alpha l) (u16 (z_order p)) 0xffffffff (solid_fill_color l)
       (Some (SetBlending (blending l))) (SetCSC (color_metadata (input_buffer l)) None) src dst
       (mkMBuffer (width b) (height b) (Some f) numer 1000 0 0 0 0 (-1))
       (if has_flag (pflags p) kIGC then Some i else None) (Some (LayerEntry i)))
    s
    (if has_flag (pflags p) kIGC then mkPP (Some (bool_decide (igc (input_buffer l) = kIGCsRGB))) true else PP0)).
(** The entries of the pipes of a frame, from index [i] on. *)
Fixpoint entries (qseed3 : bool) (mode : Strategy.HWDisplayMode) (cursor_used : bool) (i : nat) (js : list Job) : outcome (list Filled) :=
  match js with [] => Ret [] | j :: js => f ← entry qseed3 mode cursor_used i j; fs ← entries qseed3 mode cursor_used (S i) js; Ret (f :: fs) end.

(** * The arrays *)
Definition layer_scales (s : HWScale) : list (ScaleV1 + ScaleV2) := match s with HWScaleV1 l => inl <$> l | HWScaleV2 l _ => inr <$> l end.
Definition is_v2 (s : HWScale) : bool := match s with HWScaleV1 _ => false | HWScaleV2 _ _ => true end.
(** The arrays hold [L]. *)
Definition arrays (qseed3 : bool) (L : list Filled) (d : Dev) : Prop :=
  mdp_in_layers_ d = f_in <$> L /\ pp_params_ d = f_pp <$> L /\
  exists s, hw_scale_ d = Some s /\ layer_scales s = f_scale <$> L /\ is_v2 s = qseed3.
(** All that filling an entry leaves alone. *)
Definition rest (w : W) := (log w, drv w, (mdp_commit (dev w)) <| input_layer_cnt := 0 |>, hw_resource_ (dev w), hw_panel_info_ (dev w), device_type_ (dev w),
  mdp_out_layer_ (dev w), mdp_dest_scalar_data_ (dev w), stored_retire_fence (dev w), synchronous_commit_ (dev w), mixer_attributes_ (dev w), fb_node_index_ (dev w)).
(** Filling of the entry after [es]: the counter is at it. *)
Record filling (w0 : W) (qseed3 : bool) (es : list Filled) (x : Filled) (tl : list Filled) (w : W) : Prop := {
  filling_arrays : arrays qseed3 (es ++ x :: tl) (dev w);
  filling_count : input_layer_cnt (mdp_commit (dev w)) = length es;
  filling_rest : rest w = rest w0
}.

Lemma elem_run {A} (l : list A) (i : nat) a (Q : A -> W -> Prop) w : l !! i = Some a -> Q a w -> wp (elem l i) Q w.
Proof. intros Hl HQ. unfold elem. destruct (Z.ltb_spec i 0); [lia|]. rewrite Nat2Z.id, Hl. by apply wp_ret. Qed.
Lemma fmap_mid {A B} (f : A -> B) es x tl : (f <$> (es ++ x :: tl)) !! length es = Some (f x).
Proof. rewrite list_lookup_fmap, list_lookup_middle; done. Qed.
Lemma insert_mid {A} (es : list A) x tl y : <[length es := y]> (es ++ x :: tl) = es ++ y :: tl.
Proof. rewrite insert_app_r_alt by lia. by rewrite Nat.sub_diag. Qed.
Lemma insert_fmap_mid {A B} (f : A -> B) es x tl y : <[length es := f y]> (f <$> (es ++ x :: tl)) = f <$> (es ++ y :: tl).
Proof. rewrite <- list_fmap_insert. by rewrite insert_mid. Qed.
(** Two lists agree when they differ at one element that the function does not look at. *)
Lemma fmap_mid_eq {A B} (f : A -> B) es x y tl : f x = f y -> f <$> (es ++ x :: tl) = f <$> (es ++ y :: tl).
Proof. intros H. rewrite !fmap_app, !fmap_cons. by rewrite H. Qed.

Section Fill.
Context (w0 : W) (q : bool) (es tl : list Filled).
Implicit Types x : Filled.

Lemma on_in_wp f x (Q : unit -> W -> Prop) w : filling w0 q es x tl w ->
  (forall w', filling w0 q es (x <| f_in ::= f |>) tl w' -> Q tt w') -> wp (on_in (length es) f) Q w.
Proof.
  intros [(H1 & H2 & s & H3 & H4 & H5) Hc Hr] HQ. unfold on_in, get. wp_step. apply wp_gets. wp_step. eapply elem_run; [rewrite H1; apply fmap_mid|].
  apply wp_modify, HQ. split; [|done|done]. rewrite Nat2Z.id. split_and!.
  - cbn. rewrite H1. apply (insert_fmap_mid f_in es x tl (mkFilled (f (f_in x)) (f_scale x) (f_pp x))).
  - cbn. rewrite H2. by apply fmap_mid_eq.
  - exists s. cbn. split_and!; [done| |done]. rewrite H4. by apply fmap_mid_eq.
Qed.
Lemma SetIGC_wp b x (Q : unit -> W -> Prop) w : filling w0 q es x tl w ->
  (forall w', filling w0 q es (x <| f_pp := mkPP (Some (bool_decide (igc b = kIGCsRGB))) true |>
       <| f_in ::= fun m => m <| pp_info := Some (length es) |> <| in_flags ::= fun f => Z.lor f MDP_LAYER_PP |> |>) tl w' -> Q tt w') ->
  wp (SetIGC b (length es)) Q w.
Proof.
  intros [(H1 & H2 & s & H3 & H4 & H5) Hc Hr] HQ. unfold SetIGC, get. wp_step. apply wp_gets. wp_step. eapply elem_run; [rewrite H2; apply fmap_mid|].
  wp_step. apply wp_modify. rewrite Nat2Z.id. eapply (on_in_wp _ (x <| f_pp := mkPP (Some (bool_decide (igc b = kIGCsRGB))) true |>)); [|exact HQ].
  split; [|done|done]. split_and!.
  - cbn. rewrite H1. by apply fmap_mid_eq.
  - cbn. rewrite H2. apply (insert_fmap_mid f_pp es x tl (mkFilled (f_in x) (f_scale x) (mkPP (Some (bool_decide (igc b = kIGCsRGB))) true))).
  - exists s. cbn. split_and!; [done| |done]. rewrite H4. by apply fmap_mid_eq.
Qed.
(** The entry of the scaler is replaced. *)
Lemma set_scale_wp n s' x (Q : unit -> W -> Prop) w : filling w0 q es x tl w -> layer_scales s' = f_scale <$> (es ++ x <| f_scale := n |> :: tl) -> is_v2 s' = q ->
  (forall w', filling w0 q es (x <| f_scale := n |>) tl w' -> Q tt w') -> wp (set_scale s') Q w.
Proof.
  intros [(H1 & H2 & s & H3 & H4 & H5) Hc Hr] Hs Hv HQ. apply wp_modify, HQ. split; [|done|done]. split_and!.
  - cbn. rewrite H1. by apply fmap_mid_eq.
  - cbn. rewrite H2. by apply fmap_mid_eq.
  - exists s'. by split_and!.
Qed.
Lemma scale_wp x (Q : HWScale -> W -> Prop) w : filling w0 q es x tl w ->
  (forall s, hw_scale_ (dev w) = Some s -> layer_scales s = f_scale <$> (es ++ x :: tl) -> is_v2 s = q -> Q s w) -> wp scale Q w.
Proof.
  intros [(H1 & H2 & s & H3 & H4 & H5) Hc Hr] HQ. unfold scale, get. wp_step. apply wp_gets. rewrite H3. apply wp_ret. by apply HQ.
Qed.
(** The entry of a scaler before and after. *)
Lemma scales_at {A} (inj : A -> ScaleV1 + ScaleV2) `{!Inj eq eq inj} l x : inj <$> l = f_scale <$> (es ++ x :: tl) ->
  exists e, l !! length es = Some e /\ f_scale x = inj e.
Proof.
  intros H. assert (E : (inj <$> l) !! length es = Some (f_scale x)) by (rewrite H; apply fmap_mid).
  rewrite list_lookup_fmap in E. apply fmap_Some in E as (e & E1 & E2). eauto.
Qed.
Lemma scales_set {A} (inj : A -> ScaleV1 + ScaleV2) l x n : inj <$> l = f_scale <$> (es ++ x :: tl) ->
  inj <$> <[length es := n]> l = f_scale <$> (es ++ x <| f_scale := inj n |> :: tl).
Proof.
  intros H. rewrite list_fmap_insert, H. apply (insert_fmap_mid f_scale es x tl (mkFilled (f_in x) (inj n) (f_pp x))).
Qed.
End Fill.
Lemma SetHWScaleData_wp w0 q es tl sd sub n x (Q : unit -> W -> Prop) w : filling w0 q es x tl w -> f_scale x = zero_scale q -> sub <> kHWDestinationScalar ->
  scale_entry q sd = Ret n ->
  (forall w', filling w0 q es (x <| f_in ::= fun m => m <| in_flags ::= or_if (scaled q sd) (if q then MDP_LAYER_ENABLE_QSEED3_SCALE else MDP_LAYER_ENABLE_PIXEL_EXT) |> |>
      <| f_scale := n |>) tl w' -> Q tt w') ->
  wp (SetHWScaleData sd (length es) sub) Q w.
Proof.
  intros Hf Hz Hsub En HQ. unfold SetHWScaleData. wp_step. eapply scale_wp; [exact Hf|]. intros s Hs Hl Hq. destruct s as [l|l d]; cbn in Hq; subst q; unfold scale_entry, scaled in *.
  - destruct (sd_scale sd =? 0); cbn [negb] in *.
    { apply wp_ret, HQ. injection En as <-. destruct x as [xi xs xp]. cbn in Hz. subst xs. by destruct xi. }
    rewrite decide_False by done. wp_step. eapply on_in_wp; [exact Hf|]. intros w1 H1. destruct (scales_at es tl inl l x Hl) as (e & He & Hxe). wp_step.
    eapply elem_run; [exact He|]. rewrite Nat2Z.id. injection En as <-. unfold zero_scale in Hz. rewrite Hz in Hxe. injection Hxe as <-.
    eapply set_scale_wp; [exact H1| |done|exact HQ]. etransitivity; [exact (scales_set es tl inl l _ (scale_v1 sd ScaleV1_0) Hl)|by apply fmap_mid_eq].
  - destruct ((sd_scale sd =? 0) && (sd_direction_detection sd =? 0) && (sd_detail_enhance sd =? 0)); cbn [negb] in *.
    { apply wp_ret, HQ. injection En as <-. destruct x as [xi xs xp]. cbn in Hz. subst xs. by destruct xi. }
    rewrite decide_False by done. wp_step. eapply on_in_wp; [exact Hf|]. intros w1 H1. destruct (scales_at es tl inr l x Hl) as (e & He & Hxe). wp_step.
    eapply elem_run; [exact He|]. unfold zero_scale in Hz. rewrite Hz in Hxe. injection Hxe as <-.
    apply bind_Ret_inv in En as (m & Em & [= <-]). wp_step. eapply wp_lift; [exact Em|]. rewrite Nat2Z.id.
    eapply set_scale_wp; [exact H1| |done|exact HQ]. etransitivity; [exact (scales_set es tl inr l _ m Hl)|by apply fmap_mid_eq].
Qed.
Lemma GetScaleDataRef_wp w0 q es tl sub x (Q : option ScaleRef -> W -> Prop) w : filling w0 q es x tl w -> sub <> kHWDestinationScalar ->
  Q (Some (LayerEntry (length es))) w -> wp (GetScaleDataRef (length es) sub) Q w.
Proof.
  intros Hf Hsub HQ. unfold GetScaleDataRef. wp_step. eapply scale_wp; [exact Hf|]. intros s Hs Hl Hq. destruct s as [l|l d]; rewrite decide_False by done.
  - destruct (scales_at es tl inl l x Hl) as (e & He & _). wp_step. eapply elem_run; [exact He|]. by apply wp_ret.
  - destruct (scales_at es tl inr l x Hl) as (e & He & _). wp_step. eapply elem_run; [exact He|]. by apply wp_ret.
Qed.

(** * One pipe *)
Definition pipe_ok (p : HWPipeInfo) : Prop := sub_block_type p <> kHWDestinationScalar.
(** The arrays are filled up to the counter. *)
Record filled (w0 : W) (q : bool) (es : list Filled) (n : nat) (w : W) : Prop := {
  filled_arrays : arrays q (es ++ replicate n (Filled0 q)) (dev w);
  filled_count : input_layer_cnt (mdp_commit (dev w)) = length es;
  filled_rest : rest w = rest w0
}.
Lemma igc_wp w0 q es tl b (p : bool) x (Q : unit -> W -> Prop) w : filling w0 q es x tl w ->
  (forall w', filling w0 q es (x <| f_pp ::= fun o => if p then mkPP (Some (bool_decide (igc b = kIGCsRGB))) true else o |>
       <| f_in ::= fun m => m <| pp_info ::= fun o => if p then Some (length es) else o |> <| in_flags ::= or_if p MDP_LAYER_PP |> |>) tl w' -> Q tt w') ->
  wp (if p then SetIGC b (length es) else mret tt) Q w.
Proof.
  intros Hf HQ. destruct p; [eapply SetIGC_wp; [exact Hf|exact HQ]|]. apply wp_ret, HQ. by destruct x as [[] ? ?].
Qed.
Lemma multirect_wp w0 q es tl (p r : bool) x (Q : unit -> W -> Prop) w : filling w0 q es x tl w ->
  (forall w', filling w0 q es (x <| f_in ::= fun m => m <| in_flags ::= fun f =>
       if p then or_if r MDP_LAYER_MULTIRECT_PARALLEL_MODE (Z.lor f MDP_LAYER_MULTIRECT_ENABLE) else f |> |>) tl w' -> Q tt w') ->
  wp (if p then on_in (length es) (fun m => m <| in_flags ::= fun f => or_if r MDP_LAYER_MULTIRECT_PARALLEL_MODE (Z.lor f MDP_LAYER_MULTIRECT_ENABLE) |>)
      else mret tt) Q w.
Proof.
  intros Hf HQ. destruct p; [eapply on_in_wp; [exact Hf|exact HQ]|]. apply wp_ret, HQ. by destruct x as [[] ? ?].
Qed.
Lemma rest_mode w w0 : rest w = rest w0 -> hw_panel_info_ (dev w) = hw_panel_info_ (dev w0).
Proof. unfold rest. congruence. Qed.
Lemma validate_pipe_wp w0 q es n j cursor_used x (Q : DisplayError -> W -> Prop) w :
  let mode := FbPanel.mode (hw_panel_info_ (dev w0)) in
  filled w0 q es (S n) w -> pipe_ok (j_pipe j) -> Z.of_nat (length es) + 1 < 2 ^ 32 -> entry q mode cursor_used (length es) j = Ret x ->
  (forall w', filled w0 q (es ++ [x]) n w' -> Q kErrorNone w') ->
  wp (validate_pipe (j_layer j) (j_config j) (j_pipe j) (j_buffer j) (negb (hw_block_count (hw_rotator_session (j_config j)) =? 0))
    (cursor_used && cursor (lflags (j_layer j)))) Q w.
Proof.
  intros mode [Ha Hc Hr] Hok Hlt Ex HQ. unfold entry in Ex. apply bind_Ret_inv in Ex as (numer & En & Ex). apply bind_Ret_inv in Ex as (f & Ef & Ex).
  apply bind_Ret_inv in Ex as (src & Es & Ex). apply bind_Ret_inv in Ex as (dst & Ed & Ex). apply bind_Ret_inv in Ex as (sc & Esc & [= <-]).
  assert (Hf : filling w0 q es (Filled0 q) (replicate n (Filled0 q)) w) by (split; done). clear Ha.
  unfold validate_pipe, get. wp_step. apply wp_gets. rewrite Hc. wp_step. eapply wp_lift; [exact En|]. wp_step.
  eapply on_in_wp; [exact Hf|]. clear Hf. intros w1 Hf. unfold job_format in Ef. destruct (if solid_fill _ then _ else _) as [f'|]; [|done]. injection Ef as ->.
  wp_step. eapply on_in_wp; [exact Hf|]. clear Hf. intros w2 Hf. wp_step. eapply wp_lift; [exact Es|]. wp_step. eapply wp_lift; [exact Ed|].
  wp_step. apply wp_gets. rewrite (rest_mode w2 w0 (filling_rest _ _ _ _ _ _ Hf)). fold mode. wp_step. eapply on_in_wp; [exact Hf|]. clear Hf. intros w3 Hf.
  wp_step. eapply igc_wp; [exact Hf|]. clear Hf. intros w4 Hf. wp_step. eapply multirect_wp; [exact Hf|]. clear Hf. intros w5 Hf.
  wp_step. eapply on_in_wp; [exact Hf|]. clear Hf. intros w6 Hf. wp_step. eapply SetHWScaleData_wp; [exact Hf|done|exact Hok|exact Esc|]. clear Hf. intros w7 Hf.
  wp_step. eapply GetScaleDataRef_wp; [exact Hf|exact Hok|]. wp_step. eapply on_in_wp; [exact Hf|]. clear Hf. intros w8 Hf. wp_step. apply wp_modify, wp_ret, HQ.
  destruct Hf as [Ha8 Hc8 Hr8]. split.
  - rewrite <- app_assoc. exact Ha8.
  - cbn. rewrite uwrap_small by lia. rewrite length_app. cbn. lia.
  - exact Hr8.
Qed.

(** * All pipes of a frame *)
Lemma entries_app q mode cu i a b fs : entries q mode cu i (a ++ b) = Ret fs ->
  exists fa fb, entries q mode cu i a = Ret fa /\ entries q mode cu (i + length fa) b = Ret fb /\ fs = fa ++ fb.
Proof.
  revert i fs. induction a as [|j a IH]; intros i fs H; cbn [entries app] in *.
  - exists [], fs. by rewrite Nat.add_0_r.
  - apply bind_Ret_inv in H as (f & Ef & H). apply bind_Ret_inv in H as (fs' & Efs & [= <-]). apply IH in Efs as (fa & fb & Ea & Eb & ->).
    exists (f :: fa), fb. rewrite Ef, bind_ret, Ea. cbn. split_and!; [done| |done]. by rewrite Nat.add_succ_r.
Qed.
Lemma entries_length q mode cu i js fs : entries q mode cu i js = Ret fs -> length fs = length js.
Proof.
  revert i fs. induction js as [|j js IH]; intros i fs H; cbn [entries] in H; [by injection H as <-|].
  apply bind_Ret_inv in H as (f & Ef & H). apply bind_Ret_inv in H as (fs' & Efs & [= <-]). cbn. by rewrite (IH _ _ Efs).
Qed.
Section Layers.
Context (w0 : W) (q cu : bool).
Abbreviation mode0 := (FbPanel.mode (hw_panel_info_ (dev w0))).

Lemma opt_pipe_wp es n j fs (Q : DisplayError -> W -> Prop) w : filled w0 q es n w -> pipe_ok (j_pipe j) -> (length es + n = kMaxSDELayers * 2)%nat ->
  entries q mode0 cu (length es) (if valid (j_pipe j) then [j] else []) = Ret fs -> (length fs <= n)%nat ->
  (forall w', filled w0 q (es ++ fs) (n - length fs) w' -> Q kErrorNone w') ->
  wp (if valid (j_pipe j) then validate_pipe (j_layer j) (j_config j) (j_pipe j) (j_buffer j)
        (negb (hw_block_count (hw_rotator_session (j_config j)) =? 0)) (cu && cursor (lflags (j_layer j))) else mret kErrorNone) Q w.
Proof.
  intros Hf Hok Hn He Hl HQ. destruct (valid (j_pipe j)); cbn [entries] in He.
  - apply bind_Ret_inv in He as (x & Ex & [= <-]). cbn in *. destruct n as [|n]; [lia|]. eapply validate_pipe_wp; [exact Hf|done| |exact Ex|].
    + unfold kMaxSDELayers in Hn. lia.
    + intros w' Hw. apply HQ. cbn in Hw |- *. by rewrite Nat.sub_0_r.
  - injection He as <-. apply wp_ret, HQ. by rewrite app_nil_r, Nat.sub_0_r.
Qed.
Lemma validate_layer_wp es n l c fs (Q : DisplayError -> W -> Prop) w : filled w0 q es n w -> pipe_ok (left_pipe c) -> pipe_ok (right_pipe c) ->
  (length es + n = kMaxSDELayers * 2)%nat -> entries q mode0 cu (length es) (layer_jobs l c) = Ret fs -> (length fs <= n)%nat ->
  (forall w', filled w0 q (es ++ fs) (n - length fs) w' -> Q kErrorNone w') -> wp (validate_layer cu l c) Q w.
Proof.
  intros Hf Hl Hr Hn He Hle HQ. unfold validate_layer, layer_jobs in *. destruct (rotates (hw_rotator_session c)) as [r0 r1].
  apply entries_app in He as (fa & fb & Ea & Eb & ->). rewrite length_app in Hle. wp_step.
  eapply (opt_pipe_wp es n (mkJob l c (left_pipe c) (pipe_buffer r0 c (input_buffer l)))); [exact Hf|exact Hl|exact Hn|exact Ea|lia|].
  intros w1 H1. rewrite decide_False by (intros X; by apply X). 
  eapply (opt_pipe_wp (es ++ fa) _ (mkJob l c (right_pipe c) (pipe_buffer r1 c (pipe_buffer r0 c (input_buffer l)))) fb); [exact H1|exact Hr| | |lia|].
  - rewrite length_app. lia.
  - rewrite length_app. exact Eb.
  - intros w2 H2. apply HQ. rewrite <- app_assoc in H2. rewrite length_app. replace (n - (length fa + length fb))%nat with (n - length fa - length fb)%nat by lia. exact H2.
Qed.
Definition pipes_ok (c : HWLayerConfig) : Prop := pipe_ok (left_pipe c) /\ pipe_ok (right_pipe c).
Lemma validate_layers_wp ls : forall cs es n fs (Q : DisplayError -> W -> Prop) w, filled w0 q es n w -> Forall pipes_ok cs -> (length ls <= length cs)%nat ->
  (length es + n = kMaxSDELayers * 2)%nat -> entries q mode0 cu (length es) (frame_jobs cs ls) = Ret fs -> (length fs <= n)%nat ->
  (forall w', filled w0 q (es ++ fs) (n - length fs) w' -> Q kErrorNone w') -> wp (validate_layers cu cs ls) Q w.
Proof.
  induction ls as [|l ls IH]; intros cs es n fs Q w Hf Hok Hlen Hn He Hle HQ; cbn [validate_layers frame_jobs] in *.
  - cbn [entries] in He. injection He as <-. apply wp_ret, HQ. by rewrite app_nil_r, Nat.sub_0_r.
  - destruct cs as [|c cs]; [cbn in Hlen; lia|]. inversion Hok as [|? ? [Hl Hr] Hok']; subst. apply entries_app in He as (fa & fb & Ea & Eb & ->).
    rewrite length_app in Hle. wp_step. eapply validate_layer_wp; [exact Hf|done|done|exact Hn|exact Ea|lia|]. intros w1 H1.
    rewrite decide_False by (intros X; by apply X). eapply (IH cs (es ++ fa) (n - length fa)%nat fb); [exact H1|exact Hok'|cbn in Hlen; lia| | |lia|].
    + rewrite length_app. lia.
    + rewrite length_app. exact Eb.
    + intros w2 H2. apply HQ. rewrite <- app_assoc in H2. rewrite length_app.
      replace (n - (length fa + length fb))%nat with (n - length fa - length fb)%nat by lia. exact H2.
Qed.
End Layers.

(** * The ends of a validation *)
Class DriverLaws := {
  dr_commit_total : forall s, total (dr_commit s : St V _); dr_ioctl_total : forall i, total (dr_ioctl i : St V _);
  dr_dup_total : forall fd, total (dr_dup fd : St V _); dr_close_total : forall fd, total (dr_close fd : St V _)
}.
Context {LAWS : DriverLaws}.
Lemma in_v_wp {A} (m : St V A) (Q : A -> W -> Prop) w : total m -> (forall a v, Q a (w <| drv := v |>)) -> wp (in_v m) Q w.
Proof. intros Hm HQ. destruct (Hm (drv w)) as (a & v & E & _). exists a, (w <| drv := v |>). unfold in_v. by rewrite E. Qed.
(** The driver is called once, with what the pointers lead to. *)
Definition committed (w : W) (r : Z + Z * Z * Z) (v : V) : W :=
  let d := dev w in let out_used := has_output (mdp_commit d) in
  let w := w <| log ::= fun l => l ++ [CCommit (submission d) r] |> <| drv := v |> in
  match r with
  | inl _ => w
  | inr (retire, release, out) =>
      w <| dev ::= fun d => d <| mdp_commit ::= fun c => c <| retire_fence := retire |> <| release_fence := release |> |>
             <| mdp_out_layer_ ::= if out_used then fun o => o <| out_buffer ::= fun b => b <| fence := out |> |> else id |> |>
  end.
Definition code (r : Z + Z * Z * Z) : option Z := match r with inl e => Some e | inr _ => None end.
Lemma atomic_commit_wp (Q : option Z -> W -> Prop) w : (forall r v, Q (code r) (committed w r v)) -> wp atomic_commit Q w.
Proof.
  intros HQ. unfold atomic_commit, get. wp_step. apply wp_gets. wp_step. apply in_v_wp; [apply dr_commit_total|]. intros r v. wp_step. apply wp_modify.
  specialize (HQ r v). unfold committed in HQ. destruct r as [e|[[retire release] out]]; [by apply wp_ret|]. wp_step. apply wp_modify. wp_step.
  destruct (has_output (mdp_commit (dev w))).
  - apply wp_modify, wp_ret. exact HQ.
  - apply wp_ret, wp_ret. exact HQ.
Qed.
(** The arrays stay when only the scalers of the destination change. *)
Definition same_arrays (q : bool) (L : list Filled) (n : nat) (w0 w : W) : Prop :=
  arrays q L (dev w) /\ length (mdp_dest_scalar_data_ (dev w)) = n /\ log w = log w0 /\ mdp_commit (dev w) = mdp_commit (dev w0) /\
  device_type_ (dev w) = device_type_ (dev w0) /\ mdp_out_layer_ (dev w) = mdp_out_layer_ (dev w0) /\ hw_panel_info_ (dev w) = hw_panel_info_ (dev w0) /\
  hw_resource_ (dev w) = hw_resource_ (dev w0) /\ stored_retire_fence (dev w) = stored_retire_fence (dev w0) /\
  synchronous_commit_ (dev w) = synchronous_commit_ (dev w0) /\ fb_node_index_ (dev w) = fb_node_index_ (dev w0).
Lemma on_dest_wp q L n w0 i f (Q : unit -> W -> Prop) w : same_arrays q L n w0 w -> 0 <= i < n -> (forall w', same_arrays q L n w0 w' -> Q tt w') ->
  wp (on_dest i f) Q w.
Proof.
  intros (Ha & Hn & Hr) Hi HQ. unfold on_dest, get. wp_step. apply wp_gets. destruct (lookup_lt_is_Some_2 (mdp_dest_scalar_data_ (dev w)) (Z.to_nat i)) as [x Hx]; [lia|].
  wp_step. rewrite <- (Z2Nat.id i) by lia. eapply elem_run; [exact Hx|]. apply wp_modify, HQ. split; [exact Ha|]. split; [|exact Hr]. cbn. by rewrite length_insert.
Qed.
Definition curves_ok (s : HWScaleData) : Prop :=
  Forall (fun l => (MAX_DET_CURVES <= length l)%nat) [adjust_a (detail_enhance s); adjust_b (detail_enhance s); adjust_c (detail_enhance s)].
Lemma copy_curve_ok l : (MAX_DET_CURVES <= length l)%nat -> copy_curve l = Ret (take MAX_DET_CURVES l).
Proof. intros H. unfold copy_curve. by rewrite (proj2 (Nat.leb_le _ _) H). Qed.
Lemma scale_v2_ok s old : curves_ok s -> exists e, scale_v2 s old = Ret e.
Proof.
  intros H. inversion H as [|? ? Ha H1]; subst. inversion H1 as [|? ? Hb H2]; subst. inversion H2 as [|? ? Hc _]; subst. unfold scale_v2, copy_detail.
  destruct (negb _); [|by eexists]. rewrite (copy_curve_ok _ Ha), (copy_curve_ok _ Hb), (copy_curve_ok _ Hc). by eexists.
Qed.
Lemma dest_scale_wp q L n w0 s i (Q : unit -> W -> Prop) w : same_arrays q L n w0 w -> 0 <= i < n -> curves_ok s -> (forall w', same_arrays q L n w0 w' -> Q tt w') ->
  wp (SetHWScaleData s i kHWDestinationScalar) Q w.
Proof.
  intros Hs Hi Hc HQ. pose proof Hs as [(H1 & H2 & sc & H3 & H4 & H5) Hrest]. unfold SetHWScaleData, scale, get. wp_step. wp_step. apply wp_gets. rewrite H3. apply wp_ret.
  destruct sc as [l|l d].
  - destruct (sd_scale s =? 0); [apply wp_ret; auto|]. rewrite decide_True by done. apply wp_ret. auto.
  - destruct (_ && _); [apply wp_ret; auto|]. rewrite decide_True by done. destruct (scale_v2_ok s (default ScaleV2_0 (zmap_get i d)) Hc) as [e He].
    wp_step. eapply wp_lift; [exact He|]. wp_step. apply wp_modify. eapply on_dest_wp; [|exact Hi|exact HQ]. split; [|exact Hrest].
    split; [exact H1|]. split; [exact H2|]. by exists (HWScaleV2 l (zmap_set i e d)).
Qed.
Lemma dest_ref_wp q L n w0 i (Q : option ScaleRef -> W -> Prop) w : same_arrays q L n w0 w -> (forall r w', same_arrays q L n w0 w' -> Q r w') ->
  wp (GetScaleDataRef i kHWDestinationScalar) Q w.
Proof.
  intros Hs HQ. pose proof Hs as [(H1 & H2 & sc & H3 & H4 & H5) Hrest]. unfold GetScaleDataRef, scale, get. wp_step. wp_step. apply wp_gets. rewrite H3. apply wp_ret.
  destruct sc as [l|l d]; rewrite decide_True by done; [apply wp_ret; auto|]. wp_step. apply wp_modify, wp_ret, HQ. split; [|exact Hrest].
  split; [exact H1|]. split; [exact H2|]. by eexists (HWScaleV2 l _).
Qed.
Definition dest_ok (s : HWDestScaleInfo) : Prop := curves_ok (dest_scale_data s) /\ exists r, SetRect (panel_roi s) = Ret r.
Lemma dest_loop_wp q L n w0 m : (forall i s, zmap_get i m = Some s -> dest_ok s) -> forall (k : nat) i index (Q : unit -> W -> Prop) w,
  same_arrays q L n w0 w -> 0 <= index <= i -> i + k <= n -> (forall w', same_arrays q L n w0 w' -> Q tt w') -> wp (dest_loop k i index m) Q w.
Proof.
  intros Hm. induction k as [|k IH]; intros i index Q w Hs Hi Hk HQ; cbn [dest_loop]; [apply wp_ret; auto|].
  destruct (zmap_get i m) as [s|] eqn:Es; [|apply IH; auto; lia]. destruct (Hm i s Es) as [Hc [r Hr]]. wp_step.
  eapply dest_scale_wp; [exact Hs|lia|exact Hc|]. intros w1 H1. wp_step. eapply on_dest_wp; [exact H1|lia|]. intros w2 H2. wp_step.
  assert (H3 : wp (match MDP_DESTSCALER_ROI_ENABLE with
     | Some f => r ← st_lift (SetRect (panel_roi s)); on_dest index (fun t => t <| ds_panel_roi := r |> <| ds_flags ::= fun g => Z.lor g f |>)
     | None => mret tt end) (fun _ w' => same_arrays q L n w0 w') w2).
  { destruct MDP_DESTSCALER_ROI_ENABLE; [|by apply wp_ret]. wp_step. eapply wp_lift; [exact Hr|]. eapply on_dest_wp; [exact H2|lia|auto]. }
  eapply wp_mono; [exact H3|]. intros u w3 H4. cbn beta in H4. wp_step. eapply dest_ref_wp; [exact H4|]. intros ref w4 H5. wp_step. eapply on_dest_wp; [exact H5|lia|].
  intros w5 H6. apply IH; auto; lia.
Qed.

(** * Commit *)
(** The buffer of the pipe is added to its entry. *)
Definition commit_in (t : FbPanel.HWDeviceType) (j : Job) (m : InLayer) : InLayer := m <| in_buffer ::= commit_buffer t (j_buffer j) |>.
Definition with_in (l : list InLayer) (w : W) : W := w <| dev ::= fun d => d <| mdp_in_layers_ := l |> |>.
Lemma with_in_id l w : mdp_in_layers_ (dev w) = l -> with_in l w = w.
Proof. intros <-. by destruct w as [[] ? ?]. Qed.
Definition commit_list (t : FbPanel.HWDeviceType) (js : list Job) (ms : list InLayer) : list InLayer := zip_with (commit_in t) js ms.
Section CommitLayers.
Context (t : FbPanel.HWDeviceType).

Lemma commit_pipe_wp p b j es ms tl (Q : Z -> W -> Prop) (w : W) : device_type_ (dev w) = t -> mdp_in_layers_ (dev w) = es ++ ms ++ tl -> j_buffer j = b ->
  length ms = length (if valid p then [j] else []) ->
  Q (Z.of_nat (length es + length ms)) (with_in (es ++ commit_list t (if valid p then [j] else []) ms ++ tl) w) -> wp (commit_pipe p b (length es)) Q w.
Proof.
  intros Ht Hl Hj Hm HQ. unfold commit_pipe. destruct (valid p).
  - destruct ms as [|m [|]]; [done| |done]. cbn in Hl. wp_step. apply wp_gets. rewrite Ht. wp_step. unfold on_in, get. wp_step. apply wp_gets. wp_step.
    eapply (elem_run _ (length es) m); [rewrite Hl; by rewrite list_lookup_middle|]. apply wp_modify, wp_ret. rewrite Nat2Z.id.
    cbn in HQ. rewrite Nat.add_1_r, Nat2Z.inj_succ, <- Z.add_1_r in HQ. unfold with_in, commit_in in HQ. rewrite Hj in HQ.
    destruct w as [d lg v]. cbn in *. rewrite Hl, insert_mid. exact HQ.
  - destruct ms; [|done]. cbn in *. rewrite Nat.add_0_r in HQ. rewrite with_in_id in HQ by done. by apply wp_ret.
Qed.
Lemma commit_list_app a b ma mb : length ma = length a -> commit_list t (a ++ b) (ma ++ mb) = commit_list t a ma ++ commit_list t b mb.
Proof. intros H. by apply zip_with_app. Qed.
Lemma commit_list_length js ms : length ms = length js -> length (commit_list t js ms) = length ms.
Proof. intros H. unfold commit_list. rewrite length_zip_with. lia. Qed.
Lemma with_in_twice l l' w : with_in l (with_in l' w) = with_in l w.
Proof. done. Qed.
Lemma commit_layer_wp l c es ms tl (Q : Z -> W -> Prop) w : device_type_ (dev w) = t -> mdp_in_layers_ (dev w) = es ++ ms ++ tl -> length ms = length (layer_jobs l c) ->
  Q (Z.of_nat (length es + length ms)) (with_in (es ++ commit_list t (layer_jobs l c) ms ++ tl) w) -> wp (commit_layer l c (length es)) Q w.
Proof.
  intros Ht Hl Hm HQ. unfold commit_layer, layer_jobs in *. destruct (rotates (hw_rotator_session c)) as [r0 r1].
  set (j0 := mkJob l c (left_pipe c) _) in *. set (j1 := mkJob l c (right_pipe c) _) in *. set (a := if valid (left_pipe c) then [j0] else []) in *.
  rewrite length_app in Hm. set (ma := take (length a) ms). set (mb := drop (length a) ms). assert (Em : ms = ma ++ mb) by (symmetry; apply take_drop).
  assert (La : length ma = length a) by (unfold ma; rewrite length_take; lia). assert (Lb : length mb = length (if valid (right_pipe c) then [j1] else [])) by (unfold mb; rewrite length_drop; lia).
  wp_step. apply (commit_pipe_wp _ _ j0 es ma (mb ++ tl)); [done| |done|done|]. { by rewrite Hl, Em, <- app_assoc. }
  assert (Ha : length (es ++ commit_list t a ma) = (length es + length ma)%nat) by (by rewrite length_app, commit_list_length).
  rewrite <- Ha. apply (commit_pipe_wp _ _ j1 _ mb tl); [done| |done|done|]. { cbn. by rewrite <- app_assoc. }
  rewrite with_in_twice, Ha. rewrite Em, commit_list_app, length_app in HQ by done. rewrite <- !app_assoc in *. by rewrite <- Nat.add_assoc.
Qed.
Lemma commit_layers_wp ls : forall cs es ms tl (Q : Z -> W -> Prop) w, device_type_ (dev w) = t -> mdp_in_layers_ (dev w) = es ++ ms ++ tl ->
  (length ls <= length cs)%nat -> length ms = length (frame_jobs cs ls) ->
  Q (Z.of_nat (length es + length ms)) (with_in (es ++ commit_list t (frame_jobs cs ls) ms ++ tl) w) -> wp (commit_layers cs ls (length es)) Q w.
Proof.
  induction ls as [|l ls IH]; intros cs es ms tl Q w Ht Hl Hlen Hm HQ; cbn [commit_layers frame_jobs] in *.
  - destruct ms; [|done]. cbn in *. rewrite Nat.add_0_r in HQ. rewrite with_in_id in HQ by done. by apply wp_ret.
  - destruct cs as [|c cs]; [cbn in Hlen; lia|]. rewrite length_app in Hm. set (a := layer_jobs l c) in *. set (ma := take (length a) ms). set (mb := drop (length a) ms).
    assert (Em : ms = ma ++ mb) by (symmetry; apply take_drop). assert (La : length ma = length a) by (unfold ma; rewrite length_take; lia).
    assert (Lb : length mb = length (frame_jobs cs ls)) by (unfold mb; rewrite length_drop; lia).
    wp_step. apply (commit_layer_wp l c es ma (mb ++ tl)); [done| |done|]. { by rewrite Hl, Em, <- app_assoc. } fold a.
    assert (Ha : length (es ++ commit_list t a ma) = (length es + length ma)%nat) by (by rewrite length_app, commit_list_length).
    rewrite <- Ha. apply (IH cs _ mb tl); [done| |cbn in Hlen; lia|done|]. { cbn. by rewrite <- app_assoc. }
    rewrite with_in_twice, Ha. rewrite Em, commit_list_app, length_app in HQ by done. rewrite <- !app_assoc in *. by rewrite <- Nat.add_assoc.
Qed.
End CommitLayers.

(** * Fences *)
(** Each layer, or the output of its rotator, with its fence. *)
Fixpoint give_all (fds : list Z) (cs : list HWLayerConfig) (ls : list Layer) {struct ls} : list HWLayerConfig * list Layer :=
  match ls, cs, fds with
  | l :: ls, c :: cs, r :: fds =>
      let '(cs', ls') := give_all fds cs ls in
      if negb (hw_block_count (hw_rotator_session c) =? 0)
      then (c <| hw_rotator_session ::= fun s => s <| output_buffer ::= give_fence r |> |> :: cs', l :: ls')
      else (c :: cs', l <| input_buffer ::= give_fence r |> :: ls')
  | _, _, _ => (cs, [])
  end.
Definition logged (l : list Call) (v : V) (w : W) : W := w <| log ::= fun o => o ++ l |> <| drv := v |>.
Lemma dup_wp fd (Q : Z -> W -> Prop) w : (forall r v, Q r (logged [CDup fd r] v w)) -> wp (dup fd) Q w.
Proof. intros HQ. unfold dup. wp_step. apply in_v_wp; [apply dr_dup_total|]. intros r v. wp_step. apply wp_modify, wp_ret, HQ. Qed.
Lemma close_wp fd (Q : unit -> W -> Prop) w : (forall v, Q tt (logged [CClose fd] v w)) -> wp (close fd) Q w.
Proof. intros HQ. unfold close. wp_step. apply in_v_wp; [apply dr_close_total|]. intros [] v. apply wp_modify, HQ. Qed.
Lemma logged_app a b v v' w : logged b v' (logged a v w) = logged (a ++ b) v' w.
Proof. unfold logged. destruct w. cbn. by rewrite <- app_assoc. Qed.
Lemma release_layers_wp fd ls : forall cs (Q : _ -> W -> Prop) w, (length ls <= length cs)%nat ->
  (forall fds v, length fds = length ls -> Q (give_all fds cs ls) (logged (CDup fd <$> fds) v w)) -> wp (release_layers fd cs ls) Q w.
Proof.
  induction ls as [|l ls IH]; intros cs Q w Hl HQ; cbn [release_layers].
  - apply wp_ret. specialize (HQ [] (drv w) eq_refl). cbn [give_all] in HQ. unfold logged in HQ. destruct w. cbn in HQ. by rewrite app_nil_r in HQ.
  - destruct cs as [|c cs]; [cbn in Hl; lia|]. wp_step. apply dup_wp. intros r v. wp_step. apply IH; [cbn in Hl; lia|]. intros fds v' Hf.
    specialize (HQ (r :: fds) v' (f_equal S Hf)). cbn [give_all] in HQ. rewrite logged_app. destruct (give_all fds cs ls) as [cs' ls'].
    apply wp_ret. exact HQ.
Qed.
End Facts.
End FbFacts.
