(* ===== verification/FbProps.v ===== *)
(** The properties of the frame buffer device: what the driver is given in a validation and
    in the commit after it, and what becomes of its fences. *)
From S2P Require Import Prelude Rect ResourceDefault Strategy HwcLayer Cec FbScale FbPanel FbDevice Wp FbFacts CecProps.
#[local] Open Scope Z_scope.

Module FbProps.
Import Float32 Formats Rect ResourceDefault HwcLayer FbScale FbDevice FbFacts.

Section Props.
Context {MDP : Mdp} {V : Type} {SYS : FbPanel.Sysfs V} {DRV : Driver V} {LAWS : DriverLaws}.
Abbreviation W := (World V).
Abbreviation M := (St (World V)).

(** * A commit *)
Definition jobs (h : HWLayers) : list Job := frame_jobs (config h) (hw_layers h).
(** No change of the mode is pending, and the layers of the frame fit the arrays. *)
Record commit_ready (h : HWLayers) (w : W) : Prop := {
  cr_sync : synchronous_commit_ (dev w) = false;
  cr_type : device_type_ (dev w) <> FbPanel.kDeviceVirtual;
  cr_config : (length (hw_layers h) <= length (config h))%nat;
  cr_jobs : (length (jobs h) <= length (mdp_in_layers_ (dev w)))%nat
}.
(** The entries with the buffers of their pipes, of which the driver looks at as many as
    were counted. *)
Definition committed_layers (h : HWLayers) (w : W) : list InLayer :=
  let l := mdp_in_layers_ (dev w) in
  take (Z.to_nat (input_layer_cnt (mdp_commit (dev w))))
    (commit_list (device_type_ (dev w)) (jobs h) (take (length (jobs h)) l) ++ drop (length (jobs h)) l).
Definition defers (w : W) : bool := video_mode_defer_retire_fence && bool_decide (FbPanel.mode (hw_panel_info_ (dev w)) = Strategy.kModeVideo).
(** What a commit gives out, by the answer of the driver. *)
Definition fences_given (h h' : HWLayers) (w w' : W) (s : Submission) (r : Z + Z * Z * Z) (e : DisplayError) : Prop :=
  match r with
  | inl errno => e = ioctl_error (Some errno) /\ h' = h /\ log w' = log w ++ [CCommit s r] /\ stored_retire_fence (dev w') = stored_retire_fence (dev w)
  | inr (retired, release, _) => exists fds handle,
      e = kErrorNone /\ length fds = length (hw_layers h) /\
      log w' = log w ++ CCommit s r :: (CDup release <$> fds) ++ CDup release handle :: (if 0 <=? release then [CClose release] else []) /\
      (config h', hw_layers h') = give_all fds (config h) (hw_layers h) /\ sync_handle h' = handle /\
      if defers w then retire_fence_fd h' = stored_retire_fence (dev w) /\ stored_retire_fence (dev w') = retired
      else retire_fence_fd h' = retired /\ stored_retire_fence (dev w') = stored_retire_fence (dev w)
  end.
Lemma retire_wp h (Q : HWLayers -> W -> Prop) w :
  (let fd := retire_fence (mdp_commit (dev w)) in
   if defers w then Q (h <| retire_fence_fd := stored_retire_fence (dev w) |>) (w <| dev ::= fun d => d <| stored_retire_fence := fd |> |>)
   else Q (h <| retire_fence_fd := fd |>) w) -> wp (retire h) Q w.
Proof.
  intros HQ. unfold retire, get. wp_step. apply wp_gets. wp_step. apply wp_gets. unfold defers in HQ. destruct (_ && _); [|by apply wp_ret].
  wp_step. apply wp_gets. wp_step. by apply wp_modify, wp_ret.
Qed.
(** The end of a commit: the duplicates, and the fence of the frame is closed. *)
Lemma release_tail_wp (sync : bool) h (Q : DisplayError * HWLayers -> W -> Prop) w : sync = false -> (length (hw_layers h) <= length (config h))%nat ->
  (let release := release_fence (mdp_commit (dev w)) in forall fds handle v, length fds = length (hw_layers h) ->
     let '(cs, ls) := give_all fds (config h) (hw_layers h) in
     Q (kErrorNone, h <| config := cs |> <| hw_layers := ls |> <| sync_handle := handle |>)
       (logged ((CDup release <$> fds) ++ CDup release handle :: (if 0 <=? release then [CClose release] else [])) v w)) ->
  wp (release ← get (fun d => release_fence (mdp_commit d));
      '(cs, ls) ← release_layers release (config h) (hw_layers h);
      handle ← dup release;
      _ ← (if 0 <=? release then close release else mret tt);
      _ ← (if (sync : bool) then _ ← PopulateHWPanelInfo; on_dev (fun d => d <| synchronous_commit_ := false |>) else mret tt);
      mret (kErrorNone, h <| config := cs |> <| hw_layers := ls |> <| sync_handle := handle |>)) Q w.
Proof.
  intros -> Hl HQ. cbv zeta in HQ. wp_step. apply wp_gets. set (rel := release_fence (mdp_commit (dev w))) in *. wp_step. apply release_layers_wp; [done|].
  intros fds v Hf. specialize (HQ fds). destruct (give_all fds (config h) (hw_layers h)) as [cs ls]. wp_step. apply dup_wp. intros handle v1. rewrite logged_app.
  specialize (HQ handle). wp_step. destruct (0 <=? rel).
  - apply close_wp. intros v2. rewrite logged_app, <- app_assoc. wp_step. apply wp_ret, wp_ret. by apply HQ.
  - apply wp_ret. wp_step. apply wp_ret, wp_ret. by apply HQ.
Qed.
Lemma ldiff_clear f v : Z.land (Z.ldiff f v) v = 0.
Proof. apply Z.bits_inj'. intros i Hi. rewrite Z.land_spec, Z.ldiff_spec, Z.bits_0. by destruct (Z.testbit f i), (Z.testbit v i). Qed.
Lemma Commit_calls h w : commit_ready h w ->
  exists s r e h' w', HWDevice_Commit h w = Ret ((e, h'), w') /\ sub_layers s = committed_layers h w /\ Z.land (flags (sub_commit s)) MDP_VALIDATE_LAYER = 0 /\
    fences_given h h' w w' s r e.
Proof.
  intros [Hs Ht Hc Hj].
  enough (Hw : wp (HWDevice_Commit h) (fun a w' => exists s r, sub_layers s = committed_layers h w /\ Z.land (flags (sub_commit s)) MDP_VALIDATE_LAYER = 0 /\
    fences_given h (snd a) w w' s r (fst a)) w).
  { destruct Hw as ([e h'] & w' & E & s & r & H1 & H2 & H3). exists s, r, e, h', w'. auto. }
  unfold HWDevice_Commit. wp_step. set (n := length (jobs h)) in *. set (l := mdp_in_layers_ (dev w)) in *.
  apply (commit_layers_wp (device_type_ (dev w)) (hw_layers h) (config h) [] (take n l) (drop n l)); [done|by rewrite app_nil_l, take_drop|done|rewrite length_take; unfold jobs in *; lia|].
  cbn [app]. set (L := commit_list _ _ _ ++ _). wp_step. apply wp_gets. wp_step.
  change (device_type_ (dev (with_in L w))) with (device_type_ (dev w)). rewrite decide_False by done. apply wp_ret. rewrite decide_False by (intros X; by apply X).
  wp_step. apply wp_gets. change (synchronous_commit_ (dev (with_in L w))) with (synchronous_commit_ (dev w)). rewrite Hs. wp_step. apply wp_modify.
  wp_step. apply atomic_commit_wp.
  intros r v. match goal with |- context [committed ?x r v] => set (w1 := x) end.
  assert (Hsub : sub_layers (submission (dev w1)) = committed_layers h w) by done.
  assert (Hfl : Z.land (flags (sub_commit (submission (dev w1)))) MDP_VALIDATE_LAYER = 0) by apply ldiff_clear.
  destruct r as [errno|[[retired release] out]]; cbn [code].
  - wp_step. destruct (errno =? ESHUTDOWN); [apply wp_ret, wp_ret|apply wp_modify, wp_ret];
      (exists (submission (dev w1)), (inl errno); split; [exact Hsub|]; split; [exact Hfl|]; done).
  - wp_step. apply retire_wp. cbv zeta. change (defers (committed w1 (inr (retired, release, out)) v)) with (defers w).
    destruct (defers w) eqn:Ed; (apply (release_tail_wp false); [done|done|]; cbv zeta; intros fds handle v' Hf; destruct (give_all fds _ _) as [cs ls] eqn:Eg;
      exists (submission (dev w1)), (inr (retired, release, out)); split; [exact Hsub|]; split; [exact Hfl|]; exists fds, handle; rewrite Ed;
      split_and!; try done; cbn; by rewrite <- app_assoc).
Qed.

(** * A validation *)

(** The arrays were reset, and what a validation does not change. *)
Record started (w0 : W) (q : bool) (w : W) : Prop := {
  st_arrays : arrays q (replicate (kMaxSDELayers * 2) (Filled0 q)) (dev w);
  st_count : input_layer_cnt (mdp_commit (dev w)) = 0;
  st_dest : length (mdp_dest_scalar_data_ (dev w)) = length (mdp_dest_scalar_data_ (dev w0));
  st_log : log w = log w0;
  st_resource : hw_resource_ (dev w) = hw_resource_ (dev w0);
  st_panel : hw_panel_info_ (dev w) = hw_panel_info_ (dev w0);
  st_type : device_type_ (dev w) = device_type_ (dev w0);
  st_sync : synchronous_commit_ (dev w) = synchronous_commit_ (dev w0)
}.
Lemma started_commit w0 q f (Q : unit -> W -> Prop) w : started w0 q w -> (forall c, input_layer_cnt (f c) = input_layer_cnt c) ->
  (forall w', started w0 q w' -> Q tt w') -> wp (on_commit f) Q w.
Proof. intros [] Hf HQ. apply wp_modify, HQ. split; try done. cbn. by rewrite Hf. Qed.
Lemma started_out w0 q f (Q : unit -> W -> Prop) w : started w0 q w -> (forall w', started w0 q w' -> Q tt w') -> wp (on_out f) Q w.
Proof. intros [] HQ. apply wp_modify, HQ. by split. Qed.
Definition scaler (w : W) (q : bool) : Prop := exists s, hw_scale_ (dev w) = Some s /\ is_v2 s = q.
Lemma reset_wp q (Q : unit -> W -> Prop) w : scaler w q -> (forall w', started w q w' -> Q tt w') -> wp ResetDisplayParams Q w.
Proof.
  intros (s & Hs & Hq) HQ. unfold ResetDisplayParams, scale, get. wp_step. wp_step. apply wp_gets. rewrite Hs. apply wp_ret, wp_modify, HQ. split; try done.
  - split; [by rewrite fmap_replicate|]. split; [by rewrite fmap_replicate|]. exists (ResetScaleParams s). split; [done|]. rewrite fmap_replicate.
    subst q. destruct s; cbn -[replicate]; by rewrite fmap_replicate.
  - cbn. by rewrite length_fmap.
Qed.
(** The limits of the driver's arrays, and the numbers that are cast to integers. *)
Record frame_ok (w : W) (q : bool) (h : HWLayers) (fs : list Filled) : Prop := {
  fo_config : length (config h) = kMaxSDELayers;
  fo_layers : (length (hw_layers h) <= kMaxSDELayers)%nat;
  fo_pipes : Forall pipes_ok (config h);
  fo_entries : entries q (FbPanel.mode (hw_panel_info_ (dev w))) (use_hw_cursor h) 0 (jobs h) = Ret fs;
  fo_roi : exists l ls r rs lr, left_frame_roi h = l :: ls /\ right_frame_roi h = r :: rs /\ frame_rect l = Ret lr /\
    (forall x, (x = r \/ ls = [x]) -> exists rr, frame_rect x = Ret rr);
  fo_out : exists n, UINT32 (fmul (output_compression h) (FLOAT 1000)) = Ret n;
  fo_dest : forall i s, zmap_get i (dest_scale_info_map h) = Some s -> dest_ok s
}.
Lemma layer_jobs_length l c : (length (layer_jobs l c) <= 2)%nat.
Proof. unfold layer_jobs. destruct (rotates _), (valid (left_pipe c)), (valid (right_pipe c)); cbn; lia. Qed.
Lemma frame_jobs_length ls : forall cs, (length (frame_jobs cs ls) <= 2 * length ls)%nat.
Proof.
  induction ls as [|l ls IH]; intros cs; [done|]. destruct cs as [|c cs]; [cbn; lia|]. cbn [frame_jobs length]. rewrite length_app.
  pose proof (layer_jobs_length l c). specialize (IH cs). lia.
Qed.
Lemma lor_has f v : Z.land (Z.lor f v) v = v.
Proof. apply Z.bits_inj'. intros i Hi. rewrite Z.land_spec, Z.lor_spec. by destruct (Z.testbit f i), (Z.testbit v i). Qed.
(** The entries are handed over, all of them and in order; the arrays keep them. *)
Record submitted (w0 : W) (q : bool) (fs : list Filled) (s : Submission) (r : Z + Z * Z * Z) (w : W) : Prop := {
  su_layers : sub_layers s = f_in <$> fs;
  su_pp : exists n, sub_pp s = (f_pp <$> fs) ++ replicate n PP0;
  su_scale : exists sc n, sub_scale s = Some sc /\ layer_scales sc = (f_scale <$> fs) ++ replicate n (zero_scale q);
  su_flags : Z.land (flags (sub_commit s)) MDP_VALIDATE_LAYER = MDP_VALIDATE_LAYER;
  su_log : log w = log w0 ++ [CCommit s r];
  su_in : mdp_in_layers_ (dev w) = (f_in <$> fs) ++ replicate (kMaxSDELayers * 2 - length fs) InLayer0;
  su_count : input_layer_cnt (mdp_commit (dev w)) = length fs;
  su_type : device_type_ (dev w) = device_type_ (dev w0);
  su_resource : hw_resource_ (dev w) = hw_resource_ (dev w0);
  su_sync : synchronous_commit_ (dev w) = synchronous_commit_ (dev w0)
}.
Lemma flags_have (f : Z) : Z.land (match MDP_COMMIT_RECT_NUM with Some g => Z.lor (Z.lor f MDP_VALIDATE_LAYER) g | None => Z.lor f MDP_VALIDATE_LAYER end) MDP_VALIDATE_LAYER = MDP_VALIDATE_LAYER.
Proof.
  destruct MDP_COMMIT_RECT_NUM; [|apply lor_has]. rewrite Z.land_lor_distr_l, lor_has. apply Z.bits_inj'. intros i Hi. rewrite Z.lor_spec, Z.land_spec.
  by destruct (Z.testbit z i), (Z.testbit MDP_VALIDATE_LAYER i).
Qed.
Lemma take_filled {A} (f : Filled -> A) fs n x : take (length fs) (f <$> (fs ++ replicate n x)) = f <$> fs.
Proof. rewrite fmap_app, take_app_length'; [done|by rewrite length_fmap]. Qed.
Lemma rest_fields (w w0 : W) : rest w = rest w0 -> log w = log w0 /\ hw_resource_ (dev w) = hw_resource_ (dev w0) /\
  device_type_ (dev w) = device_type_ (dev w0) /\ mdp_dest_scalar_data_ (dev w) = mdp_dest_scalar_data_ (dev w0) /\
  synchronous_commit_ (dev w) = synchronous_commit_ (dev w0).
Proof. unfold rest. intros H. split_and!; congruence. Qed.
Lemma Validate_wp w0 q h fs (Q : DisplayError -> W -> Prop) w : started w0 q w -> frame_ok w0 q h fs -> device_type_ (dev w0) <> FbPanel.kDeviceVirtual ->
  Z.of_nat (length (mdp_dest_scalar_data_ (dev w0))) = Z.max 0 (dest_count (hw_resource_ (dev w0))) ->
  (forall s r w', submitted w0 q fs s r w' -> Q (ioctl_error (code r)) w') -> wp (HWDevice_Validate h) Q w.
Proof.
  intros St Fo Ht Hd HQ. pose proof (entries_length _ _ _ _ _ _ (fo_entries _ _ _ _ Fo)) as Hl. pose proof (frame_jobs_length (hw_layers h) (config h)) as Hj.
  pose proof (fo_layers _ _ _ _ Fo) as Hn. fold (jobs h) in Hj. unfold HWDevice_Validate. wp_step.
  eapply (validate_layers_wp w q (use_hw_cursor h) (hw_layers h) (config h) [] (kMaxSDELayers * 2) fs).
  - split; [exact (st_arrays _ _ _ St)|exact (st_count _ _ _ St)|done].
  - exact (fo_pipes _ _ _ _ Fo).
  - by rewrite (fo_config _ _ _ _ Fo).
  - done.
  - rewrite (st_panel _ _ _ St). exact (fo_entries _ _ _ _ Fo).
  - lia.
  - cbn [app]. intros w1 [Ha Hc Hr]. rewrite decide_False by (intros X; by apply X). 
    apply rest_fields in Hr as (R1 & R4 & R6 & R8 & R10). destruct St. wp_step. apply wp_gets. wp_step. rewrite R6, st_type0, decide_False by done. apply wp_ret.
    wp_step. apply wp_gets. rewrite R4, st_resource0. wp_step.
    apply (dest_loop_wp q (fs ++ replicate (kMaxSDELayers * 2 - length fs) (Filled0 q)) (length (mdp_dest_scalar_data_ (dev w0))) w1 _ (fo_dest _ _ _ _ Fo)).
    + split; [exact Ha|]. rewrite R8, st_dest0. done.
    + lia.
    + lia.
    + intros w2 ((A1 & A2 & sc & A3 & A4 & A5) & B1 & B2 & B3 & B4 & B5 & B6 & B7 & B8 & B9 & B10). wp_step. apply wp_modify. wp_step. apply atomic_commit_wp.
      intros r v. apply wp_ret. match goal with |- context [committed ?x r v] => set (w3 := x) end. apply (HQ (submission (dev w3))).
      assert (C1 : input_layer_cnt (mdp_commit (dev w3)) = length fs) by (cbn; by rewrite B3).
      assert (C2 : mdp_in_layers_ (dev w3) = f_in <$> (fs ++ replicate (kMaxSDELayers * 2 - length fs) (Filled0 q))) by exact A1. split.
      * unfold submission. cbn [sub_layers]. rewrite C1, C2, Nat2Z.id. apply take_filled.
      * exists (kMaxSDELayers * 2 - length fs)%nat. cbn. rewrite A2, fmap_app, fmap_replicate. done.
      * exists sc, (kMaxSDELayers * 2 - length fs)%nat. cbn. split; [exact A3|]. by rewrite A4, fmap_app, fmap_replicate.
      * apply flags_have.
      * unfold committed. destruct r as [|[[? ?] ?]]; cbn; by rewrite B2, R1, st_log0.
      * transitivity (mdp_in_layers_ (dev w3)); [by destruct r as [|[[? ?] ?]]|]. by rewrite C2, fmap_app, fmap_replicate.
      * transitivity (input_layer_cnt (mdp_commit (dev w3))); [by destruct r as [|[[? ?] ?]]|done].
      * transitivity (device_type_ (dev w3)); [by destruct r as [|[[? ?] ?]]|]. cbn. congruence.
      * transitivity (hw_resource_ (dev w3)); [by destruct r as [|[[? ?] ?]]|]. cbn. congruence.
      * transitivity (synchronous_commit_ (dev w3)); [by destruct r as [|[[? ?] ?]]|]. cbn. congruence.
Qed.

(** * The primary panel *)

(** After Init: a scaler, a destination scaler for each of the hardware, no change of mode. *)
Record device_ready (w : W) (q : bool) : Prop := {
  dr_scaler : scaler w q;
  dr_type : device_type_ (dev w) = FbPanel.kDevicePrimary;
  dr_dests : Z.of_nat (length (mdp_dest_scalar_data_ (dev w))) = Z.max 0 (dest_count (hw_resource_ (dev w)));
  dr_sync : synchronous_commit_ (dev w) = false
}.
Lemma roi_wp w0 q res (r : LayerRect) split (Q : unit -> W -> Prop) w : started w0 q w -> (exists rr, frame_rect r = Ret rr) ->
  (forall w', started w0 q w' -> Q tt w') ->
  wp (if IsValid r then
        rr ← st_lift (frame_rect r);
        on_commit (fun c => c <| right_roi := if is_src_split res then rr else mkMRect (u32 (rx rr - split)) (ry rr) (rw rr) (rh rr) |>)
      else mret tt) Q w.
Proof.
  intros St [rr Hr] HQ. destruct (IsValid r); [|by apply wp_ret, HQ]. wp_step. eapply wp_lift; [exact Hr|]. by eapply started_commit.
Qed.
Lemma writeback_wp w0 q h res (Q : unit -> W -> Prop) w : started w0 q w -> (exists n, UINT32 (fmul (output_compression h) (FLOAT 1000)) = Ret n) ->
  (forall w', started w0 q w' -> Q tt w') ->
  wp (match stack_output h with
      | Some o =>
          if has_concurrent_writeback res then
            numer ← st_lift (UINT32 (fmul (output_compression h) (FLOAT 1000)));
            _ ← on_out (fun l => l <| writeback_ndx := writeback_index res |>
                  <| out_color_space ::= fun c => if out_layer_color_space then SetCSC (color_metadata o) c else c |>
                  <| out_buffer ::= fun b => b <| mb_width := unaligned_width o |> <| mb_height := unaligned_height o |> <| comp_denom := 1000 |>
                       <| comp_numer := numer |> <| fence := -1 |>
                       <| mb_format ::= fun old => match SetFormat (bformat o) with Some f => Some f | None => old end |> |>);
            on_commit (fun c => c <| flags ::= fun f => or_if (post_processed_output h) MDP_COMMIT_CWB_DSPP (Z.lor f MDP_COMMIT_CWB_EN) |>)
          else mret tt
      | None => mret tt
      end) Q w.
Proof.
  intros St [n Hn] HQ. destruct (stack_output h); [|by apply wp_ret, HQ]. destruct (has_concurrent_writeback res); [|by apply wp_ret, HQ].
  wp_step. eapply wp_lift; [exact Hn|]. wp_step. eapply started_out; [exact St|]. intros w1 H1. by eapply started_commit.
Qed.
Lemma dual_roi_wp w0 q (ls : list LayerRect) r (Q : LayerRect -> W -> Prop) w : started w0 q w ->
  (forall x w', x = r \/ ls = [x] -> started w0 q w' -> Q x w') ->
  wp (match ls with
      | [l1] => _ ← on_commit (fun c => c <| flags ::= fun f => Z.lor f MDP_COMMIT_PARTIAL_UPDATE_DUAL_ROI |>); mret l1
      | _ => mret r
      end) Q w.
Proof.
  intros St HQ. destruct ls as [|l1 [|]]; [apply wp_ret, HQ; auto| |apply wp_ret, HQ; auto]. wp_step. eapply started_commit; [exact St|done|]. intros w1 H1.
  apply wp_ret, HQ; auto.
Qed.
Lemma Primary_Validate_wp q h fs (Q : DisplayError -> W -> Prop) w : device_ready w q -> frame_ok w q h fs ->
  (forall s r w', submitted w q fs s r w' -> Q (ioctl_error (code r)) w') -> wp (Primary_Validate h) Q w.
Proof.
  intros Dr Fo HQ. destruct (fo_roi _ _ _ _ Fo) as (l & ls & r & rs & lr & El & Er & Elr & Hr). unfold Primary_Validate. wp_step.
  eapply reset_wp; [exact (dr_scaler _ _ Dr)|]. intros w1 H1. rewrite El, Er. wp_step. eapply wp_lift; [exact Elr|]. wp_step. eapply started_commit; [exact H1|done|].
  intros w2 H2. wp_step. eapply dual_roi_wp; [exact H2|]. intros x w3 Hx H3. wp_step. apply wp_gets. wp_step. eapply roi_wp; [exact H3|exact (Hr x Hx)|].
  intros w4 H4. wp_step. eapply writeback_wp; [exact H4|exact (fo_out _ _ _ _ Fo)|]. intros w5 H5. wp_step.
  assert (H6 : wp (if has_avr (hw_resource_ (dev w3)) then on_commit (fun c => c <| flags ::= SetAVRFlags h |>) else mret tt) (fun _ w' => started w q w') w5).
  { destruct (has_avr _); [|by apply wp_ret]. by eapply started_commit. }
  eapply wp_mono; [exact H6|]. intros u w6 H7. cbn beta in H7. eapply Validate_wp; [exact H7|exact Fo| |exact (dr_dests _ _ Dr)|exact HQ].
  by rewrite (dr_type _ _ Dr).
Qed.
(** The driver can write the output when there is one. *)
Definition output_ok (w : W) (h : HWLayers) : Prop :=
  match stack_output h with Some o => has_concurrent_writeback (hw_resource_ (dev w)) = true -> 0 <= plane_fd o | None => True end.
Lemma Primary_Commit_calls h w : commit_ready h w -> output_ok w h ->
  exists s r res w' tl, Primary_Commit h w = Ret (res, w') /\ log w' = log w ++ CCommit s r :: tl /\ sub_layers s = committed_layers h w /\
    Z.land (flags (sub_commit s)) MDP_VALIDATE_LAYER = 0.
Proof.
  intros Cr Ho.
  assert (Hd : forall w1, commit_ready h w1 -> log w1 = log w -> committed_layers h w1 = committed_layers h w -> exists s r e h' w' tl,
    HWDevice_Commit h w1 = Ret ((e, h'), w') /\ log w' = log w ++ CCommit s r :: tl /\ sub_layers s = committed_layers h w /\
    Z.land (flags (sub_commit s)) MDP_VALIDATE_LAYER = 0).
  { intros w1 Cr1 Hlog Hlay. destruct (Commit_calls h w1 Cr1) as (s & r & e & h' & w' & E & Hs & Hf & Hg). unfold fences_given in Hg.
    destruct r as [errno|[[retired release] out]].
    - destruct Hg as (_ & _ & Hg & _). exists s, (inl errno), e, h', w', []. rewrite Hg, Hlog, Hs, Hlay. auto.
    - destruct Hg as (fds & handle & _ & _ & Hg & _). eexists s, (inr (retired, release, out)), e, h', w', _. rewrite Hg, Hlog, Hs, Hlay. auto. }
  unfold Primary_Commit. rewrite (st_bind_Ret _ _ w (dev w) w eq_refl). unfold output_ok in Ho.
  destruct (stack_output h) as [o|]; [destruct (has_concurrent_writeback (hw_resource_ (dev w)))|].
  - destruct (Z.leb_spec 0 (plane_fd o)); [|specialize (Ho eq_refl); lia]. match goal with |- context [on_out ?f] => set (g := f) end.
    set (w1 := w <| dev ::= fun d => d <| mdp_out_layer_ ::= g |> |>). rewrite (st_bind_Ret (on_out g) _ w tt w1 eq_refl).
    destruct (Hd w1) as (s & r & e & h' & w' & tl & E & Hrest); [destruct Cr; by split|done|done|]. rewrite (st_bind_Ret _ _ w1 _ _ E).
    destruct (decide (e = kErrorNone)); [|by exists s, r, (e, h'), w', tl]. eexists s, r, _, w', tl. split; [reflexivity|done].
  - destruct (Hd w Cr eq_refl eq_refl) as (s & r & e & h' & w' & tl & E & Hrest). by exists s, r, (e, h'), w', tl.
  - destruct (Hd w Cr eq_refl eq_refl) as (s & r & e & h' & w' & tl & E & Hrest). by exists s, r, (e, h'), w', tl.
Qed.
(** A frame that was validated can be committed. *)
Lemma submitted_ready w q h fs s r w' : device_ready w q -> frame_ok w q h fs -> submitted w q fs s r w' ->
  commit_ready h w' /\ committed_layers h w' = commit_list FbPanel.kDevicePrimary (jobs h) (f_in <$> fs).
Proof.
  intros Dr Fo Su. pose proof (entries_length _ _ _ _ _ _ (fo_entries _ _ _ _ Fo)) as Hl. split.
  - split; [by rewrite (su_sync _ _ _ _ _ _ Su), (dr_sync _ _ Dr)|by rewrite (su_type _ _ _ _ _ _ Su), (dr_type _ _ Dr)|
      rewrite (fo_config _ _ _ _ Fo); exact (fo_layers _ _ _ _ Fo)|].
    rewrite (su_in _ _ _ _ _ _ Su), length_app, length_fmap. lia.
  - unfold committed_layers. rewrite (su_count _ _ _ _ _ _ Su), Nat2Z.id, (su_type _ _ _ _ _ _ Su), (dr_type _ _ Dr), (su_in _ _ _ _ _ _ Su), <- Hl.
    rewrite (take_app_length' (f_in <$> fs)), drop_app_length' by (by rewrite length_fmap). rewrite take_app_length'; [done|].
    unfold commit_list. rewrite length_zip_with_l_eq; rewrite ?length_fmap; done.
Qed.

(** C5: the primary panel.  Once the arrays of the driver are ready, and for a frame whose
    numbers fit them, Validate hands the driver the entries of all valid pipes and no
    others: one for each, in the order of the layers with the left pipe before the right
    one, with the flags, formats, rectangles and scaling of the pipe, the flag of a
    validation set.  Commit then hands over the same entries with the buffers of the
    pipes, in the same order and without the flag.  Each of the two calls the driver once
    for it, and both return. *)
Theorem frame_submitted w q h fs : device_ready w q -> frame_ok w q h fs -> output_ok w h ->
  exists s r w1, Primary_Validate h w = Ret (ioctl_error (code r), w1) /\ submitted w q fs s r w1 /\
  exists s2 r2 res w2 tl, Primary_Commit h w1 = Ret (res, w2) /\ log w2 = log w ++ CCommit s r :: CCommit s2 r2 :: tl /\
    sub_layers s2 = commit_list FbPanel.kDevicePrimary (jobs h) (f_in <$> fs) /\ Z.land (flags (sub_commit s2)) MDP_VALIDATE_LAYER = 0.
Proof.
  intros Dr Fo Ho.
  assert (Hv : wp (Primary_Validate h) (fun e w' => exists s r, submitted w q fs s r w' /\ e = ioctl_error (code r)) w).
  { eapply Primary_Validate_wp; [exact Dr|exact Fo|]. eauto. }
  destruct Hv as (e & w1 & E & s & r & Su & ->). exists s, r, w1. split; [exact E|]. split; [exact Su|].
  destruct (submitted_ready w q h fs s r w1 Dr Fo Su) as [Cr Hc].
  destruct (Primary_Commit_calls h w1 Cr) as (s2 & r2 & res & w2 & tl & E2 & Hl & Hs & Hf).
  { unfold output_ok in *. by rewrite (su_resource _ _ _ _ _ _ Su). }
  exists s2, r2, res, w2, tl. rewrite Hl, (su_log _ _ _ _ _ _ Su), <- app_assoc, Hs. auto.
Qed.
(** C9: the fences of a commit.  When the driver takes the frame every layer, or the
    output of its rotator, gets its own duplicate of the release fence and the frame one
    more as its handle, the fence itself is closed once if there is one, and the retire
    fence goes to the frame, or in video mode with the deferral is kept and the one of the
    frame before goes out.  When it refuses nothing is duplicated or closed and the frame
    is as it was. *)
Theorem commit_fences h w : commit_ready h w ->
  exists s r e h' w', HWDevice_Commit h w = Ret ((e, h'), w') /\ fences_given h h' w w' s r e.
Proof. intros Cr. destruct (Commit_calls h w Cr) as (s & r & e & h' & w' & E & _ & _ & Hg). by exists s, r, e, h', w'. Qed.
(** The cursor goes where its pipe is, wherever it was asked to go. *)
Lemma cursor_stays h x y x' y' (w : W) : SetCursorPosition h x y w = SetCursorPosition h x' y' w.
Proof. done. Qed.
(** The mixer of a virtual device is returned without its split: that of the device is
    changed instead. *)
Lemma virtual_split m (w : W) m' (w' : W) : Virtual_GetMixerAttributes m w = Ret (m', w') ->
  split_left m' = split_left m /\ split_left (mixer_attributes_ (dev w')) =
    (if is_device_split (display_attributes_ (dev w)) then x_pixels (display_attributes_ (dev w)) / 2 else mix_width (mixer_attributes_ (dev w))).
Proof. by intros [= <- <-]. Qed.
End Props.

(** * The description of a panel *)
Section Panel.
Context {V : Type} {SYS : FbPanel.Sysfs V}.
Import FbPanel.

(** A word that strtok leaves whole. *)
Definition word (t : text) : Prop := t <> [] /\ Forall (fun c => c <> 0 /\ c ∉ DELIM) t.
Lemma strtok_word d t s : Forall (fun c => c ∉ d) t -> forall cur, strtok d cur (t ++ s) = strtok d (rev t ++ cur) s.
Proof.
  induction 1 as [|c t Hc Ht IH]; intros cur; [done|]. cbn [app strtok]. rewrite decide_False by done. rewrite IH. cbn [rev]. by rewrite <- app_assoc.
Qed.
Lemma emit_rev t : t <> [] -> emit (rev t) = [t].
Proof. intros H. unfold emit. destruct (rev t) eqn:E; [apply (f_equal (@rev Z)) in E; rewrite rev_involutive in E; done|]. by rewrite <- E, rev_involutive. Qed.
Lemma c_str_id t : Forall (fun c => c <> 0) t -> c_str t = t.
Proof. induction 1 as [|c t Hc Ht IH]; [done|]. cbn [c_str]. destruct (Z.eqb_spec c 0); [done|]. by rewrite IH. Qed.
Definition info_line (i : text * text) : text := fst i ++ 61 :: snd i.
Lemma equals_delim : 61 ∈ DELIM.
Proof. by apply (bool_decide_unpack _). Qed.
Lemma info_tokens k v : word k -> word v -> ParseLine DELIM 10 (info_line (k, v)) = [k; v].
Proof.
  intros [Hk1 Hk] [Hv1 Hv]. unfold ParseLine, info_line. cbn [fst snd]. rewrite c_str_id.
  2: { apply Forall_app; split; [|constructor; [done|]]; eapply Forall_impl; try done; cbn; tauto. }
  rewrite strtok_word by (eapply Forall_impl; [exact Hk|cbn; tauto]). cbn [strtok]. rewrite decide_True by apply equals_delim.
  rewrite app_nil_r, emit_rev by done. rewrite <- (app_nil_r v) at 1. rewrite strtok_word by (eapply Forall_impl; [exact Hv|cbn; tauto]).
  cbn [strtok]. by rewrite app_nil_r, emit_rev by done.
Qed.
Lemma digit_plain c : Cec.is_digit c = true -> c <> 0 /\ c ∉ DELIM.
Proof.
  unfold Cec.is_digit. intros [H1%Z.leb_le H2%Z.leb_le]%andb_prop. split; [lia|]. change DELIM with [44; 32; 61; 10]. rewrite !not_elem_of_cons. split_and!; try lia. apply not_elem_of_nil.
Qed.
Lemma number_decimal (k ds : text) : Forall (fun c => Cec.is_digit c = true) ds -> 0 <= CecProps.decimal ds <= INT_MAX ->
  number [k; ds] 1 = Ret (CecProps.decimal ds).
Proof. intros Hd Hm. exact (CecProps.atoi_decimal ds [] Hd Hm). Qed.

(** *** What a description says *)

(** The number of the last line whose key begins with [n]. *)
Fixpoint last_for (l : list (text * text)) (n : string) : option Z :=
  match l with
  | [] => None
  | i :: l => match last_for l n with
              | Some x => Some x
              | None => if Cec.has_prefix (Cec.bytes n) (fst i) then Some (CecProps.decimal (snd i)) else None
              end
  end.
Definition chromaticities : list string :=
  ["white_chromaticity_x"; "white_chromaticity_y"; "red_chromaticity_x"; "red_chromaticity_y";
   "green_chromaticity_x"; "green_chromaticity_y"; "blue_chromaticity_x"; "blue_chromaticity_y"].
Definition names : list string :=
  ["pu_en"; "xstart"; "walign"; "ystart"; "halign"; "min_w"; "min_h"; "roi_merge"; "dyn_fps_en"; "dfps_porch_mode"; "is_pingpong_split";
   "min_fps"; "max_fps"; "primary_panel"; "is_pluggable"; "pu_roi_cnt"; "is_hdr_enabled"; "peak_brightness"; "average_brightness";
   "blackness_level"] ++ chromaticities ++ ["panel_orientation"; "dyn_bitclk_en"].
(** The panel of which [g] says what is known of each name; the rest is as it was. *)
Definition chroma (g : string -> option Z) (i : nat) (v : Z) : Z := match chromaticities !! i with Some n => default v (g n) | None => v end.
Definition described (g : string -> option Z) (p : HWPanelInfo) : HWPanelInfo :=
  let num n d := match g n with Some x => x | None => d end in
  let flag n d := match g n with Some x => negb (x =? 0) | None => d end in
  let bit n b d := match g n with Some x => 0 <? Z.land x b | None => d end in
  {| port := port p; mode := mode p;
     partial_update := flag "pu_en" (partial_update p);
     left_align := num "xstart" (left_align p); width_align := num "walign" (width_align p);
     top_align := num "ystart" (top_align p); height_align := num "halign" (height_align p);
     min_roi_width := num "min_w" (min_roi_width p); min_roi_height := num "min_h" (min_roi_height p);
     needs_roi_merge := flag "roi_merge" (needs_roi_merge p);
     dynamic_fps := flag "dyn_fps_en" (dynamic_fps p); dfps_porch_mode := flag "dfps_porch_mode" (dfps_porch_mode p);
     ping_pong_split := flag "is_pingpong_split" (ping_pong_split p);
     min_fps := num "min_fps" (min_fps p); max_fps := num "max_fps" (max_fps p);
     is_primary_panel := flag "primary_panel" (is_primary_panel p); is_pluggable := flag "is_pluggable" (is_pluggable p);
     left_split := left_split p; right_split := right_split p; panel_name := panel_name p; panel_max_brightness := panel_max_brightness p;
     left_roi_count := num "pu_roi_cnt" (left_roi_count p); right_roi_count := num "pu_roi_cnt" (right_roi_count p);
     hdr_enabled := flag "is_hdr_enabled" (hdr_enabled p); peak_luminance := num "peak_brightness" (peak_luminance p);
     average_luminance := num "average_brightness" (average_luminance p); blackness_level := num "blackness_level" (blackness_level p);
     primaries := imap (chroma g) (primaries p);
     flip_horizontal := bit "panel_orientation" MDP_FLIP_LR (flip_horizontal p);
     flip_vertical := bit "panel_orientation" MDP_FLIP_UD (flip_vertical p);
     rotated := bit "panel_orientation" MDP_ROT_90 (rotated p);
     bitclk_update := flag "dyn_bitclk_en" (bitclk_update p); bitclk_rates := bitclk_rates p |}.

(** No name is the beginning of another one, so that a key begins with one at most. *)
Lemma names_apart : Forall (fun n => Forall (fun m => n = m \/ Cec.has_prefix (Cec.bytes n) (Cec.bytes m) = false) names) names.
Proof. by_decision. Qed.
Lemma prefix_of_prefix (a b k : text) : (length a <= length b)%nat -> Cec.has_prefix a k = true -> Cec.has_prefix b k = true -> Cec.has_prefix a b = true.
Proof.
  unfold Cec.has_prefix. rewrite !bool_decide_eq_true. intros Hl Ha Hb. rewrite <- Hb at 1. rewrite firstn_firstn, Nat.min_l by done. exact Ha.
Qed.
Lemma one_name n m k : n ∈ names -> m ∈ names -> named n k = true -> named m k = true -> n = m.
Proof.
  intros Hn Hm En Em. pose proof names_apart as H. rewrite Forall_forall in H.
  assert (K : forall a b, a ∈ names -> b ∈ names -> named a k = true -> named b k = true -> (length (Cec.bytes a) <= length (Cec.bytes b))%nat -> a = b).
  { intros a b Ha Hb Ea Eb Hl. specialize (H a Ha). rewrite Forall_forall in H. destruct (H b Hb) as [?|E]; [done|].
    unfold named in Ea, Eb. by rewrite (prefix_of_prefix _ _ _ Hl Ea Eb) in E. }
  destruct (Nat.le_gt_cases (length (Cec.bytes n)) (length (Cec.bytes m))); [by apply K|symmetry; apply K; auto; lia].
Qed.
Lemma described_ext g h p : Forall (fun n => g n = h n) names -> described g p = described h p.
Proof.
  intros H. rewrite Forall_forall in H. unfold described.
  assert (Hc : imap (chroma g) (primaries p) = imap (chroma h) (primaries p)).
  { apply imap_ext. intros i x _. unfold chroma. destruct (chromaticities !! i) as [n|] eqn:E; [|done]. rewrite H; [done|].
    unfold names. apply elem_of_app. right. apply elem_of_app. left. by eapply list_elem_of_lookup_2. }
  rewrite Hc. repeat rewrite H by by_decision. reflexivity.
Qed.
Lemma described_twice g h p : described g (described h p) = described (fun n => match g n with Some x => Some x | None => h n end) p.
Proof.
  unfold described. cbn.
  assert (Hc : imap (chroma g) (imap (chroma h) (primaries p)) =
    imap (chroma (fun n => match g n with Some x => Some x | None => h n end)) (primaries p)).
  { apply list_eq. intros i. rewrite !list_lookup_imap. destruct (primaries p !! i); [|done]. cbn. unfold chroma.
    destruct (chromaticities !! i); [|done]. by destruct (g _). }
  rewrite Hc. f_equal; (by destruct (g _)).
Qed.
Lemma chroma_none g l : (forall n, n ∈ chromaticities -> g n = None) -> imap (chroma g) l = l.
Proof.
  intros H. apply list_eq. intros i. rewrite list_lookup_imap. destruct (l !! i); [|done]. cbn. unfold chroma.
  destruct (chromaticities !! i) eqn:E; [|done]. by rewrite H by (by eapply list_elem_of_lookup_2).
Qed.
Lemma chroma_one g l j n x : chromaticities !! j = Some n -> g n = Some x -> (forall m, m ∈ chromaticities -> m <> n -> g m = None) ->
  imap (chroma g) l = <[j := x]> l.
Proof.
  intros Hj Hg Hm. apply list_eq. intros i. rewrite list_lookup_imap. destruct (decide (i = j)) as [->|Hne].
  - destruct (l !! j) eqn:E; cbn.
    + rewrite list_lookup_insert_eq by (by eapply lookup_lt_Some). unfold chroma. by rewrite Hj, Hg.
    + symmetry. apply lookup_ge_None. rewrite length_insert. by apply lookup_ge_None.
  - rewrite list_lookup_insert_ne by done. destruct (l !! i); [|done]. cbn. unfold chroma.
    destruct (chromaticities !! i) as [m|] eqn:E; [|done]. rewrite Hm; [done|by eapply list_elem_of_lookup_2|].
    intros ->. apply Hne. assert (Nd : NoDup chromaticities) by by_decision. by eapply NoDup_lookup.
Qed.
(** What a line says when its key begins with [n]. *)
Definition says (n : option string) (x : Z) (m : string) : option Z := if decide (n = Some m) then Some x else None.
Lemma field_says n f x p : (n, f) ∈ fields -> 0 <= x <= INT_MAX -> f x p = described (says (Some n) x) p.
Proof.
  intros Hf Hx. assert (Hu : u32 x = x) by (apply Z.mod_small; unfold INT_MAX in Hx; lia).
  assert (Hc : forall j, chromaticities !! j = Some n -> imap (chroma (says (Some n) x)) (primaries p) = <[j := x]> (primaries p)).
  { intros j Hj. apply (chroma_one _ _ j n); [done|by unfold says; rewrite decide_True|]. intros m _ Hm. unfold says. rewrite decide_False; congruence. }
  assert (Hn : n ∉ chromaticities -> imap (chroma (says (Some n) x)) (primaries p) = primaries p).
  { intros Hn. apply chroma_none. intros m Hm. unfold says. rewrite decide_False; congruence. }
  unfold fields, fld in Hf.
  repeat (apply elem_of_cons in Hf as [[= -> ->]|Hf];
    [unfold described; first [rewrite Hn by by_decision|rewrite (Hc 0%nat) by done|rewrite (Hc 1%nat) by done|
       rewrite (Hc 2%nat) by done|rewrite (Hc 3%nat) by done|rewrite (Hc 4%nat) by done|rewrite (Hc 5%nat) by done|
       rewrite (Hc 6%nat) by done|rewrite (Hc 7%nat) by done]; rewrite ?Hu; destruct p; reflexivity|]).
  by apply not_elem_of_nil in Hf.
Qed.
Lemma nothing_says x p : described (says None x) p = p.
Proof. unfold described. rewrite chroma_none by done. by destruct p. Qed.
(** The name a key begins with. *)
Lemma find_field_some l k f : find_field l k = Some f -> exists n, (n, f) ∈ l /\ named n k = true.
Proof.
  induction l as [|[n g] l IH]; [done|]. cbn [find_field]. destruct (named n k) eqn:E.
  - intros [= ->]. exists n. split; [left|done].
  - intros (m & Hm & Em)%IH. exists m. split; [by right|done].
Qed.
Lemma find_field_none l k : find_field l k = None -> forall n f, (n, f) ∈ l -> named n k = false.
Proof.
  induction l as [|[n g] l IH]; [by intros _ ? ? ?%elem_of_nil|]. cbn [find_field]. destruct (named n k) eqn:E; [done|].
  intros H m f [[= -> ->]|Hm]%elem_of_cons; [done|]. by eapply IH.
Qed.
Lemma names_of_fields : fst <$> fields = names.
Proof. reflexivity. Qed.
(** A line of a key and a number in decimal. *)
Definition item_ok (i : text * text) : Prop :=
  word (fst i) /\ snd i <> [] /\ Forall (fun c => Cec.is_digit c = true) (snd i) /\ 0 <= CecProps.decimal (snd i) <= INT_MAX.
Lemma panel_line_item i p : item_ok i -> panel_line (info_line i) p = Ret (described (last_for [i]) p).
Proof.
  destruct i as [k ds]. intros (Hk & Hn & Hd & Hm). unfold panel_line. cbn [fst snd] in *. rewrite info_tokens; [|done|].
  2: { split; [done|]. eapply Forall_impl; [exact Hd|]. apply digit_plain. }
  change (token [k; ds] 0) with (Ret k). rewrite bind_ret. destruct (find_field fields k) as [f|] eqn:Ef.
  - rewrite number_decimal, bind_ret by done. apply find_field_some in Ef as (n & Hf & En). rewrite (field_says n) by done.
    assert (Hin : n ∈ names) by (rewrite <- names_of_fields; by apply (list_elem_of_fmap_2 fst) in Hf).
    f_equal. apply described_ext, Forall_forall. intros m Hm'. unfold says. cbn. fold (named m k).
    destruct (decide (Some n = Some m)) as [[= <-]|Hne]; [by rewrite En|]. destruct (named m k) eqn:Em; [|done].
    destruct Hne. f_equal. by eapply one_name.
  - f_equal. rewrite <- (nothing_says 0 p) at 1. apply described_ext, Forall_forall. intros m Hm'. unfold says. cbn. fold (named m k).
    rewrite <- names_of_fields in Hm'. apply list_elem_of_fmap in Hm' as ([m' f] & -> & Hf). pose proof (find_field_none _ _ Ef _ _ Hf) as En. unfold named in *. cbn [fst] in *. by rewrite En.
Qed.
(** C27: the description of a panel is read for what it says, as far as strncmp with the
    length of a name sees it: of a file of lines [key=number], with numbers in
    decimal that fit an int, each member of the panel gets the number of the last line
    whose key begins with the member's name, as a number, a flag or the bits of the orientation,
    and keeps its value when there is none; a key that begins with no name is passed over. A key
    begins with one name at most; but a longer key, such as min_width, is taken for the name it
    begins with. *)
Theorem panel_parsed l p : Forall item_ok l -> panel_lines (info_line <$> l) p = Ret (described (last_for l) p).
Proof.
  intros H. revert p. induction H as [|i l Hi Hl IH]; intros p.
  { f_equal. rewrite <- (nothing_says 0 p) at 1. apply described_ext, Forall_forall. done. }
  rewrite fmap_cons. cbn [panel_lines]. rewrite panel_line_item, bind_ret, IH, described_twice by done. reflexivity.
Qed.
(** An empty line, and a known key without a value, leave a null pointer that is read. *)
Lemma empty_line p : panel_line [] p = Undef.
Proof. done. Qed.
Lemma no_value p : panel_line (Cec.bytes "pu_en=") p = Undef.
Proof. vm_compute. reflexivity. Qed.
(** What was read of the bit clock rates does not survive a second reading of the panel. *)
Lemma line_keeps_rates line p p' : panel_line line p = Ret p' -> bitclk_rates p' = bitclk_rates p.
Proof.
  unfold panel_line. intros (t & _ & H)%bind_Ret_inv. destruct (find_field fields t) as [f|] eqn:Ef; [|by injection H as <-].
  apply bind_Ret_inv in H as (x & _ & [= <-]). assert (Hf : exists n, (n, f) ∈ fields).
  { revert Ef. generalize fields. intros l. induction l as [|[n g] l IH]; [done|]. cbn [find_field]. destruct (named n t).
    - intros [= ->]. exists n. apply list_elem_of_here.
    - intros (m & Hm)%IH. exists m. by apply list_elem_of_further. }
  destruct Hf as [n Hn]. unfold fields, fld in Hn. repeat (apply elem_of_cons in Hn as [[= -> ->]|Hn]; [reflexivity|]). by apply not_elem_of_nil in Hn.
Qed.
Lemma lines_keep_rates l : forall p p', panel_lines l p = Ret p' -> bitclk_rates p' = bitclk_rates p.
Proof.
  induction l as [|line l IH]; intros p p' H; cbn [panel_lines] in H; [by injection H as <-|]. apply bind_Ret_inv in H as (p1 & E & H).
  rewrite (IH _ _ H). by eapply line_keeps_rates.
Qed.
Lemma name_lines_rates l p p' : name_lines l p = Ret p' -> bitclk_rates p' = bitclk_rates p.
Proof.
  induction l as [|line l IH]; cbn [name_lines]; [by intros [= <-]|]. intros (t & _ & H)%bind_Ret_inv. destruct (named _ t); [|by apply IH].
  by apply bind_Ret_inv in H as (v & _ & [= <-]).
Qed.
(** A step of the reading leaves them. *)
Definition keeps (f : HWPanelInfo -> St V HWPanelInfo) : Prop := forall p v p' v', f p v = Ret (p', v') -> bitclk_rates p' = bitclk_rates p.
Lemma rates_then f g : keeps f -> keeps g -> keeps (fun p => q ← f p; g q).
Proof. intros Hf Hg p v p' v' (q & v1 & E & H)%st_bind_Ret_inv. rewrite (Hg _ _ _ _ H). by eapply Hf. Qed.
Lemma rates_lift (f : HWPanelInfo -> outcome HWPanelInfo) : (forall p p', f p = Ret p' -> bitclk_rates p' = bitclk_rates p) -> keeps (fun p => st_lift (f p)).
Proof. intros Hf p v p' v' H. unfold st_lift in H. destruct (f p) eqn:E; [|done|done]. injection H as <- <-. by apply Hf. Qed.
Lemma port_keeps node : keeps (GetHWDisplayPortAndMode node).
Proof. intros p v p' v' (x & v1 & _ & E)%st_bind_Ret_inv. destruct (match x with Some _ => _ | None => _ end). by injection E as <- <-. Qed.
Lemma split_keeps node : keeps (GetSplitInfo node).
Proof.
  intros p v p' v' (x & v1 & _ & E)%st_bind_Ret_inv. destruct x as [[|line x]|]; try (by injection E as <- <-).
  apply st_bind_Ret_inv in E as (a & v2 & _ & (b & v3 & _ & E)%st_bind_Ret_inv). by injection E as <- <-.
Qed.
Lemma name_keeps node : keeps (GetHWPanelNameByNode node).
Proof.
  intros p v p' v' (x & v1 & _ & E)%st_bind_Ret_inv. destruct x as [l|]; [|by injection E as <- <-].
  by apply (rates_lift (name_lines l) (name_lines_rates l)) in E.
Qed.
Lemma brightness_keeps : keeps GetHWPanelMaxBrightnessFromNode.
Proof.
  intros p v p' v' (fd & v1 & _ & H)%st_bind_Ret_inv. destruct (fd <? 0); [by injection H as <- <-|].
  apply st_bind_Ret_inv in H as (r & v2 & _ & (p1 & v3 & E & (u & v4 & _ & [= <- <-])%st_bind_Ret_inv)%st_bind_Ret_inv).
  destruct r as [[|c t]|]; try (by injection E as <- <-). by apply st_bind_Ret_inv in E as (x & v5 & _ & [= <- <-]).
Qed.
Lemma panel_read_keeps node : keeps (GetHWPanelInfoByNode node).
Proof.
  intros p v p' v' (r & v1 & _ & H)%st_bind_Ret_inv. destruct r as [l|]; [|by injection H as <- <-].
  revert p v1 p' v' H. change (keeps (fun p => p ← st_lift (panel_lines l p); p ← GetHWDisplayPortAndMode node p; p ← GetSplitInfo node p;
    p ← GetHWPanelNameByNode node p; GetHWPanelMaxBrightnessFromNode p)).
  apply rates_then; [apply rates_lift, lines_keep_rates|]. apply rates_then; [apply port_keeps|]. apply rates_then; [apply split_keeps|].
  apply rates_then; [apply name_keeps|apply brightness_keeps].
Qed.
(** The rates are only read in Init: reading the panel again, as after a change of the
    mode, leaves none. *)
Lemma rates_lost node v p v' : FbPanel.PopulateHWPanelInfo node v = Ret (p, v') -> bitclk_rates p = [].
Proof. apply (panel_read_keeps node HWPanelInfo0). Qed.
End Panel.

(** * A small machine *)
Module Sample.
Import FbPanel.
#[local] Instance sample_mdp : Mdp := {|
  MDP_LAYER_ENABLE_PIXEL_EXT := 1; MDP_LAYER_ENABLE_QSEED3_SCALE := 2; MDP_LAYER_FLIP_UD := 4; MDP_LAYER_FLIP_LR := 8;
  MDP_LAYER_DEINTERLACE := 16; MDP_LAYER_SECURE_CAMERA_SESSION := 32; MDP_LAYER_SECURE_SESSION := 64; MDP_LAYER_SECURE_DISPLAY_SESSION := 128;
  MDP_LAYER_SOLID_FILL := 256; MDP_LAYER_ASYNC := 512; MDP_LAYER_PP := 1024; MDP_LAYER_MULTIRECT_ENABLE := 2048; MDP_LAYER_MULTIRECT_PARALLEL_MODE := 4096;
  MDP_VALIDATE_LAYER := 1; MDP_COMMIT_WAIT_FOR_FINISH := 2; MDP_COMMIT_PARTIAL_UPDATE_DUAL_ROI := 4; MDP_COMMIT_CWB_EN := 8;
  MDP_COMMIT_CWB_DSPP := 16; MDP_COMMIT_AVR_EN := 32; MDP_COMMIT_AVR_ONE_SHOT_MODE := 64;
  MDP_COMMIT_RECT_NUM := Some 128; MDP_DESTSCALER_ROI_ENABLE := Some 8; out_layer_color_space := true; csc_2020 := true;
  MDP_DESTSCALER_ENABLE := 1; MDP_DESTSCALER_SCALE_UPDATE := 2; MDP_DESTSCALER_ENHANCER_UPDATE := 4;
  ENABLE_SCALE := 1; ENABLE_DIRECTION_DETECTION := 2; ENABLE_DETAIL_ENHANCE := 4;
  SCALER_LUT_SWAP := 1; SCALER_LUT_DIR_WR := 2; SCALER_LUT_Y_CIR_WR := 4; SCALER_LUT_UV_CIR_WR := 8; SCALER_LUT_Y_SEP_WR := 16; SCALER_LUT_UV_SEP_WR := 32;
  FILTER_EDGE_DIRECTED_2D := 0; FILTER_CIRCULAR_2D := 1; FILTER_SEPARABLE_1D := 2; FILTER_BILINEAR := 3;
  FILTER_ALPHA_DROP_REPEAT := 0; FILTER_ALPHA_BILINEAR := 1; MAX_DET_CURVES := 3; video_mode_defer_retire_fence := true |}.
(** No files; descriptors are counted. *)
#[local] Instance sample_sysfs : Sysfs Z := {|
  sy_lines := fun _ => mret None; sy_access := fun _ => mret 0; sy_open := fun _ => mret 3; sy_pread := fun _ _ => mret None;
  sy_pwrite := fun _ t => mret (Z.of_nat (length t)); sy_close := fun _ => mret tt; MDP_FLIP_LR := 1; MDP_FLIP_UD := 2; MDP_ROT_90 := 4 |}.
Definition fresh : St Z Z := fun n => Ret (n, n + 1).
#[local] Instance sample_driver : Driver Z := {|
  dr_commit := fun _ => a ← fresh; b ← fresh; c ← fresh; mret (inr (a, b, c));
  dr_ioctl := fun _ => mret None; dr_dup := fun _ => fresh; dr_close := fun _ => mret tt;
  dr_resource := mret (mkRes false true true true true 1 2560 1 2560 2); dr_screen := mret None; dr_frame_rate := mret None |}.
#[local] Instance sample_laws : DriverLaws.
Proof. split; intros x s; do 2 eexists; (split; [reflexivity|done]). Qed.
Definition full : LayerRect := mkRect f_zero f_zero (FLOAT 1080) (FLOAT 1920).
Definition pipe (id : Z) (r : LayerRect) (scaled : Z) : HWPipeInfo :=
  mkPipe 0 id kHWVIGPipe r r 0 0 (mkScaleData scaled 0 0 1080 1920 (replicate MAX_PLANES HWPlane0) kFilterEdgeDirected kFilterEdgeDirected
    kInterpolationPixelRepeat 0 (mkLut 0 0 0 0 0 0) [0; 0; 0; 0; 0] HWDetailEnhanceData0) 1 kIGC true.
Definition no_pipe : HWPipeInfo := mkPipe 0 0 kHWVIGPipe LayerRect0 LayerRect0 0 0 HWScaleData0 0 0 false.
Definition layer : Layer := Layer0 <| input_buffer := Buffer0 <| width := 1088 |> <| height := 1920 |> <| plane_fd := 40 |> <| plane_stride := 4352 |> |>.
Definition layer_config (l r : HWPipeInfo) : HWLayerConfig := mkLConfig l r (mkRotator (false, false) 0 Buffer0) (FLOAT 1).
(** Two layers: one on both pipes and scaled, one on the right one. *)
Definition frame : HWLayers :=
  mkFrame [layer; layer] (layer_config (pipe 2 full 1) (pipe 4 full 0) :: layer_config no_pipe (pipe 8 full 0) ::
      replicate 14 (layer_config no_pipe no_pipe)) (Some (Buffer0 <| plane_fd := 50 |>))
    false (-1) (-1) [full] [LayerRect0] true [] (FLOAT 1) false false.
Definition device : Dev :=
  mkDev (mkRes false true true true true 1 2560 1 2560 2) (HWPanelInfo0 <| mode := Strategy.kModeVideo |>) 0 3 (-1) kDevicePrimary
    (mkCommit 0 MRect0 MRect0 0 true 0 (-1) (-1)) (replicate (kMaxSDELayers * 2) InLayer0) (Some (HWScale_Create true)) (replicate (kMaxSDELayers * 2) PP0)
    OutLayer0 false Attributes0 (mkMix 1080 1920 1080) [Dest0] [] [] 0 false false.
Definition world : World Z := mkWorld device [] 60.
Definition frame_entries : list Filled := match entries true Strategy.kModeVideo true 0 (jobs frame) with Ret l => l | _ => [] end.
Lemma device_is_ready : device_ready world true.
Proof. split; [by exists (HWScale_Create true)|done..]. Qed.
Lemma frame_is_ok : frame_ok world true frame frame_entries.
Proof.
  split.
  - done.
  - vm_compute. lia.
  - apply (bool_decide_unpack _). vm_compute. exact I.
  - vm_compute. reflexivity.
  - eexists full, [], LayerRect0, [], _. split_and!; [reflexivity..|vm_compute; reflexivity|]. intros x [->|H]; [|done]. eexists. vm_compute. reflexivity.
  - eexists. vm_compute. reflexivity.
  - done.
Qed.
Lemma three_entries : length frame_entries = 3%nat /\ pipe_ndx ∘ f_in <$> frame_entries = [2; 4; 8].
Proof. vm_compute. done. Qed.
Lemma frame_submitted_witness : length frame_entries = 3%nat /\ exists s r w1, Primary_Validate frame world = Ret (ioctl_error (code r), w1) /\ submitted world true frame_entries s r w1 /\
  exists s2 r2 res w2 tl, Primary_Commit frame w1 = Ret (res, w2) /\ log w2 = log world ++ CCommit s r :: CCommit s2 r2 :: tl /\
    sub_layers s2 = commit_list FbPanel.kDevicePrimary (jobs frame) (f_in <$> frame_entries) /\ Z.land (flags (sub_commit s2)) MDP_VALIDATE_LAYER = 0.
Proof.
  split; [exact (proj1 three_entries)|]. apply (frame_submitted world true frame frame_entries); [exact device_is_ready|exact frame_is_ok|].
  intros _. vm_compute. discriminate.
Defined.
Lemma frame_ready : commit_ready frame world.
Proof. split; [done|done|vm_compute; lia|vm_compute; lia]. Qed.
Lemma commit_fences_witness : exists s r e h' w', HWDevice_Commit frame world = Ret ((e, h'), w') /\ fences_given frame h' world w' s r e.
Proof. apply (commit_fences frame world). exact frame_ready. Defined.
Definition panel_items : list (text * text) :=
  [(Cec.bytes "pu_en", Cec.bytes "1"); (Cec.bytes "min_w", Cec.bytes "20"); (Cec.bytes "panel_color", Cec.bytes "7"); (Cec.bytes "min_fps", Cec.bytes "48");
   (Cec.bytes "min_width", Cec.bytes "64")].
Lemma panel_items_ok : Forall item_ok panel_items.
Proof. unfold item_ok, word. apply (bool_decide_unpack _). vm_compute. exact I. Qed.
Lemma panel_parsed_witness : panel_lines (info_line <$> panel_items) HWPanelInfo0 =
  Ret (HWPanelInfo0 <| partial_update := true |> <| min_roi_width := 64 |> <| min_fps := 48 |>).
Proof. refine (eq_trans (panel_parsed panel_items HWPanelInfo0 panel_items_ok) _). vm_compute. reflexivity. Defined.
End Sample.
End FbProps.
