(* ===== verification/FbHdmi.v ===== *)
(** The HDMI panel of the frame buffer back end:
    src/hardware/qcom-caf/display/sdm/libs/core/fb/hw_hdmi.cpp.

    The object is the frame buffer device of [FbDevice] with members of its own.  The
    structures of the kernel's headers are given by the class [HdmiEnv]: how a timing is
    read from the bytes of the driver, the numbers of its constants, the ioctls, the clock
    and the properties.  Writes and ioctls are kept in a log. *)
From stdpp Require Import pretty.
From S2P Require Import Prelude Rect ResourceDefault Strategy HwcLayer Cec FbScale FbPanel FbDevice.
#[local] Open Scope Z_scope.

Module FbHdmi.
Import Float32 Formats Rect ResourceDefault HwcLayer FbScale FbDevice.
Abbreviation text := (list Z).

(** ** Data *)
Inductive HWS3DMode := kS3DModeNone | kS3DModeLR | kS3DModeRL | kS3DModeTB | kS3DModeFP | kS3DModeMax.
#[global] Instance HWS3DMode_eq_dec : EqDecision HWS3DMode.
Proof. solve_decision. Defined.
Definition s3d_bit (m : HWS3DMode) : Z :=
  match m with kS3DModeNone => 0 | kS3DModeLR => 1 | kS3DModeRL => 2 | kS3DModeTB => 3 | kS3DModeFP => 4 | kS3DModeMax => 5 end.
Inductive HWScanSupport := kScanNotSupported | kScanAlwaysOverscanned | kScanAlwaysUnderscanned | kScanBoth.
Record HWScanInfo := mkScan { pt_scan_support : HWScanSupport; it_scan_support : HWScanSupport; cea_scan_support : HWScanSupport }.
Inductive HDROperation := kNoOp | kSet | kReset.
Record HWHDRLayerInfo := mkHdrInfo { layer_index : Z; operation : HDROperation }.
(** The members of msm_hdmi_mode_timing_info that are used. *)
Record Timing := mkTiming {
  video_format : Z; active_h : Z; front_porch_h : Z; pulse_width_h : Z; back_porch_h : Z; active_low_h : Z; active_v : Z; front_porch_v : Z;
  pulse_width_v : Z; back_porch_v : Z; active_low_v : Z; pixel_freq : Z; refresh_rate : Z; interlaced : Z; pixel_formats : Z
}.
Definition Timing0 : Timing := mkTiming 0 0 0 0 0 0 0 0 0 0 0 0 0 0 0.
(** fb_var_screeninfo: [others] is what the code leaves alone. *)
Record VInfo := mkVInfo {
  v_reserved : list Z; xoffset : Z; yoffset : Z; v_xres : Z; v_yres : Z; pixclock : Z; vmode : Z; right_margin : Z; v_hsync_len : Z; left_margin : Z;
  lower_margin : Z; v_vsync_len : Z; upper_margin : Z; grayscale : Z; sync : Z; activate : Z; others : list Z
}.
#[global] Instance eta_vinfo : Eta VInfo := fun v =>
  mkVInfo (v_reserved v) (xoffset v) (yoffset v) (v_xres v) (v_yres v) (pixclock v) (vmode v) (right_margin v) (v_hsync_len v) (left_margin v)
    (lower_margin v) (v_vsync_len v) (upper_margin v) (grayscale v) (sync v) (activate v) (others v).
(** mdp_hdr_stream_ctrl. *)
Inductive HdrState := HDR_DISABLE | HDR_ENABLE | HDR_RESET.
#[global] Instance HdrState_eq_dec : EqDecision HdrState.
Proof. solve_decision. Defined.
Record HdrStream := mkStream {
  eotf : Z; display_primaries : list (Z * Z); white_point : Z * Z; max_luminance : Z; min_luminance : Z; max_content_light_level : Z;
  max_average_light_level : Z; pixel_encoding : Z; colorimetry : Z; hdr_range : Z; bits_per_component : Z; content_type : Z
}.
Definition Stream0 : HdrStream := mkStream 0 [(0, 0); (0, 0); (0, 0)] (0, 0) 0 0 0 0 0 0 0 0 0.
Record HdrCtrl := mkCtrl { hdr_state : HdrState; hdr_stream : HdrStream }.

Class HdmiEnv (V : Type) := {
  timing_size : nat; timing_of : text -> Timing;
  HDMI_S3D_NONE : Z; HDMI_S3D_FRAME_PACKING : Z; HDMI_S3D_TOP_AND_BOTTOM : Z; HDMI_S3D_SIDE_BY_SIDE : Z; HDMI_S3D_MAX : Z;
  HDMI_VFRMT_END : Z; MSM_HDMI_INIT_RES_PAGE : Z;
  FB_VMODE_INTERLACED : Z; FB_VMODE_NONINTERLACED : Z; V4L2_PIX_FMT_RGB24 : Z; V4L2_PIX_FMT_NV12 : Z; FB_SYNC_HOR_HIGH_ACT : Z;
  FB_SYNC_VERT_HIGH_ACT : Z; FB_ACTIVATE : Z; (* NOW, ALL and FORCE *)
  (* whether the headers have them *)
  MDP_HDR_STREAM : bool; MDP_COMMIT_UPDATE_CDM_COLOR_SPACE : option Z; MDP_CSC_DEFAULT : option Csc;
  MDP_HDR_EOTF_SMTPE_ST2084 : Z; MDP_HDR_EOTF_HLG : Z; MDP_COLORIMETRY_YCBCR_ITU_R_BT_601 : Z; MDP_COLORIMETRY_YCBCR_ITU_R_BT_709 : Z;
  MDP_COLORIMETRY_YCBCR_ITU_R_BT_2020_YCBCR : Z; MDP_PIXEL_ENCODING_RGB : Z; MDP_PIXEL_ENCODING_YCBCR_420 : Z; MDP_PIXEL_ENCODING_YCBCR_422 : Z;
  MDP_YUV_10_BPC : Z; MDP_YUV_8_BPC : Z; MDP_RGB_10_BPC : Z; MDP_RGB_8_BPC : Z; MDP_DYNAMIC_RANGE_VESA : Z; MDP_DYNAMIC_RANGE_CEA : Z;
  MDP_CONTENT_TYPE_VIDEO : Z; MDP_CONTENT_TYPE_GRAPHICS : Z;
  stack_page : text;                         (* what an array is before it is written *)
  hd_property : string -> St V (option text);
  hd_get_screen : St V (option VInfo);       (* FBIOGET_VSCREENINFO *)
  hd_put_screen : VInfo -> St V bool;        (* FBIOPUT_VSCREENINFO *)
  hd_set_vic : Z -> St V bool;               (* MSMFB_METADATA_SET *)
  hd_write_hdr : Z -> HdrCtrl -> St V Z;     (* pwrite of the structure *)
  hd_time : St V Z;                          (* time(NULL) *)
  hd_clock : V -> Z                          (* the seconds the clock of the machine shows *)
}.

(** What HWHDMI adds to the device, with the members of other classes that only it sets:
    the bits of the 3D modes and the colour format of display_attributes_, the 3D mode of
    hw_panel_info_ and the colour space of the commit. *)
Record Hdmi := mkHdmi {
  hdmi_modes_ : list Z; supported_video_modes_ : list Timing; hw_scan_info_ : HWScanInfo; active_config_index_ : Z;
  s3d_mode_sdm_to_mdp_ : list (HWS3DMode * Z); supported_s3d_modes_ : list HWS3DMode; active_mdp_s3d_mode_ : Z; frame_rate_ : Z;
  hdr_reset_start_ : Z; hdr_reset_end_ : Z; reset_hdr_flag_ : bool; cdm_color_space_ : option Csc; cdm_color_space_commit_ : bool;
  s3d_config_ : Z; is_yuv_ : bool; s3d_mode : HWS3DMode; commit_cdm : option Csc
}.
#[global] Instance eta_hdmi : Eta Hdmi := fun h =>
  mkHdmi (hdmi_modes_ h) (supported_video_modes_ h) (hw_scan_info_ h) (active_config_index_ h) (s3d_mode_sdm_to_mdp_ h) (supported_s3d_modes_ h)
    (active_mdp_s3d_mode_ h) (frame_rate_ h) (hdr_reset_start_ h) (hdr_reset_end_ h) (reset_hdr_flag_ h) (cdm_color_space_ h)
    (cdm_color_space_commit_ h) (s3d_config_ h) (is_yuv_ h) (s3d_mode h) (commit_cdm h).
Definition new_HWHDMI (none : Z) : Hdmi :=
  mkHdmi [] [] (mkScan kScanNotSupported kScanNotSupported kScanNotSupported) 0 [] [] none 0 0 0 false None false 0 false kS3DModeNone None.
(** A write to a node, with the result; of the HDR state with the time of the write. *)
Inductive HCall := HWrite (path : string) (t : text) (r : Z) | HVic (vic : Z) | HPut (v : VInfo) | HHdr (c : HdrCtrl) (time : Z) (r : Z).
Record HWorld (V : Type) := mkHWorld { hw : World V; hdmi : Hdmi; hlog : list HCall }.
Arguments mkHWorld {V}.
Arguments hw {V}.
Arguments hdmi {V}.
Arguments hlog {V}.
#[global] Instance eta_hworld {V} : Eta (HWorld V) := fun w => mkHWorld (hw w) (hdmi w) (hlog w).
(** Attributes of a configuration with its 3D modes and colour format. *)
Record HAttributes := mkHAttr { base : Attributes; s3d_config : Z; is_yuv : bool }.
#[global] Instance eta_hattr : Eta HAttributes := fun a => mkHAttr (base a) (s3d_config a) (is_yuv a).
Definition set_bit (m : HWS3DMode) (s : Z) : Z := Z.lor s (Z.shiftl 1 (s3d_bit m)).
Definition has_bit (m : HWS3DMode) (s : Z) : bool := Z.testbit s (s3d_bit m).
Definition kPageSize : nat := 4096.
Definition kThresholdRefreshRate : Z := 1000.
Definition MIN_HDR_RESET_WAITTIME_SEC : Z := 2.
(** The ways of changing the rate. *)
Inductive HWFramerateUpdate := kModeSuspendResume | kModeClock | kModeVFP | kModeHFP | kModeClockHFP | kModeHFPCalcClock | kModeMAX.
#[global] Instance HWFramerateUpdate_eq_dec : EqDecision HWFramerateUpdate.
Proof. solve_decision. Defined.
Definition mode_number (m : HWFramerateUpdate) : Z :=
  match m with kModeSuspendResume => 0 | kModeClock => 1 | kModeVFP => 2 | kModeHFP => 3 | kModeClockHFP => 4 | kModeHFPCalcClock => 5 | kModeMAX => 6 end.
Record DynamicFPSData := mkFps { hor_front_porch : Z; hor_back_porch : Z; hor_pulse_width : Z; clk_rate_hz : Z; data_fps : Z }.
Definition resize {A} (n : nat) (d : A) (l : list A) : list A := take n l ++ replicate (n - length l) d.

Section Hdmi.
Context {MDP : Mdp} {V : Type} {SYS : FbPanel.Sysfs V} {DRV : Driver V} {ENV : HdmiEnv V}.
Abbreviation H := (St (HWorld V)).

(** ** State *)
Definition in_dev {A} (m : St (World V) A) : H A := fun w =>
  match m (hw w) with Ret (a, d) => Ret (a, w <| hw := d |>) | Undef => Undef | NoFuel => NoFuel end.
Definition in_env {A} (m : St V A) : H A := in_dev (in_v m).
Definition on_hdmi (f : Hdmi -> Hdmi) : H unit := st_modify (fun w => w <| hdmi ::= f |>).
Definition see {A} (f : Hdmi -> A) : H A := st_gets (fun w => f (hdmi w)).
Definition see_dev {A} (f : Dev -> A) : H A := st_gets (fun w => f (dev (hw w))).
Definition clock : H Z := st_gets (fun w => hd_clock (drv (hw w))).
Definition hnote (c : HCall) : H unit := st_modify (fun w => w <| hlog ::= fun l => l ++ [c] |>).
Definition at_ {A} (l : list A) (i : Z) : H A := match l !! Z.to_nat i with Some a => mret a | None => st_undef end.
Definition path (file : string) : H string := n ← see_dev fb_node_index_; mret (FbPanel.node_path n file).
Definition open (p : string) : H Z := in_env (FbPanel.sy_open p).
Definition close (fd : Z) : H unit := in_env (FbPanel.sy_close fd).
(** Open, write and close; none when the node cannot be opened. *)
Definition write_file (p : string) (t : text) : H (option Z) :=
  fd ← open p;
  if fd <? 0 then mret None
  else r ← in_env (FbPanel.sy_pwrite fd t); _ ← hnote (HWrite p t r); _ ← close fd; mret (Some r).
Definition decimal (x : Z) : text := Cec.bytes (pretty (s32 x)).

(** ** HDR metadata *)
Definition GetEOTF (transfer : Z) : Z :=
  if transfer =? Transfer_SMPTE_ST2084 then MDP_HDR_EOTF_SMTPE_ST2084 else if transfer =? Transfer_HLG then MDP_HDR_EOTF_HLG else -1.
Definition GetColoriMetry (b : Buffer) : Z :=
  if video (bflags b) then
    let p := colorPrimaries (color_metadata b) in
    if (p =? ColorPrimaries_BT601_6_525) || (p =? ColorPrimaries_BT601_6_625) then MDP_COLORIMETRY_YCBCR_ITU_R_BT_601
    else if p =? ColorPrimaries_BT709_5 then MDP_COLORIMETRY_YCBCR_ITU_R_BT_709
    else if p =? ColorPrimaries_BT2020 then MDP_COLORIMETRY_YCBCR_ITU_R_BT_2020_YCBCR
    else -1
  else -1.
Definition GetPixelEncoding (b : Buffer) : Z :=
  if video (bflags b) then
    match bformat b with
    | kFormatYCbCr420SemiPlanarVenus | kFormatYCbCr420SPVenusUbwc | kFormatYCbCr420Planar | kFormatYCrCb420Planar | kFormatYCrCb420PlanarStride16
    | kFormatYCbCr420SemiPlanar | kFormatYCrCb420SemiPlanar | kFormatYCbCr420P010 | kFormatYCbCr420TP10Ubwc => MDP_PIXEL_ENCODING_YCBCR_420
    | kFormatYCbCr422H2V1Packed | kFormatYCrCb422H2V1SemiPlanar | kFormatYCrCb422H1V2SemiPlanar | kFormatYCbCr422H2V1SemiPlanar
    | kFormatYCbCr422H1V2SemiPlanar => MDP_PIXEL_ENCODING_YCBCR_422
    | _ => MDP_PIXEL_ENCODING_RGB
    end
  else MDP_PIXEL_ENCODING_RGB.
Definition GetBitsPerComponent (b : Buffer) : Z :=
  let ten := Is10BitFormat (bformat b) in
  if video (bflags b) then if ten then MDP_YUV_10_BPC else MDP_YUV_8_BPC else if ten then MDP_RGB_10_BPC else MDP_RGB_8_BPC.
Definition GetRange (r : Z) : Z := if r =? Range_Full then MDP_DYNAMIC_RANGE_VESA else MDP_DYNAMIC_RANGE_CEA.
Definition GetContentType (b : Buffer) : Z := if video (bflags b) then MDP_CONTENT_TYPE_VIDEO else MDP_CONTENT_TYPE_GRAPHICS.
(** The words of masteringDisplayInfo and contentLightLevel after matrixCoefficients. *)
Definition word (c : ColorMetaData) (i : nat) : Z := nth i (color_rest c) 0.
Definition unsigned (x : Z) : Z := if x <? 0 then 0 else u32 x.
Definition stream_of (b : Buffer) : HdrStream :=
  let c := color_metadata b in
  mkStream (unsigned (GetEOTF (transfer c))) [(word c 2, word c 3); (word c 4, word c 5); (word c 6, word c 7)] (word c 8, word c 9)
    (word c 10 / 10000) (word c 11) (word c 13) (word c 14) (unsigned (GetPixelEncoding b)) (unsigned (GetColoriMetry b)) (GetRange (range c))
    (unsigned (GetBitsPerComponent b)) (GetContentType b).
(** The write of the metadata at the end. *)
Definition write_hdr (c : HdrCtrl) : H DisplayError :=
  p ← path "hdr_stream";
  fd ← open p;
  if fd <? 0 then mret kErrorFileDescriptor
  else
    t ← clock;
    len ← in_env (hd_write_hdr fd c);
    _ ← hnote (HHdr c t len);
    _ ← close fd;
    mret (if len <=? 0 then kErrorUndefined else kErrorNone).
Definition on_cdm (f : option Csc -> option Csc) : H unit :=
  match MDP_COMMIT_UPDATE_CDM_COLOR_SPACE with
  | Some _ => on_hdmi (fun h => h <| cdm_color_space_ ::= f |> <| cdm_color_space_commit_ := true |>)
  | None => mret tt
  end.
Definition UpdateHDRMetaData (info : HWHDRLayerInfo) (layers : list Layer) : H DisplayError :=
  enabled ← see_dev (fun d => FbPanel.hdr_enabled (hw_panel_info_ d));
  if negb (enabled : bool) then mret kErrorNone
  else if negb MDP_HDR_STREAM then mret kErrorNone
  else
    match operation info with
    | kSet =>
        l ← (if -1 <? layer_index info then at_ layers (layer_index info) else mret Layer0);
        let b := input_buffer l in
        _ ← on_hdmi (fun h => h <| reset_hdr_flag_ := false |>);
        _ ← on_cdm (SetCSC (color_metadata b));
        write_hdr (mkCtrl HDR_ENABLE (stream_of b))
    | kReset =>
        _ ← on_hdmi (fun h => h <| reset_hdr_flag_ := true |>);
        t ← in_env hd_time;
        _ ← on_hdmi (fun h => h <| hdr_reset_start_ := t |>);
        _ ← on_cdm (fun _ => MDP_CSC_DEFAULT);
        write_hdr (mkCtrl HDR_RESET Stream0)
    | kNoOp =>
        flag ← see reset_hdr_flag_;
        if (flag : bool) then
          t ← in_env hd_time;
          _ ← on_hdmi (fun h => h <| hdr_reset_end_ := t |>);
          start ← see hdr_reset_start_;
          if MIN_HDR_RESET_WAITTIME_SEC <=? t - start then
            _ ← on_hdmi (fun h => h <| reset_hdr_flag_ := false |>);
            write_hdr (mkCtrl HDR_DISABLE Stream0)
          else mret kErrorNone
        else mret kErrorNone
    end.

(** ** Modes and timings *)
Definition strtok (delim : string) (t : text) : list text := FbPanel.strtok (Cec.bytes delim) [] t.
Fixpoint mode_numbers (l : list text) : outcome (list Z) :=
  match l with [] => Ret [] | t :: l => x ← FbPanel.atoi t; r ← mode_numbers l; Ret (u32 x :: r) end.
(** The descriptor is left open when nothing could be read. *)
Definition ReadEDIDInfo : H DisplayError :=
  p ← path "edid_modes";
  fd ← open p;
  if fd <? 0 then mret kErrorHardware
  else
    r ← in_env (FbPanel.sy_pread fd (kPageSize - 1));
    match r with
    | Some (c :: l) =>
        _ ← close fd;
        let tokens := FbPanel.ParseLine FbPanel.DELIM 128 (FbPanel.strip (length (c :: l)) (c :: l)) in
        modes ← st_lift (mode_numbers tokens);
        _ ← on_hdmi (fun h => h <| supported_video_modes_ ::= resize (length tokens) Timing0 |> <| hdmi_modes_ := modes |>);
        mret kErrorNone
    | _ => mret kErrorHardware
    end.
Definition MapHWScanSupport (value : Z) : HWScanSupport :=
  if value =? 1 then kScanAlwaysOverscanned else if value =? 2 then kScanAlwaysUnderscanned else if value =? 3 then kScanBoth else kScanNotSupported.
Definition ReadScanInfo : H unit :=
  p ← path "scan_info";
  fd ← open p;
  if fd <? 0 then mret tt
  else
    r ← in_env (FbPanel.sy_pread fd (kPageSize - 1));
    _ ← close fd;
    match r with
    | Some (c :: l) =>
        match FbPanel.ParseLine FbPanel.DELIM 3 (c :: l) with
        | [a; b; c] =>
            x ← st_lift (FbPanel.atoi a); y ← st_lift (FbPanel.atoi b); z ← st_lift (FbPanel.atoi c);
            on_hdmi (fun h => h <| hw_scan_info_ := mkScan (MapHWScanSupport (u32 x)) (MapHWScanSupport (u32 y)) (MapHWScanSupport (u32 z)) |>)
        | _ => mret tt
        end
    | _ => mret tt
    end.
Definition OpenResolutionFile : H Z := p ← path "res_info"; open p.
(** All of the array is written, with what was on the stack behind the number. *)
Definition page_text (page : Z) : text := let t := decimal page ++ [0] in take kPageSize (t ++ drop (length t) stack_page).
Definition RequestNewPage (page : Z) : H unit := p ← path "res_info"; _ ← write_file p (page_text page); mret tt.
(** The array of zeros with what was read, none when nothing was. *)
Definition ReadResolutionFile : H (option text) :=
  fd ← OpenResolutionFile;
  if 0 <=? fd then
    r ← in_env (FbPanel.sy_pread fd kPageSize);
    _ ← close fd;
    mret (match r with Some (c :: l) => Some (c :: l ++ replicate (kPageSize - length (c :: l)) 0) | _ => None end)
  else mret None.
(** The timings of a page: [i] were read of it, [left] modes are without one. *)
Fixpoint page_loop (left : nat) (buf : text) (i : nat) (config_index : Z) : H Z :=
  let off := (i * timing_size)%nat in
  if (kPageSize <? off + 4)%nat then st_undef
  else
    let t := timing_of (take timing_size (drop off buf)) in
    match left with
    | O => mret config_index
    | S left =>
        if negb (video_format t =? 0) && (S i * timing_size <? kPageSize)%nat then
          m ← see supported_video_modes_;
          _ ← at_ m config_index;
          _ ← on_hdmi (fun h => h <| supported_video_modes_ ::= <[Z.to_nat config_index := t]> |>);
          page_loop left buf (S i) (config_index + 1)
        else mret config_index
    end.
Fixpoint timing_loop (fuel : nat) (page config_index : Z) : H (Z * Z) :=
  match fuel with
  | O => fun _ => NoFuel
  | S fuel =>
      _ ← RequestNewPage page;
      r ← ReadResolutionFile;
      match r with
      | None => mret (page, config_index)
      | Some buf =>
          n ← see (fun h => length (hdmi_modes_ h));
          config_index ← page_loop (n - Z.to_nat config_index) buf 0 config_index;
          timing_loop fuel (u32 (page + 1)) config_index
      end
  end.
Definition ReadTimingInfo (fuel : nat) : H DisplayError :=
  '(page, config_index) ← timing_loop fuel MSM_HDMI_INIT_RES_PAGE 0;
  mret (if (page =? MSM_HDMI_INIT_RES_PAGE) || (config_index =? 0) then kErrorHardware else kErrorNone).
Definition IsResolutionFilePresent : H bool := fd ← OpenResolutionFile; if 0 <=? fd then _ ← close fd; mret true else mret false.
Definition SetSourceProductInformation (node name : string) : H unit :=
  n ← in_env (FbPanel.GetFBNodeIndex FbPanel.kDeviceHDMI);
  if n <? 0 then mret tt
  else
    v ← in_env (hd_property name);
    match v with
    | None => mret tt
    | Some v => _ ← write_file (FbPanel.node_path n node) v; mret tt
    end.

(** The first of the timings that is of the mode; an entry of each mode is looked at. *)
Fixpoint find_timing (format : Z) (n : nat) (l : list Timing) : outcome (option Timing) :=
  match n with
  | O => Ret None
  | S n => match l with [] => Undef | t :: l => if video_format t =? format then Ret (Some t) else find_timing format n l end
  end.
(** The timing of a configuration, or the first one. *)
Definition timing_mode (index : Z) : H Timing :=
  h ← see (fun h => h);
  first ← at_ (supported_video_modes_ h) 0;
  match hdmi_modes_ h with
  | [] => mret first
  | _ =>
      format ← at_ (hdmi_modes_ h) index;
      r ← st_lift (find_timing format (length (hdmi_modes_ h)) (supported_video_modes_ h));
      mret (default first r)
  end.

(** ** 3D modes *)
Definition s3d_token (t : text) (s : Z) : Z :=
  if FbPanel.named "SSH" t then set_bit kS3DModeRL (set_bit kS3DModeLR s)
  else if FbPanel.named "TAB" t then set_bit kS3DModeTB s
  else if FbPanel.named "FP" t then set_bit kS3DModeFP s
  else s.
(** strtok_r once: the token and what is left for the next one. *)
Fixpoint take_token (d : Z) (t : text) : text * text :=
  match t with [] => ([], []) | c :: t => if c =? d then ([], t) else let '(a, r) := take_token d t in (c :: a, r) end.
Fixpoint drop_delim (d : Z) (t : text) : text := match t with c :: t' => if c =? d then drop_delim d t' else t | [] => [] end.
Definition first_token (d : Z) (t : text) : option (text * text) := match drop_delim d t with [] => None | t => Some (take_token d t) end.
(** One entry: a mode and, after the equals sign, the 3D modes of it. *)
Definition s3d_entry (mode : Z) (entry : text) (s : Z) : outcome Z :=
  match first_token 61 entry with
  | None => Ret s
  | Some (number, rest) => x ← FbPanel.atoi number; Ret (if mode =? u32 x then fold_left (fun s t => s3d_token t s) (strtok ":" rest) s else s)
  end.
Fixpoint s3d_entries (mode : Z) (l : list text) (s : Z) : outcome Z :=
  match l with [] => Ret s | e :: l => s ← s3d_entry mode e s; s3d_entries mode l s end.
Definition GetDisplayS3DSupport (index : Z) (a : HAttributes) : H (DisplayError * HAttributes) :=
  p ← path "edid_3d_modes";
  modes ← see hdmi_modes_;
  if Z.of_nat (length modes) <? index then mret (kErrorNotSupported, a)
  else
    let a := a <| s3d_config ::= set_bit kS3DModeNone |> in
    fd ← open p;
    if fd <? 0 then mret (kErrorNotSupported, a)
    else
      r ← in_env (FbPanel.sy_pread fd (kPageSize - 1));
      match r with
      | Some (c :: l) =>
          match strtok "," (FbPanel.c_str (c :: l)) with
          | [] => _ ← close fd; mret (kErrorNone, a)
          | entries =>
              mode ← at_ modes index;
              s ← st_lift (s3d_entries mode entries (s3d_config a));
              _ ← close fd;
              mret (kErrorNone, a <| s3d_config := s |>)
          end
      | _ => _ ← close fd; mret (kErrorNotSupported, a)
      end.
Definition IsSupportedS3DMode (m : HWS3DMode) (h : Hdmi) : bool := bool_decide (m ∈ supported_s3d_modes_ h).
Definition s3d_lookup (m : HWS3DMode) (l : list (HWS3DMode * Z)) : option Z := snd ∘ snd <$> list_find (fun e => fst e = m) l.
Definition SetS3DMode (m : HWS3DMode) : H DisplayError :=
  h ← see (fun h => h);
  if negb (IsSupportedS3DMode m h) then mret kErrorNotSupported
  else
    match s3d_lookup m (s3d_mode_sdm_to_mdp_ h) with
    | None => mret kErrorNotSupported
    | Some mdp =>
        if active_mdp_s3d_mode_ h =? mdp then _ ← on_hdmi (fun h => h <| s3d_mode := m |>); mret kErrorNone
        else
          p ← path "s3d_mode";
          let t := decimal mdp in
          r ← write_file p (t ++ replicate (FbPanel.kMaxStringLength - length t) 0);
          match r with
          | Some len =>
              if len <=? 0 then mret kErrorNotSupported
              else _ ← on_hdmi (fun h => h <| active_mdp_s3d_mode_ := mdp |> <| s3d_mode := m |>); mret kErrorNone
          | None => mret kErrorNotSupported
          end
    end.
Definition GetPanelS3DMode : H DisplayError :=
  p ← path "s3d_mode";
  fd ← open p;
  if fd <? 0 then mret kErrorNotSupported
  else
    r ← in_env (FbPanel.sy_pread fd FbPanel.kMaxStringLength);
    match r with
    | Some (c :: l) =>
        x ← st_lift (Cec.atoi (FbPanel.buffer FbPanel.kMaxStringLength (c :: l)));
        e ← (if (x <? HDMI_S3D_NONE) || (HDMI_S3D_MAX <=? x) then mret kErrorUndefined
             else _ ← on_hdmi (fun h => h <| active_mdp_s3d_mode_ := x |>); mret kErrorNone);
        _ ← close fd;
        mret e
    | _ => _ ← close fd; mret kErrorNotSupported
    end.

(** ** Configurations *)
Definition GetNumDisplayAttributes : H (DisplayError * Z) :=
  n ← see (fun h => u32 (length (hdmi_modes_ h))); mret (if n <=? 0 then kErrorHardware else kErrorNone, n).
Definition GetActiveConfig : H Z := see active_config_index_.
Definition attributes_of (t : Timing) (max_mixer_width : Z) : outcome Attributes :=
  let h_blanking := u32 (front_porch_h t + back_porch_h t + pulse_width_h t) in
  let fps := refresh_rate t / 1000 in
  let split := max_mixer_width <? active_h t in
  let h_total := u32 (active_h t + h_blanking) in
  if fps =? 0 then Undef
  else Ret (mkAttr (active_h t) (active_v t) f_zero f_zero fps (u32 (1000000000 / fps)) split (front_porch_v t) (back_porch_v t) (pulse_width_v t)
              (if split then u32 (h_total + h_blanking) else h_total)).
Definition GetDisplayAttributes (index : Z) (a : HAttributes) : H (DisplayError * HAttributes) :=
  n ← see (fun h => length (hdmi_modes_ h));
  if Z.of_nat n <=? index then mret (kErrorNotSupported, a)
  else
    t ← timing_mode index;
    w ← see_dev (fun d => max_mixer_width (hw_resource_ d));
    b ← st_lift (attributes_of t w);
    '(_, a) ← GetDisplayS3DSupport index (a <| base := b |>);
    mret (kErrorNone, a <| is_yuv := Z.testbit (pixel_formats t) 1 |>).
Definition MapHDMIDisplayTiming (m : Timing) (v : VInfo) : VInfo :=
  v <| v_reserved := [0; 0; 0; Z.lor (Z.land (nth 3 (v_reserved v) 0) 0xFFFF) (u32 (Z.shiftl (video_format m) 16))] |>
    <| xoffset := 0 |> <| yoffset := 0 |> <| v_xres := active_h m |> <| v_yres := active_v m |> <| pixclock := u32 (pixel_freq m * 1000) |>
    <| vmode := if interlaced m =? 0 then FB_VMODE_NONINTERLACED else FB_VMODE_INTERLACED |>
    <| right_margin := front_porch_h m |> <| v_hsync_len := pulse_width_h m |> <| left_margin := back_porch_h m |>
    <| lower_margin := front_porch_v m |> <| v_vsync_len := pulse_width_v m |> <| upper_margin := back_porch_v m |>
    <| grayscale := if Z.testbit (pixel_formats m) 1 then V4L2_PIX_FMT_NV12 else V4L2_PIX_FMT_RGB24 |>
    <| sync ::= fun s =>
         let s := if active_low_h m =? 0 then Z.lor s FB_SYNC_HOR_HIGH_ACT else Z.ldiff s FB_SYNC_HOR_HIGH_ACT in
         if active_low_v m =? 0 then Z.lor s FB_SYNC_VERT_HIGH_ACT else Z.ldiff s FB_SYNC_VERT_HIGH_ACT |>.
Definition UpdateMixerAttributes : H unit :=
  in_dev (on_dev (fun d => let a := display_attributes_ d in
    d <| mixer_attributes_ := mkMix (x_pixels a) (y_pixels a) (if is_device_split a then x_pixels a / 2 else x_pixels a) |>)).
(** GetDisplayAttributes into display_attributes_. *)
Definition update_attributes (index : Z) : H unit :=
  a ← see_dev display_attributes_; h ← see (fun h => h);
  '(_, r) ← GetDisplayAttributes index (mkHAttr a (s3d_config_ h) (is_yuv_ h));
  _ ← in_dev (on_dev (fun d => d <| display_attributes_ := base r |>));
  on_hdmi (fun h => h <| s3d_config_ := s3d_config r |> <| is_yuv_ := is_yuv r |>).
Definition modes_3d : list HWS3DMode := [kS3DModeLR; kS3DModeRL; kS3DModeTB; kS3DModeFP].
Definition SetDisplayAttributes (index : Z) : H DisplayError :=
  n ← see (fun h => length (hdmi_modes_ h));
  if Z.of_nat n <? index then mret kErrorNotSupported
  else
    v ← in_env hd_get_screen;
    match v with
    | None => mret kErrorHardware
    | Some v =>
        t ← timing_mode index;
        let v := MapHDMIDisplayTiming t v in
        ok ← in_env (hd_set_vic (video_format t));
        _ ← hnote (HVic (video_format t));
        if negb (ok : bool) then mret kErrorHardware
        else
          let v := v <| activate := FB_ACTIVATE |> in
          ok ← in_env (hd_put_screen v);
          _ ← hnote (HPut v);
          if negb (ok : bool) then mret kErrorHardware
          else
            _ ← on_hdmi (fun h => h <| active_config_index_ := index |> <| frame_rate_ := refresh_rate t |>);
            _ ← update_attributes index;
            _ ← UpdateMixerAttributes;
            _ ← on_hdmi (fun h => h <| supported_s3d_modes_ := kS3DModeNone :: List.filter (fun m => has_bit m (s3d_config_ h)) modes_3d |>);
            _ ← SetS3DMode kS3DModeNone;
            mret kErrorNone
    end.
Fixpoint index_of_mode (mode : Z) (l : list Z) : option nat :=
  match l with [] => None | m :: l => if m =? mode then Some O else S <$> index_of_mode mode l end.
(** The index is as it was when the mode is not there. *)
Definition GetConfigIndex (mode index : Z) : H (DisplayError * Z) :=
  modes ← see hdmi_modes_;
  mret (match index_of_mode mode modes with Some i => (kErrorNone, Z.of_nat i) | None => (kErrorNotSupported, index) end).
Definition GetHWScanInfo : H HWScanInfo := see hw_scan_info_.
Definition GetVideoFormat (index : Z) : H (DisplayError * Z) :=
  modes ← see hdmi_modes_;
  if Z.of_nat (length modes) <? index then mret (kErrorNotSupported, 0) else f ← at_ modes index; mret (kErrorNone, f).
Definition GetMaxCEAFormat : H Z := mret HDMI_VFRMT_END.
Definition OnMinHdcpEncryptionLevelChange (min_enc_level : Z) : H DisplayError :=
  p ← path "hdcp2p2/min_level_change";
  r ← write_file p (decimal min_enc_level);
  mret (match r with Some len => if len <=? 0 then kErrorHardware else kErrorNone | None => kErrorHardware end).

(** ** Frames *)
Definition Hdmi_Validate (h : HWLayers) : H DisplayError :=
  _ ← in_dev ResetDisplayParams; _ ← on_hdmi (fun d => d <| commit_cdm := None |>); in_dev (HWDevice_Validate h).
Definition Hdmi_Commit (h : HWLayers) (info : HWHDRLayerInfo) (layers : list Layer) : H (DisplayError * HWLayers) :=
  e ← UpdateHDRMetaData info layers;
  if decide (e <> kErrorNone) then mret (e, h)
  else
    d ← see (fun d => d);
    _ ← (if cdm_color_space_commit_ d then
           match MDP_COMMIT_UPDATE_CDM_COLOR_SPACE with
           | Some f =>
               _ ← on_hdmi (fun d => d <| commit_cdm := cdm_color_space_ d |>);
               in_dev (on_commit (fun c => c <| flags ::= fun g => Z.lor g f |>))
           | None => mret tt
           end
         else mret tt);
    r ← in_dev (HWDevice_Commit h);
    _ ← on_hdmi (fun d => d <| cdm_color_space_commit_ := false |>);
    mret r.

(** ** The refresh rate *)
Definition rate_diff (t : Timing) (rate : Z) : outcome Z := int_expr (s32 (refresh_rate t) - s32 rate).
Definition same_picture (a b : Timing) : bool := (active_h a =? active_h b) && (active_v a =? active_v b) && (pixel_formats a =? pixel_formats b).
(** The timing of the picture with the nearest rate, the first of them; with the difference. *)
Fixpoint nearest (cur : Timing) (rate : Z) (n : nat) (l : list Timing) (best : Timing * Z) : outcome (Timing * Z) :=
  match n with
  | O => Ret best
  | S n =>
      match l with
      | [] => Undef
      | t :: l =>
          if same_picture cur t then
            d ← rate_diff t rate;
            a ← int_expr (Z.abs (snd best)); b ← int_expr (Z.abs d);
            nearest cur rate n l (if b <? a then (t, d) else best)
          else nearest cur rate n l best
      end
  end.
Definition fps_mode (cur dst : Timing) (rate : Z) (unstd : bool) (m : HWFramerateUpdate) : HWFramerateUpdate :=
  let m := if front_porch_h dst =? front_porch_h cur then m else kModeHFP in
  let m :=
    if negb (refresh_rate dst =? rate) || negb (pixel_freq dst =? pixel_freq cur) then
      if decide (m = kModeHFP) then if refresh_rate dst =? rate then kModeClockHFP else kModeHFPCalcClock else kModeClock
    else m in
  if unstd && bool_decide (m = kModeHFP) then kModeClockHFP else m.
Definition GetDynamicFrameRateMode (rate : Z) (mode : HWFramerateUpdate) (config_index : Z) :
    H (DisplayError * option (HWFramerateUpdate * DynamicFPSData * Z)) :=
  h ← see (fun h => h);
  let n := length (hdmi_modes_ h) in
  cur ← (match hdmi_modes_ h with
         | [] => mret None
         | _ => format ← at_ (hdmi_modes_ h) (active_config_index_ h); st_lift (find_timing format n (supported_video_modes_ h))
         end);
  match cur with
  | None => mret (kErrorUndefined, None)
  | Some cur =>
      let unstd := negb (refresh_rate cur =? frame_rate_ h) in
      d ← st_lift (rate_diff cur rate);
      '(dst, d) ← st_lift (nearest cur rate n (supported_video_modes_ h) (cur, d));
      if kThresholdRefreshRate <? d then mret (kErrorNotSupported, None)
      else
        '(_, i) ← GetConfigIndex (video_format dst) config_index;
        mret (kErrorNone, Some (fps_mode cur dst rate unstd mode,
          mkFps (front_porch_h dst) (back_porch_h dst) (pulse_width_h dst) (pixel_freq dst) rate, i))
  end.
Definition spaced (l : list Z) : text := match decimal <$> l with [] => [] | t :: r => t ++ (r ≫= fun x => 32 :: x) end.
Definition rate_text (m : HWFramerateUpdate) (d : DynamicFPSData) : text :=
  if decide (m = kModeHFP \/ m = kModeClock) then decimal (data_fps d)
  else spaced [hor_front_porch d; hor_back_porch d; hor_pulse_width d; clk_rate_hz d; data_fps d].
Definition SetRefreshRate (fuel : nat) (rate : Z) : H DisplayError :=
  r ← see frame_rate_;
  if rate =? r then mret kErrorNone
  else
    '(e, r) ← GetDynamicFrameRateMode rate kModeClock 0;
    match r with
    | None => mret e
    | Some (mode, data, config_index) =>
        p ← path "msm_fb_dfps_mode";
        len ← write_file p (decimal (mode_number mode));
        match len with
        | None => mret kErrorFileDescriptor
        | Some len =>
            if len <? 0 then mret kErrorUndefined
            else
              p ← path "dynamic_fps";
              len ← write_file p (rate_text mode data);
              match len with
              | None => mret kErrorFileDescriptor
              | Some len =>
                  if len <? 0 then mret kErrorUndefined
                  else
                    e ← ReadTimingInfo fuel;
                    if decide (e <> kErrorNone) then mret e
                    else
                      _ ← update_attributes config_index;
                      _ ← UpdateMixerAttributes;
                      _ ← on_hdmi (fun h => h <| frame_rate_ := rate |> <| active_config_index_ := config_index |>);
                      mret kErrorNone
              end
        end
    end.

Definition Hdmi_Init (fuel : nat) : H DisplayError :=
  _ ← SetSourceProductInformation "vendor_name" "ro.product.manufacturer";
  _ ← SetSourceProductInformation "product_description" "ro.product.name";
  e ← in_dev HWDevice_Init;
  if decide (e <> kErrorNone) then mret e
  else
    n ← see_dev (fun d => dest_count (hw_resource_ d));
    _ ← in_dev (on_dev (fun d => d <| mdp_dest_scalar_data_ ::= resize (Z.to_nat n) Dest0 |>));
    e ← ReadEDIDInfo;
    if decide (e <> kErrorNone) then _ ← in_dev HWDevice_Deinit; mret e
    else
      present ← IsResolutionFilePresent;
      if negb (present : bool) then _ ← in_dev HWDevice_Deinit; mret kErrorHardware
      else
        e ← ReadTimingInfo fuel;
        if decide (e <> kErrorNone) then _ ← in_dev HWDevice_Deinit; mret e
        else
          _ ← ReadScanInfo;
          _ ← GetPanelS3DMode;
          _ ← on_hdmi (fun h => h <| s3d_mode_sdm_to_mdp_ ::= fun l => l ++
                [(kS3DModeNone, HDMI_S3D_NONE); (kS3DModeLR, HDMI_S3D_SIDE_BY_SIDE); (kS3DModeRL, HDMI_S3D_SIDE_BY_SIDE);
                 (kS3DModeTB, HDMI_S3D_TOP_AND_BOTTOM); (kS3DModeFP, HDMI_S3D_FRAME_PACKING)] |>);
          mret kErrorNone.
End Hdmi.
End FbHdmi.
