(* ===== verification/HdmiProps.v ===== *)
(** The properties of the HDMI panel: the choice of a refresh rate, when the HDR state is
    switched off, that the pages of timings are read within their arrays, and what the
    code does not prevent. *)
From S2P Require Import Prelude Rect ResourceDefault Strategy HwcLayer Cec FbScale FbPanel FbDevice Wp FbProps FbHdmi.
#[local] Open Scope Z_scope.

Module HdmiProps.
Import Float32 Formats Rect ResourceDefault HwcLayer FbScale FbDevice FbHdmi.

(** * The refresh rate *)
Section Rate.
Definition rate_ok (r : Z) : Prop := 0 <= r < 2 ^ 31.
Lemma s32_rate r : rate_ok r -> s32 r = r.
Proof. unfold rate_ok, swrap. intros H. rewrite Z.mod_small by lia. destruct (Z.ltb_spec r (2 ^ (32 - 1))); lia. Qed.
Lemma rate_diff_ok t r : rate_ok (refresh_rate t) -> rate_ok r -> rate_diff t r = Ret (refresh_rate t - r).
Proof. intros Ht Hr. unfold rate_diff. rewrite !s32_rate by done. apply int_expr_ok. unfold rate_ok, INT_MIN, INT_MAX in *. lia. Qed.
Lemma abs_diff_ok x r : rate_ok x -> rate_ok r -> int_expr (Z.abs (x - r)) = Ret (Z.abs (x - r)).
Proof. intros Hx Hr. apply int_expr_ok. unfold rate_ok, INT_MIN, INT_MAX in *. lia. Qed.
(** [dst] is of the picture and no timing of the picture is nearer. *)
Definition distance (t : Timing) (r : Z) : Z := Z.abs (refresh_rate t - r).
Lemma nearest_spec cur r l : rate_ok r -> Forall (fun t => rate_ok (refresh_rate t)) l -> forall b, rate_ok (refresh_rate b) ->
  exists dst, nearest cur r (length l) l (b, refresh_rate b - r) = Ret (dst, refresh_rate dst - r) /\ (dst = b \/ dst ∈ l /\ same_picture cur dst = true) /\
    distance dst r <= distance b r /\ forall t, t ∈ l -> same_picture cur t = true -> distance dst r <= distance t r.
Proof.
  intros Hr. induction 1 as [|t l Ht Hl IH]; intros b Hb; cbn [nearest length].
  { exists b. split; [done|]. split; [by left|]. split; [done|]. intros t Ht. by apply not_elem_of_nil in Ht. }
  assert (Hstep : forall b', rate_ok (refresh_rate b') -> (b' = b \/ b' = t /\ same_picture cur t = true) -> distance b' r <= distance b r ->
    (same_picture cur t = true -> distance b' r <= distance t r) ->
    exists dst, nearest cur r (length l) l (b', refresh_rate b' - r) = Ret (dst, refresh_rate dst - r) /\
      (dst = b \/ dst ∈ t :: l /\ same_picture cur dst = true) /\ distance dst r <= distance b r /\
      forall x, x ∈ t :: l -> same_picture cur x = true -> distance dst r <= distance x r).
  { intros b' Hb' Hor Hd Hd'. destruct (IH b' Hb') as (dst & E & Hin & H1 & H2). exists dst. split; [exact E|]. split_and!.
    - destruct Hin as [->|[Hin Hs]]; [|right; by split; [apply list_elem_of_further|]]. destruct Hor as [->|[-> Hs]]; [by left|].
      right. split; [apply list_elem_of_here|done].
    - lia.
    - intros x [->|Hx]%elem_of_cons Hs; [specialize (Hd' Hs); lia|by apply H2]. }
  destruct (same_picture cur t) eqn:Es.
  - rewrite rate_diff_ok by done. rewrite bind_ret. cbn [snd]. rewrite !abs_diff_ok by done. rewrite !bind_ret.
    destruct (Z.ltb_spec (Z.abs (refresh_rate t - r)) (Z.abs (refresh_rate b - r))); apply Hstep; auto; unfold distance; intros; lia.
  - apply Hstep; auto; [lia|done].
Qed.
Lemma find_timing_in f l t : find_timing f (length l) l = Ret (Some t) -> t ∈ l.
Proof.
  induction l as [|x l IH]; cbn [find_timing length]; [done|]. destruct (video_format x =? f); [intros [= ->]; apply list_elem_of_here|].
  intros H%IH. by apply list_elem_of_further.
Qed.
Lemma same_picture_refl t : same_picture t t = true.
Proof. unfold same_picture. by rewrite !Z.eqb_refl. Qed.

Context {V : Type}.
(** The timings of the modes were read and their rates are numbers of int; [cur] is that of
    the active configuration. *)
Record rates_ready (w : HWorld V) (cur : Timing) : Prop := {
  rr_length : length (supported_video_modes_ (hdmi w)) = length (hdmi_modes_ (hdmi w));
  rr_rates : Forall (fun t => rate_ok (refresh_rate t)) (supported_video_modes_ (hdmi w));
  rr_cur : exists f, hdmi_modes_ (hdmi w) !! Z.to_nat (active_config_index_ (hdmi w)) = Some f /\
    find_timing f (length (hdmi_modes_ (hdmi w))) (supported_video_modes_ (hdmi w)) = Ret (Some cur)
}.
Lemma config_index_run m i (w : HWorld V) :
  GetConfigIndex m i w = Ret (match index_of_mode m (hdmi_modes_ (hdmi w)) with Some j => (kErrorNone, Z.of_nat j) | None => (kErrorNotSupported, i) end, w).
Proof. done. Qed.
(** What is answered when [dst] is the timing that was chosen. *)
Definition rate_answer (w : HWorld V) (cur dst : Timing) (rate : Z) (mode : HWFramerateUpdate) (i : Z) :=
  if kThresholdRefreshRate <? refresh_rate dst - rate then (kErrorNotSupported, None)
  else (kErrorNone, Some (fps_mode cur dst rate (negb (refresh_rate cur =? frame_rate_ (hdmi w))) mode,
    mkFps (front_porch_h dst) (back_porch_h dst) (pulse_width_h dst) (pixel_freq dst) rate,
    match index_of_mode (video_format dst) (hdmi_modes_ (hdmi w)) with Some j => Z.of_nat j | None => i end)).
(** C25: the refresh rate of the HDMI panel.  Among the timings with the size and format of
    the active configuration the one whose rate is nearest to the rate that is asked for is
    chosen; what is answered is the way to it and its numbers, and a refusal exactly when
    its rate is more than the threshold above. *)
Theorem closest_rate w cur rate mode i : rates_ready w cur -> rate_ok rate ->
  exists dst, dst ∈ supported_video_modes_ (hdmi w) /\ same_picture cur dst = true /\
    (forall t, t ∈ supported_video_modes_ (hdmi w) -> same_picture cur t = true -> distance dst rate <= distance t rate) /\
    GetDynamicFrameRateMode rate mode i w = Ret (rate_answer w cur dst rate mode i, w).
Proof.
  intros [Hl Hr (f & Hf & Hc)] Hrate. rewrite <- Hl in Hc. pose proof (find_timing_in _ _ _ Hc) as Hin.
  assert (Hcur : rate_ok (refresh_rate cur)) by (by apply (proj1 (Forall_forall _ _) Hr)).
  destruct (nearest_spec cur rate _ Hrate Hr cur Hcur) as (dst & En & Hd & _ & Hmin). exists dst.
  split; [by destruct Hd as [->|[Hd _]]|]. split; [by destruct Hd as [->|[_ Hd]]; [apply same_picture_refl|]|]. split; [exact Hmin|].
  unfold GetDynamicFrameRateMode, see. rewrite (st_bind_Ret _ _ w (hdmi w) w eq_refl). cbv zeta. rewrite <- Hl.
  destruct (hdmi_modes_ (hdmi w)) as [|m ms] eqn:Em; [done|].
  assert (Ea : (format ← at_ (m :: ms) (active_config_index_ (hdmi w)); st_lift (find_timing format (length (supported_video_modes_ (hdmi w)))
    (supported_video_modes_ (hdmi w)))) w = Ret (Some cur, w)).
  { unfold at_. rewrite Hf. rewrite (st_bind_Ret _ _ w f w eq_refl). by apply st_lift_Ret. }
  rewrite (st_bind_Ret _ _ _ _ _ Ea). rewrite (st_bind_Ret _ _ w (refresh_rate cur - rate) w) by (by apply st_lift_Ret, rate_diff_ok).
  rewrite (st_bind_Ret _ _ w (dst, refresh_rate dst - rate) w) by (by apply st_lift_Ret). unfold rate_answer. rewrite Em.
  destruct (kThresholdRefreshRate <? refresh_rate dst - rate); [done|]. rewrite (st_bind_Ret _ _ w _ w (config_index_run _ _ w)). rewrite Em.
  by destruct (index_of_mode _ _).
Qed.
End Rate.

(** * HDR *)
Section Hdr.
Context {MDP : Mdp} {V : Type} {SYS : FbPanel.Sysfs V} {DRV : Driver V} {ENV : HdmiEnv V}.
Abbreviation W := (HWorld V).

(** The calls of the environment return, time answers with what the clock shows at some
    moment of the call, and the clock is not set back. *)
Abbreviation forward m := (forall v : V, wp m (fun _ v' => hd_clock v <= hd_clock v') v).
Class HdrLaws := {
  time_law : forall v, wp (hd_time : St V Z) (fun t v' => hd_clock v <= t <= hd_clock v') v;
  write_law : forall fd c, forward (hd_write_hdr fd c : St V Z);
  open_law : forall p, forward (FbPanel.sy_open p : St V Z);
  close_law : forall fd, forward (FbPanel.sy_close fd : St V unit)
}.
Context {LAWS : HdrLaws}.
Definition moved (v : V) (w : W) : W := w <| hw ::= fun d => d <| drv := v |> |>.
Definition now (w : W) : Z := hd_clock (drv (hw w)).
Lemma in_env_wp {A} (m : St V A) (P : A -> V -> Prop) (Q : A -> W -> Prop) w : wp m P (drv (hw w)) -> (forall a v, P a v -> Q a (moved v w)) -> wp (in_env m) Q w.
Proof. intros (a & v & E & HP) HQ. exists a, (moved v w). unfold in_env, in_dev, in_v. rewrite E. auto. Qed.

(** The structures that were written, each with the time and the result of the write. *)
Definition hdr_event (c : HCall) : option (HdrCtrl * Z * Z) := match c with HHdr c t r => Some (c, t, r) | _ => None end.
Definition hdr_log (l : list HCall) : list (HdrCtrl * Z * Z) := omap hdr_event l.
(** A frame that was shown: what the clock showed at its begin and end, the error, and what
    was written in it. *)
Record Shown := mkShown { began : Z; ended : Z; status : DisplayError; written : list (HdrCtrl * Z * Z) }.
(** The HDR part of one frame after the other. *)
Fixpoint run_frames (fs : list (HWHDRLayerInfo * list Layer)) : St W (list Shown) :=
  match fs with
  | [] => mret []
  | f :: fs =>
      b ← clock;
      n ← st_gets (fun w => length (hdr_log (hlog w)));
      e ← UpdateHDRMetaData (fst f) (snd f);
      t ← clock;
      ws ← st_gets (fun w => drop n (hdr_log (hlog w)));
      r ← run_frames fs;
      mret (mkShown b t e ws :: r)
  end.
(** [c] is written in the frame, not before [since], or the node could not be opened. *)
Definition writes (c : HdrCtrl) (since : Z) (s : Shown) : Prop :=
  (status s = kErrorFileDescriptor /\ written s = []) \/
  exists t r, written s = [(c, t, r)] /\ since <= t <= ended s /\ status s = if r <=? 0 then kErrorUndefined else kErrorNone.
Definition silent (s : Shown) : Prop := written s = [] /\ status s = kErrorNone.
(** The layer that is named, or none. *)
Definition hdr_layer (f : HWHDRLayerInfo * list Layer) : Layer :=
  if -1 <? layer_index (fst f) then default Layer0 (snd f !! Z.to_nat (layer_index (fst f))) else Layer0.
(** What the frames are to do; [reset] is the begin and the end of the frame whose reset is
    awaited. *)
Fixpoint frames_ok (reset : option (Z * Z)) (fs : list (HWHDRLayerInfo * list Layer)) (l : list Shown) : Prop :=
  match fs, l with
  | [], [] => True
  | f :: fs, s :: l =>
      match operation (fst f), reset with
      | kSet, _ => writes (mkCtrl HDR_ENABLE (stream_of (input_buffer (hdr_layer f)))) (began s) s /\ frames_ok None fs l
      | kReset, _ => writes (mkCtrl HDR_RESET Stream0) (began s) s /\ frames_ok (Some (began s, ended s)) fs l
      | kNoOp, None => silent s /\ frames_ok None fs l
      | kNoOp, Some (b, e) =>
          (silent s /\ began s < e + MIN_HDR_RESET_WAITTIME_SEC /\ frames_ok reset fs l) \/
          (writes (mkCtrl HDR_DISABLE Stream0) (Z.max (began s) (b + MIN_HDR_RESET_WAITTIME_SEC)) s /\ frames_ok None fs l)
      end
  | _, _ => False
  end.
(** The flag and the time of the object say which reset is awaited. *)
Definition awaits (reset : option (Z * Z)) (w : W) : Prop :=
  match reset with
  | None => reset_hdr_flag_ (hdmi w) = false
  | Some (b, e) => reset_hdr_flag_ (hdmi w) = true /\ b <= hdr_reset_start_ (hdmi w) <= e
  end.
(** What a write leaves: the device, the members of the object, the clock and the log. *)
Lemma write_hdr_wp c since (Q : DisplayError -> W -> Prop) w : since <= now w ->
  (forall e w' ws, dev (hw w') = dev (hw w) -> hdmi w' = hdmi w -> now w <= now w' -> hdr_log (hlog w') = hdr_log (hlog w) ++ ws ->
     (forall b, writes c since (mkShown b (now w') e ws)) -> Q e w') -> wp (write_hdr c) Q w.
Proof.
  intros Hs HQ. unfold write_hdr, path, see_dev. wp_step. wp_step. apply wp_gets, wp_ret. wp_step. eapply in_env_wp; [apply open_law|]. intros fd v Hv.
  cbn beta in Hv. unfold now in *. destruct (fd <? 0).
  { apply wp_ret, (HQ _ _ []); [done..|by rewrite app_nil_r|]. intros b. by left. }
  wp_step. apply wp_gets. wp_step. eapply in_env_wp; [apply write_law|]. intros len v1 Hv1.
  wp_step. apply wp_modify. wp_step. eapply in_env_wp; [apply close_law|]. intros [] v2 Hv2. cbn in *. apply wp_ret.
  eapply (HQ _ _ [(c, hd_clock v, len)]); [done|done|cbn; lia|cbn; unfold hdr_log; by rewrite omap_app|].
  intros b. right. eexists _, _. split; [done|]. split; [cbn; lia|done].
Qed.
Lemma on_cdm_wp f (Q : unit -> W -> Prop) w :
  (forall w', hw w' = hw w -> hlog w' = hlog w -> reset_hdr_flag_ (hdmi w') = reset_hdr_flag_ (hdmi w) ->
     hdr_reset_start_ (hdmi w') = hdr_reset_start_ (hdmi w) -> Q tt w') -> wp (on_cdm f) Q w.
Proof. intros HQ. unfold on_cdm. destruct MDP_COMMIT_UPDATE_CDM_COLOR_SPACE; [apply wp_modify|apply wp_ret]; by apply HQ. Qed.
(** A frame that sets the metadata names a layer of the stack, or none. *)
Definition layer_ok (f : HWHDRLayerInfo * list Layer) : Prop := operation (fst f) = kSet -> layer_index (fst f) < length (snd f).
Definition hdr_on (w : W) : Prop := FbPanel.hdr_enabled (hw_panel_info_ (dev (hw w))) = true.
Lemma layer_wp (f : HWHDRLayerInfo * list Layer) (Q : Layer -> W -> Prop) w : layer_index (fst f) < length (snd f) -> Q (hdr_layer f) w ->
  wp (if -1 <? layer_index (fst f) then at_ (snd f) (layer_index (fst f)) else mret Layer0) Q w.
Proof.
  intros Hf. unfold hdr_layer. destruct (Z.ltb_spec (-1) (layer_index (fst f))); [|by apply wp_ret]. unfold at_.
  destruct (lookup_lt_is_Some_2 (snd f) (Z.to_nat (layer_index (fst f)))) as [l ->]; [lia|by apply wp_ret].
Qed.
(** What a frame does, given the reset that is awaited, and the one awaited after it. *)
Definition frame_ok (reset : option (Z * Z)) (f : HWHDRLayerInfo * list Layer) (s : Shown) (next : option (Z * Z)) : Prop :=
  match operation (fst f), reset with
  | kSet, _ => next = None /\ writes (mkCtrl HDR_ENABLE (stream_of (input_buffer (hdr_layer f)))) (began s) s
  | kReset, _ => next = Some (began s, ended s) /\ writes (mkCtrl HDR_RESET Stream0) (began s) s
  | kNoOp, None => next = None /\ silent s
  | kNoOp, Some (b, e) =>
      (next = reset /\ silent s /\ began s < e + MIN_HDR_RESET_WAITTIME_SEC) \/
      (next = None /\ writes (mkCtrl HDR_DISABLE Stream0) (Z.max (began s) (b + MIN_HDR_RESET_WAITTIME_SEC)) s)
  end.
Lemma frames_ok_cons reset f fs s l next : frame_ok reset f s next -> frames_ok next fs l -> frames_ok reset (f :: fs) (s :: l).
Proof. unfold frame_ok. cbn [frames_ok]. destruct (operation (fst f)), reset as [[b e]|]; naive_solver. Qed.
Lemma update_hdr_wp reset f (Q : DisplayError -> W -> Prop) w : hdr_on w -> MDP_HDR_STREAM = true -> layer_ok f -> awaits reset w ->
  (forall e w' ws next, dev (hw w') = dev (hw w) -> hdr_log (hlog w') = hdr_log (hlog w) ++ ws -> awaits next w' ->
     frame_ok reset f (mkShown (now w) (now w') e ws) next -> Q e w') -> wp (UpdateHDRMetaData (fst f) (snd f)) Q w.
Proof.
  intros Hon Hst Hf Hw HQ. unfold UpdateHDRMetaData, see_dev. wp_step. apply wp_gets. rewrite Hon, Hst. cbn [negb]. unfold frame_ok in HQ, Hf. unfold layer_ok in Hf.
  destruct (operation (fst f)).
  - wp_step. apply wp_gets. destruct reset as [[b e]|]; cbn [awaits] in Hw; [destruct Hw as [Ef Hse]|]; [|rename Hw into Ef]; rewrite Ef.
    2: { apply wp_ret, (HQ _ _ [] None); [done|by rewrite app_nil_r|done|by split]. }
    wp_step. eapply in_env_wp; [apply time_law|]. intros t v Ht. cbn beta in Ht. wp_step. apply wp_modify. wp_step. apply wp_gets. cbn.
    destruct (Z.leb_spec MIN_HDR_RESET_WAITTIME_SEC (t - hdr_reset_start_ (hdmi w))).
    + wp_step. apply wp_modify. apply (write_hdr_wp _ (Z.max (now w) (b + MIN_HDR_RESET_WAITTIME_SEC))); [unfold now; cbn; lia|].
      intros er w' ws Hd Hh _ Hl Hwr. apply (HQ _ _ ws None); [done|done|cbn [awaits]; by rewrite Hh|]. right. split; [done|apply Hwr].
    + apply wp_ret, (HQ _ _ [] (Some (b, e))); [done|by rewrite app_nil_r|cbn; by rewrite Ef|]. left. split; [done|]. split; [done|]. cbn. unfold now. lia.
  - wp_step. apply layer_wp; [by apply Hf|]. wp_step. apply wp_modify. wp_step. apply on_cdm_wp. intros w1 D1 L1 F1 S1.
    apply (write_hdr_wp _ (now w)); [unfold now; by rewrite D1|]. intros er w' ws Hd Hh _ Hl Hwr.
    apply (HQ _ _ ws None); [by rewrite Hd, D1|by rewrite Hl, L1|cbn [awaits]; by rewrite Hh, F1|]. split; [done|apply Hwr].
  - wp_step. apply wp_modify. wp_step. eapply in_env_wp; [apply time_law|]. intros t v Ht. wp_step. apply wp_modify. wp_step. apply on_cdm_wp.
    intros w1 D1 L1 F1 S1. assert (Hn1 : now w1 = hd_clock v) by (unfold now; by rewrite D1). cbn in Ht.
    apply (write_hdr_wp _ (now w)); [unfold now in *; lia|]. intros er w' ws Hd Hh Hn Hl Hwr.
    apply (HQ _ _ ws (Some (now w, now w'))); [by rewrite Hd, D1|by rewrite Hl, L1| |split; [done|apply Hwr]].
    cbn [awaits]. rewrite Hh, F1, S1. split; [done|]. cbn. unfold now in *. lia.
Qed.
(** C10: the HDR state of an HDMI panel with HDR, whatever the writes return, where the clock
    is not set back.  Over any frames, from an object that awaits no reset: a frame that sets
    the metadata writes HDR_ENABLE with the stream of the layer it names, one that resets it
    writes HDR_RESET with an empty stream, any other writes nothing or HDR_DISABLE with an
    empty stream.  HDR_DISABLE is written only while a reset is awaited (none that set the
    metadata or switched it off came after it), at a time that is two seconds or more after
    the frame of the reset began, and by the first frame that begins two seconds or more
    after the frame of the reset ended, if not before.  The error is that of the write;
    when the node cannot be opened nothing is written and the state goes on as if it was. *)
Theorem hdr_disable_waits w fs : MDP_HDR_STREAM = true -> hdr_on w -> reset_hdr_flag_ (hdmi w) = false -> Forall layer_ok fs ->
  exists l w', run_frames fs w = Ret (l, w') /\ frames_ok None fs l /\
    hdr_log (hlog w') = hdr_log (hlog w) ++ (l ≫= written).
Proof.
  intros Hst Hon Hf Hfs. assert (Ha : awaits None w) by done. clear Hf. revert w Hon Ha. generalize (@None (Z * Z)) as reset.
  change (forall reset w, hdr_on w -> awaits reset w -> wp (run_frames fs) (fun l w' => frames_ok reset fs l /\ hdr_log (hlog w') = hdr_log (hlog w) ++ (l ≫= written)) w).
  induction Hfs as [|f fs Hf _ IH]; intros reset w Hon Ha; cbn [run_frames].
  { apply wp_ret. split; [done|]. by rewrite app_nil_r. }
  unfold clock. wp_step. apply wp_gets. wp_step. apply wp_gets. wp_step. apply (update_hdr_wp reset); [done..|]. intros e w1 ws next Hd Hl Hn Hok.
  wp_step. apply wp_gets. wp_step. apply wp_gets. rewrite Hl, drop_app_length. wp_step.
  eapply wp_mono; [apply (IH next w1); [unfold hdr_on in *; by rewrite Hd|done]|]. intros l w2 [H1 H2]. apply wp_ret. split; [by eapply frames_ok_cons|].
  by rewrite H2, Hl, <- app_assoc.
Qed.

(** * Arrays *)
(** The pages are read within the page and the array of the timings. *)
Lemma page_loop_wp (left : nat) : forall buf i c (Q : Z -> W -> Prop) w, (4 <= timing_size)%nat -> (timing_size mod 4 = 0)%nat -> (i * timing_size < kPageSize)%nat -> 0 <= c ->
  Z.to_nat c + left <= length (supported_video_modes_ (hdmi w)) ->
  (forall c' w', c <= c' <= c + left -> length (supported_video_modes_ (hdmi w')) = length (supported_video_modes_ (hdmi w)) -> Q c' w') ->
  wp (page_loop left buf i c) Q w.
Proof.
  induction left as [|left IH]; intros buf i c Q w H4 Hm Hi Hc Hl HQ; cbn [page_loop]; cbv zeta.
  all: assert (Hoff : (i * timing_size + 4 <= kPageSize)%nat)
    by (apply Nat.Div0.div_exact in Hm; set (k := (timing_size / 4)%nat) in *; unfold kPageSize in *; nia).
  all: destruct (Nat.ltb_spec kPageSize (i * timing_size + 4)); [lia|].
  - apply wp_ret, HQ; [lia|done].
  - destruct (negb _ && _) eqn:Eb; [|apply wp_ret, HQ; [lia|done]]. apply andb_prop in Eb as [_ Hlt%Nat.ltb_lt]. wp_step. apply wp_gets. wp_step. unfold at_.
    destruct (lookup_lt_is_Some_2 (supported_video_modes_ (hdmi w)) (Z.to_nat c)) as [t ->]; [lia|]. apply wp_ret. wp_step. apply wp_modify.
    apply IH; [done|done|lia|lia| |]; cbn; rewrite length_insert; [lia|]. intros c' w' Hc' Hl'. apply HQ; [lia|]. by rewrite Hl'.
Qed.
(** The index behind the last mode is let through. *)
Lemma index_past_end (w : W) : GetVideoFormat (length (hdmi_modes_ (hdmi w))) w = Undef.
Proof.
  unfold GetVideoFormat, see. rewrite (st_bind_Ret _ _ w (hdmi_modes_ (hdmi w)) w eq_refl). rewrite Z.ltb_irrefl. unfold at_. by rewrite Nat2Z.id, lookup_ge_None_2.
Qed.
(** * 3D modes *)
Lemma set_bit_keeps m n s : has_bit m s = true -> has_bit m (set_bit n s) = true.
Proof. unfold has_bit, set_bit. intros H. by rewrite Z.lor_spec, H. Qed.
Lemma s3d_token_keeps m t s : has_bit m s = true -> has_bit m (s3d_token t s) = true.
Proof. intros H. unfold s3d_token. repeat case_match; auto using set_bit_keeps. Qed.
Lemma s3d_entry_keeps m mode e s s' : s3d_entry mode e s = Ret s' -> has_bit m s = true -> has_bit m s' = true.
Proof.
  unfold s3d_entry. destruct (first_token 61 e) as [[n r]|]; [|by intros [= <-]]. intros (x & _ & [= <-])%bind_Ret_inv H. destruct (mode =? u32 x); [|done].
  revert s H. induction (strtok ":" r) as [|t l IH]; intros s H; [done|]. cbn [fold_left]. apply IH. by apply s3d_token_keeps.
Qed.
Lemma s3d_entries_keep m mode l : forall s s', s3d_entries mode l s = Ret s' -> has_bit m s = true -> has_bit m s' = true.
Proof.
  induction l as [|e l IH]; intros s s' H; cbn [s3d_entries] in H; [by injection H as <-|]. apply bind_Ret_inv in H as (s1 & E & H). intros Hs.
  eapply IH; [exact H|]. by eapply s3d_entry_keeps.
Qed.
(** The 3D modes of a configuration are added to those of the one before. *)
Lemma s3d_modes_stay i a (w w' : W) e a' m : GetDisplayS3DSupport i a w = Ret ((e, a'), w') -> has_bit m (s3d_config a) = true -> has_bit m (s3d_config a') = true.
Proof.
  intros H Hm. unfold GetDisplayS3DSupport in H. apply st_bind_Ret_inv in H as (p & w1 & _ & H). apply st_bind_Ret_inv in H as (modes & w2 & _ & H).
  destruct (_ <? i); [by injection H as <- <- <-|]. assert (Hn : has_bit m (s3d_config (a <| s3d_config ::= set_bit kS3DModeNone |>)) = true) by (by apply set_bit_keeps).
  apply st_bind_Ret_inv in H as (fd & w3 & _ & H). destruct (fd <? 0); [by injection H as <- <- <-|]. apply st_bind_Ret_inv in H as (r & w4 & _ & H).
  destruct r as [[|c l]|]; [by apply st_bind_Ret_inv in H as (? & ? & _ & [= <- <- <-])| |by apply st_bind_Ret_inv in H as (? & ? & _ & [= <- <- <-])].
  destruct (strtok "," _); [by apply st_bind_Ret_inv in H as (? & ? & _ & [= <- <- <-])|]. apply st_bind_Ret_inv in H as (mode & w5 & _ & H).
  apply st_bind_Ret_inv in H as (s & w6 & E & H). apply st_bind_Ret_inv in H as (? & ? & _ & [= <- <- <-]). unfold st_lift in E.
  destruct (s3d_entries _ _ _) eqn:Es; [|done|done]. injection E as <- <-. by eapply s3d_entries_keep.
Qed.
End Hdr.

(** * A small machine *)
Module HdmiSample.
#[local] Existing Instance FbProps.Sample.sample_mdp.
#[local] Existing Instance FbProps.Sample.sample_sysfs.
#[local] Existing Instance FbProps.Sample.sample_driver.
(** The clock goes on by a second with every look at it. *)
#[local] Instance sample_env : HdmiEnv Z := {|
  timing_size := 64; timing_of := fun l => mkTiming (nth 0 l 0) (nth 1 l 0) 0 0 0 0 (nth 2 l 0) 0 0 0 0 0 (nth 3 l 0) 0 0;
  HDMI_S3D_NONE := 0; HDMI_S3D_FRAME_PACKING := 1; HDMI_S3D_TOP_AND_BOTTOM := 2; HDMI_S3D_SIDE_BY_SIDE := 3; HDMI_S3D_MAX := 4;
  HDMI_VFRMT_END := 108; MSM_HDMI_INIT_RES_PAGE := 1; FB_VMODE_INTERLACED := 1; FB_VMODE_NONINTERLACED := 0; V4L2_PIX_FMT_RGB24 := 3;
  V4L2_PIX_FMT_NV12 := 12; FB_SYNC_HOR_HIGH_ACT := 1; FB_SYNC_VERT_HIGH_ACT := 2; FB_ACTIVATE := 0; MDP_HDR_STREAM := true;
  MDP_COMMIT_UPDATE_CDM_COLOR_SPACE := Some 256; MDP_CSC_DEFAULT := Some MDP_CSC_ITU_R_709; MDP_HDR_EOTF_SMTPE_ST2084 := 2; MDP_HDR_EOTF_HLG := 3;
  MDP_COLORIMETRY_YCBCR_ITU_R_BT_601 := 1; MDP_COLORIMETRY_YCBCR_ITU_R_BT_709 := 2; MDP_COLORIMETRY_YCBCR_ITU_R_BT_2020_YCBCR := 3;
  MDP_PIXEL_ENCODING_RGB := 0; MDP_PIXEL_ENCODING_YCBCR_420 := 3; MDP_PIXEL_ENCODING_YCBCR_422 := 2; MDP_YUV_10_BPC := 1; MDP_YUV_8_BPC := 0;
  MDP_RGB_10_BPC := 2; MDP_RGB_8_BPC := 1; MDP_DYNAMIC_RANGE_VESA := 0; MDP_DYNAMIC_RANGE_CEA := 1; MDP_CONTENT_TYPE_VIDEO := 4;
  MDP_CONTENT_TYPE_GRAPHICS := 0; stack_page := replicate kPageSize 0; hd_property := fun _ => mret None; hd_get_screen := mret None;
  hd_put_screen := fun _ => mret true; hd_set_vic := fun _ => mret true; hd_write_hdr := fun _ _ => mret 64; hd_time := FbProps.Sample.fresh; hd_clock := fun v => v |}.
#[local] Instance sample_hdr_laws : HdrLaws.
Proof. split; [intros s|intros fd c s|intros p s|intros fd s]; do 2 eexists; (split; [reflexivity|cbn; lia]). Qed.
Definition panel (rates : list Z) : HWorld Z :=
  mkHWorld (mkWorld (FbProps.Sample.device <| hw_panel_info_ ::= fun p => p <| FbPanel.hdr_enabled := true |> |>) [] 100)
    ((new_HWHDMI 0) <| hdmi_modes_ := seq 1 (length rates) ≫= (fun i => [Z.of_nat i]) |>
       <| supported_video_modes_ := imap (fun i r => mkTiming (S i) 1920 88 44 148 0 1080 4 5 36 0 148500 r 0 1) rates |> <| frame_rate_ := 60000 |>) [].
Definition sixty : HWorld Z := panel [60000; 50000; 24000].
Definition first_timing (w : HWorld Z) : Timing := default Timing0 (supported_video_modes_ (hdmi w) !! 0%nat).
Lemma sixty_ready : rates_ready sixty (first_timing sixty).
Proof.
  split; [done| |by exists 1]. unfold rate_ok. repeat (apply Forall_cons; split; [cbn; lia|]). by apply Forall_nil.
Qed.
(** 25 Hz are asked for: the panel goes to 24. *)
Lemma closest_rate_witness : exists dst, dst ∈ supported_video_modes_ (hdmi sixty) /\ same_picture (first_timing sixty) dst = true /\
    (forall t, t ∈ supported_video_modes_ (hdmi sixty) -> same_picture (first_timing sixty) t = true -> distance dst 25000 <= distance t 25000) /\
    GetDynamicFrameRateMode 25000 kModeClock 0 sixty = Ret (rate_answer sixty (first_timing sixty) dst 25000 kModeClock 0, sixty).
Proof. apply (closest_rate sixty (first_timing sixty) 25000 kModeClock 0); [exact sixty_ready|unfold rate_ok; lia]. Defined.
(** A rate that is out of reach is only refused when it is too low: 240 Hz are accepted by a
    panel of 60, and 30 refused. *)
Lemma far_above_accepted :
  GetDynamicFrameRateMode 240000 kModeClock 0 (panel [60000]) = Ret ((kErrorNone, Some (kModeClock, mkFps 88 148 44 148500 240000, 0)), panel [60000]) /\
  GetDynamicFrameRateMode 30000 kModeClock 0 (panel [60000]) = Ret ((kErrorNotSupported, None), panel [60000]).
Proof. split; vm_compute; reflexivity. Qed.
Definition hdr_frames : list (HWHDRLayerInfo * list Layer) :=
  [(mkHdrInfo 0 kSet, [Layer0]); (mkHdrInfo (-1) kReset, []); (mkHdrInfo (-1) kNoOp, []); (mkHdrInfo (-1) kNoOp, []); (mkHdrInfo (-1) kNoOp, [])].
(** The set is written, then the reset at 100, and the first frame that looks at the clock
    two seconds later switches off. *)
Definition hdr_shown : list Shown := match run_frames hdr_frames sixty with Ret (l, _) => l | _ => [] end.
Lemma hdr_disable_waits_witness : exists l w', run_frames hdr_frames sixty = Ret (l, w') /\ frames_ok None hdr_frames l /\
  hdr_log (hlog w') = hdr_log (hlog sixty) ++ (l ≫= written).
Proof.
  apply (hdr_disable_waits sixty hdr_frames); [done..|]. unfold layer_ok. repeat (apply Forall_cons; split; [cbn; done || lia|]). by apply Forall_nil.
Defined.
Lemma hdr_frames_run : (fun s => (began s, (fun x => (hdr_state (fst (fst x)), snd (fst x))) <$> written s, ended s)) <$> hdr_shown =
  [(100, [(HDR_ENABLE, 100)], 100); (100, [(HDR_RESET, 101)], 101); (101, [], 102); (102, [(HDR_DISABLE, 103)], 103); (103, [], 103)].
Proof. vm_compute. reflexivity. Qed.
End HdmiSample.
End HdmiProps.
