(* ===== verification/HwInfo.v ===== *)
(** The capabilities of the display hardware:
    src/hardware/qcom-caf/display/sdm/libs/core/fb/hw_info.cpp.

    The files of the kernel are those of [FbPanel.Sysfs], as lists of lines; the numbers of
    the driver's formats and the conversion of a text to a floating point number are the
    class [InfoEnv].  A token that a line does not have is a null pointer or one of a line
    before, and its use is undefined. *)
From stdpp Require Import pretty.
From S2P Require Import Prelude Rect ResourceDefault Strategy HwcLayer Cec FbScale FbPanel FbDevice.
#[local] Open Scope Z_scope.

Module HwInfo.
Import Float32 Formats ResourceDefault FbScale.
Abbreviation text := (list Z).

(** ** Data *)
(** The driver's formats: those of [FbDevice] and two more. *)
Inductive InfoFormat := Mdp (f : FbDevice.MdpFormat) | MDP_XRGB_8888 | MDP_Y_CRCB_H2V2_VENUS.
Inductive PipeType := kPipeTypeUnused | kPipeTypeVIG | kPipeTypeRGB | kPipeTypeDMA | kPipeTypeCursor.
#[global] Instance PipeType_eq_dec : EqDecision PipeType.
Proof. solve_decision. Defined.
Record HWPipeCaps := mkCaps { ptype : PipeType; pid : Z; master_pipe_id : Z; max_rects : Z }.
#[global] Instance eta_caps : Eta HWPipeCaps := fun c => mkCaps (ptype c) (pid c) (master_pipe_id c) (max_rects c).
Inductive RotType := ROT_TYPE_MDSS | ROT_TYPE_V4L2.
Record HWRotatorInfo := mkRot { rot_type : RotType; num_rotator : Z; has_downscale : bool; device_path : string; min_downscale : float; downscale_compression : bool }.
#[global] Instance eta_rot : Eta HWRotatorInfo := fun r =>
  mkRot (rot_type r) (num_rotator r) (has_downscale r) (device_path r) (min_downscale r) (downscale_compression r).
Definition kBwModeMax : nat := 4.
Definition kHWBlockMax : Z := 5.
Definition kHWMdssVersion5 : Z := 500.
Record Features := mkFeatures {
  has_bwc : bool; has_ubwc : bool; has_decimation : bool; has_macrotile : bool; is_src_split : bool; has_non_scalar_rgb : bool; perf_calc : bool;
  has_dyn_bw_support : bool; separate_rotator : bool; has_qseed3 : bool; has_ppp : bool; has_concurrent_writeback : bool; has_avr : bool; has_hdr : bool
}.
#[global] Instance eta_features : Eta Features := fun f =>
  mkFeatures (has_bwc f) (has_ubwc f) (has_decimation f) (has_macrotile f) (is_src_split f) (has_non_scalar_rgb f) (perf_calc f)
    (has_dyn_bw_support f) (separate_rotator f) (has_qseed3 f) (has_ppp f) (has_concurrent_writeback f) (has_avr f) (has_hdr f).
(** HWResourceInfo, with the flags in one record. *)
Record HWResourceInfo := mkInfo {
  hw_version : Z; hw_revision : Z; num_dma_pipe : Z; num_vig_pipe : Z; num_rgb_pipe : Z; num_cursor_pipe : Z; num_blending_stages : Z;
  max_scale_up : Z; max_scale_down : Z; rot_downscale_max : float; max_bandwidth_low : Z; max_bandwidth_high : Z; max_mixer_width : Z;
  max_pipe_width : Z; max_cursor_size : Z; max_pipe_bw : Z; max_sde_clk : Z; clk_fudge_factor : float; macrotile_nv12_factor : Z;
  macrotile_factor : Z; linear_factor : Z; scale_factor : Z; extra_fudge_factor : Z; amortizable_threshold : Z; system_overhead_lines : Z;
  features : Features; writeback_index : Z; total_bw_limit : list Z; pipe_bw_limit : list Z; hw_pipes : list HWPipeCaps;
  supported_formats_map : list (HWSubBlockType * list LayerBufferFormat); hw_rot_info : HWRotatorInfo; ds_count : Z; ds_max_input_width : Z;
  ds_max_output_width : Z; ds_max_scale_up : Z
}.
#[global] Instance eta_info : Eta HWResourceInfo := fun r =>
  mkInfo (hw_version r) (hw_revision r) (num_dma_pipe r) (num_vig_pipe r) (num_rgb_pipe r) (num_cursor_pipe r) (num_blending_stages r)
    (max_scale_up r) (max_scale_down r) (rot_downscale_max r) (max_bandwidth_low r) (max_bandwidth_high r) (max_mixer_width r)
    (max_pipe_width r) (max_cursor_size r) (max_pipe_bw r) (max_sde_clk r) (clk_fudge_factor r) (macrotile_nv12_factor r)
    (macrotile_factor r) (linear_factor r) (scale_factor r) (extra_fudge_factor r) (amortizable_threshold r) (system_overhead_lines r)
    (features r) (writeback_index r) (total_bw_limit r) (pipe_bw_limit r) (hw_pipes r) (supported_formats_map r) (hw_rot_info r) (ds_count r)
    (ds_max_input_width r) (ds_max_output_width r) (ds_max_scale_up r).
Definition Features0 : Features := mkFeatures false false false false false false false false false false false false false false.
Definition HWResourceInfo0 : HWResourceInfo :=
  mkInfo 0 0 0 0 0 0 0 1 1 f_zero 0 0 2048 2048 0 0 0 (FLOAT 1) 0 0 0 0 0 0 0 Features0 kHWBlockMax (replicate kBwModeMax 0) (replicate kBwModeMax 0)
    [] [] (mkRot ROT_TYPE_MDSS 0 false "" (FLOAT 2) false) 0 0 0 1.
Class InfoEnv := {
  mdp_format : Z -> option InfoFormat;     (* the format of a number *)
  MDP_IMGTYPE_LIMIT1 : Z;
  atof : text -> float                     (* to double and then to float *)
}.
Definition BITS_TO_BYTES (x : Z) : Z := (x + 7) / 8.
Definition kDefaultFormatSupport : list (list Z) := [
  [0xFF; 0xF5; 0x1C; 0x1E; 0x20; 0xFF; 0x01; 0x00; 0xFE; 0x1F];
  [0x33; 0xE0; 0x00; 0x16; 0x00; 0xBF; 0x00; 0x00; 0xFE; 0x07];
  [0x33; 0xE0; 0x00; 0x16; 0x00; 0xBF; 0x00; 0x00; 0xFE; 0x07];
  [0x12; 0x60; 0x0C; 0x00; 0x00; 0x0F; 0x00; 0x00; 0x00; 0x00];
  [0xFF; 0xF5; 0x1C; 0x1E; 0x20; 0xFF; 0x01; 0x00; 0xFE; 0x1F];
  [0xFF; 0xF5; 0x1C; 0x1E; 0x20; 0xFF; 0x01; 0x00; 0xFE; 0x1F];
  [0x3F; 0xF4; 0x10; 0x1E; 0x20; 0xFF; 0x01; 0x00; 0xAA; 0x16];
  []].
Definition sub_blocks : list HWSubBlockType :=
  [kHWVIGPipe; kHWRGBPipe; kHWDMAPipe; kHWCursorPipe; kHWRotatorInput; kHWRotatorOutput; kHWWBIntfOutput; kHWDestinationScalar].

(** ** Formats *)
Definition GetSDMFormat_of (f : InfoFormat) : LayerBufferFormat :=
  match f with
  | MDP_XRGB_8888 => kFormatXRGB8888 | MDP_Y_CRCB_H2V2_VENUS => kFormatYCrCb420SemiPlanarVenus
  | Mdp f =>
      match f with
      | FbDevice.MDP_ARGB_8888 => kFormatARGB8888 | FbDevice.MDP_RGBA_8888 => kFormatRGBA8888 | FbDevice.MDP_BGRA_8888 => kFormatBGRA8888
      | FbDevice.MDP_RGBX_8888 => kFormatRGBX8888 | FbDevice.MDP_BGRX_8888 => kFormatBGRX8888 | FbDevice.MDP_RGBA_5551 => kFormatRGBA5551
      | FbDevice.MDP_RGBA_4444 => kFormatRGBA4444 | FbDevice.MDP_RGB_888 => kFormatRGB888 | FbDevice.MDP_BGR_888 => kFormatBGR888
      | FbDevice.MDP_RGB_565 => kFormatRGB565 | FbDevice.MDP_BGR_565 => kFormatBGR565 | FbDevice.MDP_RGBA_8888_UBWC => kFormatRGBA8888Ubwc
      | FbDevice.MDP_RGBX_8888_UBWC => kFormatRGBX8888Ubwc | FbDevice.MDP_RGB_565_UBWC => kFormatBGR565Ubwc
      | FbDevice.MDP_Y_CB_CR_H2V2 => kFormatYCbCr420Planar | FbDevice.MDP_Y_CR_CB_H2V2 => kFormatYCrCb420Planar
      | FbDevice.MDP_Y_CR_CB_GH2V2 => kFormatYCrCb420PlanarStride16 | FbDevice.MDP_Y_CBCR_H2V2 => kFormatYCbCr420SemiPlanar
      | FbDevice.MDP_Y_CRCB_H2V2 => kFormatYCrCb420SemiPlanar | FbDevice.MDP_Y_CBCR_H2V2_VENUS => kFormatYCbCr420SemiPlanarVenus
      | FbDevice.MDP_Y_CBCR_H1V2 => kFormatYCbCr422H1V2SemiPlanar | FbDevice.MDP_Y_CRCB_H1V2 => kFormatYCrCb422H1V2SemiPlanar
      | FbDevice.MDP_Y_CBCR_H2V1 => kFormatYCbCr422H2V1SemiPlanar | FbDevice.MDP_Y_CRCB_H2V1 => kFormatYCrCb422H2V1SemiPlanar
      | FbDevice.MDP_Y_CBCR_H2V2_UBWC => kFormatYCbCr420SPVenusUbwc | FbDevice.MDP_YCBYCR_H2V1 => kFormatYCbCr422H2V1Packed
      | FbDevice.MDP_RGBA_1010102 => kFormatRGBA1010102 | FbDevice.MDP_ARGB_2101010 => kFormatARGB2101010
      | FbDevice.MDP_RGBX_1010102 => kFormatRGBX1010102 | FbDevice.MDP_XRGB_2101010 => kFormatXRGB2101010
      | FbDevice.MDP_BGRA_1010102 => kFormatBGRA1010102 | FbDevice.MDP_ABGR_2101010 => kFormatABGR2101010
      | FbDevice.MDP_BGRX_1010102 => kFormatBGRX1010102 | FbDevice.MDP_XBGR_2101010 => kFormatXBGR2101010
      | FbDevice.MDP_RGBA_1010102_UBWC => kFormatRGBA1010102Ubwc | FbDevice.MDP_RGBX_1010102_UBWC => kFormatRGBX1010102Ubwc
      | FbDevice.MDP_Y_CBCR_H2V2_P010 => kFormatYCbCr420P010 | FbDevice.MDP_Y_CBCR_H2V2_TP10_UBWC => kFormatYCbCr420TP10Ubwc
      | FbDevice.MDP_CBYCRY_H2V1 => kFormatInvalid
      end
  end.
Section Info.
Context {V : Type} {SYS : FbPanel.Sysfs V} {ENV : InfoEnv}.
Definition GetSDMFormat (n : Z) : LayerBufferFormat := match mdp_format n with Some f => GetSDMFormat_of f | None => kFormatInvalid end.
(** The numbers below [count] whose bit is set and that are formats. *)
Definition supported (bytes : list Z) (n : nat) : bool := Z.testbit (nth (n / 8) bytes 0) (n mod 8)%nat.
Definition formats_of (bytes : list Z) (count : nat) : list LayerBufferFormat :=
  List.filter (fun f => negb (bool_decide (f = kFormatInvalid))) (GetSDMFormat ∘ Z.of_nat <$> List.filter (supported bytes) (seq 0 count)).
Definition PopulateSupportedFormatMap (bytes : list Z) (count : nat) (blk : HWSubBlockType) (r : HWResourceInfo) : HWResourceInfo :=
  r <| supported_formats_map ::= fun m => (blk, formats_of bytes count) :: List.filter (fun e => negb (bool_decide (fst e = blk))) m |>.
Definition InitSupportedFormatMap (r : HWResourceInfo) : HWResourceInfo :=
  fold_left (fun r e => PopulateSupportedFormatMap (snd e) (Z.to_nat MDP_IMGTYPE_LIMIT1) (fst e) r) (zip sub_blocks kDefaultFormatSupport)
    (r <| supported_formats_map := [] |>).
Fixpoint format_bytes (l : list text) : outcome (list Z) :=
  match l with [] => Ret [] | t :: l => x ← FbPanel.atoi t; r ← format_bytes l; Ret (u8 x :: r) end.
Definition ParseFormats (tokens : list text) (blk : HWSubBlockType) (r : HWResourceInfo) : outcome HWResourceInfo :=
  if BITS_TO_BYTES MDP_IMGTYPE_LIMIT1 <? length tokens then Ret r
  else b ← format_bytes tokens; Ret (PopulateSupportedFormatMap b (length tokens * 8) blk r).

(** ** Lines *)
Definition CAPS_DELIM : text := Cec.bytes ":, =" ++ [10].
Definition PIPE_DELIM : text := Cec.bytes ": =" ++ [10].
Definition FMT_DELIM : text := Cec.bytes "," ++ [10].
Definition ParseString (max_token : nat) (delim line : text) : list text := FbPanel.ParseLine delim max_token line.
Definition long_expr (x : Z) : outcome Z := if (- 2 ^ 63 <=? x) && (x <? 2 ^ 63) then Ret x else Undef.
Fixpoint atol_of (l : Cec.Buf) : outcome Z :=
  match l with
  | Some c :: l' =>
      if Cec.is_space c then atol_of l'
      else if c =? 45 then n ← Cec.atoi_digits l' 0; long_expr (- n)
      else if c =? 43 then n ← Cec.atoi_digits l' 0; long_expr n
      else n ← Cec.atoi_digits l 0; long_expr n
  | _ => Undef
  end.
Definition atol (t : text) : outcome Z := atol_of ((Some <$> t) ++ [Some 0]).
(** What a key of the capabilities does. *)
Inductive Action :=
| Num (f : Z -> HWResourceInfo -> HWResourceInfo) | Long (f : Z -> HWResourceInfo -> HWResourceInfo) | Ratio | Formats (b : HWSubBlockType) | FeatureList | Pipes.
Definition caps_table : list (string * Action) := [
  ("mdp_version", Num (fun x r => r <| hw_version := u32 x |>));
  ("hw_rev", Num (fun x r => r <| hw_revision := u32 x |>));
  ("rot_input_fmts", Formats kHWRotatorInput);
  ("rot_output_fmts", Formats kHWRotatorOutput);
  ("wb_output_fmts", Formats kHWWBIntfOutput);
  ("blending_stages", Num (fun x r => r <| num_blending_stages := u8 x |>));
  ("max_downscale_ratio", Num (fun x r => r <| max_scale_down := u32 x |>));
  ("max_upscale_ratio", Num (fun x r => r <| max_scale_up := u32 x |>));
  ("rot_dwnscale_max", Num (fun x r => r <| rot_downscale_max := FLOAT x |>));
  ("max_bandwidth_low", Long (fun x r => r <| max_bandwidth_low := u64 x |>));
  ("max_bandwidth_high", Long (fun x r => r <| max_bandwidth_high := u64 x |>));
  ("max_mixer_width", Num (fun x r => r <| max_mixer_width := u32 x |>));
  ("max_pipe_width", Num (fun x r => r <| max_pipe_width := u32 x |>));
  ("max_cursor_size", Num (fun x r => r <| max_cursor_size := u32 x |>));
  ("max_pipe_bw", Num (fun x r => r <| max_pipe_bw := u32 x |>));
  ("max_mdp_clk", Num (fun x r => r <| max_sde_clk := u32 x |>));
  ("clk_fudge_factor", Ratio);
  ("fmt_mt_nv12_factor", Num (fun x r => r <| macrotile_nv12_factor := u32 x |>));
  ("fmt_mt_factor", Num (fun x r => r <| macrotile_factor := u32 x |>));
  ("fmt_linear_factor", Num (fun x r => r <| linear_factor := u32 x |>));
  ("scale_factor", Num (fun x r => r <| scale_factor := u32 x |>));
  ("xtra_ff_factor", Num (fun x r => r <| extra_fudge_factor := u32 x |>));
  ("amortizable_threshold", Num (fun x r => r <| amortizable_threshold := u32 x |>));
  ("system_overhead_lines", Num (fun x r => r <| system_overhead_lines := u32 x |>));
  ("wb_intf_index", Num (fun x r => r <| writeback_index := u32 x |>));
  ("dest_scaler_count", Num (fun x r => r <| ds_count := u32 x |>));
  ("max_dest_scale_up", Num (fun x r => r <| ds_max_scale_up := u32 x |>));
  ("max_dest_scaler_input_width", Num (fun x r => r <| ds_max_input_width := u32 x |>));
  ("max_dest_scaler_output_width", Num (fun x r => r <| ds_max_output_width := u32 x |>));
  ("features", FeatureList);
  ("pipe_count", Pipes)]%string.
(** The first key the token begins with. *)
Fixpoint find_key {A} (l : list (string * A)) (t : text) : option A :=
  match l with [] => None | (name, a) :: l => if FbPanel.named name t then Some a else find_key l t end.
Definition feature_table : list (string * (Features -> Features)) := [
  ("bwc", fun f => f <| has_bwc := true |>); ("ubwc", fun f => f <| has_ubwc := true |>); ("decimation", fun f => f <| has_decimation := true |>);
  ("tile_format", fun f => f <| has_macrotile := true |>); ("src_split", fun f => f <| is_src_split := true |>);
  ("non_scalar_rgb", fun f => f <| has_non_scalar_rgb := true |>); ("perf_calc", fun f => f <| perf_calc := true |>);
  ("dynamic_bw_limit", fun f => f <| has_dyn_bw_support := true |>); ("separate_rotator", fun f => f <| separate_rotator := true |>);
  ("qseed3", fun f => f <| has_qseed3 := true |>); ("has_ppp", fun f => f <| has_ppp := true |>);
  ("concurrent_writeback", fun f => f <| has_concurrent_writeback := true |>); ("avr", fun f => f <| has_avr := true |>);
  ("hdr", fun f => f <| has_hdr := true |>)]%string.
Definition set_feature (f : Features) (t : text) : Features := match find_key feature_table t with Some g => g f | None => f end.
(** The type of a pipe, which is counted. *)
Definition set_type (t : text) (c : HWPipeCaps) (r : HWResourceInfo) : HWPipeCaps * HWResourceInfo :=
  if FbPanel.named "vig" t then (c <| ptype := kPipeTypeVIG |>, r <| num_vig_pipe ::= fun n => u32 (n + 1) |>)
  else if FbPanel.named "rgb" t then (c <| ptype := kPipeTypeRGB |>, r <| num_rgb_pipe ::= fun n => u32 (n + 1) |>)
  else if FbPanel.named "dma" t then (c <| ptype := kPipeTypeDMA |>, r <| num_dma_pipe ::= fun n => u32 (n + 1) |>)
  else if FbPanel.named "cursor" t then (c <| ptype := kPipeTypeCursor |>, r <| num_cursor_pipe ::= fun n => u32 (n + 1) |>)
  else (c, r).
Definition pipe_block (t : PipeType) : option HWSubBlockType :=
  match t with
  | kPipeTypeVIG => Some kHWVIGPipe | kPipeTypeRGB => Some kHWRGBPipe | kPipeTypeDMA => Some kHWDMAPipe | kPipeTypeCursor => Some kHWCursorPipe
  | kPipeTypeUnused => None
  end.
(** The tokens of a pipe two by two. *)
Fixpoint pipe_tokens (l : list text) (c : HWPipeCaps) (r : HWResourceInfo) {struct l} : outcome (HWPipeCaps * HWResourceInfo) :=
  match l with
  | [] => Ret (c, r)
  | [k] =>
      if FbPanel.named "pipe_type" k || FbPanel.named "pipe_ndx" k || FbPanel.named "rects" k || FbPanel.named "fmts_supported" k then Undef else Ret (c, r)
  | k :: v :: l =>
      '(c, r) ← (if FbPanel.named "pipe_type" k then Ret (set_type v c r)
                 else if FbPanel.named "pipe_ndx" k then x ← FbPanel.atoi v; Ret (c <| pid := u32 x |>, r)
                 else if FbPanel.named "rects" k then x ← FbPanel.atoi v; Ret (c <| max_rects := u32 x |>, r)
                 else if FbPanel.named "fmts_supported" k then
                   match pipe_block (ptype c) with
                   | Some b => r ← ParseFormats (ParseString 256 FMT_DELIM v) b r; Ret (c, r)
                   | None => Ret (c, r)
                   end
                 else Ret (c, r));
      pipe_tokens l c r
  end.
Definition pipe_line (line : text) (r : HWResourceInfo) : outcome HWResourceInfo :=
  '(c, r) ← pipe_tokens (ParseString 256 PIPE_DELIM line) (mkCaps kPipeTypeUnused 0 0 1) r;
  Ret (r <| hw_pipes ::= fun l => l ++ [c] |>).
(** As many lines as there are pipes, without a look at the result of getline; a line that is
    not there is empty, as the last one of the file ends with a line feed. *)
Fixpoint pipe_lines (n : nat) (lines : list text) (r : HWResourceInfo) : outcome (list text * HWResourceInfo) :=
  match n with
  | O => Ret (lines, r)
  | S n => r ← pipe_line (hd [] lines) r; pipe_lines n (tl lines) r
  end.
Definition caps_line (a : Action) (tokens : list text) (lines : list text) (r : HWResourceInfo) : outcome (list text * HWResourceInfo) :=
  match a with
  | Num f => x ← FbPanel.number tokens 1; Ret (lines, f x r)
  | Long f => t ← FbPanel.token tokens 1; x ← atol t; Ret (lines, f x r)
  | Ratio => x ← FbPanel.number tokens 1; y ← FbPanel.number tokens 2; Ret (lines, r <| clk_fudge_factor := fdiv (FLOAT x) (FLOAT y) |>)
  | Formats b => r ← ParseFormats (tl tokens) b r; Ret (lines, r)
  | FeatureList => Ret (lines, r <| features ::= fun f => fold_left set_feature tokens f |>)
  | Pipes => x ← FbPanel.number tokens 1; pipe_lines (Z.to_nat (u8 x)) lines r
  end.
(** Each turn takes a line at least: [fuel] is the number of them. *)
Fixpoint caps_lines (fuel : nat) (lines : list text) (r : HWResourceInfo) : outcome HWResourceInfo :=
  match lines with
  | [] => Ret r
  | line :: lines =>
      match fuel with
      | O => NoFuel
      | S fuel =>
          let tokens := ParseString 256 CAPS_DELIM line in
          t ← FbPanel.token tokens 0;
          match find_key caps_table t with
          | None => caps_lines fuel lines r
          | Some a => '(lines, r) ← caps_line a tokens lines r; caps_lines fuel lines r
          end
      end
  end.

(** ** Bandwidth and rotators *)
Definition bw_table : list (string * (Z -> HWResourceInfo -> HWResourceInfo)) := [
  ("default_pipe", fun x r => r <| pipe_bw_limit ::= <[0%nat := u32 x]> |>); ("camera_pipe", fun x r => r <| pipe_bw_limit ::= <[1%nat := u32 x]> |>);
  ("vflip_pipe", fun x r => r <| pipe_bw_limit ::= <[2%nat := u32 x]> |>); ("hflip_pipe", fun x r => r <| pipe_bw_limit ::= <[3%nat := u32 x]> |>);
  ("default", fun x r => r <| total_bw_limit ::= <[0%nat := u32 x]> |>); ("camera", fun x r => r <| total_bw_limit ::= <[1%nat := u32 x]> |>);
  ("vflip", fun x r => r <| total_bw_limit ::= <[2%nat := u32 x]> |>); ("hflip", fun x r => r <| total_bw_limit ::= <[3%nat := u32 x]> |>)]%string.
(** Lines of a key and a number. *)
Fixpoint key_lines {S} (table : list (string * (Z -> S -> S))) (max : nat) (lines : list text) (r : S) : outcome S :=
  match lines with
  | [] => Ret r
  | line :: lines =>
      let tokens := ParseString max CAPS_DELIM line in
      t ← FbPanel.token tokens 0;
      match find_key table t with None => key_lines table max lines r | Some f => x ← FbPanel.number tokens 1; key_lines table max lines (f x r) end
  end.
Definition kBWModeBitmap : string := "/sys/devices/virtual/graphics/fb0/mdp/bw_mode_bitmap".
Definition kRotatorCapsPath : string := "/sys/devices/virtual/rotator/mdss_rotator/caps".
Definition GetDynamicBWLimits (r : HWResourceInfo) : St V (DisplayError * HWResourceInfo) :=
  f ← FbPanel.sy_lines kBWModeBitmap;
  match f with
  | None => mret (kErrorHardware, r)
  | Some lines =>
      r ← st_lift (key_lines bw_table kBwModeMax lines (r <| total_bw_limit := replicate kBwModeMax (u32 (max_bandwidth_low r)) |>
                     <| pipe_bw_limit := replicate kBwModeMax (max_pipe_bw r) |>));
      mret (kErrorNone, r)
  end.
Definition rot_table : list (string * (Z -> HWRotatorInfo -> HWRotatorInfo)) := [
  ("wb_count", fun x r => r <| num_rotator := u8 x |> <| device_path := "/dev/mdss_rotator"%string |>);
  ("downscale", fun x r => r <| has_downscale := FbPanel.nz (u8 x) |>)]%string.
Definition GetMDSSRotatorInfo (r : HWRotatorInfo) : St V (DisplayError * HWRotatorInfo) :=
  f ← FbPanel.sy_lines kRotatorCapsPath;
  match f with
  | None => mret (kErrorNotSupported, r)
  | Some lines => r ← st_lift (key_lines rot_table 10 lines (r <| rot_type := ROT_TYPE_MDSS |>)); mret (kErrorNone, r)
  end.
Definition kMaxV4L2Nodes : nat := 64.
Definition v4l2_path : string := "/sys/class/video4linux/video".
Fixpoint v4l2_caps (lines : list text) (r : HWRotatorInfo) : outcome HWRotatorInfo :=
  match lines with
  | [] => Ret r
  | line :: lines =>
      let tokens := ParseString 10 CAPS_DELIM line in
      t ← FbPanel.token tokens 0;
      if FbPanel.named "downscale_compression" t then
        x ← FbPanel.number tokens 1; v4l2_caps lines (r <| downscale_compression := FbPanel.nz (u8 x) |>)
      else if FbPanel.named "min_downscale" t then v ← FbPanel.token tokens 1; v4l2_caps lines (r <| min_downscale := atof v |>)
      else v4l2_caps lines r
  end.
Fixpoint v4l2_loop (n : nat) (i : Z) (r : HWRotatorInfo) : St V HWRotatorInfo :=
  match n with
  | O => mret r
  | S n =>
      f ← FbPanel.sy_lines (v4l2_path +:+ pretty i +:+ "/name");
      match f with
      | Some (line :: _) =>
          if FbPanel.named "sde_rotator" (FbPanel.c_str line) then
            let r := r <| device_path := "/dev/video" +:+ pretty i |> <| num_rotator ::= fun n => u32 (n + 1) |> <| rot_type := ROT_TYPE_V4L2 |>
                       <| has_downscale := true |> in
            c ← FbPanel.sy_lines (v4l2_path +:+ pretty i +:+ "/device/caps");
            match c with Some lines => st_lift (v4l2_caps lines r) | None => mret r end
          else v4l2_loop n (i + 1) r
      | _ => v4l2_loop n (i + 1) r
      end
  end.
Definition GetV4L2RotatorInfo (r : HWRotatorInfo) : St V (DisplayError * HWRotatorInfo) := r ← v4l2_loop kMaxV4L2Nodes 0 r; mret (kErrorNone, r).
Definition GetHWRotatorInfo (r : HWRotatorInfo) : St V (DisplayError * HWRotatorInfo) :=
  '(e, r) ← GetMDSSRotatorInfo r; if decide (e <> kErrorNone) then GetV4L2RotatorInfo r else mret (kErrorNone, r).

(** ** The whole *)
Definition caps_path : string := "/sys/devices/virtual/graphics/fb0/mdp/caps".
(** The object keeps what it read; [old] is what the caller had.  [extension]: whether the
    extension library can be opened. *)
Definition GetHWResourceInfo (extension : bool) (hw_resource_ : option HWResourceInfo) (old : HWResourceInfo) :
    St V (DisplayError * option HWResourceInfo * HWResourceInfo) :=
  match hw_resource_ with
  | Some r => mret (kErrorNone, Some r, r)
  | None =>
      f ← FbPanel.sy_lines caps_path;
      match f with
      | None => mret (kErrorHardware, None, old)
      | Some lines =>
          r ← st_lift (caps_lines (length lines) lines ((InitSupportedFormatMap HWResourceInfo0) <| hw_version := kHWMdssVersion5 |>));
          let r := if extension then r else r <| ds_count := 0 |> in
          r ← (if (separate_rotator (features r) || negb (num_dma_pipe r =? 0)) && negb (has_ppp (features r))
               then '(_, rot) ← GetHWRotatorInfo (hw_rot_info r); mret (r <| hw_rot_info := rot |>) else mret r);
          let r := if writeback_index r =? kHWBlockMax then r <| writeback_index := num_rotator (hw_rot_info r) |> else r in
          if has_dyn_bw_support (features r) then
            '(e, r) ← GetDynamicBWLimits r;
            if decide (e <> kErrorNone) then mret (e, Some r, old) else mret (kErrorNone, Some r, r)
          else mret (kErrorNone, Some r, r)
      end
  end.
(** Whether the first display is HDMI, and connected. *)
Definition GetFirstDisplayInterfaceType (old : bool * bool) : St V (DisplayError * (bool * bool)) :=
  f ← FbPanel.sy_lines "/sys/devices/virtual/graphics/fb0/msm_fb_type"%string;
  match f with
  | Some (line :: _) =>
      let s := FbPanel.c_str line in
      let hdmi := FbPanel.named "dtv panel" s || FbPanel.named "dp panel" s in
      c ← FbPanel.sy_lines "/sys/devices/virtual/graphics/fb0/connected"%string;
      match c with
      | None => mret (kErrorNone, (hdmi, true))
      | Some (line :: _) => mret (kErrorNone, (hdmi, FbPanel.named "1" (FbPanel.c_str line)))
      | Some [] => mret (kErrorHardware, (hdmi, snd old))
      end
  | _ => mret (kErrorHardware, old)
  end.
End Info.
End HwInfo.
