(* ===== verification/InfoProps.v ===== *)

(** Facts about the capabilities of the display hardware: the formats of the blocks, that the
    reading of the files ends, and what is answered after a failure. *)
From S2P Require Import Prelude Rect ResourceDefault Strategy HwcLayer DisplayFacts Cec FbScale FbPanel FbDevice HwInfo.
#[local] Open Scope Z_scope.

Module InfoProps.
Import Float32 Formats ResourceDefault FbScale HwInfo Returns.

Section Facts.
Context {V : Type} {SYS : FbPanel.Sysfs V} {ENV : InfoEnv}.
(** A format that the device sends to the driver is read back as itself; one is not read. *)
Lemma format_read_back f m : FbDevice.SetFormat f = Some m ->
  GetSDMFormat_of (Mdp m) = if decide (f = kFormatCbYCrY422H2V1Packed) then kFormatInvalid else f.
Proof. destruct f; cbn [FbDevice.SetFormat]; try discriminate; intros [= <-]; reflexivity. Qed.
(** The formats of a block are those whose bit is set, and none is invalid. *)
Lemma elem_of_formats bytes n f :
  f ∈ formats_of bytes n <-> f <> kFormatInvalid /\ exists i, (i < n)%nat /\ supported bytes i = true /\ GetSDMFormat (Z.of_nat i) = f.
Proof.
  unfold formats_of. rewrite list_elem_of_In, List.filter_In, <- list_elem_of_In, list_elem_of_fmap. unfold compose. split.
  - intros [(i & -> & Hi) Hf]. apply list_elem_of_In, List.filter_In in Hi as [Hi Hb]. apply List.in_seq in Hi.
    apply negb_true_iff, bool_decide_eq_false in Hf. split; [exact Hf |]. exists i. repeat split; [lia | exact Hb].
  - intros [Hf (i & Hi & Hb & <-)]. split.
    + exists i. split; [reflexivity |]. apply list_elem_of_In, List.filter_In. split; [apply List.in_seq; lia | exact Hb].
    + apply negb_true_iff, bool_decide_eq_false, Hf.
Qed.
(** The last list of a block is the one it has, and the others stay. *)
Definition formats (r : HWResourceInfo) (b : HWSubBlockType) : option (list LayerBufferFormat) :=
  snd <$> List.find (fun e => bool_decide (fst e = b)) (supported_formats_map r).
Lemma find_filter_ne (l : list (HWSubBlockType * list LayerBufferFormat)) b b' : b <> b' ->
  List.find (fun e => bool_decide (fst e = b')) (List.filter (fun e => negb (bool_decide (fst e = b))) l) = List.find (fun e => bool_decide (fst e = b')) l.
Proof.
  intros Hb. induction l as [| [k x] l IH]; [reflexivity |]. cbn [List.filter List.find fst]. destruct (decide (k = b)) as [-> | Hk].
  - rewrite bool_decide_true, (bool_decide_false (b = b')) by done. exact IH.
  - rewrite (bool_decide_false (k = b)) by done. cbn [negb List.find fst]. destruct (bool_decide (k = b')); [reflexivity | exact IH].
Qed.
Lemma formats_populated bytes n b b' r :
  formats (PopulateSupportedFormatMap bytes n b r) b' = if decide (b' = b) then Some (formats_of bytes n) else formats r b'.
Proof.
  unfold formats, PopulateSupportedFormatMap.
  change (supported_formats_map (r <| supported_formats_map ::= ?f |>)) with (f (supported_formats_map r)). cbn [List.find fst].
  destruct (decide (b' = b)) as [-> | H].
  - rewrite bool_decide_true by done. reflexivity.
  - rewrite (bool_decide_false (b = b')) by congruence. rewrite find_filter_ne by congruence. reflexivity.
Qed.

(** ** The loops end *)
Lemma atoi_digits_ends l acc : total (Cec.atoi_digits l acc).
Proof. revert acc. induction l as [| [c |] l IH]; intros acc; cbn [Cec.atoi_digits]; [done | | done]. destruct (Cec.is_digit c); [apply IH | done]. Qed.
Lemma atoi_ends t : total (FbPanel.atoi t).
Proof.
  unfold FbPanel.atoi. induction (_ ++ _) as [| [c |] l IH]; cbn [Cec.atoi]; [done | | done].
  destruct (Cec.is_space c); [exact IH |]. repeat destruct (_ =? _); (apply total_bind; [apply atoi_digits_ends | intros; apply total_int]).
Qed.
Lemma atol_ends t : total (atol t).
Proof.
  unfold atol. induction (_ ++ _) as [| [c |] l IH]; cbn [atol_of]; [done | | done].
  destruct (Cec.is_space c); [exact IH |].
  repeat destruct (_ =? _); (apply total_bind; [apply atoi_digits_ends | intros; unfold long_expr; by destruct (_ && _)]).
Qed.
Lemma token_ends l i : total (FbPanel.token l i).
Proof. unfold FbPanel.token. by destruct (l !! i). Qed.
Lemma number_ends l i : total (FbPanel.number l i).
Proof. apply total_bind; [apply token_ends | apply atoi_ends]. Qed.
#[local] Hint Resolve atoi_ends atol_ends token_ends number_ends : total.
Lemma format_bytes_ends l : total (format_bytes l).
Proof. induction l as [| t l IH]; cbn [format_bytes]; [done |]. DefaultLive.total_tac. Qed.
#[local] Hint Resolve format_bytes_ends : total.
Lemma ParseFormats_ends l b r : total (ParseFormats l b r).
Proof. unfold ParseFormats. DefaultLive.total_tac. Qed.
#[local] Hint Resolve ParseFormats_ends : total.
Lemma pipe_tokens_ends l c r : total (pipe_tokens l c r).
Proof.
  revert c r. induction l as [l IH] using (induction_ltof1 _ (@length _)). unfold ltof in IH. intros c r.
  destruct l as [| k [| v l]]; cbn [pipe_tokens]; [done | by destruct (_ || _) |].
  apply total_bind; [| intros [c' r']; apply IH; cbn [length]; lia]. DefaultLive.total_tac.
Qed.
(** A list of pipes only takes lines away. *)
Lemma pipe_lines_ends n lines r : match pipe_lines n lines r with Ret (l, _) => (length l <= length lines)%nat | Undef => True | NoFuel => False end.
Proof.
  revert lines r. induction n as [| n IH]; intros lines r; cbn [pipe_lines]; [lia |]. unfold pipe_line.
  pose proof (pipe_tokens_ends (ParseString 256 PIPE_DELIM (hd [] lines)) (mkCaps kPipeTypeUnused 0 0 1) r) as H. unfold total in H.
  destruct (pipe_tokens _ _ r) as [[c r'] | |]; cbn [mbind outcome_bind]; [| done | done].
  specialize (IH (tl lines) (r' <| hw_pipes ::= fun l => l ++ [c] |>)). destruct (pipe_lines n _ _) as [[l ?] | |]; [| done | done].
  destruct lines; cbn [tl length] in IH |- *; lia.
Qed.
Lemma caps_line_ends a tokens lines r :
  match caps_line a tokens lines r with Ret (l, _) => (length l <= length lines)%nat | Undef => True | NoFuel => False end.
Proof.
  assert (Hk : forall {A} (m : outcome A) (k : A -> outcome (list text * HWResourceInfo)), total m ->
    (forall x, match k x with Ret (l, _) => (length l <= length lines)%nat | Undef => True | NoFuel => False end) ->
    match (m ≫= k) with Ret (l, _) => (length l <= length lines)%nat | Undef => True | NoFuel => False end)
    by (intros A m k Hm Hk; destruct m; [apply Hk | done | done]).
  destruct a; cbn [caps_line]; repeat (apply Hk; [auto with total nocore | intros]); try apply pipe_lines_ends; cbn; lia.
Qed.
(** The number of the lines is fuel enough. *)
Lemma caps_lines_ends fuel lines r : (length lines <= fuel)%nat -> total (caps_lines fuel lines r).
Proof.
  revert lines r. induction fuel as [| fuel IH]; intros [| line lines] r H; cbn [length] in H; [done | lia | done |]. cbn [caps_lines].
  apply total_bind; [apply token_ends | intros t]. destruct (find_key caps_table t) as [a |]; [| apply IH; lia].
  pose proof (caps_line_ends a (ParseString 256 CAPS_DELIM line) lines r) as Ha.
  destruct (caps_line _ _ lines r) as [[l r'] | |]; [| done | done]. apply IH. lia.
Qed.
Lemma key_lines_ends {S} (table : list (string * (Z -> S -> S))) max lines r : total (key_lines table max lines r).
Proof.
  revert r. induction lines as [| line lines IH]; intros r; cbn [key_lines]; [done |]. apply total_bind; [apply token_ends | intros t].
  destruct (find_key table t); [| apply IH]. apply total_bind; [apply number_ends | intros; apply IH].
Qed.
Lemma v4l2_caps_ends lines r : total (v4l2_caps lines r).
Proof.
  revert r. induction lines as [| line lines IH]; intros r; cbn [v4l2_caps]; [done |]. apply total_bind; [apply token_ends | intros t].
  repeat destruct (FbPanel.named _ t); [.. | apply IH]; (apply total_bind; [auto with total nocore | intros; apply IH]).
Qed.

(** ** The calls return *)
Context (I : V -> Prop) (Hread : forall p, ends I (FbPanel.sy_lines (V := V) p)).
Lemma read_returns {A} p (k : option (list text) -> St V A) : (forall f, ends I (k f)) -> ends I (FbPanel.sy_lines p ≫= k).
Proof. intros H. apply ends_bind; [apply Hread | exact H]. Qed.
Lemma lift_returns {A B} (m : outcome A) (k : A -> St V B) : total m -> (forall a, ends I (k a)) -> ends I (st_lift m ≫= k).
Proof. intros H Hk. apply ends_bind; [apply ends_lift, H | exact Hk]. Qed.
Lemma rotator_returns r : ends I (GetHWRotatorInfo (V := V) r).
Proof.
  assert (Hloop : forall n i r, ends I (v4l2_loop (V := V) n i r)).
  { induction n as [| n IH]; intros i r'; cbn [v4l2_loop]; [apply ends_ret |]. apply read_returns. intros [[| line f] |]; [apply IH | | apply IH].
    destruct (FbPanel.named _ _); [| apply IH]. cbv zeta. apply read_returns. intros [l |]; [apply ends_lift, v4l2_caps_ends | apply ends_ret]. }
  apply ends_bind.
  - apply read_returns. intros [l |]; [apply lift_returns; [apply key_lines_ends | intros; apply ends_ret] | apply ends_ret].
  - intros [e r']. destruct (decide (e <> kErrorNone)); [apply ends_bind; [apply Hloop | intros; apply ends_ret] | apply ends_ret].
Qed.
Lemma resource_info_returns extension h old : ends I (GetHWResourceInfo (V := V) extension h old).
Proof.
  destruct h as [r |]; [apply ends_ret |]. apply read_returns. intros [lines |]; [| apply ends_ret].
  apply lift_returns; [apply caps_lines_ends; lia | intros r; cbv zeta]. apply ends_bind.
  - destruct (_ && _); [apply ends_bind; [apply rotator_returns | intros []; apply ends_ret] | apply ends_ret].
  - intros r'. destruct (has_dyn_bw_support _); [| apply ends_ret]. apply ends_bind; [| intros [e r'']; destruct (decide _); apply ends_ret].
    apply read_returns. intros [l |]; [apply lift_returns; [apply key_lines_ends | intros; apply ends_ret] | apply ends_ret].
Qed.
End Facts.

(** ** After a failure *)
Section Failure.
Context {V : Type} {SYS : FbPanel.Sysfs V} {ENV : InfoEnv}.
(** The failure to read the limits of the bandwidth is answered once: the object has kept what
    it had read, and every later call succeeds with it. *)
Lemma failure_answered_once extension old w e r old' w' : GetHWResourceInfo (V := V) extension None old w = Ret ((e, Some r, old'), w') ->
  e <> kErrorNone -> old' = old /\ forall x v, GetHWResourceInfo (V := V) extension (Some r) x v = Ret ((kErrorNone, Some r, r), v).
Proof.
  intros H He. split; [| reflexivity]. revert H. cbn [GetHWResourceInfo]. unfold mbind, st_bind, st_lift, mret, st_ret.
  repeat case_match; intros [= <- <- <- <-]; congruence.
Qed.
End Failure.
End InfoProps.
