(* ===== verification/HwcAlloc.v ===== *)
(** The buffer allocator of the hardware composer:
    src/hardware/qcom-caf/display/sdm/libs/hwc2/hwc_buffer_allocator.cpp.

    It turns the formats of the display library into those of gralloc and back into sizes
    and layouts.  The gralloc device behind its function pointers is the class
    [GrallocDev]; the numbers of the formats are those of the platform, of which
    [hal_format] of [GrUtils] is the meaning. *)
From S2P Require Import Prelude Rect MetaData GrUtils BufMgr ResourceDefault Strategy HwcLayer.
#[local] Open Scope Z_scope.

Module HwcAlloc.
Import Formats ResourceDefault MetaData GrUtils.

(** ** Data of include/core/buffer_allocator.h *)
Record BufferConfig := mkConfig {
  c_width : Z; c_height : Z; c_format : LayerBufferFormat; buffer_count : Z; c_secure : bool; cache : bool; secure_camera : bool; gfx_client : bool
}.
Record AllocatedBufferInfo := mkAllocated { a_fd : Z; a_stride : Z; aligned_width : Z; aligned_height : Z; a_format : LayerBufferFormat; a_size : Z }.
#[global] Instance eta_allocated : Eta AllocatedBufferInfo := fun a =>
  mkAllocated (a_fd a) (a_stride a) (aligned_width a) (aligned_height a) (a_format a) (a_size a).
(** [private_data]: the address of the handle, 0 when there is none. *)
Record BufferInfo := mkInfo { buffer_config : BufferConfig; alloc_buffer_info : AllocatedBufferInfo; private_data : Z }.
#[global] Instance eta_info : Eta BufferInfo := fun b => mkInfo (buffer_config b) (alloc_buffer_info b) (private_data b).

Class GrallocDev (V : Type) := {
  hal_code : HalFormat -> Z;
  GRALLOC1_CONSUMER_USAGE_HWCOMPOSER : Z; GRALLOC1_CONSUMER_USAGE_CLIENT_TARGET : Z; GRALLOC1_PRODUCER_USAGE_PRIVATE_1 : Z;
  GRALLOC1_PRODUCER_USAGE_PRIVATE_4 : Z; GRALLOC_USAGE_PROTECTED : Z; GRALLOC_USAGE_HW_FB : Z;
  gd_module : St V Z;                            (* hw_get_module *)
  gd_open : St V (Z * option Z);                 (* gralloc1_open: the result and the device *)
  gd_close : Z -> St V Z;
  gd_allocate : Z -> Z -> Z -> Z -> Z -> St V (option (Z * private_handle_t));
  gd_release : Z -> St V unit;
  gd_custom : Z -> St V (Z * Z);
  gd_attributes : Z -> Z -> Z -> Z -> Z -> St V (Z * Z);
  gd_lock : Z -> Z -> St V Z;                    (* the address, 0 when it failed *)
  gd_unlock : Z -> St V (Z * Z)                  (* the error and the fence *)
}.

Section Allocator.
Context {PL : Platform} {ABI : HandleAbi} {MM : Mmap} {V : Type} {GD : GrallocDev V} (instance : option AdrenoMemInfo).
Definition GRALLOC_USAGE_PRIVATE_ALLOC_UBWC : Z := GRALLOC1_PRODUCER_USAGE_PRIVATE_0.
Definition GRALLOC_USAGE_PRIVATE_UNCACHED : Z := GRALLOC1_PRODUCER_USAGE_PRIVATE_1.
Definition GRALLOC_USAGE_PRIVATE_IOMMU_HEAP : Z := GRALLOC1_PRODUCER_USAGE_PRIVATE_4.

(** The format of gralloc and whether it is to be compressed; none is -EINVAL. *)
Definition SetBufferInfo (format : LayerBufferFormat) : option (HalFormat * bool) :=
  match format with
  | kFormatRGBA8888 => Some (HAL_PIXEL_FORMAT_RGBA_8888, false)
  | kFormatRGBX8888 => Some (HAL_PIXEL_FORMAT_RGBX_8888, false)
  | kFormatRGB888 => Some (HAL_PIXEL_FORMAT_RGB_888, false)
  | kFormatRGB565 => Some (HAL_PIXEL_FORMAT_RGB_565, false)
  | kFormatBGR565 => Some (HAL_PIXEL_FORMAT_BGR_565, false)
  | kFormatBGR888 => Some (HAL_PIXEL_FORMAT_BGR_888, false)
  | kFormatBGRA8888 => Some (HAL_PIXEL_FORMAT_BGRA_8888, false)
  | kFormatYCrCb420PlanarStride16 => Some (HAL_PIXEL_FORMAT_YV12, false)
  | kFormatYCrCb420SemiPlanar => Some (HAL_PIXEL_FORMAT_YCrCb_420_SP, false)
  | kFormatYCbCr420SemiPlanar => Some (HAL_PIXEL_FORMAT_YCbCr_420_SP, false)
  | kFormatYCbCr422H2V1Packed => Some (HAL_PIXEL_FORMAT_YCbCr_422_I, false)
  | kFormatCbYCrY422H2V1Packed => Some (HAL_PIXEL_FORMAT_CbYCrY_422_I, false)
  | kFormatYCbCr422H2V1SemiPlanar => Some (HAL_PIXEL_FORMAT_YCbCr_422_SP, false)
  | kFormatYCbCr420SemiPlanarVenus => Some (HAL_PIXEL_FORMAT_YCbCr_420_SP_VENUS, false)
  | kFormatYCrCb420SemiPlanarVenus => Some (HAL_PIXEL_FORMAT_YCrCb_420_SP_VENUS, false)
  | kFormatYCbCr420SPVenusUbwc => Some (HAL_PIXEL_FORMAT_YCbCr_420_SP_VENUS_UBWC, true)
  | kFormatRGBA5551 => Some (HAL_PIXEL_FORMAT_RGBA_5551, false)
  | kFormatRGBA4444 => Some (HAL_PIXEL_FORMAT_RGBA_4444, false)
  | kFormatRGBA1010102 => Some (HAL_PIXEL_FORMAT_RGBA_1010102, false)
  | kFormatARGB2101010 => Some (HAL_PIXEL_FORMAT_ARGB_2101010, false)
  | kFormatRGBX1010102 => Some (HAL_PIXEL_FORMAT_RGBX_1010102, false)
  | kFormatXRGB2101010 => Some (HAL_PIXEL_FORMAT_XRGB_2101010, false)
  | kFormatBGRA1010102 => Some (HAL_PIXEL_FORMAT_BGRA_1010102, false)
  | kFormatABGR2101010 => Some (HAL_PIXEL_FORMAT_ABGR_2101010, false)
  | kFormatBGRX1010102 => Some (HAL_PIXEL_FORMAT_BGRX_1010102, false)
  | kFormatXBGR2101010 => Some (HAL_PIXEL_FORMAT_XBGR_2101010, false)
  | kFormatYCbCr420P010 => Some (HAL_PIXEL_FORMAT_YCbCr_420_P010, false)
  | kFormatYCbCr420TP10Ubwc => Some (HAL_PIXEL_FORMAT_YCbCr_420_TP10_UBWC, true)
  | kFormatYCbCr420P010Ubwc => Some (HAL_PIXEL_FORMAT_YCbCr_420_P010_UBWC, true)
  | kFormatRGBA8888Ubwc => Some (HAL_PIXEL_FORMAT_RGBA_8888, true)
  | kFormatRGBX8888Ubwc => Some (HAL_PIXEL_FORMAT_RGBX_8888, true)
  | kFormatBGR565Ubwc => Some (HAL_PIXEL_FORMAT_BGR_565, true)
  | kFormatRGBA1010102Ubwc => Some (HAL_PIXEL_FORMAT_RGBA_1010102, true)
  | kFormatRGBX1010102Ubwc => Some (HAL_PIXEL_FORMAT_RGBX_1010102, true)
  | _ => None
  end.
Definition add_flag (b : bool) (f flags : Z) : Z := if b then Z.lor flags f else flags.

(** ** The device *)
Definition Init : St V (DisplayError * option Z) :=
  err ← gd_module;
  if negb (err =? 0) then mret (kErrorResources, None)
  else
    '(err, d) ← gd_open;
    if negb (err =? 0) then mret (kErrorResources, d)
    else match d with None => mret (kErrorResources, None) | Some d => mret (kErrorNone, Some d) end.
Definition Deinit (gralloc_device_ : option Z) : St V DisplayError :=
  match gralloc_device_ with
  | Some d => err ← gd_close d; mret (if err =? 0 then kErrorNone else kErrorResources)
  | None => mret kErrorNone
  end.

(** ** Buffers *)
Definition alloc_flags (c : BufferConfig) (ubwc : bool) : Z :=
  add_flag (gfx_client c) GRALLOC1_CONSUMER_USAGE_GPU_TEXTURE
    (add_flag (negb (cache c)) GRALLOC_USAGE_PRIVATE_UNCACHED
      (add_flag (secure_camera c) GRALLOC1_PRODUCER_USAGE_CAMERA
        (add_flag (c_secure c) GRALLOC1_PRODUCER_USAGE_PROTECTED (add_flag ubwc GRALLOC_USAGE_PRIVATE_ALLOC_UBWC 0)))).
Definition AllocateBuffer (b : BufferInfo) : St V (DisplayError * BufferInfo) :=
  let c := buffer_config b in
  match SetBufferInfo (c_format c) with
  | None => mret (kErrorParameters, b)
  | Some (f, ubwc) =>
      let flags := alloc_flags c ubwc in
      r ← gd_allocate (c_width c) (c_height c) (hal_code f) flags (Z.lor flags GRALLOC1_CONSUMER_USAGE_HWCOMPOSER);
      match r with
      | None => mret (kErrorMemory, b)
      | Some (p, hnd) =>
          mret (kErrorNone, b <| alloc_buffer_info ::= fun a => a <| a_fd := fd hnd |> <| a_stride := u32 (width hnd) |>
            <| aligned_width := u32 (width hnd) |> <| aligned_height := u32 (height hnd) |> <| a_size := size hnd |> |> <| private_data := p |>)
      end
  end.
Definition FreeBuffer (b : BufferInfo) : St V (DisplayError * BufferInfo) :=
  _ ← gd_release (private_data b);
  mret (kErrorNone, b <| alloc_buffer_info ::= fun a => a <| a_fd := -1 |> <| a_stride := 0 |> <| a_size := 0 |> |> <| private_data := 0 |>).
Definition GetCustomWidthAndHeight (handle : Z) : St V (Z * Z) := gd_custom handle.
Definition GetAlignedWidthAndHeight (width height format alloc_type : Z) : St V (Z * Z) :=
  gd_attributes width height format (if has alloc_type GRALLOC_USAGE_PRIVATE_ALLOC_UBWC then GRALLOC_USAGE_PRIVATE_ALLOC_UBWC else 0)
    (if has alloc_type GRALLOC_USAGE_HW_FB then GRALLOC1_CONSUMER_USAGE_CLIENT_TARGET else 0).
(** What GetBufferSize and GetAllocatedBufferInfo ask gralloc for; none when the format is not
    supported. *)
Definition dimensions (c : BufferConfig) : outcome (option (Z * Z * Z)) :=
  let flags := add_flag (negb (cache c)) GRALLOC_USAGE_PRIVATE_UNCACHED (add_flag (c_secure c) (u64 (s32 GRALLOC_USAGE_PROTECTED)) GRALLOC_USAGE_PRIVATE_IOMMU_HEAP) in
  match SetBufferInfo (c_format c) with
  | None => Ret None
  | Some (f, ubwc) =>
      let flags := add_flag ubwc GRALLOC_USAGE_PRIVATE_ALLOC_UBWC flags in
      r ← GetBufferSizeAndDimensions instance (new_BufferInfo (s32 (c_width c)) (s32 (c_height c)) (hal_code f) flags flags) (0, 0);
      Ret (Some r)
  end.
Definition GetBufferSize (b : BufferInfo) : outcome Z :=
  r ← dimensions (buffer_config b); Ret (match r with Some (size, _, _) => size | None => 0 end).
Definition GetAllocatedBufferInfo (c : BufferConfig) (a : AllocatedBufferInfo) : outcome (DisplayError * AllocatedBufferInfo) :=
  r ← dimensions c;
  Ret (match r with
       | Some (size, aw, ah) => (kErrorNone, a <| a_stride := aw |> <| aligned_width := aw |> <| aligned_height := ah |> <| a_size := size |>)
       | None => (kErrorParameters, a)
       end).
(** A handle on the stack, at [p], with only what is needed of it. *)
Definition layout_handle (a : AllocatedBufferInfo) : private_handle_t :=
  let '(f, ubwc) := default (HAL_PIXEL_FORMAT_RGBA_8888, false) (SetBufferInfo (a_format a)) in
  new_handle (-1) (-1) (if ubwc : bool then PRIV_FLAGS_UBWC_ALIGNED else BufMgr.PRIV_FLAGS_CLIENT_ALLOCATED) (s32 (aligned_width a)) (s32 (aligned_height a))
    0 0 (hal_code f) 0 0 0 0.
Definition GetBufferLayout (p : Z) (a : AllocatedBufferInfo) (out : option Layout) : St World (DisplayError * option Layout) :=
  _ ← st_modify (fun w => mkWorld (<[p := layout_handle a]> (handles w)) (fd_buf w) (contents w) (mapped w));
  '(ret, l) ← GrUtils.GetBufferLayout instance p out;
  _ ← st_modify (fun w => mkWorld (delete p (handles w)) (fd_buf w) (contents w) (mapped w));
  mret (if ret <? 0 then kErrorParameters else kErrorNone, l).
Definition MapBuffer (handle acquire_fence : Z) : St V DisplayError :=
  p ← gd_lock handle acquire_fence; mret (if p =? 0 then kErrorUndefined else kErrorNone).
(** The error of gralloc is converted to one of the display library. *)
Definition UnmapBuffer (handle : Z) : St V (Z * Z) := gd_unlock handle.
End Allocator.

(** * The formats *)
Section Formats.
Context {PL : Platform} {V : Type} {GD : GrallocDev V} (Hcode : forall f, hal_format (hal_code f) = f).
(** What a layer makes of a buffer that was allocated for a format is the format. *)
Lemma format_kept f h ubwc : SetBufferInfo f = Some (h, ubwc) ->
  HwcLayer.GetSDMFormat (hal_code h) (if ubwc then PRIV_FLAGS_UBWC_ALIGNED else 0) = f.
Proof. unfold HwcLayer.GetSDMFormat. destruct f; cbn [SetBufferInfo]; try discriminate; intros [= <- <-]; rewrite Hcode; reflexivity. Qed.
End Formats.
End HwcAlloc.
