(* ===== verification/ColorPp.v ===== *)
(** The post processing features of a display: src/hardware/qcom-caf/display/sdm/libs/core/
    color_manager.cpp with PPFeaturesConfig of include/private/color_params.h, and of the
    frame buffer back end hw_color_manager.cpp with the two calls of hw_primary.cpp.

    The closed library fills a list of features, which the display hands to the driver and
    deletes.  A feature is an object of a heap: the use or the deletion of one that is not
    there is undefined.  The library is the class [ColorLib], the driver [PpDriver], the
    constants of the kernel's header [PpHeader]. *)
From stdpp Require Import pretty.
From S2P Require Import Prelude ResourceDefault Strategy Cec FbPanel FbDevice HwInfo.
#[local] Open Scope Z_scope.

Module ColorPp.
Import ResourceDefault.
Abbreviation text := (list Z).

(** ** Features *)
Inductive PPGlobalColorFeatureID :=
| kGlobalColorFeaturePcc | kGlobalColorFeatureIgc | kGlobalColorFeaturePgc | kMixerColorFeatureGc | kGlobalColorFeaturePaV2
| kGlobalColorFeatureDither | kGlobalColorFeatureGamut | kGlobalColorFeaturePADither | kGlobalColorFeatureCsc.
Definition features : list PPGlobalColorFeatureID :=
  [kGlobalColorFeaturePcc; kGlobalColorFeatureIgc; kGlobalColorFeaturePgc; kMixerColorFeatureGc; kGlobalColorFeaturePaV2;
   kGlobalColorFeatureDither; kGlobalColorFeatureGamut; kGlobalColorFeaturePADither; kGlobalColorFeatureCsc].
Definition kMaxNumPPFeatures : nat := 9.
(** [config]: the address GetConfigData returns. *)
Record PPFeatureInfo := mkFeature { enable_flags_ : Z; feature_version_ : Z; feature_id_ : Z; disp_id_ : Z; pipe_id_ : Z; config : Z }.
(** [feature_] holds addresses. *)
Record PPFeaturesConfig := mkPp { dirty_ : bool; feature_ : list (option Z); next_idx_ : nat }.
#[global] Instance eta_pp : Eta PPFeaturesConfig := fun p => mkPp (dirty_ p) (feature_ p) (next_idx_ p).
Definition new_PPFeaturesConfig : PPFeaturesConfig := mkPp false (replicate kMaxNumPPFeatures None) 0.
Record World (V : Type) := mkWorld { pp : PPFeaturesConfig; heap : gmap Z PPFeatureInfo; drv : V }.
Arguments mkWorld {V}.
Arguments pp {V}.
Arguments heap {V}.
Arguments drv {V}.
#[global] Instance eta_world {V} : Eta (World V) := fun w => mkWorld (pp w) (heap w) (drv w).

(** ** The driver *)
Class PpHeader := {
  MDP_LOGICAL_BLOCK_DISP_0 : Z; MDP_BLOCK_DMA_P : Z; MDSS_PP_LM_CFG : Z; mdp_pp_legacy : Z;
  PCC : Z; IGC : Z; GC : Z; PA : Z; DITHER : Z; GAMUT : Z; PA_DITHER_ID : Z;
  PA_DITHER : bool;                         (* whether the header has PA dithering *)
  csc_at : Z -> text                        (* the mdp_csc_cfg at an address *)
}.
(** msmfb_mdp_pp, as far as it was written. *)
Inductive msmfb_mdp_pp :=
| zeros
| pcc_cfg_data (version block ops cfg_payload : Z)
| igc_lut_data (block version ops cfg_payload : Z)
| pgc_lut_data (version block flags cfg_payload : Z)
| pa_v2_cfg_data (version block flags cfg_payload : Z)
| dither_cfg_data (version block flags cfg_payload : Z)
| gamut_cfg_data (version block flags cfg_payload : Z)
| pa_dither_cfg_data (version block flags cfg_payload : Z)
| csc_cfg_data (block : Z) (csc_data : text).
Class PpDriver (V : Type) := {
  MSMFB_MDP_PP : Z -> msmfb_mdp_pp -> St V Z;
  MSMFB_MDP_PP_GET_FEATURE_VERSION : Z -> Z -> St V (Z * Z)     (* the result and version_info *)
}.

Section Features.
Context {V : Type} {HD : PpHeader} {PD : PpDriver V}.
Abbreviation M := (St (World V)).

(** ** hw_color_manager.cpp *)
Definition block_of (f : PPFeatureInfo) : Z := u32 (MDP_LOGICAL_BLOCK_DISP_0 + disp_id_ f).
Definition SetPCC (f : PPFeatureInfo) (_ : msmfb_mdp_pp) := pcc_cfg_data (feature_version_ f) (block_of f) (enable_flags_ f) (config f).
Definition SetIGC (f : PPFeatureInfo) (_ : msmfb_mdp_pp) := igc_lut_data (block_of f) (feature_version_ f) (enable_flags_ f) (config f).
Definition SetPGC (f : PPFeatureInfo) (_ : msmfb_mdp_pp) := pgc_lut_data (feature_version_ f) (block_of f) (enable_flags_ f) (config f).
Definition SetMixerGC (f : PPFeatureInfo) (_ : msmfb_mdp_pp) :=
  pgc_lut_data (feature_version_ f) (Z.lor (block_of f) MDSS_PP_LM_CFG) (enable_flags_ f) (config f).
Definition SetPAV2 (f : PPFeatureInfo) (_ : msmfb_mdp_pp) := pa_v2_cfg_data (feature_version_ f) (block_of f) (enable_flags_ f) (config f).
Definition SetDither (f : PPFeatureInfo) (_ : msmfb_mdp_pp) := dither_cfg_data (feature_version_ f) (block_of f) (enable_flags_ f) (config f).
Definition SetGamut (f : PPFeatureInfo) (_ : msmfb_mdp_pp) := gamut_cfg_data (feature_version_ f) (block_of f) (enable_flags_ f) (config f).
Definition SetPADither (f : PPFeatureInfo) (kernel_params : msmfb_mdp_pp) :=
  if PA_DITHER then pa_dither_cfg_data (feature_version_ f) (block_of f) (enable_flags_ f) (config f) else kernel_params.
Definition SetCSCLegacy (f : PPFeatureInfo) (_ : msmfb_mdp_pp) := csc_cfg_data MDP_BLOCK_DMA_P (csc_at (config f)).
Definition SetFeature (id : PPGlobalColorFeatureID) : PPFeatureInfo -> msmfb_mdp_pp -> msmfb_mdp_pp :=
  match id with
  | kGlobalColorFeaturePcc => SetPCC | kGlobalColorFeatureIgc => SetIGC | kGlobalColorFeaturePgc => SetPGC
  | kMixerColorFeatureGc => SetMixerGC | kGlobalColorFeaturePaV2 => SetPAV2 | kGlobalColorFeatureDither => SetDither
  | kGlobalColorFeatureGamut => SetGamut | kGlobalColorFeaturePADither => SetPADither | kGlobalColorFeatureCsc => SetCSCLegacy
  end.

(** ** The list *)
Definition pp_get {A} (f : PPFeaturesConfig -> A) : M A := st_gets (fun w => f (pp w)).
Definition pp_set (f : PPFeaturesConfig -> PPFeaturesConfig) : M unit := st_modify (fun w => w <| pp ::= f |>).
Definition delete_object (p : Z) : M unit := fun w =>
  match heap w !! p with Some _ => Ret (tt, w <| heap ::= delete p |>) | None => Undef end.
Definition object (p : Z) : M PPFeatureInfo := fun w => match heap w !! p with Some f => Ret (f, w) | None => Undef end.
Definition in_drv {A} (m : St V A) : M A := fun w =>
  match m (drv w) with Ret (a, v) => Ret (a, w <| drv := v |>) | Undef => Undef | NoFuel => NoFuel end.
(** Slot [i] of [feature_]. *)
Definition slot (i : nat) : M (option Z) := l ← pp_get feature_; st_lift (match l !! i with Some o => Ret o | None => Undef end).
Definition set_slot (i : nat) (o : option Z) : M unit := pp_set (fun p => p <| feature_ ::= <[i := o]> |>).
Definition AddFeature (feature_id : Z) (feature : option Z) : M DisplayError :=
  if feature_id <? kMaxNumPPFeatures then
    let i := Z.to_nat feature_id in
    o ← slot i;
    _ ← (match o with Some p => _ ← delete_object p; set_slot i None | None => mret tt end);
    _ ← set_slot i feature; mret kErrorNone
  else mret kErrorNone.
Fixpoint reset_loop (n i : nat) : M unit :=
  match n with
  | O => mret tt
  | S n => o ← slot i; _ ← (match o with Some p => _ ← delete_object p; set_slot i None | None => mret tt end); reset_loop n (S i)
  end.
Definition Reset : M unit :=
  _ ← reset_loop kMaxNumPPFeatures 0; pp_set (fun p => p <| dirty_ := false |> <| next_idx_ := 0%nat |>).
(** The next slot that is not empty; [n] slots are left. *)
Fixpoint retrieve_loop (n i : nat) : M (option Z) :=
  match n with
  | O => mret None
  | S n => o ← slot i; match o with Some p => _ ← pp_set (fun c => c <| next_idx_ := S i |>); mret (Some p) | None => retrieve_loop n (S i) end
  end.
Definition RetrieveNextFeature (feature : option Z) : M (DisplayError * option Z) :=
  i ← pp_get next_idx_;
  r ← retrieve_loop (kMaxNumPPFeatures - i) i;
  match r with
  | Some p => mret (kErrorNone, Some p)
  | None => _ ← pp_set (fun c => c <| next_idx_ := 0%nat |>); mret (kErrorParameters, feature)
  end.

(** ** hw_primary.cpp *)
Definition feature_id_mapping : list Z :=
  [PCC; IGC; GC; GC; PA; DITHER; GAMUT; if PA_DITHER then PA_DITHER_ID else 0; 0].
Definition kHWMdssVersion3 : Z := 3.
(** The versions so far stay when a query fails. *)
Fixpoint version_loop (device_fd : Z) (l : list Z) (i : nat) (vers : list Z) : St V (DisplayError * list Z) :=
  match l with
  | [] => mret (kErrorNone, vers)
  | f :: l =>
      '(r, x) ← MSMFB_MDP_PP_GET_FEATURE_VERSION device_fd f;
      if r <? 0 then mret (kErrorHardware, vers) else version_loop device_fd l (S i) (<[i := x]> vers)
  end.
Definition GetPPFeaturesVersion (hw_version device_fd : Z) (vers : list Z) : St V (DisplayError * list Z) :=
  if negb (hw_version =? kHWMdssVersion3) then version_loop device_fd (take (kMaxNumPPFeatures - 1) feature_id_mapping) 0 vers
  else mret (kErrorNone, replicate kMaxNumPPFeatures mdp_pp_legacy).
(** One turn of the loop for each feature and one at the end of the list: [fuel]. *)
Fixpoint features_loop (fuel : nat) (device_fd : Z) (kernel_params : msmfb_mdp_pp) (feature : option Z) : M DisplayError :=
  match fuel with
  | O => fun _ => NoFuel
  | S fuel =>
      '(ret, feature) ← RetrieveNextFeature feature;
      if decide (ret <> kErrorNone) then _ ← Reset; mret kErrorNone
      else
        match feature with
        | None => features_loop fuel device_fd kernel_params feature
        | Some p =>
            f ← object p;
            if feature_id_ f <? kMaxNumPPFeatures then
              id ← st_lift (match features !! Z.to_nat (feature_id_ f) with Some id => Ret id | None => Undef end);
              let kernel_params := SetFeature id f kernel_params in
              r ← in_drv (MSMFB_MDP_PP device_fd kernel_params);
              if r <? 0 then _ ← Reset; mret kErrorHardware else features_loop fuel device_fd kernel_params feature
            else features_loop fuel device_fd kernel_params feature
        end
  end.
Definition SetPPFeatures (device_fd : Z) : M DisplayError := features_loop (S kMaxNumPPFeatures) device_fd zeros None.
End Features.

(** ** color_manager.cpp *)
Record PPHWAttributes := mkHwAttr {
  resource : HwInfo.HWResourceInfo; panel : option FbPanel.HWPanelInfo; attributes : option FbDevice.Attributes; pp_panel_name : text; version : list Z;
  pp_panel_max_brightness : Z
}.
Definition new_PPHWAttributes : PPHWAttributes :=
  mkHwAttr HwInfo.HWResourceInfo0 None None (Cec.bytes "generic_panel") (replicate kMaxNumPPFeatures 0) 0.
(** Spaces become underscores, and the text ends at the first line feed. *)
Definition underscores (t : text) : text := (fun c => if c =? 32 then 95 else c) <$> t.
Fixpoint upto_newline (t : text) : text := match t with c :: t => if c =? 10 then [] else c :: upto_newline t | [] => [] end.
Definition Set_attributes (hw_res : HwInfo.HWResourceInfo) (panel_info : FbPanel.HWPanelInfo) (attr : FbDevice.Attributes) (feature_ver : list Z)
    (h : PPHWAttributes) : PPHWAttributes :=
  mkHwAttr hw_res (Some panel_info) (Some attr)
    (match FbPanel.panel_name panel_info with [] => pp_panel_name h | n => upto_newline (underscores (take 255 n)) end)
    feature_ver (FbPanel.panel_max_brightness panel_info).

(** What the library is asked for, besides the creation. *)
Inductive Request :=
| ColorSVCRequestRoute_ (in_payload : text) | ApplyDefaultDisplayMode_ | ColorIntfGetNumDisplayModes | ColorIntfEnumerateDisplayModes (mode_cnt : Z)
| ColorIntfSetDisplayMode (mode_id : Z) | ColorIntfGetModeInfo (mode_id : Z) | ColorIntfSetColorTransform (length : Z) (trans_data : text)
| ColorIntfGetDefaultModeID.
Class ColorLib (V : Type) := {
  lib_open : St V bool;
  lib_sym : bool -> St V bool;                                     (* the function that creates, or the one that destroys *)
  lib_close : St V unit;
  lib_create : DisplayType -> PPHWAttributes -> St V (DisplayError * bool);   (* whether there is an interface *)
  lib_destroy : DisplayType -> St V unit;
  lib_request : Request -> St (World V) (DisplayError * text)      (* with the list of features at hand *)
}.
(** The members that all proxies share. *)
Record Statics := mkStatics { color_lib_ : bool; create_intf_ : bool; destroy_intf_ : bool; hw_res_info_ : HwInfo.HWResourceInfo }.
#[global] Instance eta_statics : Eta Statics := fun s => mkStatics (color_lib_ s) (create_intf_ s) (destroy_intf_ s) (hw_res_info_ s).
Record ColorManagerProxy := mkProxy { device_type_ : DisplayType; pp_hw_attributes_ : PPHWAttributes; color_intf_ : bool }.
(** What is used of HWInterface. *)
Class HwPp (V : Type) := { hw_GetPPFeaturesVersion : list Z -> St V (DisplayError * list Z); hw_SetPPFeatures : St (World V) DisplayError }.

Section Proxy.
Context {V : Type} {CL : ColorLib V} {HP : HwPp V}.
Abbreviation M := (St (World V)).
(** DynLib::Open closes what is open. *)
Definition lib_reopen (s : Statics) : St V bool := _ ← (if color_lib_ s then lib_close else mret tt); lib_open.
Definition Proxy_Init (hw_res_info : HwInfo.HWResourceInfo) (s : Statics) : St V (DisplayError * Statics) :=
  o ← lib_reopen s;
  let s := s <| color_lib_ := o |> in
  if o then
    c ← lib_sym true;
    let s := s <| create_intf_ := c |> in
    if negb c then mret (kErrorResources, s <| hw_res_info_ := hw_res_info |>)
    else
      d ← lib_sym false;
      mret (if d : bool then kErrorNone else kErrorResources, s <| destroy_intf_ := d |> <| hw_res_info_ := hw_res_info |>)
  else mret (kErrorResources, s <| hw_res_info_ := hw_res_info |>).
Definition Proxy_Deinit (s : Statics) : St V Statics := _ ← (if color_lib_ s then lib_close else mret tt); mret (s <| color_lib_ := false |>).
Definition CreateColorManagerProxy (s : Statics) (type : DisplayType) (attribute : FbDevice.Attributes) (panel_info : FbPanel.HWPanelInfo) :
    St V (option (ColorManagerProxy)) :=
  if negb (color_lib_ s) || negb (create_intf_ s) || negb (destroy_intf_ s) then mret None
  else
    '(error, versions) ← hw_GetPPFeaturesVersion (replicate kMaxNumPPFeatures 0);
    let hw_attr := if decide (error = kErrorNone) then Set_attributes (hw_res_info_ s) panel_info attribute versions new_PPHWAttributes
                   else new_PPHWAttributes in
    '(error, intf) ← lib_create type hw_attr;
    if decide (error = kErrorNone) then mret (Some (mkProxy type hw_attr intf))
    else _ ← (if destroy_intf_ s then lib_destroy type else mret tt); mret None.
(** The function of a library that was closed cannot be called. *)
Definition Destroy_proxy (s : Statics) (c : ColorManagerProxy) : M unit :=
  _ ← (if destroy_intf_ s then if color_lib_ s then in_drv (lib_destroy (device_type_ c)) else st_undef else mret tt);
  Reset.
Definition request (c : ColorManagerProxy) (r : Request) : M (DisplayError * text) := if color_intf_ c then lib_request r else st_undef.
Definition ColorSVCRequestRoute (c : ColorManagerProxy) (in_payload : text) := request c (ColorSVCRequestRoute_ in_payload).
Definition ApplyDefaultDisplayMode (c : ColorManagerProxy) := request c ApplyDefaultDisplayMode_.
Definition ColorMgrGetNumOfModes (c : ColorManagerProxy) := request c ColorIntfGetNumDisplayModes.
Definition ColorMgrGetModes (c : ColorManagerProxy) (mode_cnt : Z) := request c (ColorIntfEnumerateDisplayModes mode_cnt).
Definition ColorMgrSetMode (c : ColorManagerProxy) (color_mode_id : Z) := request c (ColorIntfSetDisplayMode color_mode_id).
Definition ColorMgrGetModeInfo (c : ColorManagerProxy) (mode_id : Z) := request c (ColorIntfGetModeInfo mode_id).
Definition ColorMgrSetColorTransform (c : ColorManagerProxy) (len : Z) (trans_data : text) := request c (ColorIntfSetColorTransform len trans_data).
Definition ColorMgrGetDefaultModeID (c : ColorManagerProxy) := request c ColorIntfGetDefaultModeID.
Definition NeedsPartialUpdateDisable : M bool := pp_get dirty_.
Definition Commit : M DisplayError := d ← pp_get dirty_; if d : bool then hw_SetPPFeatures else mret kErrorNone.
End Proxy.
End ColorPp.
