(* ===== verification/ColorProps.v ===== *)
(** The features of post processing: a commit hands the driver each feature of the list once
    and in order, up to the first that it refuses, and deletes all of them. *)
From S2P Require Import Prelude ResourceDefault Strategy Cec FbPanel FbDevice HwInfo ColorPp.
#[local] Open Scope Z_scope.

Module ColorProps.
Import ResourceDefault ColorPp.

(** ** What is meant *)
Definition installed {V} (w : World V) : list Z := omap id (feature_ (pp w)).
(** The objects at the addresses of the list are there and each is in one slot. *)
Record pp_ok {V} (w : World V) : Prop := {
  ok_size : length (feature_ (pp w)) = kMaxNumPPFeatures;
  ok_next : next_idx_ (pp w) = 0%nat;
  ok_distinct : NoDup (installed w);
  ok_live : forall p, p ∈ installed w -> is_Some (heap w !! p)
}.
Definition removed (l : list Z) (h : gmap Z PPFeatureInfo) : gmap Z PPFeatureInfo := fold_left (fun h p => delete p h) l h.
Section Spec.
Context {V : Type} {HD : PpHeader} {PD : PpDriver V}.
(** One call of the driver for each feature with a number the tables have, until one fails. *)
Fixpoint send (device_fd : Z) (k : msmfb_mdp_pp) (fs : list PPFeatureInfo) : St V DisplayError :=
  match fs with
  | [] => mret kErrorNone
  | f :: fs =>
      if feature_id_ f <? kMaxNumPPFeatures then
        id ← st_lift (match features !! Z.to_nat (feature_id_ f) with Some id => Ret id | None => Undef end);
        r ← MSMFB_MDP_PP device_fd (SetFeature id f k);
        if r <? 0 then mret kErrorHardware else send device_fd (SetFeature id f k) fs
      else send device_fd k fs
  end.
(** A call of the driver, with the list emptied and its objects deleted afterwards. *)
Definition emptied (w : World V) (m : St V DisplayError) : outcome (DisplayError * World V) :=
  match m (drv w) with
  | Ret (e, v) => Ret (e, mkWorld new_PPFeaturesConfig (removed (installed w) (heap w)) v) | Undef => Undef | NoFuel => NoFuel
  end.
End Spec.

(** ** Steps *)
Section Steps.
Context {V : Type} {HD : PpHeader} {PD : PpDriver V}.
Implicit Types (w : World V) (pre s : list (option Z)).
Lemma slot_at w pre o s : feature_ (pp w) = pre ++ o :: s -> slot (length pre) w = Ret (o, w).
Proof.
  intros E. unfold slot, pp_get, st_gets, mbind, st_bind, st_lift. rewrite E, lookup_app_r by lia. rewrite Nat.sub_diag. reflexivity.
Qed.
Lemma removed_ne l h q : q ∉ l -> removed l h !! q = h !! q.
Proof.
  revert h. induction l as [| p l IH]; intros h Hq; [reflexivity |]. apply not_elem_of_cons in Hq as [Hp Hq].
  change (removed (p :: l) h) with (removed l (delete p h)). rewrite IH by exact Hq. apply lookup_delete_ne. congruence.
Qed.
(** What is left of the list is emptied and its objects are deleted. *)
Lemma reset_loop_at w pre s : feature_ (pp w) = pre ++ s -> NoDup (omap id s) -> (forall p, p ∈ omap id s -> is_Some (heap w !! p)) ->
  reset_loop (length s) (length pre) w =
    Ret (tt, mkWorld (mkPp (dirty_ (pp w)) (pre ++ replicate (length s) None) (next_idx_ (pp w))) (removed (omap id s) (heap w)) (drv w)).
Proof.
  revert w pre. induction s as [| o s IH]; intros w pre E Hd Hl.
  { cbn [length reset_loop replicate]. destruct w as [[d f n] h v]. cbn in E |- *. by rewrite E. }
  cbn [length reset_loop]. rewrite (st_bind_Ret (slot (length pre)) _ w o w) by by eapply slot_at.
  assert (Hpre : S (length pre) = length (pre ++ [None])) by (rewrite length_app; cbn; lia).
  destruct o as [p |].
  - change (omap id (Some p :: s)) with (p :: omap id s) in *. apply NoDup_cons in Hd as [Hp Hd].
    destruct (Hl p ltac:(left)) as [f Hf].
    rewrite (st_bind_Ret _ _ w tt (w <| heap ::= delete p |> <| pp ::= fun c => c <| feature_ := pre ++ None :: s |> |>)).
    2: { unfold mbind, st_bind, delete_object, set_slot, pp_set, st_modify. rewrite Hf. destruct w as [[d l n] h v]. cbn in E |- *.
         subst l. rewrite insert_app_r_alt by lia. rewrite Nat.sub_diag. reflexivity. }
    rewrite Hpre, IH; [| cbn; by rewrite <- app_assoc | exact Hd |].
    + cbn. rewrite <- app_assoc. reflexivity.
    + intros q Hq. cbn. rewrite lookup_delete_ne by congruence. apply Hl. by right.
  - rewrite (st_bind_Ret _ _ w tt w) by reflexivity. rewrite Hpre, IH; [| by rewrite <- app_assoc | exact Hd | exact Hl].
    rewrite <- app_assoc. reflexivity.
Qed.
Lemma reset_all w : length (feature_ (pp w)) = kMaxNumPPFeatures -> NoDup (installed w) -> (forall p, p ∈ installed w -> is_Some (heap w !! p)) ->
  Reset w = Ret (tt, mkWorld new_PPFeaturesConfig (removed (installed w) (heap w)) (drv w)).
Proof.
  intros Hs Hd Hl. unfold Reset. pose proof (reset_loop_at w [] (feature_ (pp w)) eq_refl Hd Hl) as E. rewrite Hs in E. cbn [length] in E.
  rewrite (st_bind_Ret _ _ _ _ _ E). reflexivity.
Qed.
Lemma reset_like w w' : feature_ (pp w') = feature_ (pp w) -> heap w' = heap w -> length (feature_ (pp w)) = kMaxNumPPFeatures ->
  NoDup (installed w) -> (forall p, p ∈ installed w -> is_Some (heap w !! p)) ->
  Reset w' = Ret (tt, mkWorld new_PPFeaturesConfig (removed (installed w) (heap w)) (drv w')).
Proof. intros Ef Eh Hs Hd Hl. unfold installed in *. rewrite <- Ef, <- Eh in *. by apply reset_all. Qed.
(** The next feature of [s], whose first slot is [i], and the slot after it. *)
Fixpoint first (s : list (option Z)) (i : nat) : option (Z * nat) :=
  match s with [] => None | Some p :: _ => Some (p, S i) | None :: s => first s (S i) end.
Definition at_slot (w : World V) (i : nat) : World V := w <| pp ::= fun c => c <| next_idx_ := i |> |>.
Lemma retrieve_loop_at w pre s : feature_ (pp w) = pre ++ s ->
  retrieve_loop (length s) (length pre) w = match first s (length pre) with Some (p, j) => Ret (Some p, at_slot w j) | None => Ret (None, w) end.
Proof.
  revert pre. induction s as [| o s IH]; intros pre E; [reflexivity |]. cbn [length retrieve_loop first].
  rewrite (st_bind_Ret (slot (length pre)) _ w o w) by by eapply slot_at. destruct o as [p |]; [reflexivity |].
  specialize (IH (pre ++ [None])). rewrite length_app, Nat.add_1_r, <- app_assoc in IH. exact (IH E).
Qed.
Lemma retrieve_at w pre s f : feature_ (pp w) = pre ++ s -> length (pre ++ s) = kMaxNumPPFeatures -> next_idx_ (pp w) = length pre ->
  RetrieveNextFeature f w = match first s (length pre) with
                            | Some (p, j) => Ret ((kErrorNone, Some p), at_slot w j) | None => Ret ((kErrorParameters, f), at_slot w 0)
                            end.
Proof.
  intros E Hl Hn. unfold RetrieveNextFeature. rewrite (st_bind_Ret (pp_get next_idx_) _ w (length pre) w) by (unfold pp_get, st_gets; by rewrite Hn).
  rewrite length_app in Hl. replace (kMaxNumPPFeatures - length pre)%nat with (length s) by lia.
  pose proof (retrieve_loop_at w pre s E) as Er. destruct (first s (length pre)) as [[p j] |]; rewrite (st_bind_Ret _ _ _ _ _ Er); reflexivity.
Qed.

(** ** The loop *)
Lemma loop_sends fd fuel w pre s k f : feature_ (pp w) = pre ++ s -> next_idx_ (pp w) = length pre -> length (pre ++ s) = kMaxNumPPFeatures ->
  NoDup (installed w) -> (forall p, p ∈ installed w -> is_Some (heap w !! p)) -> (length s < fuel)%nat ->
  features_loop fuel fd k f w = emptied w (send fd k (omap (fun p => heap w !! p) (omap id s))).
Proof.
  revert fuel w pre k f. induction s as [| o s IH]; intros fuel w pre k f E Hn Hs Hd Hl Hf; (destruct fuel as [| fuel]; [cbn in Hf; lia |]).
  - cbn [features_loop]. rewrite (st_bind_Ret _ _ _ _ _ (retrieve_at w pre [] f E Hs Hn)). cbn [first].
    destruct (decide _) as [_ | H]; [| destruct H; discriminate].
    rewrite (st_bind_Ret _ _ _ _ _ (reset_like w (at_slot w 0) eq_refl eq_refl (eq_trans (f_equal length E) Hs) Hd Hl)). reflexivity.
  - assert (Hs' : length ((pre ++ [o]) ++ s) = kMaxNumPPFeatures) by (by rewrite <- app_assoc).
    assert (El : length (pre ++ [o]) = S (length pre)) by (rewrite length_app; cbn; lia).
    destruct o as [p |].
    + cbn [features_loop]. rewrite (st_bind_Ret _ _ _ _ _ (retrieve_at w pre (Some p :: s) f E Hs Hn)). cbn [first].
      destruct (decide _) as [H | _]; [destruct H; reflexivity |].
      destruct (Hl p) as [x Hx]; [unfold installed; rewrite E, omap_app; apply elem_of_app; right; left |].
      rewrite (st_bind_Ret (object p) _ (at_slot w (S (length pre))) x (at_slot w (S (length pre))))
        by (unfold object; change (heap (at_slot w (S (length pre)))) with (heap w); by rewrite Hx).
      change (omap id (Some p :: s)) with (p :: omap id s). cbn [omap list_omap]. rewrite Hx. cbn [send].
      assert (Hnext : forall (v : V) k', features_loop fuel fd k' (Some p) ((at_slot w (S (length pre))) <| drv := v |>) =
        emptied (w <| drv := v |>) (send fd k' (omap (fun p => heap w !! p) (omap id s)))).
      { intros v k'. pose proof (IH fuel ((at_slot w (S (length pre))) <| drv := v |>) (pre ++ [Some p]) k' (Some p)) as H.
        rewrite El, <- app_assoc in H. rewrite (H E eq_refl Hs Hd Hl ltac:(cbn in Hf; lia)). reflexivity. }
      destruct (feature_id_ x <? kMaxNumPPFeatures).
      2: { specialize (Hnext (drv w) k). destruct w. exact Hnext. }
      destruct (features !! Z.to_nat (feature_id_ x)) as [i |]; [| reflexivity].
      unfold emptied. cbn [st_lift]. unfold mbind, st_bind, st_lift, in_drv.
      change (drv (at_slot w (S (length pre)))) with (drv w).
      destruct (MSMFB_MDP_PP fd (SetFeature i x k) (drv w)) as [[r v] | |]; [| reflexivity | reflexivity].
      destruct (r <? 0); [| apply Hnext].
      match goal with |- context [Reset ?x] => rewrite (reset_like w x eq_refl eq_refl (eq_trans (f_equal length E) Hs) Hd Hl) end. reflexivity.
    + pose proof (IH (S fuel) (at_slot w (S (length pre))) (pre ++ [None]) k f) as H. rewrite El, <- app_assoc in H.
      specialize (H E eq_refl Hs Hd Hl ltac:(cbn in Hf; lia)). etransitivity; [| exact H].
      pose proof (retrieve_at w pre (None :: s) f E Hs Hn) as Hw. pose proof (retrieve_at (at_slot w (S (length pre))) (pre ++ [None]) s f) as Hr.
      rewrite El, <- app_assoc in Hr. specialize (Hr E Hs eq_refl). cbn [first features_loop] in Hw |- *.
      destruct (first s (S (length pre))) as [[q j] |]; rewrite (st_bind_Ret _ _ _ _ _ Hw), (st_bind_Ret _ _ _ _ _ Hr); reflexivity.
Qed.

(** SetPPFeatures is [send] of the features of the list in their order, and returns whenever the
    driver does; afterwards the list is empty and clean and its objects, and no others, are
    deleted, whether the driver took them or not. *)
Lemma features_sent fd w : pp_ok w ->
  SetPPFeatures fd w = emptied w (send fd zeros (omap (fun p => heap w !! p) (installed w))).
Proof.
  intros [Hs Hn Hd Hl]. refine (loop_sends fd (S kMaxNumPPFeatures) w [] (feature_ (pp w)) zeros None eq_refl Hn Hs Hd Hl _). rewrite Hs. lia.
Qed.
Lemma others_stay w q : q ∉ installed w -> removed (installed w) (heap w) !! q = heap w !! q.
Proof. apply removed_ne. Qed.
Lemma installed_deleted l h q : q ∈ l -> removed l h !! q = None.
Proof.
  revert h. induction l as [| p l IH]; intros h Hq; [inversion Hq |]. change (removed (p :: l) h) with (removed l (delete p h)).
  destruct (decide (q ∈ l)) as [H | H]; [by apply IH |]. apply elem_of_cons in Hq as [-> | Hq]; [| done].
  rewrite removed_ne by exact H. apply lookup_delete_eq.
Qed.

(** ** The producer *)
Lemma put_in_slot pre o s (p : Z) : NoDup (omap id (pre ++ o :: s)) -> p ∉ omap id (pre ++ o :: s) ->
  NoDup (omap id (pre ++ Some p :: s)) /\ forall q, q ∈ omap id (pre ++ Some p :: s) -> q = p \/ (q ∈ omap id (pre ++ o :: s) /\ o <> Some q).
Proof.
  rewrite !omap_app. change (omap id (Some p :: s)) with (p :: omap id s). intros Hd Hp.
  assert (Ho : NoDup (omap id pre ++ omap id s) /\ (p ∉ omap id pre ++ omap id s) /\
    forall q, q ∈ omap id pre ++ omap id s -> q ∈ omap id pre ++ omap id (o :: s) /\ o <> Some q).
  { destruct o as [x |]; [| repeat split; [exact Hd | exact Hp | assumption | discriminate]].
    change (omap id (Some x :: s)) with (x :: omap id s) in *. rewrite <- Permutation_middle in Hd. rewrite <- Permutation_middle in Hp.
    apply NoDup_cons in Hd as [Hx Hd]. apply not_elem_of_cons in Hp as [_ Hp]. repeat split; [exact Hd | exact Hp | |].
    - rewrite <- Permutation_middle. by right.
    - intros [= ->]. contradiction. }
  destruct Ho as (Hd' & Hp' & Hq). split.
  - rewrite <- Permutation_middle. by apply NoDup_cons.
  - intros q. rewrite <- Permutation_middle. intros [-> | H]%elem_of_cons; [by left | right; by apply Hq].
Qed.
(** A new object in any slot keeps the list in order; the one that was there is deleted. *)
Lemma feature_added w n p : pp_ok w -> 0 <= n -> is_Some (heap w !! p) -> p ∉ installed w ->
  exists w', AddFeature n (Some p) w = Ret (kErrorNone, w') /\ pp_ok w' /\ drv w' = drv w /\
    feature_ (pp w') = (if n <? kMaxNumPPFeatures then <[Z.to_nat n := Some p]> (feature_ (pp w)) else feature_ (pp w)).
Proof.
  intros Hok Hid Hp Hni. unfold AddFeature. destruct (Z.ltb_spec n kMaxNumPPFeatures) as [Hlt |]; [| by exists w].
  assert (Hi : (Z.to_nat n < length (feature_ (pp w)))%nat) by (rewrite (ok_size w Hok); lia).
  destruct (lookup_lt_is_Some_2 _ _ Hi) as [o Ho]. destruct (list_elem_of_split_length _ _ _ Ho) as (pre & s & E & El).
  destruct w as [[d l i] h v]. destruct Hok as [Hs Hn Hd Hl]. unfold installed in *. cbn in *. subst l i. rewrite El in *.
  destruct (put_in_slot pre o s p Hd Hni) as [Hd' Hq].
  assert (Hput : forall x, <[length pre := Some p]> (pre ++ x :: s) = pre ++ Some p :: s)
    by (intros x; rewrite insert_app_r_alt by lia; by rewrite Nat.sub_diag).
  rewrite (st_bind_Ret (slot (length pre)) _ _ o _) by by eapply slot_at. rewrite Hput.
  exists (mkWorld (mkPp d (pre ++ Some p :: s) 0) (if o is Some x then delete x h else h) v). repeat split.
  - destruct o as [x |].
    + destruct (Hl x) as [f Hf]; [rewrite omap_app; apply elem_of_app; right; left |].
      unfold mbind, st_bind, delete_object, set_slot, pp_set, st_modify. cbn. rewrite Hf. cbn.
      rewrite !insert_app_r_alt by lia. rewrite Nat.sub_diag. reflexivity.
    + unfold mbind, st_bind, set_slot, pp_set, st_modify, mret, st_ret. cbn. rewrite insert_app_r_alt by lia. by rewrite Nat.sub_diag.
  - cbn. rewrite <- Hs, !length_app. reflexivity.
  - exact Hd'.
  - intros q [-> | [H1 H2]]%Hq; cbn.
    + destruct o as [x |]; [| exact Hp]. rewrite lookup_delete_ne; [exact Hp |]. intros ->. apply Hni. rewrite omap_app. apply elem_of_app. right. left.
    + destruct o as [x |]; [| by apply Hl]. rewrite lookup_delete_ne by congruence. by apply Hl.
Qed.
Lemma empty_ok h (v : V) : pp_ok (mkWorld new_PPFeaturesConfig h v).
Proof. split; [reflexivity | reflexivity | constructor | intros p H; inversion H]. Qed.

(** ** What the code does not prevent *)
(** Without PA dithering in the kernel's header its feature sends the parameters of the one before
    it again, or zeros. *)
Lemma pa_dither_resends fd k f : PA_DITHER = false -> feature_id_ f = 7 ->
  send fd k [f] = (r ← MSMFB_MDP_PP fd k; if r <? 0 then mret kErrorHardware else mret kErrorNone).
Proof. intros Hh Hf. cbn [send]. rewrite Hf. change (7 <? kMaxNumPPFeatures) with true.
  change (features !! Z.to_nat 7) with (Some kGlobalColorFeaturePADither). unfold SetFeature, SetPADither. rewrite Hh. reflexivity. Qed.
(** After Deinit a proxy that is still there cannot be destroyed: the library is closed. *)
Lemma destroyed_too_late {CL : ColorLib V} (s s' : Statics) c w (v v' : V) : destroy_intf_ s = true -> Proxy_Deinit s v = Ret (s', v') -> Destroy_proxy s' c w = Undef.
Proof.
  intros Hd H. unfold Proxy_Deinit, mbind, st_bind in H. destruct ((if color_lib_ s then lib_close else mret tt) v) as [[[] v1] | |]; try discriminate.
  injection H as <- _. unfold Destroy_proxy. cbn. rewrite Hd. reflexivity.
Qed.
End Steps.
End ColorProps.
