(* ===== verification/HwEvents.v ===== *)
(** The events of the frame buffer back end: src/hardware/qcom-caf/display/sdm/libs/core/fb/
    hw_events.cpp, with the creation in hw_events_interface.cpp.

    A thread polls the files of the events and hands what it reads to the display; its buffer
    is not cleared between reads.  The kernel, the threads and the display are the class
    [EventKernel].  Deinit and a turn of the thread are each one step. *)
From stdpp Require Import pretty.
From S2P Require Import Prelude ResourceDefault Strategy Cec FbPanel.
#[local] Open Scope Z_scope.

Module HwEvents.
Import ResourceDefault.
Abbreviation text := (list Z).

Inductive HWEvent := VSYNC | EXIT | IDLE_NOTIFY | SHOW_BLANK_EVENT | THERMAL_LEVEL | IDLE_POWER_COLLAPSE.
#[global] Instance HWEvent_eq_dec : EqDecision HWEvent.
Proof. solve_decision. Defined.
Inductive EventParser := HandleVSync_ | HandleIdleTimeout_ | HandleThreadExit_ | HandleBlank_ | HandleThermal_ | HandleIdlePowerCollapse_.
(** The calls of HWEventHandler. *)
Inductive HandlerCall := VSync (timestamp : Z) | IdleTimeout | ThermalEvent (thermal_level : Z) | IdlePowerCollapse.
Definition kMaxStringLength : nat := 1024.
Record HWEvents := mkEvents {
  event_list_ : list HWEvent; event_data_list_ : list (HWEvent * EventParser); poll_fds_ : list Cec.PollFd; event_thread_name_ : string;
  exit_threads_ : bool; fb_num_ : Z; exit_fd_ : Z
}.
#[global] Instance eta_events : Eta HWEvents := fun e =>
  mkEvents (event_list_ e) (event_data_list_ e) (poll_fds_ e) (event_thread_name_ e) (exit_threads_ e) (fb_num_ e) (exit_fd_ e).
Definition new_HWEvents : HWEvents := mkEvents [] [] [] "SDM_EventThread" false (-1) (-1).
Record World (V : Type) := mkWorld { obj : HWEvents; krn : V }.
Arguments mkWorld {V}.
Arguments obj {V}.
Arguments krn {V}.
#[global] Instance eta_world {V} : Eta (World V) := fun w => mkWorld (obj w) (krn w).
(** [ek_pread] and [ek_read]: none on an error. *)
Class EventKernel (V : Type) := {
  ek_eventfd : St V Z;
  ek_open : string -> St V Z;
  ek_pread : Z -> nat -> St V (option text);
  ek_read : Z -> nat -> St V (option text);
  ek_write : Z -> Z -> St V Z;
  ek_close : Z -> St V unit;
  ek_poll : list (Z * Z) -> St V (Z * list Z);      (* the result and revents *)
  pthread_create : St V Z;
  pthread_cancel : St V unit;
  pthread_join : St V unit;
  handler : HandlerCall -> St V unit
}.

(** ** strtoll with base 0 *)
Definition digit_value (c : Z) : option Z :=
  if Cec.is_digit c then Some (c - 48)
  else if (97 <=? c) && (c <=? 122) then Some (c - 87) else if (65 <=? c) && (c <=? 90) then Some (c - 55) else None.
(** The memory behind the buffer is not to be read. *)
Fixpoint digits (base : Z) (l : text) (acc : Z) : outcome Z :=
  match l with
  | [] => Undef
  | c :: l' => match digit_value c with Some d => if d <? base then digits base l' (acc * base + d) else Ret acc | None => Ret acc end
  end.
Definition is_hex (c : Z) : bool := match digit_value c with Some d => d <? 16 | None => false end.
Definition unsigned_number (l : text) : outcome Z :=
  match l with
  | 48 :: x :: l' =>
      if (x =? 120) || (x =? 88) then match l' with [] => Undef | h :: _ => if is_hex h then digits 16 l' 0 else Ret 0 end
      else digits 8 l 0
  | 48 :: [] => Undef
  | _ => digits 10 l 0
  end.
Definition LLONG_MAX : Z := 2 ^ 63 - 1.
Definition clamp (x : Z) : Z := Z.max (- LLONG_MAX - 1) (Z.min LLONG_MAX x).
Fixpoint strtoll (l : text) : outcome Z :=
  match l with
  | [] => Undef
  | c :: l' =>
      if Cec.is_space c then strtoll l'
      else if c =? 45 then x ← unsigned_number l'; Ret (clamp (- x))
      else if c =? 43 then x ← unsigned_number l'; Ret (clamp x)
      else x ← unsigned_number l; Ret (clamp x)
  end.

Section Events.
Context {V : Type} {EK : EventKernel V}.
Abbreviation M := (St (World V)).
Definition in_krn {A} (m : St V A) : M A := fun w =>
  match m (krn w) with Ret (a, v) => Ret (a, w <| krn := v |>) | Undef => Undef | NoFuel => NoFuel end.
Definition gets {A} (f : HWEvents -> A) : M A := st_gets (fun w => f (obj w)).
Definition upd (f : HWEvents -> HWEvents) : M unit := st_modify (fun w => w <| obj ::= f |>).

(** ** Creation *)
Definition map_event_to_node_ (e : HWEvent) : string :=
  match e with
  | VSYNC => "vsync_event" | EXIT => "thread_exit" | IDLE_NOTIFY => "idle_notify" | SHOW_BLANK_EVENT => "show_blank_event"
  | THERMAL_LEVEL => "msm_fb_thermal_level" | IDLE_POWER_COLLAPSE => "idle_power_collapse"
  end.
Definition fb_path_ : string := "/sys/devices/virtual/graphics/fb".
Definition InitializePollFd (e : HWEvent) : M Cec.PollFd :=
  '(fd, events) ← (if decide (e = EXIT) then
                     fd ← in_krn ek_eventfd; _ ← upd (fun o => o <| exit_fd_ := fd |>); mret (fd, Cec.POLLIN)
                   else
                     n ← gets fb_num_; fd ← in_krn (ek_open (fb_path_ +:+ pretty n +:+ "/" +:+ map_event_to_node_ e)%string);
                     mret (fd, Z.lor Cec.POLLPRI Cec.POLLERR));
  _ ← (if fd <? 0 then mret tt else _ ← in_krn (ek_pread fd kMaxStringLength); mret tt);
  mret (Cec.mkPollFd fd events 0).
Definition SetEventParser (e : HWEvent) : EventParser :=
  match e with
  | VSYNC => HandleVSync_ | IDLE_NOTIFY => HandleIdleTimeout_ | EXIT => HandleThreadExit_ | SHOW_BLANK_EVENT => HandleBlank_
  | THERMAL_LEVEL => HandleThermal_ | IDLE_POWER_COLLAPSE => HandleIdlePowerCollapse_
  end.
(** [poll_fds_] has a slot for each event. *)
Fixpoint populate (l : list HWEvent) (i : nat) : M unit :=
  match l with
  | [] => mret tt
  | e :: l =>
      p ← InitializePollFd e;
      _ ← upd (fun o => o <| poll_fds_ ::= <[i := p]> |> <| event_data_list_ ::= fun d => d ++ [(e, SetEventParser e)] |>);
      populate l (S i)
  end.
Definition PopulateHWEventData : M unit := l ← gets event_list_; populate l 0.
Definition Init (fb_num : Z) (event_handler : bool) (event_list : list HWEvent) : M DisplayError :=
  if negb event_handler then mret kErrorParameters
  else
    _ ← upd (fun o => o <| fb_num_ := fb_num |> <| event_list_ := event_list |>
               <| poll_fds_ ::= fun l => take (length event_list) l ++ replicate (length event_list - length l) (Cec.mkPollFd 0 0 0) |>
               <| event_thread_name_ ::= fun n => (n +:+ " - " +:+ pretty fb_num)%string |>);
    _ ← PopulateHWEventData;
    r ← in_krn pthread_create;
    mret (if r <? 0 then kErrorResources else kErrorNone).
Fixpoint close_all (l : list Cec.PollFd) : M unit :=
  match l with [] => mret tt | p :: l => _ ← in_krn (ek_close (Cec.pfd p)); close_all l end.
Definition Deinit : M DisplayError :=
  _ ← upd (fun o => o <| exit_threads_ := true |>);
  _ ← in_krn pthread_cancel;
  fd ← gets exit_fd_;
  _ ← in_krn (ek_write fd 1);
  _ ← in_krn pthread_join;
  l ← gets poll_fds_;
  _ ← close_all l;
  _ ← upd (fun o => o <| poll_fds_ ::= fmap (fun p => p <| Cec.pfd := -1 |>) |>);
  mret kErrorNone.

(** ** The thread *)
Definition HandleVSync (data : text) : M unit :=
  t ← (if FbPanel.named "VSYNC=" data then st_lift (strtoll (drop 6 data)) else mret 0); in_krn (handler (VSync t)).
Definition HandleThermal (data : text) : M unit :=
  t ← (if FbPanel.named "thermal_level=" data then st_lift (strtoll (drop 14 data)) else mret 0); in_krn (handler (ThermalEvent t)).
Definition event_parser (p : EventParser) (data : text) : M unit :=
  match p with
  | HandleVSync_ => HandleVSync data | HandleThermal_ => HandleThermal data | HandleIdleTimeout_ => in_krn (handler IdleTimeout)
  | HandleIdlePowerCollapse_ => in_krn (handler IdlePowerCollapse) | HandleBlank_ | HandleThreadExit_ => mret tt
  end.
(** What was read replaces the beginning of the buffer. *)
Definition overwrite (l data : text) : text := l ++ drop (length l) data.
Definition one_event (i : nat) (e : HWEvent) (data : text) : M text :=
  l ← gets poll_fds_;
  p ← st_lift (match l !! i with Some p => Ret p | None => Undef end);
  let bit := if decide (e = EXIT) then Cec.POLLIN else Cec.POLLPRI in
  if Z.land (Cec.revents p) bit =? 0 then mret data
  else
    r ← in_krn ((if decide (e = EXIT) then ek_read else ek_pread) (Cec.pfd p) kMaxStringLength);
    match r with
    | Some (c :: t) =>
        let data := overwrite (c :: t) data in
        d ← gets event_data_list_;
        x ← st_lift (match d !! i with Some x => Ret x | None => Undef end);
        _ ← event_parser (snd x) data; mret data
    | _ => mret data
    end.
Fixpoint all_events (l : list HWEvent) (i : nat) (data : text) : M text :=
  match l with [] => mret data | e :: l => data ← one_event i e data; all_events l (S i) data end.
(** A turn of DisplayEventHandler; [data] is its buffer. *)
Definition turn (data : text) : M text :=
  l ← gets poll_fds_;
  n ← gets (fun o => length (event_list_ o));
  '(error, rs) ← in_krn (ek_poll ((fun p => (Cec.pfd p, Cec.pevents p)) <$> take n l));
  if error <=? 0 then mret data
  else
    _ ← upd (fun o => o <| poll_fds_ := zip_with (fun p r => p <| Cec.revents := r |>) (take n l) rs ++ drop n l |>);
    es ← gets event_list_;
    all_events es 0 data.
Definition new_data : text := replicate kMaxStringLength 0.
(** [turns]: how often the thread goes round before it is told to exit; it is not bounded. *)
Fixpoint DisplayEventHandler (turns : nat) (data : text) : M unit :=
  gets exit_threads_ ≫= fun x : bool =>
  if x then mret tt
  else match turns with
       | O => (fun _ => NoFuel) : M unit
       | S n => turn data ≫= fun data => DisplayEventHandler n data
       end.

(** ** hw_events_interface.cpp, for the frame buffer driver *)
Definition Create (display_type : Z) (event_handler : bool) (event_list : list HWEvent) : M (DisplayError * bool) :=
  _ ← upd (fun _ => new_HWEvents);
  error ← Init display_type event_handler event_list;
  mret (error, bool_decide (error = kErrorNone)).
Definition Destroy (intf : bool) : M DisplayError := _ ← (if intf then _ ← Deinit; mret tt else mret tt); mret kErrorNone.
End Events.
End HwEvents.
