(* ===== verification/EventProps.v ===== *)
(** What the event thread hands to the display: one call for each event that is ready, in the
    order of the list, with the number of its own file. *)
From stdpp Require Import pretty.
From S2P Require Import Prelude ResourceDefault Strategy Cec CecProps FbPanel HwEvents.
#[local] Open Scope Z_scope.

Module EventProps.
Import ResourceDefault HwEvents.

(** ** Numbers *)
(** A number as the kernel prints it: digits, the first of them not a zero unless it is the
    only one. *)
Definition printed (ds : text) : Prop :=
  ds <> [] /\ Forall (fun c => Cec.is_digit c = true) ds /\ (ds = [48] \/ hd 0 ds <> 48) /\ CecProps.decimal ds <= LLONG_MAX.
Lemma digit_is c : Cec.is_digit c = true -> 48 <= c <= 57.
Proof. unfold Cec.is_digit. intros H. apply andb_prop in H as [H1 H2]. lia. Qed.
Lemma digits_run ds rest : Forall (fun c => Cec.is_digit c = true) ds -> forall acc,
  digits 10 (ds ++ 10 :: rest) acc = Ret (fold_left (fun n c => n * 10 + (c - 48)) ds acc).
Proof.
  induction 1 as [| c ds Hc Hds IH]; intros acc; [reflexivity |]. cbn [app digits fold_left]. unfold digit_value. rewrite Hc.
  apply digit_is in Hc. destruct (Z.ltb_spec (c - 48) 10); [apply IH | lia].
Qed.
Lemma decimal_pos ds acc : Forall (fun c => Cec.is_digit c = true) ds -> 0 <= acc -> 0 <= fold_left (fun n c => n * 10 + (c - 48)) ds acc.
Proof. intros H. revert acc. induction H as [| c ds Hc Hds IH]; intros acc Ha; [exact Ha |]. cbn [fold_left]. apply IH. apply digit_is in Hc. lia. Qed.
(** The number of a line does not depend on what the buffer holds behind its end. *)
Lemma number_of_line ds rest : printed ds -> strtoll (ds ++ 10 :: rest) = Ret (CecProps.decimal ds).
Proof.
  intros (Hne & Hd & Hz & Hm). pose proof (decimal_pos ds 0 Hd ltac:(lia)) as H0. fold (CecProps.decimal ds) in H0.
  assert (Hc : clamp (CecProps.decimal ds) = CecProps.decimal ds) by (unfold clamp, LLONG_MAX in *; lia).
  destruct Hz as [-> | Hz]; [reflexivity |]. destruct ds as [| c ds]; [done |]. cbn [hd] in Hz.
  pose proof (digits_run (c :: ds) rest Hd 0) as E. change (fold_left _ (c :: ds) 0) with (CecProps.decimal (c :: ds)) in E.
  apply Forall_cons in Hd as [Hc' _]. apply digit_is in Hc'. cbn [app strtoll].
  assert (Hsp : Cec.is_space c = false) by (unfold Cec.is_space; lia). rewrite Hsp.
  destruct (Z.eqb_spec c 45); [lia |]. destruct (Z.eqb_spec c 43); [lia |].
  assert (Hu : unsigned_number (c :: ds ++ 10 :: rest) = digits 10 (c :: ds ++ 10 :: rest) 0).
  { unfold unsigned_number. repeat match goal with |- context [match ?x with _ => _ end] => is_var x; destruct x end; try reflexivity; lia. }
  cbn [app] in E. rewrite Hu, E. unfold mbind, outcome_bind. by rewrite Hc.
Qed.

(** ** A turn *)
(** The files of the kernel: their names come before a number for two of the events. *)
Definition key (e : HWEvent) : text := match e with VSYNC => Cec.bytes "VSYNC=" | THERMAL_LEVEL => Cec.bytes "thermal_level=" | _ => [] end.
Definition line (e : HWEvent) (ds : text) : text := key e ++ ds ++ [10].
Definition call (e : HWEvent) (ds : text) : list HandlerCall :=
  match e with
  | VSYNC => [VSync (CecProps.decimal ds)] | THERMAL_LEVEL => [ThermalEvent (CecProps.decimal ds)] | IDLE_NOTIFY => [IdleTimeout]
  | IDLE_POWER_COLLAPSE => [IdlePowerCollapse] | EXIT | SHOW_BLANK_EVENT => []
  end.
Definition ready (e : HWEvent) (p : Cec.PollFd) : bool := negb (Z.land (Cec.revents p) (if decide (e = EXIT) then Cec.POLLIN else Cec.POLLPRI) =? 0).
Section Turn.
Context {V : Type} {EK : EventKernel V}.
(** What the files say and what the display was told; a call of it does not change the files. *)
Context (file : V -> Z -> text) (log : V -> list HandlerCall).
Context (Hread : forall fd v, (exists v', ek_pread fd kMaxStringLength v = Ret (Some (file v fd), v') /\ file v' = file v /\ log v' = log v) /\
                              exists v', ek_read fd kMaxStringLength v = Ret (Some (file v fd), v') /\ file v' = file v /\ log v' = log v).
Context (Hcall : forall c v, exists v', handler c v = Ret (tt, v') /\ file v' = file v /\ log v' = log v ++ [c]).
(** Each event with its file descriptor and its number. *)
Record Item := mkItem { ev : HWEvent; fds : Cec.PollFd; num : text }.
Definition item_ok (v : V) (i : Item) : Prop := printed (num i) /\ file v (Cec.pfd (fds i)) = line (ev i) (num i).
Definition told (i : Item) : list HandlerCall := if ready (ev i) (fds i) then call (ev i) (num i) else [].
Lemma named_app (s : string) (r : text) : FbPanel.named s (Cec.bytes s ++ r) = true.
Proof.
  apply bool_decide_eq_true. by rewrite take_app_length.
Qed.
Lemma parsed e ds data w : printed ds ->
  exists w', event_parser (SetEventParser e) (overwrite (line e ds) data) w = Ret (tt, w') /\ obj w' = obj w /\ file (krn w') = file (krn w) /\
    log (krn w') = log (krn w) ++ call e ds.
Proof.
  intros Hp.
  assert (Hh : forall c, exists w', in_krn (handler c) w = Ret (tt, w') /\ obj w' = obj w /\ file (krn w') = file (krn w) /\ log (krn w') = log (krn w) ++ [c]).
  { intros c. destruct (Hcall c (krn w)) as (v' & E & Ef & El). exists (w <| krn := v' |>). unfold in_krn. rewrite E. by repeat split. }
  unfold overwrite, line. rewrite <- !app_assoc. change ([10] ++ ?r) with (10 :: r).
  destruct e; cbn [SetEventParser event_parser call key];
    try (exists w; rewrite app_nil_r; by repeat split); try apply Hh.
  - unfold HandleVSync. rewrite named_app. cbn [Cec.bytes]. change (drop 6 (Cec.bytes "VSYNC=" ++ ?r)) with r.
    rewrite (st_bind_Ret _ _ w (CecProps.decimal ds) w) by (unfold st_lift; by rewrite number_of_line). apply Hh.
  - unfold HandleThermal. rewrite named_app. change (drop 14 (Cec.bytes "thermal_level=" ++ ?r)) with r.
    rewrite (st_bind_Ret _ _ w (CecProps.decimal ds) w) by (unfold st_lift; by rewrite number_of_line). apply Hh.
Qed.
Lemma event_handled pre i post data w : poll_fds_ (obj w) = fds <$> (pre ++ i :: post) ->
  event_data_list_ (obj w) = (fun i => (ev i, SetEventParser (ev i))) <$> (pre ++ i :: post) -> item_ok (krn w) i ->
  exists data' w', one_event (length pre) (ev i) data w = Ret (data', w') /\ obj w' = obj w /\ file (krn w') = file (krn w) /\
    log (krn w') = log (krn w) ++ told i.
Proof.
  intros Ep Ed [Hp Hf]. unfold one_event, gets. rewrite (st_bind_Ret _ _ w _ w eq_refl).
  rewrite (st_bind_Ret _ _ w (fds i) w) by (unfold st_lift; by rewrite Ep, list_lookup_fmap, list_lookup_middle).
  unfold told, ready. cbv zeta. destruct (Z.land _ _ =? 0); cbn [negb]; [exists data, w; rewrite app_nil_r; by repeat split |].
  assert (Hr : exists w', in_krn ((if decide (ev i = EXIT) then ek_read else ek_pread) (Cec.pfd (fds i)) kMaxStringLength) w =
    Ret (Some (line (ev i) (num i)), w') /\ obj w' = obj w /\ file (krn w') = file (krn w) /\ log (krn w') = log (krn w)).
  { rewrite <- Hf. destruct (Hread (Cec.pfd (fds i)) (krn w)) as [(v & E & E1 & E2) (v' & E' & E1' & E2')]. unfold in_krn.
    destruct (decide (ev i = EXIT)); [exists (w <| krn := v' |>); rewrite E' | exists (w <| krn := v |>); rewrite E]; by repeat split. }
  destruct Hr as (w1 & E1 & Eo & Ef & El). rewrite (st_bind_Ret _ _ _ _ _ E1).
  assert (Hl : exists c t, line (ev i) (num i) = c :: t).
  { destruct (line (ev i) (num i)) as [| c t] eqn:E; [| by exists c, t]. unfold line in E. apply app_eq_nil in E as [_ E]. by apply app_eq_nil in E as [_ E]. }
  destruct Hl as (c & t & Hl). rewrite Hl. cbv zeta. rewrite <- Hl. rewrite (st_bind_Ret _ _ w1 _ w1 eq_refl).
  rewrite (st_bind_Ret _ _ w1 (ev i, SetEventParser (ev i)) w1) by (unfold st_lift; by rewrite Eo, Ed, list_lookup_fmap, list_lookup_middle).
  destruct (parsed (ev i) (num i) data w1 Hp) as (w2 & E2 & Eo2 & Ef2 & El2). rewrite (st_bind_Ret _ _ _ _ _ E2).
  exists (overwrite (line (ev i) (num i)) data), w2. repeat split; congruence.
Qed.
(** The events that are ready are told in the order of the list, each with its number, whatever
    was in the buffer before; the others are not told. *)
Lemma events_told pre post data w : poll_fds_ (obj w) = fds <$> (pre ++ post) ->
  event_data_list_ (obj w) = (fun i => (ev i, SetEventParser (ev i))) <$> (pre ++ post) -> Forall (item_ok (krn w)) post ->
  exists data' w', all_events (ev <$> post) (length pre) data w = Ret (data', w') /\ obj w' = obj w /\ log (krn w') = log (krn w) ++ concat (told <$> post).
Proof.
  revert pre data w. induction post as [| i post IH]; intros pre data w Ep Ed Hok.
  { exists data, w. cbn. rewrite app_nil_r. by repeat split. }
  apply Forall_cons in Hok as [Hi Hok]. cbn [fmap list_fmap all_events concat].
  destruct (event_handled pre i post data w Ep Ed Hi) as (d1 & w1 & E1 & Eo & Ef & El). rewrite (st_bind_Ret _ _ _ _ _ E1).
  destruct (IH (pre ++ [i]) d1 w1) as (d2 & w2 & E2 & Eo2 & El2).
  - by rewrite Eo, Ep, <- app_assoc.
  - by rewrite Eo, Ed, <- app_assoc.
  - eapply Forall_impl; [exact Hok |]. intros x [H1 H2]. split; [exact H1 |]. by rewrite Ef.
  - rewrite length_app, Nat.add_1_r in E2. exists d2, w2. repeat split; [exact E2 | congruence |]. rewrite El2, El, <- app_assoc. reflexivity.
Qed.
Lemma turn_tells items data w n rs v : event_list_ (obj w) = ev <$> items -> length (poll_fds_ (obj w)) = length items ->
  event_data_list_ (obj w) = (fun i => (ev i, SetEventParser (ev i))) <$> items ->
  ek_poll ((fun p => (Cec.pfd p, Cec.pevents p)) <$> poll_fds_ (obj w)) (krn w) = Ret ((n, rs), v) -> 0 < n ->
  zip_with (fun p r => p <| Cec.revents := r |>) (poll_fds_ (obj w)) rs = fds <$> items -> Forall (item_ok v) items ->
  exists data' w', turn data w = Ret (data', w') /\ log (krn w') = log v ++ concat (told <$> items).
Proof.
  intros Ee Hl Ed Hp Hn Hz Hok. unfold turn, gets. rewrite (st_bind_Ret _ _ w _ w eq_refl).
  rewrite (st_bind_Ret _ _ w (length items) w) by (unfold st_gets; by rewrite Ee, length_fmap).
  rewrite take_ge, drop_ge by lia. rewrite (st_bind_Ret _ _ w (n, rs) (w <| krn := v |>)) by (unfold in_krn; by rewrite Hp).
  destruct (Z.leb_spec n 0); [lia |]. rewrite app_nil_r, Hz.
  rewrite (st_bind_Ret _ _ _ tt (w <| krn := v |> <| obj ::= fun o => o <| poll_fds_ := fds <$> items |> |>)) by reflexivity.
  rewrite (st_bind_Ret _ _ _ (ev <$> items) (w <| krn := v |> <| obj ::= fun o => o <| poll_fds_ := fds <$> items |> |>))
    by (unfold st_gets; by rewrite <- Ee).
  destruct (events_told [] items data (w <| krn := v |> <| obj ::= fun o => o <| poll_fds_ := fds <$> items |> |>)) as (d & w' & E & _ & El);
    [reflexivity | exact Ed | exact Hok |]. by exists d, w'.
Qed.
End Turn.

(** ** What the code does not prevent *)
Section Limits.
Context {V : Type} {EK : EventKernel V}.
(** The errors of pthread_create are positive: without a thread the events are created with
    success. *)
Lemma thread_error_lost fb_num l (w w' : World V) r v : 0 < r ->
  (_ ← upd (fun o => o <| fb_num_ := fb_num |> <| event_list_ := l |>
               <| poll_fds_ ::= fun p => take (length l) p ++ replicate (length l - length p) (Cec.mkPollFd 0 0 0) |>
               <| event_thread_name_ ::= fun n => (n +:+ " - " +:+ pretty fb_num)%string |>);
   PopulateHWEventData) w = Ret (tt, w') ->
  pthread_create (krn w') = Ret (r, v) -> exists w'', Init fb_num true l w = Ret (kErrorNone, w'').
Proof.
  intros Hr Hw Hc. exists (w' <| krn := v |>). cbn [Init negb]. unfold mbind, st_bind in Hw |- *. destruct (upd _ w) as [[[] w1] | |]; [| done | done].
  destruct (PopulateHWEventData w1) as [[[] w2] | |]; [| done | done]. injection Hw as ->. unfold in_krn. rewrite Hc.
  destruct (Z.ltb_spec r 0); [lia | reflexivity].
Qed.
(** A line without a number is read on into what the buffer held before. *)
Lemma stale_number : strtoll (drop 6 (overwrite (Cec.bytes "VSYNC=" ++ [10]) (Cec.bytes "VSYNC=1234" ++ [10]))) = Ret 234.
Proof. reflexivity. Qed.
End Limits.
End EventProps.
