(* ===== verification/CoreImpl.v ===== *)
(** The display core: core_impl.cpp, core_interface.cpp, hw_interface.cpp and
    hw_info_interface.cpp of src/hardware/qcom-caf/display/sdm/libs/core.

    The objects that were created and not yet destroyed are part of the state: to destroy one
    that is not there is undefined.  What the objects do in their own calls is the class
    [CoreParts]; their models are other files. *)
From stdpp Require Import pretty.
From S2P Require Import Prelude ResourceDefault Strategy FbPanel FbDevice HwInfo Wp.
#[local] Open Scope Z_scope.

Module CoreImpl.
Import ResourceDefault.

Inductive Object := OCore | OHwInfo | OExtension | ODisplay (ty : DisplayType) (n : Z) | OHw (ty : DisplayType).
#[global] Instance DisplayType_dec : EqDecision DisplayType.
Proof. solve_decision. Defined.
#[global] Instance Object_dec : EqDecision Object.
Proof. solve_decision. Defined.
Record CoreImpl := mkCore {
  hw_resource_ : HwInfo.HWResourceInfo; hw_info_intf_ : bool; extension_lib_ : bool; extension_intf_ : bool; create_extension_intf_ : bool;
  destroy_extension_intf_ : bool
}.
#[global] Instance eta_core : Eta CoreImpl := fun c =>
  mkCore (hw_resource_ c) (hw_info_intf_ c) (extension_lib_ c) (extension_intf_ c) (create_extension_intf_ c) (destroy_extension_intf_ c).
Definition new_CoreImpl : CoreImpl := mkCore HwInfo.HWResourceInfo0 false false false false false.
(** [displays]: how many were created. *)
Record World (V : Type) := mkWorld { g_core : option CoreImpl; live : list Object; displays : Z; parts : V }.
Arguments mkWorld {V}.
Arguments g_core {V}.
Arguments live {V}.
Arguments displays {V}.
Arguments parts {V}.
#[global] Instance eta_world {V} : Eta (World V) := fun w => mkWorld (g_core w) (live w) (displays w) (parts w).
Class CoreParts (V : Type) := {
  COMPILE_DRM : bool;
  sizeof_int : Z; sizeof_pointer : Z;
  cp_access : string -> St V Z;
  cp_ext_open : St V bool;
  cp_ext_sym : bool -> St V bool;                         (* the function that creates, or the one that destroys *)
  cp_ext_create : St V DisplayError;
  cp_ext_close : St V unit;
  cp_resource : HwInfo.HWResourceInfo -> St V (DisplayError * HwInfo.HWResourceInfo);
  cp_interface_type : St V (DisplayError * (bool * bool));
  cp_comp_init : HwInfo.HWResourceInfo -> bool -> St V DisplayError;
  cp_comp_deinit : St V unit;
  cp_bandwidth : Z -> St V DisplayError;
  cp_color_init : HwInfo.HWResourceInfo -> St V DisplayError;
  cp_color_deinit : St V unit;
  cp_display_init : DisplayType -> Z -> St V DisplayError;
  cp_display_deinit : DisplayType -> Z -> St V unit;
  cp_hw_init : DisplayType -> St V DisplayError;
  cp_hw_deinit : DisplayType -> St V unit
}.

Section Core.
Context {V : Type} {CP : CoreParts V}.
Abbreviation M := (St (World V)).
Definition in_parts {A} (m : St V A) : M A := fun w =>
  match m (parts w) with Ret (a, v) => Ret (a, w <| parts := v |>) | Undef => Undef | NoFuel => NoFuel end.
Definition acquire (o : Object) : M unit := st_modify (fun w => w <| live ::= cons o |>).
Fixpoint remove_first (o : Object) (l : list Object) : list Object :=
  match l with [] => [] | x :: l => if decide (x = o) then l else x :: remove_first o l end.
Definition release (o : Object) : M unit := fun w =>
  if bool_decide (o ∈ live w) then Ret (tt, w <| live ::= remove_first o |>) else Undef.
Definition set_core (c : option CoreImpl) : M unit := st_modify (fun w => w <| g_core := c |>).

(** ** hw_info_interface.cpp and hw_interface.cpp *)
Inductive DriverType := DRM | FB.
Definition GetDriverType : M DriverType :=
  r ← in_parts (cp_access "/sys/devices/virtual/graphics/fb0/mdp/caps"); mret (if r =? 0 then FB else DRM).
(** Whether there is an interface then. *)
Definition HWInfo_Create (intf : bool) : M (DisplayError * bool) :=
  t ← GetDriverType;
  match t with
  | FB => _ ← acquire OHwInfo; mret (kErrorNone, true)
  | DRM => if COMPILE_DRM then _ ← acquire OHwInfo; mret (kErrorNone, true) else mret (kErrorNone, intf)
  end.
Definition HWInfo_Destroy (intf : bool) : M DisplayError := _ ← (if intf then release OHwInfo else mret tt); mret kErrorNone.
Definition HWInterface_Create (type : DisplayType) : M (DisplayError * bool) :=
  t ← GetDriverType;
  let go := _ ← acquire (OHw type);
            error ← in_parts (cp_hw_init type);
            if decide (error <> kErrorNone) then _ ← release (OHw type); mret (error, false) else mret (error, true) in
  match type with
  | kPrimary => match t with FB => go | DRM => if COMPILE_DRM then go else st_undef end
  | kHDMI | kVirtual => match t with FB => go | DRM => mret (kErrorNotSupported, false) end
  | kDisplayMax => mret (kErrorUndefined, false)
  end.
Definition HWInterface_Destroy (type : DisplayType) (intf : bool) : M DisplayError :=
  _ ← (if intf then _ ← in_parts (cp_hw_deinit type); release (OHw type) else mret tt); mret kErrorNone.

(** ** core_impl.cpp *)
Definition CleanupOnError (error : DisplayError) (c : CoreImpl) : M (DisplayError * CoreImpl) := _ ← HWInfo_Destroy (hw_info_intf_ c); mret (error, c).
(** The extension library; an error ends Init. *)
Definition Init_extension (c : CoreImpl) : M (DisplayError * CoreImpl) :=
  o ← in_parts cp_ext_open;
  let c := c <| extension_lib_ := o |> in
  if negb o then mret (kErrorNone, c)
  else
    s ← in_parts (cp_ext_sym true);
    let c := c <| create_extension_intf_ := s |> in
    if negb s then mret (kErrorUndefined, c)
    else
      d ← in_parts (cp_ext_sym false);
      let c := c <| destroy_extension_intf_ := d |> in
      if negb d then mret (kErrorUndefined, c)
      else
        error ← in_parts cp_ext_create;
        if decide (error <> kErrorNone) then mret (error, c) else _ ← acquire OExtension; mret (kErrorNone, c <| extension_intf_ := true |>).
Definition Init (c : CoreImpl) : M (DisplayError * CoreImpl) :=
  '(error, c) ← Init_extension c;
  if decide (error <> kErrorNone) then mret (error, c)
  else
    '(error, i) ← HWInfo_Create (hw_info_intf_ c);
    let c := c <| hw_info_intf_ := i |> in
    if decide (error <> kErrorNone) then CleanupOnError error c
    else if negb i then mret (kErrorResources, c)
    else
      '(error, r) ← in_parts (cp_resource (hw_resource_ c));
      let c := c <| hw_resource_ := r |> in
      if decide (error <> kErrorNone) then CleanupOnError error c
      else
        error ← in_parts (cp_comp_init r (extension_intf_ c));
        if decide (error <> kErrorNone) then CleanupOnError error c
        else _ ← in_parts (cp_color_init r); mret (kErrorNone, c).
Definition Deinit (c : CoreImpl) : M DisplayError :=
  _ ← in_parts cp_color_deinit; _ ← in_parts cp_comp_deinit; _ ← HWInfo_Destroy (hw_info_intf_ c); mret kErrorNone.
(** The members are destroyed with the object: the library is closed. *)
Definition delete_core (c : CoreImpl) : M unit := _ ← (if extension_lib_ c then in_parts cp_ext_close else mret tt); release OCore.
Definition CreateDisplay (type : DisplayType) (event_handler intf : bool) : M (DisplayError * option Object) :=
  if negb event_handler || negb intf then mret (kErrorParameters, None)
  else
    match type with
    | kDisplayMax => mret (kErrorParameters, None)
    | _ =>
        n ← st_gets displays;
        _ ← st_modify (fun w => w <| displays := n + 1 |>);
        _ ← acquire (ODisplay type n);
        error ← in_parts (cp_display_init type n);
        if decide (error <> kErrorNone) then _ ← release (ODisplay type n); mret (error, None) else mret (kErrorNone, Some (ODisplay type n))
    end.
Definition DestroyDisplay (intf : option Object) : M DisplayError :=
  match intf with
  | Some (ODisplay type n) => _ ← in_parts (cp_display_deinit type n); _ ← release (ODisplay type n); mret kErrorNone
  | Some _ => st_undef
  | None => mret kErrorParameters
  end.
Definition SetMaxBandwidthMode (mode : Z) : M DisplayError := in_parts (cp_bandwidth mode).
Definition GetFirstDisplayInterfaceType (c : CoreImpl) : M (DisplayError * (bool * bool)) :=
  if hw_info_intf_ c then in_parts cp_interface_type else st_undef.
Definition IsColorTransformSupported (c : CoreImpl) : bool := negb (HwInfo.has_ppp (HwInfo.features (hw_resource_ c))).

(** ** core_interface.cpp *)
Definition GET_REVISION (version : Z) : Z := Z.shiftr version 16.
Definition GET_DATA_ALIGNMENT (version : Z) : Z := Z.land (Z.shiftr version 8) 0xFF.
Definition GET_INSTRUCTION_SET (version : Z) : Z := Z.land version 0xFF.
(** The size of SDMCompatibility: its two characters are each padded to an int. *)
Definition sizeof_SDMCompatibility : Z := 4 * sizeof_int.
Definition SDM_VERSION_TAG : Z := u32 (Z.lor (Z.lor (Z.shiftl 1 24) (Z.shiftl 0 16)) (Z.lor (Z.shiftl sizeof_SDMCompatibility 8) sizeof_pointer)).
Definition kRevision : Z := Z.lor (Z.shiftl 1 8) 0.
Definition CreateCore (debug_handler buffer_allocator buffer_sync_handler interface : bool) (client_version : Z) : M (DisplayError * bool) :=
  if negb debug_handler || negb buffer_allocator || negb buffer_sync_handler || negb interface then mret (kErrorParameters, false)
  else if GET_REVISION SDM_VERSION_TAG <? GET_REVISION client_version then mret (kErrorVersion, false)
  else if negb (GET_DATA_ALIGNMENT client_version =? GET_DATA_ALIGNMENT SDM_VERSION_TAG) then mret (kErrorDataAlignment, false)
  else if negb (GET_INSTRUCTION_SET client_version =? GET_INSTRUCTION_SET SDM_VERSION_TAG) then mret (kErrorInstructionSet, false)
  else
    g ← st_gets g_core;
    match g with
    | Some _ => mret (kErrorUndefined, false)
    | None =>
        if negb (GET_REVISION client_version =? kRevision) then mret (kErrorNotSupported, false)
        else
          _ ← acquire OCore;
          _ ← set_core (Some new_CoreImpl);
          '(error, c) ← Init new_CoreImpl;
          if decide (error <> kErrorNone) then _ ← delete_core c; _ ← set_core None; mret (error, false)
          else _ ← set_core (Some c); mret (kErrorNone, true)
    end.
Definition DestroyCore : M DisplayError :=
  g ← st_gets g_core;
  match g with
  | None => mret kErrorUndefined
  | Some c => _ ← Deinit c; _ ← delete_core c; _ ← set_core None; mret kErrorNone
  end.
End Core.
End CoreImpl.
