(* ===== verification/CoreProps.v ===== *)
(** The objects of the display core: at most one core with its hardware information, and what
    the calls that fail or destroy leave behind. *)
From S2P Require Import Prelude ResourceDefault Strategy FbPanel FbDevice HwInfo Wp CoreImpl.
#[local] Open Scope Z_scope.

Module CoreProps.
Import ResourceDefault CoreImpl.

(** ** Counting objects *)
Definition occ (o : Object) (l : list Object) : nat := length (List.filter (fun x => bool_decide (x = o)) l).
Lemma occ_cons o x l : occ o (x :: l) = ((if decide (x = o) then 1 else 0) + occ o l)%nat.
Proof. unfold occ. cbn [List.filter]. destruct (decide (x = o)); [rewrite bool_decide_true by done | rewrite bool_decide_false by done]; reflexivity. Qed.
Lemma occ_elem o l : (0 < occ o l)%nat -> o ∈ l.
Proof.
  induction l as [| x l IH]; rewrite ?occ_cons; [cbn; lia |]. destruct (decide (x = o)) as [-> | H]; [intros; left | intros; right; apply IH; lia].
Qed.
Lemma occ_remove o l : (0 < occ o l)%nat -> forall q, occ q (remove_first o l) = (occ q l - if decide (q = o) then 1 else 0)%nat.
Proof.
  induction l as [| x l IH]; intros Ho q; [cbn in Ho; lia |]. rewrite occ_cons in Ho. cbn [remove_first]. rewrite occ_cons.
  destruct (decide (x = o)) as [-> | Hx]; [destruct (decide (o = q)), (decide (q = o)); congruence || lia |].
  rewrite occ_cons, IH by lia. assert (Hq : q = o -> (0 < occ q l)%nat) by (intros ->; lia).
  destruct (decide (x = q)), (decide (q = o)); subst; try congruence; lia.
Qed.

(** ** The invariant *)
(** There is a core exactly when the pointer is set, and it has its hardware information. *)
Definition core_ok {V} (w : World V) : Prop :=
  match g_core w with
  | None => occ OCore (live w) = 0%nat /\ occ OHwInfo (live w) = 0%nat
  | Some c => hw_info_intf_ c = true /\ occ OCore (live w) = 1%nat /\ occ OHwInfo (live w) = 1%nat
  end.
Section Calls.
Context {V : Type} {CP : CoreParts V}.
(** The parts return. *)
Class PartsReturn : Prop := {
  pr_access p : total (cp_access p : St V _); pr_open : total (cp_ext_open : St V _); pr_sym b : total (cp_ext_sym b : St V _);
  pr_create : total (cp_ext_create : St V _); pr_close : total (cp_ext_close : St V _); pr_resource r : total (cp_resource r : St V _);
  pr_comp r b : total (cp_comp_init r b : St V _); pr_comp_deinit : total (cp_comp_deinit : St V _); pr_color r : total (cp_color_init r : St V _);
  pr_color_deinit : total (cp_color_deinit : St V _); pr_init t n : total (cp_display_init t n : St V _);
  pr_deinit t n : total (cp_display_deinit t n : St V _)
}.
Context {PR : PartsReturn}.
Implicit Types w : World V.
Lemma wp_parts {A} (m : St V A) (Q : A -> World V -> Prop) w : total m -> (forall a v, Q a (w <| parts := v |>)) -> wp (in_parts m) Q w.
Proof. intros Hm H. destruct (Hm (parts w)) as (a & v & E & _). exists a, (w <| parts := v |>). split; [unfold in_parts; by rewrite E | apply H]. Qed.
Lemma wp_acquire o (Q : unit -> World V -> Prop) w : Q tt (w <| live ::= cons o |>) -> wp (acquire o) Q w.
Proof. apply wp_modify. Qed.
Lemma wp_release o (Q : unit -> World V -> Prop) w : (0 < occ o (live w))%nat -> Q tt (w <| live ::= remove_first o |>) -> wp (release o) Q w.
Proof. intros H HQ. exists tt, (w <| live ::= remove_first o |>). split; [| exact HQ]. unfold release. by rewrite bool_decide_true by by apply occ_elem. Qed.

(** Init adds the extension and, if it succeeds, the hardware information; the rest stays. *)
Definition initialised w (r : DisplayError * CoreImpl) w' : Prop :=
  g_core w' = g_core w /\ displays w' = displays w /\ exists l, (l = [] \/ l = [OExtension]) /\
    (if decide (fst r = kErrorNone) then hw_info_intf_ (snd r) = true /\ live w' = OHwInfo :: l ++ live w else live w' = l ++ live w).
Lemma extension_init c w : hw_info_intf_ c = false ->
  wp (Init_extension c) (fun r w' => hw_info_intf_ (snd r) = false /\ g_core w' = g_core w /\ displays w' = displays w /\
    exists l, (l = [] \/ l = [OExtension]) /\ live w' = l ++ live w) w.
Proof.
  intros Hc. assert (Hsame : forall v, g_core (w <| parts := v |>) = g_core w /\ displays (w <| parts := v |>) = displays w /\
    exists l, (l = [] \/ l = [OExtension]) /\ live (w <| parts := v |>) = l ++ live w) by (intros v; repeat split; exists []; by split; [left |]).
  unfold Init_extension. wp_step. apply wp_parts; [apply pr_open | intros o v]. cbv zeta. destruct o; cbn [negb]; [| apply wp_ret; exact (conj Hc (Hsame v))].
  wp_step. apply wp_parts; [apply pr_sym | intros s v1]. cbv zeta. destruct s; cbn [negb]; [| apply wp_ret; exact (conj Hc (Hsame v1))].
  wp_step. apply wp_parts; [apply pr_sym | intros d v2]. cbv zeta. destruct d; cbn [negb]; [| apply wp_ret; exact (conj Hc (Hsame v2))].
  wp_step. apply wp_parts; [apply pr_create | intros e v3]. destruct (decide (e <> kErrorNone)); [apply wp_ret; exact (conj Hc (Hsame v3)) |].
  wp_step. apply wp_acquire, wp_ret. split; [exact Hc |]. repeat split. exists [OExtension]. split; [by right | reflexivity].
Qed.
Lemma info_created w : wp (HWInfo_Create false) (fun r w' => fst r = kErrorNone /\ g_core w' = g_core w /\ displays w' = displays w /\
  live w' = if snd r then OHwInfo :: live w else live w) w.
Proof.
  unfold HWInfo_Create, GetDriverType. wp_step. wp_step. apply wp_parts; [apply pr_access | intros r v]. apply wp_ret.
  assert (Hgo : wp (_ ← acquire OHwInfo; mret (kErrorNone, true) : St (World V) _) (fun r w' => fst r = kErrorNone /\ g_core w' = g_core w /\
    displays w' = displays w /\ live w' = if snd r then OHwInfo :: live w else live w) (w <| parts := v |>))
    by (wp_step; apply wp_acquire, wp_ret; repeat split).
  destruct (r =? 0); [exact Hgo |]. destruct COMPILE_DRM; [exact Hgo |]. apply wp_ret. repeat split.
Qed.
(** The hardware information that was created is destroyed again. *)
Lemma cleaned_up w w' e c l : e <> kErrorNone -> hw_info_intf_ c = true -> g_core w' = g_core w -> displays w' = displays w ->
  (l = [] \/ l = [OExtension]) -> live w' = OHwInfo :: l ++ live w -> wp (CleanupOnError e c) (initialised w) w'.
Proof.
  intros He Hi Hg Hn Hl Hw. unfold CleanupOnError, HWInfo_Destroy. rewrite Hi. wp_step. wp_step.
  apply wp_release; [rewrite Hw, occ_cons; destruct (decide (OHwInfo = OHwInfo)); [lia | done] |]. apply wp_ret, wp_ret.
  split; [exact Hg |]. split; [exact Hn |]. exists l. split; [exact Hl |]. cbn [fst]. rewrite decide_False by exact He.
  change (live (w' <| live ::= remove_first OHwInfo |>)) with (remove_first OHwInfo (live w')). rewrite Hw. cbn [remove_first].
  by rewrite decide_True.
Qed.
Lemma core_initialised c w : hw_info_intf_ c = false -> wp (Init c) (initialised w) w.
Proof.
  intros Hc. unfold Init. wp_step. eapply wp_mono; [by apply extension_init |]. intros [e c1] w1 (Hi & Hg & Hn & l & Hl & Hw). cbn [fst snd] in *.
  destruct (decide (e <> kErrorNone)) as [He | _].
  { apply wp_ret. split; [exact Hg |]. split; [exact Hn |]. exists l. split; [exact Hl |]. cbn [fst]. by rewrite decide_False. }
  wp_step. rewrite Hi. eapply wp_mono; [apply info_created |]. intros [e2 i] w2 (He2 & Hg2 & Hn2 & Hw2). cbn [fst snd] in *. subst e2. cbv zeta.
  destruct (decide (kErrorNone <> kErrorNone)); [done |]. destruct i; cbn [negb].
  2: { apply wp_ret. split; [congruence |]. split; [congruence |]. exists l. split; [exact Hl |]. cbn [fst]. rewrite decide_False by done. congruence. }
  wp_step. apply wp_parts; [apply pr_resource | intros [e3 r] v3]. cbv zeta.
  destruct (decide (e3 <> kErrorNone)); [eapply cleaned_up; [done | reflexivity | cbn; congruence | cbn; congruence | exact Hl | cbn; congruence] |].
  wp_step. apply wp_parts; [apply pr_comp | intros e4 v4].
  destruct (decide (e4 <> kErrorNone)); [eapply cleaned_up; [done | reflexivity | cbn; congruence | cbn; congruence | exact Hl | cbn; congruence] |].
  wp_step. apply wp_parts; [apply pr_color | intros e5 v5]. apply wp_ret. split; [cbn; congruence |]. split; [cbn; congruence |].
  exists l. split; [exact Hl |]. cbn [fst snd]. rewrite decide_True by done. split; [reflexivity | cbn; congruence].
Qed.
(** CreateCore leaves at most one core; when it fails all is as before except that an extension
    may have been created, which nothing destroys. *)
Lemma core_created a b d i version w : core_ok w ->
  wp (CreateCore a b d i version) (fun r w' => core_ok w' /\ (snd r = true <-> fst r = kErrorNone) /\ (snd r = true -> is_Some (g_core w')) /\
    (fst r <> kErrorNone -> g_core w' = g_core w /\ exists l, (l = [] \/ l = [OExtension]) /\ live w' = l ++ live w)) w.
Proof.
  intros Hok. assert (Hfail : forall e, e <> kErrorNone -> wp (mret (e, false) : St (World V) _) (fun r w' => core_ok w' /\
    (snd r = true <-> fst r = kErrorNone) /\ (snd r = true -> is_Some (g_core w')) /\
    (fst r <> kErrorNone -> g_core w' = g_core w /\ exists l, (l = [] \/ l = [OExtension]) /\ live w' = l ++ live w)) w).
  { intros e He. apply wp_ret. cbn [fst snd]. repeat split; try done. exists []. split; [by left | done]. }
  unfold CreateCore. destruct (_ || _ || _ || _); [by apply Hfail |]. do 3 (case_match; [by apply Hfail |]). wp_step. apply wp_gets.
  destruct (g_core w) as [c0 |] eqn:Eg; [by apply Hfail |]. case_match; [by apply Hfail |]. unfold core_ok in Hok. rewrite Eg in Hok.
  destruct Hok as [Hz0 Hz1]. wp_step. apply wp_acquire. wp_step. apply wp_modify. wp_step.
  eapply wp_mono; [by apply core_initialised |]. intros [e c] w1 (Hg & Hn & l & Hl & Hi). cbn [fst snd] in Hi.
  change (live _) with (OCore :: live w) in Hi at 2. change (live (_ <| g_core := _ |>)) with (OCore :: live w) in Hi.
  destruct (decide (e <> kErrorNone)) as [He | He].
  - rewrite decide_False in Hi by done. unfold delete_core. wp_step. wp_step.
    assert (Hocc : occ OCore (live w1) = 1%nat) by (rewrite Hi; destruct Hl as [-> | ->]; cbn [app]; rewrite ?occ_cons, Hz0; reflexivity).
    assert (Hrem : remove_first OCore (live w1) = l ++ live w) by (rewrite Hi; destruct Hl as [-> | ->]; reflexivity).
    assert (Hend : forall v, wp (release OCore) (fun _ w' => wp (_ ← set_core None; mret (e, false)) (fun r w' => core_ok w' /\
      (snd r = true <-> fst r = kErrorNone) /\ (snd r = true -> is_Some (g_core w')) /\ (fst r <> kErrorNone -> g_core w' = None /\
      exists l, (l = [] \/ l = [OExtension]) /\ live w' = l ++ live w)) w') (w1 <| parts := v |>)).
    { intros v. assert (Hpos : (0 < occ OCore (live w1))%nat) by lia. apply wp_release; [exact Hpos |]. wp_step. apply wp_modify, wp_ret. cbn [fst snd]. repeat split; try done.
      - cbn. rewrite Hrem. destruct Hl as [-> | ->]; cbn [app]; rewrite ?occ_cons; cbn; exact Hz0.
      - cbn. rewrite Hrem. destruct Hl as [-> | ->]; cbn [app]; rewrite ?occ_cons; cbn; exact Hz1.
      - exists l. split; [exact Hl | exact Hrem]. }
    destruct (extension_lib_ c); [apply wp_parts; [apply pr_close | intros [] v; apply Hend] | apply wp_ret]. specialize (Hend (parts w1)).
    by destruct w1.
  - assert (e = kErrorNone) as -> by (destruct (decide (e = kErrorNone)); [done | by destruct He]). rewrite decide_True in Hi by done. destruct Hi as [Hi Hw].
    wp_step. apply wp_modify, wp_ret. cbn [fst snd]. repeat split; try done.
    + change (live (w1 <| g_core := Some c |>)) with (live w1). rewrite Hw. destruct Hl as [-> | ->]; cbn [app]; rewrite !occ_cons, Hz0; reflexivity.
    + change (live (w1 <| g_core := Some c |>)) with (live w1). rewrite Hw. destruct Hl as [-> | ->]; cbn [app]; rewrite !occ_cons, Hz1; reflexivity.
Qed.
(** DestroyCore removes the core and its hardware information and nothing else. *)
Lemma core_destroyed w c : core_ok w -> g_core w = Some c ->
  wp DestroyCore (fun e w' => e = kErrorNone /\ core_ok w' /\ g_core w' = None /\ live w' = remove_first OCore (remove_first OHwInfo (live w))) w.
Proof.
  intros Hok Eg. unfold core_ok in Hok. rewrite Eg in Hok. destruct Hok as (Hi & Hc & Hh). unfold DestroyCore. wp_step. apply wp_gets. rewrite Eg.
  unfold Deinit, HWInfo_Destroy, delete_core. rewrite Hi. repeat wp_step.
  apply wp_parts; [apply pr_color_deinit | intros [] v]. wp_step. apply wp_parts; [apply pr_comp_deinit | intros [] v1]. repeat wp_step.
  assert (Hpos : (0 < occ OHwInfo (live w))%nat) by lia. apply wp_release; [exact Hpos |]. apply wp_ret, wp_ret.
  assert (Hr : forall q, occ q (remove_first OHwInfo (live w)) = (occ q (live w) - if decide (q = OHwInfo) then 1 else 0)%nat) by (apply occ_remove; lia).
  assert (Hcore : (0 < occ OCore (remove_first OHwInfo (live w)))%nat) by (rewrite Hr, Hc, decide_False by done; lia).
  assert (Hend : forall v, wp (release OCore) (fun _ w' => wp (_ ← set_core None; mret kErrorNone) (fun e w' => e = kErrorNone /\ core_ok w' /\
    g_core w' = None /\ live w' = remove_first OCore (remove_first OHwInfo (live w))) w') (w <| live := remove_first OHwInfo (live w) |> <| parts := v |>)).
  { intros v2. apply wp_release; [exact Hcore |]. wp_step. apply wp_modify, wp_ret. 
    split; [reflexivity |]. split; [| by split].
    split; (etransitivity; [exact (occ_remove _ _ Hcore _) |]); rewrite Hr, ?Hc, ?Hh; reflexivity. }
  repeat wp_step. destruct (extension_lib_ c); [apply wp_parts; [apply pr_close | intros [] v2; exact (Hend v2)] | apply wp_ret; exact (Hend v1)].
Qed.
(** A display that could not be initialised is deleted; the others and the core stay. *)
Lemma display_created type h i w : core_ok w ->
  wp (CreateDisplay type h i) (fun r w' => core_ok w' /\ g_core w' = g_core w /\
    match snd r with
    | Some d => fst r = kErrorNone /\ live w' = d :: live w
    | None => fst r <> kErrorNone /\ live w' = live w
    end) w.
Proof.
  intros Hok. unfold CreateDisplay. destruct (_ || _); [by apply wp_ret |].
  assert (Hgo : wp (n ← st_gets displays; _ ← st_modify (fun w => w <| displays := n + 1 |>); _ ← acquire (ODisplay type n);
    error ← in_parts (cp_display_init type n);
    if decide (error <> kErrorNone) then _ ← release (ODisplay type n); mret (error, None) else mret (kErrorNone, Some (ODisplay type n)))
    (fun r w' => core_ok w' /\ g_core w' = g_core w /\ match snd r with Some d => fst r = kErrorNone /\ live w' = d :: live w
      | None => fst r <> kErrorNone /\ live w' = live w end) w).
  { wp_step. apply wp_gets. wp_step. apply wp_modify. wp_step. apply wp_acquire. wp_step. apply wp_parts; [apply pr_init | intros e v].
    destruct (decide (e <> kErrorNone)) as [He | He].
    - wp_step. apply wp_release.
      { change (live _) with (ODisplay type (displays w) :: live w). rewrite occ_cons, decide_True by done. lia. }
      assert (El : remove_first (ODisplay type (displays w)) (ODisplay type (displays w) :: live w) = live w) by (cbn [remove_first]; by rewrite decide_True).
      apply wp_ret. split; [| split; [reflexivity | split; [exact He | exact El]]].
      unfold core_ok in *. cbn -[occ remove_first]. rewrite El. exact Hok.
    - apply wp_ret. split; [| repeat split]. unfold core_ok in *. cbn -[occ]. destruct (g_core w); rewrite !occ_cons; exact Hok. }
  destruct type; [exact Hgo | exact Hgo | exact Hgo | by apply wp_ret].
Qed.
(** A client of an older revision is refused, though it passes the test of the version. *)
Lemma older_client_refused version w : GET_REVISION version < GET_REVISION SDM_VERSION_TAG -> GET_REVISION version <> kRevision ->
  GET_DATA_ALIGNMENT version = GET_DATA_ALIGNMENT SDM_VERSION_TAG -> GET_INSTRUCTION_SET version = GET_INSTRUCTION_SET SDM_VERSION_TAG ->
  g_core w = None -> CreateCore true true true true version w = Ret ((kErrorNotSupported, false), w).
Proof.
  intros Hr Hk Ha Hs Hg. unfold CreateCore. cbn [negb orb]. rewrite (proj2 (Z.ltb_ge _ _)), Ha, Hs, !Z.eqb_refl by lia. cbn [negb].
  rewrite (st_bind_Ret (st_gets g_core) _ w None w) by (unfold st_gets; by rewrite Hg). by rewrite (proj2 (Z.eqb_neq _ _) Hk).
Qed.
(** With the driver of DRM and without its code the primary hardware is a null pointer. *)
Lemma no_driver w r v : COMPILE_DRM = false -> cp_access "/sys/devices/virtual/graphics/fb0/mdp/caps" (parts w) = Ret (r, v) -> r <> 0 ->
  HWInterface_Create kPrimary w = Undef.
Proof.
  intros Hd Ha Hr. unfold HWInterface_Create, GetDriverType, mbind, st_bind, in_parts. rewrite Ha, (proj2 (Z.eqb_neq _ _) Hr). cbn. by rewrite Hd.
Qed.
End Calls.
End CoreProps.
