(* ===== verification/Copybit.v ===== *)
(** The conversions of libcopybit between layouts of YUV images:
    src/hardware/qcom-caf/display/libcopybit/software_converter.cpp, with the routine in C of
    convertYV12toYCrCb420SP (a 32 bit ARM build has assembly for an image without padding).

    The memory of a buffer is a list of bytes; an access outside of it is undefined.  The
    buffer that is written is the state.  The formats are numbers of the platform, of which
    [hal_format] is the meaning. *)
From S2P Require Import Prelude GrUtils.
#[local] Open Scope Z_scope.

Module Copybit.
Import GrUtils.

(** ** Memory *)
Abbreviation M := (St (list Z)).
Definition load (m : list Z) (i : Z) : outcome Z := if i <? 0 then Undef else match m !! Z.to_nat i with Some b => Ret b | None => Undef end.
Definition store (i b : Z) : M unit := fun m =>
  if (0 <=? i) && (i <? length m) then Ret (tt, <[Z.to_nat i := b]> m) else Undef.
(** [n] bytes from [s] of [src] to [d]. *)
Definition memcpy (d : Z) (src : list Z) (s n : Z) : M unit := fun m =>
  if (0 <=? n) && (0 <=? s) && (s + n <=? length src) && (0 <=? d) && (d + n <=? length m)
  then Ret (tt, take (Z.to_nat d) m ++ take (Z.to_nat n) (drop (Z.to_nat s) src) ++ drop (Z.to_nat (d + n)) m) else Undef.

(** ** Data *)
Record copybit_image_t := mkImage { img_w : Z; img_h : Z; img_format : Z; horiz_padding : Z }.
Definition COPYBIT_SUCCESS : Z := 0.
Definition COPYBIT_FAILURE : Z := -1.
(** The macro on unsigned int, and on int. *)
Definition ALIGN_u (x y : Z) : Z := Z.land (u32 (u32 (x + y) - 1)) (u32 (Z.lnot (u32 (y - 1)))).
Definition ALIGN_s (x y : Z) : outcome Z := a ← int_expr (x + y); b ← int_expr (a - 1); Ret (Z.land b (Z.lnot (y - 1))).

(** ** convertYV12toYCrCb420SP *)
(** Without padding: [n] pairs are left, [i] were copied. *)
Fixpoint interleave (src : list Z) (new_chroma old_chroma chroma_size : Z) (n : nat) (i : Z) : M unit :=
  match n with
  | O => mret tt
  | S n =>
      a ← st_lift (load src (old_chroma + i)); _ ← store (new_chroma + u32 (i * 2)) a;
      b ← st_lift (load src (old_chroma + u32 (i + chroma_size / 2))); _ ← store (new_chroma + u32 (i * 2 + 1)) b;
      interleave src new_chroma old_chroma chroma_size n (i + 1)
  end.
(** With padding: rows [r1] and [r2], columns [i] and [j]. *)
Fixpoint rows (fuel : nat) (src : list Z) (new_chroma old_chroma width height c_width c_size r1 r2 i j : Z) : M unit :=
  if r1 <? height / 2 then
    match fuel with
    | O => fun _ => NoFuel
    | S fuel =>
        if j =? width then rows fuel src new_chroma old_chroma width height c_width c_size r1 (u32 (r2 + 1)) i 0
        else
          '(r2, j) ← (if u32 (j + 1) =? width then
                        a ← st_lift (load src (old_chroma + u32 (r1 * c_width + i))); _ ← store (new_chroma + u32 (r2 * width + j)) a;
                        b ← st_lift (load src (old_chroma + u32 (r1 * c_width + i + c_size)));
                        _ ← store (new_chroma + u32 (u32 (r2 + 1) * width)) b; mret (u32 (r2 + 1), 1)
                      else
                        a ← st_lift (load src (old_chroma + u32 (r1 * c_width + i))); _ ← store (new_chroma + u32 (r2 * width + j)) a;
                        b ← st_lift (load src (old_chroma + u32 (r1 * c_width + i + c_size)));
                        _ ← store (new_chroma + u32 (r2 * width + j + 1)) b; mret (r2, u32 (j + 2)));
          let i := u32 (i + 1) in
          if i =? width / 2 then rows fuel src new_chroma old_chroma width height c_width c_size (u32 (r1 + 1)) r2 0 j
          else rows fuel src new_chroma old_chroma width height c_width c_size r1 r2 i j
    end
  else mret tt.
(** A turn for each pair and at most one more between two of them. *)
Definition rows_fuel (width height : Z) : nat := S (2 * Z.to_nat (height / 2 * (width / 2))).
(** [hnd]: the memory of the image, none for a null handle; [yv12]: whether there is a handle to
    write to. *)
Definition convertYV12toYCrCb420SP (src : copybit_image_t) (hnd : option (list Z)) (yv12 : bool) : M Z :=
  match hnd with
  | Some mem =>
      if yv12 then
        let stride := img_w src in
        let width := u32 (img_w src - horiz_padding src) in
        let height := img_h src in
        let y_size := u32 (stride * img_h src) in
        let c_width := ALIGN_u (stride / 2) 16 in
        let c_size := u32 (c_width * img_h src) / 2 in
        let chromaPadding := u32 (c_width - width / 2) in
        let chromaSize := u32 (c_size * 2) in
        _ ← memcpy 0 mem 0 y_size;
        _ ← (if chromaPadding =? 0 then interleave mem y_size y_size chromaSize (Z.to_nat (chromaSize / 2)) 0 else mret tt);
        _ ← (if chromaPadding =? 0 then mret tt else rows (rows_fuel width height) mem y_size y_size width height c_width c_size 0 0 0 0);
        mret 0
      else mret (-1)
  | None => mret (-1)
  end.

(** ** The copies *)
Record copyInfo := mkCopy { ci_width : Z; ci_height : Z; src_stride : Z; dst_stride : Z; src_plane1_offset : Z; dst_plane1_offset : Z }.
(** [n] rows of [len] bytes. *)
Fixpoint copy_rows (n : nat) (src : list Z) (len src_stride dst_stride s d : Z) : M unit :=
  match n with O => mret tt | S n => _ ← memcpy d src s len; copy_rows n src len src_stride dst_stride (s + src_stride) (d + dst_stride) end.
(** [src]: none when the address is null; [dst]: whether that of the destination is not. *)
Definition copy_source_to_destination (src : option (list Z)) (dst : bool) (info : copyInfo) : M Z :=
  match src with
  | Some mem =>
      if dst then
        _ ← copy_rows (Z.to_nat (ci_height info)) mem (ci_width info) (src_stride info) (dst_stride info) 0 0;
        _ ← copy_rows (Z.to_nat (Z.quot (ci_height info) 2)) mem (src_stride info) (src_stride info) (dst_stride info)
              (src_plane1_offset info) (dst_plane1_offset info);
        mret 0
      else mret COPYBIT_FAILURE
  | None => mret COPYBIT_FAILURE
  end.
Section Convert.
Context {PL : Platform}.
(** The offset of the second plane; none for another format. *)
Definition plane1_offset (format stride height : Z) : outcome (option Z) :=
  match hal_format format with
  | HAL_PIXEL_FORMAT_YCbCr_420_SP | HAL_PIXEL_FORMAT_YCrCb_420_SP => o ← int_expr (stride * height); Ret (Some o)
  | HAL_PIXEL_FORMAT_NV12_ENCODEABLE => o ← int_expr (stride * height); o ← ALIGN_s o 2048; Ret (Some o)
  | _ => Ret None
  end.
Definition convert (ss ds : Z) (src : option (list Z)) (dst : option bool) (rhs : copybit_image_t) : M Z :=
  s ← st_lift (plane1_offset (img_format rhs) ss (s32 (img_h rhs)));
  match s with
  | None => mret COPYBIT_FAILURE
  | Some s =>
      d ← st_lift (plane1_offset (img_format rhs) ds (s32 (img_h rhs)));
      match d with
      | None => mret COPYBIT_FAILURE
      | Some d =>
          match dst with
          | Some dst => copy_source_to_destination src dst (mkCopy (s32 (img_w rhs)) (s32 (img_h rhs)) ss ds (u64 s) (u64 d))
          | None => st_undef
          end
      end
  end.
(** [hnd]: none for a null pointer, else the memory, if any, and the width of the handle; [dst]:
    none for an image without handle, else whether its address is not null. *)
Definition convert_yuv_c2d_to_yuv_android (hnd : option (option (list Z) * Z)) (dst : option bool) (rhs : option copybit_image_t) : M Z :=
  match hnd, rhs with
  | Some (src, _), Some rhs =>
      ss ← st_lift (ALIGN_s (s32 (img_w rhs)) 32); ds ← st_lift (ALIGN_s (s32 (img_w rhs)) 16); convert ss ds src dst rhs
  | _, _ => mret COPYBIT_FAILURE
  end.
Definition convert_yuv_android_to_yuv_c2d (hnd : option (option (list Z) * Z)) (dst : option bool) (rhs : option copybit_image_t) : M Z :=
  match hnd, rhs with
  | Some (src, width), Some rhs =>
      ss ← st_lift (ALIGN_s width 16); ds ← st_lift (ALIGN_s (s32 (img_w rhs)) 32); convert ss ds src dst rhs
  | _, _ => mret COPYBIT_FAILURE
  end.
End Convert.
End Copybit.
