(* ===== verification/CopyProps.v ===== *)
(** The conversion of a YV12 image interleaves its two planes of colour, with and without
    padding, and what the copies between the layouts of C2D and Android do. *)
From S2P Require Import Prelude GrUtils Copybit.
#[local] Open Scope Z_scope.

Module CopyProps.
Import GrUtils GrFacts Copybit.

(** ** Memory *)
Lemma load_nth m i : 0 <= i < length m -> load m i = Ret (nth (Z.to_nat i) m 0).
Proof.
  intros H. unfold load. destruct (Z.ltb_spec i 0); [lia |]. destruct (lookup_lt_is_Some_2 m (Z.to_nat i)) as [b Hb]; [lia |].
  rewrite Hb. by rewrite (nth_lookup_Some _ _ _ _ Hb).
Qed.
Lemma store_at pre x rest (i b : Z) : i = Z.of_nat (length pre) -> store i b (pre ++ x :: rest) = Ret (tt, pre ++ b :: rest).
Proof.
  intros ->. unfold store. rewrite length_app. cbn [length]. destruct (Z.leb_spec 0 (length pre)); [| lia].
  destruct (Z.ltb_spec (length pre) (length pre + S (length rest))%nat); [| lia]. cbn [andb]. rewrite Nat2Z.id, insert_app_r_alt by lia.
  by rewrite Nat.sub_diag.
Qed.
Lemma u32_id x : 0 <= x < 2 ^ 32 -> u32 x = x.
Proof. intros H. unfold u32. by apply Z.mod_small. Qed.
Section Interleave.
(** An image: its memory [src], the size [y] of the luma, [cw] bytes in a row of a colour plane of
    [cs] bytes, and [W] of them used in each of the [H2] rows. *)
Context (src : list Z) (y cw cs W H2 : Z).
Context (Hy : 0 <= y) (HW : 1 <= W <= cw) (HH : 0 <= H2) (Hcs : cs = cw * H2) (Hlen : y + 2 * cs <= length src) (Hbig : 2 * cs + y < 2 ^ 31).
Lemma used_le : H2 * W <= cs.
Proof. subst cs. rewrite (Z.mul_comm cw). apply Z.mul_le_mono_nonneg_l; lia. Qed.
(** Where pair [k] is in a plane, and its two bytes. *)
Definition place (k : Z) : Z := k / W * cw + k mod W.
Definition pair (k : nat) : list Z := [nth (Z.to_nat (y + place k)) src 0; nth (Z.to_nat (y + place k + cs)) src 0].
Definition pairs (n : nat) : list Z := concat (pair <$> seq 0 n).
Lemma pairs_length n : length (pairs n) = (2 * n)%nat.
Proof. unfold pairs. induction n as [| n IH]; [reflexivity |]. rewrite seq_S, fmap_app, concat_app, length_app, IH. cbn. lia. Qed.
Lemma pairs_S n : pairs (S n) = pairs n ++ pair n.
Proof. unfold pairs. rewrite seq_S, fmap_app, concat_app. reflexivity. Qed.
Lemma pairs_lookup n k : (k < n)%nat -> pairs n !! (2 * k)%nat = pair k !! 0%nat /\ pairs n !! (2 * k + 1)%nat = pair k !! 1%nat.
Proof.
  induction n as [| n IH]; intros Hk; [lia |]. rewrite pairs_S. destruct (decide (k = n)) as [-> | Hne].
  - rewrite !lookup_app_r by (rewrite pairs_length; lia). rewrite pairs_length. split; f_equal; lia.
  - rewrite !lookup_app_l by (rewrite pairs_length; lia). apply IH. lia.
Qed.
Lemma place_range k : 0 <= k < H2 * W -> 0 <= place k /\ place k + 1 <= cs.
Proof.
  intros Hk. unfold place. pose proof (Z.div_mod k W ltac:(lia)) as E. pose proof (Z.mod_pos_bound k W ltac:(lia)).
  assert (0 <= k / W) by (apply Z.div_pos; lia). assert (k / W <= H2 - 1) by (apply Z.lt_le_pred, Z.div_lt_upper_bound; nia). nia.
Qed.
(** The buffer with [n] pairs written: the luma [P], the pairs, and what was there. *)
Context (P D : list Z) (HP : length P = Z.to_nat y) (HD : 2 * (H2 * W) <= length D).
Definition written (n : nat) : list Z := P ++ pairs n ++ drop (2 * n) D.
Lemma store_pair (n : nat) (a b i j : Z) : pair n = [a; b] -> n < H2 * W -> i = y + 2 * n -> j = i + 1 ->
  (store i a ≫= fun _ => store j b) (written n) = Ret (tt, written (S n)).
Proof.
  intros Ep Hn -> ->. unfold written.
  assert (HD' : exists u v, drop (2 * n) D = u :: v :: drop (2 * S n) D).
  { destruct (lookup_lt_is_Some_2 D (2 * n)) as [u Hu]; [lia |]. destruct (lookup_lt_is_Some_2 D (S (2 * n))) as [v Hv]; [lia |].
    exists u, v. rewrite (drop_S _ _ _ Hu), (drop_S _ _ _ Hv). do 3 f_equal. lia. }
  destruct HD' as (u & v & ->). rewrite app_assoc.
  rewrite (st_bind_Ret _ _ _ tt ((P ++ pairs n) ++ a :: v :: drop (2 * S n) D)) by (apply store_at; rewrite length_app, pairs_length; lia).
  replace ((P ++ pairs n) ++ a :: v :: drop (2 * S n) D) with (((P ++ pairs n) ++ [a]) ++ v :: drop (2 * S n) D) by (by rewrite <- !app_assoc).
  rewrite store_at by (rewrite !length_app, pairs_length; cbn; lia). rewrite pairs_S, Ep, <- !app_assoc. reflexivity.
Qed.
(** ** Without padding *)
Lemma interleave_pairs k n i : cw = W -> i = Z.of_nat n -> Z.of_nat (n + k) = H2 * W ->
  interleave src y y (2 * cs) k i (written n) = Ret (tt, written (n + k)).
Proof.
  intros Hcw. revert n i. induction k as [| k IH]; intros n i -> Hk; [by rewrite Nat.add_0_r |]. cbn [interleave].
  assert (Hc : cs = H2 * W) by lia. assert (Hpl : place n = n) by (unfold place; rewrite Hcw; pose proof (Z.div_mod n W ltac:(lia)); lia).
  replace (2 * cs / 2) with cs by (rewrite Z.mul_comm, Z.div_mul by lia; reflexivity).
  rewrite !u32_id by lia. rewrite !load_nth by lia.
  pose proof (store_pair n _ _ (y + n * 2) (y + (n * 2 + 1)) eq_refl ltac:(lia) ltac:(lia) ltac:(lia)) as E. rewrite Hpl in E.
  unfold st_lift, mbind, st_bind in E |- *. replace (y + (n + cs)) with (y + n + cs) by lia.
  destruct (store (y + n * 2) _ _) as [[[] m] | |]; [| done | done]. rewrite E.
  replace (n + S k)%nat with (S n + k)%nat by lia. apply IH; lia.
Qed.

(** ** With padding *)
Context (width height : Z) (Hwid : W = width / 2) (Hhei : H2 = height / 2) (Hww : 2 <= width < 2 ^ 30).
Lemma rows_pairs (fuel : nat) (r1 r2 i j : Z) (n : nat) : 0 <= r1 <= H2 -> 0 <= i < W -> (r1 = H2 -> i = 0) -> r1 * W + i = Z.of_nat n -> 0 <= r2 -> 0 <= j <= width ->
  r2 * width + j = 2 * n -> 2 * (H2 * W - n) <= fuel + (if j =? width then 0 else 1) ->
  rows fuel src y y width height cw cs r1 r2 i j (written n) = Ret (tt, written (Z.to_nat (H2 * W))).
Proof.
  revert r1 r2 i j n. induction fuel as [| fuel IH]; intros r1 r2 i j n Hr1 Hi Hend Hn Hr2 Hj Hflat Hf; cbn [rows]; rewrite <- Hhei;
    (destruct (Z.ltb_spec r1 H2) as [Hlt |]; [| replace (Z.to_nat (H2 * W)) with n by (assert (r1 = H2) by lia; nia); reflexivity]).
  { destruct (j =? width); nia. }
  pose proof used_le as HK. assert (Hlast : n < H2 * W) by nia. assert (Hr2n : r2 <= 2 * n) by nia. assert (H2s : H2 <= cs) by (rewrite <- (Z.mul_1_r H2); etransitivity; [apply (Z.mul_le_mono_nonneg_l 1 W) |]; lia).
  destruct (Z.eqb_spec j width) as [-> | Hjw].
  { rewrite u32_id by lia. apply IH; try lia. destruct (Z.eqb_spec 0 width); lia. }
  assert (Hpl : place n = r1 * cw + i).
  { unfold place. rewrite <- Hn. replace (r1 * W + i) with (i + r1 * W) by lia. rewrite Z.div_add, Z.mod_add, Z.div_small, Z.mod_small by lia. lia. }
  pose proof (place_range n ltac:(lia)) as [Hp0 Hp1]. rewrite Hpl in Hp0, Hp1.
  assert (Hnext : forall r2' j', 0 <= r2' -> 0 <= j' <= width -> r2' * width + j' = 2 * (n + 1) ->
    (if u32 (i + 1) =? width / 2 then rows fuel src y y width height cw cs (u32 (r1 + 1)) r2' 0 j'
     else rows fuel src y y width height cw cs r1 r2' (u32 (i + 1)) j') (written (S n)) = Ret (tt, written (Z.to_nat (H2 * W)))).
  { intros r2' j' Hr Hj' Hfl. rewrite <- Hwid, !u32_id by lia. assert (2 * (H2 * W - S n) <= fuel + (if j' =? width then 0 else 1))
      by (destruct (j' =? width); lia). destruct (Z.eqb_spec (i + 1) W); apply IH; try lia; nia. }
  assert (Hld : forall x, x = place n -> load src (y + u32 x) = Ret (nth (Z.to_nat (y + place n)) src 0) /\
    load src (y + u32 (x + cs)) = Ret (nth (Z.to_nat (y + place n + cs)) src 0)).
  { intros x ->. rewrite Hpl, !u32_id, !load_nth by lia. split; [reflexivity |]. do 3 f_equal. lia. }
  destruct (Hld (r1 * cw + i) (eq_sym Hpl)) as [L1 L2]. rewrite (u32_id (j + 1)) by lia.
  assert (Hst : forall i2, i2 = y + 2 * n + 1 -> (store (y + u32 (r2 * width + j)) (nth (Z.to_nat (y + place n)) src 0) ≫=
    fun _ => store i2 (nth (Z.to_nat (y + place n + cs)) src 0)) (written n) = Ret (tt, written (S n))).
  { intros i2 ->. apply store_pair; [reflexivity | lia | rewrite u32_id by lia; lia | rewrite u32_id by lia; lia]. }
  destruct (Z.eqb_spec (j + 1) width) as [Hj1 | Hj1].
  - assert (Hrn : u32 (u32 (r2 + 1) * width) = 2 * n + 1) by (rewrite (u32_id (r2 + 1)) by lia; rewrite u32_id; nia).
    specialize (Hst (y + u32 (u32 (r2 + 1) * width)) ltac:(lia)). unfold mbind, st_bind, st_lift in Hst |- *. rewrite L1, L2.
    destruct (store _ _ (written n)) as [[[] m] | |]; [| done | done]. rewrite Hst. unfold mret, st_ret. cbv zeta beta iota.
    apply Hnext; rewrite ?(u32_id (r2 + 1)) by lia; lia.
  - specialize (Hst (y + u32 (r2 * width + j + 1)) ltac:(rewrite u32_id; lia)). unfold mbind, st_bind, st_lift in Hst |- *. rewrite L1, L2.
    destruct (store _ _ (written n)) as [[[] m] | |]; [| done | done]. rewrite Hst. unfold mret, st_ret. cbv zeta beta iota.
    apply Hnext; rewrite ?(u32_id (j + 2)) by lia; lia.
Qed.
End Interleave.

(** ** The conversion *)
Lemma ALIGN_u_16 x : 0 <= x < 2 ^ 31 -> ALIGN_u x 16 = align_up 16 x.
Proof.
  intros Hx. unfold ALIGN_u. rewrite (u32_id (x + 16)), (u32_id (x + 16 - 1)) by lia. change (u32 (16 - 1)) with (2 ^ 4 - 1).
  rewrite land_wrap by lia. exact (align_up_clear 4 x ltac:(lia)).
Qed.
Lemma memcpy_start n src dst : 0 <= n <= length src -> n <= length dst ->
  memcpy 0 src 0 n dst = Ret (tt, take (Z.to_nat n) src ++ drop (Z.to_nat n) dst).
Proof.
  intros Hs Hd. unfold memcpy. rewrite !(proj2 (Z.leb_le _ _)) by lia. reflexivity.
Qed.
(** What the conversion makes of an image in [mem]: the luma, the pairs, and the rest of [dst]. *)
Definition converted (img : copybit_image_t) (mem dst : list Z) : list Z :=
  let y := img_w img * img_h img in
  let cw := align_up 16 (img_w img / 2) in
  let W := (img_w img - horiz_padding img) / 2 in
  let n := Z.to_nat (img_h img / 2 * W) in
  take (Z.to_nat y) mem ++ pairs mem y cw (cw * (img_h img / 2)) W n ++ drop (Z.to_nat y + 2 * n) dst.
Definition yv12_size (img : copybit_image_t) : Z := img_w img * img_h img + 2 * (align_up 16 (img_w img / 2) * (img_h img / 2)).
Lemma conversion img mem dst : 0 <= horiz_padding img -> 2 <= img_w img - horiz_padding img -> 2 <= img_h img -> img_h img mod 2 = 0 ->
  yv12_size img < 2 ^ 31 -> yv12_size img <= length mem ->
  img_w img * img_h img + 2 * (img_h img / 2 * ((img_w img - horiz_padding img) / 2)) <= length dst ->
  convertYV12toYCrCb420SP img (Some mem) true dst = Ret (0, converted img mem dst).
Proof.
  intros Hp Hw Hh Heven Hbig Hmem Hdst. destruct img as [w h fmt pad]. cbn [img_w img_h horiz_padding] in *. unfold yv12_size in *.
  cbn [img_w img_h] in *. set (W := (w - pad) / 2) in *. set (cw := align_up 16 (w / 2)) in *.
  pose proof (Z.div_mod h 2 ltac:(lia)) as Eh. pose proof (Z.div_mod (w - pad) 2 ltac:(lia)) as Ew. pose proof (Z.mod_pos_bound (w - pad) 2 ltac:(lia)) as Mw.
  pose proof (Z.div_mod w 2 ltac:(lia)) as Ew2. pose proof (Z.mod_pos_bound w 2 ltac:(lia)) as Mw2.
  fold W in Ew. destruct (align_up_spec 16 (w / 2) ltac:(lia)) as [Hcw _]. fold cw in Hcw.
  assert (Hwh : W <= w / 2) by (apply Z.div_le_mono; lia). assert (HW : 1 <= W) by lia. assert (Hyn : 0 <= w * h) by nia.
  assert (Hwb : w < 2 ^ 30) by nia. assert (Hh2 : 1 <= h / 2) by lia. assert (Hcs : cw <= cw * (h / 2)) by (rewrite <- (Z.mul_1_r cw) at 1; apply Z.mul_le_mono_nonneg_l; lia).
  unfold convertYV12toYCrCb420SP. cbn [img_w img_h horiz_padding]. cbv zeta.
  rewrite ALIGN_u_16 by lia. fold cw. rewrite !(u32_id (w - pad)), (u32_id (w * h)), (u32_id (cw * h)) by nia. fold W.
  replace (cw * h / 2) with (cw * (h / 2)) by (rewrite Eh at 2; rewrite Heven, Z.add_0_r, (Z.mul_comm 2), Z.mul_assoc, Z.div_mul by lia; reflexivity).
  set (cs := cw * (h / 2)) in *. rewrite (u32_id (cw - W)), (u32_id (cs * 2)) by lia. replace (cs * 2 / 2) with cs by (rewrite Z.div_mul by lia; reflexivity).
  assert (HK : h / 2 * W <= cs) by (unfold cs; rewrite (Z.mul_comm cw); apply Z.mul_le_mono_nonneg_l; lia).
  rewrite (st_bind_Ret _ _ _ _ _ (memcpy_start (w * h) mem dst ltac:(nia) ltac:(nia))).
  set (P := take (Z.to_nat (w * h)) mem). set (D := drop (Z.to_nat (w * h)) dst).
  assert (HP : length P = Z.to_nat (w * h)) by (unfold P; rewrite length_take; lia).
  assert (HD : 2 * (h / 2 * W) <= length D) by (unfold D; rewrite length_drop; lia).
  assert (Hgoal : written mem (w * h) cw cs W P D (Z.to_nat (h / 2 * W)) = converted (mkImage w h fmt pad) mem dst)
    by (unfold written, converted, D; cbv zeta; cbn [img_w img_h horiz_padding]; fold W cw cs P; by rewrite drop_drop).
  rewrite <- Hgoal. change (P ++ D) with (written mem (w * h) cw cs W P D 0). destruct (Z.eqb_spec (cw - W) 0) as [E0 | E0].
  - assert (cs = h / 2 * W) by (unfold cs; nia). replace (cs * 2) with (2 * cs) by lia.
    pose proof (interleave_pairs mem (w * h) cw cs W (h / 2) ltac:(lia) ltac:(lia) eq_refl ltac:(lia) ltac:(lia) P D HP HD (Z.to_nat cs) 0 0
                  ltac:(lia) eq_refl ltac:(lia)) as E.
    rewrite (st_bind_Ret _ _ _ _ _ E). replace (0 + Z.to_nat cs)%nat with (Z.to_nat (h / 2 * W)) by lia. reflexivity.
  - rewrite (st_bind_Ret _ _ _ tt (written mem (w * h) cw cs W P D 0)) by reflexivity.
    pose proof (rows_pairs mem (w * h) cw cs W (h / 2) ltac:(lia) ltac:(lia) ltac:(lia) eq_refl ltac:(lia) ltac:(lia) P D HP HD (w - pad) h eq_refl eq_refl
                  ltac:(lia) (rows_fuel (w - pad) h) 0 0 0 0 0 ltac:(lia) ltac:(lia) ltac:(lia) ltac:(lia) ltac:(lia) ltac:(lia) ltac:(lia)) as E.
    rewrite (st_bind_Ret _ _ _ _ _ (E ltac:(unfold rows_fuel; fold W; destruct (0 =? w - pad); lia))). reflexivity.
Qed.
(** The bytes of three parts. *)
Lemma three_parts (A B C : list Z) (i : nat) :
  (A ++ B ++ C) !! i = if decide (i < length A)%nat then A !! i else if decide (i < length A + length B)%nat then B !! (i - length A)%nat
                       else C !! (i - length A - length B)%nat.
Proof.
  destruct (decide (i < length A)%nat); [by rewrite lookup_app_l |]. rewrite lookup_app_r by lia.
  destruct (decide (i < length A + length B)%nat); [by rewrite lookup_app_l by lia | by rewrite lookup_app_r by lia].
Qed.
Lemma nth_lookup_in (m : list Z) i : (i < length m)%nat -> Some (nth i m 0) = m !! i.
Proof. intros Hi. destruct (lookup_lt_is_Some_2 m i Hi) as [b Hb]. by rewrite Hb, (nth_lookup_Some _ _ _ _ Hb). Qed.
(** C19: The conversion of a YV12 image to YCrCb_420_SP ends and returns 0, and the buffer then
    holds the luma of the image, for each pixel of its colour planes the byte of the first plane
    and then that of the second, row after row without the padding, and beyond them what it held
    before; this for images with and without padding, which are converted by different loops. *)
Theorem yv12_interleaved img mem dst
    (y := img_w img * img_h img) (cw := align_up 16 (img_w img / 2)) (cs := cw * (img_h img / 2)) (W := (img_w img - horiz_padding img) / 2) :
  0 <= horiz_padding img -> 2 <= img_w img - horiz_padding img -> 2 <= img_h img -> img_h img mod 2 = 0 ->
  y + 2 * cs < 2 ^ 31 -> y + 2 * cs <= length mem -> y + 2 * (img_h img / 2 * W) <= length dst ->
  exists out, convertYV12toYCrCb420SP img (Some mem) true dst = Ret (0, out) /\ length out = length dst /\
    (forall i : nat, i < y -> out !! i = mem !! i) /\
    (forall r c, 0 <= r < img_h img / 2 -> 0 <= c < W ->
       out !! Z.to_nat (y + 2 * (r * W + c)) = mem !! Z.to_nat (y + (r * cw + c)) /\
       out !! Z.to_nat (y + 2 * (r * W + c) + 1) = mem !! Z.to_nat (y + cs + (r * cw + c))) /\
    (forall i : nat, y + 2 * (img_h img / 2 * W) <= i -> out !! i = dst !! i).
Proof.
  intros Hp Hw Hh He Hbig Hmem Hdst. exists (converted img mem dst). split; [by apply conversion |].
  unfold converted. cbv zeta. fold y cw cs W. set (n := Z.to_nat (img_h img / 2 * W)) in *.
  pose proof (Z.div_mod (img_h img) 2 ltac:(lia)) as Eh. assert (HW : 1 <= W) by (apply Z.div_le_lower_bound; lia).
  assert (Hy : 0 <= y) by (unfold y; nia). destruct (align_up_spec 16 (img_w img / 2) ltac:(lia)) as [Hcw _]. fold cw in Hcw.
  assert (HWw : W <= img_w img / 2) by (apply Z.div_le_mono; lia).
  assert (Hcs0 : 0 <= cs) by (apply Z.mul_nonneg_nonneg; lia).
  assert (HP : length (take (Z.to_nat y) mem) = Z.to_nat y) by (rewrite length_take; lia).
  assert (HB : length (pairs mem y cw cs W n) = (2 * n)%nat) by apply pairs_length. assert (Hn : Z.of_nat n = img_h img / 2 * W) by lia.
  assert (Hpix : forall r c, 0 <= r < img_h img / 2 -> 0 <= c < W -> 0 <= r * W + c < n /\ place cw W (Z.to_nat (r * W + c)) = r * cw + c /\ r * cw + c < cs).
  { intros r c Hr Hc. assert (0 <= r * W) by (apply Z.mul_nonneg_nonneg; lia).
    assert ((r + 1) * W <= img_h img / 2 * W) by (apply Z.mul_le_mono_nonneg_r; lia).
    assert ((r + 1) * cw <= img_h img / 2 * cw) by (apply Z.mul_le_mono_nonneg_r; lia). repeat split; [lia | lia | | unfold cs; lia].
    unfold place. rewrite Z2Nat.id by lia. replace (r * W + c) with (c + r * W) by lia. rewrite Z.div_add, Z.mod_add, Z.div_small, Z.mod_small by lia. lia. }
  assert (Hmid : forall r c b, 0 <= r < img_h img / 2 -> 0 <= c < W -> 0 <= b <= 1 ->
    (take (Z.to_nat y) mem ++ pairs mem y cw cs W n ++ drop (Z.to_nat y + 2 * n) dst) !! Z.to_nat (y + 2 * (r * W + c) + b) =
    pair mem y cw cs W (Z.to_nat (r * W + c)) !! Z.to_nat b).
  { intros r c b Hr Hc Hb. destruct (Hpix r c Hr Hc) as (Hk & _ & _). destruct (pairs_lookup mem y cw cs W n (Z.to_nat (r * W + c)) ltac:(lia)) as [E0 E1].
    rewrite three_parts, HP, HB. destruct (decide _); [lia |]. destruct (decide _); [| lia].
    destruct (decide (b = 0)) as [-> |]; [etransitivity; [| exact E0]; f_equal; lia |].
    assert (b = 1) as -> by lia. etransitivity; [| exact E1]. f_equal. lia. }
  split; [rewrite !length_app, HP, HB, length_drop; lia |]. split; [| split].
  - intros i Hi. rewrite three_parts, HP. destruct (decide _); [by rewrite lookup_take_lt by lia | lia].
  - intros r c Hr Hc. destruct (Hpix r c Hr Hc) as (Hk & Hpl & Hin). assert (0 <= r * cw) by (apply Z.mul_nonneg_nonneg; lia). split.
    + rewrite <- (Z.add_0_r (y + 2 * (r * W + c))), Hmid by lia. unfold pair. rewrite Hpl. cbn [lookup list_lookup]. apply nth_lookup_in. lia.
    + rewrite Hmid by lia. unfold pair. rewrite Hpl. change (Z.to_nat 1) with 1%nat. cbn [lookup list_lookup].
      replace (y + cs + (r * cw + c)) with (y + (r * cw + c) + cs) by lia. apply nth_lookup_in. lia.
  - intros i Hi. rewrite three_parts, HP, HB. destruct (decide _); [lia |]. destruct (decide _); [lia |]. rewrite lookup_drop. f_equal. lia.
Qed.

(** ** The copies *)
Lemma memcpy_size d src s n m : match memcpy d src s n m with Ret (_, m') => length m' = length m | Undef => True | NoFuel => False end.
Proof.
  unfold memcpy. destruct (_ && _) eqn:E; [| done]. rewrite !andb_true_iff, !Z.leb_le in E. destruct E as ((((? & ?) & ?) & ?) & ?).
  rewrite !length_app, !length_take, !length_drop. lia.
Qed.
Lemma memcpy_outside d src s n m : length m < d + n -> memcpy d src s n m = Undef.
Proof. intros H. unfold memcpy. rewrite (proj2 (Z.leb_gt (d + n) _)) by lia. by rewrite !andb_false_r. Qed.
(** Rows of which the last ends behind the buffer. *)
Lemma rows_outside (n : nat) src len ss ds s d m : length m < d + n * ds + len -> copy_rows (S n) src len ss ds s d m = Undef.
Proof.
  revert s d m. induction n as [| n IH]; intros s d m H.
  - cbn [copy_rows]. unfold mbind, st_bind. by rewrite memcpy_outside by lia.
  - change (copy_rows (S (S n)) src len ss ds s d) with (memcpy d src s len ≫= fun _ => copy_rows (S n) src len ss ds (s + ss) (d + ds)).
    unfold mbind, st_bind. pose proof (memcpy_size d src s len m) as Hs. destruct (memcpy d src s len m) as [[[] m'] | |]; [| done | done].
    apply IH. rewrite Hs. lia.
Qed.
Lemma rows_size n src len ss ds s d m : match copy_rows n src len ss ds s d m with Ret (_, m') => length m' = length m | Undef => True | NoFuel => False end.
Proof.
  revert s d m. induction n as [| n IH]; intros s d m; [done |]. cbn [copy_rows]. unfold mbind, st_bind.
  pose proof (memcpy_size d src s len m) as Hs. destruct (memcpy d src s len m) as [[[] m'] | |]; [| done | done].
  specialize (IH (s + ss) (d + ds) m'). destruct (copy_rows n _ _ _ _ _ _ m') as [[[] m''] | |]; [congruence | done | done].
Qed.
Lemma ALIGN_s_ok k x : 0 <= k < 30 -> 0 <= x < 2 ^ 30 -> ALIGN_s x (2 ^ k) = Ret (align_up (2 ^ k) x).
Proof.
  intros Hk Hx. assert (Hp : 0 < 2 ^ k <= 2 ^ 29) by (split; [lia | apply Z.pow_le_mono_r; lia]). unfold ALIGN_s.
  rewrite int_expr_ok, bind_ret by (unfold INT_MIN, INT_MAX; lia). rewrite int_expr_ok, bind_ret by (unfold INT_MIN, INT_MAX; lia).
  by rewrite align_up_clear by lia.
Qed.
(** The rows of the second plane are copied with the stride of the source: from C2D, whose rows are
    aligned to 32, to Android, with 16, the last one ends behind an image of exactly its size. *)
Lemma chroma_overrun {PL : Platform} src wid dst img : hal_format (img_format img) = HAL_PIXEL_FORMAT_YCrCb_420_SP ->
  0 < img_w img -> 2 <= img_h img < 2 ^ 31 -> align_up 32 (img_w img) * img_h img < 2 ^ 31 - 1 -> img_w img < 2 ^ 30 ->
  align_up 16 (img_w img) < align_up 32 (img_w img) ->
  Z.of_nat (length dst) = align_up 16 (img_w img) * img_h img + align_up 16 (img_w img) * (img_h img / 2) ->
  convert_yuv_c2d_to_yuv_android (Some (Some src, wid)) (Some true) (Some img) dst = Undef.
Proof.
  intros Hf Hw Hh Hs Hw30 Hlt Hd. destruct img as [w h f pad]. cbn [img_w img_h img_format] in *.
  set (A := align_up 32 w) in *. set (B := align_up 16 w) in *.
  destruct (align_up_spec 32 w ltac:(lia)) as [HA _]. destruct (align_up_spec 16 w ltac:(lia)) as [HB _]. fold A in HA. fold B in HB.
  pose proof (Z.div_mod h 2 ltac:(lia)) as Eh. pose proof (Z.mod_pos_bound h 2 ltac:(lia)) as Mh. assert (HBh : 0 <= B * h < 2 ^ 31 - 1) by nia.
  assert (HAh : 0 <= A * h) by nia.
  cbn [convert_yuv_c2d_to_yuv_android img_w]. rewrite !(swrap_small 32 w) by (change (2 ^ (32 - 1)) with (2 ^ 31); lia).
  change (ALIGN_s w 32) with (ALIGN_s w (2 ^ 5)). change (ALIGN_s w 16) with (ALIGN_s w (2 ^ 4)). rewrite !ALIGN_s_ok by lia.
  change (2 ^ 5) with 32. change (2 ^ 4) with 16. fold A B.
  rewrite (st_bind_Ret _ _ dst A dst eq_refl), (st_bind_Ret _ _ dst B dst eq_refl). unfold convert. cbn [img_format img_h img_w].
  rewrite !(swrap_small 32 h), !(swrap_small 32 w) by (change (2 ^ (32 - 1)) with (2 ^ 31); lia).
  assert (Ho : forall x, 0 <= x * h < 2 ^ 31 - 1 -> plane1_offset f x h = Ret (Some (x * h)))
    by (intros x Hx; unfold plane1_offset; rewrite Hf, int_expr_ok by (unfold INT_MIN, INT_MAX; lia); reflexivity).
  rewrite !Ho by lia. rewrite (st_bind_Ret _ _ dst _ dst eq_refl), (st_bind_Ret _ _ dst _ dst eq_refl).
  unfold copy_source_to_destination. cbn [ci_height ci_width src_stride dst_stride src_plane1_offset dst_plane1_offset]. unfold mbind, st_bind.
  pose proof (rows_size (Z.to_nat h) src w A B 0 0 dst) as Hl. destruct (copy_rows (Z.to_nat h) src w A B 0 0 dst) as [[[] m] | |]; [| done | done].
  rewrite Z.quot_div_nonneg by lia. replace (Z.to_nat (h / 2)) with (S (Z.to_nat (h / 2 - 1))) by lia.
  rewrite rows_outside; [reflexivity |]. rewrite (uwrap_small 64 (B * h)) by lia. rewrite Hl, Hd. nia.
Qed.
(** An image of which all columns are padding is never converted. *)
Lemma all_padding_never_ends fuel src y cw cs h r1 r2 i m : r1 < h / 2 -> rows fuel src y y 0 h cw cs r1 r2 i 0 m = NoFuel.
Proof.
  intros Hr. revert r2. induction fuel as [| fuel IH]; intros r2; cbn [rows]; (destruct (Z.ltb_spec r1 (h / 2)); [| lia]); [reflexivity | apply IH].
Qed.

(** ** An image of four by two pixels *)
Module CopySample.
Definition image : copybit_image_t := mkImage 4 2 0 0.
Definition memory : list Z := Z.of_nat <$> seq 0 40.
Definition target : list Z := replicate 14 99.
Definition result : list Z := [0; 1; 2; 3; 4; 5; 6; 7; 8; 24; 9; 25; 99; 99].
Lemma sample_converted : convertYV12toYCrCb420SP image (Some memory) true target = Ret (0, result).
Proof. reflexivity. Qed.
Lemma yv12_interleaved_witness : exists out, convertYV12toYCrCb420SP image (Some memory) true target = Ret (0, out) /\ length out = 14%nat /\
  out !! 10%nat = Some 9 /\ out !! 11%nat = Some 25.
Proof.
  destruct (yv12_interleaved image memory target) as (out & E & Hl & _ & Hpix & _); [cbn; lia | cbn; lia | cbn; lia | reflexivity | vm_compute; reflexivity
    | vm_compute; discriminate | vm_compute; discriminate |].
  destruct (Hpix 0 1) as [H1 H2]; [vm_compute; split; [discriminate | reflexivity] | vm_compute; split; [discriminate | reflexivity] |].
  exists out. split; [exact E |]. split; [exact Hl |]. split; [exact H1 | exact H2].
Defined.
End CopySample.
End CopyProps.
